(* ===== verification/_CoqProject ===== *)
-Q . S2P
Prelude.v
Mmu.v
Mem.v
Cstring.v
Spinlock.v
Kalloc.v
Vm.v
PageTable.v
Walk.v
VmInv.v
Uvm.v
Kvm.v
Cow.v
Grow.v
Load.v
VmProps.v
Rand.v
Proc.v
ProcSpec.v
ProcOps.v
Sched.v
System.v
Progress.v
ProcProps.v
Blk.v
FsState.v
Bio.v
BioSpec.v
Log.v
LogSpec.v
LogProps.v
LogOps.v
Fs.v
FsSpec.v
FsProps.v
FsRead.v
FsPath.v
Mkfs.v
MkfsFile.v
MkfsProps.v
FsImage.v
Ide.v
IdeProps.v
Pipe.v
PipeProps.v
File.v
Syscall.v
Sysfile.v
FileProps.v
Descriptors.v
FdProps.v
Sysproc.v
Exec.v
ExecProps.v
ExecFs.v
Ulib.v
Console.v
ConsoleProps.v
Kbd.v
Umalloc.v
UmallocProps.v
Grep.v
Sh.v
ShProps.v
Usys.v
Uprogs.v
Uwp.v
UprogProps.v
Shell.v
Procs.v
ShellSpec.v
ShellProps.v
Mp.v
MpProps.v
Lapic.v
Clock.v
Boot.v
BootProps.v
Startup.v
StartupProps.v
