(* ===== verification/Prelude.v ===== *)
(** * A verification of the xv6 kernel of this repository

    The program is xv6 for the x86 with copy-on-write [fork], three schedulers chosen
    at compile time, and the usual user programs.  This library models its parts as
    executable definitions and proves what they promise.  Machine integers are [Z]
    with the wrap-around written out ([u8], [u16], [u32], [s32]); pointers are
    addresses; memory is a finite map from addresses to bytes.  An operation is a
    function from a state to an [outcome]: a value and the next state, a [panic], a
    [Block] (the code has to sleep on a channel) or [UB], behaviour the C standard
    leaves undefined, such as an index outside an array or a null dereference.

    ** Files

    - [Prelude]: outcomes and their monad, locks as the set of those the processor
      holds (class [LockState]), machine integers, lists, and circular buffers, for
      pipes and the console.
    - [Mmu]: param.h, memlayout.h, mmu.h.  [Mem]: memory, and the string instructions
      of x86.h.  [Cstring]: string.c.
    - [Spinlock]: spinlock.c and [mycpu] of proc.c, as an interleaving of single
      memory accesses of several processors.  It shows that the lock word implements
      the interface the other files use.
    - [Kalloc]: kalloc.c, the free list and the reference counts.
    - [Vm]: vm.c.  [PageTable], [Walk], [VmInv] hold the abstract view of page tables
      and the invariant of a machine with several address spaces; [Uvm], [Kvm], [Cow],
      [Grow], [Load] prove one group of operations each; [VmProps] states the
      properties.
    - [Rand]: rand.c.
    - [Proc]: proc.c and [switchuvm] of vm.c.  [ProcSpec] and [ProcOps] describe what
      each operation does to the table, [Sched] holds the table invariant, [System]
      the interleaving of several processors, [Progress] what a processor that scans the
      table can count on, [ProcProps] the properties.
    - [Blk]: little-endian fields of a block.  [FsState]: the state of the file system
      (buffers, disk, log, inodes) and sleeplock.c.  [Bio]: bio.c over the driver of
      memide.c.  [Log]: log.c.  [Fs]: fs.c.  [BioSpec], [LogSpec], [FsSpec] say what
      their operations do to the contents of blocks; [LogProps] and [LogOps] follow a
      transaction through commit, crash and recovery; [FsProps] states the properties
      of the cache and of fs.c; [FsRead] and [FsPath] say what files hold and where
      path names lead.
    - [Mkfs]: mkfs.c.  [MkfsFile], [MkfsProps]: the image it makes.  [FsImage]: the
      kernel on that image.  [Ide], [IdeProps]: ide.c and ioapic.c, over a controller
      given by laws.
    - [Pipe]: the state of the file layer and pipe.c.  [PipeProps]: a pipe as a queue.
      [File]: file.c and [pipealloc].  [Syscall]: syscall.c.  [Sysfile]: sysfile.c.
      [FileProps]: the reference counts of open files.  [Descriptors], [FdProps]: the
      table of descriptors as user programs see it.  [Sysproc]: sysproc.c and the parts
      of trap.c that act on processes.  [Exec]: exec.c, over the file layer as an
      interface; [ExecProps]: what a program file describes; [ExecFs]: the file system
      provides the interface.
    - [Ulib]: ulib.c, printf.c and the formatting of [cprintf].  [Console]: console.c
      and the output of uart.c.  [ConsoleProps]: the screen as a terminal, the input as
      a line being edited.  [Kbd]: kbd.h, kbd.c and the interrupts of uart.c.
    - [Umalloc], [UmallocProps]: umalloc.c and its blocks.  [Grep]: grep.c.  [Sh],
      [ShProps]: the parser of sh.c.
    - [Usys]: user.h and the rest of the user library, with programs as interaction
      trees of system calls.  [Uprogs]: the programs.  [Uwp], [UprogProps]: their total
      correctness on files.  [Shell]: the rest of sh.c.  [Procs]: processes that make
      system calls, in any order.  [ShellSpec], [ShellProps]: what a command means, and
      that the shell does it.
    - [Mp], [MpProps]: mp.c and the tables of the firmware.  [Lapic]: lapic.c and
      picirq.c.  [Clock]: the date read by [cmostime].  [Boot], [BootProps]: bootmain.c.
      [Startup], [StartupProps]: [startothers] of main.c, what the processors it starts
      execute (entryother.S, [mpenter], [mpmain]), and [seginit] of vm.c.

    The components meet at their C interfaces: vm.c and kalloc.c work on a [machine];
    [Proc] embeds that machine and reaches the file layer through the class
    [FileLayer]; the file layer ([fl]) embeds a machine for the pages of pipes and the
    file system ([fs]), and hands the channels it wakes to process management.  Devices
    are classes of register and port accesses; what a device does is a second class of
    laws, and each such class has an instance that computes.  User programs reach the
    kernel by events; [FdProps] relates the descriptors the shell relies on to sysfile.c.

    ** What the theorems show

    - Memory: [copyuvm] gives the child the memory of the parent without letting
      either see the stores of the other; [pagefault] resolves a write to a shared
      page; [freevm] and [deallocuvm] free exactly the pages nobody else refers to;
      the reference counts always equal the number of mappings.
    - Locks: mutual exclusion, absence of unintended panics, and refinement of the
      interface.
    - Processes: an invariant of the table in every interleaving, with [fork] and [exit]
      divided where others can come in between; progress of the DEFAULT scheduler against
      every run of the other processors (the LOTTERY scheduler never runs anybody); what
      [fork] and [wait] return, and the places where the code leaves its arrays.
    - Random numbers: the generator is the Mersenne Twister, the draw is in range.
    - File system: the cache never changes what a block holds; a transaction reaches
      the disk completely or not at all whenever the machine stops, and recovery may
      itself be interrupted; [balloc] and [bfree] change exactly one bit; inodes are
      read back as written; [readi] returns the bytes of the file, and [namex] leads
      where the directories say.  mkfs makes the file system it is asked for, the kernel
      finds and reads its files, and [exec] runs its programs.  The interrupt-driven
      driver does to disk and buffers what the atomic one does.
    - Programs: [exec] builds exactly the image the file describes, or changes nothing.
    - Files: a pipe is a first-in first-out queue under any interleaving of its users;
      the reference count of an open file is exact after any sequence of calls;
      arguments the kernel accepts lie in the memory of the process.
    - Console: output is what a terminal of 24 lines shows, and never panics; whatever
      the order of interrupts and reads, input is one line being edited and a queue of
      bytes; the keys of a text give that text.
    - User programs: the blocks of [malloc] never overlap and nothing is lost; the
      matcher of grep decides the language of its expressions; the parser of the shell
      ends on every line and reads back every command; numbers are printed so that they
      can be read back.  The shell runs a command as it is written in every interleaving
      of its processes, and comes to an end; cat, wc and echo print what they should.
    - Start-up: the boot loader loads the kernel; [mpinit] finds the processors of the
      table and [startothers] brings each of them up once; [cmostime] never returns a
      mixture of two dates.

    ** Bounds and fuel

    Loops that the code bounds by an address or an index are recursive on the number of
    iterations, which the caller computes from the same bound.  The rejection loop of
    [random_at_most] takes fuel; the theorem on it holds for every fuel with which a
    value is returned, and says when one is.  The loop of [namex] takes the length of
    the path, and is shown to need no more.  [filewrite] takes the number of bytes,
    each iteration writing at least one.  The parser of the shell takes four times the
    length of the line and a little more, and is shown never to run out; the searches of
    [malloc] and [free] take the number of headers, and are shown to need no more.
    [loaduvm] and [copyout] take the number of pages, [readi] and [writei] the number of
    bytes, [iappend] of mkfs the number of bytes, [readseg] the number of sectors, and
    [mpinit] 8192, a table of 16 bits of length holding no more entries of eight bytes.
    Loops that wait for a device ([idewait], [waitdisk], [lapicinit], [startothers])
    take a number that belongs to the device; its laws say that it is enough.
    [cmostime] takes fuel, and returns with two more than the reads within which the
    clock is quiet for a while.  The loops of user programs are [ITree.iter], and the
    theorems on them include that every execution ends.

    ** Interleaving

    A step of [System] is what one processor does between two points at which others can
    come in.  Code under [ptable.lock] is one step, since all other code that changes a
    process another one may look at takes the lock.  [fork] is divided after the slot of the
    child has been taken, and again after each of its statements and each file; [exit] after
    each file, [begin_op], [iput] and [end_op].  Between such parts the process may be
    preempted, and may sleep.  A part itself, such as [copyuvm] or [fileclose], is one step:
    of the table it changes only the slot of the child, which nobody else uses while it is
    EMBRYO, or the own slot, and it takes the lock if it wakes somebody.  [growproc] and
    [exec], which change the memory of the process that calls them, are not steps of
    [System]; they are treated on their own.

    ** Sleeping

    [Block] is the result of a call that has to sleep.  For a call whose sleep is its
    first effect ([acquiresleep], [begin_op], [piperead]) going on after the sleep is
    calling it again.  A longer operation that would sleep half-way also ends in
    [Block], and the theorems on such operations are about the runs that do not.
    [wait], [sleep], [sys_sleep], [pipewrite] and [consoleread], where the rest of the call is not the
    call itself, are split into the part before and the part after the sleep.

    ** Not modelled

    The assembly (start-up, entry and exit of the kernel, and the context switch, which
    is a step of [System]), except the part of entryother.S that uses the words
    [startothers] left for it; [main], which calls the functions that initialise the
    components in order; [consoleinit], [uartinit] and the printing of
    [panic]; the dispatch of [trap] to the handlers of devices, which are modelled each
    on its own; the MFQ configuration, which does not compile; the listings of processes
    in the kernel; the test programs, which define no behaviour of the system.  Of the
    user programs, [cat], [wc], [echo], [grep] and the shell have theorems; the others
    are definitions only. *)

From Stdlib Require Export ZArith Lia.
From stdpp Require Export base decidable tactics list gmap strings.


Open Scope Z_scope.

(** * Wait channels and locks *)

(** The sleep locks of the kernel: one per buffer and one per cached inode. *)
Inductive slock := SlBuf (i : nat) | SlInode (i : nat).

(** The spin locks of the kernel, one constructor per C object that embeds one. *)
Inductive lockid :=
| LkPtable | LkKmem | LkBcache | LkIcache | LkFtable | LkLog | LkCons | LkIde | LkTicks
| LkPipe (p : Z) | LkSleep (l : slock).

(** The addresses processes sleep on.  Distinct C objects have distinct addresses. *)
Inductive chan :=
| ChProc (i : nat) | ChTicks | ChLog | ChBuf (i : nat) | ChSleep (l : slock)
| ChPipeRead (p : Z) | ChPipeWrite (p : Z) | ChInput.

#[export] Instance slock_eq_dec : EqDecision slock.
Proof. solve_decision. Defined.
#[export] Instance lockid_eq_dec : EqDecision lockid.
Proof. solve_decision. Defined.
#[export] Instance chan_eq_dec : EqDecision chan.
Proof. solve_decision. Defined.

(** * The state and error monad of kernel code *)

(** What running a piece of kernel code from a state can lead to: it returns; it
    calls [panic], which never returns; it must wait on a channel for another
    thread (the state is the one at the moment it gives up the CPU); or it runs
    into undefined behaviour of C, such as an access outside an array. *)
Inductive outcome (S A : Type) : Type :=
| Ret (a : A) (s : S)
| Panic (msg : string)
| Block (ch : chan) (s : S)
| UB (msg : string).
Arguments Ret {S A} _ _.
Arguments Panic {S A} _.
Arguments Block {S A} _ _.
Arguments UB {S A} _.

Definition M (S A : Type) : Type := S -> outcome S A.

Definition ret {S A} (a : A) : M S A := fun s => Ret a s.
Definition bind {S A B} (m : M S A) (f : A -> M S B) : M S B := fun s =>
  match m s with
  | Ret a s' => f a s'
  | Panic e => Panic e
  | Block c s' => Block c s'
  | UB e => UB e
  end.
Definition panic {S A} (msg : string) : M S A := fun _ => Panic msg.
Definition ub {S A} (msg : string) : M S A := fun _ => UB msg.
Definition block {S A} (ch : chan) : M S A := fun s => Block ch s.
Definition gets {S A} (f : S -> A) : M S A := fun s => Ret (f s) s.
Definition modify {S} (f : S -> S) : M S unit := fun s => Ret tt (f s).

Declare Scope kernel_scope.
Delimit Scope kernel_scope with kernel.
Notation "x <- m ;; k" := (bind m (fun x => k))
  (at level 100, m at next level, right associativity) : kernel_scope.
Notation "m ;;; k" := (bind m (fun _ => k))
  (at level 100, right associativity) : kernel_scope.
Notation "'when' b 'do' m" := (if b then m else ret tt)
  (at level 99, b at level 90, m at level 99) : kernel_scope.
Open Scope kernel_scope.

(** Run a component's code inside a larger state that contains the component's
    state, given by its getter and its setter. *)
Definition zoom {S T A} (get : S -> T) (put : T -> S -> S) (m : M T A) : M S A := fun s =>
  match m (get s) with
  | Ret a t => Ret a (put t s)
  | Panic e => Panic e
  | Block c t => Block c (put t s)
  | UB e => UB e
  end.

(** Did the code return (as opposed to panicking, waiting or going wrong)? *)
Definition returns {S A} (o : outcome S A) : Prop :=
  match o with Ret _ _ => True | _ => False end.

Lemma bind_ret {S A B} (m : M S A) (f : A -> M S B) s a s' :
  m s = Ret a s' -> bind m f s = f a s'.
Proof. intros H. unfold bind. by rewrite H. Qed.

Lemma bind_panic {S A B} (m : M S A) (f : A -> M S B) s e :
  m s = Panic e -> bind m f s = Panic e.
Proof. intros H. unfold bind. by rewrite H. Qed.

Lemma bind_block {S A B} (m : M S A) (f : A -> M S B) s c s' :
  m s = Block c s' -> bind m f s = Block c s'.
Proof. intros H. unfold bind. by rewrite H. Qed.

Lemma bind_ub {S A B} (m : M S A) (f : A -> M S B) s e :
  m s = UB e -> bind m f s = UB e.
Proof. intros H. unfold bind. by rewrite H. Qed.

Lemma bind_assoc {S A B C} (m : M S A) (f : A -> M S B) (g : B -> M S C) s :
  bind (bind m f) g s = bind m (fun a => bind (f a) g) s.
Proof. unfold bind. by destruct (m s). Qed.

Lemma bind_Ret_inv {S A B} (m : M S A) (f : A -> M S B) s b s'' :
  bind m f s = Ret b s'' -> exists a s', m s = Ret a s' /\ f a s' = Ret b s''.
Proof. unfold bind. destruct (m s); naive_solver. Qed.

Lemma bind_gets {S A B} (f : S -> A) (k : A -> M S B) s : bind (gets f) k s = k (f s) s.
Proof. done. Qed.

Lemma bind_modify {S B} (f : S -> S) (k : unit -> M S B) s : bind (modify f) k s = k tt (f s).
Proof. done. Qed.

Lemma zoom_ret {S T A} (get : S -> T) (put : T -> S -> S) (m : M T A) s a t :
  m (get s) = Ret a t -> zoom get put m s = Ret a (put t s).
Proof. unfold zoom. by intros ->. Qed.

(** Symbolic execution: [step H] runs the next statement with an equation for it;
    [inv_bind H] splits an equation of a sequence that returned. *)
Ltac step H := rewrite (bind_ret _ _ _ _ _ H).
Ltac inv_bind H :=
  let a := fresh "r" in let s := fresh "s" in let H1 := fresh "Hrun" in
  apply bind_Ret_inv in H as (a & s & H1 & H).
Ltac inv_ret :=
  repeat match goal with
  | H : ret _ _ = Ret _ _ |- _ => unfold ret in H
  | H : gets _ _ = Ret _ _ |- _ => unfold gets in H
  | H : modify _ _ = Ret _ _ |- _ => unfold modify in H
  | H : panic _ _ = Ret _ _ |- _ => discriminate H
  | H : ub _ _ = Ret _ _ |- _ => discriminate H
  | H : block _ _ = Ret _ _ |- _ => discriminate H
  | H : Ret _ _ = Ret _ _ |- _ => injection H as ?; subst
  | H : Panic _ = Ret _ _ |- _ => discriminate H
  end.

(** * What one CPU holds: the interface of the spin locks *)

(** Sequential kernel code sees the spin locks through the list of those its own
    CPU holds, most recent first.  [Spinlock] proves that the lock words, the
    owner fields and the [pushcli] counters of spinlock.c implement this view. *)
Class LockState (S : Type) := {
  held : S -> list lockid;
  set_held : list lockid -> S -> S;
  held_set_held : forall h s, held (set_held h s) = h;
  set_held_set_held : forall h h' s, set_held h (set_held h' s) = set_held h s;
  set_held_held : forall s, set_held (held s) s = s;
}.

Definition holding {S} `{LockState S} (l : lockid) : M S bool :=
  fun s => Ret (bool_decide (l ∈ held s)) s.

Definition acquire {S} `{LockState S} (l : lockid) : M S unit := fun s =>
  if decide (l ∈ held s) then Panic "acquire" else Ret tt (set_held (l :: held s) s).

Definition release {S} `{LockState S} (l : lockid) : M S unit := fun s =>
  if decide (l ∈ held s) then Ret tt (set_held (filter (fun l' => l' ≠ l) (held s)) s)
  else Panic "release".

(** [initlock] leaves a lock that nobody holds. *)
Definition initlock {S} `{LockState S} (l : lockid) : M S unit := fun s =>
  Ret tt (set_held (filter (fun l' => l' ≠ l) (held s)) s).

Lemma filter_ne_notin (l : lockid) (h : list lockid) : l ∉ h -> filter (fun l' => l' ≠ l) h = h.
Proof.
  induction h as [|x h IH]; [done|]. intros Hn%not_elem_of_cons.
  destruct Hn as [Hne Hn]. rewrite filter_cons_True by congruence. by rewrite IH.
Qed.

Lemma filter_ne_cons (l : lockid) (h : list lockid) : l ∉ h -> filter (fun l' => l' ≠ l) (l :: h) = h.
Proof. intros Hn. rewrite filter_cons_False by naive_solver. by apply filter_ne_notin. Qed.

Section Locks.
Context {S : Type} `{LockState S}.

Lemma acquire_free l (s : S) :
  l ∉ held s -> acquire l s = Ret tt (set_held (l :: held s) s).
Proof. intros Hn. unfold acquire. by rewrite decide_False. Qed.

Lemma acquire_held l (s : S) : l ∈ held s -> acquire l s = Panic "acquire".
Proof. intros Hn. unfold acquire. by rewrite decide_True. Qed.

Lemma release_top l h (s : S) :
  held s = l :: h -> l ∉ h -> release l s = Ret tt (set_held h s).
Proof.
  intros Hh Hn. unfold release. rewrite Hh, decide_True by set_solver.
  by rewrite filter_ne_cons.
Qed.

Lemma release_free l (s : S) : l ∉ held s -> release l s = Panic "release".
Proof. intros Hn. unfold release. by rewrite decide_False. Qed.

Lemma initlock_free l (s : S) : l ∉ held s -> initlock l s = Ret tt s.
Proof. intros Hn. unfold initlock. by rewrite filter_ne_notin, set_held_held. Qed.

Lemma acquire_release l (s : S) :
  l ∉ held s -> (acquire l ;;; release l) s = Ret tt s.
Proof.
  intros Hn. step (acquire_free _ _ Hn).
  rewrite (release_top l (held s)); [|by rewrite held_set_held|done].
  by rewrite set_held_set_held, set_held_held.
Qed.
End Locks.

(** * Machine integers *)

Definition u8 (x : Z) : Z := x mod 2 ^ 8.
Definition u16 (x : Z) : Z := x mod 2 ^ 16.
Definition u32 (x : Z) : Z := x mod 2 ^ 32.
(** The [int] with the same 32 bits. *)
Definition s32 (x : Z) : Z := let y := u32 x in if y <? 2 ^ 31 then y else y - 2 ^ 32.
(** The [short] with the same 16 bits. *)
Definition s16 (x : Z) : Z := let y := u16 x in if y <? 2 ^ 15 then y else y - 2 ^ 16.

#[global] Arguments u8 : simpl never.
#[global] Arguments u16 : simpl never.
#[global] Arguments u32 : simpl never.
#[global] Arguments s16 : simpl never.
#[global] Arguments s32 : simpl never.

Create HintDb word.
Create Rewrite HintDb word.

Lemma u8_bound x : 0 <= u8 x < 256.
Proof. apply Z.mod_pos_bound. lia. Qed.
Lemma u16_bound x : 0 <= u16 x < 65536.
Proof. apply Z.mod_pos_bound. lia. Qed.
Lemma u32_bound x : 0 <= u32 x < 4294967296.
Proof. apply Z.mod_pos_bound. lia. Qed.
Lemma u8_id x : 0 <= x < 256 -> u8 x = x.
Proof. apply Z.mod_small. Qed.
Lemma u16_id x : 0 <= x < 65536 -> u16 x = x.
Proof. apply Z.mod_small. Qed.
Lemma u32_id x : 0 <= x < 4294967296 -> u32 x = x.
Proof. apply Z.mod_small. Qed.
Lemma u32_u32 x : u32 (u32 x) = u32 x.
Proof. apply u32_id, u32_bound. Qed.
Lemma u32_add_l x y : u32 (u32 x + y) = u32 (x + y).
Proof. unfold u32. by rewrite Zplus_mod_idemp_l. Qed.
Lemma u32_add_r x y : u32 (x + u32 y) = u32 (x + y).
Proof. unfold u32. by rewrite Zplus_mod_idemp_r. Qed.
Lemma s32_bound x : -2147483648 <= s32 x < 2147483648.
Proof.
  unfold s32. pose proof (u32_bound x).
  destruct (Z.ltb_spec (u32 x) (2 ^ 31)); lia.
Qed.
Lemma s32_id x : -2147483648 <= x < 2147483648 -> s32 x = x.
Proof.
  intros Hx. unfold s32, u32. destruct (decide (0 <= x)) as [Hp|Hp].
  - rewrite Z.mod_small by lia. destruct (Z.ltb_spec x (2 ^ 31)); lia.
  - replace (x mod 2 ^ 32) with (x + 2 ^ 32)
      by (symmetry; rewrite <- (Z_mod_plus_full x 1); apply Z.mod_small; lia).
    destruct (Z.ltb_spec (x + 2 ^ 32) (2 ^ 31)); lia.
Qed.
Lemma u32_s32 x : u32 (s32 x) = u32 x.
Proof.
  unfold s32. destruct (Z.ltb_spec (u32 x) (2 ^ 31)) as [_|_].
  - apply u32_u32.
  - unfold u32 at 1. rewrite <- (Z_mod_plus_full (u32 x - 2 ^ 32) 1).
    replace (u32 x - 2 ^ 32 + 1 * 2 ^ 32) with (u32 x) by lia. apply u32_u32.
Qed.

#[export] Hint Resolve u8_bound u16_bound u32_bound s32_bound : word.
#[export] Hint Rewrite u32_u32 u32_add_l u32_add_r u32_s32 : word.

(** * Bits *)

Lemma land_lnot_low x k : 0 <= x -> 0 <= k -> Z.land x (Z.lnot (2 ^ k - 1)) = x - x mod 2 ^ k.
Proof.
  intros Hx Hk.
  replace (2 ^ k - 1) with (Z.ones k) by (rewrite Z.ones_equiv; lia).
  rewrite <- Z.ldiff_land, Z.ldiff_ones_r, Z.shiftl_mul_pow2, Z.shiftr_div_pow2 by lia.
  pose proof (Z.div_mod x (2 ^ k)). assert (2 ^ k <> 0) by (apply Z.pow_nonzero; lia). lia.
Qed.

Lemma lor_add x y k : 0 <= k -> 0 <= y < 2 ^ k -> x mod 2 ^ k = 0 -> Z.lor x y = x + y.
Proof.
  intros Hk Hy Hx. enough (Z.land x y = 0) by (pose proof (Z.add_lor_land x y); lia).
  apply Z.bits_inj'. intros n Hn. rewrite Z.land_spec, Z.bits_0.
  destruct (decide (n < k)) as [Hlt|Hge].
  - rewrite <- (Z.mod_pow2_bits_low x k n), Hx, Z.bits_0 by lia. done.
  - rewrite <- (Z.mod_small y (2 ^ k)), Z.mod_pow2_bits_high by lia. by rewrite andb_false_r.
Qed.

Lemma land_bound x y k : 0 <= k -> 0 <= x < 2 ^ k -> 0 <= Z.land x y < 2 ^ k.
Proof.
  intros Hk Hx. replace (Z.land x y) with (Z.land x y mod 2 ^ k); [apply Z.mod_pos_bound; lia|].
  rewrite <- Z.land_ones by done. rewrite <- Z.land_assoc, (Z.land_comm y), Z.land_assoc.
  by rewrite Z.land_ones, Z.mod_small.
Qed.

(** * Lists *)

(** The codes of the characters of a string. *)
Definition codes (s : string) : list Z := (fun c => Z.of_nat (Ascii.nat_of_ascii c)) <$> String.list_ascii_of_string s.

Create Rewrite HintDb len.
#[export] Hint Rewrite @length_app @length_take @length_drop @length_insert @length_replicate
  @length_fmap @length_seq @length_nil @length_cons : len.
Ltac len := autorewrite with len; try lia.

(** Overwrite the bytes of [l] from index [n] on with [l'], as a [memmove] into an
    array does; bytes that would fall outside the array are dropped. *)
Definition splice {A} (l : list A) (n : nat) (l' : list A) : list A :=
  take (length l) (take n l ++ l' ++ drop (n + length l') l).

Lemma length_splice {A} (l : list A) n l' : (n <= length l)%nat -> length (splice l n l') = length l.
Proof. intros Hn. unfold splice. len. Qed.

Lemma splice_in {A} (l : list A) n l' :
  (n + length l' <= length l)%nat -> splice l n l' = take n l ++ l' ++ drop (n + length l') l.
Proof. intros Hn. unfold splice. apply take_ge. len. Qed.

Lemma lookup_splice_in {A} (l : list A) n l' i :
  (n + length l' <= length l)%nat -> (n <= i < n + length l')%nat ->
  splice l n l' !! i = l' !! (i - n)%nat.
Proof.
  intros Hn Hi. rewrite splice_in by done.
  rewrite lookup_app_r by len. rewrite lookup_app_l by len. f_equal. len.
Qed.

Lemma lookup_splice_out {A} (l : list A) n l' i :
  (n + length l' <= length l)%nat -> (i < n \/ n + length l' <= i)%nat ->
  splice l n l' !! i = l !! i.
Proof.
  intros Hn Hi. rewrite splice_in by done. destruct (decide (i < n)%nat).
  - rewrite lookup_app_l by len. apply lookup_take_lt. done.
  - rewrite lookup_app_r by len. rewrite lookup_app_r by len.
    rewrite lookup_drop. f_equal. len.
Qed.

(** How many elements of a list satisfy a test. *)
Fixpoint countb {A} (f : A -> bool) (l : list A) : nat :=
  match l with
  | [] => 0
  | x :: l => (if f x then 1 else 0) + countb f l
  end%nat.

Lemma countb_ext {A} (f g : A -> bool) l :
  (forall x, x ∈ l -> f x = g x) -> countb f l = countb g l.
Proof.
  induction l as [|x l IH]; intros Hfg; [done|]. simpl. rewrite Hfg by (by left).
  f_equal. apply IH. intros y Hy. apply Hfg. by right.
Qed.

Lemma countb_flip {A} (f g : A -> bool) l k :
  NoDup l -> k ∈ l -> (forall x, x ∈ l -> x <> k -> f x = g x) -> f k = true -> g k = false ->
  countb f l = S (countb g l).
Proof.
  induction l as [|x l IH]; intros Hd Hk Hfg Hf Hg; [by apply elem_of_nil in Hk|].
  apply NoDup_cons in Hd as [Hx Hd]. simpl. apply elem_of_cons in Hk as [->|Hk].
  - rewrite Hf, Hg. simpl. f_equal. apply countb_ext. intros y Hy. apply Hfg; [by right|].
    intros ->. done.
  - rewrite (IH Hd Hk); [|intros y Hy Hne; apply Hfg; [by right|done]|done|done].
    rewrite (Hfg x); [|by left|intros ->; done]. lia.
Qed.

Lemma countb_zero {A} (f : A -> bool) l : countb f l = 0%nat -> forall x, x ∈ l -> f x = false.
Proof.
  induction l as [|y l IH]; intros Hc x Hx; [by apply elem_of_nil in Hx|]. simpl in Hc.
  apply elem_of_cons in Hx as [->|Hx]; [destruct (f y); [lia|done]|]. apply IH; [lia|done].
Qed.

Lemma countb_le_length {A} (f : A -> bool) l : (countb f l <= length l)%nat.
Proof. induction l as [|x l IH]; simpl; [lia|]. destruct (f x); lia. Qed.

Lemma countb_pos {A} (f : A -> bool) l x : x ∈ l -> f x = true -> (0 < countb f l)%nat.
Proof.
  induction 1 as [x l|x y l Hin IH]; simpl; intros Hf; [rewrite Hf; lia|]. specialize (IH Hf).
  destruct (f y); lia.
Qed.

Lemma countb_one {A} (f : A -> bool) l x y :
  NoDup l -> countb f l = 1%nat -> x ∈ l -> y ∈ l -> f x = true -> f y = true -> x = y.
Proof.
  induction l as [|z l IH]; intros Hd Hc Hx Hy Hfx Hfy; [by apply elem_of_nil in Hx|].
  apply NoDup_cons in Hd as [Hz Hd]. simpl in Hc.
  apply elem_of_cons in Hx as [->|Hx], Hy as [->|Hy]; [done| | |].
  - rewrite Hfx in Hc. pose proof (countb_pos f l y Hy Hfy). lia.
  - rewrite Hfy in Hc. pose proof (countb_pos f l x Hx Hfx). lia.
  - pose proof (countb_pos f l y Hy Hfy). destruct (f z); [lia|]. by apply IH.
Qed.

Lemma countb_app {A} (f : A -> bool) l l' : countb f (l ++ l') = (countb f l + countb f l')%nat.
Proof. induction l as [|x l IH]; simpl; [done|]. rewrite IH. lia. Qed.

Lemma countb_none {A} (f : A -> bool) l : (forall x, x ∈ l -> f x = false) -> countb f l = 0%nat.
Proof.
  induction l as [|x l IH]; intros Hf; [done|]. simpl. rewrite Hf by (by left). apply IH.
  intros y Hy. apply Hf. by right.
Qed.

Lemma countb_fmap {A B} (g : A -> B) (f : B -> bool) l : countb f (g <$> l) = countb (fun x => f (g x)) l.
Proof. induction l as [|x l IH]; [done|]. rewrite fmap_cons. cbn [countb]. by rewrite IH. Qed.

Definition b2n (b : bool) : nat := if b then 1%nat else 0%nat.

(** Changing the test at one element. *)
Lemma countb_change {A} (f g : A -> bool) l k :
  NoDup l -> k ∈ l -> (forall x, x ∈ l -> x <> k -> f x = g x) ->
  (countb f l + b2n (g k) = countb g l + b2n (f k))%nat.
Proof.
  intros Hd Hk He. destruct (f k) eqn:Hf, (g k) eqn:Hg; simpl.
  - f_equal. apply countb_ext. intros x Hx. destruct (f x) eqn:?, (g x) eqn:?; try done;
      exfalso; assert (x <> k) by congruence; specialize (He x Hx); naive_solver congruence.
  - rewrite (countb_flip f g l k) by done. lia.
  - rewrite (countb_flip g f l k); try done; [lia|]. intros x Hx Hne. symmetry. by apply He.
  - f_equal. apply countb_ext. intros x Hx. destruct (f x) eqn:?, (g x) eqn:?; try done;
      exfalso; assert (x <> k) by congruence; specialize (He x Hx); naive_solver congruence.
Qed.

(** ** Circular buffers

    The bytes of an array of [size] elements from a position on, for positions that are
    32-bit counters.  They wrap around in step with the array when [size] divides
    [2 ^ 32].  pipe.c and console.c keep their data in such a buffer. *)

Section Ring.
Context (size : Z) (size_pos : 0 < size) (size_div : (size | 2 ^ 32)).

(** The [n] elements from position [r] on. *)
Definition window (data : list Z) (r : Z) (n : nat) : list Z :=
  (fun k => nth (Z.to_nat ((r + Z.of_nat k) mod size)) data 0) <$> seq 0 n.

Lemma length_ring data r n : length (window data r n) = n.
Proof. unfold window. by rewrite length_fmap, length_seq. Qed.

Lemma u32_mod_ring x : u32 x mod size = x mod size.
Proof using size_div. unfold u32. by apply Z.mod_mod_divide. Qed.

(** Different elements are at different positions. *)
Lemma ring_inj r (j k : nat) :
  Z.of_nat j < size -> Z.of_nat k < size -> (r + Z.of_nat j) mod size = (r + Z.of_nat k) mod size -> j = k.
Proof using size_pos.
  intros Hj Hk E. pose proof (Z.div_mod (r + Z.of_nat j) size ltac:(lia)) as E1.
  pose proof (Z.div_mod (r + Z.of_nat k) size ltac:(lia)) as E2.
  assert (Ed : (r + Z.of_nat j) / size = (r + Z.of_nat k) / size) by nia. rewrite Ed in E1. lia.
Qed.

Lemma ring_pos x : (Z.to_nat (x mod size) < Z.to_nat size)%nat.
Proof using size_pos. pose proof (Z.mod_pos_bound x size size_pos). lia. Qed.

(** Storing at the position after the last element appends it. *)
Lemma ring_push data r w n c :
  length data = Z.to_nat size -> Z.of_nat n < size -> w mod size = (r + Z.of_nat n) mod size ->
  window (<[Z.to_nat (w mod size) := c]> data) r (S n) = window data r n ++ [c].
Proof using size_pos.
  intros Hd Hn Ew. unfold window. rewrite seq_S, fmap_app. cbn [fmap list_fmap Nat.add]. f_equal.
  - apply list_fmap_ext. intros i k Hk. apply lookup_seq in Hk as [-> Hk]. rewrite !nth_lookup. f_equal.
    rewrite list_lookup_insert_ne; [done|]. rewrite Ew. intros E.
    apply Z2Nat.inj in E; [|apply Z.mod_pos_bound; done|apply Z.mod_pos_bound; done]. apply ring_inj in E; lia.
  - rewrite Ew, nth_lookup, list_lookup_insert_eq by (rewrite Hd; apply ring_pos). done.
Qed.

(** The first element, and the others. *)
Lemma ring_pop data r n :
  window data r (S n) = nth (Z.to_nat (r mod size)) data 0 :: window data (u32 (r + 1)) n.
Proof using size_div.
  unfold window. cbn [seq fmap list_fmap]. rewrite Z.add_0_r. f_equal.
  rewrite <- fmap_S_seq, <- list_fmap_compose. apply list_fmap_ext. intros i k _. cbn [compose].
  f_equal. f_equal. rewrite <- (Zplus_mod_idemp_l (u32 _)), u32_mod_ring, Zplus_mod_idemp_l. f_equal. lia.
Qed.

(** The last element. *)
Lemma ring_last data r n : window data r (S n) = window data r n ++ [nth (Z.to_nat ((r + Z.of_nat n) mod size)) data 0].
Proof. unfold window. by rewrite seq_S, fmap_app. Qed.

(** Two parts. *)
Lemma ring_app data r m n : window data r (m + n) = window data r m ++ window data (u32 (r + Z.of_nat m)) n.
Proof using size_div.
  unfold window. rewrite seq_app, fmap_app. f_equal. cbn [Nat.add]. rewrite <- (Nat.add_0_r m), <- fmap_add_seq, <- list_fmap_compose, Nat.add_0_r.
  apply list_fmap_ext. intros i k _. cbn [compose]. f_equal. f_equal.
  rewrite <- (Zplus_mod_idemp_l (u32 _)), u32_mod_ring, Zplus_mod_idemp_l. f_equal. lia.
Qed.
End Ring.

(** ** The distance between two counters *)

Lemma u32_dist_up a b : 0 <= a < 2 ^ 32 -> u32 (b - a) + 1 < 2 ^ 32 -> u32 (u32 (b + 1) - a) = u32 (b - a) + 1.
Proof.
  intros Ha H. pose proof (u32_bound (b - a)). unfold u32 in *. rewrite Zminus_mod_idemp_l.
  rewrite <- (Z.mod_small ((b - a) mod 2 ^ 32 + 1) (2 ^ 32)) by lia. rewrite Zplus_mod_idemp_l. f_equal. lia.
Qed.

Lemma u32_dist_down a b : 0 < u32 (b - a) -> u32 (b - u32 (a + 1)) = u32 (b - a) - 1.
Proof.
  intros H. pose proof (u32_bound (b - a)). unfold u32 in *. rewrite Zminus_mod_idemp_r.
  rewrite <- (Z.mod_small ((b - a) mod 2 ^ 32 - 1) (2 ^ 32)) by lia. rewrite Zminus_mod_idemp_l. f_equal. lia.
Qed.

Lemma u32_dist_back a b : 0 < u32 (b - a) -> u32 (u32 (b - 1) - a) = u32 (b - a) - 1.
Proof.
  intros H. pose proof (u32_bound (b - a)). unfold u32 in *. rewrite Zminus_mod_idemp_l.
  rewrite <- (Z.mod_small ((b - a) mod 2 ^ 32 - 1) (2 ^ 32)) by lia. rewrite Zminus_mod_idemp_l. f_equal. lia.
Qed.

Lemma u32_dist_zero a b : 0 <= a < 2 ^ 32 -> 0 <= b < 2 ^ 32 -> u32 (b - a) = 0 <-> a = b.
Proof.
  intros Ha Hb. split; [|intros ->; by rewrite Z.sub_diag]. unfold u32. intros E.
  destruct (Z.lt_trichotomy b a) as [H|[H|H]]; [|lia|].
  - rewrite <- (Z.mod_add _ 1) in E by lia. rewrite Z.mod_small in E; lia.
  - rewrite Z.mod_small in E; lia.
Qed.

Lemma u32_dist_add a b : 0 <= b < 2 ^ 32 -> u32 (a + u32 (b - a)) = b.
Proof. intros Hb. unfold u32. rewrite Zplus_mod_idemp_r. replace (a + (b - a)) with b by lia. by apply Z.mod_small. Qed.

Lemma u32_dist_is a b n : 0 <= n < 2 ^ 32 -> 0 <= b < 2 ^ 32 -> u32 (b - a) = n <-> b = u32 (a + n).
Proof.
  intros Hn Hb. split; [intros <-; by rewrite u32_dist_add|]. intros ->. unfold u32. rewrite Zminus_mod_idemp_l.
  replace (a + n - a) with n by lia. by apply Z.mod_small.
Qed.
