(* ===== verification/Mmu.v ===== *)
(** * The x86 memory-management constants and macros

    param.h, memlayout.h and mmu.h: the sizes of the kernel tables, the address
    space layout, the three-part split of a virtual address, page rounding, page
    table entry fields and the packed segment and gate descriptors.  The lemmas
    restate the shift-and-mask macros in terms of division and remainder; they
    are what the virtual memory component rewrites with. *)

From S2P Require Import Prelude.

(** ** param.h *)
Definition NPROC : nat := 64.
Definition KSTACKSIZE : Z := 4096.
Definition NCPU : nat := 8.
Definition NOFILE : nat := 16.
Definition NFILE : nat := 100.
Definition NINODE : nat := 50.
Definition NDEV : Z := 10.
Definition ROOTDEV : Z := 1.
Definition MAXARG : Z := 32.
Definition MAXOPBLOCKS : Z := 10.
Definition LOGSIZE : Z := MAXOPBLOCKS * 3.
Definition NBUF : nat := Z.to_nat (MAXOPBLOCKS * 3).
Definition FSSIZE : Z := 1000.

(** ** traps.h *)
Definition T_PGFLT : Z := 14.
Definition T_SYSCALL : Z := 64.
Definition T_IRQ0 : Z := 32.
Definition IRQ_TIMER : Z := 0.
Definition IRQ_KBD : Z := 1.
Definition IRQ_COM1 : Z := 4.
Definition IRQ_IDE : Z := 14.
Definition IRQ_ERROR : Z := 19.
Definition IRQ_SPURIOUS : Z := 31.

(** ** memlayout.h *)
Definition EXTMEM : Z := 0x100000.
Definition PHYSTOP : Z := 0xE000000.
Definition DEVSPACE : Z := 0xFE000000.
Definition KERNBASE : Z := 0x80000000.
Definition KERNLINK : Z := KERNBASE + EXTMEM.
Definition V2P (a : Z) : Z := u32 (u32 a - KERNBASE).
Definition P2V (a : Z) : Z := u32 (a + KERNBASE).

(** ** mmu.h: flags and selectors *)
Definition FL_IF : Z := 0x200.
Definition SEG_KCODE : Z := 1.
Definition SEG_KDATA : Z := 2.
Definition SEG_KCPU : Z := 3.
Definition SEG_UCODE : Z := 4.
Definition SEG_UDATA : Z := 5.
Definition SEG_TSS : Z := 6.
Definition DPL_USER : Z := 0x3.
Definition STA_X : Z := 0x8.
Definition STA_W : Z := 0x2.
Definition STA_R : Z := 0x2.
Definition STS_T32A : Z := 0x9.
Definition STS_IG32 : Z := 0xE.
Definition STS_TG32 : Z := 0xF.

(** ** mmu.h: virtual addresses and pages *)
Definition NPDENTRIES : Z := 1024.
Definition NPTENTRIES : Z := 1024.
Definition PGSIZE : Z := 4096.
Definition PTXSHIFT : Z := 12.
Definition PDXSHIFT : Z := 22.
Definition PGSHIFT : Z := 12.

Definition PDX (va : Z) : Z := Z.land (Z.shiftr (u32 va) PDXSHIFT) 0x3FF.
Definition PTX (va : Z) : Z := Z.land (Z.shiftr (u32 va) PTXSHIFT) 0x3FF.
Definition PGADDR (d t o : Z) : Z :=
  u32 (Z.lor (Z.lor (Z.shiftl d PDXSHIFT) (Z.shiftl t PTXSHIFT)) o).

Definition PGROUNDUP (sz : Z) : Z := Z.land (u32 (sz + PGSIZE - 1)) (Z.lnot (PGSIZE - 1)).
Definition PGROUNDDOWN (a : Z) : Z := Z.land (u32 a) (Z.lnot (PGSIZE - 1)).

Definition PTE_P : Z := 0x001.
Definition PTE_W : Z := 0x002.
Definition PTE_U : Z := 0x004.
Definition PTE_PS : Z := 0x080.

Definition PTE_ADDR (pte : Z) : Z := Z.land (u32 pte) (Z.lnot 0xFFF).
Definition PTE_FLAGS (pte : Z) : Z := Z.land (u32 pte) 0xFFF.

(** ** mmu.h: segment and gate descriptors *)

(** A bit field of [w] bits keeps the low [w] bits of what is assigned to it. *)
Definition bits (w x : Z) : Z := Z.land x (Z.ones w).

Record segdesc := Segdesc {
  lim_15_0 : Z; base_15_0 : Z; base_23_16 : Z; sd_type : Z; sd_s : Z; sd_dpl : Z; sd_p : Z;
  lim_19_16 : Z; sd_avl : Z; sd_rsv1 : Z; sd_db : Z; sd_g : Z; base_31_24 : Z
}.

Definition SEG (type base lim dpl : Z) : segdesc :=
  Segdesc (bits 16 (Z.land (Z.shiftr lim 12) 0xffff)) (bits 16 (Z.land (u32 base) 0xffff))
    (bits 8 (Z.land (Z.shiftr (u32 base) 16) 0xff)) (bits 4 type) 1 (bits 2 dpl) 1
    (bits 4 (Z.shiftr (u32 lim) 28)) 0 0 1 1 (bits 8 (Z.shiftr (u32 base) 24)).

Definition SEG16 (type base lim dpl : Z) : segdesc :=
  Segdesc (bits 16 (Z.land lim 0xffff)) (bits 16 (Z.land (u32 base) 0xffff))
    (bits 8 (Z.land (Z.shiftr (u32 base) 16) 0xff)) (bits 4 type) 1 (bits 2 dpl) 1
    (bits 4 (Z.shiftr (u32 lim) 16)) 0 0 1 0 (bits 8 (Z.shiftr (u32 base) 24)).

(** What the processor reads back from a descriptor: the base, and the limit in
    bytes (with the granularity bit set the 20-bit limit counts 4 KB pages). *)
Definition seg_base (d : segdesc) : Z :=
  base_15_0 d + base_23_16 d * 2 ^ 16 + base_31_24 d * 2 ^ 24.
Definition seg_limit (d : segdesc) : Z :=
  let l := lim_15_0 d + lim_19_16 d * 2 ^ 16 in if sd_g d =? 0 then l else l * 4096 + 4095.

Record gatedesc := Gatedesc {
  off_15_0 : Z; gd_cs : Z; gd_args : Z; gd_rsv1 : Z; gd_type : Z; gd_s : Z; gd_dpl : Z; gd_p : Z;
  off_31_16 : Z
}.

Definition SETGATE (istrap : bool) (sel off d : Z) : gatedesc :=
  Gatedesc (bits 16 (Z.land (u32 off) 0xffff)) (bits 16 sel) 0 0
    (bits 4 (if istrap then STS_TG32 else STS_IG32)) 0 (bits 2 d) 1
    (bits 16 (Z.shiftr (u32 off) 16)).

Definition gate_offset (g : gatedesc) : Z := off_15_0 g + off_31_16 g * 2 ^ 16.

(** ** Lemmas *)

#[global] Arguments V2P : simpl never.
#[global] Arguments P2V : simpl never.
#[global] Arguments PDX : simpl never.
#[global] Arguments PTX : simpl never.
#[global] Arguments PGADDR : simpl never.
#[global] Arguments PGROUNDUP : simpl never.
#[global] Arguments PGROUNDDOWN : simpl never.
#[global] Arguments PTE_ADDR : simpl never.
#[global] Arguments PTE_FLAGS : simpl never.

Create Rewrite HintDb mmu.

Lemma land_ff x k : 0 <= k -> Z.land x (Z.ones k) = x mod 2 ^ k.
Proof. apply Z.land_ones. Qed.

Lemma PDX_div va : 0 <= va < 2 ^ 32 -> PDX va = va / 2 ^ 22.
Proof.
  intros Hva. unfold PDX, PDXSHIFT. rewrite u32_id by lia.
  change 0x3FF with (Z.ones 10). rewrite Z.land_ones, Z.shiftr_div_pow2 by lia.
  apply Z.mod_small. split; [apply Z.div_pos; lia|]. apply Z.div_lt_upper_bound; lia.
Qed.

Lemma PTX_div va : 0 <= va < 2 ^ 32 -> PTX va = (va / 4096) mod 1024.
Proof.
  intros Hva. unfold PTX, PTXSHIFT. rewrite u32_id by lia.
  change 0x3FF with (Z.ones 10). by rewrite Z.land_ones, Z.shiftr_div_pow2 by lia.
Qed.

Lemma PDX_bound va : 0 <= PDX va < 1024.
Proof.
  unfold PDX. change 0x3FF with (Z.ones 10). rewrite Z.land_ones by lia.
  apply Z.mod_pos_bound. lia.
Qed.

Lemma PTX_bound va : 0 <= PTX va < 1024.
Proof.
  unfold PTX. change 0x3FF with (Z.ones 10). rewrite Z.land_ones by lia.
  apply Z.mod_pos_bound. lia.
Qed.

Lemma PGROUNDDOWN_eq a : 0 <= a < 2 ^ 32 -> PGROUNDDOWN a = a - a mod 4096.
Proof.
  intros Ha. unfold PGROUNDDOWN, PGSIZE. rewrite u32_id by lia.
  change (4096 - 1) with (2 ^ 12 - 1). by rewrite land_lnot_low by lia.
Qed.

Lemma PGROUNDUP_eq a : 0 <= a <= 2 ^ 32 - 4096 -> PGROUNDUP a = (a + 4095) / 4096 * 4096.
Proof.
  intros Ha. unfold PGROUNDUP, PGSIZE. rewrite u32_id by lia.
  change (4096 - 1) with (2 ^ 12 - 1). rewrite land_lnot_low by lia.
  change (2 ^ 12) with 4096. pose proof (Z.div_mod (a + 4096 - 1) 4096).
  replace (a + 4095) with (a + 4096 - 1) by lia. lia.
Qed.

Lemma PGROUNDUP_wrap a : 2 ^ 32 - 4096 < a < 2 ^ 32 -> PGROUNDUP a = 0.
Proof.
  intros Ha. unfold PGROUNDUP, PGSIZE.
  replace (u32 (a + 4096 - 1)) with (a + 4096 - 1 - 2 ^ 32).
  2: { unfold u32. rewrite <- (Z_mod_plus_full (a + 4096 - 1) (-1)). symmetry. apply Z.mod_small. lia. }
  change (4096 - 1) with (2 ^ 12 - 1). rewrite land_lnot_low by lia.
  rewrite Z.mod_small by lia. lia.
Qed.

Lemma PTE_ADDR_eq pte : 0 <= pte < 2 ^ 32 -> PTE_ADDR pte = pte - pte mod 4096.
Proof.
  intros Ha. unfold PTE_ADDR. rewrite u32_id by lia.
  change 0xFFF with (2 ^ 12 - 1). by rewrite land_lnot_low by lia.
Qed.

Lemma PTE_FLAGS_eq pte : 0 <= pte < 2 ^ 32 -> PTE_FLAGS pte = pte mod 4096.
Proof.
  intros Ha. unfold PTE_FLAGS. rewrite u32_id by lia.
  change 0xFFF with (Z.ones 12). by rewrite Z.land_ones by lia.
Qed.

Lemma V2P_eq a : KERNBASE <= a < 2 ^ 32 -> V2P a = a - KERNBASE.
Proof. unfold V2P, KERNBASE. intros Ha. rewrite (u32_id a), u32_id by lia. done. Qed.

Lemma P2V_eq a : 0 <= a < KERNBASE -> P2V a = a + KERNBASE.
Proof. unfold P2V, KERNBASE. intros Ha. apply u32_id. lia. Qed.

Lemma P2V_V2P a : 0 <= a < 2 ^ 32 -> P2V (V2P a) = a.
Proof.
  intros Ha. unfold P2V, V2P. rewrite u32_add_l, (u32_id a) by lia.
  replace (a - KERNBASE + KERNBASE) with a by lia. apply u32_id. lia.
Qed.

Lemma V2P_P2V a : 0 <= a < 2 ^ 32 -> V2P (P2V a) = a.
Proof.
  intros Ha. unfold P2V, V2P. rewrite u32_u32. unfold u32. rewrite Zminus_mod_idemp_l.
  replace (a + KERNBASE - KERNBASE) with a by lia. apply Z.mod_small. lia.
Qed.

(** The three-part structure of a virtual address drawn in mmu.h. *)
Lemma PGADDR_split va :
  0 <= va < 2 ^ 32 -> PGADDR (PDX va) (PTX va) (va mod 4096) = va.
Proof.
  intros Hva. unfold PGADDR, PDXSHIFT, PTXSHIFT.
  rewrite !Z.shiftl_mul_pow2, PDX_div, PTX_div by lia.
  pose proof (Z.mod_pos_bound (va / 4096) 1024). pose proof (Z.mod_pos_bound va 4096).
  rewrite (lor_add _ ((va / 4096) mod 1024 * 2 ^ 12) 22), (lor_add _ (va mod 4096) 12); try lia.
  - replace (va / 2 ^ 22) with (va / 4096 / 1024) by (rewrite Z.div_div; f_equal; lia).
    pose proof (Z.div_mod (va / 4096) 1024). pose proof (Z.div_mod va 4096).
    rewrite u32_id; lia.
  - replace (va / 2 ^ 22 * 2 ^ 22 + (va / 4096) mod 1024 * 2 ^ 12)
      with ((va / 2 ^ 22 * 1024 + (va / 4096) mod 1024) * 2 ^ 12) by lia.
    apply Z.mod_mul. lia.
  - apply Z.mod_mul. lia.
Qed.

(** Two addresses in the same page share both indices; pages are told apart by them. *)
Lemma PDX_PTX_inj a b :
  0 <= a < 2 ^ 32 -> 0 <= b < 2 ^ 32 -> PDX a = PDX b -> PTX a = PTX b -> a / 4096 = b / 4096.
Proof.
  intros Ha Hb. rewrite !PDX_div, !PTX_div by lia. intros H1 H2.
  replace (2 ^ 22) with (4096 * 1024) in H1 by lia. rewrite <- !Z.div_div in H1 by lia.
  pose proof (Z.div_mod (a / 4096) 1024). pose proof (Z.div_mod (b / 4096) 1024). lia.
Qed.

Lemma bits_mod w x : 0 <= w -> bits w x = x mod 2 ^ w.
Proof. apply Z.land_ones. Qed.

Lemma bits_land_ones w x : 0 <= w -> bits w (Z.land x (Z.ones w)) = x mod 2 ^ w.
Proof. intros Hw. rewrite bits_mod, Z.land_ones by lia. apply Z.mod_mod. apply Z.pow_nonzero; lia. Qed.

(** The base address survives the packing into a descriptor. *)
Lemma SEG_base_roundtrip type base lim dpl :
  0 <= base < 2 ^ 32 ->
  seg_base (SEG type base lim dpl) = base /\ seg_base (SEG16 type base lim dpl) = base.
Proof.
  intros Hb. unfold seg_base, SEG, SEG16; cbn [base_15_0 base_23_16 base_31_24].
  rewrite u32_id by lia.
  change 0xffff with (Z.ones 16). change 0xff with (Z.ones 8).
  rewrite !bits_land_ones, bits_mod, !Z.shiftr_div_pow2 by lia.
  assert (base = base mod 2 ^ 16 + (base / 2 ^ 16) mod 2 ^ 8 * 2 ^ 16
                 + (base / 2 ^ 24) mod 2 ^ 8 * 2 ^ 24) as Heq; [|lia].
  pose proof (Z.div_mod base (2 ^ 16)). pose proof (Z.div_mod (base / 2 ^ 16) (2 ^ 8)).
  replace (base / 2 ^ 24) with (base / 2 ^ 16 / 2 ^ 8) by (rewrite Z.div_div; f_equal; lia).
  rewrite (Z.mod_small (base / 2 ^ 16 / 2 ^ 8)); [lia|].
  split; [apply Z.div_pos; [apply Z.div_pos|]; lia|].
  apply Z.div_lt_upper_bound; [lia|]. apply Z.div_lt_upper_bound; lia.
Qed.
