(* ===== verification/Mem.v ===== *)
(** * Byte-addressed memory

    Memory as the kernel sees it: bytes at addresses, little-endian 32-bit words,
    and the two block operations the string instructions of x86.h perform.  An
    address that was never written holds 0, as the zero-initialised data of a C
    program does. *)

From S2P Require Import Prelude Mmu.

Abbreviation mem := (gmap Z Z).

Definition ldb (m : mem) (a : Z) : Z := u8 (default 0 (m !! a)).
Definition stb (m : mem) (a v : Z) : mem := <[a := u8 v]> m.

Definition ld32 (m : mem) (a : Z) : Z :=
  ldb m a + ldb m (a + 1) * 2 ^ 8 + ldb m (a + 2) * 2 ^ 16 + ldb m (a + 3) * 2 ^ 24.
Definition st32 (m : mem) (a v : Z) : mem :=
  stb (stb (stb (stb m a v) (a + 1) (Z.shiftr v 8)) (a + 2) (Z.shiftr v 16)) (a + 3) (Z.shiftr v 24).

(** x86.h [stosb]: store the low byte of [data] [n] times. *)
Fixpoint stosb (m : mem) (a data : Z) (n : nat) : mem :=
  match n with
  | O => m
  | S n => stosb (stb m a data) (a + 1) data n
  end.

(** x86.h [stosl]: store the word [data] [n] times. *)
Fixpoint stosl (m : mem) (a data : Z) (n : nat) : mem :=
  match n with
  | O => m
  | S n => stosl (st32 m a data) (a + 4) data n
  end.

(** The bytes of [m] from [a] on, and memory with a list of bytes stored at [a]. *)
Definition read_bytes (m : mem) (a : Z) (n : nat) : list Z := (fun i => ldb m (a + Z.of_nat i)) <$> seq 0 n.
Fixpoint write_bytes (m : mem) (a : Z) (l : list Z) : mem :=
  match l with
  | [] => m
  | b :: l => write_bytes (stb m a b) (a + 1) l
  end.

#[global] Arguments ldb : simpl never.
#[global] Arguments stb : simpl never.
#[global] Arguments ld32 : simpl never.
#[global] Arguments st32 : simpl never.

(** ** Laws of single accesses *)

Lemma ldb_bound m a : 0 <= ldb m a < 256.
Proof. apply u8_bound. Qed.

Lemma ldb_stb_eq m a v : ldb (stb m a v) a = u8 v.
Proof. unfold ldb, stb. rewrite lookup_insert_eq. apply u8_id, u8_bound. Qed.

Lemma ldb_stb_ne m a b v : a <> b -> ldb (stb m a v) b = ldb m b.
Proof. intros Hne. unfold ldb, stb. by rewrite lookup_insert_ne. Qed.

Lemma ldb_stb m a b v : ldb (stb m a v) b = if a =? b then u8 v else ldb m b.
Proof.
  destruct (Z.eqb_spec a b) as [->|Hne]; [apply ldb_stb_eq|by apply ldb_stb_ne].
Qed.

Lemma ld32_bound m a : 0 <= ld32 m a < 4294967296.
Proof.
  unfold ld32. pose proof (ldb_bound m a). pose proof (ldb_bound m (a + 1)).
  pose proof (ldb_bound m (a + 2)). pose proof (ldb_bound m (a + 3)). lia.
Qed.

Lemma ldb_st32_ne m a b v : b < a \/ a + 4 <= b -> ldb (st32 m a v) b = ldb m b.
Proof. intros Hne. unfold st32. rewrite !ldb_stb_ne by lia. done. Qed.

Lemma ld32_ext m m' a :
  (forall i, 0 <= i < 4 -> ldb m (a + i) = ldb m' (a + i)) -> ld32 m a = ld32 m' a.
Proof.
  intros Hext. unfold ld32. rewrite (Hext 1), (Hext 2), (Hext 3) by lia.
  specialize (Hext 0). rewrite Z.add_0_r in Hext. rewrite Hext by lia. done.
Qed.

Lemma ld32_st32_ne m a b v : b + 4 <= a \/ a + 4 <= b -> ld32 (st32 m a v) b = ld32 m b.
Proof. intros Hne. apply ld32_ext. intros i Hi. apply ldb_st32_ne. lia. Qed.

Lemma u32_bytes v :
  u8 v + u8 (Z.shiftr v 8) * 2 ^ 8 + u8 (Z.shiftr v 16) * 2 ^ 16 + u8 (Z.shiftr v 24) * 2 ^ 24 = u32 v.
Proof.
  unfold u8, u32. rewrite !Z.shiftr_div_pow2 by lia.
  assert (Hsplit : forall x k, 0 <= k -> x mod 2 ^ (8 + k) = x mod 2 ^ 8 + (x / 2 ^ 8) mod 2 ^ k * 2 ^ 8).
  { intros x k Hk. rewrite Z.pow_add_r, Z.rem_mul_r by (try apply Z.pow_nonzero; lia). lia. }
  pose proof (Hsplit v 24) as H1. pose proof (Hsplit (v / 2 ^ 8) 16) as H2.
  pose proof (Hsplit (v / 2 ^ 8 / 2 ^ 8) 8) as H3. rewrite !Z.div_div in * by lia.
  change (8 + 24) with 32 in H1. change (8 + 16) with 24 in H2. change (8 + 8) with 16 in H3.
  change (2 ^ 8 * 2 ^ 8) with (2 ^ 16) in *. change (2 ^ 16 * 2 ^ 8) with (2 ^ 24) in *. lia.
Qed.

Lemma ld32_st32_eq m a v : ld32 (st32 m a v) a = u32 v.
Proof.
  rewrite <- u32_bytes. unfold ld32, st32.
  repeat (rewrite ldb_stb_eq || rewrite ldb_stb_ne by lia). done.
Qed.

(** ** Laws of block accesses *)

Lemma ldb_stosb n : forall m a v b,
  ldb (stosb m a v n) b = if (a <=? b) && (b <? a + Z.of_nat n) then u8 v else ldb m b.
Proof.
  induction n as [|n IH]; intros m a v b; cbn [stosb].
  - destruct (Z.leb_spec a b), (Z.ltb_spec b (a + Z.of_nat 0)); simpl; done || lia.
  - rewrite IH, ldb_stb.
    destruct (Z.leb_spec (a + 1) b), (Z.ltb_spec b (a + 1 + Z.of_nat n)), (Z.eqb_spec a b),
      (Z.leb_spec a b), (Z.ltb_spec b (a + Z.of_nat (S n))); simpl; done || lia.
Qed.

(** The word with the low byte of [c] in each of its four bytes. *)
Definition splat (c : Z) : Z :=
  let c := Z.land c 0xFF in Z.lor (Z.lor (Z.lor (Z.shiftl c 24) (Z.shiftl c 16)) (Z.shiftl c 8)) c.

Lemma splat_eq c : splat c = u8 c * 16843009.
Proof.
  unfold splat. change 0xFF with (Z.ones 8). rewrite Z.land_ones by lia. fold (u8 c).
  pose proof (u8_bound c). rewrite !Z.shiftl_mul_pow2 by lia.
  rewrite (lor_add _ (u8 c * 2 ^ 16) 24), (lor_add _ (u8 c * 2 ^ 8) 16), (lor_add _ (u8 c) 8); try lia.
  - replace (u8 c * 2 ^ 24 + u8 c * 2 ^ 16 + u8 c * 2 ^ 8) with ((u8 c * 2 ^ 16 + u8 c * 2 ^ 8 + u8 c) * 2 ^ 8) by lia.
    apply Z.mod_mul. lia.
  - replace (u8 c * 2 ^ 24 + u8 c * 2 ^ 16) with ((u8 c * 2 ^ 8 + u8 c) * 2 ^ 16) by lia. apply Z.mod_mul. lia.
  - apply Z.mod_mul. lia.
Qed.

Lemma ldb_st32_splat m a c b : a <= b < a + 4 -> ldb (st32 m a (splat c)) b = u8 c.
Proof.
  intros Hb. pose proof (u8_bound c). unfold st32. rewrite splat_eq, !Z.shiftr_div_pow2 by lia.
  assert (Hd : forall k q r, u8 c * 16843009 = u8 c * q * 2 ^ k + r -> 0 <= k -> 0 <= r < 2 ^ k ->
    u8 c * 16843009 / 2 ^ k = u8 c * q).
  { intros k q r Heq Hk Hr. symmetry. apply (Z.div_unique _ _ _ r); lia. }
  rewrite (Hd 8 65793 (u8 c)), (Hd 16 257 (u8 c * 257)), (Hd 24 1 (u8 c * 65793)) by lia.
  assert (Hu : forall q, u8 (u8 c * (q * 256 + 1)) = u8 c).
  { intros q. unfold u8 at 1. replace (u8 c * (q * 256 + 1)) with (u8 c + (u8 c * q) * 2 ^ 8) by lia.
    rewrite Z_mod_plus_full. apply u8_id. lia. }
  pose proof (Hu 65793) as H0. pose proof (Hu 257) as H1. pose proof (Hu 1) as H2. pose proof (Hu 0) as H3.
  cbn in H0, H1, H2, H3.
  assert (b = a \/ b = a + 1 \/ b = a + 2 \/ b = a + 3) as [->|[->|[->| ->]]] by lia;
    repeat (rewrite ldb_stb_eq || rewrite ldb_stb_ne by lia); done.
Qed.

Lemma ldb_stosl_splat n : forall m a c b,
  ldb (stosl m a (splat c) n) b = if (a <=? b) && (b <? a + 4 * Z.of_nat n) then u8 c else ldb m b.
Proof.
  induction n as [|n IH]; intros m a c b; cbn [stosl].
  - destruct (Z.leb_spec a b), (Z.ltb_spec b (a + 4 * Z.of_nat 0)); simpl; done || lia.
  - rewrite IH. destruct (decide (a <= b < a + 4)).
    + rewrite ldb_st32_splat by lia.
      destruct (Z.leb_spec (a + 4) b), (Z.ltb_spec b (a + 4 + 4 * Z.of_nat n)),
        (Z.leb_spec a b), (Z.ltb_spec b (a + 4 * Z.of_nat (S n))); simpl; done || lia.
    + rewrite ldb_st32_ne by lia.
      destruct (Z.leb_spec (a + 4) b), (Z.ltb_spec b (a + 4 + 4 * Z.of_nat n)),
        (Z.leb_spec a b), (Z.ltb_spec b (a + 4 * Z.of_nat (S n))); simpl; done || lia.
Qed.

Lemma length_read_bytes m a n : length (read_bytes m a n) = n.
Proof. unfold read_bytes. len. Qed.

Lemma lookup_read_bytes m a n i :
  (i < n)%nat -> read_bytes m a n !! i = Some (ldb m (a + Z.of_nat i)).
Proof. intros Hi. unfold read_bytes. rewrite list_lookup_fmap, lookup_seq_lt by done. done. Qed.

Lemma read_bytes_S m a n : read_bytes m a (S n) = ldb m a :: read_bytes m (a + 1) n.
Proof.
  unfold read_bytes. cbn [seq fmap list_fmap]. rewrite Z.add_0_r. f_equal. rewrite <- (fmap_S_seq 0 n), <- list_fmap_compose.
  apply list_fmap_ext. intros i x _. unfold compose. f_equal. lia.
Qed.

Lemma read_bytes_app m a n k : read_bytes m a (n + k) = read_bytes m a n ++ read_bytes m (a + Z.of_nat n) k.
Proof.
  revert a. induction n as [|n IH]; intros a; [cbn [Nat.add]; by rewrite Z.add_0_r|].
  cbn [Nat.add]. rewrite !read_bytes_S, IH. cbn [app]. do 3 f_equal. lia.
Qed.

Lemma read_bytes_sub m a n k o : (o + k <= n)%nat -> read_bytes m (a + Z.of_nat o) k = take k (drop o (read_bytes m a n)).
Proof.
  intros Hk. replace n with (o + (k + (n - o - k)))%nat by lia. rewrite read_bytes_app, drop_app_length' by (by rewrite length_read_bytes).
  rewrite read_bytes_app, take_app_length' by (by rewrite length_read_bytes). done.
Qed.

Lemma write_bytes_app l1 l2 : forall m a, write_bytes m a (l1 ++ l2) = write_bytes (write_bytes m a l1) (a + Z.of_nat (length l1)) l2.
Proof.
  induction l1 as [|x l1 IH]; intros m a; cbn [app write_bytes length]; [by rewrite Z.add_0_r|]. rewrite IH. f_equal. lia.
Qed.

Lemma ldb_write_bytes_out l : forall m a b,
  b < a \/ a + Z.of_nat (length l) <= b -> ldb (write_bytes m a l) b = ldb m b.
Proof.
  induction l as [|x l IH]; intros m a b Hb; [done|]. cbn [write_bytes]. cbn [length] in Hb.
  rewrite IH, ldb_stb_ne by lia. done.
Qed.

Lemma ldb_write_bytes_in l : forall m a i x,
  l !! i = Some x -> ldb (write_bytes m a l) (a + Z.of_nat i) = u8 x.
Proof.
  induction l as [|y l IH]; intros m a i x Hx; [done|]. destruct i as [|i]; cbn [write_bytes].
  - injection Hx as ->. rewrite Z.add_0_r, ldb_write_bytes_out by lia. apply ldb_stb_eq.
  - rewrite <- (IH (stb m a y) (a + 1) i x Hx). f_equal. lia.
Qed.
