(* ===== verification/Cstring.v ===== *)
(** * string.c: the kernel's memory and string routines

    [memset] and [memmove] act on byte memory and are proved against the
    obvious one-line description of what they do, including [memset]'s word-wide
    fast path and [memmove] on overlapping ranges.  The routines that only read
    their arguments ([memcmp], [strncmp], [strlen]) take the bytes behind a
    pointer as a function of the offset; [strncpy] and [safestrcpy] give the list
    of bytes they store, for a source that does not overlap the destination. *)

From S2P Require Import Prelude Mmu Mem.

(** ** The routines *)

Definition memset (m : mem) (dst c n : Z) : mem :=
  if (s32 dst mod 4 =? 0) && (n mod 4 =? 0)
  then stosl m dst (splat c) (Z.to_nat (n / 4))
  else stosb m dst c (Z.to_nat n).

(** The two copying loops of [memmove]; [n] is the loop counter. *)
Fixpoint copy_backward (m : mem) (d s : Z) (n : nat) : mem :=
  match n with
  | O => m
  | S n => copy_backward (stb m (d - 1) (ldb m (s - 1))) (d - 1) (s - 1) n
  end.
Fixpoint copy_forward (m : mem) (d s : Z) (n : nat) : mem :=
  match n with
  | O => m
  | S n => copy_forward (stb m d (ldb m s)) (d + 1) (s + 1) n
  end.
Definition memmove (m : mem) (dst src n : Z) : mem :=
  if (src <? dst) && (dst <? src + n)
  then copy_backward m (dst + n) (src + n) (Z.to_nat n)
  else copy_forward m dst src (Z.to_nat n).

Definition memcpy (m : mem) (dst src n : Z) : mem := memmove m dst src n.

Fixpoint memcmp_loop (s1 s2 : Z -> Z) (i : Z) (n : nat) : Z :=
  match n with
  | O => 0
  | S n => if negb (s1 i =? s2 i) then s1 i - s2 i else memcmp_loop s1 s2 (i + 1) n
  end.
Definition memcmp (s1 s2 : Z -> Z) (n : Z) : Z := memcmp_loop s1 s2 0 (Z.to_nat n).

Fixpoint strncmp_loop (p q : Z -> Z) (i : Z) (n : nat) : Z :=
  match n with
  | O => 0
  | S n' => if negb (p i =? 0) && (p i =? q i) then strncmp_loop p q (i + 1) n' else p i - q i
  end.
Definition strncmp (p q : Z -> Z) (n : Z) : Z := strncmp_loop p q 0 (Z.to_nat n).

(** First loop: copy up to and including the NUL; second loop: pad with zeros. *)
Fixpoint strncpy_loop (t : Z -> Z) (i : Z) (n : nat) : list Z :=
  match n with
  | O => []
  | S n => if t i =? 0 then 0 :: replicate n 0 else t i :: strncpy_loop t (i + 1) n
  end.
Definition strncpy (t : Z -> Z) (n : Z) : list Z := strncpy_loop t 0 (Z.to_nat n).

Fixpoint safestrcpy_loop (t : Z -> Z) (i : Z) (n : nat) : list Z :=
  match n with
  | O => [0]
  | S n => if t i =? 0 then [0; 0] else t i :: safestrcpy_loop t (i + 1) n
  end.
Definition safestrcpy (t : Z -> Z) (n : Z) : list Z :=
  if n <=? 0 then [] else safestrcpy_loop t 0 (Z.to_nat (n - 1)).

(** [strlen] scans until a NUL; the number of bytes it may look at is bounded by
    [fuel], and [None] means that bound was hit first. *)
Fixpoint strlen_loop (s : Z -> Z) (n : Z) (fuel : nat) : option Z :=
  match fuel with
  | O => None
  | S fuel => if s n =? 0 then Some n else strlen_loop s (n + 1) fuel
  end.
Definition strlen (s : Z -> Z) (fuel : nat) : option Z := strlen_loop s 0 fuel.

(** The bytes behind a pointer into memory, and of a C string held in a list. *)
Definition ptr (m : mem) (a : Z) : Z -> Z := fun i => ldb m (a + i).
Definition arr (l : list Z) : Z -> Z := fun i => default 0 (l !! Z.to_nat i).

#[global] Arguments memset : simpl never.
#[global] Arguments memmove : simpl never.

(** ** [memset] and [memmove] *)

Definition in_range (a lo n : Z) : bool := (lo <=? a) && (a <? lo + n).

Lemma in_range_spec a lo n : in_range a lo n = true <-> lo <= a < lo + n.
Proof. unfold in_range. rewrite andb_true_iff, Z.leb_le, Z.ltb_lt. done. Qed.

Lemma in_range_true a lo n : lo <= a < lo + n -> in_range a lo n = true.
Proof. apply in_range_spec. Qed.

Lemma in_range_false a lo n : a < lo \/ lo + n <= a -> in_range a lo n = false.
Proof. intros Ha. apply not_true_is_false. rewrite in_range_spec. lia. Qed.

Lemma ldb_memset m dst c n a :
  0 <= n -> ldb (memset m dst c n) a = if in_range a dst n then u8 c else ldb m a.
Proof.
  intros Hn. unfold memset, in_range. destruct (Z.eqb_spec (n mod 4) 0) as [H4|H4];
    [destruct (s32 dst mod 4 =? 0)|rewrite andb_false_r]; simpl.
  - rewrite ldb_stosl_splat, Z2Nat.id by (apply Z.div_pos; lia).
    replace (4 * (n / 4)) with n by (pose proof (Z.div_mod n 4); lia). done.
  - rewrite ldb_stosb, Z2Nat.id by lia. done.
  - rewrite ldb_stosb, Z2Nat.id by lia. done.
Qed.

Lemma ldb_copy_backward n : forall m d s a,
  s < d ->
  ldb (copy_backward m d s n) a =
  if in_range a (d - Z.of_nat n) (Z.of_nat n) then ldb m (a - d + s) else ldb m a.
Proof.
  induction n as [|n IH]; intros m d s a Hsd; cbn [copy_backward].
  - by rewrite in_range_false by lia.
  - rewrite IH by lia. replace (d - 1 - Z.of_nat n) with (d - Z.of_nat (S n)) by lia.
    destruct (decide (d - Z.of_nat (S n) <= a < d - 1)) as [Hin|Hin].
    + rewrite !in_range_true by lia. rewrite ldb_stb_ne by lia. f_equal. lia.
    + rewrite (in_range_false a _ (Z.of_nat n)) by lia. destruct (decide (a = d - 1)) as [->|Hne].
      * rewrite in_range_true, ldb_stb_eq by lia. rewrite u8_id by apply ldb_bound. f_equal. lia.
      * rewrite in_range_false, ldb_stb_ne by lia. done.
Qed.

Lemma ldb_copy_forward n : forall m d s a,
  (d <= s \/ s + Z.of_nat n <= d) ->
  ldb (copy_forward m d s n) a =
  if in_range a d (Z.of_nat n) then ldb m (a - d + s) else ldb m a.
Proof.
  induction n as [|n IH]; intros m d s a Hsd; cbn [copy_forward].
  - by rewrite in_range_false by lia.
  - rewrite IH by lia. destruct (decide (d + 1 <= a < d + Z.of_nat (S n))) as [Hin|Hin].
    + rewrite !in_range_true by lia. rewrite ldb_stb_ne by lia. f_equal. lia.
    + rewrite (in_range_false a _ (Z.of_nat n)) by lia. destruct (decide (a = d)) as [->|Hne].
      * rewrite in_range_true, ldb_stb_eq by lia. rewrite u8_id by apply ldb_bound. f_equal. lia.
      * rewrite in_range_false, ldb_stb_ne by lia. done.
Qed.

Lemma ldb_memmove m dst src n a :
  0 <= n ->
  ldb (memmove m dst src n) a = if in_range a dst n then ldb m (a - dst + src) else ldb m a.
Proof.
  intros Hn. unfold memmove.
  destruct (Z.ltb_spec src dst), (Z.ltb_spec dst (src + n)); simpl;
    first [rewrite ldb_copy_forward by lia | rewrite ldb_copy_backward by lia];
    rewrite Z2Nat.id by lia; try done.
  replace (dst + n - n) with dst by lia. destruct (in_range a dst n); [f_equal; lia|done].
Qed.

Lemma ld32_memset_zero m dst n a :
  0 <= n -> dst <= a -> a + 4 <= dst + n -> ld32 (memset m dst 0 n) a = 0.
Proof.
  intros Hn Hlo Hhi. unfold ld32. rewrite !ldb_memset, !in_range_true by lia. done.
Qed.

Lemma ld32_memset_out m dst c n a :
  0 <= n -> a + 4 <= dst \/ dst + n <= a -> ld32 (memset m dst c n) a = ld32 m a.
Proof.
  intros Hn Ha. apply ld32_ext. intros i Hi. by rewrite ldb_memset, in_range_false by lia.
Qed.

Lemma ld32_memmove_out m dst src n a :
  0 <= n -> a + 4 <= dst \/ dst + n <= a -> ld32 (memmove m dst src n) a = ld32 m a.
Proof.
  intros Hn Ha. apply ld32_ext. intros i Hi. by rewrite ldb_memmove, in_range_false by lia.
Qed.

(** [memmove] copies as if through a temporary buffer, whatever the overlap of
    the two ranges, and changes nothing outside the destination; [memset] fills
    exactly its range, whether or not it takes the word-wide path. *)
Theorem memmove_memset_correct :
  forall m dst src c n a, 0 <= n ->
  ldb (memmove m dst src n) a = (if in_range a dst n then ldb m (a - dst + src) else ldb m a) /\
  ldb (memset m dst c n) a = (if in_range a dst n then u8 c else ldb m a).
Proof. intros. split; [by apply ldb_memmove|by apply ldb_memset]. Qed.

(** A copy that overlaps its source by three bytes, and an unaligned fill. *)
Lemma memmove_memset_correct_witness :
  ldb (memmove (write_bytes ∅ 100 [1; 2; 3; 4; 5]) 102 100 5) 104 = 3 /\
  ldb (memset (write_bytes ∅ 100 [1; 2; 3; 4; 5]) 102 7 5) 104 = 7.
Proof.
  pose proof (memmove_memset_correct (write_bytes ∅ 100 [1; 2; 3; 4; 5]) 102 100 7 5 104 ltac:(lia)) as [H1 H2].
  rewrite H1, H2. split; vm_compute; reflexivity.
Defined.

(** ** Comparison *)

Lemma memcmp_loop_zero n : forall s1 s2 i,
  memcmp_loop s1 s2 i n = 0 <-> forall j, i <= j < i + Z.of_nat n -> s1 j = s2 j.
Proof.
  induction n as [|n IH]; intros s1 s2 i; cbn [memcmp_loop].
  - split; [lia|done].
  - destruct (Z.eqb_spec (s1 i) (s2 i)) as [Heq|Hne]; simpl.
    + rewrite IH. split; intros Hall j Hj.
      * destruct (decide (j = i)) as [->|]; [done|]. apply Hall. lia.
      * apply Hall. lia.
    + split; [lia|]. intros Hall. specialize (Hall i). lia.
Qed.

(** Two strings compare equal over [n] bytes when they agree up to and including
    the first NUL, or on all [n] bytes. *)
Definition str_agree (p q : Z -> Z) (n : Z) : Prop :=
  forall j, 0 <= j < n -> (forall k, 0 <= k < j -> p k <> 0) -> p j = q j.

Lemma strncmp_loop_zero n : forall p q i, 0 <= i ->
  (strncmp_loop p q i n = 0 <->
   forall j, i <= j < i + Z.of_nat n -> (forall k, i <= k < j -> p k <> 0) -> p j = q j).
Proof.
  induction n as [|n IH]; intros p q i Hi; cbn [strncmp_loop].
  - split; [lia|done].
  - destruct (Z.eqb_spec (p i) 0) as [H0|H0]; simpl.
    + split.
      * intros Hz j Hj Hk. destruct (decide (j = i)) as [->|]; [lia|]. exfalso. apply (Hk i); lia.
      * intros Hall. assert (p i = q i) by (apply Hall; intros; lia). lia.
    + destruct (Z.eqb_spec (p i) (q i)) as [Heq|Hne].
      * rewrite IH by lia. split; intros Hall j Hj Hk.
        -- destruct (decide (j = i)) as [->|]; [done|]. apply Hall; [lia|]. intros; apply Hk; lia.
        -- apply Hall; [lia|]. intros k Hkk. destruct (decide (k = i)) as [->|]; [done|]. apply Hk; lia.
      * split; [lia|]. intros Hall. assert (p i = q i) by (apply Hall; intros; lia). lia.
Qed.

Lemma strncmp_zero p q n : 0 <= n -> strncmp p q n = 0 <-> str_agree p q n.
Proof.
  intros Hn. unfold strncmp, str_agree. rewrite strncmp_loop_zero by lia. rewrite Z2Nat.id by lia. done.
Qed.

(** ** Bounded copies *)

Lemma length_strncpy_loop n : forall t i, length (strncpy_loop t i n) = n.
Proof.
  induction n as [|n IH]; intros t i; cbn [strncpy_loop]; [done|].
  destruct (t i =? 0); simpl; [by rewrite length_replicate|by rewrite IH].
Qed.

Lemma lookup_strncpy_loop n : forall t i j,
  (j < n)%nat ->
  ((forall k, (k < j)%nat -> t (i + Z.of_nat k) <> 0) ->
    strncpy_loop t i n !! j = Some (t (i + Z.of_nat j))) /\
  ((exists k, (k < j)%nat /\ t (i + Z.of_nat k) = 0) -> strncpy_loop t i n !! j = Some 0).
Proof.
  induction n as [|n IH]; intros t i j Hj; [lia|]. cbn [strncpy_loop].
  destruct j as [|j].
  - rewrite Z.add_0_r. split; [|intros (k & ? & _); lia]. intros _. simpl.
    destruct (Z.eqb_spec (t i) 0) as [->|]; done.
  - destruct (Z.eqb_spec (t i) 0) as [H0|H0]; simpl.
    + rewrite lookup_replicate_2 by lia. split; [|done]. intros Hk. exfalso. apply (Hk O); [lia|].
      by rewrite Z.add_0_r.
    + destruct (IH t (i + 1) j ltac:(lia)) as [IH1 IH2].
      replace (i + Z.of_nat (S j)) with (i + 1 + Z.of_nat j) by lia. split.
      * intros Hk. apply IH1. intros k Hlt. replace (i + 1 + Z.of_nat k) with (i + Z.of_nat (S k)) by lia.
        apply Hk. lia.
      * intros (k & Hlt & Hz). apply IH2. destruct k as [|k]; [rewrite Z.add_0_r in Hz; done|].
        exists k. split; [lia|]. rewrite <- Hz. f_equal. lia.
Qed.

Lemma safestrcpy_loop_last n : forall t i,
  exists l, safestrcpy_loop t i n = l ++ [0] /\ (length l <= n)%nat /\
  forall j, (j < length l)%nat -> l !! j = Some (t (i + Z.of_nat j)).
Proof.
  induction n as [|n IH]; intros t i; cbn [safestrcpy_loop].
  - exists []. split; [done|]. simpl. split; [lia|]. intros; lia.
  - destruct (Z.eqb_spec (t i) 0) as [H0|H0].
    + exists [0]. split; [done|]. simpl. split; [lia|]. intros j Hj. replace j with O by lia.
      simpl. rewrite Z.add_0_r. by rewrite H0.
    + destruct (IH t (i + 1)) as (l & Hl & Hlen & Hj). exists (t i :: l). rewrite Hl.
      split; [done|]. simpl. split; [lia|]. intros [|j] Hlt; simpl.
      * by rewrite Z.add_0_r.
      * rewrite Hj by lia. do 2 f_equal. lia.
Qed.

(** The bounded copies stay within [n] bytes: [strncpy] always stores exactly [n]
    bytes, the source up to its first NUL followed by zeros; [safestrcpy] stores
    at most [n] bytes of which the last is a NUL and the others come from the source. *)
Theorem bounded_copies_correct :
  forall t n, 0 < n ->
  length (strncpy t n) = Z.to_nat n /\
  (forall j, (j < Z.to_nat n)%nat ->
     ((forall k, (k < j)%nat -> t (Z.of_nat k) <> 0) -> strncpy t n !! j = Some (t (Z.of_nat j))) /\
     ((exists k, (k < j)%nat /\ t (Z.of_nat k) = 0) -> strncpy t n !! j = Some 0)) /\
  (exists l, safestrcpy t n = l ++ [0] /\ (length (safestrcpy t n) <= Z.to_nat n)%nat /\
     forall j, (j < length l)%nat -> l !! j = Some (t (Z.of_nat j))).
Proof.
  intros t n Hn. split; [apply length_strncpy_loop|]. split.
  - intros j Hj. exact (lookup_strncpy_loop (Z.to_nat n) t 0 j Hj).
  - unfold safestrcpy. destruct (Z.leb_spec n 0); [lia|].
    destruct (safestrcpy_loop_last (Z.to_nat (n - 1)) t 0) as (l & Hl & Hlen & Hj).
    exists l. rewrite Hl. split; [done|]. split; [len; simpl; lia|]. exact Hj.
Qed.

(** Copying the four-byte string [ls] into six bytes. *)
Lemma bounded_copies_correct_witness :
  length (strncpy (arr [108; 115; 0; 9]) 6) = 6%nat /\
  (exists l, safestrcpy (arr [108; 115; 0; 9]) 6 = l ++ [0]).
Proof.
  pose proof (bounded_copies_correct (arr [108; 115; 0; 9]) 6 ltac:(lia)) as (H1 & _ & l & H2 & _).
  split; [exact H1|]. exists l. exact H2.
Defined.

Lemma strlen_loop_Some fuel : forall s n k,
  strlen_loop s n fuel = Some k -> n <= k /\ s k = 0 /\ forall j, n <= j < k -> s j <> 0.
Proof.
  induction fuel as [|fuel IH]; intros s n k; cbn [strlen_loop]; [done|].
  destruct (Z.eqb_spec (s n) 0) as [H0|H0].
  - intros [= <-]. split; [lia|]. split; [done|]. lia.
  - intros (H1 & H2 & H3)%IH. split; [lia|]. split; [done|]. intros j Hj.
    destruct (decide (j = n)) as [->|]; [done|]. apply H3. lia.
Qed.

Lemma strlen_loop_total fuel : forall s n k,
  n <= k -> s k = 0 -> (forall j, n <= j < k -> s j <> 0) -> k - n < Z.of_nat fuel ->
  strlen_loop s n fuel = Some k.
Proof.
  induction fuel as [|fuel IH]; intros s n k Hle Hk Hne Hf; [lia|]. cbn [strlen_loop].
  destruct (Z.eqb_spec (s n) 0) as [H0|H0].
  - f_equal. destruct (decide (n = k)); [done|]. exfalso. apply (Hne n); [lia|done].
  - destruct (decide (n = k)) as [->|]; [done|]. apply IH; [lia|done| |lia]. intros j Hj. apply Hne. lia.
Qed.
