(* ===== verification/Spinlock.v ===== *)
(** * spinlock.c: spin locks on several processors

    [acquire] and [release] as the sequences of atomic actions they are: each
    processor has a program counter inside the lock code, and a step of the
    machine is one action of one processor, so every interleaving is a sequence of
    steps.  The state has the lock words and owner fields, the [ncli] and [intena]
    fields of each [struct cpu] and the processor's interrupt flag.  The lists of
    locks held and the depth of explicit [pushcli] calls are not in the source;
    they record which calls have completed, for the statements. *)

From stdpp Require Import functions.
From S2P Require Import Prelude Mmu Mem.

(** ** State *)

Record spinlock := Spinlock { locked : Z; lk_name : string; lk_cpu : option nat; lk_pcs : list Z }.
Definition set_locked (v : Z) (k : spinlock) : spinlock := Spinlock v (lk_name k) (lk_cpu k) (lk_pcs k).
Definition set_owner (o : option nat) (pcs : list Z) (k : spinlock) : spinlock :=
  Spinlock (locked k) (lk_name k) o pcs.

(** Who called [holding]: [acquire] or [release]. *)
Inductive use := UAcq | URel.

Inductive pc :=
| Out                              (* not in the lock code *)
| HoldPush (u : use) (l : lockid)  (* entering holding() *)
| HoldLocked (u : use) (l : lockid) (* about to read lock->locked *)
| HoldCpu (u : use) (l : lockid)   (* it was set: about to read lock->cpu *)
| HoldPop (u : use) (l : lockid) (r : bool)  (* about to popcli() and return r *)
| AcqSpin (l : lockid)             (* about to xchg *)
| AcqOwn (l : lockid)              (* the xchg returned 0: about to set lk->cpu *)
| RelOwner (l : lockid)            (* about to clear lk->cpu *)
| RelClear (l : lockid)            (* about to clear lk->locked *)
| RelPop                           (* about to popcli() *)
| Stuck (msg : string).            (* panic *)

Record cpu := Cpu {
  apicid : Z; c_IF : bool; c_ncli : Z; c_intena : bool; c_pc : pc;
  c_frame : Z;                     (* the address of the argument of acquire() *)
  c_held : list lockid; c_base : nat
}.

Record smp := Smp { ncpu : nat; cpus : nat -> cpu; locks : lockid -> spinlock; kmemory : mem }.

Definition set_cpu (i : nat) (c : cpu) (s : smp) : smp := Smp (ncpu s) (<[i := c]> (cpus s)) (locks s) (kmemory s).
Definition set_lock (l : lockid) (k : spinlock) (s : smp) : smp := Smp (ncpu s) (cpus s) (<[l := k]> (locks s)) (kmemory s).
Definition set_pc (p : pc) (c : cpu) : cpu :=
  Cpu (apicid c) (c_IF c) (c_ncli c) (c_intena c) p (c_frame c) (c_held c) (c_base c).
Definition set_IF (b : bool) (c : cpu) : cpu :=
  Cpu (apicid c) b (c_ncli c) (c_intena c) (c_pc c) (c_frame c) (c_held c) (c_base c).
Definition set_ncli (n : Z) (c : cpu) : cpu :=
  Cpu (apicid c) (c_IF c) n (c_intena c) (c_pc c) (c_frame c) (c_held c) (c_base c).
Definition set_intena (b : bool) (c : cpu) : cpu :=
  Cpu (apicid c) (c_IF c) (c_ncli c) b (c_pc c) (c_frame c) (c_held c) (c_base c).
Definition set_c_held (h : list lockid) (c : cpu) : cpu :=
  Cpu (apicid c) (c_IF c) (c_ncli c) (c_intena c) (c_pc c) (c_frame c) h (c_base c).
Definition set_frame (v : Z) (c : cpu) : cpu :=
  Cpu (apicid c) (c_IF c) (c_ncli c) (c_intena c) (c_pc c) v (c_held c) (c_base c).
Definition set_base (n : nat) (c : cpu) : cpu :=
  Cpu (apicid c) (c_IF c) (c_ncli c) (c_intena c) (c_pc c) (c_frame c) (c_held c) n.

(** ** [getcallerpcs] *)

(** Follow the chain of saved frame pointers from [ebp]; [n] entries are left.  The
    memory [m] is indexed by kernel virtual addresses. *)
Fixpoint callerpcs (m : mem) (n : nat) (ebp : Z) : list Z :=
  match n with
  | O => []
  | S n =>
    if (ebp =? 0) || (ebp <? KERNBASE) || (ebp =? 0xffffffff) then replicate (S n) 0
    else ld32 m (u32 (ebp + 4)) :: callerpcs m n (ld32 m ebp)
  end.
Definition getcallerpcs (m : mem) (v : Z) : list Z := callerpcs m 10 (u32 (v - 8)).

(** ** The code of one processor *)

(** [mycpu], on processor [i]: the first entry of [cpus] with this processor's
    local APIC id. *)
Definition mycpu (i : nat) : M smp nat := fun s =>
  if c_IF (cpus s i) then Panic "mycpu called with interrupts enabled
" else
  match find (fun j => apicid (cpus s j) =? apicid (cpus s i)) (seq 0 (ncpu s)) with
  | Some j => Ret j s
  | None => Panic "unknown apicid
"
  end.

Definition upd_lock (l : lockid) (f : spinlock -> spinlock) : M smp unit :=
  modify (fun s => set_lock l (f (locks s l)) s).
Definition upd_cpu (j : nat) (f : cpu -> cpu) : M smp unit := modify (fun s => set_cpu j (f (cpus s j)) s).

Definition pushcli (i : nat) : M smp unit :=
  eflags <- gets (fun s => c_IF (cpus s i)) ;;
  upd_cpu i (set_IF false) ;;;
  c <- mycpu i ;;
  n <- gets (fun s => c_ncli (cpus s c)) ;;
  (when n =? 0 do (c <- mycpu i ;; upd_cpu c (set_intena eflags))) ;;;
  c <- mycpu i ;;
  upd_cpu c (fun k => set_ncli (c_ncli k + 1) k).

Definition popcli (i : nat) : M smp unit :=
  eflags <- gets (fun s => c_IF (cpus s i)) ;;
  if eflags : bool then panic "popcli - interruptible" else
  c <- mycpu i ;;
  upd_cpu c (fun k => set_ncli (c_ncli k - 1) k) ;;;
  n <- gets (fun s => c_ncli (cpus s c)) ;;
  if n <? 0 then panic "popcli" else
  c <- mycpu i ;;
  n <- gets (fun s => c_ncli (cpus s c)) ;;
  c <- mycpu i ;;
  ena <- gets (fun s => c_intena (cpus s c)) ;;
  when (n =? 0) && ena do upd_cpu i (set_IF true).

Definition goto (i : nat) (p : pc) : M smp unit := upd_cpu i (set_pc p).

(** [initlock]. *)
Definition init_lock (l : lockid) (name : string) : M smp unit :=
  upd_lock l (fun k => Spinlock 0 name None (lk_pcs k)).

(** One atomic action of processor [i] inside the lock code. *)
Definition advance (i : nat) : M smp unit := fun s =>
  match c_pc (cpus s i) with
  | Out | Stuck _ => UB "not in the lock code"
  | HoldPush u l => (pushcli i ;;; goto i (HoldLocked u l)) s
  | HoldLocked u l => goto i (if locked (locks s l) =? 0 then HoldPop u l false else HoldCpu u l) s
  | HoldCpu u l =>
    (c <- mycpu i ;; goto i (HoldPop u l (bool_decide (lk_cpu (locks s l) = Some c)))) s
  | HoldPop u l r =>
    (popcli i ;;;
     match u with
     | UAcq => if r then panic "acquire" else goto i (AcqSpin l)
     | URel => if r then goto i (RelOwner l) else panic "release"
     end) s
  | AcqSpin l =>
    let old := locked (locks s l) in
    (upd_lock l (set_locked 1) ;;;
     goto i (if old =? 0 then AcqOwn l else AcqSpin l)) s
  | AcqOwn l =>
    (c <- mycpu i ;;
     upd_lock l (set_owner (Some c) (getcallerpcs (kmemory s) (c_frame (cpus s i)))) ;;;
     upd_cpu i (fun k => set_c_held (l :: c_held k) k) ;;; goto i Out) s
  | RelOwner l =>
    (upd_lock l (fun k => set_owner None (<[0%nat := 0]> (lk_pcs k)) k) ;;;
     upd_cpu i (fun k => set_c_held (filter (fun l' => l' ≠ l) (c_held k)) k) ;;; goto i (RelClear l)) s
  | RelClear l =>
    (upd_lock l (set_locked 0) ;;; goto i RelPop) s
  | RelPop => (popcli i ;;; goto i Out) s
  end.

(** What processor [i] does next: continue in the lock code, or from outside it call
    [acquire] (whose argument is at address [v] of its stack), [release],
    [pushcli], a matching [popcli] or [sti], or write memory. *)
Inductive event := EAdvance | EAcquire (l : lockid) (v : Z) | ERelease (l : lockid) | EPush | EPop | ESti | EWrite (m : mem).

Definition outside (i : nat) (s : smp) : bool := match c_pc (cpus s i) with Out => true | _ => false end.

Definition run_event (i : nat) (e : event) : M smp unit := fun s =>
  match e with
  | EAdvance => advance i s
  | EAcquire l v =>
    if outside i s then (pushcli i ;;; upd_cpu i (set_frame v) ;;; goto i (HoldPush UAcq l)) s else UB "busy"
  | ERelease l => if outside i s then goto i (HoldPush URel l) s else UB "busy"
  | EPush => if outside i s then (pushcli i ;;; upd_cpu i (fun k => set_base (S (c_base k)) k)) s else UB "busy"
  | EPop =>
    match c_base (cpus s i) with
    | O => UB "unmatched popcli"
    | S n => if outside i s then (popcli i ;;; upd_cpu i (set_base n)) s else UB "busy"
    end
  | ESti => if outside i s && (c_ncli (cpus s i) =? 0) then upd_cpu i (set_IF true) s else UB "busy"
  | EWrite m => if outside i s then Ret tt (Smp (ncpu s) (cpus s) (locks s) m) else UB "busy"
  end.

(** A step of the machine: some processor performs an action; a panic stops it. *)
Definition lstep (i : nat) (e : event) (s : smp) : option smp :=
  if (i <? ncpu s)%nat then
    match run_event i e s with
    | Ret _ s' => Some s'
    | Panic m => Some (set_cpu i (set_pc (Stuck m) (cpus s i)) s)
    | _ => None
    end
  else None.

Inductive reachable (s0 : smp) : smp -> Prop :=
| reach_init : reachable s0 s0
| reach_step i e s s' : reachable s0 s -> lstep i e s = Some s' -> reachable s0 s'.

(** A machine at start-up: distinct APIC ids, all locks free, nobody in the lock code. *)
Record lock_init (s : smp) : Prop := {
  li_apic : forall i j, (i < ncpu s)%nat -> (j < ncpu s)%nat -> apicid (cpus s i) = apicid (cpus s j) -> i = j;
  li_cpus : forall i, c_pc (cpus s i) = Out /\ c_held (cpus s i) = [] /\ c_base (cpus s i) = 0%nat /\
    c_ncli (cpus s i) = 0;
  li_locks : forall l, locked (locks s l) = 0 /\ lk_cpu (locks s l) = None
}.


(** ** What [mycpu], [pushcli] and [popcli] do *)

(** [s'] is [s] with processor [i]'s record now [c]. *)
Record cpu_step (i : nat) (c : cpu) (s s' : smp) : Prop := {
  cs_ncpu : ncpu s' = ncpu s;
  cs_locks : locks s' = locks s;
  cs_self : cpus s' i = c;
  cs_other : forall j, j <> i -> cpus s' j = cpus s j
}.

Lemma cpu_step_set i c s : cpu_step i c s (set_cpu i c s).
Proof. split; cbn; [done|done|apply fn_lookup_insert|intros; by apply fn_lookup_insert_ne]. Qed.

Lemma cpu_step_trans i c c' s s' s'' : cpu_step i c s s' -> cpu_step i c' s' s'' -> cpu_step i c' s s''.
Proof.
  intros H1 H2. split.
  - rewrite (cs_ncpu _ _ _ _ H2). apply (cs_ncpu _ _ _ _ H1).
  - rewrite (cs_locks _ _ _ _ H2). apply (cs_locks _ _ _ _ H1).
  - apply (cs_self _ _ _ _ H2).
  - intros j Hj. rewrite (cs_other _ _ _ _ H2) by done. by apply (cs_other _ _ _ _ H1).
Qed.

Definition distinct_apics (s : smp) : Prop :=
  forall i j, (i < ncpu s)%nat -> (j < ncpu s)%nat -> apicid (cpus s i) = apicid (cpus s j) -> i = j.

Lemma find_first {A} (f : A -> bool) (l : list A) x :
  In x l -> f x = true -> (forall y, In y l -> f y = true -> y = x) -> find f l = Some x.
Proof.
  intros Hx Hf Hu. destruct (find f l) as [y|] eqn:Hy.
  - apply find_some in Hy as [? ?]. f_equal. by apply Hu.
  - pose proof (find_none _ _ Hy _ Hx). congruence.
Qed.

Lemma mycpu_self i s :
  distinct_apics s -> (i < ncpu s)%nat -> c_IF (cpus s i) = false -> mycpu i s = Ret i s.
Proof.
  intros Hd Hi HIF. unfold mycpu. rewrite HIF. rewrite (find_first _ _ i); [done|..].
  - apply in_seq. lia.
  - apply Z.eqb_refl.
  - intros j [_ Hj]%in_seq Heq%Z.eqb_eq. by apply Hd.
Qed.

Lemma cpu_step_apics i c s s' :
  cpu_step i c s s' -> apicid c = apicid (cpus s i) -> distinct_apics s -> distinct_apics s'.
Proof.
  intros Hst Hc Hd j k. rewrite (cs_ncpu _ _ _ _ Hst). intros Hj Hk Heq.
  assert (Hap : forall j, apicid (cpus s' j) = apicid (cpus s j)).
  { intros j'. destruct (decide (j' = i)) as [->|Hne].
    - by rewrite (cs_self _ _ _ _ Hst).
    - by rewrite (cs_other _ _ _ _ Hst). }
  rewrite !Hap in Heq. by apply Hd.
Qed.

Definition pushed (c : cpu) : cpu :=
  set_ncli (c_ncli c + 1) (set_intena (if c_ncli c =? 0 then c_IF c else c_intena c) (set_IF false c)).
Definition popped (c : cpu) : cpu :=
  set_IF ((c_ncli c =? 1) && c_intena c) (set_ncli (c_ncli c - 1) c).

Lemma mycpu_step i c s s' :
  cpu_step i c s s' -> apicid c = apicid (cpus s i) -> c_IF c = false ->
  distinct_apics s -> (i < ncpu s)%nat -> mycpu i s' = Ret i s'.
Proof.
  intros Hst Hc HIF Hd Hi. apply mycpu_self.
  - by eapply cpu_step_apics.
  - by rewrite (cs_ncpu _ _ _ _ Hst).
  - by rewrite (cs_self _ _ _ _ Hst).
Qed.

Lemma upd_cpu_step i c s s' f :
  cpu_step i c s s' -> exists s'', upd_cpu i f s' = Ret tt s'' /\ cpu_step i (f c) s s''.
Proof.
  intros Hst. eexists. split; [reflexivity|]. eapply cpu_step_trans; [exact Hst|].
  rewrite <- (cs_self _ _ _ _ Hst). apply cpu_step_set.
Qed.

Lemma cpu_step_refl i s : cpu_step i (cpus s i) s s.
Proof. by split. Qed.

Lemma pushcli_spec i s :
  distinct_apics s -> (i < ncpu s)%nat ->
  exists s', pushcli i s = Ret tt s' /\ cpu_step i (pushed (cpus s i)) s s'.
Proof.
  intros Hd Hi. unfold pushcli.
  rewrite bind_gets.
  destruct (upd_cpu_step i _ s s (set_IF false) (cpu_step_refl i s)) as (s1 & E1 & H1). step E1.
  assert (Hm1 : mycpu i s1 = Ret i s1) by by eapply mycpu_step.
  step Hm1. rewrite bind_gets.
  assert (exists s2, (when c_ncli (cpus s1 i) =? 0 do
      (c <- mycpu i ;; upd_cpu c (set_intena (c_IF (cpus s i))))) s1 = Ret tt s2 /\
    cpu_step i (set_intena (if c_ncli (cpus s i) =? 0 then c_IF (cpus s i) else c_intena (cpus s i))
      (set_IF false (cpus s i))) s s2) as (s2 & E2 & H2).
  { rewrite (cs_self _ _ _ _ H1). cbn [set_IF c_ncli]. destruct (_ =? 0).
    - step Hm1. by apply (upd_cpu_step i _ s s1).
    - exists s1. split; [done|]. exact H1. }
  step E2.
  assert (Hm2 : mycpu i s2 = Ret i s2) by by eapply mycpu_step. step Hm2.
  exact (upd_cpu_step i _ s s2 (fun k => set_ncli (c_ncli k + 1) k) H2).
Qed.

Lemma popcli_spec i s :
  distinct_apics s -> (i < ncpu s)%nat -> c_IF (cpus s i) = false -> 0 < c_ncli (cpus s i) ->
  exists s', popcli i s = Ret tt s' /\ cpu_step i (popped (cpus s i)) s s'.
Proof.
  intros Hd Hi HIF Hn. unfold popcli.
  rewrite bind_gets, HIF.
  step (mycpu_self i s Hd Hi HIF).
  destruct (upd_cpu_step i _ s s (fun k => set_ncli (c_ncli k - 1) k) (cpu_step_refl i s)) as (s1 & E1 & H1).
  step E1. rewrite bind_gets.
  assert (Hm1 : mycpu i s1 = Ret i s1) by by eapply mycpu_step.
  rewrite (cs_self _ _ _ _ H1). cbn [set_ncli c_ncli].
  rewrite (proj2 (Z.ltb_ge _ 0)) by lia. step Hm1.
  rewrite bind_gets. step Hm1.
  rewrite bind_gets.
  rewrite (cs_self _ _ _ _ H1). cbn [set_ncli c_ncli c_intena].
  replace (c_ncli (cpus s i) - 1 =? 0) with (c_ncli (cpus s i) =? 1) by lia.
  unfold popped. destruct (_ && _) eqn:Hb.
  - apply (upd_cpu_step i _ s s1 (set_IF true) H1).
  - exists s1. split; [done|]. unfold set_IF, set_ncli in *. cbn in *. by rewrite <- HIF.
Qed.

(** ** The invariant *)

(** The processor's [xchg] or its [lk->locked = 0] is the action that makes it the
    owner of the lock word, or ends that. *)
Definition own (c : cpu) (l : lockid) : Prop :=
  l ∈ c_held c \/ c_pc c = AcqOwn l \/ c_pc c = RelClear l.

(** How many [pushcli] calls of the lock code itself are open at a program point. *)
Definition open_pushes (p : pc) : Z :=
  match p with
  | HoldPush UAcq _ | AcqSpin _ | AcqOwn _ | RelClear _ | RelPop => 1
  | HoldLocked UAcq _ | HoldCpu UAcq _ | HoldPop UAcq _ _ => 2
  | HoldLocked URel _ | HoldCpu URel _ | HoldPop URel _ _ => 1
  | _ => 0
  end.

Definition pc_ok (c : cpu) : Prop :=
  match c_pc c with
  | HoldPop _ l r => r = true <-> l ∈ c_held c
  | AcqSpin l | AcqOwn l | RelClear l => l ∉ c_held c
  | RelOwner l => l ∈ c_held c
  | Stuck m => m = "acquire" \/ m = "release"
  | _ => True
  end.

Record cpu_ok (c : cpu) : Prop := {
  co_nodup : NoDup (c_held c);
  co_pc : pc_ok c;
  co_ncli : match c_pc c with
            | Stuck _ => True
            | p => c_ncli c = Z.of_nat (c_base c) + Z.of_nat (length (c_held c)) + open_pushes p
            end;
  co_IF : 0 < c_ncli c -> c_IF c = false;
  co_pos : 0 <= c_ncli c
}.

Lemma co_count c : cpu_ok c -> (forall m, c_pc c <> Stuck m) ->
  c_ncli c = Z.of_nat (c_base c) + Z.of_nat (length (c_held c)) + open_pushes (c_pc c).
Proof. intros Hok Hns. pose proof (co_ncli c Hok). by destruct (c_pc c); try destruct (Hns msg). Qed.

Record linv (s : smp) : Prop := {
  lv_apic : distinct_apics s;
  lv_cpu : forall i, cpu_ok (cpus s i);
  lv_free : forall l i, locked (locks s l) = 0 -> ~ own (cpus s i) l;
  lv_taken : forall l, locked (locks s l) <> 0 -> exists i, own (cpus s i) l;
  lv_unique : forall l i j, own (cpus s i) l -> own (cpus s j) l -> i = j;
  lv_owner : forall l i, lk_cpu (locks s l) = Some i <-> l ∈ c_held (cpus s i)
}.

Lemma linv_init s : lock_init s -> linv s.
Proof.
  intros [Ha Hc Hl]. assert (Hno : forall i l, ~ own (cpus s i) l).
  { intros i l. destruct (Hc i) as (Hp & Hh & _). unfold own. rewrite Hp, Hh.
    intros [[]%elem_of_nil|[|]]; discriminate. }
  split; [exact Ha| |naive_solver|naive_solver|naive_solver|].
  - intros i. destruct (Hc i) as (Hp & Hh & Hb & Hn). split; unfold pc_ok; rewrite ?Hp, ?Hh, ?Hb, ?Hn;
      [constructor|done|cbn; lia|lia|lia].
  - intros l i. destruct (Hl l) as [_ ->], (Hc i) as (_ & -> & _). by split; [|intros []%elem_of_nil].
Qed.

(** Changing one processor's own record, with its locks as they were. *)
Lemma linv_local i c s s' :
  linv s -> cpu_step i c s s' -> cpu_ok c -> apicid c = apicid (cpus s i) ->
  c_held c = c_held (cpus s i) -> (forall l, own c l <-> own (cpus s i) l) -> linv s'.
Proof.
  intros Hi Hst Hok Hap Hh Hown.
  assert (Ho : forall j l, own (cpus s' j) l <-> own (cpus s j) l).
  { intros j l. destruct (decide (j = i)) as [->|Hne].
    - rewrite (cs_self _ _ _ _ Hst). apply Hown.
    - by rewrite (cs_other _ _ _ _ Hst). }
  split.
  - eapply cpu_step_apics; [exact Hst|exact Hap|apply Hi].
  - intros j. destruct (decide (j = i)) as [->|Hne].
    + by rewrite (cs_self _ _ _ _ Hst).
    + rewrite (cs_other _ _ _ _ Hst) by done. apply Hi.
  - intros l j. rewrite (cs_locks _ _ _ _ Hst), Ho. apply (lv_free s Hi).
  - intros l. rewrite (cs_locks _ _ _ _ Hst). intros [j Hj]%(lv_taken s Hi). exists j. by apply Ho.
  - intros l j k. rewrite !Ho. apply (lv_unique s Hi).
  - intros l j. rewrite (cs_locks _ _ _ _ Hst), (lv_owner s Hi).
    destruct (decide (j = i)) as [->|Hne].
    + by rewrite (cs_self _ _ _ _ Hst), Hh.
    + by rewrite (cs_other _ _ _ _ Hst).
Qed.

(** Rewriting a lock that stays taken by the same owner. *)
Lemma linv_relock l k s :
  linv s -> (locked k = 0 <-> locked (locks s l) = 0) -> lk_cpu k = lk_cpu (locks s l) ->
  linv (set_lock l k s).
Proof.
  intros Hi Hl Hc.
  assert (Hk : forall l', (locked (locks (set_lock l k s) l') = 0 <-> locked (locks s l') = 0) /\
    lk_cpu (locks (set_lock l k s) l') = lk_cpu (locks s l')).
  { intros l'. cbn. destruct (decide (l' = l)) as [->|Hne].
    - by rewrite fn_lookup_insert.
    - by rewrite fn_lookup_insert_ne. }
  split; [apply Hi|apply Hi| | |apply Hi|].
  - intros l' i. rewrite (proj1 (Hk l')). apply (lv_free s Hi).
  - intros l'. rewrite (proj1 (Hk l')). apply (lv_taken s Hi).
  - intros l' i. rewrite (proj2 (Hk l')). apply (lv_owner s Hi).
Qed.

(** Taking or giving up a lock nobody else has. *)
Lemma linv_lock i c l k s s' :
  linv s -> cpu_step i c (set_lock l k s) s' -> cpu_ok c -> apicid c = apicid (cpus s i) ->
  (forall l', l' <> l -> (own c l' <-> own (cpus s i) l') /\ (l' ∈ c_held c <-> l' ∈ c_held (cpus s i))) ->
  (forall j, j <> i -> ~ own (cpus s j) l) ->
  (locked k = 0 <-> ~ own c l) -> (own c l \/ ~ own c l) ->
  (forall j, lk_cpu k = Some j <-> j = i /\ l ∈ c_held c) ->
  linv s'.
Proof.
  intros Hi Hst Hok Hap Hsame Hexcl Hlk Hdec Hcpu.
  pose proof (cs_self _ _ _ _ Hst) as Hself. pose proof (cs_other _ _ _ _ Hst) as Hoth.
  pose proof (cs_locks _ _ _ _ Hst) as Hlocks. cbn in Hoth, Hlocks.
  assert (Hl : locks s' l = k) by by rewrite Hlocks, fn_lookup_insert.
  assert (Hl' : forall l', l' <> l -> locks s' l' = locks s l').
  { intros l' Hne. by rewrite Hlocks, fn_lookup_insert_ne. }
  assert (Ho : forall j l', l' <> l -> own (cpus s' j) l' <-> own (cpus s j) l').
  { intros j l' Hne. destruct (decide (j = i)) as [->|Hj].
    - rewrite Hself. by apply Hsame.
    - by rewrite Hoth. }
  assert (Hol : forall j, own (cpus s' j) l <-> j = i /\ own c l).
  { intros j. destruct (decide (j = i)) as [->|Hj].
    - rewrite Hself. naive_solver.
    - rewrite Hoth by done. specialize (Hexcl j Hj). naive_solver. }
  split.
  - eapply cpu_step_apics; [exact Hst|exact Hap|apply Hi].
  - intros j. destruct (decide (j = i)) as [->|Hj]; [by rewrite Hself|].
    rewrite Hoth by done. apply Hi.
  - intros l' j. destruct (decide (l' = l)) as [->|Hne].
    + rewrite Hl, Hol. naive_solver.
    + rewrite Hl', Ho by done. apply (lv_free s Hi).
  - intros l'. destruct (decide (l' = l)) as [->|Hne].
    + rewrite Hl. intros Hk. exists i. apply Hol. naive_solver.
    + rewrite Hl' by done. intros [j Hj]%(lv_taken s Hi). exists j. by apply Ho.
  - intros l' j j'. destruct (decide (l' = l)) as [->|Hne].
    + rewrite !Hol. naive_solver.
    + rewrite !Ho by done. apply (lv_unique s Hi).
  - intros l' j. destruct (decide (l' = l)) as [->|Hne].
    + rewrite Hl, Hcpu. destruct (decide (j = i)) as [->|Hj]; [rewrite Hself; naive_solver|].
      rewrite Hoth by done. specialize (Hexcl j Hj). unfold own in Hexcl. naive_solver.
    + rewrite Hl', (lv_owner s Hi) by done. destruct (decide (j = i)) as [->|Hj].
      * rewrite Hself. symmetry. by apply Hsame.
      * by rewrite Hoth.
Qed.

(** ** One step against the abstract view *)

(** The interface of [Prelude] over the bare list of locks a processor holds. *)
#[export] Instance held_list_locks : LockState (list lockid) := {
  held h := h; set_held h _ := h;
  held_set_held := fun h _ => eq_refl; set_held_set_held := fun _ _ _ => eq_refl;
  set_held_held := fun _ => eq_refl
}.

Definition held_by (s : smp) (i : nat) : list lockid := c_held (cpus s i).
Definition stuck (s : smp) (i : nat) (m : string) : Prop := c_pc (cpus s i) = Stuck m.

(** A step of processor [i] as the interface sees it: nothing, a completed
    [acquire] of a lock no processor held, a [release], or one of their panics. *)
Inductive abs_local (i : nat) (s s' : smp) : Prop :=
| abs_quiet : held_by s' i = held_by s i -> (forall m, ~ stuck s' i m) -> abs_local i s s'
| abs_acquire l :
    acquire l (held_by s i) = Ret tt (held_by s' i) -> (forall j, l ∉ held_by s j) -> abs_local i s s'
| abs_release l : release l (held_by s i) = Ret tt (held_by s' i) -> abs_local i s s'
| abs_panic l m :
    acquire l (held_by s i) = Panic m \/ release l (held_by s i) = Panic m ->
    held_by s' i = held_by s i -> stuck s' i m -> abs_local i s s'.

Definition abs_step (i : nat) (s s' : smp) : Prop :=
  (forall j, j <> i -> held_by s' j = held_by s j) /\ abs_local i s s'.

Lemma abs_step_intro i c s s1 s' :
  cpu_step i c s1 s' -> cpus s1 = cpus s -> abs_local i s s' -> abs_step i s s'.
Proof.
  intros Hst Hc Ha. split; [|done]. intros j Hj. unfold held_by. by rewrite (cs_other _ _ _ _ Hst), Hc.
Qed.

(** The lock table, the locks held and the number of processors are as before. *)
Definition moved (i : nat) (p : pc) (s s' : smp) : Prop :=
  c_pc (cpus s' i) = p /\ held_by s' i = held_by s i /\ locks s' = locks s /\ ncpu s' = ncpu s.

Definition ok_move (i : nat) (p : pc) (s : smp) (o : outcome smp unit) : Prop :=
  exists s', o = Ret tt s' /\ linv s' /\ abs_step i s s' /\ moved i p s s'.
Definition ok_step (i : nat) (s : smp) (o : outcome smp unit) : Prop :=
  exists s', o = Ret tt s' /\ linv s' /\ abs_step i s s'.

(** The processor is now at [p] and holds the locks [h]. *)
Definition ok_to (i : nat) (p : pc) (h : list lockid) (s : smp) (o : outcome smp unit) : Prop :=
  exists s', o = Ret tt s' /\ linv s' /\ abs_step i s s' /\
    c_pc (cpus s' i) = p /\ held_by s' i = h /\ ncpu s' = ncpu s.

Lemma ok_to_step i p h s o : ok_to i p h s o -> ok_step i s o.
Proof. intros (s' & ? & ? & ? & _). by exists s'. Qed.

Lemma ok_move_step i p s o : ok_move i p s o -> ok_step i s o.
Proof. intros (s' & ? & ? & ? & _). by exists s'. Qed.

Lemma quiet_step i c p s s' :
  linv s -> cpu_step i c s s' -> cpu_ok c -> apicid c = apicid (cpus s i) ->
  c_held c = c_held (cpus s i) -> (forall l, own c l <-> own (cpus s i) l) ->
  (forall m, c_pc c <> Stuck m) -> c_pc c = p -> linv s' /\ abs_step i s s' /\ moved i p s s'.
Proof.
  intros Hi Hst Hok Hap Hh Hown Hns Hp. split; [by eapply linv_local|].
  split; [eapply abs_step_intro; [exact Hst|done|]; apply abs_quiet|]; unfold moved, held_by, stuck;
    rewrite (cs_self _ _ _ _ Hst); try done. split_and!; [done|done|apply Hst|apply Hst].
Qed.

(** [pushcli] and [popcli] keep the count of open calls. *)
Lemma cpu_ok_pushed c p n :
  cpu_ok c -> (forall m, c_pc c <> Stuck m) -> pc_ok (set_pc p c) -> (forall m, p <> Stuck m) ->
  Z.of_nat n + open_pushes p = Z.of_nat (c_base c) + open_pushes (c_pc c) + 1 ->
  cpu_ok (set_base n (set_pc p (pushed c))).
Proof.
  intros Hok Hns Hp Hnp Ho. pose proof (co_count c Hok Hns) as Hn. pose proof (co_pos c Hok).
  split; cbn -[open_pushes]; [apply Hok|exact Hp| |done|lia].
  assert (c_ncli c + 1 = Z.of_nat n + Z.of_nat (length (c_held c)) + open_pushes p) by lia. by destruct p.
Qed.

Lemma cpu_ok_popped c p n :
  cpu_ok c -> (forall m, c_pc c <> Stuck m) -> pc_ok (set_pc p c) -> (forall m, p <> Stuck m) ->
  Z.of_nat n + open_pushes p = Z.of_nat (c_base c) + open_pushes (c_pc c) - 1 -> 0 < c_ncli c ->
  cpu_ok (set_base n (set_pc p (popped c))).
Proof.
  intros Hok Hns Hp Hnp Ho Hpos. pose proof (co_count c Hok Hns) as Hn.
  split; cbn -[open_pushes];
    [apply Hok|exact Hp| |intros; destruct (Z.eqb_spec (c_ncli c) 1); [lia|done]|lia].
  assert (c_ncli c - 1 = Z.of_nat n + Z.of_nat (length (c_held c)) + open_pushes p) by lia. by destruct p.
Qed.

Lemma filter_ne_length (l : lockid) h :
  NoDup h -> l ∈ h -> length h = S (length (filter (fun l' => l' ≠ l) h)).
Proof.
  induction h as [|x h IH]; [intros _ []%elem_of_nil|]. intros [Hx Hnd]%NoDup_cons Hin.
  destruct (decide (x = l)) as [->|Hne].
  - rewrite filter_cons_False by naive_solver. by rewrite (filter_ne_notin l h).
  - rewrite filter_cons_True by done. cbn. f_equal. apply IH; [done|]. set_solver.
Qed.

Section Actions.
Context (i : nat) (s : smp) (Hinv : linv s) (Hi : (i < ncpu s)%nat).

Lemma push_then f :
  exists s', (pushcli i ;;; upd_cpu i f) s = Ret tt s' /\ cpu_step i (f (pushed (cpus s i))) s s'.
Proof using Hinv Hi.
  destruct (pushcli_spec i s (lv_apic s Hinv) Hi) as (s1 & E1 & H1). step E1.
  exact (upd_cpu_step i _ s s1 f H1).
Qed.

Lemma pop_then f :
  0 < c_ncli (cpus s i) ->
  exists s', (popcli i ;;; upd_cpu i f) s = Ret tt s' /\ cpu_step i (f (popped (cpus s i))) s s'.
Proof using Hinv Hi.
  intros Hn. pose proof (co_IF _ (lv_cpu s Hinv i) Hn) as HIF.
  destruct (popcli_spec i s (lv_apic s Hinv) Hi HIF Hn) as (s1 & E1 & H1). step E1.
  exact (upd_cpu_step i _ s s1 f H1).
Qed.

(** Inside the lock code, with a [pushcli] open, interrupts are off. *)
Lemma open_ncli :
  (forall m, c_pc (cpus s i) <> Stuck m) -> 0 < open_pushes (c_pc (cpus s i)) -> 0 < c_ncli (cpus s i).
Proof using Hinv Hi.
  intros Hns Ho. pose proof (co_count _ (lv_cpu s Hinv i) Hns). lia.
Qed.

Lemma mycpu_open :
  (forall m, c_pc (cpus s i) <> Stuck m) -> 0 < open_pushes (c_pc (cpus s i)) -> mycpu i s = Ret i s.
Proof using Hinv Hi.
  intros Hns Ho. apply mycpu_self; [apply Hinv|done|].
  apply (co_IF _ (lv_cpu s Hinv i)). by apply open_ncli.
Qed.

Lemma hold_push u l :
  c_pc (cpus s i) = HoldPush u l -> ok_move i (HoldLocked u l) s (advance i s).
Proof using Hinv Hi.
  intros Hpc. unfold advance. rewrite Hpc.
  destruct (push_then (set_pc (HoldLocked u l))) as (s' & E & H). exists s'. split; [exact E|].
  eapply quiet_step; [done|exact H| |done|done| |done|done].
  - apply (cpu_ok_pushed (cpus s i) (HoldLocked u l) (c_base (cpus s i))); rewrite ?Hpc; try done; [apply Hinv|].
    destruct u; cbn; lia.
  - intros l'. unfold own. cbn. rewrite Hpc. naive_solver.
Qed.

(** A step that only moves the program counter. *)
Lemma goto_step p :
  pc_ok (set_pc p (cpus s i)) -> open_pushes p = open_pushes (c_pc (cpus s i)) ->
  (forall m, c_pc (cpus s i) <> Stuck m) -> (forall m, p <> Stuck m) ->
  (forall l, own (set_pc p (cpus s i)) l <-> own (cpus s i) l) ->
  ok_move i p s (goto i p s).
Proof using Hinv Hi.
  intros Hp Ho Hns Hnp Hown. destruct (upd_cpu_step i _ s s (set_pc p) (cpu_step_refl i s)) as (s' & E & H).
  exists s'. split; [exact E|]. eapply quiet_step; [done|exact H| |done|done|done|done|done].
  pose proof (lv_cpu s Hinv i) as Hok. split; cbn -[open_pushes]; try apply Hok; [done|].
  pose proof (co_count _ Hok Hns) as Hc. rewrite <- Ho in Hc. by destruct p.
Qed.

Lemma hold_locked u l :
  c_pc (cpus s i) = HoldLocked u l -> ok_move i (if locked (locks s l) =? 0 then HoldPop u l false else HoldCpu u l) s (advance i s).
Proof using Hinv Hi.
  intros Hpc. unfold advance. rewrite Hpc. apply goto_step; rewrite ?Hpc; try done.
  - destruct (Z.eqb_spec (locked (locks s l)) 0) as [Hz|]; [|done]. unfold pc_ok. cbn. split; [done|].
    intros Hin. destruct (lv_free s Hinv l i Hz). by left.
  - destruct (_ =? 0), u; done.
  - by destruct (_ =? 0).
  - intros l'. unfold own. cbn. rewrite Hpc. destruct (_ =? 0); naive_solver.
Qed.

Lemma hold_cpu u l :
  c_pc (cpus s i) = HoldCpu u l -> ok_move i (HoldPop u l (bool_decide (lk_cpu (locks s l) = Some i))) s (advance i s).
Proof using Hinv Hi.
  intros Hpc. unfold advance. rewrite Hpc.
  assert (Hm : mycpu i s = Ret i s) by (apply mycpu_open; rewrite Hpc; destruct u; done).
  step Hm. apply goto_step; rewrite ?Hpc; try done.
  - unfold pc_ok. cbn. rewrite bool_decide_eq_true. apply (lv_owner s Hinv).
  - intros l'. unfold own. cbn. rewrite Hpc. naive_solver.
Qed.

Lemma hold_pop_goto p u l r :
  c_pc (cpus s i) = HoldPop u l r -> pc_ok (set_pc p (cpus s i)) -> (forall m, p <> Stuck m) ->
  open_pushes p = open_pushes (HoldPop u l r) - 1 -> (forall l', p <> AcqOwn l' /\ p <> RelClear l') ->
  ok_move i p s ((popcli i ;;; goto i p) s).
Proof using Hinv Hi.
  intros Hpc Hp Hnp Ho Hn. assert (Hpos : 0 < c_ncli (cpus s i)).
  { apply open_ncli; rewrite Hpc; [done|]. destruct u; done. }
  destruct (pop_then (set_pc p) Hpos) as (s' & E & H). exists s'. split; [exact E|].
  eapply quiet_step; [done|exact H| |done|done| |done|done].
  - apply (cpu_ok_popped (cpus s i) p (c_base (cpus s i))); rewrite ?Hpc; try done; [apply Hinv|lia].
  - intros l'. unfold own. cbn. rewrite Hpc. destruct (Hn l'). naive_solver.
Qed.

(** [holding] found the answer [acquire] or [release] panics on. *)
Lemma hold_panic u l r (m : string) :
  c_pc (cpus s i) = HoldPop u l r -> (popcli i ;;; panic m) s = (Panic m : outcome smp unit).
Proof using Hinv Hi.
  intros Hpc. assert (Hpos : 0 < c_ncli (cpus s i)).
  { apply open_ncli; rewrite Hpc; [done|]. destruct u; done. }
  destruct (popcli_spec i s (lv_apic s Hinv) Hi (co_IF _ (lv_cpu s Hinv i) Hpos) Hpos) as (s1 & E1 & _).
  by step E1.
Qed.

Lemma stuck_step l m :
  m = "acquire" \/ m = "release" -> (forall l', ~ (c_pc (cpus s i) = AcqOwn l' \/ c_pc (cpus s i) = RelClear l')) ->
  acquire l (held_by s i) = Panic m \/ release l (held_by s i) = Panic m ->
  linv (set_cpu i (set_pc (Stuck m) (cpus s i)) s) /\ abs_step i s (set_cpu i (set_pc (Stuck m) (cpus s i)) s).
Proof using Hinv Hi.
  intros Hm Hn Habs. pose proof (cpu_step_set i (set_pc (Stuck m) (cpus s i)) s) as H.
  pose proof (lv_cpu s Hinv i) as Hok. split.
  - eapply linv_local; [done|exact H| |done|done|].
    + split; cbn; [apply Hok|done|done|apply Hok|apply Hok].
    + intros l'. specialize (Hn l'). unfold own. cbn. naive_solver.
  - eapply abs_step_intro; [exact H|done|]. apply (abs_panic _ _ _ l m); [done|..]; unfold held_by, stuck; by rewrite (cs_self _ _ _ _ H).
Qed.

Lemma acq_spin l :
  c_pc (cpus s i) = AcqSpin l ->
  ok_to i (if locked (locks s l) =? 0 then AcqOwn l else AcqSpin l) (held_by s i) s (advance i s).
Proof using Hinv Hi.
  intros Hpc. unfold advance. rewrite Hpc. cbv zeta. pose proof (lv_cpu s Hinv i) as Hok.
  assert (Hl : l ∉ c_held (cpus s i)).
  { pose proof (co_pc _ Hok) as Hp. unfold pc_ok in Hp. by rewrite Hpc in Hp. }
  unfold upd_lock. rewrite bind_modify.
  set (p := if locked (locks s l) =? 0 then AcqOwn l else AcqSpin l).
  set (s1 := set_lock l _ s).
  destruct (upd_cpu_step i _ s1 s1 (set_pc p) (cpu_step_refl i s1)) as (s' & E & H).
  exists s'. split; [exact E|].
  assert (Hok' : cpu_ok (set_pc p (cpus s i))).
  { pose proof (co_ncli _ Hok) as Hn. rewrite Hpc in Hn.
    split; cbn; try apply Hok; unfold pc_ok, p; cbn; destruct (_ =? 0); done. }
  split_and!.
  - subst p. destruct (Z.eqb_spec (locked (locks s l)) 0) as [Hz|Hnz].
    + eapply (linv_lock i _ l (set_locked 1 (locks s l)) s s'); [done|exact H|exact Hok'|done|..].
      * intros l' Hne. split; [|done]. unfold own. cbn. rewrite Hpc. naive_solver.
      * intros j _. by apply (lv_free s Hinv).
      * cbn. split; [done|]. intros Hno. destruct Hno. right. by left.
      * left. right. by left.
      * intros j. cbn. rewrite (lv_owner s Hinv). split; [|naive_solver].
        intros Hj. destruct (lv_free s Hinv l j Hz). by left.
    + eapply (linv_local i _ s1 s'); [|exact H|exact Hok'|done|done|].
      * by apply linv_relock.
      * intros l'. unfold own. cbn. by rewrite Hpc.
  - eapply abs_step_intro; [exact H|done|]. apply abs_quiet; unfold held_by, stuck; rewrite (cs_self _ _ _ _ H); [done|].
    subst p. cbn. by destruct (_ =? 0).
  - by rewrite (cs_self _ _ _ _ H).
  - unfold held_by. by rewrite (cs_self _ _ _ _ H).
  - apply H.
Qed.

Lemma lock_cpu_goto l f g p :
  exists s', (upd_lock l f ;;; upd_cpu i g ;;; goto i p) s = Ret tt s' /\
    cpu_step i (set_pc p (g (cpus s i))) (set_lock l (f (locks s l)) s) s'.
Proof using.
  unfold upd_lock. rewrite bind_modify. set (s1 := set_lock l _ s).
  destruct (upd_cpu_step i _ s1 s1 g (cpu_step_refl i s1)) as (s2 & E2 & H2). step E2.
  exact (upd_cpu_step i _ s1 s2 (set_pc p) H2).
Qed.

Lemma own_excl l j : own (cpus s i) l -> j <> i -> ~ own (cpus s j) l.
Proof using Hinv Hi. intros Ho Hne Hj. by apply Hne, (lv_unique s Hinv l). Qed.

Lemma acq_own l :
  c_pc (cpus s i) = AcqOwn l -> ok_to i Out (l :: held_by s i) s (advance i s).
Proof using Hinv Hi.
  intros Hpc. unfold advance. rewrite Hpc. pose proof (lv_cpu s Hinv i) as Hok.
  assert (Hm : mycpu i s = Ret i s) by (apply mycpu_open; by rewrite Hpc). step Hm.
  assert (Hl : l ∉ c_held (cpus s i)).
  { pose proof (co_pc _ Hok) as Hp. unfold pc_ok in Hp. by rewrite Hpc in Hp. }
  assert (Hown : own (cpus s i) l) by (right; by left).
  edestruct lock_cpu_goto as (s' & E & H). exists s'. split; [exact E|]. split_and!.
  - eapply linv_lock; [done|exact H| |done|..].
    + pose proof (co_ncli _ Hok) as Hn. rewrite Hpc in Hn. cbn in Hn.
      split; cbn; [constructor; [done|apply Hok]|done|lia|apply Hok|apply Hok].
    + intros l' Hne. unfold own. cbn. rewrite Hpc, elem_of_cons. naive_solver.
    + intros j Hj. by apply own_excl.
    + cbn. split; [|intros []; left; left]. intros Hz. by destruct (lv_free s Hinv l i Hz).
    + left. left. cbn. left.
    + intros j. cbn. split; [|naive_solver]. intros [= ->]. split; [done|]. left.
  - eapply abs_step_intro; [exact H|done|]. apply (abs_acquire _ _ _ l); unfold held_by.
    + rewrite (cs_self _ _ _ _ H). unfold acquire. cbn. by rewrite decide_False.
    + intros j Hj. destruct (decide (j = i)) as [->|Hne]; [done|].
      apply (own_excl l j Hown Hne). by left.
  - by rewrite (cs_self _ _ _ _ H).
  - unfold held_by. by rewrite (cs_self _ _ _ _ H).
  - apply H.
Qed.

Lemma rel_owner l :
  c_pc (cpus s i) = RelOwner l -> ok_to i (RelClear l) (filter (fun l' => l' ≠ l) (held_by s i)) s (advance i s).
Proof using Hinv Hi.
  intros Hpc. unfold advance. rewrite Hpc. pose proof (lv_cpu s Hinv i) as Hok.
  assert (Hl : l ∈ c_held (cpus s i)).
  { pose proof (co_pc _ Hok) as Hp. unfold pc_ok in Hp. by rewrite Hpc in Hp. }
  assert (Hown : own (cpus s i) l) by by left.
  edestruct lock_cpu_goto as (s' & E & H). exists s'. split; [exact E|]. split_and!.
  - eapply linv_lock; [done|exact H| |done|..].
    + pose proof (co_ncli _ Hok) as Hn. rewrite Hpc in Hn. cbn in Hn.
      pose proof (filter_ne_length l _ (co_nodup _ Hok) Hl).
      split; cbn; [apply NoDup_filter, Hok|unfold pc_ok; cbn; rewrite list_elem_of_filter; naive_solver|lia|
        apply Hok|apply Hok].
    + intros l' Hne. unfold own. cbn. rewrite Hpc, list_elem_of_filter. naive_solver.
    + intros j Hj. by apply own_excl.
    + cbn. split; [|intros []; right; by right]. intros Hz. by destruct (lv_free s Hinv l i Hz).
    + left. right. by right.
    + intros j. cbn. rewrite list_elem_of_filter. naive_solver.
  - eapply abs_step_intro; [exact H|done|]. apply (abs_release _ _ _ l); unfold held_by. rewrite (cs_self _ _ _ _ H). cbn.
    unfold release. cbn. by rewrite decide_True.
  - by rewrite (cs_self _ _ _ _ H).
  - unfold held_by. by rewrite (cs_self _ _ _ _ H).
  - apply H.
Qed.

Lemma rel_clear l :
  c_pc (cpus s i) = RelClear l -> ok_to i RelPop (held_by s i) s (advance i s).
Proof using Hinv Hi.
  intros Hpc. unfold advance. rewrite Hpc. pose proof (lv_cpu s Hinv i) as Hok.
  assert (Hl : l ∉ c_held (cpus s i)).
  { pose proof (co_pc _ Hok) as Hp. unfold pc_ok in Hp. by rewrite Hpc in Hp. }
  assert (Hown : own (cpus s i) l) by (right; by right).
  unfold upd_lock. rewrite bind_modify. set (s1 := set_lock l _ s).
  destruct (upd_cpu_step i _ s1 s1 (set_pc RelPop) (cpu_step_refl i s1)) as (s' & E & H).
  exists s'. split; [exact E|]. split_and!.
  - eapply linv_lock; [done|exact H| |done|..].
    + pose proof (co_ncli _ Hok) as Hn. rewrite Hpc in Hn. split; cbn; try apply Hok; done.
    + intros l' Hne. unfold own. cbn. rewrite Hpc. naive_solver.
    + intros j Hj. by apply own_excl.
    + cbn. split; [|done]. intros _. unfold own. cbn. naive_solver.
    + right. unfold own. cbn. naive_solver.
    + intros j. cbn. rewrite (lv_owner s Hinv). split; [|naive_solver]. intros Hj.
      destruct (decide (j = i)) as [->|Hne]; [done|]. destruct (own_excl l j Hown Hne). by left.
  - eapply abs_step_intro; [exact H|done|]. apply abs_quiet; unfold held_by, stuck; by rewrite (cs_self _ _ _ _ H).
  - by rewrite (cs_self _ _ _ _ H).
  - unfold held_by. by rewrite (cs_self _ _ _ _ H).
  - apply H.
Qed.

Lemma rel_pop :
  c_pc (cpus s i) = RelPop -> ok_move i Out s (advance i s).
Proof using Hinv Hi.
  intros Hpc. unfold advance. rewrite Hpc.
  destruct (pop_then (set_pc Out)) as (s' & E & H); [apply open_ncli; by rewrite Hpc|].
  exists s'. split; [exact E|]. eapply quiet_step; [done|exact H| |done|done| |done|done].
  - apply (cpu_ok_popped (cpus s i) Out (c_base (cpus s i))); rewrite ?Hpc; try done;
      [apply Hinv|cbn; lia|]. apply open_ncli; by rewrite Hpc.
  - intros l'. unfold own. cbn. rewrite Hpc. naive_solver.
Qed.
End Actions.

Lemma enter_acquire i s l v :
  linv s -> (i < ncpu s)%nat -> c_pc (cpus s i) = Out ->
  ok_move i (HoldPush UAcq l) s ((pushcli i ;;; upd_cpu i (set_frame v) ;;; goto i (HoldPush UAcq l)) s).
Proof.
  intros Hinv Hi Hpc. pose proof (lv_cpu s Hinv i) as Hok.
  destruct (push_then i s Hinv Hi (set_frame v)) as (s1 & E1 & H1).
  rewrite <- (bind_assoc (pushcli i) (fun _ => upd_cpu i (set_frame v)) (fun _ => goto i (HoldPush UAcq l))).
  step E1. destruct (upd_cpu_step i _ s s1 (set_pc (HoldPush UAcq l)) H1) as (s' & E & H).
  exists s'. split; [exact E|].
  eapply quiet_step; [done|exact H| |done|done| |done|done].
  - pose proof (co_ncli _ Hok) as Hn. rewrite Hpc in Hn. cbn in Hn. pose proof (co_pos _ Hok).
    split; cbn; [apply Hok|done|lia|done|lia].
  - intros l'. unfold own. cbn. rewrite Hpc. naive_solver.
Qed.

Lemma enter_release i s l :
  linv s -> (i < ncpu s)%nat -> c_pc (cpus s i) = Out ->
  ok_move i (HoldPush URel l) s (goto i (HoldPush URel l) s).
Proof.
  intros Hinv Hi Hpc. apply goto_step; rewrite ?Hpc; try done.
  intros l'. unfold own. cbn. rewrite Hpc. naive_solver.
Qed.

Lemma advance_spec i s :
  linv s -> (i < ncpu s)%nat ->
  match c_pc (cpus s i) with
  | Out | Stuck _ => True
  | _ =>
    ok_step i s (advance i s) \/
    (exists l m, advance i s = Panic m /\ (m = "acquire" \/ m = "release") /\
      (exists u r, c_pc (cpus s i) = HoldPop u l r) /\
      (acquire l (held_by s i) = Panic m \/ release l (held_by s i) = Panic m))
  end.
Proof.
  intros Hinv Hi. destruct (c_pc (cpus s i)) eqn:Hpc; try done.
  - left. eapply ok_move_step. by eapply hold_push.
  - left. eapply ok_move_step. by eapply hold_locked.
  - left. eapply ok_move_step. by eapply hold_cpu.
  - pose proof (co_pc _ (lv_cpu s Hinv i)) as Hp. unfold pc_ok in Hp. rewrite Hpc in Hp.
    unfold advance. rewrite Hpc. destruct u, r.
    + right. exists l, "acquire". split; [by eapply hold_panic|]. split; [by left|]. split; [eauto|]. left.
      apply (acquire_held l (held_by s i)). by apply Hp.
    + left. eapply ok_move_step, hold_pop_goto; [done|done|done| |done|done|done]. cbn. naive_solver.
    + left. eapply ok_move_step, hold_pop_goto; [done|done|done| |done|done|done]. cbn. naive_solver.
    + right. exists l, "release". split; [by eapply hold_panic|]. split; [by right|]. split; [eauto|]. right.
      apply (release_free l (held_by s i)). cbn. naive_solver.
  - left. eapply ok_to_step. by eapply acq_spin.
  - left. eapply ok_to_step. by eapply acq_own.
  - left. eapply ok_to_step. by eapply rel_owner.
  - left. eapply ok_to_step. by eapply rel_clear.
  - left. eapply ok_move_step. by eapply rel_pop.
Qed.

Lemma outside_pc i s : outside i s = true -> c_pc (cpus s i) = Out.
Proof. unfold outside. by destruct (c_pc (cpus s i)). Qed.

Lemma event_spec i e s :
  linv s -> (i < ncpu s)%nat -> e <> EAdvance ->
  ok_step i s (run_event i e s) \/ (exists m, run_event i e s = UB m).
Proof.
  intros Hinv Hi He. pose proof (lv_cpu s Hinv i) as Hok.
  destruct e as [|l v|l| | | |m]; [done|..]; unfold run_event.
  - destruct (outside i s) eqn:Ho; [|right; by eexists]. apply outside_pc in Ho as Hpc. left.
    eapply ok_move_step. by apply enter_acquire.
  - destruct (outside i s) eqn:Ho; [|right; by eexists]. apply outside_pc in Ho as Hpc. left.
    eapply ok_move_step. by apply enter_release.
  - destruct (outside i s) eqn:Ho; [|right; by eexists]. apply outside_pc in Ho as Hpc. left.
    destruct (push_then i s Hinv Hi (fun k => set_base (S (c_base k)) k)) as (s' & E & H).
    apply (ok_move_step i Out). exists s'. split; [exact E|].
    eapply quiet_step; [done|exact H| |done|done|done| |exact Hpc].
    + pose proof (co_ncli _ Hok) as Hn. rewrite Hpc in Hn. cbn in Hn. pose proof (co_pos _ Hok).
      split; cbn; rewrite ?Hpc; [apply Hok|apply Hok|lia|done|lia].
    + cbn. by rewrite Hpc.
  - destruct (c_base (cpus s i)) as [|n] eqn:Hb; [right; by eexists|].
    destruct (outside i s) eqn:Ho; [|right; by eexists]. apply outside_pc in Ho as Hpc. left.
    pose proof (co_ncli _ Hok) as Hn. rewrite Hpc, Hb in Hn. cbn in Hn.
    destruct (pop_then i s Hinv Hi (set_base n)) as (s' & E & H); [lia|].
    apply (ok_move_step i Out). exists s'. split; [exact E|].
    eapply quiet_step; [done|exact H| |done|done|done| |exact Hpc].
    + split; cbn; rewrite ?Hpc; [apply Hok|apply Hok|lia| |lia].
      intros. destruct (Z.eqb_spec (c_ncli (cpus s i)) 1); [lia|done].
    + cbn. by rewrite Hpc.
  - destruct (outside i s && _) eqn:Ho; [|right; by eexists].
    apply andb_prop in Ho as [Hpc%outside_pc Hz%Z.eqb_eq]. left.
    destruct (upd_cpu_step i _ s s (set_IF true) (cpu_step_refl i s)) as (s' & E & H).
    apply (ok_move_step i Out). exists s'. split; [exact E|].
    eapply quiet_step; [done|exact H| |done|done|done| |exact Hpc].
    + split; cbn; try apply Hok; lia.
    + cbn. by rewrite Hpc.
  - destruct (outside i s) eqn:Ho; [|right; by eexists]. apply outside_pc in Ho as Hpc. left.
    eexists. split; [reflexivity|]. split; [destruct Hinv; by split|].
    split; [done|]. apply abs_quiet; [done|]. unfold stuck. cbn. by rewrite Hpc.
Qed.

(** Every step of every processor keeps the invariant and is a step of the interface. *)
Lemma lstep_spec i e s s' : linv s -> lstep i e s = Some s' -> linv s' /\ abs_step i s s'.
Proof.
  intros Hinv. unfold lstep. destruct (Nat.ltb_spec i (ncpu s)) as [Hi|]; [|done].
  assert (e = EAdvance \/ e <> EAdvance) as [->|He] by (destruct e; auto).
  - pose proof (advance_spec i s Hinv Hi) as Ha. cbn [run_event].
    assert (Hcase : (exists m, advance i s = UB m) \/
      ok_step i s (advance i s) \/
      (exists l m, advance i s = Panic m /\ (m = "acquire" \/ m = "release") /\
        (exists u r, c_pc (cpus s i) = HoldPop u l r) /\
        (acquire l (held_by s i) = Panic m \/ release l (held_by s i) = Panic m))).
    { destruct (c_pc (cpus s i)) eqn:Hpc; try (right; exact Ha); left; unfold advance; rewrite Hpc; by eexists. }
    destruct Hcase as [[m ->]|[(s1 & -> & H)|(l & m & -> & Hm & (u & r & Hpc) & Habs)]];
      [done|by intros [= <-]|].
    intros [= <-]. apply (stuck_step i s Hinv Hi l m Hm); [|done]. intros l'. rewrite Hpc. naive_solver.
  - destruct (event_spec i e s Hinv Hi He) as [(s1 & -> & H)|[m ->]]; [by intros [= <-]|done].
Qed.

Lemma reachable_linv s0 s : lock_init s0 -> reachable s0 s -> linv s.
Proof.
  intros H0 Hr. induction Hr as [|i e s s' Hr IH Hs]; [by apply linv_init|]. by eapply lstep_spec.
Qed.

(** ** Running one processor alone *)

Fixpoint run_alone (i : nat) (es : list event) (s : smp) : option smp :=
  match es with
  | [] => Some s
  | e :: es => match lstep i e s with Some s' => run_alone i es s' | None => None end
  end.

Lemma lstep_ret i e s s' :
  (i < ncpu s)%nat -> run_event i e s = Ret tt s' -> lstep i e s = Some s'.
Proof. intros Hi He. unfold lstep. rewrite (proj2 (Nat.ltb_lt _ _) Hi). by rewrite He. Qed.

Lemma run_move i p e es s :
  (i < ncpu s)%nat -> ok_move i p s (run_event i e s) ->
  exists s', linv s' /\ moved i p s s' /\ run_alone i (e :: es) s = run_alone i es s'.
Proof.
  intros Hi (s' & He & Hl & _ & Hm). exists s'. split; [done|]. split; [done|].
  cbn [run_alone]. by rewrite (lstep_ret i e s s').
Qed.

Lemma run_to i p h e es s :
  (i < ncpu s)%nat -> ok_to i p h s (run_event i e s) ->
  exists s', linv s' /\ (c_pc (cpus s' i) = p /\ held_by s' i = h /\ ncpu s' = ncpu s) /\
    run_alone i (e :: es) s = run_alone i es s'.
Proof.
  intros Hi (s' & He & Hl & _ & Hm). exists s'. split; [done|]. split; [done|].
  cbn [run_alone]. by rewrite (lstep_ret i e s s').
Qed.

(** [holding], called by [acquire] or [release], answers whether the processor has
    the lock, in at most four steps. *)
Lemma holding_alone i u l es s :
  linv s -> (i < ncpu s)%nat -> c_pc (cpus s i) = HoldPush u l ->
  exists n s', linv s' /\ (n <= 3)%nat /\
    moved i (HoldPop u l (bool_decide (l ∈ held_by s i))) s s' /\
    run_alone i (replicate n EAdvance ++ es) s = run_alone i es s'.
Proof.
  intros Hl Hi Hpc.
  destruct (run_move i (HoldLocked u l) EAdvance (EAdvance :: EAdvance :: es) s Hi) as (s1 & Hl1 & Hm1 & E1);
    [by apply hold_push|].
  destruct (run_move i (HoldLocked u l) EAdvance (EAdvance :: es) s Hi) as (s1' & Hl1' & Hm1' & E1');
    [by apply hold_push|].
  destruct Hm1 as (Hp1 & Hh1 & Hk1 & Hn1), Hm1' as (Hp1' & Hh1' & Hk1' & Hn1').
  destruct (Z.eqb_spec (locked (locks s l)) 0) as [Hz|Hnz].
  - assert (Hno : l ∉ held_by s i) by (intros Hin; destruct (lv_free s Hl l i Hz); by left).
    destruct (run_move i (HoldPop u l false) EAdvance es s1') as (s2 & Hl2 & Hm2 & E2); [lia|..].
    { cbn [run_event]. pose proof (hold_locked i s1' Hl1' ltac:(lia) u l Hp1') as H.
      by rewrite Hk1', (proj2 (Z.eqb_eq _ _) Hz) in H. }
    exists 2%nat, s2. rewrite bool_decide_eq_false_2 by done. unfold moved in *.
    split; [done|]. split; [lia|]. split; [naive_solver congruence|]. cbn [replicate app]. by rewrite E1', E2.
  - destruct (run_move i (HoldCpu u l) EAdvance (EAdvance :: es) s1) as (s2 & Hl2 & Hm2 & E2); [lia|..].
    { cbn [run_event]. pose proof (hold_locked i s1 Hl1 ltac:(lia) u l Hp1) as H.
      by rewrite Hk1, (proj2 (Z.eqb_neq _ _) Hnz) in H. }
    destruct Hm2 as (Hp2 & Hh2 & Hk2 & Hn2).
    destruct (run_move i (HoldPop u l (bool_decide (l ∈ held_by s i))) EAdvance es s2) as (s3 & Hl3 & Hm3 & E3);
      [lia|..].
    { cbn [run_event]. pose proof (hold_cpu i s2 Hl2 ltac:(lia) u l Hp2) as H.
      rewrite (bool_decide_ext _ (l ∈ held_by s i)) in H; [exact H|].
      rewrite (lv_owner s2 Hl2). unfold held_by in *. by rewrite Hh2, Hh1. }
    exists 3%nat, s3. unfold moved in *. split; [done|]. split; [lia|].
    split; [naive_solver congruence|]. cbn [replicate app]. by rewrite E1, E2, E3.
Qed.

Lemma acquire_alone i l v s :
  linv s -> (i < ncpu s)%nat -> c_pc (cpus s i) = Out -> locked (locks s l) = 0 ->
  exists n s', (n <= 6)%nat /\ run_alone i (EAcquire l v :: replicate n EAdvance) s = Some s' /\
    c_pc (cpus s' i) = Out /\ held_by s' i = l :: held_by s i.
Proof.
  intros Hl Hi Hpc Hz. assert (Hno : l ∉ held_by s i) by (intros Hin; destruct (lv_free s Hl l i Hz); by left).
  assert (Ho : ok_move i (HoldPush UAcq l) s (run_event i (EAcquire l v) s)).
  { unfold run_event, outside. rewrite Hpc. by apply enter_acquire. }
  destruct Ho as (s1 & E1 & Hl1 & _ & Hp1 & Hh1 & Hk1 & Hn1).
  destruct (holding_alone i UAcq l [EAdvance; EAdvance; EAdvance] s1 Hl1 ltac:(lia) Hp1)
    as (n & s2 & Hl2 & Hn & (Hp2 & Hh2 & Hk2 & Hn2) & E2).
  rewrite bool_decide_eq_false_2 in Hp2 by by rewrite Hh1.
  destruct (run_move i (AcqSpin l) EAdvance [EAdvance; EAdvance] s2) as (s3 & Hl3 & (Hp3 & Hh3 & Hk3 & Hn3) & E3);
    [lia|..].
  { cbn [run_event]. unfold advance. rewrite Hp2.
    eapply hold_pop_goto; [done|lia|exact Hp2| |done|done|done].
    unfold pc_ok. cbn. unfold held_by in *. by rewrite Hh2, Hh1. }
  destruct (run_to i (AcqOwn l) (held_by s3 i) EAdvance [EAdvance] s3) as (s4 & Hl4 & (Hp4 & Hh4 & Hn4) & E4);
    [lia|..].
  { pose proof (acq_spin i s3 Hl3 ltac:(lia) l Hp3) as H. by rewrite Hk3, Hk2, Hk1, Hz in H. }
  destruct (run_to i Out (l :: held_by s4 i) EAdvance [] s4) as (s5 & Hl5 & (Hp5 & Hh5 & Hn5) & E5);
    [lia|by apply acq_own; try lia|].
  exists (n + 3)%nat, s5. split; [lia|]. split; [|split; [done|congruence]].
  cbn [run_alone]. rewrite (lstep_ret i _ s s1 Hi E1), replicate_add. cbn [replicate].
  by rewrite E2, E3, E4, E5.
Qed.

Lemma release_alone i l s :
  linv s -> (i < ncpu s)%nat -> c_pc (cpus s i) = Out -> l ∈ held_by s i ->
  exists n s', (n <= 7)%nat /\ run_alone i (ERelease l :: replicate n EAdvance) s = Some s' /\
    c_pc (cpus s' i) = Out /\ held_by s' i = filter (fun l' => l' ≠ l) (held_by s i).
Proof.
  intros Hl Hi Hpc Hin.
  assert (Ho : ok_move i (HoldPush URel l) s (run_event i (ERelease l) s)).
  { unfold run_event, outside. rewrite Hpc. by apply enter_release. }
  destruct Ho as (s1 & E1 & Hl1 & _ & Hp1 & Hh1 & Hk1 & Hn1).
  destruct (holding_alone i URel l [EAdvance; EAdvance; EAdvance; EAdvance] s1 Hl1 ltac:(lia) Hp1)
    as (n & s2 & Hl2 & Hn & (Hp2 & Hh2 & Hk2 & Hn2) & E2).
  rewrite bool_decide_eq_true_2 in Hp2 by by rewrite Hh1.
  destruct (run_move i (RelOwner l) EAdvance [EAdvance; EAdvance; EAdvance] s2)
    as (s3 & Hl3 & (Hp3 & Hh3 & Hk3 & Hn3) & E3); [lia|..].
  { cbn [run_event]. unfold advance. rewrite Hp2.
    eapply hold_pop_goto; [done|lia|exact Hp2| |done|done|done].
    unfold pc_ok. cbn. unfold held_by in *. by rewrite Hh2, Hh1. }
  destruct (run_to i (RelClear l) (filter (fun l' => l' ≠ l) (held_by s3 i)) EAdvance [EAdvance; EAdvance] s3)
    as (s4 & Hl4 & (Hp4 & Hh4 & Hn4) & E4); [lia|by apply rel_owner; try lia|].
  destruct (run_to i RelPop (held_by s4 i) EAdvance [EAdvance] s4) as (s5 & Hl5 & (Hp5 & Hh5 & Hn5) & E5);
    [lia|by eapply rel_clear; try lia|].
  destruct (run_move i Out EAdvance [] s5) as (s6 & Hl6 & (Hp6 & Hh6 & _) & E6);
    [lia|by apply rel_pop; try lia|].
  exists (n + 4)%nat, s6. split; [lia|]. split; [|split; [done|congruence]].
  cbn [run_alone]. rewrite (lstep_ret i _ s s1 Hi E1), replicate_add. cbn [replicate].
  by rewrite E2, E3, E4, E5, E6.
Qed.

Lemma run_alone_reachable s0 i es s s' : reachable s0 s -> run_alone i es s = Some s' -> reachable s0 s'.
Proof.
  revert s. induction es as [|e es IH]; cbn; intros s Hr He; [by injection He as <-|].
  destruct (lstep i e s) as [s1|] eqn:Hs; [|done]. apply (IH s1); [|done]. by eapply reach_step.
Qed.

(** ** Matched [pushcli] and [popcli] *)

(** A properly nested sequence of the calls: nothing, or a bracketed one and then
    another. *)
Inductive nesting := NNil | NPair (inner rest : nesting).

Fixpoint run_nesting (i : nat) (b : nesting) : M smp unit :=
  match b with
  | NNil => ret tt
  | NPair b1 b2 => pushcli i ;;; run_nesting i b1 ;;; popcli i ;;; run_nesting i b2
  end.

Definition cli_wf (c : cpu) : Prop := 0 <= c_ncli c /\ (0 < c_ncli c -> c_IF c = false).

(** The interrupt state of [c'] is that of [c]; [intena] may differ when it is not in use. *)
Definition same_cli (c c' : cpu) : Prop :=
  apicid c' = apicid c /\ c_IF c' = c_IF c /\ c_ncli c' = c_ncli c /\ (0 < c_ncli c -> c_intena c' = c_intena c).

Lemma nesting_run i b s :
  distinct_apics s -> (i < ncpu s)%nat -> cli_wf (cpus s i) ->
  exists s' c', run_nesting i b s = Ret tt s' /\ cpu_step i c' s s' /\ same_cli (cpus s i) c'.
Proof.
  revert s. induction b as [|b1 IH1 b2 IH2]; intros s Hd Hi Hwf.
  { exists s, (cpus s i). split; [done|]. split; [by split|by split_and!]. }
  cbn [run_nesting]. destruct (pushcli_spec i s Hd Hi) as (s1 & E1 & H1). step E1.
  assert (Hself1 := cs_self _ _ _ _ H1). destruct Hwf as [Hpos HIF].
  destruct (IH1 s1) as (s2 & c2 & E2 & H2 & S2).
  { by eapply cpu_step_apics; [exact H1| |]. }
  { by rewrite (cs_ncpu _ _ _ _ H1). }
  { rewrite Hself1. split; cbn; [lia|done]. }
  step E2. assert (Hself2 := cs_self _ _ _ _ H2). rewrite Hself1 in S2.
  destruct S2 as (Sa & Sif & Sn & Se). cbn in Sa, Sif, Sn, Se. specialize (Se ltac:(lia)).
  pose proof (cpu_step_trans _ _ _ _ _ _ H1 H2) as H12.
  destruct (popcli_spec i s2) as (s3 & E3 & H3).
  { by eapply cpu_step_apics; [exact H12| |]. }
  { by rewrite (cs_ncpu _ _ _ _ H12). }
  { by rewrite Hself2. }
  { rewrite Hself2. lia. }
  step E3. rewrite Hself2 in H3. pose proof (cpu_step_trans _ _ _ _ _ _ H12 H3) as H13.
  assert (Hsame : same_cli (cpus s i) (popped c2)).
  { unfold same_cli, popped. cbn. rewrite Sn, Se. split; [done|].
    destruct (Z.eqb_spec (c_ncli (cpus s i)) 0) as [Hz|Hz].
    - rewrite Hz. cbn. split_and!; [done|done|lia].
    - rewrite (proj2 (Z.eqb_neq (c_ncli (cpus s i) + 1) 1)) by lia. cbn.
      rewrite HIF by lia. split_and!; [done|lia|done]. }
  destruct (IH2 s3) as (s4 & c4 & E4 & H4 & S4).
  { eapply cpu_step_apics; [exact H13|apply Hsame|done]. }
  { by rewrite (cs_ncpu _ _ _ _ H13). }
  { rewrite (cs_self _ _ _ _ H13). destruct Hsame as (_ & Hf & Hn & _). unfold cli_wf. by rewrite Hf, Hn. }
  exists s4, c4. split; [done|]. split; [by eapply cpu_step_trans|].
  rewrite (cs_self _ _ _ _ H13) in S4. destruct Hsame as (? & ? & Hn & ?), S4 as (? & ? & ? & ?).
  unfold same_cli. rewrite Hn in *. split_and!; try congruence. intros. etrans; eauto.
Qed.

(** ** Properties *)

(** C7. Mutual exclusion of the spin locks: in every state any interleaving of the
    processors' steps reaches, at most one processor holds a lock; a lock is held
    by processor [i] exactly when its owner field names [i], and then its lock word
    is not zero; a processor that holds a lock has interrupts off and a positive
    [ncli]; and the only panics there can have been are those of [acquire] and
    [release] ([popcli] and [mycpu] never panic). *)
Theorem spinlock_mutual_exclusion s0 s :
  lock_init s0 -> reachable s0 s ->
  (forall l i j, l ∈ held_by s i -> l ∈ held_by s j -> i = j) /\
  (forall l i, lk_cpu (locks s l) = Some i <-> l ∈ held_by s i) /\
  (forall l i, l ∈ held_by s i -> locked (locks s l) <> 0) /\
  (forall l i, l ∈ held_by s i -> ~ (exists m, stuck s i m) ->
    c_IF (cpus s i) = false /\ Z.of_nat (length (held_by s i)) <= c_ncli (cpus s i)) /\
  (forall i m, stuck s i m -> m = "acquire" \/ m = "release").
Proof.
  intros H0 Hr. pose proof (reachable_linv s0 s H0 Hr) as Hi. split; [|split; [|split; [|split]]].
  - intros l i j Hl Hj. apply (lv_unique s Hi l); by left.
  - apply (lv_owner s Hi).
  - intros l i Hl Hz. destruct (lv_free s Hi l i Hz). by left.
  - intros l i Hl Hns. pose proof (lv_cpu s Hi i) as Hok.
    pose proof (co_count _ Hok ltac:(intros m Hm; apply Hns; by exists m)) as Hc.
    assert (0 < length (held_by s i))%nat by (destruct (held_by s i); [by apply elem_of_nil in Hl|cbn; lia]).
    assert (0 <= open_pushes (c_pc (cpus s i))) by (destruct (c_pc (cpus s i)) as [|[]|[]|[]|[]| | | | | |]; done).
    unfold held_by in *. split; [apply (co_IF _ Hok)|]; lia.
  - intros i m Hm. pose proof (co_pc _ (lv_cpu s Hi i)) as Hp. unfold pc_ok, stuck in *. by rewrite Hm in Hp.
Qed.

(** C8. The lock words, owner fields and [pushcli] counters of spinlock.c implement
    the view the sequential code has of the locks: in a reachable state, a step of
    processor [i] leaves the locks of the others alone and is, on the list of locks
    [i] holds, nothing, the interface's [acquire] of a lock that nobody held, its
    [release], or the panic the interface prescribes. *)
Theorem spinlock_refines_interface s0 s i e s' :
  lock_init s0 -> reachable s0 s -> lstep i e s = Some s' -> abs_step i s s'.
Proof. intros H0 Hr Hs. by apply (lstep_spec i e s s' (reachable_linv s0 s H0 Hr)). Qed.

(** Progress of the lock code: from a reachable state, a processor outside the
    lock code that calls [acquire] on a free lock and is not disturbed returns
    holding it within six actions, and one that calls [release] on a lock it holds
    returns without it within seven. *)
Theorem lock_calls_return s0 s i l v :
  lock_init s0 -> reachable s0 s -> (i < ncpu s)%nat -> c_pc (cpus s i) = Out ->
  (locked (locks s l) = 0 ->
    exists n s', (n <= 6)%nat /\ run_alone i (EAcquire l v :: replicate n EAdvance) s = Some s' /\
      c_pc (cpus s' i) = Out /\ held_by s' i = l :: held_by s i) /\
  (l ∈ held_by s i ->
    exists n s', (n <= 7)%nat /\ run_alone i (ERelease l :: replicate n EAdvance) s = Some s' /\
      c_pc (cpus s' i) = Out /\ held_by s' i = filter (fun l' => l' ≠ l) (held_by s i)).
Proof.
  intros H0 Hr Hi Hpc. pose proof (reachable_linv s0 s H0 Hr) as Hl.
  split; intros H; [by apply acquire_alone|by apply release_alone].
Qed.

(** "[pushcli] and [popcli] are like cli and sti except that they are matched": any
    properly nested sequence of calls returns with the interrupt flag and the
    counter as they were, leaves the other processors and all locks alone, and does
    not panic. *)
Theorem cli_matched i b s :
  distinct_apics s -> (i < ncpu s)%nat -> cli_wf (cpus s i) ->
  exists s', run_nesting i b s = Ret tt s' /\
    c_IF (cpus s' i) = c_IF (cpus s i) /\ c_ncli (cpus s' i) = c_ncli (cpus s i) /\
    locks s' = locks s /\ (forall j, j <> i -> cpus s' j = cpus s j).
Proof.
  intros Hd Hi Hwf. destruct (nesting_run i b s Hd Hi Hwf) as (s' & c' & E & H & S). exists s'.
  rewrite (cs_self _ _ _ _ H). destruct S as (_ & ? & ? & _). split_and!; try done; apply H.
Qed.

(** ** A machine with two processors *)

Definition two_cpus : smp :=
  Smp 2 (fun i => Cpu (Z.of_nat i) true 0 false Out 0 [] 0) (fun _ => Spinlock 0 "" None []) ∅.

Lemma two_cpus_init : lock_init two_cpus.
Proof. split; cbn; [lia|done|done]. Qed.

(** Processor 0 has taken the allocator's lock. *)
Definition kmem_taken : smp :=
  default two_cpus (run_alone 0 (EAcquire LkKmem KERNBASE :: replicate 5 EAdvance) two_cpus).

Lemma kmem_taken_reachable : reachable two_cpus kmem_taken.
Proof.
  apply (run_alone_reachable _ 0 (EAcquire LkKmem KERNBASE :: replicate 5 EAdvance) two_cpus);
    [apply reach_init|]. unfold kmem_taken.
  destruct (run_alone 0 _ two_cpus) eqn:E; [done|]. by vm_compute in E.
Qed.

Lemma spinlock_mutual_exclusion_witness :
  held_by kmem_taken 0 = [LkKmem] /\ (forall j, LkKmem ∈ held_by kmem_taken j -> j = 0%nat).
Proof.
  assert (Hh : held_by kmem_taken 0 = [LkKmem]) by (vm_compute; reflexivity).
  split; [exact Hh|]. intros j Hj.
  apply (proj1 (spinlock_mutual_exclusion two_cpus kmem_taken two_cpus_init kmem_taken_reachable) LkKmem);
    [done|]. rewrite Hh. apply list_elem_of_here.
Defined.

Lemma spinlock_refines_interface_witness :
  exists s', lstep 1 (EAcquire LkIcache KERNBASE) kmem_taken = Some s' /\ abs_step 1 kmem_taken s'.
Proof.
  destruct (lstep 1 (EAcquire LkIcache KERNBASE) kmem_taken) as [s'|] eqn:E; [|by vm_compute in E].
  exists s'. split; [done|].
  apply (spinlock_refines_interface two_cpus kmem_taken 1 (EAcquire LkIcache KERNBASE) s' two_cpus_init
    kmem_taken_reachable E).
Defined.

Lemma lock_calls_return_witness :
  exists n s', (n <= 7)%nat /\ run_alone 0 (ERelease LkKmem :: replicate n EAdvance) kmem_taken = Some s' /\
    c_pc (cpus s' 0) = Out /\ held_by s' 0 = [].
Proof.
  assert (Hh : held_by kmem_taken 0 = [LkKmem]) by (vm_compute; reflexivity).
  assert (Hn : (0 < ncpu kmem_taken)%nat) by (vm_compute; lia).
  assert (Hp : c_pc (cpus kmem_taken 0) = Out) by (vm_compute; reflexivity).
  destruct (proj2 (lock_calls_return two_cpus kmem_taken 0 LkKmem 0 two_cpus_init kmem_taken_reachable Hn Hp))
    as (n & s' & H1 & H2 & H3 & H4).
  - rewrite Hh. apply list_elem_of_here.
  - exists n, s'. rewrite Hh in H4. auto.
Defined.

Lemma cli_matched_witness :
  exists s', run_nesting 1 (NPair (NPair NNil NNil) (NPair NNil NNil)) two_cpus = Ret tt s' /\
    c_IF (cpus s' 1) = true /\ c_ncli (cpus s' 1) = 0.
Proof.
  destruct (cli_matched 1 (NPair (NPair NNil NNil) (NPair NNil NNil)) two_cpus) as (s' & E & H1 & H2 & _).
  - exact (li_apic _ two_cpus_init).
  - cbn. lia.
  - split; cbn; lia.
  - exists s'. auto.
Defined.
