(* ===== verification/Kalloc.v ===== *)
(** * kalloc.c: the physical page allocator with copy-on-write reference counts

    The free list is threaded through the first word of each free page, as in
    the source, and every page of physical memory has a reference count.  The
    invariant [alloc_inv] says the chain of links is a duplicate-free list of
    aligned pages of the allocator's range whose counts are zero, and that
    [numFreePages] is its length. *)

From S2P Require Import Prelude Mmu Mem Cstring.

(** ** State *)

Record kmem := Kmem {
  use_lock : Z;
  freelist : Z;
  numFreePages : Z;
  pg_refcount : gmap Z Z   (* indexed by physical page number; absent means 0 *)
}.

(** The part of the machine that the allocator and the page tables live in: the
    locks the CPU holds, memory at kernel virtual addresses, the allocator's
    variables, and the page-table base register. *)
Record machine := Machine {
  m_held : list lockid;
  m_mem : mem;
  m_kmem : kmem;
  m_cr3 : Z
}.

Definition set_m_held h s := Machine h (m_mem s) (m_kmem s) (m_cr3 s).
Definition set_m_mem m s := Machine (m_held s) m (m_kmem s) (m_cr3 s).
Definition set_m_kmem k s := Machine (m_held s) (m_mem s) k (m_cr3 s).
Definition set_m_cr3 c s := Machine (m_held s) (m_mem s) (m_kmem s) c.

#[export] Program Instance machine_locks : LockState machine := {|
  held := m_held; set_held := set_m_held |}.
Next Obligation. done. Qed.
Next Obligation. done. Qed.
Next Obligation. by intros []. Qed.

Definition set_use_lock u k := Kmem u (freelist k) (numFreePages k) (pg_refcount k).
Definition set_freelist p k := Kmem (use_lock k) p (numFreePages k) (pg_refcount k).
Definition set_numFreePages n k := Kmem (use_lock k) (freelist k) n (pg_refcount k).
Definition set_refcounts r k := Kmem (use_lock k) (freelist k) (numFreePages k) r.

Definition mod_mem (f : mem -> mem) : M machine unit := modify (fun s => set_m_mem (f (m_mem s)) s).
Definition mod_kmem (f : kmem -> kmem) : M machine unit := modify (fun s => set_m_kmem (f (m_kmem s)) s).

(** Index of a kernel address and of a physical address in [pg_refcount]. *)
Definition pidx (v : Z) : Z := Z.shiftr (V2P v) PGSHIFT.
Definition refcount (s : machine) (i : Z) : Z := default 0 (pg_refcount (m_kmem s) !! i).
Definition NPAGES : Z := Z.shiftr PHYSTOP PGSHIFT.
#[global] Arguments pidx : simpl never.

(** An access to [kmem.pg_refcount[i]]; outside the array it is undefined. *)
Definition get_ref (i : Z) : M machine Z :=
  if (0 <=? i) && (i <? NPAGES) then gets (fun s => refcount s i) else ub "pg_refcount".
Definition set_ref (i n : Z) : M machine unit :=
  if (0 <=? i) && (i <? NPAGES) then mod_kmem (fun k => set_refcounts (<[i := n]> (pg_refcount k)) k)
  else ub "pg_refcount".

(** ** Operations *)

(** [if(kmem.use_lock) acquire(&kmem.lock)] and its counterpart. *)
Definition kmem_acquire : M machine unit :=
  u <- gets (fun s => use_lock (m_kmem s)) ;; when negb (u =? 0) do acquire LkKmem.
Definition kmem_release : M machine unit :=
  u <- gets (fun s => use_lock (m_kmem s)) ;; when negb (u =? 0) do release LkKmem.

Definition kalloc : M machine Z :=
  kmem_acquire ;;;
  r <- gets (fun s => freelist (m_kmem s)) ;;
  (when negb (r =? 0) do
    (next <- gets (fun s => ld32 (m_mem s) r) ;;
     mod_kmem (set_freelist next) ;;;
     mod_kmem (fun k => set_numFreePages (u32 (numFreePages k - 1)) k) ;;;
     set_ref (pidx r) 1)) ;;;
  kmem_release ;;;
  ret r.

Section Allocator.

(** [end]: first address after the kernel image, from the linker script. *)
Context (kend : Z).

Definition kfree (v : Z) : M machine unit :=
  if negb (u32 v mod PGSIZE =? 0) || (v <? kend) || (PHYSTOP <=? V2P v) then panic "kfree" else
  kmem_acquire ;;;
  c <- get_ref (pidx v) ;;
  (when 0 <? c do set_ref (pidx v) (u32 (c - 1))) ;;;
  c <- get_ref (pidx v) ;;
  (when c =? 0 do
    (mod_mem (fun m => memset m v 1 PGSIZE) ;;;
     mod_kmem (fun k => set_numFreePages (u32 (numFreePages k + 1)) k) ;;;
     next <- gets (fun s => freelist (m_kmem s)) ;;
     mod_mem (fun m => st32 m v next) ;;;
     mod_kmem (set_freelist v))) ;;;
  kmem_release.

(** The loop of [freerange]: [n] is how many whole pages are left in the range. *)
Fixpoint freerange_loop (n : nat) (p vend : Z) : M machine unit :=
  match n with
  | O => ret tt
  | S n =>
    if p + PGSIZE <=? vend then
      set_ref (pidx p) 0 ;;; kfree p ;;; freerange_loop n (p + PGSIZE) vend
    else ret tt
  end.
Definition freerange (vstart vend : Z) : M machine unit :=
  let p := PGROUNDUP vstart in
  freerange_loop (Z.to_nat ((vend - p) / PGSIZE)) p vend.

Definition kinit1 (vstart vend : Z) : M machine unit :=
  initlock LkKmem ;;;
  mod_kmem (set_use_lock 0) ;;;
  mod_kmem (set_numFreePages 0) ;;;
  freerange vstart vend.

Definition kinit2 (vstart vend : Z) : M machine unit :=
  freerange vstart vend ;;;
  mod_kmem (set_use_lock 1).

Definition getNumFreePages : M machine Z :=
  kmem_acquire ;;;
  r <- gets (fun s => numFreePages (m_kmem s)) ;;
  kmem_release ;;;
  ret r.

Definition pa_out_of_range (pa : Z) : bool := (pa <? u32 (s32 (V2P kend))) || (PHYSTOP <=? pa).

Definition decrementReferenceCount (pa : Z) : M machine unit :=
  if pa_out_of_range pa then panic "decrementReferenceCount" else
  acquire LkKmem ;;;
  c <- get_ref (Z.shiftr pa PGSHIFT) ;;
  set_ref (Z.shiftr pa PGSHIFT) (u32 (c - 1)) ;;;
  release LkKmem.

Definition incrementReferenceCount (pa : Z) : M machine unit :=
  if pa_out_of_range pa then panic "incrementReferenceCount" else
  acquire LkKmem ;;;
  c <- get_ref (Z.shiftr pa PGSHIFT) ;;
  set_ref (Z.shiftr pa PGSHIFT) (u32 (c + 1)) ;;;
  release LkKmem.

Definition getReferenceCount (pa : Z) : M machine Z :=
  if pa_out_of_range pa then panic "getReferenceCount" else
  acquire LkKmem ;;;
  count <- get_ref (Z.shiftr pa PGSHIFT) ;;
  release LkKmem ;;;
  ret count.

End Allocator.

(** ** What each operation computes *)

Definition lk (u : Z) (h : list lockid) : list lockid := if u =? 0 then h else LkKmem :: h.

Lemma kmem_acquire_eq h m k c :
  LkKmem ∉ h -> kmem_acquire (Machine h m k c) = Ret tt (Machine (lk (use_lock k) h) m k c).
Proof.
  intros Hn. unfold kmem_acquire, lk, bind; simpl. destruct (use_lock k =? 0); simpl; [done|].
  by rewrite acquire_free.
Qed.

Lemma kmem_release_eq h m k c :
  LkKmem ∉ h -> kmem_release (Machine (lk (use_lock k) h) m k c) = Ret tt (Machine h m k c).
Proof.
  intros Hn. unfold kmem_release, lk, bind; simpl. destruct (use_lock k =? 0); simpl; [done|].
  by rewrite (release_top _ h).
Qed.

Lemma get_ref_eq i s : 0 <= i < NPAGES -> get_ref i s = Ret (refcount s i) s.
Proof.
  intros Hi. unfold get_ref. destruct (Z.leb_spec 0 i), (Z.ltb_spec i NPAGES); simpl; done || lia.
Qed.

Lemma set_ref_eq i n h m k c :
  0 <= i < NPAGES ->
  set_ref i n (Machine h m k c) =
  Ret tt (Machine h m (set_refcounts (<[i := n]> (pg_refcount k)) k) c).
Proof.
  intros Hi. unfold set_ref. destruct (Z.leb_spec 0 i), (Z.ltb_spec i NPAGES); simpl; done || lia.
Qed.

Lemma kalloc_null h m u n r c :
  LkKmem ∉ h -> kalloc (Machine h m (Kmem u 0 n r) c) = Ret 0 (Machine h m (Kmem u 0 n r) c).
Proof.
  intros Hn. unfold kalloc. step (kmem_acquire_eq _ m (Kmem u 0 n r) c Hn). simpl.
  unfold bind at 1; simpl. unfold bind at 1; simpl.
  by step (kmem_release_eq h m (Kmem u 0 n r) c Hn).
Qed.

Lemma kalloc_page h m u f n r c :
  LkKmem ∉ h -> f <> 0 -> 0 <= pidx f < NPAGES ->
  kalloc (Machine h m (Kmem u f n r) c) =
  Ret f (Machine h m (Kmem u (ld32 m f) (u32 (n - 1)) (<[pidx f := 1]> r)) c).
Proof.
  intros Hn Hf Hp. unfold kalloc. step (kmem_acquire_eq _ m (Kmem u f n r) c Hn). simpl.
  unfold bind at 1; simpl. rewrite (proj2 (Z.eqb_neq f 0) Hf). simpl.
  unfold bind at 1 2 3 4; unfold mod_kmem, modify, set_m_kmem; simpl.
  rewrite set_ref_eq by done.
  by step (kmem_release_eq h m (Kmem u (ld32 m f) (u32 (n - 1)) (<[pidx f := 1]> r)) c Hn).
Qed.

(** The pages the allocator manages. *)
Definition page_ok (kend v : Z) : Prop := v mod 4096 = 0 /\ kend <= v < KERNBASE + PHYSTOP.

(** Following the links from [p] visits exactly the pages of [l]. *)
Fixpoint chain (m : mem) (p : Z) (l : list Z) : Prop :=
  match l with
  | [] => p = 0
  | x :: l => p = x /\ chain m (ld32 m x) l
  end.

(** The allocator's invariant, with the free pages in list order. *)
Record alloc_inv (kend : Z) (s : machine) (fl : list Z) : Prop := {
  inv_chain : chain (m_mem s) (freelist (m_kmem s)) fl;
  inv_nodup : NoDup fl;
  inv_pages : Forall (page_ok kend) fl;
  inv_count : numFreePages (m_kmem s) = u32 (Z.of_nat (length fl));
  inv_zero : Forall (fun v => refcount s (pidx v) = 0) fl
}.

Lemma chain_ext m m' l : forall p,
  (forall x, x ∈ l -> ld32 m x = ld32 m' x) -> chain m p l -> chain m' p l.
Proof.
  induction l as [|x l IH]; intros p Hext; simpl; [done|]. intros [-> Hc]. split; [done|].
  rewrite <- Hext by set_solver. apply IH; [|done]. intros y Hy. apply Hext. set_solver.
Qed.

Section AllocatorProofs.
Context (kend : Z) (Hkend : KERNLINK <= kend <= KERNBASE + PHYSTOP).
Implicit Types (s : machine) (v : Z) (fl : list Z).

Lemma kend_lo : KERNBASE + 0x100000 <= kend.
Proof. exact (proj1 Hkend). Qed.

Lemma page_ok_lo v : page_ok kend v -> KERNBASE + 4096 <= v <= KERNBASE + PHYSTOP - 4096.
Proof.
  intros [Hal Hv]. unfold KERNLINK, KERNBASE, EXTMEM, PHYSTOP in *.
  pose proof (Z.div_mod v 4096). lia.
Qed.

Lemma pidx_eq v : page_ok kend v -> pidx v = (v - KERNBASE) / 4096.
Proof.
  intros Hv%page_ok_lo. unfold pidx, PGSHIFT. unfold KERNBASE, PHYSTOP in *.
  rewrite V2P_eq by (unfold KERNBASE; lia). by rewrite Z.shiftr_div_pow2 by lia.
Qed.

Lemma pidx_range v : page_ok kend v -> 0 <= pidx v < NPAGES.
Proof.
  intros Hv. rewrite pidx_eq by done. apply page_ok_lo in Hv.
  change NPAGES with 57344. unfold KERNBASE, PHYSTOP in *.
  split; [apply Z.div_pos; lia|]. apply Z.div_lt_upper_bound; lia.
Qed.

Lemma pidx_inj v w : page_ok kend v -> page_ok kend w -> pidx v = pidx w -> v = w.
Proof.
  intros Hv Hw. rewrite !pidx_eq by done. intros Heq.
  assert (Hb : forall x, page_ok kend x -> x = (x - KERNBASE) / 4096 * 4096 + KERNBASE).
  { intros x [Hal _]. unfold KERNBASE.
    pose proof (Z.div_mod x 4096). replace (x - 2147483648) with (x + (-524288) * 4096) by lia.
    rewrite Z.div_add by lia. lia. }
  rewrite (Hb v), (Hb w) by done. by rewrite Heq.
Qed.

Lemma chain_zero m l : chain m 0 l -> Forall (page_ok kend) l -> l = [].
Proof.
  destruct l as [|x l]; [done|]. intros [Hx _] Hf. inversion Hf as [|?? Hp ?]; subst.
  apply page_ok_lo in Hp. unfold KERNBASE in *. lia.
Qed.

Lemma pages_disjoint v w :
  page_ok kend v -> page_ok kend w -> v <> w -> v + 4096 <= w \/ w + 4096 <= v.
Proof.
  intros [Hv _] [Hw _] Hne. pose proof (Z.div_mod v 4096). pose proof (Z.div_mod w 4096). lia.
Qed.

(** The two results of [kalloc] under the invariant. *)
Lemma kalloc_empty s :
  alloc_inv kend s [] -> LkKmem ∉ m_held s -> kalloc s = Ret 0 s.
Proof.
  intros [Hc _ _ _ _] Hn. destruct s as [h m [u f n r] c]. simpl in *. subst f.
  by apply kalloc_null.
Qed.

Definition kalloc_upd v s : machine :=
  let k := m_kmem s in
  set_m_kmem (Kmem (use_lock k) (ld32 (m_mem s) v) (u32 (numFreePages k - 1))
                (<[pidx v := 1]> (pg_refcount k))) s.

Lemma kalloc_some s v fl :
  alloc_inv kend s (v :: fl) -> LkKmem ∉ m_held s -> kalloc s = Ret v (kalloc_upd v s).
Proof.
  intros [Hc _ Hp _ _] Hn. destruct s as [h m [u f n r] c]. simpl in *. destruct Hc as [-> _].
  inversion Hp as [|?? Hv _]; subst. pose proof (page_ok_lo _ Hv). unfold KERNBASE in *.
  rewrite kalloc_page; [done|done|lia|by apply pidx_range].
Qed.

Lemma refcount_kalloc_upd s v w :
  page_ok kend v -> page_ok kend w ->
  refcount (kalloc_upd v s) (pidx w) = if decide (v = w) then 1 else refcount s (pidx w).
Proof.
  intros Hv Hw. unfold refcount, kalloc_upd, set_m_kmem; cbn [m_kmem pg_refcount]. case_decide as Heq.
  - subst. by rewrite lookup_insert_eq.
  - rewrite lookup_insert_ne; [done|]. intros He. by apply Heq, pidx_inj.
Qed.

Lemma kalloc_upd_inv s v fl : alloc_inv kend s (v :: fl) -> alloc_inv kend (kalloc_upd v s) fl.
Proof.
  intros [Hc Hd Hp Hl Hz]. inversion Hp as [|?? Hv Hps]; subst. apply NoDup_cons in Hd as [Hni Hd].
  split; simpl.
  - by destruct Hc as [_ Hc].
  - done.
  - done.
  - rewrite Hl. simpl length. unfold u32. rewrite Zminus_mod_idemp_l. f_equal. lia.
  - apply Forall_forall. intros w Hw. rewrite refcount_kalloc_upd; [|done|by eapply Forall_forall].
    rewrite decide_False by (intros ->; done). inversion Hz as [|?? _ Hz']; subst.
    by eapply (proj1 (Forall_forall _ _)) in Hz'.
Qed.

(** [kfree] of a page of the allocator's range. *)
Definition put_free v s : machine :=
  let k := m_kmem s in
  Machine (m_held s) (st32 (memset (m_mem s) v 1 PGSIZE) v (freelist k))
    (Kmem (use_lock k) v (u32 (numFreePages k + 1)) (pg_refcount k)) (m_cr3 s).
Definition set_count v c s : machine :=
  set_m_kmem (set_refcounts (<[pidx v := c]> (pg_refcount (m_kmem s))) (m_kmem s)) s.

Definition kfree_upd v s : machine :=
  let c := refcount s (pidx v) in
  let s1 := if 0 <? c then set_count v (u32 (c - 1)) s else s in
  if refcount s1 (pidx v) =? 0 then put_free v s1 else s1.

Lemma kfree_eq s v :
  page_ok kend v -> LkKmem ∉ m_held s -> kfree kend v s = Ret tt (kfree_upd v s).
Proof.
  intros Hv Hn. pose proof (page_ok_lo _ Hv) as Hlo. pose proof (pidx_range _ Hv) as Hi.
  destruct Hv as [Hal Hr]. unfold kfree. unfold KERNBASE, PHYSTOP in Hlo.
  assert (Hc : negb (u32 v mod PGSIZE =? 0) || (v <? kend) || (PHYSTOP <=? V2P v) = false).
  { rewrite u32_id, V2P_eq by (unfold KERNBASE in *; lia). unfold PGSIZE. rewrite Hal. simpl.
    destruct (Z.ltb_spec v kend), (Z.leb_spec PHYSTOP (v - KERNBASE)); simpl; unfold KERNBASE, PHYSTOP in *; lia || done. }
  rewrite Hc. destruct s as [h m k c]. simpl in Hn. step (kmem_acquire_eq h m k c Hn).
  step (get_ref_eq _ (Machine (lk (use_lock k) h) m k c) Hi).
  unfold kfree_upd, refcount; cbn [m_kmem].
  set (cnt := default 0 (pg_refcount k !! pidx v)).
  assert (Htail : forall k', use_lock k' = use_lock k ->
    (c0 <- get_ref (pidx v);;
     (when c0 =? 0 do
        (mod_mem (fun m0 => memset m0 v 1 PGSIZE) ;;;
         mod_kmem (fun k0 => set_numFreePages (u32 (numFreePages k0 + 1)) k0) ;;;
         next <- gets (fun s => freelist (m_kmem s)) ;;
         mod_mem (fun m0 => st32 m0 v next) ;;; mod_kmem (set_freelist v))) ;;;
     kmem_release) (Machine (lk (use_lock k) h) m k' c) =
    Ret tt (if refcount (Machine h m k' c) (pidx v) =? 0 then put_free v (Machine h m k' c) else Machine h m k' c)).
  { intros k' Hu. step (get_ref_eq _ (Machine (lk (use_lock k) h) m k' c) Hi).
    unfold refcount; cbn [m_kmem]. rewrite <- Hu.
    destruct (default 0 (pg_refcount k' !! pidx v) =? 0); unfold bind, mod_mem, mod_kmem, modify; simpl.
    - exact (kmem_release_eq h _ (Kmem (use_lock k') _ _ _) c Hn).
    - exact (kmem_release_eq h _ k' c Hn). }
  destruct (0 <? cnt).
  - rewrite (bind_ret _ _ _ _ _ (set_ref_eq _ _ _ m k c Hi)). by rewrite Htail.
  - unfold bind at 1; simpl. by rewrite Htail.
Qed.

Lemma put_free_inv s v fl :
  alloc_inv kend s fl -> page_ok kend v -> v ∉ fl -> refcount s (pidx v) = 0 ->
  alloc_inv kend (put_free v s) (v :: fl).
Proof.
  intros [Hc Hd Hp Hl Hz] Hv Hni Hcz. split; simpl.
  - split; [done|]. rewrite ld32_st32_eq.
    assert (Hf : 0 <= freelist (m_kmem s) < 4294967296).
    { destruct fl as [|x fl]; simpl in Hc; [lia|]. destruct Hc as [-> _].
      inversion Hp as [|?? Hx _]; subst. apply page_ok_lo in Hx. unfold KERNBASE, PHYSTOP in *. lia. }
    rewrite u32_id by done. eapply chain_ext; [|exact Hc]. intros x Hx.
    assert (Hpx : page_ok kend x) by (by eapply (proj1 (Forall_forall _ _)) in Hp).
    assert (v <> x) by (intros ->; done). pose proof (pages_disjoint v x Hv Hpx).
    rewrite ld32_st32_ne, ld32_memset_out; unfold PGSIZE; lia || done.
  - by constructor.
  - by constructor.
  - rewrite Hl. rewrite u32_add_l. f_equal. lia.
  - by constructor.
Qed.

Lemma kfree_upd_frame s v :
  m_held (kfree_upd v s) = m_held s /\ use_lock (m_kmem (kfree_upd v s)) = use_lock (m_kmem s) /\
  m_cr3 (kfree_upd v s) = m_cr3 s.
Proof. unfold kfree_upd. repeat case_match; done. Qed.

Lemma m_mem_set_count v c s : m_mem (set_count v c s) = m_mem s.
Proof. done. Qed.

Lemma refcount_set_count_eq s v c : refcount (set_count v c s) (pidx v) = c.
Proof. unfold refcount, set_count, set_m_kmem, set_refcounts; cbn [m_kmem pg_refcount]. by rewrite lookup_insert_eq. Qed.

(** A page whose count is above one only loses a reference. *)
Lemma kfree_shared s v :
  1 < refcount s (pidx v) < 4294967296 -> kfree_upd v s = set_count v (refcount s (pidx v) - 1) s.
Proof.
  intros Hc. unfold kfree_upd. destruct (Z.ltb_spec 0 (refcount s (pidx v))); [|lia].
  rewrite u32_id by lia. rewrite refcount_set_count_eq.
  destruct (Z.eqb_spec (refcount s (pidx v) - 1) 0); [lia|done].
Qed.

(** A page whose count is one or zero goes to the head of the free list. *)
Lemma kfree_last s v :
  0 <= refcount s (pidx v) <= 1 ->
  kfree_upd v s = put_free v (if 0 <? refcount s (pidx v) then set_count v 0 s else s).
Proof.
  intros Hc. unfold kfree_upd. destruct (Z.ltb_spec 0 (refcount s (pidx v))) as [H0|H0].
  - replace (refcount s (pidx v) - 1) with 0 by lia. change (u32 0) with 0.
    by rewrite refcount_set_count_eq.
  - replace (refcount s (pidx v)) with 0 by lia. done.
Qed.

Lemma set_count_inv s v c fl :
  alloc_inv kend s fl -> page_ok kend v -> v ∉ fl -> alloc_inv kend (set_count v c s) fl.
Proof.
  intros [Hc Hd Hp Hl Hz] Hv Hni. split; simpl; try done.
  apply Forall_forall. intros w Hw. unfold refcount, set_count, set_m_kmem, set_refcounts; cbn [m_kmem pg_refcount].
  rewrite lookup_insert_ne.
  - by eapply (proj1 (Forall_forall _ _)) in Hz.
  - intros He. apply Hni. rewrite (pidx_inj v w); try done. by eapply (proj1 (Forall_forall _ _)) in Hp.
Qed.

Lemma refcount_set_count s v c w :
  page_ok kend v -> page_ok kend w ->
  refcount (set_count v c s) (pidx w) = if decide (v = w) then c else refcount s (pidx w).
Proof.
  intros Hv Hw. unfold refcount, set_count, set_m_kmem, set_refcounts; cbn [m_kmem pg_refcount]. case_decide as Heq.
  - subst. by rewrite lookup_insert_eq.
  - rewrite lookup_insert_ne; [done|]. intros He. by apply Heq, pidx_inj.
Qed.

Lemma kfree_last_inv s v fl :
  alloc_inv kend s fl -> page_ok kend v -> v ∉ fl -> 0 <= refcount s (pidx v) <= 1 ->
  alloc_inv kend (kfree_upd v s) (v :: fl).
Proof.
  intros Hi Hv Hni Hc. rewrite kfree_last by done. destruct (Z.ltb_spec 0 (refcount s (pidx v))).
  - apply put_free_inv; [by apply set_count_inv|done|done|].
    rewrite refcount_set_count, decide_True; done.
  - apply put_free_inv; try done. lia.
Qed.

(** ** Reference counts *)

Lemma pa_in_range v :
  page_ok kend v -> pa_out_of_range kend (V2P v) = false /\ Z.shiftr (V2P v) PGSHIFT = pidx v.
Proof.
  intros Hv. split; [|done]. pose proof (page_ok_lo _ Hv) as Hlo. destruct Hv as [_ Hr].
  unfold pa_out_of_range. rewrite u32_s32. unfold KERNLINK, KERNBASE, EXTMEM, PHYSTOP in *.
  rewrite !V2P_eq by (unfold KERNBASE; lia). unfold KERNBASE. rewrite u32_id by lia.
  destruct (Z.ltb_spec (v - 2147483648) (kend - 2147483648)), (Z.leb_spec 234881024 (v - 2147483648)); simpl; lia || done.
Qed.

(** A critical section of [kmem.lock] around one access of the counts. *)
Lemma ref_section {A} h m k c k' (body : M machine A) a :
  LkKmem ∉ h -> body (Machine (LkKmem :: h) m k c) = Ret a (Machine (LkKmem :: h) m k' c) ->
  (acquire LkKmem ;;; x <- body ;; release LkKmem ;;; ret x) (Machine h m k c) = Ret a (Machine h m k' c).
Proof.
  intros Hn Hb. step (acquire_free LkKmem (Machine h m k c) Hn). simpl.
  unfold set_m_held; simpl. step Hb.
  by step (release_top LkKmem h (Machine (LkKmem :: h) m k' c) eq_refl Hn).
Qed.

Lemma getReferenceCount_eq s v :
  page_ok kend v -> LkKmem ∉ m_held s ->
  getReferenceCount kend (V2P v) s = Ret (refcount s (pidx v)) s.
Proof.
  intros Hv Hn. destruct (pa_in_range v Hv) as [Hr Hs]. unfold getReferenceCount. rewrite Hr, Hs.
  destruct s as [h m k c]. apply (ref_section h m k c k); [done|].
  rewrite get_ref_eq; [done|by apply pidx_range].
Qed.

Lemma incrementReferenceCount_eq s v :
  page_ok kend v -> LkKmem ∉ m_held s ->
  incrementReferenceCount kend (V2P v) s = Ret tt (set_count v (u32 (refcount s (pidx v) + 1)) s).
Proof.
  intros Hv Hn. destruct (pa_in_range v Hv) as [Hr Hs]. unfold incrementReferenceCount. rewrite Hr, Hs.
  destruct s as [h m k c]. step (acquire_free LkKmem (Machine h m k c) Hn).
  step (get_ref_eq (pidx v) (set_m_held (LkKmem :: h) (Machine h m k c)) (pidx_range v Hv)).
  unfold set_m_held; simpl. rewrite (bind_ret _ _ _ _ _ (set_ref_eq _ _ _ m k c (pidx_range v Hv))).
  by rewrite (release_top _ h).
Qed.

Lemma decrementReferenceCount_eq s v :
  page_ok kend v -> LkKmem ∉ m_held s ->
  decrementReferenceCount kend (V2P v) s = Ret tt (set_count v (u32 (refcount s (pidx v) - 1)) s).
Proof.
  intros Hv Hn. destruct (pa_in_range v Hv) as [Hr Hs]. unfold decrementReferenceCount. rewrite Hr, Hs.
  destruct s as [h m k c]. step (acquire_free LkKmem (Machine h m k c) Hn).
  step (get_ref_eq (pidx v) (set_m_held (LkKmem :: h) (Machine h m k c)) (pidx_range v Hv)).
  unfold set_m_held; simpl. rewrite (bind_ret _ _ _ _ _ (set_ref_eq _ _ _ m k c (pidx_range v Hv))).
  by rewrite (release_top _ h).
Qed.

(** ** Initialisation *)

(** The pages of a range, lowest first. *)
Definition pages_from (p : Z) (n : nat) : list Z := (fun i => p + 4096 * Z.of_nat i) <$> seq 0 n.

Lemma pages_from_S p n : pages_from p (S n) = p :: pages_from (p + 4096) n.
Proof.
  unfold pages_from. cbn [seq]. rewrite fmap_cons. f_equal; [lia|].
  rewrite <- seq_shift. change (map S (seq 0 n)) with (S <$> seq 0 n). rewrite <- list_fmap_compose.
  apply list_fmap_ext. intros i x _. simpl. lia.
Qed.

Lemma freerange_loop_inv n : forall p vend s fl,
  alloc_inv kend s fl -> LkKmem ∉ m_held s ->
  p + 4096 * Z.of_nat n <= vend ->
  Forall (page_ok kend) (pages_from p n) -> (forall v, v ∈ pages_from p n -> v ∉ fl) ->
  exists s', freerange_loop kend n p vend s = Ret tt s' /\
    alloc_inv kend s' (reverse (pages_from p n) ++ fl) /\ m_held s' = m_held s /\
    use_lock (m_kmem s') = use_lock (m_kmem s) /\
    (forall w, page_ok kend w -> refcount s (pidx w) = 0 -> refcount s' (pidx w) = 0).
Proof.
  induction n as [|n IH]; intros p vend s fl Hi Hn Hend Hp Hfr.
  { exists s. done. }
  rewrite pages_from_S in *. inversion Hp as [|?? Hpp Hps]; subst. cbn [freerange_loop].
  destruct (Z.leb_spec (p + PGSIZE) vend) as [_|Hlt]; [|unfold PGSIZE in *; lia].
  assert (Hpf : p ∉ fl) by (apply Hfr; left).
  destruct s as [h m k c].
  rewrite (bind_ret _ _ _ _ _ (set_ref_eq _ 0 h m k c (pidx_range p Hpp))).
  change (Machine h m (set_refcounts (<[pidx p:=0]> (pg_refcount k)) k) c) with (set_count p 0 (Machine h m k c)).
  assert (Hi1 : alloc_inv kend (set_count p 0 (Machine h m k c)) fl) by (by apply set_count_inv).
  step (kfree_eq (set_count p 0 (Machine h m k c)) p Hpp Hn).
  assert (Hz : refcount (set_count p 0 (Machine h m k c)) (pidx p) = 0)
    by (rewrite refcount_set_count, decide_True; done).
  destruct (IH (p + PGSIZE) vend (kfree_upd p (set_count p 0 (Machine h m k c))) (p :: fl))
    as (s' & Hr & Hi' & Hh & Hu & Hz').
  - apply kfree_last_inv; try done. lia.
  - by rewrite (proj1 (kfree_upd_frame _ _)).
  - unfold PGSIZE. lia.
  - done.
  - intros v Hv Hin. apply elem_of_cons in Hin as [->|Hin].
    + apply list_elem_of_fmap in Hv as (i & Heq & _). unfold PGSIZE in Heq. lia.
    + by apply (Hfr v); [right|].
  - exists s'. split; [done|]. rewrite reverse_cons, <- app_assoc. split; [done|].
    rewrite Hh, Hu. destruct (kfree_upd_frame (set_count p 0 (Machine h m k c)) p) as (-> & -> & _).
    split; [done|]. split; [done|]. intros w Hw Hw0. apply Hz'; [done|]. rewrite kfree_last by lia. rewrite Hz.
    change (refcount (set_count p 0 (Machine h m k c)) (pidx w) = 0). rewrite refcount_set_count by done. by case_decide.
Qed.

End AllocatorProofs.

(** [kinit1] and [kinit2] on two page-aligned ranges from the zero-initialised allocator. *)
Lemma kinit_spec kend m c v1 n1 v2 n2 : KERNLINK <= kend <= KERNBASE + PHYSTOP ->
  v1 mod 4096 = 0 -> v2 mod 4096 = 0 -> kend <= v1 ->
  v1 + 4096 * Z.of_nat n1 <= v2 -> v2 + 4096 * Z.of_nat n2 <= KERNBASE + PHYSTOP ->
  exists s', (kinit1 kend v1 (v1 + 4096 * Z.of_nat n1) ;;; kinit2 kend v2 (v2 + 4096 * Z.of_nat n2))
                (Machine [] m (Kmem 0 0 0 ∅) c) = Ret tt s' /\
    alloc_inv kend s' (reverse (pages_from v2 n2) ++ reverse (pages_from v1 n1)) /\
    m_held s' = [] /\ use_lock (m_kmem s') = 1 /\ (forall w, page_ok kend w -> refcount s' (pidx w) = 0).
Proof.
  intros Hk Ha1 Ha2 Hlo Hmid Hhi.
  assert (Hps : forall v n, v mod 4096 = 0 -> kend <= v -> v + 4096 * Z.of_nat n <= KERNBASE + PHYSTOP ->
    Forall (page_ok kend) (pages_from v n)).
  { intros v n Ha Hv Hn. apply Forall_forall. intros x (i & -> & Hin)%list_elem_of_fmap.
    apply elem_of_seq in Hin. split; [rewrite Z.add_mod, Ha, Z.mul_comm, Z.mod_mul; done || lia|lia]. }
  assert (Hfr : forall v n, v mod 4096 = 0 -> kend <= v -> v + 4096 * Z.of_nat n <= KERNBASE + PHYSTOP ->
    freerange kend v (v + 4096 * Z.of_nat n) = freerange_loop kend n v (v + 4096 * Z.of_nat n)).
  { intros v n Ha Hv Hn. unfold freerange. unfold KERNLINK, KERNBASE, EXTMEM, PHYSTOP in *.
    assert (PGROUNDUP v = v) as ->.
    { rewrite PGROUNDUP_eq by lia. pose proof (Z.div_mod v 4096).
      replace (v + 4095) with (4095 + v / 4096 * 4096) by lia. rewrite Z.div_add by lia.
      change (4095 / 4096) with 0. lia. }
    replace ((v + 4096 * Z.of_nat n - v) / PGSIZE) with (Z.of_nat n);
      [by rewrite Nat2Z.id|]. unfold PGSIZE. replace (v + 4096 * Z.of_nat n - v) with (Z.of_nat n * 4096) by lia.
    by rewrite Z.div_mul. }
  unfold kinit1, kinit2. rewrite !Hfr by lia.
  assert (Hi0 : alloc_inv kend (Machine [] m (Kmem 0 0 0 ∅) c) []).
  { split; done || constructor. }
  destruct (freerange_loop_inv kend Hk n1 v1 (v1 + 4096 * Z.of_nat n1) _ [] Hi0)
    as (s1 & Hr1 & Hi1 & Hh1 & Hu1 & Hz1); [set_solver|lia|apply Hps; lia|set_solver|].
  destruct (freerange_loop_inv kend Hk n2 v2 (v2 + 4096 * Z.of_nat n2) s1 (reverse (pages_from v1 n1) ++ []))
    as (s2 & Hr2 & Hi2 & Hh2 & Hu2 & Hz2); [done|rewrite Hh1; set_solver|lia|apply Hps; lia| |].
  { intros v (i & -> & Hin)%list_elem_of_fmap Hin2. rewrite app_nil_r in Hin2.
    apply elem_of_reverse, list_elem_of_fmap in Hin2 as (j & Heq & Hj).
    apply elem_of_seq in Hin, Hj. lia. }
  exists (set_m_kmem (set_use_lock 1 (m_kmem s2)) s2). rewrite app_nil_r in Hi2. split.
  - rewrite bind_assoc. step (initlock_free LkKmem (Machine [] m (Kmem 0 0 0 ∅) c) ltac:(set_solver)).
    rewrite bind_assoc. unfold mod_kmem at 1, modify, bind at 1; cbn.
    rewrite bind_assoc. unfold mod_kmem at 1, modify, bind at 1; cbn.
    step Hr1. step Hr2. done.
  - destruct Hi2 as [Hc Hd Hp Hl Hz]. split; [by split|]. split; [cbn [m_held set_m_kmem]; by rewrite Hh2, Hh1|]. split; [done|].
    intros w Hw. apply Hz2; [done|]. by apply Hz1.
Qed.

(** ** Properties *)

(** [kalloc] under the allocator's invariant: with an empty free list it returns 0
    and changes nothing; otherwise it returns the head of the list, which leaves
    the list and gets reference count 1, without touching memory, the locks
    held or any other page's count, and the invariant holds of the shorter list. *)
Theorem kalloc_correct :
  forall kend s fl, KERNLINK <= kend <= KERNBASE + PHYSTOP ->
  alloc_inv kend s fl -> LkKmem ∉ m_held s ->
  match fl with
  | [] => kalloc s = Ret 0 s
  | v :: fl' => exists s', kalloc s = Ret v s' /\ alloc_inv kend s' fl' /\ page_ok kend v /\ v ∉ fl' /\
      m_mem s' = m_mem s /\ m_held s' = m_held s /\ refcount s' (pidx v) = 1 /\
      (forall w, page_ok kend w -> w <> v -> refcount s' (pidx w) = refcount s (pidx w))
  end.
Proof.
  intros kend s fl Hk Hi Hn. destruct fl as [|v fl]; [by apply (kalloc_empty kend)|].
  exists (kalloc_upd v s). assert (Hv : page_ok kend v) by (destruct Hi as [_ _ Hp _ _]; by inversion Hp).
  split; [by eapply kalloc_some|]. split; [by apply kalloc_upd_inv|]. split; [done|].
  split; [destruct Hi as [_ Hd _ _ _]; by apply NoDup_cons in Hd as [? _]|].
  split; [done|]. split; [done|]. split; [by rewrite (refcount_kalloc_upd kend), decide_True|].
  intros w Hw Hne. by rewrite (refcount_kalloc_upd kend), decide_False by congruence.
Qed.

(** [kfree] of a page that is not free: if other references remain it only
    decrements the count; if this was the last one (or, during start-up, the
    count is 0) the page goes to the head of the free list with every byte past
    the link filled with 1, and the invariant holds of the longer list. *)
Theorem kfree_correct :
  forall kend s fl v, KERNLINK <= kend <= KERNBASE + PHYSTOP ->
  alloc_inv kend s fl -> LkKmem ∉ m_held s -> page_ok kend v -> v ∉ fl ->
  0 <= refcount s (pidx v) < 4294967296 ->
  exists s', kfree kend v s = Ret tt s' /\ m_held s' = m_held s /\
    if decide (1 < refcount s (pidx v))
    then alloc_inv kend s' fl /\ m_mem s' = m_mem s /\ refcount s' (pidx v) = refcount s (pidx v) - 1
    else alloc_inv kend s' (v :: fl) /\
         (forall a, v + 4 <= a < v + 4096 -> ldb (m_mem s') a = 1) /\
         (forall a, a < v \/ v + 4096 <= a -> ldb (m_mem s') a = ldb (m_mem s) a).
Proof.
  intros kend s fl v Hk Hi Hn Hv Hni Hc. exists (kfree_upd v s).
  split; [by apply kfree_eq|]. split; [apply kfree_upd_frame|]. case_decide as Hs.
  - rewrite kfree_shared by lia. split; [by apply set_count_inv|]. split; [done|].
    apply refcount_set_count_eq.
  - split; [apply kfree_last_inv; (done || lia)|]. rewrite kfree_last by lia.
    assert (Hm : forall s0, m_mem s0 = m_mem s -> m_mem (put_free v s0) = st32 (memset (m_mem s) v 1 PGSIZE) v (freelist (m_kmem s0)))
      by (intros s0 <-; done).
    rewrite Hm by (by destruct (0 <? refcount s (pidx v))). split; intros a Ha.
    + rewrite ldb_st32_ne, ldb_memset, in_range_true by (unfold PGSIZE; lia). done.
    + rewrite ldb_st32_ne, ldb_memset, in_range_false by (unfold PGSIZE; lia). done.
Qed.

(** Start-up: from the zero-initialised allocator, [kinit1] and then [kinit2] on two
    disjoint page-aligned ranges leave exactly the pages of both ranges free,
    the free-page counter equal to their number and locking switched on. *)
Theorem kinit_correct :
  forall kend m c v1 n1 v2 n2, KERNLINK <= kend <= KERNBASE + PHYSTOP ->
  v1 mod 4096 = 0 -> v2 mod 4096 = 0 -> kend <= v1 ->
  v1 + 4096 * Z.of_nat n1 <= v2 -> v2 + 4096 * Z.of_nat n2 <= KERNBASE + PHYSTOP ->
  exists s', (kinit1 kend v1 (v1 + 4096 * Z.of_nat n1) ;;; kinit2 kend v2 (v2 + 4096 * Z.of_nat n2))
                (Machine [] m (Kmem 0 0 0 ∅) c) = Ret tt s' /\
    alloc_inv kend s' (reverse (pages_from v2 n2) ++ reverse (pages_from v1 n1)) /\
    numFreePages (m_kmem s') = u32 (Z.of_nat (n1 + n2)) /\ use_lock (m_kmem s') = 1.
Proof.
  intros kend m c v1 n1 v2 n2 Hk Ha1 Ha2 Hlo Hmid Hhi.
  destruct (kinit_spec kend m c v1 n1 v2 n2) as (s' & Hr & Hi & _ & Hu & _); try done.
  exists s'. split; [done|]. split; [done|]. split; [|done]. rewrite (inv_count _ _ _ Hi). len.
  rewrite !length_reverse. unfold pages_from. len. do 2 f_equal. lia.
Qed.

(** A concrete allocator with two free pages, obtained by running [kinit1]. *)
Definition kend0 : Z := 0x80200000.
Definition boot2 : machine :=
  match kinit1 kend0 kend0 (kend0 + 8192) (Machine [] ∅ (Kmem 0 0 0 ∅) 0) with Ret _ s => s | _ => Machine [] ∅ (Kmem 0 0 0 ∅) 0 end.

Lemma kend0_ok : KERNLINK <= kend0 <= KERNBASE + PHYSTOP.
Proof. vm_compute. split; discriminate. Qed.

Lemma boot2_inv : alloc_inv kend0 boot2 [0x80201000; 0x80200000].
Proof.
  split; [vm_compute; done| | |vm_compute; done|].
  - repeat constructor; set_solver.
  - repeat constructor; vm_compute; congruence.
  - repeat constructor; vm_compute; congruence.
Qed.

Lemma kalloc_correct_witness :
  exists s', kalloc boot2 = Ret 0x80201000 s' /\ alloc_inv kend0 s' [0x80200000].
Proof.
  destruct (kalloc_correct kend0 boot2 [0x80201000; 0x80200000] kend0_ok boot2_inv) as (s' & H1 & H2 & _).
  - vm_compute. inversion 1.
  - exists s'. split; [exact H1|exact H2].
Defined.

Lemma kfree_correct_witness :
  exists s', kfree kend0 0x80202000 boot2 = Ret tt s' /\ alloc_inv kend0 s' [0x80202000; 0x80201000; 0x80200000].
Proof.
  destruct (kfree_correct kend0 boot2 [0x80201000; 0x80200000] 0x80202000 kend0_ok boot2_inv) as (s' & H1 & _ & H2).
  - vm_compute. inversion 1.
  - vm_compute. intuition congruence.
  - set_solver.
  - vm_compute. intuition congruence.
  - exists s'. split; [exact H1|]. rewrite decide_False in H2 by (vm_compute; discriminate). exact (proj1 H2).
Defined.

Lemma kinit_correct_witness :
  exists s', (kinit1 kend0 kend0 (kend0 + 4096 * Z.of_nat 2) ;;;
              kinit2 kend0 (kend0 + 8192) (kend0 + 8192 + 4096 * Z.of_nat 3)) (Machine [] ∅ (Kmem 0 0 0 ∅) 0) = Ret tt s' /\
    numFreePages (m_kmem s') = 5.
Proof.
  destruct (kinit_correct kend0 ∅ 0 kend0 2 (kend0 + 8192) 3 kend0_ok) as (s' & H1 & _ & H2 & _);
    [vm_compute; congruence..|]. exists s'. split; [exact H1|exact H2].
Defined.
