(* ===== verification/Vm.v ===== *)
(** * vm.c: page tables, process address spaces and copy-on-write

    The operations of vm.c on two-level x86 page tables kept in byte memory.
    A page directory or page table is named by its kernel virtual address, a
    page table entry by the address of its word, and a null pointer is 0, as in
    the source.  The linker symbols [end] and [data] are parameters.  Messages
    printed with [cprintf] are left out; the console is modelled in its own
    component.  Reading or writing through a null pointer is undefined
    behaviour. *)

From S2P Require Import Prelude Mmu Mem Cstring Kalloc.

(** [x & flag] used as a truth value. *)
Definition has (x flag : Z) : bool := negb (Z.land x flag =? 0).

Definition load (a : Z) : M machine Z := gets (fun s => ld32 (m_mem s) a).
Definition store (a v : Z) : M machine unit := mod_mem (fun m => st32 m a v).
Definition lcr3 (v : Z) : M machine unit := modify (set_m_cr3 v).

(** ** Page table walks *)

Definition walkpgdir (pgdir va : Z) (alloc : bool) : M machine Z :=
  let pde := pgdir + 4 * PDX va in
  e <- load pde ;;
  if has e PTE_P then
    let pgtab := P2V (PTE_ADDR e) in ret (pgtab + 4 * PTX va)
  else if negb alloc then ret 0 else
    pgtab <- kalloc ;;
    if pgtab =? 0 then ret 0 else
      mod_mem (fun m => memset m pgtab 0 PGSIZE) ;;;
      store pde (Z.lor (Z.lor (Z.lor (V2P pgtab) PTE_P) PTE_W) PTE_U) ;;;
      ret (pgtab + 4 * PTX va).

(** The loop runs once per page from [a] to [last]; [n] counts the pages after
    the first one, so the test [a == last] succeeds when it reaches zero. *)
Fixpoint mappages_loop (n : nat) (pgdir a last pa perm : Z) : M machine Z :=
  pte <- walkpgdir pgdir a true ;;
  if pte =? 0 then ret (-1) else
  e <- load pte ;;
  if has e PTE_P then panic "remap" else
  store pte (Z.lor (Z.lor pa perm) PTE_P) ;;;
  if a =? last then ret 0 else
  match n with
  | O => ub "mappages: past the last page"
  | S n => mappages_loop n pgdir (u32 (a + PGSIZE)) last (u32 (pa + PGSIZE)) perm
  end.
Definition mappages (pgdir va size pa perm : Z) : M machine Z :=
  let a := PGROUNDDOWN va in
  let last := PGROUNDDOWN (u32 (va + size - 1)) in
  mappages_loop (Z.to_nat (u32 (last - a) / PGSIZE)) pgdir a last pa perm.

Section Vm.

(** [end] and [data] of the linker script. *)
Context (kend kdata : Z).

(** ** Releasing address spaces *)

(** [fuel] bounds the number of pages looked at; the address advances by at least
    one page per iteration, so [oldsz / PGSIZE + 1] is enough unless it wraps. *)
Fixpoint deallocuvm_loop (fuel : nat) (pgdir a oldsz : Z) : M machine unit :=
  if negb (a <? oldsz) then ret tt else
  match fuel with
  | O => ub "deallocuvm: does not terminate"
  | S fuel =>
    pte <- walkpgdir pgdir a false ;;
    if pte =? 0 then
      deallocuvm_loop fuel pgdir (u32 (u32 (a + (NPTENTRIES - 1) * PGSIZE) + PGSIZE)) oldsz
    else
      e <- load pte ;;
      (when has e PTE_P do
        (let pa := PTE_ADDR e in
         if pa =? 0 then panic "kfree" else
         kfree kend (P2V pa) ;;;
         store pte 0)) ;;;
      deallocuvm_loop fuel pgdir (u32 (a + PGSIZE)) oldsz
  end.
Definition deallocuvm (pgdir oldsz newsz : Z) : M machine Z :=
  if oldsz <=? newsz then ret oldsz else
  deallocuvm_loop (Z.to_nat (oldsz / PGSIZE) + 1) pgdir (PGROUNDUP newsz) oldsz ;;;
  ret newsz.

(** Free the page tables of the entries from [i] on; [n] entries are left. *)
Fixpoint freevm_loop (n : nat) (pgdir i : Z) : M machine unit :=
  match n with
  | O => ret tt
  | S n =>
    e <- load (pgdir + 4 * i) ;;
    (when has e PTE_P do kfree kend (P2V (PTE_ADDR e))) ;;;
    freevm_loop n pgdir (i + 1)
  end.
Definition freevm (pgdir : Z) : M machine unit :=
  if pgdir =? 0 then panic "freevm: no pgdir" else
  deallocuvm pgdir KERNBASE 0 ;;;
  freevm_loop (Z.to_nat NPDENTRIES) pgdir 0 ;;;
  kfree kend pgdir.

(** ** Kernel mappings *)

Record kmap_entry := Kmap { virt : Z; phys_start : Z; phys_end : Z; kperm : Z }.
Definition kmap : list kmap_entry := [
  Kmap KERNBASE 0 EXTMEM PTE_W;
  Kmap KERNLINK (V2P KERNLINK) (V2P kdata) 0;
  Kmap kdata (V2P kdata) PHYSTOP PTE_W;
  Kmap DEVSPACE DEVSPACE 0 PTE_W ].

Fixpoint setupkvm_loop (pgdir : Z) (ks : list kmap_entry) : M machine Z :=
  match ks with
  | [] => ret pgdir
  | k :: ks =>
    r <- mappages pgdir (virt k) (u32 (phys_end k - phys_start k)) (phys_start k) (kperm k) ;;
    if r <? 0 then freevm pgdir ;;; ret 0 else setupkvm_loop pgdir ks
  end.
Definition setupkvm : M machine Z :=
  pgdir <- kalloc ;;
  if pgdir =? 0 then ret 0 else
  mod_mem (fun m => memset m pgdir 0 PGSIZE) ;;;
  if DEVSPACE <? P2V PHYSTOP then panic "PHYSTOP too high" else
  setupkvm_loop pgdir kmap.

Definition switchkvm (kpgdir : Z) : M machine unit := lcr3 (V2P kpgdir).
Definition kvmalloc : M machine Z :=
  kpgdir <- setupkvm ;; switchkvm kpgdir ;;; ret kpgdir.

(** ** Filling address spaces *)

(** [init] is the address of the [sz] bytes of the first program. *)
Definition inituvm (pgdir init sz : Z) : M machine unit :=
  if PGSIZE <=? sz then panic "inituvm: more than a page" else
  mem <- kalloc ;;
  if mem =? 0 then ub "inituvm: null page" else
  mod_mem (fun m => memset m mem 0 PGSIZE) ;;;
  mappages pgdir 0 PGSIZE (V2P mem) (Z.lor PTE_W PTE_U) ;;;
  mod_mem (fun m => memmove m mem init sz).

Fixpoint allocuvm_loop (n : nat) (pgdir a oldsz newsz : Z) : M machine Z :=
  if negb (a <? newsz) then ret newsz else
  match n with
  | O => ub "allocuvm: does not terminate"
  | S n =>
    mem <- kalloc ;;
    if mem =? 0 then
      deallocuvm pgdir newsz oldsz ;;; ret 0
    else
      mod_mem (fun m => memset m mem 0 PGSIZE) ;;;
      r <- mappages pgdir a PGSIZE (V2P mem) (Z.lor PTE_W PTE_U) ;;
      if r <? 0 then
        deallocuvm pgdir newsz oldsz ;;; kfree kend mem ;;; ret 0
      else allocuvm_loop n pgdir (u32 (a + PGSIZE)) oldsz newsz
  end.
Definition allocuvm (pgdir oldsz newsz : Z) : M machine Z :=
  if KERNBASE <=? newsz then ret 0 else
  if newsz <? oldsz then ret oldsz else
  allocuvm_loop (Z.to_nat (newsz / PGSIZE) + 1) pgdir (PGROUNDUP oldsz) oldsz newsz.

Definition clearpteu (pgdir uva : Z) : M machine unit :=
  pte <- walkpgdir pgdir uva false ;;
  if pte =? 0 then panic "clearpteu" else
  e <- load pte ;;
  store pte (Z.land e (Z.lnot PTE_U)).

(** ** Copying address spaces *)

(** The loops of [copyuvm_original] and [copyuvm] return false where the code
    jumps to [bad]; [n] is the number of pages from [i] up to [sz]. *)
Fixpoint copyuvm_original_loop (n : nat) (pgdir d i : Z) : M machine bool :=
  match n with
  | O => ret true
  | S n =>
    pte <- walkpgdir pgdir i false ;;
    if pte =? 0 then panic "copyuvm: pte should exist" else
    e <- load pte ;;
    if negb (has e PTE_P) then panic "copyuvm: page not present" else
    let pa := PTE_ADDR e in
    let flags := PTE_FLAGS e in
    mem <- kalloc ;;
    if mem =? 0 then ret false else
    mod_mem (fun m => memmove m mem (P2V pa) PGSIZE) ;;;
    r <- mappages d i PGSIZE (V2P mem) flags ;;
    if r <? 0 then kfree kend mem ;;; ret false else
    copyuvm_original_loop n pgdir d (i + PGSIZE)
  end.
Definition copyuvm_original (pgdir sz : Z) : M machine Z :=
  d <- setupkvm ;;
  if d =? 0 then ret 0 else
  ok <- copyuvm_original_loop (Z.to_nat ((sz + PGSIZE - 1) / PGSIZE)) pgdir d 0 ;;
  if ok : bool then ret d else freevm d ;;; ret 0.

Fixpoint copyuvm_loop (n : nat) (pgdir d i : Z) : M machine bool :=
  match n with
  | O => ret true
  | S n =>
    pte <- walkpgdir pgdir i false ;;
    if pte =? 0 then panic "copyuvm: pte should exist" else
    e <- load pte ;;
    if negb (has e PTE_P) then panic "copyuvm: page not present" else
    store pte (Z.land e (Z.lnot PTE_W)) ;;;
    e <- load pte ;;
    let pa := PTE_ADDR e in
    let flags := PTE_FLAGS e in
    r <- mappages d i PGSIZE pa flags ;;
    if r <? 0 then ret false else
    incrementReferenceCount kend pa ;;;
    copyuvm_loop n pgdir d (i + PGSIZE)
  end.
Definition copyuvm (pgdir sz : Z) : M machine Z :=
  d <- setupkvm ;;
  if d =? 0 then ret 0 else
  ok <- copyuvm_loop (Z.to_nat ((sz + PGSIZE - 1) / PGSIZE)) pgdir d 0 ;;
  if ok : bool then lcr3 (V2P pgdir) ;;; ret d
  else freevm d ;;; lcr3 (V2P pgdir) ;;; ret 0.

(** ** Access to user memory *)

Definition uva2ka (pgdir uva : Z) : M machine Z :=
  pte <- walkpgdir pgdir uva false ;;
  if pte =? 0 then ub "uva2ka: null page table entry" else
  e <- load pte ;;
  if negb (has e PTE_P) then ret 0 else
  if negb (has e PTE_U) then ret 0 else
  ret (P2V (PTE_ADDR e)).

(** [buf] holds the bytes to copy: they are on the kernel stack or in the memory of the
    calling process, apart from the pages they are copied to. *)
Fixpoint copyout_loop (fuel : nat) (pgdir va : Z) (buf : list Z) (len : Z) : M machine Z :=
  if negb (0 <? len) then ret 0 else
  match fuel with
  | O => ub "copyout: does not terminate"
  | S fuel =>
    let va0 := PGROUNDDOWN va in
    pa0 <- uva2ka pgdir va0 ;;
    if pa0 =? 0 then ret (-1) else
    let n := u32 (PGSIZE - (va - va0)) in
    let n := if len <? n then len else n in
    mod_mem (fun m => write_bytes m (pa0 + (va - va0)) (take (Z.to_nat n) buf)) ;;;
    copyout_loop fuel pgdir (u32 (va0 + PGSIZE)) (drop (Z.to_nat n) buf) (len - n)
  end.
Definition copyout (pgdir va : Z) (p : list Z) (len : Z) : M machine Z :=
  copyout_loop (Z.to_nat (len / PGSIZE) + 2) pgdir va p len.

(** ** Copy-on-write faults *)

(** What [pagefault] does once it has read the reference count of the page. *)
Definition pagefault_resolve (pgdir pte pa refCount : Z) : M machine bool :=
  if 1 <? refCount then
    mem <- kalloc ;;
    if mem =? 0 then ret true else
    mod_mem (fun m => memmove m mem (P2V pa) PGSIZE) ;;;
    store pte (Z.lor (Z.lor (Z.lor (V2P mem) PTE_P) PTE_U) PTE_W) ;;;
    decrementReferenceCount kend pa ;;;
    lcr3 (V2P pgdir) ;;;
    ret false
  else if refCount =? 1 then
    e <- load pte ;;
    store pte (Z.lor e PTE_W) ;;;
    lcr3 (V2P pgdir) ;;;
    ret false
  else panic "pagefault reference count wrong
".

(** [pagefault], for the current process's page directory ([None] when there is no
    current process) and the faulting address read from CR2.  The result says
    whether the handler marked the current process as killed. *)
Definition pagefault (myproc : option Z) (va : Z) : M machine bool :=
  match myproc with
  | None => panic "pagefault"
  | Some pgdir =>
    if KERNBASE <=? va then ret true else
    pte <- walkpgdir pgdir va false ;;
    if pte =? 0 then ret true else
    e <- load pte ;;
    if negb (has e PTE_P) || negb (has e PTE_U) then ret true else
    if has e PTE_W then panic "Page fault already writeable" else
    let pa := PTE_ADDR e in
    refCount <- getReferenceCount kend pa ;;
    pagefault_resolve pgdir pte pa refCount
  end.

End Vm.
