(* ===== verification/PageTable.v ===== *)
(** * Page tables as maps from virtual pages to entries

    The view of a two-level page table used to reason about vm.c: [pv m d va] is
    the page table entry for [va] in page directory [d] of memory [m], 0 where
    there is no page table.  A write to an entry updates this map at one page,
    and allocating a page table leaves it unchanged; [pt_step] collects what an
    operation that only extends one page table keeps, and composes. *)

From S2P Require Import Prelude Mmu Mem Cstring Kalloc Vm.

(** ** The view *)

Definition pde (m : mem) (d i : Z) : Z := ld32 m (d + 4 * i).
Definition pres (m : mem) (d i : Z) : bool := has (pde m d i) PTE_P.
Definition tab (m : mem) (d i : Z) : Z := P2V (PTE_ADDR (pde m d i)).
Definition slot (m : mem) (d va : Z) : Z := tab m d (PDX va) + 4 * PTX va.
Definition pv (m : mem) (d va : Z) : Z := if pres m d (PDX va) then ld32 m (slot m d va) else 0.

(** The pages a page table occupies: its directory and its second-level tables. *)
Definition in_pt (m : mem) (d p : Z) : Prop :=
  p = d \/ exists i, 0 <= i < 1024 /\ pres m d i = true /\ p = tab m d i.

(** Well-formedness: the directory and its tables are distinct allocator pages. *)
Record pt_ok (kend : Z) (m : mem) (d : Z) : Prop := {
  pt_dir : page_ok kend d;
  pt_tab : forall i, 0 <= i < 1024 -> pres m d i = true -> page_ok kend (tab m d i) /\ tab m d i <> d;
  pt_inj : forall i j, 0 <= i < 1024 -> 0 <= j < 1024 -> pres m d i = true -> pres m d j = true ->
    tab m d i = tab m d j -> i = j
}.

(** Two memories agree on a page. *)
Definition same_on (m m' : mem) (p : Z) : Prop := forall a, p <= a < p + 4096 -> ldb m' a = ldb m a.

(** Number of directory entries without a page table. *)
Definition absent (m : mem) (d : Z) : nat :=
  countb (fun i => negb (pres m d i)) (seqZ 0 1024).

(** ** Flags and entry arithmetic *)

Lemma has_bit x k : 0 <= k -> has x (2 ^ k) = Z.testbit x k.
Proof.
  intros Hk. unfold has. destruct (Z.testbit x k) eqn:Hb.
  - destruct (Z.eqb_spec (Z.land x (2 ^ k)) 0) as [H0|]; [|done].
    exfalso. assert (Z.testbit (Z.land x (2 ^ k)) k = true) as Ht.
    { rewrite Z.land_spec, Hb, Z.pow2_bits_true; done. }
    rewrite H0, Z.bits_0 in Ht. done.
  - assert (Z.land x (2 ^ k) = 0) as ->; [|done].
    apply Z.bits_inj'. intros n Hn. rewrite Z.land_spec, Z.bits_0, Z.pow2_bits_eqb by done.
    destruct (Z.eqb_spec k n) as [->|]; [by rewrite Hb|by rewrite andb_false_r].
Qed.

Lemma has_P x : has x PTE_P = Z.testbit x 0.
Proof. apply (has_bit x 0). lia. Qed.
Lemma has_W x : has x PTE_W = Z.testbit x 1.
Proof. apply (has_bit x 1). lia. Qed.
Lemma has_U x : has x PTE_U = Z.testbit x 2.
Proof. apply (has_bit x 2). lia. Qed.

Lemma testbit_low a f k : a mod 4096 = 0 -> 0 <= k < 12 -> Z.testbit (a + f) k = Z.testbit f k.
Proof.
  intros Ha Hk. rewrite <- (Z.mod_pow2_bits_low (a + f) 12 k), <- (Z.mod_pow2_bits_low f 12 k) by lia.
  change (2 ^ 12) with 4096. by rewrite Z.add_mod, Ha, Z.add_0_l, Z.mod_mod by lia.
Qed.

Lemma lor_page a f : a mod 4096 = 0 -> 0 <= f < 4096 -> Z.lor a f = a + f.
Proof. intros Ha Hf. apply (lor_add a f 12); [lia|lia|]. exact Ha. Qed.

Lemma PTE_ADDR_add a f :
  a mod 4096 = 0 -> 0 <= a -> a + 4096 <= 2 ^ 32 -> 0 <= f < 4096 -> PTE_ADDR (a + f) = a.
Proof.
  intros Ha H0 H1 Hf. rewrite PTE_ADDR_eq by lia.
  rewrite Z.add_mod, Ha, Z.add_0_l, Z.mod_mod, Z.mod_small by lia. lia.
Qed.

Lemma PTE_FLAGS_add a f :
  a mod 4096 = 0 -> 0 <= a -> a + 4096 <= 2 ^ 32 -> 0 <= f < 4096 -> PTE_FLAGS (a + f) = f.
Proof.
  intros Ha H0 H1 Hf. rewrite PTE_FLAGS_eq by lia.
  rewrite Z.add_mod, Ha, Z.add_0_l, Z.mod_mod, Z.mod_small by lia. lia.
Qed.

Lemma PTE_split x : 0 <= x < 2 ^ 32 -> x = PTE_ADDR x + PTE_FLAGS x /\ PTE_ADDR x mod 4096 = 0 /\
  0 <= PTE_FLAGS x < 4096 /\ 0 <= PTE_ADDR x /\ PTE_ADDR x + 4096 <= 2 ^ 32.
Proof.
  intros Hx. rewrite PTE_ADDR_eq, PTE_FLAGS_eq by done.
  pose proof (Z.mod_pos_bound x 4096). pose proof (Z.div_mod x 4096).
  split; [lia|]. split; [|lia]. replace (x - x mod 4096) with (x / 4096 * 4096) by lia. by apply Z.mod_mul.
Qed.

(** Clearing flags does not change the address an entry holds. *)
Lemma clear_flag x f : 0 <= x < 2 ^ 32 -> 0 <= f < 4096 ->
  Z.land x (Z.lnot f) = PTE_ADDR x + Z.land (PTE_FLAGS x) (Z.lnot f).
Proof.
  intros Hx Hf. destruct (PTE_split x Hx) as (Heq & Hal & Hfl & Hlo & Hhi).
  assert (Hb : 0 <= Z.land (PTE_FLAGS x) (Z.lnot f) < 4096) by (apply (land_bound _ _ 12); lia).
  rewrite <- (lor_page (PTE_ADDR x)) by done. rewrite Heq at 1. rewrite <- (lor_page (PTE_ADDR x)) by done.
  rewrite Z.land_lor_distr_l. f_equal.
  apply Z.bits_inj'. intros n Hn. rewrite Z.land_spec, Z.lnot_spec by done.
  destruct (decide (n < 12)) as [Hlt|Hge].
  - replace (Z.testbit (PTE_ADDR x) n) with false; [done|].
    rewrite <- (Z.mod_pow2_bits_low _ 12 n) by lia. change (2 ^ 12) with 4096. by rewrite Hal, Z.bits_0.
  - replace (Z.testbit f n) with false; [by rewrite andb_true_r|].
    destruct (decide (f = 0)) as [->|]; [by rewrite Z.bits_0|]. symmetry. apply Z.bits_above_log2; [lia|].
    apply Z.log2_lt_pow2; [lia|]. apply (Z.lt_le_trans _ 4096); [lia|]. apply (Z.pow_le_mono_r 2 12); lia.
Qed.

(** Bits of a cleared or added flag. *)
Lemma testbit_clear x k j : 0 <= k -> 0 <= j ->
  Z.testbit (Z.land x (Z.lnot (2 ^ k))) j = Z.testbit x j && negb (k =? j).
Proof. intros Hk Hj. by rewrite Z.land_spec, Z.lnot_spec, Z.pow2_bits_eqb. Qed.

Lemma testbit_set x k j : 0 <= k -> 0 <= j ->
  Z.testbit (Z.lor x (2 ^ k)) j = Z.testbit x j || (k =? j).
Proof. intros Hk Hj. by rewrite Z.lor_spec, Z.pow2_bits_eqb. Qed.

Lemma same_page a b : 0 <= a < 2 ^ 32 -> 0 <= b < 2 ^ 32 ->
  (PDX a = PDX b /\ PTX a = PTX b) <-> a / 4096 = b / 4096.
Proof.
  intros Ha Hb. split; [intros [H1 H2]; by apply PDX_PTX_inj|].
  intros Heq. rewrite !PDX_div, !PTX_div by done. rewrite Heq. split; [|done].
  replace (2 ^ 22) with (4096 * 1024) by lia. rewrite <- !Z.div_div by lia. by rewrite Heq.
Qed.

Section PageTables.
Context (kend : Z) (Hkend : KERNLINK <= kend <= KERNBASE + PHYSTOP).

(** ** Frames *)

Lemma same_on_ld32 m m' p i : same_on m m' p -> 0 <= i < 1024 -> ld32 m' (p + 4 * i) = ld32 m (p + 4 * i).
Proof. intros Hs Hi. apply ld32_ext. intros j Hj. apply Hs. lia. Qed.

Lemma same_on_trans m1 m2 m3 p : same_on m1 m2 p -> same_on m2 m3 p -> same_on m1 m3 p.
Proof. intros H1 H2 a Ha. by rewrite H2, H1. Qed.

Lemma same_on_st32 m p q i x :
  page_ok kend p -> page_ok kend q -> p <> q -> 0 <= i < 1024 -> same_on m (st32 m (q + 4 * i) x) p.
Proof.
  intros Hp Hq Hne Hi a Ha. pose proof (pages_disjoint kend p q Hp Hq Hne).
  apply ldb_st32_ne. lia.
Qed.

Lemma same_on_memset m p q c :
  page_ok kend p -> page_ok kend q -> p <> q -> same_on m (memset m q c PGSIZE) p.
Proof.
  intros Hp Hq Hne a Ha. pose proof (pages_disjoint kend p q Hp Hq Hne).
  rewrite ldb_memset, in_range_false by (unfold PGSIZE; lia). done.
Qed.

Lemma same_on_memmove m p q src :
  page_ok kend p -> page_ok kend q -> p <> q -> same_on m (memmove m q src PGSIZE) p.
Proof.
  intros Hp Hq Hne a Ha. pose proof (pages_disjoint kend p q Hp Hq Hne).
  rewrite ldb_memmove, in_range_false by (unfold PGSIZE; lia). done.
Qed.

Section Frame.
Context (m m' : mem) (d : Z) (Hs : forall p, in_pt m d p -> same_on m m' p).

Lemma pde_frame i : 0 <= i < 1024 -> pde m' d i = pde m d i.
Proof. intros Hi. apply same_on_ld32; [|done]. apply Hs. by left. Qed.

Lemma pres_frame i : 0 <= i < 1024 -> pres m' d i = pres m d i.
Proof. intros Hi. unfold pres. by rewrite pde_frame. Qed.

Lemma tab_frame i : 0 <= i < 1024 -> tab m' d i = tab m d i.
Proof. intros Hi. unfold tab. by rewrite pde_frame. Qed.

Lemma slot_frame va : slot m' d va = slot m d va.
Proof. unfold slot. by rewrite tab_frame by apply PDX_bound. Qed.

Lemma pv_frame va : pv m' d va = pv m d va.
Proof.
  unfold pv. pose proof (PDX_bound va). rewrite slot_frame, pres_frame by done.
  destruct (pres m d (PDX va)) eqn:Hp; [|done]. apply same_on_ld32; [|apply PTX_bound].
  apply Hs. right. by exists (PDX va).
Qed.

Lemma in_pt_frame p : in_pt m' d p <-> in_pt m d p.
Proof.
  unfold in_pt. split; (intros [->|(i & Hi & Hp & ->)]; [by left|right; exists i]).
  - rewrite <- tab_frame, <- pres_frame by done. done.
  - rewrite tab_frame, pres_frame by done. done.
Qed.

Lemma pt_ok_frame : pt_ok kend m d -> pt_ok kend m' d.
Proof.
  intros [Hd Ht Hi]. split; [done| |].
  - intros i Hr. rewrite pres_frame, tab_frame by done. by apply Ht.
  - intros i j Hri Hrj. rewrite !pres_frame, !tab_frame by done. by apply Hi.
Qed.

Lemma absent_frame : absent m' d = absent m d.
Proof.
  apply countb_ext. intros i Hi%elem_of_seqZ. by rewrite pres_frame by lia.
Qed.
End Frame.

(** ** Updating one entry *)

Section Update.
Context (m : mem) (d va x : Z) (Hok : pt_ok kend m d) (Hp : pres m d (PDX va) = true).

Lemma slot_page : page_ok kend (tab m d (PDX va)) /\ tab m d (PDX va) <> d.
Proof. apply Hok; [apply PDX_bound|done]. Qed.

Lemma store_pde i : 0 <= i < 1024 -> pde (st32 m (slot m d va) x) d i = pde m d i.
Proof.
  intros Hi. destruct slot_page as [Hpt Hne]. apply same_on_ld32; [|done].
  apply same_on_st32; [apply Hok|done|done|apply PTX_bound].
Qed.

Lemma store_pres i : 0 <= i < 1024 -> pres (st32 m (slot m d va) x) d i = pres m d i.
Proof. intros Hi. unfold pres. by rewrite store_pde. Qed.

Lemma store_tab i : 0 <= i < 1024 -> tab (st32 m (slot m d va) x) d i = tab m d i.
Proof. intros Hi. unfold tab. by rewrite store_pde. Qed.

Lemma store_slot va' : slot (st32 m (slot m d va) x) d va' = slot m d va'.
Proof. unfold slot at 1. by rewrite store_tab by apply PDX_bound. Qed.

Lemma store_pv va' : 0 <= va < 2 ^ 32 -> 0 <= va' < 2 ^ 32 ->
  pv (st32 m (slot m d va) x) d va' = if decide (va / 4096 = va' / 4096) then u32 x else pv m d va'.
Proof.
  intros Hva Hva'. pose proof (PDX_bound va'). pose proof (PTX_bound va'). pose proof (PTX_bound va).
  unfold pv. rewrite store_pres, store_slot by done.
  case_decide as Heq.
  - apply same_page in Heq as [HD HT]; [|done|done]. unfold slot.
    rewrite <- HD, Hp, <- HT. apply ld32_st32_eq.
  - destruct (pres m d (PDX va')) eqn:Hp'; [|done]. unfold slot.
    destruct (decide (PDX va = PDX va')) as [He|He].
    + rewrite <- He. apply ld32_st32_ne. assert (PTX va <> PTX va'); [|lia].
      intros HT. apply Heq, same_page; done.
    + destruct slot_page as [Hpt _]. apply same_on_ld32; [|done].
      apply same_on_st32; [by apply Hok|done| |done]. intros Ht. apply He. symmetry.
      apply (pt_inj _ _ _ Hok); (done || apply PDX_bound).
Qed.

Lemma store_in_pt p : in_pt (st32 m (slot m d va) x) d p <-> in_pt m d p.
Proof.
  unfold in_pt. split; (intros [->|(i & Hi & Hpi & ->)]; [by left|right; exists i]).
  - rewrite <- store_tab, <- store_pres by done. done.
  - rewrite store_tab, store_pres by done. done.
Qed.

Lemma store_pt_ok : pt_ok kend (st32 m (slot m d va) x) d.
Proof.
  destruct Hok as [Hd Ht Hi]. split; [done| |].
  - intros i Hr. rewrite store_pres, store_tab by done. by apply Ht.
  - intros i j Hri Hrj. rewrite !store_pres, !store_tab by done. by apply Hi.
Qed.

Lemma store_absent : absent (st32 m (slot m d va) x) d = absent m d.
Proof.
  apply countb_ext. intros i Hi%elem_of_seqZ. by rewrite store_pres by lia.
Qed.

Lemma store_same_on p : page_ok kend p -> p <> tab m d (PDX va) -> same_on m (st32 m (slot m d va) x) p.
Proof.
  intros Hpp Hne. destruct slot_page as [Hpt _]. apply same_on_st32; [done|done|done|apply PTX_bound].
Qed.
End Update.

(** ** Installing a page table *)

(** The directory entry [walkpgdir] writes for a new table at [t]. *)
Definition new_pde (t : Z) : Z := Z.lor (Z.lor (Z.lor (V2P t) PTE_P) PTE_W) PTE_U.
Definition install (m : mem) (d k t : Z) : mem := st32 (memset m t 0 PGSIZE) (d + 4 * k) (new_pde t).

Lemma page_ok_V2P t : page_ok kend t ->
  V2P t mod 4096 = 0 /\ 4096 <= V2P t <= PHYSTOP - 4096 /\ P2V (V2P t) = t.
Proof.
  intros Ht. pose proof (page_ok_lo kend Hkend t Ht) as Hlo. destruct Ht as [Hal _].
  unfold KERNBASE, PHYSTOP in *. rewrite P2V_V2P, V2P_eq by (unfold KERNBASE; lia). unfold KERNBASE.
  split; [|lia]. replace (t - 2147483648) with (t + (-524288) * 4096) by lia. by rewrite Z.mod_add by lia.
Qed.

Lemma new_pde_eq t : page_ok kend t -> new_pde t = V2P t + 7.
Proof.
  intros Ht. destruct (page_ok_V2P t Ht) as (Hal & _ & _). unfold new_pde.
  rewrite <- !Z.lor_assoc. by rewrite lor_page by (done || (vm_compute; split; congruence)).
Qed.

Lemma entry_page t f : page_ok kend t -> 0 <= f < 4096 ->
  u32 (V2P t + f) = V2P t + f /\ PTE_ADDR (V2P t + f) = V2P t /\ P2V (PTE_ADDR (V2P t + f)) = t /\
  PTE_FLAGS (V2P t + f) = f.
Proof.
  intros Ht Hf. destruct (page_ok_V2P t Ht) as (Hal & Hb & Hr). unfold PHYSTOP in Hb.
  rewrite u32_id, PTE_ADDR_add, PTE_FLAGS_add by (done || lia). done.
Qed.

Section Install.
Context (m : mem) (d k t : Z) (Hok : pt_ok kend m d) (Hk : 0 <= k < 1024).
Context (Habs : pres m d k = false) (Ht : page_ok kend t) (Hnew : ~ in_pt m d t).

Lemma install_ne : t <> d.
Proof. intros ->. apply Hnew. by left. Qed.

Lemma install_same_on p : page_ok kend p -> p <> t -> p <> d -> same_on m (install m d k t) p.
Proof.
  intros Hp Hpt Hpd. eapply same_on_trans; [by apply (same_on_memset m p t 0)|].
  apply same_on_st32; [done|apply Hok|done|done].
Qed.

Lemma install_pde i : 0 <= i < 1024 ->
  pde (install m d k t) d i = if decide (i = k) then V2P t + 7 else pde m d i.
Proof.
  intros Hi. unfold pde, install. case_decide as Heq.
  - subst i. rewrite ld32_st32_eq, new_pde_eq by done. by apply entry_page.
  - rewrite ld32_st32_ne by lia. apply same_on_ld32; [|done].
    apply same_on_memset; [apply Hok|done|]. intros He. by apply install_ne.
Qed.

Lemma install_pres i : 0 <= i < 1024 ->
  pres (install m d k t) d i = if decide (i = k) then true else pres m d i.
Proof.
  intros Hi. unfold pres. rewrite install_pde by done. case_decide; [|done].
  destruct (page_ok_V2P t Ht) as (Hal & _ & _). rewrite has_P, testbit_low; done || lia.
Qed.

Lemma install_tab i : 0 <= i < 1024 ->
  tab (install m d k t) d i = if decide (i = k) then t else tab m d i.
Proof.
  intros Hi. unfold tab. rewrite install_pde by done. case_decide; [|done].
  by apply (entry_page t 7).
Qed.

Lemma install_zero j : 0 <= j < 1024 -> ld32 (install m d k t) (t + 4 * j) = 0.
Proof.
  intros Hj. assert (Htd : t <> d) by apply install_ne.
  assert (Hs : same_on (memset m t 0 PGSIZE) (install m d k t) t)
    by (apply same_on_st32; [done|apply Hok|done|done]).
  rewrite (same_on_ld32 _ _ _ _ Hs Hj). apply ld32_memset_zero; unfold PGSIZE; lia.
Qed.

Lemma install_pv va : 0 <= va < 2 ^ 32 -> pv (install m d k t) d va = pv m d va.
Proof.
  intros Hva. pose proof (PDX_bound va) as HD. pose proof (PTX_bound va) as HT. unfold pv, slot.
  rewrite install_pres, install_tab by done. case_decide as Heq.
  - rewrite Heq, Habs. by apply install_zero.
  - destruct (pres m d (PDX va)) eqn:Hp; [|done]. apply same_on_ld32; [|done].
    destruct (pt_tab _ _ _ Hok (PDX va) HD Hp) as [Hpt Hpd].
    apply install_same_on; [done| |done]. intros He. apply Hnew. right. by exists (PDX va).
Qed.

Lemma install_in_pt p : in_pt (install m d k t) d p <-> in_pt m d p \/ p = t.
Proof.
  unfold in_pt. split.
  - intros [->|(i & Hi & Hp & ->)]; [by left; left|]. rewrite install_pres, install_tab in * by done.
    case_decide; [by right|]. left. right. by exists i.
  - intros [[->|(i & Hi & Hp & ->)]| ->]; [by left| |].
    + right. exists i. rewrite install_pres, install_tab by done. case_decide as Heq; [|done].
      subst i. congruence.
    + right. exists k. rewrite install_pres, install_tab, !decide_True by done. done.
Qed.

Lemma install_pt_ok : pt_ok kend (install m d k t) d.
Proof.
  destruct Hok as [Hd Htab Hinj]. split; [done| |].
  - intros i Hi. rewrite install_pres, install_tab by done. case_decide.
    + intros _. split; [done|]. apply install_ne.
    + by apply Htab.
  - intros i j Hi Hj. rewrite !install_pres, !install_tab by done.
    case_decide as Ei; case_decide as Ej; intros Hpi Hpj Heq; subst; try done.
    + exfalso. apply Hnew. right. by exists j.
    + exfalso. apply Hnew. right. by exists i.
    + by apply Hinj.
Qed.

Lemma install_absent : absent m d = S (absent (install m d k t) d).
Proof.
  apply (countb_flip _ _ _ k).
  - apply NoDup_seqZ.
  - apply elem_of_seqZ. lia.
  - intros i Hi%elem_of_seqZ Hne. rewrite install_pres, decide_False by (done || lia). done.
  - by rewrite Habs.
  - by rewrite install_pres, decide_True by done.
Qed.
End Install.

End PageTables.
