(* ===== verification/Walk.v ===== *)
(** * Walking and extending a page table

    [pt_step] says what an operation that only extends the page table at [d]
    does to the machine: it takes pages from the head of the free list for new
    page tables and touches no byte outside the pages of that page table.  The
    specifications of [walkpgdir] and of [mappages] for one page are stated with
    it. *)

From S2P Require Import Prelude Mmu Mem Cstring Kalloc Vm PageTable.

(** Two memories agree outside the pages in [X]. *)
Definition agree (X : Z -> Prop) (m m' : mem) : Prop :=
  forall a, (forall p, X p -> ~ (p <= a < p + 4096)) -> ldb m' a = ldb m a.

Lemma agree_refl X m : agree X m m.
Proof. done. Qed.

Lemma agree_mono (X Y : Z -> Prop) m m' : agree X m m' -> (forall p, X p -> Y p) -> agree Y m m'.
Proof. intros Ha HXY a Hout. apply Ha. intros p Hp. by apply Hout, HXY. Qed.

Lemma agree_trans X m1 m2 m3 : agree X m1 m2 -> agree X m2 m3 -> agree X m1 m3.
Proof. intros H1 H2 a Ha. by rewrite H2, H1. Qed.

Lemma agree_st32 (X : Z -> Prop) m p i x : X p -> 0 <= i < 1024 -> agree X m (st32 m (p + 4 * i) x).
Proof. intros HX Hi a Ha. specialize (Ha p HX). apply ldb_st32_ne. lia. Qed.

Lemma agree_memset (X : Z -> Prop) m p c : X p -> agree X m (memset m p c PGSIZE).
Proof.
  intros HX a Ha. specialize (Ha p HX). rewrite ldb_memset, in_range_false by (unfold PGSIZE; lia). done.
Qed.

Lemma agree_memmove (X : Z -> Prop) m p src : X p -> agree X m (memmove m p src PGSIZE).
Proof.
  intros HX a Ha. specialize (Ha p HX). rewrite ldb_memmove, in_range_false by (unfold PGSIZE; lia). done.
Qed.

Lemma agree_same_on kend (X : Z -> Prop) m m' p :
  agree X m m' -> page_ok kend p -> (forall q, X q -> page_ok kend q) -> ~ X p -> same_on m m' p.
Proof.
  intros Ha Hp HX Hn a Hin. apply Ha. intros q Hq Hin'. assert (q <> p) by (intros ->; done).
  pose proof (pages_disjoint kend p q Hp (HX _ Hq)). lia.
Qed.

(** An allocator invariant survives changes outside the free pages. *)
Lemma alloc_inv_mem kend X s m' fl :
  alloc_inv kend s fl -> agree X (m_mem s) m' -> (forall q, X q -> page_ok kend q) ->
  (forall p, p ∈ fl -> ~ X p) -> alloc_inv kend (set_m_mem m' s) fl.
Proof.
  intros [Hc Hd Hp Hl Hz] Ha HX Hn. split; try done. simpl.
  eapply chain_ext; [|exact Hc]. intros x Hx. symmetry.
  rewrite <- (Z.add_0_r x), <- (Z.mul_0_r 4). apply same_on_ld32; [|lia].
  apply (agree_same_on kend X); [done| |done|by apply Hn]. by eapply (proj1 (Forall_forall _ _)) in Hp.
Qed.

Lemma refcount_mem m' s i : refcount (set_m_mem m' s) i = refcount s i.
Proof. done. Qed.

Section Walk.
Context (kend : Z) (Hkend : KERNLINK <= kend <= KERNBASE + PHYSTOP).
Implicit Types (s : machine) (fl new : list Z).

Record pt_step (d : Z) s s' fl fl' new : Prop := {
  st_fl : fl = new ++ fl';
  st_inv : alloc_inv kend s' fl';
  st_ok : pt_ok kend (m_mem s') d;
  st_in : forall p, in_pt (m_mem s') d p <-> in_pt (m_mem s) d p \/ p ∈ new;
  st_agree : agree (in_pt (m_mem s') d) (m_mem s) (m_mem s');
  st_ref : forall p, page_ok kend p -> refcount s' (pidx p) = if decide (p ∈ new) then 1 else refcount s (pidx p);
  st_absent : (length new + absent (m_mem s') d)%nat = absent (m_mem s) d;
  st_held : m_held s' = m_held s;
  st_lock : use_lock (m_kmem s') = use_lock (m_kmem s);
  st_cr3 : m_cr3 s' = m_cr3 s
}.

Lemma in_pt_page m d p : pt_ok kend m d -> in_pt m d p -> page_ok kend p.
Proof. intros [Hd Ht _] [->|(i & Hi & Hp & ->)]; [done|]. by apply Ht. Qed.

Lemma pt_step_refl d s fl : alloc_inv kend s fl -> pt_ok kend (m_mem s) d -> pt_step d s s fl fl [].
Proof.
  intros Hi Hok. split; try done. intros p. set_solver.
Qed.

Lemma pt_step_trans d s1 s2 s3 fl1 fl2 fl3 new1 new2 :
  pt_step d s1 s2 fl1 fl2 new1 -> pt_step d s2 s3 fl2 fl3 new2 -> pt_step d s1 s3 fl1 fl3 (new1 ++ new2).
Proof.
  intros [F1 I1 O1 P1 A1 R1 C1 H1 L1 K1] [F2 I2 O2 P2 A2 R2 C2 H2 L2 K2]. split; try congruence.
  - rewrite F1, F2. by rewrite app_assoc.
  - intros p. rewrite P2, P1. set_solver.
  - eapply agree_trans; [|exact A2]. eapply agree_mono; [exact A1|]. intros p Hp. rewrite P2. by left.
  - intros p Hp. rewrite R2, R1 by done. repeat case_decide; set_solver.
  - len.
Qed.

(** A step keeps the pages of the page table out of the free list. *)
Lemma pt_step_fresh d s s' fl fl' new :
  pt_step d s s' fl fl' new -> alloc_inv kend s fl -> (forall p, in_pt (m_mem s) d p -> p ∉ fl) ->
  forall p, in_pt (m_mem s') d p -> p ∉ fl'.
Proof.
  intros Hst Hi Hf p Hp Hin. destruct Hst as [F _ _ P _ _ _ _ _ _]. destruct Hi as [_ Hd _ _ _].
  rewrite F in Hd. apply NoDup_app in Hd as (_ & Hd & _). apply P in Hp as [Hp|Hp].
  - apply (Hf p Hp). rewrite F. set_solver.
  - by apply (Hd p).
Qed.

(** What one page table's step leaves alone of another one. *)
Lemma pt_step_other d s s' fl fl' new d2 :
  pt_step d s s' fl fl' new -> pt_ok kend (m_mem s) d2 -> (forall p, in_pt (m_mem s) d2 p -> p ∉ fl) ->
  (forall p, in_pt (m_mem s) d2 p -> ~ in_pt (m_mem s) d p) ->
  forall p, in_pt (m_mem s) d2 p -> same_on (m_mem s) (m_mem s') p.
Proof.
  intros Hst Hok2 Hf Hdis p Hp. destruct Hst as [F _ O P A _ _ _ _ _].
  apply (agree_same_on kend (in_pt (m_mem s') d)); [done|by eapply in_pt_page| |].
  - intros q. by apply in_pt_page.
  - rewrite P. intros [Hin|Hin]; [by apply (Hdis p)|]. apply (Hf p Hp). rewrite F. set_solver.
Qed.

(** ** [walkpgdir] *)

Lemma walkpgdir_present d va alloc s :
  pres (m_mem s) d (PDX va) = true -> walkpgdir d va alloc s = Ret (slot (m_mem s) d va) s.
Proof.
  intros Hp. unfold walkpgdir, load, bind, gets. unfold pres, pde in Hp. by rewrite Hp.
Qed.

Lemma walkpgdir_absent d va s :
  pres (m_mem s) d (PDX va) = false -> walkpgdir d va false s = Ret 0 s.
Proof.
  intros Hp. unfold walkpgdir, load, bind, gets. unfold pres, pde in Hp. by rewrite Hp.
Qed.

Lemma walkpgdir_full d va s :
  pres (m_mem s) d (PDX va) = false -> alloc_inv kend s [] -> LkKmem ∉ m_held s ->
  walkpgdir d va true s = Ret 0 s.
Proof.
  intros Hp Hi Hn. unfold walkpgdir, load, bind at 1, gets. unfold pres, pde in Hp. rewrite Hp. simpl.
  by step (kalloc_empty kend s Hi Hn).
Qed.

(** The state after [walkpgdir] allocated the page table [t]. *)
Definition walked (d va t : Z) s : machine :=
  set_m_mem (install (m_mem s) d (PDX va) t) (kalloc_upd t s).

Lemma walkpgdir_alloc d va s t fl :
  pres (m_mem s) d (PDX va) = false -> alloc_inv kend s (t :: fl) -> LkKmem ∉ m_held s ->
  walkpgdir d va true s = Ret (t + 4 * PTX va) (walked d va t s).
Proof.
  intros Hp Hi Hn. unfold walkpgdir, load, bind at 1, gets. unfold pres, pde in Hp. rewrite Hp. simpl.
  step (kalloc_some kend Hkend s t fl Hi Hn).
  assert (page_ok kend t) as Ht%(page_ok_lo kend Hkend) by (destruct Hi as [_ _ Hf _ _]; by inversion Hf).
  destruct (Z.eqb_spec t 0); [unfold KERNBASE in *; lia|]. done.
Qed.

Lemma walked_step d va s t fl :
  pt_ok kend (m_mem s) d -> pres (m_mem s) d (PDX va) = false -> alloc_inv kend s (t :: fl) ->
  (forall p, in_pt (m_mem s) d p -> p ∉ t :: fl) ->
  pt_step d s (walked d va t s) (t :: fl) fl [t].
Proof.
  intros Hok Hp Hi Hf. pose proof (PDX_bound va) as Hb.
  assert (Ht : page_ok kend t) by (destruct Hi as [_ _ Hps _ _]; by inversion Hps).
  assert (Hnew : ~ in_pt (m_mem s) d t) by (intros Hin; apply (Hf t Hin); left).
  assert (Hnd : t ∉ fl) by (destruct Hi as [_ Hd _ _ _]; by apply NoDup_cons in Hd as [? _]).
  assert (Hin : forall p, in_pt (install (m_mem s) d (PDX va) t) d p <-> in_pt (m_mem s) d p \/ p = t)
    by (by apply (install_in_pt kend Hkend)).
  assert (Hag : agree (fun p => p = t \/ p = d) (m_mem s) (install (m_mem s) d (PDX va) t)).
  { eapply agree_trans; [apply (agree_memset _ _ t 0); by left|]. apply agree_st32; [by right|done]. }
  split; unfold walked; cbn [m_mem set_m_mem]; try done.
  - apply (alloc_inv_mem kend (fun p => p = t \/ p = d)); [by apply kalloc_upd_inv|done| |].
    + intros q [->| ->]; [done|apply Hok].
    + intros p Hpf [->| ->]; [done|]. apply (Hf d); [by left|by right].
  - by apply (install_pt_ok kend Hkend).
  - intros p. rewrite Hin, list_elem_of_singleton. done.
  - eapply agree_mono; [exact Hag|]. intros p [->| ->]; apply Hin; [by right|by left; left].
  - intros p Hpp. rewrite refcount_mem, (refcount_kalloc_upd kend Hkend) by done.
    repeat case_decide; set_solver.
  - simpl. symmetry. by apply (install_absent kend Hkend).
Qed.

(** The walk that may allocate: it fails only when a table is missing and no page
    is free, and otherwise returns the address of the entry and maps nothing. *)
Lemma walkpgdir_true d va s fl :
  pt_ok kend (m_mem s) d -> alloc_inv kend s fl -> (forall p, in_pt (m_mem s) d p -> p ∉ fl) ->
  LkKmem ∉ m_held s ->
  (walkpgdir d va true s = Ret 0 s /\ fl = [] /\ pres (m_mem s) d (PDX va) = false) \/
  exists s' fl' new, walkpgdir d va true s = Ret (slot (m_mem s') d va) s' /\
    pt_step d s s' fl fl' new /\ pres (m_mem s') d (PDX va) = true /\
    forall va', 0 <= va' < 2 ^ 32 -> pv (m_mem s') d va' = pv (m_mem s) d va'.
Proof.
  intros Hok Hi Hf Hn. destruct (pres (m_mem s) d (PDX va)) eqn:Hp.
  - right. exists s, fl, []. split; [by apply walkpgdir_present|]. split; [by apply pt_step_refl|done].
  - destruct fl as [|t fl]; [left; by split; [apply walkpgdir_full|]|]. right.
    assert (Ht : page_ok kend t) by (destruct Hi as [_ _ Hps _ _]; by inversion Hps).
    assert (Hnew : ~ in_pt (m_mem s) d t) by (intros Hin; apply (Hf t Hin); left).
    pose proof (PDX_bound va) as Hb. exists (walked d va t s), fl, [t].
    split; [|split; [by apply walked_step|split]].
    + rewrite (walkpgdir_alloc d va s t fl) by done. unfold slot, walked; cbn [m_mem set_m_mem].
      by rewrite (install_tab kend Hkend), decide_True.
    + unfold walked; cbn [m_mem set_m_mem]. by rewrite (install_pres kend Hkend), decide_True.
    + intros va' Hva'. by apply (install_pv kend Hkend).
Qed.

(** Storing an entry of the page table. *)
Definition put_pte (d va x : Z) s : machine := set_m_mem (st32 (m_mem s) (slot (m_mem s) d va) x) s.

Lemma put_pte_step d va x s fl :
  pt_ok kend (m_mem s) d -> alloc_inv kend s fl -> (forall p, in_pt (m_mem s) d p -> p ∉ fl) ->
  pres (m_mem s) d (PDX va) = true -> pt_step d s (put_pte d va x s) fl fl [].
Proof.
  intros Hok Hi Hf Hp.
  assert (Hag : agree (in_pt (m_mem s) d) (m_mem s) (st32 (m_mem s) (slot (m_mem s) d va) x)).
  { apply agree_st32; [|apply PTX_bound]. right. exists (PDX va). split; [apply PDX_bound|done]. }
  split; unfold put_pte; cbn [m_mem set_m_mem]; try done.
  - apply (alloc_inv_mem kend (in_pt (m_mem s) d)); [done|done|intros q; by apply in_pt_page|].
    intros p Hin Hpt. by apply (Hf p).
  - by apply store_pt_ok.
  - intros p. rewrite (store_in_pt kend) by done. set_solver.
  - eapply agree_mono; [exact Hag|]. intros p. by rewrite (store_in_pt kend).
  - simpl. by apply (store_absent kend).
Qed.

Lemma load_slot d va s :
  pres (m_mem s) d (PDX va) = true -> load (slot (m_mem s) d va) s = Ret (pv (m_mem s) d va) s.
Proof. intros Hp. unfold load, gets, pv. by rewrite Hp. Qed.

Lemma slot_nonzero d va s : pt_ok kend (m_mem s) d -> pres (m_mem s) d (PDX va) = true ->
  (slot (m_mem s) d va =? 0) = false.
Proof.
  intros Hok Hp. destruct (slot_page kend (m_mem s) d va Hok Hp) as [Ht%(page_ok_lo kend Hkend) _].
  pose proof (PTX_bound va). unfold slot. apply Z.eqb_neq. unfold KERNBASE in *. lia.
Qed.

Lemma pres_of_pv m d va : pv m d va <> 0 -> pres m d (PDX va) = true.
Proof. unfold pv. by destruct (pres m d (PDX va)). Qed.

(** ** [mappages] of one page *)

Lemma mappages_one d va pa perm :
  0 <= va < 2 ^ 32 -> va mod 4096 = 0 -> mappages d va PGSIZE pa perm = mappages_loop 0 d va va pa perm.
Proof.
  intros Hva Hal. assert (Hdm := Z.div_mod va 4096 ltac:(lia)). unfold mappages.
  assert (PGROUNDDOWN va = va) as -> by (rewrite PGROUNDDOWN_eq; lia).
  assert (PGROUNDDOWN (u32 (va + PGSIZE - 1)) = va) as ->.
  { unfold PGSIZE. rewrite u32_id by lia. rewrite PGROUNDDOWN_eq by lia.
    replace (va + 4096 - 1) with (4095 + (va / 4096) * 4096) by lia. rewrite Z.mod_add by lia.
    change (4095 mod 4096) with 4095. lia. }
  rewrite Z.sub_diag. done.
Qed.

Lemma mappages_page d va pa perm s fl :
  0 <= va < 2 ^ 32 -> va mod 4096 = 0 ->
  pt_ok kend (m_mem s) d -> alloc_inv kend s fl -> (forall p, in_pt (m_mem s) d p -> p ∉ fl) ->
  LkKmem ∉ m_held s -> has (pv (m_mem s) d va) PTE_P = false ->
  (mappages d va PGSIZE pa perm s = Ret (-1) s /\ fl = [] /\ pres (m_mem s) d (PDX va) = false) \/
  exists s1 fl' new, pt_step d s s1 fl fl' new /\ pres (m_mem s1) d (PDX va) = true /\
    (forall va', 0 <= va' < 2 ^ 32 -> pv (m_mem s1) d va' = pv (m_mem s) d va') /\
    mappages d va PGSIZE pa perm s = Ret 0 (put_pte d va (Z.lor (Z.lor pa perm) PTE_P) s1).
Proof.
  intros Hva Hal Hok Hi Hf Hn Hnp. rewrite mappages_one by done. cbn [mappages_loop].
  destruct (walkpgdir_true d va s fl Hok Hi Hf Hn) as [(Hw & -> & Hp)|(s1 & fl1 & new1 & Hw & Hst & Hp & Hpv)].
  { left. step Hw. done. }
  right. step Hw. rewrite (slot_nonzero d va s1) by (done || apply Hst). step (load_slot d va s1 Hp).
  rewrite Hpv, Hnp, Z.eqb_refl by done. exists s1, fl1, new1. done.
Qed.

(** Mapping a page that is already mapped panics. *)
Lemma mappages_remap d va pa perm s :
  0 <= va < 2 ^ 32 -> va mod 4096 = 0 -> pt_ok kend (m_mem s) d ->
  has (pv (m_mem s) d va) PTE_P = true -> mappages d va PGSIZE pa perm s = Panic "remap".
Proof.
  intros Hva Hal Hok Hhas. rewrite mappages_one by done. cbn [mappages_loop].
  assert (Hp : pres (m_mem s) d (PDX va) = true).
  { apply (pres_of_pv (m_mem s) d va). intros H0. by rewrite H0 in Hhas. }
  step (walkpgdir_present d va true s Hp). rewrite slot_nonzero by done.
  step (load_slot d va s Hp). by rewrite Hhas.
Qed.

(** ** [mappages] of a range *)

(** The entry that mapping [a..] to [pa..] gives address [va]. *)
Definition range_pte (a pa perm va : Z) : Z := Z.lor (Z.lor (pa + (va / 4096 * 4096 - a)) perm) PTE_P.

Definition map_done (d a b pa perm : Z) (m m' : mem) : Prop := forall va, 0 <= va < 2 ^ 32 ->
  pv m' d va = if decide (a <= va < b) then u32 (range_pte a pa perm va) else pv m d va.

(** The failure case: the free list ran out with a page table still missing, and
    nothing outside the range changed. *)
Definition map_fail (d a b : Z) s s' fl new : Prop :=
  pt_step d s s' fl [] new /\ (0 < absent (m_mem s') d)%nat /\
  forall va, 0 <= va < 2 ^ 32 -> ~ (a <= va < b) -> pv (m_mem s') d va = pv (m_mem s) d va.

Lemma pv_page m d va va' : 0 <= va < 2 ^ 32 -> 0 <= va' < 2 ^ 32 -> va / 4096 = va' / 4096 -> pv m d va = pv m d va'.
Proof.
  intros Ha Ha' He. apply same_page in He as [HD HT]; [|done|done]. unfold pv, slot. by rewrite HD, HT.
Qed.

Lemma absent_pos m d i : 0 <= i < 1024 -> pres m d i = false -> (0 < absent m d)%nat.
Proof.
  intros Hi Hp. apply (countb_pos _ _ i); [apply elem_of_seqZ; lia|]. by rewrite Hp.
Qed.

(** One iteration of the loop of [mappages], with what follows it. *)
Definition map_iter (d a pa perm : Z) (k : M machine Z) : M machine Z :=
  pte <- walkpgdir d a true ;;
  if pte =? 0 then ret (-1) else
  e <- load pte ;;
  if has e PTE_P then panic "remap" else
  store pte (Z.lor (Z.lor pa perm) PTE_P) ;;; k.

Lemma map_iter_spec d a pa perm s fl :
  0 <= a -> a mod 4096 = 0 -> a + 4096 <= 2 ^ 32 ->
  pt_ok kend (m_mem s) d -> alloc_inv kend s fl -> (forall p, in_pt (m_mem s) d p -> p ∉ fl) ->
  LkKmem ∉ m_held s -> has (pv (m_mem s) d a) PTE_P = false ->
  ((forall k, map_iter d a pa perm k s = Ret (-1) s) /\ fl = [] /\ pres (m_mem s) d (PDX a) = false) \/
  exists s' fl' new, (forall k, map_iter d a pa perm k s = k s') /\ pt_step d s s' fl fl' new /\
    map_done d a (a + 4096) pa perm (m_mem s) (m_mem s').
Proof.
  intros Ha Hal Hend Hok Hi Hf Hn Hnp. unfold map_iter.
  destruct (walkpgdir_true d a s fl Hok Hi Hf Hn) as [(Hw & -> & Hp)|(s1 & fl1 & new1 & Hw & Hst & Hp & Hpv)].
  { left. split; [|done]. intros k. by step Hw. }
  right. assert (Hst2 := put_pte_step d a (Z.lor (Z.lor pa perm) PTE_P) s1 fl1 (st_ok _ _ _ _ _ _ Hst)
    (st_inv _ _ _ _ _ _ Hst) (pt_step_fresh _ _ _ _ _ _ Hst Hi Hf) Hp).
  exists (put_pte d a (Z.lor (Z.lor pa perm) PTE_P) s1), fl1, (new1 ++ []).
  split; [|split; [by eapply pt_step_trans|]].
  - intros k. step Hw. rewrite (slot_nonzero d a s1) by (done || apply Hst). step (load_slot d a s1 Hp).
    by rewrite Hpv, Hnp by lia.
  - intros va Hva. unfold put_pte; cbn [m_mem set_m_mem]. rewrite (store_pv kend) by (done || apply Hst || lia).
    assert (Hdiv : a / 4096 = va / 4096 <-> a <= va < a + 4096) by (Z.to_euclidean_division_equations; lia).
    destruct (decide (a / 4096 = va / 4096)) as [He|He]; [|rewrite decide_False by tauto; by apply Hpv].
    rewrite decide_True by tauto. unfold range_pte. rewrite <- He.
    by replace (pa + (a / 4096 * 4096 - a)) with pa by (Z.to_euclidean_division_equations; lia).
Qed.

Lemma map_done_app d a b c pa perm m1 m2 m3 : a <= b <= c -> 0 <= a -> a mod 4096 = 0 -> b mod 4096 = 0 ->
  map_done d a b pa perm m1 m2 -> map_done d b c (pa + (b - a)) perm m2 m3 -> map_done d a c pa perm m1 m3.
Proof.
  intros Hab Ha Hal Hbl H1 H2 va Hva. rewrite (H2 va Hva), (H1 va Hva).
  destruct (decide (b <= va < c)), (decide (a <= va < c)), (decide (a <= va < b)); try done; try lia.
  unfold range_pte. do 3 f_equal. lia.
Qed.

Lemma mappages_loop_spec d perm n : forall a pa s fl,
  0 <= a -> a mod 4096 = 0 -> a + 4096 * Z.of_nat n + 4096 <= 2 ^ 32 ->
  0 <= pa -> pa + 4096 * Z.of_nat n + 4096 <= 2 ^ 32 ->
  pt_ok kend (m_mem s) d -> alloc_inv kend s fl -> (forall p, in_pt (m_mem s) d p -> p ∉ fl) ->
  LkKmem ∉ m_held s ->
  (forall va, a <= va < a + 4096 * Z.of_nat n + 4096 -> has (pv (m_mem s) d va) PTE_P = false) ->
  (exists s' fl' new, mappages_loop n d a (a + 4096 * Z.of_nat n) pa perm s = Ret 0 s' /\
    pt_step d s s' fl fl' new /\ map_done d a (a + 4096 * Z.of_nat n + 4096) pa perm (m_mem s) (m_mem s')) \/
  (exists s' new, mappages_loop n d a (a + 4096 * Z.of_nat n) pa perm s = Ret (-1) s' /\
    map_fail d a (a + 4096 * Z.of_nat n + 4096) s s' fl new).
Proof.
  induction n as [|n IH]; intros a pa s fl Ha Hal Hend Hpa Hpend Hok Hi Hf Hn Hnp.
  - change (mappages_loop 0 d a (a + 4096 * Z.of_nat 0) pa perm)
      with (map_iter d a pa perm (if a =? a + 4096 * Z.of_nat 0 then ret 0 else ub "mappages: past the last page")).
    rewrite Z.mul_0_r, Z.add_0_r, Z.eqb_refl in *.
    destruct (map_iter_spec d a pa perm s fl) as [(Hr & -> & Hp)|(s' & fl' & new & Hr & Hst & Hmd)]; try done; [apply Hnp; lia| |].
    + right. exists s, []. rewrite Hr. split; [done|]. split; [by apply pt_step_refl|]. split; [|done].
      apply (absent_pos _ _ (PDX a)); [apply PDX_bound|done].
    + left. exists s', fl', new. by rewrite Hr.
  - change (mappages_loop (S n) d a (a + 4096 * Z.of_nat (S n)) pa perm)
      with (map_iter d a pa perm (if a =? a + 4096 * Z.of_nat (S n) then ret 0 else
        mappages_loop n d (u32 (a + PGSIZE)) (a + 4096 * Z.of_nat (S n)) (u32 (pa + PGSIZE)) perm)).
    rewrite (proj2 (Z.eqb_neq _ _)) by lia. unfold PGSIZE. rewrite !u32_id by lia.
    destruct (map_iter_spec d a pa perm s fl) as [(Hr & -> & Hp)|(s1 & fl1 & new1 & Hr & Hst & Hmd)]; try done; [lia|apply Hnp; lia| |].
    + right. exists s, []. rewrite Hr. split; [done|]. split; [by apply pt_step_refl|]. split; [|done].
      apply (absent_pos _ _ (PDX a)); [apply PDX_bound|done].
    + rewrite Hr. replace (a + 4096 * Z.of_nat (S n)) with (a + 4096 + 4096 * Z.of_nat n) by lia.
      assert (Hal' : (a + 4096) mod 4096 = 0) by (by rewrite <- Z.add_mod_idemp_l, Hal by lia).
      destruct (IH (a + 4096) (pa + 4096) s1 fl1) as [(s' & fl' & new & Hr' & Hst' & Hmd')|(s' & new & Hr' & Hst' & Hab & Hout)];
        [lia|done|lia|lia|lia|apply Hst|apply Hst|by eapply pt_step_fresh|by rewrite (st_held _ _ _ _ _ _ Hst)| | |].
      * intros va Hva. rewrite (Hmd va), decide_False by lia. apply Hnp. lia.
      * left. exists s', fl', (new1 ++ new). split; [done|]. split; [by eapply pt_step_trans|].
        apply (map_done_app _ _ (a + 4096) _ _ _ _ (m_mem s1)); try done; [lia|].
        by replace (pa + (a + 4096 - a)) with (pa + 4096) by lia.
      * right. exists s', (new1 ++ new). split; [done|]. split; [by eapply pt_step_trans|]. split; [done|].
        intros va Hva Hnin. rewrite Hout by lia. rewrite (Hmd va), decide_False by lia. done.
Qed.

(** [mappages] of a page-aligned range of [n + 1] pages. *)
Lemma mappages_spec d perm n a pa s fl :
  0 <= a -> a mod 4096 = 0 -> a + 4096 * Z.of_nat n + 4096 <= 2 ^ 32 ->
  0 <= pa -> pa + 4096 * Z.of_nat n + 4096 <= 2 ^ 32 ->
  pt_ok kend (m_mem s) d -> alloc_inv kend s fl -> (forall p, in_pt (m_mem s) d p -> p ∉ fl) ->
  LkKmem ∉ m_held s ->
  (forall va, a <= va < a + 4096 * Z.of_nat n + 4096 -> has (pv (m_mem s) d va) PTE_P = false) ->
  (exists s' fl' new, mappages d a (4096 * Z.of_nat n + 4096) pa perm s = Ret 0 s' /\
    pt_step d s s' fl fl' new /\ map_done d a (a + 4096 * Z.of_nat n + 4096) pa perm (m_mem s) (m_mem s')) \/
  (exists s' new, mappages d a (4096 * Z.of_nat n + 4096) pa perm s = Ret (-1) s' /\
    map_fail d a (a + 4096 * Z.of_nat n + 4096) s s' fl new).
Proof.
  intros Ha Hal Hend Hpa Hpend Hok Hi Hf Hn Hnp.
  assert (mappages d a (4096 * Z.of_nat n + 4096) pa perm = mappages_loop n d a (a + 4096 * Z.of_nat n) pa perm) as ->;
    [|by apply mappages_loop_spec].
  unfold mappages. rewrite (u32_id (_ - 1)) by lia. rewrite !PGROUNDDOWN_eq by lia.
  replace (a - a mod 4096) with a by lia.
  replace (a + (4096 * Z.of_nat n + 4096) - 1 - (a + (4096 * Z.of_nat n + 4096) - 1) mod 4096) with (a + 4096 * Z.of_nat n)
    by (Z.to_euclidean_division_equations; lia).
  rewrite u32_id by lia. replace (Z.to_nat ((a + 4096 * Z.of_nat n - a) / PGSIZE)) with n; [done|].
  unfold PGSIZE. replace (a + 4096 * Z.of_nat n - a) with (Z.of_nat n * 4096) by lia. rewrite Z.div_mul by lia. lia.
Qed.

End Walk.
