(* ===== verification/VmInv.v ===== *)
(** * The copy-on-write invariant

    The machine-wide invariant of the virtual memory system.  For a list [ds] of
    live page directories it relates the allocator's reference counts to the page
    tables: the count of a page is the number of user entries that map it, over
    all address spaces, plus the references [ex] that the kernel itself holds
    (kernel stacks, pipe buffers, a page an operation is working on).  A page that
    is mapped writable is mapped exactly once.  Each primitive change of the
    machine (allocate, free, write an entry, change a count, add or drop a page
    directory) has a lemma saying how it moves the invariant. *)

From S2P Require Import Prelude Mmu Mem Cstring Kalloc Vm PageTable Walk.

(** ** User mappings *)

(** Number of user pages: the pages below [KERNBASE]. *)
Definition UPAGES : Z := 0x80000.

(** The entry of user page [n], whether it is present, and the page it names. *)
Definition upte (m : mem) (d n : Z) : Z := pv m d (n * 4096).
Definition tgt (e : Z) : Z := P2V (PTE_ADDR e).
Definition mapped (m : mem) (d n : Z) : bool := has (upte m d n) PTE_P.
Definition writable (m : mem) (d n : Z) : bool := mapped m d n && has (upte m d n) PTE_W.
Definition hits (e q : Z) : bool := has e PTE_P && (tgt e =? q).

(** All user slots of the address spaces [ds], and how many of them map [q]. *)
Definition slots (ds : list Z) : list (Z * Z) := ds ≫= fun d => pair d <$> seqZ 0 UPAGES.
Definition refs (m : mem) (ds : list Z) (q : Z) : nat :=
  countb (fun dn => hits (upte m dn.1 dn.2) q) (slots ds).

(** The byte a user process sees at an address. *)
Definition uread (m : mem) (d va : Z) : option Z :=
  if mapped m d (va / 4096) then Some (ldb m (tgt (upte m d (va / 4096)) + va mod 4096)) else None.

#[global] Arguments upte : simpl never.
#[global] Arguments tgt : simpl never.
#[global] Arguments mapped : simpl never.
#[global] Arguments hits : simpl never.
#[global] Arguments seqZ : simpl never.
#[global] Opaque seqZ.

Lemma elem_of_slots ds d n : (d, n) ∈ slots ds <-> d ∈ ds /\ 0 <= n < UPAGES.
Proof.
  unfold slots. rewrite list_elem_of_bind. split.
  - intros (d' & Hin & Hd'). apply list_elem_of_fmap in Hin as (n' & [= -> ->] & Hn). apply elem_of_seqZ in Hn. split; [done|lia].
  - intros [Hd Hn]. exists d. split; [|done]. apply list_elem_of_fmap. exists n. split; [done|]. apply elem_of_seqZ. lia.
Qed.

Lemma slots_nodup ds : NoDup ds -> NoDup (slots ds).
Proof.
  induction 1 as [|d ds Hd Hnd IH]; unfold slots; simpl; [constructor|].
  apply NoDup_app. split; [apply NoDup_fmap_2; [by intros ?? [=]|apply NoDup_seqZ]|]. split; [|exact IH].
  intros [d' n] (n' & [= -> ->] & _)%list_elem_of_fmap Hin. apply elem_of_slots in Hin as [? _]. done.
Qed.

Lemma slots_cons d ds : slots (d :: ds) = (pair d <$> seqZ 0 UPAGES) ++ slots ds.
Proof. done. Qed.

(** ** The invariant *)

Section Invariant.
Context (kend : Z) (managed : Z -> Prop).

Definition not_pt (m : mem) (ds : list Z) (q : Z) : Prop := forall d, d ∈ ds -> ~ in_pt m d q.

Record vm_inv (ex : Z -> Z) (s : machine) (fl ds : list Z) : Prop := {
  vi_alloc : alloc_inv kend s fl;
  vi_nodup : NoDup ds;
  vi_ok : forall d, d ∈ ds -> pt_ok kend (m_mem s) d;
  vi_pt : forall d p, d ∈ ds -> in_pt (m_mem s) d p ->
    p ∉ fl /\ refs (m_mem s) ds p = 0%nat /\ refcount s (pidx p) = 1 /\ ex p = 0;
  vi_disj : forall d1 d2 p, d1 ∈ ds -> d2 ∈ ds -> in_pt (m_mem s) d1 p -> in_pt (m_mem s) d2 p -> d1 = d2;
  vi_page : forall d n, d ∈ ds -> 0 <= n < UPAGES -> mapped (m_mem s) d n = true ->
    page_ok kend (tgt (upte (m_mem s) d n));
  vi_refs : forall q, page_ok kend q -> not_pt (m_mem s) ds q ->
    refcount s (pidx q) = Z.of_nat (refs (m_mem s) ds q) + ex q;
  vi_cow : forall d n, d ∈ ds -> 0 <= n < UPAGES -> writable (m_mem s) d n = true ->
    refs (m_mem s) ds (tgt (upte (m_mem s) d n)) = 1%nat;
  vi_leak : forall q, managed q -> page_ok kend q -> refcount s (pidx q) = 0 -> q ∈ fl
}.

(** A change of the kernel's own references to [v]. *)
Definition upd (ex : Z -> Z) (v k : Z) : Z -> Z := fun q => if decide (q = v) then ex q + k else ex q.

Lemma vm_inv_ext ex ex' s fl ds : (forall q, ex q = ex' q) -> vm_inv ex s fl ds -> vm_inv ex' s fl ds.
Proof.
  intros He []. split; try done.
  - intros d p Hd Hp. rewrite <- He. eauto.
  - intros q Hq Hn. rewrite <- He. eauto.
Qed.

End Invariant.

Lemma countb_perm {A} (f : A -> bool) l l' : l ≡ₚ l' -> countb f l = countb f l'.
Proof. induction 1; simpl; lia. Qed.

(** The order in which the address spaces are listed does not matter. *)
#[export] Instance refs_perm : Proper ((=) ==> (≡ₚ) ==> (=) ==> (=)) refs.
Proof.
  intros m ? <- ds ds' Hp q ? <-. apply countb_perm. unfold slots. by rewrite Hp.
Qed.

#[export] Instance vm_inv_perm kend managed : Proper ((=) ==> (=) ==> (=) ==> (≡ₚ) ==> iff) (vm_inv kend managed).
Proof.
  intros ex ? <- s ? <- fl ? <-. assert (forall ds ds', ds ≡ₚ ds' -> vm_inv kend managed ex s fl ds -> vm_inv kend managed ex s fl ds') as Hone.
  { intros ds ds' Hp [Ha Hnd Hok Hpt Hdj Hpg Hrf Hcw Hlk].
    assert (Hin : forall d, d ∈ ds' <-> d ∈ ds) by (intros d; by rewrite Hp).
    assert (Hr : forall q, refs (m_mem s) ds' q = refs (m_mem s) ds q) by (intros q; by rewrite Hp).
    split; try setoid_rewrite Hin; try setoid_rewrite Hr; try done; [by rewrite <- Hp|].
    intros q Hq Hn. apply Hrf; [done|]. intros d Hd. apply Hn. by apply Hin. }
  intros ds ds' Hp. split; apply Hone; done.
Qed.

(** ** Counting *)

Lemma refs_ext m m' ds q :
  (forall d n, d ∈ ds -> 0 <= n < UPAGES -> upte m' d n = upte m d n) -> refs m' ds q = refs m ds q.
Proof.
  intros He. apply countb_ext. intros [d n] [Hd Hn]%elem_of_slots. simpl. by rewrite He.
Qed.

Lemma refs_pos m ds d n : d ∈ ds -> 0 <= n < UPAGES -> mapped m d n = true -> (0 < refs m ds (tgt (upte m d n)))%nat.
Proof.
  intros Hd Hn Hm. apply (countb_pos _ _ (d, n)); [by apply elem_of_slots|]. simpl. unfold hits.
  unfold mapped in Hm. by rewrite Hm, Z.eqb_refl.
Qed.

Lemma refs_change m m' ds d n q :
  NoDup ds -> d ∈ ds -> 0 <= n < UPAGES ->
  (forall d' n', d' ∈ ds -> 0 <= n' < UPAGES -> (d', n') <> (d, n) -> upte m' d' n' = upte m d' n') ->
  (refs m' ds q + b2n (hits (upte m d n) q) = refs m ds q + b2n (hits (upte m' d n) q))%nat.
Proof.
  intros Hnd Hd Hn He. unfold refs.
  apply (countb_change (fun dn => hits (upte m' dn.1 dn.2) q) (fun dn => hits (upte m dn.1 dn.2) q) (slots ds) (d, n)).
  - by apply slots_nodup.
  - by apply elem_of_slots.
  - intros [d' n'] [Hd' Hn']%elem_of_slots Hne. simpl. by rewrite He.
Qed.

Lemma refs_one m ds d1 n1 d2 n2 :
  NoDup ds -> d1 ∈ ds -> 0 <= n1 < UPAGES -> d2 ∈ ds -> 0 <= n2 < UPAGES ->
  refs m ds (tgt (upte m d1 n1)) = 1%nat -> mapped m d1 n1 = true ->
  hits (upte m d2 n2) (tgt (upte m d1 n1)) = true -> (d1, n1) = (d2, n2).
Proof.
  intros Hnd Hd1 Hn1 Hd2 Hn2 Hr Hm Hh.
  eapply (countb_one _ (slots ds)); [by apply slots_nodup|exact Hr|by apply elem_of_slots..| |done].
  simpl. unfold hits. unfold mapped in Hm. by rewrite Hm, Z.eqb_refl.
Qed.

Lemma hits_mapped m d n q : hits (upte m d n) q = true -> mapped m d n = true /\ tgt (upte m d n) = q.
Proof. unfold hits, mapped. intros [H1 H2%Z.eqb_eq]%andb_true_iff. done. Qed.

Lemma upd_eq ex v k : upd ex v k v = ex v + k.
Proof. unfold upd. by rewrite decide_True. Qed.
Lemma upd_ne ex v k q : q <> v -> upd ex v k q = ex q.
Proof. intros Hne. unfold upd. by rewrite decide_False. Qed.

(** ** Primitive steps *)

Section Steps.
Context (kend : Z) (managed : Z -> Prop) (Hkend : KERNLINK <= kend <= KERNBASE + PHYSTOP).
Implicit Types (ex : Z -> Z) (s : machine) (fl ds : list Z).
Abbreviation vm_inv := (vm_inv kend managed).

Lemma upage_range n : 0 <= n < UPAGES -> 0 <= n * 4096 < 2 ^ 32.
Proof. unfold UPAGES. lia. Qed.

Lemma vm_pt_page ex s fl ds d p : vm_inv ex s fl ds -> d ∈ ds -> in_pt (m_mem s) d p -> page_ok kend p.
Proof. intros Hi Hd. apply in_pt_page. by eapply vi_ok. Qed.

Lemma vm_inv_cr3 ex s fl ds v : vm_inv ex s fl ds -> vm_inv ex (set_m_cr3 v s) fl ds.
Proof. intros [[] ? ? ? ? ? ? ? ?]. split; [by split|done..]. Qed.

(** Pages whose references are settled. *)
Lemma free_unref ex s fl ds q :
  vm_inv ex s fl ds -> q ∈ fl -> 0 <= ex q -> refs (m_mem s) ds q = 0%nat /\ ex q = 0 /\ not_pt (m_mem s) ds q.
Proof.
  intros Hi Hq He. assert (Hnp : not_pt (m_mem s) ds q).
  { intros d Hd Hp. by destruct (vi_pt _ _ _ _ _ _ Hi d q Hd Hp) as [? _]. }
  assert (Hz : page_ok kend q /\ refcount s (pidx q) = 0).
  { destruct Hi as [[_ _ Hp _ Hz] _ _ _ _ _ _ _ _]. rewrite Forall_forall in Hp, Hz. eauto. }
  destruct Hz as [Hok Hz]. pose proof (vi_refs _ _ _ _ _ _ Hi q Hok Hnp). split; [lia|]. split; [lia|done].
Qed.

Lemma mapped_page ex s fl ds d n :
  vm_inv ex s fl ds -> (forall q, 0 <= ex q) -> d ∈ ds -> 0 <= n < UPAGES -> mapped (m_mem s) d n = true ->
  let q := tgt (upte (m_mem s) d n) in
  page_ok kend q /\ q ∉ fl /\ not_pt (m_mem s) ds q /\ 1 <= refcount s (pidx q).
Proof.
  intros Hi He Hd Hn Hm q. pose proof (refs_pos _ _ _ _ Hd Hn Hm) as Hr. fold q in Hr.
  assert (Hq : page_ok kend q) by (by eapply vi_page).
  assert (Hnp : not_pt (m_mem s) ds q).
  { intros d' Hd' Hp. destruct (vi_pt _ _ _ _ _ _ Hi d' q Hd' Hp) as (_ & H0 & _). lia. }
  split; [done|]. split; [|split; [done|]].
  - intros Hin. destruct (free_unref ex s fl ds q Hi Hin (He q)) as [H0 _]. lia.
  - rewrite (vi_refs _ _ _ _ _ _ Hi) by done. specialize (He q). lia.
Qed.

(** Extending one page table without changing what it maps. *)
Lemma vm_extend ex s s' fl fl' new ds d :
  vm_inv ex s fl ds -> (forall q, 0 <= ex q) -> d ∈ ds -> pt_step kend d s s' fl fl' new ->
  (forall n, 0 <= n < UPAGES -> upte (m_mem s') d n = upte (m_mem s) d n) ->
  vm_inv ex s' fl' ds.
Proof.
  intros Hi He Hd Hst Hsame. pose proof Hst as [F I O P A R _ _ _ _].
  assert (Hfl : forall p, p ∈ new -> p ∈ fl /\ p ∉ fl').
  { intros p Hp. destruct (vi_alloc _ _ _ _ _ _ Hi) as [_ Hnd _ _ _]. rewrite F in Hnd |- *.
    apply NoDup_app in Hnd as (_ & Hnd & _). split; [apply elem_of_app; by left|by apply Hnd]. }
  assert (Hother : forall d', d' ∈ ds -> d' <> d -> forall p, in_pt (m_mem s) d' p -> same_on (m_mem s) (m_mem s') p).
  { intros d' Hd' Hne. apply (pt_step_other kend Hkend d s s' fl fl' new); [done|by eapply vi_ok| |].
    - intros p Hp. by apply (vi_pt _ _ _ _ _ _ Hi d').
    - intros p Hp Hp'. apply Hne. by eapply (vi_disj _ _ _ _ _ _ Hi). }
  assert (Hu : forall d' n, d' ∈ ds -> 0 <= n < UPAGES -> upte (m_mem s') d' n = upte (m_mem s) d' n).
  { intros d' n Hd' Hn. destruct (decide (d' = d)) as [->|Hne]; [by apply Hsame|]. by apply pv_frame, Hother. }
  assert (Hpt : forall d' p, d' ∈ ds -> in_pt (m_mem s') d' p -> in_pt (m_mem s) d' p \/ (d' = d /\ p ∈ new)).
  { intros d' p Hd' Hp. destruct (decide (d' = d)) as [->|Hne]; [apply P in Hp as [Hp|Hp]; [by left|by right]|].
    left. rewrite (in_pt_frame (m_mem s)) in Hp; [done|by apply Hother]. }
  assert (Hpt' : forall d' p, d' ∈ ds -> in_pt (m_mem s) d' p -> in_pt (m_mem s') d' p).
  { intros d' p Hd' Hp. destruct (decide (d' = d)) as [->|Hne]; [apply P; by left|].
    rewrite (in_pt_frame (m_mem s)); [done|by apply Hother]. }
  split.
  - done.
  - by eapply vi_nodup.
  - intros d' Hd'. destruct (decide (d' = d)) as [->|Hne]; [done|].
    eapply pt_ok_frame; [by apply Hother|by eapply vi_ok].
  - intros d' p Hd' Hp. rewrite (refs_ext (m_mem s)) by done. destruct (Hpt d' p Hd' Hp) as [Hin|[-> Hin]].
    + destruct (vi_pt _ _ _ _ _ _ Hi d' p Hd' Hin) as (H1 & H2 & H3 & H4).
      assert (Hpp : page_ok kend p) by (eapply (in_pt_page kend (m_mem s) d'); [by eapply vi_ok|done]).
      rewrite R by done. rewrite decide_False by (intros Hp'; apply H1; by apply Hfl).
      split; [|done]. intros Hin'. apply H1. rewrite F. apply elem_of_app. by right.
    + destruct (Hfl p Hin) as [H1 H2]. destruct (free_unref _ _ _ _ p Hi H1 (He p)) as (H3 & H4 & _).
      rewrite R by (eapply in_pt_page; [exact O|exact Hp]). by rewrite decide_True.
  - intros d1 d2 p Hd1 Hd2 Hp1 Hp2.
    destruct (Hpt d1 p Hd1 Hp1) as [Hin1|[-> Hin1]], (Hpt d2 p Hd2 Hp2) as [Hin2|[-> Hin2]].
    + by eapply vi_disj.
    + destruct (vi_pt _ _ _ _ _ _ Hi d1 p Hd1 Hin1) as [H1 _]. destruct H1. by apply Hfl.
    + destruct (vi_pt _ _ _ _ _ _ Hi d2 p Hd2 Hin2) as [H1 _]. destruct H1. by apply Hfl.
    + done.
  - intros d' n Hd' Hn. unfold mapped. rewrite Hu by done. by apply (vi_page _ _ _ _ _ _ Hi).
  - intros q Hq Hnp. rewrite (refs_ext (m_mem s)) by done. rewrite R by done. rewrite decide_False.
    + apply (vi_refs _ _ _ _ _ _ Hi); [done|]. intros d' Hd' Hp. by apply (Hnp d' Hd'), Hpt'.
    + intros Hin. apply (Hnp d Hd), P. by right.
  - intros d' n Hd' Hn. unfold writable, mapped. rewrite Hu by done. intros Hw.
    rewrite (refs_ext (m_mem s)) by done. by apply (vi_cow _ _ _ _ _ _ Hi).
  - intros q Hm Hq. rewrite R by done. case_decide; [done|]. intros H0.
    pose proof (vi_leak _ _ _ _ _ _ Hi q Hm Hq H0) as Hin. rewrite F in Hin. by apply elem_of_app in Hin as [?|?].
Qed.

(** A change that leaves every page table alone. *)
Lemma vm_same_pt ex ex' s s' fl fl' ds :
  vm_inv ex s fl ds -> (forall d p, d ∈ ds -> in_pt (m_mem s) d p -> same_on (m_mem s) (m_mem s') p) ->
  alloc_inv kend s' fl' ->
  (forall d p, d ∈ ds -> in_pt (m_mem s) d p -> p ∉ fl' /\ refcount s' (pidx p) = refcount s (pidx p) /\ ex' p = ex p) ->
  (forall q, page_ok kend q -> not_pt (m_mem s) ds q ->
    refcount s' (pidx q) - ex' q = refcount s (pidx q) - ex q) ->
  (forall q, managed q -> page_ok kend q -> refcount s' (pidx q) = 0 -> q ∈ fl') ->
  vm_inv ex' s' fl' ds.
Proof.
  intros Hi Hs Ha Hpt Href Hleak.
  assert (Hu : forall d n, d ∈ ds -> upte (m_mem s') d n = upte (m_mem s) d n)
    by (intros d n Hd; apply pv_frame; eauto).
  assert (Hin : forall d p, d ∈ ds -> in_pt (m_mem s') d p <-> in_pt (m_mem s) d p)
    by (intros d p Hd; apply in_pt_frame; eauto).
  assert (Hr : forall q, refs (m_mem s') ds q = refs (m_mem s) ds q)
    by (intros q; apply refs_ext; intros d n Hd _; by apply Hu).
  destruct Hi as [_ Hnd Hok Hp Hdj Hpg Hrf Hcow _]. split; try done.
  - intros d Hd. apply (pt_ok_frame kend (m_mem s)); eauto.
  - intros d p Hd Hpi. rewrite Hin in Hpi by done. destruct (Hpt d p Hd Hpi) as (H1 & -> & ->).
    rewrite Hr. split; [done|]. by apply (Hp d).
  - intros d1 d2 p Hd1 Hd2. rewrite !Hin by done. by apply Hdj.
  - intros d n Hd Hn. unfold mapped. rewrite Hu by done. by apply Hpg.
  - intros q Hq Hn. assert (Hn' : not_pt (m_mem s) ds q) by (intros d Hd; rewrite <- Hin by done; by apply Hn).
    specialize (Href q Hq Hn'). rewrite (Hrf q Hq Hn') in Href. rewrite Hr. lia.
  - intros d n Hd Hn. unfold writable, mapped. rewrite Hu, Hr by done. by apply Hcow.
Qed.

(** Writing the contents of a page that is neither free nor a page table. *)
Lemma vm_data ex s fl ds v m' :
  vm_inv ex s fl ds -> page_ok kend v -> v ∉ fl -> not_pt (m_mem s) ds v ->
  agree (eq v) (m_mem s) m' -> vm_inv ex (set_m_mem m' s) fl ds.
Proof.
  intros Hi Hv Hf Hnp Ha. eapply vm_same_pt; [exact Hi| | | |done|exact (vi_leak _ _ _ _ _ _ Hi)].
  - intros d p Hd Hp. apply (agree_same_on kend (eq v)); [done| |by intros q <-|].
    + eapply in_pt_page; [by eapply vi_ok|done].
    + intros <-. by apply (Hnp d).
  - apply (alloc_inv_mem kend (eq v)); [by eapply vi_alloc|done|by intros q <-|]. intros p Hp <-. done.
  - intros d p Hd Hp. split; [|done]. by apply (vi_pt _ _ _ _ _ _ Hi d).
Qed.

(** Changing the count of a page in use. *)
Lemma vm_count ex s fl ds v c :
  vm_inv ex s fl ds -> page_ok kend v -> v ∉ fl -> not_pt (m_mem s) ds v -> 0 < c ->
  vm_inv (upd ex v (c - refcount s (pidx v))) (set_count v c s) fl ds.
Proof.
  intros Hi Hv Hf Hnp Hc. eapply vm_same_pt; [exact Hi|done| | | |].
  - apply set_count_inv; [done|by eapply vi_alloc|done|done].
  - intros d p Hd Hp. split; [by apply (vi_pt _ _ _ _ _ _ Hi d)|].
    assert (page_ok kend p) by (eapply in_pt_page; [by eapply vi_ok|done]).
    assert (p <> v) by (intros ->; by apply (Hnp d)).
    rewrite (refcount_set_count kend), decide_False, upd_ne by congruence. done.
  - intros q Hq _. rewrite (refcount_set_count kend) by done. unfold upd. repeat case_decide; subst; lia || done.
  - intros q Hm Hq. rewrite (refcount_set_count kend) by done. case_decide; [lia|]. by apply (vi_leak _ _ _ _ _ _ Hi).
Qed.

(** Taking a page from the free list. *)
Lemma vm_kalloc ex s fl ds v :
  vm_inv ex s (v :: fl) ds -> vm_inv (upd ex v 1) (kalloc_upd v s) fl ds.
Proof.
  intros Hi. pose proof (vi_alloc _ _ _ _ _ _ Hi) as Ha.
  assert (Hv : page_ok kend v) by (destruct Ha as [_ _ Hp _ _]; by inversion Hp).
  assert (Hz : refcount s (pidx v) = 0) by (destruct Ha as [_ _ _ _ Hz]; by inversion Hz).
  eapply vm_same_pt; [exact Hi|done|by apply kalloc_upd_inv| | |].
  - intros d p Hd Hp. destruct (vi_pt _ _ _ _ _ _ Hi d p Hd Hp) as [Hpf _].
    apply not_elem_of_cons in Hpf as [Hne Hpf].
    assert (page_ok kend p) by (eapply in_pt_page; [by eapply vi_ok|done]).
    rewrite (refcount_kalloc_upd kend), decide_False, upd_ne by congruence. done.
  - intros q Hq _. rewrite (refcount_kalloc_upd kend) by done. unfold upd. repeat case_decide; subst; lia || done.
  - intros q Hm Hq. rewrite (refcount_kalloc_upd kend) by done. case_decide; [lia|]. intros H0.
    pose proof (vi_leak _ _ _ _ _ _ Hi q Hm Hq H0) as Hin. by apply elem_of_cons in Hin as [->|?].
Qed.

(** Dropping a reference to a page in use. *)
Definition freed (v : Z) s fl : list Z := if decide (refcount s (pidx v) = 1) then v :: fl else fl.

Lemma kfree_upd_refcount s v w :
  page_ok kend v -> page_ok kend w -> 1 <= refcount s (pidx v) < 4294967296 ->
  refcount (kfree_upd v s) (pidx w) = if decide (v = w) then refcount s (pidx v) - 1 else refcount s (pidx w).
Proof.
  intros Hv Hw Hc. destruct (decide (refcount s (pidx v) = 1)) as [H1|H1].
  - rewrite kfree_last, H1 by lia. change (0 <? 1) with true. cbn match.
    change (refcount (put_free v (set_count v 0 s)) (pidx w)) with (refcount (set_count v 0 s) (pidx w)).
    by rewrite (refcount_set_count kend).
  - rewrite kfree_shared by lia. by rewrite (refcount_set_count kend).
Qed.

Lemma kfree_upd_agree s v :
  1 <= refcount s (pidx v) < 4294967296 -> agree (eq v) (m_mem s) (m_mem (kfree_upd v s)).
Proof.
  intros Hc. destruct (decide (refcount s (pidx v) = 1)) as [H1|H1].
  - rewrite kfree_last, H1 by lia. simpl. eapply agree_trans; [by apply (agree_memset (eq v) _ v 1)|].
    intros a Hout. apply ldb_st32_ne. specialize (Hout v eq_refl). lia.
  - by rewrite kfree_shared by lia.
Qed.

Lemma vm_kfree ex s fl ds v :
  vm_inv ex s fl ds -> page_ok kend v -> v ∉ fl -> not_pt (m_mem s) ds v ->
  1 <= refcount s (pidx v) < 4294967296 ->
  vm_inv (upd ex v (-1)) (kfree_upd v s) (freed v s fl) ds.
Proof.
  intros Hi Hv Hf Hnp Hc. pose proof (vi_alloc _ _ _ _ _ _ Hi) as Ha.
  assert (Hpage : forall d p, d ∈ ds -> in_pt (m_mem s) d p -> page_ok kend p /\ v <> p).
  { intros d p Hd Hp. split; [eapply in_pt_page; [by eapply vi_ok|done]|]. intros ->. by apply (Hnp d). }
  eapply vm_same_pt; [exact Hi| | | | |].
  - intros d p Hd Hp. destruct (Hpage d p Hd Hp) as [Hpp Hne].
    apply (agree_same_on kend (eq v)); [by apply kfree_upd_agree|done|by intros q <-|done].
  - unfold freed. case_decide.
    + apply kfree_last_inv; try done. lia.
    + rewrite kfree_shared by lia. by apply set_count_inv.
  - intros d p Hd Hp. destruct (Hpage d p Hd Hp) as [Hpp Hne].
    rewrite kfree_upd_refcount, decide_False, upd_ne by congruence. split; [|done].
    destruct (vi_pt _ _ _ _ _ _ Hi d p Hd Hp) as [Hpf _]. unfold freed. case_decide; [|done].
    by apply not_elem_of_cons.
  - intros q Hq _. rewrite kfree_upd_refcount by done. unfold upd. repeat case_decide; subst; lia || done.
  - intros q Hm Hq. rewrite kfree_upd_refcount by done. unfold freed. case_decide as Hvq; intros H0.
    + rewrite decide_True by lia. subst. by left.
    + pose proof (vi_leak _ _ _ _ _ _ Hi q Hm Hq H0). case_decide; [by right|done].
Qed.

(** ** Writing a user entry *)

Lemma put_pte_upte s d n x n' :
  pt_ok kend (m_mem s) d -> pres (m_mem s) d (PDX (n * 4096)) = true -> 0 <= x < 2 ^ 32 ->
  0 <= n < UPAGES -> 0 <= n' < UPAGES ->
  upte (m_mem (put_pte d (n * 4096) x s)) d n' = if decide (n = n') then x else upte (m_mem s) d n'.
Proof.
  intros Hok Hp Hx Hn Hn'. unfold upte, put_pte; cbn [m_mem set_m_mem].
  rewrite (store_pv kend) by (done || by apply upage_range). rewrite !Z.div_mul by lia.
  repeat case_decide; done || by rewrite u32_id.
Qed.

Lemma put_pte_other ex s fl ds d n x d' :
  vm_inv ex s fl ds -> d ∈ ds -> d' ∈ ds -> d' <> d -> pres (m_mem s) d (PDX (n * 4096)) = true ->
  forall p, in_pt (m_mem s) d' p -> same_on (m_mem s) (m_mem (put_pte d (n * 4096) x s)) p.
Proof.
  intros Hi Hd Hd' Hne Hp p Hin. assert (Hok : pt_ok kend (m_mem s) d) by (by eapply vi_ok).
  apply (store_same_on kend); [done|done|eapply in_pt_page; [by eapply vi_ok|done]|].
  intros ->. apply Hne. eapply (vi_disj _ _ _ _ _ _ Hi); [done|done|done|].
  right. exists (PDX (n * 4096)). split; [apply PDX_bound|done].
Qed.

(** What writing an entry does to the page tables and the entries. *)
Lemma put_pte_frame ex s fl ds d n x :
  vm_inv ex s fl ds -> d ∈ ds -> 0 <= n < UPAGES -> pres (m_mem s) d (PDX (n * 4096)) = true -> 0 <= x < 2 ^ 32 ->
  let m' := m_mem (put_pte d (n * 4096) x s) in
  (forall d', d' ∈ ds -> pt_ok kend m' d') /\
  (forall d' p, d' ∈ ds -> in_pt m' d' p <-> in_pt (m_mem s) d' p) /\
  (forall d' n', d' ∈ ds -> 0 <= n' < UPAGES ->
    upte m' d' n' = if decide ((d', n') = (d, n)) then x else upte (m_mem s) d' n').
Proof.
  intros Hi Hd Hn Hp Hx m'. assert (Hok : pt_ok kend (m_mem s) d) by (by eapply vi_ok).
  split; [|split].
  - intros d' Hd'. destruct (decide (d' = d)) as [->|Hne]; [by apply store_pt_ok|].
    eapply (pt_ok_frame kend (m_mem s)); [by eapply put_pte_other|by eapply vi_ok].
  - intros d' p Hd'. destruct (decide (d' = d)) as [->|Hne]; [by apply (store_in_pt kend)|].
    apply in_pt_frame. by eapply put_pte_other.
  - intros d' n' Hd' Hn'. destruct (decide (d' = d)) as [->|Hne].
    + unfold m'. rewrite put_pte_upte by done. repeat case_decide; congruence.
    + rewrite decide_False by congruence. apply pv_frame. by eapply put_pte_other.
Qed.

Lemma vm_put ex s fl ds d n x :
  vm_inv ex s fl ds -> d ∈ ds -> 0 <= n < UPAGES -> pres (m_mem s) d (PDX (n * 4096)) = true -> 0 <= x < 2 ^ 32 ->
  (has x PTE_P = true -> page_ok kend (tgt x) /\ not_pt (m_mem s) ds (tgt x)) ->
  (has x PTE_P = true -> has x PTE_W = true -> refs (m_mem s) ds (tgt x) = b2n (hits (upte (m_mem s) d n) (tgt x))) ->
  (has x PTE_P = true -> hits (upte (m_mem s) d n) (tgt x) = false ->
    forall d' n', d' ∈ ds -> 0 <= n' < UPAGES -> writable (m_mem s) d' n' = true -> tgt (upte (m_mem s) d' n') <> tgt x) ->
  vm_inv (fun q => ex q + Z.of_nat (b2n (hits (upte (m_mem s) d n) q)) - Z.of_nat (b2n (hits x q)))
    (put_pte d (n * 4096) x s) fl ds.
Proof.
  intros Hi Hd Hn Hp Hx Hpage Hone Hcow.
  destruct (put_pte_frame ex s fl ds d n x Hi Hd Hn Hp Hx) as (Hok & Hin & Hu).
  assert (Hrefs : forall q, (refs (m_mem (put_pte d (n * 4096) x s)) ds q + b2n (hits (upte (m_mem s) d n) q) =
    refs (m_mem s) ds q + b2n (hits x q))%nat).
  { intros q. rewrite (refs_change (m_mem s) _ ds d n); [by rewrite Hu, decide_True|by eapply vi_nodup|done|done|].
    intros d' n' Hd' Hn' Hne. by rewrite Hu, decide_False. }
  pose proof Hi as [Ha Hnd Hok0 Hpt Hdj Hpg Hrf Hcw Hlk]. split; try done.
  - assert (Hst := put_pte_step kend Hkend d (n * 4096) x s fl (Hok0 d Hd) Ha (fun p Hp' => proj1 (Hpt d p Hd Hp')) Hp).
    by destruct Hst.
  - intros d' p Hd' Hpi. rewrite Hin in Hpi by done. destruct (Hpt d' p Hd' Hpi) as (H1 & H2 & H3 & H4).
    specialize (Hrefs p). assert (hits x p = false) as Hx0.
    { destruct (hits x p) eqn:Hh; [|done]. unfold hits in Hh. apply andb_true_iff in Hh as [Hh He%Z.eqb_eq].
      destruct (Hpage Hh) as [_ Hnp]. exfalso. rewrite He in Hnp. by apply (Hnp d'). }
    rewrite Hx0 in *. cbn [b2n] in *. split; [done|]. split; [lia|]. split; [done|lia].
  - intros d1 d2 p Hd1 Hd2. rewrite !Hin by done. by apply Hdj.
  - intros d' n' Hd' Hn'. unfold mapped. rewrite Hu by done. case_decide; [apply Hpage|by apply Hpg].
  - intros q Hq Hnp. assert (Hnp' : not_pt (m_mem s) ds q) by (intros d' Hd'; rewrite <- Hin by done; by apply Hnp).
    change (refcount (put_pte d (n * 4096) x s) (pidx q)) with (refcount s (pidx q)).
    rewrite (Hrf q Hq Hnp'). specialize (Hrefs q). lia.
  - intros d' n' Hd' Hn'. unfold writable, mapped. rewrite Hu by done. case_decide as Hdn; intros [HP HW]%andb_true_iff.
    + assert (Hself : hits x (tgt x) = true) by (unfold hits; by rewrite HP, Z.eqb_refl).
      specialize (Hrefs (tgt x)). rewrite (Hone HP HW), Hself in Hrefs. cbn [b2n] in Hrefs. lia.
    + assert (Hw : writable (m_mem s) d' n' = true) by (unfold writable, mapped; by rewrite HP, HW).
      specialize (Hcw d' n' Hd' Hn' Hw). specialize (Hrefs (tgt (upte (m_mem s) d' n'))). rewrite Hcw in Hrefs.
      assert (Hold : hits (upte (m_mem s) d n) (tgt (upte (m_mem s) d' n')) = false).
      { apply not_true_iff_false. intros Hh. destruct Hdn.
        apply (refs_one (m_mem s) ds d' n' d n); done. }
      rewrite Hold in Hrefs. destruct (hits x (tgt (upte (m_mem s) d' n'))) eqn:Hh; [|cbn [b2n] in Hrefs; lia].
      unfold hits in Hh. apply andb_true_iff in Hh as [Hxp He%Z.eqb_eq]. exfalso.
      rewrite He in Hcow. by apply (Hcow Hxp Hold d' n').
Qed.

(** ** Adding and dropping page directories *)

Lemma zero_dir m d : page_ok kend d -> (forall i, 0 <= i < 1024 -> pde m d i = 0) ->
  pt_ok kend m d /\ (forall p, in_pt m d p <-> p = d) /\ (forall va, pv m d va = 0) /\ absent m d = 1024%nat.
Proof.
  intros Hd Hz. assert (Hp : forall i, 0 <= i < 1024 -> pres m d i = false)
    by (intros i Hi; unfold pres; by rewrite Hz).
  split; [split; [done|..]|split; [|split]].
  - intros i Hi Hpi. rewrite Hp in Hpi; done.
  - intros i j Hi Hj Hpi. rewrite Hp in Hpi; done.
  - intros p. split; [intros [->|(i & Hi & Hpi & _)]|by left]; [done|]. rewrite Hp in Hpi; done.
  - intros va. unfold pv. by rewrite Hp by apply PDX_bound.
  - assert (forall l, (forall i, i ∈ l -> 0 <= i < 1024) -> countb (fun i => negb (pres m d i)) l = length l) as Hc.
    { induction l as [|i l IH]; intros Hl; [done|]. simpl. rewrite Hp by (apply Hl; left). simpl.
      rewrite IH; [done|]. intros j Hj. apply Hl. by right. }
    unfold absent. rewrite Hc, length_seqZ; [done|]. intros i Hi%elem_of_seqZ. lia.
Qed.

Lemma refs_cons m d ds q :
  refs m (d :: ds) q = (refs m [d] q + refs m ds q)%nat.
Proof. unfold refs. rewrite !slots_cons, !countb_app. simpl. lia. Qed.

Lemma refs_unmapped m d q : (forall n, 0 <= n < UPAGES -> mapped m d n = false) -> refs m [d] q = 0%nat.
Proof.
  intros Hz. apply countb_none. intros [d' n] [->%list_elem_of_singleton Hn]%elem_of_slots. simpl.
  unfold hits. specialize (Hz n Hn). unfold mapped in Hz. by rewrite Hz.
Qed.

Lemma vm_newdir ex s fl ds d :
  vm_inv ex s fl ds -> page_ok kend d -> d ∉ fl -> d ∉ ds -> not_pt (m_mem s) ds d ->
  ex d = 1 -> refs (m_mem s) ds d = 0%nat -> (forall i, 0 <= i < 1024 -> pde (m_mem s) d i = 0) ->
  vm_inv (upd ex d (-1)) s fl (d :: ds).
Proof.
  intros Hi Hd Hf Hnd Hnp Hex Hr Hz. destruct (zero_dir _ _ Hd Hz) as (Hok & Hin & Hpv & _).
  assert (Hm : forall n, mapped (m_mem s) d n = false) by (intros n; unfold mapped, upte; by rewrite Hpv).
  assert (Hrefs : forall q, refs (m_mem s) (d :: ds) q = refs (m_mem s) ds q).
  { intros q. rewrite refs_cons, refs_unmapped; [done|]. intros n _. apply Hm. }
  pose proof Hi as [Ha Hnds Hok0 Hpt Hdj Hpg Hrf Hcw Hlk]. split; try done.
  - by constructor.
  - intros d' [->|Hd']%elem_of_cons; eauto.
  - intros d' p [->|Hd']%elem_of_cons Hp; rewrite Hrefs.
    + apply Hin in Hp as ->. rewrite upd_eq, (Hrf d Hd Hnp), Hr, Hex. done.
    + assert (p <> d) by (intros ->; by apply (Hnp d')). rewrite upd_ne by done. eauto.
  - intros d1 d2 p [->|Hd1]%elem_of_cons [->|Hd2]%elem_of_cons Hp1 Hp2; [done| | |eauto].
    + apply Hin in Hp1 as ->. by destruct (Hnp d2 Hd2).
    + apply Hin in Hp2 as ->. by destruct (Hnp d1 Hd1).
  - intros d' n [->|Hd']%elem_of_cons; [by rewrite Hm|eauto].
  - intros q Hq Hn. assert (q <> d) by (intros ->; apply (Hn d); [left|by apply Hin]).
    rewrite upd_ne, Hrefs by done. apply Hrf; [done|]. intros d' Hd'. apply Hn. by right.
  - intros d' n [->|Hd']%elem_of_cons Hn; rewrite Hrefs; [unfold writable; by rewrite Hm|eauto].
Qed.

(** The pages of a page table, as a test. *)
Definition in_ptb (m : mem) (d p : Z) : bool :=
  (p =? d) || existsb (fun i => pres m d i && (p =? tab m d i)) (seqZ 0 1024).

Lemma in_ptb_spec m d p : in_ptb m d p = true <-> in_pt m d p.
Proof.
  unfold in_ptb, in_pt. rewrite orb_true_iff, Z.eqb_eq, existsb_exists. split.
  - intros [->|(i & Hi%list_elem_of_In%elem_of_seqZ & [Hp He%Z.eqb_eq]%andb_true_iff)]; [by left|].
    right. exists i. split; [lia|done].
  - intros [->|(i & Hi & Hp & ->)]; [by left|]. right. exists i.
    split; [apply list_elem_of_In, elem_of_seqZ; lia|]. by rewrite Hp, Z.eqb_refl.
Qed.

(** Once nothing is mapped, dropping a page directory hands its pages to the
    kernel, one reference each. *)
Lemma vm_dropdir ex s fl ds d :
  vm_inv ex s fl (d :: ds) -> (forall n, 0 <= n < UPAGES -> mapped (m_mem s) d n = false) ->
  vm_inv (fun q => ex q + Z.of_nat (b2n (in_ptb (m_mem s) d q))) s fl ds.
Proof.
  intros Hi Hm. assert (Hrefs : forall q, refs (m_mem s) (d :: ds) q = refs (m_mem s) ds q).
  { intros q. by rewrite refs_cons, refs_unmapped. }
  pose proof Hi as [Ha Hnds Hok0 Hpt Hdj Hpg Hrf Hcw Hlk]. apply NoDup_cons in Hnds as [Hd Hnds].
  assert (Hsub : forall d', d' ∈ ds -> d' ∈ d :: ds) by (intros d' Hd'; by right).
  assert (Hself : d ∈ d :: ds) by left. split; try done.
  - eauto.
  - intros d' p Hd' Hp. rewrite <- Hrefs. destruct (Hpt d' p (Hsub _ Hd') Hp) as (H1 & H2 & H3 & H4).
    split; [done|]. split; [done|]. split; [done|]. destruct (in_ptb (m_mem s) d p) eqn:Hb; [|simpl; lia].
    apply in_ptb_spec in Hb. exfalso. apply Hd. by rewrite (Hdj d d' p Hself (Hsub _ Hd') Hb Hp).
  - eauto.
  - eauto.
  - intros q Hq Hn. rewrite <- Hrefs. destruct (in_ptb (m_mem s) d q) eqn:Hb; simpl.
    + apply in_ptb_spec in Hb. destruct (Hpt d q Hself Hb) as (_ & -> & -> & ->). done.
    + rewrite Z.add_0_r. apply Hrf; [done|]. intros d' [->|Hd']%elem_of_cons; [|by apply Hn].
      intros Hin. apply in_ptb_spec in Hin. congruence.
  - intros d' n Hd' Hn Hw. rewrite <- Hrefs. eauto.
Qed.

End Steps.
