(* ===== verification/Uvm.v ===== *)
(** * User address spaces

    The operations of vm.c on user address spaces under the copy-on-write
    invariant: removing and adding one mapping, then [deallocuvm], [freevm],
    [allocuvm], [copyuvm] and [pagefault].  [ustep] says what an operation on the
    address space [d] leaves alone: the entries and the contents of every other
    address space, the kernel's own pages, and the locks. *)

From S2P Require Import Prelude Mmu Mem Cstring Kalloc Vm PageTable Walk VmInv.

(** No reference is in flight, and counts stay far from wrapping around. *)
Record settled (ex : Z -> Z) (ds : list Z) : Prop := {
  se_len : (length ds <= 1024)%nat;
  se_ex : forall q, 0 <= ex q <= 1024
}.

Section Uvm.
Context (kend : Z) (managed : Z -> Prop) (Hkend : KERNLINK <= kend <= KERNBASE + PHYSTOP).
Implicit Types (ex : Z -> Z) (s : machine) (fl ds : list Z).
Abbreviation vm_inv := (vm_inv kend managed).

Record ustep ex ds (d : Z) s s' : Prop := {
  us_held : m_held s' = m_held s;
  us_lock : use_lock (m_kmem s') = use_lock (m_kmem s);
  us_other : forall d' n, d' ∈ ds -> d' <> d -> 0 <= n < UPAGES ->
    upte (m_mem s') d' n = upte (m_mem s) d' n /\
    (mapped (m_mem s) d' n = true -> same_on (m_mem s) (m_mem s') (tgt (upte (m_mem s) d' n)));
  us_kernel : agree (fun p => page_ok kend p /\ ex p = 0) (m_mem s) (m_mem s')
}.

Lemma ustep_refl ex ds d s : ustep ex ds d s s.
Proof. split; done. Qed.

Lemma ustep_trans ex ds d s1 s2 s3 : ustep ex ds d s1 s2 -> ustep ex ds d s2 s3 -> ustep ex ds d s1 s3.
Proof.
  intros [H1 L1 O1 K1] [H2 L2 O2 K2]. split; [congruence|congruence| |by eapply agree_trans].
  intros d' n Hd Hne Hn. destruct (O1 d' n Hd Hne Hn) as [E1 S1], (O2 d' n Hd Hne Hn) as [E2 S2].
  split; [congruence|]. intros Hm. eapply same_on_trans; [by apply S1|]. rewrite <- E1. apply S2.
  unfold mapped in *. by rewrite E1.
Qed.

(** The bytes a process sees depend on its entries and the pages they name. *)
Lemma uread_eq m m' d va :
  upte m' d (va / 4096) = upte m d (va / 4096) ->
  (mapped m d (va / 4096) = true -> same_on m m' (tgt (upte m d (va / 4096)))) ->
  uread m' d va = uread m d va.
Proof.
  intros He Hs. unfold uread, mapped in *. rewrite He. destruct (has _ PTE_P); [|done].
  f_equal. apply Hs; [done|]. pose proof (Z.mod_pos_bound va 4096). lia.
Qed.

Lemma upage_of_va va : 0 <= va < KERNBASE -> 0 <= va / 4096 < UPAGES.
Proof.
  unfold KERNBASE, UPAGES. intros Hva. split; [apply Z.div_pos; lia|apply Z.div_lt_upper_bound; lia].
Qed.

Lemma ustep_uread ex ds d s s' d' va :
  ustep ex ds d s s' -> d' ∈ ds -> d' <> d -> 0 <= va < KERNBASE ->
  uread (m_mem s') d' va = uread (m_mem s) d' va.
Proof.
  intros Hst Hd Hne Hva. destruct (us_other _ _ _ _ _ Hst d' _ Hd Hne (upage_of_va va Hva)).
  by apply uread_eq.
Qed.

Lemma refcount_bound ex s fl ds q :
  vm_inv ex s fl ds -> settled ex ds -> page_ok kend q -> not_pt (m_mem s) ds q ->
  0 <= refcount s (pidx q) < 2 ^ 30.
Proof.
  intros Hi [Hl He] Hq Hnp. rewrite (vi_refs _ _ _ _ _ _ Hi q Hq Hnp). specialize (He q).
  enough (Z.of_nat (refs (m_mem s) ds q) <= 1024 * UPAGES) by (unfold UPAGES in *; lia).
  assert (Hle : (refs (m_mem s) ds q <= length (slots ds))%nat) by apply countb_le_length.
  assert (Hlen : Z.of_nat (length (slots ds)) = Z.of_nat (length ds) * UPAGES).
  { clear. induction ds as [|d ds IH]; [done|]. rewrite slots_cons. autorewrite with len.
    rewrite length_seqZ. unfold UPAGES in *. lia. }
  unfold UPAGES in *. nia.
Qed.

(** Changes confined to free pages, page tables and unreferenced pages are
    invisible to user processes. *)
Lemma users_agree ex s fl ds (X : Z -> Prop) m' d n :
  vm_inv ex s fl ds -> settled ex ds -> agree X (m_mem s) m' -> (forall p, X p -> page_ok kend p) ->
  (forall p, X p -> p ∈ fl \/ (exists d, d ∈ ds /\ in_pt (m_mem s) d p) \/ refs (m_mem s) ds p = 0%nat) ->
  d ∈ ds -> 0 <= n < UPAGES -> mapped (m_mem s) d n = true -> same_on (m_mem s) m' (tgt (upte (m_mem s) d n)).
Proof.
  intros Hi [_ He] Ha HX Hc Hd Hn Hm.
  destruct (mapped_page _ _ _ _ _ _ _ _ Hi (fun q => proj1 (He q)) Hd Hn Hm) as (Hp & Hf & Hnp & _).
  apply (agree_same_on kend X); [done|done|done|]. intros Hx.
  pose proof (refs_pos _ _ _ _ Hd Hn Hm). destruct (Hc _ Hx) as [?|[(d' & Hd' & Hin)|?]]; [done| |lia].
  by apply (Hnp d').
Qed.

Lemma uread_agree ex s fl ds (X : Z -> Prop) m' d va :
  vm_inv ex s fl ds -> settled ex ds -> agree X (m_mem s) m' -> (forall p, X p -> page_ok kend p) ->
  (forall p, X p -> p ∈ fl \/ (exists d, d ∈ ds /\ in_pt (m_mem s) d p) \/ refs (m_mem s) ds p = 0%nat) ->
  d ∈ ds -> 0 <= va < KERNBASE ->
  tgt (upte m' d (va / 4096)) = tgt (upte (m_mem s) d (va / 4096)) ->
  mapped m' d (va / 4096) = mapped (m_mem s) d (va / 4096) -> uread m' d va = uread (m_mem s) d va.
Proof.
  intros Hi Hse Ha HX Hc Hd Hva Ht Hm. unfold uread. rewrite Hm, Ht.
  destruct (mapped (m_mem s) d (va / 4096)) eqn:Hmv; [|done]. f_equal.
  assert (Hs : same_on (m_mem s) m' (tgt (upte (m_mem s) d (va / 4096))))
    by (eapply users_agree; try done; by apply upage_of_va).
  apply Hs. pose proof (Z.mod_pos_bound va 4096). lia.
Qed.

(** Extending one page table is such a change. *)
Lemma pt_ustep ex s s' fl fl' new ds d :
  vm_inv ex s fl ds -> settled ex ds -> d ∈ ds -> pt_step kend d s s' fl fl' new -> ustep ex ds d s s'.
Proof.
  intros Hi Hse Hd Hst. pose proof Hst as [F I O P A R _ H L _].
  assert (HX : forall p, in_pt (m_mem s') d p -> p ∈ fl \/ in_pt (m_mem s) d p).
  { intros p [?|Hp]%P; [by right|]. left. rewrite F. apply elem_of_app. by left. }
  assert (Hpage : forall p, in_pt (m_mem s') d p -> page_ok kend p) by (intros p; by apply in_pt_page).
  split; [done|done| |].
  - intros d' n Hd' Hne Hn. split.
    + apply pv_frame. apply (pt_step_other kend Hkend d s s' fl fl' new); [done|by eapply vi_ok| |].
      * intros p Hp. by apply (vi_pt _ _ _ _ _ _ Hi d').
      * intros p Hp Hp'. apply Hne. by eapply (vi_disj _ _ _ _ _ _ Hi).
    + intros Hm. apply (users_agree ex s fl ds (in_pt (m_mem s') d)); try done.
      intros p Hp. destruct (HX p Hp); [by left|right; left; by exists d].
  - apply (agree_mono _ _ _ _ A). intros p Hp. split; [by apply Hpage|]. destruct (HX p Hp) as [Hf|Hin].
    + by apply (free_unref _ _ _ _ _ _ _ Hi Hf), Hse.
    + by apply (vi_pt _ _ _ _ _ _ Hi d).
Qed.

(** A change confined to a page that is not a page table keeps every page table. *)
Lemma data_pt_same ex s fl ds v m' d p :
  vm_inv ex s fl ds -> page_ok kend v -> not_pt (m_mem s) ds v -> agree (eq v) (m_mem s) m' ->
  d ∈ ds -> in_pt (m_mem s) d p -> same_on (m_mem s) m' p.
Proof.
  intros Hi Hv Hnp Ha Hd Hp. apply (agree_same_on kend (eq v)); [done| |by intros q <-|].
  - eapply in_pt_page; [by eapply vi_ok|done].
  - intros <-. by apply (Hnp d).
Qed.

Lemma hits_self e : has e PTE_P = true -> forall q, hits e q = bool_decide (q = tgt e).
Proof.
  intros He q. unfold hits. rewrite He. simpl. case_bool_decide as Hq; [by apply Z.eqb_eq|].
  apply Z.eqb_neq. congruence.
Qed.

(** ** Removing one mapping *)

(** From [m] to [m'] the address space [d] lost the mappings of the pages [P] and
    kept the others with their contents. *)
Definition cleared (P : Z -> bool) (d : Z) (m m' : mem) : Prop := forall n, 0 <= n < UPAGES ->
  upte m' d n = (if P n && mapped m d n then 0 else upte m d n) /\
  (P n = false -> mapped m d n = true -> same_on m m' (tgt (upte m d n))).

Definition in_span (a b n : Z) : bool := (a <=? n * 4096) && (n * 4096 <? b).

Lemma in_span_spec a b n : in_span a b n = true <-> a <= n * 4096 < b.
Proof. unfold in_span. rewrite andb_true_iff, Z.leb_le, Z.ltb_lt. done. Qed.

Lemma in_span_false a b n : in_span a b n = false <-> ~ (a <= n * 4096 < b).
Proof. by rewrite <- in_span_spec, not_true_iff_false. Qed.

Lemma cleared_none P d m : (forall n, 0 <= n < UPAGES -> P n = true -> mapped m d n = false) -> cleared P d m m.
Proof.
  intros Hp n Hn. split; [|done]. destruct (P n) eqn:HP; [|done]. by rewrite Hp.
Qed.

Lemma mapped_cleared P d m m' n : cleared P d m m' -> 0 <= n < UPAGES -> mapped m' d n = mapped m d n && negb (P n).
Proof.
  intros Hc Hn. destruct (Hc n Hn) as [He _]. unfold mapped in *. rewrite He.
  destruct (P n), (has (upte m d n) PTE_P) eqn:Hh; simpl; done.
Qed.

Lemma cleared_trans P Q R d m1 m2 m3 : (forall n, 0 <= n < UPAGES -> R n = P n || Q n) ->
  cleared P d m1 m2 -> cleared Q d m2 m3 -> cleared R d m1 m3.
Proof.
  intros HR H1 H2 n Hn. pose proof (mapped_cleared _ _ _ _ n H1 Hn) as Hm.
  destruct (H1 n Hn) as [E1 S1], (H2 n Hn) as [E2 S2]. rewrite HR, E2, Hm, E1 by done. split.
  - destruct (P n), (Q n), (mapped m1 d n); done.
  - intros [HP HQ]%orb_false_iff Hmp. eapply same_on_trans; [by apply S1|]. rewrite HP in *. simpl in *.
    rewrite E1 in S2. apply S2; [done|]. by rewrite Hm, Hmp.
Qed.

Lemma absent_unmapped m d n : pres m d (PDX (n * 4096)) = false -> mapped m d n = false.
Proof. intros Hp. unfold mapped, upte, pv. by rewrite Hp. Qed.

Lemma unmap_page ex s fl ds d n :
  vm_inv ex s fl ds -> settled ex ds -> LkKmem ∉ m_held s -> d ∈ ds -> 0 <= n < UPAGES ->
  mapped (m_mem s) d n = true ->
  let q := tgt (upte (m_mem s) d n) in
  exists s', (kfree kend q ;;; store (slot (m_mem s) d (n * 4096)) 0) s = Ret tt s' /\
    vm_inv ex s' (freed q s fl) ds /\ ustep ex ds d s s' /\
    (forall i, 0 <= i < 1024 -> pres (m_mem s') d i = pres (m_mem s) d i) /\
    (forall p, in_pt (m_mem s') d p <-> in_pt (m_mem s) d p) /\
    cleared (Z.eqb n) d (m_mem s) (m_mem s') /\ m_cr3 s' = m_cr3 s.
Proof.
  intros Hi Hse Hh Hd Hn Hm q.
  destruct (mapped_page _ _ _ _ _ _ _ _ Hi (fun q => proj1 (se_ex _ _ Hse q)) Hd Hn Hm) as (Hq & Hqf & Hnp & Hc).
  fold q in Hq, Hqf, Hnp, Hc. pose proof (refcount_bound _ _ _ _ _ Hi Hse Hq Hnp) as Hb.
  set (s1 := kfree_upd q s). assert (Hag : agree (eq q) (m_mem s) (m_mem s1)) by (apply kfree_upd_agree; lia).
  assert (Hi1 : vm_inv (upd ex q (-1)) s1 (freed q s fl) ds) by (apply vm_kfree; done || lia).
  assert (Hpt : forall d' p, d' ∈ ds -> in_pt (m_mem s) d' p -> same_on (m_mem s) (m_mem s1) p)
    by (intros d' p Hd'; by eapply (data_pt_same ex s fl ds q)).
  assert (Hu1 : forall d' n', d' ∈ ds -> upte (m_mem s1) d' n' = upte (m_mem s) d' n')
    by (intros d' n' Hd'; apply pv_frame; by eauto).
  assert (Hsl : slot (m_mem s) d (n * 4096) = slot (m_mem s1) d (n * 4096))
    by (symmetry; apply slot_frame; by eauto).
  assert (Hpr : pres (m_mem s1) d (PDX (n * 4096)) = true).
  { rewrite (pres_frame (m_mem s)); [|by eauto|apply PDX_bound].
    apply (pres_of_pv _ d (n * 4096)). intros H0. unfold mapped, upte in Hm. by rewrite H0 in Hm. }
  destruct (put_pte_frame _ _ _ _ _ _ d n 0 Hi1 Hd Hn Hpr) as (Hok2 & Hin2 & Hu2); [lia|].
  set (X := fun p => (p = q /\ refcount s (pidx q) = 1) \/ in_pt (m_mem s) d p).
  assert (HX : agree X (m_mem s) (m_mem (put_pte d (n * 4096) 0 s1))).
  { apply (agree_trans X _ (m_mem s1)).
    - destruct (decide (refcount s (pidx q) = 1)); [apply (agree_mono _ _ _ _ Hag); intros p Hp; by left|].
      unfold s1. by rewrite kfree_shared by lia.
    - apply agree_st32; [|apply PTX_bound]. right. rewrite <- (in_pt_frame _ (m_mem s1)) by eauto. right.
      exists (PDX (n * 4096)). split; [apply PDX_bound|done]. }
  assert (Hone : refcount s (pidx q) = 1 -> refs (m_mem s) ds q = 1%nat /\ ex q = 0).
  { intros H1. pose proof (refs_pos _ _ _ _ Hd Hn Hm) as Hr. fold q in Hr.
    rewrite (vi_refs _ _ _ _ _ _ Hi q Hq Hnp) in H1. pose proof (se_ex _ _ Hse q). lia. }
  assert (HXp : forall p, X p -> page_ok kend p /\ ex p = 0).
  { intros p [[-> H1]|Hp]; [split; [done|by apply Hone]|]. split.
    - apply (in_pt_page kend (m_mem s) d); [by eapply (vi_ok _ _ _ _ _ _ Hi)|done].
    - by apply (vi_pt _ _ _ _ _ _ Hi d). }
  assert (Hsame : forall d' n', d' ∈ ds -> 0 <= n' < UPAGES -> (d', n') <> (d, n) -> mapped (m_mem s) d' n' = true ->
    same_on (m_mem s) (m_mem (put_pte d (n * 4096) 0 s1)) (tgt (upte (m_mem s) d' n'))).
  { intros d' n' Hd' Hn' Hne Hm'.
    destruct (mapped_page _ _ _ _ _ _ _ _ Hi (fun q => proj1 (se_ex _ _ Hse q)) Hd' Hn' Hm') as (Hq' & _ & Hnp' & _).
    apply (agree_same_on kend X); [done|done|apply HXp|]. intros [[He H1]|Hp]; [|by apply (Hnp' d)].
    apply Hne. symmetry. apply (refs_one (m_mem s) ds); try done; [by eapply (vi_nodup _ _ _ _ _ _ Hi)|by apply Hone|].
    fold q. rewrite <- He, (hits_self _ Hm'). by apply bool_decide_eq_true. }
  exists (put_pte d (n * 4096) 0 s1). split; [|split; [|split; [split|split; [|split; [|split]]]]].
  - step (kfree_eq kend Hkend s q Hq Hh). by rewrite Hsl.
  - eapply vm_inv_ext; [|apply (vm_put kend managed Hkend (upd ex q (-1)) s1 (freed q s fl) ds d n 0 Hi1 Hd Hn Hpr)].
    + intros q'. cbv beta. rewrite Hu1, (hits_self _ Hm) by done. fold q. change (hits 0 q') with false. unfold upd.
      repeat case_decide; repeat case_bool_decide; simpl; lia || done.
    + lia.
    + done.
    + done.
    + done.
  - apply kfree_upd_frame.
  - apply kfree_upd_frame.
  - intros d' n' Hd' Hne Hn'. rewrite Hu2, decide_False, Hu1 by (done || congruence).
    split; [done|]. intros Hm'. apply Hsame; (done || congruence).
  - apply (agree_mono _ _ _ _ HX HXp).
  - intros i Hi'. unfold put_pte; cbn [m_mem set_m_mem]. rewrite (store_pres kend); [|by eapply vi_ok|done|done].
    apply pres_frame; [by eauto|done].
  - intros p. rewrite Hin2 by done. apply in_pt_frame. by eauto.
  - intros n' Hn'. rewrite Hu2, Hu1 by done. destruct (Z.eqb_spec n n') as [<-|Hne].
    + rewrite decide_True, Hm by done. done.
    + rewrite decide_False by congruence. split; [done|]. intros _ Hm'. apply Hsame; (done || congruence).
  - apply kfree_upd_frame.
Qed.

(** ** [deallocuvm] *)

Definition dealloc_spec ex ds d a b s s' fl fl' : Prop :=
  vm_inv ex s' fl' ds /\ ustep ex ds d s s' /\ cleared (in_span a b) d (m_mem s) (m_mem s') /\
  (forall p, p ∈ fl -> p ∈ fl') /\ m_cr3 s' = m_cr3 s /\ (forall p, in_pt (m_mem s') d p <-> in_pt (m_mem s) d p).

Lemma dealloc_spec_skip ex ds d a a' b s s' fl fl' :
  a <= a' -> (forall n, 0 <= n < UPAGES -> a <= n * 4096 < a' -> mapped (m_mem s) d n = false) ->
  dealloc_spec ex ds d a' b s s' fl fl' -> dealloc_spec ex ds d a b s s' fl fl'.
Proof.
  intros Ha Hm (H1 & H2 & H3 & H4). split; [done|]. split; [done|]. split; [|done].
  intros n Hn. destruct (H3 n Hn) as [E S]. destruct (in_span a b n) eqn:Hab, (in_span a' b n) eqn:Ha'b; try done.
  - apply in_span_spec in Hab. apply in_span_false in Ha'b. rewrite E, Hm by (done || lia). done.
  - apply in_span_false in Hab. apply in_span_spec in Ha'b. lia.
Qed.

(** The step to the next page stays in a present page table or reaches a boundary. *)
Lemma next_page m m' d a : 0 <= a < KERNBASE -> a mod 4096 = 0 -> pres m d (PDX a) = true ->
  (forall i, 0 <= i < 1024 -> pres m' d i = pres m d i) ->
  pres m' d (PDX (a + 4096)) = true \/ (a + 4096) mod 2 ^ 22 = 0.
Proof.
  unfold KERNBASE. intros Ha Hal Hp Hs. rewrite Hs by apply PDX_bound. rewrite PDX_div in Hp |- * by lia.
  destruct (decide ((a + 4096) / 2 ^ 22 = a / 2 ^ 22)) as [->|Hne]; [by left|right].
  Z.to_euclidean_division_equations; lia.
Qed.

(** A missing page table at a boundary means none of its pages is mapped. *)
Lemma skip_unmapped m d a n : 0 <= a < KERNBASE -> a mod 2 ^ 22 = 0 -> pres m d (PDX a) = false ->
  0 <= n < UPAGES -> a <= n * 4096 < a + 2 ^ 22 -> mapped m d n = false.
Proof.
  unfold KERNBASE, UPAGES. intros Ha Hal Hp Hn Hin. apply absent_unmapped. rewrite PDX_div in Hp |- * by lia.
  replace (n * 4096 / 2 ^ 22) with (a / 2 ^ 22); [done|]. Z.to_euclidean_division_equations; lia.
Qed.

Lemma deallocuvm_loop_spec ex ds d oldsz :
  settled ex ds -> d ∈ ds -> oldsz <= KERNBASE -> forall fuel a s fl,
  vm_inv ex s fl ds -> LkKmem ∉ m_held s -> 0 <= a -> a mod 4096 = 0 ->
  pres (m_mem s) d (PDX a) = true \/ a mod 2 ^ 22 = 0 -> oldsz - a <= 4096 * Z.of_nat fuel ->
  exists s' fl', deallocuvm_loop kend fuel d a oldsz s = Ret tt s' /\ dealloc_spec ex ds d a oldsz s s' fl fl'.
Proof.
  intros Hse Hd Hold. induction fuel as [|fuel IH]; intros a s fl Hi Hh Ha Hal Hpa Hfuel; cbn [deallocuvm_loop];
    (destruct (Z.ltb_spec a oldsz) as [Hlt|Hge]; cbn [negb]; [|
     exists s, fl; split; [done|]; split; [done|]; split; [apply ustep_refl|]; split; [|done];
     apply cleared_none; intros n Hn Hsp%in_span_spec; lia]); [lia|].
  assert (Hn : 0 <= a / 4096 < UPAGES) by (apply upage_of_va; lia).
  assert (Han : a = a / 4096 * 4096) by (pose proof (Z.div_mod a 4096); lia).
  assert (Hal' : (a + 4096) mod 4096 = 0) by (by rewrite <- Z.add_mod_idemp_l, Hal by lia).
  destruct (pres (m_mem s) d (PDX a)) eqn:Hp.
  - step (walkpgdir_present d a false s Hp).
    rewrite (slot_nonzero kend Hkend) by (done || by eapply vi_ok). step (load_slot d a s Hp).
    unfold PGSIZE. rewrite u32_id by (unfold KERNBASE in *; lia).
    destruct (has (pv (m_mem s) d a) PTE_P) eqn:Hm.
    + assert (Hmap : mapped (m_mem s) d (a / 4096) = true) by (unfold mapped, upte; by rewrite <- Han).
      destruct (unmap_page ex s fl ds d (a / 4096) Hi Hse Hh Hd Hn Hmap) as (s1 & Hr & Hi1 & Hu1 & Hpr & Hin & Hc & Hcr).
      assert (Hpg := vi_page _ _ _ _ _ _ Hi d _ Hd Hn Hmap). unfold upte, tgt in Hr, Hpg. rewrite <- Han in Hr, Hpg.
      destruct (Z.eqb_spec (PTE_ADDR (pv (m_mem s) d a)) 0) as [H0|_].
      { rewrite H0 in Hpg. apply (page_ok_lo kend Hkend) in Hpg. change (P2V 0) with KERNBASE in Hpg. lia. }
      step Hr. destruct (IH (a + 4096) s1 (freed (tgt (upte (m_mem s) d (a / 4096))) s fl))
        as (s' & fl' & Hr' & Hi' & Hu' & Hc' & Hf' & Hcr' & Hin');
        [done|by rewrite (us_held _ _ _ _ _ Hu1)|lia|done|apply (next_page (m_mem s)); done || lia|lia|].
      exists s', fl'. split; [done|]. split; [done|]. split; [by eapply ustep_trans|].
      split; [|split; [|split; [congruence|intros p; by rewrite Hin', Hin]]].
      * apply (cleared_trans (Z.eqb (a / 4096)) (in_span (a + 4096) oldsz) _ d _ (m_mem s1)); [|done|done].
        intros n Hn'. unfold in_span. destruct (Z.eqb_spec (a / 4096) n), (Z.leb_spec a (n * 4096)),
          (Z.ltb_spec (n * 4096) oldsz), (Z.leb_spec (a + 4096) (n * 4096)); simpl; done || lia.
      * intros p Hpf. apply Hf'. unfold freed. case_decide; [by right|done].
    + destruct (IH (a + 4096) s fl) as (s' & fl' & Hr' & Hsp); [done|done|lia|done|apply (next_page (m_mem s)); done || lia|lia|].
      exists s', fl'. split; [exact Hr'|]. apply (dealloc_spec_skip _ _ _ _ (a + 4096)); [lia| |done].
      intros n Hn' Hin. replace n with (a / 4096) by lia. unfold mapped, upte. by rewrite <- Han.
  - destruct Hpa as [?|Hal22]; [done|]. step (walkpgdir_absent d a s Hp). rewrite Z.eqb_refl.
    assert (u32 (u32 (a + (NPTENTRIES - 1) * PGSIZE) + PGSIZE) = a + 2 ^ 22) as ->.
    { unfold NPTENTRIES, PGSIZE, KERNBASE in *. rewrite u32_add_l, u32_id by lia. lia. }
    destruct (IH (a + 2 ^ 22) s fl) as (s' & fl' & Hr' & Hsp); [done|done|lia| | |lia|].
    + Z.to_euclidean_division_equations; lia.
    + right. by rewrite <- Z.add_mod_idemp_l, Hal22 by lia.
    + exists s', fl'. split; [exact Hr'|]. apply (dealloc_spec_skip _ _ _ _ (a + 2 ^ 22)); [lia| |done].
      intros n Hn' Hin. apply (skip_unmapped _ _ a); done || lia.
Qed.

Lemma PGROUNDUP_span newsz : 0 <= newsz <= KERNBASE ->
  newsz <= PGROUNDUP newsz < newsz + 4096 /\ PGROUNDUP newsz mod 4096 = 0.
Proof.
  unfold KERNBASE. intros Hn. rewrite PGROUNDUP_eq by lia. pose proof (Z.div_mod (newsz + 4095) 4096).
  pose proof (Z.mod_pos_bound (newsz + 4095) 4096). split; [lia|]. by rewrite Z.mul_comm, Z.mod_mul || rewrite Z.mod_mul.
Qed.

Lemma deallocuvm_spec ex ds d s fl oldsz newsz :
  vm_inv ex s fl ds -> settled ex ds -> LkKmem ∉ m_held s -> d ∈ ds ->
  0 <= newsz < oldsz -> oldsz <= KERNBASE ->
  pres (m_mem s) d (PDX (PGROUNDUP newsz)) = true \/ PGROUNDUP newsz mod 2 ^ 22 = 0 ->
  exists s' fl', deallocuvm kend d oldsz newsz s = Ret newsz s' /\
    dealloc_spec ex ds d (PGROUNDUP newsz) oldsz s s' fl fl'.
Proof.
  intros Hi Hse Hh Hd Hsz Hold Hp. unfold deallocuvm. destruct (Z.leb_spec oldsz newsz); [lia|].
  destruct (PGROUNDUP_span newsz) as [Hr Hal]; [lia|].
  destruct (deallocuvm_loop_spec ex ds d oldsz Hse Hd Hold (Z.to_nat (oldsz / PGSIZE) + 1) (PGROUNDUP newsz) s fl)
    as (s' & fl' & Hrun & Hsp); [done|done|lia|done|done| |].
  - unfold PGSIZE. pose proof (Z.div_mod oldsz 4096). pose proof (Z.mod_pos_bound oldsz 4096).
    assert (0 <= oldsz / 4096) by (apply Z.div_pos; lia). lia.
  - exists s', fl'. split; [|done]. by step Hrun.
Qed.

(** ** [freevm] *)

(** Releasing a page that only the kernel refers to. *)
Lemma kfree_held ex s fl ds v :
  vm_inv ex s fl ds -> LkKmem ∉ m_held s -> page_ok kend v -> ex v = 1 -> refs (m_mem s) ds v = 0%nat ->
  exists s', kfree kend v s = Ret tt s' /\ vm_inv (upd ex v (-1)) s' (v :: fl) ds /\
    agree (eq v) (m_mem s) (m_mem s') /\
    (forall d n, d ∈ ds -> 0 <= n < UPAGES -> upte (m_mem s') d n = upte (m_mem s) d n /\
      (mapped (m_mem s) d n = true -> same_on (m_mem s) (m_mem s') (tgt (upte (m_mem s) d n)))) /\
    m_held s' = m_held s /\ use_lock (m_kmem s') = use_lock (m_kmem s) /\ m_cr3 s' = m_cr3 s.
Proof.
  intros Hi Hh Hv Hex Hr. assert (Hnp : not_pt (m_mem s) ds v).
  { intros d Hd Hp. destruct (vi_pt _ _ _ _ _ _ Hi d v Hd Hp) as (_ & _ & _ & H0). lia. }
  assert (Hc : refcount s (pidx v) = 1) by (rewrite (vi_refs _ _ _ _ _ _ Hi v Hv Hnp); lia).
  assert (Hf : v ∉ fl).
  { intros Hin. destruct (vi_alloc _ _ _ _ _ _ Hi) as [_ _ _ _ Hz].
    pose proof (proj1 (Forall_forall _ _) Hz v Hin). simpl in *. lia. }
  assert (Ha : agree (eq v) (m_mem s) (m_mem (kfree_upd v s))) by (apply kfree_upd_agree; lia).
  exists (kfree_upd v s). split; [by apply kfree_eq|]. split.
  { pose proof (vm_kfree kend managed Hkend ex s fl ds v Hi Hv Hf Hnp ltac:(lia)) as H1.
    unfold freed in H1. by rewrite decide_True in H1. }
  split; [done|]. split; [|apply kfree_upd_frame]. intros d n Hd Hn. split.
  - apply pv_frame. intros p. by apply (data_pt_same ex s fl ds v).
  - intros Hm. apply (agree_same_on kend (eq v)); [done|by eapply vi_page|by intros q <-|].
    intros He. pose proof (refs_pos _ _ _ _ Hd Hn Hm). rewrite <- He in *. lia.
Qed.

(** The page tables [freevm_loop] has still to free from index [i] on. *)
Definition rest (m : mem) (d i q : Z) : bool :=
  existsb (fun j => pres m d j && (q =? tab m d j)) (seqZ i (1024 - i)).

Lemma rest_spec m d i q : 0 <= i -> rest m d i q = true <-> exists j, i <= j < 1024 /\ pres m d j = true /\ q = tab m d j.
Proof.
  intros Hi. unfold rest. rewrite existsb_exists. split.
  - intros (j & Hj%list_elem_of_In%elem_of_seqZ & [Hp He%Z.eqb_eq]%andb_true_iff). exists j. split; [lia|done].
  - intros (j & Hj & Hp & ->). exists j. split; [apply list_elem_of_In, elem_of_seqZ; lia|].
    by rewrite Hp, Z.eqb_refl.
Qed.

Lemma rest_step m d i q : 0 <= i < 1024 -> pt_ok kend m d ->
  b2n (rest m d i q) = (b2n (pres m d i && (q =? tab m d i)%Z) + b2n (rest m d (i + 1)%Z q))%nat.
Proof.
  intros Hi Hok. assert (Heq : rest m d i q = (pres m d i && (q =? tab m d i)) || rest m d (i + 1) q).
  { apply eq_bool_prop_intro. rewrite !Is_true_true, orb_true_iff, !rest_spec, andb_true_iff, Z.eqb_eq by lia. split.
    - intros (j & Hj & Hp & ->). destruct (decide (j = i)) as [->|]; [by left|]. right. exists j. split; [lia|done].
    - intros [[Hp ->]|(j & Hj & Hp & ->)]; [exists i|exists j]; split; (lia || done). }
  rewrite Heq. destruct (pres m d i && (q =? tab m d i)) eqn:H1; [|done].
  destruct (rest m d (i + 1) q) eqn:H2; [|done]. exfalso.
  apply andb_true_iff in H1 as [Hp ->%Z.eqb_eq]. apply rest_spec in H2 as (j & Hj & Hpj & He); [|lia].
  pose proof (pt_inj _ _ _ Hok i j ltac:(lia) ltac:(lia) Hp Hpj He). lia.
Qed.

Lemma freevm_loop_spec ex ds d m1 : d ∉ ds -> pt_ok kend m1 d -> forall n i s fl,
  Z.of_nat n + i = 1024 -> 0 <= i ->
  vm_inv (fun q => ex q + Z.of_nat (b2n (q =? d)) + Z.of_nat (b2n (rest m1 d i q))) s fl ds ->
  LkKmem ∉ m_held s -> same_on m1 (m_mem s) d ->
  (forall p, in_pt m1 d p -> refs (m_mem s) ds p = 0%nat /\ ex p = 0) ->
  exists s' fl', freevm_loop kend n d i s = Ret tt s' /\
    vm_inv (fun q => ex q + Z.of_nat (b2n (q =? d))) s' fl' ds /\ ustep ex ds d s s' /\ m_cr3 s' = m_cr3 s /\
    refs (m_mem s') ds d = 0%nat /\ (forall p, p ∈ fl \/ rest m1 d i p = true -> p ∈ fl').
Proof.
  intros Hd Hok. induction n as [|n IH]; intros i s fl Hni Hi0 Hi Hh Hs Href; cbn [freevm_loop].
  { exists s, fl. split; [done|]. split; [|split; [apply ustep_refl|]].
    - eapply vm_inv_ext; [|exact Hi]. intros q. cbv beta. destruct (rest m1 d i q) eqn:Hr; [|simpl; lia].
      apply rest_spec in Hr as (j & ? & _); lia.
    - split; [done|]. split; [by apply Href; left|]. intros p [?|Hr]; [done|]. apply rest_spec in Hr as (j & ? & _); lia. }
  assert (Hl : load (d + 4 * i) s = Ret (pde m1 d i) s).
  { unfold load, gets, pde. f_equal. apply same_on_ld32; [done|lia]. }
  step Hl. fold (pres m1 d i). change (P2V (PTE_ADDR (pde m1 d i))) with (tab m1 d i).
  destruct (pres m1 d i) eqn:Hp.
  - destruct (pt_tab _ _ _ Hok i ltac:(lia) Hp) as [Hv Hvd].
    assert (Hin : in_pt m1 d (tab m1 d i)) by (right; exists i; split; [lia|done]).
    destruct (Href _ Hin) as [Hr Hex].
    destruct (kfree_held _ s fl ds (tab m1 d i) Hi Hh Hv) as (s1 & Hr1 & Hi1 & Ha1 & Ho1 & Hh1 & Hl1 & Hc1); [|exact Hr|].
    { cbv beta. rewrite rest_step, Hp, Z.eqb_refl by (done || lia).
      destruct (Z.eqb_spec (tab m1 d i) d); [done|]. destruct (rest m1 d (i + 1) (tab m1 d i)) eqn:Hrs; [|simpl; lia].
      apply rest_spec in Hrs as (j & Hj & Hpj & He); [|lia].
      pose proof (pt_inj _ _ _ Hok i j ltac:(lia) ltac:(lia) Hp Hpj He). lia. }
    step Hr1.
    assert (Hrefs : forall q, refs (m_mem s1) ds q = refs (m_mem s) ds q)
      by (intros q; apply refs_ext; intros d' n' Hd' Hn'; by apply Ho1).
    destruct (IH (i + 1) s1 (tab m1 d i :: fl)) as (s' & fl' & Hr' & Hi' & Hu' & Hc' & Hrf' & Hfl'); [lia|lia| |by rewrite Hh1| | |].
    + eapply vm_inv_ext; [|exact Hi1]. intros q. cbv beta. unfold upd. rewrite rest_step, Hp by (done || lia). cbn [andb].
      destruct (Z.eqb_spec q (tab m1 d i)), (decide (q = tab m1 d i)); cbn [b2n]; lia || done.
    + eapply same_on_trans; [exact Hs|]. apply (agree_same_on kend (eq (tab m1 d i))); [done|apply Hok|by intros q <-|done].
    + intros p Hpp. rewrite Hrefs. by apply Href.
    + exists s', fl'. split; [done|]. split; [done|]. split; [|split; [congruence|split; [done|]]].
      * eapply ustep_trans; [|exact Hu']. split; [done|done|intros d' n' Hd' _ Hn'; by apply Ho1|].
        apply (agree_mono _ _ _ _ Ha1). by intros p <-.
      * intros p Hpp. apply Hfl'. destruct Hpp as [?|Hrp]; [left; by right|].
        destruct (decide (p = tab m1 d i)) as [->|Hne]; [left; by left|right].
        apply rest_spec in Hrp as (j & Hj & Hpj & ->); [|lia]. apply rest_spec; [lia|]. exists j. split; [|done].
        assert (j <> i) by (intros ->; done). lia.
  - assert (Hstep : forall q, rest m1 d i q = rest m1 d (i + 1) q).
    { intros q. pose proof (rest_step m1 d i q ltac:(lia) Hok) as Hb. rewrite Hp in Hb. simpl in Hb.
      by destruct (rest m1 d i q), (rest m1 d (i + 1) q). }
    step (eq_refl (ret tt s)).
    destruct (IH (i + 1) s fl) as (s' & fl' & Hr' & Hi' & Hu' & Hc' & Hrf' & Hfl'); [lia|lia| |done|done|done|].
    + eapply vm_inv_ext; [|exact Hi]. intros q. cbv beta. by rewrite Hstep.
    + exists s', fl'. split; [done|]. split; [done|]. split; [done|]. split; [done|]. split; [done|].
      intros p Hpp. apply Hfl'. by rewrite <- Hstep.
Qed.

Lemma ustep_sub ex ds ds' d s s' : (forall d', d' ∈ ds' -> d' ∈ ds) -> ustep ex ds d s s' -> ustep ex ds' d s s'.
Proof. intros Hsub []. split; try done. intros d' n Hd'. by apply us_other0, Hsub. Qed.

Lemma in_ptb_rest m d q : pt_ok kend m d -> b2n (in_ptb m d q) = (b2n (q =? d)%Z + b2n (rest m d 0 q))%nat.
Proof.
  intros Hok. change (in_ptb m d q) with ((q =? d) || rest m d 0 q).
  destruct (Z.eqb_spec q d) as [->|]; [|done]. destruct (rest m d 0 d) eqn:Hr; [|done].
  apply rest_spec in Hr as (j & Hj & Hp & He); [|lia]. by destruct (pt_tab _ _ _ Hok j Hj Hp) as [_ []].
Qed.

Lemma freevm_spec ex s fl ds d :
  vm_inv ex s fl (d :: ds) -> settled ex (d :: ds) -> LkKmem ∉ m_held s ->
  exists s' fl', freevm kend d s = Ret tt s' /\ vm_inv ex s' fl' ds /\ ustep ex ds d s s' /\ m_cr3 s' = m_cr3 s /\
    (forall p, p ∈ fl \/ in_pt (m_mem s) d p -> p ∈ fl').
Proof.
  intros Hi Hse Hh. assert (Hd : d ∈ d :: ds) by left.
  assert (Hdp : page_ok kend d) by (apply (pt_dir _ _ _ (vi_ok _ _ _ _ _ _ Hi d Hd))).
  assert (Hdds : d ∉ ds) by (by apply NoDup_cons, (vi_nodup _ _ _ _ _ _ Hi)).
  unfold freevm. destruct (Z.eqb_spec d 0) as [H0|_].
  { apply (page_ok_lo kend Hkend) in Hdp. unfold KERNBASE in *. lia. }
  destruct (deallocuvm_spec ex (d :: ds) d s fl KERNBASE 0 Hi Hse Hh Hd) as (s1 & fl1 & Hr1 & Hi1 & Hu1 & Hc1 & Hf1 & Hcr1 & Hin1);
    [unfold KERNBASE; lia|lia|right; done|]. step Hr1.
  assert (Hunm : forall n, 0 <= n < UPAGES -> mapped (m_mem s1) d n = false).
  { intros n Hn. rewrite (mapped_cleared _ _ _ _ _ Hc1 Hn), (proj2 (in_span_spec _ _ _)); [apply andb_false_r|].
    change (PGROUNDUP 0) with 0. unfold UPAGES, KERNBASE in *. lia. }
  assert (Hok1 : pt_ok kend (m_mem s1) d) by (by eapply (vi_ok _ _ _ _ _ _ Hi1)).
  pose proof (vm_dropdir kend managed ex s1 fl1 ds d Hi1 Hunm) as Hi2.
  destruct (freevm_loop_spec ex ds d (m_mem s1) Hdds Hok1 (Z.to_nat NPDENTRIES) 0 s1 fl1)
    as (s2 & fl2 & Hr2 & Hi3 & Hu2 & Hcr2 & Hrf2 & Hf2); [done|done| |by rewrite (us_held _ _ _ _ _ Hu1)|done| |].
  { eapply vm_inv_ext; [|exact Hi2]. intros q. cbv beta. rewrite in_ptb_rest by done. lia. }
  { intros p Hp. destruct (vi_pt _ _ _ _ _ _ Hi1 d p Hd Hp) as (_ & Hr & _ & He). rewrite refs_cons in Hr. split; [lia|done]. }
  step Hr2.
  assert (Hexd : ex d = 0) by (apply (vi_pt _ _ _ _ _ _ Hi1 d d Hd); by left).
  destruct (kfree_held _ s2 fl2 ds d Hi3) as (s3 & Hr3 & Hi4 & Ha3 & Ho3 & Hh3 & Hl3 & Hc3);
    [by rewrite (us_held _ _ _ _ _ Hu2), (us_held _ _ _ _ _ Hu1)|done|cbv beta; rewrite Z.eqb_refl; simpl; lia|done|].
  exists s3, (d :: fl2). split; [done|]. split; [|split; [|split; [congruence|]]].
  - eapply vm_inv_ext; [|exact Hi4]. intros q. unfold upd.
    destruct (decide (q = d)) as [->|Hne]; [rewrite Z.eqb_refl|rewrite (proj2 (Z.eqb_neq q d) Hne)]; cbn [b2n]; lia.
  - eapply ustep_trans; [eapply (ustep_sub _ (d :: ds)); [by right|exact Hu1]|]. eapply ustep_trans; [exact Hu2|].
    split; [done|done|intros d' n Hd' _ Hn; by apply Ho3|]. apply (agree_mono _ _ _ _ Ha3). by intros p <-.
  - intros p Hp. destruct (decide (p = d)) as [->|Hne]; [by left|right]. apply Hf2. destruct Hp as [Hp|Hp]; [left; by apply Hf1|].
    right. apply Hin1 in Hp as [->|(j & Hj & Hp & ->)]; [done|]. apply rest_spec; [lia|]. by exists j.
Qed.

End Uvm.
