(* ===== verification/Kvm.v ===== *)
(** * The kernel part of an address space

    [setupkvm] under the copy-on-write invariant: the page directory it returns
    maps nothing below [KERNBASE] and, above it, exactly the four ranges of
    [kmap]; when memory runs out it gives back everything it took. *)

From S2P Require Import Prelude Mmu Mem Cstring Kalloc Vm PageTable Walk VmInv Uvm.

(** Number of bytes an entry of [kmap] maps, as [setupkvm] computes it. *)
Definition ksize (k : kmap_entry) : Z := u32 (phys_end k - phys_start k).

(** The entry [kmap] prescribes for an address, if any. *)
Fixpoint kpte (ks : list kmap_entry) (va : Z) : option Z :=
  match ks with
  | [] => None
  | k :: ks => if decide (virt k <= va < virt k + ksize k)
               then Some (u32 (range_pte (virt k) (phys_start k) (kperm k) va)) else kpte ks va
  end.

(** Ascending, page-aligned, non-empty ranges from [lo] on. *)
Fixpoint kmap_ok (lo : Z) (ks : list kmap_entry) : Prop :=
  match ks with
  | [] => True
  | k :: ks => lo <= virt k /\ virt k mod 4096 = 0 /\ 0 < ksize k /\ ksize k mod 4096 = 0 /\
      virt k + ksize k <= 2 ^ 32 /\ 0 <= phys_start k /\ phys_start k + ksize k <= 2 ^ 32 /\
      kmap_ok (virt k + ksize k) ks
  end.

Lemma kpte_lo lo ks va : kmap_ok lo ks -> va < lo -> kpte ks va = None.
Proof.
  revert lo. induction ks as [|k ks IH]; intros lo Hok Hva; [done|]. simpl in *.
  destruct Hok as (H1 & _ & H2 & _ & _ & _ & _ & H3). rewrite decide_False by lia. apply (IH _ H3). lia.
Qed.

Lemma kmap_kmap_ok kdata : KERNLINK < kdata < KERNBASE + PHYSTOP /\ kdata mod 4096 = 0 ->
  kmap_ok KERNBASE (kmap kdata).
Proof.
  intros [Hk Hal]. unfold KERNLINK, KERNBASE, EXTMEM, PHYSTOP in Hk.
  assert (Hv : V2P kdata = kdata - KERNBASE) by (apply V2P_eq; unfold KERNBASE; lia).
  assert (Hm : (kdata - KERNBASE) mod 4096 = 0).
  { unfold KERNBASE. replace (kdata - 2147483648) with (kdata + (-524288) * 4096) by lia. by rewrite Z.mod_add. }
  unfold kmap. cbn [kmap_ok virt phys_start]. unfold ksize. cbn [virt phys_start phys_end]. rewrite Hv.
  change (V2P KERNLINK) with EXTMEM. unfold KERNLINK, EXTMEM, PHYSTOP, DEVSPACE in *. unfold KERNBASE in *.
  rewrite !(u32_id (kdata - _ - _)), !(u32_id (_ - (kdata - _))) by lia.
  change (u32 (1048576 - 0)) with 1048576. change (u32 (0 - 4261412864)) with 33554432.
  Z.to_euclidean_division_equations; lia.
Qed.

(** The entries [kmap] prescribes, range by range. *)
Lemma kpte_kmap kdata va : KERNLINK < kdata < KERNBASE + PHYSTOP /\ kdata mod 4096 = 0 -> KERNBASE <= va < 2 ^ 32 ->
  default 0 (kpte (kmap kdata) va) =
    let pg := va / 4096 * 4096 in
    if va <? KERNLINK then Z.lor (Z.lor (pg - KERNBASE) PTE_W) PTE_P
    else if va <? kdata then Z.lor (Z.lor (pg - KERNBASE) 0) PTE_P
    else if va <? KERNBASE + PHYSTOP then Z.lor (Z.lor (pg - KERNBASE) PTE_W) PTE_P
    else if va <? DEVSPACE then 0 else Z.lor (Z.lor pg PTE_W) PTE_P.
Proof.
  intros [Hk Hal] Hva. cbv zeta. set (pg := va / 4096 * 4096). assert (Hpg : pg mod 4096 = 0) by (unfold pg; by apply Z.mod_mul).
  assert (Hin : pg <= va < pg + 4096) by (unfold pg; Z.to_euclidean_division_equations; lia).
  unfold kmap, kpte, ksize, range_pte. cbn [virt phys_start phys_end kperm]. fold pg.
  unfold KERNLINK, KERNBASE, EXTMEM, PHYSTOP, DEVSPACE in *.
  rewrite !V2P_eq by (unfold KERNBASE; lia). unfold KERNBASE.
  rewrite !(u32_id (kdata - _ - _)), !(u32_id (_ - (kdata - _))) by lia.
  change (u32 (0x100000 - 0)) with 0x100000. change (u32 (0 - 0xFE000000)) with 0x2000000.
  assert (Hent : forall a f, a mod 4096 = 0 -> 0 <= a -> a + 4096 <= 2 ^ 32 -> f = 0 \/ f = PTE_W ->
    u32 (Z.lor (Z.lor a f) PTE_P) = Z.lor (Z.lor a f) PTE_P).
  { intros a f Ha H0 H1 Hf. apply u32_id. rewrite <- Z.lor_assoc.
    destruct Hf as [->| ->]; rewrite lor_page by (done || (vm_compute; split; congruence));
      [change (Z.lor 0 PTE_P) with 1|change (Z.lor PTE_W PTE_P) with 3]; lia. }
  destruct (Z.ltb_spec va (2147483648 + 1048576)); [rewrite decide_True by lia; cbn [default from_option id];
    replace (0 + (pg - 2147483648)) with (pg - 2147483648) by lia;
    apply Hent; [|lia|lia|by right]; Z.to_euclidean_division_equations; lia|rewrite decide_False by lia].
  destruct (Z.ltb_spec va kdata); [rewrite decide_True by lia; cbn [default from_option id];
    match goal with |- u32 (Z.lor (Z.lor ?x _) _) = _ => replace x with (pg - 2147483648) by lia end;
    apply Hent; [|lia|lia|by left]; Z.to_euclidean_division_equations; lia|rewrite decide_False by lia].
  destruct (Z.ltb_spec va (2147483648 + 234881024)); [rewrite decide_True by lia; cbn [default from_option id];
    match goal with |- u32 (Z.lor (Z.lor ?x _) _) = _ => replace x with (pg - 2147483648) by lia end;
    apply Hent; [|lia|lia|by right]; Z.to_euclidean_division_equations; lia|rewrite decide_False by lia].
  destruct (Z.ltb_spec va 4261412864); [by rewrite decide_False by lia|rewrite decide_True by lia; cbn [default from_option id]].
  match goal with |- u32 (Z.lor (Z.lor ?x _) _) = _ => replace x with pg by lia end.
  apply Hent; [done|lia|Z.to_euclidean_division_equations; lia|by right].
Qed.

Section Kvm.
Context (kend : Z) (managed : Z -> Prop) (Hkend : KERNLINK <= kend <= KERNBASE + PHYSTOP).
Implicit Types (ex : Z -> Z) (s : machine) (fl ds : list Z).
Abbreviation vm_inv := (vm_inv kend managed).
Abbreviation ustep := (ustep kend).

Lemma upte_kernel m m' d : (forall va, 0 <= va < KERNBASE -> pv m' d va = pv m d va) ->
  forall n, 0 <= n < UPAGES -> upte m' d n = upte m d n.
Proof. intros Hs n Hn. apply Hs. unfold UPAGES, KERNBASE in *. lia. Qed.

Lemma setupkvm_loop_spec ex ds d ks : settled ex (d :: ds) -> forall lo s fl,
  vm_inv ex s fl (d :: ds) -> LkKmem ∉ m_held s -> KERNBASE <= lo -> kmap_ok lo ks ->
  (forall va, lo <= va < 2 ^ 32 -> has (pv (m_mem s) d va) PTE_P = false) ->
  (exists s' fl' new, setupkvm_loop kend d ks s = Ret d s' /\ vm_inv ex s' fl' (d :: ds) /\
    ustep ex (d :: ds) d s s' /\ m_cr3 s' = m_cr3 s /\ fl = new ++ fl' /\
    (length new + absent (m_mem s') d = absent (m_mem s) d)%nat /\
    forall va, 0 <= va < 2 ^ 32 -> pv (m_mem s') d va = default (pv (m_mem s) d va) (kpte ks va)) \/
  (exists s' fl', setupkvm_loop kend d ks s = Ret 0 s' /\ vm_inv ex s' fl' ds /\
    ustep ex ds d s s' /\ m_cr3 s' = m_cr3 s /\ (length fl < absent (m_mem s) d)%nat).
Proof.
  intros Hse. assert (Hd : d ∈ d :: ds) by left. induction ks as [|k ks IH]; intros lo s fl Hi Hh Hlo Hks Hnp.
  { left. exists s, fl, []. split; [done|]. split; [done|]. split; [apply ustep_refl|done]. }
  destruct Hks as (H1 & H2 & H3 & H4 & H5 & H6 & H7 & H8). cbn [setupkvm_loop]. fold (ksize k).
  assert (Hsz : ksize k = 4096 * Z.of_nat (Z.to_nat (ksize k / 4096 - 1)) + 4096)
    by (Z.to_euclidean_division_equations; lia).
  set (n := Z.to_nat (ksize k / 4096 - 1)) in *. unfold KERNBASE in *.
  destruct (mappages_spec kend Hkend d (kperm k) n (virt k) (phys_start k) s fl)
    as [(s1 & fl1 & new1 & Hr & Hst & Hmd)|(s1 & new1 & Hr & Hst & Hab & Hout)];
    [lia|done|lia|done|lia|by eapply vi_ok|by eapply vi_alloc|intros p Hp; by apply (vi_pt _ _ _ _ _ _ Hi d)|done| | |];
    [intros va Hva; apply Hnp; lia| |]; rewrite <- Hsz in Hr; step Hr.
  - rewrite <- Z.add_assoc, <- Hsz in Hmd.
    assert (Hk : forall n, 0 <= n < UPAGES -> upte (m_mem s1) d n = upte (m_mem s) d n).
    { apply upte_kernel. unfold KERNBASE. intros va Hva. rewrite (Hmd va), decide_False by lia. done. }
    assert (Hi1 : vm_inv ex s1 fl1 (d :: ds)) by (eapply vm_extend; [exact Hkend|exact Hi|apply Hse|done|exact Hst|done]).
    assert (Hu1 : ustep ex (d :: ds) d s s1) by (by eapply pt_ustep).
    cbn [Z.ltb]. change (0 <? 0) with false. cbv iota.
    destruct (IH (virt k + ksize k) s1 fl1) as [(s' & fl' & new & Hr' & Hi' & Hu' & Hc' & Hf' & Hab' & Hpv')|(s' & fl' & Hr' & Hi' & Hu' & Hc' & Hlen)];
      [done|by rewrite (us_held _ _ _ _ _ _ Hu1)|lia|done| | |].
    + intros va Hva. rewrite (Hmd va), decide_False by lia. apply Hnp. lia.
    + left. exists s', fl', (new1 ++ new). split; [done|]. split; [done|]. split; [by eapply ustep_trans|].
      split; [rewrite Hc'; exact (st_cr3 _ _ _ _ _ _ _ Hst)|]. split; [rewrite <- app_assoc, <- Hf'; exact (st_fl _ _ _ _ _ _ _ Hst)|].
      split; [pose proof (st_absent _ _ _ _ _ _ _ Hst); len|].
      intros va Hva. rewrite (Hpv' va Hva), (Hmd va Hva). cbn [kpte].
      case_decide; [|done]. by rewrite (kpte_lo _ _ va H8) by lia.
    + right. exists s', fl'. split; [done|]. split; [done|]. split; [|split; [rewrite Hc'; exact (st_cr3 _ _ _ _ _ _ _ Hst)|]].
      * eapply ustep_trans; [|exact Hu']. eapply ustep_sub; [|exact Hu1]. by right.
      * pose proof (st_absent _ _ _ _ _ _ _ Hst). pose proof (st_fl _ _ _ _ _ _ _ Hst) as Hfl. rewrite Hfl. len.
  - change (-1 <? 0) with true. cbv iota.
    assert (Hk : forall n, 0 <= n < UPAGES -> upte (m_mem s1) d n = upte (m_mem s) d n).
    { apply upte_kernel. unfold KERNBASE. intros va Hva. apply Hout; lia. }
    assert (Hi1 : vm_inv ex s1 [] (d :: ds)) by (eapply vm_extend; [exact Hkend|exact Hi|apply Hse|done|exact Hst|done]).
    assert (Hu1 : ustep ex (d :: ds) d s s1) by (by eapply pt_ustep).
    destruct (freevm_spec kend managed Hkend ex s1 [] ds d Hi1 Hse) as (s' & fl' & Hr' & Hi' & Hu' & Hc' & _);
      [by rewrite (us_held _ _ _ _ _ _ Hu1)|].
    right. exists s', fl'. split; [by step Hr'|]. split; [done|]. split; [|split; [rewrite Hc'; exact (st_cr3 _ _ _ _ _ _ _ Hst)|]].
    + eapply ustep_trans; [|exact Hu']. eapply ustep_sub; [|exact Hu1]. by right.
    + pose proof (st_absent _ _ _ _ _ _ _ Hst). pose proof (st_fl _ _ _ _ _ _ _ Hst) as Hfl. rewrite Hfl. len.
Qed.

(** Taking a page and zeroing it makes an empty page directory. *)
Lemma new_pgdir ex s fl ds d :
  vm_inv ex s (d :: fl) ds -> settled ex ds ->
  let s1 := set_m_mem (memset (m_mem s) d 0 PGSIZE) (kalloc_upd d s) in
  vm_inv ex s1 fl (d :: ds) /\ ustep ex ds d s s1 /\ (forall va, pv (m_mem s1) d va = 0) /\
  absent (m_mem s1) d = 1024%nat /\ d ∉ ds.
Proof.
  intros Hi Hse s1. pose proof (vi_alloc _ _ _ _ _ _ Hi) as Ha.
  assert (Hd : page_ok kend d) by (destruct Ha as [_ _ Hp _ _]; by inversion Hp).
  assert (Hdf : d ∉ fl) by (destruct Ha as [_ Hnd _ _ _]; by apply NoDup_cons in Hnd as [? _]).
  assert (Hin : d ∈ d :: fl) by left.
  destruct (free_unref _ _ _ _ _ _ d Hi Hin) as (Hr & Hex & Hnp); [apply Hse|].
  assert (Hds : d ∉ ds) by (intros Hdd; apply (Hnp d Hdd); by left).
  assert (Hag : agree (eq d) (m_mem s) (m_mem s1)) by (by apply agree_memset).
  assert (Hpt : forall d' p, d' ∈ ds -> in_pt (m_mem s) d' p -> same_on (m_mem s) (m_mem s1) p)
    by (intros d' p Hd'; by eapply (data_pt_same kend managed ex s (d :: fl) ds d)).
  assert (Hu : forall d' n, d' ∈ ds -> upte (m_mem s1) d' n = upte (m_mem s) d' n)
    by (intros d' n Hd'; apply pv_frame; by eauto).
  assert (Hz : forall i, 0 <= i < 1024 -> pde (m_mem s1) d i = 0).
  { intros i Hi'. apply ld32_memset_zero; unfold PGSIZE; lia. }
  destruct (zero_dir kend (m_mem s1) d Hd Hz) as (_ & _ & Hpv & Hab).
  split; [|split; [split; [done|done|..]|done]].
  - eapply vm_inv_ext; [|apply (vm_newdir kend managed (upd ex d 1) s1 fl ds d)]; try done.
    + intros q. unfold upd. case_decide; lia.
    + apply (vm_data kend managed _ (kalloc_upd d s) fl ds d); [by apply vm_kalloc|done|done|done|done].
    + intros d' Hd'. rewrite (in_pt_frame (m_mem s)) by eauto. by apply Hnp.
    + rewrite upd_eq. lia.
    + rewrite (refs_ext (m_mem s)); [done|]. intros d' n Hd' _. by apply Hu.
  - intros d' n Hd' _ Hn. split; [by apply Hu|]. intros Hm.
    apply (users_agree kend managed ex s (d :: fl) ds (eq d)); try done; [by intros p <-|]. intros p <-. by left.
  - apply (agree_mono _ _ _ _ Hag). by intros p <-.
Qed.

Context (kdata : Z) (Hkdata : KERNLINK < kdata < KERNBASE + PHYSTOP /\ kdata mod 4096 = 0).

Lemma setupkvm_spec ex s fl ds :
  vm_inv ex s fl ds -> settled ex ds -> (length ds < 1024)%nat -> LkKmem ∉ m_held s ->
  (exists d s' fl' new, setupkvm kend kdata s = Ret d s' /\ d <> 0 /\ d ∉ ds /\ vm_inv ex s' fl' (d :: ds) /\
    ustep ex ds d s s' /\ m_cr3 s' = m_cr3 s /\ fl = new ++ fl' /\
    (length new + absent (m_mem s') d = 1025)%nat /\
    forall va, 0 <= va < 2 ^ 32 -> pv (m_mem s') d va = default 0 (kpte (kmap kdata) va)) \/
  (exists s' fl', setupkvm kend kdata s = Ret 0 s' /\ vm_inv ex s' fl' ds /\
    (forall d, d ∉ ds -> ustep ex ds d s s') /\ m_cr3 s' = m_cr3 s /\ (length fl < 1025)%nat).
Proof.
  intros Hi Hse Hlen Hh. unfold setupkvm. destruct fl as [|d fl].
  { right. exists s, []. step (kalloc_empty kend s (vi_alloc _ _ _ _ _ _ Hi) Hh). simpl.
    split; [done|]. split; [done|]. split; [intros; apply ustep_refl|]. split; [done|]. lia. }
  step (kalloc_some kend Hkend s d fl (vi_alloc _ _ _ _ _ _ Hi) Hh).
  assert (Hd0 : d <> 0).
  { destruct (vi_alloc _ _ _ _ _ _ Hi) as [_ _ Hp _ _]. inversion Hp as [|?? Hd _]; subst.
    apply (page_ok_lo kend Hkend) in Hd. unfold KERNBASE in *. lia. }
  rewrite (proj2 (Z.eqb_neq d 0) Hd0).
  destruct (new_pgdir ex s fl ds d Hi Hse) as (Hi1 & Hu1 & Hpv1 & Hab1 & Hds).
  set (s1 := set_m_mem (memset (m_mem s) d 0 PGSIZE) (kalloc_upd d s)) in *.
  assert (Hm : mod_mem (fun m => memset m d 0 PGSIZE) (kalloc_upd d s) = Ret tt s1) by done. step Hm.
  change (DEVSPACE <? P2V PHYSTOP) with false. cbv iota.
  assert (Hse1 : settled ex (d :: ds)) by (split; [simpl; lia|apply Hse]).
  destruct (setupkvm_loop_spec ex ds d (kmap kdata) Hse1 KERNBASE s1 fl)
    as [(s' & fl' & new & Hr & Hi' & Hu' & Hc' & Hf' & Hab' & Hpv')|(s' & fl' & Hr & Hi' & Hu' & Hc' & Hl)];
    [done|done|lia|by apply kmap_kmap_ok|intros va _; by rewrite Hpv1| |].
  - left. exists d, s', fl', (d :: new). rewrite Hr. split; [done|]. split; [done|]. split; [done|]. split; [done|].
    split; [eapply ustep_trans; [exact Hu1|]; eapply ustep_sub; [|exact Hu']; by right|]. split; [done|].
    split; [by rewrite Hf'|]. split; [simpl; lia|]. intros va Hva. by rewrite Hpv', Hpv1.
  - right. exists s', fl'. rewrite Hr. split; [done|]. split; [done|]. split; [|split; [done|simpl; lia]].
    intros d' Hd'. destruct (ustep_trans _ _ _ _ _ _ _ Hu1 Hu') as [E1 E2 E3 E4]. split; [done|done| |done].
    intros d'' n Hd'' _. apply E3; [done|]. intros ->. done.
Qed.

End Kvm.
