(* ===== verification/Cow.v ===== *)
(** * Copy-on-write fork and its page faults

    [copyuvm] shares every page of the parent with the child read-only, and
    [pagefault] gives a process that writes to a shared page its own copy.  The
    theorems say that both keep the copy-on-write invariant and that no process
    can see them happen: the bytes every address space reads stay the same. *)

From S2P Require Import Prelude Mmu Mem Cstring Kalloc Vm PageTable Walk VmInv Uvm Kvm.

(** The entry after [*pte &= ~PTE_W]. *)
Definition clearW (e : Z) : Z := Z.land e (Z.lnot PTE_W).

Lemma clearW_eq e : 0 <= e < 2 ^ 32 -> clearW e = PTE_ADDR e + Z.land (PTE_FLAGS e) (Z.lnot PTE_W).
Proof. intros He. apply clear_flag; [done|vm_compute; split; congruence]. Qed.

Lemma clearW_facts e : 0 <= e < 2 ^ 32 ->
  0 <= clearW e < 2 ^ 32 /\ tgt (clearW e) = tgt e /\ has (clearW e) PTE_P = has e PTE_P /\
  has (clearW e) PTE_W = false /\ has (clearW e) PTE_U = has e PTE_U.
Proof.
  intros He. destruct (PTE_split e He) as (Heq & Hal & Hfl & Hlo & Hhi).
  assert (Hb : 0 <= Z.land (PTE_FLAGS e) (Z.lnot PTE_W) < 4096) by (apply (land_bound _ _ 12); lia).
  split; [|split; [|split; [|split]]].
  - rewrite clearW_eq by done. lia.
  - unfold tgt. rewrite clearW_eq by done. by rewrite PTE_ADDR_add by (done || lia).
  - unfold clearW. rewrite !has_P. change PTE_W with (2 ^ 1). rewrite testbit_clear by lia. by rewrite andb_true_r.
  - unfold clearW. rewrite has_W. change PTE_W with (2 ^ 1). rewrite testbit_clear by lia. by rewrite andb_false_r.
  - unfold clearW. rewrite !has_U. change PTE_W with (2 ^ 1). rewrite testbit_clear by lia. by rewrite andb_true_r.
Qed.

(** The entry [mappages] builds from the parts of a present entry is that entry. *)
Lemma remake_pte e : 0 <= e < 2 ^ 32 -> has e PTE_P = true -> Z.lor (Z.lor (PTE_ADDR e) (PTE_FLAGS e)) PTE_P = e.
Proof.
  intros He Hp. destruct (PTE_split e He) as (Heq & Hal & Hfl & Hlo & Hhi).
  rewrite (lor_page (PTE_ADDR e)), <- Heq by done. apply Z.bits_inj'. intros n Hn.
  change PTE_P with (2 ^ 0). rewrite testbit_set by lia. rewrite has_P in Hp.
  destruct (Z.eqb_spec 0 n) as [<-|]; [by rewrite Hp|by rewrite orb_false_r].
Qed.

Lemma upte_bound m d n : 0 <= upte m d n < 2 ^ 32.
Proof. unfold upte, pv. destruct (pres _ _ _); [apply ld32_bound|lia]. Qed.

Lemma hits_clearW e q : 0 <= e < 2 ^ 32 -> hits (clearW e) q = hits e q.
Proof. intros He. destruct (clearW_facts e He) as (_ & Ht & Hp & _). unfold hits. by rewrite Ht, Hp. Qed.

(** The entry after [*pte |= PTE_W]. *)
Lemma setW_facts e : 0 <= e < 2 ^ 32 ->
  0 <= Z.lor e PTE_W < 2 ^ 32 /\ tgt (Z.lor e PTE_W) = tgt e /\ has (Z.lor e PTE_W) PTE_P = has e PTE_P /\
  has (Z.lor e PTE_W) PTE_W = true /\ has (Z.lor e PTE_W) PTE_U = has e PTE_U.
Proof.
  intros He. destruct (PTE_split e He) as (Heq & Hal & Hfl & Hlo & Hhi).
  assert (Hb : 0 <= Z.lor (PTE_FLAGS e) PTE_W < 4096).
  { split; [apply Z.lor_nonneg; split; [lia|done]|]. change 4096 with (2 ^ 12).
    destruct (decide (Z.lor (PTE_FLAGS e) PTE_W = 0)) as [->|]; [lia|].
    apply Z.log2_lt_pow2; [assert (0 <= Z.lor (PTE_FLAGS e) PTE_W) by (apply Z.lor_nonneg; split; [lia|done]); lia|].
    rewrite Z.log2_lor by (done || lia). apply Z.max_lub_lt; [|done].
    destruct (decide (PTE_FLAGS e = 0)) as [->|]; [done|]. apply Z.log2_lt_pow2; lia. }
  assert (Hw : Z.lor e PTE_W = PTE_ADDR e + Z.lor (PTE_FLAGS e) PTE_W).
  { rewrite <- lor_page by done. rewrite Z.lor_assoc, (lor_page (PTE_ADDR e)), <- Heq by done. done. }
  split; [lia|]. split; [unfold tgt; rewrite Hw; by rewrite PTE_ADDR_add by (done || lia)|].
  rewrite !has_P, !has_W, !has_U. change PTE_W with (2 ^ 1). rewrite !testbit_set by lia.
  split; [by rewrite orb_false_r|]. split; [by rewrite orb_true_r|by rewrite orb_false_r].
Qed.

(** The entry [pagefault] writes for a fresh copy at [v]. *)
Definition fresh_pte (v : Z) : Z := Z.lor (Z.lor (Z.lor (V2P v) PTE_P) PTE_U) PTE_W.

Lemma fresh_pte_facts kend v : KERNLINK <= kend <= KERNBASE + PHYSTOP -> page_ok kend v ->
  0 <= fresh_pte v < 2 ^ 32 /\ tgt (fresh_pte v) = v /\ has (fresh_pte v) PTE_P = true /\
  has (fresh_pte v) PTE_W = true /\ has (fresh_pte v) PTE_U = true.
Proof.
  intros Hk Hv. destruct (page_ok_V2P kend Hk v Hv) as (Hal & Hb & _). unfold PHYSTOP in Hb.
  assert (fresh_pte v = V2P v + 7) as ->.
  { unfold fresh_pte. rewrite <- !Z.lor_assoc. by rewrite lor_page by (done || (vm_compute; split; congruence)). }
  split; [lia|]. split; [by apply (entry_page kend Hk v 7)|].
  rewrite has_P, has_W, has_U, !testbit_low by (done || lia). done.
Qed.

(** Pages of an address space of [sz] bytes. *)
Definition npages (sz : Z) : Z := (sz + 4095) / 4096.

Lemma npages_range sz : 0 <= sz <= KERNBASE -> 0 <= npages sz <= UPAGES.
Proof. unfold npages, KERNBASE, UPAGES. intros. Z.to_euclidean_division_equations; lia. Qed.

Section Cow.
Context (kend : Z) (managed : Z -> Prop) (Hkend : KERNLINK <= kend <= KERNBASE + PHYSTOP).
Implicit Types (ex : Z -> Z) (s : machine) (fl ds : list Z).
Abbreviation vm_inv := (vm_inv kend managed).
Abbreviation ustep := (ustep kend).

(** What a process cannot notice: its entries name the same pages, at most losing
    the right to write, and the pages keep their contents. *)
Record cow_step ex ds s s' : Prop := {
  cs_held : m_held s' = m_held s;
  cs_lock : use_lock (m_kmem s') = use_lock (m_kmem s);
  cs_entry : forall d n, d ∈ ds -> 0 <= n < UPAGES ->
    (upte (m_mem s') d n = upte (m_mem s) d n \/ upte (m_mem s') d n = clearW (upte (m_mem s) d n)) /\
    (mapped (m_mem s) d n = true -> same_on (m_mem s) (m_mem s') (tgt (upte (m_mem s) d n)));
  cs_kernel : agree (fun p => page_ok kend p /\ ex p = 0) (m_mem s) (m_mem s')
}.

Lemma cow_step_tgt ex ds s s' d n : cow_step ex ds s s' -> d ∈ ds -> 0 <= n < UPAGES ->
  tgt (upte (m_mem s') d n) = tgt (upte (m_mem s) d n) /\ mapped (m_mem s') d n = mapped (m_mem s) d n.
Proof.
  intros Hst Hd Hn. pose proof (clearW_facts _ (upte_bound (m_mem s) d n)) as (_ & Ht & Hp & _).
  destruct (cs_entry _ _ _ _ Hst d n Hd Hn) as [[E|E] _]; unfold mapped; by rewrite E, ?Ht, ?Hp.
Qed.

Lemma clearW_idem e : clearW (clearW e) = clearW e.
Proof. unfold clearW. rewrite <- Z.land_assoc. by rewrite Z.land_diag. Qed.

Lemma cow_step_trans ex ds s1 s2 s3 : cow_step ex ds s1 s2 -> cow_step ex ds s2 s3 -> cow_step ex ds s1 s3.
Proof.
  intros H1 H2. split.
  - rewrite (cs_held _ _ _ _ H2). apply H1.
  - rewrite (cs_lock _ _ _ _ H2). apply H1.
  - intros d n Hd Hn. destruct (cow_step_tgt _ _ _ _ d n H1 Hd Hn) as [Ht Hm].
    destruct (cs_entry _ _ _ _ H1 d n Hd Hn) as [E1 S1], (cs_entry _ _ _ _ H2 d n Hd Hn) as [E2 S2]. split.
    + destruct E1 as [E1|E1], E2 as [E2|E2]; rewrite E2, E1, ?clearW_idem; auto.
    + intros Hmp. eapply same_on_trans; [by apply S1|]. rewrite <- Ht. apply S2. by rewrite Hm.
  - eapply agree_trans; [apply H1|apply H2].
Qed.

Lemma ustep_cow ex ds d s s' : ustep ex ds d s s' -> d ∉ ds -> cow_step ex ds s s'.
Proof.
  intros [H1 H2 H3 H4] Hd. split; [done|done| |done]. intros d' n Hd' Hn.
  destruct (H3 d' n Hd') as [E S]; [intros ->; done|done|]. split; [by left|done].
Qed.

Lemma cow_uread ex ds s s' d va : cow_step ex ds s s' -> d ∈ ds -> 0 <= va < KERNBASE ->
  uread (m_mem s') d va = uread (m_mem s) d va.
Proof.
  intros Hst Hd Hva. pose proof (upage_of_va va Hva) as Hn.
  destruct (cow_step_tgt _ _ _ _ d _ Hst Hd Hn) as [Ht Hm]. unfold uread. rewrite Hm, Ht.
  destruct (mapped (m_mem s) d (va / 4096)) eqn:Hmp; [|done]. f_equal.
  apply (cs_entry _ _ _ _ Hst d _ Hd Hn); [done|]. pose proof (Z.mod_pos_bound va 4096). lia.
Qed.

(** ** Sharing one page *)

(** Taking the right to write away from an entry. *)
Lemma protect_page ex s fl ds d n :
  vm_inv ex s fl ds -> settled ex ds -> d ∈ ds -> 0 <= n < UPAGES -> mapped (m_mem s) d n = true ->
  let s1 := put_pte d (n * 4096) (clearW (upte (m_mem s) d n)) s in
  vm_inv ex s1 fl ds /\ cow_step ex ds s s1 /\
  (forall d', d' ∈ ds -> d' <> d -> absent (m_mem s1) d' = absent (m_mem s) d') /\
  (forall d' n', d' ∈ ds -> 0 <= n' < UPAGES -> upte (m_mem s1) d' n' =
    if decide ((d', n') = (d, n)) then clearW (upte (m_mem s) d n) else upte (m_mem s) d' n').
Proof.
  intros Hi Hse Hd Hn Hm s1. pose proof (upte_bound (m_mem s) d n) as Hb.
  destruct (clearW_facts _ Hb) as (Hb' & Ht & HP & HW & _).
  assert (Hp : pres (m_mem s) d (PDX (n * 4096)) = true).
  { apply (pres_of_pv _ d (n * 4096)). intros H0. unfold mapped, upte in Hm. by rewrite H0 in Hm. }
  destruct (put_pte_frame _ _ _ _ _ _ d n _ Hi Hd Hn Hp Hb') as (_ & _ & Hu). fold s1 in Hu.
  destruct (mapped_page _ _ _ _ _ _ _ _ Hi (fun q => proj1 (se_ex _ _ Hse q)) Hd Hn Hm) as (Hq & _ & Hnp & _).
  assert (Hag : agree (in_pt (m_mem s) d) (m_mem s) (m_mem s1)).
  { apply agree_st32; [|apply PTX_bound]. right. exists (PDX (n * 4096)). split; [apply PDX_bound|done]. }
  assert (Hok : pt_ok kend (m_mem s) d) by (by eapply vi_ok).
  split; [|split; [split; [done|done|..]|split; [|done]]].
  - eapply vm_inv_ext; [|apply (vm_put kend managed Hkend ex s fl ds d n _ Hi Hd Hn Hp Hb')].
    + intros q. cbv beta. rewrite hits_clearW by done. lia.
    + rewrite Ht. done.
    + by rewrite HW.
    + rewrite Ht, (hits_self _ Hm), bool_decide_eq_true_2 by done. done.
  - intros d' n' Hd' Hn'. split.
    + rewrite Hu by done. case_decide as He; [injection He as -> ->; by right|by left].
    + intros Hm'. apply (users_agree kend managed ex s fl ds (in_pt (m_mem s) d)); try done.
      * intros p Hpt. by eapply in_pt_page.
      * intros p Hpt. right. left. by exists d.
  - apply (agree_mono _ _ _ _ Hag). intros p Hpt. split; [by eapply in_pt_page|]. by apply (vi_pt _ _ _ _ _ _ Hi d).
  - intros d' Hd' Hne. apply absent_frame. by eapply put_pte_other.
Qed.

(** Mapping a page that no writable entry names into another address space: the
    kernel owes the page one reference afterwards. *)
Lemma map_page ex s fl ds c n x pa perm :
  vm_inv ex s fl ds -> settled ex ds -> LkKmem ∉ m_held s -> c ∈ ds -> 0 <= n < UPAGES ->
  mapped (m_mem s) c n = false -> Z.lor (Z.lor pa perm) PTE_P = x -> 0 <= x < 2 ^ 32 -> has x PTE_P = true ->
  page_ok kend (tgt x) -> not_pt (m_mem s) ds (tgt x) -> tgt x ∉ fl ->
  (has x PTE_W = true -> refs (m_mem s) ds (tgt x) = 0%nat) ->
  (forall d' n', d' ∈ ds -> 0 <= n' < UPAGES -> writable (m_mem s) d' n' = true -> tgt (upte (m_mem s) d' n') <> tgt x) ->
  (mappages c (n * 4096) PGSIZE pa perm s = Ret (-1) s /\ fl = [] /\ (0 < absent (m_mem s) c)%nat) \/
  exists s' fl' new, mappages c (n * 4096) PGSIZE pa perm s = Ret 0 s' /\
    vm_inv (upd ex (tgt x) (-1)) s' fl' ds /\ ustep ex ds c s s' /\ m_cr3 s' = m_cr3 s /\
    fl = new ++ fl' /\ (length new + absent (m_mem s') c = absent (m_mem s) c)%nat /\
    (forall q, q ∉ fl -> page_ok kend q -> refcount s' (pidx q) = refcount s (pidx q)) /\
    not_pt (m_mem s') ds (tgt x) /\
    (forall n', 0 <= n' < UPAGES -> upte (m_mem s') c n' = if decide (n = n') then x else upte (m_mem s) c n') /\
    (forall n', 0 <= n' < UPAGES -> mapped (m_mem s) c n' = true -> same_on (m_mem s) (m_mem s') (tgt (upte (m_mem s) c n'))).
Proof.
  intros Hi Hse Hh Hc Hn Hm Hx Hxb HP Hq Hnp Hqf Hone Hcow. pose proof (upage_range n Hn) as Hva.
  assert (Hok : pt_ok kend (m_mem s) c) by (by eapply vi_ok).
  destruct (mappages_page kend Hkend c (n * 4096) pa perm s fl)
    as [(Hr & Hfl & Hp)|(s1 & fl1 & new & Hst & Hp & Hpv & Hr)];
    [done|by rewrite Z.mod_mul|done|by eapply vi_alloc|intros p Hp; by apply (vi_pt _ _ _ _ _ _ Hi c)|done|done| |].
  { left. split; [done|]. split; [done|]. apply (absent_pos _ _ (PDX (n * 4096))); [apply PDX_bound|done]. }
  right. rewrite Hx in Hr.
  assert (Hu1 : forall n', 0 <= n' < UPAGES -> upte (m_mem s1) c n' = upte (m_mem s) c n')
    by (intros n' Hn'; by apply Hpv, upage_range).
  assert (Hi1 : vm_inv ex s1 fl1 ds) by (eapply vm_extend; [exact Hkend|exact Hi|apply Hse|done|exact Hst|done]).
  assert (Hs1 : ustep ex ds c s s1) by (by eapply pt_ustep).
  assert (Hall : forall d n', d ∈ ds -> 0 <= n' < UPAGES -> upte (m_mem s1) d n' = upte (m_mem s) d n').
  { intros d n' Hd Hn'. destruct (decide (d = c)) as [->|Hne]; [by apply Hu1|]. by apply (us_other _ _ _ _ _ _ Hs1). }
  assert (Hrefs : forall q, refs (m_mem s1) ds q = refs (m_mem s) ds q) by (intros q; by apply refs_ext).
  assert (Hnp1 : not_pt (m_mem s1) ds (tgt x)).
  { intros d Hd Hin. destruct (decide (d = c)) as [->|Hne].
    - apply (st_in _ _ _ _ _ _ _ Hst) in Hin as [Hin|Hin]; [by apply (Hnp c)|]. apply Hqf.
      rewrite (st_fl _ _ _ _ _ _ _ Hst). apply elem_of_app. by left.
    - rewrite (in_pt_frame (m_mem s)) in Hin; [by apply (Hnp d)|].
      apply (pt_step_other kend Hkend c s s1 fl fl1 new); [done|by eapply (vi_ok _ _ _ _ _ _ Hi)| |].
      + intros p Hpt. by apply (vi_pt _ _ _ _ _ _ Hi d).
      + intros p Hpt Hpc. apply Hne. by eapply (vi_disj _ _ _ _ _ _ Hi). }
  destruct (put_pte_frame _ _ _ _ _ _ c n x Hi1 Hc Hn Hp Hxb) as (_ & Hin2 & Hu2).
  assert (Hst2 := put_pte_step kend Hkend c (n * 4096) x s1 fl1 (st_ok _ _ _ _ _ _ _ Hst) (st_inv _ _ _ _ _ _ _ Hst)
    (fun p Hp' => proj1 (vi_pt _ _ _ _ _ _ Hi1 c p Hc Hp')) Hp).
  set (s' := put_pte c (n * 4096) x s1) in *. exists s', fl1, new. split; [done|].
  split; [|split; [eapply ustep_trans; [exact Hs1|by eapply pt_ustep]|]].
  { eapply vm_inv_ext; [|apply (vm_put kend managed Hkend ex s1 fl1 ds c n x Hi1 Hc Hn Hp Hxb)].
    - intros q. cbv beta. rewrite Hall, (hits_self _ HP) by done. unfold hits at 1. unfold mapped in Hm. rewrite Hm.
      unfold upd. repeat case_decide; case_bool_decide; cbn [andb b2n]; lia || done.
    - done.
    - intros _ HW. rewrite Hrefs, Hone, Hall by done. unfold hits. unfold mapped in Hm. by rewrite Hm.
    - intros _ _ d' n' Hd' Hn'. unfold writable, mapped. rewrite Hall by done. by apply Hcow. }
  split; [exact (st_cr3 _ _ _ _ _ _ _ Hst)|]. split; [exact (st_fl _ _ _ _ _ _ _ Hst)|].
  split; [pose proof (st_absent _ _ _ _ _ _ _ Hst); pose proof (st_absent _ _ _ _ _ _ _ Hst2); simpl in *; lia|].
  split; [|split; [|split]].
  - intros q Hqn Hqp. change (refcount s' (pidx q)) with (refcount s1 (pidx q)).
    rewrite (st_ref _ _ _ _ _ _ _ Hst) by done. rewrite decide_False; [done|]. intros Hin. apply Hqn.
    rewrite (st_fl _ _ _ _ _ _ _ Hst). apply elem_of_app. by left.
  - intros d Hd. rewrite Hin2 by done. by apply Hnp1.
  - intros n' Hn'. rewrite Hu2, Hu1 by done. repeat case_decide; congruence.
  - intros n' Hn' Hm'. apply (users_agree kend managed ex s fl ds (in_pt (m_mem s1) c)); try done.
    + eapply agree_trans; [exact (st_agree _ _ _ _ _ _ _ Hst)|]. apply agree_st32; [|apply PTX_bound].
      right. exists (PDX (n * 4096)). split; [apply PDX_bound|done].
    + intros p Hpt. eapply in_pt_page; [exact (st_ok _ _ _ _ _ _ _ Hst)|done].
    + intros p [Hpt|Hpt]%(st_in _ _ _ _ _ _ _ Hst); [right; left; by exists c|left].
      rewrite (st_fl _ _ _ _ _ _ _ Hst). apply elem_of_app. by left.
Qed.
Lemma V2P_tgt e : 0 <= e < 2 ^ 32 -> V2P (tgt e) = PTE_ADDR e.
Proof. intros He. destruct (PTE_split e He) as (_ & _ & _ & Hlo & Hhi). apply V2P_P2V. lia. Qed.

(** One iteration of [copyuvm_loop], with what follows it. *)
Definition share_iter (p c i : Z) (k : M machine bool) : M machine bool :=
  pte <- walkpgdir p i false ;;
  if pte =? 0 then panic "copyuvm: pte should exist" else
  e <- load pte ;;
  if negb (has e PTE_P) then panic "copyuvm: page not present" else
  store pte (Z.land e (Z.lnot PTE_W)) ;;;
  e <- load pte ;;
  let pa := PTE_ADDR e in
  let flags := PTE_FLAGS e in
  r <- mappages c i PGSIZE pa flags ;;
  if r <? 0 then ret false else
  incrementReferenceCount kend pa ;;; k.

Lemma share_iter_run p c n s k :
  pt_ok kend (m_mem s) p -> 0 <= n < UPAGES -> mapped (m_mem s) p n = true ->
  let e' := clearW (upte (m_mem s) p n) in
  share_iter p c (n * 4096) k s =
  (r <- mappages c (n * 4096) PGSIZE (PTE_ADDR e') (PTE_FLAGS e') ;;
   if r <? 0 then ret false else incrementReferenceCount kend (PTE_ADDR e') ;;; k)
    (put_pte p (n * 4096) e' s).
Proof.
  intros Hok Hn Hm e'. pose proof (clearW_facts _ (upte_bound (m_mem s) p n)) as (Hb & _ & _ & _).
  assert (Hp : pres (m_mem s) p (PDX (n * 4096)) = true).
  { apply (pres_of_pv _ p (n * 4096)). intros H0. unfold mapped, upte in Hm. by rewrite H0 in Hm. }
  unfold share_iter. step (walkpgdir_present p (n * 4096) false s Hp). rewrite (slot_nonzero kend Hkend) by done.
  step (load_slot p (n * 4096) s Hp). unfold mapped in Hm. fold (upte (m_mem s) p n). rewrite Hm. cbn [negb].
  fold (clearW (upte (m_mem s) p n)). fold e'.
  assert (Hs : store (slot (m_mem s) p (n * 4096)) e' s = Ret tt (put_pte p (n * 4096) e' s)) by done. step Hs.
  assert (Hl : load (slot (m_mem s) p (n * 4096)) (put_pte p (n * 4096) e' s) = Ret e' (put_pte p (n * 4096) e' s)).
  { unfold load, gets, put_pte; cbn [m_mem set_m_mem]. by rewrite ld32_st32_eq, u32_id. }
  by step Hl.
Qed.

Lemma share_page ex s fl ds p c n :
  vm_inv ex s fl (c :: ds) -> settled ex (c :: ds) -> LkKmem ∉ m_held s -> p ∈ ds -> c ∉ ds -> 0 <= n < UPAGES ->
  mapped (m_mem s) p n = true -> mapped (m_mem s) c n = false ->
  (exists s', (forall k, share_iter p c (n * 4096) k s = Ret false s') /\ vm_inv ex s' fl (c :: ds) /\
    cow_step ex ds s s' /\ m_cr3 s' = m_cr3 s /\ fl = [] /\ (0 < absent (m_mem s) c)%nat) \/
  (exists s' fl' new, (forall k, share_iter p c (n * 4096) k s = k s') /\ vm_inv ex s' fl' (c :: ds) /\
    cow_step ex ds s s' /\ m_cr3 s' = m_cr3 s /\ fl = new ++ fl' /\
    (length new + absent (m_mem s') c = absent (m_mem s) c)%nat /\
    (forall n', 0 <= n' < UPAGES -> upte (m_mem s') p n' =
      if decide (n = n') then clearW (upte (m_mem s) p n) else upte (m_mem s) p n') /\
    (forall n', 0 <= n' < UPAGES -> upte (m_mem s') c n' =
      if decide (n = n') then clearW (upte (m_mem s) p n) else upte (m_mem s) c n')).
Proof.
  intros Hi Hse Hh Hp Hcd Hn Hm Hmc. assert (Hp' : p ∈ c :: ds) by (by right). assert (Hc : c ∈ c :: ds) by left.
  assert (Hpc : p <> c) by (intros ->; done).
  assert (Hrun := fun k => share_iter_run p c n s k (vi_ok _ _ _ _ _ _ Hi p Hp') Hn Hm). cbv zeta in Hrun.
  destruct (protect_page ex s fl (c :: ds) p n Hi Hse Hp' Hn Hm) as (Hi1 & Hs1 & Hab1 & Hu1).
  pose proof (clearW_facts _ (upte_bound (m_mem s) p n)) as (Hb & Ht & HP & HW & _).
  set (e' := clearW (upte (m_mem s) p n)) in *. set (s1 := put_pte p (n * 4096) e' s) in *.
  assert (Hm1 : mapped (m_mem s1) p n = true) by (unfold mapped; by rewrite Hu1, decide_True, HP).
  assert (He1 : upte (m_mem s1) p n = e') by (by rewrite Hu1, decide_True).
  assert (Hse0 : forall q, 0 <= ex q) by (intros q; apply Hse).
  destruct (mapped_page _ _ _ _ _ _ _ _ Hi1 Hse0 Hp' Hn Hm1) as (Hq & Hqf & Hnp & Hrc). rewrite He1 in Hq, Hqf, Hnp, Hrc.
  assert (Hs1' : cow_step ex ds s s1) by (destruct Hs1 as [A B C D]; split; try done; intros d' n' Hd'; apply C; by right).
  destruct (map_page ex s1 fl (c :: ds) c n e' (PTE_ADDR e') (PTE_FLAGS e'))
    as [(Hr & Hfl & Hab)|(s2 & fl2 & new & Hr & Hi2 & Hs2 & Hc2 & Hf2 & Hab2 & Href2 & Hnp2 & Hu2 & _)];
    try done.
  { unfold mapped. rewrite Hu1, decide_False by (done || congruence). done. }
  { apply remake_pte; [done|]. by rewrite HP. }
  { by rewrite HP. }
  { by rewrite HW. }
  { intros d' n' Hd' Hn' Hw Heq. assert (Hw1 := vi_cow _ _ _ _ _ _ Hi1 d' n' Hd' Hn' Hw).
    assert ((d', n') = (p, n)) as [= -> ->].
    { apply (refs_one (m_mem s1) (c :: ds)); try done; [by eapply (vi_nodup _ _ _ _ _ _ Hi)|by apply andb_true_iff in Hw as [? _]|].
      rewrite Heq, (hits_self _ Hm1), He1. by apply bool_decide_eq_true. }
    apply andb_true_iff in Hw as [_ Hw]. rewrite He1, HW in Hw. done. }
  - left. exists s1. split; [intros k; rewrite Hrun; by step Hr|]. split; [done|]. split; [done|]. split; [done|].
    split; [done|]. by rewrite <- Hab1.
  - right. assert (Hh2 : LkKmem ∉ m_held s2) by (by rewrite (us_held _ _ _ _ _ _ Hs2)).
    assert (Hqf2 : tgt e' ∉ fl2) by (intros Hin; apply Hqf; rewrite Hf2; apply elem_of_app; by right).
    assert (Hrc2 : refcount s2 (pidx (tgt e')) = refcount s1 (pidx (tgt e'))) by (by apply Href2).
    pose proof (refcount_bound kend managed _ _ _ _ _ Hi1 Hse Hq Hnp) as Hbd.
    exists (set_count (tgt e') (refcount s1 (pidx (tgt e')) + 1) s2), fl2, new.
    split; [|split; [|split; [|split; [done|split; [done|split; [|split]]]]]].
    + intros k. rewrite Hrun. step Hr. change (0 <? 0) with false. cbv iota. rewrite <- (V2P_tgt e') by done.
      step (incrementReferenceCount_eq kend Hkend s2 (tgt e') Hq Hh2). by rewrite Hrc2, u32_id by lia.
    + eapply vm_inv_ext; [|apply (vm_count kend managed Hkend (upd ex (tgt e') (-1)) s2 fl2 (c :: ds)); done || lia].
      intros q. rewrite Hrc2. unfold upd. case_decide; lia.
    + apply (cow_step_trans _ _ _ s1); [done|]. assert (cow_step ex ds s1 s2) as [A B C D]; [|by split].
      apply (ustep_cow _ _ c); [|done]. eapply ustep_sub; [|exact Hs2]. by right.
    + by rewrite <- Hab1.
    + intros n' Hn'. change (m_mem (set_count _ _ s2)) with (m_mem s2).
      destruct (us_other _ _ _ _ _ _ Hs2 p n' Hp' Hpc Hn') as [-> _]. rewrite Hu1 by done. repeat case_decide; congruence.
    + intros n' Hn'. change (m_mem (set_count _ _ s2)) with (m_mem s2). rewrite Hu2, Hu1 by done.
      repeat case_decide; congruence.
Qed.

(** ** [copyuvm] *)

Lemma copyuvm_loop_spec ex ds p c : settled ex (c :: ds) -> p ∈ ds -> c ∉ ds -> forall N k s fl,
  0 <= k -> k + Z.of_nat N <= UPAGES -> vm_inv ex s fl (c :: ds) -> LkKmem ∉ m_held s ->
  (forall j, k <= j < k + Z.of_nat N -> mapped (m_mem s) p j = true /\ mapped (m_mem s) c j = false) ->
  (exists s' fl', copyuvm_loop kend N p c (k * 4096) s = Ret false s' /\ vm_inv ex s' fl' (c :: ds) /\
    cow_step ex ds s s' /\ m_cr3 s' = m_cr3 s /\ (length fl < absent (m_mem s) c)%nat) \/
  (exists s' fl' new, copyuvm_loop kend N p c (k * 4096) s = Ret true s' /\ vm_inv ex s' fl' (c :: ds) /\
    cow_step ex ds s s' /\ m_cr3 s' = m_cr3 s /\ fl = new ++ fl' /\
    (length new + absent (m_mem s') c = absent (m_mem s) c)%nat /\
    (forall n, 0 <= n < UPAGES -> upte (m_mem s') p n =
      if decide (k <= n < k + Z.of_nat N) then clearW (upte (m_mem s) p n) else upte (m_mem s) p n) /\
    (forall n, 0 <= n < UPAGES -> upte (m_mem s') c n =
      if decide (k <= n < k + Z.of_nat N) then clearW (upte (m_mem s) p n) else upte (m_mem s) c n)).
Proof.
  intros Hse Hp Hcd. induction N as [|N IH]; intros k s fl Hk HkN Hi Hh Hmap.
  { right. exists s, fl, []. split; [done|]. split; [done|]. split; [split; try done; by split; [left|]|].
    split; [done|]. split; [done|]. split; [done|]. split; intros n Hn; rewrite decide_False by lia; done. }
  change (copyuvm_loop kend (S N) p c (k * 4096)) with (share_iter p c (k * 4096) (copyuvm_loop kend N p c (k * 4096 + PGSIZE))).
  destruct (Hmap k ltac:(lia)) as [Hmp Hmc].
  destruct (share_page ex s fl ds p c k Hi Hse Hh Hp Hcd ltac:(lia) Hmp Hmc)
    as [(s' & Hr & Hi' & Hs' & Hc' & -> & Hab)|(s1 & fl1 & new1 & Hr & Hi1 & Hs1 & Hc1 & Hf1 & Hab1 & Hup & Huc)];
    rewrite Hr.
  { left. exists s', []. done. }
  replace (k * 4096 + PGSIZE) with ((k + 1) * 4096) by (unfold PGSIZE; lia).
  destruct (IH (k + 1) s1 fl1) as [(s' & fl' & Hr' & Hi' & Hs' & Hc' & Hl')|(s' & fl' & new & Hr' & Hi' & Hs' & Hc' & Hf' & Hab' & Hup' & Huc')];
    [lia|lia|done|by rewrite (cs_held _ _ _ _ Hs1)| | |].
  - intros j Hj. unfold mapped. rewrite Hup, Huc, !decide_False by lia. apply Hmap. lia.
  - left. exists s', fl'. split; [done|]. split; [done|]. split; [by eapply cow_step_trans|]. split; [congruence|].
    rewrite Hf1. len.
  - right. exists s', fl', (new1 ++ new). split; [done|]. split; [done|]. split; [by eapply cow_step_trans|].
    split; [congruence|]. split; [rewrite Hf1, Hf'; by rewrite app_assoc|]. split; [len|]. split; intros n Hn.
    + rewrite Hup', Hup by done. repeat case_decide; try done; try lia. by subst.
    + rewrite Huc', Hup, Huc by done. repeat case_decide; try done; try lia. by subst.
Qed.

Context (kdata : Z) (Hkdata : KERNLINK < kdata < KERNBASE + PHYSTOP /\ kdata mod 4096 = 0).

Lemma copyuvm_spec ex s fl ds p sz :
  vm_inv ex s fl ds -> settled ex ds -> (length ds < 1024)%nat -> LkKmem ∉ m_held s -> p ∈ ds ->
  0 <= sz <= KERNBASE -> (forall n, 0 <= n < npages sz -> mapped (m_mem s) p n = true) ->
  (exists c s' fl' new, copyuvm kend kdata p sz s = Ret c s' /\ c <> 0 /\ c ∉ ds /\ vm_inv ex s' fl' (c :: ds) /\
    cow_step ex ds s s' /\ m_cr3 s' = V2P p /\ fl = new ++ fl' /\ (length new <= 1025)%nat /\
    (forall n, 0 <= n < UPAGES -> upte (m_mem s') p n =
      if decide (n < npages sz) then clearW (upte (m_mem s) p n) else upte (m_mem s) p n) /\
    (forall n, 0 <= n < UPAGES -> upte (m_mem s') c n =
      if decide (n < npages sz) then clearW (upte (m_mem s) p n) else 0)) \/
  (exists s' fl', copyuvm kend kdata p sz s = Ret 0 s' /\ vm_inv ex s' fl' ds /\ cow_step ex ds s s' /\
    (length fl < 1025)%nat).
Proof.
  intros Hi Hse Hlen Hh Hp Hsz Hmap. unfold copyuvm.
  destruct (setupkvm_spec kend managed Hkend kdata Hkdata ex s fl ds Hi Hse Hlen Hh)
    as [(c & s1 & fl1 & new1 & Hr1 & Hc0 & Hcd & Hi1 & Hu1 & Hc1 & Hf1 & Hab1 & Hpv1)|(s1 & fl1 & Hr1 & Hi1 & Hu1 & _ & Hl1)];
    step Hr1.
  2:{ right. exists s1, fl1. split; [done|]. split; [done|]. split; [|done]. assert (Hz : 0 ∉ ds).
    { intros Hin. pose proof (pt_dir _ _ _ (vi_ok _ _ _ _ _ _ Hi 0 Hin)) as Hz%(page_ok_lo kend Hkend). unfold KERNBASE in *. lia. }
    apply (ustep_cow _ _ 0); [by apply Hu1|done]. }
  rewrite (proj2 (Z.eqb_neq c 0) Hc0). assert (Hs1 : cow_step ex ds s s1) by (by apply (ustep_cow _ _ c)).
  assert (Hse1 : settled ex (c :: ds)) by (split; [simpl; lia|apply Hse]).
  assert (Hpc : p <> c) by (intros ->; done).
  pose proof (npages_range sz Hsz) as Hnp.
  assert (Hup1 : forall n, 0 <= n < UPAGES -> upte (m_mem s1) p n = upte (m_mem s) p n)
    by (intros n Hn; by apply (us_other _ _ _ _ _ _ Hu1)).
  assert (Huc1 : forall n, 0 <= n < UPAGES -> upte (m_mem s1) c n = 0).
  { intros n Hn. unfold upte. rewrite Hpv1 by (by apply upage_range).
    rewrite (kpte_lo KERNBASE); [done|by apply kmap_kmap_ok|unfold UPAGES, KERNBASE in *; lia]. }
  replace ((sz + PGSIZE - 1) / PGSIZE) with (npages sz) by (unfold npages, PGSIZE; f_equal; lia).
  destruct (copyuvm_loop_spec ex ds p c Hse1 Hp Hcd (Z.to_nat (npages sz)) 0 s1 fl1)
    as [(s2 & fl2 & Hr2 & Hi2 & Hs2 & Hc2 & Hl2)|(s2 & fl2 & new2 & Hr2 & Hi2 & Hs2 & Hc2 & Hf2 & Hab2 & Hup2 & Huc2)];
    [lia|lia|done|by rewrite (cs_held _ _ _ _ Hs1)| | |].
  - intros j Hj. unfold mapped. rewrite Hup1, Huc1 by lia. split; [apply Hmap; lia|done].
  - rewrite (bind_ret _ _ _ _ _ Hr2). right.
    destruct (freevm_spec kend managed Hkend ex s2 fl2 ds c Hi2 Hse1) as (s3 & fl3 & Hr3 & Hi3 & Hu3 & _ & _);
      [by rewrite (cs_held _ _ _ _ Hs2), (cs_held _ _ _ _ Hs1)|]. step Hr3.
    exists (set_m_cr3 (V2P p) s3), fl3. split; [done|]. split; [by apply vm_inv_cr3|]. split.
    + assert (cow_step ex ds s s3) as [A B C D]; [|by split].
      apply (cow_step_trans _ _ _ s2); [by eapply cow_step_trans|]. by apply (ustep_cow _ _ c).
    + rewrite Hf1. len.
  - rewrite (bind_ret _ _ _ _ _ Hr2). left. exists c, (set_m_cr3 (V2P p) s2), fl2, (new1 ++ new2).
    split; [done|]. split; [done|]. split; [done|]. split; [by apply vm_inv_cr3|].
    split; [assert (cow_step ex ds s s2) as [A B C D]; [by apply (cow_step_trans _ _ _ s1)|by split]|]. split; [done|].
    split; [rewrite Hf1, Hf2; by rewrite app_assoc|]. split; [len|]. cbn [m_mem set_m_cr3]. split; intros n Hn.
    + rewrite Hup2, Hup1 by done. repeat case_decide; (done || lia).
    + rewrite Huc2, Hup1, Huc1 by done. repeat case_decide; (done || lia).
Qed.

(** ** [pagefault] *)

Definition same_users ds (m m' : mem) : Prop :=
  forall d va, d ∈ ds -> 0 <= va < KERNBASE -> uread m' d va = uread m d va.

(** Entries other than the one at page [n] of [p]. *)
Definition other_entries ds (p n : Z) (m m' : mem) : Prop :=
  forall d' n', d' ∈ ds -> 0 <= n' < UPAGES -> (d', n') <> (p, n) -> upte m' d' n' = upte m d' n'.

(** The outcome in which the fault is repaired. *)
Definition repaired ex ds p n s s' fl' : Prop :=
  vm_inv ex s' fl' ds /\ same_users ds (m_mem s) (m_mem s') /\
  (writable (m_mem s') p n = true /\ has (upte (m_mem s') p n) PTE_U = true) /\
  other_entries ds p n (m_mem s) (m_mem s') /\ m_cr3 s' = V2P p /\ m_held s' = m_held s.

Lemma pagefault_run p va s :
  pt_ok kend (m_mem s) p -> 0 <= va < KERNBASE ->
  let n := va / 4096 in let e := upte (m_mem s) p n in
  has e PTE_P = true -> has e PTE_U = true -> has e PTE_W = false -> LkKmem ∉ m_held s ->
  page_ok kend (tgt e) ->
  pagefault kend (Some p) va s =
    pagefault_resolve kend p (slot (m_mem s) p (n * 4096)) (V2P (tgt e)) (refcount s (pidx (tgt e))) s.
Proof.
  intros Hok Hva n e HP HU HW Hh Hq. pose proof (upage_of_va va Hva) as Hn. fold n in Hn.
  pose proof (upage_range n Hn) as Hnr. assert (Hva' : 0 <= va < 2 ^ 32) by (unfold KERNBASE in Hva; lia).
  assert (Hdiv : va / 4096 = n * 4096 / 4096) by (by rewrite Z.div_mul).
  assert (Hpv : pv (m_mem s) p va = e) by (by apply pv_page).
  assert (Hsl : slot (m_mem s) p va = slot (m_mem s) p (n * 4096)).
  { apply same_page in Hdiv as [HD HT]; [|done|done]. unfold slot. by rewrite HD, HT. }
  assert (Hp : pres (m_mem s) p (PDX va) = true).
  { apply (pres_of_pv _ p va). rewrite Hpv. intros H0. by rewrite H0 in HP. }
  unfold pagefault. destruct (Z.leb_spec KERNBASE va); [lia|].
  step (walkpgdir_present p va false s Hp). rewrite (slot_nonzero kend Hkend) by done.
  step (load_slot p va s Hp). rewrite Hpv, HP, HU, HW, Hsl. cbn [negb orb].
  rewrite <- (V2P_tgt e) by apply upte_bound. step (getReferenceCount_eq kend Hkend s (tgt e) Hq Hh).
  done.
Qed.

(** The outcomes that do not repair the page. *)
Lemma pagefault_rest p va s :
  pt_ok kend (m_mem s) p -> 0 <= va < KERNBASE -> let e := upte (m_mem s) p (va / 4096) in
  (has e PTE_P && has e PTE_U = false -> pagefault kend (Some p) va s = Ret true s) /\
  (has e PTE_P && has e PTE_U = true -> has e PTE_W = true ->
    pagefault kend (Some p) va s = Panic "Page fault already writeable").
Proof.
  intros Hok Hva e. pose proof (upage_of_va va Hva) as Hn. pose proof (upage_range _ Hn) as Hnr.
  assert (Hpv : pv (m_mem s) p va = e).
  { apply pv_page; [unfold KERNBASE in Hva; lia|done|by rewrite Z.div_mul]. }
  unfold pagefault. destruct (Z.leb_spec KERNBASE va); [lia|].
  destruct (pres (m_mem s) p (PDX va)) eqn:Hp.
  - step (walkpgdir_present p va false s Hp). rewrite (slot_nonzero kend Hkend) by done.
    step (load_slot p va s Hp). rewrite Hpv. rewrite <- negb_andb.
    split; [by intros ->|by intros -> ->].
  - assert (He : e = 0) by (rewrite <- Hpv; unfold pv; by rewrite Hp). rewrite He.
    split; [|done]. intros _. by step (walkpgdir_absent p va s Hp).
Qed.

Lemma pres_mapped m p n : mapped m p n = true -> pres m p (PDX (n * 4096)) = true.
Proof. intros Hm. apply (pres_of_pv _ p (n * 4096)). intros H0. unfold mapped, upte in Hm. by rewrite H0 in Hm. Qed.

(** The last owner of a page gets the right to write back. *)
Lemma reclaim_page ex s fl ds p n :
  vm_inv ex s fl ds -> settled ex ds -> p ∈ ds -> 0 <= n < UPAGES -> mapped (m_mem s) p n = true ->
  has (upte (m_mem s) p n) PTE_U = true -> refcount s (pidx (tgt (upte (m_mem s) p n))) = 1 ->
  let s1 := put_pte p (n * 4096) (Z.lor (upte (m_mem s) p n) PTE_W) s in
  vm_inv ex s1 fl ds /\ same_users ds (m_mem s) (m_mem s1) /\
  (writable (m_mem s1) p n = true /\ has (upte (m_mem s1) p n) PTE_U = true) /\
  other_entries ds p n (m_mem s) (m_mem s1).
Proof.
  intros Hi Hse Hp Hn Hm HU Hrc s1. pose proof (upte_bound (m_mem s) p n) as Hb. pose proof (pres_mapped _ _ _ Hm) as Hpr.
  destruct (setW_facts _ Hb) as (Hb' & Ht & HP & HW & HU').
  destruct (put_pte_frame _ _ _ _ _ _ p n _ Hi Hp Hn Hpr Hb') as (_ & _ & Hu). fold s1 in Hu.
  destruct (mapped_page _ _ _ _ _ _ _ _ Hi (fun q => proj1 (se_ex _ _ Hse q)) Hp Hn Hm) as (Hq & _ & Hnp & _).
  assert (Hrefs : refs (m_mem s) ds (tgt (upte (m_mem s) p n)) = 1%nat).
  { pose proof (refs_pos _ _ _ _ Hp Hn Hm). rewrite (vi_refs _ _ _ _ _ _ Hi _ Hq Hnp) in Hrc.
    pose proof (se_ex _ _ Hse (tgt (upte (m_mem s) p n))). lia. }
  assert (Hself : hits (upte (m_mem s) p n) (tgt (upte (m_mem s) p n)) = true)
    by (rewrite (hits_self _ Hm); by apply bool_decide_eq_true).
  split; [|split; [|split]].
  - eapply vm_inv_ext; [|apply (vm_put kend managed Hkend ex s fl ds p n _ Hi Hp Hn Hpr Hb')].
    + intros q. cbv beta. unfold hits. rewrite Ht, HP. lia.
    + by rewrite Ht.
    + intros _ _. by rewrite Ht, Hrefs, Hself.
    + rewrite Ht, Hself. done.
  - intros d va Hd Hva. pose proof (upage_of_va va Hva) as Hnv.
    assert (He : tgt (upte (m_mem s1) d (va / 4096)) = tgt (upte (m_mem s) d (va / 4096)) /\
      mapped (m_mem s1) d (va / 4096) = mapped (m_mem s) d (va / 4096)).
    { unfold mapped. rewrite Hu by done. case_decide as Heq; [|done]. injection Heq as -> Heq. by rewrite Heq. }
    destruct He as [Het Hem]. apply (uread_agree kend managed ex s fl ds (in_pt (m_mem s) p)); try done.
    + apply agree_st32; [|apply PTX_bound]. right. exists (PDX (n * 4096)). split; [apply PDX_bound|done].
    + intros q. by apply (vm_pt_page _ _ _ _ _ _ p q Hi).
    + intros q Hpt. right. left. by exists p.
  - unfold writable, mapped. rewrite Hu, decide_True by done. rewrite HP, HW, HU'. unfold mapped in Hm. by rewrite Hm.
  - intros d' n' Hd' Hn' Hne. by rewrite Hu, decide_False.
Qed.

#[local] Strategy opaque [memmove st32 ldb pv].

(** The machine after page [n] of [p] was copied to [v] and its entry rewritten. *)
Definition swapped (p n v q : Z) s : machine :=
  put_pte p (n * 4096) (fresh_pte v) (set_m_mem (memmove (m_mem s) v q PGSIZE) (kalloc_upd v s)).

Lemma kalloc_slot ex s fl ds v src p va :
  vm_inv ex s (v :: fl) ds -> settled ex ds -> p ∈ ds ->
  slot (m_mem (set_m_mem (memmove (m_mem s) v src PGSIZE) (kalloc_upd v s))) p va = slot (m_mem s) p va.
Proof.
  intros Hi Hse Hp. apply slot_frame. intros x Hx.
  assert (Hv : page_ok kend v) by (destruct (vi_alloc _ _ _ _ _ _ Hi) as [_ _ Hps _ _]; by inversion Hps).
  assert (Hvin : v ∈ v :: fl) by left.
  destruct (free_unref _ _ _ _ _ _ v Hi Hvin) as (_ & _ & Hnp); [apply Hse|].
  apply (data_pt_same kend managed ex s (v :: fl) ds v _ p); try done. by apply agree_memmove.
Qed.

Lemma swapped_agree ex s fl ds p n v q :
  vm_inv ex s (v :: fl) ds -> settled ex ds -> p ∈ ds -> mapped (m_mem s) p n = true ->
  agree (fun x => x = v \/ in_pt (m_mem s) p x) (m_mem s) (m_mem (swapped p n v q s)).
Proof.
  intros Hi Hse Hp Hm.
  set (s1 := set_m_mem (memmove (m_mem s) v q PGSIZE) (kalloc_upd v s)).
  assert (Hsl : slot (m_mem s1) p (n * 4096) = slot (m_mem s) p (n * 4096)) by (by apply (kalloc_slot ex s fl ds)).
  apply (agree_trans _ _ (m_mem s1)); [apply agree_memmove; by left|].
  change (m_mem (swapped p n v q s)) with (st32 (m_mem s1) (slot (m_mem s1) p (n * 4096)) (fresh_pte v)). rewrite Hsl.
  apply agree_st32; [|apply PTX_bound]. right. right. exists (PDX (n * 4096)).
  split; [apply PDX_bound|]. split; [by apply pres_mapped|done].
Qed.

Lemma swapped_slot ex s fl ds p n v q p' va :
  vm_inv ex s (v :: fl) ds -> settled ex ds -> p ∈ ds -> mapped (m_mem s) p n = true -> p' ∈ ds -> p' <> p ->
  slot (m_mem (swapped p n v q s)) p' va = slot (m_mem s) p' va.
Proof.
  intros Hi Hse Hp Hm Hp' Hne. apply slot_frame. intros x Hx.
  assert (Hv : page_ok kend v) by (destruct (vi_alloc _ _ _ _ _ _ Hi) as [_ _ Hps _ _]; by inversion Hps).
  apply (agree_same_on kend (fun x => x = v \/ in_pt (m_mem s) p x)).
  - by apply (swapped_agree ex s fl ds).
  - by apply (vm_pt_page _ _ _ _ _ _ p' x Hi).
  - intros y [->|Hy]; [done|]. by apply (vm_pt_page _ _ _ _ _ _ p y Hi).
  - intros [->|Hy].
    + destruct (vi_pt _ _ _ _ _ _ Hi p' v Hp' Hx) as [Hf _]. apply Hf. by left.
    + apply Hne. by eapply (vi_disj _ _ _ _ _ _ Hi).
Qed.

(** Everything but the change of the old page's count. *)
Lemma swap_page ex s fl ds p n v :
  vm_inv ex s (v :: fl) ds -> settled ex ds -> p ∈ ds -> 0 <= n < UPAGES -> mapped (m_mem s) p n = true ->
  let q := tgt (upte (m_mem s) p n) in let s2 := swapped p n v q s in
  vm_inv (upd ex q 1) s2 fl ds /\ page_ok kend q /\ q ∉ fl /\ not_pt (m_mem s2) ds q /\
  refcount s2 (pidx q) = refcount s (pidx q) /\
  same_users ds (m_mem s) (m_mem s2) /\
  (writable (m_mem s2) p n = true /\ has (upte (m_mem s2) p n) PTE_U = true) /\
  other_entries ds p n (m_mem s) (m_mem s2).
Proof.
  intros Hi Hse Hp Hn Hm q s2. pose proof (vi_alloc _ _ _ _ _ _ Hi) as Ha.
  assert (Hv : page_ok kend v) by (destruct Ha as [_ _ Hps _ _]; by inversion Hps).
  assert (Hvin : v ∈ v :: fl) by left.
  destruct (free_unref _ _ _ _ _ _ v Hi Hvin) as (Hrv & Hexv & Hnpv); [apply Hse|].
  destruct (mapped_page _ _ _ _ _ _ _ _ Hi (fun q => proj1 (se_ex _ _ Hse q)) Hp Hn Hm) as (Hq & Hqf & Hnpq & _).
  fold q in Hq, Hqf, Hnpq. apply not_elem_of_cons in Hqf as [Hqv Hqf].
  assert (Hvf : v ∉ fl) by (destruct Ha as [_ Hnd _ _ _]; by apply NoDup_cons in Hnd as [? _]).
  destruct (fresh_pte_facts kend v Hkend Hv) as (Hxb & Hxt & HxP & HxW & HxU).
  set (s1 := set_m_mem (memmove (m_mem s) v q PGSIZE) (kalloc_upd v s)) in *.
  assert (Hag : agree (eq v) (m_mem s) (m_mem s1)) by (by apply agree_memmove).
  assert (Hi1 : vm_inv (upd ex v 1) s1 fl ds).
  { apply (vm_data kend managed _ (kalloc_upd v s) fl ds v); [by apply vm_kalloc|done|done|done|done]. }
  assert (Hpt : forall d' p', d' ∈ ds -> in_pt (m_mem s) d' p' -> same_on (m_mem s) (m_mem s1) p')
    by (intros d' p' Hd'; by eapply (data_pt_same kend managed ex s (v :: fl) ds v)).
  assert (Hu1 : forall d' n', d' ∈ ds -> upte (m_mem s1) d' n' = upte (m_mem s) d' n')
    by (intros d' n' Hd'; apply pv_frame; by eauto).
  assert (Hnp1 : forall q', not_pt (m_mem s) ds q' -> not_pt (m_mem s1) ds q').
  { intros q' Hnq d' Hd'. rewrite (in_pt_frame (m_mem s)) by eauto. by apply Hnq. }
  assert (Hr1 : forall q', refs (m_mem s1) ds q' = refs (m_mem s) ds q')
    by (intros q'; apply refs_ext; intros d' n' Hd' _; by apply Hu1).
  assert (Hpr : pres (m_mem s1) p (PDX (n * 4096)) = true)
    by (apply pres_mapped; unfold mapped; rewrite Hu1 by done; exact Hm).
  destruct (put_pte_frame _ _ _ _ _ _ p n _ Hi1 Hp Hn Hpr Hxb) as (_ & Hin2 & Hu2).
  change (put_pte p (n * 4096) (fresh_pte v) s1) with s2 in Hin2, Hu2.
  assert (Hold : hits (upte (m_mem s1) p n) v = false).
  { rewrite Hu1, (hits_self _ Hm) by done. apply bool_decide_eq_false. fold q. congruence. }
  assert (Hx : forall d' n', d' ∈ ds -> 0 <= n' < UPAGES -> upte (m_mem s2) d' n' =
    if decide ((d', n') = (p, n)) then fresh_pte v else upte (m_mem s) d' n').
  { intros d' n' Hd' Hn'. by rewrite Hu2, Hu1. }
  split; [|split; [done|split; [done|split; [|split; [|split; [|split]]]]]].
  - eapply vm_inv_ext; [|apply (vm_put kend managed Hkend _ s1 fl ds p n _ Hi1 Hp Hn Hpr Hxb)].
    + intros q'. cbv beta. rewrite Hu1, (hits_self _ Hm), (hits_self _ HxP), Hxt by done. fold q. unfold upd.
      repeat case_decide; repeat case_bool_decide; subst; cbn [b2n]; lia || done.
    + rewrite Hxt. eauto.
    + rewrite Hxt, Hr1, Hrv, Hold. done.
    + rewrite Hxt. intros _ _ d' n' Hd' Hn' Hw Heq. rewrite Hu1 in Heq by done.
      assert (Hm' : mapped (m_mem s) d' n' = true) by (apply andb_true_iff in Hw as [Hw _]; unfold mapped in *; by rewrite Hu1 in Hw).
      pose proof (refs_pos _ _ _ _ Hd' Hn' Hm'). rewrite Heq in *. lia.
  - intros d' Hd'. rewrite Hin2 by done. by apply (Hnp1 q).
  - change (refcount s2 (pidx q)) with (refcount (kalloc_upd v s) (pidx q)).
    by rewrite (refcount_kalloc_upd kend), decide_False by congruence.
  - intros d va Hd Hva. destruct (decide ((d, va / 4096) = (p, n))) as [Heq|Hne].
    + injection Heq as -> Heq. unfold uread, mapped. rewrite Heq, Hx, decide_True, HxP, Hxt by done.
      unfold mapped in Hm. rewrite Hm. f_equal. pose proof (Z.mod_pos_bound va 4096 ltac:(lia)) as Hmod.
      assert (Hs2 : same_on (m_mem s1) (m_mem s2) v).
      { apply (store_same_on kend); [by eapply vi_ok|done|done|]. intros He. apply (Hnp1 v Hnpv p Hp). right.
        exists (PDX (n * 4096)). split; [apply PDX_bound|done]. }
      rewrite Hs2 by lia. unfold s1; cbn [m_mem set_m_mem].
      rewrite ldb_memmove, in_range_true by (unfold PGSIZE; lia). f_equal. fold q. lia.
    + assert (Hag2 := swapped_agree ex s fl ds p n v q Hi Hse Hp Hm).
      apply (uread_agree kend managed ex s (v :: fl) ds (fun x => x = v \/ in_pt (m_mem s) p x)); try done.
      * intros x [->|Hpx]; [done|]. by apply (vm_pt_page _ _ _ _ _ _ p x Hi).
      * intros x [->|Hpx]; [by left|right; left; by exists p].
      * rewrite Hx by (done || by apply upage_of_va). by rewrite decide_False.
      * unfold mapped. rewrite Hx by (done || by apply upage_of_va). by rewrite decide_False.
  - unfold writable, mapped. rewrite Hx, decide_True, HxP, HxW, HxU by done. done.
  - intros d' n' Hd' Hn' Hne. by rewrite Hx, decide_False.
Qed.

Lemma copy_page ex s fl ds p n v :
  vm_inv ex s (v :: fl) ds -> settled ex ds -> p ∈ ds -> 0 <= n < UPAGES -> mapped (m_mem s) p n = true ->
  let q := tgt (upte (m_mem s) p n) in 1 < refcount s (pidx q) ->
  let s' := set_count q (refcount s (pidx q) - 1) (swapped p n v q s) in
  vm_inv ex s' fl ds /\ same_users ds (m_mem s) (m_mem s') /\
  (writable (m_mem s') p n = true /\ has (upte (m_mem s') p n) PTE_U = true) /\
  other_entries ds p n (m_mem s) (m_mem s').
Proof.
  intros Hi Hse Hp Hn Hm q Hrc s'.
  destruct (swap_page ex s fl ds p n v Hi Hse Hp Hn Hm) as (Hi2 & Hq & Hqf & Hnp & Href & Hrest).
  fold q in Hi2, Hq, Hqf, Hnp, Href, Hrest. assert (Hmem : m_mem s' = m_mem (swapped p n v q s)) by apply m_mem_set_count.
  rewrite Hmem. split; [|exact Hrest].
  eapply vm_inv_ext; [|apply (vm_count kend managed Hkend _ (swapped p n v q s) fl ds q _ Hi2 Hq Hqf Hnp)].
  - intros q'. rewrite Href. unfold upd. case_decide; lia.
  - lia.
Qed.

(** The copying branch, for any count that was read before. *)
Lemma resolve_copy ex s fl ds p n v c :
  vm_inv ex s (v :: fl) ds -> settled ex ds -> LkKmem ∉ m_held s -> p ∈ ds -> 0 <= n < UPAGES ->
  mapped (m_mem s) p n = true -> 1 < c -> let q := tgt (upte (m_mem s) p n) in
  pagefault_resolve kend p (slot (m_mem s) p (n * 4096)) (V2P q) c s =
    Ret false (set_m_cr3 (V2P p) (set_count q (u32 (refcount s (pidx q) - 1)) (swapped p n v q s))).
Proof.
  intros Hi Hse Hh Hp Hn Hm Hc q. pose proof (vi_alloc _ _ _ _ _ _ Hi) as Ha.
  destruct (swap_page ex s fl ds p n v Hi Hse Hp Hn Hm) as (_ & Hq & _ & _ & Href & _). fold q in Hq, Href.
  assert (Hpa : P2V (V2P q) = q) by (unfold q; by rewrite (V2P_tgt _ (upte_bound _ _ _))).
  assert (Hv0 : v <> 0).
  { destruct Ha as [_ _ Hps _ _]. inversion Hps as [|?? Hv _]; subst. apply (page_ok_lo kend Hkend) in Hv.
    unfold KERNBASE in *. lia. }
  unfold pagefault_resolve. rewrite (proj2 (Z.ltb_lt 1 c) Hc), Hpa.
  step (kalloc_some kend Hkend s v fl Ha Hh). rewrite (proj2 (Z.eqb_neq v 0) Hv0).
  set (s1 := set_m_mem (memmove (m_mem s) v q PGSIZE) (kalloc_upd v s)).
  assert (Hmm : mod_mem (fun m => memmove m v q PGSIZE) (kalloc_upd v s) = Ret tt s1) by done. step Hmm.
  assert (Hsl : slot (m_mem s1) p (n * 4096) = slot (m_mem s) p (n * 4096)) by (by apply (kalloc_slot ex s fl ds)).
  assert (Hst : store (slot (m_mem s) p (n * 4096)) (fresh_pte v) s1 = Ret tt (swapped p n v q s))
    by (by rewrite <- Hsl). unfold fresh_pte in Hst. step Hst.
  step (decrementReferenceCount_eq kend Hkend (swapped p n v q s) q Hq Hh). by rewrite Href.
Qed.

Lemma pagefault_spec ex s fl ds p va :
  vm_inv ex s fl ds -> settled ex ds -> LkKmem ∉ m_held s -> p ∈ ds -> 0 <= va < KERNBASE ->
  let n := va / 4096 in let e := upte (m_mem s) p n in
  has e PTE_P = true -> has e PTE_U = true -> has e PTE_W = false ->
  (1 < refcount s (pidx (tgt e)) /\ fl = [] /\ pagefault kend (Some p) va s = Ret true s) \/
  (~ (1 < refcount s (pidx (tgt e)) /\ fl = []) /\
    exists s' fl', pagefault kend (Some p) va s = Ret false s' /\ repaired ex ds p n s s' fl').
Proof.
  intros Hi Hse Hh Hp Hva n e HP HU HW. pose proof (upage_of_va va Hva) as Hn. fold n in Hn.
  assert (Hok : pt_ok kend (m_mem s) p) by (by eapply vi_ok).
  destruct (mapped_page _ _ _ _ _ _ _ _ Hi (fun q => proj1 (se_ex _ _ Hse q)) Hp Hn HP) as (Hq & Hqf & Hnp & Hc).
  fold e in Hq, Hqf, Hnp, Hc. pose proof (refcount_bound kend managed _ _ _ _ _ Hi Hse Hq Hnp) as Hb.
  rewrite (pagefault_run p va s Hok Hva HP HU HW Hh Hq). fold n e.
  destruct (decide (1 < refcount s (pidx (tgt e)))) as [Hgt|Hle].
  - destruct fl as [|v fl].
    { left. split; [done|]. split; [done|]. unfold pagefault_resolve. rewrite (proj2 (Z.ltb_lt 1 _) Hgt).
      by step (kalloc_empty kend s (vi_alloc _ _ _ _ _ _ Hi) Hh). }
    right. split; [by intros [_ ?]|].
    destruct (copy_page ex s fl ds p n v Hi Hse Hp Hn HP Hgt) as (Hi' & Hsu & Hw & Ho). fold e in Hi', Hsu, Hw, Ho.
    exists (set_m_cr3 (V2P p) (set_count (tgt e) (refcount s (pidx (tgt e)) - 1) (swapped p n v (tgt e) s))), fl.
    split; [|split; [by apply vm_inv_cr3|done]].
    etransitivity; [exact (resolve_copy ex s fl ds p n v _ Hi Hse Hh Hp Hn HP Hgt)|]. fold e. by rewrite u32_id by lia.
  - assert (H1 : refcount s (pidx (tgt e)) = 1) by lia. right. split; [lia|].
    destruct (reclaim_page ex s fl ds p n Hi Hse Hp Hn HP HU H1) as (Hi' & Hsu & Hw & Ho).
    exists (set_m_cr3 (V2P p) (put_pte p (n * 4096) (Z.lor e PTE_W) s)), fl.
    split; [|split; [by apply vm_inv_cr3|done]]. rewrite H1. change (pagefault_resolve kend p (slot (m_mem s) p (n * 4096)) (V2P (tgt e)) 1)
      with (x <- load (slot (m_mem s) p (n * 4096)) ;; store (slot (m_mem s) p (n * 4096)) (Z.lor x PTE_W) ;;; lcr3 (V2P p) ;;; ret false).
    by step (load_slot p (n * 4096) s (pres_mapped _ _ _ HP)).
Qed.

(** ** A store by a user program *)

(** What the processor does with a one-byte user store: it faults unless the entry
    allows it. *)
Definition user_store (d va b : Z) s : option machine :=
  let e := upte (m_mem s) d (va / 4096) in
  if has e PTE_P && has e PTE_U && has e PTE_W
  then Some (set_m_mem (stb (m_mem s) (tgt e + va mod 4096) b) s) else None.

Lemma user_store_spec ex s s' fl ds d va b :
  vm_inv ex s fl ds -> settled ex ds -> d ∈ ds -> 0 <= va < KERNBASE -> user_store d va b s = Some s' ->
  vm_inv ex s' fl ds /\ forall d' va', d' ∈ ds -> 0 <= va' < KERNBASE ->
    uread (m_mem s') d' va' = if decide ((d', va') = (d, va)) then Some (u8 b) else uread (m_mem s) d' va'.
Proof.
  intros Hi Hse Hd Hva. pose proof (upage_of_va va Hva) as Hn. set (e := upte (m_mem s) d (va / 4096)).
  unfold user_store. fold e. destruct (has e PTE_P && has e PTE_U && has e PTE_W) eqn:Hfl; [|done]. intros [= <-].
  apply andb_true_iff in Hfl as [[HP HU]%andb_true_iff HW].
  assert (Hm : mapped (m_mem s) d (va / 4096) = true) by exact HP.
  assert (Hw : writable (m_mem s) d (va / 4096) = true) by (unfold writable; rewrite Hm; exact HW).
  destruct (mapped_page _ _ _ _ _ _ _ _ Hi (fun q => proj1 (se_ex _ _ Hse q)) Hd Hn Hm) as (Hq & Hqf & Hnp & _).
  fold e in Hq, Hqf, Hnp. pose proof (Z.mod_pos_bound va 4096 ltac:(lia)) as Hmod.
  set (m' := stb (m_mem s) (tgt e + va mod 4096) b).
  assert (Hag : agree (eq (tgt e)) (m_mem s) m').
  { intros a Hout. apply ldb_stb_ne. specialize (Hout _ eq_refl). lia. }
  assert (Hu : forall d' n, d' ∈ ds -> upte m' d' n = upte (m_mem s) d' n).
  { intros d' n Hd'. apply pv_frame. intros p. by apply (data_pt_same kend managed ex s fl ds (tgt e)). }
  split; [by apply (vm_data kend managed ex s fl ds (tgt e))|]. intros d' va' Hd' Hva'. cbn [m_mem set_m_mem].
  unfold uread. unfold mapped. rewrite Hu by done. fold (mapped (m_mem s) d' (va' / 4096)).
  pose proof (Z.mod_pos_bound va' 4096 ltac:(lia)) as Hmod'.
  pose proof (upage_of_va va' Hva') as Hn'. case_decide as Heq.
  - injection Heq as -> ->. rewrite Hm. fold e. f_equal. apply ldb_stb_eq.
  - destruct (mapped (m_mem s) d' (va' / 4096)) eqn:Hm'; [|done]. f_equal.
    destruct (decide (tgt (upte (m_mem s) d' (va' / 4096)) = tgt e)) as [Ht|Ht].
    + assert ((d, va / 4096) = (d', va' / 4096)) as [= -> Hdiv].
      { apply (refs_one (m_mem s) ds); try done; [by eapply vi_nodup|by apply (vi_cow _ _ _ _ _ _ Hi)|].
        fold e. rewrite <- Ht, (hits_self _ Hm'). by apply bool_decide_eq_true. }
      apply ldb_stb_ne. rewrite Ht. intros He. apply Heq. f_equal.
      rewrite (Z.div_mod va 4096), (Z.div_mod va' 4096) by lia. lia.
    + destruct (vi_page _ _ _ _ _ _ Hi d' _ Hd' Hn' Hm') as [Hal Hr].
      assert (Hso : same_on (m_mem s) m' (tgt (upte (m_mem s) d' (va' / 4096)))).
      { apply (agree_same_on kend (eq (tgt e))); [done|done|by intros q <-|congruence]. }
      apply Hso. lia.
Qed.

End Cow.
