(* ===== verification/Grow.v ===== *)
(** * Growing an address space

    [allocuvm] under the copy-on-write invariant: it maps fresh zeroed pages, and
    when it runs out of memory it takes back every page it mapped, so that no
    process can tell the call happened. *)

From S2P Require Import Prelude Mmu Mem Cstring Kalloc Vm PageTable Walk VmInv Uvm Kvm Cow.

Section Grow.
Context (kend : Z) (managed : Z -> Prop) (Hkend : KERNLINK <= kend <= KERNBASE + PHYSTOP).
Implicit Types (ex : Z -> Z) (s : machine) (fl ds : list Z).
Abbreviation vm_inv := (vm_inv kend managed).
Abbreviation ustep := (ustep kend).

(** Deallocating a range in which nothing is mapped changes nothing. *)
Lemma deallocuvm_loop_nothing d oldsz s : pt_ok kend (m_mem s) d -> oldsz <= KERNBASE -> forall fuel a,
  0 <= a -> a mod 4096 = 0 -> oldsz - a <= 4096 * Z.of_nat fuel ->
  (forall n, 0 <= n < UPAGES -> a <= n * 4096 < oldsz -> mapped (m_mem s) d n = false) ->
  deallocuvm_loop kend fuel d a oldsz s = Ret tt s.
Proof.
  intros Hok Hold. induction fuel as [|fuel IH]; intros a Ha Hal Hfuel Hno; cbn [deallocuvm_loop];
    (destruct (Z.ltb_spec a oldsz) as [Hlt|Hge]; cbn [negb]; [|done]); [lia|]. unfold KERNBASE in Hold.
  assert (Hal' : (a + 4096) mod 4096 = 0) by (by rewrite <- Z.add_mod_idemp_l, Hal by lia).
  destruct (pres (m_mem s) d (PDX a)) eqn:Hp.
  - step (walkpgdir_present d a false s Hp). rewrite (slot_nonzero kend Hkend) by done. step (load_slot d a s Hp).
    assert (Han : a = a / 4096 * 4096) by (pose proof (Z.div_mod a 4096); lia).
    assert (Hm : mapped (m_mem s) d (a / 4096) = false) by (apply Hno; unfold UPAGES; lia).
    unfold mapped, upte in Hm. rewrite <- Han in Hm. rewrite Hm. unfold PGSIZE. rewrite u32_id by lia.
    unfold bind at 1, ret at 1. apply IH; [lia|done|lia|]. intros n Hn Hin. apply Hno; [done|lia].
  - step (walkpgdir_absent d a s Hp). rewrite Z.eqb_refl.
    assert (u32 (u32 (a + (NPTENTRIES - 1) * PGSIZE) + PGSIZE) = a + 2 ^ 22) as ->.
    { unfold NPTENTRIES, PGSIZE. rewrite u32_add_l, u32_id by lia. lia. }
    apply IH; [lia| |lia|]; [Z.to_euclidean_division_equations; lia|]. intros n Hn Hin. apply Hno; [done|lia].
Qed.

(** ** One new page *)

(** From [m] to [m'] the pages [P] of [d] became writable pages of zeroes, and the
    other pages kept their entries and contents. *)
Definition grown (P : Z -> bool) (d : Z) (m m' : mem) : Prop := forall n, 0 <= n < UPAGES ->
  if P n then writable m' d n = true /\ has (upte m' d n) PTE_U = true /\
    (forall i, 0 <= i < 4096 -> ldb m' (tgt (upte m' d n) + i) = 0)
  else upte m' d n = upte m d n /\ (mapped m d n = true -> same_on m m' (tgt (upte m d n))).

(** The state after [kalloc] and [memset] gave the page [v]. *)
Definition zeroed (v : Z) s : machine := set_m_mem (memset (m_mem s) v 0 PGSIZE) (kalloc_upd v s).

Lemma zeroed_page ex s fl ds v :
  vm_inv ex s (v :: fl) ds -> settled ex ds ->
  let s1 := zeroed v s in
  page_ok kend v /\ v ∉ fl /\ not_pt (m_mem s1) ds v /\ refs (m_mem s1) ds v = 0%nat /\ ex v = 0 /\
  vm_inv (upd ex v 1) s1 fl ds /\
  (forall d n, d ∈ ds -> 0 <= n < UPAGES -> upte (m_mem s1) d n = upte (m_mem s) d n /\
    (mapped (m_mem s) d n = true -> same_on (m_mem s) (m_mem s1) (tgt (upte (m_mem s) d n)))) /\
  agree (eq v) (m_mem s) (m_mem s1) /\
  (forall i, 0 <= i < 4096 -> ldb (m_mem s1) (v + i) = 0) /\
  (forall d, d ∈ ds -> absent (m_mem s1) d = absent (m_mem s) d).
Proof.
  intros Hi Hse s1. pose proof (vi_alloc _ _ _ _ _ _ Hi) as Ha.
  assert (Hv : page_ok kend v) by (destruct Ha as [_ _ Hp _ _]; by inversion Hp).
  assert (Hvf : v ∉ fl) by (destruct Ha as [_ Hnd _ _ _]; by apply NoDup_cons in Hnd as [? _]).
  assert (Hin : v ∈ v :: fl) by left.
  destruct (free_unref _ _ _ _ _ _ v Hi Hin) as (Hr & Hex & Hnp); [apply Hse|].
  assert (Hag : agree (eq v) (m_mem s) (m_mem s1)) by (by apply agree_memset).
  assert (Hpt : forall d p, d ∈ ds -> in_pt (m_mem s) d p -> same_on (m_mem s) (m_mem s1) p)
    by (intros d p Hd; by eapply (data_pt_same kend managed ex s (v :: fl) ds v)).
  assert (Hu : forall d n, d ∈ ds -> upte (m_mem s1) d n = upte (m_mem s) d n)
    by (intros d n Hd; apply pv_frame; by eauto).
  split; [done|]. split; [done|].
  split; [intros d Hd; rewrite (in_pt_frame (m_mem s)) by eauto; by apply Hnp|].
  split; [rewrite (refs_ext (m_mem s)); [done|]; intros d n Hd _; by apply Hu|]. split; [done|].
  split; [apply (vm_data kend managed _ (kalloc_upd v s) fl ds v); [by apply vm_kalloc|done..]|].
  split; [|split; [done|split]].
  - intros d n Hd Hn. split; [by apply Hu|]. intros Hm.
    apply (users_agree kend managed ex s (v :: fl) ds (eq v)); try done; [by intros p <-|]. intros p <-. by left.
  - intros i Hi'. unfold s1, zeroed; cbn [m_mem set_m_mem]. rewrite ldb_memset, in_range_true by (unfold PGSIZE; lia). done.
  - intros d Hd. apply absent_frame. by eauto.
Qed.

Lemma settled_upd ex ds v : settled ex ds -> ex v = 0 -> settled (upd ex v 1) ds.
Proof. intros [Hl He] H0. split; [done|]. intros q. specialize (He q). unfold upd. case_decide; subst; lia. Qed.

(** The entry for a new user page. *)
Lemma new_upte v : page_ok kend v ->
  let x := Z.lor (Z.lor (V2P v) (Z.lor PTE_W PTE_U)) PTE_P in
  0 <= x < 2 ^ 32 /\ tgt x = v /\ has x PTE_P = true /\ has x PTE_W = true /\ has x PTE_U = true.
Proof.
  intros Hv x. destruct (page_ok_V2P kend Hkend v Hv) as (Hal & Hb & _). unfold PHYSTOP in Hb.
  assert (x = V2P v + 7) as ->.
  { unfold x. rewrite <- !Z.lor_assoc. by rewrite lor_page by (done || (vm_compute; split; congruence)). }
  split; [lia|]. split; [by apply (entry_page kend Hkend v 7)|].
  rewrite has_P, has_W, has_U, !testbit_low by (done || lia). done.
Qed.

Lemma map_new_page ex s fl ds d n v :
  vm_inv ex s (v :: fl) ds -> settled ex ds -> LkKmem ∉ m_held s -> d ∈ ds -> 0 <= n < UPAGES ->
  mapped (m_mem s) d n = false ->
  let s1 := zeroed v s in
  (mappages d (n * 4096) PGSIZE (V2P v) (Z.lor PTE_W PTE_U) s1 = Ret (-1) s1 /\ fl = [] /\ (0 < absent (m_mem s) d)%nat) \/
  exists s' fl' new, mappages d (n * 4096) PGSIZE (V2P v) (Z.lor PTE_W PTE_U) s1 = Ret 0 s' /\
    vm_inv ex s' fl' ds /\ ustep ex ds d s s' /\ m_cr3 s' = m_cr3 s /\ fl = new ++ fl' /\
    (length new + absent (m_mem s') d = absent (m_mem s) d)%nat /\ grown (Z.eqb n) d (m_mem s) (m_mem s') /\
    ex (tgt (upte (m_mem s') d n)) = 0.
Proof.
  intros Hi Hse Hh Hd Hn Hm s1.
  destruct (zeroed_page ex s fl ds v Hi Hse) as (Hv & Hvf & Hnp & Hr & Hex & Hi1 & Hu1 & Hag1 & Hz1 & Hab1). fold s1 in Hnp, Hr, Hi1, Hu1, Hag1, Hz1, Hab1.
  destruct (new_upte v Hv) as (Hxb & Hxt & HxP & HxW & HxU). pose proof (settled_upd ex ds v Hse Hex) as Hse1.
  set (x := Z.lor (Z.lor (V2P v) (Z.lor PTE_W PTE_U)) PTE_P) in *.
  destruct (map_page kend managed Hkend (upd ex v 1) s1 fl ds d n x (V2P v) (Z.lor PTE_W PTE_U))
    as [(Hr2 & Hfl & Hpos)|(s2 & fl2 & new & Hr2 & Hi2 & Hs2 & Hc2 & Hf2 & Hab2 & _ & _ & Hu2 & Hk2)];
    rewrite ?Hxt; try done.
  { unfold mapped. by rewrite (proj1 (Hu1 d n Hd Hn)). }
  { intros d' n' Hd' Hn' Hw Heq. apply andb_true_iff in Hw as [Hw _].
    pose proof (refs_pos _ _ _ _ Hd' Hn' Hw). rewrite Heq in *. lia. }
  { left. split; [done|]. split; [done|]. by rewrite <- Hab1. }
  assert (Hkern : agree (fun p => page_ok kend p /\ ex p = 0) (m_mem s1) (m_mem s2)).
  { apply (agree_mono _ _ _ _ (us_kernel _ _ _ _ _ _ Hs2)). intros p [Hp He]. split; [done|]. unfold upd in He.
    case_decide as Hpv; [rewrite Hpv in He; lia|done]. }
  right. exists s2, fl2, new. split; [done|]. split; [|split; [|split; [done|split; [done|split; [by rewrite <- Hab1|split; [|by rewrite Hu2, decide_True, Hxt]]]]]].
  - eapply vm_inv_ext; [|exact Hi2]. intros q. rewrite Hxt. unfold upd. case_decide; lia.
  - split.
    + apply (us_held _ _ _ _ _ _ Hs2).
    + apply (us_lock _ _ _ _ _ _ Hs2).
    + intros d' n' Hd' Hne Hn'. destruct (Hu1 d' n' Hd' Hn') as [E1 S1].
      destruct (us_other _ _ _ _ _ _ Hs2 d' n' Hd' Hne Hn') as [E2 S2]. split; [congruence|]. intros Hm'.
      eapply same_on_trans; [by apply S1|]. rewrite <- E1. apply S2. unfold mapped in *. by rewrite E1.
    + eapply agree_trans; [|exact Hkern]. apply (agree_mono _ _ _ _ Hag1). by intros p <-.
  - intros n' Hn'. destruct (Hu1 d n' Hd Hn') as [E1 S1]. destruct (Z.eqb_spec n n') as [<-|Hne].
    + unfold writable, mapped. rewrite Hu2, decide_True by done. rewrite HxP, HxW, HxU, Hxt. split; [done|]. split; [done|].
      intros i Hi'. assert (Hsv : same_on (m_mem s1) (m_mem s2) v).
      { apply (agree_same_on kend _ _ _ _ (us_kernel _ _ _ _ _ _ Hs2) Hv); [by intros q [? _]|]. rewrite upd_eq. lia. }
      rewrite Hsv by lia. by apply Hz1.
    + rewrite Hu2, decide_False by done. split; [done|]. intros Hm'. eapply same_on_trans; [by apply S1|].
      rewrite <- E1. apply Hk2; [done|]. unfold mapped in *. by rewrite E1.
Qed.
(** ** [allocuvm] *)

(** The pages [P] of [d] are unmapped; the others kept entries and contents. *)
Definition emptied (P : Z -> bool) (d : Z) (m m' : mem) : Prop := forall n, 0 <= n < UPAGES ->
  if P n then mapped m' d n = false
  else upte m' d n = upte m d n /\ (mapped m d n = true -> same_on m m' (tgt (upte m d n))).

Lemma grown_trans P Q R d m1 m2 m3 :
  (forall n, 0 <= n < UPAGES -> R n = P n || Q n) -> (forall n, 0 <= n < UPAGES -> P n = true -> Q n = false) ->
  grown P d m1 m2 -> grown Q d m2 m3 -> grown R d m1 m3.
Proof.
  intros HR Hdis H1 H2 n Hn. specialize (H1 n Hn). specialize (H2 n Hn). rewrite HR by done.
  destruct (P n) eqn:HP; cbn [orb].
  - rewrite (Hdis n Hn HP) in H2. destruct H1 as (W & U & Z0), H2 as (E & S). unfold writable, mapped in *. rewrite E.
    split; [done|]. split; [done|]. intros i Hi. rewrite S; [by apply Z0|by apply andb_true_iff in W as [? _]|lia].
  - destruct H1 as (E1 & S1). destruct (Q n); [done|]. destruct H2 as (E2 & S2). split; [congruence|]. intros Hm.
    eapply same_on_trans; [by apply S1|]. rewrite <- E1. apply S2. unfold mapped in *. by rewrite E1.
Qed.

Lemma grown_emptied P R d m1 m2 m3 : (forall n, 0 <= n < UPAGES -> P n = true -> R n = true) ->
  grown P d m1 m2 -> emptied R d m2 m3 -> emptied R d m1 m3.
Proof.
  intros HR H1 H2 n Hn. specialize (H1 n Hn). specialize (H2 n Hn). destruct (R n) eqn:HRn; [done|].
  destruct (P n) eqn:HP; [by rewrite HR in HRn|]. destruct H1 as (E1 & S1), H2 as (E2 & S2). split; [congruence|].
  intros Hm. eapply same_on_trans; [by apply S1|]. rewrite <- E1. apply S2. unfold mapped in *. by rewrite E1.
Qed.

Lemma cleared_emptied P d m m' : cleared P d m m' -> emptied P d m m'.
Proof.
  intros Hc n Hn. pose proof (mapped_cleared _ _ _ _ _ Hc Hn) as Hm. destruct (Hc n Hn) as [E S].
  destruct (P n) eqn:HP; [by rewrite Hm, andb_false_r|]. cbn [andb] in E. split; [done|]. by apply S.
Qed.

(** Taking back what [allocuvm] has mapped so far. *)
Lemma undo_alloc ex s fl ds d oldsz newsz :
  vm_inv ex s fl ds -> settled ex ds -> LkKmem ∉ m_held s -> d ∈ ds ->
  0 <= oldsz < newsz -> newsz < KERNBASE -> let a0 := PGROUNDUP oldsz in
  mapped (m_mem s) d (a0 / 4096) = true \/
    (forall n, 0 <= n < UPAGES -> a0 <= n * 4096 < newsz -> mapped (m_mem s) d n = false) ->
  exists s' fl', deallocuvm kend d newsz oldsz s = Ret oldsz s' /\ vm_inv ex s' fl' ds /\ ustep ex ds d s s' /\
    m_cr3 s' = m_cr3 s /\ emptied (in_span a0 newsz) d (m_mem s) (m_mem s') /\
    (forall n, 0 <= n < UPAGES -> mapped (m_mem s') d n = true -> upte (m_mem s') d n = upte (m_mem s) d n).
Proof.
  intros Hi Hse Hh Hd Hsz Hnew a0 Hor. destruct (PGROUNDUP_span oldsz) as [Hr Hal]; [lia|]. fold a0 in Hr, Hal.
  destruct Hor as [Hm|Hno].
  - destruct (deallocuvm_spec kend managed Hkend ex ds d s fl newsz oldsz Hi Hse Hh Hd)
      as (s' & fl' & Hrun & Hi' & Hu & Hc & _ & Hcr & _); [lia|lia| |].
    + left. fold a0. replace a0 with (a0 / 4096 * 4096) by (pose proof (Z.div_mod a0 4096); lia). by apply pres_mapped.
    + fold a0 in Hc. exists s', fl'. split; [done|]. split; [done|]. split; [done|]. split; [done|].
      split; [by apply cleared_emptied|]. intros n Hn Hm'. pose proof (mapped_cleared _ _ _ _ _ Hc Hn) as Hmc.
      rewrite Hm' in Hmc. symmetry in Hmc. apply andb_true_iff in Hmc as [_ HP%negb_true_iff].
      destruct (Hc n Hn) as [E _]. by rewrite HP in E.
  - exists s, fl. split; [|split; [done|split; [apply ustep_refl|split; [done|split]]]].
    + unfold deallocuvm. destruct (Z.leb_spec newsz oldsz); [lia|]. fold a0.
      rewrite (bind_ret _ _ _ tt s); [done|]. apply deallocuvm_loop_nothing; [by eapply vi_ok|lia|lia|done| |done].
      unfold PGSIZE. pose proof (Z.div_mod newsz 4096). pose proof (Z.mod_pos_bound newsz 4096).
      assert (0 <= newsz / 4096) by (apply Z.div_pos; lia). lia.
    + intros n Hn. destruct (in_span a0 newsz n) eqn:HP; [|done]. apply in_span_spec in HP. by apply Hno.
    + done.
Qed.

Lemma refs_none m ds v : (forall d n, d ∈ ds -> 0 <= n < UPAGES -> mapped m d n = true -> tgt (upte m d n) <> v) ->
  refs m ds v = 0%nat.
Proof.
  intros Hno. apply countb_none. intros [d n] [Hd Hn]%elem_of_slots. cbn [fst snd]. apply not_true_iff_false.
  intros [Hm Ht]%hits_mapped. by apply (Hno d n).
Qed.

(** The failure of [mappages] after [kalloc] succeeded: undo, then free the page. *)
Lemma undo_new_page ex s ds d v oldsz newsz :
  vm_inv ex s [v] ds -> settled ex ds -> LkKmem ∉ m_held s -> d ∈ ds ->
  0 <= oldsz < newsz -> newsz < KERNBASE -> let a0 := PGROUNDUP oldsz in a0 < newsz ->
  mapped (m_mem s) d (a0 / 4096) = true \/
    (forall n, 0 <= n < UPAGES -> a0 <= n * 4096 < newsz -> mapped (m_mem s) d n = false) ->
  exists s' fl', (deallocuvm kend d newsz oldsz ;;; kfree kend v ;;; ret 0) (zeroed v s) = Ret 0 s' /\
    vm_inv ex s' fl' ds /\ ustep ex ds d s s' /\
    m_cr3 s' = m_cr3 s /\ emptied (in_span a0 newsz) d (m_mem s) (m_mem s').
Proof.
  intros Hi Hse Hh Hd Hsz Hnew a0 Ha0 Hor.
  destruct (zeroed_page ex s [] ds v Hi Hse) as (Hv & Hvf & Hnp & Hr & Hex & Hi1 & Hu1 & Hag1 & Hz1 & Hab1).
  set (s1 := zeroed v s) in *. pose proof (settled_upd ex ds v Hse Hex) as Hse1.
  assert (Hm1 : forall d' n, d' ∈ ds -> 0 <= n < UPAGES -> mapped (m_mem s1) d' n = mapped (m_mem s) d' n)
    by (intros d' n Hd' Hn; unfold mapped; by rewrite (proj1 (Hu1 d' n Hd' Hn))).
  destruct (PGROUNDUP_span oldsz) as [Hr0 _]; [lia|]. fold a0 in Hr0.
  destruct (undo_alloc (upd ex v 1) s1 [] ds d oldsz newsz Hi1 Hse1) as (s2 & fl2 & Hr2 & Hi2 & Hs2 & Hc2 & He2 & Hk2);
    [done|done|done|done| |].
  { destruct Hor as [Hm|Hno]; [left|right].
    - fold a0. rewrite Hm1; [done|done|]. apply upage_of_va. unfold KERNBASE in *. lia.
    - intros n Hn Hin. rewrite Hm1 by done. by apply Hno. }
  fold a0 in He2. assert (Hrv : refs (m_mem s2) ds v = 0%nat).
  { apply refs_none. intros d' n Hd' Hn Hm Heq.
    assert (Hsame : upte (m_mem s2) d' n = upte (m_mem s1) d' n).
    { destruct (decide (d' = d)) as [->|Hne]; [by apply Hk2|by apply (us_other _ _ _ _ _ _ Hs2)]. }
    unfold mapped in Hm. rewrite Hsame in Hm, Heq. pose proof (refs_pos _ _ _ _ Hd' Hn Hm). rewrite Heq in *. lia. }
  destruct (kfree_held kend managed Hkend _ s2 fl2 ds v Hi2) as (s3 & Hr3 & Hi3 & Ha3 & Ho3 & Hh3 & Hl3 & Hc3);
    [by rewrite (us_held _ _ _ _ _ _ Hs2)|done|rewrite upd_eq; lia|done|].
  assert (Hs3 : forall d' n, d' ∈ ds -> 0 <= n < UPAGES -> upte (m_mem s2) d' n = upte (m_mem s) d' n ->
    (mapped (m_mem s) d' n = true -> same_on (m_mem s1) (m_mem s2) (tgt (upte (m_mem s) d' n))) ->
    upte (m_mem s3) d' n = upte (m_mem s) d' n /\
    (mapped (m_mem s) d' n = true -> same_on (m_mem s) (m_mem s3) (tgt (upte (m_mem s) d' n)))).
  { intros d' n Hd' Hn E S. destruct (Ho3 d' n Hd' Hn) as [E3 S3]. split; [congruence|]. intros Hm.
    eapply same_on_trans; [by apply (Hu1 d' n Hd' Hn)|]. eapply same_on_trans; [by apply S|].
    rewrite <- E. apply S3. unfold mapped in *. by rewrite E. }
  exists s3, (v :: fl2). split; [step Hr2; by step Hr3|]. split; [|split; [split|split; [by rewrite Hc3, Hc2|]]].
  - eapply vm_inv_ext; [|exact Hi3]. intros q. unfold upd. case_decide; lia.
  - rewrite Hh3. apply (us_held _ _ _ _ _ _ Hs2).
  - rewrite Hl3. apply (us_lock _ _ _ _ _ _ Hs2).
  - intros d' n Hd' Hne Hn. destruct (us_other _ _ _ _ _ _ Hs2 d' n Hd' Hne Hn) as [E2 S2].
    destruct (Hu1 d' n Hd' Hn) as [E1 _]. apply Hs3; [done|done|congruence|]. intros Hm. rewrite <- E1. apply S2.
    by rewrite Hm1.
  - apply (agree_trans _ _ (m_mem s2)); [apply (agree_trans _ _ (m_mem s1))|].
    + apply (agree_mono _ _ _ _ Hag1). by intros p <-.
    + apply (agree_mono _ _ _ _ (us_kernel _ _ _ _ _ _ Hs2)). intros p [Hp He]. split; [done|]. unfold upd in He.
      case_decide as Hpv; [rewrite Hpv in He; lia|done].
    + apply (agree_mono _ _ _ _ Ha3). by intros p <-.
  - intros n Hn. specialize (He2 n Hn). destruct (in_span a0 newsz n).
    + unfold mapped in *. by rewrite (proj1 (Ho3 d n Hd Hn)).
    + destruct He2 as [E2 S2]. destruct (Hu1 d n Hd Hn) as [E1 _]. apply Hs3; [done|done|congruence|].
      intros Hm. rewrite <- E1. apply S2. by rewrite Hm1.
Qed.

Lemma allocuvm_loop_spec ex ds d oldsz newsz :
  settled ex ds -> d ∈ ds -> 0 <= oldsz <= newsz -> newsz < KERNBASE -> let a0 := PGROUNDUP oldsz in
  forall fuel a s fl, vm_inv ex s fl ds -> LkKmem ∉ m_held s -> a0 <= a -> a mod 4096 = 0 ->
  newsz - a <= 4096 * Z.of_nat fuel -> a < newsz + 4096 -> (a = a0 \/ mapped (m_mem s) d (a0 / 4096) = true) ->
  (forall n, 0 <= n < UPAGES -> a <= n * 4096 < newsz -> mapped (m_mem s) d n = false) ->
  (exists s' fl' new, allocuvm_loop kend fuel d a oldsz newsz s = Ret newsz s' /\ vm_inv ex s' fl' ds /\
    ustep ex ds d s s' /\ m_cr3 s' = m_cr3 s /\ fl = new ++ fl' /\ grown (in_span a newsz) d (m_mem s) (m_mem s') /\
    Z.of_nat (length new + absent (m_mem s') d) = Z.of_nat (absent (m_mem s) d) + (newsz - a + 4095) / 4096 /\
    (forall n, 0 <= n < UPAGES -> in_span a newsz n = true -> ex (tgt (upte (m_mem s') d n)) = 0)) \/
  (exists s' fl', allocuvm_loop kend fuel d a oldsz newsz s = Ret 0 s' /\ vm_inv ex s' fl' ds /\
    ustep ex ds d s s' /\ m_cr3 s' = m_cr3 s /\ emptied (in_span a0 newsz) d (m_mem s) (m_mem s') /\
    Z.of_nat (length fl) < Z.of_nat (absent (m_mem s) d) + (newsz - a + 4095) / 4096).
Proof.
  intros Hse Hd Hold Hnew a0. induction fuel as [|fuel IH]; intros a s fl Hi Hh Ha Hal Hfuel Hub Hor Hno; cbn [allocuvm_loop];
    (destruct (Z.ltb_spec a newsz) as [Hlt|Hge]; cbn [negb]; [|left; exists s, fl, []; split; [done|]; split; [done|];
       split; [apply ustep_refl|]; split; [done|]; split; [done|]; split; [intros n Hn;
       rewrite (proj2 (in_span_false _ _ _)) by lia; done|]; split; [cbn [length]; Z.to_euclidean_division_equations; lia|];
       intros n _ Hsp%in_span_spec; lia]); [lia|].
  assert (Hdiv : (newsz - a + 4095) / 4096 = (newsz - (a + 4096) + 4095) / 4096 + 1)
    by (Z.to_euclidean_division_equations; lia).
  assert (Hdp : 0 <= (newsz - (a + 4096) + 4095) / 4096) by (Z.to_euclidean_division_equations; lia).
  destruct (PGROUNDUP_span oldsz) as [Hr0 Hal0]; [lia|]. fold a0 in Hr0, Hal0.
  assert (Hundo : mapped (m_mem s) d (a0 / 4096) = true \/
    (forall n, 0 <= n < UPAGES -> a0 <= n * 4096 < newsz -> mapped (m_mem s) d n = false)).
  { destruct Hor as [->|Hm]; [by right|by left]. }
  assert (Hn : 0 <= a / 4096 < UPAGES) by (apply upage_of_va; lia).
  assert (Han : a = a / 4096 * 4096) by (pose proof (Z.div_mod a 4096); lia).
  assert (Hma : mapped (m_mem s) d (a / 4096) = false) by (apply Hno; lia).
  destruct fl as [|v fl].
  { step (kalloc_empty kend s (vi_alloc _ _ _ _ _ _ Hi) Hh). rewrite Z.eqb_refl. right.
    destruct (undo_alloc ex s [] ds d oldsz newsz Hi Hse Hh Hd) as (s' & fl' & Hr' & Hi' & Hu' & Hc' & He' & _); [lia|lia|done|].
    exists s', fl'. split; [by step Hr'|]. split; [done|]. split; [done|]. split; [done|]. split; [done|]. cbn [length]. lia. }
  step (kalloc_some kend Hkend s v fl (vi_alloc _ _ _ _ _ _ Hi) Hh).
  assert (Hv0 : v <> 0).
  { destruct (vi_alloc _ _ _ _ _ _ Hi) as [_ _ Hp _ _]. inversion Hp as [|?? Hv _]; subst.
    apply (page_ok_lo kend Hkend) in Hv. unfold KERNBASE in *. lia. }
  rewrite (proj2 (Z.eqb_neq v 0) Hv0).
  assert (Hm : mod_mem (fun m => memset m v 0 PGSIZE) (kalloc_upd v s) = Ret tt (zeroed v s)) by done. step Hm.
  destruct (map_new_page ex s fl ds d (a / 4096) v Hi Hse Hh Hd Hn Hma)
    as [(Hr & -> & Hpos)|(s1 & fl1 & new1 & Hr & Hi1 & Hu1 & Hc1 & Hf1 & Hab1 & Hg1 & Hex1)]; rewrite <- Han in Hr; step Hr.
  - change (-1 <? 0) with true. cbv iota. right.
    destruct (undo_new_page ex s ds d v oldsz newsz Hi Hse Hh Hd) as (s' & fl' & Hr' & Hi' & Hu' & Hc' & He'); [lia|lia|fold a0; lia|done|].
    exists s', fl'. split; [done|]. split; [done|]. split; [done|]. split; [done|]. split; [done|]. cbn [length]. lia.
  - change (0 <? 0) with false. cbv iota. unfold PGSIZE. rewrite u32_id by (unfold KERNBASE in *; lia).
    assert (Hal' : (a + 4096) mod 4096 = 0) by (by rewrite <- Z.add_mod_idemp_l, Hal by lia).
    assert (Hmono : forall n, 0 <= n < UPAGES -> n <> a / 4096 -> upte (m_mem s1) d n = upte (m_mem s) d n).
    { intros n Hn' Hne. specialize (Hg1 n Hn'). destruct (Z.eqb_spec (a / 4096) n); [congruence|]. apply Hg1. }
    destruct (IH (a + 4096) s1 fl1) as [(s' & fl' & new & Hr' & Hi' & Hu' & Hc' & Hf' & Hg' & Hl' & Hx')|(s' & fl' & Hr' & Hi' & Hu' & Hc' & He' & Hl')];
      [done|by rewrite (us_held _ _ _ _ _ _ Hu1)|lia|done|lia|lia| | | |].
    + right. destruct (decide (a0 / 4096 = a / 4096)) as [He|Hne].
      * rewrite He. specialize (Hg1 _ Hn). rewrite Z.eqb_refl in Hg1. destruct Hg1 as (Hw & _).
        by apply andb_true_iff in Hw as [? _].
      * destruct Hor as [->|Hm0]; [done|]. unfold mapped in *. rewrite Hmono; [done| |done].
        apply upage_of_va. lia.
    + intros n Hn' Hin. unfold mapped in *. rewrite Hmono; [apply Hno; lia|done|lia].
    + left. exists s', fl', (v :: new1 ++ new). split; [done|]. split; [done|]. split; [by eapply ustep_trans|].
      split; [congruence|]. split; [cbn [app]; rewrite <- app_assoc; by rewrite <- Hf', <- Hf1|].
      split; [|split; [cbn [length]; autorewrite with len; lia|]].
      2:{ intros n Hn' Hsp%in_span_spec. destruct (decide (n = a / 4096)) as [->|Hne].
          - specialize (Hg' _ Hn'). rewrite (proj2 (in_span_false _ _ _)) in Hg' by lia. by rewrite (proj1 Hg').
          - apply Hx'; [done|]. apply in_span_spec. lia. }
      apply (grown_trans (Z.eqb (a / 4096)) (in_span (a + 4096) newsz) _ d _ (m_mem s1)); [| |done|done].
      * intros n Hn'. unfold in_span. destruct (Z.eqb_spec (a / 4096) n), (Z.leb_spec a (n * 4096)),
          (Z.ltb_spec (n * 4096) newsz), (Z.leb_spec (a + 4096) (n * 4096)); simpl; done || lia.
      * intros n Hn' He%Z.eqb_eq. apply in_span_false. lia.
    + right. exists s', fl'. split; [done|]. split; [done|]. split; [by eapply ustep_trans|]. split; [congruence|].
      split; [|cbn [length]; rewrite Hf1; autorewrite with len; lia].
      apply (grown_emptied (Z.eqb (a / 4096)) _ _ _ (m_mem s1)); [|done|done].
      intros n Hn' He%Z.eqb_eq. apply in_span_spec. lia.
Qed.

Lemma allocuvm_spec ex s fl ds d oldsz newsz :
  vm_inv ex s fl ds -> settled ex ds -> LkKmem ∉ m_held s -> d ∈ ds -> 0 <= oldsz <= newsz -> newsz < KERNBASE ->
  let a0 := PGROUNDUP oldsz in
  (forall n, 0 <= n < UPAGES -> a0 <= n * 4096 < newsz -> mapped (m_mem s) d n = false) ->
  (exists s' fl' new, allocuvm kend d oldsz newsz s = Ret newsz s' /\ vm_inv ex s' fl' ds /\
    ustep ex ds d s s' /\ m_cr3 s' = m_cr3 s /\ fl = new ++ fl' /\ grown (in_span a0 newsz) d (m_mem s) (m_mem s') /\
    Z.of_nat (length new + absent (m_mem s') d) = Z.of_nat (absent (m_mem s) d) + (newsz - a0 + 4095) / 4096 /\
    (forall n, 0 <= n < UPAGES -> in_span a0 newsz n = true -> ex (tgt (upte (m_mem s') d n)) = 0)) \/
  (exists s' fl', allocuvm kend d oldsz newsz s = Ret 0 s' /\ vm_inv ex s' fl' ds /\
    ustep ex ds d s s' /\ m_cr3 s' = m_cr3 s /\ emptied (in_span a0 newsz) d (m_mem s) (m_mem s') /\
    Z.of_nat (length fl) < Z.of_nat (absent (m_mem s) d) + (newsz - a0 + 4095) / 4096).
Proof.
  intros Hi Hse Hh Hd Hsz Hnew a0 Hno. unfold allocuvm. destruct (Z.leb_spec KERNBASE newsz); [lia|].
  destruct (Z.ltb_spec newsz oldsz); [lia|]. destruct (PGROUNDUP_span oldsz) as [Hr Hal]; [lia|]. fold a0 in Hr, Hal |- *.
  apply allocuvm_loop_spec; try done; [|lia|by left].
  unfold PGSIZE. pose proof (Z.div_mod newsz 4096). pose proof (Z.mod_pos_bound newsz 4096).
  assert (0 <= newsz / 4096) by (apply Z.div_pos; lia). lia.
Qed.

Lemma grown_uread P d m m' va : grown P d m m' -> 0 <= va < KERNBASE ->
  uread m' d va = if P (va / 4096) then Some 0 else uread m d va.
Proof.
  intros Hg Hva. pose proof (Z.mod_pos_bound va 4096 ltac:(lia)) as Hm. specialize (Hg _ (upage_of_va va Hva)).
  destruct (P (va / 4096)); [|destruct Hg; by apply uread_eq]. destruct Hg as (Hw & _ & Hz). apply andb_true_iff in Hw as [Hmp _].
  unfold uread. by rewrite Hmp, Hz.
Qed.

Lemma emptied_uread P d m m' va : emptied P d m m' -> 0 <= va < KERNBASE ->
  (P (va / 4096) = true -> mapped m d (va / 4096) = false) -> uread m' d va = uread m d va.
Proof.
  intros He Hva Hu. specialize (He _ (upage_of_va va Hva)). destruct (P (va / 4096)); [|destruct He; by apply uread_eq].
  unfold uread. by rewrite He, Hu.
Qed.

End Grow.
