(* ===== verification/Load.v ===== *)
(** * Filling a new address space

    What the kernel does to an address space it is building, before any process runs in
    it: storing bytes into its pages, hiding a page from the user, growing it, and copying
    out to it.  [space_is] describes such an address space by its size, the byte at every
    address and its guard page. *)

From S2P Require Import Prelude Mmu Mem Cstring Kalloc Vm PageTable Walk VmInv Uvm Kvm Cow Grow.

(** The bytes [l] at address [a], over [f]. *)
Definition overlay (f : Z -> Z) (a : Z) (l : list Z) : Z -> Z := fun va =>
  if in_range va a (Z.of_nat (length l)) then u8 (nth (Z.to_nat (va - a)) l 0) else f va.

Lemma overlay_nil f a va : overlay f a [] va = f va.
Proof. unfold overlay, in_range. cbn [length]. destruct (Z.leb_spec a va), (Z.ltb_spec va (a + Z.of_nat 0)); simpl; done || lia. Qed.

Lemma overlay_app f a l1 l2 va : overlay f a (l1 ++ l2) va = overlay (overlay f a l1) (a + Z.of_nat (length l1)) l2 va.
Proof.
  unfold overlay, in_range. rewrite length_app, Nat2Z.inj_add.
  destruct (Z.leb_spec a va), (Z.ltb_spec va (a + (Z.of_nat (length l1) + Z.of_nat (length l2)))),
    (Z.leb_spec (a + Z.of_nat (length l1)) va), (Z.ltb_spec va (a + Z.of_nat (length l1) + Z.of_nat (length l2))),
    (Z.ltb_spec va (a + Z.of_nat (length l1))); cbn [andb]; try lia; try done.
  - rewrite app_nth2 by lia. do 2 f_equal. lia.
  - rewrite app_nth1 by lia. done.
Qed.

Lemma overlay_ext f g a l va : f va = g va -> overlay f a l va = overlay g a l va.
Proof. intros E. unfold overlay. by rewrite E. Qed.

Lemma ldb_write_bytes m a l b : ldb (write_bytes m a l) b = overlay (ldb m) a l b.
Proof.
  unfold overlay. destruct (in_range b a (Z.of_nat (length l))) eqn:Hr; unfold in_range in Hr.
  - apply andb_true_iff in Hr as [H1%Z.leb_le H2%Z.ltb_lt].
    destruct (lookup_lt_is_Some_2 l (Z.to_nat (b - a)) ltac:(lia)) as [x Hx].
    rewrite (nth_lookup_Some _ _ _ _ Hx), <- (ldb_write_bytes_in l m a _ x Hx). f_equal. lia.
  - apply ldb_write_bytes_out. apply andb_false_iff in Hr as [H1%Z.leb_gt|H1%Z.ltb_ge]; lia.
Qed.

Lemma PGROUNDUP_npages sz : 0 <= sz <= KERNBASE -> PGROUNDUP sz = npages sz * 4096.
Proof. intros Hsz. destruct (PGROUNDUP_span sz Hsz) as [Hr Hal]. unfold npages. Z.to_euclidean_division_equations; lia. Qed.

Section Load.
Context (kend : Z) (managed : Z -> Prop) (Hkend : KERNLINK <= kend <= KERNBASE + PHYSTOP).
Implicit Types (ex : Z -> Z) (s : machine) (fl ds : list Z).
Abbreviation vm_inv := (vm_inv kend managed).
Abbreviation ustep := (ustep kend).

(** ** Storing into a page *)

Lemma user_write ex s fl ds d n o l :
  vm_inv ex s fl ds -> settled ex ds -> d ∈ ds -> 0 <= n < UPAGES -> writable (m_mem s) d n = true ->
  ex (tgt (upte (m_mem s) d n)) = 0 -> 0 <= o -> o + Z.of_nat (length l) <= 4096 ->
  let s' := set_m_mem (write_bytes (m_mem s) (tgt (upte (m_mem s) d n) + o) l) s in
  vm_inv ex s' fl ds /\ ustep ex ds d s s' /\ absent (m_mem s') d = absent (m_mem s) d /\
  (forall n', upte (m_mem s') d n' = upte (m_mem s) d n') /\
  (forall va, 0 <= va < KERNBASE -> uread (m_mem s') d va =
    if in_range va (n * 4096 + o) (Z.of_nat (length l)) then Some (u8 (nth (Z.to_nat (va - (n * 4096 + o))) l 0))
    else uread (m_mem s) d va).
Proof.
  intros Hi Hse Hd Hn Hw Hex Ho Hl s'. set (q := tgt (upte (m_mem s) d n)) in *.
  assert (Hm : mapped (m_mem s) d n = true) by (by apply andb_true_iff in Hw as [? _]).
  destruct (mapped_page _ _ _ _ _ _ _ _ Hi (fun q => proj1 (se_ex _ _ Hse q)) Hd Hn Hm) as (Hq & Hqf & Hnp & _). fold q in Hq, Hqf, Hnp.
  assert (Hag : agree (eq q) (m_mem s) (m_mem s')).
  { intros a Hout. cbn. rewrite ldb_write_bytes_out; [done|]. specialize (Hout _ eq_refl). lia. }
  assert (Hpt : forall d' p, d' ∈ ds -> in_pt (m_mem s) d' p -> same_on (m_mem s) (m_mem s') p)
    by (intros d' p Hd'; by apply (data_pt_same kend managed ex s fl ds q)).
  assert (Hu : forall d' n', d' ∈ ds -> upte (m_mem s') d' n' = upte (m_mem s) d' n')
    by (intros d' n' Hd'; apply pv_frame; intros p; by apply Hpt).
  assert (Hother : forall d' n', d' ∈ ds -> 0 <= n' < UPAGES -> (d', n') <> (d, n) -> mapped (m_mem s) d' n' = true ->
    same_on (m_mem s) (m_mem s') (tgt (upte (m_mem s) d' n'))).
  { intros d' n' Hd' Hn' Hne Hm'. apply (agree_same_on kend (eq q)); [done|by eapply vi_page|by intros ? <-|]. intros Ht. apply Hne.
    symmetry. apply (refs_one (m_mem s) ds); try done; [by eapply vi_nodup|by apply (vi_cow _ _ _ _ _ _ Hi)|].
    fold q. rewrite Ht, (hits_self _ Hm'). by apply bool_decide_eq_true. }
  split; [by apply (vm_data kend managed ex s fl ds q)|]. split; [|split; [apply absent_frame; intros p; by apply Hpt|split; [by eauto|]]].
  - split; [done|done| |].
    + intros d' n' Hd' Hne Hn'. split; [by apply Hu|]. apply Hother; [done|done|congruence].
    + apply (agree_mono _ _ _ _ Hag). by intros p <-.
  - intros va Hva. unfold uread, mapped. rewrite Hu by done. fold (mapped (m_mem s) d (va / 4096)).
    pose proof (upage_of_va va Hva) as Hn'. pose proof (Z.mod_pos_bound va 4096 ltac:(lia)) as Hmod.
    pose proof (Z.div_mod va 4096 ltac:(lia)) as Hdm. destruct (decide (va / 4096 = n)) as [He|Hne].
    + rewrite He, Hm. fold q. cbn [m_mem set_m_mem s']. rewrite ldb_write_bytes. unfold overlay, in_range.
      destruct (Z.leb_spec (q + o) (q + va mod 4096)), (Z.leb_spec (n * 4096 + o) va); try lia;
        destruct (Z.ltb_spec (q + va mod 4096) (q + o + Z.of_nat (length l))), (Z.ltb_spec va (n * 4096 + o + Z.of_nat (length l))); try lia; cbn [andb]; try done.
      do 4 f_equal. lia.
    + rewrite in_range_false by lia. destruct (mapped (m_mem s) d (va / 4096)) eqn:Hm'; [|done]. f_equal.
      apply (Hother d _ Hd Hn'); [congruence|done|lia].
Qed.
(** Storing into a page of the kernel itself. *)
Lemma kernel_write ex s fl ds K m' :
  vm_inv ex s fl ds -> settled ex ds -> page_ok kend K -> 0 < ex K -> refs (m_mem s) ds K = 0%nat -> agree (eq K) (m_mem s) m' ->
  vm_inv ex (set_m_mem m' s) fl ds /\
  (forall d n, d ∈ ds -> 0 <= n < UPAGES -> upte m' d n = upte (m_mem s) d n /\
    (mapped (m_mem s) d n = true -> same_on (m_mem s) m' (tgt (upte (m_mem s) d n)))).
Proof.
  intros Hi Hse HK Hex Hr Hag.
  assert (Hf : K ∉ fl) by (intros Hin; destruct (free_unref _ _ _ _ _ _ K Hi Hin) as (_ & H0 & _); [apply Hse|lia]).
  assert (Hnp : not_pt (m_mem s) ds K) by (intros d Hd Hpt; destruct (vi_pt _ _ _ _ _ _ Hi d K Hd Hpt) as (_ & _ & _ & H0); lia).
  split; [by apply (vm_data kend managed ex s fl ds K)|]. intros d n Hd Hn. split.
  - apply pv_frame. intros p. by apply (data_pt_same kend managed ex s fl ds K).
  - intros Hm. apply (users_agree kend managed ex s fl ds (eq K)); try done; [by intros p <-|]. intros p <-. right. by right.
Qed.

(** ** Hiding a page from the user *)

Definition clearU (e : Z) : Z := Z.land e (Z.lnot PTE_U).

Lemma clearU_facts e : 0 <= e < 2 ^ 32 ->
  0 <= clearU e < 2 ^ 32 /\ tgt (clearU e) = tgt e /\ has (clearU e) PTE_P = has e PTE_P /\
  has (clearU e) PTE_W = has e PTE_W /\ has (clearU e) PTE_U = false.
Proof.
  intros He. destruct (PTE_split e He) as (Heq & Hal & Hfl & Hlo & Hhi). unfold clearU.
  assert (Hb : 0 <= Z.land (PTE_FLAGS e) (Z.lnot PTE_U) < 4096) by (apply (land_bound _ _ 12); lia).
  pose proof (clear_flag e PTE_U He ltac:(unfold PTE_U; lia)) as Hc. split; [lia|]. split.
  - unfold tgt. rewrite Hc. by rewrite PTE_ADDR_add by (done || lia).
  - rewrite !has_P, !has_W, !has_U. change PTE_U with (2 ^ 2). rewrite !testbit_clear by lia. cbn. by rewrite !andb_true_r, andb_false_r.
Qed.

Lemma hide_page ex s fl ds d n :
  vm_inv ex s fl ds -> settled ex ds -> d ∈ ds -> 0 <= n < UPAGES -> mapped (m_mem s) d n = true ->
  exists s', clearpteu d (n * 4096) s = Ret tt s' /\ vm_inv ex s' fl ds /\ ustep ex ds d s s' /\
    absent (m_mem s') d = absent (m_mem s) d /\
    (forall n', 0 <= n' < UPAGES -> upte (m_mem s') d n' = if decide (n' = n) then clearU (upte (m_mem s) d n) else upte (m_mem s) d n') /\
    (forall va, 0 <= va < KERNBASE -> uread (m_mem s') d va = uread (m_mem s) d va).
Proof.
  intros Hi Hse Hd Hn Hm. set (e := upte (m_mem s) d n) in *. destruct (clearU_facts e (upte_bound _ _ _)) as (Hb & Ht & HP & HW & HU).
  pose proof (pres_mapped _ _ _ Hm) as Hp. assert (Hok : pt_ok kend (m_mem s) d) by (by eapply vi_ok).
  set (s' := put_pte d (n * 4096) (clearU e) s). destruct (put_pte_frame _ _ _ _ _ _ d n _ Hi Hd Hn Hp Hb) as (_ & _ & Hu). fold s' in Hu.
  destruct (mapped_page _ _ _ _ _ _ _ _ Hi (fun q => proj1 (se_ex _ _ Hse q)) Hd Hn Hm) as (Hq & _ & Hnp & _). fold e in Hq, Hnp.
  assert (Hst : pt_step kend d s s' fl fl []).
  { apply (put_pte_step kend Hkend); [done|by eapply vi_alloc| |done]. intros p. by apply (vi_pt _ _ _ _ _ _ Hi d). }
  assert (Hag : agree (in_pt (m_mem s) d) (m_mem s) (m_mem s')).
  { apply agree_st32; [|apply PTX_bound]. right. exists (PDX (n * 4096)). split; [apply PDX_bound|done]. }
  exists s'. split; [|split; [|split; [by apply (pt_ustep kend managed Hkend ex s s' fl fl [])|split; [by apply (store_absent kend)|split]]]].
  - unfold clearpteu. step (walkpgdir_present d (n * 4096) false s Hp). rewrite (slot_nonzero kend Hkend) by done.
    by step (load_slot d (n * 4096) s Hp).
  - eapply vm_inv_ext; [|apply (vm_put kend managed Hkend ex s fl ds d n _ Hi Hd Hn Hp Hb)].
    + intros q. cbv beta. unfold hits. rewrite HP, Ht. fold e. lia.
    + by rewrite Ht.
    + rewrite HP, HW, Ht. intros H1 H2. pose proof (vi_cow _ _ _ _ _ _ Hi d n Hd Hn) as Hcow. fold e in Hcow |- *.
      rewrite Hcow by (unfold writable; fold e; by rewrite Hm, H2). by rewrite (hits_self _ H1), bool_decide_eq_true_2.
    + rewrite HP, Ht. intros H1. fold e. by rewrite (hits_self _ H1), bool_decide_eq_true_2.
  - intros n' Hn'. rewrite Hu by done. repeat case_decide; congruence.
  - intros va Hva. pose proof (upage_of_va va Hva) as Hn'.
    apply (uread_agree kend managed ex s fl ds (in_pt (m_mem s) d)); try done.
    + intros p Hin. by eapply in_pt_page.
    + intros p Hin. right. left. by exists d.
    + rewrite Hu by done. case_decide as He; [injection He as ->; exact Ht|done].
    + unfold mapped. rewrite Hu by done. case_decide as He; [injection He as ->; exact HP|done].
Qed.

(** ** An address space that is being built *)

(** The address space [d] has [sz] bytes, in whole pages, whose contents are [img], and
    zeroes from there on; its pages belong to it alone and the user reaches all of them but
    the page number [g].  The free pages and the missing page tables add up to [c], less
    the pages in use. *)
Record space_is ex ds (d c : Z) s fl (sz : Z) (img : Z -> Z) (g : Z) : Prop := {
  sp_inv : vm_inv ex s fl (d :: ds);
  sp_size : 0 <= sz < KERNBASE;
  sp_page : forall n, 0 <= n < UPAGES -> if n * 4096 <? sz then writable (m_mem s) d n = true /\
    has (upte (m_mem s) d n) PTE_U = negb (n =? g) /\ ex (tgt (upte (m_mem s) d n)) = 0 else mapped (m_mem s) d n = false;
  sp_byte : forall va, 0 <= va < KERNBASE -> uread (m_mem s) d va = if va / 4096 * 4096 <? sz then Some (img va) else None;
  sp_zero : forall va, npages sz * 4096 <= va -> img va = 0;
  sp_credit : Z.of_nat (length fl) = c + Z.of_nat (absent (m_mem s) d) - npages sz
}.

Lemma space_image ex ds d c s fl sz img img' g :
  space_is ex ds d c s fl sz img g -> (forall va, 0 <= va -> img' va = img va) -> space_is ex ds d c s fl sz img' g.
Proof.
  intros [Hi Hsz Hp Hb Hz Hc] E. split; try done.
  - intros va Hva. rewrite Hb, E by lia. done.
  - intros va Hva. assert (0 <= npages sz) by (unfold npages; apply Z.div_pos; lia). rewrite E by lia. by apply Hz.
Qed.

Lemma space_round ex ds d c s fl sz img g :
  space_is ex ds d c s fl sz img g -> npages sz * 4096 < KERNBASE -> space_is ex ds d c s fl (npages sz * 4096) img g.
Proof.
  intros [Hi Hsz Hp Hb Hz Hc] Hk. assert (Hnp : npages (npages sz * 4096) = npages sz) by (unfold npages; Z.to_euclidean_division_equations; lia).
  assert (Hsame : forall n, (n * 4096 <? npages sz * 4096) = (n * 4096 <? sz)).
  { intros n. unfold npages. destruct (Z.ltb_spec (n * 4096) sz), (Z.ltb_spec (n * 4096) ((sz + 4095) / 4096 * 4096)); try done; Z.to_euclidean_division_equations; lia. }
  split; [done| | | | |by rewrite Hnp].
  - split; [|done]. unfold npages. assert (0 <= (sz + 4095) / 4096) by (apply Z.div_pos; lia). lia.
  - intros n Hn. rewrite Hsame. by apply Hp.
  - intros va Hva. rewrite Hsame. by apply Hb.
  - intros va Hva. rewrite Hnp in Hva. by apply Hz.
Qed.

Lemma space_write ex ds d c s fl sz img g n o l :
  space_is ex ds d c s fl sz img g -> settled ex (d :: ds) -> 0 <= n -> n * 4096 < sz -> 0 <= o -> o + Z.of_nat (length l) <= 4096 ->
  let s' := set_m_mem (write_bytes (m_mem s) (tgt (upte (m_mem s) d n) + o) l) s in
  space_is ex ds d c s' fl sz (overlay img (n * 4096 + o) l) g /\ ustep ex (d :: ds) d s s'.
Proof.
  intros [Hi Hsz Hp Hb Hz Hc] Hse Hn Hlt Ho Hl s'. assert (Hn' : 0 <= n < UPAGES) by (unfold UPAGES, KERNBASE in *; lia).
  pose proof (Hp n Hn') as Hpn. rewrite (proj2 (Z.ltb_lt _ _) Hlt) in Hpn. destruct Hpn as (Hw & HU & Hex).
  destruct (user_write ex s fl (d :: ds) d n o l Hi Hse ltac:(left) Hn' Hw Hex Ho Hl) as (Hi' & Hu' & Hab & Hup & Hrd). fold s' in Hi', Hu', Hab, Hup, Hrd.
  split; [|done]. split; [done|done| | | |by rewrite Hab].
  - intros k Hk. specialize (Hp k Hk). unfold writable, mapped in *. by rewrite Hup.
  - intros va Hva. rewrite Hrd, Hb by done. unfold overlay. destruct (in_range va (n * 4096 + o) (Z.of_nat (length l))) eqn:Hr; [|done].
    apply andb_true_iff in Hr as [H1%Z.leb_le H2%Z.ltb_lt]. rewrite (proj2 (Z.ltb_lt _ _)); [done|].
    assert (va / 4096 = n) as -> by (Z.to_euclidean_division_equations; lia). done.
  - intros va Hva. unfold overlay. rewrite in_range_false; [by apply Hz|]. unfold npages in Hva. Z.to_euclidean_division_equations; lia.
Qed.

Lemma space_grow ex ds d c s fl sz img g new :
  space_is ex ds d c s fl sz img g -> settled ex (d :: ds) -> LkKmem ∉ m_held s -> sz <= new < KERNBASE -> ~ sz <= g * 4096 < new ->
  (exists s' fl', allocuvm kend d sz new s = Ret new s' /\ space_is ex ds d c s' fl' new img g /\ ustep ex (d :: ds) d s s') \/
  (exists s' fl', allocuvm kend d sz new s = Ret 0 s' /\ vm_inv ex s' fl' (d :: ds) /\ ustep ex (d :: ds) d s s' /\ c < npages new).
Proof.
  intros [Hi Hsz Hp Hb Hz Hc] Hse Hh Hnew Hg. pose proof (PGROUNDUP_npages sz ltac:(lia)) as Hup.
  assert (Hpg : (new - PGROUNDUP sz + 4095) / 4096 = npages new - npages sz).
  { rewrite Hup. unfold npages. Z.to_euclidean_division_equations; lia. }
  destruct (allocuvm_spec kend managed Hkend ex s fl (d :: ds) d sz new Hi Hse Hh ltac:(left) ltac:(lia) ltac:(lia))
    as [(s' & fl' & nw & Hr & Hi' & Hu & _ & Hf & Hgr & Hl & Hx)|(s' & fl' & Hr & Hi' & Hu & _ & _ & Hl)].
  { intros n Hn Hin. specialize (Hp n Hn). rewrite (proj2 (Z.ltb_ge _ _)) in Hp; [done|]. unfold npages in Hup. Z.to_euclidean_division_equations; lia. }
  2:{ right. exists s', fl'. split; [done|]. split; [done|]. split; [done|]. rewrite Hpg in Hl. lia. }
  left. exists s', fl'. split; [done|]. split; [|done]. split; [done|lia| | | |].
  - intros n Hn. pose proof (Hgr n Hn) as Hgn. specialize (Hp n Hn). specialize (Hx n Hn).
    destruct (Z.ltb_spec (n * 4096) sz) as [Hlt|Hge].
    + rewrite (proj2 (in_span_false _ _ _)) in Hgn by (unfold npages in Hup; Z.to_euclidean_division_equations; lia).
      rewrite (proj2 (Z.ltb_lt _ _)) by lia. unfold writable, mapped in *. by rewrite (proj1 Hgn).
    + destruct (Z.ltb_spec (n * 4096) new) as [Hlt'|Hge'].
      * assert (Hsp : in_span (PGROUNDUP sz) new n = true).
        { apply in_span_spec. unfold npages in Hup. Z.to_euclidean_division_equations; lia. }
        rewrite Hsp in Hgn. destruct Hgn as (Hw & HU & _). split; [done|]. split; [|by apply Hx].
        rewrite HU, (proj2 (Z.eqb_neq n g)); [done|]. intros ->. lia.
      * rewrite (proj2 (in_span_false _ _ _)) in Hgn by lia. unfold mapped in *. by rewrite (proj1 Hgn).
  - intros va Hva. rewrite (grown_uread _ d (m_mem s) _ va Hgr Hva), Hb by done. pose proof (upage_of_va va Hva) as Hn.
    destruct (Z.ltb_spec (va / 4096 * 4096) sz) as [Hlt|Hge].
    + rewrite (proj2 (in_span_false _ _ _)) by (unfold npages in Hup; Z.to_euclidean_division_equations; lia).
      by rewrite (proj2 (Z.ltb_lt _ _)) by lia.
    + destruct (Z.ltb_spec (va / 4096 * 4096) new) as [Hlt'|Hge'].
      * rewrite (proj2 (in_span_spec _ _ _)) by (unfold npages in Hup; Z.to_euclidean_division_equations; lia).
        rewrite Hz; [done|]. unfold npages. Z.to_euclidean_division_equations; lia.
      * by rewrite (proj2 (in_span_false _ _ _)) by lia.
  - intros va Hva. apply Hz. unfold npages in *. Z.to_euclidean_division_equations; lia.
  - rewrite Hf in Hc. autorewrite with len in Hc. rewrite Hpg in Hl. lia.
Qed.

Lemma space_hide ex ds d c s fl sz img n :
  space_is ex ds d c s fl sz img (-1) -> settled ex (d :: ds) -> 0 <= n -> n * 4096 < sz ->
  exists s', clearpteu d (n * 4096) s = Ret tt s' /\ space_is ex ds d c s' fl sz img n /\ ustep ex (d :: ds) d s s'.
Proof.
  intros [Hi Hsz Hp Hb Hz Hc] Hse Hn Hlt. assert (Hn' : 0 <= n < UPAGES) by (unfold UPAGES, KERNBASE in *; lia).
  pose proof (Hp n Hn') as Hpn. rewrite (proj2 (Z.ltb_lt _ _) Hlt) in Hpn. destruct Hpn as (Hw & HU & Hex).
  assert (Hm : mapped (m_mem s) d n = true) by (by apply andb_true_iff in Hw as [? _]).
  destruct (hide_page ex s fl (d :: ds) d n Hi Hse ltac:(left) Hn' Hm) as (s' & E & Hi' & Hu' & Hab & Hup & Hrd).
  destruct (clearU_facts _ (upte_bound (m_mem s) d n)) as (_ & Ht & HP & HW & HU').
  exists s'. split; [done|]. split; [|done]. split; [done|done| | |done|by rewrite Hab].
  - intros k Hk. specialize (Hp k Hk). unfold writable, mapped in *. rewrite Hup by done. case_decide as He.
    + subst k. rewrite (proj2 (Z.ltb_lt _ _) Hlt). rewrite HP, HW, HU', Ht, Z.eqb_refl. done.
    + destruct (k * 4096 <? sz); [|done]. rewrite (proj2 (Z.eqb_neq k n) He). destruct Hp as (Hp1 & Hp2 & Hp3).
      rewrite (proj2 (Z.eqb_neq k (-1))) in Hp2 by lia. done.
  - intros va Hva. rewrite Hrd by done. by apply Hb.
Qed.

(** ** Copying out *)

Lemma uva2ka_space ex ds d c s fl sz img g n :
  space_is ex ds d c s fl sz img g -> 0 <= n -> n * 4096 < sz ->
  uva2ka d (n * 4096) s = Ret (if n =? g then 0 else tgt (upte (m_mem s) d n)) s.
Proof.
  intros Hs Hn Hlt. pose proof (sp_size _ _ _ _ _ _ _ _ _ Hs) as Hsz. assert (Hn' : 0 <= n < UPAGES) by (unfold UPAGES, KERNBASE in *; lia).
  pose proof (sp_page _ _ _ _ _ _ _ _ _ Hs n Hn') as Hp. rewrite (proj2 (Z.ltb_lt _ _) Hlt) in Hp. destruct Hp as (Hw & HU & _).
  assert (Hm : mapped (m_mem s) d n = true) by (by apply andb_true_iff in Hw as [? _]). pose proof (pres_mapped _ _ _ Hm) as Hpr.
  unfold uva2ka. step (walkpgdir_present d (n * 4096) false s Hpr).
  rewrite (slot_nonzero kend Hkend) by (done || (eapply vi_ok; [apply Hs|left])). step (load_slot d (n * 4096) s Hpr).
  fold (upte (m_mem s) d n). unfold mapped in Hm. rewrite Hm, HU. by destruct (n =? g).
Qed.

Lemma tgt_nonzero ex ds d c s fl sz img g n :
  space_is ex ds d c s fl sz img g -> 0 <= n -> n * 4096 < sz -> (tgt (upte (m_mem s) d n) =? 0) = false.
Proof.
  intros Hs Hn Hlt. pose proof (sp_size _ _ _ _ _ _ _ _ _ Hs) as Hsz. assert (Hn' : 0 <= n < UPAGES) by (unfold UPAGES, KERNBASE in *; lia).
  pose proof (sp_page _ _ _ _ _ _ _ _ _ Hs n Hn') as Hp. rewrite (proj2 (Z.ltb_lt _ _) Hlt) in Hp. destruct Hp as (Hw & _ & _).
  assert (Hm : mapped (m_mem s) d n = true) by (by apply andb_true_iff in Hw as [? _]).
  pose proof (vi_page _ _ _ _ _ _ (sp_inv _ _ _ _ _ _ _ _ _ Hs) d n ltac:(left) Hn' Hm) as Hq%(page_ok_lo kend Hkend).
  apply Z.eqb_neq. unfold KERNBASE in Hq. lia.
Qed.

(** One round of the loop, in a page the user reaches. *)
Lemma copyout_step ex ds d c s fl sz img g fuel va l :
  space_is ex ds d c s fl sz img g -> settled ex (d :: ds) -> 0 <= va -> va / 4096 * 4096 < sz -> va / 4096 <> g -> (0 < length l)%nat ->
  let n := Z.min (Z.of_nat (length l)) ((va / 4096 + 1) * 4096 - va) in
  exists s', copyout_loop (S fuel) d va l (Z.of_nat (length l)) s =
      copyout_loop fuel d ((va / 4096 + 1) * 4096) (drop (Z.to_nat n) l) (Z.of_nat (length l) - n) s' /\
    space_is ex ds d c s' fl sz (overlay img va (take (Z.to_nat n) l)) g /\ ustep ex (d :: ds) d s s'.
Proof.
  intros Hs Hse Hva Hlt Hg Hl n. pose proof (sp_size _ _ _ _ _ _ _ _ _ Hs) as Hsz. unfold KERNBASE in Hsz.
  pose proof (Z.div_mod va 4096 ltac:(lia)) as Hdm. pose proof (Z.mod_pos_bound va 4096 ltac:(lia)) as Hmod. set (p := va / 4096) in *.
  assert (Hp0 : 0 <= p) by (unfold p; apply Z.div_pos; lia).
  destruct (space_write ex ds d c s fl sz img g p (va - p * 4096) (take (Z.to_nat n) l) Hs Hse Hp0 Hlt ltac:(lia) ltac:(rewrite length_take; lia)) as [Hs' Hu'].
  replace (p * 4096 + (va - p * 4096)) with va in Hs' by lia. eexists. split; [|split; [exact Hs'|exact Hu']].
  cbn [copyout_loop]. rewrite (proj2 (Z.ltb_lt 0 _)) by lia. cbn [negb]. rewrite PGROUNDDOWN_eq by lia.
  replace (va - va mod 4096) with (p * 4096) by lia. step (uva2ka_space ex ds d c s fl sz img g p Hs Hp0 Hlt).
  rewrite (proj2 (Z.eqb_neq p g) Hg), (tgt_nonzero ex ds d c s fl sz img g p Hs Hp0 Hlt). cbv zeta. unfold PGSIZE.
  rewrite !u32_id by lia. replace (p * 4096 + 4096) with ((p + 1) * 4096) by lia.
  assert ((if Z.of_nat (length l) <? 4096 - (va - p * 4096) then Z.of_nat (length l) else 4096 - (va - p * 4096)) = n) as ->
    by (unfold n; destruct (Z.ltb_spec (Z.of_nat (length l)) (4096 - (va - p * 4096))); lia).
  done.
Qed.

(** A copy into one page the user reaches. *)
Lemma copyout_page ex ds d c s fl sz img g va l :
  space_is ex ds d c s fl sz img g -> settled ex (d :: ds) -> 0 <= va -> va / 4096 * 4096 < sz -> va / 4096 <> g -> (0 < length l)%nat ->
  va + Z.of_nat (length l) <= (va / 4096 + 1) * 4096 ->
  exists s', copyout d va l (Z.of_nat (length l)) s = Ret 0 s' /\ space_is ex ds d c s' fl sz (overlay img va l) g /\ ustep ex (d :: ds) d s s'.
Proof.
  intros Hs Hse Hva Hlt Hg Hl Hin. unfold copyout. rewrite Nat.add_comm. cbn [Nat.add].
  destruct (copyout_step ex ds d c s fl sz img g (S (Z.to_nat (Z.of_nat (length l) / PGSIZE))) va l Hs Hse Hva Hlt Hg Hl) as (s' & E & Hs' & Hu').
  rewrite Z.min_l in E, Hs' by lia. rewrite Nat2Z.id in E, Hs'. rewrite Z.sub_diag in E. rewrite take_ge in Hs' by lia.
  exists s'. rewrite E. by split.
Qed.

(** A copy that runs into the guard page fails. *)
Lemma copyout_guard_loop ex ds d c sz g fuel : forall va l s fl img,
  space_is ex ds d c s fl sz img g -> settled ex (d :: ds) -> 0 <= va -> 0 <= g -> g * 4096 < sz -> va / 4096 <= g ->
  g * 4096 < va + Z.of_nat (length l) -> (0 < length l)%nat -> g - va / 4096 < Z.of_nat fuel ->
  exists s' img', copyout_loop fuel d va l (Z.of_nat (length l)) s = Ret (-1) s' /\
    space_is ex ds d c s' fl sz img' g /\ ustep ex (d :: ds) d s s'.
Proof.
  induction fuel as [|fuel IH]; intros va l s fl img Hs Hse Hva Hg Hgs Hle Hin Hl Hf; [lia|].
  pose proof (Z.div_mod va 4096 ltac:(lia)) as Hdm. pose proof (Z.mod_pos_bound va 4096 ltac:(lia)) as Hmod.
  pose proof (sp_size _ _ _ _ _ _ _ _ _ Hs) as Hsz. unfold KERNBASE in Hsz.
  destruct (decide (va / 4096 = g)) as [He|Hne].
  - exists s, img. split; [|split; [done|apply ustep_refl]]. cbn [copyout_loop]. rewrite (proj2 (Z.ltb_lt 0 _)) by lia. cbn [negb].
    rewrite PGROUNDDOWN_eq by lia. replace (va - va mod 4096) with (g * 4096) by lia. step (uva2ka_space ex ds d c s fl sz img g g Hs Hg Hgs).
    by rewrite Z.eqb_refl.
  - destruct (copyout_step ex ds d c s fl sz img g fuel va l Hs Hse Hva ltac:(lia) Hne Hl) as (s1 & E & Hs1 & Hu1).
    rewrite Z.min_r in E, Hs1 by lia. set (n := (va / 4096 + 1) * 4096 - va) in *. assert (Hn : 0 < n) by lia.
    assert (Hdv : (va / 4096 + 1) * 4096 / 4096 = va / 4096 + 1) by (apply Z.div_mul; lia).
    replace (Z.of_nat (length l) - n) with (Z.of_nat (length (drop (Z.to_nat n) l))) in E by (rewrite length_drop; lia).
    destruct (IH ((va / 4096 + 1) * 4096) (drop (Z.to_nat n) l) s1 fl _ Hs1) as (s2 & img2 & E2 & Hs2 & Hu2);
      rewrite ?Hdv, ?length_drop; try done; try lia.
    exists s2, img2. split; [by rewrite E|]. split; [done|]. by eapply ustep_trans.
Qed.

Lemma copyout_guard ex ds d c s fl sz img g va l :
  space_is ex ds d c s fl sz img g -> settled ex (d :: ds) -> 0 <= va -> 0 <= g -> g * 4096 < sz -> va / 4096 <= g ->
  g * 4096 < va + Z.of_nat (length l) -> (0 < length l)%nat ->
  exists s' img', copyout d va l (Z.of_nat (length l)) s = Ret (-1) s' /\
    space_is ex ds d c s' fl sz img' g /\ ustep ex (d :: ds) d s s'.
Proof.
  intros Hs Hse Hva Hg Hgs Hle Hin Hl. apply (copyout_guard_loop ex ds d c sz g _ va l s fl img); try done.
  unfold PGSIZE. Z.to_euclidean_division_equations; lia.
Qed.

End Load.
