(* ===== verification/VmProps.v ===== *)
(** * What the virtual memory system guarantees

    The properties of vm.c stated over the copy-on-write invariant, and the
    concrete machine on which they are exercised: the one that start-up builds
    and in which a first address space has been given three pages. *)

From S2P Require Import Prelude Mmu Mem Cstring Kalloc Vm PageTable Walk VmInv Uvm Kvm Cow Grow.

(** ** A machine after start-up *)

(** The state and the value a run returned, with defaults for the other outcomes. *)
Definition final {A} (o : outcome machine A) (s0 : machine) : machine := match o with Ret _ s => s | _ => s0 end.
Definition value {A} (o : outcome machine A) (a0 : A) : A := match o with Ret a _ => a | _ => a0 end.

Definition kdata0 : Z := 0x80108000.
Definition machine0 : machine := Machine [] ∅ (Kmem 0 0 0 ∅) 0.

(** The pages that [kinit1(end, P2V(4 MB))] and [kinit2(P2V(4 MB), P2V(PHYSTOP))] free. *)
Definition boot_run : outcome machine unit :=
  (kinit1 kend0 kend0 0x80400000 ;;; kinit2 kend0 0x80400000 0x8E000000) machine0.
Definition boot : machine := final boot_run machine0.
Definition boot_pages : list Z :=
  reverse (pages_from 0x80400000 (Z.to_nat 56320)) ++ reverse (pages_from kend0 (Z.to_nat 512)).

(** Every page the allocator was given. *)
Definition managed0 (q : Z) : Prop := q ∈ boot_pages.
Definition no_kernel_refs (q : Z) : Z := 0.

Lemma kdata0_ok : KERNLINK < kdata0 < KERNBASE + PHYSTOP /\ kdata0 mod 4096 = 0.
Proof. vm_compute. intuition congruence. Qed.

Lemma boot_run_eq :
  boot_run = (kinit1 kend0 kend0 0x80400000 ;;; kinit2 kend0 0x80400000 0x8E000000) (Machine [] ∅ (Kmem 0 0 0 ∅) 0).
Proof. reflexivity. Qed.
#[local] Opaque boot_run.

Lemma boot_inv : boot_run = Ret tt boot /\ m_held boot = [] /\ alloc_inv kend0 boot boot_pages /\
  (forall w, page_ok kend0 w -> refcount boot (pidx w) = 0).
Proof.
  destruct (kinit_spec kend0 ∅ 0 kend0 (Z.to_nat 512) 0x80400000 (Z.to_nat 56320)) as (s & Hr & Hi & Hh & _ & Hz);
    [exact kend0_ok|done|done|unfold kend0; lia|unfold kend0; lia|unfold KERNBASE, PHYSTOP; lia|].
  assert (E1 : kend0 + 4096 * Z.of_nat (Z.to_nat 512) = 0x80400000) by (rewrite Z2Nat.id by lia; unfold kend0; lia).
  assert (E2 : 0x80400000 + 4096 * Z.of_nat (Z.to_nat 56320) = 0x8E000000) by (rewrite Z2Nat.id by lia; lia).
  rewrite E1, E2 in Hr. rewrite <- boot_run_eq in Hr.
  assert (boot = s) as -> by (unfold boot; rewrite Hr; reflexivity). rewrite Hr.
  split; [reflexivity|]. split; [exact Hh|]. unfold boot_pages. split; [exact Hi|exact Hz].
Qed.

Lemma boot_length : (5000 <= length boot_pages)%nat.
Proof.
  unfold boot_pages. len. rewrite !length_reverse. unfold pages_from. len.
Qed.

#[local] Opaque boot boot_pages.

Lemma boot_vm_inv : vm_inv kend0 managed0 no_kernel_refs boot boot_pages [].
Proof.
  destruct boot_inv as (_ & _ & Hi & Hz). split.
  - exact Hi.
  - constructor.
  - intros d []%elem_of_nil.
  - intros d p []%elem_of_nil.
  - intros d1 d2 p []%elem_of_nil.
  - intros d n []%elem_of_nil.
  - intros q Hq _. rewrite Hz by exact Hq. reflexivity.
  - intros d n []%elem_of_nil.
  - intros q Hm _ _. exact Hm.
Qed.

Lemma settled0 ds : (length ds <= 1024)%nat -> settled no_kernel_refs ds.
Proof. intros Hl. split; [done|]. intros q. unfold no_kernel_refs. lia. Qed.

(** ** The first address space *)

Definition space_run : outcome machine Z :=
  (d <- setupkvm kend0 kdata0 ;; allocuvm kend0 d 0 0x3000 ;;; ret d) boot.
Definition space : machine := final space_run machine0.
Definition space_dir : Z := value space_run 0.

Lemma space_inv : exists fl, vm_inv kend0 managed0 no_kernel_refs space fl [space_dir] /\ m_held space = [] /\
  (forall n, 0 <= n < 3 -> writable (m_mem space) space_dir n = true /\ has (upte (m_mem space) space_dir n) PTE_U = true) /\
  (forall n, 3 <= n < UPAGES -> mapped (m_mem space) space_dir n = false) /\ (2000 < length fl)%nat.
Proof.
  destruct boot_inv as (_ & Hh & _ & _).
  destruct (setupkvm_spec kend0 managed0 kend0_ok kdata0 kdata0_ok no_kernel_refs boot boot_pages [])
    as [(d & s1 & fl1 & new1 & Hr1 & Hd0 & _ & Hi1 & Hu1 & _ & Hf1 & Hab1 & Hpv1)|(s1 & fl1 & _ & _ & _ & _ & Hl)];
    [exact boot_vm_inv|apply settled0; simpl; lia|simpl; lia|rewrite Hh; apply not_elem_of_nil| |];
    [|pose proof boot_length; lia].
  assert (Hlen : (5000 <= length new1 + length fl1)%nat) by (pose proof boot_length as Hbl; rewrite Hf1 in Hbl; by rewrite length_app in Hbl).
  assert (Hu : forall n, 0 <= n < UPAGES -> mapped (m_mem s1) d n = false).
  { intros n Hn. unfold mapped, upte. rewrite Hpv1 by (by apply upage_range).
    rewrite (kpte_lo KERNBASE); [done|apply kmap_kmap_ok; exact kdata0_ok|unfold UPAGES, KERNBASE in *; lia]. }
  assert (Hh1 : m_held s1 = []) by (by rewrite (us_held _ _ _ _ _ _ Hu1)).
  destruct (allocuvm_spec kend0 managed0 kend0_ok no_kernel_refs s1 fl1 [d] d 0 0x3000 Hi1)
    as [(s2 & fl2 & new2 & Hr2 & Hi2 & Hu2 & _ & Hf2 & Hg & Hl2)|(s2 & fl2 & _ & _ & _ & _ & _ & Hl)];
    [apply settled0; simpl; lia|rewrite Hh1; apply not_elem_of_nil|by left|lia|unfold KERNBASE; lia|intros n Hn _; by apply Hu| |].
  2:{ exfalso. change ((0x3000 - PGROUNDUP 0 + 4095) / 4096) with 3 in Hl. lia. }
  assert (Hrun : space_run = Ret d s2) by (unfold space_run; step Hr1; by step Hr2).
  assert (space = s2) as -> by (unfold space; by rewrite Hrun).
  assert (space_dir = d) as -> by (unfold space_dir; by rewrite Hrun).
  change ((0x3000 - PGROUNDUP 0 + 4095) / 4096) with 3 in Hl2. change (PGROUNDUP 0) with 0 in Hg.
  exists fl2. split; [done|]. split; [by rewrite (us_held _ _ _ _ _ _ Hu2)|]. split; [|split].
  - intros n Hn. specialize (Hg n ltac:(unfold UPAGES; lia)). rewrite (proj2 (in_span_spec _ _ _)) in Hg by lia.
    destruct Hg as (Hw & HU & _). split; [exact Hw|exact HU].
  - intros n Hn. specialize (Hg n ltac:(lia)). rewrite (proj2 (in_span_false _ _ _)) in Hg by lia.
    destruct Hg as [Hg _]. unfold mapped. rewrite Hg. apply Hu. lia.
  - rewrite Hf2, length_app in Hlen. lia.
Qed.

#[local] Opaque space space_dir.

(** The machine after the first process has forked. *)
Definition fork_run : outcome machine Z := copyuvm kend0 kdata0 space_dir 0x3000 space.
Definition forked : machine := final fork_run machine0.
Definition fork_dir : Z := value fork_run 0.

Lemma forked_inv : exists fl, vm_inv kend0 managed0 no_kernel_refs forked fl [fork_dir; space_dir] /\ m_held forked = [] /\
  (forall n d, 0 <= n < 3 -> d ∈ [fork_dir; space_dir] -> let e := upte (m_mem forked) d n in
    has e PTE_P = true /\ has e PTE_U = true /\ has e PTE_W = false) /\
  (forall n, 0 <= n < 3 -> upte (m_mem forked) fork_dir n = upte (m_mem forked) space_dir n /\
    refcount forked (pidx (tgt (upte (m_mem forked) space_dir n))) = 2) /\ fork_dir <> space_dir /\ (2 <= length fl)%nat.
Proof.
  destruct space_inv as (fl & Hi & Hh & Hw & Hunm & Hlen).
  destruct (copyuvm_spec kend0 managed0 kend0_ok kdata0 kdata0_ok no_kernel_refs space fl [space_dir] space_dir 0x3000 Hi)
    as [(c & s' & fl' & new & Hr & _ & Hcd & Hi' & Hs & _ & Hf & Hnew & Hup & Huc)|(s' & fl' & _ & _ & _ & Hl)]; [..|lia].
  - apply settled0. cbn [length]. lia.
  - cbn [length]. lia.
  - rewrite Hh. apply not_elem_of_nil.
  - left.
  - unfold KERNBASE. lia.
  - change (npages 0x3000) with 3. intros n Hn. destruct (Hw n Hn) as [Hwn _]. by apply andb_true_iff in Hwn as [? _].
  - assert (Hrun : fork_run = Ret c s') by exact Hr.
    assert (forked = s') as -> by (unfold forked; by rewrite Hrun).
    assert (fork_dir = c) as -> by (unfold fork_dir; by rewrite Hrun).
    change (npages 0x3000) with 3 in Hup, Huc.
    assert (Hup' : forall n, 0 <= n < 3 -> upte (m_mem s') space_dir n = clearW (upte (m_mem space) space_dir n))
      by (intros n Hn; rewrite Hup, decide_True by (unfold UPAGES; lia); reflexivity).
    assert (Huc' : forall n, 0 <= n < 3 -> upte (m_mem s') c n = clearW (upte (m_mem space) space_dir n))
      by (intros n Hn; rewrite Huc, decide_True by (unfold UPAGES; lia); reflexivity).
    exists fl'. split; [exact Hi'|]. split; [rewrite (cs_held _ _ _ _ _ Hs); exact Hh|].
    split; [|split; [|split; [intros ->; apply Hcd; left|rewrite Hf, length_app in Hlen; lia]]].
    + intros n d Hn Hd e. destruct (Hw n Hn) as [Hwn HU]. apply andb_true_iff in Hwn as [HP _].
      assert (He : e = clearW (upte (m_mem space) space_dir n)).
      { unfold e. apply elem_of_cons in Hd as [->|Hd%list_elem_of_singleton]; [by apply Huc'|subst d; by apply Hup']. }
      destruct (clearW_facts _ (upte_bound (m_mem space) space_dir n)) as (_ & _ & HP' & HW' & HU').
      rewrite He, HP', HW', HU'. split; [exact HP|]. split; [exact HU|reflexivity].
    + intros n Hn. split; [rewrite (Huc' n Hn), (Hup' n Hn); reflexivity|].
      destruct (Hw n Hn) as [Hwn _]. assert (Hone := vi_cow _ _ _ _ _ _ Hi space_dir n ltac:(left) ltac:(unfold UPAGES; lia) Hwn).
      apply andb_true_iff in Hwn as [HP _].
      destruct (clearW_facts _ (upte_bound (m_mem space) space_dir n)) as (_ & Ht & HP' & _).
      rewrite (Hup' n Hn), Ht. set (q := tgt (upte (m_mem space) space_dir n)) in *.
      assert (Hm' : mapped (m_mem s') space_dir n = true) by (unfold mapped; rewrite (Hup' n Hn), HP'; exact HP).
      destruct (mapped_page kend0 managed0 no_kernel_refs s' fl' [c; space_dir] space_dir n Hi' ltac:(intros x; unfold no_kernel_refs; lia) ltac:(right; left) ltac:(unfold UPAGES; lia) Hm')
        as (Hq & _ & Hnp & _). rewrite (Hup' n Hn), Ht in Hq, Hnp. fold q in Hq, Hnp.
      rewrite (vi_refs _ _ _ _ _ _ Hi' q Hq Hnp), refs_cons.
      assert (Hrp : refs (m_mem s') [space_dir] q = 1%nat /\ refs (m_mem s') [c] q = 1%nat).
      { rewrite <- Hone. unfold refs, slots. cbn [mbind list_bind]. rewrite !app_nil_r, !countb_fmap.
        split; apply countb_ext; intros k Hk%elem_of_seqZ; cbn [fst snd].
        - rewrite Hup by lia. case_decide; [apply hits_clearW, upte_bound|reflexivity].
        - rewrite Huc by lia. case_decide; [apply hits_clearW, upte_bound|].
          symmetry. unfold hits. specialize (Hunm k ltac:(lia)). unfold mapped in Hunm. rewrite Hunm.
          change (has 0 PTE_P) with false. cbn [andb]. reflexivity. }
      destruct Hrp as [-> ->]. reflexivity.
Qed.

#[local] Opaque forked fork_dir.

(** ** Properties *)

(** C1. Copy-on-write fork.  From any machine that satisfies the invariant,
    [copyuvm] of an address space whose first [sz] bytes are mapped either
    returns a new page directory or 0.  If it returns a directory, the invariant
    holds with the new address space added, the child reads exactly the bytes the
    parent read below [sz] and nothing above, no existing process can see any
    change, neither parent nor child can write a shared page, and the parent's
    translations have been reloaded.  It returns 0 only when fewer than 1025
    pages were free, and then every page it took is accounted for and no process
    can see any change. *)
Theorem copyuvm_correct : forall kend managed kdata ex s fl ds p sz,
  KERNLINK <= kend <= KERNBASE + PHYSTOP ->
  KERNLINK < kdata < KERNBASE + PHYSTOP /\ kdata mod 4096 = 0 ->
  vm_inv kend managed ex s fl ds -> settled ex ds -> (length ds < 1024)%nat -> LkKmem ∉ m_held s -> p ∈ ds ->
  0 <= sz <= KERNBASE -> (forall n, 0 <= n < npages sz -> mapped (m_mem s) p n = true) ->
  (exists c s' fl', copyuvm kend kdata p sz s = Ret c s' /\ c <> 0 /\ c ∉ ds /\
    vm_inv kend managed ex s' fl' (c :: ds) /\ same_users ds (m_mem s) (m_mem s') /\
    (forall va, 0 <= va < KERNBASE ->
      uread (m_mem s') c va = if va / 4096 <? npages sz then uread (m_mem s) p va else None) /\
    (forall n, 0 <= n < npages sz -> writable (m_mem s') p n = false /\ writable (m_mem s') c n = false) /\
    m_cr3 s' = V2P p) \/
  (exists s' fl', copyuvm kend kdata p sz s = Ret 0 s' /\ vm_inv kend managed ex s' fl' ds /\
    same_users ds (m_mem s) (m_mem s') /\ (length fl < 1025)%nat).
Proof.
  intros kend managed kdata ex s fl ds p sz Hk Hkd Hi Hse Hlen Hh Hp Hsz Hmap. pose proof (npages_range sz Hsz) as Hnp.
  destruct (copyuvm_spec kend managed Hk kdata Hkd ex s fl ds p sz Hi Hse Hlen Hh Hp Hsz Hmap)
    as [(c & s' & fl' & new & Hr & Hc0 & Hcd & Hi' & Hs & Hcr & _ & _ & Hup & Huc)|(s' & fl' & Hr & Hi' & Hs & Hl)].
  2:{ right. exists s', fl'. split; [done|]. split; [done|]. split; [|done]. intros d va. by apply (cow_uread kend ex). }
  left. exists c, s', fl'. split; [done|]. split; [done|]. split; [done|]. split; [done|].
  split; [intros d va; by apply (cow_uread kend ex)|]. split; [|split; [|done]].
  - intros va Hva. pose proof (upage_of_va va Hva) as Hn. pose proof (upte_bound (m_mem s) p (va / 4096)) as Hb.
    destruct (clearW_facts _ Hb) as (_ & Ht & HP & _).
    rewrite <- (cow_uread kend ex ds s s' p va Hs Hp Hva). unfold uread, mapped. rewrite Huc, Hup by done.
    destruct (Z.ltb_spec (va / 4096) (npages sz)); [by rewrite !decide_True by done|].
    by rewrite decide_False by lia.
  - intros n Hn. unfold writable. rewrite Hup, Huc, !decide_True by lia.
    destruct (clearW_facts _ (upte_bound (m_mem s) p n)) as (_ & _ & _ & HW & _). rewrite HW. by rewrite !andb_false_r.
Qed.

Lemma copyuvm_correct_witness : exists fl,
  (exists c s' fl', copyuvm kend0 kdata0 space_dir 0x3000 space = Ret c s' /\
    vm_inv kend0 managed0 no_kernel_refs s' fl' [c; space_dir]) \/
  (exists s' fl', copyuvm kend0 kdata0 space_dir 0x3000 space = Ret 0 s' /\
    vm_inv kend0 managed0 no_kernel_refs s' fl' [space_dir] /\ (length (A:=Z) fl < 1025)%nat).
Proof.
  destruct space_inv as (fl & Hi & Hh & Hw & _ & _). exists fl.
  destruct (copyuvm_correct kend0 managed0 kdata0 no_kernel_refs space fl [space_dir] space_dir 0x3000 kend0_ok kdata0_ok Hi)
    as [(c & s' & fl' & Hr & _ & _ & Hi' & _)|(s' & fl' & Hr & Hi' & _ & Hl)].
  - apply settled0. cbn [length]. lia.
  - cbn [length]. lia.
  - rewrite Hh. apply not_elem_of_nil.
  - apply list_elem_of_singleton. reflexivity.
  - unfold KERNBASE. lia.
  - change (npages 0x3000) with 3. intros n Hn. destruct (Hw n Hn) as [Hwn _]. by apply andb_true_iff in Hwn as [? _].
  - left. exists c, s', fl'. split; [exact Hr|exact Hi'].
  - right. exists s', fl'. split; [exact Hr|]. split; [exact Hi'|exact Hl].
Defined.

(** C3. Copy-on-write faults.  On a machine that satisfies the invariant [pagefault]
    kills the process exactly when the address is not a present user page or no
    page is left for a copy, panics when the page was writable already, and
    otherwise leaves the faulting page writable.  In that case the invariant
    still holds, every byte every process can read is unchanged, the only entry
    written is the faulting one, and the translations have been reloaded.  The
    panic about a wrong reference count is never reached. *)
Theorem pagefault_correct : forall kend managed ex s fl ds p va,
  KERNLINK <= kend <= KERNBASE + PHYSTOP ->
  vm_inv kend managed ex s fl ds -> settled ex ds -> LkKmem ∉ m_held s -> p ∈ ds -> 0 <= va < 2 ^ 32 ->
  let n := va / 4096 in let e := upte (m_mem s) p n in
  if (KERNBASE <=? va) || negb (has e PTE_P) || negb (has e PTE_U) then pagefault kend (Some p) va s = Ret true s
  else if has e PTE_W then pagefault kend (Some p) va s = Panic "Page fault already writeable"
  else if (1 <? refcount s (pidx (tgt e))) && bool_decide (fl = []) then pagefault kend (Some p) va s = Ret true s
  else exists s' fl', pagefault kend (Some p) va s = Ret false s' /\ vm_inv kend managed ex s' fl' ds /\
    same_users ds (m_mem s) (m_mem s') /\
    (writable (m_mem s') p n = true /\ has (upte (m_mem s') p n) PTE_U = true) /\
    other_entries ds p n (m_mem s) (m_mem s') /\ m_cr3 s' = V2P p /\ m_held s' = m_held s.
Proof.
  intros kend managed ex s fl ds p va Hk Hi Hse Hh Hp Hva n e.
  assert (Hok : pt_ok kend (m_mem s) p) by (by eapply vi_ok).
  destruct (Z.leb_spec KERNBASE va) as [Hhi|Hlo]; cbn [orb].
  { unfold pagefault. by rewrite (proj2 (Z.leb_le _ _) Hhi). }
  destruct (pagefault_rest kend Hk p va s Hok ltac:(lia)) as [Hbad Hpan]. fold n e in Hbad, Hpan.
  destruct (has e PTE_P) eqn:HP, (has e PTE_U) eqn:HU; cbn [negb orb andb] in *; try (by apply Hbad).
  destruct (has e PTE_W) eqn:HW; [by apply Hpan|].
  destruct (pagefault_spec kend managed Hk ex s fl ds p va Hi Hse Hh Hp ltac:(lia) HP HU HW)
    as [(Hgt & Hfl & Hr)|(Hno & s' & fl' & Hr & Hrep)].
  - change (1 < refcount s (pidx (tgt e))) in Hgt. rewrite (proj2 (Z.ltb_lt _ _) Hgt), bool_decide_eq_true_2 by exact Hfl. exact Hr.
  - change (~ (1 < refcount s (pidx (tgt e)) /\ fl = [])) in Hno.
    assert ((1 <? refcount s (pidx (tgt e))) && bool_decide (fl = []) = false) as ->.
    { destruct (Z.ltb_spec 1 (refcount s (pidx (tgt e)))); [|done]. apply bool_decide_eq_false. naive_solver. }
    exists s', fl'. split; [exact Hr|exact Hrep].
Qed.

Lemma pagefault_correct_witness :
  (exists s', pagefault kend0 (Some fork_dir) 0x1234 forked = Ret true s') \/
  (exists s' fl', pagefault kend0 (Some fork_dir) 0x1234 forked = Ret false s' /\
    vm_inv kend0 managed0 no_kernel_refs s' fl' [fork_dir; space_dir] /\ writable (m_mem s') fork_dir 1 = true).
Proof.
  destruct forked_inv as (fl & Hi & Hh & He & _). destruct (He 1 fork_dir ltac:(lia) ltac:(left)) as (HP & HU & HW).
  assert (Hpf := pagefault_correct kend0 managed0 no_kernel_refs forked fl [fork_dir; space_dir] fork_dir 0x1234 kend0_ok Hi
    (settled0 [fork_dir; space_dir] ltac:(cbn [length]; lia)) ltac:(rewrite Hh; apply not_elem_of_nil) ltac:(left) ltac:(lia)).
  change (0x1234 / 4096) with 1 in Hpf. cbv zeta in Hpf. rewrite HP, HU, HW in Hpf.
  change (KERNBASE <=? 0x1234) with false in Hpf. cbn [orb negb] in Hpf.
  destruct ((1 <? refcount forked (pidx (tgt (upte (m_mem forked) fork_dir 1)))) && bool_decide (fl = [])).
  - left. exists forked. exact Hpf.
  - right. destruct Hpf as (s' & fl' & Hr & Hi' & _ & [Hw _] & _). exists s', fl'. split; [exact Hr|]. split; [exact Hi'|exact Hw].
Defined.

(** C5. Releasing an address space.  [freevm] of a live page directory returns, keeps
    the invariant for the remaining address spaces and is invisible to them.
    The page directory and all its page tables end up free, nothing that was free
    stops being free, and no page leaks: a page the allocator manages to which
    neither a remaining address space nor the kernel refers is free afterwards. *)
Theorem freevm_correct : forall kend managed ex s fl ds d,
  KERNLINK <= kend <= KERNBASE + PHYSTOP ->
  vm_inv kend managed ex s fl (d :: ds) -> settled ex (d :: ds) -> LkKmem ∉ m_held s ->
  exists s' fl', freevm kend d s = Ret tt s' /\ vm_inv kend managed ex s' fl' ds /\
    same_users ds (m_mem s) (m_mem s') /\ (forall p, p ∈ fl \/ in_pt (m_mem s) d p -> p ∈ fl') /\
    (forall q, managed q -> page_ok kend q -> not_pt (m_mem s') ds q -> refs (m_mem s) ds q = 0%nat -> ex q = 0 -> q ∈ fl').
Proof.
  intros kend managed ex s fl ds d Hk Hi Hse Hh.
  destruct (freevm_spec kend managed Hk ex s fl ds d Hi Hse Hh) as (s' & fl' & Hr & Hi' & Hu & _ & Hf).
  assert (Hd : d ∉ ds) by (by apply NoDup_cons, (vi_nodup _ _ _ _ _ _ Hi)).
  assert (Hne : forall d', d' ∈ ds -> d' <> d) by (intros d' Hd' ->; done).
  exists s', fl'. split; [done|]. split; [done|]. split; [|split; [done|]].
  - intros d' va Hd' Hva. apply (ustep_uread kend ex ds d); auto.
  - intros q Hm Hq Hnp Hr0 Hex. apply (vi_leak _ _ _ _ _ _ Hi' q Hm Hq).
    rewrite (vi_refs _ _ _ _ _ _ Hi' q Hq Hnp), Hex, (refs_ext (m_mem s)), Hr0; [done|].
    intros d' n Hd' Hn. by apply (us_other _ _ _ _ _ _ Hu); [|apply Hne|].
Qed.

Lemma freevm_correct_witness : exists s' fl', freevm kend0 fork_dir forked = Ret tt s' /\
  vm_inv kend0 managed0 no_kernel_refs s' fl' [space_dir].
Proof.
  destruct forked_inv as (fl & Hi & Hh & _).
  destruct (freevm_correct kend0 managed0 no_kernel_refs forked fl [space_dir] fork_dir kend0_ok Hi) as (s' & fl' & Hr & Hi' & _).
  - apply settled0. cbn [length]. lia.
  - rewrite Hh. apply not_elem_of_nil.
  - exists s', fl'. split; [exact Hr|exact Hi'].
Defined.

(** C6. Growing an address space.  [allocuvm] refuses sizes that reach into the
    kernel and does nothing for a size that is not larger.  Otherwise, if nothing
    was mapped in the new range, it returns either the new size, with the range
    readable as zeroes, writable, and everything else as it was, or 0, with
    nothing changed for any process.  The second case needs a shortage of pages.
    Both keep the invariant. *)
Theorem allocuvm_correct : forall kend managed ex s fl ds d oldsz newsz,
  KERNLINK <= kend <= KERNBASE + PHYSTOP ->
  vm_inv kend managed ex s fl ds -> settled ex ds -> LkKmem ∉ m_held s -> d ∈ ds -> 0 <= oldsz -> 0 <= newsz ->
  let a0 := PGROUNDUP oldsz in
  (forall n, 0 <= n < UPAGES -> a0 <= n * 4096 < newsz -> mapped (m_mem s) d n = false) ->
  if KERNBASE <=? newsz then allocuvm kend d oldsz newsz s = Ret 0 s
  else if newsz <? oldsz then allocuvm kend d oldsz newsz s = Ret oldsz s
  else (exists s' fl', allocuvm kend d oldsz newsz s = Ret newsz s' /\ vm_inv kend managed ex s' fl' ds /\
      (forall d' va, d' ∈ ds -> 0 <= va < KERNBASE -> uread (m_mem s') d' va =
        if (d' =? d) && in_span a0 newsz (va / 4096) then Some 0 else uread (m_mem s) d' va) /\
      (forall n, 0 <= n < UPAGES -> in_span a0 newsz n = true -> writable (m_mem s') d n = true)) \/
    (exists s' fl', allocuvm kend d oldsz newsz s = Ret 0 s' /\ vm_inv kend managed ex s' fl' ds /\
      same_users ds (m_mem s) (m_mem s') /\ Z.of_nat (length fl) < 1024 + (newsz - a0 + 4095) / 4096).
Proof.
  intros kend managed ex s fl ds d oldsz newsz Hk Hi Hse Hh Hd Hold Hnew a0 Hno.
  destruct (Z.leb_spec KERNBASE newsz) as [Hhi|Hlo]; [unfold allocuvm; by rewrite (proj2 (Z.leb_le _ _) Hhi)|].
  destruct (Z.ltb_spec newsz oldsz) as [Hlt|Hge].
  { unfold allocuvm. by rewrite (proj2 (Z.leb_gt _ _) Hlo), (proj2 (Z.ltb_lt _ _) Hlt). }
  destruct (allocuvm_spec kend managed Hk ex s fl ds d oldsz newsz Hi Hse Hh Hd ltac:(lia) Hlo Hno)
    as [(s' & fl' & new & Hr & Hi' & Hu & _ & _ & Hg & _)|(s' & fl' & Hr & Hi' & Hu & _ & He & Hl)];
    [left|right]; exists s', fl'; (split; [done|]); (split; [done|]).
  - split.
    + intros d' va Hd' Hva. destruct (Z.eqb_spec d' d) as [->|Hne]; cbn [andb].
      * by apply (grown_uread (in_span a0 newsz)).
      * by apply (ustep_uread kend ex ds d).
    + intros n Hn Hsp. specialize (Hg n Hn). fold a0 in Hg. rewrite Hsp in Hg. apply Hg.
  - split.
    + intros d' va Hd' Hva. destruct (decide (d' = d)) as [->|Hne]; [|by apply (ustep_uread kend ex ds d)].
      apply (emptied_uread (in_span a0 newsz)); [done|done|]. intros Hsp%in_span_spec. apply Hno; [by apply upage_of_va|done].
    + assert (absent (m_mem s) d <= 1024)%nat by (unfold absent; rewrite countb_le_length, length_seqZ; lia).
      fold a0 in Hl. lia.
Qed.

Lemma allocuvm_correct_witness :
  (exists s' fl', allocuvm kend0 space_dir 0x3000 0x4800 space = Ret 0x4800 s' /\
    vm_inv kend0 managed0 no_kernel_refs s' fl' [space_dir]) \/
  (exists s' fl', allocuvm kend0 space_dir 0x3000 0x4800 space = Ret 0 s' /\
    vm_inv kend0 managed0 no_kernel_refs s' fl' [space_dir]).
Proof.
  destruct space_inv as (fl & Hi & Hh & _ & Hu & _).
  assert (Ha := allocuvm_correct kend0 managed0 no_kernel_refs space fl [space_dir] space_dir 0x3000 0x4800 kend0_ok Hi
    (settled0 [space_dir] ltac:(cbn [length]; lia)) ltac:(rewrite Hh; apply not_elem_of_nil) ltac:(left) ltac:(lia) ltac:(lia)
    ltac:(intros n Hn Hin; apply Hu; change (PGROUNDUP 0x3000) with 0x3000 in Hin; lia)).
  cbv zeta in Ha. change (KERNBASE <=? 0x4800) with false in Ha. change (0x4800 <? 0x3000) with false in Ha. cbv iota in Ha.
  destruct Ha as [(s' & fl' & Hr & Hi' & _)|(s' & fl' & Hr & Hi' & _)].
  - left. exists s', fl'. split; [exact Hr|exact Hi'].
  - right. exists s', fl'. split; [exact Hr|exact Hi'].
Defined.

(** Kernel mappings.  When [setupkvm] returns a page directory, the new address
    space has no user pages and its kernel half is the one [kmap] prescribes:
    every address from [KERNBASE] on is mapped according to the four ranges of
    the table, and to nothing outside them.  When it returns 0, fewer than 1025
    pages were free and everything was given back.  No process can see either. *)
Theorem setupkvm_correct : forall kend managed kdata ex s fl ds,
  KERNLINK <= kend <= KERNBASE + PHYSTOP ->
  KERNLINK < kdata < KERNBASE + PHYSTOP /\ kdata mod 4096 = 0 ->
  vm_inv kend managed ex s fl ds -> settled ex ds -> (length ds < 1024)%nat -> LkKmem ∉ m_held s ->
  (exists d s' fl', setupkvm kend kdata s = Ret d s' /\ d <> 0 /\ d ∉ ds /\ vm_inv kend managed ex s' fl' (d :: ds) /\
    same_users ds (m_mem s) (m_mem s') /\ (forall va, 0 <= va < KERNBASE -> uread (m_mem s') d va = None) /\
    (forall va, KERNBASE <= va < 2 ^ 32 -> pv (m_mem s') d va =
      let pg := va / 4096 * 4096 in
      if va <? KERNLINK then Z.lor (Z.lor (pg - KERNBASE) PTE_W) PTE_P
      else if va <? kdata then Z.lor (Z.lor (pg - KERNBASE) 0) PTE_P
      else if va <? KERNBASE + PHYSTOP then Z.lor (Z.lor (pg - KERNBASE) PTE_W) PTE_P
      else if va <? DEVSPACE then 0 else Z.lor (Z.lor pg PTE_W) PTE_P)) \/
  (exists s' fl', setupkvm kend kdata s = Ret 0 s' /\ vm_inv kend managed ex s' fl' ds /\
    same_users ds (m_mem s) (m_mem s') /\ (length fl < 1025)%nat).
Proof.
  intros kend managed kdata ex s fl ds Hk Hkd Hi Hse Hlen Hh.
  destruct (setupkvm_spec kend managed Hk kdata Hkd ex s fl ds Hi Hse Hlen Hh)
    as [(d & s' & fl' & new & Hr & Hd0 & Hd & Hi' & Hu & _ & _ & _ & Hpv)|(s' & fl' & Hr & Hi' & Hu & _ & Hl)].
  - left. exists d, s', fl'. split; [done|]. split; [done|]. split; [done|]. split; [done|].
    split; [intros d' va Hd' Hva; apply (ustep_uread kend ex ds d); [done|done|intros ->; done|done]|]. split.
    + intros va Hva. unfold uread, mapped, upte. pose proof (upage_of_va va Hva) as Hn. rewrite Hpv by (by apply upage_range).
      rewrite (kpte_lo KERNBASE); [done|by apply kmap_kmap_ok|unfold UPAGES, KERNBASE in *; lia].
    + intros va Hva. rewrite Hpv by (unfold KERNBASE in Hva; lia). by apply kpte_kmap.
  - right. exists s', fl'. split; [done|]. split; [done|]. split; [|done].
    assert (Hz : 0 ∉ ds).
    { intros Hin. pose proof (pt_dir _ _ _ (vi_ok _ _ _ _ _ _ Hi 0 Hin)) as Hz%(page_ok_lo kend Hk). unfold KERNBASE in *. lia. }
    intros d va Hd Hva. apply (ustep_uread kend ex ds 0); [by apply Hu|done|intros ->; done|done].
Qed.

Lemma setupkvm_correct_witness :
  (exists d s' fl', setupkvm kend0 kdata0 boot = Ret d s' /\ vm_inv kend0 managed0 no_kernel_refs s' fl' [d]) \/
  (exists s' fl', setupkvm kend0 kdata0 boot = Ret 0 s' /\ vm_inv kend0 managed0 no_kernel_refs s' fl' []).
Proof.
  destruct boot_inv as (_ & Hh & _ & _).
  destruct (setupkvm_correct kend0 managed0 kdata0 no_kernel_refs boot boot_pages [] kend0_ok kdata0_ok boot_vm_inv)
    as [(d & s' & fl' & Hr & _ & _ & Hi & _)|(s' & fl' & Hr & Hi & _)].
  - apply settled0. cbn [length]. lia.
  - cbn [length]. lia.
  - rewrite Hh. apply not_elem_of_nil.
  - left. exists d, s', fl'. split; [exact Hr|exact Hi].
  - right. exists s', fl'. split; [exact Hr|exact Hi].
Defined.

(** C4. Fork isolates.  A process forks; the child then stores a byte at an address
    below [sz].  With 1026 free pages the fork succeeds, the page fault the store
    causes gives the child its own writable page, and the store goes through.
    Afterwards every process that existed before the fork, the parent among them,
    reads what it read before the fork, and the child reads the parent's memory
    with that one byte replaced. *)
Theorem fork_isolation : forall kend managed kdata ex s fl ds p sz va b,
  KERNLINK <= kend <= KERNBASE + PHYSTOP ->
  KERNLINK < kdata < KERNBASE + PHYSTOP /\ kdata mod 4096 = 0 ->
  vm_inv kend managed ex s fl ds -> settled ex ds -> (length ds < 1024)%nat -> LkKmem ∉ m_held s -> p ∈ ds ->
  0 <= sz <= KERNBASE -> (forall n, 0 <= n < npages sz -> mapped (m_mem s) p n = true) ->
  0 <= va -> va / 4096 < npages sz -> has (upte (m_mem s) p (va / 4096)) PTE_U = true -> (1026 <= length fl)%nat ->
  exists c s1 s2 s3, copyuvm kend kdata p sz s = Ret c s1 /\ pagefault kend (Some c) va s1 = Ret false s2 /\
    user_store c va b s2 = Some s3 /\ same_users ds (m_mem s) (m_mem s3) /\
    (forall va', 0 <= va' < KERNBASE -> uread (m_mem s3) c va' =
      if decide (va' = va) then Some (u8 b)
      else if va' / 4096 <? npages sz then uread (m_mem s) p va' else None).
Proof.
  intros kend managed kdata ex s fl ds p sz va b Hk Hkd Hi Hse Hlen Hh Hp Hsz Hmap Hva0 Hvn HU Hfl.
  pose proof (npages_range sz Hsz) as Hnp.
  assert (Hva : 0 <= va < KERNBASE) by (unfold UPAGES, KERNBASE in *; Z.to_euclidean_division_equations; lia).
  pose proof (upage_of_va va Hva) as Hn.
  destruct (copyuvm_spec kend managed Hk kdata Hkd ex s fl ds p sz Hi Hse Hlen Hh Hp Hsz Hmap)
    as [(c & s1 & fl1 & new & Hr & Hc0 & Hcd & Hi1 & Hs1 & _ & Hf1 & Hl1 & Hup & Huc)|(s1 & fl1 & _ & _ & _ & Hl)]; [|lia].
  assert (Hse1 : settled ex (c :: ds)) by (split; [simpl; lia|apply Hse]).
  assert (Hh1 : LkKmem ∉ m_held s1) by (by rewrite (cs_held _ _ _ _ _ Hs1)).
  assert (Hne1 : fl1 <> []) by (intros ->; rewrite app_nil_r in Hf1; subst new; lia).
  destruct (clearW_facts _ (upte_bound (m_mem s) p (va / 4096))) as (_ & _ & HP' & HW' & HU').
  assert (He : upte (m_mem s1) c (va / 4096) = clearW (upte (m_mem s) p (va / 4096))) by (by rewrite Huc, decide_True).
  assert (Hc : c ∈ c :: ds) by left.
  destruct (pagefault_spec kend managed Hk ex s1 fl1 (c :: ds) c va Hi1 Hse1 Hh1 Hc Hva)
    as [(_ & ? & _)|(_ & s2 & fl2 & Hr2 & Hi2 & Hsu2 & [Hw2 HU2] & Ho2 & _)];
    [rewrite He, HP'; apply Hmap; lia|by rewrite He, HU'|by rewrite He, HW'|done|].
  destruct (user_store c va b s2) as [s3|] eqn:Hst.
  2:{ unfold user_store in Hst. apply andb_true_iff in Hw2 as [HP2 HW2]. unfold mapped in HP2. by rewrite HP2, HU2, HW2 in Hst. }
  destruct (user_store_spec kend managed ex s2 s3 fl2 (c :: ds) c va b Hi2 Hse1 Hc Hva Hst) as [_ Hrd].
  exists c, s1, s2, s3. split; [done|]. split; [done|]. split; [done|]. split.
  - intros d va' Hd Hva'. assert (d <> c) by (intros ->; done).
    rewrite Hrd, decide_False by (congruence || done || by right).
    rewrite (Hsu2 d va') by (done || by right). by apply (cow_uread kend ex ds).
  - intros va' Hva'. rewrite Hrd by done. destruct (decide (va' = va)) as [->|Hne]; [by rewrite decide_True|].
    rewrite decide_False by congruence. rewrite (Hsu2 c va' Hc Hva'). pose proof (upage_of_va va' Hva') as Hn'.
    rewrite <- (cow_uread kend ex ds s s1 p va' Hs1 Hp Hva'). unfold uread, mapped. rewrite Huc, Hup by done.
    destruct (Z.ltb_spec (va' / 4096) (npages sz)); [by rewrite !decide_True by done|].
    by rewrite decide_False by lia.
Qed.

Lemma fork_isolation_witness : exists c s1 s2 s3, copyuvm kend0 kdata0 space_dir 0x3000 space = Ret c s1 /\
  pagefault kend0 (Some c) 0x1234 s1 = Ret false s2 /\ user_store c 0x1234 77 s2 = Some s3 /\
  uread (m_mem s3) c 0x1234 = Some 77.
Proof.
  destruct space_inv as (fl & Hi & Hh & Hw & _ & Hl). destruct (Hw 1 ltac:(lia)) as [_ HU].
  destruct (fork_isolation kend0 managed0 kdata0 no_kernel_refs space fl [space_dir] space_dir 0x3000 0x1234 77 kend0_ok kdata0_ok Hi)
    as (c & s1 & s2 & s3 & H1 & H2 & H3 & _ & H5).
  - apply settled0. cbn [length]. lia.
  - cbn [length]. lia.
  - rewrite Hh. apply not_elem_of_nil.
  - left.
  - unfold KERNBASE. lia.
  - change (npages 0x3000) with 3. intros n Hn. destruct (Hw n Hn) as [Hwn _]. by apply andb_true_iff in Hwn as [? _].
  - lia.
  - change (npages 0x3000) with 3. change (0x1234 / 4096) with 1. lia.
  - exact HU.
  - lia.
  - exists c, s1, s2, s3. split; [exact H1|]. split; [exact H2|]. split; [exact H3|].
    rewrite (H5 0x1234 ltac:(unfold KERNBASE; lia)). rewrite decide_True by reflexivity. reflexivity.
Defined.

(** Two processors can lose a page.  Reading the reference count and decrementing
    it are two critical sections, and nothing is held in between.  When the two
    last sharers of a page fault on different processors and both read the count
    2 before either decrements it, both make a copy and both decrement.  The page
    then has count 0 and no entry maps it, yet it is not on the free list: it can
    never be allocated or freed again. *)
Theorem pagefault_race : forall kend managed ex s fl ds p1 n1 p2 n2 v1 v2,
  KERNLINK <= kend <= KERNBASE + PHYSTOP ->
  vm_inv kend managed ex s (v1 :: v2 :: fl) ds -> settled ex ds -> LkKmem ∉ m_held s ->
  p1 ∈ ds -> p2 ∈ ds -> p1 <> p2 -> 0 <= n1 < UPAGES -> 0 <= n2 < UPAGES ->
  let q := tgt (upte (m_mem s) p1 n1) in
  mapped (m_mem s) p1 n1 = true -> mapped (m_mem s) p2 n2 = true -> tgt (upte (m_mem s) p2 n2) = q ->
  refcount s (pidx q) = 2 ->
  getReferenceCount kend (V2P q) s = Ret 2 s /\
  exists s', (pagefault_resolve kend p1 (slot (m_mem s) p1 (n1 * 4096)) (V2P q) 2 ;;;
              pagefault_resolve kend p2 (slot (m_mem s) p2 (n2 * 4096)) (V2P q) 2) s = Ret false s' /\
    alloc_inv kend s' fl /\ refcount s' (pidx q) = 0 /\ q ∉ fl /\ refs (m_mem s') ds q = 0%nat.
Proof.
  intros kend managed ex s fl ds p1 n1 p2 n2 v1 v2 Hk Hi Hse Hh Hp1 Hp2 Hne Hn1 Hn2 q Hm1 Hm2 Ht2 Hrc.
  destruct (mapped_page _ _ _ _ _ _ _ _ Hi (fun q => proj1 (se_ex _ _ Hse q)) Hp1 Hn1 Hm1) as (Hq & _ & _ & _). fold q in Hq.
  split; [rewrite (getReferenceCount_eq kend Hk s q Hq Hh); by rewrite Hrc|].
  assert (Hgt : 1 < refcount s (pidx (tgt (upte (m_mem s) p1 n1)))) by (fold q; lia).
  destruct (copy_page kend managed Hk ex s (v2 :: fl) ds p1 n1 v1 Hi Hse Hp1 Hn1 Hm1 Hgt) as (Hi1 & _ & _ & Ho1). fold q in Hi1, Ho1.
  assert (Hr1 := resolve_copy kend managed Hk ex s (v2 :: fl) ds p1 n1 v1 2 Hi Hse Hh Hp1 Hn1 Hm1 ltac:(lia)). cbv zeta in Hr1. fold q in Hr1.
  rewrite Hrc in Hi1, Ho1, Hr1. change (u32 (2 - 1)) with 1 in Hr1. change (2 - 1) with 1 in Hi1, Ho1.
  assert (Hsl := swapped_slot kend managed ex s (v2 :: fl) ds p1 n1 v1 q p2 (n2 * 4096) Hi Hse Hp1 Hm1 Hp2 ltac:(congruence)).
  set (s0 := set_count q 1 (swapped p1 n1 v1 q s)) in *. set (s1 := set_m_cr3 (V2P p1) s0) in *.
  assert (Hi1' : vm_inv kend managed ex s1 (v2 :: fl) ds) by (by apply vm_inv_cr3).
  assert (He2 : upte (m_mem s1) p2 n2 = upte (m_mem s) p2 n2) by (apply Ho1; [done|done|congruence]).
  assert (Hm2' : mapped (m_mem s1) p2 n2 = true) by (unfold mapped; rewrite He2; exact Hm2).
  assert (Hq2 : tgt (upte (m_mem s1) p2 n2) = q) by (by rewrite He2).
  assert (Hr2 := resolve_copy kend managed Hk ex s1 fl ds p2 n2 v2 2 Hi1' Hse Hh Hp2 Hn2 Hm2' ltac:(lia)). cbv zeta in Hr2.
  destruct (swap_page kend managed Hk ex s1 fl ds p2 n2 v2 Hi1' Hse Hp2 Hn2 Hm2') as (Hi2 & _ & Hqf & Hnp2 & Href2 & _).
  rewrite Hq2 in Hr2, Hi2, Hqf, Hnp2, Href2.
  assert (Hrc1 : refcount s1 (pidx q) = 1) by apply refcount_set_count_eq. rewrite Hrc1 in Hr2, Href2.
  change (u32 (1 - 1)) with 0 in Hr2.
  exists (set_m_cr3 (V2P p2) (set_count q 0 (swapped p2 n2 v2 q s1))).
  split; [|split; [|split; [apply refcount_set_count_eq|split; [exact Hqf|]]]].
  - step Hr1. rewrite <- Hr2. f_equal. symmetry. exact Hsl.
  - assert (Ha : alloc_inv kend (set_count q 0 (swapped p2 n2 v2 q s1)) fl)
      by (apply set_count_inv; [exact Hk|by eapply vi_alloc|exact Hq|exact Hqf]). by destruct Ha; split.
  - pose proof (vi_refs _ _ _ _ _ _ Hi2 q Hq Hnp2) as Hvr. rewrite Href2, upd_eq in Hvr. pose proof (se_ex _ _ Hse q) as Hex.
    change (refs (m_mem (swapped p2 n2 v2 q s1)) ds q = 0%nat). lia.
Qed.

Lemma pagefault_race_witness : exists fl s', 
  (pagefault_resolve kend0 fork_dir (slot (m_mem forked) fork_dir (1 * 4096)) (V2P (tgt (upte (m_mem forked) fork_dir 1))) 2 ;;;
   pagefault_resolve kend0 space_dir (slot (m_mem forked) space_dir (1 * 4096)) (V2P (tgt (upte (m_mem forked) fork_dir 1))) 2)
    forked = Ret false s' /\ alloc_inv kend0 s' fl /\
  refcount s' (pidx (tgt (upte (m_mem forked) fork_dir 1))) = 0 /\ tgt (upte (m_mem forked) fork_dir 1) ∉ fl.
Proof.
  destruct forked_inv as (fl & Hi & Hh & He & Heq & Hne & Hl). destruct fl as [|v1 [|v2 fl]]; [exfalso; cbn [length] in Hl; lia..|].
  destruct (He 1 fork_dir ltac:(lia) ltac:(left)) as (HP1 & _ & _).
  destruct (He 1 space_dir ltac:(lia) ltac:(right; left)) as (HP2 & _ & _).
  destruct (Heq 1 ltac:(lia)) as [Hsame Hrc].
  destruct (pagefault_race kend0 managed0 no_kernel_refs forked fl [fork_dir; space_dir] fork_dir 1 space_dir 1 v1 v2 kend0_ok Hi)
    as (_ & s' & Hr & Ha & Hc & Hf & _).
  - apply settled0. cbn [length]. lia.
  - rewrite Hh. apply not_elem_of_nil.
  - left.
  - right. left.
  - exact Hne.
  - unfold UPAGES. lia.
  - unfold UPAGES. lia.
  - exact HP1.
  - exact HP2.
  - rewrite Hsame. reflexivity.
  - rewrite Hsame. exact Hrc.
  - exists fl, s'. split; [exact Hr|]. split; [exact Ha|]. split; [exact Hc|exact Hf].
Defined.
