(* ===== verification/Rand.v ===== *)
(** * rand.c: the Mersenne Twister and [random_at_most]

    The generator keeps 624 words and refreshes all of them in place when they are
    used up.  The reference it is compared with is the textbook recurrence, which
    appends one word at a time to an ever longer list.  An [unsigned long] has 32
    bits on the target. *)

From S2P Require Import Prelude.

(** ** The generator *)

Definition MT_N : Z := 624.
Definition MT_M : Z := 397.
Definition MATRIX_A : Z := 0x9908b0df.
Definition UPPER_MASK : Z := 0x80000000.
Definition LOWER_MASK : Z := 0x7fffffff.
Definition TEMPERING_MASK_B : Z := 0x9d2c5680.
Definition TEMPERING_MASK_C : Z := 0xefc60000.
Definition TEMPERING_SHIFT_U (y : Z) : Z := Z.shiftr y 11.
Definition TEMPERING_SHIFT_S (y : Z) : Z := u32 (Z.shiftl y 7).
Definition TEMPERING_SHIFT_T (y : Z) : Z := u32 (Z.shiftl y 15).
Definition TEMPERING_SHIFT_L (y : Z) : Z := Z.shiftr y 18.
Definition RAND_MAX : Z := 0x7fffffff.

Record rng := Rng { mt : list Z; mti : Z }.

Definition word (m : list Z) (i : Z) : Z := nth (Z.to_nat i) m 0.

(** [mt[0] = seed; mt[i] = 69069 * mt[i-1]], all modulo [2^32]. *)
Fixpoint seeds (n : nat) (w : Z) : list Z :=
  match n with
  | O => []
  | S n => w :: seeds n (Z.land (u32 (69069 * w)) 0xffffffff)
  end.
Definition sgenrand (seed : Z) : rng := Rng (seeds (Z.to_nat MT_N) (Z.land seed 0xffffffff)) MT_N.

Definition mag01 (x : Z) : Z := if x =? 0 then 0 else MATRIX_A.

(** One assignment [mt[kk] = mt[far] ^ (y >> 1) ^ mag01[y & 1]], where [y] joins the
    top bit of [mt[kk]] with the rest of [mt[next]]. *)
Definition twist (a b far : Z) : Z :=
  let y := Z.lor (Z.land a UPPER_MASK) (Z.land b LOWER_MASK) in
  Z.lxor (Z.lxor far (Z.shiftr y 1)) (mag01 (Z.land y 1)).
Definition refresh (m : list Z) (kk next far : Z) : list Z :=
  <[Z.to_nat kk := twist (word m kk) (word m next) (word m far)]> m.

(** The two loops, from [kk] on, [n] iterations. *)
Fixpoint refresh_low (n : nat) (kk : Z) (m : list Z) : list Z :=
  match n with
  | O => m
  | S n => refresh_low n (kk + 1) (refresh m kk (kk + 1) (kk + MT_M))
  end.
Fixpoint refresh_high (n : nat) (kk : Z) (m : list Z) : list Z :=
  match n with
  | O => m
  | S n => refresh_high n (kk + 1) (refresh m kk (kk + 1) (kk + (MT_M - MT_N)))
  end.
Definition regenerate (m : list Z) : list Z :=
  let m := refresh_low (Z.to_nat (MT_N - MT_M)) 0 m in
  let m := refresh_high (Z.to_nat (MT_M - 1)) (MT_N - MT_M) m in
  refresh m (MT_N - 1) 0 (MT_M - 1).

Definition temper (y : Z) : Z :=
  let y := Z.lxor y (TEMPERING_SHIFT_U y) in
  let y := Z.lxor y (Z.land (TEMPERING_SHIFT_S y) TEMPERING_MASK_B) in
  let y := Z.lxor y (Z.land (TEMPERING_SHIFT_T y) TEMPERING_MASK_C) in
  Z.lxor y (TEMPERING_SHIFT_L y).

Definition genrand : M rng Z := fun s =>
  let s :=
    if MT_N <=? mti s then
      let s := if mti s =? MT_N + 1 then sgenrand 4357 else s in Rng (regenerate (mt s)) 0
    else s in
  let y := word (mt s) (mti s) in
  Ret (Z.land (temper y) RAND_MAX) (Rng (mt s) (mti s + 1)).

(** [do x = genrand(); while (num_rand - defect <= x)], at most [fuel] draws. *)
Fixpoint draw (fuel : nat) (limit : Z) : M rng Z :=
  match fuel with
  | O => ub "random_at_most: still drawing"
  | S fuel => x <- genrand ;; if limit <=? x then draw fuel limit else ret x
  end.
Definition num_bins (max : Z) : Z := u32 (u32 max + 1).
Definition num_rand : Z := u32 (RAND_MAX + 1).
Definition bin_size (max : Z) : Z := num_rand / num_bins max.
Definition defect (max : Z) : Z := num_rand mod num_bins max.
Definition random_at_most (fuel : nat) (max : Z) : M rng Z :=
  x <- draw fuel (num_rand - defect max) ;; ret (x / bin_size max).

(** ** The recurrence *)

(** The word number [k + 624] from the words [k], [k + 1] and [k + 397]. *)
Definition next_word (l : list Z) (k : nat) : Z :=
  twist (nth k l 0) (nth (k + 1) l 0) (nth (k + 397) l 0).

(** The words of the sequence: the first [length l] are given, [n] more follow. *)
Fixpoint extend (n : nat) (l : list Z) : list Z :=
  match n with
  | O => l
  | S n => extend n (l ++ [next_word l (length l - 624)])
  end.

Lemma extend_length n l : length (extend n l) = (length l + n)%nat.
Proof. revert l. induction n as [|n IH]; intros l; cbn; [lia|]. rewrite IH. len. Qed.

Lemma extend_add n m l : extend (n + m) l = extend m (extend n l).
Proof. revert l. induction n as [|n IH]; intros l; cbn; [done|]. apply IH. Qed.

Lemma extend_prefix n l i : (i < length l)%nat -> nth i (extend n l) 0 = nth i l 0.
Proof.
  revert l. induction n as [|n IH]; intros l Hi; cbn; [done|].
  rewrite IH by len. by rewrite app_nth1.
Qed.

(** The recurrence holds of any two lengths at which the words exist. *)
Lemma extend_word n l k :
  length l = 624%nat -> (k < n)%nat ->
  nth (k + 624) (extend n l) 0 = next_word (extend n l) k.
Proof.
  intros Hl Hk. replace n with (k + (1 + (n - k - 1)))%nat by lia.
  rewrite extend_add. set (l1 := extend k l).
  assert (Hl1 : length l1 = (624 + k)%nat) by (unfold l1; rewrite extend_length; lia).
  rewrite (extend_add 1). cbn [extend]. rewrite Hl1. replace (624 + k - 624)%nat with k by lia.
  set (l2 := l1 ++ [next_word l1 k]). assert (Hl2 : length l2 = (625 + k)%nat) by (unfold l2; len).
  rewrite extend_prefix by lia. unfold next_word. rewrite !extend_prefix by lia.
  unfold l2. rewrite (app_nth2 l1) by lia. rewrite Hl1. replace (k + 624 - (624 + k))%nat with 0%nat by lia.
  cbn [nth]. unfold next_word. by rewrite !app_nth1 by lia.
Qed.

(** ** Refreshing in place *)

Section Refresh.
Context (l X : list Z) (Hl : length l = 624%nat) (HX : length X = (624 + 624)%nat).
Context (Hpre : forall i, (i < 624)%nat -> nth i X 0 = nth i l 0).
Context (Hrec : forall k, (k < 624)%nat -> nth (k + 624) X 0 = next_word X k).

(** The first [j] words have been refreshed, the others not yet. *)
Definition mixed (j : nat) (m : list Z) : Prop :=
  length m = 624%nat /\
  forall i, (i < 624)%nat -> nth i m 0 = nth (if (i <? j)%nat then 624 + i else i) X 0.

Lemma mixed_refresh j m next far :
  mixed j m -> (j < 624)%nat -> 0 <= next < 624 -> 0 <= far < 624 ->
  word m next = nth (j + 1) X 0 -> word m far = nth (j + 397) X 0 ->
  mixed (j + 1) (refresh m (Z.of_nat j) next far).
Proof using Hl HX Hpre Hrec.
  intros [Hlen Hm] Hj Hn Hf En Ef. unfold refresh. rewrite Nat2Z.id. split; [by rewrite length_insert|].
  intros i Hi. destruct (decide (i = j)) as [->|Hne].
  - rewrite (proj2 (Nat.ltb_lt j (j + 1))) by lia.
    rewrite (nth_lookup_Some _ _ _ (twist (word m (Z.of_nat j)) (word m next) (word m far)));
      [|by rewrite list_lookup_insert_eq by lia].
    rewrite En, Ef. unfold word. rewrite Nat2Z.id, (Hm j) by lia. rewrite (proj2 (Nat.ltb_ge j j)) by lia.
    rewrite (Nat.add_comm 624 j), Hrec by lia. reflexivity.
  - assert (Hnth : nth i (<[j:=twist (word m (Z.of_nat j)) (word m next) (word m far)]> m) 0 = nth i m 0).
    { rewrite !nth_lookup. by rewrite list_lookup_insert_ne. }
    rewrite Hnth, Hm by done.
    destruct (Nat.ltb_spec i j), (Nat.ltb_spec i (j + 1)); try lia; done.
Qed.

(** Reading a word that has, or has not, been refreshed. *)
Lemma mixed_word j m i :
  mixed j m -> 0 <= i < 624 ->
  word m i = nth (if Z.to_nat i <? j then 624 + Z.to_nat i else Z.to_nat i)%nat X 0.
Proof using Hl HX Hpre Hrec. intros [_ Hm] Hi. unfold word. apply Hm. lia. Qed.

Lemma refresh_low_mixed n j m :
  mixed j m -> (j + n <= 227)%nat -> mixed (j + n) (refresh_low n (Z.of_nat j) m).
Proof using Hl HX Hpre Hrec.
  revert j m. induction n as [|n IH]; intros j m Hm Hn; cbn [refresh_low]; [by rewrite Nat.add_0_r|].
  replace (Z.of_nat j + 1) with (Z.of_nat (j + 1)) by lia.
  replace (j + S n)%nat with (j + 1 + n)%nat by lia. apply IH; [|lia].
  apply mixed_refresh; unfold MT_M; try lia; [done|..]; rewrite (mixed_word j) by (done || lia).
  - rewrite (proj2 (Nat.ltb_ge _ _)) by lia. f_equal. lia.
  - rewrite (proj2 (Nat.ltb_ge _ _)) by lia. f_equal. lia.
Qed.

Lemma refresh_high_mixed n j m :
  mixed j m -> (227 <= j)%nat -> (j + n <= 623)%nat -> mixed (j + n) (refresh_high n (Z.of_nat j) m).
Proof using Hl HX Hpre Hrec.
  revert j m. induction n as [|n IH]; intros j m Hm Hj Hn; cbn [refresh_high]; [by rewrite Nat.add_0_r|].
  replace (Z.of_nat j + 1) with (Z.of_nat (j + 1)) by lia.
  replace (j + S n)%nat with (j + 1 + n)%nat by lia. apply IH; [|lia|lia].
  apply mixed_refresh; unfold MT_M, MT_N; try lia; [done|..]; rewrite (mixed_word j) by (done || lia).
  - rewrite (proj2 (Nat.ltb_ge _ _)) by lia. f_equal. lia.
  - rewrite (proj2 (Nat.ltb_lt _ _)) by lia. f_equal. lia.
Qed.

Lemma regenerate_words : regenerate l = drop 624 X.
Proof using Hl HX Hpre Hrec.
  assert (H0 : mixed 0 l).
  { split; [done|]. intros i Hi. cbn [Nat.ltb Nat.leb]. symmetry. by apply Hpre. }
  assert (E1 : Z.to_nat (MT_N - MT_M) = 227%nat) by (vm_compute; reflexivity).
  assert (E2 : Z.to_nat (MT_M - 1) = 396%nat) by (vm_compute; reflexivity).
  unfold regenerate. rewrite E1, E2. set (m1 := refresh_low 227 0 l).
  assert (H1 : mixed 227 m1) by (apply (refresh_low_mixed 227 0 l H0); lia). clearbody m1.
  change (MT_N - MT_M) with (Z.of_nat 227). set (m2 := refresh_high 396 _ m1).
  assert (H2 : mixed 623 m2) by (apply (refresh_high_mixed 396 227 m1 H1); lia). clearbody m2.
  change (MT_N - 1) with (Z.of_nat 623). change (MT_M - 1) with 396. set (m3 := refresh m2 _ _ _).
  assert (H3 : mixed 624 m3).
  { apply (mixed_refresh 623 m2 0 396 H2); [lia|lia|lia|..];
      rewrite (mixed_word 623) by (done || lia); rewrite (proj2 (Nat.ltb_lt _ _)) by lia; done. }
  clearbody m3. destruct H3 as [Hlen Hm]. apply (nth_ext _ _ 0 0).
  - rewrite length_drop, HX, Hlen. lia.
  - intros i Hi. rewrite Hlen in Hi. rewrite (Hm i Hi), (proj2 (Nat.ltb_lt _ _)) by lia.
    by rewrite !nth_lookup, lookup_drop.
Qed.
End Refresh.

Lemma regenerate_spec l : length l = 624%nat -> regenerate l = drop 624 (extend 624 l).
Proof.
  intros Hl. apply regenerate_words; [done|rewrite extend_length, Hl; reflexivity|..].
  - intros i Hi. apply extend_prefix. by rewrite Hl.
  - intros k Hk. by apply extend_word.
Qed.

Lemma extend_drop n d l :
  (d + 624 <= length l)%nat -> extend n (drop d l) = drop d (extend n l).
Proof.
  revert l. induction n as [|n IH]; intros l Hd; cbn [extend]; [done|].
  rewrite <- IH by len. rewrite drop_app_le by lia. do 3 f_equal.
  unfold next_word. rewrite length_drop.
  assert (Hn : forall i, nth i (drop d l) 0 = nth (d + i) l 0).
  { intros i. by rewrite !nth_lookup, lookup_drop. }
  rewrite !Hn. by f_equal; f_equal; lia.
Qed.

(** ** The stream of outputs *)

Fixpoint draws (n : nat) : M rng (list Z) :=
  match n with
  | O => ret []
  | S n => x <- genrand ;; xs <- draws n ;; ret (x :: xs)
  end.

(** The [i]-th output of the generator with initial words [l]. *)
Definition output (l : list Z) (i : nat) : Z := Z.land (temper (nth (i + 624) (extend (i + 1) l) 0)) RAND_MAX.

Lemma seeds_length n w : length (seeds n w) = n.
Proof. revert w. induction n as [|n IH]; intros w; cbn; [done|]. by rewrite IH. Qed.

Section Stream.
Context (l : list Z) (Hl : length l = 624%nat).

(** After [n] outputs: [g] blocks have been generated, and the next output of the
    sequence is word [mti] of the current block. *)
Definition at_output (n : nat) (s : rng) : Prop :=
  exists g k, mt s = drop (624 * g) (extend (624 * g) l) /\ mti s = Z.of_nat k /\
    (k <= 624)%nat /\ (n + 624 = 624 * g + k)%nat.

Lemma genrand_output n s :
  at_output n s -> exists s', genrand s = Ret (output l n) s' /\ at_output (n + 1) s'.
Proof using Hl.
  intros (g & k & Hmt & Hk & Hle & Hn). unfold genrand, MT_N. rewrite Hk.
  assert (Hout : forall g' k' m, (k' < 624)%nat -> (n + 624 = 624 * g' + k')%nat ->
    m = drop (624 * g') (extend (624 * g') l) -> Z.land (temper (word m (Z.of_nat k'))) RAND_MAX = output l n).
  { intros g' k' m Hk' Hn' ->. unfold word, output. rewrite Nat2Z.id, nth_lookup, lookup_drop, <- nth_lookup.
    do 2 f_equal. replace (624 * g' + k')%nat with (n + 624)%nat by lia.
    destruct (Nat.le_gt_cases (n + 1) (624 * g')) as [Hc|Hc].
    - replace (624 * g')%nat with ((n + 1) + (624 * g' - (n + 1)))%nat by lia.
      rewrite extend_add, extend_prefix; [done|]. rewrite extend_length. lia.
    - assert (n = 624 * g')%nat as -> by lia. lia. }
  destruct (Nat.eq_dec k 624%nat) as [->|Hlt].
  - rewrite (proj2 (Z.leb_le 624 (Z.of_nat 624))) by lia.
    rewrite (proj2 (Z.eqb_neq (Z.of_nat 624) (624 + 1))) by lia. cbn [mt mti].
    rewrite Hmt, regenerate_spec by (rewrite length_drop, extend_length; lia).
    assert (Hb : drop 624 (extend 624 (drop (624 * g) (extend (624 * g) l))) =
                 drop (624 * (g + 1)) (extend (624 * (g + 1)) l)).
    { rewrite extend_drop by (rewrite extend_length; lia). rewrite <- extend_add, drop_drop.
      f_equal; [lia|]. f_equal. lia. }
    rewrite Hb. eexists. split.
    + f_equal. apply (Hout (g + 1)%nat 0%nat); [lia|lia|done].
    + exists (g + 1)%nat, 1%nat. cbn [mt mti]. split_and!; [done|done|lia|lia].
  - rewrite (proj2 (Z.leb_gt 624 (Z.of_nat k))) by lia. eexists. split.
    + f_equal. rewrite Hk. apply (Hout g); [lia|lia|done].
    + exists g, (k + 1)%nat. cbn [mt mti]. rewrite Hk. split_and!; [done|lia|lia|lia].
Qed.

Lemma draws_output k n s :
  at_output n s -> exists s', draws k s = Ret (output l <$> seq n k) s' /\ at_output (n + k) s'.
Proof using Hl.
  revert n s. induction k as [|k IH]; intros n s Hs; cbn [draws].
  - exists s. by rewrite Nat.add_0_r.
  - destruct (genrand_output n s Hs) as (s1 & E1 & H1). step E1.
    destruct (IH (n + 1)%nat s1 H1) as (s2 & E2 & H2). step E2. exists s2.
    replace (n + S k)%nat with (n + 1 + k)%nat by lia. split; [|done]. cbn [seq fmap list_fmap].
    by rewrite Nat.add_1_r.
Qed.
End Stream.

(** ** Bounds of [random_at_most] *)

Lemma genrand_range s : exists x s', genrand s = Ret x s' /\ 0 <= x <= RAND_MAX.
Proof.
  unfold genrand. eexists _, _. split; [reflexivity|]. unfold RAND_MAX. change 0x7fffffff with (Z.ones 31).
  match goal with |- 0 <= Z.land ?y _ <= _ => generalize y; intros z end.
  rewrite Z.land_ones by lia. pose proof (Z.mod_pos_bound z (2 ^ 31) ltac:(lia)).
  change (Z.ones 31) with (2 ^ 31 - 1). lia.
Qed.

(** [draw] returns the first of the next outputs that is below the limit. *)
Lemma draw_first fuel limit s xs s1 :
  draws fuel s = Ret xs s1 ->
  match find (fun x => x <? limit) xs with
  | Some x => exists s', draw fuel limit s = Ret x s'
  | None => exists m, draw fuel limit s = UB m
  end.
Proof.
  revert s xs. induction fuel as [|n IH]; intros s xs; cbn [draws draw]; [intros [= <- _]; by eexists|].
  destruct (genrand_range s) as (x & s2 & E & _). rewrite !(bind_ret _ _ _ _ _ E).
  intros H. inv_bind H. inv_ret. specialize (IH _ _ Hrun). cbn [find].
  destruct (Z.ltb_spec x limit) as [Hlt|Hge].
  - exists s2. by rewrite (proj2 (Z.leb_gt _ _)) by lia.
  - rewrite (proj2 (Z.leb_le _ _)) by lia. exact IH.
Qed.

Lemma draws_range k s xs s' : draws k s = Ret xs s' -> Forall (fun x => 0 <= x <= RAND_MAX) xs.
Proof.
  revert s xs. induction k as [|k IH]; intros s xs; cbn [draws]; [intros [= <- _]; constructor|].
  destruct (genrand_range s) as (x & s2 & E & Hx). rewrite (bind_ret _ _ _ _ _ E).
  intros H. inv_bind H. inv_ret. constructor; [done|]. by eapply IH.
Qed.

Lemma bins max :
  0 <= max <= RAND_MAX ->
  num_bins max = max + 1 /\ num_rand = 2 ^ 31 /\ 1 <= bin_size max /\
  num_rand - defect max = bin_size max * (max + 1).
Proof.
  unfold RAND_MAX. intros Hm. assert (Hb : num_bins max = max + 1).
  { unfold num_bins. rewrite (u32_id max), u32_id; lia. }
  assert (Hr : num_rand = 2 ^ 31) by reflexivity. split_and!; [done|done|..]; unfold bin_size, defect; rewrite Hb, Hr.
  - apply Z.div_le_lower_bound; lia.
  - pose proof (Z.div_mod (2 ^ 31) (max + 1) ltac:(lia)). lia.
Qed.

(** ** Properties *)

(** The generator is the Mersenne Twister: seeded or not, its [n] first outputs
    are those of the recurrence on the 624 initial words, tempered and cut to 31
    bits, although the code refreshes the 624 words in place, a block at a time. *)
Theorem genrand_is_mersenne_twister seed n m :
  (exists s', draws n (sgenrand seed) = Ret (output (mt (sgenrand seed)) <$> seq 0 n) s') /\
  (exists s', draws (S n) (Rng m (MT_N + 1)) = Ret (output (mt (sgenrand 4357)) <$> seq 0 (S n)) s').
Proof.
  assert (H0 : forall sd, at_output (mt (sgenrand sd)) 0 (sgenrand sd)).
  { intros sd. exists 0%nat, 624%nat. split_and!; [done|done|lia|lia]. }
  assert (Hl : forall sd, length (mt (sgenrand sd)) = 624%nat) by (intros sd; apply seeds_length).
  split.
  - destruct (draws_output _ (Hl seed) n 0 _ (H0 seed)) as (s' & E & _). by exists s'.
  - destruct (draws_output _ (Hl 4357) (S n) 0 _ (H0 4357)) as (s' & E & _). exists s'. by rewrite <- E.
Qed.

(** [random_at_most(max)] stays within [0, max] and is fair: it takes the first
    of the generator's next outputs that is small enough, and each result [k] comes
    from exactly [bin_size] values of that output. *)
Theorem random_at_most_correct max fuel s xs s1 :
  0 <= max <= RAND_MAX -> draws fuel s = Ret xs s1 ->
  match find (fun x => x <? num_rand - defect max) xs with
  | Some x => exists s', random_at_most fuel max s = Ret (x / bin_size max) s' /\ 0 <= x / bin_size max <= max
  | None => exists m, random_at_most fuel max s = UB m
  end /\
  (forall k x, 0 <= k <= max -> 0 <= x ->
    x < num_rand - defect max /\ x / bin_size max = k <->
    k * bin_size max <= x < k * bin_size max + bin_size max).
Proof.
  intros Hm Hd. destruct (bins max Hm) as (Hb & Hr & Hs & Hlim). split.
  - pose proof (draw_first fuel (num_rand - defect max) s xs s1 Hd) as Hf. unfold random_at_most.
    destruct (find _ xs) as [x|] eqn:Hx.
    + destruct Hf as (s' & E). exists s'. step E. split; [done|].
      apply find_some in Hx as [Hin%list_elem_of_In Hlt%Z.ltb_lt].
      pose proof (proj1 (Forall_forall _ _) (draws_range _ _ _ _ Hd) x Hin) as Hx. cbv beta in Hx.
      split; [apply Z.div_pos; lia|]. enough (x / bin_size max < max + 1) by lia.
      apply Z.div_lt_upper_bound; lia.
    + destruct Hf as (m & E). exists m. by rewrite (bind_ub _ _ _ _ E).
  - intros k x Hk Hx. rewrite Hlim. split.
    + intros [Hlt Hq]. pose proof (Z.div_mod x (bin_size max) ltac:(lia)).
      pose proof (Z.mod_pos_bound x (bin_size max) ltac:(lia)). nia.
    + intros Hrange. assert (Hq : x / bin_size max = k).
      { symmetry. apply (Z.div_unique _ _ _ (x - k * bin_size max)); [lia|ring]. }
      split; [nia|done].
Qed.

Lemma random_at_most_correct_witness :
  exists k s', random_at_most 2 9 (sgenrand 4357) = Ret k s' /\ 0 <= k <= 9.
Proof.
  destruct (draws 2 (sgenrand 4357)) as [xs s1|m|c s1|m] eqn:E; [|by vm_compute in E..].
  assert (H9 : 0 <= 9 <= RAND_MAX) by (unfold RAND_MAX; lia).
  pose proof (proj1 (random_at_most_correct 9 2 (sgenrand 4357) xs s1 H9 E)) as H.
  destruct (find (fun x => x <? num_rand - defect 9) xs) as [x|].
  - destruct H as (s' & Hr & Hb). exists (x / bin_size 9), s'. split; [exact Hr|exact Hb].
  - destruct H as [m H]. vm_compute in H. discriminate H.
Defined.
