(* ===== verification/Proc.v ===== *)
(** * proc.c: processes

    The process table and the operations on it.  The state is the one a processor
    sees while it runs kernel code: the machine of the memory system (with the
    locks this processor holds), the process table, what each processor runs, and
    the state [F] of the file layer.  The code calls the file layer through the
    interface [FileLayer]; the processes it wakes are reported as channels.

    Where a process gives up the processor, in [sched], the C function is split: the
    part up to the switch and the part after it are two definitions, and module
    [Sched] composes them with the scheduler.  The code is compiled with one of
    [DEFAULT], [LOTTERY] and [MFQ]; the first two are modelled. *)

From stdpp Require Import functions.
From S2P Require Import Prelude Mmu Mem Cstring Kalloc Vm Rand.
#[local] Open Scope Z_scope.

(** ** Data *)

Inductive procstate := UNUSED | EMBRYO | SLEEPING | RUNNABLE | RUNNING | ZOMBIE.
#[export] Instance procstate_eq_dec : EqDecision procstate.
Proof. solve_decision. Defined.

Inductive sched_config := DEFAULT | LOTTERY.

Definition DEFAULT_TICKETS : Z := 1.

(** [struct proc]; pointers to processes, files and inodes are indices.  The field
    [ticks] is never used. *)
Record proc := Proc {
  p_sz : Z; p_pgdir : Z; p_kstack : Z; p_state : procstate; p_pid : Z; p_parent : option nat;
  p_tf : Z; p_context : Z; p_chan : option chan; p_killed : Z;
  p_ofile : list (option nat); p_cwd : option nat; p_name : list Z;
  p_stime : Z; p_ctime : Z; p_retime : Z; p_rutime : Z; p_tickets : Z; p_priority : Z
}.

(** [struct pstat]. *)
Record pstat := Pstat {
  ps_inuse : list Z; ps_pid : list Z; ps_priority : list Z; ps_state : list procstate; ps_ticks : list (list Z)
}.

(** The parts of [struct cpu] that process switching uses. *)
Record percpu := Percpu {
  cp_proc : option nat; cp_gdt : gmap Z segdesc; cp_ss0 : Z; cp_esp0 : Z; cp_iomb : Z; cp_tr : Z
}.

Record kern {F : Type} := Kern {
  k_mach : machine;
  k_procs : list proc;             (* ptable.proc *)
  k_que : list (list (option nat)); (* ptable.que *)
  k_priCount : list Z;             (* ptable.priCount *)
  k_initproc : option nat;
  k_pstat : pstat;                 (* pstat_var *)
  k_nextpid : Z;
  k_ticks : Z;
  k_cpus : nat -> percpu;
  k_kpgdir : Z;
  k_rng : rng;
  k_fs : F
}.
Arguments kern : clear implicits.

Section Setters.
Context {F : Type}.
Implicit Types k : kern F.
Definition set_mach m k := Kern F m (k_procs k) (k_que k) (k_priCount k) (k_initproc k) (k_pstat k) (k_nextpid k)
  (k_ticks k) (k_cpus k) (k_kpgdir k) (k_rng k) (k_fs k).
Definition set_procs ps k := Kern F (k_mach k) ps (k_que k) (k_priCount k) (k_initproc k) (k_pstat k) (k_nextpid k)
  (k_ticks k) (k_cpus k) (k_kpgdir k) (k_rng k) (k_fs k).
Definition set_que q k := Kern F (k_mach k) (k_procs k) q (k_priCount k) (k_initproc k) (k_pstat k) (k_nextpid k)
  (k_ticks k) (k_cpus k) (k_kpgdir k) (k_rng k) (k_fs k).
Definition set_priCount c k := Kern F (k_mach k) (k_procs k) (k_que k) c (k_initproc k) (k_pstat k) (k_nextpid k)
  (k_ticks k) (k_cpus k) (k_kpgdir k) (k_rng k) (k_fs k).
Definition set_initproc p k := Kern F (k_mach k) (k_procs k) (k_que k) (k_priCount k) p (k_pstat k) (k_nextpid k)
  (k_ticks k) (k_cpus k) (k_kpgdir k) (k_rng k) (k_fs k).
Definition set_pstat st k := Kern F (k_mach k) (k_procs k) (k_que k) (k_priCount k) (k_initproc k) st (k_nextpid k)
  (k_ticks k) (k_cpus k) (k_kpgdir k) (k_rng k) (k_fs k).
Definition set_nextpid n k := Kern F (k_mach k) (k_procs k) (k_que k) (k_priCount k) (k_initproc k) (k_pstat k) n
  (k_ticks k) (k_cpus k) (k_kpgdir k) (k_rng k) (k_fs k).
Definition set_ticks t k := Kern F (k_mach k) (k_procs k) (k_que k) (k_priCount k) (k_initproc k) (k_pstat k)
  (k_nextpid k) t (k_cpus k) (k_kpgdir k) (k_rng k) (k_fs k).
Definition set_cpus c k := Kern F (k_mach k) (k_procs k) (k_que k) (k_priCount k) (k_initproc k) (k_pstat k)
  (k_nextpid k) (k_ticks k) c (k_kpgdir k) (k_rng k) (k_fs k).
Definition set_rng r k := Kern F (k_mach k) (k_procs k) (k_que k) (k_priCount k) (k_initproc k) (k_pstat k)
  (k_nextpid k) (k_ticks k) (k_cpus k) (k_kpgdir k) r (k_fs k).
Definition set_fs f k := Kern F (k_mach k) (k_procs k) (k_que k) (k_priCount k) (k_initproc k) (k_pstat k)
  (k_nextpid k) (k_ticks k) (k_cpus k) (k_kpgdir k) (k_rng k) f.

#[export] Instance kern_locks : LockState (kern F).
Proof.
  refine {| held k := m_held (k_mach k); set_held h k := set_mach (set_m_held h (k_mach k)) k |};
    [done|done|intros [[]]; reflexivity].
Defined.
End Setters.

(** Assignments to one field of a [struct proc]. *)
Definition set_sz v p := Proc v (p_pgdir p) (p_kstack p) (p_state p) (p_pid p) (p_parent p) (p_tf p) (p_context p)
  (p_chan p) (p_killed p) (p_ofile p) (p_cwd p) (p_name p) (p_stime p) (p_ctime p) (p_retime p) (p_rutime p)
  (p_tickets p) (p_priority p).
Definition set_pgdir v p := Proc (p_sz p) v (p_kstack p) (p_state p) (p_pid p) (p_parent p) (p_tf p) (p_context p)
  (p_chan p) (p_killed p) (p_ofile p) (p_cwd p) (p_name p) (p_stime p) (p_ctime p) (p_retime p) (p_rutime p)
  (p_tickets p) (p_priority p).
Definition set_kstack v p := Proc (p_sz p) (p_pgdir p) v (p_state p) (p_pid p) (p_parent p) (p_tf p) (p_context p)
  (p_chan p) (p_killed p) (p_ofile p) (p_cwd p) (p_name p) (p_stime p) (p_ctime p) (p_retime p) (p_rutime p)
  (p_tickets p) (p_priority p).
Definition set_state v p := Proc (p_sz p) (p_pgdir p) (p_kstack p) v (p_pid p) (p_parent p) (p_tf p) (p_context p)
  (p_chan p) (p_killed p) (p_ofile p) (p_cwd p) (p_name p) (p_stime p) (p_ctime p) (p_retime p) (p_rutime p)
  (p_tickets p) (p_priority p).
Definition set_pid v p := Proc (p_sz p) (p_pgdir p) (p_kstack p) (p_state p) v (p_parent p) (p_tf p) (p_context p)
  (p_chan p) (p_killed p) (p_ofile p) (p_cwd p) (p_name p) (p_stime p) (p_ctime p) (p_retime p) (p_rutime p)
  (p_tickets p) (p_priority p).
Definition set_parent v p := Proc (p_sz p) (p_pgdir p) (p_kstack p) (p_state p) (p_pid p) v (p_tf p) (p_context p)
  (p_chan p) (p_killed p) (p_ofile p) (p_cwd p) (p_name p) (p_stime p) (p_ctime p) (p_retime p) (p_rutime p)
  (p_tickets p) (p_priority p).
Definition set_tf v p := Proc (p_sz p) (p_pgdir p) (p_kstack p) (p_state p) (p_pid p) (p_parent p) v (p_context p)
  (p_chan p) (p_killed p) (p_ofile p) (p_cwd p) (p_name p) (p_stime p) (p_ctime p) (p_retime p) (p_rutime p)
  (p_tickets p) (p_priority p).
Definition set_context v p := Proc (p_sz p) (p_pgdir p) (p_kstack p) (p_state p) (p_pid p) (p_parent p) (p_tf p) v
  (p_chan p) (p_killed p) (p_ofile p) (p_cwd p) (p_name p) (p_stime p) (p_ctime p) (p_retime p) (p_rutime p)
  (p_tickets p) (p_priority p).
Definition set_chan v p := Proc (p_sz p) (p_pgdir p) (p_kstack p) (p_state p) (p_pid p) (p_parent p) (p_tf p)
  (p_context p) v (p_killed p) (p_ofile p) (p_cwd p) (p_name p) (p_stime p) (p_ctime p) (p_retime p) (p_rutime p)
  (p_tickets p) (p_priority p).
Definition set_killed v p := Proc (p_sz p) (p_pgdir p) (p_kstack p) (p_state p) (p_pid p) (p_parent p) (p_tf p)
  (p_context p) (p_chan p) v (p_ofile p) (p_cwd p) (p_name p) (p_stime p) (p_ctime p) (p_retime p) (p_rutime p)
  (p_tickets p) (p_priority p).
Definition set_ofile v p := Proc (p_sz p) (p_pgdir p) (p_kstack p) (p_state p) (p_pid p) (p_parent p) (p_tf p)
  (p_context p) (p_chan p) (p_killed p) v (p_cwd p) (p_name p) (p_stime p) (p_ctime p) (p_retime p) (p_rutime p)
  (p_tickets p) (p_priority p).
Definition set_cwd v p := Proc (p_sz p) (p_pgdir p) (p_kstack p) (p_state p) (p_pid p) (p_parent p) (p_tf p)
  (p_context p) (p_chan p) (p_killed p) (p_ofile p) v (p_name p) (p_stime p) (p_ctime p) (p_retime p) (p_rutime p)
  (p_tickets p) (p_priority p).
Definition set_name v p := Proc (p_sz p) (p_pgdir p) (p_kstack p) (p_state p) (p_pid p) (p_parent p) (p_tf p)
  (p_context p) (p_chan p) (p_killed p) (p_ofile p) (p_cwd p) v (p_stime p) (p_ctime p) (p_retime p) (p_rutime p)
  (p_tickets p) (p_priority p).
Definition set_times st ct re ru p := Proc (p_sz p) (p_pgdir p) (p_kstack p) (p_state p) (p_pid p) (p_parent p)
  (p_tf p) (p_context p) (p_chan p) (p_killed p) (p_ofile p) (p_cwd p) (p_name p) st ct re ru (p_tickets p)
  (p_priority p).
Definition set_tickets v p := Proc (p_sz p) (p_pgdir p) (p_kstack p) (p_state p) (p_pid p) (p_parent p) (p_tf p)
  (p_context p) (p_chan p) (p_killed p) (p_ofile p) (p_cwd p) (p_name p) (p_stime p) (p_ctime p) (p_retime p)
  (p_rutime p) v (p_priority p).
Definition set_priority v p := Proc (p_sz p) (p_pgdir p) (p_kstack p) (p_state p) (p_pid p) (p_parent p) (p_tf p)
  (p_context p) (p_chan p) (p_killed p) (p_ofile p) (p_cwd p) (p_name p) (p_stime p) (p_ctime p) (p_retime p)
  (p_rutime p) (p_tickets p) v.

(** ** What the file layer provides *)

(** The operations of file.c, fs.c and log.c that process management calls, on the
    state [F] of the file layer.  [take_wakeups] hands over the channels the file
    layer has called [wakeup] on. *)
Class FileLayer (F : Type) := {
  filedup : nat -> M F nat;
  fileclose : nat -> M F unit;
  idup : nat -> M F nat;
  iput : nat -> M F unit;
  begin_op : M F unit;
  end_op : M F unit;
  namei_root : M F (option nat);
  take_wakeups : F -> list chan * F
}.

(** Copying a [char[16]] with [safestrcpy]. *)
Definition copy_name (dst src : list Z) : list Z :=
  let w := safestrcpy (arr src) 16 in w ++ drop (length w) dst.

(** [gdt[SEG_TSS].s = 0]. *)
Definition set_s (v : Z) (d : segdesc) : segdesc :=
  Segdesc (lim_15_0 d) (base_15_0 d) (base_23_16 d) (sd_type d) v (sd_dpl d) (sd_p d) (lim_19_16 d) (sd_avl d)
    (sd_rsv1 d) (sd_db d) (sd_g d) (base_31_24 d).

Section Proc.
Context {F : Type} `{FileLayer F}.
Context (cfg : sched_config).

(** Addresses the linker assigns: the end of the kernel image, its data, the code of
    [trapret] and [forkret], and the task state of each processor. *)
Context (kend kdata trapret forkret : Z) (ts_addr : nat -> Z).

(** The processor that runs the code. *)
Context (c : nat).

Abbreviation K A := (M (kern F) A).

Definition mach {A} (m : M machine A) : K A := zoom k_mach set_mach m.

Definition get_proc (i : nat) : K proc := fun k =>
  match k_procs k !! i with Some p => Ret p k | None => UB "ptable.proc" end.
Definition upd_proc (i : nat) (f : proc -> proc) : K unit := fun k =>
  match k_procs k !! i with
  | Some p => Ret tt (set_procs (<[i := f p]> (k_procs k)) k)
  | None => UB "ptable.proc"
  end.

(** [myproc()], and using its result as a process. *)
Definition myproc : K (option nat) := gets (fun k => cp_proc (k_cpus k c)).
Definition curproc : K nat :=
  p <- myproc ;; match p with Some i => ret i | None => ub "null pointer" end.
Definition upd_percpu (f : percpu -> percpu) : K unit :=
  modify (fun k => set_cpus (<[c := f (k_cpus k c)]> (k_cpus k)) k).
Definition set_cp_proc (p : option nat) (v : percpu) : percpu :=
  Percpu p (cp_gdt v) (cp_ss0 v) (cp_esp0 v) (cp_iomb v) (cp_tr v).

(** The first process from index [i] on that satisfies [f]; [n] slots are left. *)
Fixpoint scan (f : proc -> bool) (n i : nat) : K (option nat) :=
  match n with
  | O => ret None
  | S n => p <- get_proc i ;; if f p then ret (Some i) else scan f n (S i)
  end.
Definition scan_all (f : proc -> bool) : K (option nat) := scan f NPROC 0.

(** Run [f] on every slot, in order. *)
Fixpoint for_procs (f : nat -> K unit) (n i : nat) : K unit :=
  match n with
  | O => ret tt
  | S n => f i ;;; for_procs f n (S i)
  end.
Definition for_all_procs (f : nat -> K unit) : K unit := for_procs f NPROC 0.

(** ** Waking and sleeping *)

Definition wakeup1 (ch : chan) : K unit :=
  for_all_procs (fun i =>
    p <- get_proc i ;;
    when bool_decide (p_state p = SLEEPING) && bool_decide (p_chan p = Some ch) do
      upd_proc i (set_state RUNNABLE)).

Definition wakeup (ch : chan) : K unit := acquire LkPtable ;;; wakeup1 ch ;;; release LkPtable.

(** An operation of the file layer, followed by the wakeups it asked for. *)
Fixpoint wakeups (chs : list chan) : K unit :=
  match chs with
  | [] => ret tt
  | ch :: chs => wakeup ch ;;; wakeups chs
  end.
Definition files {A} (m : M F A) : K A :=
  r <- zoom k_fs set_fs m ;;
  w <- gets (fun k => take_wakeups (k_fs k)) ;;
  modify (set_fs (snd w)) ;;;
  wakeups (fst w) ;;;
  ret r.

(** [sched], up to [swtch]: the checks.  [ncli] is the number of locks held
    ([Spinlock]), and interrupts are off while it is positive. *)
Definition sched : K unit :=
  pi <- curproc ;;
  h <- holding LkPtable ;;
  if negb h then panic "sched ptable.lock" else
  n <- gets (fun k => length (held k)) ;;
  if negb (n =? 1)%nat then panic "sched locks" else
  p <- get_proc pi ;;
  if bool_decide (p_state p = RUNNING) then panic "sched running" else ret tt.

(** [yield] up to the switch, and after it. *)
Definition yield_before : K unit :=
  acquire LkPtable ;;;
  pi <- curproc ;;
  upd_proc pi (set_state RUNNABLE) ;;;
  sched.
Definition yield_after : K unit := release LkPtable.

(** [sleep(chan, lk)] up to the switch, and after it. *)
Definition sleep_before (ch : chan) (lk : lockid) : K unit :=
  mp <- myproc ;;
  match mp with
  | None => panic "sleep"
  | Some pi =>
    (when negb (bool_decide (lk = LkPtable)) do (acquire LkPtable ;;; release lk)) ;;;
    upd_proc pi (set_chan (Some ch)) ;;;
    upd_proc pi (set_state SLEEPING) ;;;
    sched
  end.
Definition sleep_after (lk : lockid) : K unit :=
  pi <- curproc ;;
  upd_proc pi (set_chan None) ;;;
  when negb (bool_decide (lk = LkPtable)) do (release LkPtable ;;; acquire lk).

(** ** Creating processes *)

(** [pstat_var.inuse[pid] = 1] and the assignments that follow it; all are indexed
    by the pid, although the arrays have one entry per slot. *)
Definition record_pstat (pid priority : Z) : K unit := fun k =>
  if (0 <=? pid) && (pid <? Z.of_nat NPROC) then
    let i := Z.to_nat pid in let ps := k_pstat k in
    Ret tt (set_pstat (Pstat (<[i := 1]> (ps_inuse ps)) (<[i := pid]> (ps_pid ps))
      (<[i := priority]> (ps_priority ps)) (ps_state ps) (<[i := [0; 0; 0; 0]]> (ps_ticks ps))) k)
  else UB "pstat_var".

(** [sizeof(struct trapframe)] and [sizeof(struct context)], and the offsets used. *)
Definition TF_SIZE : Z := 76.
Definition CONTEXT_SIZE : Z := 20.
Definition tf_eax : Z := 28.
Definition tf_es : Z := 40.
Definition tf_ds : Z := 44.
Definition tf_eip : Z := 56.
Definition tf_cs : Z := 60.
Definition tf_eflags : Z := 64.
Definition tf_esp : Z := 68.
Definition tf_ss : Z := 72.
Definition ctx_eip : Z := 16.

Definition st16 (m : mem) (a v : Z) : mem := stb (stb m a v) (a + 1) (Z.shiftr v 8).

(** [allocproc] in its parts, which other processors can come between.  The first holds
    [ptable.lock]: it takes a free slot. *)
Definition alloc_slot : K nat :=
  acquire LkPtable ;;;
  found <- scan_all (fun p => bool_decide (p_state p = UNUSED)) ;;
  match found with
  | None => ub "ptable.proc[NPROC]" (* the code reads p->pid one past the table *)
  | Some i =>
    upd_proc i (set_state EMBRYO) ;;;
    pid <- gets k_nextpid ;;
    upd_proc i (set_pid pid) ;;;
    modify (set_nextpid (s32 (pid + 1))) ;;;
    p <- get_proc i ;;
    record_pstat (p_pid p) (p_priority p) ;;;
    t <- gets k_ticks ;;
    upd_proc i (fun p => set_times 0 t 0 0 (set_priority 0 p)) ;;;
    release LkPtable ;;;
    ret i
  end.

(** Without the lock: the kernel stack of slot [i], and on it a context that starts in
    [forkret] and returns to [trapret]. *)
Definition new_kstack (i : nat) : K Z :=
  ks <- mach kalloc ;;
  upd_proc i (set_kstack ks) ;;;
  ret ks.
Definition stack_frame (i : nat) : K unit :=
  p <- get_proc i ;;
  let sp := p_kstack p + KSTACKSIZE - TF_SIZE in
  upd_proc i (set_tf sp) ;;;
  let sp := sp - 4 in
  mach (mod_mem (fun m => st32 m sp trapret)) ;;;
  let sp := sp - CONTEXT_SIZE in
  upd_proc i (set_context sp) ;;;
  mach (mod_mem (fun m => memset m sp 0 CONTEXT_SIZE)) ;;;
  mach (mod_mem (fun m => st32 m (sp + ctx_eip) forkret)).
Definition free_slot (i : nat) : K unit := upd_proc i (set_state UNUSED).

Definition allocproc : K (option nat) :=
  i <- alloc_slot ;;
  ks <- new_kstack i ;;
  if ks =? 0 then free_slot i ;;; ret None else
  stack_frame i ;;;
  ret (Some i).

(** [switchuvm(&ptable.proc[i])].  [pushcli] and [popcli] around it are matched.  The
    stack comes from [myproc()], not from the argument. *)
Definition switchuvm (i : nat) : K unit :=
  p <- get_proc i ;;
  if p_kstack p =? 0 then panic "switchuvm: no kstack" else
  if p_pgdir p =? 0 then panic "switchuvm: no pgdir" else
  let tss := SEG16 STS_T32A (ts_addr c) (104 - 1) 0 in
  upd_percpu (fun v => Percpu (cp_proc v) (<[SEG_TSS := set_s 0 tss]> (cp_gdt v)) (Z.shiftl SEG_KDATA 3)
    (cp_esp0 v) (cp_iomb v) (cp_tr v)) ;;;
  pi <- curproc ;;
  cur <- get_proc pi ;;
  upd_percpu (fun v => Percpu (cp_proc v) (cp_gdt v) (cp_ss0 v) (u32 (p_kstack cur + KSTACKSIZE)) 0xFFFF
    (Z.shiftl SEG_TSS 3)) ;;;
  mach (lcr3 (V2P (p_pgdir p))).

Definition initcode_name : list Z := [105; 110; 105; 116; 99; 111; 100; 101; 0].

(** The first process; [init] and [size] are the symbols of the linked [initcode]. *)
Definition userinit (init size : Z) : K unit :=
  mp <- allocproc ;;
  modify (set_initproc mp) ;;;
  match mp with
  | None => ub "userinit: null process"
  | Some i =>
    pgdir <- mach (setupkvm kend kdata) ;;
    upd_proc i (set_pgdir pgdir) ;;;
    if pgdir =? 0 then panic "userinit: out of memory?" else
    mach (inituvm pgdir init size) ;;;
    upd_proc i (set_sz PGSIZE) ;;;
    p <- get_proc i ;;
    let tf := p_tf p in
    mach (mod_mem (fun m => memset m tf 0 TF_SIZE)) ;;;
    mach (mod_mem (fun m => st16 m (tf + tf_cs) (Z.lor (Z.shiftl SEG_UCODE 3) DPL_USER))) ;;;
    let ds := Z.lor (Z.shiftl SEG_UDATA 3) DPL_USER in
    mach (mod_mem (fun m => st16 m (tf + tf_ds) ds)) ;;;
    mach (mod_mem (fun m => st16 m (tf + tf_es) ds)) ;;;
    mach (mod_mem (fun m => st16 m (tf + tf_ss) ds)) ;;;
    mach (mod_mem (fun m => st32 m (tf + tf_eflags) FL_IF)) ;;;
    mach (mod_mem (fun m => st32 m (tf + tf_esp) PGSIZE)) ;;;
    mach (mod_mem (fun m => st32 m (tf + tf_eip) 0)) ;;;
    upd_proc i (set_tickets DEFAULT_TICKETS) ;;;
    upd_proc i (fun p => set_name (copy_name (p_name p) initcode_name) p) ;;;
    root <- files namei_root ;;
    upd_proc i (set_cwd root) ;;;
    acquire LkPtable ;;;
    upd_proc i (set_state RUNNABLE) ;;;
    release LkPtable
  end.

Definition growproc (n : Z) : K Z :=
  pi <- curproc ;;
  p <- get_proc pi ;;
  let sz := p_sz p in
  sz' <- (if 0 <? n then mach (allocuvm kend (p_pgdir p) sz (u32 (sz + n)))
          else if n <? 0 then mach (deallocuvm kend (p_pgdir p) sz (u32 (sz + n)))
          else ret sz) ;;
  if negb (n =? 0) && (sz' =? 0) then ret (-1) else
  upd_proc pi (set_sz sz') ;;;
  switchuvm pi ;;;
  ret 0.

(** [fork] in its parts, for the process [cur] and the slot [np] of the child: copying the
    address space, and giving the stack back when that failed. *)
Definition fork_copy (copy : Z -> Z -> M machine Z) (cur np : nat) : K bool :=
  cp <- get_proc cur ;;
  pgdir <- mach (copy (p_pgdir cp) (p_sz cp)) ;;
  upd_proc np (set_pgdir pgdir) ;;;
  ret (negb (pgdir =? 0)).
Definition fork_undo (np : nat) : K unit :=
  n <- get_proc np ;;
  mach (kfree kend (p_kstack n)) ;;;
  upd_proc np (set_kstack 0).

Definition fork_fill (cur np : nat) : K unit :=
  cp <- get_proc cur ;;
  upd_proc np (set_sz (p_sz cp)) ;;;
  upd_proc np (set_parent (Some cur)) ;;;
  n <- get_proc np ;;
  mach (mod_mem (fun m => memmove m (p_tf n) (p_tf cp) TF_SIZE)) ;;;
  upd_proc np (set_tickets DEFAULT_TICKETS) ;;;
  mach (mod_mem (fun m => st32 m (p_tf n + tf_eax) 0)).

(** File [j] of the parent. *)
Definition dup_file (cur np j : nat) : K unit :=
  cp <- get_proc cur ;;
  match p_ofile cp !! j with
  | Some (Some f) => f' <- files (filedup f) ;; upd_proc np (fun p => set_ofile (<[j := Some f']> (p_ofile p)) p)
  | Some None => ret tt
  | None => ub "ofile"
  end.
(** From file [j] on; [n] are left. *)
Fixpoint dup_files (cur np n j : nat) : K unit :=
  match n with
  | O => ret tt
  | S n => dup_file cur np j ;;; dup_files cur np n (S j)
  end.

Definition fork_cwd (cur np : nat) : K unit :=
  cp <- get_proc cur ;;
  match p_cwd cp with
  | Some d => d' <- files (idup d) ;; upd_proc np (set_cwd (Some d'))
  | None => ub "idup: null inode"
  end.
Definition fork_name (cur np : nat) : K unit :=
  cp <- get_proc cur ;;
  upd_proc np (fun p => set_name (copy_name (p_name p) (p_name cp)) p).
Definition publish (np : nat) : K Z :=
  n <- get_proc np ;;
  acquire LkPtable ;;;
  upd_proc np (set_state RUNNABLE) ;;;
  release LkPtable ;;;
  ret (p_pid n).

(** The code of [fork] and of [fork_original], which differ in the function that
    copies the address space. *)
Definition fork_with (copy : Z -> Z -> M machine Z) : K Z :=
  cur <- curproc ;;
  mnp <- allocproc ;;
  match mnp with
  | None => ret (-1)
  | Some np =>
    ok <- fork_copy copy cur np ;;
    if negb ok then
      fork_undo np ;;;
      free_slot np ;;;
      ret (-1)
    else
    fork_fill cur np ;;;
    dup_files cur np NOFILE 0 ;;;
    fork_cwd cur np ;;;
    fork_name cur np ;;;
    publish np
  end.
Definition fork : K Z := fork_with (copyuvm kend kdata).
Definition fork_original : K Z := fork_with (copyuvm_original kend kdata).

(** ** Exiting and waiting *)

Definition close_file (cur j : nat) : K unit :=
  cp <- get_proc cur ;;
  match p_ofile cp !! j with
  | Some (Some f) => files (fileclose f) ;;; upd_proc cur (fun p => set_ofile (<[j := None]> (p_ofile p)) p)
  | Some None => ret tt
  | None => ub "ofile"
  end.
Fixpoint close_files (cur n j : nat) : K unit :=
  match n with
  | O => ret tt
  | S n => close_file cur j ;;; close_files cur n (S j)
  end.

Definition exit_cwd (cur : nat) : K unit :=
  cp <- get_proc cur ;;
  match p_cwd cp with Some d => files (iput d) | None => ub "iput: null inode" end.

(** The part of [exit] that gives up the files and the directory of process [cur]. *)
Definition exit_files (cur : nat) : K unit :=
  close_files cur NOFILE 0 ;;;
  files begin_op ;;;
  exit_cwd cur ;;;
  files end_op ;;;
  upd_proc cur (set_cwd None).

(** Hand the children of [cur] to [init], waking it if one is a zombie. *)
Definition abandon_children (cur : nat) (init : option nat) : K unit :=
  for_all_procs (fun i =>
    p <- get_proc i ;;
    when bool_decide (p_parent p = Some cur) do
      (upd_proc i (set_parent init) ;;;
       when bool_decide (p_state p = ZOMBIE) do
         match init with Some q => wakeup1 (ChProc q) | None => ret tt end)).

(** The last part of [exit], up to the switch it never comes back from. *)
Definition exit_last (cur : nat) : K unit :=
  acquire LkPtable ;;;
  cp <- get_proc cur ;;
  (match p_parent cp with Some q => wakeup1 (ChProc q) | None => ret tt end) ;;;
  init <- gets k_initproc ;;
  abandon_children cur init ;;;
  upd_proc cur (set_state ZOMBIE) ;;;
  sched.

Definition exit : K unit :=
  cur <- curproc ;;
  init <- gets k_initproc ;;
  if bool_decide (Some cur = init) then panic "init exiting" else
  exit_files cur ;;;
  exit_last cur.

(** ** [fork] and [exit] step by step *)

(** Where a process is in [fork], once it has a slot: the points at which other processors
    can come in between. *)
Inductive fork_pc :=
| FkStack          (* p->kstack = kalloc() *)
| FkFree           (* p->state = UNUSED; return -1 *)
| FkFrame          (* the stack of the child *)
| FkCopy           (* np->pgdir = copyuvm(...) *)
| FkUndo           (* kfree(np->kstack); np->kstack = 0 *)
| FkFill           (* sz, parent, trap frame, tickets *)
| FkFile (j : nat) (* np->ofile[j] = filedup(...) *)
| FkCwd
| FkName
| FkPublish.       (* under ptable.lock: np->state = RUNNABLE *)

Definition fork_at (copy : Z -> Z -> M machine Z) (pc : fork_pc) (cur np : nat) : K (fork_pc + Z) :=
  match pc with
  | FkStack => ks <- new_kstack np ;; ret (inl (if ks =? 0 then FkFree else FkFrame))
  | FkFree => free_slot np ;;; ret (inr (-1))
  | FkFrame => stack_frame np ;;; ret (inl FkCopy)
  | FkCopy => ok <- fork_copy copy cur np ;; ret (inl (if ok : bool then FkFill else FkUndo))
  | FkUndo => fork_undo np ;;; ret (inl FkFree)
  | FkFill => fork_fill cur np ;;; ret (inl (FkFile 0))
  | FkFile j => dup_file cur np j ;;; ret (inl (if (S j <? NOFILE)%nat then FkFile (S j) else FkCwd))
  | FkCwd => fork_cwd cur np ;;; ret (inl FkName)
  | FkName => fork_name cur np ;;; ret (inl FkPublish)
  | FkPublish => pid <- publish np ;; ret (inr pid)
  end.

Inductive exit_pc := XFile (j : nat) | XBegin | XCwd | XEnd | XClear | XLast.

(** The parts of [exit] before [exit_last]. *)
Definition exit_at (pc : exit_pc) (cur : nat) : K exit_pc :=
  match pc with
  | XFile j => close_file cur j ;;; ret (if (S j <? NOFILE)%nat then XFile (S j) else XBegin)
  | XBegin => files begin_op ;;; ret XCwd
  | XCwd => exit_cwd cur ;;; ret XEnd
  | XEnd => files end_op ;;; ret XClear
  | XClear => upd_proc cur (set_cwd None) ;;; ret XLast
  | XLast => ub "exit_last"
  end.

(** Whether the part takes [ptable.lock]: [publish] does, and an operation of the file layer
    when it wakes somebody. *)
Definition wakes {A} (m : M F A) (k : kern F) : bool :=
  match m (k_fs k) with Ret _ f => negb (bool_decide (fst (take_wakeups f) = [])) | _ => false end.
Definition fork_locks (pc : fork_pc) (cur : nat) (k : kern F) : bool :=
  match pc, k_procs k !! cur with
  | FkFile j, Some cp => match p_ofile cp !! j with Some (Some f) => wakes (filedup f) k | _ => false end
  | FkCwd, Some cp => match p_cwd cp with Some d => wakes (idup d) k | None => false end
  | FkPublish, _ => true
  | _, _ => false
  end.
Definition exit_locks (pc : exit_pc) (cur : nat) (k : kern F) : bool :=
  match pc, k_procs k !! cur with
  | XFile j, Some cp => match p_ofile cp !! j with Some (Some f) => wakes (fileclose f) k | _ => false end
  | XBegin, _ => wakes begin_op k
  | XCwd, Some cp => match p_cwd cp with Some d => wakes (iput d) k | None => false end
  | XEnd, _ => wakes end_op k
  | XLast, _ => true
  | _, _ => false
  end.

(** Free the zombie in slot [i]; the value is its pid. *)
Definition reap (i : nat) : K Z :=
  p <- get_proc i ;;
  mach (kfree kend (p_kstack p)) ;;;
  upd_proc i (set_kstack 0) ;;;
  mach (freevm kend (p_pgdir p)) ;;;
  upd_proc i (set_pid 0) ;;;
  upd_proc i (set_parent None) ;;;
  upd_proc i (fun p => set_name (<[0%nat := 0]> (p_name p)) p) ;;;
  upd_proc i (set_killed 0) ;;;
  upd_proc i (set_state UNUSED) ;;;
  ret (p_pid p).

(** One pass over the table, with [ptable.lock] held: [havekids] and the first
    zombie child.  [n] slots are left from [i] on. *)
Fixpoint wait_scan (cur : nat) (havekids : bool) (n i : nat) : K (bool * option nat) :=
  match n with
  | O => ret (havekids, None)
  | S n =>
    p <- get_proc i ;;
    if negb (bool_decide (p_parent p = Some cur)) then wait_scan cur havekids n (S i)
    else if bool_decide (p_state p = ZOMBIE) then ret (true, Some i)
    else wait_scan cur true n (S i)
  end.

(** One iteration of the loop of [wait] or [testwait], with [ptable.lock] held: the
    result of the call ([none] if there is nothing to wait for), or [None] if the process has to sleep on itself ([sleep_before] is done). *)
Definition wait_iter {A} (reap : nat -> K A) (none : A) : K (option A) :=
  cur <- curproc ;;
  hk <- wait_scan cur false NPROC 0 ;;
  match snd hk with
  | Some i =>
    r <- reap i ;;
    release LkPtable ;;;
    ret (Some r)
  | None =>
    cp <- get_proc cur ;;
    if negb (fst hk) || negb (p_killed cp =? 0) then
      release LkPtable ;;; ret (Some none)
    else
      sleep_before (ChProc cur) LkPtable ;;; ret None
  end.

(** [wait] from the call to its return or its first sleep; a process that has slept
    goes on with [sleep_after LkPtable ;;; wait_iter reap (-1)]. *)
Definition wait : K (option Z) := acquire LkPtable ;;; wait_iter reap (-1).

(** The clean-up of [testwait], which also reports the three times of the child. *)
Definition test_reap (i : nat) : K (Z * (Z * Z * Z)) :=
  p <- get_proc i ;;
  mach (kfree kend (p_kstack p)) ;;;
  upd_proc i (set_kstack 0) ;;;
  mach (freevm kend (p_pgdir p)) ;;;
  upd_proc i (set_state UNUSED) ;;;
  upd_proc i (set_pid 0) ;;;
  upd_proc i (set_parent None) ;;;
  upd_proc i (fun p => set_name (<[0%nat := 0]> (p_name p)) p) ;;;
  upd_proc i (set_killed 0) ;;;
  upd_proc i (fun p => set_priority 0 (set_times 0 0 0 0 p)) ;;;
  ret (p_pid p, (p_retime p, p_rutime p, p_stime p)).

(** [testwait]; the times are stored through the pointers its caller passes on. *)
Definition testwait : K (option (Z * (Z * Z * Z))) :=
  acquire LkPtable ;;; wait_iter test_reap (-1, (0, 0, 0)).

Definition kill (pid : Z) : K Z :=
  acquire LkPtable ;;;
  found <- scan_all (fun p => p_pid p =? pid) ;;
  match found with
  | Some i =>
    upd_proc i (set_killed 1) ;;;
    p <- get_proc i ;;
    (when bool_decide (p_state p = SLEEPING) do upd_proc i (set_state RUNNABLE)) ;;;
    release LkPtable ;;;
    ret 0
  | None => release LkPtable ;;; ret (-1)
  end.

(** ** The scheduler *)

(** [pinit]; the seed is the address of a variable on the stack. *)
Definition pinit (addr : Z) : K unit :=
  initlock LkPtable ;;;
  modify (set_rng (sgenrand addr)) ;;;
  modify (set_priCount [-1; -1; -1]).

Fixpoint sum_tickets (ps : list proc) : Z :=
  match ps with
  | [] => 0
  | p :: ps => (if bool_decide (p_state p = RUNNABLE) then p_tickets p else 0) + sum_tickets ps
  end.
Definition totalTickets : K Z := gets (fun k => s32 (sum_tickets (k_procs k))).

(** The body of the loop over the table, for slot [i], up to [swtch].  The value says
    whether the process was switched to.  [fuel] bounds the draws of the lottery. *)
Definition scheduler_slot (fuel : nat) (i : nat) : K bool :=
  p <- get_proc i ;;
  if negb (bool_decide (p_state p = RUNNABLE)) then ret false else
  draw <- (match cfg with
           | DEFAULT => ret (-1)
           | LOTTERY => totalT <- totalTickets ;; zoom k_rng set_rng (random_at_most fuel totalT)
           end) ;;
  if 0 <=? draw then ret false else
  upd_percpu (set_cp_proc (Some i)) ;;;
  switchuvm i ;;;
  upd_proc i (set_state RUNNING) ;;;
  ret true.

(** What the scheduler does when the process has switched back to it. *)
Definition scheduler_back : K unit :=
  kp <- gets k_kpgdir ;;
  mach (switchkvm kp) ;;;
  upd_percpu (set_cp_proc None).

(** The first half of [forkret]; the rest, on the first call, initialises the file
    system. *)
Definition forkret_after : K unit := release LkPtable.

(** ** Statistics *)

Definition updateStats : K unit :=
  acquire LkPtable ;;;
  for_all_procs (fun i =>
    upd_proc i (fun p =>
      match p_state p with
      | SLEEPING => set_times (s32 (p_stime p + 1)) (p_ctime p) (p_retime p) (p_rutime p) p
      | RUNNABLE => set_times (p_stime p) (p_ctime p) (s32 (p_retime p + 1)) (p_rutime p) p
      | RUNNING => set_times (p_stime p) (p_ctime p) (p_retime p) (s32 (p_rutime p + 1)) p
      | _ => p
      end)) ;;;
  release LkPtable.

(** [ptable.que[a][b]] and [ptable.priCount[a]]. *)
Definition get_que (a b : Z) : K (option nat) := fun k =>
  match k_que k !! Z.to_nat a with
  | Some q => match q !! Z.to_nat b with
              | Some v => if (0 <=? a) && (0 <=? b) then Ret v k else UB "ptable.que"
              | None => UB "ptable.que"
              end
  | None => UB "ptable.que"
  end.
Definition set_que_at (a b : Z) (v : option nat) : K unit :=
  get_que a b ;;; modify (fun k => set_que (alter (insert (Z.to_nat b) v) (Z.to_nat a) (k_que k)) k).
Definition get_count (a : Z) : K Z := fun k =>
  match k_priCount k !! Z.to_nat a with
  | Some v => if 0 <=? a then Ret v k else UB "ptable.priCount"
  | None => UB "ptable.priCount"
  end.
Definition set_count_at (a v : Z) : K unit :=
  get_count a ;;; modify (fun k => set_priCount (<[Z.to_nat a := v]> (k_priCount k)) k).

(** [for (i = token; i < priCount; i++) que[pri][i] = que[pri][i + 1]]; [n] iterations. *)
Fixpoint shift_que (pri : Z) (n : nat) (i : Z) : K unit :=
  match n with
  | O => ret tt
  | S n => v <- get_que pri (i + 1) ;; set_que_at pri i v ;;; shift_que pri n (i + 1)
  end.

(** The body of the loop of [resetPriority].  The [break] ends the search after its first
    comparison, with [token = 0]. *)
Definition reset_slot (i : nat) : K unit :=
  p <- get_proc i ;;
  if bool_decide (p_state p = RUNNABLE) then
    let pri := p_priority p in
    q <- get_que pri 0 ;;
    (when bool_decide (q = Some i) do
      (n <- get_count pri ;;
       shift_que pri (Z.to_nat n) 0 ;;;
       set_count_at pri (n - 1))) ;;;
    upd_proc i (set_priority 0) ;;;
    n <- get_count 0 ;;
    set_count_at 0 (n + 1) ;;;
    set_que_at 0 (n + 1) (Some i)
  else upd_proc i (set_priority 0).

Definition resetPriority : K unit :=
  acquire LkPtable ;;;
  for_all_procs reset_slot ;;;
  release LkPtable.

(** [getpinfo], which takes no lock; [ps] is the structure of the caller. *)
Definition getpinfo (ps : pstat) : K pstat :=
  procs <- gets k_procs ;;
  ret (Pstat ((fun p => if bool_decide (p_state p <> UNUSED) then 1 else 0) <$> procs)
    (p_pid <$> procs) (p_priority <$> procs) (p_state <$> procs) (ps_ticks ps)).

End Proc.
