(* ===== verification/ProcSpec.v ===== *)
(** * What the operations on the process table change

    Two small compositional logics: which operations of the memory system leave the
    list of held locks alone, and what an operation of proc.c that returns has done
    to the process table.  [Sched] builds the invariants of the system on them. *)

From stdpp Require Import functions.
From S2P Require Import Prelude Mmu Mem Cstring Kalloc Vm Rand Proc.
#[local] Open Scope Z_scope.

(** ** Lock discipline of the memory system *)

(** Started without the allocator's lock, [m] returns with the locks it started with. *)
Definition keeps_held {A} (m : M machine A) : Prop :=
  forall s a s', LkKmem ∉ m_held s -> m s = Ret a s' -> m_held s' = m_held s.

Create HintDb held.

Lemma kh_ret {A} (a : A) : keeps_held (ret a).
Proof. intros s b s' _ [= _ <-]. done. Qed.

Lemma kh_gets {A} (f : machine -> A) : keeps_held (gets f).
Proof. intros s b s' _ [= _ <-]. done. Qed.

Lemma kh_panic {A} e : keeps_held (A:=A) (panic e).
Proof. by intros s a s' _. Qed.

Lemma kh_ub {A} e : keeps_held (A:=A) (ub e).
Proof. by intros s a s' _. Qed.

Lemma kh_bind {A B} (m : M machine A) (f : A -> M machine B) :
  keeps_held m -> (forall a, keeps_held (f a)) -> keeps_held (bind m f).
Proof.
  intros Hm Hf s b s' Hn H. inv_bind H. pose proof (Hm _ _ _ Hn Hrun) as H1.
  rewrite <- H1. apply (Hf r s0 b s'); [by rewrite H1|done].
Qed.

Lemma kh_if {A} (b : bool) (m n : M machine A) : keeps_held m -> keeps_held n -> keeps_held (if b then m else n).
Proof. by destruct b. Qed.

Lemma kh_modify f : (forall s, m_held (f s) = m_held s) -> keeps_held (modify f).
Proof. intros Hf s a s' _ [= _ <-]. apply Hf. Qed.

#[export] Hint Resolve kh_ret kh_gets kh_panic kh_ub : held.
#[export] Hint Extern 1 (keeps_held (modify _)) => (apply kh_modify; reflexivity) : held.
#[export] Hint Extern 1 (keeps_held (mod_mem _)) => (apply kh_modify; reflexivity) : held.
#[export] Hint Extern 1 (keeps_held (mod_kmem _)) => (apply kh_modify; reflexivity) : held.
#[export] Hint Extern 1 (keeps_held (load _)) => apply kh_gets : held.
#[export] Hint Extern 1 (keeps_held (store _ _)) => (apply kh_modify; reflexivity) : held.
#[export] Hint Extern 1 (keeps_held (lcr3 _)) => (apply kh_modify; reflexivity) : held.

Ltac held :=
  repeat (cbv zeta;
    match goal with
    | |- keeps_held (bind _ _) => apply kh_bind; [|intros]
    | |- keeps_held (if _ then _ else _) => apply kh_if
    | |- keeps_held _ => solve [auto 2 with held]
    end).

Lemma kh_get_ref i : keeps_held (get_ref i).
Proof. unfold get_ref. held. Qed.
Lemma kh_set_ref i v : keeps_held (set_ref i v).
Proof. unfold set_ref. held. Qed.
#[export] Hint Resolve kh_get_ref kh_set_ref : held.

(** A critical section of the allocator: the lock is taken when locking is on, and
    given back if [use_lock] has not changed. *)
Definition keeps_use_lock {A} (m : M machine A) : Prop :=
  forall s a s', m s = Ret a s' -> use_lock (m_kmem s') = use_lock (m_kmem s) /\ m_held s' = m_held s.

Lemma ku_bind {A B} (m : M machine A) (f : A -> M machine B) :
  keeps_use_lock m -> (forall a, keeps_use_lock (f a)) -> keeps_use_lock (bind m f).
Proof.
  intros Hm Hf s b s' H. inv_bind H. apply Hm in Hrun as [-> <-] || (apply Hm in Hrun as [E1 E2]).
  destruct (Hf _ _ _ _ H) as [E3 E4]. split; congruence.
Qed.

Lemma ku_ret {A} (a : A) : keeps_use_lock (ret a).
Proof. by intros s b s' [= _ <-]. Qed.

Lemma ku_gets {A} (f : machine -> A) : keeps_use_lock (gets f).
Proof. by intros s b s' [= _ <-]. Qed.

Lemma ku_ub {A} e : keeps_use_lock (A:=A) (ub e).
Proof. by intros s a s'. Qed.

Lemma ku_if {A} (b : bool) (m n : M machine A) :
  keeps_use_lock m -> keeps_use_lock n -> keeps_use_lock (if b then m else n).
Proof. by destruct b. Qed.

Lemma ku_modify f :
  (forall s, use_lock (m_kmem (f s)) = use_lock (m_kmem s) /\ m_held (f s) = m_held s) ->
  keeps_use_lock (modify f).
Proof. intros Hf s a s' [= _ <-]. apply Hf. Qed.

#[export] Hint Resolve ku_ret ku_gets ku_ub : held.
#[export] Hint Extern 1 (keeps_use_lock (mod_mem _)) => (apply ku_modify; done) : held.
#[export] Hint Extern 1 (keeps_use_lock (mod_kmem _)) => (apply ku_modify; done) : held.
#[export] Hint Extern 1 (keeps_use_lock (get_ref _)) => (unfold get_ref; apply ku_if; auto with held) : held.
#[export] Hint Extern 1 (keeps_use_lock (set_ref _ _)) => (unfold set_ref; apply ku_if; auto with held) : held.
Ltac use_locks := repeat first [apply ku_bind; [|intros]|apply ku_if]; eauto with held.

Lemma held_acquire (s : machine) : LkKmem ∉ m_held s -> acquire LkKmem s = Ret tt (set_m_held (LkKmem :: m_held s) s).
Proof. intros Hn. exact (acquire_free LkKmem s Hn). Qed.

Lemma held_release (s : machine) h :
  m_held s = LkKmem :: h -> LkKmem ∉ h -> release LkKmem s = Ret tt (set_m_held h s).
Proof. intros Hh Hn. exact (release_top LkKmem h s Hh Hn). Qed.

(** Code inside the critical section that ends by leaving it. *)
Definition ends_section {A} (m : M machine A) : Prop :=
  forall s a s' h, m_held s = lk (use_lock (m_kmem s)) h -> LkKmem ∉ h -> m s = Ret a s' -> m_held s' = h.
Definition ends_locked {A} (m : M machine A) : Prop :=
  forall s a s' h, m_held s = LkKmem :: h -> LkKmem ∉ h -> m s = Ret a s' -> m_held s' = h.

Lemma es_bind {A B} (m : M machine A) (f : A -> M machine B) :
  keeps_use_lock m -> (forall a, ends_section (f a)) -> ends_section (bind m f).
Proof.
  intros Hm Hf s b s' h Hs Hn H. inv_bind H. apply Hm in Hrun as [Eu Eh].
  apply (Hf r s0 b s' h); [congruence|done|done].
Qed.

Lemma el_bind {A B} (m : M machine A) (f : A -> M machine B) :
  keeps_use_lock m -> (forall a, ends_locked (f a)) -> ends_locked (bind m f).
Proof.
  intros Hm Hf s b s' h Hs Hn H. inv_bind H. apply Hm in Hrun as [Eu Eh].
  apply (Hf r s0 b s' h); [congruence|done|done].
Qed.

Lemma es_release : ends_section kmem_release.
Proof.
  intros s a s' h Hs Hn. unfold kmem_release. rewrite bind_gets. unfold lk in Hs.
  destruct (use_lock (m_kmem s) =? 0); cbn [negb]; [by intros [= _ <-]|].
  rewrite (held_release _ h) by done. by intros [= _ <-].
Qed.

Lemma el_release : ends_locked (release LkKmem).
Proof. intros s a s' h Hs Hn. rewrite (held_release _ h) by done. by intros [= _ <-]. Qed.

Lemma es_release_ret {A} (a : A) : ends_section (kmem_release ;;; ret a).
Proof. intros s b s' h Hs Hn H. inv_bind H. inv_ret. by eapply es_release. Qed.

Lemma el_release_ret {A} (a : A) : ends_locked (release LkKmem ;;; ret a).
Proof. intros s b s' h Hs Hn H. inv_bind H. inv_ret. by eapply el_release. Qed.

Lemma kh_section {A} (m : M machine A) : ends_section m -> keeps_held (kmem_acquire ;;; m).
Proof.
  intros Hm s b s' Hn H. inv_bind H. unfold kmem_acquire in Hrun. rewrite bind_gets in Hrun.
  apply (Hm s0 b s' (m_held s)); [|done|done]. unfold lk.
  destruct (use_lock (m_kmem s) =? 0) eqn:Hz; cbn [negb] in Hrun; [inv_ret; by rewrite Hz|].
  rewrite held_acquire in Hrun by done. injection Hrun as ? <-. cbn. by rewrite Hz.
Qed.

Lemma kh_locked {A} (m : M machine A) : ends_locked m -> keeps_held (acquire LkKmem ;;; m).
Proof.
  intros Hm s b s' Hn H. inv_bind H. rewrite held_acquire in Hrun by done. injection Hrun as ? <-.
  by apply (Hm _ b s' (m_held s)) in H.
Qed.

Ltac in_section :=
  repeat first [apply es_release_ret|apply es_release|apply el_release_ret|apply el_release|
                apply es_bind; [use_locks|intros]|apply el_bind; [use_locks|intros]].

Lemma kh_kalloc : keeps_held kalloc.
Proof. apply kh_section. in_section. Qed.
Lemma kh_kfree kend v : keeps_held (kfree kend v).
Proof. unfold kfree. apply kh_if; [apply kh_panic|]. apply kh_section. in_section. Qed.
Lemma kh_decr kend v : keeps_held (decrementReferenceCount kend v).
Proof. unfold decrementReferenceCount. apply kh_if; [apply kh_panic|]. apply kh_locked. in_section. Qed.
Lemma kh_incr kend v : keeps_held (incrementReferenceCount kend v).
Proof. unfold incrementReferenceCount. apply kh_if; [apply kh_panic|]. apply kh_locked. in_section. Qed.
#[export] Hint Resolve kh_kalloc kh_kfree kh_decr kh_incr : held.

Lemma kh_walkpgdir d va a : keeps_held (walkpgdir d va a).
Proof. unfold walkpgdir. held. Qed.
#[export] Hint Resolve kh_walkpgdir : held.

Lemma kh_mappages d va sz pa perm : keeps_held (mappages d va sz pa perm).
Proof.
  unfold mappages. generalize (PGROUNDDOWN va) (PGROUNDDOWN (u32 (va + sz - 1))). intros a last.
  generalize (Z.to_nat (u32 (last - a) / PGSIZE)). intros n. revert a pa.
  induction n as [|n IH]; intros a pa; cbn [mappages_loop]; held.
Qed.
#[export] Hint Resolve kh_mappages : held.

Lemma kh_deallocuvm kend d o n : keeps_held (deallocuvm kend d o n).
Proof.
  unfold deallocuvm. apply kh_if; [apply kh_ret|]. apply kh_bind; [|intros; apply kh_ret].
  generalize (Z.to_nat (o / PGSIZE) + 1)%nat (PGROUNDUP n). intros fuel. 
  induction fuel as [|f IH]; intros a; cbn [deallocuvm_loop]; held.
Qed.
#[export] Hint Resolve kh_deallocuvm : held.

Lemma kh_freevm kend d : keeps_held (freevm kend d).
Proof.
  unfold freevm. held. generalize (Z.to_nat NPDENTRIES) 0. intros n.
  induction n as [|n IH]; intros i; cbn [freevm_loop]; held.
Qed.
#[export] Hint Resolve kh_freevm : held.

Lemma kh_setupkvm kend kdata : keeps_held (setupkvm kend kdata).
Proof.
  unfold setupkvm. held. induction (kmap kdata) as [|k ks IH]; cbn [setupkvm_loop]; held.
Qed.
#[export] Hint Resolve kh_setupkvm : held.

Lemma kh_copyuvm kend kdata d sz : keeps_held (copyuvm kend kdata d sz).
Proof.
  unfold copyuvm. held. generalize (Z.to_nat ((sz + PGSIZE - 1) / PGSIZE)) 0. intros n.
  induction n as [|n IH]; intros i; cbn [copyuvm_loop]; held.
Qed.

Lemma kh_copyuvm_original kend kdata d sz : keeps_held (copyuvm_original kend kdata d sz).
Proof.
  unfold copyuvm_original. held. generalize (Z.to_nat ((sz + PGSIZE - 1) / PGSIZE)) 0. intros n.
  induction n as [|n IH]; intros i; cbn [copyuvm_original_loop]; held.
Qed.

Lemma kh_allocuvm kend d o n : keeps_held (allocuvm kend d o n).
Proof.
  unfold allocuvm. do 2 (apply kh_if; [apply kh_ret|]).
  generalize (Z.to_nat (n / PGSIZE) + 1)%nat (PGROUNDUP o). intros fuel.
  induction fuel as [|f IH]; intros a; cbn [allocuvm_loop]; held.
Qed.

Lemma kh_inituvm d init sz : keeps_held (inituvm d init sz).
Proof. unfold inituvm. held. Qed.
#[export] Hint Resolve kh_copyuvm kh_copyuvm_original kh_allocuvm kh_inituvm : held.

(** ** Changes to the process table *)

(** A wakeup, at most, has happened to a process. *)
Definition woken (p p' : proc) : Prop :=
  p' = p \/ p_state p = SLEEPING /\ p' = set_state RUNNABLE p.

Lemma woken_trans p q r : woken p q -> woken q r -> woken p r.
Proof. intros [->|[Hp ->]] [->|[Hq ->]]; unfold woken; auto. Qed.

Definition wake (ch : chan) (p : proc) : proc :=
  if bool_decide (p_state p = SLEEPING) && bool_decide (p_chan p = Some ch) then set_state RUNNABLE p else p.

Lemma woken_wake ch p : woken p (wake ch p).
Proof. unfold woken, wake. destruct (decide (p_state p = SLEEPING)) as [Hs|Hs].
  - rewrite (bool_decide_eq_true_2 _ Hs). cbn. destruct (bool_decide _); auto.
  - rewrite (bool_decide_eq_false_2 _ Hs). auto.
Qed.

(** One tick of [updateStats]. *)
Definition tick_stats (p : proc) : proc :=
  match p_state p with
  | SLEEPING => set_times (s32 (p_stime p + 1)) (p_ctime p) (p_retime p) (p_rutime p) p
  | RUNNABLE => set_times (p_stime p) (p_ctime p) (s32 (p_retime p + 1)) (p_rutime p) p
  | RUNNING => set_times (p_stime p) (p_ctime p) (p_retime p) (s32 (p_rutime p + 1)) p
  | _ => p
  end.

Section Table.
Context {F : Type} `{FileLayer F}.
Implicit Types k : kern F.

Definition with_held (h : list lockid) k : kern F := set_mach (set_m_held h (k_mach k)) k.

Lemma acquire_eq l k : l ∉ held k -> acquire l k = Ret tt (with_held (l :: held k) k).
Proof using. intros Hn. exact (acquire_free l k Hn). Qed.
Lemma release_eq l h k : held k = l :: h -> l ∉ h -> release l k = Ret tt (with_held h k).
Proof using. intros Hh Hn. exact (release_top l h k Hh Hn). Qed.
Lemma acquire_run l k r k' : acquire l k = Ret r k' -> l ∉ held k /\ k' = with_held (l :: held k) k.
Proof using.
  intros Hr. destruct (decide (l ∈ held k)) as [Hin|Hn]; [by rewrite acquire_held in Hr|].
  rewrite acquire_eq in Hr by done. by injection Hr as _ <-.
Qed.
Lemma with_held_id k h : h = held k -> with_held h k = k.
Proof using. intros ->. by destruct k as [[]]. Qed.

Lemma set_procs_id k l : l = k_procs k -> set_procs l k = k.
Proof. intros ->. by destruct k. Qed.

Lemma upd_proc_eq i f k p :
  k_procs k !! i = Some p -> upd_proc i f k = Ret tt (set_procs (<[i := f p]> (k_procs k)) k).
Proof. unfold upd_proc. by intros ->. Qed.

Lemma get_proc_eq i k p : k_procs k !! i = Some p -> get_proc i k = Ret p k.
Proof. unfold get_proc. by intros ->. Qed.

(** A loop whose body changes its own slot only. *)
Lemma for_procs_map (body : nat -> M (kern F) unit) (f : proc -> proc) n :
  (forall i k p, k_procs k !! i = Some p -> body i k = Ret tt (set_procs (<[i := f p]> (k_procs k)) k)) ->
  forall pre l k, k_procs k = pre ++ l -> length l = n ->
  for_procs body n (length pre) k = Ret tt (set_procs (pre ++ (f <$> l)) k).
Proof using.
  intros Hbody. induction n as [|n IH]; intros pre l k Hk Hl.
  - destruct l; [|done]. cbn. rewrite set_procs_id; [done|]. by rewrite Hk.
  - destruct l as [|p l]; [done|]. cbn [for_procs].
    assert (Hp : k_procs k !! length pre = Some p) by (rewrite Hk; apply list_lookup_middle; done).
    step (Hbody _ _ _ Hp).
    specialize (IH (pre ++ [f p]) l (set_procs (<[length pre := f p]> (k_procs k)) k)).
    rewrite length_app in IH. cbn [length] in IH. rewrite Nat.add_1_r in IH.
    assert (E : <[length pre:=f p]> (k_procs k) = pre ++ f p :: l).
    { rewrite Hk, insert_app_r_alt by done. by rewrite Nat.sub_diag. }
    rewrite IH; [|cbn; rewrite E; by rewrite <- app_assoc|by injection Hl].
    cbn [fmap list_fmap]. by rewrite <- app_assoc.
Qed.

Lemma for_all_procs_map (body : nat -> M (kern F) unit) (f : proc -> proc) k :
  (forall i k p, k_procs k !! i = Some p -> body i k = Ret tt (set_procs (<[i := f p]> (k_procs k)) k)) ->
  length (k_procs k) = NPROC ->
  for_all_procs body k = Ret tt (set_procs (f <$> k_procs k) k).
Proof using. intros Hb Hl. by apply (for_procs_map body f NPROC Hb []). Qed.

Lemma wakeup1_eq ch k :
  length (k_procs k) = NPROC -> wakeup1 ch k = Ret tt (set_procs (wake ch <$> k_procs k) k).
Proof using.
  intros Hl. apply for_all_procs_map; [|done]. intros i k' p Hp. step (get_proc_eq _ _ _ Hp).
  unfold wake. destruct (_ && _); [by apply upd_proc_eq|].
  unfold ret. by rewrite set_procs_id by (by rewrite list_insert_id).
Qed.

Lemma updateStats_eq k :
  length (k_procs k) = NPROC -> LkPtable ∉ held k ->
  updateStats k = Ret tt (set_procs (tick_stats <$> k_procs k) k).
Proof using.
  intros Hl Hn. unfold updateStats. step (acquire_eq LkPtable k Hn). set (kl := with_held _ k).
  assert (E : for_all_procs (fun i => upd_proc i tick_stats) kl = Ret tt (set_procs (tick_stats <$> k_procs kl) kl)).
  { apply for_all_procs_map; [|done]. intros. by apply upd_proc_eq. }
  step E. rewrite (release_eq LkPtable (held k)) by done. f_equal. by destruct k as [[]].
Qed.

Lemma wakeup_eq ch k :
  length (k_procs k) = NPROC -> LkPtable ∉ held k ->
  wakeup ch k = Ret tt (set_procs (wake ch <$> k_procs k) k).
Proof using.
  intros Hl Hn. unfold wakeup. step (acquire_eq LkPtable k Hn). step (wakeup1_eq ch (with_held (LkPtable :: held k) k) Hl).
  rewrite (release_eq LkPtable (held k)) by done. f_equal. by destruct k as [[]].
Qed.

(** What process management reads besides the table is as before. *)
Record frame k k' : Prop := {
  fr_init : k_initproc k' = k_initproc k;
  fr_cpus : k_cpus k' = k_cpus k
}.

(** The next pid and the locks held are as before. *)
Definition ctl k k' : Prop := k_nextpid k' = k_nextpid k /\ held k' = held k.

Lemma ctl_trans k k1 k2 : ctl k k1 -> ctl k1 k2 -> ctl k k2.
Proof using. unfold ctl. intros [] []. split; congruence. Qed.

Lemma frame_refl k : frame k k.
Proof using. done. Qed.
Lemma frame_trans k k1 k2 : frame k k1 -> frame k1 k2 -> frame k k2.
Proof using. intros [] []. split; congruence. Qed.

(** Slot [i] went from [p] to [p'], the other slots at most saw wakeups. *)
Record touched (i : nat) (p p' : proc) k k' : Prop := {
  t_old : k_procs k !! i = Some p;
  t_new : k_procs k' !! i = Some p';
  t_len : length (k_procs k') = length (k_procs k);
  t_oth : forall j q, j <> i -> k_procs k !! j = Some q -> exists q', k_procs k' !! j = Some q' /\ woken q q';
  t_frame : frame k k'
}.

Lemma touched_refl i p k : k_procs k !! i = Some p -> touched i p p k k.
Proof using. intros Hp. split; try done. intros j q _ Hq. exists q. split; [done|by left]. Qed.

Lemma touched_trans i p p1 p2 k k1 k2 : touched i p p1 k k1 -> touched i p1 p2 k1 k2 -> touched i p p2 k k2.
Proof using.
  intros H1 H2. split; [apply H1|apply H2| |..].
  - by rewrite (t_len _ _ _ _ _ H2), (t_len _ _ _ _ _ H1).
  - intros j q Hj Hq. destruct (t_oth _ _ _ _ _ H1 j q Hj Hq) as (q1 & Hq1 & W1).
    destruct (t_oth _ _ _ _ _ H2 j q1 Hj Hq1) as (q2 & Hq2 & W2). exists q2. split; [done|]. by eapply woken_trans.
  - eapply frame_trans; [apply H1|apply H2].
Qed.

Lemma touched_same i p k k' : k_procs k !! i = Some p -> k_procs k' = k_procs k -> frame k k' -> touched i p p k k'.
Proof using.
  intros Hp E Hf. split; rewrite ?E; try done. intros j q _ Hq. exists q. split; [done|by left].
Qed.

Lemma touched_upd i p f k r k' :
  k_procs k !! i = Some p -> upd_proc i f k = Ret r k' -> touched i p (f p) k k' /\ ctl k k'.
Proof using.
  intros Hp. rewrite (upd_proc_eq i f k p Hp). intros [= _ <-]. split; [|done].
  apply lookup_lt_Some in Hp as Hlt. split; cbn; try done.
  - by rewrite list_lookup_insert_eq by done.
  - by rewrite length_insert.
  - intros j q Hj Hq. exists q. rewrite list_lookup_insert_ne by done. split; [done|by left].
Qed.

Lemma mach_run {A} (m : M machine A) k r k' :
  mach m k = Ret r k' -> exists s', m (k_mach k) = Ret r s' /\ k' = set_mach s' k.
Proof using.
  unfold mach, zoom. destruct (m (k_mach k)) as [a s'|e|ch s'|e]; [|done..]. intros [= <- <-]. by exists s'.
Qed.

Lemma mach_held {A} (m : M machine A) k r k' :
  keeps_held m -> LkKmem ∉ held k -> mach m k = Ret r k' ->
  k_procs k' = k_procs k /\ frame k k' /\ ctl k k'.
Proof using.
  intros Hm Hn Hr. apply mach_run in Hr as (s' & Hr & ->). split; [done|]. split; [done|]. split; [done|]. by eapply Hm.
Qed.

Lemma wakeups_run chs k r k' :
  length (k_procs k) = NPROC -> wakeups chs k = Ret r k' ->
  exists f, k_procs k' = f <$> k_procs k /\ (forall p, woken p (f p)) /\ frame k k' /\ ctl k k'.
Proof using.
  revert k. induction chs as [|ch chs IH]; intros k Hl Hr; cbn in Hr.
  - inv_ret. exists id. split; [by rewrite list_fmap_id|]. split; [by left|]. done.
  - inv_bind Hr. assert (Hn : LkPtable ∉ held k).
    { intros Hin. unfold wakeup in Hrun. by rewrite (bind_panic _ _ _ _ (acquire_held _ _ Hin)) in Hrun. }
    rewrite (wakeup_eq ch k Hl Hn) in Hrun. injection Hrun as _ <-.
    apply IH in Hr as (f & Hp & Hf & Hfr & Hh); [|by cbn; rewrite length_fmap].
    exists (f ∘ wake ch). cbn in Hp. split; [by rewrite Hp, <- list_fmap_compose|]. split.
    + intros p. eapply woken_trans; [apply woken_wake|apply Hf].
    + split; [|by eapply ctl_trans; [|exact Hh]]. by eapply frame_trans; [|exact Hfr].
Qed.

Lemma files_run {A} (m : M F A) k r k' :
  length (k_procs k) = NPROC -> files m k = Ret r k' ->
  exists f, k_procs k' = f <$> k_procs k /\ (forall p, woken p (f p)) /\ frame k k' /\ ctl k k'.
Proof using.
  intros Hl Hr. unfold files in Hr. inv_bind Hr. unfold zoom in Hrun.
  destruct (m (k_fs k)) as [a f'|e|ch f'|e]; [|done..]. injection Hrun as _ <-.
  rewrite bind_gets, bind_modify in Hr. inv_bind Hr. inv_ret.
  apply wakeups_run in Hrun as (f & Hp & Hf & Hfr & Hh); [|done]. exists f. split_and!; try done.
  destruct Hfr; done.
Qed.

Lemma touched_files {A} i p (m : M F A) k r k' :
  length (k_procs k) = NPROC -> k_procs k !! i = Some p -> p_state p <> SLEEPING -> files m k = Ret r k' ->
  touched i p p k k' /\ ctl k k'.
Proof using.
  intros Hl Hp Hs Hr. apply files_run in Hr as (f & Hps & Hf & Hfr & Hh); [|done]. split; [|done].
  split; rewrite ?Hps; try done.
  - rewrite list_lookup_fmap, Hp. cbn. destruct (Hf p) as [->|[? _]]; done.
  - by rewrite length_fmap.
  - intros j q _ Hq. exists (f q). rewrite list_lookup_fmap, Hq. by split.
Qed.

(** ** Programs that work on one slot *)

Definition reaches (i : nat) (p p' : proc) k k' : Prop := touched i p p' k k' /\ ctl k k'.

Lemma reaches_trans i p p1 p2 k k1 k2 : reaches i p p1 k k1 -> reaches i p1 p2 k1 k2 -> reaches i p p2 k k2.
Proof using. intros [] []. split; [by eapply touched_trans|by eapply ctl_trans]. Qed.

(** Whenever [m] returns from a state with [p] in slot [i], it has changed that slot
    to some [p'], at most woken others, and the result and [p'] satisfy [Q]. *)
Definition does (i : nat) (p : proc) {A} (m : M (kern F) A) (Q : A -> proc -> Prop) : Prop :=
  forall k a k', length (k_procs k) = NPROC -> LkKmem ∉ held k -> k_procs k !! i = Some p -> m k = Ret a k' ->
  exists p', reaches i p p' k k' /\ Q a p'.

Lemma does_bind i p {A B} (m : M (kern F) A) (f : A -> M (kern F) B) Q1 Q :
  does i p m Q1 -> (forall a p1, Q1 a p1 -> does i p1 (f a) Q) -> does i p (bind m f) Q.
Proof using.
  intros Hm Hf k b k' Hl Hn Hp Hr. inv_bind Hr. destruct (Hm _ _ _ Hl Hn Hp Hrun) as (p1 & [T1 C1] & H1).
  destruct (Hf r p1 H1 s b k') as (p2 & R2 & H2); [|by rewrite (proj2 C1)|apply T1|done|].
  - by rewrite (t_len _ _ _ _ _ T1).
  - exists p2. split; [|done]. eapply reaches_trans; [split; [exact T1|exact C1]|exact R2].
Qed.

Lemma does_ret i p {A} (a : A) (Q : A -> proc -> Prop) : Q a p -> does i p (ret a) Q.
Proof using. intros HQ k b k' Hl Hn Hp [= <- <-]. exists p. split; [|done]. split; [by apply touched_refl|done]. Qed.

Lemma does_gets i p {A} (f : kern F -> A) (Q : A -> proc -> Prop) : (forall a, Q a p) -> does i p (gets f) Q.
Proof using. intros HQ k b k' Hl Hn Hp [= <- <-]. exists p. split; [|done]. split; [by apply touched_refl|done]. Qed.

Lemma does_ub i p {A} e (Q : A -> proc -> Prop) : does i p (ub e) Q.
Proof using. by intros k a k'. Qed.

Lemma does_upd i p f (Q : unit -> proc -> Prop) : Q tt (f p) -> does i p (upd_proc i f) Q.
Proof using.
  intros HQ k [] k' Hl Hn Hp Hr. destruct (touched_upd i p f k tt k' Hp Hr) as [T Hh].
  exists (f p). split; [|done]. by split.
Qed.

Lemma does_get i p (Q : proc -> proc -> Prop) : Q p p -> does i p (get_proc i) Q.
Proof using.
  intros HQ k a k' Hl Hn Hp. rewrite (get_proc_eq i k p Hp). intros [= <- <-]. exists p.
  split; [|done]. split; [by apply touched_refl|done].
Qed.

Lemma does_get_any i j p (Q : proc -> proc -> Prop) : (forall q, Q q p) -> does i p (get_proc j) Q.
Proof using.
  intros HQ k a k' Hl Hn Hp. unfold get_proc. destruct (k_procs k !! j); [|done]. intros [= <- <-]. exists p.
  split; [|done]. split; [by apply touched_refl|done].
Qed.

Lemma does_mach i p {A} (m : M machine A) (Q : A -> proc -> Prop) :
  keeps_held m -> (forall a, Q a p) -> does i p (mach m) Q.
Proof using.
  intros Hm HQ k a k' Hl Hn Hp Hr. destruct (mach_held m k a k' Hm Hn Hr) as (E & Hf & Hc). exists p.
  split; [|done]. split; [by apply touched_same|done].
Qed.

Lemma does_files i p {A} (m : M F A) (Q : A -> proc -> Prop) :
  p_state p <> SLEEPING -> (forall a, Q a p) -> does i p (files m) Q.
Proof using.
  intros Hs HQ k a k' Hl Hn Hp Hr. destruct (touched_files i p m k a k' Hl Hp Hs Hr) as [T C]. exists p.
  split; [|done]. by split.
Qed.

Lemma does_if i p {A} (b : bool) (m n : M (kern F) A) Q :
  does i p m Q -> does i p n Q -> does i p (if b then m else n) Q.
Proof using. by destruct b. Qed.

(** Changing a field under [ptable.lock], at the end. *)
Lemma does_locked i p f {A} (v : A) (Q : A -> proc -> Prop) :
  Q v (f p) -> does i p (acquire LkPtable ;;; upd_proc i f ;;; release LkPtable ;;; ret v) Q.
Proof using.
  intros HQ k a k' Hl Hn Hp Hr. inv_bind Hr. apply acquire_run in Hrun as [Hf ->].
  inv_bind Hr. rewrite (upd_proc_eq i f _ p) in Hrun by exact Hp. injection Hrun as _ <-.
  inv_bind Hr. rewrite (release_eq LkPtable (held k)) in Hrun by done. injection Hrun as _ <-.
  inv_ret. exists (f p). split; [|done].
  assert (E : upd_proc i f k = Ret tt (set_procs (<[i := f p]> (k_procs k)) k)) by by apply upd_proc_eq.
  destruct (touched_upd i p f k tt _ Hp E) as [T C]. split; [|done]. destruct T. by split.
Qed.
End Table.

(** The next statement of a program on one slot. *)
Ltac slot1 :=
  cbv zeta;
  match goal with
  | |- does ?i ?p (bind (upd_proc ?i ?f) _) _ =>
    apply (does_bind i p (upd_proc i f) _ (fun _ p' => p' = f p));
    [by apply does_upd|intros ? ? ->; cbv beta]
  | |- does ?i ?p (bind (mach ?m) _) _ =>
    apply (does_bind i p (mach m) _ (fun _ p' => p' = p));
    [apply does_mach; [auto 2 with held|reflexivity]|intros ? ? ->]
  | |- does ?i ?p (bind (gets ?f) _) _ =>
    apply (does_bind i p (gets f) _ (fun _ p' => p' = p)); [by apply does_gets|intros ? ? ->]
  | |- does ?i ?p (bind (get_proc ?i) _) _ =>
    apply (does_bind i p (get_proc i) _ (fun q p' => q = p /\ p' = p));
    [by apply does_get|intros ? ? [-> ->]]
  | |- does ?i ?p (bind (get_proc ?j) _) _ =>
    apply (does_bind i p (get_proc j) _ (fun _ p' => p' = p)); [by apply does_get_any|intros ? ? ->]
  | |- does ?i ?p (bind (files ?m) _) _ =>
    apply (does_bind i p (files m) _ (fun _ p' => p' = p)); [apply does_files; [|reflexivity]|intros ? ? ->]
  | |- does _ _ (ret _) _ => apply does_ret
  | |- does _ _ (ub _) _ => apply does_ub
  end.
