(* ===== verification/ProcOps.v ===== *)
(** * Each operation of proc.c on the process table

    For every operation, what the table looks like when it returns.  The memory
    system and the file layer enter only through the facts of [ProcSpec]. *)

From stdpp Require Import functions.
From S2P Require Import Prelude Mmu Mem Cstring Kalloc Vm Rand Proc ProcSpec.
#[local] Open Scope Z_scope.

Section Ops.
Context {F : Type} `{FileLayer F}.
Context (kend trapret forkret : Z) (c : nat).
Implicit Types k : kern F.

(** ** Searching the table *)

Lemma scan_run f n i k r k' :
  scan f n i k = Ret r k' ->
  k' = k /\
  match r with
  | Some j => exists p, k_procs k !! j = Some p /\ f p = true /\
      forall m q, (i <= m < j)%nat -> k_procs k !! m = Some q -> f q = false
  | None => forall m q, (i <= m < i + n)%nat -> k_procs k !! m = Some q -> f q = false
  end.
Proof using.
  revert i. induction n as [|n IH]; intros i Hr; cbn in Hr.
  - inv_ret. split; [done|]. intros. lia.
  - inv_bind Hr. unfold get_proc in Hrun. destruct (k_procs k !! i) as [p|] eqn:Hp; [|done].
    injection Hrun as <- <-. destruct (f p) eqn:Hf.
    + inv_ret. split; [done|]. exists p. split_and!; [done|done|]. intros. lia.
    + apply IH in Hr as [-> Hr]. split; [done|].
      assert (Hi : forall m q, (m = i \/ i < m)%nat -> (m = i -> k_procs k !! m = Some q -> f q = false)).
      { intros m q _ -> Hq. congruence. }
      destruct r as [j|].
      * destruct Hr as (q & Hq & Hfq & Hlt). exists q. split_and!; [done|done|]. intros m q' Hm Hq'.
        destruct (decide (m = i)) as [->|]; [congruence|]. apply (Hlt m); [lia|done].
      * intros m q' Hm Hq'. destruct (decide (m = i)) as [->|]; [congruence|]. apply (Hr m); [lia|done].
Qed.

Lemma scan_all_run f k r k' :
  length (k_procs k) = NPROC -> scan_all f k = Ret r k' ->
  k' = k /\
  match r with
  | Some j => exists p, k_procs k !! j = Some p /\ f p = true /\
      forall m q, (m < j)%nat -> k_procs k !! m = Some q -> f q = false
  | None => forall m q, k_procs k !! m = Some q -> f q = false
  end.
Proof using.
  intros Hl Hr. apply scan_run in Hr as [-> Hr]. split; [done|]. destruct r as [j|].
  - destruct Hr as (p & Hp & Hf & Hlt). exists p. split_and!; [done|done|]. intros m q Hm. apply Hlt. lia.
  - intros m q Hq. apply (Hr m); [|done]. apply lookup_lt_Some in Hq. lia.
Qed.

(** ** Creating processes *)

(** The fields [allocproc] leaves as they were in the slot. *)
Definition same_slot (p p' : proc) : Prop :=
  p_sz p' = p_sz p /\ p_pgdir p' = p_pgdir p /\ p_parent p' = p_parent p /\ p_chan p' = p_chan p /\
  p_killed p' = p_killed p /\ p_ofile p' = p_ofile p /\ p_cwd p' = p_cwd p /\ p_name p' = p_name p.

Lemma insert_touched i p p' k k' :
  k_procs k !! i = Some p -> k_procs k' = <[i := p']> (k_procs k) -> frame k k' -> touched i p p' k k'.
Proof using.
  intros Hp E Hf. apply lookup_lt_Some in Hp as Hlt. split; rewrite ?E; try done.
  - by rewrite list_lookup_insert_eq.
  - by rewrite length_insert.
  - intros j q Hj Hq. exists q. rewrite list_lookup_insert_ne by done. split; [done|by left].
Qed.

Lemma touched_with_held i p p' h k k' : touched i p p' k k' -> touched i p p' k (with_held h k').
Proof using. intros [? ? ? ? []]. by split. Qed.

Lemma release_run l h k r k' :
  held k = l :: h -> l ∉ h -> release l k = Ret r k' -> k' = with_held h k.
Proof using. intros Hh Hn. rewrite (release_eq l h) by done. by intros [= _ <-]. Qed.

Lemma new_kstack_does i p : does (F:=F) i p (new_kstack i) (fun ks p' => p' = set_kstack ks p).
Proof using. unfold new_kstack. slot1. slot1. by apply does_ret. Qed.

Lemma stack_frame_does i p :
  does (F:=F) i p (stack_frame trapret forkret i) (fun _ p' => exists tf cx, p' = set_context cx (set_tf tf p)).
Proof using.
  unfold stack_frame. do 5 slot1. apply does_mach; [auto 2 with held|]. intros _. by eexists _, _.
Qed.

(** What the first part of [allocproc] returns with: a slot that was free, with the next
    pid; the pid has to fit the arrays of [pstat_var]. *)
Definition embryo (pid t : Z) (p : proc) : proc :=
  set_times 0 t 0 0 (set_priority 0 (set_pid pid (set_state EMBRYO p))).

Lemma alloc_slot_run k i k' :
  length (k_procs k) = NPROC -> alloc_slot k = Ret i k' ->
  0 <= k_nextpid k < Z.of_nat NPROC /\ k_nextpid k' = k_nextpid k + 1 /\ held k' = held k /\ LkPtable ∉ held k /\ frame k k' /\
  exists p, k_procs k !! i = Some p /\ p_state p = UNUSED /\
    k_procs k' = <[i := embryo (k_nextpid k) (k_ticks k) p]> (k_procs k).
Proof using.
  intros Hl Hr. unfold alloc_slot in Hr. inv_bind Hr. apply acquire_run in Hrun as [Hf ->].
  inv_bind Hr. apply scan_all_run in Hrun as [-> Hs]; [|done]. destruct r0 as [j|]; [|done].
  destruct Hs as (p & Hp & Hu%bool_decide_eq_true & _). cbn in Hp.
  inv_bind Hr. rewrite (upd_proc_eq j _ _ p) in Hrun by done. injection Hrun as _ <-.
  rewrite bind_gets in Hr. cbn [k_nextpid set_procs with_held set_mach] in Hr.
  apply lookup_lt_Some in Hp as Hlt.
  inv_bind Hr. rewrite (upd_proc_eq j _ _ (set_state EMBRYO p)) in Hrun
    by (cbn; by rewrite list_lookup_insert_eq). injection Hrun as _ <-.
  rewrite bind_modify in Hr. inv_bind Hr.
  rewrite (get_proc_eq j _ (set_pid (k_nextpid k) (set_state EMBRYO p))) in Hrun
    by (cbn; rewrite list_insert_insert_eq; by rewrite list_lookup_insert_eq). injection Hrun as <- <-.
  inv_bind Hr. unfold record_pstat in Hrun. cbn [p_pid set_pid] in Hrun.
  destruct ((0 <=? k_nextpid k) && (k_nextpid k <? Z.of_nat NPROC)) eqn:Hb; [|done]. injection Hrun as _ <-.
  apply andb_prop in Hb as [Hb1%Z.leb_le Hb2%Z.ltb_lt].
  rewrite bind_gets in Hr. inv_bind Hr.
  rewrite (upd_proc_eq j _ _ (set_pid (k_nextpid k) (set_state EMBRYO p))) in Hrun
    by (cbn; rewrite list_insert_insert_eq; by rewrite list_lookup_insert_eq). injection Hrun as _ <-.
  inv_bind Hr. apply (release_run _ (held k)) in Hrun as ->; [|done|done]. inv_ret.
  split; [done|]. split; [cbn; apply s32_id; unfold NPROC in *; lia|]. split; [done|]. split; [done|]. split; [done|].
  exists p. split; [done|]. split; [done|]. cbn. by rewrite !list_insert_insert_eq.
Qed.

(** [allocproc] as a whole. *)
Lemma allocproc_run k r k' :
  length (k_procs k) = NPROC -> LkKmem ∉ held k -> allocproc trapret forkret k = Ret r k' ->
  0 <= k_nextpid k < Z.of_nat NPROC /\ k_nextpid k' = k_nextpid k + 1 /\ held k' = held k /\
  exists i p p', p_state p = UNUSED /\ touched i p p' k k' /\ same_slot p p' /\ p_pid p' = k_nextpid k /\
    match r with
    | Some j => j = i /\ p_state p' = EMBRYO /\ p_kstack p' <> 0
    | None => p_state p' = UNUSED /\ p_kstack p' = 0
    end.
Proof using.
  intros Hl Hn Hr. unfold allocproc in Hr. inv_bind Hr. rename r0 into i. rename s into k1.
  apply alloc_slot_run in Hrun as (Hb & Hnext & Hh & _ & Hf & p & Hp & Hu & E1); [|done].
  set (p1 := embryo _ _ p) in E1. apply lookup_lt_Some in Hp as Hlt.
  assert (T1 : touched i p p1 k k1) by (by apply insert_touched).
  assert (D : does (F:=F) i p1 (ks <- new_kstack i ;; if ks =? 0 then free_slot i ;;; ret None else stack_frame trapret forkret i ;;; ret (Some i))
    (fun r p' => same_slot p p' /\ p_pid p' = k_nextpid k /\
      match r with Some j => j = i /\ p_state p' = EMBRYO /\ p_kstack p' <> 0 | None => p_state p' = UNUSED /\ p_kstack p' = 0 end)).
  { eapply does_bind; [apply new_kstack_does|]. intros ks ? ->. destruct (Z.eqb_spec ks 0) as [->|Hne].
    - unfold free_slot. slot1. apply does_ret. by split_and!.
    - eapply does_bind; [apply stack_frame_does|]. intros _ ? (tf & cx & ->). apply does_ret. by split_and!. }
  destruct (D k1 r k') as (p' & [T2 C2] & HQ);
    [by rewrite E1, length_insert|by rewrite Hh|by rewrite E1, list_lookup_insert_eq|exact Hr|].
  split; [done|]. split; [by rewrite (proj1 C2)|]. split; [by rewrite (proj2 C2)|]. exists i, p, p'. split; [done|].
  split; [by eapply touched_trans|exact HQ].
Qed.

Lemma dup_file_does cur np p j :
  p_state p <> SLEEPING -> does (F:=F) np p (dup_file cur np j) (fun _ p' => exists fs, p' = set_ofile fs p).
Proof using.
  intros Hs. unfold dup_file. apply (does_bind np p (get_proc cur) _ (fun _ p' => p' = p)); [by apply does_get_any|intros cp ? ->].
  destruct (p_ofile cp !! j) as [[f|]|]; [|apply does_ret; exists (p_ofile p); by destruct p|apply does_ub].
  slot1; [done|]. apply does_upd. by eexists.
Qed.

Lemma dup_files_does cur np p n j :
  p_state p <> SLEEPING -> does (F:=F) np p (dup_files cur np n j) (fun _ p' => exists fs, p' = set_ofile fs p).
Proof using.
  revert p j. induction n as [|n IH]; intros p j Hs; cbn [dup_files].
  - apply does_ret. exists (p_ofile p). by destruct p.
  - eapply does_bind; [by apply dup_file_does|].
    intros _ ? [fs ->]. intros k a k' Hl Hn Hp Hr.
    destruct (IH (set_ofile fs p) (S j) Hs k a k' Hl Hn Hp Hr) as (p' & HR & fs' & ->).
    eexists. split; [exact HR|]. by exists fs'.
Qed.

Lemma fork_copy_does copy cur np p :
  (forall d sz, keeps_held (copy d sz)) ->
  does (F:=F) np p (fork_copy copy cur np) (fun ok p' => exists d, p' = set_pgdir d p /\ ok = negb (d =? 0)).
Proof using.
  intros Hc. unfold fork_copy. apply (does_bind np p (get_proc cur) _ (fun _ p' => p' = p)); [by apply does_get_any|intros cp ? ->].
  apply (does_bind np p (mach (copy (p_pgdir cp) (p_sz cp))) _ (fun _ p' => p' = p)); [by apply does_mach|intros pgdir ? ->].
  slot1. apply does_ret. by eexists.
Qed.

Lemma fork_undo_does np p : does (F:=F) np p (fork_undo kend np) (fun _ p' => p' = set_kstack 0 p).
Proof using. unfold fork_undo. do 2 slot1. by apply does_upd. Qed.

Lemma fork_fill_does cur np p :
  does (F:=F) np p (fork_fill cur np) (fun _ p' => exists sz, p' = set_tickets DEFAULT_TICKETS (set_parent (Some cur) (set_sz sz p))).
Proof using.
  unfold fork_fill. apply (does_bind np p (get_proc cur) _ (fun _ p' => p' = p)); [by apply does_get_any|intros cp ? ->].
  do 5 slot1. apply does_mach; [auto 2 with held|]. intros _. by eexists.
Qed.

Lemma fork_cwd_does cur np p :
  p_state p <> SLEEPING -> does (F:=F) np p (fork_cwd cur np) (fun _ p' => exists d, p' = set_cwd d p).
Proof using.
  intros Hs. unfold fork_cwd. apply (does_bind np p (get_proc cur) _ (fun _ p' => p' = p)); [by apply does_get_any|intros cp ? ->].
  destruct (p_cwd cp) as [d|]; [|apply does_ub]. slot1; [done|]. apply does_upd. by eexists.
Qed.

Lemma fork_name_does cur np p : does (F:=F) np p (fork_name cur np) (fun _ p' => exists nm, p' = set_name nm p).
Proof using.
  unfold fork_name. apply (does_bind np p (get_proc cur) _ (fun _ p' => p' = p)); [by apply does_get_any|intros cp ? ->].
  apply does_upd. by eexists.
Qed.

Lemma publish_does np p : does (F:=F) np p (publish np) (fun r p' => r = p_pid p /\ p' = set_state RUNNABLE p).
Proof using. unfold publish. slot1. by apply does_locked. Qed.

(** A new process, child of [cur]. *)
Definition born (cur : nat) (pid : Z) (p p' : proc) : Prop :=
  p_state p' = RUNNABLE /\ p_pid p' = pid /\ p_parent p' = Some cur /\ p_kstack p' <> 0 /\ p_pgdir p' <> 0 /\
  p_killed p' = p_killed p /\ p_chan p' = p_chan p.

(** A slot that is free again. *)
Definition stillborn (pid : Z) (p p' : proc) : Prop :=
  p_state p' = UNUSED /\ p_pid p' = pid /\ p_parent p' = p_parent p /\ p_killed p' = p_killed p /\
  p_chan p' = p_chan p.

Lemma fork_rest_does copy cur np p :
  (forall d sz, keeps_held (copy d sz)) -> p_state p = EMBRYO -> p_kstack p <> 0 ->
  does (F:=F) np p (ok <- fork_copy copy cur np ;;
    if negb ok then fork_undo kend np ;;; free_slot np ;;; ret (-1)
    else fork_fill cur np ;;; dup_files cur np NOFILE 0 ;;; fork_cwd cur np ;;; fork_name cur np ;;; publish np) (fun r p' =>
    r = -1 /\ stillborn (p_pid p) p p' \/ r = p_pid p /\ born cur (p_pid p) p p').
Proof using.
  intros Hc Hs Hk. eapply does_bind; [by apply fork_copy_does|]. intros ok ? (d & -> & ->). rewrite negb_involutive.
  destruct (Z.eqb_spec d 0) as [->|Hd].
  - eapply does_bind; [apply fork_undo_does|]. intros _ ? ->. unfold free_slot. slot1. apply does_ret. left. by split_and!.
  - eapply does_bind; [apply fork_fill_does|]. intros _ ? (sz & ->).
    eapply does_bind; [apply dup_files_does; cbn; by rewrite Hs|]. intros _ ? (fs & ->).
    eapply does_bind; [apply fork_cwd_does; cbn; by rewrite Hs|]. intros _ ? (d' & ->).
    eapply does_bind; [apply fork_name_does|]. intros _ ? (nm & ->).
    intros k a k' Hl Hn Hp Hr. destruct (publish_does _ _ k a k' Hl Hn Hp Hr) as (p' & HR & -> & ->).
    eexists. split; [exact HR|]. right. by split_and!.
Qed.

Lemma curproc_run k r k' : curproc c k = Ret r k' -> cp_proc (k_cpus k c) = Some r /\ k' = k.
Proof using.
  unfold curproc, myproc. rewrite bind_gets. destruct (cp_proc (k_cpus k c)); [|done]. by intros [= <- <-].
Qed.

(** [fork] as seen from the table: a slot that was free holds the new process, or is
    still free and the result is -1. *)
Lemma fork_with_run copy k r k' :
  (forall d sz, keeps_held (copy d sz)) -> length (k_procs k) = NPROC -> LkKmem ∉ held k ->
  fork_with kend trapret forkret c copy k = Ret r k' ->
  0 <= k_nextpid k < Z.of_nat NPROC /\ k_nextpid k' = k_nextpid k + 1 /\ held k' = held k /\
  exists cur i p p', cp_proc (k_cpus k c) = Some cur /\ p_state p = UNUSED /\ touched i p p' k k' /\
    (r = -1 /\ stillborn (k_nextpid k) p p' \/ r = k_nextpid k /\ born cur (k_nextpid k) p p').
Proof using.
  intros Hc Hl Hn Hr. unfold fork_with in Hr. inv_bind Hr. apply curproc_run in Hrun as [Hcur ->].
  inv_bind Hr. apply allocproc_run in Hrun as (Hb & Hnext & Hh & i & p & p1 & Hu & T1 & Hsame & Hpid & Hres);
    [|done|done]. destruct Hsame as (_ & Hd & Hpar & Hch & Hki & _).
  split; [done|]. destruct r1 as [j|].
  - destruct Hres as (-> & Hs & Hks).
    destruct (fork_rest_does copy r0 i p1 Hc Hs Hks s r k') as (p2 & [T2 C2] & HQ);
      [by rewrite (t_len _ _ _ _ _ T1)|by rewrite Hh|apply T1|exact Hr|].
    split; [by rewrite (proj1 C2)|]. split; [by rewrite (proj2 C2)|]. exists r0, i, p, p2.
    split; [done|]. split; [done|]. split; [by eapply touched_trans|]. unfold stillborn, born in *.
    rewrite Hpid, Hpar, Hch, Hki in HQ. exact HQ.
  - destruct Hres as [Hs Hks]. inv_ret. split; [done|]. split; [done|]. exists r0, i, p, p1.
    split; [done|]. split; [done|]. split; [done|]. left. by split_and!.
Qed.

(** ** Giving up the processor *)

Lemma sched_run k r k' :
  sched c k = Ret r k' ->
  k' = k /\ held k = [LkPtable] /\
  exists cur p, cp_proc (k_cpus k c) = Some cur /\ k_procs k !! cur = Some p /\ p_state p <> RUNNING.
Proof using.
  intros Hr. unfold sched in Hr. inv_bind Hr. apply curproc_run in Hrun as [Hcur ->].
  inv_bind Hr. unfold holding in Hrun. injection Hrun as <- <-.
  destruct (decide (LkPtable ∈ held k)) as [Hin|Hn]; [|by rewrite bool_decide_eq_false_2 in Hr].
  rewrite bool_decide_eq_true_2 in Hr by done. cbn [negb] in Hr. rewrite bind_gets in Hr.
  destruct (Nat.eqb_spec (length (held k)) 1) as [Hlen|]; [|done]. cbn [negb] in Hr.
  inv_bind Hr. unfold get_proc in Hrun. destruct (k_procs k !! r0) as [p|] eqn:Hp; [|done].
  injection Hrun as <- <-. destruct (decide (p_state p = RUNNING)) as [|Hne];
    [by rewrite bool_decide_eq_true_2 in Hr|]. rewrite bool_decide_eq_false_2 in Hr by done. inv_ret.
  split; [done|]. split; [|by exists r0, p].
  destruct (held k') as [|x [|]]; [done| |done]. by apply list_elem_of_singleton in Hin as ->.
Qed.

Lemma upd_proc_run i f k r k' :
  upd_proc i f k = Ret r k' ->
  exists p, k_procs k !! i = Some p /\ k' = set_procs (<[i := f p]> (k_procs k)) k.
Proof using. unfold upd_proc. destruct (k_procs k !! i) as [p|]; [|done]. intros [= _ <-]. by exists p. Qed.

(** The state with slot [i] set to [p] and the locks [h]. *)
Lemma yield_run k r k' :
  yield_before c k = Ret r k' ->
  held k = [] /\ exists cur p, cp_proc (k_cpus k c) = Some cur /\ k_procs k !! cur = Some p /\
    k' = with_held [LkPtable] (set_procs (<[cur := set_state RUNNABLE p]> (k_procs k)) k).
Proof using.
  intros Hr. unfold yield_before in Hr. inv_bind Hr. apply acquire_run in Hrun as [Hn ->].
  inv_bind Hr. apply curproc_run in Hrun as [Hcur ->]. inv_bind Hr. apply upd_proc_run in Hrun as (p & Hp & ->).
  apply sched_run in Hr as (-> & Hh & _). cbn in Hh. injection Hh as Hh. split; [done|].
  exists r1, p. split; [done|]. split; [done|]. unfold held, kern_locks. cbn. unfold held, kern_locks in Hh. cbn in Hh.
  by rewrite Hh.
Qed.

Lemma sleep_run ch l k r k' :
  sleep_before c ch l k = Ret r k' ->
  exists cur p, cp_proc (k_cpus k c) = Some cur /\ k_procs k !! cur = Some p /\
    k' = with_held [LkPtable] (set_procs (<[cur := set_state SLEEPING (set_chan (Some ch) p)]> (k_procs k)) k) /\
    (l = LkPtable /\ held k = [LkPtable] \/ l <> LkPtable /\ LkPtable ∉ held k).
Proof using.
  intros Hr. unfold sleep_before, myproc in Hr. rewrite bind_gets in Hr.
  destruct (cp_proc (k_cpus k c)) as [cur|] eqn:Hcur; [|done]. inv_bind Hr.
  assert (Hs : (exists h, s = with_held h k) /\
    (l = LkPtable /\ s = k \/ l <> LkPtable /\ LkPtable ∉ held k)).
  { destruct (decide (l = LkPtable)) as [->|Hne].
    - rewrite bool_decide_eq_true_2 in Hrun by done. injection Hrun as _ <-. split; [exists (held k); symmetry; by apply with_held_id|by left].
    - rewrite bool_decide_eq_false_2 in Hrun by done. cbn [negb] in Hrun. inv_bind Hrun.
      apply acquire_run in Hrun0 as [Hn ->]. split; [|by right]. unfold release in Hrun.
      destruct (decide _); [|done]. injection Hrun as _ <-. by eexists. }
  destruct Hs as [[h Hs] Hl]. rewrite Hs in Hr.
  inv_bind Hr. apply upd_proc_run in Hrun0 as (p & Hp & ->). inv_bind Hr.
  apply upd_proc_run in Hrun0 as (p1 & Hp1 & ->). apply sched_run in Hr as (-> & Hh & _).
  cbn in Hp, Hp1, Hh. apply lookup_lt_Some in Hp as Hlt. rewrite list_lookup_insert_eq in Hp1 by done.
  injection Hp1 as <-. exists cur, p. split; [done|]. split; [done|]. cbn. rewrite list_insert_insert_eq.
  unfold held, kern_locks in Hh. cbn in Hh. subst h. split; [done|].
  destruct Hl as [[-> E]|]; [left|by right]. split; [done|]. by rewrite <- E, Hs.
Qed.

(** ** Waiting *)

(** The slot of a child that has been waited for. *)
Definition reaped (p p' : proc) : Prop :=
  p_state p' = UNUSED /\ p_pid p' = 0 /\ p_parent p' = None /\ p_killed p' = 0 /\ p_chan p' = p_chan p.

Lemma reap_does i p : does (F:=F) i p (reap kend i) (fun r p' => r = p_pid p /\ reaped p p').
Proof using. unfold reap. do 9 slot1. apply does_ret. by split_and!. Qed.

Lemma test_reap_does i p :
  does (F:=F) i p (test_reap kend i) (fun r p' => r = (p_pid p, (p_retime p, p_rutime p, p_stime p)) /\ reaped p p').
Proof using. unfold test_reap. do 10 slot1. apply does_ret. by split_and!. Qed.

Lemma wait_scan_run cur hk n i k r k' :
  wait_scan cur hk n i k = Ret r k' ->
  k' = k /\
  match snd r with
  | Some j => exists p, k_procs k !! j = Some p /\ p_parent p = Some cur /\ p_state p = ZOMBIE
  | None =>
    (fst r = true <-> hk = true \/ exists j p, (i <= j < i + n)%nat /\ k_procs k !! j = Some p /\ p_parent p = Some cur) /\
    (forall j p, (i <= j < i + n)%nat -> k_procs k !! j = Some p -> p_parent p = Some cur -> p_state p <> ZOMBIE)
  end.
Proof using.
  revert hk i. induction n as [|n IH]; intros hk i Hr; cbn [wait_scan] in Hr.
  - inv_ret. cbn. split; [done|]. split; [|intros; lia]. split; [by left|]. intros [|(j & p & Hj & _)]; [done|lia].
  - inv_bind Hr. unfold get_proc in Hrun. destruct (k_procs k !! i) as [p|] eqn:Hp; [|done].
    injection Hrun as <- <-. destruct (decide (p_parent p = Some cur)) as [Hpar|Hpar].
    + rewrite bool_decide_eq_true_2 in Hr by done. cbn [negb] in Hr.
      destruct (decide (p_state p = ZOMBIE)) as [Hz|Hz].
      * rewrite bool_decide_eq_true_2 in Hr by done. inv_ret. split; [done|]. cbn. by exists p.
      * rewrite bool_decide_eq_false_2 in Hr by done. apply IH in Hr as [-> Hr]. split; [done|].
        destruct (snd r); [done|]. destruct Hr as [Hk Hz']. split.
        { split; [intros _; right; exists i, p; split; [lia|done]|]. intros _. apply Hk. by left. }
        intros j q Hj Hq Hqp. destruct (decide (j = i)) as [->|]; [congruence|]. apply (Hz' j q); [lia|done|done].
    + rewrite bool_decide_eq_false_2 in Hr by done. cbn [negb] in Hr. apply IH in Hr as [-> Hr]. split; [done|].
      destruct (snd r); [done|]. destruct Hr as [Hk Hz']. split.
      { rewrite Hk. split; (intros [?|(j & q & Hj & Hq & Hqp)]; [by left|right]); exists j, q; split; try done; [lia|].
        destruct (decide (j = i)) as [->|]; [congruence|lia]. }
      intros j q Hj Hq Hqp. destruct (decide (j = i)) as [->|]; [congruence|]. apply (Hz' j q); [lia|done|done].
Qed.

(** One pass of [wait], with [ptable.lock] held: a zombie child is reaped and the
    lock released; or the process goes to sleep on itself, keeping the lock; or
    there is no child, or the process has been killed, and the result is [none]. *)
Lemma wait_iter_run {A} (rp : nat -> M (kern F) A) (val : proc -> A) none k r k' :
  (forall i p, does i p (rp i) (fun r p' => r = val p /\ reaped p p')) ->
  length (k_procs k) = NPROC -> held k = [LkPtable] -> wait_iter c rp none k = Ret r k' ->
  exists cur, cp_proc (k_cpus k c) = Some cur /\
  match r with
  | None => exists cp, k_procs k !! cur = Some cp /\
    k' = set_procs (<[cur := set_state SLEEPING (set_chan (Some (ChProc cur)) cp)]> (k_procs k)) k /\
    p_killed cp = 0 /\
    (exists j p, k_procs k !! j = Some p /\ p_parent p = Some cur) /\
    (forall j p, k_procs k !! j = Some p -> p_parent p = Some cur -> p_state p <> ZOMBIE)
  | Some v =>
    held k' = [] /\ k_nextpid k' = k_nextpid k /\
    ((exists i p p', v = val p /\ p_parent p = Some cur /\ p_state p = ZOMBIE /\ reaped p p' /\ touched i p p' k k') \/
     exists cp, k_procs k !! cur = Some cp /\ v = none /\ k' = with_held [] k /\
       (p_killed cp <> 0 \/ forall j p, k_procs k !! j = Some p -> p_parent p <> Some cur))
  end.
Proof using.
  intros Hrp Hl Hh Hr. unfold wait_iter in Hr. inv_bind Hr. apply curproc_run in Hrun as [Hcur ->].
  inv_bind Hr. apply wait_scan_run in Hrun as [-> Hs]. destruct r1 as [hk [i|]]; cbn [snd fst] in *; exists r0.
  - destruct Hs as (p & Hp & Hpar & Hz). inv_bind Hr.
    destruct (Hrp i p k r1 s) as (p' & [T C] & -> & Hre); [done|rewrite Hh; set_solver|done|done|].
    inv_bind Hr. apply (release_run _ []) in Hrun0 as ->; [|by rewrite (proj2 C)|set_solver]. inv_ret.
    split; [done|]. split; [done|]. split; [apply C|]. left. exists i, p, p'. split_and!; try done; try apply Hre.
    by apply touched_with_held.
  - destruct Hs as [Hk Hz]. inv_bind Hr. unfold get_proc in Hrun. destruct (k_procs k !! r0) as [cp|] eqn:Hcp; [|done].
    injection Hrun as <- <-. split; [done|].
    assert (Hall : forall j p, k_procs k !! j = Some p -> (0 <= j < 0 + NPROC)%nat).
    { intros j p Hj. apply lookup_lt_Some in Hj. lia. }
    destruct (negb hk || negb (p_killed cp =? 0)) eqn:Hb.
    + inv_bind Hr. apply (release_run _ []) in Hrun as ->; [|done|set_solver]. inv_ret.
      split; [done|]. split; [done|]. right. exists cp. split_and!; try done.
      destruct hk; [left; destruct (Z.eqb_spec (p_killed cp) 0); [done|done]|]. right. intros j p Hj Hpar.
      assert (false = true) by (apply Hk; right; exists j, p; eauto). done.
    + apply orb_false_iff in Hb as [Hb1%negb_false_iff Hb2%negb_false_iff%Z.eqb_eq]. subst hk.
      inv_bind Hr. inv_ret. apply sleep_run in Hrun as (cur & p & Hcur' & Hp & -> & _). simplify_eq.
      exists cp. split; [done|]. split; [|split; [done|split]].
      * rewrite <- Hh. by destruct k as [[]].
      * destruct (proj1 Hk eq_refl) as [|(j & q & _ & Hq & Hqp)]; [done|]. by exists j, q.
      * intros j q Hj. apply (Hz j q); [|done]. by apply (Hall j q).
Qed.

(** ** Killing *)

Definition kill_proc (p : proc) : proc :=
  if bool_decide (p_state p = SLEEPING) then set_state RUNNABLE (set_killed 1 p) else set_killed 1 p.

(** [kill] marks the first slot with that pid, whatever its state. *)
Lemma kill_run pid k r k' :
  length (k_procs k) = NPROC -> kill pid k = Ret r k' ->
  (r = -1 /\ k' = k /\ forall j p, k_procs k !! j = Some p -> p_pid p <> pid) \/
  (r = 0 /\ exists i p, k_procs k !! i = Some p /\ p_pid p = pid /\
    (forall j q, (j < i)%nat -> k_procs k !! j = Some q -> p_pid q <> pid) /\
    k' = set_procs (<[i := kill_proc p]> (k_procs k)) k).
Proof using.
  intros Hl Hr. unfold kill in Hr. inv_bind Hr. apply acquire_run in Hrun as [Hn ->]. inv_bind Hr.
  apply scan_all_run in Hrun as [-> Hs]; [|done]. destruct r1 as [i|].
  - right. destruct Hs as (p & Hp & Hpid%Z.eqb_eq & Hlt). cbn in Hp, Hlt. apply lookup_lt_Some in Hp as Hi.
    inv_bind Hr. apply upd_proc_run in Hrun as (p1 & Hp1 & ->). cbn in Hp1. assert (p1 = p) as -> by congruence.
    inv_bind Hr. rewrite (get_proc_eq i _ (set_killed 1 p)) in Hrun by (cbn; by rewrite list_lookup_insert_eq).
    injection Hrun as <- <-. inv_bind Hr.
    assert (E : s = with_held (LkPtable :: held k) (set_procs (<[i := kill_proc p]> (k_procs k)) k)).
    { unfold kill_proc. cbn [p_state set_killed] in Hrun. destruct (bool_decide (p_state p = SLEEPING)).
      - apply upd_proc_run in Hrun as (p2 & Hp2 & ->). cbn in Hp2. rewrite list_lookup_insert_eq in Hp2 by done.
        injection Hp2 as <-. unfold with_held. cbn. by rewrite list_insert_insert_eq.
      - by injection Hrun as _ <-. }
    subst s. inv_bind Hr. apply (release_run _ (held k)) in Hrun0 as ->; [|done|done]. inv_ret.
    split; [done|]. exists i, p. split_and!; try done; [|by destruct k as [[]]].
    intros j q Hj Hq Hqp. specialize (Hlt j q Hj Hq). cbn in Hlt. apply Z.eqb_neq in Hlt. congruence.
  - left. inv_bind Hr. apply (release_run _ (held k)) in Hrun as ->; [|done|done]. inv_ret. split; [done|].
    split; [by destruct k as [[]]|]. intros j q Hq Hqp. specialize (Hs j q Hq). cbn in Hs.
    apply Z.eqb_neq in Hs. congruence.
Qed.

(** ** Exiting *)

(** What [exit] of [cur] does to another process: wakeups, and a child gets [init]
    as its parent. *)
Definition orphaned (cur : nat) (init : option nat) (p p' : proc) : Prop :=
  exists w, woken p w /\ p' = (if bool_decide (p_parent p = Some cur) then set_parent init w else w).

Lemma woken_parent p p' : woken p p' -> p_parent p' = p_parent p.
Proof using. by intros [->|[_ ->]]. Qed.

Lemma woken_set_parent v p p' : woken p p' -> woken (set_parent v p) (set_parent v p').
Proof using. intros [->|[Hs ->]]; [by left|by right]. Qed.

(** A relation between the slots of two tables. *)
Definition slotwise (R : nat -> proc -> proc -> Prop) k k' : Prop :=
  length (k_procs k') = length (k_procs k) /\
  forall j q, k_procs k !! j = Some q -> exists q', k_procs k' !! j = Some q' /\ R j q q'.

Lemma slotwise_trans R1 R2 (R : nat -> proc -> proc -> Prop) k k1 k2 :
  (forall j p q r, R1 j p q -> R2 j q r -> R j p r) ->
  slotwise R1 k k1 -> slotwise R2 k1 k2 -> slotwise R k k2.
Proof using.
  intros HR [L1 H1] [L2 H2]. split; [congruence|]. intros j q Hq. destruct (H1 j q Hq) as (q1 & Hq1 & HR1).
  destruct (H2 j q1 Hq1) as (q2 & Hq2 & HR2). eauto.
Qed.

Lemma slotwise_wakeup1 ch k r k' :
  length (k_procs k) = NPROC -> wakeup1 ch k = Ret r k' ->
  slotwise (fun _ => woken) k k' /\ frame k k' /\ ctl k k'.
Proof using.
  intros Hl. rewrite wakeup1_eq by done. intros [= _ <-]. split; [|done]. split; cbn; [by rewrite length_fmap|].
  intros j q Hq. exists (wake ch q). rewrite list_lookup_fmap, Hq. split; [done|apply woken_wake].
Qed.

Lemma wakeup1_opt_run (o : option nat) k r k' :
  length (k_procs k) = NPROC ->
  (match o with Some q => wakeup1 (ChProc q) | None => ret tt end) k = Ret r k' ->
  slotwise (fun _ => woken) k k' /\ frame k k' /\ ctl k k'.
Proof using.
  intros Hl. destruct o as [q|]; [by apply slotwise_wakeup1|]. intros [= _ <-]. split; [|done].
  split; [done|]. intros j p Hp. exists p. split; [done|by left].
Qed.

(** The loop of [exit] over the table. *)
Lemma exit_loop_run cur init n i k r k' :
  length (k_procs k) = NPROC ->
  for_procs (fun i =>
    p <- get_proc i ;;
    when bool_decide (p_parent p = Some cur) do
      (upd_proc i (set_parent init) ;;;
       when bool_decide (p_state p = ZOMBIE) do
         match init with Some q => wakeup1 (ChProc q) | None => ret tt end)) n i k = Ret r k' ->
  slotwise (fun j q q' => if (i <=? j)%nat && (j <? i + n)%nat then orphaned cur init q q' else woken q q') k k' /\
  frame k k' /\ ctl k k'.
Proof using.
  revert i k. induction n as [|n IH]; intros i k Hl Hr; cbn [for_procs] in Hr.
  - inv_ret. split; [|done]. split; [done|]. intros j q Hq. exists q. split; [done|].
    rewrite (proj2 (andb_false_iff _ _)); [by left|].
    destruct (Nat.leb_spec i j); [right; apply Nat.ltb_ge; lia|by left].
  - inv_bind Hr. assert (H1 : slotwise (fun j q q' => if (j =? i)%nat then orphaned cur init q q' else woken q q') k s /\
      frame k s /\ ctl k s).
    { inv_bind Hrun. unfold get_proc in Hrun0. destruct (k_procs k !! i) as [p|] eqn:Hp; [|done].
      injection Hrun0 as <- <-. destruct (bool_decide (p_parent p = Some cur)) eqn:Hpar.
      - inv_bind Hrun. apply upd_proc_run in Hrun0 as (p1 & Hp1 & ->). assert (p1 = p) as -> by congruence.
        assert (H2 : slotwise (fun _ => woken) (set_procs (<[i := set_parent init p]> (k_procs k)) k) s /\
          frame (set_procs (<[i := set_parent init p]> (k_procs k)) k) s /\
          ctl (set_procs (<[i := set_parent init p]> (k_procs k)) k) s).
        { destruct (bool_decide (p_state p = ZOMBIE)).
          - apply wakeup1_opt_run in Hrun; [done|by cbn; rewrite length_insert].
          - inv_ret. split; [|done]. split; [done|]. intros j q Hq. exists q. split; [done|by left]. }
        destruct H2 as ((L2 & H2) & F2 & C2). apply lookup_lt_Some in Hp as Hlt.
        split; [|split; [by destruct F2|exact C2]]. cbn in L2. rewrite length_insert in L2. split; [done|].
        intros j q Hq. destruct (Nat.eqb_spec j i) as [->|Hne].
        + assert (q = p) as -> by congruence. destruct (H2 i (set_parent init p)) as (q' & Hq' & W);
            [cbn; by rewrite list_lookup_insert_eq|]. exists q'. split; [done|].
          destruct W as [->|[Hs ->]]; [exists p; by rewrite Hpar; split; [left|]|].
          exists (set_state RUNNABLE p). rewrite Hpar. split; [by right|done].
        + apply H2. cbn. by rewrite list_lookup_insert_ne.
      - inv_ret. split; [|done]. split; [done|]. intros j q Hq. exists q. split; [done|].
        destruct (Nat.eqb_spec j i) as [->|]; [|by left]. assert (q = p) as -> by congruence.
        exists p. rewrite Hpar. by split; [left|]. }
    destruct H1 as (H1 & F1 & C1). apply IH in Hr as (H2 & F2 & C2); [|by rewrite (proj1 H1)].
    split; [|split; [by eapply frame_trans|by eapply ctl_trans]].
    eapply slotwise_trans; [|exact H1|exact H2]. intros j p q q' R1 R2. cbv beta in R1, R2.
    destruct (Nat.eqb_spec j i) as [->|Hne].
    + rewrite (proj2 (Nat.leb_gt (S i) i)) in R2 by lia. cbn in R2.
      rewrite Nat.leb_refl, (proj2 (Nat.ltb_lt i (i + S n))) by lia. cbn.
      destruct R1 as (w & W & ->). destruct (bool_decide (p_parent p = Some cur)) eqn:Hpar.
      * destruct R2 as [->|[Hs ->]]; [exists w; by rewrite Hpar|].
        exists (set_state RUNNABLE w). rewrite Hpar. split; [|done]. eapply woken_trans; [exact W|]. by right.
      * exists q'. rewrite Hpar. split; [|done]. by eapply woken_trans.
    + assert (E : ((S i <=? j) && (j <? S i + n))%nat = ((i <=? j) && (j <? i + S n))%nat).
      { destruct (Nat.leb_spec (S i) j), (Nat.leb_spec i j), (Nat.ltb_spec j (S i + n)),
          (Nat.ltb_spec j (i + S n)); done || lia. }
      rewrite E in R2. destruct (_ && _); [|by eapply woken_trans]. destruct R2 as (w & W & ->). exists w. rewrite (woken_parent _ _ R1). split; [by eapply woken_trans|done].
Qed.

(** Each part of [exit] but the last changes only files and directory of the process. *)
Definition same_but_files (p p' : proc) : Prop := exists fs d, p' = set_cwd d (set_ofile fs p).

Lemma same_but_files_refl p : same_but_files p p.
Proof using. exists (p_ofile p), (p_cwd p). by destruct p. Qed.

Lemma close_file_does cur p j :
  p_state p <> SLEEPING -> does (F:=F) cur p (close_file cur j) (fun _ p' => same_but_files p p').
Proof using.
  intros Hs. unfold close_file. slot1. destruct (p_ofile p !! j) as [[f|]|]; [|apply does_ret, same_but_files_refl|apply does_ub].
  slot1; [done|]. apply does_upd. exists (<[j := None]> (p_ofile p)), (p_cwd p). by destruct p.
Qed.

Lemma exit_at_does pc cur p :
  p_state p <> SLEEPING -> does (F:=F) cur p (exit_at pc cur) (fun _ p' => same_but_files p p').
Proof using.
  intros Hs. destruct pc as [j| | | | |]; cbn [exit_at].
  - eapply does_bind; [by apply close_file_does|]. intros ? p' Hp'. by apply does_ret.
  - slot1; [done|]. apply does_ret, same_but_files_refl.
  - unfold exit_cwd. eapply (does_bind cur p _ _ (fun _ p' => p' = p)); [|intros _ ? ->; apply does_ret, same_but_files_refl].
    slot1. destruct (p_cwd p); [by apply does_files|apply does_ub].
  - slot1; [done|]. apply does_ret, same_but_files_refl.
  - slot1. apply does_ret. exists (p_ofile p), None. by destruct p.
  - apply does_ub.
Qed.

(** What [exit] makes of the exiting process itself. *)
Definition exited (cur : nat) (init : option nat) (p p' : proc) : Prop :=
  p_state p' = ZOMBIE /\ p_pid p' = p_pid p /\ p_chan p' = p_chan p /\ p_kstack p' = p_kstack p /\
  p_pgdir p' = p_pgdir p /\ p_killed p' = p_killed p /\
  p_parent p' = (if bool_decide (p_parent p = Some cur) then init else p_parent p).

Lemma touched_slotwise i p p' k k' :
  touched i p p' k k' -> slotwise (fun j q q' => if (j =? i)%nat then q = p /\ q' = p' else woken q q') k k'.
Proof using.
  intros T. split; [apply T|]. intros j q Hq. destruct (Nat.eqb_spec j i) as [->|Hne].
  - exists p'. split; [apply T|]. split; [|done]. pose proof (t_old _ _ _ _ _ T). congruence.
  - by apply (t_oth _ _ _ _ _ T).
Qed.

Lemma abandon_run cur init k r k' :
  length (k_procs k) = NPROC -> abandon_children cur init k = Ret r k' ->
  slotwise (fun _ => orphaned cur init) k k' /\ frame k k' /\ ctl k k'.
Proof using.
  intros Hl Hr. apply exit_loop_run in Hr as ((Hlen & Hs) & Hf & Hc); [|done]. split; [|done].
  split; [done|]. intros j q Hq. destruct (Hs j q Hq) as (q' & Hq' & HR). exists q'. split; [done|].
  apply lookup_lt_Some in Hq. by rewrite (proj2 (Nat.ltb_lt j (0 + NPROC))) in HR by lia.
Qed.

Lemma woken_orphaned cur init p q r : woken p q -> orphaned cur init q r -> orphaned cur init p r.
Proof using.
  intros W (w & Hw & ->). exists w. rewrite (woken_parent _ _ W). split; [by eapply woken_trans|done].
Qed.

(** The changes of [exit_last] to the slots, put together. *)
Lemma exit_slots cur init p p3 k k1 k2 :
  p_state p = RUNNING -> k_procs k !! cur = Some p ->
  slotwise (fun _ => woken) k k1 -> slotwise (fun _ => orphaned cur init) k1 k2 ->
  k_procs k2 !! cur = Some p3 ->
  slotwise (fun j q q' => if (j =? cur)%nat then exited cur init q q' else orphaned cur init q q') k
    (set_procs (<[cur := set_state ZOMBIE p3]> (k_procs k2)) k2).
Proof using.
  intros Hs Hp [L1 W1] [L2 W2] Hp3. apply lookup_lt_Some in Hp3 as Hlt.
  split; [cbn; by rewrite length_insert, L2, L1|]. intros j q Hq. cbn.
  destruct (Nat.eqb_spec j cur) as [->|Hne].
  - exists (set_state ZOMBIE p3). rewrite list_lookup_insert_eq by done. split; [done|].
    assert (q = p) as -> by congruence.
    destruct (W1 _ _ Hq) as (q1 & Hq1 & [->|[Hx _]]); [|congruence].
    destruct (W2 _ _ Hq1) as (q2 & Hq2 & w & [->|[Hx _]] & E); [|congruence].
    assert (p3 = q2) as -> by congruence. rewrite E. cbn.
    destruct (bool_decide (p_parent p = Some cur)) eqn:Hpar; unfold exited; cbn; rewrite Hpar; by split_and!.
  - rewrite list_lookup_insert_ne by done. destruct (W1 j q Hq) as (q1 & Hq1 & R1).
    destruct (W2 j q1 Hq1) as (q2 & Hq2 & R2). exists q2. split; [done|]. by eapply woken_orphaned.
Qed.

(** The last part of [exit]: the process is a zombie, its children belong to [init], and
    others at most were woken. *)
Lemma exit_last_run cur p k r k' :
  length (k_procs k) = NPROC -> k_procs k !! cur = Some p -> p_state p = RUNNING -> exit_last c cur k = Ret r k' ->
  held k = [] /\ held k' = [LkPtable] /\ k_nextpid k' = k_nextpid k /\ frame k k' /\
  slotwise (fun j q q' =>
    if (j =? cur)%nat then exited cur (k_initproc k) q q' else orphaned cur (k_initproc k) q q') k k'.
Proof using.
  intros Hl Hp Hs Hr. unfold exit_last in Hr. inv_bind Hr. apply acquire_run in Hrun as [Hnp ->].
  set (k0 := with_held _ k) in Hr. inv_bind Hr. rewrite (get_proc_eq cur k0 p Hp) in Hrun. injection Hrun as <- <-.
  inv_bind Hr. apply wakeup1_opt_run in Hrun as (W1 & F1 & C1); [|done]. rewrite bind_gets, (fr_init _ _ F1) in Hr.
  change (k_initproc k0) with (k_initproc k) in Hr.
  inv_bind Hr. apply abandon_run in Hrun as (W2 & F2 & C2); [|by rewrite (proj1 W1)].
  inv_bind Hr. apply upd_proc_run in Hrun as (p3 & Hp3 & ->). apply sched_run in Hr as (-> & Hh & _).
  assert (Hh' : held k = []).
  { change (held s0 = [LkPtable]) in Hh. rewrite (proj2 C2), (proj2 C1) in Hh.
    change (LkPtable :: held k = [LkPtable]) in Hh. by injection Hh. }
  split; [done|]. split; [done|]. split; [|split].
  - cbn. destruct C1 as [N1 _], C2 as [N2 _]. rewrite N2, N1. done.
  - apply (frame_trans _ k0); [done|]. apply (frame_trans _ s); [exact F1|]. by destruct F2.
  - exact (exit_slots cur (k_initproc k) p p3 k0 s s0 Hs Hp W1 W2 Hp3).
Qed.

(** One part of [fork].  Before [fork_fill] the child has no parent; it has a stack from
    [FkFrame] on and a page directory from [FkFill] on. *)
Definition orphan_pc (pc : fork_pc) : bool :=
  match pc with FkStack | FkFree | FkFrame | FkCopy | FkUndo | FkFill => true | _ => false end.
Definition stack_pc (pc : fork_pc) : bool := match pc with FkStack | FkFree => false | _ => true end.
Definition pgdir_pc (pc : fork_pc) : bool := negb (orphan_pc pc) || match pc with FkFill => true | _ => false end.

Record fork_inv (pc : fork_pc) (cur : nat) (p : proc) : Prop := {
  fi_state : p_state p = EMBRYO;
  fi_parent : p_parent p = if orphan_pc pc then None else Some cur;
  fi_stack : stack_pc pc = true -> p_kstack p <> 0;
  fi_pgdir : pgdir_pc pc = true -> p_pgdir p <> 0
}.

(** The child after the last part: there, or gone again. *)
Definition fork_end (cur : nat) (pid : Z) (r : Z) (p' : proc) : Prop :=
  r = -1 /\ p_state p' = UNUSED /\ p_parent p' = None \/
  r = pid /\ p_state p' = RUNNABLE /\ p_parent p' = Some cur /\ p_kstack p' <> 0 /\ p_pgdir p' <> 0.

Lemma fork_at_does copy pc cur np p :
  (forall d sz, keeps_held (copy d sz)) -> fork_inv pc cur p ->
  does np p (fork_at kend trapret forkret copy pc cur np) (fun r p' => p_pid p' = p_pid p /\
    match r with inl pc' => fork_inv pc' cur p' | inr v => fork_end cur (p_pid p) v p' end).
Proof using.
  intros Hc [Hst Hpar Hks Hpg]. assert (Hns : p_state p <> SLEEPING) by congruence.
  destruct pc as [| | | | | |j| | |]; cbn [fork_at orphan_pc stack_pc pgdir_pc negb orb] in *.
  - eapply does_bind; [apply new_kstack_does|]. intros ks ? ->. apply does_ret. split; [done|].
    destruct (Z.eqb_spec ks 0); split; done.
  - unfold free_slot. slot1. apply does_ret. split; [done|]. left. by split_and!.
  - eapply does_bind; [apply stack_frame_does|]. intros _ ? (tf & cx & ->). apply does_ret. split; [done|]. split; [done|done|auto|done].
  - eapply does_bind; [by apply fork_copy_does|]. intros ok ? (d & -> & ->). apply does_ret. split; [done|].
    destruct (Z.eqb_spec d 0); split; cbn; auto; done.
  - eapply does_bind; [apply fork_undo_does|]. intros _ ? ->. apply does_ret. split; [done|]. split; done.
  - eapply does_bind; [apply fork_fill_does|]. intros _ ? (sz & ->). apply does_ret. split; [done|]. split; cbn; auto.
  - eapply does_bind; [by apply dup_file_does|]. intros _ ? (fs & ->). apply does_ret. split; [done|].
    destruct (_ <? _)%nat; split; cbn; auto.
  - eapply does_bind; [by apply fork_cwd_does|]. intros _ ? (d & ->). apply does_ret. split; [done|]. split; cbn; auto.
  - eapply does_bind; [apply fork_name_does|]. intros _ ? (nm & ->). apply does_ret. split; [done|]. split; cbn; auto.
  - eapply does_bind; [apply publish_does|]. intros r ? [-> ->]. apply does_ret. split; [done|]. right. split_and!; auto.
Qed.

(** *** The parts make up [fork] and [exit] *)

Lemma bind_same {A B} (m : M (kern F) A) (f g : A -> M (kern F) B) k :
  (forall a k', f a k' = g a k') -> bind m f k = bind m g k.
Proof using. intros Hfg. unfold bind. by destruct (m k). Qed.

(** The parts of [fork] from [pc] on, with nothing in between. *)
Fixpoint fork_parts (copy : Z -> Z -> M machine Z) (fuel : nat) (pc : fork_pc) (cur np : nat) : M (kern F) Z :=
  match fuel with
  | O => ub "fork"
  | S fuel =>
    r <- fork_at kend trapret forkret copy pc cur np ;;
    match r with inl pc' => fork_parts copy fuel pc' cur np | inr v => ret v end
  end.

Lemma fork_parts_S copy n pc cur np k :
  fork_parts copy (S n) pc cur np k =
  match pc with
  | FkStack => ks <- new_kstack np ;; fork_parts copy n (if ks =? 0 then FkFree else FkFrame) cur np
  | FkFree => free_slot np ;;; ret (-1)
  | FkFrame => stack_frame trapret forkret np ;;; fork_parts copy n FkCopy cur np
  | FkCopy => ok <- fork_copy copy cur np ;; fork_parts copy n (if ok : bool then FkFill else FkUndo) cur np
  | FkUndo => fork_undo kend np ;;; fork_parts copy n FkFree cur np
  | FkFill => fork_fill cur np ;;; fork_parts copy n (FkFile 0) cur np
  | FkFile j => dup_file cur np j ;;; fork_parts copy n (if (S j <? NOFILE)%nat then FkFile (S j) else FkCwd) cur np
  | FkCwd => fork_cwd cur np ;;; fork_parts copy n FkName cur np
  | FkName => fork_name cur np ;;; fork_parts copy n FkPublish cur np
  | FkPublish => publish np
  end k.
Proof using.
  destruct pc; cbn [fork_parts fork_at]; unfold bind, ret; by match goal with |- context [match ?m k with _ => _ end] => destruct (m k) end.
Qed.

Lemma fork_parts_files copy cur np n fuel : forall j k, (j + S n = NOFILE)%nat ->
  fork_parts copy (S n + fuel) (FkFile j) cur np k = (dup_files cur np (S n) j ;;; fork_parts copy fuel FkCwd cur np) k.
Proof using.
  induction n as [|n IH]; intros j k Hj; cbn [Nat.add]; rewrite fork_parts_S.
  - rewrite (proj2 (Nat.ltb_ge _ _)) by lia. cbn [dup_files]. by rewrite bind_assoc.
  - rewrite (proj2 (Nat.ltb_lt _ _)) by lia. change (dup_files cur np (S (S n)) j) with (dup_file cur np j ;;; dup_files cur np (S n) (S j)).
    rewrite bind_assoc. apply bind_same. intros _ k1. apply IH. lia.
Qed.

Lemma fork_parts_eq copy k :
  fork_with kend trapret forkret c copy k = (cur <- curproc c ;; np <- alloc_slot ;; fork_parts copy 23 FkStack cur np) k.
Proof using.
  unfold fork_with. apply bind_same. intros cur k1. unfold allocproc. rewrite bind_assoc. apply bind_same. intros np k2.
  rewrite fork_parts_S, bind_assoc. apply bind_same. intros ks k3. destruct (ks =? 0); rewrite fork_parts_S, bind_assoc; apply bind_same; intros _ k4; [done|].
  change (bind (ret (Some np)) ?f k4) with (f (Some np) k4). cbv beta iota. rewrite fork_parts_S. apply bind_same. intros ok k5. destruct ok; cbn [negb]; rewrite fork_parts_S.
  - apply bind_same. intros _ k6. change 19%nat with (16 + 3)%nat. rewrite (fork_parts_files copy cur np 15 3 0 k6 eq_refl). apply bind_same. intros _ k7.
    rewrite fork_parts_S. apply bind_same. intros _ k8. rewrite fork_parts_S. apply bind_same. intros _ k9. by rewrite fork_parts_S.
  - apply bind_same. intros _ k6. by rewrite fork_parts_S.
Qed.

(** The parts of [exit] from [pc] on. *)
Fixpoint exit_parts (fuel : nat) (pc : exit_pc) (cur : nat) : M (kern F) unit :=
  match fuel with
  | O => ub "exit"
  | S fuel => match pc with XLast => exit_last c cur | _ => pc' <- exit_at pc cur ;; exit_parts fuel pc' cur end
  end.

Lemma exit_parts_S n pc cur k :
  exit_parts (S n) pc cur k =
  match pc with
  | XFile j => close_file cur j ;;; exit_parts n (if (S j <? NOFILE)%nat then XFile (S j) else XBegin) cur
  | XBegin => files begin_op ;;; exit_parts n XCwd cur
  | XCwd => exit_cwd cur ;;; exit_parts n XEnd cur
  | XEnd => files end_op ;;; exit_parts n XClear cur
  | XClear => upd_proc cur (set_cwd None) ;;; exit_parts n XLast cur
  | XLast => exit_last c cur
  end k.
Proof using.
  destruct pc; cbn [exit_parts exit_at]; try done; unfold bind, ret; by match goal with |- context [match ?m k with _ => _ end] => destruct (m k) end.
Qed.

Lemma exit_parts_files cur n fuel : forall j k, (j + S n = NOFILE)%nat ->
  exit_parts (S n + fuel) (XFile j) cur k = (close_files cur (S n) j ;;; exit_parts fuel XBegin cur) k.
Proof using.
  induction n as [|n IH]; intros j k Hj; cbn [Nat.add]; rewrite exit_parts_S.
  - rewrite (proj2 (Nat.ltb_ge _ _)) by lia. cbn [close_files]. by rewrite bind_assoc.
  - rewrite (proj2 (Nat.ltb_lt _ _)) by lia. change (close_files cur (S (S n)) j) with (close_file cur j ;;; close_files cur (S n) (S j)).
    rewrite bind_assoc. apply bind_same. intros _ k1. apply IH. lia.
Qed.

Lemma exit_parts_eq k :
  exit c k = (cur <- curproc c ;; init <- gets k_initproc ;;
    if bool_decide (Some cur = init) then panic "init exiting" else exit_parts 21 (XFile 0) cur) k.
Proof using.
  unfold exit. apply bind_same. intros cur k1. apply bind_same. intros init k2. destruct (bool_decide _); [done|].
  unfold exit_files. change 21%nat with (16 + 5)%nat. rewrite (exit_parts_files cur 15 5 0 k2 eq_refl), bind_assoc.
  apply bind_same. intros _ k3. rewrite exit_parts_S, bind_assoc. apply bind_same. intros _ k4. rewrite exit_parts_S, bind_assoc.
  apply bind_same. intros _ k5. rewrite exit_parts_S, bind_assoc. apply bind_same. intros _ k6. rewrite exit_parts_S.
  apply bind_same. intros _ k7. by rewrite exit_parts_S.
Qed.
End Ops.

(** ** The scheduler *)

Lemma random_nonneg fuel max s x s' : random_at_most fuel max s = Ret x s' -> 0 <= x.
Proof.
  unfold random_at_most. intros Hr. inv_bind Hr. inv_ret.
  assert (Hx : 0 <= r).
  { revert s Hrun. induction fuel as [|n IH]; intros s; cbn [draw]; [done|].
    destruct (genrand_range s) as (y & s2 & E & Hy). rewrite (bind_ret _ _ _ _ _ E).
    destruct (_ <=? y); [apply IH|]. intros [= <- _]. lia. }
  assert (Hb : 0 <= bin_size max).
  { unfold bin_size. destruct (Z.eq_dec (num_bins max) 0) as [->|Hne]; [by rewrite Z.div_0_r|].
    apply Z.div_pos; [done|]. unfold num_bins in *. pose proof (u32_bound (u32 max + 1)). lia. }
  destruct (Z.eq_dec (bin_size max) 0) as [->|Hne]; [by rewrite Z.div_0_r|]. apply Z.div_pos; lia.
Qed.

Section Scheduler.
Context {F : Type}.
Context (ts_addr : nat -> Z) (c : nat).
Implicit Types k : kern F.

Definition cpu_proc k (c : nat) : option nat := cp_proc (k_cpus k c).

(** [switchuvm] touches this processor's descriptors and CR3 only. *)
Lemma switchuvm_run i k r k' :
  switchuvm ts_addr c i k = Ret r k' ->
  k_procs k' = k_procs k /\ k_nextpid k' = k_nextpid k /\ k_initproc k' = k_initproc k /\ held k' = held k /\
  (forall d, cpu_proc k' d = cpu_proc k d) /\
  exists p, k_procs k !! i = Some p /\ p_kstack p <> 0 /\ p_pgdir p <> 0.
Proof using.
  intros Hr. unfold switchuvm in Hr. inv_bind Hr. unfold get_proc in Hrun.
  destruct (k_procs k !! i) as [p|] eqn:Hp; [|done]. injection Hrun as <- <-.
  destruct (Z.eqb_spec (p_kstack p) 0); [done|]. destruct (Z.eqb_spec (p_pgdir p) 0); [done|].
  cbv zeta in Hr. unfold upd_percpu in Hr. rewrite bind_modify in Hr. inv_bind Hr.
  apply curproc_run in Hrun as [Hcur ->]. inv_bind Hr. unfold get_proc in Hrun.
  destruct (_ !! r0) as [q|]; [|done]. injection Hrun as <- <-. rewrite bind_modify in Hr.
  apply mach_run in Hr as (s' & Hm & ->). unfold lcr3, modify in Hm. injection Hm as _ <-.
  split_and!; try done; [|by exists p]. intros d. unfold cpu_proc. cbn.
  destruct (decide (d = c)) as [->|Hne]; [by rewrite !fn_lookup_insert|by rewrite !fn_lookup_insert_ne].
Qed.

(** One slot of the scheduler's loop: either the process was not chosen and the table
    is unchanged, or it was runnable and now runs here. *)
Lemma scheduler_slot_run cfg fuel i k b k' :
  scheduler_slot cfg ts_addr c fuel i k = Ret b k' ->
  k_nextpid k' = k_nextpid k /\ k_initproc k' = k_initproc k /\ held k' = held k /\
  (forall d, cpu_proc k' d = if (d =? c)%nat && b then Some i else cpu_proc k d) /\
  exists p, k_procs k !! i = Some p /\
  match b with
  | true => p_state p = RUNNABLE /\ p_kstack p <> 0 /\ p_pgdir p <> 0 /\ cfg = DEFAULT /\
            k_procs k' = <[i := set_state RUNNING p]> (k_procs k)
  | false => k_procs k' = k_procs k /\ (cfg = DEFAULT -> p_state p <> RUNNABLE)
  end.
Proof using.
  intros Hr. unfold scheduler_slot in Hr. inv_bind Hr. unfold get_proc in Hrun.
  destruct (k_procs k !! i) as [p|] eqn:Hp; [|done]. injection Hrun as <- <-.
  destruct (decide (p_state p = RUNNABLE)) as [Hs|Hs].
  2:{ rewrite bool_decide_eq_false_2 in Hr by done. cbn [negb] in Hr. inv_ret.
      do 3 (split; [done|]). split; [intros d; by rewrite andb_false_r|by exists p]. }
  rewrite bool_decide_eq_true_2 in Hr by done. cbn [negb] in Hr. inv_bind Hr.
  assert (Hd : cfg = DEFAULT /\ r = -1 /\ s = k \/ 0 <= r /\ cfg = LOTTERY /\ exists g, s = set_rng g k).
  { destruct cfg; [inv_ret; by left|right]. unfold totalTickets in Hrun. rewrite bind_gets in Hrun.
    unfold zoom in Hrun. destruct (random_at_most _ _ _) as [x g|e|ch g|e] eqn:Hx; [|done..].
    injection Hrun as <- <-. split; [by eapply random_nonneg|]. split; [done|]. by exists g. }
  destruct Hd as [(-> & -> & ->)|(Hr0 & -> & g & ->)].
  - cbn [Z.leb Z.compare] in Hr. unfold upd_percpu in Hr. rewrite bind_modify in Hr. inv_bind Hr.
    apply switchuvm_run in Hrun0 as (E1 & E2 & E3 & E4 & E5 & p' & Hp' & Hks & Hpg). inv_bind Hr.
    apply upd_proc_run in Hrun0 as (p1 & Hp1 & ->). inv_ret. cbn in E1, E2, E3, E4, Hp'. rewrite E1 in Hp1.
    assert (p1 = p) as -> by congruence. assert (p' = p) as -> by congruence.
    do 3 (split; [done|]). split.
    + intros d. rewrite andb_true_r. unfold cpu_proc in *. cbn. rewrite E5. cbn.
      destruct (Nat.eqb_spec d c) as [->|Hne]; [by rewrite fn_lookup_insert|by rewrite fn_lookup_insert_ne].
    + exists p. split; [done|]. split_and!; try done. cbn. by rewrite E1.
  - rewrite (proj2 (Z.leb_le 0 r)) in Hr by done. inv_ret.
    do 3 (split; [done|]). split; [intros d; by rewrite andb_false_r|by exists p].
Qed.
End Scheduler.
