(* ===== verification/Sched.v ===== *)
(** * Processes on several processors

    The operations of proc.c composed into the system they run in.  Each processor
    is in its scheduler loop or runs a process; a step is what one processor does
    between two points at which others can intervene, which [ptable.lock] makes the
    critical sections of proc.c.  The invariant ties together who runs what, who
    holds [ptable.lock], parents, pids and the resources of a process. *)

From stdpp Require Import functions.
From S2P Require Import Prelude Mmu Mem Cstring Kalloc Vm Rand Proc ProcSpec ProcOps.
#[local] Open Scope Z_scope.

(** ** The table *)

Definition alive (st : procstate) : Prop := st = SLEEPING \/ st = RUNNABLE \/ st = RUNNING.

Lemma alive_not st : alive st -> st <> UNUSED /\ st <> EMBRYO /\ st <> ZOMBIE.
Proof. by intros [->|[->| ->]]. Qed.

(** Process [i] is there and not a zombie. *)
Definition lives (ps : list proc) (i : nat) : Prop := exists p, ps !! i = Some p /\ alive (p_state p).

(** A process that has been made known: not free, and not still being made by [fork]. *)
Definition settled (st : procstate) : Prop := st <> UNUSED /\ st <> EMBRYO.

Record table_ok (ps : list proc) (init : option nat) (nextpid : Z) : Prop := {
  to_len : length ps = NPROC;
  to_unused : forall i p, ps !! i = Some p -> p_state p = UNUSED -> p_parent p = None;
  to_parent : forall i p q, ps !! i = Some p -> p_parent p = Some q -> lives ps q;
  to_orphan : forall i p, ps !! i = Some p -> settled (p_state p) -> p_parent p = None -> init = Some i;
  to_init : exists i, init = Some i /\ lives ps i;
  to_pid : forall i p, ps !! i = Some p -> p_state p <> UNUSED -> 0 < p_pid p < nextpid;
  to_unique : forall i j p q, ps !! i = Some p -> ps !! j = Some q -> p_state p <> UNUSED -> p_state q <> UNUSED ->
    p_pid p = p_pid q -> i = j;
  to_chan : forall i p, ps !! i = Some p -> p_state p = SLEEPING -> p_chan p <> None;
  to_mem : forall i p, ps !! i = Some p -> settled (p_state p) -> p_kstack p <> 0 /\ p_pgdir p <> 0
}.

(** A change that is no birth and no death. *)
Record same_life (p p' : proc) : Prop := {
  sl_pid : p_pid p' = p_pid p;
  sl_parent : p_parent p' = p_parent p;
  sl_kstack : p_kstack p' = p_kstack p;
  sl_pgdir : p_pgdir p' = p_pgdir p;
  sl_state : p_state p' = p_state p \/ alive (p_state p) /\ alive (p_state p');
  sl_chan : p_state p' = SLEEPING -> p_chan p' <> None \/ p_state p = SLEEPING /\ p_chan p' = p_chan p
}.

Lemma same_life_refl p : same_life p p.
Proof. split; auto. Qed.

Lemma same_life_unused p p' : same_life p p' -> p_state p' <> UNUSED -> p_state p <> UNUSED.
Proof. intros H Hn Hu. destruct (sl_state _ _ H) as [E|[Ha _]]; [congruence|]. by apply alive_not in Ha as []. Qed.

Lemma same_life_settled p p' : same_life p p' -> settled (p_state p') -> settled (p_state p).
Proof.
  intros H [Hn He]. split; [by eapply same_life_unused|]. intros Hu.
  destruct (sl_state _ _ H) as [E|[Ha _]]; [congruence|]. by apply alive_not in Ha as (_ & ? & _).
Qed.

Lemma same_life_alive p p' : same_life p p' -> alive (p_state p) -> alive (p_state p').
Proof. intros H Ha. destruct (sl_state _ _ H) as [->|[_ ?]]; done. Qed.

Lemma woken_same_life p p' : woken p p' -> same_life p p'.
Proof.
  intros [->|[Hs ->]]; [apply same_life_refl|]. split; cbn; try done. right. rewrite Hs. unfold alive. auto.
Qed.

(** Two tables of the same length whose slots are related one by one. *)
Definition slots (R : nat -> proc -> proc -> Prop) (ps ps' : list proc) : Prop :=
  length ps' = length ps /\ forall j q, ps !! j = Some q -> exists q', ps' !! j = Some q' /\ R j q q'.

Lemma slots_back R ps ps' j q' :
  slots R ps ps' -> ps' !! j = Some q' -> exists q, ps !! j = Some q /\ R j q q'.
Proof.
  intros [L H] Hq. apply lookup_lt_Some in Hq as Hlt. rewrite L in Hlt.
  destruct (lookup_lt_is_Some_2 ps j Hlt) as [q Hj]. destruct (H j q Hj) as (q2 & E & HR). simplify_eq. eauto.
Qed.

Lemma table_ok_same ps ps' init nextpid :
  table_ok ps init nextpid -> slots (fun _ => same_life) ps ps' -> table_ok ps' init nextpid.
Proof.
  intros Ht Hs. assert (Hb : forall i p', ps' !! i = Some p' -> exists p, ps !! i = Some p /\ same_life p p').
  { intros i p' Hp'. exact (slots_back _ _ _ i p' Hs Hp'). }
  assert (Hlv : forall i, lives ps i -> lives ps' i).
  { intros i (p & Hp & Ha). destruct (proj2 Hs i p Hp) as (p' & Hp' & HR). exists p'. split; [done|].
    by eapply same_life_alive. }
  split.
  - rewrite (proj1 Hs). apply Ht.
  - intros i p' Hp' Hu. destruct (Hb i p' Hp') as (p & Hp & HR). rewrite (sl_parent _ _ HR).
    destruct (sl_state _ _ HR) as [E|[_ Ha]]; [apply (to_unused _ _ _ Ht i p Hp); congruence|].
    by apply alive_not in Ha as (? & _).
  - intros i p' q Hp' Hq. destruct (Hb i p' Hp') as (p & Hp & HR). rewrite (sl_parent _ _ HR) in Hq.
    by eapply Hlv, (to_parent _ _ _ Ht).
  - intros i p' Hp' Hu Hq. destruct (Hb i p' Hp') as (p & Hp & HR). rewrite (sl_parent _ _ HR) in Hq.
    eapply (to_orphan _ _ _ Ht); [exact Hp| |done]. by eapply same_life_settled.
  - destruct (to_init _ _ _ Ht) as (i & Hi & Hl). eauto.
  - intros i p' Hp' Hu. destruct (Hb i p' Hp') as (p & Hp & HR). rewrite (sl_pid _ _ HR).
    eapply (to_pid _ _ _ Ht); [exact Hp|]. by eapply same_life_unused.
  - intros i j p' q' Hp' Hq' Hu Hu' E. destruct (Hb i p' Hp') as (p & Hp & HR).
    destruct (Hb j q' Hq') as (q & Hq & HR'). rewrite (sl_pid _ _ HR), (sl_pid _ _ HR') in E.
    eapply (to_unique _ _ _ Ht); [exact Hp|exact Hq| | |done]; by eapply same_life_unused.
  - intros i p' Hp' Hsl. destruct (Hb i p' Hp') as (p & Hp & HR).
    destruct (sl_chan _ _ HR Hsl) as [?|[Hs' ->]]; [done|]. by eapply (to_chan _ _ _ Ht).
  - intros i p' Hp' Hu. destruct (Hb i p' Hp') as (p & Hp & HR). rewrite (sl_kstack _ _ HR), (sl_pgdir _ _ HR).
    eapply (to_mem _ _ _ Ht); [exact Hp|]. by eapply same_life_settled.
Qed.

(** One slot changes, the others live on. *)
Definition one_slot (i : nat) (p p' : proc) : nat -> proc -> proc -> Prop :=
  fun j q q' => if (j =? i)%nat then q = p /\ q' = p' else same_life q q'.

Lemma touched_one_slot {F} i p p' (k k' : kern F) :
  touched i p p' k k' -> slots (one_slot i p p') (k_procs k) (k_procs k').
Proof.
  intros T. split; [apply T|]. intros j q Hq. unfold one_slot. destruct (Nat.eqb_spec j i) as [->|Hne].
  - exists p'. split; [apply T|]. split; [|done]. pose proof (t_old _ _ _ _ _ T). congruence.
  - destruct (t_oth _ _ _ _ _ T j q Hne Hq) as (q' & Hq' & W). exists q'. split; [done|]. by apply woken_same_life.
Qed.

Lemma insert_one_slot i p p' ps : ps !! i = Some p -> slots (one_slot i p p') ps (<[i := p']> ps).
Proof.
  intros Hp. apply lookup_lt_Some in Hp as Hlt. split; [by rewrite length_insert|]. intros j q Hq. unfold one_slot.
  destruct (Nat.eqb_spec j i) as [->|Hne].
  - exists p'. rewrite list_lookup_insert_eq by done. split; [done|]. split; [congruence|done].
  - exists q. rewrite list_lookup_insert_ne by done. split; [done|apply same_life_refl].
Qed.

Lemma one_slot_same i p p' ps ps' :
  slots (one_slot i p p') ps ps' -> same_life p p' -> slots (fun _ => same_life) ps ps'.
Proof.
  intros [L H] Hl. split; [done|]. intros j q Hq. destruct (H j q Hq) as (q' & Hq' & HR). exists q'. split; [done|].
  unfold one_slot in HR. destruct (j =? i)%nat; [|done]. by destruct HR as [-> ->].
Qed.

(** What is needed of a slot that changes otherwise: a birth, with a new pid, or a step on
    the way to one, or a burial. *)
Lemma table_ok_slot i p p' ps ps' init nextpid nextpid' :
  table_ok ps init nextpid -> ps !! i = Some p -> slots (one_slot i p p') ps ps' -> nextpid <= nextpid' ->
  ~ alive (p_state p) -> (p_state p' = UNUSED -> p_parent p' = None) ->
  (forall q, p_parent p' = Some q -> lives ps q) -> p_state p' <> SLEEPING ->
  (p_state p' <> UNUSED -> p_state p <> UNUSED /\ p_pid p' = p_pid p \/ nextpid <= p_pid p' < nextpid' /\ 0 < p_pid p') ->
  (settled (p_state p') -> p_parent p' <> None /\ p_kstack p' <> 0 /\ p_pgdir p' <> 0) ->
  table_ok ps' init nextpid'.
Proof.
  intros Ht Hi Hs Hle Hna Hup Hpar Hnsl Hpid Hset. assert (Hlv : forall j, lives ps j -> lives ps' j).
  { intros j (q & Hq & Ha). destruct (proj2 Hs j q Hq) as (q' & Hq' & HR). exists q'. split; [done|].
    unfold one_slot in HR. destruct (Nat.eqb_spec j i) as [->|]; [destruct HR as [-> ->]; done|].
    by eapply same_life_alive. }
  assert (Hb : forall j q', ps' !! j = Some q' -> exists q, ps !! j = Some q /\ one_slot i p p' j q q').
  { intros j q'. by apply slots_back. }
  unfold one_slot in Hb.
  assert (Hold : forall j q', j <> i -> ps' !! j = Some q' -> p_state q' <> UNUSED ->
    exists q, ps !! j = Some q /\ p_state q <> UNUSED /\ p_pid q' = p_pid q).
  { intros j q' Hj Hq' Hu. destruct (Hb j q' Hq') as (q & Hq & HR). rewrite (proj2 (Nat.eqb_neq _ _) Hj) in HR.
    exists q. split; [done|]. split; [by eapply same_life_unused|apply HR]. }
  assert (Hdiff : forall j q', j <> i -> ps' !! j = Some q' -> p_state q' <> UNUSED -> p_state p' <> UNUSED -> p_pid q' <> p_pid p').
  { intros j q' Hj Hq' Hu Hu' E. destruct (Hold j q' Hj Hq' Hu) as (q & Hq & Huq & Eq). destruct (Hpid Hu') as [[Hup' Ep]|[Hrange _]].
    - apply Hj, (to_unique _ _ _ Ht j i q p); [done|done|done|done|congruence].
    - pose proof (to_pid _ _ _ Ht j q Hq Huq). lia. }
  split.
  - rewrite (proj1 Hs). apply Ht.
  - intros j q' Hq' Hu. destruct (Hb j q' Hq') as (q & Hq & HR). destruct (j =? i)%nat; [destruct HR as [_ ->]; auto|].
    rewrite (sl_parent _ _ HR). destruct (sl_state _ _ HR) as [E|[_ Ha]]; [apply (to_unused _ _ _ Ht j q Hq); congruence|].
    by apply alive_not in Ha as (? & _).
  - intros j q' r Hq' Hr. destruct (Hb j q' Hq') as (q & Hq & HR). apply Hlv.
    destruct (j =? i)%nat; [destruct HR as [_ ->]; auto|].
    rewrite (sl_parent _ _ HR) in Hr. by eapply (to_parent _ _ _ Ht).
  - intros j q' Hq' Hu Hr. destruct (Hb j q' Hq') as (q & Hq & HR).
    destruct (j =? i)%nat; [destruct HR as [_ ->]; by destruct (Hset Hu)|].
    rewrite (sl_parent _ _ HR) in Hr. eapply (to_orphan _ _ _ Ht); [exact Hq| |done]. by eapply same_life_settled.
  - destruct (to_init _ _ _ Ht) as (j & Hj & Hl). eauto.
  - intros j q' Hq' Hu. destruct (decide (j = i)) as [->|Hj].
    + destruct (Hb i q' Hq') as (q & Hq & HR). rewrite Nat.eqb_refl in HR. destruct HR as [-> ->].
      destruct (Hpid Hu) as [[Hup' ->]|]; [|lia]. pose proof (to_pid _ _ _ Ht i p Hi Hup'). lia.
    + destruct (Hold j q' Hj Hq' Hu) as (q & Hq & Huq & ->). pose proof (to_pid _ _ _ Ht j q Hq Huq). lia.
  - intros j j2 q' q2' Hq' Hq2' Hu Hu2 E.
    assert (Hp' : ps' !! i = Some p').
    { destruct (proj2 Hs i p Hi) as (x & Hx & HR). unfold one_slot in HR. rewrite Nat.eqb_refl in HR. by destruct HR as [_ ->]. }
    destruct (decide (j = i)) as [->|Hj], (decide (j2 = i)) as [->|Hj2]; [done|..].
    + assert (q' = p') as -> by congruence. by destruct (Hdiff j2 q2' Hj2 Hq2' Hu2 Hu).
    + assert (q2' = p') as -> by congruence. by destruct (Hdiff j q' Hj Hq' Hu Hu2).
    + destruct (Hold j q' Hj Hq' Hu) as (q & Hq & Huq & E1), (Hold j2 q2' Hj2 Hq2' Hu2) as (q2 & Hq2 & Huq2 & E2).
      eapply (to_unique _ _ _ Ht); [exact Hq|exact Hq2|done|done|congruence].
  - intros j q' Hq' Hsl. destruct (Hb j q' Hq') as (q & Hq & HR).
    destruct (j =? i)%nat; [destruct HR as [_ ->]; done|].
    destruct (sl_chan _ _ HR Hsl) as [?|[Hs' ->]]; [done|]. by eapply (to_chan _ _ _ Ht).
  - intros j q' Hq' Hu. destruct (Hb j q' Hq') as (q & Hq & HR).
    destruct (j =? i)%nat; [destruct HR as [_ ->]; by destruct (Hset Hu)|].
    rewrite (sl_kstack _ _ HR), (sl_pgdir _ _ HR).
    eapply (to_mem _ _ _ Ht); [exact Hq|]. by eapply same_life_settled.
Qed.

(** A death: the process becomes a zombie and its children go to [init]. *)
Definition death_slots (cur : nat) (init : option nat) : nat -> proc -> proc -> Prop :=
  fun j q q' => if (j =? cur)%nat then exited cur init q q' else orphaned cur init q q'.

(** Seen from any slot, a death changes at most the parent and the own state. *)
Lemma death_fields cur init j q q' :
  death_slots cur init j q q' ->
  p_pid q' = p_pid q /\ p_kstack q' = p_kstack q /\ p_pgdir q' = p_pgdir q /\ p_chan q' = p_chan q /\
  p_parent q' = (if bool_decide (p_parent q = Some cur) then init else p_parent q) /\
  (if (j =? cur)%nat then p_state q' = ZOMBIE
   else p_state q' = p_state q \/ p_state q = SLEEPING /\ p_state q' = RUNNABLE).
Proof.
  unfold death_slots. destruct (j =? cur)%nat.
  - intros (? & ? & ? & ? & ? & ? & ?). by split_and!.
  - intros (w & [->|[Hs ->]] & ->); destruct (bool_decide _) eqn:Hb; cbn; split_and!; auto; by rewrite ?Hb.
Qed.

Lemma table_ok_death cur p ps ps' init nextpid :
  table_ok ps init nextpid -> ps !! cur = Some p -> alive (p_state p) -> init <> Some cur ->
  slots (death_slots cur init) ps ps' -> table_ok ps' init nextpid.
Proof.
  intros Ht Hc Ha Hni Hs.
  assert (Hb : forall j q', ps' !! j = Some q' -> exists q, ps !! j = Some q /\ death_slots cur init j q q').
  { intros j q'. by apply slots_back. }
  assert (Hu : forall j q q', ps !! j = Some q -> death_slots cur init j q q' -> p_state q' <> UNUSED ->
    p_state q <> UNUSED).
  { intros j q q' Hq HR Hu. apply death_fields in HR as (_ & _ & _ & _ & _ & Hst).
    destruct (Nat.eqb_spec j cur) as [->|]; [simplify_eq; by apply alive_not in Ha as []|].
    destruct Hst as [<-|[-> _]]; done. }
  assert (Hset : forall j q q', ps !! j = Some q -> death_slots cur init j q q' -> settled (p_state q') -> settled (p_state q)).
  { intros j q q' Hq HR [Hun He]. split; [by eapply Hu|]. apply death_fields in HR as (_ & _ & _ & _ & _ & Hst).
    destruct (Nat.eqb_spec j cur) as [->|]; [simplify_eq; by apply alive_not in Ha as (_ & ? & _)|].
    destruct Hst as [<-|[-> _]]; done. }
  assert (Hlv : forall j, j <> cur -> lives ps j -> lives ps' j).
  { intros j Hj (q & Hq & Hal). destruct (proj2 Hs j q Hq) as (q' & Hq' & HR). exists q'. split; [done|].
    apply death_fields in HR as (_ & _ & _ & _ & _ & Hst). rewrite (proj2 (Nat.eqb_neq j cur) Hj) in Hst.
    destruct Hst as [->|[_ ->]]; [done|]. right. by left. }
  destruct (to_init _ _ _ Ht) as (it & Hit & Hil). assert (Hitc : it <> cur) by (intros ->; done).
  split.
  - rewrite (proj1 Hs). apply Ht.
  - intros j q' Hq' Hun. destruct (Hb j q' Hq') as (q & Hq & HR).
    apply death_fields in HR as (_ & _ & _ & _ & -> & Hst).
    destruct (j =? cur)%nat; [congruence|]. destruct Hst as [E|[_ E]]; [|congruence].
    rewrite (to_unused _ _ _ Ht j q Hq) by congruence. by rewrite bool_decide_eq_false_2.
  - intros j q' r Hq' Hr. destruct (Hb j q' Hq') as (q & Hq & HR). apply death_fields in HR as (_ & _ & _ & _ & E & _).
    rewrite E in Hr. destruct (decide (p_parent q = Some cur)) as [Hpc|Hpc].
    + rewrite bool_decide_eq_true_2 in Hr by done. rewrite Hit in Hr. injection Hr as <-. by apply Hlv.
    + rewrite bool_decide_eq_false_2 in Hr by done. apply Hlv; [congruence|]. by eapply (to_parent _ _ _ Ht).
  - intros j q' Hq' Hun Hr. destruct (Hb j q' Hq') as (q & Hq & HR). pose proof (Hset j q q' Hq HR Hun) as Hun'.
    apply death_fields in HR as (_ & _ & _ & _ & E & _). rewrite E in Hr.
    destruct (decide (p_parent q = Some cur)) as [Hpc|Hpc];
      [rewrite bool_decide_eq_true_2 in Hr by done; congruence|].
    rewrite bool_decide_eq_false_2 in Hr by done. by eapply (to_orphan _ _ _ Ht).
  - exists it. split; [done|]. by apply Hlv.
  - intros j q' Hq' Hun. destruct (Hb j q' Hq') as (q & Hq & HR). pose proof (Hu j q q' Hq HR Hun) as Hun'.
    apply death_fields in HR as (-> & _). by eapply (to_pid _ _ _ Ht).
  - intros j j2 q' q2' Hq' Hq2' Hun Hun2 E. destruct (Hb j q' Hq') as (q & Hq & HR), (Hb j2 q2' Hq2') as (q2 & Hq2 & HR2).
    pose proof (Hu _ _ _ Hq HR Hun) as Hun'. pose proof (Hu _ _ _ Hq2 HR2 Hun2) as Hun2'.
    apply death_fields in HR as (E1 & _). apply death_fields in HR2 as (E2 & _). rewrite E1, E2 in E.
    by eapply (to_unique _ _ _ Ht).
  - intros j q' Hq' Hsl. destruct (Hb j q' Hq') as (q & Hq & HR).
    apply death_fields in HR as (_ & _ & _ & -> & _ & Hst). destruct (j =? cur)%nat; [congruence|].
    destruct Hst as [E|[_ E]]; [|congruence]. eapply (to_chan _ _ _ Ht); [exact Hq|congruence].
  - intros j q' Hq' Hun. destruct (Hb j q' Hq') as (q & Hq & HR). pose proof (Hset j q q' Hq HR Hun) as Hun'.
    apply death_fields in HR as (_ & -> & -> & _). by eapply (to_mem _ _ _ Ht).
Qed.

(** ** Processes in the middle of [fork] and [exit] *)

(** The call a process is in that other processors can come between, and how far it is. *)
Inductive call :=
| CNone
| CFork (np : nat) (pc : fork_pc)   (* in fork, with slot np for the child *)
| CExit (pc : exit_pc).

Definition call_ok (ps : list proc) (init : option nat) (p : nat) (cl : call) : Prop :=
  match cl with
  | CNone => True
  | CFork np pc => lives ps p /\ exists q, ps !! np = Some q /\ fork_inv pc p q
  | CExit _ => lives ps p /\ init <> Some p
  end.

(** Each slot in state EMBRYO is being made by one process. *)
Record calls_ok (ps : list proc) (init : option nat) (calls : nat -> call) : Prop := {
  co_call : forall p, call_ok ps init p (calls p);
  co_embryo : forall np q, ps !! np = Some q -> p_state q = EMBRYO -> exists p pc, calls p = CFork np pc;
  co_owner : forall p1 p2 np pc1 pc2, calls p1 = CFork np pc1 -> calls p2 = CFork np pc2 -> p1 = p2
}.

Lemma embryo_not_alive : ~ alive EMBRYO.
Proof. by intros [|[|]]. Qed.

Lemma lives_same ps ps' i : slots (fun _ => same_life) ps ps' -> lives ps i -> lives ps' i.
Proof.
  intros [_ H] (p & Hp & Ha). destruct (H i p Hp) as (p' & Hp' & HR). exists p'. split; [done|]. by eapply same_life_alive.
Qed.

Lemma fork_inv_same pc p q q' : same_life q q' -> fork_inv pc p q -> fork_inv pc p q'.
Proof.
  intros [_ Epar Ek Ed Est _] [Hst Hpar Hks Hpg]. split; [|by rewrite Epar|by rewrite Ek|by rewrite Ed].
  destruct Est as [->|[Ha _]]; [done|]. rewrite Hst in Ha. by apply embryo_not_alive in Ha.
Qed.

Lemma same_life_embryo q q' : same_life q q' -> p_state q' = EMBRYO -> p_state q = EMBRYO.
Proof. intros [_ _ _ _ [->|[_ Ha]] _] E; [done|]. rewrite E in Ha. by apply embryo_not_alive in Ha. Qed.

Lemma calls_same ps ps' init calls :
  slots (fun _ => same_life) ps ps' -> calls_ok ps init calls -> calls_ok ps' init calls.
Proof.
  intros Hs [Hc He Ho]. split; [|intros np q' Hq' E|done].
  - intros p. specialize (Hc p). destruct (calls p) as [|np pc|pc]; [done|..]; cbn in *.
    + destruct Hc as (Hl & q & Hq & Hi). split; [by eapply lives_same|]. destruct (proj2 Hs np q Hq) as (q' & Hq' & HR).
      exists q'. split; [done|]. by eapply fork_inv_same.
    + destruct Hc. split; [by eapply lives_same|done].
  - destruct (slots_back _ _ _ _ _ Hs Hq') as (q & Hq & HR). apply (He np q Hq). by eapply same_life_embryo.
Qed.

(** One slot [i] changes that was not alive; the calls of others go on as before when the
    slot is not theirs. *)
Lemma one_slot_lives i p p' ps ps' j : slots (one_slot i p p') ps ps' -> ~ alive (p_state p) -> lives ps j -> lives ps' j.
Proof.
  intros [_ H] Hna (q & Hq & Ha). destruct (H j q Hq) as (q' & Hq' & HR). exists q'. split; [done|].
  unfold one_slot in HR. destruct (j =? i)%nat; [by destruct HR as [-> _]|by eapply same_life_alive].
Qed.

Lemma call_ok_slot i p p' ps ps' init x cl :
  slots (one_slot i p p') ps ps' -> ~ alive (p_state p) ->
  (forall np pc, cl = CFork np pc -> np <> i) -> call_ok ps init x cl -> call_ok ps' init x cl.
Proof.
  intros Hs Hna Hni Hc. destruct cl as [|np pc|pc]; [done|..]; cbn in *.
  - destruct Hc as (Hl & q & Hq & Hi). split; [by eapply one_slot_lives|]. destruct (proj2 Hs np q Hq) as (q' & Hq' & HR).
    exists q'. split; [done|]. unfold one_slot in HR. rewrite (proj2 (Nat.eqb_neq np i)) in HR by (by eapply Hni). by eapply fork_inv_same.
  - destruct Hc. split; [by eapply one_slot_lives|done].
Qed.

Lemma one_slot_embryo i p p' ps ps' j q' :
  slots (one_slot i p p') ps ps' -> j <> i -> ps' !! j = Some q' -> p_state q' = EMBRYO ->
  exists q, ps !! j = Some q /\ p_state q = EMBRYO.
Proof.
  intros Hs Hj Hq' E. destruct (slots_back _ _ _ _ _ Hs Hq') as (q & Hq & HR). unfold one_slot in HR.
  rewrite (proj2 (Nat.eqb_neq j i) Hj) in HR. exists q. split; [done|]. by eapply same_life_embryo.
Qed.

(** A zombie is buried. *)
Lemma calls_burial i p p' ps ps' init calls :
  ps !! i = Some p -> p_state p = ZOMBIE -> p_state p' <> EMBRYO -> slots (one_slot i p p') ps ps' ->
  calls_ok ps init calls -> calls_ok ps' init calls.
Proof.
  intros Hp Hz Hne Hs [Hc He Ho]. assert (Hni : forall x np pc, calls x = CFork np pc -> np <> i).
  { intros x np pc Ex ->. specialize (Hc x). rewrite Ex in Hc. destruct Hc as (_ & q & Hq & [Est _ _ _]). congruence. }
  split; [|intros np q' Hq' E|done].
  - intros x. apply (call_ok_slot i p p' ps); [done|rewrite Hz; by intros [|[|]]|intros np pc; apply Hni|done].
  - destruct (decide (np = i)) as [->|Hnp].
    + destruct (slots_back _ _ _ _ _ Hs Hq') as (q & _ & HR). unfold one_slot in HR. rewrite Nat.eqb_refl in HR. by destruct HR as [_ ->].
    + destruct (one_slot_embryo i p p' ps ps' np q' Hs Hnp Hq' E) as (q & Hq & Eq). by eapply He.
Qed.

(** [fork] takes a slot. *)
Lemma calls_birth x i p p' ps ps' init calls :
  ps !! i = Some p -> p_state p = UNUSED -> fork_inv FkStack x p' -> slots (one_slot i p p') ps ps' ->
  lives ps x -> calls x = CNone -> calls_ok ps init calls -> calls_ok ps' init (<[x := CFork i FkStack]> calls).
Proof.
  intros Hp Hu Hi Hs Hl Hx [Hc He Ho]. assert (Hna : ~ alive (p_state p)) by (rewrite Hu; by intros [|[|]]).
  assert (Hni : forall y np pc, calls y = CFork np pc -> np <> i).
  { intros y np pc Ey ->. specialize (Hc y). rewrite Ey in Hc. destruct Hc as (_ & q & Hq & [Est _ _ _]). congruence. }
  split.
  - intros y. destruct (decide (y = x)) as [->|Hy]; [rewrite fn_lookup_insert|rewrite fn_lookup_insert_ne by done].
    + split; [by eapply one_slot_lives|]. destruct (proj2 Hs i p Hp) as (q' & Hq' & HR). unfold one_slot in HR.
      rewrite Nat.eqb_refl in HR. destruct HR as [_ ->]. by exists p'.
    + apply (call_ok_slot i p p' ps); [done|done|intros np pc; apply Hni|done].
  - intros np q' Hq' E. destruct (decide (np = i)) as [->|Hnp]; [exists x, FkStack; by rewrite fn_lookup_insert|].
    destruct (one_slot_embryo i p p' ps ps' np q' Hs Hnp Hq' E) as (q & Hq & Eq). destruct (He np q Hq Eq) as (y & pc & Ey).
    exists y, pc. rewrite fn_lookup_insert_ne; [done|]. intros ->. congruence.
  - intros y1 y2 np pc1 pc2. destruct (decide (y1 = x)) as [->|H1], (decide (y2 = x)) as [->|H2];
      rewrite ?fn_lookup_insert, ?fn_lookup_insert_ne by done; [done|..|apply Ho].
    + intros [= <- <-] E. by destruct (Hni y2 i pc2 E).
    + intros E [= <- <-]. by destruct (Hni y1 i pc1 E).
Qed.

(** [fork] goes on, or ends. *)
Lemma calls_stage x i pc cl p p' ps ps' init calls :
  calls x = CFork i pc -> slots (one_slot i p p') ps ps' -> ps !! i = Some p ->
  match cl with CNone => p_state p' <> EMBRYO | CFork np pc' => np = i /\ fork_inv pc' x p' | CExit _ => False end ->
  calls_ok ps init calls -> calls_ok ps' init (<[x := cl]> calls).
Proof.
  intros Hx Hs Hp Hcl [Hc He Ho]. pose proof (Hc x) as Hcx. rewrite Hx in Hcx. destruct Hcx as (Hl & q0 & Hq0 & [Est _ _ _]).
  assert (q0 = p) as -> by congruence. assert (Hna : ~ alive (p_state p)) by (rewrite Est; apply embryo_not_alive).
  assert (Hni : forall y np pc', y <> x -> calls y = CFork np pc' -> np <> i) by (intros y np pc' Hy Ey ->; eauto).
  assert (Hp' : ps' !! i = Some p').
  { destruct (proj2 Hs i p Hp) as (q' & Hq' & HR). unfold one_slot in HR. rewrite Nat.eqb_refl in HR. by destruct HR as [_ ->]. }
  split.
  - intros y. destruct (decide (y = x)) as [->|Hy]; [rewrite fn_lookup_insert|rewrite fn_lookup_insert_ne by done].
    + destruct cl as [|np pc'|]; [done| |done]. destruct Hcl as [-> Hi]. split; [by eapply one_slot_lives|]. by exists p'.
    + apply (call_ok_slot i p p' ps); [done|done|intros np pc' Ey; by apply (Hni y np pc')|done].
  - intros np q' Hq' E. destruct (decide (np = i)) as [->|Hnp].
    + assert (q' = p') as -> by congruence. destruct cl as [|np pc'|]; [done| |done]. destruct Hcl as [-> _]. exists x, pc'. by rewrite fn_lookup_insert.
    + destruct (one_slot_embryo i p p' ps ps' np q' Hs Hnp Hq' E) as (q & Hq & Eq). destruct (He np q Hq Eq) as (y & pc' & Ey).
      exists y, pc'. rewrite fn_lookup_insert_ne; [done|]. intros ->. congruence.
  - intros y1 y2 np pc1 pc2. destruct (decide (y1 = x)) as [->|H1], (decide (y2 = x)) as [->|H2];
      rewrite ?fn_lookup_insert, ?fn_lookup_insert_ne by done; [done|..|apply Ho]; intros E1 E2; subst cl.
    + destruct Hcl as [-> _]. by destruct (Hni y2 i pc2).
    + destruct Hcl as [-> _]. by destruct (Hni y1 i pc1).
Qed.

(** [exit] starts or goes on. *)
Lemma calls_exit x pc ps init calls :
  (forall np pc', calls x <> CFork np pc') -> lives ps x -> init <> Some x -> calls_ok ps init calls ->
  calls_ok ps init (<[x := CExit pc]> calls).
Proof.
  intros Hx Hl Hi [Hc He Ho]. split.
  - intros y. destruct (decide (y = x)) as [->|Hy]; [by rewrite fn_lookup_insert|rewrite fn_lookup_insert_ne by done; apply Hc].
  - intros np q Hq E. destruct (He np q Hq E) as (y & pc' & Ey). exists y, pc'. rewrite fn_lookup_insert_ne; [done|]. intros ->. by destruct (Hx np pc').
  - intros y1 y2 np pc1 pc2. destruct (decide (y1 = x)) as [->|H1], (decide (y2 = x)) as [->|H2];
      rewrite ?fn_lookup_insert, ?fn_lookup_insert_ne by done; [done|done|done|apply Ho].
Qed.

(** [exit] ends: the calls of others are not those of the dead. *)
Lemma calls_death cur pc ps ps' init calls :
  calls cur = CExit pc -> slots (death_slots cur init) ps ps' -> calls_ok ps init calls ->
  calls_ok ps' init (<[cur := CNone]> calls).
Proof.
  intros Hx Hs [Hc He Ho].
  assert (Hlv : forall y, y <> cur -> lives ps y -> lives ps' y).
  { intros y Hy (q & Hq & Ha). destruct (proj2 Hs y q Hq) as (q' & Hq' & HR). exists q'. split; [done|].
    apply death_fields in HR as (_ & _ & _ & _ & _ & Hst). rewrite (proj2 (Nat.eqb_neq y cur) Hy) in Hst.
    destruct Hst as [->|[_ ->]]; [done|]. right. by left. }
  assert (Hcur : forall y np pc', calls y = CFork np pc' -> np <> cur).
  { intros y np pc' Ey ->. pose proof (Hc y) as Hy. rewrite Ey in Hy. destruct Hy as (_ & q & Hq & [Est _ _ _]).
    pose proof (Hc cur) as Hcc. rewrite Hx in Hcc. destruct Hcc as ((q2 & Hq2 & Ha) & _).
    assert (q2 = q) as -> by congruence. rewrite Est in Ha. by apply embryo_not_alive in Ha. }
  split.
  - intros y. destruct (decide (y = cur)) as [->|Hy]; [by rewrite fn_lookup_insert|rewrite fn_lookup_insert_ne by done].
    specialize (Hc y). destruct (calls y) as [|np pc'|pc'] eqn:Ey; [done|..]; cbn in *.
    + destruct Hc as (Hl & q & Hq & [Est Epar Eks Epg]). split; [by apply Hlv|]. destruct (proj2 Hs np q Hq) as (q' & Hq' & HR).
      exists q'. split; [done|]. apply death_fields in HR as (_ & E1 & E2 & _ & E3 & E4).
      rewrite (proj2 (Nat.eqb_neq np cur)) in E4 by (by eapply Hcur). split; [|rewrite E3, Epar|by rewrite E1|by rewrite E2].
      * destruct E4 as [->|[E4 _]]; congruence.
      * destruct (orphan_pc pc'); [by rewrite bool_decide_false|]. rewrite bool_decide_false; [done|]. congruence.
    + destruct Hc. split; [by apply Hlv|done].
  - intros np q' Hq' E. destruct (slots_back _ _ _ _ _ Hs Hq') as (q & Hq & HR). apply death_fields in HR as (_ & _ & _ & _ & _ & Hst).
    destruct (Nat.eqb_spec np cur) as [->|Hnp]; [congruence|]. assert (Eq : p_state q = EMBRYO) by (destruct Hst as [<-|[_ ?]]; congruence).
    destruct (He np q Hq Eq) as (y & pc' & Ey). exists y, pc'. rewrite fn_lookup_insert_ne; [done|]. intros ->. congruence.
  - intros y1 y2 np pc1 pc2. destruct (decide (y1 = cur)) as [->|H1], (decide (y2 = cur)) as [->|H2];
      rewrite ?fn_lookup_insert, ?fn_lookup_insert_ne by done; [done|done|done|apply Ho].
Qed.
