(* ===== verification/System.v ===== *)
(** * The processes of proc.c as a concurrent system

    A processor is between two rounds of its scheduler, scanning the table, about to
    resume a process it has switched to, or running a process.  The first three
    are the states of the loop of [scheduler]; [ptable.lock] is held in the second
    and the third, across the switch, as the code says.  A process that has given up
    the processor remembers where it goes on: in [forkret], in [yield], in [sleep]
    with the lock it passed, or in the loop of [wait] or [testwait].

    [fork] and [exit] are not single steps.  [fork] takes [ptable.lock] for the slot of the
    child and again to make it RUNNABLE; between, and while [exit] closes files, the
    process runs without the lock, other processors do what they do, and the process
    itself may be preempted or sleep.  [s_call] says where in [fork] or [exit] each
    process is; the parts are those of [fork_at] and [exit_at], which [fork_parts_eq] and
    [exit_parts_eq] put together to the calls.  A part is one step: it touches at most the
    slot of the child or of the process itself, and what else it touches (memory, page
    tables, files) no other step looks at. *)

From stdpp Require Import functions.
From S2P Require Import Prelude Mmu Mem Cstring Kalloc Vm Rand Proc ProcSpec ProcOps Sched.
#[local] Open Scope Z_scope.

Inductive phase :=
| PIdle            (* before acquire(&ptable.lock) *)
| PScan (i : nat)  (* in the loop over the table, at slot i *)
| PIn (p : nat)    (* switched to p, which still holds ptable.lock *)
| PRun (p : nat).  (* p runs, without ptable.lock *)

Inductive resume := RFork | RYield | RSleep (l : lockid) | RWait | RTestwait.

Section System.
Context {F : Type} `{FileLayer F}.

Record sys := Sys {
  core : kern F;                   (* the locks in it are those of the running processor *)
  s_held : nat -> list lockid;
  s_phase : nat -> phase;
  s_resume : nat -> resume;
  s_call : nat -> call
}.

(** The state as processor [c] sees it, and after it has run to [k]. *)
Definition view (c : nat) (s : sys) : kern F := with_held (s_held s c) (core s).
Definition commit (c : nat) (k : kern F) (ph : phase) (s : sys) : sys :=
  Sys k (<[c := held k]> (s_held s)) (<[c := ph]> (s_phase s)) (s_resume s) (s_call s).
Definition set_resume (p : nat) (r : resume) (s : sys) : sys :=
  Sys (core s) (s_held s) (s_phase s) (<[p := r]> (s_resume s)) (s_call s).
Definition set_call (p : nat) (cl : call) (s : sys) : sys :=
  Sys (core s) (s_held s) (s_phase s) (s_resume s) (<[p := cl]> (s_call s)).

(** Nobody holds a lock. *)
Definition free (l : lockid) (s : sys) : Prop := forall d, l ∉ s_held s d.

(** ** The invariant *)

Definition phase_ok (h : list lockid) (o : option nat) (ph : phase) : Prop :=
  LkKmem ∉ h /\
  match ph with
  | PIdle => h = [] /\ o = None
  | PScan _ => h = [LkPtable] /\ o = None
  | PIn p => h = [LkPtable] /\ o = Some p
  | PRun p => LkPtable ∉ h /\ o = Some p
  end.

Record sys_ok (s : sys) : Prop := {
  so_table : table_ok (k_procs (core s)) (k_initproc (core s)) (k_nextpid (core s));
  so_phase : forall c, phase_ok (s_held s c) (cpu_proc (core s) c) (s_phase s c);
  so_lock : forall c d, LkPtable ∈ s_held s c -> LkPtable ∈ s_held s d -> c = d;
  so_running : forall c p, cpu_proc (core s) c = Some p ->
    exists q, k_procs (core s) !! p = Some q /\ p_state q = RUNNING;
  so_cpu : forall p q, k_procs (core s) !! p = Some q -> p_state q = RUNNING ->
    exists c, cpu_proc (core s) c = Some p;
  so_one : forall c d p, cpu_proc (core s) c = Some p -> cpu_proc (core s) d = Some p -> c = d;
  so_calls : calls_ok (k_procs (core s)) (k_initproc (core s)) (s_call s)
}.


(** Which processes run, before and after a step of processor [c]. *)
Definition runs (k : kern F) (p : nat) : Prop := exists q, k_procs k !! p = Some q /\ p_state q = RUNNING.

Record run_ok (c : nat) (k0 k : kern F) : Prop := {
  ro_iff : forall p, runs k p <-> cpu_proc k c = Some p \/ runs k0 p /\ cpu_proc k0 c <> Some p;
  ro_new : forall p, cpu_proc k c = Some p -> cpu_proc k0 c = Some p \/ ~ runs k0 p;
  ro_other : forall d, d <> c -> cpu_proc k d = cpu_proc k0 d
}.

Lemma sys_ok_step c k ph res calls s :
  sys_ok s -> table_ok (k_procs k) (k_initproc k) (k_nextpid k) -> calls_ok (k_procs k) (k_initproc k) calls ->
  phase_ok (held k) (cpu_proc k c) ph -> (LkPtable ∈ held k -> LkPtable ∈ s_held s c \/ free LkPtable s) ->
  run_ok c (core s) k ->
  sys_ok (Sys k (<[c := held k]> (s_held s)) (<[c := ph]> (s_phase s)) res calls).
Proof using.
  intros Hs Ht Hcalls Hph Hlk Hr.
  assert (Hfree : LkPtable ∈ held k -> forall d, d <> c -> LkPtable ∉ s_held s d).
  { intros Hin d Hd Hd'. destruct (Hlk Hin) as [Hc|Hf]; [by apply Hd, (so_lock s Hs)|by apply (Hf d)]. }
  split; cbn [core s_held s_phase].
  - exact Ht.
  - intros d. destruct (decide (d = c)) as [->|Hne]; [by rewrite !fn_lookup_insert|].
    rewrite !fn_lookup_insert_ne by done. rewrite (ro_other _ _ _ Hr) by done. apply (so_phase s Hs).
  - intros d e. destruct (decide (d = c)) as [->|Hd], (decide (e = c)) as [->|He];
      rewrite ?fn_lookup_insert, ?fn_lookup_insert_ne by done; [done|..].
    + intros Hin He'. by destruct (Hfree Hin e He).
    + intros Hd' Hin. by destruct (Hfree Hin d Hd).
    + apply (so_lock s Hs).
  - intros d p Hd. apply (ro_iff _ _ _ Hr p). destruct (decide (d = c)) as [->|Hne]; [by left|right].
    rewrite (ro_other _ _ _ Hr) in Hd by done. split; [by apply (so_running s Hs d)|].
    intros Hc. by apply Hne, (so_one s Hs d c p).
  - intros p q Hq Hrun. destruct (proj1 (ro_iff _ _ _ Hr p)) as [Hc|[(q0 & Hq0 & Hr0) Hc]]; [by exists q|by exists c|].
    destruct (so_cpu s Hs p q0 Hq0 Hr0) as [d Hd]. exists d. rewrite (ro_other _ _ _ Hr); [done|]. congruence.
  - assert (Hnew : forall d p, d <> c -> cpu_proc k c = Some p -> cpu_proc (core s) d = Some p -> False).
    { intros d p Hne Hc Hd. destruct (ro_new _ _ _ Hr p Hc) as [Hc0|Hn].
      - by apply Hne, (so_one s Hs d c p).
      - apply Hn. by apply (so_running s Hs d). }
    intros d e p Hd He. destruct (decide (d = c)) as [->|Hnd], (decide (e = c)) as [->|Hne]; [done|..];
      rewrite ?(ro_other _ _ _ Hr) in * by done.
    + by destruct (Hnew e p).
    + by destruct (Hnew d p).
    + by apply (so_one s Hs d e p).
  - done.
Qed.

(** The table as [slotwise] and as [slots]. *)
Lemma slotwise_slots R (k k' : kern F) : slotwise R k k' <-> slots R (k_procs k) (k_procs k').
Proof using. done. Qed.

Definition same_run (q q' : proc) : Prop := p_state q = RUNNING <-> p_state q' = RUNNING.

Lemma run_ok_same c k0 k :
  (forall p, cpu_proc k0 c = Some p -> runs k0 p) -> (forall d, cpu_proc k d = cpu_proc k0 d) ->
  slots (fun _ => same_run) (k_procs k0) (k_procs k) -> run_ok c k0 k.
Proof using.
  intros Hc Hd Hs. assert (Hiff : forall p, runs k p <-> runs k0 p).
  { intros p. split.
    - intros (q' & Hq' & Hr). destruct (slots_back _ _ _ _ _ Hs Hq') as (q & Hq & HR). exists q. split; [done|]. by apply HR.
    - intros (q & Hq & Hr). destruct (proj2 Hs p q Hq) as (q' & Hq' & HR). exists q'. split; [done|]. by apply HR. }
  split; [|intros p; rewrite Hd; by left|done]. intros p. rewrite Hiff, Hd.
  destruct (decide (cpu_proc k0 c = Some p)); naive_solver.
Qed.

Lemma run_ok_leave c cur k0 k :
  cpu_proc k0 c = Some cur -> cpu_proc k c = None -> (forall d, d <> c -> cpu_proc k d = cpu_proc k0 d) ->
  slots (fun j q q' => if (j =? cur)%nat then p_state q' <> RUNNING else same_run q q') (k_procs k0) (k_procs k) ->
  run_ok c k0 k.
Proof using.
  intros Hc Hn Hd Hs. split; [|congruence|done]. intros p. rewrite Hc, Hn. split.
  - intros (q' & Hq' & Hr). right. destruct (slots_back _ _ _ _ _ Hs Hq') as (q & Hq & HR). cbv beta in HR.
    destruct (Nat.eqb_spec p cur) as [->|Hne]; [done|]. split; [|congruence]. exists q. split; [done|]. by apply HR.
  - intros [?|[(q & Hq & Hr) Hne]]; [done|]. destruct (proj2 Hs p q Hq) as (q' & Hq' & HR). cbv beta in HR.
    destruct (Nat.eqb_spec p cur) as [->|]; [done|]. exists q'. split; [done|]. by apply HR.
Qed.

(** ** Steps *)

Context (cfg : sched_config) (kend kdata trapret forkret : Z) (ts_addr : nat -> Z).

(** The system calls that end in a switch, followed by the scheduler taking over. *)
Definition then_switch {A} (c : nat) (m : M (kern F) A) : M (kern F) A :=
  a <- m ;; scheduler_back c ;;; ret a.
(** [wait] and [testwait] end with a result, or sleep and switch. *)
Definition wait_switch {A} (c : nat) (m : M (kern F) (option A)) : M (kern F) (option A) :=
  r <- m ;; match r with Some v => ret (Some v) | None => scheduler_back c ;;; ret None end.

Definition wait_phase {A} (p : nat) (r : option A) : phase := match r with Some _ => PRun p | None => PScan (S p) end.
Definition wait_resume {A} (w : resume) (p : nat) (r : option A) (s : sys) : sys :=
  match r with Some _ => s | None => set_resume p w s end.

(** Where [fork] is after a part with result [r]. *)
Definition fork_call (np : nat) (r : fork_pc + Z) : call := match r with inl pc => CFork np pc | inr _ => CNone end.

(** The system calls [wait], [testwait], [exit], [fork], [fork_original] and [kill] start without locks, as they come
    from user mode, and not inside another call.  A part of [fork] or [exit] that takes
    [ptable.lock] waits until it is free. *)
Inductive sstep (c : nat) (s : sys) : sys -> Prop :=
| st_acquire k :
    s_phase s c = PIdle -> free LkPtable s -> acquire LkPtable (view c s) = Ret tt k ->
    sstep c s (commit c k (PScan 0) s)
| st_skip i fuel k :
    s_phase s c = PScan i -> (i < NPROC)%nat ->
    scheduler_slot cfg ts_addr c fuel i (view c s) = Ret false k -> sstep c s (commit c k (PScan (S i)) s)
| st_switch i fuel k :
    s_phase s c = PScan i -> (i < NPROC)%nat ->
    scheduler_slot cfg ts_addr c fuel i (view c s) = Ret true k -> sstep c s (commit c k (PIn i) s)
| st_end k :
    s_phase s c = PScan NPROC -> release LkPtable (view c s) = Ret tt k -> sstep c s (commit c k PIdle s)
| st_back_run p k :
    s_phase s c = PIn p -> s_resume s p = RFork \/ s_resume s p = RYield ->
    yield_after (view c s) = Ret tt k -> sstep c s (commit c k (PRun p) s)
| st_back_sleep p l k :
    s_phase s c = PIn p -> s_resume s p = RSleep l -> l <> LkPtable -> l <> LkKmem -> free l s ->
    sleep_after c l (view c s) = Ret tt k -> sstep c s (commit c k (PRun p) s)
| st_back_wait p r k :
    s_phase s c = PIn p -> s_resume s p = RWait ->
    wait_switch c (sleep_after c LkPtable ;;; wait_iter c (reap kend) (-1)) (view c s) = Ret r k ->
    sstep c s (commit c k (wait_phase p r) s)
| st_back_testwait p r k :
    s_phase s c = PIn p -> s_resume s p = RTestwait ->
    wait_switch c (sleep_after c LkPtable ;;; wait_iter c (test_reap kend) (-1, (0, 0, 0))) (view c s) = Ret r k ->
    sstep c s (commit c k (wait_phase p r) s)
| st_yield p k :
    s_phase s c = PRun p -> free LkPtable s -> then_switch c (yield_before c) (view c s) = Ret tt k ->
    sstep c s (set_resume p RYield (commit c k (PScan (S p)) s))
| st_sleep p ch l k :
    s_phase s c = PRun p -> free LkPtable s -> l <> LkPtable -> l <> LkKmem ->
    then_switch c (sleep_before c ch l) (view c s) = Ret tt k ->
    sstep c s (set_resume p (RSleep l) (commit c k (PScan (S p)) s))
| st_wait p r k :
    s_phase s c = PRun p -> s_held s c = [] -> s_call s p = CNone -> free LkPtable s ->
    wait_switch c (wait kend c) (view c s) = Ret r k ->
    sstep c s (wait_resume RWait p r (commit c k (wait_phase p r) s))
| st_testwait p r k :
    s_phase s c = PRun p -> s_held s c = [] -> s_call s p = CNone -> free LkPtable s ->
    wait_switch c (testwait kend c) (view c s) = Ret r k ->
    sstep c s (wait_resume RTestwait p r (commit c k (wait_phase p r) s))
| st_exit p :
    s_phase s c = PRun p -> s_held s c = [] -> s_call s p = CNone -> k_initproc (core s) <> Some p ->
    sstep c s (set_call p (CExit (XFile 0)) s)
| st_exit_step p pc pc' k :
    s_phase s c = PRun p -> s_held s c = [] -> s_call s p = CExit pc ->
    (exit_locks pc p (view c s) = true -> free LkPtable s) ->
    exit_at pc p (view c s) = Ret pc' k -> sstep c s (set_call p (CExit pc') (commit c k (PRun p) s))
| st_exit_last p k :
    s_phase s c = PRun p -> s_held s c = [] -> s_call s p = CExit XLast -> free LkPtable s ->
    then_switch c (exit_last c p) (view c s) = Ret tt k ->
    sstep c s (set_call p CNone (commit c k (PScan (S p)) s))
| st_fork p np k :
    s_phase s c = PRun p -> s_held s c = [] -> s_call s p = CNone -> free LkPtable s ->
    alloc_slot (view c s) = Ret np k ->
    sstep c s (set_call p (CFork np FkStack) (set_resume np RFork (commit c k (PRun p) s)))
| st_fork_step copy p np pc r k :
    copy = copyuvm kend kdata \/ copy = copyuvm_original kend kdata ->
    s_phase s c = PRun p -> s_held s c = [] -> s_call s p = CFork np pc ->
    (fork_locks pc p (view c s) = true -> free LkPtable s) ->
    fork_at kend trapret forkret copy pc p np (view c s) = Ret r k ->
    sstep c s (set_call p (fork_call np r) (commit c k (PRun p) s))
| st_kill p pid r k :
    s_phase s c = PRun p -> s_held s c = [] -> s_call s p = CNone -> free LkPtable s -> kill pid (view c s) = Ret r k ->
    sstep c s (commit c k (PRun p) s)
| st_wakeup ch k :
    (s_phase s c = PIdle \/ exists p, s_phase s c = PRun p) -> free LkPtable s ->
    wakeup ch (view c s) = Ret tt k -> sstep c s (commit c k (s_phase s c) s)
| st_tick k :
    (s_phase s c = PIdle \/ exists p, s_phase s c = PRun p) -> free LkPtable s ->
    updateStats (view c s) = Ret tt k -> sstep c s (commit c k (s_phase s c) s)
| st_reset k :
    (s_phase s c = PIdle \/ exists p, s_phase s c = PRun p) -> free LkPtable s ->
    resetPriority (view c s) = Ret tt k -> sstep c s (commit c k (s_phase s c) s)
| st_lock p l k :
    s_phase s c = PRun p -> l <> LkPtable -> l <> LkKmem -> free l s -> acquire l (view c s) = Ret tt k ->
    sstep c s (commit c k (PRun p) s)
| st_unlock p l k :
    s_phase s c = PRun p -> l <> LkPtable -> release l (view c s) = Ret tt k -> sstep c s (commit c k (PRun p) s).

Inductive sreach (s0 : sys) : sys -> Prop :=
| sr_init : sreach s0 s0
| sr_step c s s' : sreach s0 s -> sstep c s s' -> sreach s0 s'.


(** ** Every step keeps the invariant *)

Lemma scheduler_back_run c (k : kern F) r k' :
  scheduler_back c k = Ret r k' ->
  k_procs k' = k_procs k /\ k_nextpid k' = k_nextpid k /\ k_initproc k' = k_initproc k /\ held k' = held k /\
  cpu_proc k' c = None /\ forall d, d <> c -> cpu_proc k' d = cpu_proc k d.
Proof.
  intros Hr. unfold scheduler_back in Hr. rewrite bind_gets in Hr. inv_bind Hr.
  apply mach_run in Hrun as (s' & Hm & ->). unfold switchkvm, lcr3, modify in Hm. injection Hm as _ <-.
  injection Hr as _ <-. do 4 (split; [done|]). unfold cpu_proc. cbn. split; [by rewrite fn_lookup_insert|].
  intros d Hd. by rewrite fn_lookup_insert_ne.
Qed.

Lemma then_switch_run {A} c (m : M (kern F) A) k a k' :
  then_switch c m k = Ret a k' ->
  exists k1, m k = Ret a k1 /\
  k_procs k' = k_procs k1 /\ k_nextpid k' = k_nextpid k1 /\ k_initproc k' = k_initproc k1 /\ held k' = held k1 /\
  cpu_proc k' c = None /\ forall d, d <> c -> cpu_proc k' d = cpu_proc k1 d.
Proof.
  intros Hr. unfold then_switch in Hr. inv_bind Hr. inv_bind Hr. inv_ret. apply scheduler_back_run in Hrun0. eauto.
Qed.

(** What the view of processor [c] has in common with the shared state. *)
Lemma view_cpu c s d : cpu_proc (view c s) d = cpu_proc (core s) d.
Proof. done. Qed.

Lemma cur_runs c s p : sys_ok s -> cpu_proc (core s) c = Some p -> runs (core s) p.
Proof. intros Hs Hc. by apply (so_running s Hs c). Qed.

Lemma phase_PRun c s p :
  sys_ok s -> s_phase s c = PRun p -> LkKmem ∉ s_held s c /\ LkPtable ∉ s_held s c /\ cpu_proc (core s) c = Some p.
Proof. intros Hs Hp. pose proof (so_phase s Hs c) as [Hk Hph]. by rewrite Hp in Hph. Qed.

Lemma same_run_refl q : same_run q q.
Proof. done. Qed.

Lemma woken_same_run q q' : woken q q' -> same_run q q'.
Proof. intros [->|[Hs ->]]; [done|]. unfold same_run. cbn. rewrite Hs. done. Qed.

Lemma slots_refl (R : nat -> proc -> proc -> Prop) ps : (forall j q, R j q q) -> slots R ps ps.
Proof. intros HR. split; [done|]. eauto. Qed.

Lemma slots_impl (R R' : nat -> proc -> proc -> Prop) ps ps' :
  (forall j q q', R j q q' -> R' j q q') -> slots R ps ps' -> slots R' ps ps'.
Proof. intros HR [L Hs]. split; [done|]. intros j q Hq. destruct (Hs j q Hq) as (q' & ? & ?). eauto. Qed.

Lemma slots_compose (R1 R2 R : nat -> proc -> proc -> Prop) ps ps1 ps2 :
  slots R1 ps ps1 -> slots R2 ps1 ps2 -> (forall j p q r, R1 j p q -> R2 j q r -> R j p r) -> slots R ps ps2.
Proof.
  intros [L1 H1] [L2 H2] HR. split; [congruence|]. intros j q Hq. destruct (H1 j q Hq) as (q1 & Hq1 & HR1).
  destruct (H2 j q1 Hq1) as (q2 & Hq2 & HR2). eauto.
Qed.

Lemma slots_insert (R : nat -> proc -> proc -> Prop) i p p' ps :
  ps !! i = Some p -> R i p p' -> (forall j q, j <> i -> R j q q) -> slots R ps (<[i := p']> ps).
Proof.
  intros Hp HR Hq. apply lookup_lt_Some in Hp as Hlt. split; [by rewrite length_insert|]. intros j q Hj.
  destruct (decide (j = i)) as [->|Hne].
  - exists p'. rewrite list_lookup_insert_eq by done. simplify_eq. done.
  - exists q. rewrite list_lookup_insert_ne by done. eauto.
Qed.

(** A step that changes the table of this state without births and deaths, and leaves
    the processors alone. *)
Lemma ok_local c s k ph res :
  sys_ok s -> slots (fun _ q q' => same_life q q' /\ same_run q q') (k_procs (core s)) (k_procs k) ->
  k_nextpid k = k_nextpid (core s) -> k_initproc k = k_initproc (core s) ->
  (forall d, cpu_proc k d = cpu_proc (core s) d) ->
  phase_ok (held k) (cpu_proc (core s) c) ph -> (LkPtable ∈ held k -> LkPtable ∈ s_held s c \/ free LkPtable s) ->
  sys_ok (Sys k (<[c := held k]> (s_held s)) (<[c := ph]> (s_phase s)) res (s_call s)).
Proof.
  intros Hs Hsl Hn Hi Hd Hph Hlk. apply sys_ok_step; [done| | | |done|].
  - rewrite Hn, Hi. eapply table_ok_same; [apply Hs|]. eapply slots_impl; [|exact Hsl]. by intros j q q' [].
  - rewrite Hi. eapply calls_same; [|apply Hs]. eapply slots_impl; [|exact Hsl]. by intros j q q' [].
  - by rewrite Hd.
  - apply run_ok_same; [intros p; by apply cur_runs|done|]. eapply slots_impl; [|exact Hsl]. by intros j q q' [].
Qed.

Lemma ok_refl ps : slots (fun _ q q' => same_life q q' /\ same_run q q') ps ps.
Proof. apply slots_refl. intros j q. split; [apply same_life_refl|done]. Qed.

(** A step in which the process that ran on [c] stops running. *)
Lemma ok_leave c cur s k ph res calls :
  sys_ok s -> cpu_proc (core s) c = Some cur -> table_ok (k_procs k) (k_initproc k) (k_nextpid k) ->
  calls_ok (k_procs k) (k_initproc k) calls ->
  slots (fun j q q' => if (j =? cur)%nat then p_state q' <> RUNNING else same_run q q')
    (k_procs (core s)) (k_procs k) ->
  cpu_proc k c = None -> (forall d, d <> c -> cpu_proc k d = cpu_proc (core s) d) ->
  phase_ok (held k) None ph -> (LkPtable ∈ held k -> LkPtable ∈ s_held s c \/ free LkPtable s) ->
  sys_ok (Sys k (<[c := held k]> (s_held s)) (<[c := ph]> (s_phase s)) res calls).
Proof.
  intros Hs Hc Ht Hcl Hsl Hn Hd Hph Hlk. apply sys_ok_step; [done|done|done|by rewrite Hn|done|]. by apply (run_ok_leave c cur).
Qed.

Lemma pt_only h : h = [LkPtable] -> LkKmem ∉ h.
Proof. intros ->. set_solver. Qed.

(** The process that runs on [c] goes to another state and the scheduler takes over. *)
Lemma ok_pause c s p q q' k res :
  sys_ok s -> cpu_proc (core s) c = Some p -> k_procs (core s) !! p = Some q ->
  (LkPtable ∈ s_held s c \/ free LkPtable s) ->
  k_procs k = <[p := q']> (k_procs (core s)) -> k_nextpid k = k_nextpid (core s) ->
  k_initproc k = k_initproc (core s) -> held k = [LkPtable] -> cpu_proc k c = None ->
  (forall d, d <> c -> cpu_proc k d = cpu_proc (core s) d) ->
  same_life q q' -> p_state q' <> RUNNING ->
  sys_ok (Sys k (<[c := held k]> (s_held s)) (<[c := PScan (S p)]> (s_phase s)) res (s_call s)).
Proof.
  intros Hs Hc Hq Hlk E1 E2 E3 E4 E5 E6 Hl Hn.
  assert (Hsl : slots (fun _ => same_life) (k_procs (core s)) (k_procs k)).
  { rewrite E1. apply (slots_insert _ p q); [done|done|intros; apply same_life_refl]. }
  apply (ok_leave c p); [done|done|..].
  - rewrite E2, E3. by eapply table_ok_same; [apply Hs|].
  - rewrite E3. by eapply calls_same; [|apply Hs].
  - rewrite E1. apply (slots_insert _ p q); [done|by rewrite Nat.eqb_refl|].
    intros j r Hne. by rewrite (proj2 (Nat.eqb_neq _ _)).
  - done.
  - done.
  - rewrite E4. split; [by apply pt_only|done].
  - done.
Qed.

(** The slot of the process that runs on [c]. *)
Lemma cur_slot c s p q :
  sys_ok s -> cpu_proc (core s) c = Some p -> k_procs (core s) !! p = Some q -> p_state q = RUNNING.
Proof. intros Hs Hc Hq. destruct (cur_runs c s p Hs Hc) as (q0 & Hq0 & ?). congruence. Qed.

Lemma running_life q q' :
  p_state q = RUNNING -> p_pid q' = p_pid q -> p_parent q' = p_parent q -> p_kstack q' = p_kstack q ->
  p_pgdir q' = p_pgdir q -> alive (p_state q') -> (p_state q' = SLEEPING -> p_chan q' <> None) -> same_life q q'.
Proof. intros Hr ? ? ? ? Ha Hc. split; try done; [right; rewrite Hr; unfold alive; auto|left; auto]. Qed.

Lemma ok_yield c s p k res :
  sys_ok s -> s_phase s c = PRun p -> free LkPtable s -> then_switch c (yield_before c) (view c s) = Ret tt k ->
  sys_ok (Sys k (<[c := held k]> (s_held s)) (<[c := PScan (S p)]> (s_phase s)) res (s_call s)).
Proof.
  intros Hs Hp Hf Hr. destruct (phase_PRun c s p Hs Hp) as (Hk & Hpt & Hc).
  apply then_switch_run in Hr as (k1 & Hy & E1 & E2 & E3 & E4 & E5 & E6).
  apply yield_run in Hy as (_ & cur & q & Hcur & Hq & ->).
  assert (cur = p) as -> by (unfold cpu_proc in Hc; cbn in Hcur; congruence).
  pose proof (cur_slot c s p q Hs Hc Hq) as Hrun.
  apply (ok_pause c s p q _ k res Hs Hc Hq (or_intror Hf) E1 E2 E3 E4 E5 E6); [|done].
  apply running_life; try done. cbn. unfold alive. auto.
Qed.

Lemma ok_sleep c s p ch l k res :
  sys_ok s -> s_phase s c = PRun p -> free LkPtable s -> then_switch c (sleep_before c ch l) (view c s) = Ret tt k ->
  sys_ok (Sys k (<[c := held k]> (s_held s)) (<[c := PScan (S p)]> (s_phase s)) res (s_call s)).
Proof.
  intros Hs Hp Hf Hr. destruct (phase_PRun c s p Hs Hp) as (Hk & Hpt & Hc).
  apply then_switch_run in Hr as (k1 & Hy & E1 & E2 & E3 & E4 & E5 & E6).
  apply sleep_run in Hy as (cur & q & Hcur & Hq & -> & _).
  assert (cur = p) as -> by (unfold cpu_proc in Hc; cbn in Hcur; congruence).
  pose proof (cur_slot c s p q Hs Hc Hq) as Hrun.
  apply (ok_pause c s p q _ k res Hs Hc Hq (or_intror Hf) E1 E2 E3 E4 E5 E6); [|done].
  apply running_life; try done. cbn. unfold alive. auto.
Qed.

Lemma cur_lives c s p : sys_ok s -> cpu_proc (core s) c = Some p -> lives (k_procs (core s)) p.
Proof.
  intros Hs Hc. destruct (cur_runs c s p Hs Hc) as (q & Hq & Hr). exists q. split; [done|]. rewrite Hr. unfold alive. auto.
Qed.

(** Only the calls change. *)
Lemma ok_calls s calls :
  sys_ok s -> calls_ok (k_procs (core s)) (k_initproc (core s)) calls ->
  sys_ok (Sys (core s) (s_held s) (s_phase s) (s_resume s) calls).
Proof. intros [H1 H2 H3 H4 H5 H6 _] Hc. by split. Qed.

Lemma not_fork_exit s p pc : s_call s p = CExit pc -> forall np pc', s_call s p <> CFork np pc'.
Proof. intros E np pc'. by rewrite E. Qed.

Lemma touched_runs i p p' (k k' : kern F) :
  touched i p p' k k' -> same_run p p' -> slots (fun _ => same_run) (k_procs k) (k_procs k').
Proof.
  intros T Hp. split; [apply T|]. intros j q Hq. destruct (decide (j = i)) as [->|Hne].
  - exists p'. split; [apply T|]. pose proof (t_old _ _ _ _ _ T). congruence.
  - destruct (t_oth _ _ _ _ _ T j q Hne Hq) as (q' & Hq' & W). exists q'. split; [done|]. by apply woken_same_run.
Qed.

(** A part of [exit]. *)
Lemma ok_exit_step c s p pc pc' k :
  sys_ok s -> s_phase s c = PRun p -> s_call s p = CExit pc -> exit_at pc p (view c s) = Ret pc' k ->
  sys_ok (set_call p (CExit pc') (commit c k (PRun p) s)).
Proof.
  intros Hs Hp Hcl Hr. destruct (phase_PRun c s p Hs Hp) as (Hk & Hpt & Hc).
  destruct (cur_runs c s p Hs Hc) as (q & Hq & Hrun).
  apply (exit_at_does pc p q) in Hr as (q' & [T [Hn Hh]] & fs & d & ->); [|by rewrite Hrun|apply Hs|done|done].
  destruct (t_frame _ _ _ _ _ T) as [Fi Fc]. change (held (view c s)) with (s_held s c) in Hh.
  assert (Hsl : slots (fun _ => same_life) (k_procs (core s)) (k_procs k)).
  { eapply (one_slot_same p q); [exact (touched_one_slot _ _ _ _ _ T)|]. split; cbn; auto. }
  assert (Hcpu : forall e, cpu_proc k e = cpu_proc (core s) e) by (intros e; unfold cpu_proc; by rewrite Fc).
  pose proof (co_call _ _ _ (so_calls s Hs) p) as Hok. rewrite Hcl in Hok. destruct Hok as [Hl Hni].
  apply sys_ok_step; [done| | | | |].
  - rewrite Hn, Fi. by eapply table_ok_same; [apply Hs|].
  - rewrite Fi. apply calls_exit; [by eapply not_fork_exit|by eapply lives_same|done|]. by eapply calls_same; [|apply Hs].
  - rewrite Hcpu, Hh. done.
  - rewrite Hh. auto.
  - apply run_ok_same; [intros x; by apply cur_runs|done|]. exact (touched_runs p q _ (view c s) k T (same_run_refl q)).
Qed.

Lemma ok_exit_last c s p k :
  sys_ok s -> s_phase s c = PRun p -> free LkPtable s -> s_call s p = CExit XLast ->
  then_switch c (exit_last c p) (view c s) = Ret tt k -> sys_ok (set_call p CNone (commit c k (PScan (S p)) s)).
Proof.
  intros Hs Hp Hf Hcl Hr. destruct (phase_PRun c s p Hs Hp) as (Hk & Hpt & Hc).
  destruct (cur_runs c s p Hs Hc) as (q & Hq & Hrun).
  apply then_switch_run in Hr as (k1 & Hy & E1 & E2 & E3 & E4 & E5 & E6).
  apply (exit_last_run _ p q) in Hy as (_ & Hh & Hn & [Fi Fc] & Hsl); [|apply Hs|done|done].
  pose proof (co_call _ _ _ (so_calls s Hs) p) as Hok. rewrite Hcl in Hok. destruct Hok as [Hl Hni].
  apply slotwise_slots in Hsl. change (k_procs (view c s)) with (k_procs (core s)) in Hsl.
  change (k_initproc (view c s)) with (k_initproc (core s)) in Hsl. cbn in Hn, Fi, Fc. apply (ok_leave c p); [done|done|..].
  - rewrite E1, E2, E3, Fi, Hn. eapply table_ok_death; [apply Hs|exact Hq| |done|exact Hsl].
    rewrite Hrun. unfold alive. auto.
  - rewrite E1, E3, Fi. eapply calls_death; [exact Hcl|exact Hsl|apply Hs].
  - rewrite E1. eapply slots_impl; [|exact Hsl]. intros j q1 q2 HR.
    apply death_fields in HR as (_ & _ & _ & _ & _ & Hst). destruct (j =? p)%nat; [congruence|].
    unfold same_run. destruct Hst as [->|[-> ->]]; done.
  - done.
  - intros d Hd. rewrite E6 by done. unfold cpu_proc. by rewrite Fc.
  - rewrite E4, Hh. split; [by apply pt_only|done].
  - by right.
Qed.

Lemma nextpid_pos s : sys_ok s -> 0 < k_nextpid (core s).
Proof.
  intros Hs. destruct (to_init _ _ _ (so_table s Hs)) as (it & _ & qi & Hqi & Ha). apply alive_not in Ha as (Ha & _).
  pose proof (to_pid _ _ _ (so_table s Hs) it qi Hqi Ha). lia.
Qed.

(** [fork] takes a slot for the child. *)
Lemma ok_fork c s p np k res :
  sys_ok s -> s_phase s c = PRun p -> s_call s p = CNone -> alloc_slot (view c s) = Ret np k ->
  sys_ok (Sys k (<[c := held k]> (s_held s)) (<[c := PRun p]> (s_phase s)) res (<[p := CFork np FkStack]> (s_call s))).
Proof.
  intros Hs Hp Hcl Hr. destruct (phase_PRun c s p Hs Hp) as (Hk & Hpt & Hc).
  apply alloc_slot_run in Hr as (Hb & Hn & Hh & _ & [Fi Fc] & q & Hq & Hu & Eps); [|apply Hs].
  change (held (view c s)) with (s_held s c) in Hh. cbn in Hb, Hn, Fi, Fc, Hq, Eps. pose proof (nextpid_pos s Hs) as Hpos.
  assert (Hcpu : forall d, cpu_proc k d = cpu_proc (core s) d) by (intros d; unfold cpu_proc; by rewrite Fc).
  pose proof (to_unused _ _ _ (so_table s Hs) np q Hq Hu) as Hpar.
  assert (Hsl : slots (one_slot np q (embryo (k_nextpid (core s)) (k_ticks (core s)) q)) (k_procs (core s)) (k_procs k)).
  { rewrite Eps. by apply insert_one_slot. }
  apply sys_ok_step; [done| | | | |].
  - rewrite Hn, Fi. eapply table_ok_slot; [apply Hs|exact Hq|exact Hsl|lia|rewrite Hu; unfold alive; naive_solver|done| |done| |].
    + cbn. congruence.
    + intros _. right. cbn. lia.
    + intros [_ He]. by destruct He.
  - rewrite Fi. eapply calls_birth; [exact Hq|exact Hu| |exact Hsl|by eapply cur_lives|done|apply Hs].
    by split.
  - rewrite Hcpu, Hh. done.
  - rewrite Hh. auto.
  - apply run_ok_same; [intros x; by apply cur_runs|done|]. rewrite Eps. apply (slots_insert _ np q); [done| |done].
    unfold same_run. rewrite Hu. done.
Qed.

(** A part of [fork]. *)
Lemma ok_fork_step copy c s p np pc r k :
  (forall d sz, keeps_held (copy d sz)) ->
  sys_ok s -> s_phase s c = PRun p -> s_call s p = CFork np pc ->
  fork_at kend trapret forkret copy pc p np (view c s) = Ret r k ->
  sys_ok (set_call p (fork_call np r) (commit c k (PRun p) s)).
Proof.
  intros Hcopy Hs Hp Hcl Hr. destruct (phase_PRun c s p Hs Hp) as (Hk & Hpt & Hc).
  pose proof (co_call _ _ _ (so_calls s Hs) p) as Hok. rewrite Hcl in Hok. destruct Hok as (Hl & q & Hq & Hi).
  apply (fork_at_does kend trapret forkret copy pc p np q Hcopy Hi) in Hr as (q' & [T [Hn Hh]] & Epid & Hres); [|apply Hs|done|done].
  destruct (t_frame _ _ _ _ _ T) as [Fi Fc]. change (held (view c s)) with (s_held s c) in Hh. cbn in Hn, Fi, Fc.
  pose proof (touched_one_slot _ _ _ _ _ T) as Hsl. change (k_procs (view c s)) with (k_procs (core s)) in Hsl.
  assert (Hcpu : forall d, cpu_proc k d = cpu_proc (core s) d) by (intros d; unfold cpu_proc; by rewrite Fc).
  apply sys_ok_step; [done| | | | |].
  - rewrite Hn, Fi. eapply table_ok_slot; [apply Hs|exact Hq|exact Hsl|lia|rewrite (fi_state _ _ _ Hi); apply embryo_not_alive|..].
    + destruct r as [pc'|v]; [by rewrite (fi_state _ _ _ Hres)|]. destruct Hres as [(_ & _ & ->)|(_ & -> & _)]; done.
    + intros x Hx. assert (Hxp : x = p); [|by subst x]. destruct r as [pc'|v].
      * rewrite (fi_parent _ _ _ Hres) in Hx. destruct (orphan_pc pc'); congruence.
      * destruct Hres as [(_ & _ & E)|(_ & _ & E & _)]; congruence.
    + destruct r as [pc'|v]; [by rewrite (fi_state _ _ _ Hres)|]. destruct Hres as [(_ & -> & _)|(_ & -> & _)]; done.
    + intros _. left. by rewrite (fi_state _ _ _ Hi).
    + intros [Hu He]. destruct r as [pc'|v]; [by destruct He; apply Hres|].
      destruct Hres as [(_ & ? & _)|(_ & _ & -> & ? & ?)]; done.
  - rewrite Fi. eapply calls_stage; [exact Hcl|exact Hsl|exact Hq| |apply Hs]. destruct r as [pc'|v]; cbn; [done|].
    destruct Hres as [(_ & -> & _)|(_ & -> & _)]; done.
  - rewrite Hcpu, Hh. done.
  - rewrite Hh. auto.
  - apply run_ok_same; [intros x; by apply cur_runs|done|]. apply (touched_runs np q q' (view c s) k T).
    unfold same_run. rewrite (fi_state _ _ _ Hi). destruct r as [pc'|v]; [by rewrite (fi_state _ _ _ Hres)|].
    destruct Hres as [(_ & -> & _)|(_ & -> & _)]; done.
Qed.

(** Both ways into a pass of [wait]: with [ptable.lock] held, [p] the current process
    in slot [q] of the table of the view. *)
Section Wait.
Context {A : Type} (rp : nat -> M (kern F) A) (val : proc -> A) (none : A).
Hypothesis rp_does : forall i p, does i p (rp i) (fun r p' => r = val p /\ reaped p p').

Lemma ok_wait c s p q0 q k0 r k res :
  sys_ok s -> cpu_proc (core s) c = Some p -> k_procs (core s) !! p = Some q0 -> 
  (LkPtable ∈ s_held s c \/ free LkPtable s) ->
  k0 = with_held [LkPtable] (set_procs (<[p := q]> (k_procs (core s))) (core s)) ->
  same_life q0 q -> p_state q = RUNNING ->
  wait_switch c (wait_iter c rp none) k0 = Ret r k ->
  sys_ok (Sys k (<[c := held k]> (s_held s)) (<[c := wait_phase p r]> (s_phase s)) res (s_call s)).
Proof.
  intros Hs Hc Hq0 Hlk -> Hl Hrun Hr. apply lookup_lt_Some in Hq0 as Hlt.
  set (k0 := with_held _ _) in Hr. pose proof (cur_slot c s p q0 Hs Hc Hq0) as Hrun0.
  assert (Hk0 : k_procs k0 = <[p := q]> (k_procs (core s))) by done.
  assert (Ht0 : table_ok (k_procs k0) (k_initproc (core s)) (k_nextpid (core s))).
  { eapply table_ok_same; [apply Hs|]. rewrite Hk0. apply (slots_insert _ p q0); [done|done|intros; apply same_life_refl]. }
  unfold wait_switch in Hr. inv_bind Hr.
  apply (wait_iter_run c rp val) in Hrun1 as (cur & Hcur & Hres); [|exact rp_does|apply Ht0|done].
  assert (cur = p) as -> by (unfold cpu_proc in Hc; cbn in Hcur; congruence). destruct r0 as [v|].
  - inv_ret. cbn [wait_phase]. destruct Hres as (Hh & Hn & Hres).
    assert (Hcpu : forall d, cpu_proc k d = cpu_proc (core s) d /\ k_initproc k = k_initproc (core s)).
    { intros d. destruct Hres as [(i & z & z' & _ & _ & _ & _ & T)|(cp & _ & _ & -> & _)]; [|done].
      destruct (t_frame _ _ _ _ _ T) as [Fi Fc]. unfold cpu_proc. by rewrite Fc, Fi. }
    apply sys_ok_step; [done| | | | |].
    + rewrite Hn, (proj2 (Hcpu 0%nat)). change (k_nextpid k0) with (k_nextpid (core s)).
      destruct Hres as [(i & z & z' & _ & Hpar & Hz & Hre & T)|(cp & _ & _ & -> & _)]; [|exact Ht0].
      destruct Hre as (Ez & _ & Epar & _).
      eapply (table_ok_slot i z z'); [exact Ht0|apply T|by apply touched_one_slot|lia|..]; try congruence.
      * rewrite Hz. unfold alive. naive_solver.
      * by intros [? _].
    + rewrite (proj2 (Hcpu 0%nat)).
      assert (Hc0 : calls_ok (k_procs k0) (k_initproc (core s)) (s_call s)).
      { eapply calls_same; [|apply Hs]. rewrite Hk0. apply (slots_insert _ p q0); [done|done|intros; apply same_life_refl]. }
      destruct Hres as [(i & z & z' & _ & _ & Hz & (Ez & _) & T)|(cp & _ & _ & -> & _)]; [|exact Hc0].
      eapply (calls_burial i z z'); [apply T|done|by rewrite Ez|by apply touched_one_slot|exact Hc0].
    + rewrite (proj1 (Hcpu c)), Hh. split; [set_solver|]. split; [set_solver|done].
    + rewrite Hh. set_solver.
    + apply run_ok_same; [intros x; by apply cur_runs|apply Hcpu|].
      assert (S0 : slots (fun _ => same_run) (k_procs (core s)) (k_procs k0)).
      { rewrite Hk0. apply (slots_insert _ p q0); [done| |done]. unfold same_run. by rewrite Hrun, Hrun0. }
      destruct Hres as [(i & z & z' & _ & _ & Hz & (Ez & _) & T)|(cp & _ & _ & -> & _)]; [|exact S0].
      eapply slots_compose; [exact S0|eapply touched_runs; [exact T|]|].
      * unfold same_run. by rewrite Hz, Ez.
      * unfold same_run. naive_solver.
  - inv_bind Hr. inv_ret. apply scheduler_back_run in Hrun1 as (E1 & E2 & E3 & E4 & E5 & E6).
    destruct Hres as (cp & Hcp & -> & _). cbn in E1, E2, E3, Hcp. rewrite list_lookup_insert_eq in Hcp by done.
    injection Hcp as <-. rewrite list_insert_insert_eq in E1.
    apply (ok_pause c s p q0 _ k res Hs Hc Hq0 Hlk E1 E2 E3 E4 E5 E6); [|done].
    destruct Hl. apply running_life; try done. cbn. unfold alive. auto.
Qed.

Lemma ok_wait_call c s p r k res :
  sys_ok s -> s_phase s c = PRun p -> s_held s c = [] -> free LkPtable s -> wait_switch c (acquire LkPtable ;;; wait_iter c rp none) (view c s) = Ret r k ->
  sys_ok (Sys k (<[c := held k]> (s_held s)) (<[c := wait_phase p r]> (s_phase s)) res (s_call s)).
Proof.
  intros Hs Hp Hh Hf Hr. destruct (phase_PRun c s p Hs Hp) as (Hk & Hpt & Hc).
  destruct (cur_runs c s p Hs Hc) as (q & Hq & Hrun). unfold wait_switch in Hr. rewrite bind_assoc in Hr.
  inv_bind Hr. apply acquire_run in Hrun0 as [_ ->]. change (held (view c s)) with (s_held s c) in Hr.
  eapply (ok_wait c s p q q); [done|done|done|by right| |apply same_life_refl|done|exact Hr].
  unfold view. rewrite list_insert_id, Hh by done. by destruct (core s) as [[]].
Qed.

Lemma ok_back_wait c s p r k res :
  sys_ok s -> s_phase s c = PIn p ->
  wait_switch c (sleep_after c LkPtable ;;; wait_iter c rp none) (view c s) = Ret r k ->
  sys_ok (Sys k (<[c := held k]> (s_held s)) (<[c := wait_phase p r]> (s_phase s)) res (s_call s)).
Proof.
  intros Hs Hp Hr. pose proof (so_phase s Hs c) as [_ Hph]. rewrite Hp in Hph. destruct Hph as [Hh Hc].
  destruct (cur_runs c s p Hs Hc) as (q & Hq & Hrun). unfold wait_switch in Hr. rewrite bind_assoc in Hr.
  inv_bind Hr. unfold sleep_after in Hrun0. inv_bind Hrun0. apply curproc_run in Hrun1 as [Hcur ->].
  assert (r1 = p) as -> by (unfold cpu_proc in Hc; cbn in Hcur; congruence).
  inv_bind Hrun0. apply upd_proc_run in Hrun1 as (q' & Hq' & ->).
  rewrite bool_decide_eq_true_2 in Hrun0 by done. cbn [negb] in Hrun0. inv_ret.
  assert (q' = q) as -> by (cbn in Hq'; congruence).
  eapply (ok_wait c s p q (set_chan None q)); [done|done|done|rewrite Hh; left; set_solver|..| |done|exact Hr].
  - unfold view. rewrite Hh. by destruct (core s) as [[]].
  - apply running_life; try done; [cbn; rewrite Hrun; unfold alive; auto|]. cbn. congruence.
Qed.
End Wait.

(** A process is switched to. *)
Lemma ok_switch c s i fuel k res :
  sys_ok s -> s_phase s c = PScan i -> scheduler_slot cfg ts_addr c fuel i (view c s) = Ret true k ->
  sys_ok (Sys k (<[c := held k]> (s_held s)) (<[c := PIn i]> (s_phase s)) res (s_call s)).
Proof.
  intros Hs Hp Hr. pose proof (so_phase s Hs c) as [Hkm Hph]. rewrite Hp in Hph. destruct Hph as [Hh Hc].
  apply scheduler_slot_run in Hr as (En & Ei & Eh & Ec & q & Hq & Hst & Hks & Hpg & _ & Eps).
  cbn in En, Ei, Hq, Eps. change (held (view c s)) with (s_held s c) in Eh.
  assert (Hcc : cpu_proc k c = Some i) by (by rewrite Ec, Nat.eqb_refl).
  assert (Hother : forall d, d <> c -> cpu_proc k d = cpu_proc (core s) d).
  { intros d Hd. rewrite Ec, (proj2 (Nat.eqb_neq d c)) by done. done. }
  assert (Hsl : slots (fun _ => same_life) (k_procs (core s)) (k_procs k)).
  { rewrite Eps. apply (slots_insert _ i q); [done| |intros; apply same_life_refl].
    split; cbn; try done. right. rewrite Hst. unfold alive. auto. }
  apply lookup_lt_Some in Hq as Hlt. apply sys_ok_step; [done| | | | |].
  - rewrite En, Ei. by eapply table_ok_same; [apply Hs|].
  - rewrite Ei. by eapply calls_same; [|apply Hs].
  - rewrite Hcc, Eh, Hh. split; [by apply pt_only|done].
  - rewrite Eh. auto.
  - split; [|intros p; rewrite Hcc; intros [= <-]; right; intros (q' & Hq' & ?); congruence|done].
    intros p. rewrite Hcc, Hc. unfold runs. rewrite Eps. destruct (decide (p = i)) as [->|Hne].
    + rewrite list_lookup_insert_eq by done. split; [by left|]. intros _. by eexists.
    + rewrite list_lookup_insert_ne by done. naive_solver.
Qed.

Lemma ok_back_sleep c s p l k res :
  sys_ok s -> s_phase s c = PIn p -> l <> LkPtable -> l <> LkKmem -> sleep_after c l (view c s) = Ret tt k ->
  sys_ok (Sys k (<[c := held k]> (s_held s)) (<[c := PRun p]> (s_phase s)) res (s_call s)).
Proof.
  intros Hs Hp Hl Hlk Hr. pose proof (so_phase s Hs c) as [_ Hph]. rewrite Hp in Hph. destruct Hph as [Hh Hc].
  destruct (cur_runs c s p Hs Hc) as (q & Hq & Hrun). unfold sleep_after in Hr. inv_bind Hr.
  apply curproc_run in Hrun0 as [Hcur ->].
  assert (r = p) as -> by (unfold cpu_proc in Hc; cbn in Hcur; congruence).
  inv_bind Hr. apply upd_proc_run in Hrun0 as (q' & Hq' & ->). assert (q' = q) as -> by (cbn in Hq'; congruence).
  rewrite bool_decide_eq_false_2 in Hr by done. cbn [negb] in Hr. inv_bind Hr.
  apply (release_run _ []) in Hrun0 as ->; [|exact Hh|set_solver]. apply acquire_run in Hr as [_ ->].
  eapply ok_local; [done| |done|done|done|..].
  - cbn. apply (slots_insert _ p q); [done| |intros; split; [apply same_life_refl|done]]. split; [|done].
    apply running_life; try done; [cbn; rewrite Hrun; unfold alive; auto|]. cbn. congruence.
  - change (phase_ok [l] (cpu_proc (core s) c) (PRun p)). rewrite Hc. split; [set_solver|]. split; [set_solver|done].
  - change (LkPtable ∈ [l] -> LkPtable ∈ s_held s c \/ free LkPtable s). set_solver.
Qed.

(** An operation under [ptable.lock] that maps every slot. *)
Lemma ok_map c s f k :
  sys_ok s -> (s_phase s c = PIdle \/ exists p, s_phase s c = PRun p) ->
  (forall q, same_life q (f q) /\ same_run q (f q)) ->
  k = set_procs (f <$> k_procs (core s)) (view c s) -> sys_ok (commit c k (s_phase s c) s).
Proof.
  intros Hs Hp Hf ->. eapply ok_local; [done| |done|done|done|exact (so_phase s Hs c)|by left].
  cbn. split; [by rewrite length_fmap|]. intros j q Hq. exists (f q). rewrite list_lookup_fmap, Hq. by split.
Qed.

Lemma not_ptable c s : sys_ok s -> (s_phase s c = PIdle \/ exists p, s_phase s c = PRun p) -> LkPtable ∉ s_held s c.
Proof. intros Hs Hp. pose proof (so_phase s Hs c) as [_ Hph]. destruct Hp as [E|[p E]]; rewrite E in Hph; destruct Hph as [Hh _]; [rewrite Hh; set_solver|done]. Qed.

Lemma tick_life q : same_life q (tick_stats q) /\ same_run q (tick_stats q).
Proof. unfold tick_stats, same_run. destruct (p_state q) eqn:E; (split; [split; cbn; auto|cbn; by rewrite ?E]). Qed.

Lemma kill_life q : same_life q (kill_proc q) /\ same_run q (kill_proc q).
Proof.
  unfold kill_proc, same_run. destruct (decide (p_state q = SLEEPING)) as [E|E].
  - rewrite bool_decide_eq_true_2 by done. cbn. rewrite E. split; [|done]. split; cbn; try done.
    rewrite E. unfold alive. auto.
  - rewrite bool_decide_eq_false_2 by done. split; [|done]. split; cbn; auto.
Qed.

Lemma ok_kill c s p pid r k res :
  sys_ok s -> s_phase s c = PRun p -> kill pid (view c s) = Ret r k ->
  sys_ok (Sys k (<[c := held k]> (s_held s)) (<[c := PRun p]> (s_phase s)) res (s_call s)).
Proof.
  intros Hs Hp Hr. pose proof (so_phase s Hs c) as Hph. rewrite Hp in Hph.
  apply kill_run in Hr as [(_ & -> & _)|(_ & i & q & Hq & _ & _ & ->)]; [| |apply Hs].
  - eapply ok_local; [done|apply ok_refl|done|done|done|done|by left].
  - eapply ok_local; [done| |done|done|done|done|by left]. cbn.
    apply (slots_insert _ i q); [done|apply kill_life|]. intros; split; [apply same_life_refl|done].
Qed.

(** Changing only the locks of processor [c]. *)
Lemma ok_held c s h ph :
  sys_ok s -> phase_ok h (cpu_proc (core s) c) ph -> (LkPtable ∈ h -> LkPtable ∈ s_held s c \/ free LkPtable s) ->
  sys_ok (commit c (with_held h (view c s)) ph s).
Proof. intros Hs Hp Hl. eapply ok_local; [done|apply ok_refl|done|done|done|done|done]. Qed.

Lemma ok_skip c s i fuel k :
  sys_ok s -> s_phase s c = PScan i -> scheduler_slot cfg ts_addr c fuel i (view c s) = Ret false k ->
  sys_ok (commit c k (PScan (S i)) s).
Proof.
  intros Hs Hp Hr. pose proof (so_phase s Hs c) as Hph. rewrite Hp in Hph.
  apply scheduler_slot_run in Hr as (En & Ei & Eh & Ec & q & Hq & Eps & _).
  assert (Hd : forall d, cpu_proc k d = cpu_proc (core s) d) by (intros d; rewrite Ec, andb_false_r; done).
  unfold commit. eapply ok_local; [done| |done|done|done|..]; rewrite ?Eps, ?Eh; [apply ok_refl|exact Hph|by left].
Qed.

(** [resetPriority] changes queues and priorities only. *)
Record calm (k k' : kern F) : Prop := {
  ca_slots : slots (fun _ q q' => exists v, q' = set_priority v q) (k_procs k) (k_procs k');
  ca_next : k_nextpid k' = k_nextpid k;
  ca_init : k_initproc k' = k_initproc k;
  ca_cpus : k_cpus k' = k_cpus k;
  ca_held : held k' = held k
}.

Definition calms {A} (m : M (kern F) A) : Prop := forall k a k', m k = Ret a k' -> calm k k'.

Lemma calm_slots_refl ps : slots (fun _ q q' => exists v, q' = set_priority v q) ps ps.
Proof. apply slots_refl. intros j q. exists (p_priority q). by destruct q. Qed.

Lemma calms_bind {A B} (m : M (kern F) A) (f : A -> M (kern F) B) : calms m -> (forall a, calms (f a)) -> calms (bind m f).
Proof.
  intros Hm Hf k b k' Hr. inv_bind Hr. destruct (Hm k r s Hrun) as [S1 ? ? ? ?], (Hf r s b k' Hr) as [S2 ? ? ? ?].
  split; [|congruence..]. eapply slots_compose; [exact S1|exact S2|]. intros j q q1 q2 [v ->] [w ->]. by exists w.
Qed.

Lemma calms_id {A} (m : M (kern F) A) : (forall k a k', m k = Ret a k' -> k' = k) -> calms m.
Proof. intros Hm k a k' Hr. apply Hm in Hr as ->. by split; [apply calm_slots_refl|..]. Qed.

Lemma calms_priority i v : calms (upd_proc i (set_priority v)).
Proof.
  intros k a k' Hr. apply upd_proc_run in Hr as (q & Hq & ->). split; try done. cbn.
  apply (slots_insert _ i q); [done|by exists v|]. intros j x _. exists (p_priority x). by destruct x.
Qed.

Lemma calms_get_que a b : calms (get_que a b : M (kern F) _).
Proof. apply calms_id. intros k r k'. unfold get_que. repeat case_match; congruence. Qed.
Lemma calms_get_count a : calms (get_count a : M (kern F) _).
Proof. apply calms_id. intros k r k'. unfold get_count. repeat case_match; congruence. Qed.
Lemma calms_set_que a b v : calms (set_que_at a b v : M (kern F) _).
Proof. apply calms_bind; [apply calms_get_que|]. intros _ k r k' [= _ <-]. by split; [apply calm_slots_refl|..]. Qed.
Lemma calms_set_count a v : calms (set_count_at a v : M (kern F) _).
Proof. apply calms_bind; [apply calms_get_count|]. intros _ k r k' [= _ <-]. by split; [apply calm_slots_refl|..]. Qed.
Lemma calms_ret {A} (a : A) : calms (ret a).
Proof. apply calms_id. by intros k r k' [= _ <-]. Qed.

Lemma calms_shift pri n i : calms (shift_que pri n i : M (kern F) _).
Proof.
  revert i. induction n as [|n IH]; intros i; cbn [shift_que]; [apply calms_ret|].
  apply calms_bind; [apply calms_get_que|intros v]. apply calms_bind; [apply calms_set_que|intros _; apply IH].
Qed.

Lemma calms_reset_slot i : calms (reset_slot i).
Proof.
  unfold reset_slot. apply calms_bind; [apply calms_id; intros k r k'; unfold get_proc; case_match; congruence|intros p].
  case_match; [|apply calms_priority]. cbv zeta. apply calms_bind; [apply calms_get_que|intros q].
  apply calms_bind; [|intros _].
  - case_match; [|apply calms_ret]. apply calms_bind; [apply calms_get_count|intros n].
    apply calms_bind; [apply calms_shift|intros _; apply calms_set_count].
  - apply calms_bind; [apply calms_priority|intros _]. apply calms_bind; [apply calms_get_count|intros n].
    apply calms_bind; [apply calms_set_count|intros _; apply calms_set_que].
Qed.

Lemma calms_for f n i : (forall j, calms (f j)) -> calms (for_procs f n i : M (kern F) _).
Proof.
  intros Hf. revert i. induction n as [|n IH]; intros i; cbn [for_procs]; [apply calms_ret|].
  apply calms_bind; [apply Hf|intros _; apply IH].
Qed.

Lemma resetPriority_calm (k : kern F) r k' : resetPriority k = Ret r k' -> calm k k'.
Proof.
  intros Hr. unfold resetPriority in Hr. inv_bind Hr. apply acquire_run in Hrun as [Hn ->]. inv_bind Hr.
  apply (calms_for reset_slot NPROC 0 calms_reset_slot) in Hrun as [S1 E1 E2 E3 E4].
  change (held (with_held (LkPtable :: held k) k)) with (LkPtable :: held k) in E4.
  apply (release_run _ (held k)) in Hr as ->; [|done|done]. by split.
Qed.

Lemma ok_reset c s k :
  sys_ok s -> resetPriority (view c s) = Ret tt k -> sys_ok (commit c k (s_phase s c) s).
Proof.
  intros Hs Hr. apply resetPriority_calm in Hr as [S1 E1 E2 E3 E4]. change (held (view c s)) with (s_held s c) in E4.
  eapply ok_local; [done| |done|done|..].
  - eapply slots_impl; [|exact S1]. intros j q q' [v ->]. split; [|done]. by split; cbn; auto.
  - intros d. unfold cpu_proc. by rewrite E3.
  - rewrite E4. apply (so_phase s Hs).
  - rewrite E4. by left.
Qed.

Lemma sstep_ok c s s' : sys_ok s -> sstep c s s' -> sys_ok s'.
Proof.
  intros Hs Hstep. pose proof (so_phase s Hs c) as Hph.
  destruct Hstep as [k Hp Hf Hr|i fuel k Hp Hi Hr|i fuel k Hp Hi Hr|k Hp Hr|p k Hp Hre Hr|p l k Hp Hre Hl Hlk Hf Hr|
    p r k Hp Hre Hr|p r k Hp Hre Hr|p k Hp Hf Hr|p ch l k Hp Hf Hl Hlk Hr|p r k Hp Hh Hcl Hf Hr|p r k Hp Hh Hcl Hf Hr|p Hp Hh Hcl Hni|
    p pc pc' k Hp Hh Hcl Hf Hr|p k Hp Hh Hcl Hf Hr|p np k Hp Hh Hcl Hf Hr|copy p np pc r k Hcopy Hp Hh Hcl Hf Hr|p pid r k Hp Hh Hcl Hf Hr|ch k Hp Hf Hr|k Hp Hf Hr|k Hp Hf Hr|p l k Hp Hl Hlk Hf Hr|p l k Hp Hl Hr];
    try rewrite Hp in Hph.
  - apply acquire_run in Hr as [Hn ->]. destruct Hph as (Hk & Hh & Hc).
    change (held (view c s)) with (s_held s c). rewrite Hh.
    apply ok_held; [done|rewrite Hc; split; set_solver|by right].
  - by eapply ok_skip.
  - by eapply ok_switch.
  - destruct Hph as (Hk & Hh & Hc). apply (release_run _ []) in Hr as ->; [|exact Hh|set_solver].
    apply ok_held; [done|rewrite Hc; split; set_solver|set_solver].
  - destruct Hph as (Hk & Hh & Hc). apply (release_run _ []) in Hr as ->; [|exact Hh|set_solver].
    apply ok_held; [done|rewrite Hc; split; set_solver|set_solver].
  - by eapply ok_back_sleep.
  - eapply (ok_back_wait (reap kend) p_pid (-1)); [intros; apply reap_does|done..].
  - eapply (ok_back_wait (test_reap kend)); [intros; apply test_reap_does|done..].
  - unfold set_resume, commit. cbn [core s_held s_phase s_resume s_call]. by eapply ok_yield.
  - unfold set_resume, commit. cbn [core s_held s_phase s_resume s_call]. by eapply ok_sleep.
  - unfold wait_resume, set_resume, commit. cbn [core s_held s_phase s_resume s_call]. destruct r; (eapply (ok_wait_call (reap kend) p_pid (-1)); [intros; apply reap_does|done..]).
  - unfold wait_resume, set_resume, commit. cbn [core s_held s_phase s_resume s_call]. destruct r; (eapply (ok_wait_call (test_reap kend)); [intros; apply test_reap_does|done..]).
  - apply ok_calls; [done|]. apply calls_exit; [by rewrite Hcl|by eapply cur_lives; [|apply Hph]|done|apply Hs].
  - by eapply ok_exit_step.
  - by eapply ok_exit_last.
  - unfold set_call, set_resume, commit. cbn [core s_held s_phase s_resume s_call]. by eapply ok_fork.
  - eapply (ok_fork_step copy); [destruct Hcopy as [-> | ->]; auto with held|done|done|done|exact Hr].
  - by eapply ok_kill.
  - pose proof (not_ptable c s Hs Hp) as Hn. rewrite wakeup_eq in Hr by (apply Hs || done). injection Hr as <-.
    eapply (ok_map c s (wake ch)); [done|done| |done]. intros q.
    split; [apply woken_same_life|apply woken_same_run]; apply woken_wake.
  - pose proof (not_ptable c s Hs Hp) as Hn. rewrite updateStats_eq in Hr by (apply Hs || done). injection Hr as <-.
    eapply (ok_map c s tick_stats); [done|done|apply tick_life|done].
  - by apply ok_reset.
  - apply acquire_run in Hr as [Hn ->]. destruct Hph as (Hk & Hpt & Hc).
    apply ok_held; [done|rewrite Hc; split; [|split]; set_solver|]. intros [?|?]%elem_of_cons; [done|by left].
  - destruct Hph as (Hk & Hpt & Hc). unfold release in Hr. destruct (decide _); [|done]. injection Hr as <-.
    apply (ok_held c s (filter (fun l' => l' ≠ l) (s_held s c))); [done|rewrite Hc|].
    + split; [|split; [|done]]; rewrite list_elem_of_filter; naive_solver.
    + rewrite list_elem_of_filter. naive_solver.
Qed.
End System.
