(* ===== verification/Progress.v ===== *)
(** * What a processor can count on while it scans the table

    Runs of the system as sequences of steps, each with the processor that made it.  While
    a processor holds [ptable.lock], the steps of the others leave its place in the scan
    alone, and no process becomes RUNNABLE or stops being it: an operation that would
    change that waits for the lock. *)

From stdpp Require Import functions.
From S2P Require Import Prelude Mmu Mem Cstring Kalloc Vm Rand Proc ProcSpec ProcOps Sched System.
#[local] Open Scope Z_scope.

Section Progress.
Context {F : Type} `{FileLayer F}.
Implicit Types k : kern F.
Implicit Types s : @sys F.

Definition can_run (ps : list proc) (j : nat) : Prop := exists q, ps !! j = Some q /\ p_state q = RUNNABLE.

(** ** Parts that keep to one slot *)

(** [m], run from a state that satisfies [P], changes no slot but [i]. *)
Definition only (i : nat) {A} (P : kern F -> Prop) (m : M (kern F) A) : Prop :=
  forall k a k', P k -> m k = Ret a k' -> forall j, j <> i -> k_procs k' !! j = k_procs k !! j.

Definition any : kern F -> Prop := fun _ => True.

Lemma only_bind i {A B} P (m : M (kern F) A) (f : A -> M (kern F) B) :
  only i P m -> (forall a, only i any (f a)) -> only i P (bind m f).
Proof using.
  intros Hm Hf k b k' HP Hr j Hj. inv_bind Hr. rewrite (Hf r s b k' I Hr j Hj). by apply (Hm k r s HP Hrun).
Qed.

Lemma only_ret i {A} P (a : A) : only i P (ret a).
Proof using. intros k b k' _ [= _ <-]. done. Qed.

Lemma only_upd i P f : only i P (upd_proc i f).
Proof using.
  intros k a k' _ Hr j Hj. apply upd_proc_run in Hr as (p & _ & ->). cbn. by rewrite list_lookup_insert_ne.
Qed.

Lemma only_mach i {A} P (m : M machine A) : only i P (mach m).
Proof using. intros k a k' _ Hr j Hj. by apply mach_run in Hr as (s' & _ & ->). Qed.

Lemma only_ub i {A} P e : only i P (ub e : M (kern F) A).
Proof using. done. Qed.

(** An operation on files that wakes nobody. *)
Lemma only_files i {A} P (m : M F A) : (forall k, P k -> wakes m k = false) -> only i P (files m).
Proof using.
  intros HP k a k' Hk Hr j Hj. specialize (HP k Hk). unfold wakes in HP. unfold files in Hr. inv_bind Hr.
  unfold zoom in Hrun. destruct (m (k_fs k)) as [b f'|e|ch f'|e]; [|done..]. injection Hrun as _ <-.
  rewrite bind_gets, bind_modify in Hr. apply negb_false_iff, bool_decide_eq_true in HP.
  change (k_fs (set_fs f' k)) with f' in Hr. rewrite HP in Hr. by injection Hr as _ <-.
Qed.

(** Reading a slot first: what is found there may be used. *)
Lemma only_get i {A} x P (f : proc -> M (kern F) A) :
  (forall p, only i (fun k => P k /\ k_procs k !! x = Some p) (f p)) -> only i P (bind (get_proc x) f).
Proof using.
  intros Hf k a k' Hk Hr j Hj. destruct (k_procs k !! x) as [p|] eqn:Hp.
  - rewrite (bind_ret _ _ _ _ _ (get_proc_eq x k p Hp)) in Hr. exact (Hf p k a k' (conj Hk Hp) Hr j Hj).
  - unfold bind, get_proc in Hr. by rewrite Hp in Hr.
Qed.

Ltac only1 :=
  repeat (cbv zeta; first
    [ apply only_ret | apply only_upd | apply only_mach | apply only_ub
    | apply only_get; intros ?
    | apply only_bind; [first [apply only_upd | apply only_mach]|intros ?]
    | match goal with |- only _ _ (if ?b then _ else _) => destruct b end ]).

Context (kend trapret forkret : Z).

(** Without [ptable.lock], the parts of [fork] change the slot of the child only. *)
Lemma fork_at_only copy pc cur np :
  only np (fun k => fork_locks pc cur k = false) (fork_at kend trapret forkret copy pc cur np).
Proof using.
  destruct pc as [| | | | | |j| | |]; cbn [fork_at]; try (apply only_bind; [|intros ?; apply only_ret]).
  - unfold new_kstack. only1.
  - unfold free_slot. only1.
  - unfold stack_frame. only1.
  - unfold fork_copy. only1.
  - unfold fork_undo. only1.
  - unfold fork_fill. only1.
  - unfold dup_file. apply only_get. intros cp. destruct (p_ofile cp !! j) as [[f|]|] eqn:Hj; [|only1..].
    apply only_bind; [|intros ?; only1]. apply only_files. intros k [Hk Hcp]. unfold fork_locks in Hk. by rewrite Hcp, Hj in Hk.
  - unfold fork_cwd. apply only_get. intros cp. destruct (p_cwd cp) as [d|] eqn:Hd; [|only1].
    apply only_bind; [|intros ?; only1]. apply only_files. intros k [Hk Hcp]. unfold fork_locks in Hk. by rewrite Hcp, Hd in Hk.
  - unfold fork_name. only1.
  - by intros k a k' Hk.
Qed.

Lemma exit_at_only pc cur : only cur (fun k => exit_locks pc cur k = false) (exit_at pc cur).
Proof using.
  destruct pc as [j| | | | |]; cbn [exit_at]; try (apply only_bind; [|intros ?; apply only_ret]).
  - unfold close_file. apply only_get. intros cp. destruct (p_ofile cp !! j) as [[f|]|] eqn:Hj; [|only1..].
    apply only_bind; [|intros ?; only1]. apply only_files. intros k [Hk Hcp]. unfold exit_locks in Hk. by rewrite Hcp, Hj in Hk.
  - apply only_files. intros k Hk. unfold exit_locks in Hk. by destruct (k_procs k !! cur).
  - unfold exit_cwd. apply only_get. intros cp. destruct (p_cwd cp) as [d|] eqn:Hd; [|only1].
    apply only_files. intros k [Hk Hcp]. unfold exit_locks in Hk. by rewrite Hcp, Hd in Hk.
  - apply only_files. intros k Hk. unfold exit_locks in Hk. by destruct (k_procs k !! cur).
  - only1.
  - only1.
Qed.

(** A part of [fork] that does not take the lock ends the call only in failure. *)
Lemma fork_at_fails copy pc cur np k v k' :
  fork_locks pc cur k = false -> fork_at kend trapret forkret copy pc cur np k = Ret (inr v) k' -> v = -1.
Proof using.
  intros Hl Hr. destruct pc as [| | | | | |j| | |]; cbn [fork_at] in Hr; try done; inv_bind Hr; by inv_ret.
Qed.

(** ** Steps of the other processors *)

Context (cfg : sched_config) (kdata : Z) (ts_addr : nat -> Z).
#[local] Abbreviation sstep := (sstep cfg kend kdata trapret forkret ts_addr).

(** A slot that no step without the lock makes RUNNABLE, or stops from being it. *)
Lemma one_slot_runnable i q q' ps ps' :
  ps !! i = Some q -> ps' !! i = Some q' -> (p_state q = RUNNABLE <-> p_state q' = RUNNABLE) ->
  (forall j, j <> i -> ps' !! j = ps !! j) -> forall j, can_run ps' j <-> can_run ps j.
Proof using.
  intros Hq Hq' Hiff Hoth j. unfold can_run. destruct (decide (j = i)) as [->|Hj].
  - rewrite Hq, Hq'. split; intros (x & [= <-] & Hx); eexists; (split; [reflexivity|]); by apply Hiff.
  - by rewrite Hoth.
Qed.

Lemma exit_step_quiet c s p pc pc' k :
  sys_ok s -> s_phase s c = PRun p -> exit_locks pc p (view c s) = false -> exit_at pc p (view c s) = Ret pc' k ->
  forall j, can_run (k_procs k) j <-> can_run (k_procs (core s)) j.
Proof using.
  intros Hs Hp Hl Hr. destruct (phase_PRun c s p Hs Hp) as (Hk & Hpt & Hc).
  destruct (cur_runs c s p Hs Hc) as (q & Hq & Hrun). pose proof (exit_at_only pc p (view c s) pc' k Hl Hr) as Ho.
  apply (exit_at_does pc p q) in Hr as (q' & [T _] & fs & d & ->); [|by rewrite Hrun|apply Hs|done|done].
  eapply (one_slot_runnable p q); [done|apply T|done|exact Ho].
Qed.

Lemma fork_step_quiet copy c s p np pc r k :
  (forall d sz, keeps_held (copy d sz)) -> sys_ok s -> s_phase s c = PRun p -> s_call s p = CFork np pc ->
  fork_locks pc p (view c s) = false -> fork_at kend trapret forkret copy pc p np (view c s) = Ret r k ->
  forall j, can_run (k_procs k) j <-> can_run (k_procs (core s)) j.
Proof using.
  intros Hcopy Hs Hp Hcl Hl Hr. destruct (phase_PRun c s p Hs Hp) as (Hk & Hpt & Hc).
  pose proof (fork_at_only copy pc p np (view c s) r k Hl Hr) as Ho.
  pose proof (co_call _ _ _ (so_calls s Hs) p) as Hok. rewrite Hcl in Hok. destruct Hok as (_ & q & Hq & Hi).
  pose proof (fi_state _ _ _ Hi) as Hst. pose proof (fun v E => fork_at_fails copy pc p np (view c s) v k Hl (eq_trans Hr E)) as Hfail.
  apply (fork_at_does kend trapret forkret copy pc p np q Hcopy Hi) in Hr as (q' & [T _] & _ & Hres); [|apply Hs|done|done].
  eapply (one_slot_runnable np q q'); [done|apply T| |exact Ho]. rewrite Hst. split; [done|]. destruct r as [pc'|v].
  - by rewrite (fi_state _ _ _ Hres).
  - destruct Hres as [(_ & -> & _)|(-> & _)]; [done|]. specialize (Hfail _ eq_refl).
    pose proof (to_pid _ _ _ (so_table s Hs) np q Hq ltac:(by rewrite Hst)). lia.
Qed.

(** The phase of a processor is its own. *)
Lemma sstep_phase c d s s' : sstep d s s' -> d <> c -> s_phase s' c = s_phase s c.
Proof using.
  intros Hstep Hd.
  destruct Hstep; unfold wait_resume, set_resume, set_call, commit; try match goal with |- context [match ?r with Some _ => _ | None => _ end] => destruct r end;
    cbn [s_phase]; rewrite ?fn_lookup_insert_ne by done; done.
Qed.

(** Steps of [d] while [c] holds [ptable.lock]. *)
Lemma sstep_quiet c d s s' :
  sys_ok s -> LkPtable ∈ s_held s c -> sstep d s s' -> d <> c ->
  forall j, can_run (k_procs (core s')) j <-> can_run (k_procs (core s)) j.
Proof using.
  intros Hs Hc Hstep Hd. pose proof (so_phase s Hs d) as [_ Hph].
  assert (Hn : LkPtable ∉ s_held s d) by (intros Hd'; by apply Hd, (so_lock s Hs)).
  assert (Hnf : ~ free LkPtable s) by (intros Hf; by apply (Hf c)).
  assert (Hno : forall b : bool, (b = true -> free LkPtable s) -> b = false) by (intros [] Hb; [by destruct Hnf; apply Hb|done]).
  destruct Hstep as [k Hp Hf Hr|i fuel k Hp Hi Hr|i fuel k Hp Hi Hr|k Hp Hr|p k Hp Hre Hr|p l k Hp Hre Hl Hlk Hf Hr|
    p r k Hp Hre Hr|p r k Hp Hre Hr|p k Hp Hf Hr|p ch l k Hp Hf Hl Hlk Hr|p r k Hp Hh Hcl Hf Hr|p r k Hp Hh Hcl Hf Hr|p Hp Hh Hcl Hni|
    p pc pc' k Hp Hh Hcl Hf Hr|p k Hp Hh Hcl Hf Hr|p np k Hp Hh Hcl Hf Hr|copy p np pc r k Hcopy Hp Hh Hcl Hf Hr|p pid r k Hp Hh Hcl Hf Hr|ch k Hp Hf Hr|k Hp Hf Hr|k Hp Hf Hr|p l k Hp Hl Hlk Hf Hr|p l k Hp Hl Hr];
    try done; try (rewrite Hp in Hph; destruct Hph as [Hh _]; exfalso; apply Hn; rewrite Hh; set_solver).
  - eapply exit_step_quiet; [done|done|by apply Hno|exact Hr].
  - eapply (fork_step_quiet copy); [destruct Hcopy as [-> | ->]; auto with held|done|done|done|by apply Hno|exact Hr].
  - by apply acquire_run in Hr as [_ ->].
  - unfold release in Hr. destruct (decide _); [|done]. by injection Hr as <-.
Qed.

(** ** The scan *)

Lemma switchuvm_returns c i q (k : kern F) :
  k_procs k !! i = Some q -> p_kstack q <> 0 -> p_pgdir q <> 0 -> cpu_proc k c = Some i ->
  exists k', switchuvm ts_addr c i k = Ret tt k'.
Proof using.
  intros Hq Hks Hpg Hc. unfold switchuvm. step (get_proc_eq i k q Hq).
  rewrite (proj2 (Z.eqb_neq _ _) Hks), (proj2 (Z.eqb_neq _ _) Hpg). cbv zeta. unfold upd_percpu.
  rewrite bind_modify. set (k1 := set_cpus _ k).
  assert (E : curproc c k1 = Ret i k1).
  { unfold curproc, myproc. rewrite bind_gets. unfold cpu_proc in Hc. cbn. rewrite fn_lookup_insert. cbn. by rewrite Hc. }
  step E. step (get_proc_eq i k1 q Hq). rewrite bind_modify. eexists. reflexivity.
Qed.

Lemma slot_returns fuel c i s :
  sys_ok s -> s_phase s c = PScan i -> (i < NPROC)%nat ->
  exists b k, scheduler_slot DEFAULT ts_addr c fuel i (view c s) = Ret b k /\
    (b = true <-> exists q, k_procs (core s) !! i = Some q /\ p_state q = RUNNABLE).
Proof using.
  intros Hs Hp Hi. pose proof (so_table s Hs) as Ht.
  destruct (lookup_lt_is_Some_2 (k_procs (core s)) i) as [q Hq]; [by rewrite (to_len _ _ _ Ht)|].
  unfold scheduler_slot. step (get_proc_eq i (view c s) q Hq).
  destruct (decide (p_state q = RUNNABLE)) as [Hst|Hst].
  - rewrite bool_decide_eq_true_2 by done. cbn [negb].
    destruct (to_mem _ _ _ Ht i q Hq ltac:(by rewrite Hst)) as [Hks Hpg]. unfold upd_percpu.
    rewrite (bind_ret (ret (-1)) _ _ (-1) _ eq_refl). cbv beta. change (0 <=? -1) with false. cbv iota.
    rewrite bind_modify.
    match goal with |- context [bind (switchuvm _ _ _) _ ?x] => set (k1 := x) end.
    destruct (switchuvm_returns c i q k1) as (k2 & E2); [done|done|done|unfold cpu_proc, k1; cbn; by rewrite fn_lookup_insert|].
    step E2. apply switchuvm_run in E2 as (Eps & _). 
    assert (Hq2 : k_procs k2 !! i = Some q) by (by rewrite Eps). step (upd_proc_eq i (set_state RUNNING) k2 q Hq2).
    eexists true, _. split; [reflexivity|]. split; [by exists q|done].
  - rewrite bool_decide_eq_false_2 by done. cbn [negb]. eexists false, _. split; [reflexivity|]. split; [done|].
    intros (q' & Hq' & ?). congruence.
Qed.

Lemma scan_holds c s a : sys_ok s -> s_phase s c = PScan a -> LkPtable ∈ s_held s c.
Proof using. intros Hs Hp. pose proof (so_phase s Hs c) as [_ Hph]. rewrite Hp in Hph. destruct Hph as [-> _]. constructor. Qed.

(** The place in the table is in it, or at its end. *)
Definition scans_ok (s : @sys F) : Prop := forall c a, s_phase s c = PScan a -> (a <= NPROC)%nat.

Lemma cur_lt c s p : sys_ok s -> s_phase s c = PRun p \/ s_phase s c = PIn p -> (p < NPROC)%nat.
Proof using.
  intros Hs Hp. pose proof (so_phase s Hs c) as [_ Hph]. assert (Hc : cpu_proc (core s) c = Some p).
  { destruct Hp as [E|E]; rewrite E in Hph; apply Hph. }
  destruct (cur_runs c s p Hs Hc) as (q & Hq & _). apply lookup_lt_Some in Hq. by rewrite (to_len _ _ _ (so_table s Hs)) in Hq.
Qed.

Lemma sstep_scans c s s' : sys_ok s -> scans_ok s -> sstep c s s' -> scans_ok s'.
Proof using.
  intros Hs Hb Hstep d a Ha. destruct (decide (d = c)) as [->|Hd].
  2:{ rewrite (sstep_phase d c s s') in Ha by done. by eapply Hb. }
  pose proof (fun p => cur_lt c s p Hs) as Hlt.
  destruct Hstep; unfold wait_resume, set_resume, set_call, commit, wait_phase in Ha;
    try (destruct r as [v|]); cbn [s_phase] in Ha; rewrite ?fn_lookup_insert in Ha;
    first [done | by eapply Hb | (injection Ha as <-; lia) | (injection Ha as <-; eapply Nat.le_succ_l, Hlt; by eauto) | idtac].
Qed.

(** A run: the steps the processors of the list make, one after the other. *)
Inductive srun : list nat -> @sys F -> @sys F -> Prop :=
| srun_nil s : srun [] s s
| srun_step c tr s s1 s' : sstep c s s1 -> srun tr s1 s' -> srun (c :: tr) s s'.

(** The number of steps of [c] in a run. *)
Definition turns (c : nat) (tr : list nat) : nat := count_occ Nat.eq_dec tr c.

Lemma srun_reach tr s0 s s' :
  sreach cfg kend kdata trapret forkret ts_addr s0 s -> srun tr s s' -> sreach cfg kend kdata trapret forkret ts_addr s0 s'.
Proof using. intros Hr Hrun. revert Hr. induction Hrun as [|c tr s s1 s' Hstep _ IH]; [done|]. intros Hr. apply IH. by eapply sr_step. Qed.

Lemma srun_phase c tr s s' : srun tr s s' -> turns c tr = 0%nat -> s_phase s' c = s_phase s c.
Proof using.
  unfold turns. induction 1 as [|d tr s s1 s' Hstep _ IH]; [done|]. cbn. destruct (Nat.eq_dec d c) as [|Hd]; [done|].
  intros Hn. rewrite IH by done. by eapply sstep_phase.
Qed.
End Progress.

(** The scheduler that takes the first RUNNABLE process it finds. *)
Section Default.
Context {F : Type} `{FileLayer F}.
Implicit Types s : @sys F.
Context (kend kdata trapret forkret : Z) (ts_addr : nat -> Z).
#[local] Abbreviation step := (sstep DEFAULT kend kdata trapret forkret ts_addr).
#[local] Abbreviation run := (srun kend trapret forkret DEFAULT kdata ts_addr).

(** One step of a processor that scans. *)
Lemma scan_step c s s' a :
  sys_ok s -> s_phase s c = PScan a -> step c s s' ->
  (a < NPROC)%nat /\ ~ can_run (k_procs (core s)) a /\ s_phase s' c = PScan (S a) /\ k_procs (core s') = k_procs (core s) \/
  (a < NPROC)%nat /\ can_run (k_procs (core s)) a /\ s_phase s' c = PIn a \/
  a = NPROC /\ s_phase s' c = PIdle.
Proof using.
  intros Hs Hp Hstep. destruct Hstep as [|i fuel k Hp' Hi Hr|i fuel k Hp' Hi Hr|k Hp' Hr| | | | | | | | | | | | | | |ch k Hp'|k Hp'|k Hp'| |]; try congruence.
  - assert (i = a) as -> by congruence. left. apply scheduler_slot_run in Hr as (_ & _ & _ & _ & q & Hq & Eps & Hnr). split; [done|].
    split; [|split; [unfold commit; cbn; by rewrite fn_lookup_insert|exact Eps]].
    intros (q' & Hq' & Hr'). cbn in Hq. rewrite Hq in Hq'. injection Hq' as <-. by apply (Hnr eq_refl).
  - assert (i = a) as -> by congruence. right. left. apply scheduler_slot_run in Hr as (_ & _ & _ & _ & q & Hq & Hst & _). split; [done|].
    split; [by exists q|]. unfold commit. cbn. by rewrite fn_lookup_insert.
  - right. right. split; [congruence|]. unfold commit. cbn. by rewrite fn_lookup_insert.
  - destruct Hp' as [|[]]; congruence.
  - destruct Hp' as [|[]]; congruence.
  - destruct Hp' as [|[]]; congruence.
Qed.

(** Slot [j] is where a scan from [a] ends: the first RUNNABLE process, or the end. *)
Definition scan_end (ps : list proc) (a j : nat) : Prop :=
  (a <= j <= NPROC)%nat /\ (forall m, (a <= m < j)%nat -> ~ can_run ps m) /\ (j = NPROC \/ can_run ps j).

Lemma scan_end_iff ps ps' a j : (forall m, can_run ps' m <-> can_run ps m) -> scan_end ps a j -> scan_end ps' a j.
Proof using. intros Hiff (Ha & Hn & Hj). split; [done|]. split; [intros m Hm; rewrite Hiff; auto|]. by rewrite Hiff. Qed.

Lemma scan_end_exists ps a : (a <= NPROC)%nat -> exists j, scan_end ps a j.
Proof using.
  intros Ha. remember (NPROC - a)%nat as n eqn:En. revert a Ha En. induction n as [|n IH]; intros a Ha En.
  - exists a. split; [lia|]. split; [lia|]. left. lia.
  - assert (Hd : can_run ps a \/ ~ can_run ps a).
    { unfold can_run. destruct (ps !! a) as [q|]; [|right; by intros (q & ? & _)].
      destruct (decide (p_state q = RUNNABLE)); [left; eauto|right; by intros (q' & [= <-] & ?)]. }
    destruct Hd as [Hr|Hr]; [exists a; split; [lia|]; split; [lia|by right]|].
    destruct (IH (S a)) as (j & Hj & Hn & He); [lia|lia|]. exists j. split; [lia|]. split; [|done].
    intros m Hm. destruct (decide (m = a)) as [->|]; [done|]. apply Hn. lia.
Qed.

Definition scanned (j : nat) : phase := if (j =? NPROC)%nat then PIdle else PIn j.

Lemma scan_progress c tr s s' :
  run tr s s' -> sys_ok s -> forall a j, s_phase s c = PScan a -> scan_end (k_procs (core s)) a j ->
  ((turns c tr <= j - a)%nat -> s_phase s' c = PScan (a + turns c tr)) /\
  (turns c tr = S (j - a) -> s_phase s' c = scanned j).
Proof using.
  induction 1 as [s|d tr s s1 s' Hstep Hrun IH]; intros Hs a j Hp He.
  - cbn. rewrite Nat.add_0_r. by split.
  - assert (Hs1 : sys_ok s1) by (by eapply sstep_ok). unfold turns. cbn [count_occ].
    destruct (Nat.eq_dec d c) as [->|Hd]; fold (turns c tr).
    2:{ apply IH; [done|rewrite <- Hp; by eapply sstep_phase|].
        eapply scan_end_iff; [|exact He]. eapply (sstep_quiet _ _ _ _ _ _ c d); [done|by eapply scan_holds|exact Hstep|done]. }
    destruct He as (Ha & Hn & Hj).
    destruct (scan_step c s s1 a Hs Hp Hstep) as [(Hlt & Hnr & Hp1 & Eps)|[(Hlt & Hr & Hp1)|(-> & Hp1)]].
    + assert (a <> j) by (intros ->; destruct Hj as [|]; [lia|done]).
      destruct (IH Hs1 (S a) j Hp1) as [IH1 IH2].
      { rewrite Eps. split; [lia|]. split; [|done]. intros m Hm. apply Hn. lia. }
      split; [intros Ht; rewrite IH1 by lia; f_equal; lia|intros Ht; apply IH2; lia].
    + assert (a = j) as -> by (destruct (decide (a = j)); [done|]; by destruct (Hn a); [lia|]).
      split; [lia|]. intros Ht. rewrite (srun_phase _ _ _ _ _ _ c tr s1 s' Hrun) by lia. rewrite Hp1. unfold scanned.
      by rewrite (proj2 (Nat.eqb_neq j NPROC)) by lia.
    + assert (j = NPROC) as -> by lia. split; [lia|]. intros Ht.
      rewrite (srun_phase _ _ _ _ _ _ c tr s1 s' Hrun) by lia. by rewrite Hp1.
Qed.

(** It is never stuck. *)
Lemma scan_enabled c s a :
  sys_ok s -> s_phase s c = PScan a -> (a <= NPROC)%nat -> exists s', step c s s'.
Proof using.
  intros Hs Hp Ha. destruct (decide (a = NPROC)) as [->|Hne].
  - pose proof (so_phase s Hs c) as [_ Hph]. rewrite Hp in Hph. destruct Hph as [Hh _].
    eexists. eapply st_end; [done|]. apply (release_eq LkPtable []); [exact Hh|apply not_elem_of_nil].
  - destruct (slot_returns ts_addr 0 c a s Hs Hp) as (b & k & E & _); [lia|]. destruct b.
    + eexists. eapply st_switch; [done|lia|exact E].
    + eexists. eapply st_skip; [done|lia|exact E].
Qed.

Lemma idle_enabled c s :
  sys_ok s -> s_phase s c = PIdle -> free LkPtable s -> exists s', step c s s' /\ s_phase s' c = PScan 0.
Proof using.
  intros Hs Hp Hf. eexists. split; [eapply st_acquire; [done|done|by apply acquire_eq, Hf]|].
  unfold commit. cbn. by rewrite fn_lookup_insert.
Qed.

(** A process the processor has switched to goes on: in [forkret] or [yield], or in
    [sleep] once the lock it gave up is free. *)
Definition can_resume s (r : resume) : Prop :=
  match r with RFork | RYield => True | RSleep l => l <> LkPtable /\ l <> LkKmem /\ free l s | RWait | RTestwait => False end.

Lemma resume_enabled c s j :
  sys_ok s -> s_phase s c = PIn j -> can_resume s (s_resume s j) -> exists s', step c s s' /\ s_phase s' c = PRun j.
Proof using.
  intros Hs Hp Hre. pose proof (so_phase s Hs c) as [_ Hph]. rewrite Hp in Hph. destruct Hph as [Hh Hc].
  assert (Hrel : forall k : kern F, held k = [LkPtable] -> release LkPtable k = Ret tt (with_held [] k)).
  { intros k Hk. apply (release_eq LkPtable []); [exact Hk|apply not_elem_of_nil]. }
  destruct (s_resume s j) as [| |l| |] eqn:Ere; [..|done|done].
  - eexists. split; [eapply st_back_run; [done|by left|by apply Hrel]|]. unfold commit. cbn. by rewrite fn_lookup_insert.
  - eexists. split; [eapply st_back_run; [done|by right|by apply Hrel]|]. unfold commit. cbn. by rewrite fn_lookup_insert.
  - destruct Hre as (H1 & H2 & Hf). destruct (cur_runs c s j Hs Hc) as (q & Hq & _).
    assert (E : exists k, sleep_after c l (view c s) = Ret tt k).
    { unfold sleep_after. assert (Ec : curproc c (view c s) = Ret j (view c s)).
      { unfold curproc, myproc. rewrite bind_gets. unfold cpu_proc in Hc. cbn. by rewrite Hc. }
      rewrite (bind_ret _ _ _ _ _ Ec). rewrite (bind_ret _ _ _ _ _ (upd_proc_eq j (set_chan None) (view c s) q Hq)).
      rewrite bool_decide_eq_false_2 by done. cbn [negb]. rewrite (bind_ret _ _ _ _ _ (Hrel (set_procs _ (view c s)) Hh)).
      eexists. apply acquire_eq. apply not_elem_of_nil. }
    destruct E as [k E]. eexists. split; [by eapply st_back_sleep|]. unfold commit. cbn. by rewrite fn_lookup_insert.
Qed.
End Default.
