(* ===== verification/ProcProps.v ===== *)
(** * What process management guarantees

    The properties of proc.c, and the machine on which they are exercised: 64 slots,
    the first of which holds the first process. *)

From stdpp Require Import functions.
From S2P Require Import Prelude Mmu Mem Cstring Kalloc Vm Rand Proc ProcSpec ProcOps Sched System Progress.
#[local] Open Scope Z_scope.

(** ** Start-up *)

(** The state [userinit] leaves: one runnable process, every processor about to
    enter its scheduler. *)
Record sys_init {F} (i : nat) (p : proc) (s : @sys F) : Prop := {
  si_proc : k_procs (core s) = <[i := p]> (k_procs (core s)) /\ (i < NPROC)%nat;
  si_len : length (k_procs (core s)) = NPROC;
  si_state : p_state p = RUNNABLE /\ p_parent p = None /\ p_pid p = 1 /\ p_kstack p <> 0 /\ p_pgdir p <> 0;
  si_others : forall j q, j <> i -> k_procs (core s) !! j = Some q -> p_state q = UNUSED /\ p_parent q = None;
  si_init : k_initproc (core s) = Some i;
  si_next : k_nextpid (core s) = 2;
  si_cpus : forall c, s_phase s c = PIdle /\ s_held s c = [] /\ cpu_proc (core s) c = None;
  si_calls : forall q, s_call s q = CNone
}.

Lemma sys_init_ok {F} i p (s : @sys F) : sys_init i p s -> sys_ok s.
Proof.
  intros [[Hps Hi] Hlen (Hst & Hpar & Hpid & Hks & Hpg) Hoth Hin Hnext Hcpus Hcalls].
  assert (Hp : k_procs (core s) !! i = Some p).
  { rewrite Hps. apply list_lookup_insert_eq. by rewrite Hlen. }
  assert (Hc : forall j q, k_procs (core s) !! j = Some q -> j = i /\ q = p \/ p_state q = UNUSED /\ p_parent q = None).
  { intros j q Hq. destruct (decide (j = i)) as [->|Hne]; [left; split; congruence|right; by eapply Hoth]. }
  assert (Hal : alive (p_state p)) by (rewrite Hst; unfold alive; auto).
  split.
  - split.
    + done.
    + intros j q Hq Hu. destruct (Hc j q Hq) as [[-> ->]|[_ ?]]; [done|done].
    + intros j q r Hq Hr. destruct (Hc j q Hq) as [[-> ->]|[_ ?]]; congruence.
    + intros j q Hq [Hu _] Hr. destruct (Hc j q Hq) as [[-> ->]|[? _]]; [done|done].
    + exists i. split; [done|]. by exists p.
    + intros j q Hq Hu. destruct (Hc j q Hq) as [[-> ->]|[? _]]; [rewrite Hnext; lia|done].
    + intros j j2 q q2 Hq Hq2 Hu Hu2 _. destruct (Hc j q Hq) as [[-> _]|[? _]], (Hc j2 q2 Hq2) as [[-> _]|[? _]]; done.
    + intros j q Hq Hs. destruct (Hc j q Hq) as [[-> ->]|[? _]]; congruence.
    + intros j q Hq [Hu _]. destruct (Hc j q Hq) as [[-> ->]|[? _]]; done.
  - intros c. destruct (Hcpus c) as (-> & -> & ->). split; [apply not_elem_of_nil|done].
  - intros c d. destruct (Hcpus c) as (_ & -> & _). by intros []%elem_of_nil.
  - intros c q. destruct (Hcpus c) as (_ & _ & ->). done.
  - intros j q Hq Hr. destruct (Hc j q Hq) as [[-> ->]|[? _]]; congruence.
  - intros c d q. destruct (Hcpus c) as (_ & _ & ->). done.
  - split.
    + intros q. by rewrite Hcalls.
    + intros j q Hq He. destruct (Hc j q Hq) as [[-> ->]|[? _]]; congruence.
    + intros q1 q2 j pc1 pc2. by rewrite Hcalls.
Qed.

(** ** Giving up the processor *)

Section Giving.
Context {F : Type}.

Lemma sched_returns c p q (k : kern F) :
  held k = [LkPtable] -> cpu_proc k c = Some p -> k_procs k !! p = Some q -> p_state q <> RUNNING ->
  sched c k = Ret tt k.
Proof.
  intros Hh Hc Hq Hs. unfold sched. assert (E : curproc c k = Ret p k).
  { unfold curproc, myproc. rewrite bind_gets. unfold cpu_proc in Hc. by rewrite Hc. }
  step E. assert (E2 : holding LkPtable k = Ret true k).
  { unfold holding. rewrite Hh. by rewrite bool_decide_eq_true_2 by set_solver. }
  step E2. cbn [negb]. rewrite bind_gets, Hh. cbn [length Nat.eqb negb]. step (get_proc_eq p k q Hq).
  by rewrite bool_decide_eq_false_2.
Qed.

Lemma curproc_eq c p (k : kern F) : cpu_proc k c = Some p -> curproc c k = Ret p k.
Proof. intros Hc. unfold curproc, myproc. rewrite bind_gets. unfold cpu_proc in Hc. by rewrite Hc. Qed.

Lemma yield_returns c p q (k : kern F) :
  held k = [] -> cpu_proc k c = Some p -> k_procs k !! p = Some q ->
  exists k', yield_before c k = Ret tt k' /\ k_procs k' = <[p := set_state RUNNABLE q]> (k_procs k).
Proof.
  intros Hh Hc Hq. apply lookup_lt_Some in Hq as Hlt. unfold yield_before.
  rewrite (bind_ret _ _ _ _ _ (acquire_eq LkPtable k ltac:(rewrite Hh; apply not_elem_of_nil))).
  set (k1 := with_held _ k). step (curproc_eq c p k1 Hc). step (upd_proc_eq p (set_state RUNNABLE) k1 q Hq).
  eexists. split.
  - apply (sched_returns c p (set_state RUNNABLE q)); [|exact Hc| |done].
    + change (LkPtable :: held k = [LkPtable]). by rewrite Hh.
    + cbn. by rewrite list_lookup_insert_eq.
  - done.
Qed.

Lemma sleep_returns c p q ch l (k : kern F) :
  held k = [l] -> l <> LkPtable -> cpu_proc k c = Some p -> k_procs k !! p = Some q ->
  exists k', sleep_before c ch l k = Ret tt k' /\
    k_procs k' = <[p := set_state SLEEPING (set_chan (Some ch) q)]> (k_procs k).
Proof.
  intros Hh Hl Hc Hq. apply lookup_lt_Some in Hq as Hlt. unfold sleep_before, myproc. rewrite bind_gets.
  unfold cpu_proc in Hc. rewrite Hc. rewrite bool_decide_eq_false_2 by done. cbn [negb].
  rewrite bind_assoc. rewrite (bind_ret _ _ _ _ _ (acquire_eq LkPtable k ltac:(rewrite Hh; set_solver))).
  set (k1 := with_held _ k).
  assert (E : release l k1 = Ret tt (with_held [LkPtable] k1)).
  { unfold release. change (held k1) with (LkPtable :: held k). rewrite Hh, decide_True by set_solver.
    f_equal. cbn [filter]. unfold set_held, kern_locks, with_held. rewrite filter_cons_True by done.
    by rewrite filter_cons_False by naive_solver. }
  step E. set (k2 := with_held _ k1). step (upd_proc_eq p (set_chan (Some ch)) k2 q Hq).
  set (k3 := set_procs _ k2).
  assert (Hq3 : k_procs k3 !! p = Some (set_chan (Some ch) q)) by (cbn; by rewrite list_lookup_insert_eq).
  step (upd_proc_eq p (set_state SLEEPING) k3 _ Hq3). eexists. split.
  - apply (sched_returns c p (set_state SLEEPING (set_chan (Some ch) q))); [done|exact Hc| |done].
    cbn. by rewrite list_insert_insert_eq, list_lookup_insert_eq.
  - cbn. by rewrite list_insert_insert_eq.
Qed.

End Giving.

Section Props.
Context {F : Type} `{FileLayer F}.
Context (cfg : sched_config) (kend kdata trapret forkret : Z) (ts_addr : nat -> Z).

Lemma reach_ok i p s0 s :
  sys_init i p s0 -> sreach cfg kend kdata trapret forkret ts_addr s0 s -> sys_ok s.
Proof using.
  intros H0 Hr. induction Hr as [|c s s' Hr IH Hstep]; [by eapply sys_init_ok|]. by eapply sstep_ok.
Qed.

(** C9. The process table in every state that any interleaving of the processors
    reaches from start-up, the points in the middle of [fork] and [exit] included.  A
    process is RUNNING exactly when some processor runs it, and then only one does; at
    most one processor holds [ptable.lock], and those that scan the table or have just
    switched to a process hold it and nothing else.  Every process that has been made
    (its slot is neither UNUSED nor EMBRYO), except the first, has a parent that is alive,
    so each zombie will find somebody to wait for it; the first process never goes away.
    The pids of the slots in use are positive and distinct, a sleeping process has a
    channel, and every process that has been made has its kernel stack and its page
    directory.  A slot in state EMBRYO is the child of exactly one process, which is alive
    and in the middle of [fork] with that slot; the child has no parent yet or that one. *)
Theorem process_invariant i p s0 s :
  sys_init i p s0 -> sreach cfg kend kdata trapret forkret ts_addr s0 s ->
  (forall j q, k_procs (core s) !! j = Some q ->
    (p_state q = RUNNING <-> exists c, cpu_proc (core s) c = Some j)) /\
  (forall c d j, cpu_proc (core s) c = Some j -> cpu_proc (core s) d = Some j -> c = d) /\
  (forall c d, LkPtable ∈ s_held s c -> LkPtable ∈ s_held s d -> c = d) /\
  (forall c, match s_phase s c with
             | PScan _ | PIn _ => s_held s c = [LkPtable]
             | PIdle | PRun _ => LkPtable ∉ s_held s c
             end) /\
  (forall j q, k_procs (core s) !! j = Some q -> settled (p_state q) -> k_initproc (core s) <> Some j ->
    exists r, p_parent q = Some r /\ lives (k_procs (core s)) r) /\
  (exists r, k_initproc (core s) = Some r /\ lives (k_procs (core s)) r) /\
  (forall j1 j2 q1 q2, k_procs (core s) !! j1 = Some q1 -> k_procs (core s) !! j2 = Some q2 ->
    p_state q1 <> UNUSED -> p_state q2 <> UNUSED -> 0 < p_pid q1 /\ (p_pid q1 = p_pid q2 -> j1 = j2)) /\
  (forall j q, k_procs (core s) !! j = Some q -> p_state q = SLEEPING -> p_chan q <> None) /\
  (forall j q, k_procs (core s) !! j = Some q -> settled (p_state q) -> p_kstack q <> 0 /\ p_pgdir q <> 0) /\
  (forall j q, k_procs (core s) !! j = Some q -> p_state q = EMBRYO ->
    exists r pc, s_call s r = CFork j pc /\ lives (k_procs (core s)) r /\ (p_parent q = None \/ p_parent q = Some r) /\
      forall r' pc', s_call s r' = CFork j pc' -> r' = r).
Proof using.
  intros H0 Hr. pose proof (reach_ok i p s0 s H0 Hr) as Hs. pose proof (so_table s Hs) as Ht. split_and!.
  - intros j q Hq. split; [by apply (so_cpu s Hs)|]. intros [c Hc]. by eapply cur_slot.
  - apply (so_one s Hs).
  - apply (so_lock s Hs).
  - intros c. pose proof (so_phase s Hs c) as [_ Hph]. destruct (s_phase s c); try apply Hph.
    destruct Hph as [-> _]. apply not_elem_of_nil.
  - intros j q Hq Hu Hni. destruct (p_parent q) as [r|] eqn:Hp; [exists r; split; [done|by eapply (to_parent _ _ _ Ht)]|].
    destruct Hni. by eapply (to_orphan _ _ _ Ht).
  - apply (to_init _ _ _ Ht).
  - intros j1 j2 q1 q2 H1 H2 U1 U2. pose proof (to_pid _ _ _ Ht j1 q1 H1 U1). split; [lia|].
    intros E. by eapply (to_unique _ _ _ Ht).
  - apply (to_chan _ _ _ Ht).
  - apply (to_mem _ _ _ Ht).
  - intros j q Hq He. destruct (co_embryo _ _ _ (so_calls s Hs) j q Hq He) as (r & pc & Hcl). exists r, pc.
    pose proof (co_call _ _ _ (so_calls s Hs) r) as Hok. rewrite Hcl in Hok. destruct Hok as (Hl & q' & Hq' & Hi).
    assert (q' = q) as -> by congruence. split; [done|]. split; [done|]. split.
    + rewrite (fi_parent _ _ _ Hi). destruct (orphan_pc pc); auto.
    + intros r' pc' Hcl'. by eapply (co_owner _ _ _ (so_calls s Hs)).
Qed.
End Props.

Section Progress.
Context {F : Type} `{FileLayer F}.
Context (kend kdata trapret forkret : Z) (ts_addr : nat -> Z).

Lemma reach_scans i p s0 s :
  sys_init i p s0 -> sreach DEFAULT kend kdata trapret forkret ts_addr s0 s -> scans_ok s.
Proof using.
  intros H0 Hr. induction Hr as [|c s s' Hr IH Hstep].
  - intros c a. by destruct (si_cpus _ _ _ H0 c) as (-> & _).
  - eapply sstep_scans; [by eapply reach_ok|exact IH|exact Hstep].
Qed.

(** C10. Progress of the scheduler that the kernel is built with unless SCHED says
    otherwise ([DEFAULT]), in every reachable state [s] and against every run of the other
    processors.  A processor [c] that has come to slot [a] of the table finds the first
    RUNNABLE process at or after [a], in slot [j], if there is one: in every run from [s],
    however the steps of the others come in between, after [n <= j - a] steps of its own it
    is at slot [a + n] and can make the next one, and after [j - a + 1] it has switched to
    [j], or has given up the lock if there is none.  So a scan ends after at most 65 steps.  A
    processor before the loop starts to scan as soon as [ptable.lock] is free, and a
    process it has switched to goes on running, if it comes back from [sleep] as soon as its
    lock is free.  A process that runs can always give up the processor: [yield] with no
    lock held leaves it RUNNABLE, and [sleep] with one lock held leaves it SLEEPING on the
    channel; [sched] does not panic. *)
Theorem scheduler_progress i p s0 s :
  sys_init i p s0 -> sreach DEFAULT kend kdata trapret forkret ts_addr s0 s ->
  (forall c a, s_phase s c = PScan a -> exists j, scan_end (k_procs (core s)) a j /\
    forall tr s', srun kend trapret forkret DEFAULT kdata ts_addr tr s s' ->
      ((turns c tr <= j - a)%nat -> s_phase s' c = PScan (a + turns c tr) /\
        exists s'', sstep DEFAULT kend kdata trapret forkret ts_addr c s' s'') /\
      (turns c tr = S (j - a) -> s_phase s' c = scanned j)) /\
  (forall c, s_phase s c = PIdle -> free LkPtable s ->
    exists s', sstep DEFAULT kend kdata trapret forkret ts_addr c s s' /\ s_phase s' c = PScan 0) /\
  (forall c j, s_phase s c = PIn j -> can_resume s (s_resume s j) ->
    exists s', sstep DEFAULT kend kdata trapret forkret ts_addr c s s' /\ s_phase s' c = PRun j) /\
  (forall c j, s_phase s c = PRun j ->
    exists q, k_procs (core s) !! j = Some q /\
    (s_held s c = [] -> exists k, yield_before c (view c s) = Ret tt k /\
      k_procs k = <[j := set_state RUNNABLE q]> (k_procs (core s))) /\
    (forall ch l, s_held s c = [l] -> exists k, sleep_before c ch l (view c s) = Ret tt k /\
      k_procs k = <[j := set_state SLEEPING (set_chan (Some ch) q)]> (k_procs (core s)))).
Proof using.
  intros H0 Hr. pose proof (reach_ok DEFAULT kend kdata trapret forkret ts_addr i p s0 s H0 Hr) as Hs. split_and!.
  - intros c a Hp. pose proof (reach_scans i p s0 s H0 Hr c a Hp) as Ha.
    destruct (scan_end_exists (k_procs (core s)) a Ha) as [j Hj]. exists j. split; [done|]. intros tr s' Hrun.
    destruct (scan_progress kend kdata trapret forkret ts_addr c tr s s' Hrun Hs a j Hp Hj) as [R1 R2]. split; [|done].
    intros Hn. split; [auto|]. pose proof (srun_reach _ _ _ _ _ _ _ _ _ _ Hr Hrun) as Hr'.
    eapply scan_enabled; [by eapply reach_ok|by apply R1|]. destruct Hj as [Hj _]. lia.
  - intros c. by apply idle_enabled.
  - intros c j. by apply resume_enabled.
  - intros c j Hp. destruct (phase_PRun c s j Hs Hp) as (_ & Hpt & Hc).
    destruct (cur_runs c s j Hs Hc) as (q & Hq & _). exists q. split; [done|]. split.
    + intros Hh. by apply (yield_returns c j q (view c s)).
    + intros ch l Hh. apply (sleep_returns c j q ch l (view c s)); [done| |done|done].
      intros ->. apply Hpt. rewrite Hh. set_solver.
Qed.
End Progress.

(** ** The calls, one by one *)

Section Calls.
Context {F : Type} `{FileLayer F}.
Implicit Types k : kern F.

Lemma scan_returns f n i k : (i + n <= length (k_procs k))%nat -> exists r, scan f n i k = Ret r k.
Proof.
  revert i. induction n as [|n IH]; intros i Hl; cbn [scan]; [by exists None|].
  destruct (lookup_lt_is_Some_2 (k_procs k) i) as [q Hq]; [lia|]. step (get_proc_eq i k q Hq).
  destruct (f q); [by exists (Some i)|]. apply IH. lia.
Qed.

(** The scan of the whole table returns the first slot that satisfies [f]. *)
Lemma scan_all_eq f k :
  length (k_procs k) = NPROC -> exists r, scan_all f k = Ret r k /\
  match r with
  | Some j => exists p, k_procs k !! j = Some p /\ f p = true /\
      forall m q, (m < j)%nat -> k_procs k !! m = Some q -> f q = false
  | None => forall m q, k_procs k !! m = Some q -> f q = false
  end.
Proof.
  intros Hl. destruct (scan_returns f NPROC 0 k) as [r Hr]; [lia|]. exists r. split; [done|].
  by apply (scan_all_run f k r k Hl).
Qed.

(** Creating a process, on every branch.  When [allocproc] finds the table full it
    reads the slot after the last one.  Otherwise it takes the first free slot, and
    when [nextpid] has reached 64 it writes outside [pstat_var], whose arrays have
    one entry per slot and are indexed by pid. *)
Theorem allocproc_out_of_range trapret forkret k :
  length (k_procs k) = NPROC -> held k = [] ->
  ((forall j q, k_procs k !! j = Some q -> p_state q <> UNUSED) ->
    allocproc trapret forkret k = UB "ptable.proc[NPROC]") /\
  ((exists j q, k_procs k !! j = Some q /\ p_state q = UNUSED) -> Z.of_nat NPROC <= k_nextpid k ->
    allocproc trapret forkret k = UB "pstat_var").
Proof.
  intros Hl Hh. assert (Hub : forall e, alloc_slot k = UB e -> allocproc trapret forkret k = UB e).
  { intros e E. unfold allocproc, bind at 1. by rewrite E. }
  cut (((forall j q, k_procs k !! j = Some q -> p_state q <> UNUSED) -> alloc_slot k = UB "ptable.proc[NPROC]") /\
    ((exists j q, k_procs k !! j = Some q /\ p_state q = UNUSED) -> Z.of_nat NPROC <= k_nextpid k -> alloc_slot k = UB "pstat_var")).
  { intros [H1 H2]. split; auto. }
  unfold alloc_slot.
  rewrite (bind_ret _ _ _ _ _ (acquire_eq LkPtable k ltac:(rewrite Hh; apply not_elem_of_nil))).
  set (k1 := with_held _ k). set (f := fun p => bool_decide (p_state p = UNUSED)).
  destruct (scan_all_eq f k1 Hl) as (r & E & Hr). step E. split.
  - intros Hn. destruct r as [j|]; [|done]. destruct Hr as (p & Hp & Hu%bool_decide_eq_true & _). by destruct (Hn j p).
  - intros (j & q & Hq & Hu) Hpid. destruct r as [i|].
    2:{ specialize (Hr j q Hq). by apply bool_decide_eq_false in Hr. }
    destruct Hr as (p & Hp & _). apply lookup_lt_Some in Hp as Hlt. step (upd_proc_eq i (set_state EMBRYO) k1 p Hp).
    rewrite bind_gets. set (k2 := set_procs _ k1).
    assert (Hp2 : k_procs k2 !! i = Some (set_state EMBRYO p)) by (cbn; by rewrite list_lookup_insert_eq).
    step (upd_proc_eq i (set_pid (k_nextpid k2)) k2 _ Hp2). rewrite bind_modify. set (k3 := set_nextpid _ _).
    assert (Hp3 : k_procs k3 !! i = Some (set_pid (k_nextpid k) (set_state EMBRYO p))).
    { cbn. by rewrite list_insert_insert_eq, list_lookup_insert_eq. }
    step (get_proc_eq i k3 _ Hp3). unfold record_pstat, bind. cbn [p_pid set_pid].
    by rewrite (proj2 (Z.ltb_ge _ _) Hpid), andb_false_r.
Qed.

(** The lottery never runs anybody.  Whatever the table and the state of the random
    number generator, a pass of the LOTTERY scheduler over a slot does not switch to
    its process: the number drawn is not negative, which the code takes as a reason
    to skip the process. *)
Theorem lottery_never_runs ts_addr c fuel i k :
  match scheduler_slot LOTTERY ts_addr c fuel i k with
  | Ret b k' => b = false /\ k_procs k' = k_procs k
  | _ => True
  end.
Proof.
  destruct (scheduler_slot LOTTERY ts_addr c fuel i k) as [b k'| | |] eqn:E; [|done..].
  apply scheduler_slot_run in E as (_ & _ & _ & _ & p & _ & Hb). destruct b.
  - by destruct Hb as (_ & _ & _ & ? & _).
  - by destruct Hb as [-> _].
Qed.

Lemma kill_eq pid k :
  length (k_procs k) = NPROC -> held k = [] ->
  (exists i p, k_procs k !! i = Some p /\ p_pid p = pid /\
    (forall j q, (j < i)%nat -> k_procs k !! j = Some q -> p_pid q <> pid) /\
    kill pid k = Ret 0 (set_procs (<[i := kill_proc p]> (k_procs k)) k)) \/
  (forall j q, k_procs k !! j = Some q -> p_pid q <> pid) /\ kill pid k = Ret (-1) k.
Proof.
  intros Hl Hh. assert (Hret : exists r k', kill pid k = Ret r k').
  { unfold kill. rewrite (bind_ret _ _ _ _ _ (acquire_eq LkPtable k ltac:(rewrite Hh; apply not_elem_of_nil))).
    set (k1 := with_held _ k). destruct (scan_all_eq (fun p => p_pid p =? pid) k1 Hl) as (r & E & Hr). step E.
    assert (Hrel : forall ps (v : Z), exists k', bind (release LkPtable) (fun _ => ret v) (set_procs ps k1) = Ret v k').
    { intros ps v. step (release_eq LkPtable (held k) (set_procs ps k1) eq_refl ltac:(rewrite Hh; apply not_elem_of_nil)).
      by eexists. }
    destruct r as [i|]; [|exists (-1); apply (Hrel (k_procs k1))].
    destruct Hr as (p & Hp & _). apply lookup_lt_Some in Hp as Hlt. step (upd_proc_eq i (set_killed 1) k1 p Hp).
    set (k2 := set_procs _ k1).
    assert (Hp2 : k_procs k2 !! i = Some (set_killed 1 p)) by (cbn; by rewrite list_lookup_insert_eq).
    step (get_proc_eq i k2 _ Hp2). exists 0. destruct (bool_decide (p_state (set_killed 1 p) = SLEEPING)).
    - cbv beta iota. step (upd_proc_eq i (set_state RUNNABLE) k2 _ Hp2). apply Hrel.
    - apply Hrel. }
  destruct Hret as (r & k' & Hr). rewrite Hr.
  apply (kill_run pid k r k' Hl) in Hr as [(-> & -> & Hn)|(-> & i & p & Hp & Hpid & Hlt & ->)].
  - by right.
  - left. by exists i, p.
Qed.
(** [kill] looks at pids only, not at states.  [kill(0)] finds the first free
    slot that was never used or has been reaped, marks it and reports success; the mark stays on the slot,
    and if it is the free slot that the next [fork] takes, the new process is born
    killed. *)
Theorem kill_free_slot kend kdata trapret forkret c i p k :
  length (k_procs k) = NPROC -> held k = [] ->
  k_procs k !! i = Some p -> p_state p = UNUSED -> p_pid p = 0 ->
  (forall j q, j <> i -> k_procs k !! j = Some q -> p_state q <> UNUSED /\ p_pid q <> 0) ->
  exists k1, kill 0 k = Ret 0 k1 /\ k_procs k1 = <[i := set_killed 1 p]> (k_procs k) /\
  forall r k2, fork kend kdata trapret forkret c k1 = Ret r k2 -> r <> -1 ->
    exists p', k_procs k2 !! i = Some p' /\ p_state p' = RUNNABLE /\ p_pid p' = r /\ p_killed p' = 1.
Proof.
  intros Hl Hh Hp Hu Hpid Hoth. apply lookup_lt_Some in Hp as Hlt.
  destruct (kill_eq 0 k Hl Hh) as [(j & q & Hq & Hqp & _ & E)|[Hn _]]; [|by destruct (Hn i p)].
  assert (j = i) as ->. { destruct (decide (j = i)) as [|Hne]; [done|]. by destruct (Hoth j q Hne Hq). }
  assert (q = p) as -> by congruence.
  assert (kill_proc p = set_killed 1 p) as Ek by (unfold kill_proc; by rewrite Hu). rewrite Ek in E.
  eexists. split; [exact E|]. split; [done|]. set (k1 := set_procs _ k). intros r k2 Hf Hr.
  apply fork_with_run in Hf as (_ & _ & _ & cur & m & z & z' & _ & Hz & T & Hres);
    [|intros; apply kh_copyuvm|cbn; by rewrite length_insert|change (held k1) with (held k); rewrite Hh; apply not_elem_of_nil].
  destruct Hres as [[? _]|(-> & Hb)]; [done|]. pose proof (t_old _ _ _ _ _ T) as Hm. cbn in Hm.
  assert (m = i) as ->.
  { destruct (decide (m = i)) as [|Hne]; [done|]. rewrite list_lookup_insert_ne in Hm by done.
    by destruct (Hoth m z Hne Hm). }
  rewrite list_lookup_insert_eq in Hm by done. injection Hm as <-. exists z'. split; [apply T|].
  destruct Hb as (? & ? & _ & _ & _ & Hk & _). by rewrite Hk.
Qed.
End Calls.

Section Family.
Context {F : Type} `{FileLayer F}.
Context (cfg : sched_config) (kend kdata trapret forkret : Z) (ts_addr : nat -> Z).

(** C12. What [fork] returns, for a running process of any reachable state: -1, and the
    slot it tried is free again, or the pid of a RUNNABLE child of the caller with
    a pid nobody else has, its own kernel stack and its own page directory.  No
    other slot changes, except that sleepers may have been woken. *)
Theorem fork_correct i p s0 s c cur r k :
  sys_init i p s0 -> sreach cfg kend kdata trapret forkret ts_addr s0 s ->
  s_phase s c = PRun cur -> fork kend kdata trapret forkret c (view c s) = Ret r k ->
  exists j q q', k_procs (core s) !! j = Some q /\ p_state q = UNUSED /\ k_procs k !! j = Some q' /\
    (forall m z, m <> j -> k_procs (core s) !! m = Some z -> exists z', k_procs k !! m = Some z' /\ woken z z') /\
    (r = -1 /\ p_state q' = UNUSED \/
     r = k_nextpid (core s) /\ p_state q' = RUNNABLE /\ p_pid q' = r /\ p_parent q' = Some cur /\
     p_kstack q' <> 0 /\ p_pgdir q' <> 0 /\
     forall m z, k_procs (core s) !! m = Some z -> p_state z <> UNUSED -> p_pid z <> r).
Proof.
  intros H0 Hr Hp Hf. pose proof (reach_ok cfg kend kdata trapret forkret ts_addr i p s0 s H0 Hr) as Hs.
  destruct (phase_PRun c s cur Hs Hp) as (Hk & Hpt & Hc). pose proof (so_table s Hs) as Ht.
  apply fork_with_run in Hf as (_ & _ & _ & cur' & j & q & q' & Hcur & Hu & T & Hres);
    [|intros; apply kh_copyuvm|apply Ht|done].
  assert (cur' = cur) as -> by (unfold cpu_proc in Hc; cbn in Hcur; congruence).
  exists j, q, q'. split; [apply T|]. split; [done|]. split; [apply T|]. split; [apply T|].
  destruct Hres as [(-> & Hu' & _)|(-> & Hst & Hpid & Hpar & Hks & Hpg & _)]; [by left|right].
  split_and!; try done. intros m z Hz Hzu. pose proof (to_pid _ _ _ Ht m z Hz Hzu). cbn. lia.
Qed.

(** C11. What [wait] does, for a running process of any reachable state.  It returns the
    pid of a zombie child, whose slot is then free; or -1 when the caller was killed
    or has no children; or it sleeps on itself, and then it has children and none of
    them is a zombie. *)
Theorem wait_correct i p s0 s c cur r k :
  sys_init i p s0 -> sreach cfg kend kdata trapret forkret ts_addr s0 s ->
  s_phase s c = PRun cur -> s_held s c = [] -> wait kend c (view c s) = Ret r k ->
  match r with
  | Some v =>
    (exists j q q', k_procs (core s) !! j = Some q /\ p_state q = ZOMBIE /\ p_parent q = Some cur /\ v = p_pid q /\
       k_procs k !! j = Some q' /\ p_state q' = UNUSED /\ p_pid q' = 0 /\ p_parent q' = None /\ p_killed q' = 0) \/
    v = -1 /\ k_procs k = k_procs (core s) /\
    ((exists q, k_procs (core s) !! cur = Some q /\ p_killed q <> 0) \/
     forall j q, k_procs (core s) !! j = Some q -> p_parent q <> Some cur)
  | None =>
    (exists q, k_procs k !! cur = Some q /\ p_state q = SLEEPING /\ p_chan q = Some (ChProc cur)) /\
    (exists j q, k_procs (core s) !! j = Some q /\ p_parent q = Some cur) /\
    (forall j q, k_procs (core s) !! j = Some q -> p_parent q = Some cur -> p_state q <> ZOMBIE)
  end.
Proof.
  intros H0 Hr Hp Hh Hw. pose proof (reach_ok cfg kend kdata trapret forkret ts_addr i p s0 s H0 Hr) as Hs.
  destruct (phase_PRun c s cur Hs Hp) as (Hk & Hpt & Hc). unfold wait in Hw. inv_bind Hw.
  apply acquire_run in Hrun as [_ ->]. change (held (view c s)) with (s_held s c) in Hw. rewrite Hh in Hw.
  apply (wait_iter_run c (reap kend) p_pid) in Hw as (cur' & Hcur & Hres);
    [|intros; apply reap_does|apply (so_table s Hs)|done].
  assert (cur' = cur) as -> by (unfold cpu_proc in Hc; cbn in Hcur; congruence). destruct r as [v|].
  - destruct Hres as (_ & _ & [(j & q & q' & -> & Hpar & Hz & (? & ? & ? & ? & _) & T)|(cp & Hcp & -> & -> & Hwhy)]).
    + left. exists j, q, q'. split_and!; try done; apply T.
    + right. split; [done|]. split; [done|]. destruct Hwhy; [left; by exists cp|by right].
  - destruct Hres as (cp & Hcp & -> & _ & Hkids & Hz). apply lookup_lt_Some in Hcp as Hlt. split; [|by split].
    cbn. rewrite list_lookup_insert_eq by done. by eexists.
Qed.
End Family.

(** ** The queues *)

Section Queues.
Context {F : Type} `{FileLayer F}.
Implicit Types k : kern F.

Lemma for_procs_app (f : nat -> M (kern F) unit) a b i k :
  for_procs f (a + b) i k = (for_procs f a i ;;; for_procs f b (i + a)) k.
Proof.
  revert i k. induction a as [|a IH]; intros i k; cbn [for_procs Nat.add].
  - by rewrite Nat.add_0_r.
  - unfold bind. destruct (f i k) as [[] s| | |]; [|done..]. rewrite IH. by rewrite Nat.add_succ_comm.
Qed.

(** Slots that are not RUNNABLE get priority 0 and leave the queues alone. *)
Lemma reset_idle n pre l post k :
  k_procs k = pre ++ l ++ post -> length l = n -> Forall (fun p => p_state p <> RUNNABLE) l ->
  for_procs reset_slot n (length pre) k = Ret tt (set_procs (pre ++ (set_priority 0 <$> l) ++ post) k).
Proof.
  revert pre l k. induction n as [|n IH]; intros pre [|p l] k Hk Hl Hf; try done.
  - cbn [fmap list_fmap]. rewrite <- Hk. by destruct k.
  - cbn [for_procs]. apply Forall_cons in Hf as [Hp Hf].
    assert (Hlk : k_procs k !! length pre = Some p) by (rewrite Hk; by apply list_lookup_middle).
    assert (E : reset_slot (length pre) k = Ret tt (set_procs (<[length pre := set_priority 0 p]> (k_procs k)) k)).
    { unfold reset_slot. step (get_proc_eq _ k p Hlk). rewrite bool_decide_eq_false_2 by done. by apply upd_proc_eq. }
    step E. rewrite Hk, insert_app_r_alt, Nat.sub_diag by lia. cbn [insert list_insert app].
    replace (S (length pre)) with (length (pre ++ [set_priority 0 p])) by (rewrite length_app; cbn; lia).
    rewrite (IH _ l); [|cbn; by rewrite <- app_assoc|by injection Hl|done]. cbn. by rewrite <- app_assoc.
Qed.

Lemma get_que_eq a b q v k :
  0 <= a -> 0 <= b -> k_que k !! Z.to_nat a = Some q -> q !! Z.to_nat b = Some v -> get_que a b k = Ret v k.
Proof. intros Ha Hb Hq Hv. unfold get_que. rewrite Hq, Hv. by rewrite (proj2 (Z.leb_le 0 a)), (proj2 (Z.leb_le 0 b)). Qed.
Lemma get_que_over a b q k :
  k_que k !! Z.to_nat a = Some q -> (length q <= Z.to_nat b)%nat -> get_que a b k = UB "ptable.que".
Proof. intros Hq Hb. unfold get_que. by rewrite Hq, (lookup_ge_None_2 q _ Hb). Qed.

(** The slot that is RUNNABLE, when the first queue does not start with it. *)
Lemma reset_append i p k q0 q1 q2 o n n1 n2 :
  k_procs k !! i = Some p -> p_state p = RUNNABLE -> p_priority p = 0 ->
  k_que k = [q0; q1; q2] -> length q0 = NPROC -> q0 !! 0%nat = Some o -> o <> Some i ->
  k_priCount k = [n; n1; n2] -> -1 <= n ->
  reset_slot i k =
  if n + 1 <? Z.of_nat NPROC
  then Ret tt (set_que [<[Z.to_nat (n + 1) := Some i]> q0; q1; q2] (set_priCount [n + 1; n1; n2]
         (set_procs (<[i := set_priority 0 p]> (k_procs k)) k)))
  else UB "ptable.que".
Proof.
  intros Hp Hs Hpri Hq Hlen Ho Hoi Hc Hn. unfold reset_slot. step (get_proc_eq i k p Hp).
  rewrite bool_decide_eq_true_2 by done. cbv zeta. rewrite Hpri.
  assert (E : get_que 0 0 k = Ret o k) by (apply (get_que_eq 0 0 q0); [done|done|by rewrite Hq|done]). step E.
  rewrite bool_decide_eq_false_2 by done. step (@eq_refl _ (Ret tt k)). step (upd_proc_eq i (set_priority 0) k p Hp).
  set (k1 := set_procs _ k). assert (E1 : get_count 0 k1 = Ret n k1) by (unfold get_count; cbn; by rewrite Hc).
  step E1. unfold set_count_at. rewrite bind_assoc. step E1. rewrite bind_modify. set (k2 := set_priCount _ k1).
  assert (Hk2 : k2 = set_priCount [n + 1; n1; n2] k1) by (unfold k2; cbn; by rewrite Hc). rewrite Hk2. clear k2 Hk2.
  unfold set_que_at. set (k2 := set_priCount _ k1).
  assert (Hq2 : k_que k2 !! Z.to_nat 0 = Some q0) by (cbn; by rewrite Hq).
  destruct (Z.ltb_spec (n + 1) (Z.of_nat NPROC)) as [Hlt|Hge].
  - destruct (lookup_lt_is_Some_2 q0 (Z.to_nat (n + 1))) as [v Hv]; [lia|].
    step (get_que_eq 0 (n + 1) q0 v k2 ltac:(lia) ltac:(lia) Hq2 Hv). unfold modify.
    change (k_que k2) with (k_que k). by rewrite Hq.
  - unfold bind. by rewrite (get_que_over 0 (n + 1) q0 k2 Hq2) by lia.
Qed.

(** C40. [resetPriority] lets its queue grow without bound.  When one process is RUNNABLE
    and the first queue starts with another (one that went to sleep, say), the search
    for the process gives up after the first entry and the process is stored once more
    behind the last entry, whether it is in the queue already or not: each call adds one
    entry.  The head of the queue stays, so the next call does the same, and when the
    last entry has index 63 the store is at index 64, outside the array. *)
Theorem resetPriority_grows i p k q0 q1 q2 o n n1 n2 :
  length (k_procs k) = NPROC -> held k = [] -> k_procs k !! i = Some p -> p_state p = RUNNABLE -> p_priority p = 0 ->
  (forall j q, j <> i -> k_procs k !! j = Some q -> p_state q <> RUNNABLE) ->
  k_que k = [q0; q1; q2] -> length q0 = NPROC -> q0 !! 0%nat = Some o -> o <> Some i ->
  k_priCount k = [n; n1; n2] -> 0 <= n ->
  if n + 1 <? Z.of_nat NPROC
  then exists k', resetPriority k = Ret tt k' /\ k_priCount k' = [n + 1; n1; n2] /\
         k_procs k' = set_priority 0 <$> k_procs k /\
         k_que k' = [<[Z.to_nat (n + 1) := Some i]> q0; q1; q2] /\ <[Z.to_nat (n + 1) := Some i]> q0 !! 0%nat = Some o
  else resetPriority k = UB "ptable.que".
Proof.
  intros Hl Hh Hp Hs Hpri Hoth Hq Hlen Ho Hoi Hc Hn. apply lookup_lt_Some in Hp as Hlt.
  pose proof (take_drop_middle (k_procs k) i p Hp) as Hsplit. set (pre := take i (k_procs k)) in *.
  set (post := drop (S i) (k_procs k)) in *.
  assert (Hpre : length pre = i) by (unfold pre; rewrite length_take; lia).
  assert (Hpost : length post = (NPROC - S i)%nat) by (unfold post; rewrite length_drop; lia).
  assert (Hf : Forall (fun p => p_state p <> RUNNABLE) pre /\ Forall (fun p => p_state p <> RUNNABLE) post).
  { split; apply Forall_lookup; intros j q Hj.
    - unfold pre in Hj. apply lookup_take_Some in Hj as [Hj Hji]. apply (Hoth j); [lia|done].
    - unfold post in Hj. rewrite lookup_drop in Hj. by apply (Hoth (S i + j)%nat); [lia|]. }
  destruct Hf as [Hf1 Hf2]. unfold resetPriority.
  rewrite (bind_ret _ _ _ _ _ (acquire_eq LkPtable k ltac:(rewrite Hh; apply not_elem_of_nil))).
  set (k1 := with_held _ k). unfold for_all_procs.
  set (k2 := set_procs ((set_priority 0 <$> pre) ++ p :: post) k1).
  assert (E1 : for_procs reset_slot NPROC 0 k1 = (reset_slot i ;;; for_procs reset_slot (NPROC - S i) (S i)) k2).
  { replace NPROC with (i + S (NPROC - S i))%nat at 1 by lia. rewrite for_procs_app.
    step (reset_idle i [] pre (p :: post) k1 (eq_sym Hsplit) Hpre Hf1). done. }
  assert (Hp2 : k_procs k2 !! i = Some p) by (cbn; apply list_lookup_middle; by rewrite length_fmap).
  pose proof (reset_append i p k2 q0 q1 q2 o n n1 n2 Hp2 Hs Hpri Hq Hlen Ho Hoi Hc ltac:(lia)) as E2.
  destruct (Z.ltb_spec (n + 1) (Z.of_nat NPROC)) as [Hroom|Hfull].
  - set (k3 := set_que _ _) in E2. set (pre' := (set_priority 0 <$> pre) ++ [set_priority 0 p]).
    assert (Hk3 : k_procs k3 = pre' ++ post ++ []).
    { cbn. unfold pre'. rewrite insert_app_r_alt, length_fmap, Hpre, Nat.sub_diag by (rewrite length_fmap; lia).
      by rewrite app_nil_r, <- app_assoc. }
    assert (Hpre' : length pre' = S i) by (unfold pre'; rewrite length_app, length_fmap; cbn; lia).
    pose proof (reset_idle (NPROC - S i) pre' post [] k3 Hk3 Hpost Hf2) as E3. rewrite Hpre' in E3.
    set (k4 := set_procs _ k3) in E3.
    assert (E : for_procs reset_slot NPROC 0 k1 = Ret tt k4) by (rewrite E1; by step E2).
    step E. exists (with_held [] k4). split_and!.
    + apply (release_eq LkPtable []); [|apply not_elem_of_nil]. change (LkPtable :: held k = [LkPtable]). by rewrite Hh.
    + done.
    + cbn. rewrite <- Hsplit. unfold pre'. rewrite fmap_app, fmap_cons, app_nil_r, <- app_assoc. done.
    + done.
    + by rewrite list_lookup_insert_ne by lia.
  - unfold bind at 1. rewrite E1. unfold bind at 1. by rewrite E2.
Qed.
End Queues.

(** ** A machine on which they can be tried *)

Module Example.

(** A file layer whose operations do nothing. *)
#[export] Instance no_files : FileLayer unit := {|
  filedup f := ret f; fileclose _ := ret tt; idup i := ret i; iput _ := ret tt;
  begin_op := ret tt; end_op := ret tt; namei_root := ret (Some 0%nat); take_wakeups f := ([], f)
|}.

Definition free_proc : proc :=
  Proc 0 0 0 UNUSED 0 None 0 0 None 0 (replicate 16 None) (Some 0%nat) (replicate 16 0) 0 0 0 0 0 0.
Definition runnable (pid : Z) (parent : option nat) : proc :=
  Proc 4096 0x80001000 0x80002000 RUNNABLE pid parent 0x80002fb4 0x80002f9c None 0 (replicate 16 None) (Some 0%nat)
    (replicate 16 0) 0 0 0 0 1 0.
Definition kern0 (ps : list proc) (next : Z) : kern unit :=
  Kern unit (Machine [] ∅ (Kmem 1 0 0 ∅) 0) ps (replicate 3 (replicate 64 None)) [-1; -1; -1] (Some 0%nat)
    (Pstat (replicate 64 0) (replicate 64 0) (replicate 64 0) (replicate 64 UNUSED) (replicate 64 [0; 0; 0; 0]))
    next 0 (fun _ => Percpu None ∅ 0 0 0 0) 0x80003000 (Rng [] 0) tt.
Definition boot : kern unit := kern0 (runnable 1 None :: replicate 63 free_proc) 2.
Definition s_boot : @sys unit := Sys boot (fun _ => []) (fun _ => PIdle) (fun _ => RFork) (fun _ => CNone).

Definition after {A S} (o : outcome S A) (s : S) : S := match o with Ret _ s' => s' | _ => s end.
Definition ts (_ : nat) : Z := 0.

(** The first processor takes the lock, switches to the first process, which leaves
    [forkret]. *)
Definition s_scan : @sys unit := commit 0 (after (acquire LkPtable (view 0 s_boot)) boot) (PScan 0) s_boot.
Definition s_in : @sys unit := commit 0 (after (scheduler_slot DEFAULT ts 0 0 0 (view 0 s_scan)) boot) (PIn 0) s_scan.
Definition s_run : @sys unit := commit 0 (after (yield_after (view 0 s_in)) boot) (PRun 0) s_in.

Lemma boot_init : sys_init 0 (runnable 1 None) s_boot.
Proof.
  split; [by split; [|unfold NPROC; lia]|done|done| |done|done|done|done].
  intros [|j] q Hj Hq; [done|]. cbn in Hq. apply (lookup_replicate_1 63 free_proc) in Hq as [-> _]. done.
Qed.

Lemma s_run_reached : sreach DEFAULT 0 0 0 0 ts s_boot s_run.
Proof.
  apply (sr_step _ _ _ _ _ _ s_boot 0 s_in s_run).
  - apply (sr_step _ _ _ _ _ _ s_boot 0 s_scan s_in).
    + apply (sr_step _ _ _ _ _ _ s_boot 0 s_boot s_scan); [apply sr_init|].
      apply st_acquire; [done| |vm_compute; reflexivity]. intros d. apply not_elem_of_nil.
    + apply (st_switch _ _ _ _ _ _ 0 s_scan 0 0); [done|unfold NPROC; lia|vm_compute; reflexivity].
  - apply st_back_run; [done|by left|vm_compute; reflexivity].
Qed.


Lemma s_run_phase : s_phase s_run 0 = PRun 0 /\ s_held s_run 0 = [].
Proof. split; vm_compute; reflexivity. Qed.

(** The process calls [fork], which takes the second slot.  The second processor then
    takes the lock and looks at the first slot; the process finds no memory for the stack
    of the child; the second processor looks at the second slot. *)
Definition s_fork : @sys unit :=
  set_call 0 (CFork 1 FkStack) (set_resume 1 RFork (commit 0 (after (alloc_slot (view 0 s_run)) boot) (PRun 0) s_run)).
Definition s_scan1 : @sys unit := commit 1 (after (acquire LkPtable (view 1 s_fork)) boot) (PScan 0) s_fork.
Definition s_look : @sys unit := commit 1 (after (scheduler_slot DEFAULT ts 1 0 0 (view 1 s_scan1)) boot) (PScan 1) s_scan1.
Definition s_stack : @sys unit :=
  set_call 0 (CFork 1 FkFree)
    (commit 0 (after (fork_at 0 0 0 (copyuvm 0 0) FkStack 0 1 (view 0 s_look)) boot) (PRun 0) s_look).
Definition s_look2 : @sys unit := commit 1 (after (scheduler_slot DEFAULT ts 1 0 1 (view 1 s_stack)) boot) (PScan 2) s_stack.

Lemma free_by_two (s : @sys unit) l :
  l ∉ s_held s 0 -> l ∉ s_held s 1 -> (forall d, (1 < d)%nat -> s_held s d = []) -> free l s.
Proof. intros H0 H1 Hd [|[|d]]; [done|done|]. rewrite Hd by lia. apply not_elem_of_nil. Qed.

Lemma s_fork_reached : sreach DEFAULT 0 0 0 0 ts s_boot s_fork.
Proof.
  apply (sr_step _ _ _ _ _ _ s_boot 0 s_run s_fork); [apply s_run_reached|].
  apply st_fork; [apply s_run_phase|apply s_run_phase|done| |vm_compute; reflexivity].
  apply free_by_two; [|apply not_elem_of_nil|by intros [|[|d]] Hd; [lia|lia|]].
  rewrite (proj2 s_run_phase). apply not_elem_of_nil.
Qed.

Lemma s_scan1_reached : sreach DEFAULT 0 0 0 0 ts s_boot s_scan1.
Proof.
  apply (sr_step _ _ _ _ _ _ s_boot 1 s_fork s_scan1); [apply s_fork_reached|].
  apply st_acquire; [done| |vm_compute; reflexivity].
  apply free_by_two; [|apply not_elem_of_nil|by intros [|[|d]] Hd; [lia|lia|]].
  assert (s_held s_fork 0 = []) as -> by (vm_compute; reflexivity). apply not_elem_of_nil.
Qed.

Lemma s_scan1_run : srun 0 0 0 DEFAULT 0 ts [1; 0; 1]%nat s_scan1 s_look2.
Proof.
  apply (srun_step _ _ _ _ _ _ _ _ _ s_look).
  { apply (st_skip _ _ _ _ _ _ 1 s_scan1 0 0); [done|unfold NPROC; lia|vm_compute; reflexivity]. }
  apply (srun_step _ _ _ _ _ _ _ _ _ s_stack).
  { apply (st_fork_step _ _ _ _ _ _ 0 s_look (copyuvm 0 0) 0 1 FkStack (inl FkFree)); [by left|done|vm_compute; reflexivity|done|done|].
    vm_compute. reflexivity. }
  apply (srun_step _ _ _ _ _ _ _ _ _ s_look2); [|apply srun_nil].
  apply (st_skip _ _ _ _ _ _ 1 s_stack 1 0); [done|unfold NPROC; lia|vm_compute; reflexivity].
Qed.

Lemma process_invariant_witness :
  (p_state <$> k_procs (core s_fork) !! 1%nat) = Some EMBRYO /\
  (exists pc, s_call s_fork 0 = CFork 1 pc) /\ forall r pc, s_call s_fork r = CFork 1 pc -> r = 0%nat.
Proof.
  split; [vm_compute; reflexivity|]. split; [by exists FkStack|].
  assert (Hq : exists q, k_procs (core s_fork) !! 1%nat = Some q /\ p_state q = EMBRYO).
  { eexists. split; vm_compute; reflexivity. }
  destruct Hq as (q & Hq & He).
  pose proof (process_invariant DEFAULT 0 0 0 0 ts 0 (runnable 1 None) s_boot s_fork boot_init s_fork_reached)
    as (_ & _ & _ & _ & _ & _ & _ & _ & _ & H).
  destruct (H 1%nat q Hq He) as (r & pc & _ & _ & _ & Hone). intros r' pc' Hr'.
  rewrite (Hone r' pc' Hr'). symmetry. apply (Hone 0%nat FkStack). reflexivity.
Defined.

Lemma nobody_runs : forall m, ~ can_run (k_procs (core s_scan1)) m.
Proof.
  intros m (q & Hq & Hr). assert (Hall : Forall (fun q => p_state q <> RUNNABLE) (k_procs (core s_scan1))).
  { apply (bool_decide_unpack _). vm_compute. exact I. }
  by apply (proj1 (Forall_lookup _ _) Hall m q).
Qed.

Lemma scheduler_progress_witness :
  s_phase s_look2 1 = PScan 2 /\ exists s, sstep DEFAULT 0 0 0 0 ts 1 s_look2 s.
Proof.
  destruct (scheduler_progress 0 0 0 0 ts 0 (runnable 1 None) s_boot s_scan1 boot_init s_scan1_reached) as [H _].
  destruct (H 1%nat 0%nat eq_refl) as (j & (_ & _ & Hj) & Hrun).
  destruct Hj as [->|Hj]; [|by destruct (nobody_runs j)].
  apply (Hrun [1; 0; 1]%nat s_look2 s_scan1_run). unfold NPROC. cbn. lia.
Defined.

Lemma allocproc_out_of_range_witness :
  allocproc 0 0 (kern0 (replicate 64 (runnable 1 None)) 2) = UB "ptable.proc[NPROC]" /\
  allocproc 0 0 (kern0 (runnable 1 None :: replicate 63 free_proc) 64) = UB "pstat_var".
Proof.
  split.
  - apply (allocproc_out_of_range 0 0 (kern0 (replicate 64 (runnable 1 None)) 2)); [done|done|].
    intros j q Hq. apply (lookup_replicate_1 64 (runnable 1 None)) in Hq as [-> _]. done.
  - apply (allocproc_out_of_range 0 0 (kern0 (runnable 1 None :: replicate 63 free_proc) 64)); [done|done| |done].
    by exists 1%nat, free_proc.
Defined.

(** A table with one free slot, the second. *)
Definition one_free : kern unit := kern0 (runnable 1 None :: free_proc :: replicate 62 (runnable 5 (Some 0%nat))) 6.

Lemma kill_free_slot_witness :
  exists k1, kill 0 one_free = Ret 0 k1 /\ p_killed <$> k_procs k1 !! 1%nat = Some 1.
Proof.
  destruct (kill_free_slot 0 0 0 0 0 1 free_proc one_free) as (k1 & Hk & Hps & _); [done|done|done|done|done| |].
  - intros [|[|j]] q Hj Hq; [by injection Hq as <-|done|].
    apply (lookup_replicate_1 62 (runnable 5 (Some 0%nat))) in Hq as [-> _]. done.
  - exists k1. split; [exact Hk|]. by rewrite Hps.
Defined.

Lemma run_fork_returns : exists k, fork 0 0 0 0 0 (view 0 s_run) = Ret (-1) k.
Proof. eexists. vm_compute. reflexivity. Qed.
Lemma run_wait_returns : exists k, wait 0 0 (view 0 s_run) = Ret (Some (-1)) k.
Proof. eexists. vm_compute. reflexivity. Qed.

Lemma fork_correct_witness : exists k j q', fork 0 0 0 0 0 (view 0 s_run) = Ret (-1) k /\ k_procs k !! j = Some q'.
Proof.
  destruct run_fork_returns as [k Hk].
  destruct (fork_correct DEFAULT 0 0 0 0 ts 0 (runnable 1 None) s_boot s_run 0 0 (-1) k boot_init s_run_reached
    (proj1 s_run_phase) Hk) as (j & q & q' & _ & _ & Hq & _). by exists k, j, q'.
Defined.

Lemma wait_correct_witness :
  exists k, wait 0 0 (view 0 s_run) = Ret (Some (-1)) k /\
    ((exists j q, k_procs (core s_run) !! j = Some q /\ p_state q = ZOMBIE) \/ k_procs k = k_procs (core s_run)).
Proof.
  destruct run_wait_returns as [k Hk]. exists k. split; [exact Hk|].
  destruct (wait_correct DEFAULT 0 0 0 0 ts 0 (runnable 1 None) s_boot s_run 0 0 (Some (-1)) k boot_init s_run_reached
    (proj1 s_run_phase) (proj2 s_run_phase) Hk) as [(j & q & q' & Hq & Hz & _)|(_ & Hps & _)].
  - left. exists j, q. by split.
  - right. exact Hps.
Defined.

(** The second process is RUNNABLE, the queue starts with the first, which sleeps. *)
Definition parked (n : Z) : kern unit :=
  set_priCount [n; -1; -1] (set_que [Some 0%nat :: replicate 63 None; replicate 64 None; replicate 64 None]
    (kern0 (set_state SLEEPING (runnable 1 None) :: runnable 2 (Some 0%nat) :: replicate 62 free_proc) 3)).

Lemma resetPriority_grows_witness : resetPriority (parked 63) = UB "ptable.que".
Proof.
  apply (resetPriority_grows 1 (runnable 2 (Some 0%nat)) (parked 63) (Some 0%nat :: replicate 63 None)
    (replicate 64 None) (replicate 64 None) (Some 0%nat) 63 (-1) (-1)); try done.
  intros [|[|j]] q Hj Hq; [by injection Hq as <-|done|].
  apply (lookup_replicate_1 62 free_proc) in Hq as [-> _]. done.
Defined.

End Example.
