(* ===== verification/Blk.v ===== *)
(** * Integers in blocks of bytes

    Disk blocks are lists of bytes; the code reads and writes the integers of a
    structure in place, least significant byte first. *)

From S2P Require Import Prelude.

(** The [n] low bytes of [v], and the number a list of bytes stands for. *)
Fixpoint le (n : nat) (v : Z) : list Z :=
  match n with
  | O => []
  | S n => u8 v :: le n (Z.shiftr v 8)
  end.
Fixpoint unle (l : list Z) : Z :=
  match l with
  | [] => 0
  | b :: l => b + 256 * unle l
  end.

(** The integer of [n] bytes at offset [o] of a block, and assignment to it. *)
Definition get (n : nat) (d : list Z) (o : nat) : Z := unle (take n (drop o d)).
Definition put (n : nat) (d : list Z) (o : nat) (v : Z) : list Z := splice d o (le n v).

Definition get16 := get 2.
Definition put16 := put 2.
Definition get32 := get 4.
Definition put32 := put 4.

Definition is_bytes (l : list Z) : Prop := Forall (fun b => 0 <= b < 256) l.

Lemma length_le n v : length (le n v) = n.
Proof. revert v. induction n as [|n IH]; intros v; [done|]. cbn. by rewrite IH. Qed.
#[export] Hint Rewrite length_le : len.

Lemma le_bytes n v : is_bytes (le n v).
Proof. revert v. induction n as [|n IH]; intros v; constructor; [apply u8_bound|apply IH]. Qed.

Lemma unle_le n v : unle (le n v) = v mod 2 ^ (8 * Z.of_nat n).
Proof.
  revert v. induction n as [|n IH]; intros v; [by rewrite Z.mod_1_r|]. cbn [le unle]. rewrite IH.
  rewrite Z.shiftr_div_pow2 by lia. replace (8 * Z.of_nat (S n)) with (8 + 8 * Z.of_nat n) by lia.
  rewrite Z.pow_add_r by lia. rewrite Z.rem_mul_r by (try apply Z.pow_nonzero; lia). unfold u8. lia.
Qed.

Lemma unle_bound l : is_bytes l -> 0 <= unle l < 2 ^ (8 * Z.of_nat (length l)).
Proof.
  induction 1 as [|b l Hb Hl IH]; [done|]. cbn [unle length].
  replace (8 * Z.of_nat (S (length l))) with (8 + 8 * Z.of_nat (length l)) by lia.
  rewrite Z.pow_add_r by lia. change (2 ^ 8) with 256. lia.
Qed.

Lemma length_put n d o v : (o <= length d)%nat -> length (put n d o v) = length d.
Proof. apply length_splice. Qed.

Lemma get_put n d o v : (o + n <= length d)%nat -> get n (put n d o v) o = v mod 2 ^ (8 * Z.of_nat n).
Proof.
  intros Ho. rewrite <- unle_le. unfold get, put. f_equal. rewrite splice_in by len.
  rewrite drop_app_length' by len. rewrite take_app_length' by len. done.
Qed.

Lemma get_ext n d d' o :
  (forall i, (o <= i < o + n)%nat -> d !! i = d' !! i) -> get n d o = get n d' o.
Proof.
  intros Hd. unfold get. f_equal. apply list_eq. intros i. destruct (decide (i < n)%nat) as [Hi|Hi].
  - rewrite !lookup_take_lt, !lookup_drop by done. apply Hd. lia.
  - by rewrite !lookup_take_ge by lia.
Qed.

Lemma get_put_other n m d o p v :
  (p + m <= length d)%nat -> (o + n <= p \/ p + m <= o)%nat -> get n (put m d p v) o = get n d o.
Proof.
  intros Hp Ho. apply get_ext. intros i Hi. unfold put. apply lookup_splice_out; len.
Qed.

Lemma bytes_put n d o v : is_bytes d -> is_bytes (put n d o v).
Proof.
  intros Hd. unfold put, splice, is_bytes. apply Forall_take, Forall_app. split; [by apply Forall_take|].
  apply Forall_app. split; [apply le_bytes|by apply Forall_drop].
Qed.

Lemma get_bound n d o : is_bytes d -> 0 <= get n d o < 2 ^ (8 * Z.of_nat n).
Proof.
  intros Hd. unfold get. assert (Hb : is_bytes (take n (drop o d))) by (by apply Forall_take, Forall_drop).
  pose proof (unle_bound _ Hb) as Hu. split; [lia|]. eapply Z.lt_le_trans; [apply Hu|].
  apply Z.pow_le_mono_r; [lia|]. rewrite length_take. lia.
Qed.
