(* ===== verification/FsState.v ===== *)
(** * The state of the file system

    The buffer cache (bio.c), the disk, the log (log.c) and the inode cache (fs.c),
    as one process sees them between two points where it gives up the processor.
    The sleep locks are here too, because buffers and inodes embed them: sleeplock.c. *)

From S2P Require Import Prelude Mmu Blk.

Definition BSIZE : nat := 512.

Definition B_VALID : Z := 2.
Definition B_DIRTY : Z := 4.

(** [struct sleeplock]; its spin lock is [LkSleep]. *)
Record sleeplock := Sleeplock { locked : Z; lk_pid : Z }.

(** [struct buf]; the links of the list of buffers are in the arrays of the state. *)
Record buf := Buf {
  b_flags : Z; b_dev : Z; b_blockno : Z; b_lock : sleeplock; b_refcnt : Z; b_data : list Z
}.

(** [struct log], with its [struct logheader]. *)
Record log := Log {
  l_start : Z; l_size : Z; l_outstanding : Z; l_committing : Z; l_dev : Z; lh_n : Z; lh_block : list Z
}.

Record superblock := Superblock {
  sb_size : Z; sb_nblocks : Z; sb_ninodes : Z; sb_nlog : Z; sb_logstart : Z; sb_inodestart : Z; sb_bmapstart : Z
}.

Record inode := Inode {
  i_dev : Z; i_inum : Z; i_ref : Z; i_lock : sleeplock; i_valid : Z;
  i_type : Z; i_major : Z; i_minor : Z; i_nlink : Z; i_size : Z; i_addrs : list Z
}.

Record fs := Fs {
  s_locks : list lockid;
  s_pid : Z;                    (* myproc()->pid *)
  s_cwd : option nat;           (* myproc()->cwd *)
  s_wake : list chan;           (* calls of wakeup, oldest first *)
  s_bufs : list buf;            (* bcache.buf *)
  s_next : list nat;            (* the links next and prev of bcache.buf and, last, of bcache.head *)
  s_prev : list nat;
  s_disk : list (list Z);
  s_writes : list (Z * list Z); (* the writes of blocks to the disk, oldest first *)
  s_log : log;
  s_sb : superblock;
  s_inodes : list inode         (* icache.inode *)
}.

Definition set_s_locks v s := Fs v (s_pid s) (s_cwd s) (s_wake s) (s_bufs s) (s_next s) (s_prev s) (s_disk s) (s_writes s)
  (s_log s) (s_sb s) (s_inodes s).
Definition set_wake v s := Fs (s_locks s) (s_pid s) (s_cwd s) v (s_bufs s) (s_next s) (s_prev s) (s_disk s) (s_writes s)
  (s_log s) (s_sb s) (s_inodes s).
Definition set_bufs v s := Fs (s_locks s) (s_pid s) (s_cwd s) (s_wake s) v (s_next s) (s_prev s) (s_disk s) (s_writes s)
  (s_log s) (s_sb s) (s_inodes s).
Definition set_links nx pv s := Fs (s_locks s) (s_pid s) (s_cwd s) (s_wake s) (s_bufs s) nx pv (s_disk s) (s_writes s)
  (s_log s) (s_sb s) (s_inodes s).
Definition set_disk d w s := Fs (s_locks s) (s_pid s) (s_cwd s) (s_wake s) (s_bufs s) (s_next s) (s_prev s) d w
  (s_log s) (s_sb s) (s_inodes s).
Definition set_log v s := Fs (s_locks s) (s_pid s) (s_cwd s) (s_wake s) (s_bufs s) (s_next s) (s_prev s) (s_disk s)
  (s_writes s) v (s_sb s) (s_inodes s).
Definition set_sb v s := Fs (s_locks s) (s_pid s) (s_cwd s) (s_wake s) (s_bufs s) (s_next s) (s_prev s) (s_disk s)
  (s_writes s) (s_log s) v (s_inodes s).
Definition set_inodes v s := Fs (s_locks s) (s_pid s) (s_cwd s) (s_wake s) (s_bufs s) (s_next s) (s_prev s) (s_disk s)
  (s_writes s) (s_log s) (s_sb s) v.

#[export] Instance fs_locks : LockState fs.
Proof.
  refine {| held := s_locks; set_held := set_s_locks |}; [done|done|by intros []].
Defined.

(** Assignments to one field. *)
Definition set_b_flags v b := Buf v (b_dev b) (b_blockno b) (b_lock b) (b_refcnt b) (b_data b).
Definition set_b_lock v b := Buf (b_flags b) (b_dev b) (b_blockno b) v (b_refcnt b) (b_data b).
Definition set_b_refcnt v b := Buf (b_flags b) (b_dev b) (b_blockno b) (b_lock b) v (b_data b).
Definition set_b_data v b := Buf (b_flags b) (b_dev b) (b_blockno b) (b_lock b) (b_refcnt b) v.

Definition set_lh n bs l := Log (l_start l) (l_size l) (l_outstanding l) (l_committing l) (l_dev l) n bs.
Definition set_outstanding v l := Log (l_start l) (l_size l) v (l_committing l) (l_dev l) (lh_n l) (lh_block l).
Definition set_committing v l := Log (l_start l) (l_size l) (l_outstanding l) v (l_dev l) (lh_n l) (lh_block l).

Definition set_i_ref v i := Inode (i_dev i) (i_inum i) v (i_lock i) (i_valid i) (i_type i) (i_major i) (i_minor i)
  (i_nlink i) (i_size i) (i_addrs i).
Definition set_i_lock v i := Inode (i_dev i) (i_inum i) (i_ref i) v (i_valid i) (i_type i) (i_major i) (i_minor i)
  (i_nlink i) (i_size i) (i_addrs i).
Definition set_i_valid v i := Inode (i_dev i) (i_inum i) (i_ref i) (i_lock i) v (i_type i) (i_major i) (i_minor i)
  (i_nlink i) (i_size i) (i_addrs i).
Definition set_i_type v i := Inode (i_dev i) (i_inum i) (i_ref i) (i_lock i) (i_valid i) v (i_major i) (i_minor i)
  (i_nlink i) (i_size i) (i_addrs i).
Definition set_i_nlink v i := Inode (i_dev i) (i_inum i) (i_ref i) (i_lock i) (i_valid i) (i_type i) (i_major i)
  (i_minor i) v (i_size i) (i_addrs i).
Definition set_i_size v i := Inode (i_dev i) (i_inum i) (i_ref i) (i_lock i) (i_valid i) (i_type i) (i_major i)
  (i_minor i) (i_nlink i) v (i_addrs i).
Definition set_i_addrs v i := Inode (i_dev i) (i_inum i) (i_ref i) (i_lock i) (i_valid i) (i_type i) (i_major i)
  (i_minor i) (i_nlink i) (i_size i) v.

(** ** Access to the arrays *)

Definition get_buf (i : nat) : M fs buf := fun s =>
  match s_bufs s !! i with Some b => Ret b s | None => UB "bcache.buf" end.
Definition upd_buf (i : nat) (f : buf -> buf) : M fs unit := fun s =>
  match s_bufs s !! i with Some b => Ret tt (set_bufs (<[i := f b]> (s_bufs s)) s) | None => UB "bcache.buf" end.
Definition get_inode (i : nat) : M fs inode := fun s =>
  match s_inodes s !! i with Some b => Ret b s | None => UB "icache.inode" end.
Definition upd_inode (i : nat) (f : inode -> inode) : M fs unit := fun s =>
  match s_inodes s !! i with Some b => Ret tt (set_inodes (<[i := f b]> (s_inodes s)) s) | None => UB "icache.inode" end.

(** [wakeup(chan)], carried out by process management when the operation is over. *)
Definition wakeup (ch : chan) : M fs unit := modify (fun s => set_wake (s_wake s ++ [ch]) s).

(** ** Sleep locks *)

Definition get_slock (l : slock) : M fs sleeplock :=
  match l with
  | SlBuf i => b <- get_buf i ;; ret (b_lock b)
  | SlInode i => n <- get_inode i ;; ret (i_lock n)
  end.
Definition set_slock (l : slock) (v : sleeplock) : M fs unit :=
  match l with
  | SlBuf i => upd_buf i (set_b_lock v)
  | SlInode i => upd_inode i (set_i_lock v)
  end.

Definition initsleeplock (l : slock) : M fs unit :=
  initlock (LkSleep l) ;;;
  set_slock l (Sleeplock 0 0).

(** A process that has to wait gives up the spin lock and sleeps on the lock; when it
    goes on it takes the spin lock and tests again, which is what calling
    [acquiresleep] once more does. *)
Definition acquiresleep (l : slock) : M fs unit :=
  acquire (LkSleep l) ;;;
  v <- get_slock l ;;
  if negb (locked v =? 0) then release (LkSleep l) ;;; block (ChSleep l) else
  pid <- gets s_pid ;;
  set_slock l (Sleeplock 1 pid) ;;;
  release (LkSleep l).

Definition releasesleep (l : slock) : M fs unit :=
  acquire (LkSleep l) ;;;
  set_slock l (Sleeplock 0 0) ;;;
  wakeup (ChSleep l) ;;;
  release (LkSleep l).

Definition holdingsleep (l : slock) : M fs bool :=
  acquire (LkSleep l) ;;;
  v <- get_slock l ;;
  pid <- gets s_pid ;;
  release (LkSleep l) ;;;
  ret (negb (locked v =? 0) && (lk_pid v =? pid)).
