(* ===== verification/Bio.v ===== *)
(** * The buffer cache

    bio.c, over the disk of memide.c, which stores the blocks in memory.  The list of
    buffers, most recently used first, is the ring of links [next] and [prev] through
    the sentinel [bcache.head]. *)

From S2P Require Import Prelude Mmu Blk FsState.

(** The index of [bcache.head] in the arrays of links. *)
Definition bhead : nat := NBUF.

Definition get_next (i : nat) : M fs nat := fun s =>
  match s_next s !! i with Some j => Ret j s | None => UB "buf.next" end.
Definition get_prev (i : nat) : M fs nat := fun s =>
  match s_prev s !! i with Some j => Ret j s | None => UB "buf.prev" end.
Definition set_next (i j : nat) : M fs unit := fun s =>
  if decide (i < length (s_next s))%nat then Ret tt (set_links (<[i := j]> (s_next s)) (s_prev s) s) else UB "buf.next".
Definition set_prev (i j : nat) : M fs unit := fun s =>
  if decide (i < length (s_prev s))%nat then Ret tt (set_links (s_next s) (<[i := j]> (s_prev s)) s) else UB "buf.prev".

(** ** The disk: memide.c *)

(** [iderw]: synchronize buffer [i] with the disk. *)
Definition iderw (i : nat) : M fs unit :=
  h <- holdingsleep (SlBuf i) ;;
  if negb h then panic "iderw: buf not locked" else
  b <- get_buf i ;;
  if Z.land (b_flags b) (Z.lor B_VALID B_DIRTY) =? B_VALID then panic "iderw: nothing to do" else
  if negb (b_dev b =? 1) then panic "iderw: request not for disk 1" else
  disksize <- gets (fun s => Z.of_nat (length (s_disk s))) ;;
  if disksize <=? b_blockno b then panic "iderw: block out of range" else
  let p := Z.to_nat (b_blockno b) in
  (if negb (Z.land (b_flags b) B_DIRTY =? 0) then
     upd_buf i (fun b => set_b_flags (Z.land (b_flags b) (Z.lnot B_DIRTY)) b) ;;;
     modify (fun s => set_disk (<[p := b_data b]> (s_disk s)) (s_writes s ++ [(b_blockno b, b_data b)]) s)
   else
     d <- gets (fun s => nth p (s_disk s) []) ;;
     upd_buf i (set_b_data d)) ;;;
  upd_buf i (fun b => set_b_flags (Z.lor (b_flags b) B_VALID) b).

(** ** bio.c *)

Fixpoint binit_loop (n b : nat) : M fs unit :=
  match n with
  | O => ret tt
  | S n =>
    f <- get_next bhead ;;
    set_next b f ;;;
    set_prev b bhead ;;;
    initsleeplock (SlBuf b) ;;;
    f <- get_next bhead ;;
    set_prev f b ;;;
    set_next bhead b ;;;
    binit_loop n (S b)
  end.

Definition binit : M fs unit :=
  initlock LkBcache ;;;
  set_prev bhead bhead ;;;
  set_next bhead bhead ;;;
  binit_loop NBUF 0.

(** The loops of [bget]: from [b] on along the links, the first buffer that passes the
    test.  There are at most [NBUF] buffers in the ring. *)
Fixpoint bget_scan (follow : nat -> M fs nat) (test : buf -> bool) (fuel b : nat) : M fs (option nat) :=
  if (b =? bhead)%nat then ret None else
  match fuel with
  | O => ub "bget: endless list"
  | S fuel =>
    v <- get_buf b ;;
    if test v then ret (Some b) else
    b' <- follow b ;;
    bget_scan follow test fuel b'
  end.

Definition is_block (dev blockno : Z) (b : buf) : bool := (b_dev b =? dev) && (b_blockno b =? blockno).
Definition is_unused (b : buf) : bool := (b_refcnt b =? 0) && (Z.land (b_flags b) B_DIRTY =? 0).

Definition bget (dev blockno : Z) : M fs nat :=
  acquire LkBcache ;;;
  f <- get_next bhead ;;
  found <- bget_scan get_next (is_block dev blockno) NBUF f ;;
  match found with
  | Some b =>
    upd_buf b (fun v => set_b_refcnt (u32 (b_refcnt v + 1)) v) ;;;
    release LkBcache ;;;
    acquiresleep (SlBuf b) ;;;
    ret b
  | None =>
    f <- get_prev bhead ;;
    found <- bget_scan get_prev is_unused NBUF f ;;
    match found with
    | Some b =>
      upd_buf b (fun v => Buf 0 dev blockno (b_lock v) 1 (b_data v)) ;;;
      release LkBcache ;;;
      acquiresleep (SlBuf b) ;;;
      ret b
    | None => panic "bget: no buffers"
    end
  end.

Definition bread (dev blockno : Z) : M fs nat :=
  i <- bget dev blockno ;;
  b <- get_buf i ;;
  (when (Z.land (b_flags b) B_VALID =? 0) do iderw i) ;;;
  ret i.

Definition bwrite (i : nat) : M fs unit :=
  h <- holdingsleep (SlBuf i) ;;
  if negb h then panic "bwrite" else
  upd_buf i (fun b => set_b_flags (Z.lor (b_flags b) B_DIRTY) b) ;;;
  iderw i.

(** Move a buffer from its place to the front of the list. *)
Definition move_front (i : nat) : M fs unit :=
  nx <- get_next i ;;
  pv <- get_prev i ;;
  set_prev nx pv ;;;
  nx <- get_next i ;;
  pv <- get_prev i ;;
  set_next pv nx ;;;
  f <- get_next bhead ;;
  set_next i f ;;;
  set_prev i bhead ;;;
  f <- get_next bhead ;;
  set_prev f i ;;;
  set_next bhead i.

Definition brelse (i : nat) : M fs unit :=
  h <- holdingsleep (SlBuf i) ;;
  if negb h then panic "brelse" else
  releasesleep (SlBuf i) ;;;
  acquire LkBcache ;;;
  upd_buf i (fun b => set_b_refcnt (u32 (b_refcnt b - 1)) b) ;;;
  b <- get_buf i ;;
  (when (b_refcnt b =? 0) do move_front i) ;;;
  release LkBcache.
