(* ===== verification/BioSpec.v ===== *)
(** * What the buffer cache promises

    The ring of buffers, the invariant that ties the cache to the disk, and one equation
    for each operation of bio.c. *)

From S2P Require Import Prelude Mmu Blk FsState Bio.

(** ** Locks *)

Lemma acq_eq l s : l ∉ s_locks s -> acquire l s = Ret tt (set_s_locks (l :: s_locks s) s).
Proof. exact (acquire_free l s). Qed.
Lemma rel_eq l h s : s_locks s = l :: h -> l ∉ h -> release l s = Ret tt (set_s_locks h s).
Proof. exact (release_top l h s). Qed.

Lemma get_buf_eq i b s : s_bufs s !! i = Some b -> get_buf i s = Ret b s.
Proof. unfold get_buf. by intros ->. Qed.
Lemma upd_buf_eq i f b s :
  s_bufs s !! i = Some b -> upd_buf i f s = Ret tt (set_bufs (<[i := f b]> (s_bufs s)) s).
Proof. unfold upd_buf. by intros ->. Qed.

Section SleepLocks.
Context (i : nat) (b : buf) (s : fs).
Hypothesis Hb : s_bufs s !! i = Some b.
Hypothesis Hfree : LkSleep (SlBuf i) ∉ s_locks s.

Lemma holdingsleep_buf :
  holdingsleep (SlBuf i) s = Ret (negb (locked (b_lock b) =? 0) && (lk_pid (b_lock b) =? s_pid s)) s.
Proof using Hb Hfree.
  unfold holdingsleep. step (acq_eq _ s Hfree). set (s1 := set_s_locks _ s). cbn [get_slock]. rewrite bind_assoc.
  step (get_buf_eq i b s1 Hb). step (@eq_refl _ (Ret (b_lock b) s1)). rewrite bind_gets.
  step (rel_eq (LkSleep (SlBuf i)) (s_locks s) s1 eq_refl Hfree). by destruct s.
Qed.

Lemma acquiresleep_buf :
  locked (b_lock b) = 0 ->
  acquiresleep (SlBuf i) s = Ret tt (set_bufs (<[i := set_b_lock (Sleeplock 1 (s_pid s)) b]> (s_bufs s)) s).
Proof using Hb Hfree.
  intros Hl. unfold acquiresleep. step (acq_eq _ s Hfree). set (s1 := set_s_locks _ s). cbn [get_slock set_slock].
  rewrite bind_assoc. step (get_buf_eq i b s1 Hb). step (@eq_refl _ (Ret (b_lock b) s1)). rewrite Hl. cbn [Z.eqb negb].
  rewrite bind_gets. step (upd_buf_eq i (set_b_lock (Sleeplock 1 (s_pid s1))) b s1 Hb).
  rewrite (rel_eq (LkSleep (SlBuf i)) (s_locks s)) by done. by destruct s.
Qed.

Lemma acquiresleep_block :
  locked (b_lock b) <> 0 -> acquiresleep (SlBuf i) s = Block (ChSleep (SlBuf i)) s.
Proof using Hb Hfree.
  intros Hl. unfold acquiresleep. step (acq_eq _ s Hfree). set (s1 := set_s_locks _ s). cbn [get_slock].
  rewrite bind_assoc. step (get_buf_eq i b s1 Hb). step (@eq_refl _ (Ret (b_lock b) s1)).
  rewrite (proj2 (Z.eqb_neq _ _) Hl). cbn [negb].
  step (rel_eq (LkSleep (SlBuf i)) (s_locks s) s1 eq_refl Hfree). by destruct s.
Qed.

Lemma releasesleep_buf :
  releasesleep (SlBuf i) s =
  Ret tt (set_wake (s_wake s ++ [ChSleep (SlBuf i)]) (set_bufs (<[i := set_b_lock (Sleeplock 0 0) b]> (s_bufs s)) s)).
Proof using Hb Hfree.
  unfold releasesleep. step (acq_eq _ s Hfree). set (s1 := set_s_locks _ s). cbn [set_slock].
  step (upd_buf_eq i (set_b_lock (Sleeplock 0 0)) b s1 Hb). unfold wakeup. rewrite bind_modify.
  rewrite (rel_eq (LkSleep (SlBuf i)) (s_locks s)) by done. by destruct s.
Qed.
End SleepLocks.

(** ** The ring *)

(** The links lead from [a] through [l] to [z], and back. *)
Fixpoint linked (nx pv : list nat) (a : nat) (l : list nat) (z : nat) : Prop :=
  match l with
  | [] => nx !! a = Some z /\ pv !! z = Some a
  | x :: l => nx !! a = Some x /\ pv !! x = Some a /\ linked nx pv x l z
  end.

Record ring (nx pv : list nat) (l : list nat) : Prop := {
  rg_links : linked nx pv bhead l bhead;
  rg_all : l ≡ₚ seq 0 NBUF;
  rg_next : length nx = S NBUF;
  rg_prev : length pv = S NBUF
}.

Lemma linked_app nx pv a l x l' z :
  linked nx pv a (l ++ x :: l') z <-> linked nx pv a l x /\ linked nx pv x l' z.
Proof. revert a. induction l as [|y l IH]; intros a; cbn; [naive_solver|]. rewrite IH. naive_solver. Qed.

Lemma linked_rev nx pv a l z : linked nx pv a l z -> linked pv nx z (rev l) a.
Proof.
  revert a. induction l as [|x l IH]; intros a; cbn [linked rev]; [naive_solver|].
  intros (Hn & Hp & Hl). apply linked_app. split; [by apply IH|by split].
Qed.

(** A path keeps its links when other nodes change theirs. *)
Lemma linked_next nx pv a l z i j :
  i ∉ a :: l -> linked nx pv a l z -> linked (<[i := j]> nx) pv a l z.
Proof.
  revert a. induction l as [|x l IH]; intros a Hi; cbn [linked]; rewrite list_lookup_insert_ne by set_solver; [done|].
  intros (Hn & Hp & Hl). split_and!; [done|done|]. apply IH; [set_solver|done].
Qed.
Lemma linked_prev nx pv a l z i j :
  i ∉ z :: l -> linked nx pv a l z -> linked nx (<[i := j]> pv) a l z.
Proof.
  revert a. induction l as [|x l IH]; intros a Hi; cbn [linked]; rewrite list_lookup_insert_ne by set_solver; [done|].
  intros (Hn & Hp & Hl). split_and!; [done|done|]. apply IH; [set_solver|done].
Qed.

Lemma ring_in nx pv l i : ring nx pv l -> i ∈ l <-> (i < NBUF)%nat.
Proof. intros R. rewrite (rg_all _ _ _ R). rewrite elem_of_seq. lia. Qed.
Lemma ring_nodup nx pv l : ring nx pv l -> NoDup (bhead :: l).
Proof.
  intros R. apply NoDup_cons. split; [rewrite (ring_in _ _ _ _ R); unfold bhead; lia|].
  rewrite (rg_all _ _ _ R). apply NoDup_seq.
Qed.

Ltac look := repeat first
  [ rewrite list_lookup_insert_ne by congruence
  | rewrite list_lookup_insert_eq by (autorewrite with len; lia) ].

(** Taking a node out of a path. *)
Lemma unlink nx pv h l1 b l2 :
  NoDup (h :: l1 ++ b :: l2) -> (forall x, x ∈ h :: l1 ++ l2 -> (x < length nx)%nat /\ (x < length pv)%nat) ->
  linked nx pv h (l1 ++ b :: l2) h ->
  exists p n, pv !! b = Some p /\ nx !! b = Some n /\ p ∈ h :: l1 ++ l2 /\ n ∈ h :: l1 ++ l2 /\
    linked (<[p := n]> nx) (<[n := p]> pv) h (l1 ++ l2) h.
Proof.
  intros Hd Hlen [H1 H2]%linked_app.
  destruct l1 as [|p l1 _] using rev_ind; destruct l2 as [|n l2].
  - destruct H1 as [Hn Hp], H2 as [Hn2 Hp2]. exists h, h. destruct (Hlen h) as [L1 L2]; [set_solver|].
    split_and!; [done|done|set_solver|set_solver|]. cbn. look. done.
  - destruct H1 as [Hn Hp], H2 as (Hn2 & Hp2 & H2). exists h, n.
    destruct (Hlen h) as [L1 L2]; [set_solver|]. destruct (Hlen n) as [L3 L4]; [set_solver|].
    apply NoDup_cons in Hd as [Hh [_ Hd]%NoDup_cons]. apply NoDup_cons in Hd as [Hnn Hd].
    split_and!; [done|done|set_solver|set_solver|]. cbn. look. split_and!; [done|done|].
    apply linked_next; [set_solver|]. apply linked_prev; [set_solver|done].
  - apply linked_app in H1 as [H1 [Hn Hp]]. destruct H2 as [Hn2 Hp2]. exists p, h.
    destruct (Hlen h) as [L1 L2]; [set_solver|]. destruct (Hlen p) as [L3 L4]; [set_solver|].
    assert (Hph : p <> h /\ p ∉ l1 /\ h ∉ l1).
    { apply NoDup_cons in Hd as [Hh Hd]. rewrite <- app_assoc in Hd. apply NoDup_app in Hd as (_ & Hd & _). set_solver. }
    split_and!; [done|done|set_solver|set_solver|]. rewrite app_nil_r. apply linked_app. split.
    + apply linked_next; [set_solver|]. apply linked_prev; [set_solver|done].
    + cbn. look. done.
  - apply linked_app in H1 as [H1 [Hn Hp]]. destruct H2 as (Hn2 & Hp2 & H2). exists p, n.
    destruct (Hlen n) as [L1 L2]; [set_solver|]. destruct (Hlen p) as [L3 L4]; [set_solver|].
    assert (Hall : p <> h /\ p ∉ l1 /\ h ∉ l1 /\ n <> h /\ n ∉ l1 /\ p <> n /\ p ∉ l2 /\ n ∉ l2 /\ h ∉ l2).
    { apply NoDup_cons in Hd as [Hh Hd]. rewrite <- app_assoc in Hd. apply NoDup_app in Hd as (_ & Hd & Hd2).
      apply NoDup_cons in Hd2 as [Hd3 Hd2]. apply NoDup_cons in Hd2 as [Hd4 Hd2]. apply NoDup_cons in Hd2 as [Hd5 Hd2].
      set_solver. }
    destruct Hall as (? & ? & ? & ? & ? & ? & ? & ? & ?).
    split_and!; [done|done|set_solver|set_solver|]. rewrite <- app_assoc. apply linked_app. split.
    + apply linked_next; [set_solver|]. apply linked_prev; [set_solver|done].
    + cbn. look. split_and!; [done|done|]. apply linked_next; [set_solver|]. apply linked_prev; [set_solver|done].
Qed.

(** Putting a node at the front. *)
Lemma relink nx pv h b l :
  b ∉ h :: l -> h ∉ l -> NoDup l -> (b < length nx)%nat -> (b < length pv)%nat ->
  (forall x, x ∈ h :: l -> (x < length nx)%nat /\ (x < length pv)%nat) ->
  linked nx pv h l h ->
  exists f, nx !! h = Some f /\ f ∈ h :: l /\
    linked (<[h := b]> (<[b := f]> nx)) (<[f := b]> (<[b := h]> pv)) h (b :: l) h.
Proof.
  intros Hb Hh Hd B1 B2 Hlen Hl. destruct (Hlen h) as [L1 L2]; [set_solver|]. destruct l as [|x l].
  - destruct Hl as [Hn Hp]. exists h. split; [done|]. split; [set_solver|]. assert (b <> h) by set_solver. cbn. look. done.
  - destruct Hl as (Hn & Hp & Hl). exists x. destruct (Hlen x) as [L3 L4]; [set_solver|].
    apply NoDup_cons in Hd as [Hx Hd]. split; [done|]. split; [set_solver|].
    assert (b <> h /\ b <> x /\ x <> h) as (? & ? & ?) by set_solver. cbn. look. split_and!; try done.
    apply linked_next; [set_solver|]. apply linked_next; [set_solver|]. apply linked_prev; [set_solver|].
    apply linked_prev; [set_solver|done].
Qed.

(** The scans of [bget] along a path to the sentinel. *)
Lemma bget_scan_path follow test nx pv a l fuel s :
  (forall x y, nx !! x = Some y -> follow x s = Ret y s) ->
  linked nx pv a l bhead -> bhead ∉ l -> (forall x, x ∈ l -> is_Some (s_bufs s !! x)) -> (length l <= fuel)%nat ->
  exists f r, nx !! a = Some f /\ bget_scan follow test fuel f s = Ret r s /\
  match r with
  | Some x => exists b, x ∈ l /\ s_bufs s !! x = Some b /\ test b = true
  | None => forall x b, x ∈ l -> s_bufs s !! x = Some b -> test b = false
  end.
Proof.
  intros Hf. revert a fuel. induction l as [|x l IH]; intros a fuel Hl Hh Hb Hfu.
  - destruct Hl as [Hn _]. exists bhead, None. split; [done|]. split; [by destruct fuel|]. intros x b []%elem_of_nil.
  - destruct Hl as (Hn & _ & Hl). exists x. destruct fuel as [|fuel]; [cbn in Hfu; lia|].
    apply not_elem_of_cons in Hh as [Hhx Hh]. cbn [bget_scan]. rewrite (proj2 (Nat.eqb_neq x bhead)) by done.
    destruct (Hb x) as [b Hbx]; [set_solver|]. rewrite (bind_ret _ _ _ _ _ (get_buf_eq x b s Hbx)).
    destruct (test b) eqn:Ht; [exists (Some x); split; [done|]; split; [done|]; exists b; set_solver|].
    destruct (IH x fuel) as (f & r & Hfx & Hr & Hres); [done|done|set_solver|cbn in Hfu; lia|].
    exists r. split; [done|]. split; [by step (Hf x f Hfx)|]. destruct r as [y|].
    + destruct Hres as (b' & Hy & ?). exists b'. set_solver.
    + intros y b' [->|Hy]%elem_of_cons Hb'; [congruence|]. by eapply Hres.
Qed.

Lemma get_next_eq i j s : s_next s !! i = Some j -> get_next i s = Ret j s.
Proof. unfold get_next. by intros ->. Qed.
Lemma get_prev_eq i j s : s_prev s !! i = Some j -> get_prev i s = Ret j s.
Proof. unfold get_prev. by intros ->. Qed.
Lemma set_next_eq i j s :
  (i < length (s_next s))%nat -> set_next i j s = Ret tt (set_links (<[i := j]> (s_next s)) (s_prev s) s).
Proof. intros Hi. unfold set_next. by rewrite decide_True. Qed.
Lemma set_prev_eq i j s :
  (i < length (s_prev s))%nat -> set_prev i j s = Ret tt (set_links (s_next s) (<[i := j]> (s_prev s)) s).
Proof. intros Hi. unfold set_prev. by rewrite decide_True. Qed.

(** ** The invariant *)

Definition dblock (disk : list (list Z)) (n : Z) : list Z := nth (Z.to_nat n) disk [].

(** A buffer that was never used, or one with the contents of a block of the disk.  While it
    is locked its holder may change the data; otherwise it is as on the disk unless the
    log has marked it dirty. *)
Record buf_ok (disk : list (list Z)) (b : buf) : Prop := {
  bo_ref : 0 <= b_refcnt b < 2 ^ 31;
  bo_free : b_refcnt b = 0 -> b_lock b = Sleeplock 0 0;
  bo_dev : b_dev b = 0 /\ b_flags b = 0 /\ b_refcnt b = 0 \/
           b_dev b = 1 /\ (b_flags b = 2 \/ b_flags b = 6);
  bo_range : b_dev b = 1 -> 0 <= b_blockno b < Z.of_nat (length disk);
  bo_clean : b_flags b = 2 -> locked (b_lock b) = 0 -> b_data b = dblock disk (b_blockno b)
}.

Record cache_ok (s : fs) : Prop := {
  co_ring : exists l, ring (s_next s) (s_prev s) l;
  co_len : length (s_bufs s) = NBUF;
  co_bufs : forall i b, s_bufs s !! i = Some b -> buf_ok (s_disk s) b;
  co_one : forall i j b b', s_bufs s !! i = Some b -> s_bufs s !! j = Some b' -> b_dev b = 1 -> b_dev b' = 1 ->
    b_blockno b = b_blockno b' -> i = j;
  co_size : Z.of_nat (length (s_disk s)) < 2 ^ 32
}.

(** What a process that reads block [n] gets: the cached data if there are any, otherwise
    the disk. *)
Definition content (s : fs) (n : Z) : list Z :=
  match list_find (fun b => is_block 1 n b = true) (s_bufs s) with
  | Some (_, b) => b_data b
  | None => dblock (s_disk s) n
  end.

Lemma is_block_true dev n b : is_block dev n b = true <-> b_dev b = dev /\ b_blockno b = n.
Proof. unfold is_block. rewrite andb_true_iff, !Z.eqb_eq. done. Qed.

Lemma content_cached s i b n :
  cache_ok s -> s_bufs s !! i = Some b -> is_block 1 n b = true -> content s n = b_data b.
Proof.
  intros Hs Hb Hn. unfold content. destruct (list_find _ _) as [[j b']|] eqn:E.
  - apply list_find_Some in E as (Hj & [Hd' Hn']%is_block_true & _). apply is_block_true in Hn as [Hd Hn].
    assert (j = i) as -> by (eapply (co_one s Hs); try done; congruence). congruence.
  - apply list_find_None in E. rewrite Forall_lookup in E. by destruct (E i b Hb).
Qed.

Lemma content_uncached s n :
  (forall i b, s_bufs s !! i = Some b -> is_block 1 n b = false) -> content s n = dblock (s_disk s) n.
Proof.
  intros Hn. unfold content. destruct (list_find _ _) as [[j b']|] eqn:E; [|done].
  apply list_find_Some in E as (Hj & Ht & _). by rewrite (Hn j b' Hj) in Ht.
Qed.

(** Between two operations a process holds neither the lock of the cache nor the spin
    lock of a sleep lock. *)
Definition unlatched (s : fs) : Prop := LkBcache ∉ s_locks s /\ forall l, LkSleep l ∉ s_locks s.

(** The buffer [bread] returns, when it found [b]. *)
Definition got (s : fs) (n : Z) (b : buf) : buf :=
  Buf (if is_block 1 n b then b_flags b else B_VALID) 1 n (Sleeplock 1 (s_pid s))
    (if is_block 1 n b then b_refcnt b + 1 else 1) (content s n).

Lemma with_locks_id h s : s_locks s = h -> set_s_locks h (set_s_locks (LkBcache :: h) s) = s.
Proof. intros <-. by destruct s. Qed.

Lemma iderw_read i b s :
  s_bufs s !! i = Some b -> (forall l, LkSleep l ∉ s_locks s) -> b_lock b = Sleeplock 1 (s_pid s) ->
  b_dev b = 1 -> b_flags b = 0 -> b_blockno b < Z.of_nat (length (s_disk s)) ->
  iderw i s = Ret tt (set_bufs (<[i := set_b_flags B_VALID (set_b_data (dblock (s_disk s) (b_blockno b)) b)]> (s_bufs s)) s).
Proof.
  intros Hb Hl Hk Hd Hf Hn. apply lookup_lt_Some in Hb as Hlt. unfold iderw.
  step (holdingsleep_buf i b s Hb (Hl _)). rewrite Hk. cbn [locked lk_pid]. rewrite Z.eqb_refl. cbn [Z.eqb negb andb].
  step (get_buf_eq i b s Hb). rewrite Hf, Hd. change (Z.land 0 (Z.lor B_VALID B_DIRTY) =? B_VALID) with false.
  change (negb (1 =? 1)) with false. cbv iota. rewrite bind_gets. change (negb (Z.land 0 B_DIRTY =? 0)) with false.
  rewrite (proj2 (Z.leb_gt _ _) Hn). cbv zeta iota. rewrite bind_assoc, bind_gets.
  step (upd_buf_eq i (set_b_data (nth (Z.to_nat (b_blockno b)) (s_disk s) [])) b s Hb).
  erewrite upd_buf_eq by (cbn; by rewrite list_lookup_insert_eq). cbn [s_bufs set_bufs]. rewrite list_insert_insert_eq.
  unfold set_b_flags, set_b_data, dblock. cbn [b_flags b_dev b_blockno b_lock b_refcnt b_data]. rewrite Hf. done.
Qed.

(** The end of both branches of [bget], with [bcache.lock] held: the buffer becomes [b1]
    and is locked. *)
Lemma bget_end i b b1 f s :
  s_bufs s !! i = Some b -> f b = b1 -> unlatched s -> locked (b_lock b1) = 0 ->
  (upd_buf i f ;;; release LkBcache ;;; acquiresleep (SlBuf i) ;;; ret i) (set_s_locks (LkBcache :: s_locks s) s) =
  Ret i (set_bufs (<[i := set_b_lock (Sleeplock 1 (s_pid s)) b1]> (s_bufs s)) s).
Proof.
  intros Hb <- [Hbc Hsl] Hl. apply lookup_lt_Some in Hb as Hlt. set (s1 := set_s_locks _ s).
  step (upd_buf_eq i f b s1 Hb). rewrite (bind_ret _ _ _ tt (set_bufs (<[i := f b]> (s_bufs s)) s)).
  2:{ rewrite (rel_eq LkBcache (s_locks s)) by done. by destruct s. }
  set (s2 := set_bufs _ s). assert (Hb2 : s_bufs s2 !! i = Some (f b)) by (cbn; by rewrite list_lookup_insert_eq).
  step (acquiresleep_buf i _ s2 Hb2 (Hsl _) Hl). unfold ret. cbn. by rewrite list_insert_insert_eq.
Qed.

Lemma ring_scan follow test nx pv l s :
  (forall x y, nx !! x = Some y -> follow x s = Ret y s) -> linked nx pv bhead l bhead -> l ≡ₚ seq 0 NBUF ->
  length (s_bufs s) = NBUF ->
  exists f r, nx !! bhead = Some f /\ bget_scan follow test NBUF f s = Ret r s /\
  match r with
  | Some x => exists b, s_bufs s !! x = Some b /\ test b = true
  | None => forall x b, s_bufs s !! x = Some b -> test b = false
  end.
Proof.
  intros Hf Hl Hp Hlen. assert (Hin : forall x, x ∈ l <-> (x < NBUF)%nat) by (intros x; rewrite Hp, elem_of_seq; lia).
  destruct (bget_scan_path follow test nx pv bhead l NBUF s) as (f & r & Hfi & Hr & Hres);
    [done|done|rewrite Hin; unfold bhead; lia| |by rewrite Hp, length_seq|].
  { intros x Hx%Hin. apply lookup_lt_is_Some. by rewrite Hlen. }
  exists f, r. split; [done|]. split; [done|]. destruct r as [x|]; [naive_solver|].
  intros x b Hx. apply (Hres x b); [|done]. apply Hin. apply lookup_lt_Some in Hx. by rewrite <- Hlen.
Qed.

Lemma bget_eq n s :
  cache_ok s -> unlatched s ->
  (forall i b, s_bufs s !! i = Some b -> is_block 1 n b = true -> locked (b_lock b) = 0 /\ b_refcnt b < 2 ^ 31 - 1) ->
  (exists i b, s_bufs s !! i = Some b /\ (is_block 1 n b = true \/ is_unused b = true)) ->
  exists i b, s_bufs s !! i = Some b /\
    (is_block 1 n b = true /\
       bget 1 n s = Ret i (set_bufs (<[i := set_b_lock (Sleeplock 1 (s_pid s)) (set_b_refcnt (b_refcnt b + 1) b)]> (s_bufs s)) s) \/
     is_unused b = true /\ (forall j b', s_bufs s !! j = Some b' -> is_block 1 n b' = false) /\
       bget 1 n s = Ret i (set_bufs (<[i := Buf 0 1 n (Sleeplock 1 (s_pid s)) 1 (b_data b)]> (s_bufs s)) s)).
Proof.
  intros Hs Hun Hcached Hex. destruct (co_ring s Hs) as [l R]. unfold bget. step (acq_eq LkBcache s (proj1 Hun)).
  set (s1 := set_s_locks _ s).
  destruct (ring_scan get_next (is_block 1 n) (s_next s) (s_prev s) l s1) as (f & r & Hf & Hr & Hres);
    [intros; by apply get_next_eq|apply R|apply R|apply Hs|]. step (get_next_eq bhead f s1 Hf). step Hr.
  destruct r as [i|].
  - destruct Hres as (b & Hb & Ht). exists i, b. split; [done|]. left. split; [done|].
    destruct (Hcached i b Hb Ht) as [Hfree Href]. pose proof (co_bufs s Hs i b Hb) as Hok.
    apply bget_end with b; [done| |done|done]. rewrite u32_id by (pose proof (bo_ref _ _ Hok); lia). done.
  - destruct (ring_scan get_prev is_unused (s_prev s) (s_next s) (rev l) s1) as (g & r & Hg & Hr2 & Hres2);
      [intros; by apply get_prev_eq|apply linked_rev, R|rewrite <- (rg_all _ _ _ R); symmetry; apply Permutation_rev|apply Hs|].
    step (get_prev_eq bhead g s1 Hg). step Hr2. destruct r as [i|].
    + destruct Hres2 as (b & Hb & Ht). exists i, b. split; [done|]. right. split; [done|]. split; [done|].
      assert (Hlk : b_lock b = Sleeplock 0 0).
      { apply (bo_free _ _ (co_bufs s Hs i b Hb)). unfold is_unused in Ht. apply andb_prop in Ht as [Ht _]. by apply Z.eqb_eq in Ht. }
      apply (bget_end i b (Buf 0 1 n (b_lock b) 1 (b_data b))); [done|done|done|by rewrite Hlk].
    + destruct Hex as (i & b & Hb & [Ht|Ht]); [by rewrite (Hres i b Hb) in Ht|by rewrite (Hres2 i b Hb) in Ht].
Qed.

(** A buffer that somebody has locked: the caller counts itself in and waits for the lock. *)
Lemma bget_waits n i b s :
  cache_ok s -> unlatched s -> s_bufs s !! i = Some b -> is_block 1 n b = true -> locked (b_lock b) <> 0 ->
  bget 1 n s = Block (ChSleep (SlBuf i)) (set_bufs (<[i := set_b_refcnt (u32 (b_refcnt b + 1)) b]> (s_bufs s)) s).
Proof.
  intros Hs Hun Hb Ht Hlk. destruct (co_ring s Hs) as [l R]. unfold bget. step (acq_eq LkBcache s (proj1 Hun)).
  set (s1 := set_s_locks _ s).
  destruct (ring_scan get_next (is_block 1 n) (s_next s) (s_prev s) l s1) as (f & r & Hf & Hr & Hres);
    [intros; by apply get_next_eq|apply R|apply R|apply Hs|]. step (get_next_eq bhead f s1 Hf). step Hr.
  destruct r as [j|]; [|by rewrite (Hres i b Hb) in Ht]. destruct Hres as (c & Hc & Htc). assert (j = i) as ->.
  { apply is_block_true in Ht as [? ?], Htc as [? ?]. eapply (co_one s Hs); [exact Hc|exact Hb|congruence..]. }
  assert (c = b) as -> by (change (s_bufs s !! i = Some c) in Hc; congruence). apply lookup_lt_Some in Hb as Hlt.
  step (upd_buf_eq i (fun v => set_b_refcnt (u32 (b_refcnt v + 1)) v) b s1 Hb).
  set (b1 := set_b_refcnt _ b). set (s2 := set_bufs (<[i := b1]> (s_bufs s)) s).
  rewrite (bind_ret _ _ _ tt s2) by (rewrite (rel_eq LkBcache (s_locks s)); [by destruct s|done|apply Hun]).
  assert (Hb2 : s_bufs s2 !! i = Some b1) by (cbn; by rewrite list_lookup_insert_eq).
  by rewrite (bind_block _ _ _ _ _ (acquiresleep_block i b1 s2 Hb2 (proj2 Hun _) Hlk)).
Qed.

(** No buffer for the block and none to recycle. *)
Lemma bget_panics n s :
  cache_ok s -> unlatched s -> (forall i b, s_bufs s !! i = Some b -> is_block 1 n b = false /\ is_unused b = false) ->
  bget 1 n s = Panic "bget: no buffers".
Proof.
  intros Hs Hun Hno. destruct (co_ring s Hs) as [l R]. unfold bget. step (acq_eq LkBcache s (proj1 Hun)).
  set (s1 := set_s_locks _ s).
  destruct (ring_scan get_next (is_block 1 n) (s_next s) (s_prev s) l s1) as (f & r & Hf & Hr & Hres);
    [intros; by apply get_next_eq|apply R|apply R|apply Hs|]. step (get_next_eq bhead f s1 Hf). step Hr.
  destruct r as [i|]; [destruct Hres as (b & Hb & Ht); destruct (Hno i b Hb); congruence|].
  destruct (ring_scan get_prev is_unused (s_prev s) (s_next s) (rev l) s1) as (g & r & Hg & Hr2 & Hres2);
    [intros; by apply get_prev_eq|apply linked_rev, R|rewrite <- (rg_all _ _ _ R); symmetry; apply Permutation_rev|apply Hs|].
  step (get_prev_eq bhead g s1 Hg). step Hr2. destruct r as [i|]; [|done].
  destruct Hres2 as (b & Hb & Ht). destruct (Hno i b Hb). congruence.
Qed.

Lemma got_cached s i b n :
  cache_ok s -> s_bufs s !! i = Some b -> is_block 1 n b = true ->
  set_b_lock (Sleeplock 1 (s_pid s)) (set_b_refcnt (b_refcnt b + 1) b) = got s n b.
Proof.
  intros Hs Hb Ht. unfold got. rewrite Ht, (content_cached s i b n Hs Hb Ht). apply is_block_true in Ht as [Hd Hn].
  unfold set_b_lock, set_b_refcnt. cbn. by rewrite Hd, Hn.
Qed.

Lemma bread_eq n s :
  cache_ok s -> unlatched s -> 0 <= n < Z.of_nat (length (s_disk s)) ->
  (forall i b, s_bufs s !! i = Some b -> is_block 1 n b = true -> locked (b_lock b) = 0 /\ b_refcnt b < 2 ^ 31 - 1) ->
  (exists i b, s_bufs s !! i = Some b /\ (is_block 1 n b = true \/ is_unused b = true)) ->
  exists i b, s_bufs s !! i = Some b /\
    (is_block 1 n b = true \/
     is_unused b = true /\ forall j b', s_bufs s !! j = Some b' -> is_block 1 n b' = false) /\
    bread 1 n s = Ret i (set_bufs (<[i := got s n b]> (s_bufs s)) s).
Proof.
  intros Hs Hun Hn Hcached Hex. destruct (bget_eq n s Hs Hun Hcached Hex) as (i & b & Hb & Hres).
  exists i, b. split; [done|]. apply lookup_lt_Some in Hb as Hlt. unfold bread.
  destruct Hres as [[Ht E]|(Ht & Hno & E)]; step E; set (s1 := set_bufs _ s).
  - split; [by left|]. pose proof (got_cached s i b n Hs Hb Ht) as Eg.
    assert (Hb1 : s_bufs s1 !! i = Some (got s n b)) by (rewrite <- Eg; cbn; by rewrite list_lookup_insert_eq).
    step (get_buf_eq i _ s1 Hb1). assert (Hv : Z.land (b_flags (got s n b)) B_VALID =? 0 = false).
    { unfold got. rewrite Ht. cbn [b_flags]. apply is_block_true in Ht as [Hd _].
      destruct (bo_dev _ _ (co_bufs s Hs i b Hb)) as [[? _]|[_ [-> | ->]]]; [congruence|done|done]. }
    rewrite Hv, <- Eg. done.
  - split; [by right|]. set (b1 := Buf 0 1 n _ 1 _) in *.
    assert (Hb1 : s_bufs s1 !! i = Some b1) by (cbn; by rewrite list_lookup_insert_eq).
    step (get_buf_eq i _ s1 Hb1). change (Z.land (b_flags b1) B_VALID =? 0) with true. cbv iota.
    step (iderw_read i b1 s1 Hb1 (proj2 Hun) eq_refl eq_refl eq_refl ltac:(cbn; lia)). unfold ret. f_equal.
    cbn. rewrite list_insert_insert_eq. unfold got. by rewrite (Hno i b Hb), (content_uncached s n Hno).
Qed.

Lemma iderw_write i b s :
  s_bufs s !! i = Some b -> (forall l, LkSleep l ∉ s_locks s) -> b_lock b = Sleeplock 1 (s_pid s) ->
  b_dev b = 1 -> b_flags b = 6 -> b_blockno b < Z.of_nat (length (s_disk s)) ->
  iderw i s = Ret tt (set_disk (<[Z.to_nat (b_blockno b) := b_data b]> (s_disk s)) (s_writes s ++ [(b_blockno b, b_data b)])
    (set_bufs (<[i := set_b_flags B_VALID b]> (s_bufs s)) s)).
Proof.
  intros Hb Hl Hk Hd Hf Hn. apply lookup_lt_Some in Hb as Hlt. unfold iderw.
  step (holdingsleep_buf i b s Hb (Hl _)). rewrite Hk. cbn [locked lk_pid]. rewrite Z.eqb_refl. cbn [Z.eqb negb andb].
  step (get_buf_eq i b s Hb). rewrite Hf, Hd. change (Z.land 6 (Z.lor B_VALID B_DIRTY) =? B_VALID) with false.
  change (negb (1 =? 1)) with false. cbv iota. rewrite bind_gets. change (negb (Z.land 6 B_DIRTY =? 0)) with true.
  rewrite (proj2 (Z.leb_gt _ _) Hn). cbv zeta iota. rewrite bind_assoc.
  step (upd_buf_eq i (fun b => set_b_flags (Z.land (b_flags b) (Z.lnot B_DIRTY)) b) b s Hb). rewrite bind_modify.
  erewrite upd_buf_eq by (cbn; by rewrite list_lookup_insert_eq). cbn. rewrite list_insert_insert_eq, Hf. done.
Qed.

Lemma bwrite_eq i b s :
  s_bufs s !! i = Some b -> (forall l, LkSleep l ∉ s_locks s) -> b_lock b = Sleeplock 1 (s_pid s) ->
  b_dev b = 1 -> b_flags b = 2 \/ b_flags b = 6 -> b_blockno b < Z.of_nat (length (s_disk s)) ->
  bwrite i s = Ret tt (set_disk (<[Z.to_nat (b_blockno b) := b_data b]> (s_disk s)) (s_writes s ++ [(b_blockno b, b_data b)])
    (set_bufs (<[i := set_b_flags B_VALID b]> (s_bufs s)) s)).
Proof.
  intros Hb Hl Hk Hd Hf Hn. apply lookup_lt_Some in Hb as Hlt. unfold bwrite.
  step (holdingsleep_buf i b s Hb (Hl _)). rewrite Hk. cbn [locked lk_pid]. rewrite Z.eqb_refl. cbn [Z.eqb negb andb].
  step (upd_buf_eq i (fun b => set_b_flags (Z.lor (b_flags b) B_DIRTY) b) b s Hb). set (s1 := set_bufs _ s).
  assert (E : set_b_flags (Z.lor (b_flags b) B_DIRTY) b = set_b_flags 6 b) by (by destruct Hf as [-> | ->]).
  assert (Hb1 : s_bufs s1 !! i = Some (set_b_flags 6 b)) by (cbn; by rewrite E, list_lookup_insert_eq).
  rewrite (iderw_write i _ s1 Hb1) by done. cbn. by rewrite list_insert_insert_eq.
Qed.

(** Moving a buffer to the front of the ring. *)
Lemma ring_front nx pv l1 i l2 :
  ring nx pv (l1 ++ i :: l2) ->
  exists n p f, nx !! i = Some n /\ pv !! i = Some p /\ n <> i /\ p <> i /\ (n < S NBUF)%nat /\ (p < S NBUF)%nat /\
    <[p := n]> nx !! bhead = Some f /\ f <> i /\ (f < S NBUF)%nat /\
    ring (<[bhead := i]> (<[i := f]> (<[p := n]> nx))) (<[f := i]> (<[i := bhead]> (<[n := p]> pv))) (i :: l1 ++ l2).
Proof.
  intros R. pose proof (ring_nodup _ _ _ R) as Hd. destruct R as [Hl Hp L1 L2].
  assert (Hlt : forall x, x ∈ bhead :: l1 ++ i :: l2 -> (x < S NBUF)%nat).
  { intros x [->|Hx]%elem_of_cons; [unfold bhead; lia|]. rewrite Hp, elem_of_seq in Hx. lia. }
  assert (Hd2 : NoDup (i :: bhead :: l1 ++ l2)).
  { rewrite <- Permutation_middle in Hd. by rewrite perm_swap in Hd. }
  apply NoDup_cons in Hd2 as [Hi Hd2]. apply NoDup_cons in Hd2 as [Hh Hd2].
  destruct (unlink nx pv bhead l1 i l2 Hd) as (p & n & Hpi & Hni & Hpin & Hnin & Hl2); [|done|].
  { intros x Hx. rewrite L1, L2. split; apply Hlt; set_solver. }
  destruct (relink (<[p := n]> nx) (<[n := p]> pv) bhead i (l1 ++ l2)) as (f & Hf & Hfin & Hl3);
    [done|done|done|len; rewrite L1; apply Hlt; set_solver|len; rewrite L2; apply Hlt; set_solver| |done|].
  { intros x Hx. len. rewrite L1, L2. split; apply Hlt; set_solver. }
  exists n, p, f. split_and!; try done; try (by intros ->); try (apply Hlt; set_solver).
  split; [done| |len; lia|len; lia]. rewrite <- Hp. by rewrite Permutation_middle.
Qed.

Lemma move_front_eq l1 i l2 s :
  ring (s_next s) (s_prev s) (l1 ++ i :: l2) ->
  exists nx pv, ring nx pv (i :: l1 ++ l2) /\ move_front i s = Ret tt (set_links nx pv s).
Proof.
  intros R. destruct (ring_front _ _ _ _ _ R) as (n & p & f & Hn & Hp & Hni & Hpi & Ln & Lp & Hf & Hfi & Lf & R').
  pose proof (rg_next _ _ _ R) as L1. pose proof (rg_prev _ _ _ R) as L2.
  assert (Hi : (i < NBUF)%nat) by (apply (ring_in _ _ _ _ R); set_solver). unfold bhead in *.
  eexists _, _. split; [exact R'|]. unfold move_front, bhead. step (get_next_eq i n s Hn). step (get_prev_eq i p s Hp).
  step (set_prev_eq n p s ltac:(lia)). set (s3 := set_links _ _ s). step (get_next_eq i n s3 Hn).
  step (get_prev_eq i p s3 ltac:(cbn; by rewrite list_lookup_insert_ne)). step (set_next_eq p n s3 ltac:(cbn; lia)).
  set (s4 := set_links _ _ s3). step (get_next_eq NBUF f s4 Hf). step (set_next_eq i f s4 ltac:(cbn; len)).
  set (s5 := set_links _ _ s4). step (set_prev_eq i NBUF s5 ltac:(cbn; len)). set (s6 := set_links _ _ s5).
  step (get_next_eq NBUF f s6 ltac:(cbn; rewrite list_lookup_insert_ne by lia; exact Hf)).
  step (set_prev_eq f i s6 ltac:(cbn; len)). set (s7 := set_links _ _ s6). by rewrite (set_next_eq NBUF i s7) by (cbn; len).
Qed.

Definition released (b : buf) : buf :=
  Buf (b_flags b) (b_dev b) (b_blockno b) (Sleeplock 0 0) (b_refcnt b - 1) (b_data b).

(** [brelse]; a buffer nobody refers to any more goes to the front. *)
Lemma brelse_eq i b l s :
  s_bufs s !! i = Some b -> unlatched s -> b_lock b = Sleeplock 1 (s_pid s) -> 1 <= b_refcnt b < 2 ^ 31 ->
  ring (s_next s) (s_prev s) l -> (i < NBUF)%nat ->
  exists nx pv l', ring nx pv l' /\
    (if b_refcnt b =? 1 then exists l1 l2, l = l1 ++ i :: l2 /\ l' = i :: l1 ++ l2 else l' = l) /\
    brelse i s = Ret tt (set_links nx pv (set_wake (s_wake s ++ [ChSleep (SlBuf i)])
      (set_bufs (<[i := released b]> (s_bufs s)) s))).
Proof.
  intros Hb [Hbc Hsl] Hk Href R Hi. apply lookup_lt_Some in Hb as Hlt. unfold brelse.
  step (holdingsleep_buf i b s Hb (Hsl _)). rewrite Hk. cbn [locked lk_pid]. rewrite Z.eqb_refl. cbn [Z.eqb negb andb].
  step (releasesleep_buf i b s Hb (Hsl _)). set (s1 := set_wake _ _). step (acq_eq LkBcache s1 Hbc).
  set (s2 := set_s_locks _ s1).
  assert (Hb2 : s_bufs s2 !! i = Some (set_b_lock (Sleeplock 0 0) b)) by (cbn; by rewrite list_lookup_insert_eq).
  step (upd_buf_eq i (fun b => set_b_refcnt (u32 (b_refcnt b - 1)) b) _ s2 Hb2). set (s3 := set_bufs _ s2).
  assert (Er : set_b_refcnt (u32 (b_refcnt (set_b_lock (Sleeplock 0 0) b) - 1)) (set_b_lock (Sleeplock 0 0) b) = released b).
  { unfold released, set_b_refcnt, set_b_lock. cbn. by rewrite u32_id by lia. }
  assert (Es3 : s_bufs s3 = <[i := released b]> (s_bufs s)) by (unfold s3; cbn [s_bufs set_bufs]; rewrite <- Er; cbn; by rewrite list_insert_insert_eq).
  assert (Hb3 : s_bufs s3 !! i = Some (released b)) by (by rewrite Es3, list_lookup_insert_eq).
  step (get_buf_eq i _ s3 Hb3). cbn [b_refcnt released].
  assert (Hlast : forall nx pv, release LkBcache (set_links nx pv s3) = Ret tt (set_links nx pv (set_wake (s_wake s ++ [ChSleep (SlBuf i)])
      (set_bufs (<[i := released b]> (s_bufs s)) s)))).
  { intros nx pv. rewrite (rel_eq LkBcache (s_locks s)) by done. rewrite <- Es3. by destruct s. }
  destruct (Z.eqb_spec (b_refcnt b) 1) as [E1|E1].
  - rewrite (proj2 (Z.eqb_eq (b_refcnt b - 1) 0)) by lia.
    assert (Hin : i ∈ l) by (by apply (ring_in _ _ _ _ R)). apply list_elem_of_split in Hin as (l1 & l2 & ->).
    destruct (move_front_eq l1 i l2 s3 R) as (nx & pv & R' & E). exists nx, pv, (i :: l1 ++ l2). split; [done|].
    split; [by exists l1, l2|]. step E. apply Hlast.
  - rewrite (proj2 (Z.eqb_neq (b_refcnt b - 1) 0)) by lia. exists (s_next s), (s_prev s), l. split; [done|]. split; [done|].
    unfold bind, ret. by rewrite <- (Hlast (s_next s) (s_prev s)).
Qed.

(** ** The operations and the contents of blocks *)

Definition dirty (s : fs) (n : Z) : Prop := exists i b, s_bufs s !! i = Some b /\ is_block 1 n b = true /\ b_flags b = 6.

(** What none of the operations of the cache touches. *)
Record same_rest (s s' : fs) : Prop := {
  sr_locks : s_locks s' = s_locks s;
  sr_pid : s_pid s' = s_pid s;
  sr_cwd : s_cwd s' = s_cwd s;
  sr_log : s_log s' = s_log s;
  sr_sb : s_sb s' = s_sb s;
  sr_inodes : s_inodes s' = s_inodes s
}.
Lemma same_rest_refl s : same_rest s s.
Proof. done. Qed.
Lemma same_rest_trans s1 s2 s3 : same_rest s1 s2 -> same_rest s2 s3 -> same_rest s1 s3.
Proof. intros [] []. split; congruence. Qed.
Lemma unlatched_same s s' : same_rest s s' -> unlatched s -> unlatched s'.
Proof. intros R. unfold unlatched. by rewrite (sr_locks _ _ R). Qed.

(** Replacing one buffer. *)
Lemma cache_ok_upd s i b b' :
  cache_ok s -> s_bufs s !! i = Some b -> buf_ok (s_disk s) b' ->
  (b_dev b' = 1 -> forall j c, j <> i -> s_bufs s !! j = Some c -> b_dev c = 1 -> b_blockno c <> b_blockno b') ->
  cache_ok (set_bufs (<[i := b']> (s_bufs s)) s).
Proof.
  intros Hs Hb Hok Hone. apply lookup_lt_Some in Hb as Hlt.
  assert (Hlk : forall j c, <[i := b']> (s_bufs s) !! j = Some c -> j = i /\ c = b' \/ j <> i /\ s_bufs s !! j = Some c).
  { intros j c. destruct (decide (j = i)) as [->|Hne]; [rewrite list_lookup_insert_eq by done; naive_solver|].
    rewrite list_lookup_insert_ne by done. naive_solver. }
  split; cbn; [apply Hs|rewrite length_insert; apply Hs| | |apply Hs].
  - intros j c [[-> ->]|[_ Hc]]%Hlk; [done|]. by apply (co_bufs s Hs j).
  - intros j k c d [[-> ->]|[Hj Hc]]%Hlk [[-> ->]|[Hk Hd]]%Hlk H1 H2 He; [done| | |by eapply (co_one s Hs)].
    + by destruct (Hone H1 k d Hk Hd).
    + by destruct (Hone H2 j c Hj Hc).
Qed.

Lemma content_upd s i b b' n :
  cache_ok s -> cache_ok (set_bufs (<[i := b']> (s_bufs s)) s) -> s_bufs s !! i = Some b ->
  content (set_bufs (<[i := b']> (s_bufs s)) s) n =
  if is_block 1 n b' then b_data b' else if is_block 1 n b then dblock (s_disk s) n else content s n.
Proof.
  intros Hs Hs' Hb. apply lookup_lt_Some in Hb as Hlt. set (s' := set_bufs _ s) in *.
  assert (Hi : s_bufs s' !! i = Some b') by (cbn; by rewrite list_lookup_insert_eq).
  destruct (is_block 1 n b') eqn:E'; [by apply (content_cached s' i)|].
  destruct (list_find (fun c => is_block 1 n c = true) (s_bufs s)) as [[j c]|] eqn:E.
  - apply list_find_Some in E as (Hj & Ht & _). rewrite (content_cached s j c n Hs Hj Ht).
    destruct (decide (j = i)) as [->|Hne].
    + assert (c = b) as -> by congruence. rewrite Ht. apply (content_uncached s'). intros k d. cbn.
      destruct (decide (k = i)) as [->|Hk]; [rewrite list_lookup_insert_eq by done; congruence|].
      rewrite list_lookup_insert_ne by done. intros Hd. destruct (is_block 1 n d) eqn:Ed; [|done].
      apply is_block_true in Ed as [], Ht as []. destruct Hk. eapply (co_one s Hs); try done; congruence.
    + assert (is_block 1 n b = false) as ->.
      { destruct (is_block 1 n b) eqn:Eb; [|done]. apply is_block_true in Eb as [], Ht as []. destruct Hne.
        eapply (co_one s Hs); try done; congruence. }
      apply (content_cached s' j); [done|cbn; by rewrite list_lookup_insert_ne|done].
  - apply list_find_None in E. rewrite Forall_lookup in E. assert (Hno : forall k d, s_bufs s !! k = Some d -> is_block 1 n d = false).
    { intros k d Hd. specialize (E k d Hd). by destruct (is_block 1 n d). }
    rewrite (Hno i b Hb), (content_uncached s n Hno). apply (content_uncached s'). intros k d. cbn.
    destruct (decide (k = i)) as [->|Hk]; [rewrite list_lookup_insert_eq by done; congruence|].
    rewrite list_lookup_insert_ne by done. apply Hno.
Qed.

Lemma dirty_upd s i b b' n :
  s_bufs s !! i = Some b ->
  dirty (set_bufs (<[i := b']> (s_bufs s)) s) n <->
  is_block 1 n b' = true /\ b_flags b' = 6 \/
  exists j c, j <> i /\ s_bufs s !! j = Some c /\ is_block 1 n c = true /\ b_flags c = 6.
Proof.
  intros Hb. apply lookup_lt_Some in Hb as Hlt. unfold dirty. cbn. split.
  - intros (j & c & Hj & Hc). destruct (decide (j = i)) as [->|Hne].
    + rewrite list_lookup_insert_eq in Hj by done. injection Hj as <-. by left.
    + rewrite list_lookup_insert_ne in Hj by done. right. by exists j, c.
  - intros [?|(j & c & Hne & Hj & Hc)]; [exists i, b'|exists j, c].
    + by rewrite list_lookup_insert_eq.
    + by rewrite list_lookup_insert_ne.
Qed.

(** The buffer [i] of [s] is locked by the running process and holds block [n]. *)
Definition mine (s : fs) (i : nat) (n : Z) (b : buf) : Prop :=
  s_bufs s !! i = Some b /\ b_lock b = Sleeplock 1 (s_pid s) /\ b_dev b = 1 /\ b_blockno b = n /\
  1 <= b_refcnt b < 2 ^ 31 /\ (b_flags b = 2 \/ b_flags b = 6) /\ 0 <= n < Z.of_nat (length (s_disk s)).

Definition avail (s : fs) (n : Z) (i : nat) : Prop :=
  exists b, s_bufs s !! i = Some b /\ (is_block 1 n b = true \/ is_unused b = true).

Lemma unused_clean s i b :
  cache_ok s -> s_bufs s !! i = Some b -> is_unused b = true ->
  b_refcnt b = 0 /\ b_flags b <> 6 /\ forall n, is_block 1 n b = true -> content s n = dblock (s_disk s) n.
Proof.
  intros Hs Hb Hu. unfold is_unused in Hu. apply andb_prop in Hu as [Hr%Z.eqb_eq Hf%Z.eqb_eq].
  assert (Hf6 : b_flags b <> 6) by (intros E; by rewrite E in Hf). split; [done|]. split; [done|]. intros n Hn.
  rewrite (content_cached s i b n Hs Hb Hn). apply is_block_true in Hn as [Hd <-].
  pose proof (co_bufs s Hs i b Hb) as Hok. apply (bo_clean _ _ Hok).
  - destruct (bo_dev _ _ Hok) as [[? _]|[_ [?|?]]]; [congruence|done|done].
  - by rewrite (bo_free _ _ Hok Hr).
Qed.

(** [bread] returns the block locked, changing no contents. *)
Lemma bread_spec n s :
  cache_ok s -> unlatched s -> 0 <= n < Z.of_nat (length (s_disk s)) ->
  (forall i b, s_bufs s !! i = Some b -> is_block 1 n b = true -> locked (b_lock b) = 0 /\ b_refcnt b < 2 ^ 31 - 1) ->
  (exists i, avail s n i) ->
  exists i b s', bread 1 n s = Ret i s' /\ cache_ok s' /\ same_rest s s' /\ s_disk s' = s_disk s /\
    s_writes s' = s_writes s /\ mine s' i n b /\ b_data b = content s n /\ (b_flags b = 6 <-> dirty s n) /\
    (forall m, content s' m = content s m) /\ (forall m, dirty s' m <-> dirty s m) /\
    (forall j, j <> i -> s_bufs s' !! j = s_bufs s !! j) /\ (exists b0, s_bufs s !! i = Some b0 /\
       b_refcnt b = (if is_block 1 n b0 then b_refcnt b0 + 1 else 1)) /\ avail s n i.
Proof.
  intros Hs Hun Hn Hc [i0 (b0 & Hb0 & Ha0)].
  destruct (bread_eq n s Hs Hun Hn Hc) as (i & b & Hb & Hwhy & E); [by exists i0, b0|].
  pose proof (co_bufs s Hs i b Hb) as Hok. apply lookup_lt_Some in Hb as Hlt.
  assert (Href : 1 <= b_refcnt (got s n b) < 2 ^ 31).
  { unfold got. cbn. destruct (is_block 1 n b) eqn:Et; [|lia]. pose proof (bo_ref _ _ Hok). destruct (Hc i b Hb Et). lia. }
  assert (Hfl : b_flags (got s n b) = 2 \/ b_flags (got s n b) = 6).
  { unfold got. cbn. destruct (is_block 1 n b) eqn:Et; [|by left]. apply is_block_true in Et as [Hd _].
    destruct (bo_dev _ _ Hok) as [[? _]|[_ ?]]; [congruence|done]. }
  assert (Hcases : is_block 1 n b = true \/ is_block 1 n b = false /\ is_unused b = true /\
            forall j b', s_bufs s !! j = Some b' -> is_block 1 n b' = false) by (destruct Hwhy as [|[? Hno]]; eauto).
  assert (Hs' : cache_ok (set_bufs (<[i := got s n b]> (s_bufs s)) s)).
  { apply (cache_ok_upd s i b); [done|done| |].
    - split; [lia|lia|right; by split|done|done].
    - intros _ j c Hj Hcj Hd Hbn. cbn in Hbn. destruct Hcases as [Ht|(_ & _ & Hno)].
      + apply is_block_true in Ht as []. destruct Hj. eapply (co_one s Hs); try done; congruence.
      + specialize (Hno j c Hcj). by rewrite (proj2 (is_block_true 1 n c)) in Hno. }
  assert (Hgot : forall m, is_block 1 m (got s n b) = true <-> m = n).
  { intros m. rewrite is_block_true. cbn. naive_solver. }
  assert (Hd6 : b_flags (got s n b) = 6 <-> dirty s n).
  { unfold got. cbn. destruct Hcases as [Ht|(Hf & _ & Hno)].
    - rewrite Ht. split; [by exists i, b|]. intros (j & c & Hj & Htc & H6).
      assert (j = i) as ->; [|congruence]. apply is_block_true in Ht as [], Htc as []. eapply (co_one s Hs); try done; congruence.
    - rewrite Hf. split; [done|]. intros (j & c & Hj & Htc & H6). by rewrite (Hno j c Hj) in Htc. }
  exists i, (got s n b), (set_bufs (<[i := got s n b]> (s_bufs s)) s). split_and!; try done.
  - unfold mine. split_and!; try done; try lia; [|apply Hn]. cbn. by rewrite list_lookup_insert_eq.
  - intros m. rewrite (content_upd s i b _ m Hs Hs' Hb). destruct (is_block 1 m (got s n b)) eqn:Em.
    + apply Hgot in Em as ->. done.
    + destruct (is_block 1 m b) eqn:Emb; [|done]. destruct Hcases as [Ht|(_ & Hu & _)].
      * exfalso. assert (m = n) as -> by (apply is_block_true in Ht as [], Emb as []; congruence).
        by rewrite (proj2 (Hgot n)) in Em.
      * symmetry. by apply (unused_clean s i b).
  - intros m. rewrite (dirty_upd s i b _ m Hb), Hgot. split.
    + intros [[-> H6]|(j & c & _ & ?)]; [by apply Hd6|by exists j, c].
    + intros (j & c & Hj & Htc & H6). destruct (decide (j = i)) as [->|Hne]; [|right; by exists j, c].
      assert (c = b) as -> by congruence. destruct Hcases as [Ht|(_ & Hu & _)].
      * left. split; [apply is_block_true in Ht as [], Htc as []; congruence|]. unfold got. cbn. by rewrite Ht.
      * by destruct (unused_clean s i b Hs Hb Hu) as (_ & ? & _).
  - intros j Hj. cbn. by rewrite list_lookup_insert_ne.
  - by exists b.
  - exists b. split; [done|]. destruct Hwhy as [|[]]; auto.
Qed.

(** Contents depend on the blocks and the data of the buffers, and on the disk for the
    blocks that are not cached. *)
Lemma content_same s s' m :
  cache_ok s -> cache_ok s' -> length (s_bufs s') = length (s_bufs s) ->
  (forall j c, s_bufs s !! j = Some c -> exists c', s_bufs s' !! j = Some c' /\
    b_dev c' = b_dev c /\ b_blockno c' = b_blockno c /\ b_data c' = b_data c) ->
  (dblock (s_disk s') m = dblock (s_disk s) m \/ exists j c, s_bufs s !! j = Some c /\ is_block 1 m c = true) ->
  content s' m = content s m.
Proof.
  intros Hs Hs' Hlen Hb Hd.
  destruct (list_find (fun c => is_block 1 m c = true) (s_bufs s)) as [[j c]|] eqn:E.
  - apply list_find_Some in E as (Hj & Ht & _). destruct (Hb j c Hj) as (c' & Hj' & E1 & E2 & E3).
    rewrite (content_cached s j c m Hs Hj Ht), (content_cached s' j c' m Hs' Hj'); [done|].
    apply is_block_true in Ht as []. apply is_block_true. by rewrite E1, E2.
  - apply list_find_None in E. rewrite Forall_lookup in E.
    assert (Hno : forall k d, s_bufs s !! k = Some d -> is_block 1 m d = false).
    { intros k d Hk. specialize (E k d Hk). by destruct (is_block 1 m d). }
    rewrite (content_uncached s m Hno). destruct Hd as [<-|(j & c & Hj & Ht)]; [|by rewrite (Hno j c Hj) in Ht].
    apply content_uncached. intros k d' Hk. apply lookup_lt_Some in Hk as Hkl. rewrite Hlen in Hkl.
    destruct (lookup_lt_is_Some_2 _ _ Hkl) as [d Hd]. destruct (Hb k d Hd) as (d2 & Hd2 & E1 & E2 & _).
    assert (d2 = d') as -> by congruence. rewrite <- (Hno k d Hd). unfold is_block. by rewrite E1, E2.
Qed.

Lemma dblock_insert disk n m d :
  0 <= n < Z.of_nat (length disk) -> 0 <= m ->
  dblock (<[Z.to_nat n := d]> disk) m = if m =? n then d else dblock disk m.
Proof.
  intros Hn Hm. unfold dblock. rewrite !nth_lookup. destruct (Z.eqb_spec m n) as [->|Hne].
  - by rewrite list_lookup_insert_eq by lia.
  - by rewrite list_lookup_insert_ne by lia.
Qed.

(** Changing the data of a locked buffer. *)
Lemma upd_data_spec i n b d s :
  cache_ok s -> mine s i n b ->
  let s' := set_bufs (<[i := set_b_data d b]> (s_bufs s)) s in
  upd_buf i (set_b_data d) s = Ret tt s' /\ cache_ok s' /\ mine s' i n (set_b_data d b) /\
  (forall m, content s' m = if m =? n then d else content s m) /\ (forall m, dirty s' m <-> dirty s m).
Proof.
  intros Hs (Hb & Hk & Hd & Hn & Href & Hf & Hr) s'. apply lookup_lt_Some in Hb as Hlt.
  pose proof (co_bufs s Hs i b Hb) as Hok.
  assert (Hs' : cache_ok s').
  { apply (cache_ok_upd s i b); [done|done| |].
    - split; cbn; [apply Hok|apply Hok|apply Hok|apply Hok|by rewrite Hk].
    - intros _ j c Hj Hc Hdc Hbn. destruct Hj. eapply (co_one s Hs); try done. }
  split; [by rewrite (upd_buf_eq i _ b s Hb)|]. split; [done|]. split.
  - split; [cbn; by rewrite list_lookup_insert_eq|done].
  - assert (Hsame : forall m, is_block 1 m (set_b_data d b) = is_block 1 m b) by done. split; intros m.
    + unfold s'. rewrite (content_upd s i b _ m Hs Hs' Hb), Hsame. destruct (Z.eqb_spec m n) as [->|Hne].
      * rewrite (proj2 (is_block_true 1 n b)) by done. done.
      * destruct (is_block 1 m b) eqn:Em; [|done]. apply is_block_true in Em as []. congruence.
    + unfold s'. rewrite (dirty_upd s i b _ m Hb). split.
      * intros [[]|(j & c & _ & ?)]; [by exists i, b|by exists j, c].
      * intros (j & c & Hj & ?). destruct (decide (j = i)) as [->|]; [left|right; by exists j, c].
        assert (c = b) as -> by congruence. done.
Qed.

Lemma bwrite_spec i n b s :
  cache_ok s -> unlatched s -> mine s i n b ->
  exists s', bwrite i s = Ret tt s' /\ cache_ok s' /\ same_rest s s' /\ mine s' i n (set_b_flags 2 b) /\
    s_disk s' = <[Z.to_nat n := b_data b]> (s_disk s) /\ s_writes s' = s_writes s ++ [(n, b_data b)] /\
    (forall m, 0 <= m -> content s' m = content s m) /\ (forall m, dirty s' m <-> dirty s m /\ m <> n) /\
    (forall j, j <> i -> s_bufs s' !! j = s_bufs s !! j).
Proof.
  intros Hs Hun (Hb & Hk & Hd & Hn & Href & Hf & Hr). apply lookup_lt_Some in Hb as Hlt. subst n.
  rewrite (bwrite_eq i b s Hb (proj2 Hun) Hk Hd Hf (proj2 Hr)). eexists. split; [reflexivity|].
  set (s1 := set_bufs _ s). set (s' := set_disk _ _ s1).
  assert (Hlk : forall j c, s_bufs s' !! j = Some c -> j = i /\ c = set_b_flags 2 b \/ j <> i /\ s_bufs s !! j = Some c).
  { intros j c. cbn. destruct (decide (j = i)) as [->|Hne]; [rewrite list_lookup_insert_eq by done; naive_solver|].
    rewrite list_lookup_insert_ne by done. naive_solver. }
  assert (Hone : forall j c, j <> i -> s_bufs s !! j = Some c -> b_dev c = 1 -> b_blockno c <> b_blockno b).
  { intros j c Hj Hc Hdc E. destruct Hj. eapply (co_one s Hs); try done. }
  assert (Hs' : cache_ok s').
  { split; cbn [s_disk s_bufs s_next s_prev set_disk set_bufs s' s1]; [apply Hs|rewrite length_insert; apply Hs| | |rewrite length_insert; apply Hs].
    - intros j c [[-> ->]|[Hj Hc]]%Hlk.
      + split; cbn; [lia|lia|by right; auto|rewrite length_insert; lia|by rewrite Hk].
      + pose proof (co_bufs s Hs j c Hc) as Hok. split; [apply Hok|apply Hok|apply Hok|rewrite length_insert; apply Hok|].
        intros H2 Hu. destruct (bo_dev _ _ Hok) as [(_ & E0 & _)|[Hdc _]]; [congruence|].
        rewrite dblock_insert by (lia || by apply (bo_range _ _ Hok)).
        rewrite (proj2 (Z.eqb_neq _ _)) by (by apply (Hone j c)). by apply (bo_clean _ _ Hok).
    - intros j k c d [[-> ->]|[Hj Hc]]%Hlk [[-> ->]|[Hk' Hc']]%Hlk H1 H2 He; [done| | |by eapply (co_one s Hs)].
      + by destruct (Hone k d Hk' Hc' H2).
      + by destruct (Hone j c Hj Hc H1). }
  split; [done|]. split; [done|]. split.
  { split; [cbn; by rewrite list_lookup_insert_eq|]. split_and!; try done; try (by left); cbn; rewrite ?length_insert; lia. }
  split; [done|]. split; [done|]. split_and!.
  - intros m Hm. apply content_same; [done|done|cbn; by rewrite length_insert| |].
    + intros j c Hc. destruct (decide (j = i)) as [->|Hj].
      * exists (set_b_flags 2 b). cbn. rewrite list_lookup_insert_eq by done. by replace c with b by congruence.
      * exists c. cbn. by rewrite list_lookup_insert_ne.
    + cbn [s_disk set_disk s']. rewrite dblock_insert by lia. destruct (Z.eqb_spec m (b_blockno b)) as [->|]; [right|by left].
      exists i, b. split; [done|]. by apply is_block_true.
  - intros m. split.
    + intros (j & c & [[-> ->]|[Hj Hc]]%Hlk & Ht & H6); [done|]. split; [by exists j, c|].
      apply is_block_true in Ht as [H1 <-]. by apply (Hone j c).
    + intros [(j & c & Hc & Ht & H6) Hne]. exists j, c. split; [|done]. destruct (decide (j = i)) as [->|Hj].
      * destruct Hne. apply is_block_true in Ht as []. congruence.
      * cbn. by rewrite list_lookup_insert_ne.
  - intros j Hj. cbn. by rewrite list_lookup_insert_ne.
Qed.

Lemma brelse_spec i n b s :
  cache_ok s -> unlatched s -> mine s i n b -> (b_flags b = 2 -> b_data b = dblock (s_disk s) n) ->
  exists s', brelse i s = Ret tt s' /\ cache_ok s' /\ same_rest s s' /\ s_disk s' = s_disk s /\ s_writes s' = s_writes s /\
    s_bufs s' = <[i := released b]> (s_bufs s) /\
    (forall m, content s' m = content s m) /\ (forall m, dirty s' m <-> dirty s m).
Proof.
  intros Hs Hun (Hb & Hk & Hd & Hn & Href & Hf & Hr) Hcl. apply lookup_lt_Some in Hb as Hlt. destruct (co_ring s Hs) as [l R].
  destruct (brelse_eq i b l s Hb Hun Hk Href R) as (nx & pv & l' & R' & _ & E); [by rewrite <- (co_len s Hs)|].
  rewrite E. eexists. split; [reflexivity|]. set (s' := set_links _ _ _). pose proof (co_bufs s Hs i b Hb) as Hok.
  assert (Hrel : cache_ok (set_bufs (<[i := released b]> (s_bufs s)) s)).
  { apply (cache_ok_upd s i b); [done|done| |].
    - split; cbn; [lia|done|right; auto|apply Hok|]. intros H2 _. rewrite Hn. by apply Hcl.
    - intros _ j c Hj Hc Hdc Hbn. destruct Hj. eapply (co_one s Hs); try done. }
  assert (Hs' : cache_ok s') by (split; [by exists l'|apply Hrel|apply Hrel|apply Hrel|apply Hs]).
  split_and!; try done.
  - intros m. apply content_same; [done|done|cbn; by rewrite length_insert| |by left].
    intros j c Hc. destruct (decide (j = i)) as [->|Hj].
    + exists (released b). cbn. rewrite list_lookup_insert_eq by done. by replace c with b by congruence.
    + exists c. cbn. by rewrite list_lookup_insert_ne.
  - intros m. assert (Hdi : dirty s' m <-> dirty (set_bufs (<[i := released b]> (s_bufs s)) s) m) by done.
    rewrite Hdi, (dirty_upd s i b _ m Hb). split.
    + intros [[]|(j & c & _ & ?)]; [by exists i, b|by exists j, c].
    + intros (j & c & Hj & ?). destruct (decide (j = i)) as [->|]; [left|right; by exists j, c].
      by replace c with b in * by congruence.
Qed.

(** ** Start-up *)

Definition unlock_buf (b : buf) : buf := set_b_lock (Sleeplock 0 0) b.

Lemma initsleeplock_buf i b s :
  s_bufs s !! i = Some b -> (forall l, LkSleep l ∉ s_locks s) ->
  initsleeplock (SlBuf i) s = Ret tt (set_bufs (<[i := unlock_buf b]> (s_bufs s)) s).
Proof.
  intros Hb Hl. unfold initsleeplock. step (initlock_free (LkSleep (SlBuf i)) s (Hl _)). by apply upd_buf_eq.
Qed.

Lemma in_rev_iff (x : nat) l : x ∈ rev l <-> x ∈ l.
Proof. by rewrite <- (Permutation_rev l). Qed.

(** [binit] puts each buffer in front of those before it. *)
Lemma binit_loop_eq n : forall b bufs nx pv s,
  s_bufs s = (unlock_buf <$> take b bufs) ++ drop b bufs -> length bufs = NBUF -> (b + n = NBUF)%nat ->
  (forall l, LkSleep l ∉ s_locks s) -> s_next s = nx -> s_prev s = pv ->
  length nx = S NBUF -> length pv = S NBUF -> linked nx pv bhead (rev (seq 0 b)) bhead ->
  exists nx' pv', binit_loop n b s = Ret tt (set_links nx' pv' (set_bufs (unlock_buf <$> bufs) s)) /\
    ring nx' pv' (rev (seq 0 NBUF)).
Proof.
  induction n as [|n IH]; intros b bufs nx pv s Hbufs Hlen Hb Hsl En Ep L1 L2 Hl.
  - exists nx, pv. rewrite Nat.add_0_r in Hb. subst b. rewrite take_ge, drop_ge, app_nil_r in Hbufs by lia. split.
    + cbn. unfold ret. f_equal. rewrite <- Hbufs, <- En, <- Ep. by destruct s.
    + split; [done|symmetry; apply Permutation_rev|done|done].
  - destruct (lookup_lt_is_Some_2 bufs b) as [v Hv]; [lia|].
    assert (Hlt : length (unlock_buf <$> take b bufs) = b) by (rewrite length_fmap, length_take; lia).
    rewrite (drop_S _ _ _ Hv) in Hbufs.
    assert (Hbv : s_bufs s !! b = Some v) by (rewrite Hbufs; by apply list_lookup_middle).
    destruct (relink nx pv bhead b (rev (seq 0 b))) as (f & Hf & Hfin & Hl').
    + rewrite elem_of_cons, in_rev_iff, elem_of_seq. unfold bhead. lia.
    + rewrite in_rev_iff, elem_of_seq. unfold bhead. lia.
    + rewrite <- Permutation_rev. apply NoDup_seq.
    + lia.
    + lia.
    + intros x. rewrite elem_of_cons, in_rev_iff, elem_of_seq. unfold bhead. lia.
    + done.
    + assert (Hfl : (f < S NBUF)%nat /\ (b < bhead)%nat).
      { rewrite elem_of_cons, in_rev_iff, elem_of_seq in Hfin. unfold bhead in *. lia. }
      destruct (IH (S b) bufs (<[bhead := b]> (<[b := f]> nx)) (<[f := b]> (<[b := bhead]> pv))
        (set_links (<[bhead := b]> (<[b := f]> nx)) (<[f := b]> (<[b := bhead]> pv)) (set_bufs (<[b := unlock_buf v]> (s_bufs s)) s)))
        as (nx' & pv' & E & R); try done; try (by len); try lia.
      * cbn. rewrite Hbufs, insert_app_r_alt, Hlt, Nat.sub_diag by lia. rewrite (take_S_r _ _ _ Hv), fmap_app, <- app_assoc. done.
      * rewrite seq_S, rev_app_distr. exact Hl'.
      * exists nx', pv'. split; [|done]. cbn [binit_loop]. subst nx pv. step (get_next_eq bhead f s Hf).
        step (set_next_eq b f s ltac:(lia)). set (s1 := set_links _ _ s). step (set_prev_eq b bhead s1 ltac:(cbn; lia)).
        set (s2 := set_links _ _ s1). step (initsleeplock_buf b v s2 Hbv Hsl). set (s3 := set_bufs _ s2).
        step (get_next_eq bhead f s3 ltac:(cbn; rewrite list_lookup_insert_ne by lia; exact Hf)).
        step (set_prev_eq f b s3 ltac:(cbn; len)). set (s4 := set_links _ _ s3). step (set_next_eq bhead b s4 ltac:(cbn; len; unfold bhead; lia)).
        exact E.
Qed.

Lemma binit_eq s :
  length (s_bufs s) = NBUF -> unlatched s -> length (s_next s) = S NBUF -> length (s_prev s) = S NBUF ->
  exists nx pv, binit s = Ret tt (set_links nx pv (set_bufs (unlock_buf <$> s_bufs s) s)) /\ ring nx pv (rev (seq 0 NBUF)).
Proof.
  intros Hlen [Hbc Hsl] L1 L2. unfold binit. step (initlock_free LkBcache s Hbc).
  step (set_prev_eq bhead bhead s ltac:(unfold bhead; lia)). set (s1 := set_links _ _ s).
  step (set_next_eq bhead bhead s1 ltac:(cbn; unfold bhead; lia)). set (s2 := set_links _ _ s1).
  destruct (binit_loop_eq NBUF 0 (s_bufs s) (s_next s2) (s_prev s2) s2) as (nx & pv & E & R); try done; cbn; len.
  - cbn. rewrite !list_lookup_insert_eq by (unfold bhead; lia). done.
  - exists nx, pv. split; [exact E|done].
Qed.
