(* ===== verification/Log.v ===== *)
(** * The log

    log.c, and [readsb] of fs.c, which it uses.  The blocks of a transaction stay in
    the cache, marked dirty, until [commit] writes them to the log, then the header
    (the commit point), then the blocks to their places, and then an empty header. *)

From S2P Require Import Prelude Mmu Blk FsState Bio.

Definition upd_log (f : log -> log) : M fs unit := modify (fun s => set_log (f (s_log s)) s).

(** [log.lh.block[i]], an array of [LOGSIZE] entries. *)
Definition get_lh (i : Z) : M fs Z := fun s =>
  match lh_block (s_log s) !! Z.to_nat i with
  | Some v => if 0 <=? i then Ret v s else UB "log.lh.block"
  | None => UB "log.lh.block"
  end.
Definition put_lh (i v : Z) : M fs unit :=
  get_lh i ;;; upd_log (fun l => set_lh (lh_n l) (<[Z.to_nat i := v]> (lh_block l)) l).

(** The super block in the first bytes of a block. *)
Definition sb_of (d : list Z) : superblock :=
  Superblock (get32 d 0) (get32 d 4) (get32 d 8) (get32 d 12) (get32 d 16) (get32 d 20) (get32 d 24).

Definition readsb (dev : Z) : M fs superblock :=
  bp <- bread dev 1 ;;
  b <- get_buf bp ;;
  brelse bp ;;;
  ret (sb_of (b_data b)).

(** Copy committed blocks from the log to their places; [n] are left from [tail] on. *)
Fixpoint install_loop (n : nat) (tail : Z) : M fs unit :=
  match n with
  | O => ret tt
  | S n =>
    l <- gets s_log ;;
    lbuf <- bread (u32 (l_dev l)) (u32 (l_start l + tail + 1)) ;;
    home <- get_lh tail ;;
    dbuf <- bread (u32 (l_dev l)) (u32 home) ;;
    v <- get_buf lbuf ;;
    upd_buf dbuf (set_b_data (b_data v)) ;;;
    bwrite dbuf ;;;
    brelse lbuf ;;;
    brelse dbuf ;;;
    install_loop n (tail + 1)
  end.
Definition install_trans : M fs unit :=
  n <- gets (fun s => lh_n (s_log s)) ;;
  install_loop (Z.to_nat n) 0.

(** [struct logheader] in a block: [n], then the block numbers. *)
Definition hdr_n (d : list Z) : Z := s32 (get32 d 0).
Definition hdr_block (d : list Z) (i : Z) : Z := s32 (get32 d (Z.to_nat (4 + 4 * i))).

Fixpoint read_head_loop (d : list Z) (n : nat) (i : Z) : M fs unit :=
  match n with
  | O => ret tt
  | S n => put_lh i (hdr_block d i) ;;; read_head_loop d n (i + 1)
  end.
Definition read_head : M fs unit :=
  l <- gets s_log ;;
  bp <- bread (u32 (l_dev l)) (u32 (l_start l)) ;;
  b <- get_buf bp ;;
  upd_log (fun l => set_lh (hdr_n (b_data b)) (lh_block l) l) ;;;
  read_head_loop (b_data b) (Z.to_nat (hdr_n (b_data b))) 0 ;;;
  brelse bp.

Fixpoint write_head_loop (bp : nat) (n : nat) (i : Z) : M fs unit :=
  match n with
  | O => ret tt
  | S n =>
    v <- get_lh i ;;
    upd_buf bp (fun b => set_b_data (put32 (b_data b) (Z.to_nat (4 + 4 * i)) v) b) ;;;
    write_head_loop bp n (i + 1)
  end.
Definition write_head : M fs unit :=
  l <- gets s_log ;;
  bp <- bread (u32 (l_dev l)) (u32 (l_start l)) ;;
  upd_buf bp (fun b => set_b_data (put32 (b_data b) 0 (lh_n l)) b) ;;;
  write_head_loop bp (Z.to_nat (lh_n l)) 0 ;;;
  bwrite bp ;;;
  brelse bp.

Definition clear_lh : M fs unit := upd_log (fun l => set_lh 0 (lh_block l) l).

Definition recover_from_log : M fs unit :=
  read_head ;;;
  install_trans ;;;
  clear_lh ;;;
  write_head.

(** [sizeof(struct logheader)] is 124, less than a block. *)
Definition initlog (dev : Z) : M fs unit :=
  initlock LkLog ;;;
  sb <- readsb (u32 dev) ;;
  upd_log (fun l => Log (s32 (sb_logstart sb)) (s32 (sb_nlog sb)) (l_outstanding l) (l_committing l) dev (lh_n l) (lh_block l)) ;;;
  recover_from_log.

(** A process that has to wait gives up [log.lock] and sleeps; when it goes on it tests
    again, as a new call does. *)
Definition begin_op : M fs unit :=
  acquire LkLog ;;;
  l <- gets s_log ;;
  if negb (l_committing l =? 0) then release LkLog ;;; block ChLog
  else if LOGSIZE <? lh_n l + (l_outstanding l + 1) * MAXOPBLOCKS then release LkLog ;;; block ChLog
  else
    upd_log (fun l => set_outstanding (l_outstanding l + 1) l) ;;;
    release LkLog.

(** Copy modified blocks from the cache to the log. *)
Fixpoint write_log_loop (n : nat) (tail : Z) : M fs unit :=
  match n with
  | O => ret tt
  | S n =>
    l <- gets s_log ;;
    to <- bread (u32 (l_dev l)) (u32 (l_start l + tail + 1)) ;;
    home <- get_lh tail ;;
    from <- bread (u32 (l_dev l)) (u32 home) ;;
    v <- get_buf from ;;
    upd_buf to (set_b_data (b_data v)) ;;;
    bwrite to ;;;
    brelse from ;;;
    brelse to ;;;
    write_log_loop n (tail + 1)
  end.
Definition write_log : M fs unit :=
  n <- gets (fun s => lh_n (s_log s)) ;;
  write_log_loop (Z.to_nat n) 0.

Definition commit : M fs unit :=
  n <- gets (fun s => lh_n (s_log s)) ;;
  when (0 <? n) do
    (write_log ;;;
     write_head ;;;
     install_trans ;;;
     clear_lh ;;;
     write_head).

Definition end_op : M fs unit :=
  acquire LkLog ;;;
  upd_log (fun l => set_outstanding (l_outstanding l - 1) l) ;;;
  l <- gets s_log ;;
  if negb (l_committing l =? 0) then panic "log.committing" else
  (if l_outstanding l =? 0 then upd_log (set_committing 1) else wakeup ChLog) ;;;
  release LkLog ;;;
  when (l_outstanding l =? 0) do
    (commit ;;;
     acquire LkLog ;;;
     upd_log (set_committing 0) ;;;
     wakeup ChLog ;;;
     release LkLog).

(** The search of [log_write]: the first index from [i] on with block [b], or the end. *)
Fixpoint absorb (b : Z) (n : nat) (i : Z) : M fs Z :=
  match n with
  | O => ret i
  | S n => v <- get_lh i ;; if u32 v =? b then ret i else absorb b n (i + 1)
  end.
Definition log_write (bp : nat) : M fs unit :=
  l <- gets s_log ;;
  if (LOGSIZE <=? lh_n l) || (l_size l - 1 <=? lh_n l) then panic "too big a transaction" else
  if l_outstanding l <? 1 then panic "log_write outside of trans" else
  acquire LkLog ;;;
  b <- get_buf bp ;;
  i <- absorb (b_blockno b) (Z.to_nat (lh_n l)) 0 ;;
  put_lh i (s32 (b_blockno b)) ;;;
  (when (i =? lh_n l) do upd_log (fun l => set_lh (lh_n l + 1) (lh_block l) l)) ;;;
  upd_buf bp (fun b => set_b_flags (Z.lor (b_flags b) B_DIRTY) b) ;;;
  release LkLog.
