(* ===== verification/LogSpec.v ===== *)
(** * What the operations of log.c do to the disk *)

From S2P Require Import Prelude Mmu Blk FsState Bio BioSpec Log.

(** ** Copying a block

    Between operations no buffer is referred to.  [write_log] and [install_trans] lock two
    blocks, overwrite one with the other, write it and release both. *)

Record quiet (s : fs) : Prop := {
  q_cache : cache_ok s;
  q_unlatched : unlatched s;
  q_idle : forall i b, s_bufs s !! i = Some b -> b_refcnt b = 0
}.

Lemma quiet_unused s i b :
  quiet s -> s_bufs s !! i = Some b -> is_unused b = true <-> b_flags b <> 6.
Proof.
  intros Hq Hb. unfold is_unused. rewrite (q_idle s Hq i b Hb). cbn [Z.eqb andb].
  destruct (bo_dev _ _ (co_bufs s (q_cache s Hq) i b Hb)) as [(_ & -> & _)|[_ [-> | ->]]]; done.
Qed.

Lemma mine_same s s' i n b :
  same_rest s s' -> s_disk s' = s_disk s -> s_bufs s' !! i = s_bufs s !! i -> mine s i n b -> mine s' i n b.
Proof. intros R Ed Eb. unfold mine. by rewrite Eb, Ed, (sr_pid _ _ R). Qed.

Lemma one_block s i j b b' n :
  cache_ok s -> s_bufs s !! i = Some b -> s_bufs s !! j = Some b' -> is_block 1 n b = true -> is_block 1 n b' = true -> i = j.
Proof. intros Hs Hb Hb' [? ?]%is_block_true [? ?]%is_block_true. eapply (co_one s Hs); try done; congruence. Qed.

(** A block that is not dirty is on the disk as it is in the cache. *)
Lemma quiet_clean s n : quiet s -> ~ dirty s n -> content s n = dblock (s_disk s) n.
Proof.
  intros Hq Hn. pose proof (q_cache s Hq) as Hs.
  destruct (list_find (fun c => is_block 1 n c = true) (s_bufs s)) as [[j c]|] eqn:E.
  - apply list_find_Some in E as (Hj & Ht & _). rewrite (content_cached s j c n Hs Hj Ht).
    pose proof (co_bufs s Hs j c Hj) as Hok. apply is_block_true in Ht as Hb. destruct Hb as [Hdev <-]. apply (bo_clean _ _ Hok).
    + destruct (bo_dev _ _ Hok) as [[? _]|[_ [?|?]]]; [congruence|done|]. destruct Hn. by exists j, c.
    + by rewrite (bo_free _ _ Hok (q_idle s Hq j c Hj)).
  - apply list_find_None in E. rewrite Forall_lookup in E. apply content_uncached. intros k d Hk. specialize (E k d Hk).
    by destruct (is_block 1 n d).
Qed.

(** Two blocks that are locked one after the other. *)
Lemma two_breads m n s :
  quiet s -> m <> n -> 0 <= m < Z.of_nat (length (s_disk s)) -> 0 <= n < Z.of_nat (length (s_disk s)) ->
  (exists i j, i <> j /\ avail s m i /\ avail s n j) ->
  exists i j bi bj s1 s2, bread 1 m s = Ret i s1 /\ bread 1 n s1 = Ret j s2 /\ i <> j /\ cache_ok s2 /\ same_rest s s1 /\
    same_rest s s2 /\ s_disk s2 = s_disk s /\ s_writes s2 = s_writes s /\
    mine s2 i m bi /\ mine s2 j n bj /\ b_refcnt bi = 1 /\ b_refcnt bj = 1 /\
    b_data bi = content s m /\ b_data bj = content s n /\ (b_flags bi = 6 <-> dirty s m) /\ (b_flags bj = 6 <-> dirty s n) /\
    (forall k b, k <> i -> k <> j -> s_bufs s2 !! k = Some b -> b_refcnt b = 0) /\
    (forall k, content s2 k = content s k) /\ (forall k, dirty s2 k <-> dirty s k).
Proof.
  intros Hq Hmn Hm Hn (i0 & j0 & Hij0 & Hi0 & Hj0). pose proof (q_cache s Hq) as Hs.
  assert (Hidle : forall i b, s_bufs s !! i = Some b -> locked (b_lock b) = 0 /\ b_refcnt b < 2 ^ 31 - 1).
  { intros i b Hb. pose proof (q_idle s Hq i b Hb) as Hr. rewrite (bo_free _ _ (co_bufs s Hs i b Hb) Hr). split; [done|lia]. }
  destruct (bread_spec m s Hs (q_unlatched s Hq) Hm) as (i & bi & s1 & E1 & Hs1 & R1 & D1 & W1 & M1 & Hdi & H6i & C1 & Y1 & O1 & (b0 & Hb0 & Hr1) & Ai);
    [intros k b Hb _; by apply (Hidle k)|by exists i0|].
  assert (Hri : b_refcnt bi = 1) by (rewrite Hr1, (q_idle s Hq i b0 Hb0); by destruct (is_block 1 m b0)).
  pose proof M1 as (Hbi & Hki & Hdv & Hbn & Hrest).
  assert (Hav : exists k, avail s1 n k).
  { destruct (decide (i = j0)) as [->|Hne]; [exists i0|exists j0; unfold avail; by rewrite O1].
    destruct Hi0 as (bi0 & Hbi0 & [Ht|Hu]); [|exists bi0; rewrite O1 by done; by auto].
    exfalso. destruct Ai as (c & Hc & [Htc|Hu]); [by apply Hij0, (one_block s i0 j0 bi0 c m)|].
    assert (s_bufs s1 !! i0 = Some bi0) by (by rewrite O1).
    apply Hij0, (one_block s1 i0 j0 bi0 bi m); [done|done|done|done|by apply is_block_true]. }
  destruct (bread_spec n s1 Hs1 (unlatched_same _ _ R1 (q_unlatched s Hq))) as (j & bj & s2 & E2 & Hs2 & R2 & D2 & W2 & M2 & Hdj & H6j & C2 & Y2 & O2 & (b1 & Hb1 & Hr2) & Aj);
    [by rewrite D1| |done|].
  { intros k b Hb Ht. destruct (decide (k = i)) as [->|Hne]; [|rewrite O1 in Hb by done; by apply (Hidle k)].
    exfalso. apply is_block_true in Ht as []. congruence. }
  assert (Hij : i <> j).
  { intros <-. destruct Aj as (c & Hc & [Ht|Hu]); assert (c = bi) as -> by congruence.
    - apply is_block_true in Ht as []. congruence.
    - unfold is_unused in Hu. rewrite Hri in Hu. done. }
  exists i, j, bi, bj, s1, s2. split_and!; try done.
  - by eapply same_rest_trans.
  - congruence.
  - congruence.
  - apply (mine_same s1); [done|done|by apply O2|done].
  - rewrite Hr2. rewrite O1 in Hb1 by done. rewrite (q_idle s Hq j b1 Hb1). by destruct (is_block 1 n b1).
  - by rewrite <- C1.
  - by rewrite H6j, Y1.
  - intros k b Hki' Hkj Hb. rewrite O2, O1 in Hb by done. by apply (q_idle s Hq k).
  - intros k. by rewrite C2, C1.
  - intros k. by rewrite Y2, Y1.
Qed.

(** Releasing the last two buffers that are locked. *)
Lemma two_brelses i m bi j n bj s :
  cache_ok s -> unlatched s -> i <> j -> mine s i m bi -> mine s j n bj -> b_refcnt bi = 1 -> b_refcnt bj = 1 ->
  (b_flags bi = 2 -> b_data bi = dblock (s_disk s) m) -> (b_flags bj = 2 -> b_data bj = dblock (s_disk s) n) ->
  (forall k b, k <> i -> k <> j -> s_bufs s !! k = Some b -> b_refcnt b = 0) ->
  exists s1 s2, brelse i s = Ret tt s1 /\ brelse j s1 = Ret tt s2 /\ quiet s2 /\ same_rest s s2 /\
    s_disk s2 = s_disk s /\ s_writes s2 = s_writes s /\ (forall k, content s2 k = content s k) /\
    (forall k, dirty s2 k <-> dirty s k).
Proof.
  intros Hs Hun Hij Mi Mj Hri Hrj Hci Hcj Hoth.
  destruct (brelse_spec i m bi s Hs Hun Mi Hci) as (s1 & E1 & Hs1 & R1 & D1 & W1 & B1 & C1 & Y1).
  assert (Mj1 : mine s1 j n bj) by (apply (mine_same s); [done|done|by rewrite B1, list_lookup_insert_ne|done]).
  destruct (brelse_spec j n bj s1 Hs1 (unlatched_same _ _ R1 Hun) Mj1) as (s2 & E2 & Hs2 & R2 & D2 & W2 & B2 & C2 & Y2);
    [by rewrite D1|].
  exists s1, s2. split; [done|]. split; [done|]. split.
  { split; [done|by eapply unlatched_same; [exact R2|eapply unlatched_same]|]. intros k b Hb. rewrite B2, B1 in Hb.
    destruct Mi as (Hbi & _), Mj as (Hbj & _). apply lookup_lt_Some in Hbi, Hbj.
    destruct (decide (k = j)) as [->|Hkj]; [rewrite list_lookup_insert_eq in Hb by len|rewrite list_lookup_insert_ne in Hb by done].
    - injection Hb as <-. cbn. lia.
    - destruct (decide (k = i)) as [->|Hki]; [rewrite list_lookup_insert_eq in Hb by len|rewrite list_lookup_insert_ne in Hb by done].
      + injection Hb as <-. cbn. lia.
      + by apply (Hoth k). }
  split; [by eapply same_rest_trans|]. split; [congruence|]. split; [congruence|].
  split; intros k; [by rewrite C2, C1|by rewrite Y2, Y1].
Qed.

(** The result of copying block [src] to block [dst] on the disk. *)
Record copied (dst src : Z) (s s' : fs) : Prop := {
  cp_quiet : quiet s';
  cp_rest : same_rest s s';
  cp_disk : s_disk s' = <[Z.to_nat dst := content s src]> (s_disk s);
  cp_writes : s_writes s' = s_writes s ++ [(dst, content s src)];
  cp_content : forall k, 0 <= k -> content s' k = if k =? dst then content s src else content s k;
  cp_dirty : forall k, dirty s' k <-> dirty s k /\ k <> dst
}.

(** With [dst] locked in buffer [x] and [src] in buffer [y]. *)
Lemma overwrite x dst bx y src by0 s :
  cache_ok s -> unlatched s -> x <> y -> dst <> src -> mine s x dst bx -> mine s y src by0 ->
  exists s1 s2, get_buf y s = Ret by0 s /\ upd_buf x (set_b_data (b_data by0)) s = Ret tt s1 /\ bwrite x s1 = Ret tt s2 /\
    cache_ok s2 /\ same_rest s s2 /\ s_disk s2 = <[Z.to_nat dst := b_data by0]> (s_disk s) /\
    s_writes s2 = s_writes s ++ [(dst, b_data by0)] /\
    mine s2 x dst (set_b_flags 2 (set_b_data (b_data by0) bx)) /\ mine s2 y src by0 /\
    (forall k, k <> x -> s_bufs s2 !! k = s_bufs s !! k) /\
    (forall k, 0 <= k -> content s2 k = if k =? dst then b_data by0 else content s k) /\
    (forall k, dirty s2 k <-> dirty s k /\ k <> dst).
Proof.
  intros Hs Hun Hxy Hne Mx My. destruct (upd_data_spec x dst bx (b_data by0) s Hs Mx) as (E1 & Hs1 & M1 & C1 & Y1).
  set (s1 := set_bufs _ s) in *.
  destruct (bwrite_spec x dst _ s1 Hs1 Hun M1) as (s2 & E2 & Hs2 & R2 & M2 & D2 & W2 & C2 & Y2 & O2).
  assert (Hoth : forall k, k <> x -> s_bufs s2 !! k = s_bufs s !! k).
  { intros k Hk. rewrite O2 by done. unfold s1. cbn. by rewrite list_lookup_insert_ne. }
  exists s1, s2. split; [by apply get_buf_eq, My|]. split; [done|]. split; [done|]. split; [done|]. split; [by destruct R2|].
  split; [done|]. split; [done|]. split; [done|]. split.
  { destruct My as (Hb & Hk & Hd & Hn & Href & Hf & Hr). split_and!; try done.
    - by rewrite Hoth.
    - by rewrite (sr_pid _ _ R2).
    - apply Href.
    - apply Href.
    - apply Hr.
    - rewrite D2, length_insert. apply Hr. }
  split; [done|]. split; intros k; [intros Hk; by rewrite C2, C1|by rewrite Y2, Y1].
Qed.

Section Copy.
Context (dst src : Z) (s : fs).
Hypothesis Hq : quiet s.
Hypothesis Hne : dst <> src.
Hypothesis Hdst : 0 <= dst < Z.of_nat (length (s_disk s)).
Hypothesis Hsrc : 0 <= src < Z.of_nat (length (s_disk s)).

(** Both buffers may be released: the copy is clean, the source as it was. *)
Lemma src_clean y by0 s1 s2 :
  cache_ok s1 -> mine s1 y src by0 -> s_disk s1 = s_disk s -> b_data by0 = content s src -> (b_flags by0 = 6 <-> dirty s src) ->
  s_disk s2 = <[Z.to_nat dst := b_data by0]> (s_disk s1) ->
  b_flags by0 = 2 -> b_data by0 = dblock (s_disk s2) src.
Proof using All.
  intros Hs1 M D1 Hd H6 D2 H2. rewrite D2, D1, dblock_insert by lia. rewrite (proj2 (Z.eqb_neq src dst)) by done.
  rewrite Hd. apply quiet_clean; [done|]. intros Hdirty%H6. congruence.
Qed.

Lemma copied_intro s1 s2 s3 by0 :
  same_rest s s1 -> s_disk s1 = s_disk s -> s_writes s1 = s_writes s -> b_data by0 = content s src ->
  (forall k, content s1 k = content s k) -> (forall k, dirty s1 k <-> dirty s k) ->
  same_rest s1 s2 -> s_disk s2 = <[Z.to_nat dst := b_data by0]> (s_disk s1) ->
  s_writes s2 = s_writes s1 ++ [(dst, b_data by0)] ->
  (forall k, 0 <= k -> content s2 k = if k =? dst then b_data by0 else content s1 k) ->
  (forall k, dirty s2 k <-> dirty s1 k /\ k <> dst) ->
  quiet s3 -> same_rest s2 s3 -> s_disk s3 = s_disk s2 -> s_writes s3 = s_writes s2 ->
  (forall k, content s3 k = content s2 k) -> (forall k, dirty s3 k <-> dirty s2 k) -> copied dst src s s3.
Proof using.
  intros R1 D1 W1 Hd C1 Y1 R2 D2 W2 C2 Y2 Q3 R3 D3 W3 C3 Y3. split; [done| | | | |].
  - eapply same_rest_trans; [exact R1|]. by eapply same_rest_trans.
  - by rewrite D3, D2, D1, Hd.
  - by rewrite W3, W2, W1, Hd.
  - intros k Hk. by rewrite C3, C2, C1, Hd.
  - intros k. by rewrite Y3, Y2, Y1.
Qed.

(** The body of the loop of [write_log]: the destination is locked first. *)
Lemma copy_into :
  (exists i j, i <> j /\ avail s dst i /\ avail s src j) ->
  exists x y v s1 s2 s3 s4 s5 s6, bread 1 dst s = Ret x s1 /\ s_log s1 = s_log s /\ bread 1 src s1 = Ret y s2 /\
    get_buf y s2 = Ret v s2 /\ upd_buf x (set_b_data (b_data v)) s2 = Ret tt s3 /\ bwrite x s3 = Ret tt s4 /\
    brelse y s4 = Ret tt s5 /\ brelse x s5 = Ret tt s6 /\ copied dst src s s6.
Proof using All.
  intros Hav. destruct (two_breads dst src s Hq Hne Hdst Hsrc Hav)
    as (x & y & bx & yb & s1 & s2 & E1 & E2 & Hxy & Hs2 & R1 & R2 & D2 & W2 & Mx & My & Hrx & Hry & Hdx & Hdy & H6x & H6y & Hoth & C2 & Y2).
  assert (Hun2 : unlatched s2) by (eapply unlatched_same; [exact R2|apply Hq]).
  destruct (overwrite x dst bx y src yb s2 Hs2 Hun2 Hxy Hne Mx My) as (s3 & s4 & E3 & E4 & E5 & Hs4 & R4 & D4 & W4 & Mx4 & My4 & O4 & C4 & Y4).
  destruct (two_brelses y src yb x dst _ s4 Hs4 (unlatched_same _ _ R4 Hun2) (not_eq_sym Hxy) My4 Mx4 Hry Hrx)
    as (s5 & s6 & E6 & E7 & Q6 & R6 & D6 & W6 & C6 & Y6).
  - by apply (src_clean y yb s2 s4).
  - intros _. rewrite D4, dblock_insert by (rewrite ?D2; lia). by rewrite Z.eqb_refl.
  - intros k b Hk1 Hk2 Hb. rewrite O4 in Hb by done. by apply (Hoth k).
  - exists x, y, yb, s1, s2, s3, s4, s5, s6. split_and!; try done; [apply (sr_log _ _ R1)|].
    by apply (copied_intro s2 s4 s6 yb).
Qed.

(** The body of the loop of [install_trans]: the source is locked first. *)
Lemma copy_from :
  (exists i j, i <> j /\ avail s src i /\ avail s dst j) ->
  exists y x v s1 s2 s3 s4 s5 s6, bread 1 src s = Ret y s1 /\ s_log s1 = s_log s /\ bread 1 dst s1 = Ret x s2 /\
    get_buf y s2 = Ret v s2 /\ upd_buf x (set_b_data (b_data v)) s2 = Ret tt s3 /\ bwrite x s3 = Ret tt s4 /\
    brelse y s4 = Ret tt s5 /\ brelse x s5 = Ret tt s6 /\ copied dst src s s6.
Proof using All.
  intros Hav. destruct (two_breads src dst s Hq (not_eq_sym Hne) Hsrc Hdst Hav)
    as (y & x & yb & bx & s1 & s2 & E1 & E2 & Hyx & Hs2 & R1 & R2 & D2 & W2 & My & Mx & Hry & Hrx & Hdy & Hdx & H6y & H6x & Hoth & C2 & Y2).
  assert (Hun2 : unlatched s2) by (eapply unlatched_same; [exact R2|apply Hq]).
  destruct (overwrite x dst bx y src yb s2 Hs2 Hun2 (not_eq_sym Hyx) Hne Mx My) as (s3 & s4 & E3 & E4 & E5 & Hs4 & R4 & D4 & W4 & Mx4 & My4 & O4 & C4 & Y4).
  destruct (two_brelses y src yb x dst _ s4 Hs4 (unlatched_same _ _ R4 Hun2) Hyx My4 Mx4 Hry Hrx)
    as (s5 & s6 & E6 & E7 & Q6 & R6 & D6 & W6 & C6 & Y6).
  - by apply (src_clean y yb s2 s4).
  - intros _. rewrite D4, dblock_insert by (rewrite ?D2; lia). by rewrite Z.eqb_refl.
  - intros k b Hk1 Hk2 Hb. rewrite O4 in Hb by done. by apply (Hoth k).
  - exists y, x, yb, s1, s2, s3, s4, s5, s6. split_and!; try done; [apply (sr_log _ _ R1)|].
    by apply (copied_intro s2 s4 s6 yb).
Qed.
End Copy.

(** ** There is room in the cache *)

Definition flags_at (s : fs) (i : nat) : Z := match s_bufs s !! i with Some b => b_flags b | None => 0 end.
Definition blockno_at (s : fs) (i : nat) : Z := match s_bufs s !! i with Some b => b_blockno b | None => 0 end.

(** When the dirty blocks are among those of [L], all but [length L] buffers are unused. *)
Lemma unused_many s L k :
  quiet s -> (forall m, dirty s m -> m ∈ L) -> (length L + k <= NBUF)%nat ->
  exists ids, NoDup ids /\ length ids = k /\ forall i, i ∈ ids -> exists b, s_bufs s !! i = Some b /\ is_unused b = true.
Proof.
  intros Hq HL Hk. pose proof (q_cache s Hq) as Hs. set (P i := flags_at s i <> 6).
  pose proof (Permutation_length (filter_app_complement P (seq 0 NBUF))) as Hlen. rewrite length_app, length_seq in Hlen.
  assert (Hd : forall i, i ∈ filter (fun i => ¬ P i) (seq 0 NBUF) -> exists b, s_bufs s !! i = Some b /\ b_flags b = 6 /\ b_dev b = 1).
  { intros i [Hn Hi]%list_elem_of_filter. unfold P, flags_at in Hn. destruct (s_bufs s !! i) as [b|] eqn:Hb; [|by destruct Hn].
    exists b. split; [done|]. assert (H6 : b_flags b = 6) by (destruct (decide (b_flags b = 6)); tauto). split; [done|].
    destruct (bo_dev _ _ (co_bufs s Hs i b Hb)) as [(_ & ? & _)|[? _]]; [congruence|done]. }
  assert (Hsub : blockno_at s <$> filter (fun i => ¬ P i) (seq 0 NBUF) ⊆+ L).
  { apply NoDup_submseteq.
    - apply NoDup_fmap_2_strong; [|apply NoDup_filter, NoDup_seq].
      intros i j (bi & Hi & _ & Di)%Hd (bj & Hj & _ & Dj)%Hd E. unfold blockno_at in E. rewrite Hi, Hj in E.
      by eapply (co_one s Hs).
    - intros n (i & -> & (b & Hi & H6 & D)%Hd)%list_elem_of_fmap. apply HL. exists i, b. split; [done|]. split; [|done].
      apply is_block_true. unfold blockno_at. by rewrite Hi. }
  apply submseteq_length in Hsub. rewrite length_fmap in Hsub.
  exists (take k (filter P (seq 0 NBUF))). split_and!.
  - eapply sublist_NoDup; [|apply sublist_take]. apply NoDup_filter, NoDup_seq.
  - rewrite length_take. lia.
  - intros i Hi%(subseteq_take k). apply list_elem_of_filter in Hi as [HP Hi%elem_of_seq].
    destruct (lookup_lt_is_Some_2 (s_bufs s) i) as [b Hb]; [rewrite (co_len s Hs); lia|]. exists b. split; [done|].
    apply (quiet_unused s i b Hq Hb). unfold P, flags_at in HP. by rewrite Hb in HP.
Qed.

Lemma avail_two s L m n :
  quiet s -> (forall k, dirty s k -> k ∈ L) -> (length L + 2 <= NBUF)%nat ->
  exists i j, i <> j /\ avail s m i /\ avail s n j.
Proof.
  intros Hq HL Hk. destruct (unused_many s L 2 Hq HL Hk) as (ids & Hd & Hlen & Hu).
  destruct ids as [|i [|j []]]; try done. exists i, j. apply NoDup_cons in Hd as [Hij _].
  destruct (Hu i) as (bi & Hi & Ui); [set_solver|]. destruct (Hu j) as (bj & Hj & Uj); [set_solver|].
  split; [set_solver|]. split; [exists bi|exists bj]; auto.
Qed.

Lemma avail_dirty s L m n :
  quiet s -> (forall k, dirty s k -> k ∈ L) -> (length L < NBUF)%nat -> dirty s n ->
  exists i j, i <> j /\ avail s m i /\ avail s n j.
Proof.
  intros Hq HL Hk (j & b & Hj & Ht & H6). destruct (unused_many s L 1 Hq HL ltac:(lia)) as (ids & Hd & Hlen & Hu).
  destruct ids as [|i []]; try done. destruct (Hu i) as (bi & Hi & Ui); [set_solver|]. exists i, j. split_and!.
  - intros ->. assert (bi = b) as -> by congruence. by apply (quiet_unused s j b Hq Hj) in Ui.
  - exists bi. auto.
  - exists b. auto.
Qed.

(** ** Sequences of writes *)

Definition write_block (d : list (list Z)) (w : Z * list Z) : list (list Z) := <[Z.to_nat (fst w) := snd w]> d.
Definition apply_writes (d : list (list Z)) (ws : list (Z * list Z)) : list (list Z) := foldl write_block d ws.
Definition write_content (c : Z -> list Z) (w : Z * list Z) : Z -> list Z := fun k => if k =? fst w then snd w else c k.
Definition after (c : Z -> list Z) (ws : list (Z * list Z)) : Z -> list Z := foldl write_content c ws.

(** What [write_log] writes: the blocks [hs] to the log from block [a] on; and what
    [install_trans] writes: the log blocks from [a] on to the blocks [hs]. *)
Fixpoint log_writes (c : Z -> list Z) (a : Z) (hs : list Z) : list (Z * list Z) :=
  match hs with
  | [] => []
  | h :: hs => (a, c h) :: log_writes c (a + 1) hs
  end.
Fixpoint home_writes (c : Z -> list Z) (a : Z) (hs : list Z) : list (Z * list Z) :=
  match hs with
  | [] => []
  | h :: hs => (h, c a) :: home_writes c (a + 1) hs
  end.

Lemma log_writes_ext c c' a hs : (forall h, h ∈ hs -> c h = c' h) -> log_writes c a hs = log_writes c' a hs.
Proof.
  revert a. induction hs as [|h hs IH]; intros a Hc; [done|]. cbn. rewrite Hc by set_solver. f_equal. apply IH. set_solver.
Qed.
Lemma home_writes_ext c c' a hs :
  (forall k, a <= k < a + Z.of_nat (length hs) -> c k = c' k) -> home_writes c a hs = home_writes c' a hs.
Proof.
  revert a. induction hs as [|h hs IH]; intros a Hc; [done|]. cbn [home_writes]. cbn [length] in Hc.
  rewrite Hc by lia. f_equal. apply IH. intros k Hk. apply Hc. lia.
Qed.

Lemma after_ext ws c c' k : c k = c' k -> after c ws k = after c' ws k.
Proof.
  revert c c'. induction ws as [|w ws IH]; intros c c' Hc; [done|]. cbn. apply IH. unfold write_content. by rewrite Hc.
Qed.

Lemma length_apply ws d : length (apply_writes d ws) = length d.
Proof. revert d. induction ws as [|w ws IH]; intros d; [done|]. cbn. rewrite IH. apply length_insert. Qed.

(** An operation that made the writes [ws], and changed the contents of blocks only by them. *)
Record wrote (ws : list (Z * list Z)) (s s' : fs) : Prop := {
  wr_quiet : quiet s';
  wr_rest : same_rest s s';
  wr_disk : s_disk s' = apply_writes (s_disk s) ws;
  wr_writes : s_writes s' = s_writes s ++ ws;
  wr_content : forall k, 0 <= k -> content s' k = after (content s) ws k
}.

Lemma wrote_nil s : quiet s -> wrote [] s s.
Proof. intros Hq. split; [done|done|done|by rewrite app_nil_r|done]. Qed.

Lemma wrote_app ws ws' s s1 s2 : wrote ws s s1 -> wrote ws' s1 s2 -> wrote (ws ++ ws') s s2.
Proof.
  intros [Q1 R1 D1 W1 C1] [Q2 R2 D2 W2 C2]. unfold apply_writes in *. split; [done|by eapply same_rest_trans| | |].
  - unfold apply_writes. by rewrite D2, D1, foldl_app.
  - by rewrite W2, W1, app_assoc.
  - intros k Hk. unfold after. rewrite C2, foldl_app by done. apply after_ext. by apply C1.
Qed.

Lemma wrote_length ws s s' : wrote ws s s' -> length (s_disk s') = length (s_disk s).
Proof. intros [_ _ D _ _]. by rewrite D, length_apply. Qed.

Lemma copied_wrote dst src s s' : copied dst src s s' -> wrote [(dst, content s src)] s s'.
Proof. intros [Q R D W C _]. by split. Qed.

Lemma get_lh_eq s pre h post :
  lh_block (s_log s) = pre ++ h :: post -> get_lh (Z.of_nat (length pre)) s = Ret h s.
Proof.
  intros E. unfold get_lh. rewrite E, Nat2Z.id, list_lookup_middle by done.
  by rewrite (proj2 (Z.leb_le 0 _)) by lia.
Qed.

(** The part of the state the loops over the header rely on: the log is on disk 1 and
    starts at block [start], and the header lists the blocks [pre ++ rest]. *)
Record at_log (start : Z) (pre rest : list Z) (s : fs) : Prop := {
  al_quiet : quiet s;
  al_dev : l_dev (s_log s) = 1;
  al_start : l_start (s_log s) = start;
  al_lh : exists post, lh_block (s_log s) = pre ++ rest ++ post;
  al_pos : 0 <= start;
  al_fits : start + Z.of_nat (length pre) + Z.of_nat (length rest) < Z.of_nat (length (s_disk s)) < 2 ^ 31;
  al_homes : forall h, h ∈ rest -> 0 <= h < Z.of_nat (length (s_disk s)) /\
    (h < start \/ start + Z.of_nat (length pre) + Z.of_nat (length rest) < h)
}.

Lemma at_log_next start pre h rest ws s s' :
  at_log start pre (h :: rest) s -> wrote ws s s' -> at_log start (pre ++ [h]) rest s'.
Proof.
  intros [Q D S0 [post Hl] P Fi Ho] Wr. pose proof (wr_rest _ _ _ Wr) as R. pose proof (wrote_length _ _ _ Wr) as Hlen. cbn [length] in *. split.
  - apply Wr.
  - by rewrite (sr_log _ _ R).
  - by rewrite (sr_log _ _ R).
  - exists post. rewrite (sr_log _ _ R), Hl. by rewrite <- !app_assoc.
  - done.
  - rewrite Hlen, length_app. cbn. lia.
  - intros x Hx. rewrite Hlen, length_app. cbn. destruct (Ho x) as [H1 H2]; [set_solver|]. split; [done|lia].
Qed.

Lemma write_log_loop_spec start rest : forall pre L s,
  at_log start pre rest s -> (forall h, h ∈ rest -> dirty s h) ->
  (forall k, start < k <= start + Z.of_nat (length pre) + Z.of_nat (length rest) -> ~ dirty s k) ->
  (forall k, dirty s k -> k ∈ L) -> (length L < NBUF)%nat ->
  exists s', write_log_loop (length rest) (Z.of_nat (length pre)) s = Ret tt s' /\
    wrote (log_writes (content s) (start + Z.of_nat (length pre) + 1) rest) s s' /\ (forall k, dirty s' k <-> dirty s k).
Proof.
  induction rest as [|h rest IH]; intros pre L s Hat Hdirty Hclean HL HLn.
  - exists s. split; [done|]. split; [apply wrote_nil, Hat|done].
  - pose proof Hat as [Hq Hdev Hst [post Hlh] Hpos Hfit Hhomes]. cbn [length] in *.
    destruct (Hhomes h) as [Hh1 Hh2]; [set_solver|]. set (a := start + Z.of_nat (length pre) + 1) in *.
    assert (Hah : a <> h) by lia. assert (Ha : 0 <= a < Z.of_nat (length (s_disk s))) by lia.
    destruct (copy_into a h s Hq Hah Ha Hh1) as (x & y & v & s1 & s2 & s3 & s4 & s5 & s6 & E1 & El & E2 & E3 & E4 & E5 & E6 & E7 & Cp);
      [apply (avail_dirty s L); [done|done|done|apply Hdirty; set_solver]|].
    pose proof (copied_wrote _ _ _ _ Cp) as Wr.
    assert (Y6 : forall k, dirty s6 k <-> dirty s k).
    { intros k. rewrite (cp_dirty _ _ _ _ Cp). split; [by intros []|]. intros Hk. split; [done|]. intros ->. apply (Hclean a); [lia|done]. }
    destruct (IH (pre ++ [h]) L s6) as (s' & E & Wr' & Y').
    + by eapply at_log_next.
    + intros k Hk. apply Y6, Hdirty. set_solver.
    + intros k Hk Hd%Y6. rewrite length_app in Hk. cbn in Hk. apply (Hclean k); [lia|done].
    + intros k Hk%Y6. by apply HL.
    + done.
    + assert (EW : log_writes (content s6) (start + Z.of_nat (length (pre ++ [h])) + 1) rest = log_writes (content s) (a + 1) rest).
      { rewrite length_app. cbn [length]. replace (start + Z.of_nat (length pre + 1) + 1) with (a + 1) by lia.
        apply log_writes_ext. intros k Hk. destruct (Hhomes k) as [Hk1 Hk2]; [set_solver|].
        rewrite (cp_content _ _ _ _ Cp) by lia. by rewrite (proj2 (Z.eqb_neq k a)) by lia. }
      rewrite EW in Wr'. exists s'. split; [|split; [exact (wrote_app _ _ _ _ _ Wr Wr')|intros k; by rewrite Y', Y6]].
      cbn [write_log_loop]. rewrite bind_gets, Hdev, Hst. change (u32 1) with 1.
      replace (start + Z.of_nat (length pre) + 1) with a by done. rewrite (u32_id a) by lia. step E1.
      assert (Hlh1 : lh_block (s_log s1) = pre ++ h :: rest ++ post) by (by rewrite El).
      step (get_lh_eq s1 pre h _ Hlh1). rewrite (u32_id h) by lia. step E2. step E3. step E4. step E5. step E6. step E7.
      rewrite <- E. f_equal. rewrite length_app. cbn. lia.
Qed.

Lemma install_loop_spec start rest : forall pre L s,
  at_log start pre rest s -> NoDup rest ->
  (forall k, dirty s k -> k ∈ L) -> (length L + 2 <= NBUF)%nat \/ (length L < NBUF)%nat /\ (forall h, h ∈ rest -> dirty s h) ->
  exists s', install_loop (length rest) (Z.of_nat (length pre)) s = Ret tt s' /\
    wrote (home_writes (content s) (start + Z.of_nat (length pre) + 1) rest) s s' /\
    (forall k, dirty s' k <-> dirty s k /\ k ∉ rest).
Proof.
  induction rest as [|h rest IH]; intros pre L s Hat Hnd HL Hroom.
  - exists s. split; [done|]. split; [apply wrote_nil, Hat|]. set_solver.
  - pose proof Hat as [Hq Hdev Hst [post Hlh] Hpos Hfit Hhomes]. cbn [length] in *.
    apply NoDup_cons in Hnd as [Hnh Hnd].
    destruct (Hhomes h) as [Hh1 Hh2]; [set_solver|]. set (a := start + Z.of_nat (length pre) + 1) in *.
    assert (Hah : h <> a) by lia. assert (Ha : 0 <= a < Z.of_nat (length (s_disk s))) by lia.
    destruct (copy_from h a s Hq Hah Hh1 Ha) as (y & x & v & s1 & s2 & s3 & s4 & s5 & s6 & E1 & El & E2 & E3 & E4 & E5 & E6 & E7 & Cp).
    { destruct Hroom as [Hr|[Hr Hdirty]]; [by apply (avail_two s L)|].
      apply (avail_dirty s L); [done|done|done|apply Hdirty; set_solver]. }
    pose proof (copied_wrote _ _ _ _ Cp) as Wr. pose proof (cp_dirty _ _ _ _ Cp) as Y6.
    destruct (IH (pre ++ [h]) L s6) as (s' & E & Wr' & Y').
    + by eapply at_log_next.
    + done.
    + intros k [Hk _]%Y6. by apply HL.
    + destruct Hroom as [|[Hr Hdirty]]; [by left|right]. split; [done|]. intros k Hk. apply Y6. split; [apply Hdirty; set_solver|].
      by intros ->.
    + assert (EW : home_writes (content s6) (start + Z.of_nat (length (pre ++ [h])) + 1) rest = home_writes (content s) (a + 1) rest).
      { rewrite length_app. cbn [length]. replace (start + Z.of_nat (length pre + 1) + 1) with (a + 1) by lia.
        apply home_writes_ext. intros k Hk. rewrite (cp_content _ _ _ _ Cp) by lia. by rewrite (proj2 (Z.eqb_neq k h)) by lia. }
      rewrite EW in Wr'. exists s'. split; [|split; [exact (wrote_app _ _ _ _ _ Wr Wr')|intros k; rewrite Y', Y6; set_solver]].
      cbn [install_loop]. rewrite bind_gets, Hdev, Hst. change (u32 1) with 1.
      replace (start + Z.of_nat (length pre) + 1) with a by done. rewrite (u32_id a) by lia. step E1.
      assert (Hlh1 : lh_block (s_log s1) = pre ++ h :: rest ++ post) by (by rewrite El).
      step (get_lh_eq s1 pre h _ Hlh1). rewrite (u32_id h) by lia. step E2. step E3. step E4. step E5. step E6. step E7.
      rewrite <- E. f_equal. rewrite length_app. cbn. lia.
Qed.

(** ** The header *)

Fixpoint put_blocks (hs : list Z) (i : Z) (d : list Z) : list Z :=
  match hs with
  | [] => d
  | h :: hs => put_blocks hs (i + 1) (put32 d (Z.to_nat (4 + 4 * i)) h)
  end.
(** The header block that lists [hs], written over the block [d]. *)
Definition header (hs : list Z) (d : list Z) : list Z := put_blocks hs 0 (put32 d 0 (Z.of_nat (length hs))).

Lemma length_put_blocks hs i d :
  0 <= i -> 4 + 4 * (i + Z.of_nat (length hs)) <= Z.of_nat (length d) -> length (put_blocks hs i d) = length d.
Proof.
  revert i d. induction hs as [|h hs IH]; intros i d Hi Hl; [done|]. cbn [put_blocks length] in *.
  assert (Hp : length (put32 d (Z.to_nat (4 + 4 * i)) h) = length d) by (apply length_put; lia). rewrite IH; [done|lia|].
  rewrite Hp. lia.
Qed.

(** Reading back the numbers that were put. *)
Lemma put_blocks_before hs i d o :
  0 <= i -> 4 + 4 * (i + Z.of_nat (length hs)) <= Z.of_nat (length d) -> (Z.of_nat o + 4 <= 4 + 4 * i) ->
  get32 (put_blocks hs i d) o = get32 d o.
Proof.
  revert i d. induction hs as [|h hs IH]; intros i d Hi Hl Ho; [done|]. cbn [put_blocks length] in *.
  assert (Hp : length (put32 d (Z.to_nat (4 + 4 * i)) h) = length d) by (apply length_put; lia).
  rewrite IH; [|lia|rewrite Hp; lia|lia]. apply get_put_other; lia.
Qed.

Lemma put_blocks_at hs i d j h :
  0 <= i -> 4 + 4 * (i + Z.of_nat (length hs)) <= Z.of_nat (length d) -> hs !! j = Some h -> 0 <= h < 2 ^ 31 ->
  hdr_block (put_blocks hs i d) (i + Z.of_nat j) = h.
Proof.
  revert i d j. induction hs as [|x hs IH]; intros i d j Hi Hl Hj Hh; [done|]. cbn [put_blocks length] in *.
  assert (Hp : length (put32 d (Z.to_nat (4 + 4 * i)) x) = length d) by (apply length_put; lia). destruct j as [|j].
  - injection Hj as ->. unfold hdr_block. rewrite put_blocks_before by (try rewrite Hp; lia).
    replace (Z.to_nat (4 + 4 * (i + Z.of_nat 0))) with (Z.to_nat (4 + 4 * i)) by lia.
    unfold get32, put32. rewrite get_put by lia. rewrite Z.mod_small by lia. apply s32_id. lia.
  - replace (i + Z.of_nat (S j)) with ((i + 1) + Z.of_nat j) by lia. apply IH; [lia|rewrite Hp; lia|done|done].
Qed.

Lemma header_n hs d :
  4 + 4 * Z.of_nat (length hs) <= Z.of_nat (length d) < 2 ^ 31 -> hdr_n (header hs d) = Z.of_nat (length hs).
Proof.
  intros Hl. assert (Hp : length (put32 d 0 (Z.of_nat (length hs))) = length d) by (apply length_put; lia).
  unfold hdr_n, header. rewrite put_blocks_before by (try rewrite Hp; lia). unfold get32, put32. rewrite get_put by lia.
  rewrite Z.mod_small by lia. apply s32_id. lia.
Qed.

Lemma header_block hs d j h :
  4 + 4 * Z.of_nat (length hs) <= Z.of_nat (length d) -> hs !! j = Some h -> 0 <= h < 2 ^ 31 ->
  hdr_block (header hs d) (Z.of_nat j) = h.
Proof.
  intros Hl Hj Hh. assert (Hp : length (put32 d 0 (Z.of_nat (length hs))) = length d) by (apply length_put; lia).
  unfold header. replace (Z.of_nat j) with (0 + Z.of_nat j) by lia. apply put_blocks_at; [lia|rewrite Hp; lia|done|done].
Qed.

Lemma length_header hs d :
  4 + 4 * Z.of_nat (length hs) <= Z.of_nat (length d) -> length (header hs d) = length d.
Proof.
  intros Hl. assert (Hp : length (put32 d 0 (Z.of_nat (length hs))) = length d) by (apply length_put; lia).
  unfold header. rewrite length_put_blocks; [done|lia|rewrite Hp; lia].
Qed.

(** One block that is locked, changed, written and released. *)
Lemma one_bread s L n :
  quiet s -> (forall k, dirty s k -> k ∈ L) -> (length L < NBUF)%nat -> 0 <= n < Z.of_nat (length (s_disk s)) ->
  exists i b s1, bread 1 n s = Ret i s1 /\ cache_ok s1 /\ same_rest s s1 /\ s_disk s1 = s_disk s /\ s_writes s1 = s_writes s /\
    mine s1 i n b /\ b_refcnt b = 1 /\ b_data b = content s n /\ (b_flags b = 6 <-> dirty s n) /\
    (forall k, content s1 k = content s k) /\ (forall k, dirty s1 k <-> dirty s k) /\
    (forall j b', j <> i -> s_bufs s1 !! j = Some b' -> b_refcnt b' = 0).
Proof.
  intros Hq HL Hlen Hn. pose proof (q_cache s Hq) as Hs.
  destruct (bread_spec n s Hs (q_unlatched s Hq) Hn) as (i & b & s1 & E & Hs1 & R & D & W & Mi & Hd & H6 & C & Y & O & (b0 & Hb0 & Hr) & _).
  - intros i b Hb _. pose proof (q_idle s Hq i b Hb) as Hr. rewrite (bo_free _ _ (co_bufs s Hs i b Hb) Hr). split; [done|lia].
  - destruct (unused_many s L 1 Hq HL ltac:(lia)) as (ids & _ & Hl & Hu). destruct ids as [|i ids]; [done|].
    destruct (Hu i) as (b & Hb & Ub); [set_solver|]. exists i, b. auto.
  - exists i, b, s1. split_and!; try done.
    + rewrite Hr, (q_idle s Hq i b0 Hb0). by destruct (is_block 1 n b0).
    + intros j b' Hj Hb. rewrite O in Hb by done. by apply (q_idle s Hq j).
Qed.

Lemma one_brelse s i n b :
  cache_ok s -> unlatched s -> mine s i n b -> b_refcnt b = 1 -> (b_flags b = 2 -> b_data b = dblock (s_disk s) n) ->
  (forall j b', j <> i -> s_bufs s !! j = Some b' -> b_refcnt b' = 0) ->
  exists s', brelse i s = Ret tt s' /\ quiet s' /\ same_rest s s' /\ s_disk s' = s_disk s /\ s_writes s' = s_writes s /\
    (forall k, content s' k = content s k) /\ (forall k, dirty s' k <-> dirty s k).
Proof.
  intros Hs Hun Mi Hr Hcl Ho. destruct (brelse_spec i n b s Hs Hun Mi Hcl) as (s' & E & Hs' & R & D & W & B & C & Y).
  exists s'. split_and!; try done. split; [done|by eapply unlatched_same|]. intros j b' Hb. rewrite B in Hb.
  destruct Mi as (Hbi & _). apply lookup_lt_Some in Hbi. destruct (decide (j = i)) as [->|Hj].
  - rewrite list_lookup_insert_eq in Hb by done. injection Hb as <-. cbn. lia.
  - rewrite list_lookup_insert_ne in Hb by done. by apply (Ho j).
Qed.


Lemma write_head_loop_eq bp rest : forall pre post b s,
  s_bufs s !! bp = Some b -> lh_block (s_log s) = pre ++ rest ++ post ->
  write_head_loop bp (length rest) (Z.of_nat (length pre)) s =
  Ret tt (set_bufs (<[bp := set_b_data (put_blocks rest (Z.of_nat (length pre)) (b_data b)) b]> (s_bufs s)) s).
Proof.
  induction rest as [|h rest IH]; intros pre post b s Hb Hlh.
  - cbn. unfold ret. f_equal. rewrite list_insert_id; [by destruct s|]. by destruct b.
  - cbn [length write_head_loop]. step (get_lh_eq s pre h (rest ++ post) Hlh). apply lookup_lt_Some in Hb as Hlt.
    set (f := fun b => set_b_data (put32 (b_data b) (Z.to_nat (4 + 4 * Z.of_nat (length pre))) h) b).
    step (upd_buf_eq bp f b s Hb). set (s1 := set_bufs _ s).
    assert (Hb1 : s_bufs s1 !! bp = Some (f b)) by (cbn; by rewrite list_lookup_insert_eq).
    replace (Z.of_nat (length pre) + 1) with (Z.of_nat (length (pre ++ [h]))) by (rewrite length_app; cbn; lia).
    rewrite (IH (pre ++ [h]) post (f b) s1 Hb1) by (cbn; rewrite Hlh, <- app_assoc; done).
    replace (Z.of_nat (length (pre ++ [h]))) with (Z.of_nat (length pre) + 1) by (rewrite length_app; cbn; lia).
    unfold s1. cbn [s_bufs set_bufs]. by rewrite list_insert_insert_eq.
Qed.

(** What [write_head] writes, when the log is at [start] and the header lists [hs]. *)
Lemma write_head_spec start hs L s :
  at_log start [] hs s -> lh_n (s_log s) = Z.of_nat (length hs) ->
  (forall k, dirty s k -> k ∈ L) -> (length L < NBUF)%nat ->
  exists s', write_head s = Ret tt s' /\ wrote [(start, header hs (content s start))] s s' /\
    (forall k, dirty s' k <-> dirty s k /\ k <> start).
Proof.
  intros [Hq Hdev Hst [post Hlh] Hpos Hfit Hhomes] Hn HL HLn. cbn [length app] in *.
  assert (Hr : 0 <= start < Z.of_nat (length (s_disk s))) by lia.
  destruct (one_bread s L start Hq HL HLn Hr) as (i & b & s1 & E1 & Hs1 & R1 & D1 & W1 & M1 & Hr1 & Hd1 & H61 & C1 & Y1 & O1).
  set (b2 := set_b_data (header hs (b_data b)) b).
  destruct (upd_data_spec i start b (header hs (b_data b)) s1 Hs1 M1) as (_ & Hs2 & M2 & C2 & Y2).
  set (s2 := set_bufs _ s1) in *. assert (R2 : same_rest s1 s2) by done.
  assert (Hun1 : unlatched s1) by (eapply unlatched_same; [exact R1|apply Hq]).
  destruct (bwrite_spec i start b2 s2 Hs2 (unlatched_same _ _ R2 Hun1) M2) as (s3 & E3 & Hs3 & R3 & M3 & D3 & W3 & C3 & Y3 & O3).
  destruct (one_brelse s3 i start (set_b_flags 2 b2)) as (s4 & E4 & Q4 & R4 & D4 & W4 & C4 & Y4).
  - done.
  - eapply unlatched_same; [exact R3|]. by eapply unlatched_same.
  - done.
  - done.
  - intros _. rewrite D3. rewrite dblock_insert by (cbn; rewrite ?D1; lia). by rewrite Z.eqb_refl.
  - intros j b' Hj Hb. rewrite O3 in Hb by done. unfold s2 in Hb. cbn in Hb. rewrite list_lookup_insert_ne in Hb by done.
    by apply (O1 j).
  - exists s4. split.
    + unfold write_head. rewrite bind_gets, Hdev, Hst. change (u32 1) with 1. rewrite (u32_id start) by lia. step E1.
      pose proof M1 as (Hb1 & _). apply lookup_lt_Some in Hb1 as Hlt.
      set (f := fun b => set_b_data (put32 (b_data b) 0 (lh_n (s_log s))) b). step (upd_buf_eq i f b s1 Hb1).
      set (s1' := set_bufs _ s1).
      assert (Hb1' : s_bufs s1' !! i = Some (f b)) by (cbn; by rewrite list_lookup_insert_eq).
      rewrite Hn, Nat2Z.id. change 0 with (Z.of_nat (length (@nil Z))).
      rewrite (bind_ret _ _ _ _ _ (write_head_loop_eq i hs [] post (f b) s1' Hb1' ltac:(cbn; rewrite (sr_log _ _ R1); done))).
      assert (Es : set_bufs (<[i := set_b_data (put_blocks hs (Z.of_nat (length (@nil Z))) (b_data (f b))) (f b)]> (s_bufs s1')) s1' = s2).
      { unfold s1', s2. cbn. rewrite list_insert_insert_eq. unfold header, f. cbn. by rewrite Hn. }
      rewrite Es. step E3. exact E4.
    + split; [|intros k; by rewrite Y4, Y3, Y2, Y1]. split; [done| | | |].
      * eapply same_rest_trans; [exact R1|]. eapply same_rest_trans; [exact R2|]. by eapply same_rest_trans.
      * rewrite D4, D3. cbn. by rewrite D1, Hd1.
      * rewrite W4, W3. cbn. by rewrite W1, Hd1.
      * intros k Hk. rewrite C4, C3, C2, C1 by done. unfold after. cbn. unfold write_content. cbn. by rewrite Hd1.
Qed.

(** ** Reading the header *)

Lemma cache_ok_log l s : cache_ok s -> cache_ok (set_log l s).
Proof. by intros [[r []] ? ? ? ?]; split; try done; exists r. Qed.
Lemma quiet_log l s : quiet s -> quiet (set_log l s).
Proof. intros [Hs Hu Hi]. split; [by apply cache_ok_log|done|done]. Qed.
Lemma set_log_same l s s' : same_rest s s' -> same_rest (set_log l s) (set_log l s').
Proof. by intros []. Qed.

(** The block [d] is a header that lists [hs]. *)
Record is_header (d : list Z) (hs : list Z) : Prop := {
  ih_n : hdr_n d = Z.of_nat (length hs);
  ih_block : forall j h, hs !! j = Some h -> hdr_block d (Z.of_nat j) = h
}.

Lemma read_head_loop_eq d rest : forall pre post l s,
  s_log s = l -> lh_block l = pre ++ post -> (length rest <= length post)%nat ->
  (forall j h, rest !! j = Some h -> hdr_block d (Z.of_nat (length pre + j)) = h) ->
  read_head_loop d (length rest) (Z.of_nat (length pre)) s =
  Ret tt (set_log (set_lh (lh_n l) (pre ++ rest ++ drop (length rest) post) l) s).
Proof.
  induction rest as [|h rest IH]; intros pre post l s Hl Hlh Hlen Hd.
  - cbn. unfold ret. f_equal. rewrite drop_0. destruct s, l; cbn in *. by subst.
  - destruct post as [|x post]; [cbn in Hlen; lia|]. cbn [length read_head_loop].
    assert (Hh : hdr_block d (Z.of_nat (length pre)) = h) by (rewrite <- (Hd 0%nat h eq_refl); f_equal; lia).
    rewrite Hh. unfold put_lh. rewrite bind_assoc. subst l. step (get_lh_eq s pre x post Hlh). unfold upd_log. rewrite bind_modify.
    rewrite Hlh, Nat2Z.id. rewrite insert_app_r_alt, Nat.sub_diag by lia. cbn [insert list_insert].
    replace (Z.of_nat (length pre) + 1) with (Z.of_nat (length (pre ++ [h]))) by (rewrite length_app; cbn; lia).
    erewrite (IH (pre ++ [h]) post); [|reflexivity|cbn; by rewrite <- app_assoc|cbn in Hlen; lia|].
    + cbn. unfold set_log. cbn. by rewrite <- app_assoc.
    + intros j k Hj. rewrite <- (Hd (S j) k Hj). f_equal. rewrite length_app. cbn. lia.
Qed.

Lemma read_head_spec start hs L s :
  quiet s -> l_dev (s_log s) = 1 -> l_start (s_log s) = start -> 0 <= start < Z.of_nat (length (s_disk s)) ->
  Z.of_nat (length (s_disk s)) < 2 ^ 31 ->
  (forall k, dirty s k -> k ∈ L) -> (length L < NBUF)%nat -> ~ dirty s start ->
  is_header (content s start) hs -> (length hs <= length (lh_block (s_log s)))%nat ->
  let l := set_lh (Z.of_nat (length hs)) (hs ++ drop (length hs) (lh_block (s_log s))) (s_log s) in
  exists s', read_head s = Ret tt s' /\ quiet s' /\ same_rest (set_log l s) s' /\ s_disk s' = s_disk s /\
    s_writes s' = s_writes s /\ (forall k, content s' k = content s k) /\ (forall k, dirty s' k <-> dirty s k).
Proof.
  intros Hq Hdev Hst Hr Hsz HL HLn Hcl [Hhn Hhb] Hlen l.
  destruct (one_bread s L start Hq HL HLn Hr) as (i & b & s1 & E1 & Hs1 & R1 & D1 & W1 & M1 & Hr1 & Hd1 & H61 & C1 & Y1 & O1).
  destruct (one_brelse (set_log l s1) i start b) as (s2 & E2 & Q2 & R2 & D2 & W2 & C2 & Y2).
  - by apply cache_ok_log.
  - apply (unlatched_same s s1 R1), Hq.
  - done.
  - done.
  - intros _. rewrite Hd1. cbn. rewrite D1. by apply quiet_clean.
  - done.
  - exists s2. split.
    + unfold read_head. rewrite bind_gets, Hdev, Hst. change (u32 1) with 1. rewrite (u32_id start) by lia. step E1.
      step (get_buf_eq i b s1 (proj1 M1)). unfold upd_log. rewrite bind_modify. rewrite Hd1, Hhn, Nat2Z.id.
      set (s1' := set_log _ s1).
      assert (El : read_head_loop (content s start) (length hs) 0 s1' = Ret tt (set_log l s1)).
      { change 0 with (Z.of_nat (length (@nil Z))).
        rewrite (read_head_loop_eq (content s start) hs [] (lh_block (s_log s)) (s_log s1') s1' eq_refl); [|..|done].
        - cbn. unfold l, set_log. cbn. by rewrite (sr_log _ _ R1).
        - cbn. by rewrite (sr_log _ _ R1).
        - done. }
      step El. exact E2.
    + split; [done|]. split; [eapply same_rest_trans; [by apply set_log_same|done]|].
      split; [by rewrite D2|]. split; [by rewrite W2|]. split; intros k; [rewrite C2; apply C1|rewrite Y2; apply Y1].
Qed.
