(* ===== verification/LogProps.v ===== *)
(** * What the log guarantees

    The writes that a commit and a recovery make, in order; a crash keeps a prefix of
    them.  Recovery from any such prefix finds either none or all of the blocks of the
    transaction. *)

From S2P Require Import Prelude Mmu Blk FsState Bio BioSpec Log LogSpec.

(** ** Contents after a sequence of writes *)

Definition targets (ws : list (Z * list Z)) : list Z := fst <$> ws.

Lemma after_app c ws ws' k : after c (ws ++ ws') k = after (after c ws) ws' k.
Proof. unfold after. by rewrite foldl_app. Qed.

Lemma after_notin c ws k : k ∉ targets ws -> after c ws k = c k.
Proof.
  revert c. induction ws as [|[n v] ws IH]; intros c Hk; [done|]. apply not_elem_of_cons in Hk as [Hn Hk]. cbn.
  change (after (write_content c (n, v)) ws k = c k). rewrite IH by done. unfold write_content. cbn in *.
  by rewrite (proj2 (Z.eqb_neq k n)).
Qed.

Lemma after_in c ws k v : NoDup (targets ws) -> (k, v) ∈ ws -> after c ws k = v.
Proof.
  revert c. induction ws as [|[n w] ws IH]; intros c Hd Hk; [by apply elem_of_nil in Hk|].
  apply NoDup_cons in Hd as [Hn Hd]. change (after (write_content c (n, w)) ws k = v).
  apply elem_of_cons in Hk as [[= -> ->]|Hk]; [|by apply IH].
  rewrite after_notin by done. unfold write_content. cbn. by rewrite Z.eqb_refl.
Qed.

Lemma dblock_apply D ws k :
  Forall (fun w => 0 <= fst w < Z.of_nat (length D)) ws -> 0 <= k ->
  dblock (apply_writes D ws) k = after (dblock D) ws k.
Proof.
  revert D. induction ws as [|w ws IH]; intros D Hr Hk; [done|]. apply Forall_cons in Hr as [Hw Hr].
  change (dblock (apply_writes (write_block D w) ws) k = after (write_content (dblock D) w) ws k).
  rewrite IH; [|by unfold write_block; rewrite length_insert|done]. apply after_ext.
  unfold write_block, write_content. by apply dblock_insert.
Qed.

Lemma targets_log c a hs : targets (log_writes c a hs) = seqZ a (Z.of_nat (length hs)).
Proof.
  revert a. induction hs as [|h hs IH]; intros a; [done|]. cbn [log_writes targets fmap list_fmap fst].
  change (a :: targets (log_writes c (a + 1) hs) = seqZ a (Z.of_nat (length (h :: hs)))). rewrite IH, length_cons, (seqZ_cons a) by lia.
  f_equal. f_equal; lia.
Qed.
Lemma targets_home c a hs : targets (home_writes c a hs) = hs.
Proof. revert a. induction hs as [|h hs IH]; intros a; [done|]. cbn. f_equal. apply IH. Qed.

Lemma log_writes_lookup c a hs j h : hs !! j = Some h -> (a + Z.of_nat j, c h) ∈ log_writes c a hs.
Proof.
  revert a j. induction hs as [|x hs IH]; intros a j Hj; [done|]. destruct j as [|j]; cbn [log_writes].
  - injection Hj as ->. replace (a + Z.of_nat 0) with a by lia. left.
  - right. replace (a + Z.of_nat (S j)) with ((a + 1) + Z.of_nat j) by lia. by apply IH.
Qed.

Lemma home_writes_lookup c a hs j h : hs !! j = Some h -> (h, c (a + Z.of_nat j)) ∈ home_writes c a hs.
Proof.
  revert a j. induction hs as [|x hs IH]; intros a j Hj; [done|]. destruct j as [|j]; cbn [home_writes].
  - injection Hj as ->. replace (a + Z.of_nat 0) with a by lia. left.
  - right. replace (a + Z.of_nat (S j)) with ((a + 1) + Z.of_nat j) by lia. by apply IH.
Qed.

(** Copying the log blocks home, when they hold the contents of the home blocks. *)
Lemma home_writes_eq c c' a hs :
  (forall j h, hs !! j = Some h -> c (a + Z.of_nat j) = c' h) -> home_writes c a hs = (fun h => (h, c' h)) <$> hs.
Proof.
  revert a. induction hs as [|h hs IH]; intros a Hc; [done|]. cbn [home_writes fmap list_fmap]. f_equal.
  - f_equal. rewrite <- (Hc 0%nat h eq_refl). f_equal. lia.
  - apply IH. intros j k Hj. rewrite <- (Hc (S j) k Hj). f_equal. lia.
Qed.

(** ** A transaction *)

(** Between the last [log_write] and [commit]: the header lists the dirty blocks [hs]. *)
Record transaction (start : Z) (hs : list Z) (s : fs) : Prop := {
  tr_log : at_log start [] hs s;
  tr_n : lh_n (s_log s) = Z.of_nat (length hs);
  tr_nodup : NoDup hs;
  tr_small : (length hs < NBUF)%nat;
  tr_dirty : forall k, dirty s k <-> k ∈ hs;
  tr_size : length (content s start) = BSIZE
}.

Definition commit_writes (c : Z -> list Z) (start : Z) (hs : list Z) : list (Z * list Z) :=
  log_writes c (start + 1) hs ++ [(start, header hs (c start))] ++ ((fun h => (h, c h)) <$> hs) ++
  [(start, header [] (header hs (c start)))].

Lemma at_log_start start hs ws s s' : at_log start [] hs s -> wrote ws s s' -> at_log start [] hs s'.
Proof.
  intros [Q D S0 Hl P Fi Ho] Wr. split; [apply Wr|..]; rewrite ?(sr_log _ _ (wr_rest _ _ _ Wr)), ?(wrote_length _ _ _ Wr); done.
Qed.

Lemma at_log_cleared start hs s :
  at_log start [] hs s -> at_log start [] [] (set_log (set_lh 0 (lh_block (s_log s)) (s_log s)) s).
Proof.
  intros [Q D S0 Hl P Fi Ho]. split; [by apply quiet_log|done|done| |done| |].
  - by exists (lh_block (s_log s)).
  - cbn in *. lia.
  - intros h []%elem_of_nil.
Qed.

Lemma wrote_log ws l s s' : wrote ws s s' -> wrote ws (set_log l s) (set_log l s').
Proof. intros [Q R D W C]. split; [by apply quiet_log|by apply set_log_same|done|done|done]. Qed.

(** The first half of [commit], up to the write of the header, which is the commit point. *)
Lemma commit_log start hs s :
  transaction start hs s ->
  exists s1 s2, write_log_loop (length hs) 0 s = Ret tt s1 /\ write_head s1 = Ret tt s2 /\
    s_log s1 = s_log s /\
    wrote (log_writes (content s) (start + 1) hs ++ [(start, header hs (content s start))]) s s2 /\
    (forall k, dirty s2 k <-> k ∈ hs) /\
    (forall j h, hs !! j = Some h -> content s2 (start + 1 + Z.of_nat j) = content s h).
Proof.
  intros [Hat Hn Hnd Hsm Hdi Hsz]. pose proof Hat as [Hq Hdev Hst Hlh Hpos Hfit Hhomes]. cbn [length] in *.
  assert (Hnot : forall k, start <= k <= start + Z.of_nat (length hs) -> k ∉ hs) by (intros k Hk Hin; destruct (Hhomes k Hin); lia).
  destruct (write_log_loop_spec start hs [] hs s Hat) as (s1 & E1 & Wr1 & Y1);
    [intros h; apply Hdi|intros k Hk Hd; apply (Hnot k); [cbn in Hk; lia|by apply Hdi]|intros k; apply Hdi|done|].
  cbn [length] in *. replace (start + Z.of_nat 0 + 1) with (start + 1) in * by lia.
  destruct (write_head_spec start hs hs s1 (at_log_start _ _ _ _ _ Hat Wr1)) as (s2 & E2 & Wr2 & Y2);
    [by rewrite (sr_log _ _ (wr_rest _ _ _ Wr1))|intros k Hk; by apply Hdi, Y1|done|].
  rewrite (wr_content _ _ _ Wr1 start Hpos), after_notin in Wr2 by (rewrite targets_log, elem_of_seqZ; lia).
  exists s1, s2. split; [done|]. split; [done|]. split; [apply (sr_log _ _ (wr_rest _ _ _ Wr1))|].
  split; [exact (wrote_app _ _ _ _ _ Wr1 Wr2)|]. split.
  - intros k. rewrite Y2, Y1, Hdi. split; [by intros []|]. intros Hk. split; [done|]. intros ->. apply (Hnot start); [lia|done].
  - intros j h Hj. apply lookup_lt_Some in Hj as Hjl. rewrite (wr_content _ _ _ Wr2), after_notin by (try (cbn; set_solver by lia); lia).
    rewrite (wr_content _ _ _ Wr1) by lia. apply after_in; [rewrite targets_log; apply NoDup_seqZ|by apply log_writes_lookup].
Qed.

(** The commit, as the writes it makes and the state it leaves. *)
Lemma commit_spec start hs s :
  transaction start hs s -> hs <> [] ->
  exists s', commit s = Ret tt s' /\ (forall k, ~ dirty s' k) /\
    wrote (commit_writes (content s) start hs) (set_log (set_lh 0 (lh_block (s_log s)) (s_log s)) s) s'.
Proof.
  intros Htr Hne. destruct (commit_log start hs s Htr) as (s1 & s2 & E1 & E2 & El1 & Wr2 & Hd2 & C2).
  destruct Htr as [Hat Hn Hnd Hsm Hdi Hsz]. pose proof Hat as [Hq Hdev Hst Hlh Hpos Hfit Hhomes]. cbn [length] in *.
  pose proof (at_log_start _ _ _ _ _ Hat Wr2) as Hat2.
  destruct (install_loop_spec start hs [] hs s2 Hat2 Hnd) as (s3 & E3 & Wr3 & Y3);
    [intros k; apply Hd2|right; split; [done|intros h; apply Hd2]|].
  cbn [length] in *. replace (start + Z.of_nat 0 + 1) with (start + 1) in * by lia.
  rewrite (home_writes_eq (content s2) (content s) (start + 1) hs C2) in Wr3. pose proof (wrote_app _ _ _ _ _ Wr2 Wr3) as Wr.
  pose proof (wr_rest _ _ _ Wr) as R. set (l0 := set_lh 0 (lh_block (s_log s)) (s_log s)).
  assert (Hat3 : at_log start [] [] (set_log l0 s3)).
  { replace l0 with (set_lh 0 (lh_block (s_log s3)) (s_log s3)) by (by rewrite (sr_log _ _ R)).
    by eapply at_log_cleared, at_log_start. }
  assert (Hclean : forall k, ~ dirty s3 k) by (intros k; rewrite Y3, Hd2; tauto).
  destruct (write_head_spec start [] [] (set_log l0 s3) Hat3) as (s4 & E4 & Wr4 & Y4);
    [done|intros k Hk; by destruct (Hclean k)|by apply Nat.ltb_lt|].
  assert (Cst : content (set_log l0 s3) start = header hs (content s start)).
  { change (content s3 start = header hs (content s start)). rewrite (wr_content _ _ _ Wr) by done.
    rewrite after_app, after_notin; [rewrite after_app; apply after_in; [apply NoDup_singleton|left]|].
    unfold targets. rewrite <- list_fmap_compose, list_fmap_id. intros Hin. destruct (Hhomes start Hin). lia. }
  rewrite Cst in Wr4. exists s4. split; [|split].
  - unfold commit. rewrite bind_gets, Hn. assert (0 < Z.of_nat (length hs)) by (destruct hs; cbn; [done|lia]).
    rewrite (proj2 (Z.ltb_lt _ _)) by done. unfold write_log. rewrite bind_assoc, bind_gets, Hn, Nat2Z.id. step E1. step E2.
    unfold install_trans. rewrite bind_assoc, bind_gets, (sr_log _ _ (wr_rest _ _ _ Wr2)), Hn, Nat2Z.id. step E3.
    unfold clear_lh, upd_log. rewrite bind_modify, (sr_log _ _ R). exact E4.
  - intros k [Hk _]%Y4. by apply (Hclean k).
  - unfold commit_writes. rewrite !app_assoc.
    apply (wrote_app _ _ _ (set_log l0 s3)); [by apply wrote_log|done].
Qed.

(** ** Recovery *)

(** A machine that has just started, with nothing but the disk: [initlog] has read the
    super block. *)
Record booted (start : Z) (s : fs) : Prop := {
  bt_quiet : quiet s;
  bt_clean : forall k, ~ dirty s k;
  bt_dev : l_dev (s_log s) = 1;
  bt_start : l_start (s_log s) = start;
  bt_lh : length (lh_block (s_log s)) = Z.to_nat LOGSIZE;
  bt_pos : 0 <= start;
  bt_fits : start + LOGSIZE <= Z.of_nat (length (s_disk s)) < 2 ^ 31
}.

(** A list of home blocks for a log at [start] of a disk of [size] blocks.  The log has
    [LOGSIZE] blocks (nlog in mkfs.c), the first of them the header, so that it has room
    for [LOGSIZE - 1] blocks: [log_write] accepts no more. *)
Record homes_ok (start size : Z) (hs : list Z) : Prop := {
  ho_nodup : NoDup hs;
  ho_len : Z.of_nat (length hs) < LOGSIZE;
  ho_range : forall h, h ∈ hs -> 0 <= h < size /\ (h < start \/ start + Z.of_nat (length hs) < h)
}.

Lemma ho_le start size hs : homes_ok start size hs -> Z.of_nat (length hs) <= LOGSIZE.
Proof. intros H. pose proof (ho_len _ _ _ H). lia. Qed.

Definition recover_writes (c : Z -> list Z) (start : Z) (hs : list Z) : list (Z * list Z) :=
  home_writes c (start + 1) hs ++ [(start, header [] (c start))].

Lemma recover_spec start hs s :
  booted start s -> is_header (dblock (s_disk s) start) hs -> homes_ok start (Z.of_nat (length (s_disk s))) hs ->
  exists s' l, recover_from_log s = Ret tt s' /\
    wrote (recover_writes (dblock (s_disk s)) start hs) (set_log l s) s' /\ forall k, ~ dirty s' k.
Proof.
  intros [Hq Hcl Hdev Hst Hlh Hpos Hfit] Hhd [Hnd Hlen Hho].
  assert (Hc : forall k, content s k = dblock (s_disk s) k) by (intros k; by apply quiet_clean).
  destruct (read_head_spec start hs [] s) as (s1 & E1 & Q1 & R1 & D1 & W1 & C1 & Y1); try done.
  - unfold LOGSIZE in *. lia.
  - lia.
  - intros k Hk. by destruct (Hcl k).
  - by apply Nat.ltb_lt.
  - by rewrite Hc.
  - rewrite Hlh. lia.
  - set (l1 := set_lh _ _ _) in *. assert (Wr1 : wrote [] (set_log l1 s) s1).
    { split; [done|done|done|by rewrite app_nil_r|]. intros k _. apply C1. }
    assert (Hat1 : at_log start [] hs s1).
    { split; [done| | | |done| |].
      - by rewrite (sr_log _ _ R1).
      - by rewrite (sr_log _ _ R1).
      - rewrite (sr_log _ _ R1). by eexists.
      - rewrite D1. unfold LOGSIZE in *. cbn. lia.
      - intros h Hh. rewrite D1. destruct (Hho h Hh). split; [done|cbn; lia]. }
    destruct (install_loop_spec start hs [] [] s1 Hat1 Hnd) as (s2 & E2 & Wr2 & Y2);
      [intros k Hk%Y1; by destruct (Hcl k)|left; by apply Nat.leb_le|].
    cbn [length] in *. replace (start + Z.of_nat 0 + 1) with (start + 1) in * by lia.
    rewrite (home_writes_ext (content s1) (dblock (s_disk s))) in Wr2 by (intros k _; by rewrite C1).
    pose proof (wrote_app _ _ _ _ _ Wr1 Wr2) as Wr. cbn [app] in Wr. pose proof (wr_rest _ _ _ Wr) as R.
    set (l0 := set_lh 0 (lh_block (s_log s2)) (s_log s2)).
    assert (Hcl2 : forall k, ~ dirty s2 k) by (intros k [Hk%Y1 _]%Y2; by apply (Hcl k)).
    destruct (write_head_spec start [] [] (set_log l0 s2)) as (s3 & E3 & Wr3 & Y3);
      [by eapply at_log_cleared, at_log_start|done|intros k Hk; by destruct (Hcl2 k)|by apply Nat.ltb_lt|].
    assert (Cst : content (set_log l0 s2) start = dblock (s_disk s) start).
    { change (content s2 start = dblock (s_disk s) start). rewrite (wr_content _ _ _ Wr), after_notin; [apply Hc| |done].
      rewrite targets_home. intros Hin. destruct (Hho start Hin). lia. }
    rewrite Cst in Wr3. exists s3, l0. split; [|split].
    + unfold recover_from_log. step E1. unfold install_trans. rewrite bind_assoc, bind_gets, (sr_log _ _ R1).
      change (lh_n (s_log (set_log l1 s))) with (Z.of_nat (length hs)). rewrite Nat2Z.id. step E2. unfold clear_lh, upd_log. rewrite bind_modify. exact E3.
    + apply (wrote_app _ _ _ (set_log l0 s2)); [|done]. by apply (wrote_log _ l0) in Wr.
    + intros k [Hk _]%Y3. by apply (Hcl2 k).
Qed.

(** ** Crashes *)

Lemma is_header_header hs d :
  length d = BSIZE -> Z.of_nat (length hs) <= LOGSIZE -> (forall h, h ∈ hs -> 0 <= h < 2 ^ 31) -> is_header (header hs d) hs.
Proof.
  intros Hd Hl Hh. unfold LOGSIZE, MAXOPBLOCKS, BSIZE in *. split; [apply header_n; lia|].
  intros j h Hj. apply header_block; [lia|done|]. apply Hh. by eapply list_elem_of_lookup_2.
Qed.
Lemma length_header_block hs d : length d = BSIZE -> Z.of_nat (length hs) <= LOGSIZE -> length (header hs d) = BSIZE.
Proof. intros Hd Hl. unfold LOGSIZE, MAXOPBLOCKS, BSIZE in *. rewrite length_header; lia. Qed.

Section Crash.
Context (start size : Z) (hs : list Z) (c0 c : Z -> list Z).
Hypothesis Hpos : 0 <= start.
Hypothesis Hsize : size < 2 ^ 31.
Hypothesis Hho : homes_ok start size hs.
(** The contents to be committed, [c], differ from the disk, [c0], on [hs] only, and the log is empty. *)
Hypothesis Hc : forall m, 0 <= m -> m ∉ hs -> c m = c0 m.
Hypothesis Hempty : is_header (c0 start) [].
Hypothesis Hlen : length (c start) = BSIZE.

(** Blocks outside the log, which has the [LOGSIZE] blocks from [start] on: in an image of
    mkfs.c blocks 2 to 31, the inodes begin in block 32. *)
Definition outside (m : Z) : Prop := 0 <= m /\ (m < start \/ start + LOGSIZE <= m).

Let LW := log_writes c (start + 1) hs.
Let HW := [(start, header hs (c start))].
Let IW := (fun h => (h, c h)) <$> hs.
Let EW := [(start, header [] (header hs (c start)))].

Lemma targets_IW : targets IW = hs.
Proof using All. unfold IW, targets. by rewrite <- list_fmap_compose, list_fmap_id. Qed.
Lemma start_not_home : start ∉ hs.
Proof using All. intros Hin. destruct (ho_range _ _ _ Hho start Hin). lia. Qed.
Lemma outside_log m : outside m -> m ∉ targets LW /\ m <> start.
Proof using All.
  intros [Hm Ho]. pose proof (ho_len _ _ _ Hho). unfold LW. rewrite targets_log, elem_of_seqZ. lia.
Qed.

(** Before the header is written. *)
Lemma crash_before k :
  (k <= length hs)%nat ->
  let c' := after c0 (take k LW) in
  is_header (c' start) [] /\ forall m, outside m -> after c' (recover_writes c' start []) m = c0 m.
Proof using All.
  intros Hk c'. assert (Hsub : forall m, m ∈ targets (take k LW) -> m ∈ targets LW).
  { intros m (w & -> & Hw)%list_elem_of_fmap. apply list_elem_of_fmap. exists w. split; [done|]. by eapply subseteq_take. }
  split.
  - unfold c'. rewrite after_notin; [done|]. intros Hin%Hsub. unfold LW in Hin. rewrite targets_log, elem_of_seqZ in Hin. lia.
  - intros m Hm. destruct (outside_log m Hm) as [H1 H2]. unfold recover_writes. cbn [home_writes app].
    rewrite after_notin by (cbn; set_solver). unfold c'. apply after_notin. intros Hin%Hsub. done.
Qed.

(** After it. *)
Lemma crash_after j :
  let c' := after c0 (LW ++ HW ++ take j IW) in
  is_header (c' start) hs /\ forall m, outside m -> after c' (recover_writes c' start hs) m = c m.
Proof using All.
  intros c'. assert (Hsub : forall m, m ∈ targets (take j IW) -> m ∈ hs).
  { intros m (w & -> & Hw)%list_elem_of_fmap. apply (subseteq_take j) in Hw. rewrite <- targets_IW. by apply list_elem_of_fmap_2. }
  assert (Hst : c' start = header hs (c start)).
  { unfold c'. rewrite !after_app, after_notin; [apply after_in; [apply NoDup_singleton|left]|].
    intros Hin%Hsub. by apply start_not_home. }
  assert (Hlog : forall i h, hs !! i = Some h -> c' (start + 1 + Z.of_nat i) = c h).
  { intros i h Hi. apply lookup_lt_Some in Hi as Hil. unfold c'. rewrite !after_app, after_notin, after_notin.
    - apply after_in; [unfold LW; rewrite targets_log; apply NoDup_seqZ|by apply log_writes_lookup].
    - cbn. set_solver by lia.
    - intros Hin%Hsub. destruct (ho_range _ _ _ Hho _ Hin). lia. }
  split.
  - rewrite Hst. apply is_header_header; [done|by eapply ho_le|]. intros h Hh. destruct (ho_range _ _ _ Hho h Hh). lia.
  - intros m Hm. destruct (outside_log m Hm) as [H1 H2]. unfold recover_writes. rewrite after_app, after_notin by (cbn; set_solver).
    rewrite (home_writes_eq c' c (start + 1) hs Hlog). fold IW. destruct (decide (m ∈ hs)) as [Hin|Hn].
    + apply after_in; [rewrite targets_IW; apply Hho|]. by apply (list_elem_of_fmap_2 (fun h => (h, c h))).
    + rewrite after_notin by (by rewrite targets_IW). unfold c'. rewrite !after_app, after_notin by (intros Hin%Hsub; done).
      rewrite after_notin by (cbn; set_solver). rewrite after_notin by done. symmetry. apply Hc; [apply Hm|done].
Qed.

(** When all is written. *)
Lemma crash_end :
  let c' := after c0 (LW ++ HW ++ IW ++ EW) in
  is_header (c' start) [] /\ forall m, outside m -> after c' (recover_writes c' start []) m = c m.
Proof using All.
  intros c'. split.
  - unfold c'. rewrite !after_app. rewrite (after_in _ EW start (header [] (header hs (c start)))); [|apply NoDup_singleton|left].
    apply is_header_header; [apply length_header_block; [done|by eapply ho_le]|done|]. intros h []%elem_of_nil.
  - intros m Hm. destruct (outside_log m Hm) as [H1 H2]. unfold recover_writes. cbn [home_writes app].
    rewrite after_notin by (cbn; set_solver). unfold c'. rewrite !after_app, (after_notin _ EW) by (cbn; set_solver).
    destruct (decide (m ∈ hs)) as [Hin|Hn].
    + apply after_in; [rewrite targets_IW; apply Hho|]. by apply (list_elem_of_fmap_2 (fun h => (h, c h))).
    + rewrite after_notin by (by rewrite targets_IW). rewrite after_notin by (cbn; set_solver). rewrite after_notin by done.
      symmetry. apply Hc; [apply Hm|done].
Qed.

Lemma crash_cases k :
  let c' := after c0 (take k (commit_writes c start hs)) in
  exists hs', is_header (c' start) hs' /\ (hs' = [] \/ hs' = hs) /\
    forall m, outside m -> after c' (recover_writes c' start hs') m = if (k <=? length hs)%nat then c0 m else c m.
Proof using All.
  intros c'. assert (HlLW : length LW = length hs).
  { rewrite <- (length_fmap fst). change (length (targets LW) = length hs). unfold LW. rewrite targets_log, length_seqZ. lia. }
  assert (HlIW : length IW = length hs) by (unfold IW; by rewrite length_fmap).
  unfold c'. change (commit_writes c start hs) with (LW ++ HW ++ IW ++ EW). destruct (Nat.leb_spec k (length hs)) as [Hk|Hk].
  - exists []. rewrite take_app_le by lia. destruct (crash_before k Hk) as [H1 H2]. auto.
  - rewrite take_app_ge by lia. rewrite HlLW. destruct (k - length hs)%nat as [|j] eqn:Ej; [lia|].
    change (take (S j) (HW ++ IW ++ EW)) with (HW ++ take j (IW ++ EW)).
    destruct (decide (j <= length hs)%nat) as [Hj|Hj].
    + exists hs. rewrite take_app_le by lia. destruct (crash_after j) as [H1 H2]. auto.
    + exists []. rewrite (take_ge (IW ++ EW)) by (rewrite length_app; cbn; lia). destruct crash_end as [H1 H2]. auto.
Qed.
End Crash.

Lemma commit_writes_range c start size hs :
  homes_ok start size hs -> 0 <= start -> start + LOGSIZE <= size ->
  Forall (fun w => 0 <= fst w < size) (commit_writes c start hs).
Proof.
  intros Ho Hpos Hfit. pose proof (ho_len _ _ _ Ho). assert (0 < LOGSIZE) by done.
  unfold commit_writes. rewrite !Forall_app. split_and!.
  - apply Forall_forall. intros w Hw%(list_elem_of_fmap_2 fst). change (fst w ∈ targets (log_writes c (start + 1) hs)) in Hw.
    rewrite targets_log, elem_of_seqZ in Hw. lia.
  - repeat constructor; cbn; lia.
  - apply Forall_fmap, Forall_forall. intros h Hh. cbn. by destruct (ho_range _ _ _ Ho h Hh).
  - repeat constructor; cbn; lia.
Qed.

Lemma recover_writes_range c start size hs :
  homes_ok start size hs -> 0 <= start -> start + LOGSIZE <= size ->
  Forall (fun w => 0 <= fst w < size) (recover_writes c start hs).
Proof.
  intros Ho Hpos Hfit. assert (0 < LOGSIZE) by done. unfold recover_writes. rewrite Forall_app. split.
  - apply Forall_forall. intros w Hw%(list_elem_of_fmap_2 fst). change (fst w ∈ targets (home_writes c (start + 1) hs)) in Hw.
    rewrite targets_home in Hw. by destruct (ho_range _ _ _ Ho _ Hw).
  - repeat constructor; cbn; lia.
Qed.

Lemma recover_writes_ext c c' start hs :
  0 <= start -> (forall k, 0 <= k -> c k = c' k) -> recover_writes c start hs = recover_writes c' start hs.
Proof.
  intros Hs Hc. unfold recover_writes. rewrite (home_writes_ext c c') by (intros k Hk; apply Hc; lia). by rewrite Hc.
Qed.

Lemma homes_nil start size : homes_ok start size [].
Proof. split; [constructor|done|intros h []%elem_of_nil]. Qed.

(** What recovery leaves on the disk. *)
Lemma recovered start hs s :
  booted start s -> is_header (dblock (s_disk s) start) hs -> homes_ok start (Z.of_nat (length (s_disk s))) hs ->
  exists s', recover_from_log s = Ret tt s' /\ s_writes s' = s_writes s ++ recover_writes (dblock (s_disk s)) start hs /\
    forall m, 0 <= m -> dblock (s_disk s') m = after (dblock (s_disk s)) (recover_writes (dblock (s_disk s)) start hs) m.
Proof.
  intros Hb Hh Ho. destruct (recover_spec start hs s Hb Hh Ho) as (s' & l & E & Wr & _). exists s'. split; [done|].
  split; [apply (wr_writes _ _ _ Wr)|]. intros m Hm. rewrite (wr_disk _ _ _ Wr). apply dblock_apply; [|done].
  apply recover_writes_range; [done|apply Hb|apply Hb].
Qed.

Lemma transaction_homes start hs s :
  transaction start hs s -> (forall h, h ∈ hs -> h < start \/ start + LOGSIZE <= h) ->
  homes_ok start (Z.of_nat (length (s_disk s))) hs.
Proof.
  intros [Hat Hn Hnd Hsm Hdi Hsz] Hout. split; [done|unfold NBUF, LOGSIZE, MAXOPBLOCKS in *; lia|].
  intros h Hh. destruct (al_homes _ _ _ _ Hat h Hh). cbn in *. split; [done|lia].
Qed.

(** The disk after a commit that nothing interrupted. *)
Lemma commit_on_disk start hs s :
  transaction start hs s -> hs <> [] -> start + LOGSIZE <= Z.of_nat (length (s_disk s)) ->
  (forall h, h ∈ hs -> h < start \/ start + LOGSIZE <= h) -> is_header (dblock (s_disk s) start) [] ->
  exists s', commit s = Ret tt s' /\ (forall k, ~ dirty s' k) /\
    (forall m, outside start m -> dblock (s_disk s') m = content s m) /\
    same_rest (set_log (set_lh 0 (lh_block (s_log s)) (s_log s)) s) s'.
Proof.
  intros Htr Hne Hfit Hout Hhd. destruct (commit_spec start hs s Htr Hne) as (s' & E & Hcl & Wr).
  pose proof (transaction_homes start hs s Htr Hout) as Ho. destruct Htr as [Hat Hn Hnd Hsm Hdi Hsz].
  exists s'. split; [done|]. split; [done|]. split; [|apply Wr]. intros m Hm.
  rewrite (wr_disk _ _ _ Wr), dblock_apply; [|apply commit_writes_range; [done|apply Hat|done]|apply Hm].
  change (s_disk (set_log _ s)) with (s_disk s).
  destruct (crash_end start (Z.of_nat (length (s_disk s))) hs (dblock (s_disk s)) (content s)) as [_ H2]; try done;
    [apply Hat|apply Hat|intros k _ Hk; apply quiet_clean; [apply Hat|by rewrite Hdi]|].
  rewrite <- (H2 m Hm). unfold recover_writes. cbn [home_writes app]. rewrite (after_notin _ [_]); [done|].
  cbn. destruct Hm. assert (0 < LOGSIZE) by done. set_solver by lia.
Qed.


(** What recovery does: each logged block is copied home, and the log is emptied. *)
Lemma recover_result c start size hs :
  0 <= start -> homes_ok start size hs -> length (c start) = BSIZE ->
  let c' := after c (recover_writes c start hs) in
  is_header (c' start) [] /\ (forall i h, hs !! i = Some h -> c' h = c (start + 1 + Z.of_nat i)) /\
  forall m, outside start m -> m ∉ hs -> c' m = c m.
Proof.
  intros Hpos Ho Hlen c'. assert (0 < LOGSIZE) by done.
  assert (Hst : start ∉ hs) by (intros Hin; destruct (ho_range _ _ _ Ho start Hin); lia).
  unfold c', recover_writes. split_and!; [|intros i h Hi|intros m [Hm Hr] Hn]; rewrite after_app.
  - rewrite (after_in _ [_] start (header [] (c start))); [|apply NoDup_singleton|left].
    apply is_header_header; [done|done|]. intros h []%elem_of_nil.
  - rewrite (after_notin _ [_]).
    + apply after_in; [rewrite targets_home; apply Ho|by apply home_writes_lookup].
    + cbn. intros ->%list_elem_of_singleton. by apply Hst, (list_elem_of_lookup_2 _ i).
  - rewrite !after_notin; [done|by rewrite targets_home|]. cbn. set_solver by lia.
Qed.

(** Recovery that is itself interrupted. *)
Lemma recover_prefix c start size hs j :
  0 <= start -> size < 2 ^ 31 -> homes_ok start size hs -> is_header (c start) hs -> length (c start) = BSIZE ->
  let c' := after c (take j (recover_writes c start hs)) in
  exists hs', is_header (c' start) hs' /\ homes_ok start size hs' /\
    forall m, outside start m -> after c' (recover_writes c' start hs') m = after c (recover_writes c start hs) m.
Proof.
  intros Hpos Hsz Ho Hhd Hlen c'. assert (Hst : start ∉ hs) by (intros Hin; destruct (ho_range _ _ _ Ho start Hin); lia).
  assert (Hnst : forall m, outside start m -> m <> start) by (intros m [Hm Hr]; assert (0 < LOGSIZE) by done; lia).
  set (HW := home_writes c (start + 1) hs). assert (HlH : length HW = length hs).
  { rewrite <- (length_fmap fst). change (length (targets HW) = length hs). unfold HW. by rewrite targets_home. }
  destruct (decide (j <= length hs)%nat) as [Hj|Hj].
  - assert (Ec : c' = after c (take j HW)) by (unfold c', recover_writes; fold HW; by rewrite take_app_le by lia).
    assert (Hsub : forall m, m ∈ targets (take j HW) -> m ∈ hs).
    { intros m (w & -> & Hw)%list_elem_of_fmap. apply (subseteq_take j) in Hw. rewrite <- (targets_home c (start + 1) hs).
      by apply list_elem_of_fmap_2. }
    assert (Hkeep : forall m, m ∉ hs -> c' m = c m) by (intros m Hm; rewrite Ec; apply after_notin; by intros ?%Hsub).
    exists hs. split; [by rewrite Hkeep|]. split; [done|]. intros m Hm. unfold recover_writes.
    rewrite !after_app, !(after_notin _ [_]) by (cbn; specialize (Hnst m Hm); set_solver).
    rewrite (home_writes_ext c' c); [|intros k Hk; apply Hkeep; intros Hin; destruct (ho_range _ _ _ Ho k Hin); lia].
    fold HW. destruct (decide (m ∈ hs)) as [Hin|Hn].
    + rewrite <- (targets_home c (start + 1) hs) in Hin. apply list_elem_of_fmap in Hin as ([m' v] & -> & Hw). cbn.
      rewrite !(after_in _ HW m' v); try done; unfold HW; rewrite targets_home; apply Ho.
    + rewrite !after_notin by (unfold HW; by rewrite targets_home). by apply Hkeep.
  - assert (Ec : c' = after c (recover_writes c start hs)).
    { unfold c'. rewrite take_ge; [done|]. unfold recover_writes. rewrite length_app. cbn. fold HW. lia. }
    exists []. split; [|split; [apply homes_nil|]].
    + rewrite Ec. unfold recover_writes. rewrite after_app, (after_in _ [_] start (header [] (c start))); [|apply NoDup_singleton|left].
      apply is_header_header; [done|done|]. intros h []%elem_of_nil.
    + intros m Hm. rewrite Ec. unfold recover_writes at 1. cbn [home_writes app]. apply after_notin. cbn.
      specialize (Hnst m Hm). set_solver.
Qed.
