(* ===== verification/LogOps.v ===== *)
(** * Operations inside a transaction

    [begin_op], [log_write] and [end_op] of log.c, and the start of the system: what a
    file system call sees of the log. *)

From S2P Require Import Prelude Mmu Blk FsState Bio BioSpec Log LogSpec LogProps.

(** ** Recording a block *)

(** The header in memory lists the dirty blocks [hs]. *)
Record txn (hs : list Z) (s : fs) : Prop := {
  tx_n : lh_n (s_log s) = Z.of_nat (length hs);
  tx_lh : exists post, lh_block (s_log s) = hs ++ post;
  tx_len : length (lh_block (s_log s)) = Z.to_nat LOGSIZE;
  tx_nodup : NoDup hs;
  tx_range : forall h, h ∈ hs -> 0 <= h < 2 ^ 31;
  tx_dirty : forall k, dirty s k <-> k ∈ hs
}.

Lemma absorb_eq n rest : forall pre post s,
  lh_block (s_log s) = pre ++ rest ++ post -> (forall h, h ∈ rest -> 0 <= h < 2 ^ 31) ->
  exists i, absorb n (length rest) (Z.of_nat (length pre)) s = Ret (Z.of_nat (length pre + i)) s /\
    (rest !! i = Some n \/ n ∉ rest /\ i = length rest).
Proof.
  induction rest as [|h rest IH]; intros pre post s Hlh Hr.
  - exists 0%nat. split; [cbn; unfold ret; f_equal; lia|]. right. split; [apply not_elem_of_nil|done].
  - cbn [length absorb]. step (get_lh_eq s pre h (rest ++ post) Hlh). rewrite (u32_id h) by (specialize (Hr h ltac:(set_solver)); lia).
    destruct (Z.eqb_spec h n) as [->|Hne]; [exists 0%nat; split; [unfold ret; f_equal; lia|by left]|].
    destruct (IH (pre ++ [h]) post s) as (i & E & Hi); [by rewrite <- app_assoc|set_solver|].
    exists (S i). rewrite length_app in E. cbn in E. split.
    + replace (Z.of_nat (length pre) + 1) with (Z.of_nat (length pre + 1)) by lia. rewrite E. f_equal. lia.
    + destruct Hi as [Hi|[Hi ->]]; [by left|right]. split; [set_solver|done].
Qed.

Definition absorbed (n : Z) (hs : list Z) : list Z := if decide (n ∈ hs) then hs else hs ++ [n].

Definition set_flag6 (s : fs) (i : nat) (b : buf) : fs := set_bufs (<[i := set_b_flags 6 b]> (s_bufs s)) s.

(** Marking a locked buffer dirty. *)
Lemma mark_dirty i n b s :
  cache_ok s -> mine s i n b ->
  cache_ok (set_flag6 s i b) /\ mine (set_flag6 s i b) i n (set_b_flags 6 b) /\
  (forall k, content (set_flag6 s i b) k = content s k) /\ (forall k, dirty (set_flag6 s i b) k <-> dirty s k \/ k = n).
Proof.
  intros Hs (Hb & Hk & Hd & Hn & Href & Hf & Hr). apply lookup_lt_Some in Hb as Hlt.
  pose proof (co_bufs s Hs i b Hb) as Hok. unfold set_flag6.
  assert (Hs' : cache_ok (set_bufs (<[i := set_b_flags 6 b]> (s_bufs s)) s)).
  { apply (cache_ok_upd s i b); [done|done| |].
    - split; cbn; [apply Hok|apply Hok|right; auto|apply Hok|done].
    - intros _ j c Hj Hc Hdc Hbn. destruct Hj. eapply (co_one s Hs); try done. }
  split; [done|]. split.
  { split; [cbn; by rewrite list_lookup_insert_eq|]. do 3 (split; [done|]). split; [done|]. split; [by right|done]. }
  split; intros k.
  - rewrite (content_upd s i b _ k Hs Hs' Hb). change (is_block 1 k (set_b_flags 6 b)) with (is_block 1 k b).
    destruct (is_block 1 k b) eqn:E; [|done]. symmetry. by apply (content_cached s i b).
  - rewrite (dirty_upd s i b _ k Hb). split.
    + intros [[E%is_block_true _]|(j & c & _ & ?)]; [right; cbn in E; destruct E; congruence|left; by exists j, c].
    + intros [(j & c & Hj & ?)| ->]; [|left; split; [by apply is_block_true|done]].
      destruct (decide (j = i)) as [->|]; [left|right; by exists j, c]. assert (c = b) as -> by congruence. tauto.
Qed.

Definition logged (n : Z) (hs : list Z) (l : log) : log :=
  set_lh (Z.of_nat (length (absorbed n hs))) (absorbed n hs ++ drop (length (absorbed n hs)) (lh_block l)) l.

Lemma log_write_spec i n b hs s :
  cache_ok s -> LkLog ∉ s_locks s -> mine s i n b -> n < 2 ^ 31 -> txn hs s ->
  if (LOGSIZE <=? Z.of_nat (length hs)) || (l_size (s_log s) - 1 <=? Z.of_nat (length hs))
  then log_write i s = Panic "too big a transaction"
  else if l_outstanding (s_log s) <? 1 then log_write i s = Panic "log_write outside of trans"
  else
    let s' := set_log (logged n hs (s_log s)) (set_flag6 s i b) in
    log_write i s = Ret tt s' /\ txn (absorbed n hs) s' /\ cache_ok s' /\ mine s' i n (set_b_flags 6 b) /\
    (forall k, content s' k = content s k).
Proof.
  intros Hs Hlk Hm Hn [Tn [post Tlh] Tlen Tnd Tr Td]. unfold log_write. rewrite bind_gets, Tn.
  destruct (_ || _) eqn:Efull; [done|]. destruct (l_outstanding (s_log s) <? 1) eqn:Eout; [done|].
  step (acq_eq LkLog s Hlk). set (s1 := set_s_locks _ s). pose proof Hm as (Hb & Hk & Hd & Hbn & _ & _ & Hrn).
  step (get_buf_eq i b s1 Hb). rewrite Nat2Z.id, Hbn.
  destruct (absorb_eq n hs [] post s1 Tlh Tr) as (j & Ej & Hj). change (Z.of_nat (length (@nil Z))) with 0 in Ej. cbn [length Nat.add] in Ej.
  step Ej. apply orb_false_elim in Efull as [Hfull _]. apply Z.leb_gt in Hfull.
  assert (Hjl : (j <= length hs)%nat) by (destruct Hj as [Hj|[_ ->]]; [apply lookup_lt_Some in Hj|]; lia).
  assert (Hlook : exists v, lh_block (s_log s1) !! j = Some v).
  { apply lookup_lt_is_Some. change (j < length (lh_block (s_log s)))%nat. lia. }
  destruct Hlook as [v Hv]. rewrite (s32_id n) by lia. unfold put_lh. rewrite bind_assoc.
  assert (Eg : get_lh (Z.of_nat j) s1 = Ret v s1).
  { unfold get_lh. rewrite Nat2Z.id, Hv. by rewrite (proj2 (Z.leb_le 0 _)) by lia. }
  step Eg. unfold upd_log. rewrite bind_modify, Nat2Z.id. set (l1 := set_lh _ (<[j := n]> _) _). set (s2 := set_log l1 s1).
  assert (Hres : (when (Z.of_nat j =? Z.of_nat (length hs)) do modify (fun s => set_log (set_lh (lh_n (s_log s) + 1) (lh_block (s_log s)) (s_log s)) s)) s2
     = Ret tt (set_log (set_lh (Z.of_nat (length (absorbed n hs))) (absorbed n hs ++ drop (length (absorbed n hs)) (lh_block (s_log s))) (s_log s)) s1)).
  { change (lh_block (s_log s1)) with (lh_block (s_log s)) in *. unfold s2, l1, absorbed. destruct Hj as [Hj|[Hnin ->]].
    - apply lookup_lt_Some in Hj as Hj'. rewrite (proj2 (Z.eqb_neq _ _)) by lia. rewrite decide_True by (by eapply list_elem_of_lookup_2).
      unfold ret. f_equal. unfold set_log. cbn. rewrite Tn, Tlh. rewrite drop_app_length, list_insert_id; [done|]. by apply lookup_app_l_Some.
    - rewrite Z.eqb_refl, decide_False by done. unfold modify. f_equal. unfold set_log, set_lh. cbn. rewrite length_app. cbn [length].
      rewrite Tn, Tlh. destruct post as [|x post]; [rewrite Tlh, app_nil_r in Tlen; lia|].
      rewrite insert_app_r_alt, Nat.sub_diag by lia. cbn [insert list_insert]. rewrite (drop_app_ge hs) by lia.
      replace (length hs + 1 - length hs)%nat with 1%nat by lia. cbn [drop]. rewrite <- app_assoc. cbn. f_equal. f_equal. lia. }
  step Hres. set (l2 := set_lh _ _ _). clear Hres s2 l1.
  step (upd_buf_eq i (fun b => set_b_flags (Z.lor (b_flags b) B_DIRTY) b) b (set_log l2 s1) Hb).
  assert (E6 : set_b_flags (Z.lor (b_flags b) B_DIRTY) b = set_b_flags 6 b) by (destruct Hm as (_ & _ & _ & _ & _ & [-> | ->] & _); done).
  cbn beta. rewrite E6. cbv zeta.
  destruct (mark_dirty i n b s Hs Hm) as (Hs' & M' & C' & Y'). split_and!; try done.
  - rewrite (rel_eq LkLog (s_locks s)) by done. by destruct s.
  - assert (Hin : forall k, k ∈ absorbed n hs <-> k ∈ hs \/ k = n).
    { intros k. unfold absorbed. destruct (decide (n ∈ hs)); set_solver. }
    split.
    + done.
    + by eexists.
    + cbn. rewrite length_app, length_drop, Tlen. unfold absorbed. destruct (decide (n ∈ hs)); rewrite ?length_app; cbn; lia.
    + unfold absorbed. destruct (decide (n ∈ hs)); [done|]. apply NoDup_app. split; [done|]. split; [set_solver|apply NoDup_singleton].
    + intros h [Hh| ->]%Hin; [by apply Tr|lia].
    + intros k. rewrite Hin, <- Td. apply Y'.
  - by apply cache_ok_log.
Qed.

(** C14. [log_write] on every branch.  It panics exactly when the header is full or no
    operation is under way.  Otherwise the block is in the header once, whether it was
    there before or not, its buffer is pinned as dirty, and the contents of blocks and
    the disk are unchanged.  The header is full with [l_size - 1] blocks: with a log of
    [LOGSIZE] blocks that is 29, one less than the 30 that [begin_op] lets three
    operations of [MAXOPBLOCKS] reserve. *)
Theorem log_write_correct i n b hs s :
  cache_ok s -> LkLog ∉ s_locks s -> mine s i n b -> n < 2 ^ 31 -> txn hs s ->
  if (LOGSIZE <=? Z.of_nat (length hs)) || (l_size (s_log s) - 1 <=? Z.of_nat (length hs))
  then log_write i s = Panic "too big a transaction"
  else if l_outstanding (s_log s) <? 1 then log_write i s = Panic "log_write outside of trans"
  else exists s', log_write i s = Ret tt s' /\ txn (absorbed n hs) s' /\ cache_ok s' /\ mine s' i n (set_b_flags 6 b) /\
    (forall k, content s' k = content s k) /\ s_disk s' = s_disk s /\ s_writes s' = s_writes s /\
    s_locks s' = s_locks s /\ l_outstanding (s_log s') = l_outstanding (s_log s).
Proof.
  intros Hs Hlk Hm Hn Ht. pose proof (log_write_spec i n b hs s Hs Hlk Hm Hn Ht) as H.
  destruct (_ || _); [done|]. destruct (_ <? _); [done|]. destruct H as (E & ? & ? & ? & ?). by eexists.
Qed.

(** ** The brackets of an operation *)

(** Run a [release] of the lock taken last. *)
Ltac unlock_step l h Hn :=
  match goal with |- context [bind (release l) _ ?x] => rewrite (bind_ret _ _ _ _ _ (rel_eq l h x eq_refl Hn)) end.


Lemma begin_op_eq s :
  LkLog ∉ s_locks s ->
  begin_op s =
  let l := s_log s in
  if negb (l_committing l =? 0) || (LOGSIZE <? lh_n l + (l_outstanding l + 1) * MAXOPBLOCKS) then Block ChLog s
  else Ret tt (set_log (set_outstanding (l_outstanding l + 1) l) s).
Proof.
  intros Hlk. unfold begin_op. step (acq_eq LkLog s Hlk). set (s1 := set_s_locks _ s). rewrite bind_gets.
  change (s_log s1) with (s_log s). cbv zeta. assert (E : release LkLog s1 = Ret tt s).
  { rewrite (rel_eq LkLog (s_locks s)) by done. by destruct s. }
  destruct (negb _) eqn:E1; [by step E|]. cbn [orb]. destruct (_ <? _) eqn:E2; [by step E|].
  unfold upd_log. rewrite bind_modify. rewrite (rel_eq LkLog (s_locks s)) by done. by destruct s.
Qed.

Lemma transaction_log start hs l s :
  lh_n l = lh_n (s_log s) -> lh_block l = lh_block (s_log s) -> l_start l = l_start (s_log s) -> l_dev l = l_dev (s_log s) ->
  transaction start hs s -> transaction start hs (set_log l s).
Proof.
  intros E1 E2 E3 E4 [[Q D S0 Hl P Fi Ho] Hn Hnd Hsm Hdi Hsz]. split; try done; [|cbn; congruence].
  split; try done; cbn; [by apply quiet_log|congruence|congruence|by rewrite E2].
Qed.

(** A file system call is bracketed by [begin_op] and [end_op].  [begin_op] counts
    the call in when no commit is under way and its reservation fits in the log, and
    otherwise makes the process wait for the log.  [end_op] of a call that is not the
    last only counts it out and wakes waiters; that of the last one commits: it returns
    with the log empty and every block outside the log on the disk as the calls left
    it, and wakes waiters. *)
Theorem op_brackets_correct start hs s :
  LkLog ∉ s_locks s -> l_committing (s_log s) = 0 ->
  begin_op s = (if LOGSIZE <? lh_n (s_log s) + (l_outstanding (s_log s) + 1) * MAXOPBLOCKS then Block ChLog s
                else Ret tt (set_log (set_outstanding (l_outstanding (s_log s) + 1) (s_log s)) s)) /\
  (l_outstanding (s_log s) > 1 ->
    end_op s = Ret tt (set_wake (s_wake s ++ [ChLog]) (set_log (set_outstanding (l_outstanding (s_log s) - 1) (s_log s)) s))) /\
  (l_outstanding (s_log s) = 1 -> transaction start hs s -> hs <> [] -> start + LOGSIZE <= Z.of_nat (length (s_disk s)) ->
    (forall h, h ∈ hs -> h < start \/ start + LOGSIZE <= h) -> is_header (dblock (s_disk s) start) [] ->
    exists s', end_op s = Ret tt s' /\ lh_n (s_log s') = 0 /\ l_outstanding (s_log s') = 0 /\ l_committing (s_log s') = 0 /\
      (forall k, ~ dirty s' k) /\ (forall m, outside start m -> dblock (s_disk s') m = content s m) /\ ChLog ∈ s_wake s').
Proof.
  intros Hlk Hc. split; [|split].
  - rewrite (begin_op_eq s Hlk). cbv zeta. by rewrite Hc.
  - intros Hout. unfold end_op. step (acq_eq LkLog s Hlk). unfold upd_log at 1. rewrite bind_modify. rewrite bind_gets.
    cbn [s_log set_log set_s_locks l_committing set_outstanding l_outstanding]. rewrite Hc. cbn [Z.eqb negb].
    rewrite (proj2 (Z.eqb_neq _ _)) by lia. unfold wakeup. rewrite bind_modify.
    unlock_step LkLog (s_locks s) Hlk. by destruct s.
  - intros Hout Htr Hne Hfit Ho Hhd. unfold end_op. step (acq_eq LkLog s Hlk). unfold upd_log at 1. rewrite bind_modify, bind_gets.
    cbn [s_log set_log set_s_locks l_committing set_outstanding l_outstanding]. rewrite Hc, Hout. change (negb (0 =? 0)) with false. change (1 - 1 =? 0) with true. cbv iota.
    unfold upd_log at 1. rewrite bind_modify. unlock_step LkLog (s_locks s) Hlk.
    set (l1 := set_committing 1 (set_outstanding 0 (s_log s))). set (s1 := set_s_locks _ _).
    assert (E1 : s1 = set_log l1 s) by (by destruct s). rewrite E1. clear s1 E1.
    assert (Htr1 : transaction start hs (set_log l1 s)) by (by apply transaction_log).
    destruct (commit_on_disk start hs (set_log l1 s) Htr1 Hne Hfit Ho Hhd) as (s2 & E2 & Hcl & Hd & R).
    step E2. assert (Hlk2 : LkLog ∉ s_locks s2) by (by rewrite (sr_locks _ _ R)). step (acq_eq LkLog s2 Hlk2).
    unfold upd_log. rewrite bind_modify. unfold wakeup. rewrite bind_modify.
    rewrite (rel_eq LkLog (s_locks s2)) by done. eexists. split; [reflexivity|].
    pose proof (sr_log _ _ R) as El. cbn in El |- *. rewrite !El. cbn. split_and!; try done.
    apply elem_of_app. right. left.
Qed.

(** ** Start-up, and a transaction of one block *)

(** Memory as the loader leaves it: everything zero, except that the log is at [start]. *)
Definition power_on (disk : list (list Z)) (start : Z) (outstanding : Z) : fs :=
  Fs [] 1 None [] (replicate NBUF (Buf 0 0 0 (Sleeplock 0 0) 0 [])) (replicate (S NBUF) 0%nat) (replicate (S NBUF) 0%nat)
    disk [] (Log start LOGSIZE outstanding 0 1 0 (replicate (Z.to_nat LOGSIZE) 0)) (Superblock 0 0 0 0 0 0 0) [].

Lemma blank_booted start l s :
  ring (s_next s) (s_prev s) l -> length (s_bufs s) = NBUF ->
  (forall i b, s_bufs s !! i = Some b -> b = Buf 0 0 0 (Sleeplock 0 0) 0 []) -> s_locks s = [] ->
  l_dev (s_log s) = 1 -> l_start (s_log s) = start -> length (lh_block (s_log s)) = Z.to_nat LOGSIZE ->
  0 <= start -> start + LOGSIZE <= Z.of_nat (length (s_disk s)) < 2 ^ 31 -> booted start s.
Proof.
  intros R Hlen Hb Hlk Hdev Hst Hlh Hpos Hfit. split; [split; [split| |]| | | | | |]; try done.
  - by exists l.
  - intros i b ->%Hb. split; try done. by left.
  - by intros i j b b' ->%Hb ->%Hb.
  - lia.
  - split; [|intros x]; rewrite Hlk; apply not_elem_of_nil.
  - by intros i b ->%Hb.
  - by intros k (i & b & ->%Hb & ? & ?).
Qed.

Lemma power_on_booted disk start out :
  0 <= start -> start + LOGSIZE <= Z.of_nat (length disk) < 2 ^ 31 ->
  exists s, binit (power_on disk start out) = Ret tt s /\ booted start s /\ s_disk s = disk /\ s_locks s = [] /\
    s_log s = s_log (power_on disk start out) /\ s_cwd s = None.
Proof.
  intros Hpos Hfit. destruct (binit_eq (power_on disk start out)) as (nx & pv & E & R).
  - apply length_replicate.
  - split; [|intros l]; apply not_elem_of_nil.
  - apply length_replicate.
  - apply length_replicate.
  - eexists. split; [exact E|]. split; [|split; [reflexivity|split; [reflexivity|split; reflexivity]]].
    eapply blank_booted; [exact R|cbn [s_bufs set_links set_bufs]; rewrite length_fmap; apply length_replicate| |..|exact Hpos|exact Hfit]; try reflexivity.
    intros i b. cbn [s_bufs set_links set_bufs power_on]. rewrite list_lookup_fmap.
    destruct (replicate NBUF _ !! i) as [c|] eqn:Ec; [|discriminate]. apply lookup_replicate in Ec as [-> _]. by intros [= <-].
Qed.

(** Replace the data of block [n] inside an operation. *)
Definition write_one (n : Z) (d : list Z) : M fs unit :=
  i <- bread 1 n ;;
  upd_buf i (set_b_data d) ;;;
  log_write i ;;;
  brelse i.

Lemma write_one_spec start n d s :
  booted start s -> s_locks s = [] -> lh_n (s_log s) = 0 -> l_size (s_log s) = LOGSIZE -> 1 <= l_outstanding (s_log s) ->
  0 <= n < Z.of_nat (length (s_disk s)) -> n < start \/ start + LOGSIZE <= n ->
  length (dblock (s_disk s) start) = BSIZE ->
  exists s', write_one n d s = Ret tt s' /\ transaction start [n] s' /\ content s' n = d /\ s_disk s' = s_disk s /\
    s_locks s' = [] /\ s_log s' = logged n [] (s_log s).
Proof.
  intros [Hq Hcl Hdev Hst Hlh Hpos Hfit] Hlk Hn0 Hsize Hout Hn Ho Hlen.
  destruct (one_bread s [] n Hq) as (i & b & s1 & E1 & Hs1 & R1 & D1 & W1 & M1 & Hr1 & Hd1 & H61 & C1 & Y1 & O1);
    [intros k Hk; by destruct (Hcl k)|by apply Nat.ltb_lt|done|].
  destruct (upd_data_spec i n b d s1 Hs1 M1) as (E2 & Hs2 & M2 & C2 & Y2). set (s2 := set_bufs _ s1) in *.
  assert (El2 : s_log s2 = s_log s) by apply (sr_log _ _ R1).
  assert (T2 : txn [] s2).
  { split; rewrite ?El2; try done; [by eexists|constructor|by intros h []%elem_of_nil|].
    intros k. rewrite Y2, Y1. split; [intros Hk; by destruct (Hcl k)|intros []%elem_of_nil]. }
  assert (Hlk2 : LkLog ∉ s_locks s2) by (change (s_locks s2) with (s_locks s1); rewrite (sr_locks _ _ R1), Hlk; apply not_elem_of_nil).
  pose proof (log_write_spec i n _ [] s2 Hs2 Hlk2 M2 ltac:(lia) T2) as H3. rewrite El2, Hsize in H3.
  change (_ || _) with false in H3. cbv iota in H3. rewrite (proj2 (Z.ltb_ge _ _)) in H3 by lia.
  destruct H3 as (E3 & T3 & Hs3 & M3 & C3). set (s3 := set_log _ _) in *.
  assert (Hun3 : unlatched s3) by (apply (unlatched_same s s1 R1), Hq).
  destruct (one_brelse s3 i n (set_b_flags 6 (set_b_data d b)) Hs3 Hun3 M3) as (s4 & E4 & Q4 & R4 & D4 & W4 & C4 & Y4); [done|done| |].
  { intros j b' Hj. cbn. rewrite list_insert_insert_eq, list_lookup_insert_ne by done. by apply O1. }
  assert (Hd4 : s_disk s4 = s_disk s) by (rewrite D4; exact D1).
  assert (El4 : s_log s4 = logged n [] (s_log s)) by (by rewrite (sr_log _ _ R4)).
  exists s4. split; [unfold write_one; step E1; step E2; step E3; exact E4|]. split.
  - split; [split| | | | |]; rewrite ?El4, ?Hd4; try done.
    + cbn. by eexists.
    + cbn [length]. unfold LOGSIZE, MAXOPBLOCKS in *. lia.
    + intros h ->%list_elem_of_singleton. cbn [length]. assert (1 < LOGSIZE) by done. lia.
    + apply NoDup_singleton.
    + by apply Nat.ltb_lt.
    + intros k. rewrite Y4. apply (tx_dirty _ _ T3).
    + rewrite C4, C3, C2, C1. rewrite (proj2 (Z.eqb_neq start n)) by (assert (0 < LOGSIZE) by done; lia).
      rewrite (quiet_clean s start Hq (Hcl start)). done.
  - split; [rewrite C4, C3, C2; by rewrite Z.eqb_refl|]. split; [done|].
    split; [rewrite (sr_locks _ _ R4); cbn; by rewrite (sr_locks _ _ R1)|]. exact El4.
Qed.

(** ** Crashes *)

(** C2. A transaction is atomic.  [commit] of the blocks [hs] returns, and every block
    outside the log is then on the disk as the transaction left it.  If the machine
    stops after any number [k] of the block writes of [commit], [recover_from_log] on
    the restarted machine returns, and it leaves on the disk all the old blocks if the
    header had not been written ([k <= length hs]), all the new ones otherwise. *)
Theorem commit_crash_safe start hs s :
  transaction start hs s -> hs <> [] -> start + LOGSIZE <= Z.of_nat (length (s_disk s)) ->
  (forall h, h ∈ hs -> h < start \/ start + LOGSIZE <= h) -> is_header (dblock (s_disk s) start) [] ->
  exists s' W, commit s = Ret tt s' /\ s_writes s' = s_writes s ++ W /\
    (forall m, outside start m -> dblock (s_disk s') m = content s m) /\
    forall k s0, booted start s0 -> s_disk s0 = apply_writes (s_disk s) (take k W) ->
      exists s1, recover_from_log s0 = Ret tt s1 /\
      forall m, outside start m ->
        dblock (s_disk s1) m = if (k <=? length hs)%nat then dblock (s_disk s) m else content s m.
Proof.
  intros Htr Hne Hfit Hout Hhd. destruct (commit_spec start hs s Htr Hne) as (s' & E & Hcl & Wr).
  destruct (commit_on_disk start hs s Htr Hne Hfit Hout Hhd) as (s'' & E'' & _ & Hdisk & _).
  assert (s'' = s') as -> by congruence. pose proof (transaction_homes start hs s Htr Hout) as Ho.
  destruct Htr as [Hat Hn Hnd Hsm Hdi Hsz]. pose proof (al_pos _ _ _ _ Hat) as Hpos. pose proof (al_fits _ _ _ _ Hat) as Hfit2.
  set (size := Z.of_nat (length (s_disk s))) in *.
  assert (Hc : forall m, 0 <= m -> m ∉ hs -> content s m = dblock (s_disk s) m).
  { intros m _ Hm. apply quiet_clean; [apply Hat|]. by rewrite Hdi. }
  exists s', (commit_writes (content s) start hs). split; [done|]. split; [apply (wr_writes _ _ _ Wr)|]. split; [done|].
  intros k s0 Hb D0. assert (Hr : Forall (fun w => 0 <= fst w < size) (take k (commit_writes (content s) start hs)))
      by (by apply Forall_take, commit_writes_range).
    assert (Hd0 : forall m, 0 <= m -> dblock (s_disk s0) m = after (dblock (s_disk s)) (take k (commit_writes (content s) start hs)) m).
    { intros m Hm. rewrite D0. by apply dblock_apply. }
    destruct (crash_cases start size hs (dblock (s_disk s)) (content s) Hpos ltac:(lia) Ho Hc Hhd Hsz k) as (hs' & Hh' & Hwhich & Hres).
    assert (Hsz0 : Z.of_nat (length (s_disk s0)) = size) by (by rewrite D0, length_apply).
    destruct (recovered start hs' s0 Hb) as (s1 & E1 & _ & Hd1); [by rewrite Hd0|rewrite Hsz0; destruct Hwhich as [-> | ->]; [apply homes_nil|done]|].
    exists s1. split; [done|]. intros m Hm. rewrite Hd1 by apply Hm. rewrite <- (Hres m Hm).
    rewrite (recover_writes_ext _ _ start hs' Hpos Hd0). apply after_ext, Hd0, Hm.
Qed.

(** C13. Recovery installs what was committed, and may be interrupted and run again.  On a
    restarted machine whose header lists the blocks [hs], [recover_from_log] returns with
    the log empty, each block of [hs] replaced by its copy in the log and every other block
    outside the log unchanged; if the machine stops after any number [j] of its block
    writes and starts again, recovery returns with the same blocks outside the log. *)
Theorem recovery_restartable start hs s :
  booted start s -> is_header (dblock (s_disk s) start) hs -> homes_ok start (Z.of_nat (length (s_disk s))) hs ->
  length (dblock (s_disk s) start) = BSIZE ->
  exists s' W, recover_from_log s = Ret tt s' /\ s_writes s' = s_writes s ++ W /\
    is_header (dblock (s_disk s') start) [] /\
    (forall i h, hs !! i = Some h -> dblock (s_disk s') h = dblock (s_disk s) (start + 1 + Z.of_nat i)) /\
    (forall m, outside start m -> m ∉ hs -> dblock (s_disk s') m = dblock (s_disk s) m) /\
    forall j s2, booted start s2 -> s_disk s2 = apply_writes (s_disk s) (take j W) ->
      exists s3, recover_from_log s2 = Ret tt s3 /\
      forall m, outside start m -> dblock (s_disk s3) m = dblock (s_disk s') m.
Proof.
  intros Hb Hh Ho Hlen. destruct (recovered start hs s Hb Hh Ho) as (s' & E & W & Hd).
  exists s', (recover_writes (dblock (s_disk s)) start hs). split; [done|]. split; [done|].
  pose proof (bt_pos _ _ Hb) as Hpos. pose proof (bt_fits _ _ Hb) as Hfit.
  destruct (recover_result (dblock (s_disk s)) start _ hs Hpos Ho Hlen) as (R1 & R2 & R3).
  split; [by rewrite Hd|]. split; [|split].
  { intros i h Hi. rewrite Hd; [by apply R2|]. apply list_elem_of_lookup_2 in Hi. destruct (ho_range _ _ _ Ho h Hi); lia. }
  { intros m Hm Hn. rewrite Hd by apply Hm. by apply R3. }
  intros j s2 Hb2 D2.
  destruct (recover_prefix (dblock (s_disk s)) start (Z.of_nat (length (s_disk s))) hs j Hpos ltac:(lia) Ho Hh Hlen) as (hs' & Hh' & Ho' & Hres).
  assert (Hd2 : forall m, 0 <= m -> dblock (s_disk s2) m = after (dblock (s_disk s)) (take j (recover_writes (dblock (s_disk s)) start hs)) m).
  { intros m Hm. rewrite D2. apply dblock_apply; [|done]. apply Forall_take, recover_writes_range; [done|done|lia]. }
  destruct (recovered start hs' s2 Hb2) as (s3 & E3 & _ & Hd3); [by rewrite Hd2|by rewrite D2, length_apply|].
  exists s3. split; [done|]. intros m Hm. rewrite Hd3, (Hd m) by apply Hm. rewrite <- (Hres m Hm).
  rewrite (recover_writes_ext _ _ start hs' Hpos Hd2). apply after_ext, Hd2, Hm.
Qed.

(** ** A small disk *)

Module Example.

Definition disk : list (list Z) := replicate 40 (replicate 512 0).
Definition sevens : list Z := replicate 512 7.

Lemma disk_header : is_header (dblock disk 2) [] /\ length (dblock disk 2) = BSIZE.
Proof. split; [split; [vm_compute; reflexivity|done]|vm_compute; reflexivity]. Qed.

Lemma fits : 2 + LOGSIZE <= Z.of_nat (length disk) < 2 ^ 31.
Proof. unfold disk. rewrite length_replicate. unfold LOGSIZE, MAXOPBLOCKS. lia. Qed.

(** The machine after start-up, in the middle of a call, with block 32 replaced, the first
    one after the log. *)
Lemma one_block_logged :
  exists s, transaction 2 [32] s /\ content s 32 = sevens /\ s_disk s = disk /\ s_locks s = [] /\
    l_outstanding (s_log s) = 1 /\ l_committing (s_log s) = 0.
Proof.
  destruct (power_on_booted disk 2 1 ltac:(lia) fits) as (s0 & _ & Hb & Hd & Hl & Hlog & _).
  assert (Hlen : Z.of_nat (length disk) = 40) by (unfold disk; by rewrite length_replicate).
  destruct (write_one_spec 2 32 sevens s0 Hb Hl) as (s & E & Htr & Hc & Hd' & Hl' & Ho').
  - by rewrite Hlog.
  - by rewrite Hlog.
  - by rewrite Hlog.
  - rewrite Hd, Hlen. lia.
  - right. unfold LOGSIZE, MAXOPBLOCKS. lia.
  - rewrite Hd. apply disk_header.
  - exists s. split; [done|]. split; [done|]. split; [congruence|]. split; [done|]. by rewrite Ho', Hlog.
Qed.

Lemma outside_32 : outside 2 32.
Proof. split; [lia|]. right. unfold LOGSIZE, MAXOPBLOCKS. lia. Qed.

Lemma homes_32 h : h ∈ [32] -> h < 2 \/ 2 + LOGSIZE <= h.
Proof. intros ->%list_elem_of_singleton. right. unfold LOGSIZE, MAXOPBLOCKS. lia. Qed.

Lemma commit_crash_safe_witness :
  exists s s', transaction 2 [32] s /\ commit s = Ret tt s' /\ dblock (s_disk s') 32 = sevens.
Proof.
  destruct one_block_logged as (s & Htr & Hc & Hd & _). destruct disk_header as [Hh _].
  destruct (commit_crash_safe 2 [32] s Htr) as (s' & W & E & _ & Hn & _);
    [done|rewrite Hd; apply fits|apply homes_32|by rewrite Hd|].
  exists s, s'. split; [exact Htr|]. split; [exact E|]. rewrite (Hn 32 outside_32). exact Hc.
Defined.

(** A disk that was committed and not installed: the header lists block 32, and its copy
    is the first block of the log. *)
Definition committed : list (list Z) := <[2%nat := header [32] (replicate 512 0)]> (<[3%nat := sevens]> disk).

Lemma committed_ok :
  is_header (dblock committed 2) [32] /\ homes_ok 2 (Z.of_nat (length committed)) [32] /\
  length (dblock committed 2) = BSIZE /\ dblock committed 3 = sevens.
Proof.
  assert (Hl : length committed = 40%nat) by (vm_compute; reflexivity).
  split_and!; [|split|vm_compute; reflexivity|vm_compute; reflexivity].
  - split; [vm_compute; reflexivity|]. intros [|j] h [= <-]. vm_compute. reflexivity.
  - apply NoDup_singleton.
  - done.
  - intros h ->%list_elem_of_singleton. rewrite Hl. cbn. lia.
Qed.

Lemma recovery_restartable_witness :
  exists s s', booted 2 s /\ dblock (s_disk s) 32 = replicate 512 0 /\ recover_from_log s = Ret tt s' /\ dblock (s_disk s') 32 = sevens.
Proof.
  destruct committed_ok as (Hh & Ho & Hl & H3).
  assert (Hf : 2 + LOGSIZE <= Z.of_nat (length committed) < 2 ^ 31) by (unfold committed; rewrite !length_insert; apply fits).
  destruct (power_on_booted committed 2 0 ltac:(lia) Hf) as (s & _ & Hb & Hd & _).
  destruct (recovery_restartable 2 [32] s Hb) as (s' & W & E & _ & _ & Hin & _);
    [rewrite Hd; exact Hh|rewrite Hd; exact Ho|rewrite Hd; exact Hl|].
  exists s, s'. split; [exact Hb|]. split; [rewrite Hd; vm_compute; reflexivity|]. split; [exact E|].
  rewrite (Hin 0%nat 32 eq_refl), Hd. exact H3.
Defined.

Lemma op_brackets_correct_witness :
  exists s s', end_op s = Ret tt s' /\ dblock (s_disk s') 32 = sevens /\ lh_n (s_log s') = 0.
Proof.
  destruct one_block_logged as (s & Htr & Hc & Hd & Hl & Ho & Hco). destruct disk_header as [Hh _].
  assert (Hlk : LkLog ∉ s_locks s) by (rewrite Hl; apply not_elem_of_nil).
  destruct (op_brackets_correct 2 [32] s Hlk Hco) as (_ & _ & He).
  destruct (He Ho Htr) as (s' & E & Hn & _ & _ & _ & Hdisk & _);
    [done|rewrite Hd; apply fits|apply homes_32|by rewrite Hd|].
  exists s, s'. split; [exact E|]. split; [|exact Hn]. rewrite (Hdisk 32 outside_32). exact Hc.
Defined.

(** A buffer just read, before it is logged. *)
Lemma one_block_read :
  exists i b s, cache_ok s /\ LkLog ∉ s_locks s /\ mine s i 32 b /\ txn [] s /\
    l_size (s_log s) = LOGSIZE /\ l_outstanding (s_log s) = 1.
Proof.
  destruct (power_on_booted disk 2 1 ltac:(lia) fits) as (s0 & _ & Hb & Hd & Hl & Hlog & _).
  destruct (one_bread s0 [] 32 (bt_quiet _ _ Hb)) as (i & b & s1 & _ & Hs1 & R1 & _ & _ & M1 & _ & _ & _ & _ & Y1 & _);
    [intros k Hk; by destruct (bt_clean _ _ Hb k)|by apply Nat.ltb_lt|rewrite Hd; unfold disk; rewrite length_replicate; lia|].
  exists i, b, s1. rewrite (sr_locks _ _ R1), Hl, (sr_log _ _ R1), Hlog. split; [done|]. split; [apply not_elem_of_nil|].
  split; [done|]. split; [|done]. split; rewrite ?(sr_log _ _ R1), ?Hlog; try done.
  - by eexists.
  - constructor.
  - by intros h []%elem_of_nil.
  - intros k. rewrite Y1. split; [intros Hk; by destruct (bt_clean _ _ Hb k)|intros []%elem_of_nil].
Qed.

Lemma log_write_correct_witness : exists i s s', log_write i s = Ret tt s' /\ txn [32] s'.
Proof.
  destruct one_block_read as (i & b & s & Hs & Hl & Hm & Ht & Hsz & Ho).
  pose proof (log_write_correct i 32 b [] s Hs Hl Hm ltac:(lia) Ht) as H. rewrite Hsz, Ho in H.
  destruct H as (s' & E & Ht' & _). exists i, s, s'. split; [exact E|exact Ht'].
Defined.

End Example.
