(* ===== verification/Fs.v ===== *)
(** * The file system

    fs.c: the block allocator, inodes, file contents, directories and paths.  Pointers
    to cached inodes are indices of [icache.inode]; a null pointer is [None].  A
    string is the list of its bytes before the terminator; [char name[DIRSIZ]] is a
    list of 14 bytes.  [readi] returns the bytes it stores, [writei] takes the bytes. *)

From S2P Require Import Prelude Mmu Mem Cstring Blk FsState Bio Log.

Definition ROOTINO : Z := 1.
Definition NDIRECT : Z := 12.
Definition NINDIRECT : Z := 128.
Definition MAXFILE : Z := NDIRECT + NINDIRECT.
Definition DINODE_SIZE : Z := 64.
Definition IPB : Z := 8.
Definition BPB : Z := 4096.
Definition DIRSIZ : Z := 14.
Definition DIRENT_SIZE : Z := 16.

Definition T_DIR : Z := 1.
Definition T_FILE : Z := 2.
Definition T_DEV : Z := 3.

Definition IBLOCK (i : Z) (sb : superblock) : Z := i / IPB + sb_inodestart sb.
Definition BBLOCK (b : Z) (sb : superblock) : Z := b / BPB + sb_bmapstart sb.

Record stat := Stat { st_type : Z; st_dev : Z; st_ino : Z; st_nlink : Z; st_size : Z }.

Section Fs.

(** [devsw]: the functions of a device, by major number. *)
Context (devread : Z -> option (nat -> Z -> M fs (Z * list Z))) (devwrite : Z -> option (nat -> list Z -> Z -> M fs Z)).

(** ** Blocks *)

Definition bzero (dev bno : Z) : M fs unit :=
  bp <- bread dev bno ;;
  upd_buf bp (set_b_data (replicate BSIZE 0)) ;;;
  log_write bp ;;;
  brelse bp.

Definition bit_mask (bi : Z) : Z := Z.shiftl 1 (bi mod 8).
Definition bit_byte (d : list Z) (bi : Z) : Z := nth (Z.to_nat (bi / 8)) d 0.
Definition bit_free (d : list Z) (bi : Z) : bool := Z.land (bit_byte d bi) (bit_mask bi) =? 0.
Definition bit_set (d : list Z) (bi : Z) : list Z := <[Z.to_nat (bi / 8) := Z.lor (bit_byte d bi) (bit_mask bi)]> d.
Definition bit_clear (d : list Z) (bi : Z) : list Z :=
  <[Z.to_nat (bi / 8) := Z.land (bit_byte d bi) (Z.lnot (bit_mask bi))]> d.

(** The inner loop of [balloc]: the first free bit from [bi] on; [n] bits are left. *)
Fixpoint free_bit (d : list Z) (b size : Z) (n : nat) (bi : Z) : option Z :=
  match n with
  | O => None
  | S n =>
    if negb (b + bi <? size) then None
    else if bit_free d bi then Some bi
    else free_bit d b size n (bi + 1)
  end.

Fixpoint balloc_loop (dev : Z) (n : nat) (b : Z) : M fs Z :=
  match n with
  | O => panic "balloc: out of blocks"
  | S n =>
    sb <- gets s_sb ;;
    bp <- bread dev (BBLOCK b sb) ;;
    v <- get_buf bp ;;
    match free_bit (b_data v) b (sb_size sb) (Z.to_nat BPB) 0 with
    | Some bi =>
      upd_buf bp (fun v => set_b_data (bit_set (b_data v) bi) v) ;;;
      log_write bp ;;;
      brelse bp ;;;
      bzero dev (b + bi) ;;;
      ret (b + bi)
    | None =>
      brelse bp ;;;
      balloc_loop dev n (b + BPB)
    end
  end.
(** There are as many iterations as blocks of the bitmap. *)
Definition balloc (dev : Z) : M fs Z :=
  sb <- gets s_sb ;;
  balloc_loop dev (Z.to_nat ((sb_size sb + BPB - 1) / BPB)) 0.

Definition bfree (dev b : Z) : M fs unit :=
  sb <- readsb dev ;;
  modify (set_sb sb) ;;;
  bp <- bread dev (BBLOCK b sb) ;;
  v <- get_buf bp ;;
  let bi := b mod BPB in
  if bit_free (b_data v) bi then panic "freeing free block" else
  upd_buf bp (set_b_data (bit_clear (b_data v) bi)) ;;;
  log_write bp ;;;
  brelse bp.

(** ** Inodes *)

(** [struct dinode] at offset [o] of a block. *)
Definition di_off (inum : Z) : nat := Z.to_nat (inum mod IPB * DINODE_SIZE).
Definition di_type (d : list Z) (o : nat) : Z := s16 (get16 d o).
Definition di_addrs (d : list Z) (o : nat) : list Z := (fun i => get32 d (o + 12 + 4 * i)%nat) <$> seq 0 13.

Fixpoint iinit_loop (n i : nat) : M fs unit :=
  match n with
  | O => ret tt
  | S n => initsleeplock (SlInode i) ;;; iinit_loop n (S i)
  end.
(** [iinit], without the message it prints. *)
Definition iinit (dev : Z) : M fs unit :=
  initlock LkIcache ;;;
  iinit_loop NINODE 0 ;;;
  sb <- readsb dev ;;
  modify (set_sb sb).

(** The search of [iget]: a cached entry, or else the first free one. *)
Fixpoint iget_scan (dev inum : Z) (l : list inode) (i : nat) (empty : option nat) : nat + option nat :=
  match l with
  | [] => inr empty
  | ip :: l =>
    if (0 <? i_ref ip) && (i_dev ip =? dev) && (i_inum ip =? inum) then inl i
    else iget_scan dev inum l (S i)
      (match empty with Some e => Some e | None => if i_ref ip =? 0 then Some i else None end)
  end.
Definition iget (dev inum : Z) : M fs nat :=
  acquire LkIcache ;;;
  l <- gets s_inodes ;;
  match iget_scan dev inum l 0 None with
  | inl i =>
    upd_inode i (fun ip => set_i_ref (i_ref ip + 1) ip) ;;;
    release LkIcache ;;;
    ret i
  | inr None => panic "iget: no inodes"
  | inr (Some i) =>
    upd_inode i (fun ip => Inode dev inum 1 (i_lock ip) 0 (i_type ip) (i_major ip) (i_minor ip) (i_nlink ip) (i_size ip)
      (i_addrs ip)) ;;;
    release LkIcache ;;;
    ret i
  end.

Fixpoint ialloc_loop (dev type : Z) (n : nat) (inum : Z) : M fs nat :=
  match n with
  | O => panic "ialloc: no inodes"
  | S n =>
    sb <- gets s_sb ;;
    bp <- bread dev (IBLOCK inum sb) ;;
    v <- get_buf bp ;;
    if di_type (b_data v) (di_off inum) =? 0 then
      upd_buf bp (fun v => set_b_data (splice (b_data v) (di_off inum) (replicate 64 0)) v) ;;;
      upd_buf bp (fun v => set_b_data (put16 (b_data v) (di_off inum) type) v) ;;;
      log_write bp ;;;
      brelse bp ;;;
      iget dev inum
    else
      brelse bp ;;;
      ialloc_loop dev type n (inum + 1)
  end.
Definition ialloc (dev type : Z) : M fs nat :=
  sb <- gets s_sb ;;
  ialloc_loop dev type (Z.to_nat (sb_ninodes sb - 1)) 1.

(** The bytes of the [struct dinode] that [iupdate] writes. *)
Definition di_bytes (ip : inode) : list Z :=
  le 2 (i_type ip) ++ le 2 (i_major ip) ++ le 2 (i_minor ip) ++ le 2 (i_nlink ip) ++ le 4 (i_size ip) ++
  mjoin (le 4 <$> i_addrs ip).
Definition iupdate (i : nat) : M fs unit :=
  ip <- get_inode i ;;
  sb <- gets s_sb ;;
  bp <- bread (i_dev ip) (IBLOCK (i_inum ip) sb) ;;
  upd_buf bp (fun v => set_b_data (splice (b_data v) (di_off (i_inum ip)) (di_bytes ip)) v) ;;;
  log_write bp ;;;
  brelse bp.

Definition idup (i : nat) : M fs nat :=
  acquire LkIcache ;;;
  upd_inode i (fun ip => set_i_ref (i_ref ip + 1) ip) ;;;
  release LkIcache ;;;
  ret i.

Definition from_dinode (d : list Z) (o : nat) (ip : inode) : inode :=
  Inode (i_dev ip) (i_inum ip) (i_ref ip) (i_lock ip) (i_valid ip) (di_type d o) (s16 (get16 d (o + 2)))
    (s16 (get16 d (o + 4))) (s16 (get16 d (o + 6))) (get32 d (o + 8)) (di_addrs d o).
Definition ilock (i : nat) : M fs unit :=
  ip <- get_inode i ;;
  if i_ref ip <? 1 then panic "ilock" else
  acquiresleep (SlInode i) ;;;
  ip <- get_inode i ;;
  when (i_valid ip =? 0) do
    (sb <- gets s_sb ;;
     bp <- bread (i_dev ip) (IBLOCK (i_inum ip) sb) ;;
     v <- get_buf bp ;;
     upd_inode i (from_dinode (b_data v) (di_off (i_inum ip))) ;;;
     brelse bp ;;;
     upd_inode i (set_i_valid 1) ;;;
     ip <- get_inode i ;;
     if i_type ip =? 0 then panic "ilock: no type" else ret tt).

Definition iunlock (i : nat) : M fs unit :=
  h <- holdingsleep (SlInode i) ;;
  if negb h then panic "iunlock" else
  ip <- get_inode i ;;
  if i_ref ip <? 1 then panic "iunlock" else
  releasesleep (SlInode i).

(** ** Contents *)

(** [ip->addrs[n]]. *)
Definition addr_at (ip : inode) (n : Z) : Z := nth (Z.to_nat n) (i_addrs ip) 0.
Definition set_addr (n v : Z) (ip : inode) : inode := set_i_addrs (<[Z.to_nat n := v]> (i_addrs ip)) ip.

(** Use block address number [n] of the inode, allocating a block if there is none. *)
Definition addr_or_alloc (i : nat) (n : Z) : M fs Z :=
  ip <- get_inode i ;;
  if addr_at ip n =? 0 then
    addr <- balloc (i_dev ip) ;;
    upd_inode i (set_addr n addr) ;;;
    ret addr
  else ret (addr_at ip n).

Definition bmap (i : nat) (bn : Z) : M fs Z :=
  if bn <? NDIRECT then addr_or_alloc i bn else
  let bn := bn - NDIRECT in
  if bn <? NINDIRECT then
    addr <- addr_or_alloc i NDIRECT ;;
    ip <- get_inode i ;;
    bp <- bread (i_dev ip) addr ;;
    v <- get_buf bp ;;
    let a := get32 (b_data v) (Z.to_nat (4 * bn)) in
    if a =? 0 then
      addr <- balloc (i_dev ip) ;;
      upd_buf bp (fun v => set_b_data (put32 (b_data v) (Z.to_nat (4 * bn)) addr) v) ;;;
      log_write bp ;;;
      brelse bp ;;;
      ret addr
    else
      brelse bp ;;;
      ret a
  else panic "bmap: out of range".

Fixpoint itrunc_direct (i : nat) (n : nat) (k : Z) : M fs unit :=
  match n with
  | O => ret tt
  | S n =>
    ip <- get_inode i ;;
    (when negb (addr_at ip k =? 0) do
      (bfree (i_dev ip) (addr_at ip k) ;;;
       upd_inode i (set_addr k 0))) ;;;
    itrunc_direct i n (k + 1)
  end.
Fixpoint itrunc_indirect (dev : Z) (bp : nat) (n : nat) (j : Z) : M fs unit :=
  match n with
  | O => ret tt
  | S n =>
    v <- get_buf bp ;;
    let a := get32 (b_data v) (Z.to_nat (4 * j)) in
    (when negb (a =? 0) do bfree dev a) ;;;
    itrunc_indirect dev bp n (j + 1)
  end.
Definition itrunc (i : nat) : M fs unit :=
  itrunc_direct i (Z.to_nat NDIRECT) 0 ;;;
  ip <- get_inode i ;;
  (when negb (addr_at ip NDIRECT =? 0) do
    (bp <- bread (i_dev ip) (addr_at ip NDIRECT) ;;
     itrunc_indirect (i_dev ip) bp (Z.to_nat NINDIRECT) 0 ;;;
     brelse bp ;;;
     bfree (i_dev ip) (addr_at ip NDIRECT) ;;;
     upd_inode i (set_addr NDIRECT 0))) ;;;
  upd_inode i (set_i_size 0) ;;;
  iupdate i.

Definition iput (i : nat) : M fs unit :=
  acquiresleep (SlInode i) ;;;
  ip <- get_inode i ;;
  (when negb (i_valid ip =? 0) && (i_nlink ip =? 0) do
    (acquire LkIcache ;;;
     ip <- get_inode i ;;
     release LkIcache ;;;
     when (i_ref ip =? 1) do
       (itrunc i ;;;
        upd_inode i (set_i_type 0) ;;;
        iupdate i ;;;
        upd_inode i (set_i_valid 0)))) ;;;
  releasesleep (SlInode i) ;;;
  acquire LkIcache ;;;
  upd_inode i (fun ip => set_i_ref (i_ref ip - 1) ip) ;;;
  release LkIcache.

Definition iunlockput (i : nat) : M fs unit := iunlock i ;;; iput i.

Definition stati (i : nat) : M fs stat :=
  ip <- get_inode i ;;
  ret (Stat (i_type ip) (s32 (i_dev ip)) (i_inum ip) (i_nlink ip) (i_size ip)).

Definition slice (d : list Z) (o m : Z) : list Z := take (Z.to_nat m) (drop (Z.to_nat o) d).

(** The loop of [readi]; [n - tot] bytes are left.  Each iteration reads at least one. *)
Fixpoint readi_loop (i : nat) (fuel : nat) (off left : Z) : M fs (list Z) :=
  if left <=? 0 then ret [] else
  match fuel with
  | O => ub "readi"
  | S fuel =>
    ip <- get_inode i ;;
    addr <- bmap i (off / Z.of_nat BSIZE) ;;
    bp <- bread (i_dev ip) addr ;;
    let o := off mod Z.of_nat BSIZE in
    let m := Z.min left (Z.of_nat BSIZE - o) in
    v <- get_buf bp ;;
    brelse bp ;;;
    rest <- readi_loop i fuel (off + m) (left - m) ;;
    ret (slice (b_data v) o m ++ rest)
  end.

Definition readi (i : nat) (off n : Z) : M fs (Z * list Z) :=
  ip <- get_inode i ;;
  if i_type ip =? T_DEV then
    if (i_major ip <? 0) || (NDEV <=? i_major ip) then ret (-1, []) else
    match devread (i_major ip) with
    | Some f => f i n
    | None => ret (-1, [])
    end
  else
  if (i_size ip <? off) || (u32 (off + n) <? off) then ret (-1, []) else
  let n := if i_size ip <? off + n then i_size ip - off else n in
  l <- readi_loop i (Z.to_nat n) off n ;;
  ret (s32 n, l).

Fixpoint writei_loop (i : nat) (fuel : nat) (src : list Z) (off left : Z) : M fs Z :=
  if left <=? 0 then ret off else
  match fuel with
  | O => ub "writei"
  | S fuel =>
    ip <- get_inode i ;;
    addr <- bmap i (off / Z.of_nat BSIZE) ;;
    bp <- bread (i_dev ip) addr ;;
    let o := off mod Z.of_nat BSIZE in
    let m := Z.min left (Z.of_nat BSIZE - o) in
    upd_buf bp (fun v => set_b_data (splice (b_data v) (Z.to_nat o) (slice src 0 m)) v) ;;;
    log_write bp ;;;
    brelse bp ;;;
    writei_loop i fuel (drop (Z.to_nat m) src) (off + m) (left - m)
  end.

Definition writei (i : nat) (src : list Z) (off n : Z) : M fs Z :=
  ip <- get_inode i ;;
  if i_type ip =? T_DEV then
    if (i_major ip <? 0) || (NDEV <=? i_major ip) then ret (-1) else
    match devwrite (i_major ip) with
    | Some f => f i src n
    | None => ret (-1)
    end
  else
  if (i_size ip <? off) || (u32 (off + n) <? off) then ret (-1) else
  if MAXFILE * Z.of_nat BSIZE <? off + n then ret (-1) else
  off' <- writei_loop i (Z.to_nat n) src off n ;;
  ip <- get_inode i ;;
  (when (0 <? n) && (i_size ip <? off') do
    (upd_inode i (set_i_size off') ;;;
     iupdate i)) ;;;
  ret (s32 n).

(** ** Directories *)

Definition namecmp (s t : list Z) : Z := strncmp (arr s) (arr t) DIRSIZ.

Definition de_inum (d : list Z) : Z := get16 d 0.
Definition de_name (d : list Z) : list Z := take 14 (drop 2 d).

(** The result is the inode and the offset of the entry. *)
Fixpoint dirlookup_loop (dp : nat) (name : list Z) (n : nat) (off : Z) : M fs (option (nat * Z)) :=
  match n with
  | O => ret None
  | S n =>
    r <- readi dp off DIRENT_SIZE ;;
    if negb (fst r =? DIRENT_SIZE) then panic "dirlookup read" else
    let de := snd r in
    if de_inum de =? 0 then dirlookup_loop dp name n (off + DIRENT_SIZE) else
    if namecmp name (de_name de) =? 0 then
      ip <- get_inode dp ;;
      j <- iget (i_dev ip) (de_inum de) ;;
      ret (Some (j, off))
    else dirlookup_loop dp name n (off + DIRENT_SIZE)
  end.
(** The loop runs while [off < dp->size]. *)
Definition dir_entries (ip : inode) : nat := Z.to_nat ((i_size ip + DIRENT_SIZE - 1) / DIRENT_SIZE).
Definition dirlookup (dp : nat) (name : list Z) : M fs (option (nat * Z)) :=
  ip <- get_inode dp ;;
  if negb (i_type ip =? T_DIR) then panic "dirlookup not DIR" else
  dirlookup_loop dp name (dir_entries ip) 0.

Fixpoint dirlink_scan (dp : nat) (n : nat) (off : Z) : M fs Z :=
  match n with
  | O => ret off
  | S n =>
    r <- readi dp off DIRENT_SIZE ;;
    if negb (fst r =? DIRENT_SIZE) then panic "dirlink read" else
    if de_inum (snd r) =? 0 then ret off else dirlink_scan dp n (off + DIRENT_SIZE)
  end.
Definition dirlink (dp : nat) (name : list Z) (inum : Z) : M fs Z :=
  found <- dirlookup dp name ;;
  match found with
  | Some (ip, _) => iput ip ;;; ret (-1)
  | None =>
    ip <- get_inode dp ;;
    off <- dirlink_scan dp (dir_entries ip) 0 ;;
    let de := le 2 inum ++ strncpy (arr name) DIRSIZ in
    r <- writei dp de off DIRENT_SIZE ;;
    if negb (r =? DIRENT_SIZE) then panic "dirlink" else ret 0
  end.

(** ** Paths *)

Definition slash : Z := 47.
Fixpoint skip_slashes (path : list Z) : list Z :=
  match path with
  | c :: p => if c =? slash then skip_slashes p else path
  | [] => []
  end.
Fixpoint until_slash (path : list Z) : list Z * list Z :=
  match path with
  | c :: p => if c =? slash then ([], path) else let r := until_slash p in (c :: fst r, snd r)
  | [] => ([], [])
  end.

(** The next element of [path] is copied into [name]; the result is the rest of the path. *)
Definition skipelem (path name : list Z) : option (list Z * list Z) :=
  match skip_slashes path with
  | [] => None
  | path =>
    let (s, path) := until_slash path in
    let name := if DIRSIZ <=? Z.of_nat (length s) then take (Z.to_nat DIRSIZ) s
                else splice name 0 (s ++ [0]) in
    Some (skip_slashes path, name)
  end.

(** The loop of [namex]; the value is the inode and [name]. *)
Fixpoint namex_loop (fuel : nat) (ip : nat) (path : list Z) (parent : bool) (name : list Z) : M fs (option nat * list Z) :=
  match skipelem path name with
  | None => if parent then iput ip ;;; ret (None, name) else ret (Some ip, name)
  | Some (path, name) =>
    match fuel with
    | O => ub "namex"
    | S fuel =>
      ilock ip ;;;
      v <- get_inode ip ;;
      if negb (i_type v =? T_DIR) then iunlockput ip ;;; ret (None, name)
      else if parent && bool_decide (path = []) then iunlock ip ;;; ret (Some ip, name)
      else
        next <- dirlookup ip name ;;
        match next with
        | None => iunlockput ip ;;; ret (None, name)
        | Some (next, _) => iunlockput ip ;;; namex_loop fuel next path parent name
        end
    end
  end.
(** Each iteration removes at least one character of the path. *)
Definition namex (path : list Z) (parent : bool) (name : list Z) : M fs (option nat * list Z) :=
  ip <- (match path with
         | c :: _ => if c =? slash then iget ROOTDEV ROOTINO else
             cwd <- gets s_cwd ;; match cwd with Some d => idup d | None => ub "idup: null inode" end
         | [] => cwd <- gets s_cwd ;; match cwd with Some d => idup d | None => ub "idup: null inode" end
         end) ;;
  namex_loop (length path) ip path parent name.

Definition namei (path : list Z) : M fs (option nat) :=
  r <- namex path false (replicate 14 0) ;; ret (fst r).
Definition nameiparent (path name : list Z) : M fs (option nat * list Z) := namex path true name.

End Fs.
