(* ===== verification/FsSpec.v ===== *)
(** * What the operations of fs.c do to blocks

    Inside a transaction an operation reads a block, changes it, records it in the log and
    releases it.  This file describes such steps by the contents of blocks, and the
    block allocator by the bits of the bitmap. *)

From S2P Require Import Prelude Mmu Mem Cstring Blk FsState Bio BioSpec Log LogSpec LogProps LogOps Fs.

(** ** Steps on one block *)

(** A state inside an operation whose header lists [hs], with room for another block. *)
Record in_op (hs : list Z) (s : fs) : Prop := {
  io_quiet : quiet s;
  io_lock : LkLog ∉ s_locks s;
  io_txn : txn hs s;
  io_room : Z.of_nat (length hs) < LOGSIZE /\ Z.of_nat (length hs) < l_size (s_log s) - 1;
  io_out : 1 <= l_outstanding (s_log s)
}.

(** What such steps leave alone. *)
Record same_fs (s s' : fs) : Prop := {
  sf_locks : s_locks s' = s_locks s;
  sf_pid : s_pid s' = s_pid s;
  sf_cwd : s_cwd s' = s_cwd s;
  sf_sb : s_sb s' = s_sb s;
  sf_inodes : s_inodes s' = s_inodes s;
  sf_disk : s_disk s' = s_disk s;
  sf_writes : s_writes s' = s_writes s;
  sf_size : l_size (s_log s') = l_size (s_log s);
  sf_out : l_outstanding (s_log s') = l_outstanding (s_log s)
}.
Lemma same_fs_refl s : same_fs s s.
Proof. done. Qed.
Lemma same_fs_trans s1 s2 s3 : same_fs s1 s2 -> same_fs s2 s3 -> same_fs s1 s3.
Proof. intros [] []. split; congruence. Qed.
Lemma same_fs_rest s s' : same_rest s s' -> s_disk s' = s_disk s -> s_writes s' = s_writes s -> same_fs s s'.
Proof. intros [? ? ? El ? ?] ? ?. split; try done; by rewrite El. Qed.

Lemma in_op_small hs s : in_op hs s -> (length hs < NBUF)%nat.
Proof. intros [_ _ _ [H _] _]. unfold LOGSIZE, NBUF in *. lia. Qed.

Lemma length_absorbed n hs : (length hs <= length (absorbed n hs) <= length hs + 1)%nat.
Proof. unfold absorbed. destruct (decide (n ∈ hs)); rewrite ?length_app; cbn; lia. Qed.

(** A read of a block. *)
Lemma read_block n hs s :
  quiet s -> (forall k, dirty s k -> k ∈ hs) -> (length hs < NBUF)%nat -> 0 <= n < Z.of_nat (length (s_disk s)) ->
  exists i b s1 s2, bread 1 n s = Ret i s1 /\ get_buf i s1 = Ret b s1 /\ b_data b = content s n /\ brelse i s1 = Ret tt s2 /\
    quiet s2 /\ same_rest s s2 /\ s_disk s2 = s_disk s /\ s_writes s2 = s_writes s /\ s_sb s1 = s_sb s /\
    (forall k, content s2 k = content s k) /\ (forall k, dirty s2 k <-> dirty s k).
Proof.
  intros Hq Hd Hl Hn.
  destruct (one_bread s hs n Hq Hd Hl Hn) as (i & b & s1 & E1 & Hs1 & R1 & D1 & W1 & M1 & Hr1 & Hd1 & H61 & C1 & Y1 & O1).
  destruct (one_brelse s1 i n b Hs1 (unlatched_same _ _ R1 (q_unlatched s Hq)) M1 Hr1) as (s2 & E2 & Q2 & R2 & D2 & W2 & C2 & Y2).
  - intros H2. rewrite Hd1, D1. apply quiet_clean; [done|]. intros H6%H61. congruence.
  - done.
  - exists i, b, s1, s2. split; [done|]. split; [by apply get_buf_eq, M1|]. split; [done|]. split; [done|]. split; [done|].
    split; [by eapply same_rest_trans|]. split; [congruence|]. split; [congruence|]. split; [apply R1|].
    split; intros k; [by rewrite C2, C1|by rewrite Y2, Y1].
Qed.

(** A block that is read, changed by [f] and recorded. *)
Lemma modify_block n f (g : buf -> buf) hs s :
  in_op hs s -> 0 <= n < Z.of_nat (length (s_disk s)) -> Z.of_nat (length (s_disk s)) <= 2 ^ 31 ->
  (forall v, b_data v = content s n -> g v = set_b_data f v) ->
  exists i b s1 s2 s3 s', bread 1 n s = Ret i s1 /\ get_buf i s1 = Ret b s1 /\ b_data b = content s n /\ s_sb s1 = s_sb s /\
    upd_buf i g s1 = Ret tt s2 /\ log_write i s2 = Ret tt s3 /\ brelse i s3 = Ret tt s' /\
    quiet s' /\ txn (absorbed n hs) s' /\ same_fs s s' /\
    (forall k, content s' k = if k =? n then f else content s k).
Proof.
  intros [Hq Hlk T [Hr1 Hr2] Hout] Hn Hsz Hg. assert (Hl : (length hs < NBUF)%nat) by (unfold LOGSIZE, NBUF in *; lia).
  destruct (one_bread s hs n Hq) as (i & b & s1 & E1 & Hs1 & R1 & D1 & W1 & M1 & Hrf & Hd1 & H61 & C1 & Y1 & O1);
    [intros k; apply (tx_dirty _ _ T)|done|done|].
  destruct (upd_data_spec i n b f s1 Hs1 M1) as (E2 & Hs2 & M2 & C2 & Y2). set (s2 := set_bufs _ s1) in *.
  assert (El2 : s_log s2 = s_log s) by apply (sr_log _ _ R1).
  assert (T2 : txn hs s2).
  { destruct T as [Tn Tlh Tlen Tnd Tr Td]. split; rewrite ?El2; try done. intros k. by rewrite Y2, Y1. }
  assert (Hlk2 : LkLog ∉ s_locks s2) by (change (s_locks s2) with (s_locks s1); by rewrite (sr_locks _ _ R1)).
  pose proof (log_write_spec i n _ hs s2 Hs2 Hlk2 M2 ltac:(lia) T2) as H3. rewrite El2 in H3.
  rewrite (proj2 (Z.leb_gt _ _) Hr1) in H3. rewrite (proj2 (Z.leb_gt _ _) Hr2) in H3. cbn [orb] in H3.
  rewrite (proj2 (Z.ltb_ge _ _)) in H3 by lia. destruct H3 as (E3 & T3 & Hs3 & M3 & C3). set (s3 := set_log _ _) in *.
  assert (Hun3 : unlatched s3) by (apply (unlatched_same s s1 R1), Hq).
  destruct (one_brelse s3 i n (set_b_flags 6 (set_b_data f b)) Hs3 Hun3 M3) as (s4 & E4 & Q4 & R4 & D4 & W4 & C4 & Y4); [done|done| |].
  { intros j b' Hj. cbn. rewrite list_insert_insert_eq, list_lookup_insert_ne by done. by apply O1. }
  exists i, b, s1, s2, s3, s4. split; [done|]. split; [by apply get_buf_eq, M1|]. split; [done|]. split; [apply R1|].
  split; [rewrite (upd_buf_eq i g b s1 (proj1 M1)), (Hg b Hd1); done|]. split; [done|]. split; [done|]. split; [done|].
  assert (El4 : s_log s4 = logged n hs (s_log s)) by (by rewrite (sr_log _ _ R4)).
  split.
  { destruct T3 as [Tn Tlh Tlen Tnd Tr Td]. split; rewrite ?El4; try done. intros k. rewrite Y4. apply Td. }
  split.
  - destruct R1 as [L1 P1 W1' _ S1 I1], R4 as [L4 P4 W4' _ S4 I4]. split; rewrite ?El4; try done.
    + by rewrite L4.
    + by rewrite P4.
    + by rewrite W4'.
    + by rewrite S4.
    + by rewrite I4.
    + by rewrite D4.
    + by rewrite W4.
  - intros k. rewrite C4, C3, C2. by destruct (k =? n).
Qed.

(** ** Bits of the bitmap *)

Lemma bit_free_testbit d bi : 0 <= bi -> bit_free d bi = negb (Z.testbit (bit_byte d bi) (bi mod 8)).
Proof.
  intros Hb. unfold bit_free, bit_mask. set (k := bi mod 8). assert (Hk : 0 <= k) by (apply Z.mod_pos_bound; lia).
  rewrite Z.shiftl_1_l. destruct (Z.testbit (bit_byte d bi) k) eqn:E; cbn.
  - apply Z.eqb_neq. intros H0. apply (f_equal (fun x => Z.testbit x k)) in H0.
    rewrite Z.land_spec, E, Z.pow2_bits_true, Z.bits_0 in H0 by done. done.
  - apply Z.eqb_eq, Z.bits_inj'. intros n Hn. rewrite Z.land_spec, Z.bits_0, Z.pow2_bits_eqb by done.
    destruct (Z.eqb_spec k n) as [->|]; [by rewrite E|by rewrite andb_false_r].
Qed.

Lemma bit_byte_insert d v i j :
  0 <= i -> 0 <= j -> i / 8 < Z.of_nat (length d) ->
  bit_byte (<[Z.to_nat (i / 8) := v]> d) j = if j / 8 =? i / 8 then v else bit_byte d j.
Proof.
  intros Hi Hj Hl. unfold bit_byte. rewrite !nth_lookup. assert (0 <= i / 8) by (apply Z.div_pos; lia).
  assert (0 <= j / 8) by (apply Z.div_pos; lia). destruct (Z.eqb_spec (j / 8) (i / 8)) as [->|Hne].
  - by rewrite list_lookup_insert_eq by lia.
  - by rewrite list_lookup_insert_ne by lia.
Qed.

Lemma same_bit i j : 0 <= i -> 0 <= j -> i / 8 = j / 8 -> i mod 8 = j mod 8 -> i = j.
Proof. intros Hi Hj Hd Hm. rewrite (Z.div_mod i 8), (Z.div_mod j 8) by lia. by rewrite Hd, Hm. Qed.

Lemma bit_free_set d i j :
  0 <= i -> 0 <= j -> i / 8 < Z.of_nat (length d) -> bit_free (bit_set d i) j = if j =? i then false else bit_free d j.
Proof.
  intros Hi Hj Hl. rewrite !bit_free_testbit by done. unfold bit_set. rewrite bit_byte_insert by done.
  assert (Hk : 0 <= i mod 8) by (apply Z.mod_pos_bound; lia). assert (Hk2 : 0 <= j mod 8) by (apply Z.mod_pos_bound; lia).
  destruct (Z.eqb_spec (j / 8) (i / 8)) as [E|E].
  - unfold bit_mask. rewrite Z.shiftl_1_l, Z.lor_spec, Z.pow2_bits_eqb by done.
    assert (Hby : bit_byte d i = bit_byte d j) by (unfold bit_byte; by rewrite E). rewrite Hby.
    destruct (Z.eqb_spec j i) as [->|Hne]; [by rewrite Z.eqb_refl, orb_true_r|].
    rewrite (proj2 (Z.eqb_neq (i mod 8) (j mod 8))); [by rewrite orb_false_r|]. intros Hm. by apply Hne, same_bit.
  - destruct (Z.eqb_spec j i) as [->|]; done.
Qed.

Lemma bit_free_clear d i j :
  0 <= i -> 0 <= j -> i / 8 < Z.of_nat (length d) -> bit_free (bit_clear d i) j = if j =? i then true else bit_free d j.
Proof.
  intros Hi Hj Hl. rewrite !bit_free_testbit by done. unfold bit_clear. rewrite bit_byte_insert by done.
  assert (Hk : 0 <= i mod 8) by (apply Z.mod_pos_bound; lia). assert (Hk2 : 0 <= j mod 8) by (apply Z.mod_pos_bound; lia).
  destruct (Z.eqb_spec (j / 8) (i / 8)) as [E|E].
  - unfold bit_mask. rewrite Z.shiftl_1_l, Z.land_spec, Z.lnot_spec, Z.pow2_bits_eqb by done.
    assert (Hby : bit_byte d i = bit_byte d j) by (unfold bit_byte; by rewrite E). rewrite Hby.
    destruct (Z.eqb_spec j i) as [->|Hne]; [by rewrite Z.eqb_refl, andb_false_r|].
    rewrite (proj2 (Z.eqb_neq (i mod 8) (j mod 8))); [by rewrite andb_true_r|]. intros Hm. by apply Hne, same_bit.
  - destruct (Z.eqb_spec j i) as [->|]; done.
Qed.

Lemma free_bit_spec d b size n : forall bi,
  match free_bit d b size n bi with
  | Some r => bi <= r < bi + Z.of_nat n /\ b + r < size /\ bit_free d r = true /\ forall x, bi <= x < r -> bit_free d x = false
  | None => forall x, bi <= x < bi + Z.of_nat n -> b + x < size -> bit_free d x = false
  end.
Proof.
  induction n as [|n IH]; intros bi; cbn [free_bit]; [intros x Hx; lia|].
  destruct (Z.ltb_spec (b + bi) size) as [Hlt|Hge]; cbn [negb]; [|intros x Hx Hs; lia].
  destruct (bit_free d bi) eqn:E; [split; [lia|]; split; [done|]; split; [done|]; intros x Hx; lia|].
  specialize (IH (bi + 1)). destruct (free_bit d b size n (bi + 1)) as [r|].
  - destruct IH as (H1 & H2 & H3 & H4). split; [lia|]. split; [done|]. split; [done|]. intros x Hx.
    destruct (decide (x = bi)) as [->|]; [done|]. apply H4. lia.
  - intros x Hx Hs. destruct (decide (x = bi)) as [->|]; [done|]. apply IH; lia.
Qed.

(** Is block [b] free, according to the contents of the bitmap? *)
Definition block_free (c : Z -> list Z) (sb : superblock) (b : Z) : bool := bit_free (c (BBLOCK b sb)) (b mod BPB).

(** ** The block allocator *)

(** The bitmap is on the disk, and the blocks that hold it are in use. *)
Record bitmap_ok (s : fs) : Prop := {
  bm_size : 0 <= sb_size (s_sb s) <= Z.of_nat (length (s_disk s));
  bm_disk : Z.of_nat (length (s_disk s)) <= 2 ^ 31;
  bm_where : forall b, 0 <= b < sb_size (s_sb s) -> 0 <= BBLOCK b (s_sb s) < sb_size (s_sb s);
  bm_len : forall b, 0 <= b < sb_size (s_sb s) -> length (content s (BBLOCK b (s_sb s))) = BSIZE;
  bm_used : forall b, 0 <= b < sb_size (s_sb s) -> block_free (content s) (s_sb s) (BBLOCK b (s_sb s)) = false
}.

Lemma in_op_same hs s s' :
  in_op hs s -> quiet s' -> same_rest s s' -> (forall k, dirty s' k <-> dirty s k) -> in_op hs s'.
Proof.
  intros [Q L [Tn Tlh Tlen Tnd Tr Td] R O] Q' [L' _ _ El _ _] Y. split; rewrite ?El, ?L'; try done.
  split; rewrite ?El; try done. intros k. by rewrite Y.
Qed.

Lemma bblock_of b bi sb : b mod BPB = 0 -> 0 <= bi < BPB -> BBLOCK (b + bi) sb = BBLOCK b sb /\ (b + bi) mod BPB = bi.
Proof.
  intros Hb Hbi. unfold BBLOCK, BPB in *. assert (E : b = b / 4096 * 4096) by (pose proof (Z.div_mod b 4096); lia).
  set (q := b / 4096) in *. replace (b + bi) with (bi + q * 4096) by lia.
  rewrite Z.div_add, Z.mod_add, Z.div_small, Z.mod_small by lia. done.
Qed.

(** [balloc] took block [r]. *)
Record allocated (r : Z) (hs : list Z) (s s' : fs) : Prop := {
  ac_range : 0 <= r < sb_size (s_sb s);
  ac_free : block_free (content s) (s_sb s) r = true;
  ac_first : forall x, 0 <= x < r -> block_free (content s) (s_sb s) x = false;
  ac_quiet : quiet s';
  ac_txn : txn (absorbed r (absorbed (BBLOCK r (s_sb s)) hs)) s';
  ac_same : same_fs s s';
  ac_content : forall k, content s' k =
    if k =? r then replicate BSIZE 0
    else if k =? BBLOCK r (s_sb s) then bit_set (content s (BBLOCK r (s_sb s))) (r mod BPB) else content s k
}.

Lemma in_op_next n hs s s' :
  in_op hs s -> quiet s' -> txn (absorbed n hs) s' -> same_fs s s' ->
  Z.of_nat (length hs) + 1 < LOGSIZE /\ Z.of_nat (length hs) + 1 < l_size (s_log s) - 1 -> in_op (absorbed n hs) s'.
Proof.
  intros [Q L T R O] Q' T' F' Hroom. pose proof (length_absorbed n hs). split; [done| |done| |].
  - by rewrite (sf_locks _ _ F').
  - rewrite (sf_size _ _ F'). lia.
  - by rewrite (sf_out _ _ F').
Qed.

(** The branch of [balloc] that found bit [bi] of the bitmap block of [b]. *)
Lemma balloc_take b bi hs s :
  in_op hs s -> bitmap_ok s -> Z.of_nat (length hs) + 1 < LOGSIZE /\ Z.of_nat (length hs) + 1 < l_size (s_log s) - 1 ->
  b mod BPB = 0 -> 0 <= b -> 0 <= bi < BPB -> b + bi < sb_size (s_sb s) ->
  bit_free (content s (BBLOCK b (s_sb s))) bi = true -> (forall x, 0 <= x < b + bi -> block_free (content s) (s_sb s) x = false) ->
  exists bp v s1 s', bread 1 (BBLOCK b (s_sb s)) s = Ret bp s1 /\ get_buf bp s1 = Ret v s1 /\
    b_data v = content s (BBLOCK b (s_sb s)) /\
    (upd_buf bp (fun v => set_b_data (bit_set (b_data v) bi) v) ;;; log_write bp ;;; brelse bp ;;; bzero 1 (b + bi) ;;;
     ret (b + bi)) s1 = Ret (b + bi) s' /\ allocated (b + bi) hs s s'.
Proof.
  intros Hop Hbm Hroom Hb Hb0 Hbi Hsize Hfree Hfirst. destruct (bblock_of b bi (s_sb s) Hb Hbi) as [Ebb Emod].
  assert (Hr : 0 <= b + bi < sb_size (s_sb s)) by lia. pose proof (bm_where s Hbm _ Hr) as Hw. rewrite Ebb in Hw.
  pose proof (bm_size s Hbm) as Hsz. pose proof (bm_disk s Hbm) as Hdk.
  set (d := content s (BBLOCK b (s_sb s))) in *.
  destruct (modify_block (BBLOCK b (s_sb s)) (bit_set d bi) (fun v => set_b_data (bit_set (b_data v) bi) v) hs s Hop)
    as (bp & v & s1 & s2 & s3 & s4 & E1 & E2 & Ed & _ & E3 & E4 & E5 & Q4 & T4 & F4 & C4); [lia|done|by intros v ->|].
  pose proof (in_op_next _ _ _ _ Hop Q4 T4 F4 Hroom) as Hop4.
  destruct (modify_block (b + bi) (replicate BSIZE 0) (set_b_data (replicate BSIZE 0)) _ s4 Hop4)
    as (bp5 & v5 & s5 & s6 & s7 & s8 & E6 & _ & _ & _ & E7 & E8 & E9 & Q8 & T8 & F8 & C8);
    [rewrite (sf_disk _ _ F4); lia|by rewrite (sf_disk _ _ F4)|done|].
  exists bp, v, s1, s8. split; [done|]. split; [done|]. split; [done|]. split.
  - step E3. step E4. step E5. unfold bzero. rewrite bind_assoc. step E6. rewrite bind_assoc. step E7. rewrite bind_assoc. step E8.
    by step E9.
  - split; [done| |done|done|by rewrite Ebb|by eapply same_fs_trans|].
    + unfold block_free. by rewrite Ebb, Emod.
    + intros k. rewrite C8, C4, Ebb, Emod. done.
Qed.

Lemma balloc_loop_spec n : forall b hs s,
  in_op hs s -> bitmap_ok s -> Z.of_nat (length hs) + 1 < LOGSIZE /\ Z.of_nat (length hs) + 1 < l_size (s_log s) - 1 ->
  b mod BPB = 0 -> 0 <= b -> (Z.of_nat n - 1) * BPB < sb_size (s_sb s) - b <= Z.of_nat n * BPB ->
  (forall x, 0 <= x < b -> block_free (content s) (s_sb s) x = false) ->
  (exists r s', balloc_loop 1 n b s = Ret r s' /\ allocated r hs s s') \/
  (forall x, 0 <= x < sb_size (s_sb s) -> block_free (content s) (s_sb s) x = false) /\
    balloc_loop 1 n b s = Panic "balloc: out of blocks".
Proof.
  induction n as [|n IH]; intros b hs s Hop Hbm Hroom Hb Hb0 Hn Hfirst.
  - right. split; [|done]. intros x Hx. apply Hfirst. lia.
  - assert (Hbs : 0 <= b < sb_size (s_sb s)) by (unfold BPB in *; lia). cbn [balloc_loop]. rewrite bind_gets.
    set (d := content s (BBLOCK b (s_sb s))). pose proof (free_bit_spec d b (sb_size (s_sb s)) (Z.to_nat BPB) 0) as Hfb.
    destruct (free_bit d b (sb_size (s_sb s)) (Z.to_nat BPB) 0) as [bi|] eqn:Ef.
    + destruct Hfb as (Hbi & Hs & Hfree & Hno). left.
      destruct (balloc_take b bi hs s Hop Hbm Hroom Hb Hb0) as (bp & v & s1 & s' & E1 & E2 & Ed & E3 & Ha);
        [unfold BPB in *; lia|done|done| |].
      { intros x Hx. destruct (decide (x < b)) as [|Hge]; [apply Hfirst; lia|]. replace x with (b + (x - b)) by lia.
        destruct (bblock_of b (x - b) (s_sb s) Hb) as [E1 E2]; [unfold BPB in *; lia|]. unfold block_free. rewrite E1, E2.
        apply Hno. lia. }
      exists (b + bi), s'. split; [|done]. step E1. step E2. rewrite Ed. fold d. rewrite Ef. exact E3.
    + pose proof (bm_where s Hbm b Hbs) as Hw. pose proof (bm_size s Hbm) as Hsz.
      destruct (read_block (BBLOCK b (s_sb s)) hs s) as (bp & v & s1 & s2 & E1 & E2 & Ed & E3 & Q2 & R2 & D2 & W2 & _ & C2 & Y2);
        [apply Hop|intros k; apply (tx_dirty _ _ (io_txn _ _ Hop))|exact (in_op_small hs s Hop)|lia|].
      assert (Hop2 : in_op hs s2) by (exact (in_op_same hs s s2 Hop Q2 R2 Y2)).
      assert (Esb : s_sb s2 = s_sb s) by apply R2.
      assert (Hbm2 : bitmap_ok s2).
      { destruct Hbm as [B1 B2 B3 B4 B5]. split; rewrite ?Esb, ?D2; try done; intros x Hx; [rewrite C2; by apply B4|].
        unfold block_free. rewrite C2. by apply B5. }
      assert (Hfirst2 : forall x, 0 <= x < b + BPB -> x < sb_size (s_sb s) -> block_free (content s) (s_sb s) x = false).
      { intros x Hx Hxs. destruct (decide (x < b)) as [|Hge]; [apply Hfirst; lia|]. replace x with (b + (x - b)) by lia.
        destruct (bblock_of b (x - b) (s_sb s) Hb) as [E4 E5]; [lia|]. unfold block_free. rewrite E4, E5.
        apply Hfb; unfold BPB in *; lia. }
      destruct (decide (b + BPB < sb_size (s_sb s))) as [Hmore|Hend].
      * destruct (IH (b + BPB) hs s2 Hop2 Hbm2) as [(r & s' & E & Ha)|[Hall E]].
        -- by rewrite (sr_log _ _ R2).
        -- unfold BPB in *. rewrite <- Hb. rewrite <- (Z.mod_add b 1) by lia. f_equal.
        -- unfold BPB. lia.
        -- rewrite Esb. unfold BPB in *. lia.
        -- rewrite Esb. intros x Hx. unfold block_free. rewrite C2. apply Hfirst2; [done|unfold BPB in *; lia].
        -- left. exists r, s'. split; [by step E1; step E2; rewrite Ed; fold d; rewrite Ef; step E3|].
           destruct Ha as [A1 A2 A3 A4 A5 A6 A7]. rewrite Esb in *. split; try done.
           ++ unfold block_free in *. by rewrite <- C2.
           ++ intros x Hx. unfold block_free in *. rewrite <- C2. by apply A3.
           ++ eapply same_fs_trans; [by apply same_fs_rest|done].
           ++ intros k. rewrite A7, !C2. done.
        -- right. rewrite Esb in Hall. split; [intros x Hx; unfold block_free in *; rewrite <- C2; by apply Hall|].
           by step E1; step E2; rewrite Ed; fold d; rewrite Ef; step E3.
      * right. split; [intros x Hx; apply Hfirst2; lia|]. step E1. step E2. rewrite Ed. fold d. rewrite Ef. step E3.
        assert (n = 0%nat) as -> by (unfold BPB in *; lia). done.
Qed.
