(* ===== verification/FsProps.v ===== *)
(** * What the file system guarantees

    The properties of bio.c and fs.c, and a small disk to try them on. *)

From S2P Require Import Prelude Mmu Mem Cstring Blk FsState Bio BioSpec Log LogSpec LogProps LogOps Fs FsSpec.

(** ** The buffer cache *)

Lemma clean_content s i b n :
  cache_ok s -> s_bufs s !! i = Some b -> is_block 1 n b = true -> locked (b_lock b) = 0 -> ~ dirty s n ->
  content s n = dblock (s_disk s) n.
Proof.
  intros Hs Hb Ht Hl Hnd. rewrite (content_cached s i b n Hs Hb Ht). pose proof (co_bufs s Hs i b Hb) as Hok.
  pose proof Ht as [Hd <-]%is_block_true. apply (bo_clean _ _ Hok); [|done].
  destruct (bo_dev _ _ Hok) as [(? & _)|[_ [?|H6]]]; [congruence|done|]. destruct Hnd. by exists i, b.
Qed.

(** C15. The buffer cache is invisible, whatever buffers are in use.  For a block [n] whose
    buffer somebody has locked, [bread] counts the caller in and waits for that lock; when
    there is neither a buffer for [n] nor one that nobody refers to and that is not dirty,
    it panics.  Otherwise it returns a buffer that the caller has locked and that holds the
    current contents of the block: the one that had the block, with one reference more, or
    else one that had no reference and was not dirty.  Every other buffer is untouched,
    nothing is written, the contents of no block change, and no dirty block loses its
    buffer.  [brelse] then drops the reference, and unlocks the buffer; if the reference
    was the last the buffer becomes the most recently used and the others keep their order,
    and if there are others left the list stays as it is. *)
Theorem buffer_cache_correct n l s :
  cache_ok s -> unlatched s -> ring (s_next s) (s_prev s) l -> 0 <= n < Z.of_nat (length (s_disk s)) ->
  (forall i b, s_bufs s !! i = Some b -> is_block 1 n b = true -> locked (b_lock b) <> 0 ->
    bread 1 n s = Block (ChSleep (SlBuf i)) (set_bufs (<[i := set_b_refcnt (u32 (b_refcnt b + 1)) b]> (s_bufs s)) s)) /\
  ((forall i, ~ avail s n i) -> bread 1 n s = Panic "bget: no buffers") /\
  ((exists i, avail s n i) ->
   (forall i b, s_bufs s !! i = Some b -> is_block 1 n b = true -> locked (b_lock b) = 0 /\ b_refcnt b < 2 ^ 31 - 1) ->
   exists i b0 b s1 s2, bread 1 n s = Ret i s1 /\ s_bufs s !! i = Some b0 /\
    (is_block 1 n b0 = true /\ b_refcnt b = b_refcnt b0 + 1 \/
     (forall j c, s_bufs s !! j = Some c -> is_block 1 n c = false) /\ b_refcnt b0 = 0 /\ b_flags b0 <> 6 /\ b_refcnt b = 1) /\
    mine s1 i n b /\ b_data b = content s n /\ (forall j, j <> i -> s_bufs s1 !! j = s_bufs s !! j) /\
    (forall k, content s1 k = content s k) /\ (forall k, dirty s1 k <-> dirty s k) /\
    s_disk s1 = s_disk s /\ s_writes s1 = s_writes s /\
    brelse i s1 = Ret tt s2 /\ cache_ok s2 /\ s_bufs s2 = <[i := released b]> (s_bufs s1) /\
    (forall k, content s2 k = content s k) /\ (forall k, dirty s2 k <-> dirty s k) /\
    s_disk s2 = s_disk s /\ s_writes s2 = s_writes s /\
    if b_refcnt b =? 1 then exists l1 l2, l = l1 ++ i :: l2 /\ ring (s_next s2) (s_prev s2) (i :: l1 ++ l2)
    else ring (s_next s2) (s_prev s2) l).
Proof.
  intros Hs Hun R Hn. split; [|split].
  { intros i b Hb Ht Hl. unfold bread. by rewrite (bind_block _ _ _ _ _ (bget_waits n i b s Hs Hun Hb Ht Hl)). }
  { intros Hno. unfold bread. rewrite (bind_panic _ _ _ _ (bget_panics n s Hs Hun ltac:(
      intros i b Hb; split; apply not_true_is_false; intros E; apply (Hno i); exists b; auto))). done. }
  intros [i0 (b0 & Hb0 & Hav)] Hfree.
  destruct (bread_eq n s Hs Hun Hn Hfree) as (i & b & Hb & Hwhy & E); [by exists i0, b0|].
  destruct (bread_spec n s Hs Hun Hn Hfree) as (i' & b' & s1 & E' & Hs1 & R1 & D1 & W1 & M1 & Hd1 & H61 & C1 & Y1 & O1 & (c & Hc & Hr) & _);
    [by exists i0, b0|]. rewrite E in E'. injection E' as <- <-. set (s1 := set_bufs _ s) in *.
  assert (c = b) as -> by congruence.
  assert (Hun1 : unlatched s1) by done. pose proof M1 as (Hb' & Hk' & Hd' & Hn' & Href' & Hf' & Hrn').
  destruct (brelse_eq i b' l s1 Hb' Hun1 Hk' Href' R) as (nx & pv & l' & R' & Hl' & E2).
  { apply lookup_lt_Some in Hb. by rewrite (co_len s Hs) in Hb. }
  destruct (brelse_spec i n b' s1 Hs1 Hun1 M1) as (s2 & E2' & Hs2 & _ & D2 & W2 & B2 & C2 & Y2).
  { intros H2. rewrite Hd1, D1. assert (Hnd : ~ dirty s n) by (intros H6%H61; congruence).
    destruct Hwhy as [Ht|[_ Hno]]; [|by apply content_uncached]. destruct (Hfree i b Hb Ht). by apply (clean_content s i b). }
  rewrite E2 in E2'. injection E2' as <-. exists i, b, b', s1. eexists. split_and!; try done.
  - destruct Hwhy as [Ht|[Hu Hno]]; [left; by rewrite Hr, Ht|right]. destruct (unused_clean s i b Hs Hb Hu) as (? & ? & _).
    by rewrite Hr, (Hno i b Hb).
  - intros k. by rewrite C2, C1.
  - intros k. rewrite <- Y1. apply Y2.
  - destruct (b_refcnt b' =? 1); [|by rewrite <- Hl']. destruct Hl' as (l1 & l2 & -> & ->). by exists l1, l2.
Qed.

(** ** The block allocator *)

(** Two blocks with the same bit of the same bitmap block are the same. *)
Lemma same_bitmap_bit k b sb : BBLOCK k sb = BBLOCK b sb -> (k mod BPB =? b mod BPB) = (k =? b).
Proof.
  unfold BBLOCK, BPB. intros E. apply eq_bool_prop_intro. rewrite !Is_true_true, !Z.eqb_eq. split; [|by intros ->]. intros Em.
  rewrite (Z.div_mod k 4096), (Z.div_mod b 4096), Em by lia. assert (k / 4096 = b / 4096) as -> by lia. done.
Qed.

Lemma free_after_take r k hs s s' :
  bitmap_ok s -> allocated r hs s s' -> 0 <= k < sb_size (s_sb s) -> BBLOCK k (s_sb s) <> r ->
  block_free (content s') (s_sb s) k = if k =? r then false else block_free (content s) (s_sb s) k.
Proof.
  intros Hbm [A1 A2 _ _ _ _ A7] Hk Hne. unfold block_free. rewrite A7, (proj2 (Z.eqb_neq _ _) Hne).
  destruct (Z.eqb_spec (BBLOCK k (s_sb s)) (BBLOCK r (s_sb s))) as [E|E].
  - rewrite bit_free_set.
    + rewrite E, (same_bitmap_bit k r (s_sb s) E). done.
    + apply Z.mod_pos_bound. done.
    + apply Z.mod_pos_bound. done.
    + rewrite (bm_len s Hbm r A1). unfold BPB. pose proof (Z.mod_pos_bound r 4096 ltac:(lia)). unfold BSIZE.
      apply Z.div_lt_upper_bound; lia.
  - destruct (Z.eqb_spec k r) as [->|]; done.
Qed.

(** C16. [balloc], inside an operation with room in the log for two blocks: it returns
    the first block the bitmap calls free, marks that block and no other as used, leaves
    it zeroed, records both blocks in the log, and changes no other block and nothing on
    the disk; when every block is used it panics. *)
Theorem balloc_correct hs s :
  in_op hs s -> bitmap_ok s -> Z.of_nat (length hs) + 1 < LOGSIZE /\ Z.of_nat (length hs) + 1 < l_size (s_log s) - 1 ->
  (exists r s', balloc 1 s = Ret r s' /\ allocated r hs s s' /\ bitmap_ok s' /\
     forall k, 0 <= k < sb_size (s_sb s) ->
       block_free (content s') (s_sb s') k = if k =? r then false else block_free (content s) (s_sb s) k) \/
  (forall x, 0 <= x < sb_size (s_sb s) -> block_free (content s) (s_sb s) x = false) /\
    balloc 1 s = Panic "balloc: out of blocks".
Proof.
  intros Hop Hbm Hroom. pose proof (bm_size s Hbm) as Hsz. unfold balloc. rewrite bind_gets.
  destruct (balloc_loop_spec (Z.to_nat ((sb_size (s_sb s) + BPB - 1) / BPB)) 0 hs s Hop Hbm Hroom) as [(r & s' & E & Ha)|[Hall E]];
    [done|done| |intros x Hx; lia| |right; by split].
  { unfold BPB. set (m := sb_size (s_sb s)) in *. pose proof (Z.div_mod (m + 4096 - 1) 4096 ltac:(lia)).
    pose proof (Z.mod_pos_bound (m + 4096 - 1) 4096 ltac:(lia)). assert (0 <= (m + 4096 - 1) / 4096) by (apply Z.div_pos; lia). lia. }
  left. exists r, s'. split; [done|]. split; [done|]. pose proof Ha as [A1 A2 _ _ _ A6 A7].
  assert (Hne : forall k, 0 <= k < sb_size (s_sb s) -> BBLOCK k (s_sb s) <> r).
  { intros k Hk Er. pose proof (bm_used s Hbm k Hk) as Hu. rewrite Er in Hu. congruence. }
  assert (Hfr : forall k, 0 <= k < sb_size (s_sb s) ->
    block_free (content s') (s_sb s') k = if k =? r then false else block_free (content s) (s_sb s) k).
  { intros k Hk. rewrite (sf_sb _ _ A6). apply (free_after_take r k hs); auto. }
  split; [|done]. destruct Hbm as [B1 B2 B3 B4 B5]. split; rewrite ?(sf_disk _ _ A6); try done.
  - by rewrite (sf_sb _ _ A6).
  - by rewrite (sf_sb _ _ A6).
  - rewrite (sf_sb _ _ A6). intros b Hb. rewrite A7, (proj2 (Z.eqb_neq _ _) (Hne b Hb)).
    destruct (Z.eqb_spec (BBLOCK b (s_sb s)) (BBLOCK r (s_sb s))) as [E'|]; [|by apply B4].
    unfold bit_set. rewrite length_insert. by apply B4.
  - intros b Hb. rewrite (sf_sb _ _ A6) in Hb. rewrite Hfr by (rewrite (sf_sb _ _ A6); by apply B3).
    rewrite (sf_sb _ _ A6). destruct (_ =? r); [done|]. by apply B5.
Qed.

(** [bfree] of a block that is in use, when block 1 holds the superblock of the
    mounted file system: it marks that block and no other as free, records the bitmap
    block in the log, and changes no other block and nothing on the disk.  Of a block
    that is free already it panics. *)
Theorem bfree_correct b hs s :
  in_op hs s -> bitmap_ok s -> 1 < Z.of_nat (length (s_disk s)) -> sb_of (content s 1) = s_sb s -> 0 <= b < sb_size (s_sb s) ->
  if block_free (content s) (s_sb s) b then bfree 1 b s = Panic "freeing free block" else
  exists s', bfree 1 b s = Ret tt s' /\ quiet s' /\ txn (absorbed (BBLOCK b (s_sb s)) hs) s' /\ same_fs s s' /\
    (forall k, k <> BBLOCK b (s_sb s) -> content s' k = content s k) /\
    forall k, 0 <= k < sb_size (s_sb s) ->
      block_free (content s') (s_sb s') k = if k =? b then true else block_free (content s) (s_sb s) k.
Proof.
  intros Hop Hbm H1 Esb Hb. pose proof (bm_where s Hbm b Hb) as Hw. pose proof (bm_size s Hbm) as Hsz.
  pose proof (bm_disk s Hbm) as Hdk. pose proof (bm_len s Hbm b Hb) as Hlen.
  destruct (read_block 1 hs s) as (i & v & s1 & s2 & E1 & E2 & Ed & E3 & Q2 & R2 & D2 & W2 & _ & C2 & Y2);
    [apply Hop|intros k; apply (tx_dirty _ _ (io_txn _ _ Hop))|exact (in_op_small hs s Hop)|lia|].
  assert (Hop2 : in_op hs s2) by (exact (in_op_same hs s s2 Hop Q2 R2 Y2)).
  assert (Eset : set_sb (s_sb s) s2 = s2) by (rewrite <- (sr_sb _ _ R2); by destruct s2).
  set (n := BBLOCK b (s_sb s)) in *. set (d := content s n) in *.
  destruct (modify_block n (bit_clear d (b mod BPB)) (set_b_data (bit_clear d (b mod BPB))) hs s2 Hop2)
    as (j & w & s3 & s4 & s5 & s6 & F1 & F2 & Fd & _ & F3 & F4 & F5 & Q6 & T6 & S6 & C6); [rewrite D2; lia|by rewrite D2|done|].
  rewrite C2 in Fd. fold d in Fd.
  assert (Ebf : bfree 1 b s = (if bit_free d (b mod BPB) then panic "freeing free block" else
    upd_buf j (set_b_data (bit_clear d (b mod BPB))) ;;; log_write j ;;; brelse j) s3).
  { unfold bfree, readsb. rewrite !bind_assoc. step E1. rewrite !bind_assoc. step E2. rewrite !bind_assoc. step E3.
    rewrite Ed, Esb. step (eq_refl (ret (s_sb s) s2)). rewrite bind_modify, Eset. fold n. step F1. step F2. by rewrite Fd. }
  rewrite Ebf. unfold block_free at 1. fold n d. destruct (bit_free d (b mod BPB)) eqn:Efree; [done|].
  exists s6. split; [step F3; step F4; exact F5|]. split; [done|]. split; [done|].
  split; [eapply same_fs_trans; [by apply same_fs_rest|done]|].
  split; [intros k Hk; by rewrite C6, (proj2 (Z.eqb_neq _ _) Hk), C2|].
  intros k Hk. rewrite (sf_sb _ _ S6), (sr_sb _ _ R2). unfold block_free. rewrite C6, C2.
  destruct (Z.eqb_spec (BBLOCK k (s_sb s)) n) as [E|E]; [|destruct (Z.eqb_spec k b) as [->|]; done].
  rewrite bit_free_clear; [| | |].
  - rewrite E. fold d. by rewrite (same_bitmap_bit k b (s_sb s) E).
  - by apply Z.mod_pos_bound.
  - by apply Z.mod_pos_bound.
  - fold d. rewrite Hlen. unfold BPB. pose proof (Z.mod_pos_bound b 4096 ltac:(lia)). apply Z.div_lt_upper_bound; unfold BSIZE; lia.
Qed.

(** ** Inodes *)

Lemma get_splice n d o l k :
  (k + n <= length l)%nat -> (o + length l <= length d)%nat -> get n (splice d o l) (o + k) = get n l k.
Proof.
  intros Hk Ho. unfold get. f_equal. apply list_eq. intros i. destruct (decide (i < n)%nat) as [Hi|Hi].
  - rewrite !lookup_take_lt, !lookup_drop by done. rewrite lookup_splice_in by lia. f_equal. lia.
  - rewrite !lookup_take_ge by lia. done.
Qed.

Lemma get_splice_other n d o l k :
  (k + n <= o \/ o + length l <= k)%nat -> (o + length l <= length d)%nat -> get n (splice d o l) k = get n d k.
Proof. intros Hk Ho. apply get_ext. intros i Hi. apply lookup_splice_out; lia. Qed.

Lemma get_le n v l : get n (le n v ++ l) 0 = v mod 2 ^ (8 * Z.of_nat n).
Proof. unfold get. rewrite drop_0, take_app_length' by (by rewrite length_le). apply unle_le. Qed.

Lemma get_skip n m v l k : get n (le m v ++ l) (m + k) = get n l k.
Proof. unfold get. rewrite <- drop_drop, drop_app_length' by (by rewrite length_le). done. Qed.

Lemma get_words l : forall i v, l !! i = Some v -> get 4 (mjoin (le 4 <$> l)) (4 * i) = v mod 2 ^ 32.
Proof.
  induction l as [|x l IH]; intros i v Hv; [done|]. destruct i as [|i]; cbn [fmap list_fmap mjoin list_join].
  - injection Hv as ->. apply (get_le 4).
  - replace (4 * S i)%nat with (4 + 4 * i)%nat by lia. rewrite get_skip. by apply IH.
Qed.

Lemma length_words l : length (mjoin (le 4 <$> l)) = (4 * length l)%nat.
Proof.
  induction l as [|x l IH]; [done|]. change (mjoin (le 4 <$> x :: l)) with (le 4 x ++ mjoin (le 4 <$> l)).
  rewrite length_app, length_le, IH. cbn [length]. lia.
Qed.

(** The values the fields of an inode can have. *)
Record inode_ok (ip : inode) : Prop := {
  in_shorts : Forall (fun v => -2 ^ 15 <= v < 2 ^ 15) [i_type ip; i_major ip; i_minor ip; i_nlink ip];
  in_size : 0 <= i_size ip < 2 ^ 32;
  in_addrs : length (i_addrs ip) = 13%nat /\ Forall (fun v => 0 <= v < 2 ^ 32) (i_addrs ip);
  in_inum : 0 <= i_inum ip;
  in_dev : i_dev ip = 1
}.

(** [ip] with what the disk says of the inode [q]. *)
Definition copy_inode (q ip : inode) : inode :=
  Inode (i_dev ip) (i_inum ip) (i_ref ip) (i_lock ip) (i_valid ip) (i_type q) (i_major q) (i_minor q) (i_nlink q)
    (i_size q) (i_addrs q).

Lemma s16_mod v : -2 ^ 15 <= v < 2 ^ 15 -> s16 (v mod 2 ^ 16) = v.
Proof.
  intros Hv. unfold s16, u16. rewrite Z.mod_mod by done. destruct (Z.ltb_spec (v mod 2 ^ 16) (2 ^ 15)) as [H|H].
  - destruct (Z_lt_ge_dec v 0) as [Hn|Hp]; [|rewrite Z.mod_small; lia].
    rewrite <- (Z.mod_add v 1) in H by done. rewrite Z.mod_small in H; lia.
  - destruct (Z_lt_ge_dec v 0) as [Hn|Hp]; [|rewrite Z.mod_small in H; lia].
    rewrite <- (Z.mod_add v 1) by done. rewrite Z.mod_small; lia.
Qed.

Lemma length_di_bytes ip : length (i_addrs ip) = 13%nat -> length (di_bytes ip) = 64%nat.
Proof. intros H. unfold di_bytes. rewrite !length_app, !length_le, length_words, H. done. Qed.

Lemma dinode_read d o q ip :
  inode_ok q -> (o + 64 <= length d)%nat -> from_dinode (splice d o (di_bytes q)) o ip = copy_inode q ip.
Proof.
  intros [Hsh Hsz [Hl Ha] _ _] Ho. pose proof (length_di_bytes q Hl) as Hlen. rewrite !Forall_cons in Hsh.
  destruct Hsh as (H1 & H2 & H3 & H4 & _). unfold from_dinode, copy_inode, di_type, di_addrs, get16, get32.
  replace (get 2 (splice d o (di_bytes q)) o) with (get 2 (splice d o (di_bytes q)) (o + 0)) by (by rewrite Nat.add_0_r).
  rewrite !get_splice by lia. unfold di_bytes. rewrite (get_le 2).
  rewrite (get_skip 2 2 _ _ 0), (get_le 2). rewrite (get_skip 2 2 _ _ 2), (get_skip 2 2 _ _ 0), (get_le 2).
  rewrite (get_skip 2 2 _ _ 4), (get_skip 2 2 _ _ 2), (get_skip 2 2 _ _ 0), (get_le 2).
  rewrite (get_skip 4 2 _ _ 6), (get_skip 4 2 _ _ 4), (get_skip 4 2 _ _ 2), (get_skip 4 2 _ _ 0), (get_le 4).
  change (8 * Z.of_nat 2) with 16. change (8 * Z.of_nat 4) with 32. rewrite !s16_mod, (Z.mod_small (i_size q)) by done.
  f_equal. apply list_eq. intros i. rewrite list_lookup_fmap. destruct (decide (i < 13)%nat) as [Hi|Hi].
  - rewrite lookup_seq_lt by done. cbn [fmap option_fmap option_map Nat.add].
    destruct (lookup_lt_is_Some_2 (i_addrs q) i) as [v Hv]; [lia|]. rewrite Hv. f_equal.
    fold (di_bytes q). rewrite <- Nat.add_assoc, get_splice by (rewrite ?Hlen; lia). unfold di_bytes.
    replace (12 + 4 * i)%nat with (2 + (2 + (2 + (2 + (4 + 4 * i)))))%nat by lia. rewrite !get_skip, (get_words _ i v Hv).
    apply Z.mod_small. by apply (Forall_lookup_1 _ _ i v Ha).
  - rewrite lookup_seq_ge by lia. symmetry. apply lookup_ge_None. lia.
Qed.

Lemma dinode_other d o o' q ip :
  length (i_addrs q) = 13%nat -> (o + 64 <= length d)%nat -> (o' + 64 <= o \/ o + 64 <= o')%nat ->
  from_dinode (splice d o (di_bytes q)) o' ip = from_dinode d o' ip.
Proof.
  intros Hl Ho Hd. pose proof (length_di_bytes q Hl) as Hlen. unfold from_dinode, di_type, di_addrs, get16, get32.
  rewrite !get_splice_other by lia. f_equal. apply list_fmap_ext. intros k i Hi. apply lookup_seq in Hi as [-> Hk].
  apply get_splice_other; lia.
Qed.

Lemma get_inode_eq i ip s : s_inodes s !! i = Some ip -> get_inode i s = Ret ip s.
Proof. intros H. unfold get_inode. by rewrite H. Qed.
Lemma upd_inode_eq i f ip s :
  s_inodes s !! i = Some ip -> upd_inode i f s = Ret tt (set_inodes (<[i := f ip]> (s_inodes s)) s).
Proof. intros H. unfold upd_inode. by rewrite H. Qed.

Lemma acquiresleep_inode i ip s :
  s_inodes s !! i = Some ip -> LkSleep (SlInode i) ∉ s_locks s -> locked (i_lock ip) = 0 ->
  acquiresleep (SlInode i) s = Ret tt (set_inodes (<[i := set_i_lock (Sleeplock 1 (s_pid s)) ip]> (s_inodes s)) s).
Proof.
  intros Hi Hf Hl. unfold acquiresleep. step (acq_eq _ s Hf). set (s1 := set_s_locks _ s). cbn [get_slock set_slock].
  rewrite bind_assoc. step (get_inode_eq i ip s1 Hi). step (@eq_refl _ (Ret (i_lock ip) s1)). rewrite Hl. cbn [Z.eqb negb].
  rewrite bind_gets. step (upd_inode_eq i (set_i_lock (Sleeplock 1 (s_pid s1))) ip s1 Hi).
  rewrite (rel_eq (LkSleep (SlInode i)) (s_locks s)) by done. by destruct s.
Qed.

Lemma releasesleep_inode i ip s :
  s_inodes s !! i = Some ip -> LkSleep (SlInode i) ∉ s_locks s ->
  releasesleep (SlInode i) s =
    Ret tt (set_inodes (<[i := set_i_lock (Sleeplock 0 0) ip]> (s_inodes s)) (set_wake (s_wake s ++ [ChSleep (SlInode i)]) s)).
Proof.
  intros Hi Hn. unfold releasesleep. step (acq_eq _ s Hn). set (s1 := set_s_locks _ s). cbn [set_slock].
  step (upd_inode_eq i (set_i_lock (Sleeplock 0 0)) ip s1 Hi). set (s2 := set_inodes _ s1). unfold wakeup. rewrite bind_modify. set (s3 := set_wake _ s2).
  rewrite (rel_eq (LkSleep (SlInode i)) (s_locks s) s3 eq_refl Hn). by destruct s.
Qed.

Lemma iunlock_eq i ip s :
  s_inodes s !! i = Some ip -> 1 <= i_ref ip -> i_lock ip = Sleeplock 1 (s_pid s) -> LkSleep (SlInode i) ∉ s_locks s ->
  iunlock i s = Ret tt (set_inodes (<[i := set_i_lock (Sleeplock 0 0) ip]> (s_inodes s)) (set_wake (s_wake s ++ [ChSleep (SlInode i)]) s)).
Proof.
  intros Hi Hr Hl Hn. unfold iunlock. assert (Eh : holdingsleep (SlInode i) s = Ret true s).
  { unfold holdingsleep. step (acq_eq _ s Hn). set (s1 := set_s_locks _ s). cbn [get_slock]. rewrite bind_assoc.
    step (get_inode_eq i ip s1 Hi). step (@eq_refl _ (Ret (i_lock ip) s1)). rewrite bind_gets, Hl.
    step (rel_eq (LkSleep (SlInode i)) (s_locks s) s1 eq_refl Hn). cbn. rewrite Z.eqb_refl. by destruct s. }
  step Eh. cbn [negb]. step (get_inode_eq i ip s Hi). rewrite (proj2 (Z.ltb_ge _ 1)) by lia. by apply releasesleep_inode.
Qed.

Lemma cache_ok_inodes v s : cache_ok s -> cache_ok (set_inodes v s).
Proof. by intros []. Qed.
Lemma quiet_inodes v s : quiet s -> quiet (set_inodes v s).
Proof. intros [Hc Hu Hi]. split; [by apply cache_ok_inodes|done|done]. Qed.

(** Where the inodes of the file system are, and that their blocks are on the disk. *)
Definition inode_block (s : fs) (ip : inode) : Prop :=
  0 <= IBLOCK (i_inum ip) (s_sb s) < Z.of_nat (length (s_disk s)) /\ Z.of_nat (length (s_disk s)) <= 2 ^ 31 /\
  length (content s (IBLOCK (i_inum ip) (s_sb s))) = BSIZE.

Lemma di_off_fits n : 0 <= n -> (di_off n + 64 <= BSIZE)%nat.
Proof. intros Hn. unfold di_off, IPB, DINODE_SIZE, BSIZE. pose proof (Z.mod_pos_bound n 8 ltac:(lia)). lia. Qed.

Lemma di_off_other n m sb :
  0 <= n -> 0 <= m -> n <> m -> IBLOCK n sb = IBLOCK m sb -> (di_off m + 64 <= di_off n \/ di_off n + 64 <= di_off m)%nat.
Proof.
  intros Hn Hm Hne E. unfold IBLOCK, di_off, IPB, DINODE_SIZE in *. pose proof (Z.mod_pos_bound n 8 ltac:(lia)).
  pose proof (Z.mod_pos_bound m 8 ltac:(lia)). pose proof (Z.div_mod n 8 ltac:(lia)). pose proof (Z.div_mod m 8 ltac:(lia)).
  assert (n mod 8 <> m mod 8) by lia. lia.
Qed.

Lemma iupdate_spec i ip hs s :
  in_op hs s -> s_inodes s !! i = Some ip -> i_dev ip = 1 -> inode_block s ip ->
  exists s', iupdate i s = Ret tt s' /\ quiet s' /\ txn (absorbed (IBLOCK (i_inum ip) (s_sb s)) hs) s' /\ same_fs s s' /\
    forall k, content s' k = if k =? IBLOCK (i_inum ip) (s_sb s) then
      splice (content s k) (di_off (i_inum ip)) (di_bytes ip) else content s k.
Proof.
  intros Hop Hi Hdev (Hb & Hsz & Hlen). set (n := IBLOCK (i_inum ip) (s_sb s)) in *.
  destruct (modify_block n (splice (content s n) (di_off (i_inum ip)) (di_bytes ip))
    (fun v => set_b_data (splice (b_data v) (di_off (i_inum ip)) (di_bytes ip)) v) hs s Hop Hb Hsz)
    as (bp & v & s1 & s2 & s3 & s' & E1 & _ & _ & _ & E2 & E3 & E4 & Q & T & F & C); [by intros v ->|].
  exists s'. split; [|split_and!; try done; intros k; rewrite C; by destruct (Z.eqb_spec k n) as [->|]].
  unfold iupdate. step (get_inode_eq i ip s Hi). rewrite bind_gets, Hdev. fold n. step E1. step E2. step E3. exact E4.
Qed.

(** [ilock] of an inode whose copy in memory is not valid reads it from the disk. *)
Lemma ilock_load i ip hs s :
  quiet s -> (forall k, dirty s k -> k ∈ hs) -> (length hs < NBUF)%nat ->
  s_inodes s !! i = Some ip -> 1 <= i_ref ip -> locked (i_lock ip) = 0 -> i_valid ip = 0 -> i_dev ip = 1 ->
  0 <= IBLOCK (i_inum ip) (s_sb s) < Z.of_nat (length (s_disk s)) ->
  let q := from_dinode (content s (IBLOCK (i_inum ip) (s_sb s))) (di_off (i_inum ip)) ip in
  i_type q <> 0 ->
  exists s', ilock i s = Ret tt s' /\ quiet s' /\ s_locks s' = s_locks s /\
    s_inodes s' = <[i := set_i_valid 1 (set_i_lock (Sleeplock 1 (s_pid s)) q)]> (s_inodes s) /\
    (forall k, content s' k = content s k) /\ (forall k, dirty s' k <-> dirty s k) /\
    s_disk s' = s_disk s /\ s_writes s' = s_writes s /\ same_rest (set_inodes (s_inodes s') s) s'.
Proof.
  intros Q Hd Hl Hi Href Hlk Hv Hdev Hn q Hty. set (n := IBLOCK (i_inum ip) (s_sb s)) in *.
  apply lookup_lt_Some in Hi as Hlt. unfold ilock. step (get_inode_eq i ip s Hi). rewrite (proj2 (Z.ltb_ge _ _) Href).
  step (acquiresleep_inode i ip s Hi (proj2 (q_unlatched s Q) _) Hlk). set (ip1 := set_i_lock _ ip). set (s1 := set_inodes _ s).
  assert (Hi1 : s_inodes s1 !! i = Some ip1) by (cbn; by rewrite list_lookup_insert_eq). step (get_inode_eq i ip1 s1 Hi1).
  change (i_valid ip1) with (i_valid ip). rewrite Hv. cbn [Z.eqb]. cbv iota. rewrite bind_gets.
  change (i_dev ip1) with (i_dev ip). change (IBLOCK (i_inum ip1) (s_sb s1)) with n. rewrite Hdev.
  destruct (one_bread s1 hs n (quiet_inodes _ s Q) Hd Hl Hn) as (bp & v & s2 & E2 & Hs2 & R2 & D2 & W2 & M2 & Hr2 & Hd2 & H62 & C2 & Y2 & O2).
  step E2. step (get_buf_eq bp v s2 (proj1 M2)). rewrite Hd2. change (content s1 n) with (content s n).
  assert (Hi2 : s_inodes s2 !! i = Some ip1) by (by rewrite (sr_inodes _ _ R2)).
  step (upd_inode_eq i (from_dinode (content s n) (di_off (i_inum ip1))) ip1 s2 Hi2). set (s3 := set_inodes _ s2).
  destruct (one_brelse s3 bp n v (cache_ok_inodes _ s2 Hs2)) as (s4 & E4 & Q4 & R4 & D4 & W4 & C4 & Y4).
  { apply (unlatched_same _ _ R2), Q. }
  { exact M2. } { done. }
  { intros H2. change (s_disk s3) with (s_disk s2). rewrite Hd2, D2. apply quiet_clean; [by apply quiet_inodes|].
    intros H6%H62. congruence. }
  { exact O2. }
  step E4. set (q1 := from_dinode _ _ ip1) in *.
  assert (Ei4 : s_inodes s4 = <[i := q1]> (s_inodes s)).
  { rewrite (sr_inodes _ _ R4). cbn. rewrite (sr_inodes _ _ R2). cbn. by rewrite list_insert_insert_eq. }
  assert (Hi4 : s_inodes s4 !! i = Some q1) by (rewrite Ei4; by rewrite list_lookup_insert_eq).
  step (upd_inode_eq i (set_i_valid 1) q1 s4 Hi4). set (s5 := set_inodes _ s4).
  assert (Hi5 : s_inodes s5 !! i = Some (set_i_valid 1 q1)).
  { cbn. rewrite list_lookup_insert_eq; [done|]. by apply lookup_lt_Some in Hi4. }
  step (get_inode_eq i _ s5 Hi5). change (i_type (set_i_valid 1 q1)) with (i_type q). rewrite (proj2 (Z.eqb_neq _ _) Hty).
  exists s5. split; [done|]. split; [by apply quiet_inodes|]. split.
  { cbn. rewrite (sr_locks _ _ R4). cbn. by rewrite (sr_locks _ _ R2). }
  split; [cbn; by rewrite Ei4, list_insert_insert_eq|]. split_and!.
  - intros k. change (content s5 k) with (content s4 k). rewrite C4. change (content s3 k) with (content s2 k). by rewrite C2.
  - intros k. change (dirty s5 k) with (dirty s4 k). rewrite Y4. change (dirty s3 k) with (dirty s2 k). by rewrite Y2.
  - cbn. rewrite D4. cbn. by rewrite D2.
  - cbn. rewrite W4. cbn. by rewrite W2.
  - destruct R2, R4. split; cbn in *; congruence.
Qed.

(** C17. What [iupdate] writes, [ilock] reads: after [iupdate] of an inode, an entry of the
    inode table that is loaded from the disk under the same number gets exactly the
    fields that were written (type, device numbers, links, size, addresses), and the
    entry of every other inode reads as before.  The disk itself does not change before
    the transaction commits. *)
Theorem inode_roundtrip i q hs s :
  in_op hs s -> Z.of_nat (length hs) + 1 < LOGSIZE -> s_inodes s !! i = Some q -> inode_ok q -> inode_block s q -> i_type q <> 0 ->
  exists s', iupdate i s = Ret tt s' /\ same_fs s s' /\ txn (absorbed (IBLOCK (i_inum q) (s_sb s)) hs) s' /\
    (forall v j ip, v !! j = Some ip -> i_inum ip = i_inum q -> i_dev ip = 1 -> 1 <= i_ref ip -> locked (i_lock ip) = 0 ->
       i_valid ip = 0 ->
       exists s'', ilock j (set_inodes v s') = Ret tt s'' /\
         s_inodes s'' = <[j := set_i_valid 1 (set_i_lock (Sleeplock 1 (s_pid s)) (copy_inode q ip))]> v) /\
    (forall n ip, 0 <= n -> n <> i_inum q ->
       from_dinode (content s' (IBLOCK n (s_sb s))) (di_off n) ip = from_dinode (content s (IBLOCK n (s_sb s))) (di_off n) ip).
Proof.
  intros Hop Hroom Hi Hok Hblk Hty. destruct (iupdate_spec i q hs s Hop Hi (in_dev q Hok) Hblk) as (s' & E & Q & T & F & C).
  destruct Hblk as (Hb & _ & Hlen). pose proof (di_off_fits (i_inum q) (in_inum q Hok)) as Hoff.
  exists s'. split_and!; try done.
  - intros v j ip Hj En Hd Hr Hl Hv. pose proof (length_absorbed (IBLOCK (i_inum q) (s_sb s)) hs) as Hab.
    assert (Hq : from_dinode (content s' (IBLOCK (i_inum q) (s_sb s))) (di_off (i_inum q)) ip = copy_inode q ip).
    { rewrite C, Z.eqb_refl. apply dinode_read; [done|]. by rewrite Hlen. }
    destruct (ilock_load j ip (absorbed (IBLOCK (i_inum q) (s_sb s)) hs) (set_inodes v s')) as (s2 & E2 & _ & _ & Ei & _); try done.
    + by apply quiet_inodes.
    + intros k. apply (tx_dirty _ _ T).
    + unfold LOGSIZE, NBUF in *. lia.
    + cbn. rewrite En, (sf_sb _ _ F), (sf_disk _ _ F). done.
    + cbn [s_sb set_inodes]. rewrite En, (sf_sb _ _ F). change (content (set_inodes v s') ?x) with (content s' x).
      rewrite Hq. done.
    + exists s2. split; [done|]. rewrite Ei. cbn [s_sb s_pid s_inodes set_inodes].
      rewrite En, (sf_sb _ _ F), (sf_pid _ _ F). change (content (set_inodes v s') ?x) with (content s' x). by rewrite Hq.
  - intros n ip Hn Hne. rewrite C. destruct (Z.eqb_spec (IBLOCK n (s_sb s)) (IBLOCK (i_inum q) (s_sb s))) as [Eb|]; [|done].
    rewrite Eb. apply dinode_other; [apply Hok|by rewrite Hlen|].
    apply (di_off_other (i_inum q) n (s_sb s)); [apply Hok|done|done|done].
Qed.

(** ** Paths *)

(** The elements of a path, by their definition: the longest runs without a slash. *)
Fixpoint elements (path : list Z) : list (list Z) :=
  match path with
  | [] => []
  | c :: p =>
    if c =? slash then elements p else
    match p with
    | [] => [[c]]
    | c' :: _ => if c' =? slash then [c] :: elements p else
        match elements p with e :: es => (c :: e) :: es | [] => [[c]] end
    end
  end.

Lemma elements_skip p : elements (skip_slashes p) = elements p.
Proof. induction p as [|c p IH]; [done|]. cbn [skip_slashes]. destruct (c =? slash) eqn:E; [|done]. by rewrite IH; cbn [elements]; rewrite E. Qed.

Lemma skip_slashes_head p c r : skip_slashes p = c :: r -> c <> slash.
Proof. induction p as [|x p IH]; [done|]. cbn. destruct (Z.eqb_spec x slash); [done|]. by intros [= <- <-]. Qed.

Lemma skip_slashes_le p : (length (skip_slashes p) <= length p)%nat.
Proof. induction p as [|c p IH]; [done|]. cbn. destruct (c =? slash); cbn; lia. Qed.

Lemma until_slash_spec c p : c <> slash ->
  let (e, r) := until_slash (c :: p) in
  elements (c :: p) = e :: elements r /\ c :: p = e ++ r /\ e <> [] /\ slash ∉ e /\ (r = [] \/ exists r', r = slash :: r').
Proof.
  revert c. induction p as [|c' p IH]; intros c Hc; cbn [until_slash elements]; rewrite (proj2 (Z.eqb_neq _ _) Hc).
  - split_and!; try done; [|by left]. by intros [E|[]%elem_of_nil]%elem_of_cons.
  - cbn [fst snd]. destruct (Z.eqb_spec c' slash) as [->|Hc'].
    + split_and!; try done; [|right; by eexists]. by intros [E|[]%elem_of_nil]%elem_of_cons.
    + specialize (IH c' Hc'). cbn [until_slash] in IH. rewrite (proj2 (Z.eqb_neq _ _) Hc') in IH. cbn [fst snd].
      destruct IH as (E & Ep & _ & Hs & Hr).
      cbn [elements] in E. rewrite (proj2 (Z.eqb_neq _ _) Hc') in E. rewrite E. split_and!; try done; [by rewrite Ep|].
      by intros [E'|H]%elem_of_cons.
Qed.

(** The characters in front of the terminating zero, if there is one. *)
Fixpoint cname (l : list Z) : list Z :=
  match l with
  | [] => []
  | c :: l => if c =? 0 then [] else c :: cname l
  end.

Lemma cname_app e l : 0 ∉ e -> cname (e ++ l) = e ++ cname l.
Proof.
  induction e as [|c e IH]; intros H; [done|]. apply not_elem_of_cons in H as [Hc He]. cbn.
  rewrite (proj2 (Z.eqb_neq c 0)) by done. by rewrite IH.
Qed.

Lemma elem_take_in (e : list Z) n x : x ∈ take n e -> x ∈ e.
Proof. intros H. apply elem_of_take in H as (k & Hk & _). by apply list_elem_of_lookup_2 in Hk. Qed.

Lemma skip_slashes_in p x : x ∈ skip_slashes p -> x ∈ p.
Proof. induction p as [|c p IH]; [done|]. cbn. destruct (c =? slash); [|done]. intros H. apply elem_of_cons. auto. Qed.

Lemma skipelem_spec path name :
  0 ∉ path -> Z.of_nat (length name) = DIRSIZ ->
  match skipelem path name with
  | None => elements path = []
  | Some (rest, name') => exists e, elements path = e :: elements rest /\ cname name' = take 14 e /\
      Z.of_nat (length name') = DIRSIZ /\ (length rest < length path)%nat /\ 0 ∉ rest /\ (rest = [] <-> elements rest = [])
  end.
Proof.
  intros H0 Hn. unfold skipelem. destruct (skip_slashes path) as [|c p] eqn:Ep; [by rewrite <- elements_skip, Ep|].
  pose proof (skip_slashes_head _ _ _ Ep) as Hc. pose proof (until_slash_spec c p Hc) as Hu.
  destruct (until_slash (c :: p)) as [e r]. destruct Hu as (Ee & Er & Hne & Hsl & Hr). exists e.
  assert (Hin : forall x, x ∈ e \/ x ∈ r -> x ∈ path).
  { intros x Hx. apply skip_slashes_in. rewrite Ep, Er. by apply elem_of_app. }
  assert (He0 : 0 ∉ e) by (intros H; apply H0, Hin; auto).
  split; [by rewrite elements_skip, <- Ee, <- Ep, elements_skip|]. split; [|split; [|split; [|split]]].
  - destruct (Z.leb_spec DIRSIZ (Z.of_nat (length e))) as [Hl|Hl].
    + change (Z.to_nat DIRSIZ) with 14%nat. rewrite <- (app_nil_r (take 14 e)). apply cname_app. intros H%elem_take_in. done.
    + unfold DIRSIZ in *. rewrite splice_in by (rewrite length_app; cbn; lia). rewrite take_0, app_nil_l, <- app_assoc.
      rewrite (cname_app e) by done. cbn. rewrite app_nil_r, take_ge by lia. done.
  - destruct (Z.leb_spec DIRSIZ (Z.of_nat (length e))) as [Hl|Hl]; [rewrite length_take; unfold DIRSIZ in *; lia|].
    by rewrite length_splice by lia.
  - pose proof (skip_slashes_le r). pose proof (skip_slashes_le path) as H1. rewrite Ep, Er, length_app in H1.
    destruct e; [done|]. cbn in H1. lia.
  - intros H%skip_slashes_in. apply H0, Hin. auto.
  - split; [by intros ->|]. intros H. destruct (skip_slashes r) as [|x r'] eqn:Es; [done|]. exfalso.
    pose proof (until_slash_spec x r' (skip_slashes_head _ _ _ Es)) as Hx. destruct (until_slash (x :: r')) as [e' r2].
    destruct Hx as (Hx & _). congruence.
Qed.

(** [skipelem] takes the first element off a path: its result has the remaining
    elements, [name] holds the first [DIRSIZ] characters of the element as a string, the
    rest is empty exactly when the element was the last one, and it is shorter than the
    path; a path without an element gives 0. *)
Theorem skipelem_correct path name :
  0 ∉ path -> Z.of_nat (length name) = DIRSIZ ->
  match skipelem path name with
  | None => elements path = []
  | Some (rest, name') => exists e, elements path = e :: elements rest /\ cname name' = take 14 e /\
      Z.of_nat (length name') = DIRSIZ /\ (length rest < length path)%nat /\ 0 ∉ rest /\ (rest = [] <-> elements rest = [])
  end.
Proof. apply skipelem_spec. Qed.

Lemma elements_le path : (length (elements path) <= length path)%nat.
Proof.
  induction path as [|c [|c' p] IH]; [done|cbn; destruct (c =? slash); cbn; lia|]. cbn [elements].
  cbn [elements] in IH. destruct (c =? slash); [cbn [length] in *; lia|]. destruct (c' =? slash); [cbn [length] in *; lia|].
  destruct (match p with [] => _ | _ => _ end); cbn [length] in *; lia.
Qed.

Lemma namex_fuel devread es : forall fuel ip path parent name s,
  es = elements path -> 0 ∉ path -> Z.of_nat (length name) = DIRSIZ -> (length es <= fuel)%nat ->
  namex_loop devread fuel ip path parent name s = namex_loop devread (length es) ip path parent name s.
Proof.
  induction es as [|e es IH]; intros fuel ip path parent name s Ees H0 Hn Hf; pose proof (skipelem_spec path name H0 Hn) as Hs;
    rewrite <- Ees in Hs; destruct fuel as [|fuel]; cbn [length] in *; try lia; cbn [namex_loop];
    destruct (skipelem path name) as [[rest name']|]; try done; destruct Hs as (e' & Hs & _ & Hn' & _ & H0' & _); try done.
  injection Hs as <- Hs. unfold bind. destruct (ilock ip s) as [[] s1| | |]; try done.
  destruct (get_inode ip s1) as [v s2| | |]; try done. destruct (negb _); [done|]. destruct (parent && _); [done|].
  destruct (dirlookup _ ip name' s2) as [[[next o]|] s3| | |]; try done.
  destruct (iunlockput _ s3) as [[] s4| | |]; try done. apply IH; [done|done|done|lia].
Qed.

(** The loop of [namex] ends: it runs at most once for each element of the path, and
    the bound on the iterations that [namex] uses, the length of the path, is never
    smaller; whatever larger bound is taken, the result is the same. *)
Theorem namex_terminates devread fuel ip path parent name s :
  0 ∉ path -> Z.of_nat (length name) = DIRSIZ -> (length (elements path) <= fuel)%nat ->
  namex_loop devread fuel ip path parent name s = namex_loop devread (length path) ip path parent name s.
Proof.
  intros H0 Hn Hf. rewrite (namex_fuel devread (elements path) fuel) by done.
  rewrite (namex_fuel devread (elements path) (length path)) by (done || apply elements_le). done.
Qed.

(** The machine in the middle of a system call that has not written anything yet. *)
Lemma mounted_on disk sb v :
  2 + LOGSIZE <= Z.of_nat (length disk) < 2 ^ 31 ->
  exists s, in_op [] s /\ s_sb s = sb /\ s_inodes s = v /\ s_disk s = disk /\ l_size (s_log s) = LOGSIZE /\ s_locks s = [] /\ s_cwd s = None /\
    forall k, content s k = dblock disk k.
Proof.
  intros Hfit. destruct (power_on_booted disk 2 1 ltac:(lia) Hfit) as (s0 & _ & Hb & Hd & Hl & Hlog & Hcwd). destruct Hb as [Q Hc _ _ Hlh _ _].
  assert (Q' : quiet (set_sb sb (set_inodes v s0))) by (by destruct Q as [[] ? ?]).
  exists (set_sb sb (set_inodes v s0)). split; [|split; [done|split; [done|split; [done|split; [|split; [done|split; [done|]]]]]]].
  - split.
    + exact Q'.
    + cbn [s_locks set_sb set_inodes]. rewrite Hl. apply not_elem_of_nil.
    + split; cbn [s_log set_sb set_inodes].
      * by rewrite Hlog.
      * by exists (lh_block (s_log s0)).
      * exact Hlh.
      * constructor.
      * intros h H. by apply elem_of_nil in H.
      * intros k. split; [intros H; by destruct (Hc k)|intros H; by apply elem_of_nil in H].
    + cbn [s_log set_sb set_inodes]. by rewrite Hlog.
    + cbn [s_log set_sb set_inodes]. by rewrite Hlog.
  - cbn [s_log set_sb set_inodes]. by rewrite Hlog.
  - intros k. rewrite quiet_clean; [cbn [s_disk set_sb set_inodes]; by rewrite Hd|done|apply Hc].
Qed.

(** ** A small disk *)

Module Example.

(** Forty blocks: the superblock in block 1, the log in blocks 2 to 31, the inodes in
    block 32, the bitmap in block 33 (blocks 0 to 35 are in use), data in the rest. *)
Definition sb0 : superblock := Superblock 40 5 8 30 2 32 33.
Definition super_block : list Z := splice (replicate 512 0) 0 (mjoin (le 4 <$> [40; 5; 8; 30; 2; 32; 33])).
Definition bitmap : list Z := splice (replicate 512 0) 0 [255; 255; 255; 255; 15].
Definition disk : list (list Z) := <[1%nat := super_block]> (<[33%nat := bitmap]> (replicate 40 (replicate 512 0))).
(** A file of 700 bytes in blocks 36 and 37. *)
Definition file0 : inode := Inode 1 3 1 (Sleeplock 1 1) 1 2 0 0 1 700 ([36; 37] ++ replicate 11 0).

Lemma length_disk : length disk = 40%nat.
Proof. vm_compute. reflexivity. Qed.

Lemma disk_fits : 2 + LOGSIZE <= Z.of_nat (length disk) < 2 ^ 31.
Proof. rewrite length_disk. unfold LOGSIZE, MAXOPBLOCKS. lia. Qed.

Lemma mounted :
  exists s, in_op [] s /\ s_sb s = sb0 /\ s_inodes s = [file0] /\ s_disk s = disk /\ l_size (s_log s) = LOGSIZE /\
    forall k, content s k = dblock disk k.
Proof.
  destruct (mounted_on disk sb0 [file0] disk_fits) as (s & Hop & Esb & Ei & Ed & El & _ & _ & Ec). by exists s.
Qed.

Lemma small b : 0 <= b < 40 -> BBLOCK b sb0 = 33.
Proof. intros Hb. unfold BBLOCK, BPB. rewrite Z.div_small by lia. done. Qed.

Lemma mounted_bitmap s : s_sb s = sb0 -> s_disk s = disk -> (forall k, content s k = dblock disk k) -> bitmap_ok s.
Proof.
  intros Esb Ed Ec. split; rewrite ?Esb, ?Ed, ?length_disk; cbn [sb_size sb0]; try lia; intros b Hb.
  - rewrite (small b Hb). lia.
  - rewrite (small b Hb), Ec. vm_compute. reflexivity.
  - rewrite (small b Hb). unfold block_free. rewrite (small 33) by lia. rewrite Ec. vm_compute. reflexivity.
Qed.

Lemma room : Z.of_nat (@length Z []) + 1 < LOGSIZE /\ Z.of_nat (@length Z []) + 1 < LOGSIZE - 1.
Proof. unfold LOGSIZE, MAXOPBLOCKS. cbn. lia. Qed.

Lemma none_dirty s : in_op [] s -> forall k, dirty s k -> k ∈ @nil Z.
Proof. intros Hop k. apply (tx_dirty _ _ (io_txn _ _ Hop)). Qed.

Lemma some_avail s n : in_op [] s -> exists i, avail s n i.
Proof.
  intros Hop. destruct (avail_two s [] n n (io_quiet _ _ Hop) (none_dirty s Hop)) as (i & j & _ & Hi & _); [|by exists i].
  by apply Nat.leb_le.
Qed.

(** A buffer is in use, and another block is read. *)
Lemma buffer_cache_correct_witness :
  exists s0 i0 s i b s1, bread 1 32 s0 = Ret i0 s /\ bread 1 33 s = Ret i s1 /\ i <> i0 /\ mine s1 i 33 b /\ b_data b = bitmap.
Proof.
  destruct mounted as (s0 & Hop & _ & _ & Ed & _ & Ec). pose proof (io_quiet _ _ Hop) as Q0. pose proof (q_cache _ Q0) as Hs0.
  destruct (avail_two s0 [] 33 33 Q0 (none_dirty s0 Hop)) as (i1 & i2 & Hne & Ha & Hb); [by apply Nat.leb_le|].
  destruct (bread_spec 32 s0 Hs0 (q_unlatched _ Q0)) as (i0 & b0 & s & E0 & Hs & R0 & D0 & _ & M0 & _ & _ & C0 & _ & O0 & _ & _);
    [rewrite Ed, length_disk; lia| |by apply some_avail|].
  { intros j c Hj _. pose proof (q_idle _ Q0 j c Hj) as Hr. rewrite (bo_free _ _ (co_bufs s0 Hs0 j c Hj) Hr), Hr. done. }
  assert (Hun : unlatched s) by (apply (unlatched_same s0 s R0), Q0). destruct (co_ring s Hs) as [l R].
  assert (Hidle : forall j c, s_bufs s !! j = Some c -> is_block 1 33 c = true -> b_refcnt c = 0).
  { intros j c Hj [_ Hc]%is_block_true. apply (q_idle _ Q0 j). rewrite <- O0; [done|]. intros ->. destruct M0 as (Hi & _ & _ & Hn & _). congruence. }
  destruct (buffer_cache_correct 33 l s Hs Hun R) as (_ & _ & H); [rewrite D0, Ed, length_disk; lia|].
  destruct H as (i & c & b & s1 & s2 & E1 & Hc & Hwhy & M1 & Hd & _).
  - destruct (decide (i1 = i0)) as [->|H1]; [exists i2|exists i1]; unfold avail; rewrite O0 by congruence; done.
  - intros j c Hj Ht. rewrite (Hidle j c Hj Ht). pose proof (Hidle j c Hj Ht) as Hr.
    rewrite (bo_free _ _ (co_bufs s Hs j c Hj) Hr). done.
  - exists s0, i0, s, i, b, s1. split; [done|]. split; [done|]. split; [|split; [done|]].
    + intros ->. destruct M0 as (Hi & _ & _ & Hn & Hr & _). rewrite Hi in Hc. injection Hc as <-.
      destruct Hwhy as [[[_ Ht]%is_block_true _]|(_ & Hr' & _)]; [congruence|lia].
    + rewrite Hd, C0, Ec. vm_compute. reflexivity.
Defined.

Lemma block_36_free : block_free (dblock disk) sb0 36 = true.
Proof. unfold block_free. rewrite small by lia. vm_compute. reflexivity. Qed.
Lemma block_35_used : block_free (dblock disk) sb0 35 = false.
Proof. unfold block_free. rewrite small by lia. vm_compute. reflexivity. Qed.

Lemma balloc_correct_witness : exists s r s', balloc 1 s = Ret r s' /\ allocated r [] s s'.
Proof.
  destruct mounted as (s & Hop & Esb & _ & Ed & El & Ec).
  destruct (balloc_correct [] s Hop (mounted_bitmap s Esb Ed Ec)) as [(r & s' & E & Ha & _)|[Hall _]].
  - rewrite El. apply room.
  - by exists s, r, s'.
  - exfalso. specialize (Hall 36). rewrite Esb in Hall. unfold block_free in Hall. rewrite Ec in Hall.
    change (block_free (dblock disk) sb0 36 = false) with (bit_free (dblock disk (BBLOCK 36 sb0)) (36 mod BPB) = false) in Hall.
    fold (block_free (dblock disk) sb0 36) in Hall. rewrite block_36_free in Hall. cbn in Hall. discriminate Hall. lia.
Defined.

Lemma bfree_correct_witness : exists s s', bfree 1 35 s = Ret tt s' /\ block_free (content s') (s_sb s') 35 = true.
Proof.
  destruct mounted as (s & Hop & Esb & _ & Ed & El & Ec).
  assert (H35 : block_free (content s) (s_sb s) 35 = false).
  { unfold block_free. rewrite Esb, Ec. exact block_35_used. }
  assert (Hr : 0 <= 35 < sb_size (s_sb s)) by (rewrite Esb; cbn; lia).
  pose proof (bfree_correct 35 [] s Hop (mounted_bitmap s Esb Ed Ec)) as H. rewrite H35 in H.
  destruct H as (s' & E & _ & _ & _ & _ & Hf).
  - rewrite Ed, length_disk. lia.
  - rewrite Ec, Esb. vm_compute. reflexivity.
  - exact Hr.
  - exists s, s'. split; [exact E|]. rewrite (Hf 35 Hr). reflexivity.
Defined.

Lemma file0_ok : inode_ok file0.
Proof. split; [repeat constructor; cbn; lia|cbn; lia|split; [done|repeat constructor; cbn; lia]|cbn; lia|done]. Qed.

(** After [iupdate] the entry for inode 3 in an otherwise empty table loads as the file. *)
Definition entry : inode := Inode 1 3 1 (Sleeplock 0 0) 0 0 0 0 0 0 [].

Lemma inode_roundtrip_witness :
  exists s s' s'', iupdate 0 s = Ret tt s' /\ ilock 0 (set_inodes [entry] s') = Ret tt s'' /\
    (i_size <$> s_inodes s'') = [700] /\ (i_addrs <$> s_inodes s'') = [i_addrs file0].
Proof.
  destruct mounted as (s & Hop & Esb & Ei & Ed & El & Ec).
  destruct (inode_roundtrip 0 file0 [] s Hop) as (s' & E & _ & _ & Hload & _).
  - apply room.
  - by rewrite Ei.
  - exact file0_ok.
  - unfold inode_block. rewrite Esb, Ed, Ec, length_disk. split; [done|]. split; [done|]. vm_compute. reflexivity.
  - done.
  - destruct (Hload [entry] 0%nat entry) as (s'' & E2 & Ei2); try done.
    exists s, s', s''. split; [done|]. split; [done|]. rewrite Ei2. done.
Defined.

(** [/usr//bin] *)
Definition path0 : list Z := [47; 117; 115; 114; 47; 47; 98; 105; 110].

Lemma path0_clean : 0 ∉ path0.
Proof. unfold path0. set_solver. Qed.

Lemma skipelem_correct_witness :
  exists rest name', skipelem path0 (replicate 14 0) = Some (rest, name') /\ elements rest = [[98; 105; 110]] /\
    cname name' = [117; 115; 114].
Proof.
  pose proof (skipelem_correct path0 (replicate 14 0) path0_clean eq_refl) as H.
  destruct (skipelem path0 (replicate 14 0)) as [[rest name']|]; [|discriminate H].
  destruct H as (e & He & Hc & _). exists rest, name'. split; [done|]. cbn in He. injection He as <- <-. by split.
Defined.

Lemma namex_terminates_witness :
  exists s, in_op [] s /\ namex_loop (fun _ => None) 100 0 path0 true (replicate 14 0) s =
    namex_loop (fun _ => None) 9 0 path0 true (replicate 14 0) s.
Proof.
  destruct mounted as (s & Hop & _). exists s. split; [exact Hop|].
  apply (namex_terminates (fun _ => None) 100 0 path0 true (replicate 14 0) s path0_clean eq_refl). cbn. lia.
Defined.

End Example.
