(* ===== verification/FsRead.v ===== *)
(** * The contents of files

    What a file holds, by the addresses in its inode and the contents of blocks, and that
    [bmap], [readi] and [dirlookup] read it.  Every block of the file is in use. *)

From S2P Require Import Prelude Mmu Mem Cstring Blk FsState Bio BioSpec Log LogSpec LogProps LogOps Fs FsSpec FsProps.

(** ** What a file holds *)

Section Contents.
Context (c : Z -> list Z).

(** The block with block number [bn] of the file. *)
Definition file_addr (ip : inode) (bn : Z) : Z :=
  if bn <? NDIRECT then addr_at ip bn else get32 (c (addr_at ip NDIRECT)) (Z.to_nat (4 * (bn - NDIRECT))).

Definition file_byte (ip : inode) (k : Z) : Z := nth (Z.to_nat (k mod Z.of_nat BSIZE)) (c (file_addr ip (k / Z.of_nat BSIZE))) 0.
(** The [n] bytes from offset [off] on. *)
Definition file_data (ip : inode) (off : Z) (n : nat) : list Z := (fun k => file_byte ip (off + Z.of_nat k)) <$> seq 0 n.

Lemma length_file_data ip off n : length (file_data ip off n) = n.
Proof. unfold file_data. by rewrite length_fmap, length_seq. Qed.

Lemma file_data_app ip off m n : file_data ip off (m + n) = file_data ip off m ++ file_data ip (off + Z.of_nat m) n.
Proof.
  unfold file_data. rewrite seq_app, fmap_app. f_equal. cbn [Nat.add]. rewrite <- (Nat.add_0_r m) at 1. rewrite <- fmap_add_seq, <- list_fmap_compose.
  apply list_fmap_ext. intros i k _. cbn [compose]. f_equal. lia.
Qed.

(** A piece inside one block. *)
Lemma file_data_block ip off (m : nat) :
  0 <= off -> off mod Z.of_nat BSIZE + Z.of_nat m <= Z.of_nat BSIZE -> length (c (file_addr ip (off / Z.of_nat BSIZE))) = BSIZE ->
  file_data ip off m = slice (c (file_addr ip (off / Z.of_nat BSIZE))) (off mod Z.of_nat BSIZE) (Z.of_nat m).
Proof.
  intros Ho Hm Hl. unfold slice. rewrite Nat2Z.id. apply list_eq. intros k. unfold file_data. rewrite list_lookup_fmap.
  destruct (decide (k < m)%nat) as [Hk|Hk].
  - rewrite lookup_seq_lt by done. cbn [fmap option_fmap option_map Nat.add]. rewrite lookup_take_lt, lookup_drop by done. unfold file_byte.
    assert (Ed : (off + Z.of_nat k) / Z.of_nat BSIZE = off / Z.of_nat BSIZE /\ (off + Z.of_nat k) mod Z.of_nat BSIZE = off mod Z.of_nat BSIZE + Z.of_nat k).
    { pose proof (Z.div_mod off (Z.of_nat BSIZE) ltac:(done)). pose proof (Z.mod_pos_bound off (Z.of_nat BSIZE) ltac:(done)).
      assert (E : off + Z.of_nat k = Z.of_nat BSIZE * (off / Z.of_nat BSIZE) + (off mod Z.of_nat BSIZE + Z.of_nat k)) by lia.
      split; [symmetry; eapply Z.div_unique_pos; [|exact E]; lia|symmetry; eapply Z.mod_unique_pos; [|exact E]; lia]. }
    destruct Ed as [-> ->]. pose proof (Z.mod_pos_bound off (Z.of_nat BSIZE) ltac:(done)).
    replace (Z.to_nat (off mod Z.of_nat BSIZE + Z.of_nat k)) with (Z.to_nat (off mod Z.of_nat BSIZE) + k)%nat by lia.
    destruct (lookup_lt_is_Some_2 (c (file_addr ip (off / Z.of_nat BSIZE))) (Z.to_nat (off mod Z.of_nat BSIZE) + k)) as [v Hv]; [lia|].
    rewrite Hv. f_equal. rewrite nth_lookup, Hv. done.
  - rewrite lookup_seq_ge by lia. rewrite lookup_take_ge by lia. done.
Qed.
End Contents.

(** ** Reading *)

(** [s'] is [s] after reads: no block, and nothing else, has changed. *)
Record reads (s s' : fs) : Prop := {
  rd_quiet : quiet s';
  rd_rest : same_rest s s';
  rd_disk : s_disk s' = s_disk s;
  rd_writes : s_writes s' = s_writes s;
  rd_content : forall k, content s' k = content s k;
  rd_dirty : forall k, dirty s' k <-> dirty s k
}.

Lemma reads_refl s : quiet s -> reads s s.
Proof. intros Hq. by split. Qed.
Lemma reads_trans s1 s2 s3 : reads s1 s2 -> reads s2 s3 -> reads s1 s3.
Proof.
  intros [A1 A2 A3 A4 A5 A6] [B1 B2 B3 B4 B5 B6]. split; [done|by eapply same_rest_trans|congruence|congruence| |].
  - intros k. by rewrite B5, A5.
  - intros k. by rewrite B6, A6.
Qed.

(** A state from which blocks can be read: at most [hs] have to stay in the cache. *)
Record readable (hs : list Z) (s : fs) : Prop := {
  ra_quiet : quiet s;
  ra_dirty : forall k, dirty s k -> k ∈ hs;
  ra_room : (length hs < NBUF)%nat
}.

Lemma readable_reads hs s s' : readable hs s -> reads s s' -> readable hs s'.
Proof. intros [_ Hd Hr] R. split; [apply R| |done]. intros k Hk%(rd_dirty _ _ R). by apply Hd. Qed.

Lemma in_op_readable hs s : in_op hs s -> readable hs s.
Proof. intros H. split; [apply H|intros k; apply (tx_dirty _ _ (io_txn _ _ H))|by eapply in_op_small]. Qed.

Definition on_disk (s : fs) (n : Z) : Prop := 0 <= n < Z.of_nat (length (s_disk s)).

Lemma read_step n hs s :
  readable hs s -> on_disk s n ->
  exists i b s1 s2, bread 1 n s = Ret i s1 /\ get_buf i s1 = Ret b s1 /\ b_data b = content s n /\ brelse i s1 = Ret tt s2 /\
    s_inodes s1 = s_inodes s /\ reads s s2.
Proof.
  intros [Hq Hd Hr] Hn. destruct (one_bread s hs n Hq Hd Hr Hn) as (i & b & s1 & E1 & Hs1 & R1 & D1 & W1 & M1 & Hr1 & Hd1 & H61 & C1 & Y1 & O1).
  destruct (one_brelse s1 i n b Hs1 (unlatched_same _ _ R1 (q_unlatched s Hq)) M1 Hr1) as (s2 & E2 & Q2 & R2 & D2 & W2 & C2 & Y2).
  - intros H2. rewrite Hd1, D1. apply quiet_clean; [done|]. intros H6%H61. congruence.
  - done.
  - exists i, b, s1, s2. split_and!; try done; [by apply get_buf_eq, M1|apply R1|]. split; [done|by eapply same_rest_trans|congruence|congruence| |].
    + intros k. by rewrite C2, C1.
    + intros k. by rewrite Y2, Y1.
Qed.

(** The blocks of a file from number [a] up to, not including, [b] are in use. *)
Definition mapped (s : fs) (ip : inode) (bn : Z) : Prop :=
  0 <= bn < MAXFILE /\ file_addr (content s) ip bn <> 0 /\ on_disk s (file_addr (content s) ip bn) /\
  length (content s (file_addr (content s) ip bn)) = BSIZE /\
  (NDIRECT <= bn -> addr_at ip NDIRECT <> 0 /\ on_disk s (addr_at ip NDIRECT)).

Lemma file_addr_ext c c' ip bn : (forall k, c' k = c k) -> file_addr c' ip bn = file_addr c ip bn.
Proof. intros H. unfold file_addr. by rewrite H. Qed.
Lemma file_data_ext c c' ip off n : (forall k, c' k = c k) -> file_data c' ip off n = file_data c ip off n.
Proof. intros H. unfold file_data. apply list_fmap_ext. intros i k _. unfold file_byte. by rewrite (file_addr_ext c c'), H. Qed.

Lemma mapped_reads s s' ip bn : reads s s' -> mapped s ip bn -> mapped s' ip bn.
Proof.
  intros R (H1 & H2 & H3 & H4 & H5). unfold mapped, on_disk. rewrite (rd_disk _ _ R), (file_addr_ext _ _ ip bn (rd_content _ _ R)), (rd_content _ _ R).
  exact (conj H1 (conj H2 (conj H3 (conj H4 H5)))).
Qed.

Lemma bmap_read i ip bn hs s :
  readable hs s -> s_inodes s !! i = Some ip -> i_dev ip = 1 -> mapped s ip bn ->
  exists s', bmap i bn s = Ret (file_addr (content s) ip bn) s' /\ reads s s'.
Proof.
  intros Hr Hi Hd (Hbn & Hne & Hon & Hlen & Hind). unfold bmap, file_addr in *. destruct (Z.ltb_spec bn NDIRECT) as [Hlt|Hge].
  - exists s. split; [|apply reads_refl, Hr]. unfold addr_or_alloc. step (get_inode_eq i ip s Hi). by rewrite (proj2 (Z.eqb_neq _ 0) Hne).
  - destruct (Hind Hge) as [Hn0 Hon0]. unfold MAXFILE in Hbn. rewrite (proj2 (Z.ltb_lt (bn - NDIRECT) NINDIRECT)) by lia.
    assert (Ea : addr_or_alloc i NDIRECT s = Ret (addr_at ip NDIRECT) s) by (unfold addr_or_alloc; step (get_inode_eq i ip s Hi); by rewrite (proj2 (Z.eqb_neq _ 0) Hn0)).
    step Ea. step (get_inode_eq i ip s Hi). rewrite Hd. destruct (read_step _ hs s Hr Hon0) as (bp & v & s1 & s2 & E1 & E2 & Ed & E3 & _ & R).
    step E1. step E2. cbv zeta. rewrite Ed, (proj2 (Z.eqb_neq _ 0) Hne). step E3. by exists s2.
Qed.

Section Readi.
Context (devread : Z -> option (nat -> Z -> M fs (Z * list Z))).

Lemma readi_loop_spec i ip hs fuel : forall off left s,
  readable hs s -> s_inodes s !! i = Some ip -> i_dev ip = 1 -> 0 <= off -> 0 <= left -> (Z.to_nat left <= fuel)%nat ->
  (forall bn, off / Z.of_nat BSIZE <= bn <= (off + left - 1) / Z.of_nat BSIZE -> 0 < left -> mapped s ip bn) ->
  exists s', readi_loop i fuel off left s = Ret (file_data (content s) ip off (Z.to_nat left)) s' /\ reads s s'.
Proof.
  induction fuel as [|fuel IH]; intros off left s Hr Hi Hd Ho Hl Hf Hm; cbn [readi_loop].
  - assert (left = 0) as -> by lia. exists s. split; [done|apply reads_refl, Hr].
  - destruct (Z.leb_spec left 0) as [H0|H0].
    { assert (left = 0) as -> by lia. exists s. split; [done|apply reads_refl, Hr]. }
    set (B := Z.of_nat BSIZE) in *. assert (HB : 0 < B) by done. pose proof (Z.mod_pos_bound off B HB) as Hmod.
    assert (Hm0 : mapped s ip (off / B)) by (apply Hm; [split; [lia|apply Z.div_le_mono; lia]|done]).
    step (get_inode_eq i ip s Hi). destruct (bmap_read i ip (off / B) hs s Hr Hi Hd Hm0) as (s1 & E1 & R1). step E1. rewrite Hd.
    pose proof Hm0 as (_ & _ & Hon & Hlen & _). pose proof (readable_reads _ _ _ Hr R1) as Hr1.
    assert (Hon1 : on_disk s1 (file_addr (content s) ip (off / B))) by (unfold on_disk; by rewrite (rd_disk _ _ R1)).
    destruct (read_step _ hs s1 Hr1 Hon1) as (bp & v & s2 & s3 & E2 & E3 & Ed & E4 & _ & R3). step E2. cbv zeta. step E3. step E4.
    rewrite (rd_content _ _ R1) in Ed. set (m := Z.min left (B - off mod B)). pose proof (reads_trans _ _ _ R1 R3) as R.
    assert (Hi3 : s_inodes s3 !! i = Some ip) by (by rewrite (sr_inodes _ _ (rd_rest _ _ R))).
    destruct (IH (off + m) (left - m) s3) as (s4 & E5 & R5); try lia; try done.
    + by eapply readable_reads.
    + intros bn [Hb1 Hb2] Hpos. apply (mapped_reads _ _ _ _ R), Hm; [|done]. replace (off + m + (left - m) - 1) with (off + left - 1) in Hb2 by lia.
      split; [|done]. etransitivity; [|exact Hb1]. apply Z.div_le_mono; lia.
    + step E5. exists s4. split; [|by eapply reads_trans]. unfold ret. f_equal. rewrite Ed.
      replace (Z.to_nat left) with (Z.to_nat m + Z.to_nat (left - m))%nat by lia. rewrite file_data_app. f_equal.
      * rewrite (file_data_block (content s) ip off (Z.to_nat m)); [by rewrite Z2Nat.id by lia|done|fold B; lia|done].
      * rewrite (file_data_ext (content s) (content s3)) by apply R. by rewrite Z2Nat.id by lia.
Qed.

(** How many bytes a read of [n] from [off] gives. *)
Definition read_count (ip : inode) (off n : Z) : Z := if i_size ip <? off + n then i_size ip - off else n.

Lemma readi_spec i ip hs off n s :
  readable hs s -> s_inodes s !! i = Some ip -> i_dev ip = 1 -> i_type ip <> T_DEV -> 0 <= off <= i_size ip -> 0 <= n -> off + n < 2 ^ 31 ->
  (forall bn, 0 <= bn < (i_size ip + Z.of_nat BSIZE - 1) / Z.of_nat BSIZE -> mapped s ip bn) ->
  exists s', readi devread i off n s = Ret (read_count ip off n, file_data (content s) ip off (Z.to_nat (read_count ip off n))) s' /\ reads s s'.
Proof.
  intros Hr Hi Hd Ht Ho Hn Hmax Hm. unfold readi. step (get_inode_eq i ip s Hi). rewrite (proj2 (Z.eqb_neq _ _) Ht).
  rewrite (proj2 (Z.ltb_ge (i_size ip) off)) by lia. rewrite u32_id by lia. rewrite (proj2 (Z.ltb_ge (off + n) off)) by lia. cbn [orb]. cbv zeta.
  fold (read_count ip off n). set (m := read_count ip off n). assert (Hm0 : 0 <= m /\ off + m <= i_size ip /\ m <= n) by (unfold m, read_count; destruct (Z.ltb_spec (i_size ip) (off + n)); lia).
  destruct (readi_loop_spec i ip hs (Z.to_nat m) off m s) as (s' & E & R); try lia; try done.
  - intros bn [Hb1 Hb2] Hpos. apply Hm. unfold BSIZE in *. split; [pose proof (Z.div_pos off (Z.of_nat 512)); lia|].
    apply Z.le_lt_trans with (1 := Hb2). apply Z.div_lt_upper_bound; [lia|]. pose proof (Z.div_mod (i_size ip + Z.of_nat 512 - 1) (Z.of_nat 512) ltac:(lia)).
    pose proof (Z.mod_pos_bound (i_size ip + Z.of_nat 512 - 1) (Z.of_nat 512) ltac:(lia)). lia.
  - step E. exists s'. split; [|done]. unfold ret. do 2 f_equal. unfold s32. cbv zeta. rewrite u32_id by lia. by rewrite (proj2 (Z.ltb_lt _ _)) by lia.
Qed.

(** ** Directories *)

Definition dir_entry (c : Z -> list Z) (ip : inode) (k : nat) : Z * list Z :=
  let d := file_data c ip (DIRENT_SIZE * Z.of_nat k) 16 in (de_inum d, de_name d).
(** The entries of a directory: inode numbers and names. *)
Definition dir_list (c : Z -> list Z) (ip : inode) : list (Z * list Z) := dir_entry c ip <$> seq 0 (Z.to_nat (i_size ip / DIRENT_SIZE)).

(** The entry with a name: not a free one. *)
Definition names_it (name : list Z) (e : Z * list Z) : Prop := fst e <> 0 /\ cname (snd e) = cname name.
#[export] Instance names_it_dec name e : Decision (names_it name e).
Proof. unfold names_it. apply _. Defined.

Record dir_ok (s : fs) (ip : inode) : Prop := {
  do_dev : i_dev ip = 1;
  do_type : i_type ip = T_DIR;
  do_size : 0 <= i_size ip < 2 ^ 30 /\ i_size ip mod DIRENT_SIZE = 0;
  do_mapped : forall bn, 0 <= bn < (i_size ip + Z.of_nat BSIZE - 1) / Z.of_nat BSIZE -> mapped s ip bn
}.

Lemma dir_ok_reads s s' ip : reads s s' -> dir_ok s ip -> dir_ok s' ip.
Proof. intros R [H1 H2 H3 H4]. split; try done. intros bn Hb. by apply (mapped_reads s), H4. Qed.

Lemma length_dir_name c ip k : length (snd (dir_entry c ip k)) = 14%nat.
Proof. unfold dir_entry, de_name. cbn [snd]. rewrite length_take, length_drop, length_file_data. done. Qed.

Lemma strncmp_cname n : forall (s t : list Z) (p q : Z -> Z) i,
  length s = n -> length t = n -> (forall k, (k < n)%nat -> p (i + Z.of_nat k) = nth k s 0 /\ q (i + Z.of_nat k) = nth k t 0) ->
  strncmp_loop p q i n = 0 <-> cname s = cname t.
Proof.
  induction n as [|n IH]; intros s t p q i Hs Ht Hpq.
  { apply nil_length_inv in Hs, Ht. by subst. }
  destruct s as [|a s], t as [|b t]; try done. cbn [strncmp_loop cname]. destruct (Hpq 0%nat ltac:(lia)) as [Ea Eb]. rewrite Z.add_0_r in Ea, Eb.
  cbn in Ea, Eb. rewrite Ea, Eb. destruct (Z.eqb_spec a 0) as [->|Ha]; cbn [negb andb].
  - destruct (Z.eqb_spec b 0) as [->|Hb]; [done|]. split; [lia|done].
  - destruct (Z.eqb_spec a b) as [->|Hab].
    + rewrite (proj2 (Z.eqb_neq b 0)) by done. rewrite (IH s t p q (i + 1)); [|by injection Hs|by injection Ht|].
      * split; [by intros ->|by intros [=]].
      * intros k Hk. destruct (Hpq (S k) ltac:(lia)) as [E1 E2]. cbn in E1, E2. rewrite <- E1, <- E2. split; f_equal; lia.
    + split; [lia|]. destruct (Z.eqb_spec b 0); [done|]. by intros [=].
Qed.

Lemma namecmp_spec s t : length s = 14%nat -> length t = 14%nat -> namecmp s t = 0 <-> cname s = cname t.
Proof.
  intros Hs Ht. unfold namecmp, strncmp, DIRSIZ. apply strncmp_cname; [done|done|]. intros k Hk. unfold arr. rewrite Z.add_0_l, Nat2Z.id, !nth_lookup. done.
Qed.

(** The search of [dirlookup], by the list of entries from number [k] on. *)
Lemma dirlookup_loop_spec dp ip name hs n : forall k s,
  readable hs s -> s_inodes s !! dp = Some ip -> dir_ok s ip -> length name = 14%nat -> (k + n = Z.to_nat (i_size ip / DIRENT_SIZE))%nat ->
  exists s', reads s s' /\
    dirlookup_loop devread dp name n (DIRENT_SIZE * Z.of_nat k) s =
    match list_find (names_it name) (dir_entry (content s) ip <$> seq k n) with
    | None => Ret None s'
    | Some (j, e) => (i <- iget 1 (fst e) ;; ret (Some (i, DIRENT_SIZE * Z.of_nat (k + j)))) s'
    end.
Proof.
  induction n as [|n IH]; intros k s Hr Hi Hok Hname Hk; cbn [dirlookup_loop seq fmap list_fmap list_find].
  - exists s. split; [apply reads_refl, Hr|done].
  - destruct Hok as [Hd Ht [Hsz Hmod] Hmap]. unfold DIRENT_SIZE in *. pose proof (Z.div_mod (i_size ip) 16 ltac:(lia)) as Ediv. rewrite Hmod in Ediv.
    assert (Hend : 16 * Z.of_nat k + 16 <= i_size ip) by lia.
    destruct (readi_spec dp ip hs (16 * Z.of_nat k) 16 s) as (s1 & E1 & R1); try done; try lia; [by rewrite Ht|].
    assert (Ec : read_count ip (16 * Z.of_nat k) 16 = 16) by (unfold read_count; destruct (Z.ltb_spec (i_size ip) (16 * Z.of_nat k + 16)); lia).
    rewrite Ec in E1. step E1. cbn [fst snd]. change (negb (16 =? 16)) with false. cbv iota zeta.
    set (d := file_data (content s) ip (16 * Z.of_nat k) (Z.to_nat 16)). change (dir_entry (content s) ip k) with (de_inum d, de_name d).
    assert (Hi1 : s_inodes s1 !! dp = Some ip) by (by rewrite (sr_inodes _ _ (rd_rest _ _ R1))).
    assert (Hnext : exists s', reads s s' /\ dirlookup_loop devread dp name n (16 * Z.of_nat k + 16) s1 =
      match prod_map S id <$> list_find (names_it name) (dir_entry (content s) ip <$> seq (S k) n) with
      | None => Ret None s'
      | Some (j, e) => (i <- iget 1 (fst e) ;; ret (Some (i, 16 * Z.of_nat (k + j)))) s'
      end).
    { destruct (IH (S k) s1) as (s2 & R2 & E2); try done.
      - by eapply readable_reads.
      - apply (dir_ok_reads s); [done|]. by split.
      - lia.
      - exists s2. split; [by eapply reads_trans|]. replace (16 * Z.of_nat k + 16) with (16 * Z.of_nat (S k)) by lia. rewrite E2.
        replace (dir_entry (content s1) ip <$> seq (S k) n) with (dir_entry (content s) ip <$> seq (S k) n).
        + destruct (list_find (names_it name) (dir_entry (content s) ip <$> seq (S k) n)) as [[j e]|]; [|done]. cbn [fmap option_fmap option_map prod_map fst snd id].
          by replace (k + S j)%nat with (S (k + j)) by lia.
        + apply list_fmap_ext. intros a b _. unfold dir_entry. by rewrite (file_data_ext (content s) (content s1)) by apply R1. }
    assert (Hdn : length (de_name d) = 14%nat) by (apply (length_dir_name (content s) ip k)).
    destruct (decide (names_it name (de_inum d, de_name d))) as [[H0 Hn]|Hno]; cbn [fst snd] in *.
    + rewrite (proj2 (Z.eqb_neq _ 0) H0). rewrite (proj2 (Z.eqb_eq (namecmp name (de_name d)) 0)) by (by apply namecmp_spec).
      step (get_inode_eq dp ip s1 Hi1). rewrite Hd. exists s1. split; [done|]. by rewrite Nat.add_0_r.
    + destruct Hnext as (s' & R' & E'). exists s'. split; [done|]. rewrite <- E'. destruct (Z.eqb_spec (de_inum d) 0) as [|H0]; [done|].
      rewrite (proj2 (Z.eqb_neq (namecmp name (de_name d)) 0)); [done|]. intros H. apply Hno. split; [done|]. cbn. symmetry. by apply namecmp_spec.
Qed.

(** [dirlookup] finds the first entry with the name. *)
Lemma dirlookup_spec dp ip name hs s :
  readable hs s -> s_inodes s !! dp = Some ip -> dir_ok s ip -> length name = 14%nat ->
  exists s', reads s s' /\
    dirlookup devread dp name s =
    match list_find (names_it name) (dir_list (content s) ip) with
    | None => Ret None s'
    | Some (j, e) => (i <- iget 1 (fst e) ;; ret (Some (i, DIRENT_SIZE * Z.of_nat j))) s'
    end.
Proof.
  intros Hr Hi Hok Hname. unfold dirlookup. step (get_inode_eq dp ip s Hi). rewrite (do_type _ _ Hok). cbn [negb].
  assert (Hn : dir_entries ip = Z.to_nat (i_size ip / DIRENT_SIZE)).
  { unfold dir_entries, DIRENT_SIZE. destruct (do_size _ _ Hok) as [Hs Hm]. unfold DIRENT_SIZE in Hm. f_equal.
    pose proof (Z.div_mod (i_size ip) 16 ltac:(lia)). symmetry. apply (Z.div_unique_pos _ _ _ 15); lia. }
  rewrite Hn. destruct (dirlookup_loop_spec dp ip name hs (Z.to_nat (i_size ip / DIRENT_SIZE)) 0 s Hr Hi Hok Hname eq_refl) as (s' & R & E). exists s'.
  split; [done|]. exact E.
Qed.

(** C23. [readi] returns the bytes of the file.  For an inode whose blocks are allocated on
    the disk, a read of [n] bytes at [off] gives the bytes of the file from [off] up to
    [off + n] or its end, whichever comes first, taken block by block through the direct
    and the indirect block addresses; a read that starts behind the end gives -1.  Reading
    changes neither the disk nor what any later read of a block gives. *)
Theorem readi_correct i ip hs off n s :
  readable hs s -> s_inodes s !! i = Some ip -> i_dev ip = 1 -> i_type ip <> T_DEV -> 0 <= off -> 0 <= n -> off + n < 2 ^ 31 ->
  (forall bn, 0 <= bn < (i_size ip + Z.of_nat BSIZE - 1) / Z.of_nat BSIZE -> mapped s ip bn) ->
  exists s', reads s s' /\
    readi devread i off n s =
    if i_size ip <? off then Ret (-1, []) s'
    else let m := Z.min n (i_size ip - off) in Ret (m, file_data (content s) ip off (Z.to_nat m)) s'.
Proof.
  intros Hr Hi Hd Ht Ho Hn Hmax Hm. destruct (Z.ltb_spec (i_size ip) off) as [Hlt|Hge].
  - exists s. split; [apply reads_refl, Hr|]. unfold readi. step (get_inode_eq i ip s Hi). rewrite (proj2 (Z.eqb_neq _ _) Ht).
    by rewrite (proj2 (Z.ltb_lt _ _) Hlt).
  - destruct (readi_spec i ip hs off n s) as (s' & E & R); try done. exists s'. split; [done|]. cbv zeta. rewrite E.
    replace (read_count ip off n) with (Z.min n (i_size ip - off)); [done|]. unfold read_count. destruct (Z.ltb_spec (i_size ip) (off + n)); lia.
Qed.
End Readi.

(** Reading the last 200 bytes of a file of 700, with a request for 300. *)
Lemma readi_correct_witness :
  exists s s', readi (fun _ => None) 0 500 300 s = Ret (200, replicate 200 0) s'.
Proof.
  destruct Example.mounted as (s & Hop & _ & Ei & Ed & _ & Ec).
  destruct (readi_correct (fun _ => None) 0 Example.file0 [] 500 300 s) as (s' & _ & E); try lia; try done.
  - by apply in_op_readable.
  - by rewrite Ei.
  - intros bn Hb. change ((i_size Example.file0 + Z.of_nat BSIZE - 1) / Z.of_nat BSIZE) with 2 in Hb. unfold mapped, on_disk. rewrite Ed, Example.length_disk.
    assert (bn = 0 \/ bn = 1) as [-> | ->] by lia; (split; [done|]; split; [done|]; split; [done|]; split; [rewrite Ec; vm_compute; reflexivity|done]).
  - exists s, s'. rewrite E. cbv zeta. change (Z.min 300 (i_size Example.file0 - 500)) with 200. change (i_size Example.file0 <? 500) with false. cbv iota.
    rewrite (file_data_ext (dblock Example.disk) (content s)) by done. assert (Ex : file_data (dblock Example.disk) Example.file0 500 (Z.to_nat 200) = replicate 200 0) by (vm_compute; reflexivity).
    by rewrite Ex.
Defined.
