(* ===== verification/FsPath.v ===== *)
(** * Path names

    [namei] against the tree of directories on the disk.  The table of cached inodes is
    described by how many references there are to each inode number. *)

From S2P Require Import Prelude Mmu Mem Cstring Blk FsState Bio BioSpec Log LogSpec LogProps LogOps Fs FsSpec FsProps FsRead.

(** ** Steps that only change the table of inodes *)

Record walks (s s' : fs) : Prop := {
  wk_quiet : quiet s';
  wk_disk : s_disk s' = s_disk s;
  wk_writes : s_writes s' = s_writes s;
  wk_content : forall k, content s' k = content s k;
  wk_dirty : forall k, dirty s' k <-> dirty s k;
  wk_locks : s_locks s' = s_locks s;
  wk_pid : s_pid s' = s_pid s;
  wk_cwd : s_cwd s' = s_cwd s;
  wk_log : s_log s' = s_log s;
  wk_sb : s_sb s' = s_sb s;
  wk_table : length (s_inodes s') = length (s_inodes s)
}.

Lemma walks_refl s : quiet s -> walks s s.
Proof. intros H. by split. Qed.
Lemma walks_trans s1 s2 s3 : walks s1 s2 -> walks s2 s3 -> walks s1 s3.
Proof.
  intros [A1 A2 A3 A4 A5 A6 A7 A8 A9 A10 A11] [B1 B2 B3 B4 B5 B6 B7 B8 B9 B10 B11].
  split; [done|congruence|congruence|intros k; by rewrite B4, A4|intros k; by rewrite B5, A5|congruence..].
Qed.
Lemma reads_walks s s' : reads s s' -> walks s s'.
Proof. intros [H1 [] H3 H4 H5 H6]. split; try done. congruence. Qed.
Lemma walks_table v w s : quiet s -> length v = length (s_inodes s) -> walks s (set_inodes v (set_wake w s)).
Proof. intros [[] ? ?]. split; try done. Qed.

Lemma readable_walks hs s s' : readable hs s -> walks s s' -> readable hs s'.
Proof. intros [_ Hd Hr] W. split; [apply W| |done]. intros k Hk%(wk_dirty _ _ W). by apply Hd. Qed.

(** [s'] has the same blocks as [s]; what the table of inodes holds does not matter. *)
Record same_data (s s' : fs) : Prop := {
  sd_content : forall k, content s' k = content s k;
  sd_disk : s_disk s' = s_disk s;
  sd_sb : s_sb s' = s_sb s
}.
Lemma walks_data s s' : walks s s' -> same_data s s'.
Proof. intros W. split; apply W. Qed.

(** ** Locking an inode *)

(** The inode on the disk, in the entry [ip]. *)
Definition load (s : fs) (ip : inode) : inode := from_dinode (content s (IBLOCK (i_inum ip) (s_sb s))) (di_off (i_inum ip)) ip.

(** An entry in use: its fields are those on the disk if they are valid. *)
Record entry_ok (s : fs) (ip : inode) : Prop := {
  en_dev : i_dev ip = 1;
  en_ref : 1 <= i_ref ip;
  en_valid : i_valid ip = 0 \/ i_valid ip = 1 /\ load s ip = ip
}.

(** The entry while it is locked. *)
Definition held_entry (s : fs) (ip : inode) : inode := set_i_valid 1 (set_i_lock (Sleeplock 1 (s_pid s)) (load s ip)).

Lemma ilock_entry i ip hs s :
  readable hs s -> s_inodes s !! i = Some ip -> entry_ok s ip -> i_lock ip = Sleeplock 0 0 -> on_disk s (IBLOCK (i_inum ip) (s_sb s)) -> i_type (load s ip) <> 0 ->
  exists s', ilock i s = Ret tt s' /\ walks s s' /\ s_inodes s' = <[i := held_entry s ip]> (s_inodes s).
Proof.
  intros [Hq Hd Hr] Hi [Hdev Href Hvalid] Hlock Hon Hty. destruct Hvalid as [Hv|[Hv Hld]].
  - destruct (ilock_load i ip hs s) as (s' & E & Q & L & Ei & C & Y & D & W & [R1 R2 R3 R4 R5 R6]); try done; [by rewrite Hlock|].
    exists s'. split; [done|]. split; [|done]. split; try done. by rewrite Ei, length_insert.
  - unfold ilock. step (get_inode_eq i ip s Hi). rewrite (proj2 (Z.ltb_ge _ 1)) by lia.
    step (acquiresleep_inode i ip s Hi (proj2 (q_unlatched s Hq) _) ltac:(by rewrite Hlock)). set (s1 := set_inodes _ s).
    assert (Hi1 : s_inodes s1 !! i = Some (set_i_lock (Sleeplock 1 (s_pid s)) ip)) by (cbn; rewrite list_lookup_insert_eq; [done|by eapply lookup_lt_Some]).
    step (get_inode_eq i _ s1 Hi1). cbn [i_valid set_i_lock]. rewrite Hv. cbn [Z.eqb]. exists s1. split; [done|]. split.
    + replace s1 with (set_inodes (s_inodes s1) (set_wake (s_wake s) s)) by (by destruct s). apply walks_table; [done|]. cbn. by rewrite ?length_insert.
    + unfold held_entry. rewrite Hld. cbn [s1 s_inodes set_inodes]. f_equal. destruct ip. cbn in *. by subst.
Qed.

(** Giving up a locked entry that is still linked. *)
Lemma iput_linked i ip s :
  quiet s -> LkIcache ∉ s_locks s -> s_inodes s !! i = Some ip -> locked (i_lock ip) = 0 -> i_valid ip = 0 \/ i_nlink ip <> 0 ->
  exists s', iput i s = Ret tt s' /\ walks s s' /\ s_inodes s' = <[i := set_i_ref (i_ref ip - 1) (set_i_lock (Sleeplock 0 0) ip)]> (s_inodes s).
Proof.
  intros Hq Hic Hi Hl Hn. pose proof (proj2 (q_unlatched s Hq) (SlInode i)) as Hsl. apply lookup_lt_Some in Hi as Hlt. unfold iput.
  step (acquiresleep_inode i ip s Hi Hsl Hl). set (s1 := set_inodes _ s).
  assert (Hi1 : s_inodes s1 !! i = Some (set_i_lock (Sleeplock 1 (s_pid s)) ip)) by (cbn; by rewrite list_lookup_insert_eq).
  step (get_inode_eq i _ s1 Hi1). cbn [i_nlink i_valid set_i_lock].
  assert (En : negb (i_valid ip =? 0) && (i_nlink ip =? 0) = false) by (destruct Hn as [->|Hn%Z.eqb_neq]; [done|by rewrite Hn, andb_false_r]). rewrite En. step (@eq_refl _ (Ret tt s1)).
  step (releasesleep_inode i _ s1 Hi1 Hsl). set (s2 := set_inodes _ _). assert (Hl2 : s_locks s2 = s_locks s) by done.
  assert (Hi2 : s_inodes s2 !! i = Some (set_i_lock (Sleeplock 0 0) ip)) by (cbn; rewrite list_lookup_insert_eq by (by rewrite length_insert); by destruct ip).
  assert (Hic2 : LkIcache ∉ s_locks s2) by done. step (acq_eq LkIcache s2 Hic2). set (s3 := set_s_locks _ s2).
  step (upd_inode_eq i (fun ip => set_i_ref (i_ref ip - 1) ip) _ s3 Hi2). set (s4 := set_inodes _ s3).
  eexists. split; [exact (rel_eq LkIcache (s_locks s2) s4 eq_refl Hic2)|]. split.
  - match goal with |- walks s ?x => replace x with (set_inodes (s_inodes x) (set_wake (s_wake x) s)) by (by destruct s) end. apply walks_table; [done|]. cbn. by rewrite ?length_insert.
  - cbn. by rewrite !list_insert_insert_eq.
Qed.

Lemma iunlockput_linked i ip s :
  quiet s -> LkIcache ∉ s_locks s -> s_inodes s !! i = Some ip -> i_lock ip = Sleeplock 1 (s_pid s) -> 1 <= i_ref ip -> i_nlink ip <> 0 ->
  exists s', iunlockput i s = Ret tt s' /\ walks s s' /\ s_inodes s' = <[i := set_i_ref (i_ref ip - 1) (set_i_lock (Sleeplock 0 0) ip)]> (s_inodes s).
Proof.
  intros Hq Hic Hi Hl Hr Hn. pose proof (proj2 (q_unlatched s Hq) (SlInode i)) as Hsl. apply lookup_lt_Some in Hi as Hlt. unfold iunlockput.
  step (iunlock_eq i ip s Hi Hr Hl Hsl). set (s1 := set_inodes _ _). assert (W1 : walks s s1) by (apply walks_table; [done|by rewrite length_insert]).
  destruct (iput_linked i (set_i_lock (Sleeplock 0 0) ip) s1) as (s2 & E2 & W2 & Ei2); try done; [apply W1|cbn; by rewrite list_lookup_insert_eq|by right|].
  exists s2. split; [done|]. split; [by eapply walks_trans|]. rewrite Ei2. cbn. rewrite list_insert_insert_eq. by destruct ip.
Qed.

(** ** The table of inodes *)

Definition sum_by {A} (f : A -> Z) (l : list A) : Z := foldr (fun x a => f x + a) 0 l.
Lemma sum_by_insert {A} (f : A -> Z) l i x x' : l !! i = Some x -> sum_by f (<[i := x']> l) = sum_by f l - f x + f x'.
Proof.
  unfold sum_by. revert i. induction l as [|y l IH]; intros [|i] H; try done; [injection H as ->; cbn; lia|].
  change (<[S i := x']> (y :: l)) with (y :: <[i := x']> l). cbn [foldr]. rewrite (IH i H). lia.
Qed.
Lemma sum_by_nonneg {A} (f : A -> Z) l : (forall x, x ∈ l -> 0 <= f x) -> 0 <= sum_by f l.
Proof. unfold sum_by. induction l as [|x l IH]; intros H; cbn; [done|]. pose proof (H x ltac:(left)). specialize (IH ltac:(intros y Hy; apply H; by right)). lia. Qed.
Lemma sum_by_pos {A} (f : A -> Z) l : 0 < sum_by f l -> exists i x, l !! i = Some x /\ 0 < f x.
Proof.
  unfold sum_by. induction l as [|x l IH]; cbn; [lia|]. intros H. destruct (Z.ltb_spec 0 (f x)); [by exists 0%nat, x|].
  destruct IH as (i & y & Hi & Hy); [lia|]. by exists (S i), y.
Qed.

(** The references to inode [n], and the entries nothing refers to. *)
Definition refs (l : list inode) (n : Z) : Z := sum_by (fun ip => if i_inum ip =? n then i_ref ip else 0) l.
Definition free_entries (l : list inode) : Z := sum_by (fun ip => if i_ref ip =? 0 then 1 else 0) l.

Lemma refs_insert l i ip ip' m : l !! i = Some ip -> i_inum ip' = i_inum ip -> refs (<[i := ip']> l) m = refs l m + Z.b2z (m =? i_inum ip) * (i_ref ip' - i_ref ip).
Proof. intros Hi E. unfold refs. rewrite (sum_by_insert _ _ _ ip) by done. rewrite E, (Z.eqb_sym m). destruct (i_inum ip =? m); cbn; lia. Qed.
Lemma free_insert l i ip ip' : l !! i = Some ip -> free_entries (<[i := ip']> l) = free_entries l - Z.b2z (i_ref ip =? 0) + Z.b2z (i_ref ip' =? 0).
Proof. intros Hi. unfold free_entries. rewrite (sum_by_insert _ _ _ ip) by done. by destruct (i_ref ip =? 0), (i_ref ip' =? 0). Qed.

(** The table while the running process has locked at most the entry [h]. *)
Record icache_ok (h : option nat) (s : fs) : Prop := {
  ic_lock : forall i ip, s_inodes s !! i = Some ip -> i_lock ip = if bool_decide (h = Some i) then Sleeplock 1 (s_pid s) else Sleeplock 0 0;
  ic_entry : forall i ip, s_inodes s !! i = Some ip -> i_ref ip = 0 \/ entry_ok s ip;
  ic_unique : forall i j ip jp, s_inodes s !! i = Some ip -> s_inodes s !! j = Some jp -> 1 <= i_ref ip -> 1 <= i_ref jp ->
    i_inum ip = i_inum jp -> i = j;
  ic_latch : LkIcache ∉ s_locks s
}.

Lemma load_data s s' ip : same_data s s' -> load s' ip = load s ip.
Proof. intros W. unfold load. by rewrite (sd_content _ _ W), (sd_sb _ _ W). Qed.
Lemma load_walks s s' ip : walks s s' -> load s' ip = load s ip.
Proof. intros W. by apply load_data, walks_data. Qed.
Lemma load_set_ref s r ip : load s (set_i_ref r ip) = set_i_ref r (load s ip).
Proof. done. Qed.
Lemma entry_ok_walks s s' ip : walks s s' -> entry_ok s ip -> entry_ok s' ip.
Proof. intros W [H1 H2 H3]. split; [done|done|]. by rewrite (load_walks _ _ _ W). Qed.

Lemma icache_step h h' i ip ip' s s' :
  icache_ok h s -> walks s s' -> s_inodes s !! i = Some ip -> s_inodes s' = <[i := ip']> (s_inodes s) ->
  i_lock ip' = (if bool_decide (h' = Some i) then Sleeplock 1 (s_pid s) else Sleeplock 0 0) ->
  (forall j, j <> i -> h' = Some j <-> h = Some j) ->
  i_ref ip' = 0 \/ entry_ok s ip' ->
  (1 <= i_ref ip' -> forall j jp, s_inodes s !! j = Some jp -> 1 <= i_ref jp -> i_inum jp = i_inum ip' -> j = i) ->
  icache_ok h' s'.
Proof.
  intros [L E U K] W Hi Ei Hl Hh He Hu. apply lookup_lt_Some in Hi as Hlt. split; rewrite ?Ei, ?(wk_locks _ _ W), ?(wk_pid _ _ W); [| | |done].
  - intros j jp [(-> & -> & _)|[Hne Hj]]%list_lookup_insert_Some; [done|]. rewrite (L j jp Hj). specialize (Hh j ltac:(done)).
    by rewrite (bool_decide_ext _ _ Hh).
  - intros j jp [(-> & -> & _)|[Hne Hj]]%list_lookup_insert_Some.
    + destruct He; [by left|right]. by eapply entry_ok_walks.
    + destruct (E j jp Hj); [by left|right]. by eapply entry_ok_walks.
  - intros a b ap bp [(-> & -> & _)|[Ha Ha']]%list_lookup_insert_Some [(-> & -> & _)|[Hb Hb']]%list_lookup_insert_Some Ra Rb Eq; try done.
    + symmetry. by apply (Hu Ra b bp).
    + by apply (Hu Rb a ap).
    + by eapply U.
Qed.

Lemma icache_ref h s i ip : icache_ok h s -> s_inodes s !! i = Some ip -> 0 <= i_ref ip.
Proof. intros H Hi. destruct (ic_entry _ _ H i ip Hi) as [->|[]]; lia. Qed.

(** *** [iget] *)

Lemma iget_scan_spec n l : forall k e,
  match iget_scan 1 n l k e with
  | inl j => exists i ip, j = (k + i)%nat /\ l !! i = Some ip /\ 0 < i_ref ip /\ i_dev ip = 1 /\ i_inum ip = n
  | inr r => (forall i ip, l !! i = Some ip -> 0 < i_ref ip -> i_dev ip = 1 -> i_inum ip <> n) /\
      match e with
      | Some _ => r = e
      | None => match r with
                | Some j => exists i ip, j = (k + i)%nat /\ l !! i = Some ip /\ i_ref ip = 0
                | None => forall i ip, l !! i = Some ip -> i_ref ip <> 0
                end
      end
  end.
Proof.
  induction l as [|ip l IH]; intros k e; cbn [iget_scan]; [by destruct e|].
  destruct ((0 <? i_ref ip) && (i_dev ip =? 1) && (i_inum ip =? n)) eqn:Hm.
  { apply andb_prop in Hm as [[H1%Z.ltb_lt H2%Z.eqb_eq]%andb_prop H3%Z.eqb_eq]. exists 0%nat, ip. by rewrite Nat.add_0_r. }
  specialize (IH (S k) (match e with Some e => Some e | None => if i_ref ip =? 0 then Some k else None end)).
  destruct (iget_scan 1 n l (S k) _) as [j|r].
  { destruct IH as (i & jp & -> & Hi & H). exists (S i), jp. split; [lia|done]. }
  destruct IH as [Hno Hr]. split.
  { intros [|i] jp Hi H1 H2 H3; [|by apply (Hno i jp)]. injection Hi as <-. apply Z.ltb_lt in H1. apply Z.eqb_eq in H2, H3. by rewrite H1, H2, H3 in Hm. }
  destruct e; [done|]. destruct (Z.eqb_spec (i_ref ip) 0) as [H0|H0].
  { subst r. exists 0%nat, ip. by rewrite Nat.add_0_r. }
  destruct r as [j|].
  - destruct Hr as (i & jp & -> & Hi & H). exists (S i), jp. split; [lia|done].
  - intros [|i] jp Hi; [by injection Hi as <-|by apply (Hr i)].
Qed.

(** [iget]: one more reference to the entry of the inode, or an entry that was free. *)
Lemma iget_spec n h s :
  quiet s -> icache_ok h s -> 0 < free_entries (s_inodes s) ->
  exists i ip ip' s', iget 1 n s = Ret i s' /\ walks s s' /\ icache_ok h s' /\
    s_inodes s !! i = Some ip /\ s_inodes s' = <[i := ip']> (s_inodes s) /\
    i_inum ip' = n /\ i_ref ip' = i_ref ip + 1 /\ (i_ref ip = 0 \/ ip' = set_i_ref (i_ref ip + 1) ip).
Proof.
  intros Hq Hic Hfree. unfold iget. pose proof (ic_latch _ _ Hic) as Hl. step (acq_eq LkIcache s Hl). set (s1 := set_s_locks _ s). rewrite bind_gets.
  assert (Hgo : forall i ip f, s_inodes s !! i = Some ip ->
    (upd_inode i f ;;; release LkIcache ;;; ret i) s1 = Ret i (set_inodes (<[i := f ip]> (s_inodes s)) (set_wake (s_wake s) s))).
  { intros i ip f Hi. step (upd_inode_eq i f ip s1 Hi). set (s2 := set_inodes _ s1). step (rel_eq LkIcache (s_locks s) s2 eq_refl Hl). by destruct s. }
  pose proof (iget_scan_spec n (s_inodes s) 0 None) as Hs. change (s_inodes s1) with (s_inodes s). destruct (iget_scan 1 n (s_inodes s) 0 None) as [j|[j|]].
  - destruct Hs as (i & ip & -> & Hi & Hr & Hd & Hn). cbn [Nat.add]. rewrite (Hgo i ip _ Hi). eexists i, ip, _, _. split; [done|].
    pose proof (walks_table (<[i := set_i_ref (i_ref ip + 1) ip]> (s_inodes s)) (s_wake s) s Hq ltac:(by rewrite length_insert)) as W. split; [done|].
    split; [|split_and!; try done; by right].
    eapply (icache_step h h i ip); try done; [exact (ic_lock _ _ Hic i ip Hi)| |].
    + right. destruct (ic_entry _ _ Hic i ip Hi) as [|[E1 E2 E3]]; [lia|]. split; [done|cbn; lia|]. destruct E3 as [|[? E3]]; [by left|right]. split; [done|].
      by rewrite load_set_ref, E3.
    + intros _ j jp Hj Hjr Eq. eapply (ic_unique _ _ Hic); try done; lia.
  - destruct Hs as [Hno (i & ip & -> & Hi & Hr)]. cbn [Nat.add]. rewrite (Hgo i ip _ Hi). eexists i, ip, _, _. split; [done|].
    match goal with |- walks s (set_inodes ?v _) /\ _ => pose proof (walks_table v (s_wake s) s Hq ltac:(cbn; by rewrite ?length_insert)) as W end. split; [done|].
    split; [|split_and!; [done..|cbn; by rewrite Hr|by left]].
    eapply (icache_step h h i ip); try done; [exact (ic_lock _ _ Hic i ip Hi)| |].
    + right. split; [done|cbn; lia|by left].
    + intros _ j jp Hj Hjr Eq. exfalso. eapply (Hno j jp); try done; [lia|]. destruct (ic_entry _ _ Hic j jp Hj) as [|[]]; [lia|done].
  - destruct Hs as [_ Hs]. apply sum_by_pos in Hfree as (i & ip & Hi & Hp). exfalso. apply (Hs i ip Hi). destruct (Z.eqb_spec (i_ref ip) 0); [done|lia].
Qed.

(** ** Directories on the disk *)

(** The inode [n] as the disk holds it. *)
Definition disk_inode (s : fs) (n : Z) : inode := load s (Inode 1 n 1 (Sleeplock 0 0) 0 0 0 0 0 0 []).

(** The inode number the directory [n] has for the name [e]; names are cut to their
    first 14 characters. *)
Definition child (s : fs) (n : Z) (e : list Z) : option Z :=
  let ip := disk_inode s n in
  if i_type ip =? T_DIR then
    fst ∘ snd <$> list_find (fun x => fst x <> 0 /\ cname (snd x) = take 14 e) (dir_list (content s) ip)
  else None.

(** The inode the elements [es] lead to from [n]. *)
Fixpoint resolve (s : fs) (n : Z) (es : list (list Z)) : option Z :=
  match es with
  | [] => Some n
  | e :: es => n' ← child s n e; resolve s n' es
  end.

(** The directory that has the last element. *)
Definition resolve_parent (s : fs) (n : Z) (es : list (list Z)) : option Z :=
  match es with
  | [] => None
  | _ => n' ← resolve s n (removelast es); if i_type (disk_inode s n') =? T_DIR then Some n' else None
  end.

(** A set of inodes that are in use and that the directories among them do not lead out of. *)
Record tree (s : fs) (P : Z -> Prop) : Prop := {
  tr_block : forall n, P n -> on_disk s (IBLOCK n (s_sb s));
  tr_type : forall n, P n -> i_type (disk_inode s n) <> 0;
  tr_nlink : forall n, P n -> i_nlink (disk_inode s n) <> 0;
  tr_dir : forall n, P n -> i_type (disk_inode s n) = T_DIR -> dir_ok s (disk_inode s n);
  tr_closed : forall n, P n -> i_type (disk_inode s n) = T_DIR -> forall e, e ∈ dir_list (content s) (disk_inode s n) -> fst e <> 0 -> P (fst e)
}.

(** The fields of the inode on the disk and in a locked entry. *)
Lemma disk_fields s n :
  let d := content s (IBLOCK n (s_sb s)) in let o := di_off n in
  i_type (disk_inode s n) = di_type d o /\ i_size (disk_inode s n) = get32 d (o + 8) /\ i_addrs (disk_inode s n) = di_addrs d o.
Proof. done. Qed.
Lemma entry_fields s ip :
  let d := content s (IBLOCK (i_inum ip) (s_sb s)) in let o := di_off (i_inum ip) in
  i_type (held_entry s ip) = di_type d o /\ i_size (held_entry s ip) = get32 d (o + 8) /\ i_addrs (held_entry s ip) = di_addrs d o.
Proof. done. Qed.
Lemma held_disk s n ip : i_inum ip = n ->
  i_type (held_entry s ip) = i_type (disk_inode s n) /\ i_size (held_entry s ip) = i_size (disk_inode s n) /\ i_addrs (held_entry s ip) = i_addrs (disk_inode s n).
Proof. intros <-. destruct (disk_fields s (i_inum ip)) as (-> & -> & ->), (entry_fields s ip) as (-> & -> & ->). done. Qed.

Lemma disk_inode_walks s s' n : walks s s' -> disk_inode s' n = disk_inode s n.
Proof. apply load_walks. Qed.
Lemma dir_list_ext c c' ip : (forall k, c' k = c k) -> dir_list c' ip = dir_list c ip.
Proof. intros H. apply list_fmap_ext. intros k x _. unfold dir_entry. by rewrite (file_data_ext c c'). Qed.
Lemma child_data s s' n e : same_data s s' -> child s' n e = child s n e.
Proof. intros W. unfold child, disk_inode. by rewrite (load_data _ _ _ W), (dir_list_ext (content s) (content s') _ (sd_content _ _ W)). Qed.
Lemma child_walks s s' n e : walks s s' -> child s' n e = child s n e.
Proof. intros W. by apply child_data, walks_data. Qed.
Lemma resolve_data s s' es : same_data s s' -> forall n, resolve s' n es = resolve s n es.
Proof. intros W. induction es as [|e es IH]; intros n; [done|]. cbn. rewrite (child_data _ _ _ _ W). destruct (child s n e); [apply IH|done]. Qed.
Lemma resolve_walks s s' es : walks s s' -> forall n, resolve s' n es = resolve s n es.
Proof. intros W. by apply resolve_data, walks_data. Qed.

Lemma mapped_data s s' ip ip' bn : same_data s s' -> i_addrs ip' = i_addrs ip -> mapped s ip bn -> mapped s' ip' bn.
Proof. intros W E H. unfold mapped, on_disk, file_addr, addr_at in *. by rewrite !E, !(sd_disk _ _ W), !(sd_content _ _ W). Qed.

Lemma dir_ok_data s s' ip ip' :
  same_data s s' -> i_dev ip' = i_dev ip -> i_type ip' = i_type ip -> i_size ip' = i_size ip -> i_addrs ip' = i_addrs ip -> dir_ok s ip -> dir_ok s' ip'.
Proof. intros W E1 E2 E3 E4 [H1 H2 H3 H4]. split; rewrite ?E1, ?E2, ?E3; try done. intros bn Hb. by apply (mapped_data s s' ip), H4. Qed.

Lemma tree_data s s' P : same_data s s' -> tree s P -> tree s' P.
Proof.
  intros W [H1 H2 H3 H4 H5]. split; intros n Hn; unfold disk_inode; rewrite ?(load_data _ _ _ W), ?(dir_list_ext _ _ _ (sd_content _ _ W)); auto.
  - unfold on_disk. rewrite (sd_disk _ _ W), (sd_sb _ _ W). by apply H1.
  - by apply H2.
  - by apply H3.
  - intros Ht. apply (dir_ok_data s s' (disk_inode s n)); auto.
  - apply (H5 n Hn).
Qed.
Lemma tree_walks s s' P : walks s s' -> tree s P -> tree s' P.
Proof. intros W. by apply tree_data, walks_data. Qed.

(** ** One operation on the table at a time *)

(** One more ([d] = 1) or one less ([d] = -1) reference to [n]. *)
Definition counts (d : Z) (n : Z) (s s' : fs) : Prop := forall m, refs (s_inodes s') m = refs (s_inodes s) m + d * Z.b2z (m =? n).

Lemma iget_counts n i ip ip' (s s' : fs) :
  s_inodes s !! i = Some ip -> s_inodes s' = <[i := ip']> (s_inodes s) -> i_inum ip' = n -> i_ref ip' = i_ref ip + 1 ->
  i_ref ip = 0 \/ ip' = set_i_ref (i_ref ip + 1) ip -> counts 1 n s s'.
Proof.
  intros Hi E En Er [H0| ->] m; rewrite E.
  - unfold refs. rewrite (sum_by_insert _ _ _ ip) by done. rewrite Er, H0, En, (Z.eqb_sym m). destruct (i_inum ip =? m), (n =? m); cbn; lia.
  - rewrite (refs_insert _ _ ip) by done. cbn in *. subst n. lia.
Qed.

Section Tree.
Context (P : Z -> Prop) (hs : list Z).

Lemma ilock_tree i ip s :
  readable hs s -> icache_ok None s -> tree s P -> s_inodes s !! i = Some ip -> 1 <= i_ref ip -> P (i_inum ip) ->
  exists s', ilock i s = Ret tt s' /\ walks s s' /\ icache_ok (Some i) s' /\ s_inodes s' = <[i := held_entry s ip]> (s_inodes s) /\
    counts 0 0 s s' /\ free_entries (s_inodes s') = free_entries (s_inodes s).
Proof.
  intros Hr Hic Ht Hi H1 Hn. assert (Hen : entry_ok s ip) by (destruct (ic_entry _ _ Hic i ip Hi); [lia|done]).
  pose proof (ic_lock _ _ Hic i ip Hi) as Hl. rewrite bool_decide_false in Hl by done.
  destruct (ilock_entry i ip hs s) as (s' & E & W & Ei); try done; [by apply (tr_block _ _ Ht)|by apply (tr_type _ _ Ht (i_inum ip))|].
  exists s'. split; [done|]. split; [done|]. split; [|split; [done|split]].
  - eapply (icache_step None (Some i) i ip); try done.
    + by rewrite bool_decide_true.
    + intros j Hj. split; [by intros [= ->]|done].
    + right. destruct Hen as [E1 E2 E3]. split; [done|done|]. by right.
    + intros _ j jp Hj Hjr Eq. by eapply (ic_unique _ _ Hic).
  - intros m. rewrite Ei, (refs_insert _ _ ip) by done. cbn. lia.
  - rewrite Ei, (free_insert _ _ ip) by done. cbn [held_entry load from_dinode set_i_valid set_i_lock i_ref]. lia.
Qed.

(** The fields of an entry while it is locked. *)
Lemma held_fields i ip s :
  icache_ok (Some i) s -> s_inodes s !! i = Some ip -> i_valid ip = 1 -> 1 <= i_ref ip ->
  i_dev ip = 1 /\ i_lock ip = Sleeplock 1 (s_pid s) /\ load s ip = ip.
Proof.
  intros Hic Hi Hv H1. pose proof (ic_lock _ _ Hic i ip Hi) as Hl. rewrite bool_decide_true in Hl by done.
  destruct (ic_entry _ _ Hic i ip Hi) as [|[E1 E2 E3]]; [lia|]. destruct E3 as [|[_ E3]]; [lia|done].
Qed.

Lemma icache_released h i ip r s s' :
  icache_ok h s -> (h = Some i \/ h = None) -> walks s s' -> s_inodes s !! i = Some ip -> 1 <= i_ref ip -> 0 <= r ->
  s_inodes s' = <[i := set_i_ref r (set_i_lock (Sleeplock 0 0) ip)]> (s_inodes s) -> icache_ok None s'.
Proof.
  intros Hic Hh W Hi H1 Hr Ei. eapply (icache_step h None i ip); try done.
  - intros j Hj. split; [done|]. destruct Hh as [-> | ->]; [by intros [= ->]|done].
  - cbn [i_ref set_i_ref]. destruct (decide (r = 0)); [by left|right].
    destruct (ic_entry _ _ Hic i ip Hi) as [|[E1 E2 E3]]; [lia|]. split; [done|cbn; lia|]. destruct E3 as [|[? E3]]; [by left|right]. split; [done|].
    change (set_i_ref r (set_i_lock (Sleeplock 0 0) (load s ip)) = set_i_ref r (set_i_lock (Sleeplock 0 0) ip)). by rewrite E3.
  - cbn. intros _ j jp Hj Hjr Eq. by eapply (ic_unique _ _ Hic).
Qed.

Lemma put_counts i ip (s s' : fs) :
  s_inodes s !! i = Some ip -> 1 <= i_ref ip -> s_inodes s' = <[i := set_i_ref (i_ref ip - 1) (set_i_lock (Sleeplock 0 0) ip)]> (s_inodes s) ->
  counts (-1) (i_inum ip) s s' /\ free_entries (s_inodes s') = free_entries (s_inodes s) + Z.b2z (i_ref ip =? 1).
Proof.
  intros Hi H1 Ei. split.
  - intros m. rewrite Ei, (refs_insert _ _ ip) by done. cbn. lia.
  - rewrite Ei, (free_insert _ _ ip) by done. cbn [i_ref set_i_ref]. rewrite (proj2 (Z.eqb_neq (i_ref ip) 0)) by lia.
    replace (i_ref ip - 1 =? 0) with (i_ref ip =? 1); [cbn; lia|]. destruct (Z.eqb_spec (i_ref ip) 1), (Z.eqb_spec (i_ref ip - 1) 0); done || lia.
Qed.

Lemma iunlockput_tree i ip s :
  quiet s -> icache_ok (Some i) s -> tree s P -> s_inodes s !! i = Some ip -> i_valid ip = 1 -> 1 <= i_ref ip -> P (i_inum ip) ->
  exists s', iunlockput i s = Ret tt s' /\ walks s s' /\ icache_ok None s' /\
    s_inodes s' = <[i := set_i_ref (i_ref ip - 1) (set_i_lock (Sleeplock 0 0) ip)]> (s_inodes s).
Proof.
  intros Hq Hic Ht Hi Hv H1 Hn. destruct (held_fields i ip s) as (Hd & Hl & Hload); try done.
  destruct (iunlockput_linked i ip s) as (s' & E & W & Ei); try done; [apply Hic| |].
  - rewrite <- Hload. by apply (tr_nlink _ _ Ht (i_inum ip)).
  - exists s'. split; [done|]. split; [done|]. split; [|done]. eapply (icache_released (Some i) i ip (i_ref ip - 1) s); try done; [by left|lia].
Qed.

Lemma iput_tree i ip s :
  quiet s -> icache_ok None s -> tree s P -> s_inodes s !! i = Some ip -> 1 <= i_ref ip -> P (i_inum ip) ->
  exists s', iput i s = Ret tt s' /\ walks s s' /\ icache_ok None s' /\ counts (-1) (i_inum ip) s s'.
Proof.
  intros Hq Hic Ht Hi H1 Hn. pose proof (ic_lock _ _ Hic i ip Hi) as Hl. rewrite bool_decide_false in Hl by done.
  destruct (iput_linked i ip s) as (s' & E & W & Ei); try done; [apply Hic|by rewrite Hl| |].
  - destruct (ic_entry _ _ Hic i ip Hi) as [|[_ _ [Hv|[_ Hv]]]]; [lia|by left|right]. rewrite <- Hv. by apply (tr_nlink _ _ Ht (i_inum ip)).
  - exists s'. split; [done|]. split; [done|]. split; [|by apply (put_counts i ip s s')].
    eapply (icache_released None i ip (i_ref ip - 1) s); try done; [by right|lia].
Qed.

Lemma iunlock_tree i ip s :
  quiet s -> icache_ok (Some i) s -> s_inodes s !! i = Some ip -> i_valid ip = 1 -> 1 <= i_ref ip ->
  exists s', iunlock i s = Ret tt s' /\ walks s s' /\ icache_ok None s' /\ s_inodes s' = <[i := set_i_lock (Sleeplock 0 0) ip]> (s_inodes s).
Proof.
  intros Hq Hic Hi Hv H1. destruct (held_fields i ip s) as (Hd & Hl & Hload); try done. eexists.
  split; [exact (iunlock_eq i ip s Hi H1 Hl (proj2 (q_unlatched s Hq) _))|]. pose proof (walks_table (<[i := set_i_lock (Sleeplock 0 0) ip]> (s_inodes s)) (s_wake s ++ [ChSleep (SlInode i)]) s Hq ltac:(by rewrite length_insert)) as W.
  split; [done|]. split; [|done]. eapply (icache_released (Some i) i ip (i_ref ip) s); try done; [by left|lia].
Qed.

(** There are entries for the next inode and, after the entry in hand is given up, for one more. *)
Definition room (s : fs) (ip : inode) : Prop := 2 <= free_entries (s_inodes s) + Z.b2z (i_ref ip =? 1).

(** Looking up a name in the locked directory [i]. *)
Lemma dirlookup_tree devread i ip e name s :
  readable hs s -> icache_ok (Some i) s -> tree s P -> s_inodes s !! i = Some ip -> i_valid ip = 1 -> 1 <= i_ref ip -> P (i_inum ip) ->
  i_type ip = T_DIR -> length name = 14%nat -> cname name = take 14 e -> 0 < free_entries (s_inodes s) ->
  exists r s', dirlookup devread i name s = Ret r s' /\ walks s s' /\ icache_ok (Some i) s' /\
    match child s (i_inum ip) e with
    | None => r = None /\ s_inodes s' = s_inodes s
    | Some n => P n /\ exists j o jp jp', r = Some (j, o) /\ s_inodes s !! j = Some jp /\ s_inodes s' = <[j := jp']> (s_inodes s) /\
        i_inum jp' = n /\ i_ref jp' = i_ref jp + 1 /\ (i_ref jp = 0 \/ jp' = set_i_ref (i_ref jp + 1) jp)
    end.
Proof.
  intros Hr Hic Ht Hi Hv H1 Hn Hty Hlen Hname Hfree. destruct (held_fields i ip s) as (Hd & Hl & Hload); try done.
  assert (Et : i_type (disk_inode s (i_inum ip)) = T_DIR) by (rewrite <- Hty; by rewrite <- Hload at 2).
  assert (Edl : dir_list (content s) (disk_inode s (i_inum ip)) = dir_list (content s) ip) by (by rewrite <- Hload at 2).
  assert (Hok : dir_ok s ip).
  { apply (dir_ok_data s s (disk_inode s (i_inum ip))); [by split|by rewrite Hd|by rewrite <- Hload at 1..|by apply (tr_dir _ _ Ht)]. }
  destruct (dirlookup_spec devread i ip name hs s Hr Hi Hok Hlen) as (s1 & R & E). rewrite E.
  unfold child. rewrite Et, Edl. cbn [Z.eqb T_DIR Pos.eqb].
  rewrite (list_find_ext (fun x : Z * list Z => fst x <> 0 /\ cname (snd x) = take 14 e) (names_it name)) by (intros x; unfold names_it; by rewrite Hname).
  pose proof (reads_walks _ _ R) as W. pose proof (sr_inodes _ _ (rd_rest _ _ R)) as Ei.
  assert (Hic1 : icache_ok (Some i) s1).
  { eapply (icache_step (Some i) (Some i) i ip ip); try done; [by rewrite Ei, list_insert_id|by rewrite bool_decide_true|by apply (ic_entry _ _ Hic i)|].
    intros _ j jp Hj Hjr Eq. by eapply (ic_unique _ _ Hic). }
  destruct (list_find (names_it name) (dir_list (content s) ip)) as [[k [m nm]]|] eqn:Ef; cbn [fmap option_fmap option_map compose fst snd]; [|by exists None, s1].
  apply list_find_Some in Ef as (Hk & [H0 _] & _). cbn [fst snd] in *.
  destruct (iget_spec m (Some i) s1) as (j & jp & jp' & s2 & E2 & W2 & Hic2 & Hj & Ei2 & En & Er & Hor); [apply R|done|by rewrite Ei|].
  rewrite Ei in Hj, Ei2. eexists _, s2. split; [step E2; done|]. split; [by eapply walks_trans|]. split; [done|]. split.
  - apply (tr_closed _ _ Ht (i_inum ip) Hn Et (m, nm)); [|done]. rewrite Edl. by eapply list_elem_of_lookup_2.
  - by exists j, (DIRENT_SIZE * Z.of_nat k), jp, jp'.
Qed.

(** Giving up the directory [i] after its entry for [j] was taken. *)
Lemma iunlockput_next i ip j jp jp' s s1 :
  quiet s1 -> icache_ok (Some i) s1 -> tree s1 P -> s_inodes s !! i = Some ip -> i_valid ip = 1 -> 1 <= i_ref ip -> P (i_inum ip) -> room s ip ->
  s_inodes s !! j = Some jp -> s_inodes s1 = <[j := jp']> (s_inodes s) -> 0 <= i_ref jp -> i_ref jp' = i_ref jp + 1 ->
  i_ref jp = 0 \/ jp' = set_i_ref (i_ref jp + 1) jp ->
  exists jp2 s2, iunlockput i s1 = Ret tt s2 /\ walks s1 s2 /\ icache_ok None s2 /\ counts (-1) (i_inum ip) s1 s2 /\
    s_inodes s2 !! j = Some jp2 /\ i_inum jp2 = i_inum jp' /\ 1 <= i_ref jp2 /\ room s2 jp2.
Proof.
  intros Hq Hic Ht Hi Hv H1 Hn Hroom Hj Ei Hjr Er Hor. apply lookup_lt_Some in Hi as Hlt. unfold room in *.
  assert (Ef : free_entries (s_inodes s1) = free_entries (s_inodes s) - Z.b2z (i_ref jp =? 0)).
  { rewrite Ei, (free_insert _ _ jp) by done. rewrite (proj2 (Z.eqb_neq (i_ref jp') 0)) by lia. cbn. lia. }
  assert (Hcur : exists ip1, s_inodes s1 !! i = Some ip1 /\ i_valid ip1 = 1 /\ i_inum ip1 = i_inum ip /\ i_ref ip1 = i_ref ip + Z.b2z (bool_decide (i = j))).
  { rewrite Ei. destruct (decide (i = j)) as [<-|Hne].
    - rewrite Hi in Hj. injection Hj as <-. destruct Hor as [| ->]; [lia|]. eexists. split; [by apply list_lookup_insert_eq|]. by rewrite bool_decide_true.
    - exists ip. rewrite list_lookup_insert_ne by done. rewrite bool_decide_false by done. cbn. rewrite Z.add_0_r. done. }
  destruct Hcur as (ip1 & Hi1 & Hv1 & En1 & Er1). assert (H1' : 1 <= i_ref ip1) by (rewrite Er1; destruct (bool_decide _); cbn; lia).
  destruct (iunlockput_tree i ip1 s1) as (s2 & E2 & W2 & Hic2 & Ei2); try done; [by rewrite En1|]. destruct (put_counts i ip1 s1 s2 Hi1 H1' Ei2) as [Hc Hf].
  rewrite En1 in Hc. destruct (decide (i = j)) as [<-|Hne].
  - rewrite Hi in Hj. injection Hj as <-. destruct Hor as [| ->]; [lia|]. rewrite bool_decide_true in Er1 by done. cbn in Er1.
    exists (set_i_ref (i_ref ip1 - 1) (set_i_lock (Sleeplock 0 0) ip1)), s2.
    split_and!; try done; [rewrite Ei2; apply list_lookup_insert_eq; rewrite Ei, length_insert; done|cbn; lia|].
    cbn [i_ref set_i_ref]. replace (i_ref ip1 - 1) with (i_ref ip) by lia. rewrite Hf, Ef. rewrite (proj2 (Z.eqb_neq (i_ref ip) 0)), (proj2 (Z.eqb_neq (i_ref ip1) 1)) by lia. cbn. lia.
  - rewrite bool_decide_false in Er1 by done. cbn in Er1. rewrite Z.add_0_r in Er1. apply lookup_lt_Some in Hj as Hjl.
    exists jp', s2. split_and!; try done; [rewrite Ei2, list_lookup_insert_ne, Ei by done; by apply list_lookup_insert_eq|lia|].
    rewrite Hf, Ef, Er1, Er. destruct (Z.eqb_spec (i_ref jp) 0) as [->|].
    + change (0 + 1 =? 1) with true. cbn [Z.b2z]. lia.
    + rewrite (proj2 (Z.eqb_neq (i_ref jp + 1) 1)) by lia. cbn [Z.b2z]. lia.
Qed.

(** ** The loop of namex *)

Definition target (parent : bool) (s : fs) (n : Z) (es : list (list Z)) : option Z := if parent then resolve_parent s n es else resolve s n es.

(** Where the reference held at the start has gone. *)
Definition found (parent : bool) (es : list (list Z)) (n : Z) (t : option Z) (r : option nat * list Z) (s s' : fs) : Prop :=
  match t with
  | None => fst r = None /\ counts (-1) n s s'
  | Some d => (exists i ip, fst r = Some i /\ s_inodes s' !! i = Some ip /\ i_inum ip = d /\ 1 <= i_ref ip) /\
      (parent = true -> cname (snd r) = take 14 (List.last es [])) /\
      (forall m, refs (s_inodes s') m = refs (s_inodes s) m - Z.b2z (m =? n) + Z.b2z (m =? d))
  end.

Lemma target_step parent s n e es n' : child s n e = Some n' -> (parent = true -> es <> []) -> target parent s n (e :: es) = target parent s n' es.
Proof. intros Hc Hne. destruct parent; cbn; [|by rewrite Hc]. destruct es; [by destruct Hne|]. cbn [removelast resolve]. by rewrite Hc. Qed.
Lemma target_none parent s n e es : child s n e = None -> (parent = true -> es <> []) -> target parent s n (e :: es) = None.
Proof. intros Hc Hne. destruct parent; cbn; [|by rewrite Hc]. destruct es; [by destruct Hne|]. cbn [removelast resolve]. by rewrite Hc. Qed.
Lemma target_file parent s n e es : i_type (disk_inode s n) <> T_DIR -> target parent s n (e :: es) = None.
Proof.
  intros Ht. apply Z.eqb_neq in Ht. assert (Hc : child s n e = None) by (unfold child; by rewrite Ht).
  destruct parent; [destruct es as [|e' es]|]; cbn [target resolve_parent removelast resolve]; rewrite ?Hc; [|done..]. cbn [mbind option_bind]. by rewrite Ht.
Qed.

Lemma target_walks parent s s' n es : walks s s' -> target parent s' n es = target parent s n es.
Proof.
  intros W. unfold target, resolve_parent. destruct parent; [|by apply resolve_walks]. destruct es as [|e es]; [done|]. rewrite (resolve_walks s s') by done.
  destruct (resolve s n (removelast (e :: es))); [|done]. cbn [mbind option_bind]. by rewrite (disk_inode_walks s s').
Qed.

Lemma found_step parent e es n n' t r s s1 s2 s' :
  es <> [] \/ parent = false -> counts 1 n' s s1 -> counts (-1) n s1 s2 -> found parent es n' t r s2 s' -> found parent (e :: es) n t r s s'.
Proof.
  intros Hes C1 C2. unfold found. destruct t as [d|].
  - intros (Hi & Hl & Hc). split; [done|]. split; [|intros m; rewrite Hc, C2, C1; lia].
    intros ->. destruct es; [by destruct Hes|]. by apply Hl.
  - intros [Hr Hc]. split; [done|]. intros m. rewrite Hc, C2, C1. lia.
Qed.

Lemma namex_loop_tree devread parent es : forall fuel i ip path name s,
  es = elements path -> 0 ∉ path -> length name = 14%nat -> (length es <= fuel)%nat ->
  readable hs s -> icache_ok None s -> tree s P -> s_inodes s !! i = Some ip -> 1 <= i_ref ip -> P (i_inum ip) -> room s ip ->
  exists r s', namex_loop devread fuel i path parent name s = Ret r s' /\ walks s s' /\ icache_ok None s' /\
    found parent es (i_inum ip) (target parent s (i_inum ip) es) r s s'.
Proof.
  induction es as [|e es IH]; intros fuel i ip path name s Ees H0 Hlen Hf Hr Hic Ht Hi H1 Hn Hroom;
    pose proof (skipelem_spec path name H0 ltac:(unfold DIRSIZ; lia)) as Hs; rewrite <- Ees in Hs.
  - assert (Hloop : namex_loop devread fuel i path parent name = if parent then iput i ;;; ret (None, name) else ret (Some i, name)).
    { destruct fuel; cbn [namex_loop]; by destruct (skipelem path name) as [[]|]; [destruct Hs as (? & ? & _)|]. }
    rewrite Hloop. destruct parent.
    + destruct (iput_tree i ip s) as (s1 & E1 & W1 & Hic1 & C1); try done; [apply Hr|]. exists (None, name), s1. split; [by step E1|]. done.
    + exists (Some i, name), s. split; [done|]. split; [apply walks_refl, Hr|]. split; [done|]. split; [by exists i, ip|]. split; [done|]. intros m. cbn. lia.
  - destruct fuel as [|fuel]; [cbn in Hf; lia|]. cbn [namex_loop]. destruct (skipelem path name) as [[rest name']|]; [|done].
    destruct Hs as (e' & Ee & Hname & Hlen' & _ & H0' & Hrest). injection Ee as <- Ees'. unfold DIRSIZ in Hlen'.
    destruct (ilock_tree i ip s) as (s1 & E1 & W1 & Hic1 & Ei1 & C1 & F1); try done. step E1.
    set (hp := held_entry s ip) in *. assert (Hi1 : s_inodes s1 !! i = Some hp) by (rewrite Ei1; apply list_lookup_insert_eq; by eapply lookup_lt_Some).
    step (get_inode_eq i hp s1 Hi1). pose proof (tree_walks _ _ _ W1 Ht) as Ht1.
    assert (Hput : exists s2, iunlockput i s1 = Ret tt s2 /\ walks s s2 /\ icache_ok None s2 /\ counts (-1) (i_inum ip) s s2).
    { destruct (iunlockput_tree i hp s1) as (s2 & E2 & W2 & Hic2 & Ei2); try done; [apply W1|]. exists s2. split; [done|]. split; [by eapply walks_trans|]. split; [done|].
      destruct (put_counts i hp s1 s2) as [C2 _]; try done. intros m. rewrite C2, C1. cbn. lia. }
    destruct (Z.eqb_spec (i_type hp) T_DIR) as [Hty|Hty]; cbn [negb].
    2: { destruct Hput as (s2 & E2 & W2 & Hic2 & C2). step E2. exists (None, name'), s2. by rewrite target_file. }
    destruct (parent && bool_decide (rest = [])) eqn:Hlast.
    { apply andb_prop in Hlast as [-> Hn0%bool_decide_eq_true]. assert (es = []) as -> by (rewrite Ees'; by apply Hrest).
      destruct (iunlock_tree i hp s1) as (s2 & E2 & W2 & Hic2 & Ei2); try done; [apply W1|]. step E2. exists (Some i, name'), s2. split; [done|].
      split; [by eapply walks_trans|]. split; [done|]. 
      change (target true s (i_inum ip) [e]) with (if i_type hp =? T_DIR then Some (i_inum ip) else None). rewrite Hty, Z.eqb_refl. split; [|split; [done|]].
      - exists i, (set_i_lock (Sleeplock 0 0) hp). split; [done|]. split; [|done]. rewrite Ei2. apply list_lookup_insert_eq. by eapply lookup_lt_Some.
      - intros m. rewrite Ei2, (refs_insert _ _ hp), (C1 m) by done. cbn. lia. }
    assert (Hne : parent = true -> es <> []).
    { intros -> ->. rewrite bool_decide_true in Hlast; [done|]. by apply Hrest. }
    destruct (dirlookup_tree devread i hp e name' s1) as (nx & s2 & E2 & W2 & Hic2 & Hd); try done; [by eapply readable_walks|lia| |].
    { unfold room in Hroom. rewrite F1. destruct (i_ref ip =? 1); cbn in Hroom; lia. }
    step E2. change (i_inum hp) with (i_inum ip) in Hd. rewrite (child_walks _ _ _ _ W1) in Hd. destruct (child s (i_inum ip) e) as [n'|] eqn:Hc.
    + destruct Hd as (Hn' & j & o & jp & jp' & -> & Hj & Ei2 & En' & Er & Hor).
      destruct (iunlockput_next i hp j jp jp' s1 s2) as (jp2 & s3 & E3 & W3 & Hic3 & C3 & Hj3 & En3 & H13 & Hroom3); try done.
      * apply W2.
      * exact (tree_walks _ _ _ W2 Ht1).
      * unfold room in *. by rewrite F1.
      * exact (icache_ref _ _ _ _ Hic1 Hj).
      * step E3. assert (W13 : walks s s3) by (do 2 (eapply walks_trans; [|done]); done).
        destruct (IH fuel j jp2 rest name' s3) as (r & s4 & E4 & W4 & Hic4 & Hfd); try done; [lia|cbn in Hf; lia|by eapply readable_walks|by eapply tree_walks|by rewrite En3, En'|].
        exists r, s4. split; [done|]. split; [by eapply walks_trans|]. split; [done|]. rewrite En3, En' in Hfd. rewrite (target_step _ _ _ _ _ n') by done.
        rewrite (target_walks _ s s3) in Hfd by done. eapply (found_step parent e es _ n' _ _ s s2 s3); try done.
        -- destruct parent; [left; by apply Hne|by right].
        -- pose proof (iget_counts n' j jp jp' s1 s2 Hj Ei2 En' Er Hor) as C2. intros m. rewrite C2, C1. lia.
    + destruct Hd as [-> Ei2]. rewrite target_none by done.
      destruct (iunlockput_tree i hp s2) as (s3 & E3 & W3 & Hic3 & Ei3); try done; [apply W2|by eapply tree_walks|by rewrite Ei2|].
      step E3. exists (None, name'), s3. split; [done|]. split; [do 2 (eapply walks_trans; [|done]); done|]. split; [done|]. split; [done|].
      rewrite Ei2 in Ei3. destruct (put_counts i hp s1 s3) as [C3 _]; try done. intros m. rewrite C3, C1. cbn. lia.
Qed.

(** ** namex *)

(** The inode a path starts from: the root or the current directory. *)
Definition start (s : fs) (path : list Z) : option Z :=
  match path with
  | c :: _ => if c =? slash then Some ROOTINO else d ← s_cwd s; i_inum <$> s_inodes s !! d
  | [] => d ← s_cwd s; i_inum <$> s_inodes s !! d
  end.

Definition absolute (path : list Z) : bool := match path with c :: _ => c =? slash | [] => false end.

(** The process has a current directory. *)
Definition cwd_ok (s : fs) : Prop := forall d, s_cwd s = Some d -> exists ip, s_inodes s !! d = Some ip /\ 1 <= i_ref ip.

Lemma idup_spec d ip s :
  quiet s -> icache_ok None s -> s_inodes s !! d = Some ip -> 1 <= i_ref ip ->
  exists s', idup d s = Ret d s' /\ walks s s' /\ icache_ok None s' /\ s_inodes s' = <[d := set_i_ref (i_ref ip + 1) ip]> (s_inodes s).
Proof.
  intros Hq Hic Hi H1. unfold idup. pose proof (ic_latch _ _ Hic) as Hl. step (acq_eq LkIcache s Hl). set (s1 := set_s_locks _ s).
  step (upd_inode_eq d (fun ip => set_i_ref (i_ref ip + 1) ip) ip s1 Hi). set (s2 := set_inodes _ s1). step (rel_eq LkIcache (s_locks s) s2 eq_refl Hl).
  eexists. split; [done|]. match goal with |- walks s ?x /\ _ => replace x with (set_inodes (s_inodes x) (set_wake (s_wake s) s)) by (by destruct s) end.
  match goal with |- walks s (set_inodes ?v _) /\ _ => pose proof (walks_table v (s_wake s) s Hq ltac:(cbn; by rewrite ?length_insert)) as W end. split; [done|]. split; [|done].
  eapply (icache_step None None d ip); try done; [exact (ic_lock _ _ Hic d ip Hi)| |].
  - right. destruct (ic_entry _ _ Hic d ip Hi) as [|[E1 E2 E3]]; [lia|]. split; [done|cbn; lia|]. destruct E3 as [|[? E3]]; [by left|right]. split; [done|].
    by rewrite load_set_ref, E3.
  - intros _ j jp Hj Hjr Eq. by eapply (ic_unique _ _ Hic).
Qed.

(** Taking a reference leaves room for the walk. *)
Lemma room_taken i ip ip' s s' :
  s_inodes s !! i = Some ip -> s_inodes s' = <[i := ip']> (s_inodes s) -> 0 <= i_ref ip -> i_ref ip' = i_ref ip + 1 ->
  2 <= free_entries (s_inodes s) -> room s' ip'.
Proof.
  intros Hi Ei H0 Er Hf. unfold room. rewrite Ei, (free_insert _ _ ip), Er by done. rewrite (proj2 (Z.eqb_neq (i_ref ip + 1) 0)) by lia.
  destruct (Z.eqb_spec (i_ref ip) 0) as [->|]; [change (0 + 1 =? 1) with true; cbn [Z.b2z]; lia|]. rewrite (proj2 (Z.eqb_neq (i_ref ip + 1) 1)) by lia. cbn [Z.b2z]. lia.
Qed.

Definition take_start (path : list Z) : M fs nat :=
  match path with
  | c :: _ => if c =? slash then iget ROOTDEV ROOTINO else
      cwd <- gets s_cwd ;; match cwd with Some d => idup d | None => ub "idup: null inode" end
  | [] => cwd <- gets s_cwd ;; match cwd with Some d => idup d | None => ub "idup: null inode" end
  end.

Lemma take_start_spec path n s :
  quiet s -> icache_ok None s -> (absolute path = false -> cwd_ok s) -> start s path = Some n -> 2 <= free_entries (s_inodes s) ->
  exists i ip s', take_start path s = Ret i s' /\ walks s s' /\ icache_ok None s' /\ counts 1 n s s' /\
    s_inodes s' !! i = Some ip /\ i_inum ip = n /\ 1 <= i_ref ip /\ room s' ip.
Proof.
  intros Hq Hic Hcwd Hn Hf.
  assert (Hdup : absolute path = false -> (d ← s_cwd s; i_inum <$> s_inodes s !! d) = Some n -> exists i ip s',
    (cwd <- gets s_cwd ;; match cwd with Some d => idup d | None => ub "idup: null inode" end) s = Ret i s' /\ walks s s' /\ icache_ok None s' /\ counts 1 n s s' /\
    s_inodes s' !! i = Some ip /\ i_inum ip = n /\ 1 <= i_ref ip /\ room s' ip).
  { intros Hab H. rewrite bind_gets. destruct (s_cwd s) as [d|] eqn:Ed; [|done]. cbn in H. destruct (Hcwd Hab d Ed) as (ip & Hi & H1). rewrite Hi in H. injection H as <-.
    destruct (idup_spec d ip s Hq Hic Hi H1) as (s' & E & W & Hic' & Ei). exists d, (set_i_ref (i_ref ip + 1) ip), s'. split_and!; try done.
    - eapply (iget_counts _ d ip); try done. by right.
    - rewrite Ei. apply list_lookup_insert_eq. by eapply lookup_lt_Some.
    - cbn. lia.
    - eapply (room_taken d ip); try done. lia. }
  unfold take_start. destruct path as [|c path]; [by apply Hdup|]. cbn [start absolute] in Hn, Hdup. destruct (c =? slash); [|by apply Hdup]. injection Hn as <-.
  destruct (iget_spec ROOTINO None s Hq Hic ltac:(lia)) as (i & ip & ip' & s' & E & W & Hic' & Hi & Ei & En & Er & Hor).
  pose proof (icache_ref _ _ _ _ Hic Hi). exists i, ip', s'. split_and!; try done; [by eapply iget_counts| |lia|by eapply room_taken].
  rewrite Ei. apply list_lookup_insert_eq. by eapply lookup_lt_Some.
Qed.

Lemma namex_spec devread parent path name n s :
  readable hs s -> icache_ok None s -> (absolute path = false -> cwd_ok s) -> tree s P -> 2 <= free_entries (s_inodes s) ->
  0 ∉ path -> length name = 14%nat -> start s path = Some n -> P n ->
  exists r s', namex devread path parent name s = Ret r s' /\ walks s s' /\ icache_ok None s' /\
    match target parent s n (elements path) with
    | None => fst r = None /\ forall m, refs (s_inodes s') m = refs (s_inodes s) m
    | Some d => (exists i ip, fst r = Some i /\ s_inodes s' !! i = Some ip /\ i_inum ip = d /\ 1 <= i_ref ip) /\
        (parent = true -> cname (snd r) = take 14 (List.last (elements path) [])) /\
        forall m, refs (s_inodes s') m = refs (s_inodes s) m + Z.b2z (m =? d)
    end.
Proof.
  intros Hr Hic Hcwd Ht Hf H0 Hlen Hst Hn. change (namex devread path parent name) with (ip <- take_start path ;; namex_loop devread (length path) ip path parent name).
  destruct (take_start_spec path n s) as (i & ip & s1 & E1 & W1 & Hic1 & C1 & Hi & En & H1 & Hroom); try done; [apply Hr|]. step E1.
  destruct (namex_loop_tree devread parent (elements path) (length path) i ip path name s1) as (r & s2 & E2 & W2 & Hic2 & Hfd); try done;
    [apply elements_le|by eapply readable_walks|by eapply tree_walks|by rewrite En|].
  exists r, s2. split; [done|]. split; [by eapply walks_trans|]. split; [done|]. rewrite En, (target_walks _ s s1) in Hfd by done. unfold found in Hfd.
  destruct (target parent s n (elements path)) as [d|].
  - destruct Hfd as ((j & jp & Er & Hj & Ej & Hj1) & Hl & Hc). split; [by exists j, jp|]. split; [done|]. intros m. rewrite Hc, C1. lia.
  - destruct Hfd as [Er Hc]. split; [done|]. intros m. rewrite Hc, C1. lia.
Qed.

(** C22. Path names name what the directories on the disk say.  [namex] follows the
    elements of the path from the root or the current directory through the entries of
    the directories, each name cut to 14 characters.  It returns an entry of the inode
    table for the inode they lead to (with [parent], for the directory of the last
    element, whose name it leaves in [name]) and 0 if an element is missing or one before
    the last is not a directory.  The inode it returns has one more reference than before
    and every other inode as many as before, no inode is left locked, and nothing is
    written to the disk.  Two free entries of the table are enough. *)
Theorem namex_correct devread parent path name n s :
  readable hs s -> icache_ok None s -> (absolute path = false -> cwd_ok s) -> tree s P -> 2 <= free_entries (s_inodes s) ->
  0 ∉ path -> length name = 14%nat -> start s path = Some n -> P n ->
  exists r s', namex devread path parent name s = Ret r s' /\ walks s s' /\ icache_ok None s' /\
    match target parent s n (elements path) with
    | None => fst r = None /\ forall m, refs (s_inodes s') m = refs (s_inodes s) m
    | Some d => (exists i ip, fst r = Some i /\ s_inodes s' !! i = Some ip /\ i_inum ip = d /\ 1 <= i_ref ip) /\
        (parent = true -> cname (snd r) = take 14 (List.last (elements path) [])) /\
        forall m, refs (s_inodes s') m = refs (s_inodes s) m + Z.b2z (m =? d)
    end.
Proof. apply namex_spec. Qed.
End Tree.

(** ** A small tree *)

Module Example.

(** The inodes are in block 32: the root with entries [.], [..] and [a] in block 36, and
    the file [a] of 5 bytes, inode 2, with block 37. *)
Definition inode_bytes (type nlink size addr : Z) : list Z :=
  mjoin (le 2 <$> [type; 0; 0; nlink]) ++ mjoin (le 4 <$> [size; addr]) ++ replicate 48 0.
Definition dirent_bytes (n : Z) (name : list Z) : list Z := le 2 n ++ splice (replicate 14 0) 0 name.
Definition inode_block0 : list Z :=
  splice (replicate 512 0) 64 (inode_bytes T_DIR 1 48 36 ++ inode_bytes T_FILE 1 5 37).
Definition root_block : list Z := splice (replicate 512 0) 0 (dirent_bytes 1 [46] ++ dirent_bytes 1 [46; 46] ++ dirent_bytes 2 [97]).
Definition disk : list (list Z) :=
  <[32%nat := inode_block0]> (<[36%nat := root_block]> (<[37%nat := splice (replicate 512 0) 0 [104; 101; 108; 108; 111]]> (replicate 40 (replicate 512 0)))).

Definition unused : inode := Inode 0 0 0 (Sleeplock 0 0) 0 0 0 0 0 0 [].
(** [/a] *)
Definition path : list Z := [47; 97].

Definition sb : superblock := Superblock 40 5 8 30 2 32 33.
Lemma tree_fits : 2 + LOGSIZE <= Z.of_nat (length disk) < 2 ^ 31.
Proof. assert (E : length disk = 40%nat) by (vm_compute; reflexivity). rewrite E. unfold LOGSIZE, MAXOPBLOCKS. lia. Qed.

Section Mounted.
Context (s : fs) (Esb : s_sb s = sb) (Ed : s_disk s = disk) (Ec : forall k, content s k = dblock disk k).

Lemma inode_1 : disk_inode s 1 = Inode 1 1 1 (Sleeplock 0 0) 0 T_DIR 0 0 1 48 (36 :: replicate 12 0).
Proof using Esb Ec. unfold disk_inode, load. rewrite Esb, Ec. vm_compute. reflexivity. Qed.
Lemma inode_2 : disk_inode s 2 = Inode 1 2 1 (Sleeplock 0 0) 0 T_FILE 0 0 1 5 (37 :: replicate 12 0).
Proof using Esb Ec. unfold disk_inode, load. rewrite Esb, Ec. vm_compute. reflexivity. Qed.
Lemma small_root_list : dir_list (content s) (disk_inode s 1) = [(1, 46 :: replicate 13 0); (1, 46 :: 46 :: replicate 12 0); (2, 97 :: replicate 13 0)].
Proof using Esb Ec. rewrite inode_1, (dir_list_ext (dblock disk)) by done. vm_compute. reflexivity. Qed.

Lemma tree_ok : tree s (fun n => n = 1 \/ n = 2).
Proof using Esb Ed Ec.
  assert (Hlen : length disk = 40%nat) by (vm_compute; reflexivity). split.
  - intros n Hn. unfold on_disk. rewrite Ed, Hlen, Esb. destruct Hn as [-> | ->]; done.
  - intros n [-> | ->]; [by rewrite inode_1|by rewrite inode_2].
  - intros n [-> | ->]; [by rewrite inode_1|by rewrite inode_2].
  - intros n [-> | ->]; [|by rewrite inode_2]. intros _. rewrite inode_1. split; [done|done|done|].
    intros bn Hb. change ((i_size (Inode 1 1 1 (Sleeplock 0 0) 0 T_DIR 0 0 1 48 (36 :: replicate 12 0)) + Z.of_nat BSIZE - 1) / Z.of_nat BSIZE) with 1 in Hb.
    assert (bn = 0) as -> by lia. unfold mapped, on_disk. rewrite Ed, Hlen. split; [done|]. split; [done|]. split; [done|]. split; [rewrite Ec; vm_compute; reflexivity|done].
  - intros n [-> | ->]; [|by rewrite inode_2]. intros _ e. rewrite small_root_list. rewrite !elem_of_cons. intros [->|[->|[->|[]%elem_of_nil]]]; cbn; auto.
Qed.
End Mounted.

(** A table of two free entries. *)
Lemma unused_ok s : s_inodes s = [unused; unused] -> s_locks s = [] -> icache_ok None s.
Proof.
  intros Ei Hl. assert (Hu : forall i ip, s_inodes s !! i = Some ip -> ip = unused) by (rewrite Ei; intros i ip Hi%list_elem_of_lookup_2; set_solver). split.
  - by intros i ip ->%Hu.
  - intros i ip ->%Hu. by left.
  - intros i j ip jp ->%Hu _ H1. by apply Z.leb_le in H1.
  - rewrite Hl. apply not_elem_of_nil.
Qed.

(** Looking up [/a] in it. *)
Lemma namex_correct_witness :
  exists s i ip s' name, namex (fun _ => None) path false (replicate 14 0) s = Ret (Some i, name) s' /\ s_inodes s' !! i = Some ip /\ i_inum ip = 2.
Proof.
  destruct (mounted_on disk sb [unused; unused] tree_fits) as (s & Hop & Esb & Ei & Ed & _ & Hl & Hc & Ec).
  destruct (namex_correct (fun n => n = 1 \/ n = 2) [] (fun _ => None) false path (replicate 14 0) 1 s) as ([r nm] & s' & E & _ & _ & H); try done.
  - by apply in_op_readable.
  - by apply unused_ok.
  - by apply tree_ok.
  - by rewrite Ei.
  - unfold path. set_solver.
  - by left.
  - assert (Ht : target false s 1 (elements path) = Some 2).
    { change (elements path) with [[97]]. cbn [target resolve]. unfold child. cbv zeta. rewrite small_root_list, inode_1 by done. vm_compute. reflexivity. }
    rewrite Ht in H. destruct H as [(i & ip & Er & Hi & En & _) _]. exists s, i, ip, s', nm. cbn in Er. subst r. done.
Defined.
End Example.
