(* ===== verification/Mkfs.v ===== *)
(** * mkfs.c: building the disk image

    The program that makes the file system image on the machine the system is built on.
    The state is the image file as sectors with [freeinode] and [freeblock]; the layout
    of the image is constant.  The machine is little-endian.  A failed assertion and
    [exit(1)] end the program: they are panics that say what failed.  What the program
    prints is left out. *)

From S2P Require Import Prelude Mmu Cstring Blk FsState Fs.

Record image := Image { im_sectors : list (list Z); freeinode : Z; freeblock : Z }.
Definition set_sectors v s := Image v (freeinode s) (freeblock s).
Definition set_freeinode v s := Image (im_sectors s) v (freeblock s).
Definition set_freeblock v s := Image (im_sectors s) (freeinode s) v.

Definition B : Z := Z.of_nat BSIZE.
Definition zeroes : list Z := replicate BSIZE 0.

(** [struct dinode] in the memory of the program. *)
Record dinode := Dinode { d_type : Z; d_major : Z; d_minor : Z; d_nlink : Z; d_size : Z; d_addrs : list Z }.
Definition set_d_size v d := Dinode (d_type d) (d_major d) (d_minor d) (d_nlink d) v (d_addrs d).
Definition set_d_addr (n : Z) v d := Dinode (d_type d) (d_major d) (d_minor d) (d_nlink d) (d_size d) (<[Z.to_nat n := v]> (d_addrs d)).
Definition d_addr (d : dinode) (n : Z) : Z := nth (Z.to_nat n) (d_addrs d) 0.

Definition dinode_bytes (d : dinode) : list Z :=
  le 2 (d_type d) ++ le 2 (d_major d) ++ le 2 (d_minor d) ++ le 2 (d_nlink d) ++ le 4 (d_size d) ++ mjoin (le 4 <$> d_addrs d).
Definition dinode_at (b : list Z) (o : nat) : dinode :=
  Dinode (s16 (get16 b o)) (s16 (get16 b (o + 2))) (s16 (get16 b (o + 4))) (s16 (get16 b (o + 6))) (get32 b (o + 8)) (di_addrs b o).

(** The number whose bytes in memory are those of [x], lowest first. *)
Definition xshort (x : Z) : Z := unle [u8 x; u8 (Z.shiftr x 8)].
Definition xint (x : Z) : Z := unle [u8 x; u8 (Z.shiftr x 8); u8 (Z.shiftr x 16); u8 (Z.shiftr x 24)].

(** ** The layout *)

Definition NINODES : Z := 200.
Definition nbitmap : Z := FSSIZE / (B * 8) + 1.
Definition ninodeblocks : Z := NINODES / IPB + 1.
Definition nlog : Z := LOGSIZE.
Definition nmeta : Z := 2 + nlog + ninodeblocks + nbitmap.
Definition nblocks : Z := FSSIZE - nmeta.
Definition sb : superblock :=
  Superblock (xint FSSIZE) (xint nblocks) (xint NINODES) (xint nlog) (xint 2) (xint (2 + nlog)) (xint (2 + nlog + ninodeblocks)).

(** ** Sectors *)

(** The sector at the offset [sec * BSIZE] of the image file, a 32-bit number. *)
Definition sector (sec : Z) : nat := Z.to_nat (u32 (sec * B) / B).

(** A write behind the end of the file makes it longer. *)
Definition wsect (sec : Z) (buf : list Z) : M image unit :=
  modify (fun s => set_sectors (<[sector sec := buf]> (im_sectors s ++ replicate (S (sector sec) - length (im_sectors s)) zeroes)) s).
Definition rsect (sec : Z) : M image (list Z) := fun s =>
  match im_sectors s !! sector sec with
  | Some b => Ret b s
  | None => Panic "read"
  end.

Definition winode (inum : Z) (ip : dinode) : M image unit :=
  let bn := IBLOCK inum sb in
  buf <- rsect bn ;;
  wsect bn (splice buf (di_off inum) (dinode_bytes ip)).
Definition rinode (inum : Z) : M image dinode :=
  let bn := IBLOCK inum sb in
  buf <- rsect bn ;;
  ret (dinode_at buf (di_off inum)).

Definition ialloc (type : Z) : M image Z :=
  inum <- gets freeinode ;;
  modify (fun s => set_freeinode (u32 (freeinode s + 1)) s) ;;;
  winode inum (Dinode (s16 (xshort type)) 0 0 (s16 (xshort 1)) (xint 0) (replicate 13 0)) ;;;
  ret inum.

(** The loop of [balloc]: [n] bits are left, from [i] on. *)
Fixpoint balloc_bits (n : nat) (i : Z) (buf : list Z) : list Z :=
  match n with
  | O => buf
  | S n => balloc_bits n (i + 1) (<[Z.to_nat (i / 8) := u8 (Z.lor (nth (Z.to_nat (i / 8)) buf 0) (Z.shiftl 1 (i mod 8)))]> buf)
  end.
Definition balloc (used : Z) : M image unit :=
  if B * 8 <=? used then panic "assert: used < BSIZE*8" else
  wsect (sb_bmapstart sb) (balloc_bits (Z.to_nat used) 0 zeroes).

(** [freeblock++] *)
Definition next_block : M image Z :=
  b <- gets freeblock ;;
  modify (fun s => set_freeblock (u32 (freeblock s + 1)) s) ;;;
  ret b.

(** The inode with block address [n] in use. *)
Definition use_addr (din : dinode) (n : Z) : M image dinode :=
  if xint (d_addr din n) =? 0 then b <- next_block ;; ret (set_d_addr n (xint b) din) else ret din.

(** The block with number [fbn] of the file, allocated if there was none, with the inode. *)
Definition use_block (din : dinode) (fbn : Z) : M image (dinode * Z) :=
  if fbn <? NDIRECT then
    din <- use_addr din fbn ;;
    ret (din, xint (d_addr din fbn))
  else
    din <- use_addr din NDIRECT ;;
    indirect <- rsect (xint (d_addr din NDIRECT)) ;;
    let o := Z.to_nat (4 * (fbn - NDIRECT)) in
    if get32 indirect o =? 0 then
      b <- next_block ;;
      let indirect := put32 indirect o (xint b) in
      wsect (xint (d_addr din NDIRECT)) indirect ;;;
      ret (din, xint (get32 indirect o))
    else ret (din, xint (get32 indirect o)).

(** The loop of [iappend]; [p] is what is left of the bytes. *)
Fixpoint iappend_loop (fuel : nat) (din : dinode) (off : Z) (p : list Z) : M image (dinode * Z) :=
  if bool_decide (p = []) then ret (din, off) else
  match fuel with
  | O => ub "iappend"
  | S fuel =>
    let fbn := off / B in
    if MAXFILE <=? fbn then panic "assert: fbn < MAXFILE" else
    r <- use_block din fbn ;;
    let '(din, x) := r in
    let n1 := Z.to_nat (Z.min (Z.of_nat (length p)) ((fbn + 1) * B - off)) in
    buf <- rsect x ;;
    wsect x (splice buf (Z.to_nat (off - fbn * B)) (take n1 p)) ;;;
    iappend_loop fuel din (u32 (off + Z.of_nat n1)) (drop n1 p)
  end.
(** Each iteration takes at least one byte. *)
Definition iappend (inum : Z) (p : list Z) : M image unit :=
  din <- rinode inum ;;
  r <- iappend_loop (length p) din (xint (d_size din)) p ;;
  let '(din, off) := r in
  winode inum (set_d_size (xint off) din).

(** ** The program *)

(** [struct dirent] with [strcpy] or [strncpy] of a name. *)
Definition dirent (inum : Z) (name : list Z) : list Z := le 2 (xshort inum) ++ strncpy (arr (name ++ [0])) DIRSIZ.

(** An argument that names a file: the argument, and, if it can be opened, what each
    [read] of up to a block returns; an empty one is the end of the file. *)
Abbreviation input := (list Z * option (list (list Z)))%type.

Fixpoint copy_file (inum : Z) (chunks : list (list Z)) : M image unit :=
  match chunks with
  | [] => ret tt
  | [] :: _ => ret tt
  | c :: chunks => iappend inum c ;;; copy_file inum chunks
  end.

Definition underscore : Z := 95.
Definition skip_underscore (arg : list Z) : list Z :=
  match arg with
  | c :: name => if c =? underscore then name else arg
  | [] => []
  end.

Definition add_file (rootino : Z) (f : input) : M image unit :=
  if bool_decide (slash ∈ fst f) then panic "assert: index(argv[i], '/') == 0" else
  match snd f with
  | None => panic "open"
  | Some chunks =>
    inum <- ialloc T_FILE ;;
    iappend rootino (dirent inum (skip_underscore (fst f))) ;;;
    copy_file inum chunks
  end.
Fixpoint add_files (rootino : Z) (fs : list input) : M image unit :=
  match fs with
  | [] => ret tt
  | f :: fs => add_file rootino f ;;; add_files rootino fs
  end.

Fixpoint zero_sectors (n : nat) (i : Z) : M image unit :=
  match n with
  | O => ret tt
  | S n => wsect i zeroes ;;; zero_sectors n (i + 1)
  end.

Definition super_bytes : list Z :=
  mjoin (le 4 <$> [sb_size sb; sb_nblocks sb; sb_ninodes sb; sb_nlog sb; sb_logstart sb; sb_inodestart sb; sb_bmapstart sb]).

(** [main], from where the image has been opened and is empty. *)
Definition build (files : list input) : M image unit :=
  modify (set_freeblock nmeta) ;;;
  zero_sectors (Z.to_nat FSSIZE) 0 ;;;
  wsect 1 (splice zeroes 0 super_bytes) ;;;
  rootino <- ialloc T_DIR ;;
  if negb (rootino =? ROOTINO) then panic "assert: rootino == ROOTINO" else
  iappend rootino (dirent rootino [46]) ;;;
  iappend rootino (dirent rootino [46; 46]) ;;;
  add_files rootino files ;;;
  din <- rinode rootino ;;
  let off := (xint (d_size din) / B + 1) * B in
  winode rootino (set_d_size (xint (u32 off)) din) ;;;
  used <- gets freeblock ;;
  balloc (s32 used).

(** [main]: [opens] tells if the image file can be made; the first argument names it. *)
Definition main (argv : list input) (opens : bool) : M image unit :=
  match argv with
  | [] => panic "Usage: mkfs fs.img files..."
  | _ :: files => if negb opens then panic "open" else build files
  end.
