(* ===== verification/MkfsFile.v ===== *)
(** * One file of the image

    A file of the image is described by its inode, the list of its blocks and its bytes;
    the loop of [iappend] in mkfs.c is shown to append to the bytes and to take blocks
    that nothing else uses. *)

From S2P Require Import Prelude Mmu Mem Cstring Blk FsState Bio BioSpec Log LogSpec LogProps LogOps Fs FsSpec FsProps FsRead FsPath Mkfs.

(** ** Sectors *)

Lemma xint_id x : 0 <= x < 2 ^ 32 -> xint x = x.
Proof.
  intros Hx. unfold xint. rewrite <- (Z.mod_small x (2 ^ 32)) at 5 by done. change (2 ^ 32) with (2 ^ (8 * Z.of_nat 4)). rewrite <- unle_le. cbn [le].
  by rewrite !Z.shiftr_shiftr.
Qed.
Lemma xshort_id x : 0 <= x < 2 ^ 16 -> xshort x = x.
Proof.
  intros Hx. unfold xshort. rewrite <- (Z.mod_small x (2 ^ 16)) at 3 by done. change (2 ^ 16) with (2 ^ (8 * Z.of_nat 2)). by rewrite <- unle_le.
Qed.

Abbreviation blk s := (dblock (im_sectors s)).

(** An image of the full size. *)
Record whole (s : image) : Prop := {
  wh_size : Z.of_nat (length (im_sectors s)) = FSSIZE;
  wh_block : forall b, 0 <= b < FSSIZE -> length (blk s b) = BSIZE
}.

Definition put_block (b : Z) (d : list Z) (s : image) : image := set_sectors (<[Z.to_nat b := d]> (im_sectors s)) s.

Lemma sector_small sec : 0 <= sec < FSSIZE -> sector sec = Z.to_nat sec.
Proof. unfold FSSIZE. intros H. unfold sector, B, BSIZE. rewrite u32_id by lia. by rewrite Z.div_mul. Qed.

Lemma rsect_eq sec s : whole s -> 0 <= sec < FSSIZE -> rsect sec s = Ret (blk s sec) s.
Proof.
  intros [Hl _] Hs. unfold rsect. rewrite sector_small by done. unfold dblock. destruct (im_sectors s !! Z.to_nat sec) as [d|] eqn:E.
  - by erewrite nth_lookup_Some.
  - apply lookup_ge_None in E. lia.
Qed.
Lemma wsect_eq sec d s : whole s -> 0 <= sec < FSSIZE -> wsect sec d s = Ret tt (put_block sec d s).
Proof.
  intros [Hl _] Hs. unfold wsect, modify, put_block. rewrite sector_small by done. replace (S (Z.to_nat sec) - length (im_sectors s))%nat with 0%nat by lia.
  by rewrite app_nil_r.
Qed.

Lemma blk_put b d s k : whole s -> 0 <= b < FSSIZE -> 0 <= k -> blk (put_block b d s) k = if k =? b then d else blk s k.
Proof.
  intros [Hl _] Hb Hk. unfold dblock. cbn. rewrite !nth_lookup. destruct (Z.eqb_spec k b) as [->|Hne].
  - by rewrite list_lookup_insert_eq by lia.
  - by rewrite list_lookup_insert_ne by lia.
Qed.
Lemma whole_put b d s : whole s -> 0 <= b < FSSIZE -> length d = BSIZE -> whole (put_block b d s).
Proof.
  intros Hw Hb Hd. split; [cbn; rewrite length_insert; apply Hw|]. intros k Hk. rewrite blk_put by (done || lia). destruct (k =? b); [done|]. by apply Hw.
Qed.

(** ** Inodes *)

Definition as_inode (d : dinode) : inode := Inode 1 0 1 (Sleeplock 0 0) 0 (d_type d) (d_major d) (d_minor d) (d_nlink d) (d_size d) (d_addrs d).

Record dinode_ok (d : dinode) : Prop := {
  dk_shorts : Forall (fun v => -2 ^ 15 <= v < 2 ^ 15) [d_type d; d_major d; d_minor d; d_nlink d];
  dk_size : 0 <= d_size d < 2 ^ 32;
  dk_addrs : length (d_addrs d) = 13%nat /\ Forall (fun v => 0 <= v < 2 ^ 32) (d_addrs d)
}.

(** The inode [n] in the image. *)
Definition on_image (s : image) (n : Z) : dinode := dinode_at (blk s (IBLOCK n sb)) (di_off n).

(** The fields of an inode that are on the disk. *)
Definition of_inode (ip : inode) : dinode := Dinode (i_type ip) (i_major ip) (i_minor ip) (i_nlink ip) (i_size ip) (i_addrs ip).
Lemma dinode_at_from d o ip : dinode_at d o = of_inode (from_dinode d o ip).
Proof. done. Qed.

Lemma dinode_at_splice d o q : dinode_ok q -> (o + 64 <= length d)%nat -> dinode_at (splice d o (dinode_bytes q)) o = q.
Proof.
  intros [H1 H2 H3] Ho. rewrite (dinode_at_from _ _ (as_inode q)). change (dinode_bytes q) with (di_bytes (as_inode q)).
  rewrite dinode_read; [by destruct q|by split|done].
Qed.
Lemma dinode_at_other d o o' q :
  dinode_ok q -> (o + 64 <= length d)%nat -> (o' + 64 <= o \/ o + 64 <= o')%nat -> dinode_at (splice d o (dinode_bytes q)) o' = dinode_at d o'.
Proof.
  intros [H1 H2 [H3 _]] Ho Hd. rewrite !(dinode_at_from _ _ (as_inode q)). change (dinode_bytes q) with (di_bytes (as_inode q)). by rewrite dinode_other.
Qed.
Lemma length_dinode_bytes q : dinode_ok q -> length (dinode_bytes q) = 64%nat.
Proof. intros [_ _ [H _]]. by apply (length_di_bytes (as_inode q)). Qed.

(** The blocks of inodes are the ones in front of the bitmap, which is in front of the data. *)
Lemma inode_place n : 0 <= n < ninodeblocks * IPB -> 2 + nlog <= IBLOCK n sb < sb_bmapstart sb /\ (di_off n + 64 <= BSIZE)%nat.
Proof.
  intros Hn. change (ninodeblocks * IPB) with 208 in Hn. unfold IBLOCK, di_off, IPB, DINODE_SIZE. change (sb_inodestart sb) with 32. change (sb_bmapstart sb) with 58.
  change (2 + nlog) with 32. unfold BSIZE. pose proof (Z.mod_pos_bound n 8 ltac:(lia)). pose proof (Z.div_mod n 8 ltac:(lia)). lia.
Qed.

Lemma rinode_eq n s : whole s -> 0 <= n < ninodeblocks * IPB -> rinode n s = Ret (on_image s n) s.
Proof.
  intros Hw Hn. destruct (inode_place n Hn) as [Hb _]. change (2 + nlog) with 32 in Hb. change (sb_bmapstart sb) with 58 in Hb. unfold rinode.
  assert (E : rsect (IBLOCK n sb) s = Ret (blk s (IBLOCK n sb)) s) by (apply rsect_eq; [done|unfold FSSIZE; lia]). by step E.
Qed.
Definition put_inode (n : Z) (q : dinode) (s : image) : image :=
  put_block (IBLOCK n sb) (splice (blk s (IBLOCK n sb)) (di_off n) (dinode_bytes q)) s.

Lemma winode_spec n q s :
  whole s -> 0 <= n < ninodeblocks * IPB -> dinode_ok q ->
  winode n q s = Ret tt (put_inode n q s) /\ whole (put_inode n q s) /\
  (forall k, 0 <= k -> k < 2 + nlog \/ sb_bmapstart sb <= k -> blk (put_inode n q s) k = blk s k) /\
  forall m, 0 <= m < ninodeblocks * IPB -> on_image (put_inode n q s) m = if m =? n then q else on_image s m.
Proof.
  intros Hw Hn Hq. destruct (inode_place n Hn) as [Hb Ho]. change (2 + nlog) with 32 in *. change (sb_bmapstart sb) with 58 in *.
  assert (Hf : 0 <= IBLOCK n sb < FSSIZE) by (unfold FSSIZE; lia). pose proof (wh_block _ Hw _ Hf) as Hlen.
  assert (Hlen' : length (splice (blk s (IBLOCK n sb)) (di_off n) (dinode_bytes q)) = BSIZE) by (by rewrite length_splice by lia). split_and!.
  - unfold winode. step (rsect_eq _ s Hw Hf). by apply wsect_eq.
  - by apply whole_put.
  - intros k Hk Hout. unfold put_inode. rewrite blk_put by done. destruct (Z.eqb_spec k (IBLOCK n sb)); [lia|done].
  - intros m Hm. destruct (inode_place m Hm) as [Hbm _]. change (2 + nlog) with 32 in *. unfold on_image, put_inode. rewrite blk_put by (done || lia).
    destruct (Z.eqb_spec (IBLOCK m sb) (IBLOCK n sb)) as [E|E].
    + destruct (Z.eqb_spec m n) as [->|Hne]; [apply dinode_at_splice; [done|by rewrite Hlen]|]. rewrite dinode_at_other; [by rewrite E|done|by rewrite Hlen|].
      unfold IBLOCK, di_off, IPB, DINODE_SIZE in *. pose proof (Z.mod_pos_bound n 8 ltac:(lia)). pose proof (Z.div_mod n 8 ltac:(lia)).
      pose proof (Z.mod_pos_bound m 8 ltac:(lia)). pose proof (Z.div_mod m 8 ltac:(lia)). lia.
    + destruct (Z.eqb_spec m n) as [->|]; done.
Qed.

(** ** The blocks of one file *)

(** Word [k] of a block. *)
Abbreviation word d k := (get32 d (4 * k)).

(** The inode [q] with the blocks [bl] holds the bytes [d], with zeroes behind them. *)
Record laid (c : Z -> list Z) (q : dinode) (bl : list Z) (d : list Z) : Prop := {
  la_addrs : length (d_addrs q) = 13%nat;
  la_max : (length bl <= 140)%nat;
  la_direct : forall k, (k < 12)%nat -> nth k (d_addrs q) 0 = nth k bl 0;
  la_ind : d_addr q NDIRECT = 0 /\ (length bl <= 12)%nat \/
    d_addr q NDIRECT <> 0 /\ forall k, (k < 128)%nat -> word (c (d_addr q NDIRECT)) k = nth (12 + k) bl 0;
  la_fits : (length d <= BSIZE * length bl)%nat;
  la_data : mjoin (c <$> bl) = d ++ replicate (BSIZE * length bl - length d) 0;
  la_len : forall b, b ∈ bl -> length (c b) = BSIZE
}.

(** The blocks in use for the file. *)
Definition owned (q : dinode) (bl : list Z) : list Z := (if d_addr q NDIRECT =? 0 then [] else [d_addr q NDIRECT]) ++ bl.

Lemma laid_ext c c' q bl d : (forall b, b ∈ owned q bl -> c' b = c b) -> laid c q bl d -> laid c' q bl d.
Proof.
  intros Hc [H1 H2 H3 H4 H5 H6 H7]. unfold owned in Hc.
  assert (Hbl : forall b, b ∈ bl -> c' b = c b) by (intros b Hb; apply Hc, elem_of_app; by right). split; try done.
  - destruct H4 as [|[H4 H4']]; [by left|right]. split; [done|]. intros k Hk. rewrite Hc; [by apply H4'|]. rewrite (proj2 (Z.eqb_neq _ 0) H4). set_solver.
  - rewrite <- H6. f_equal. apply list_fmap_ext. intros i b Hb. by apply Hbl, (list_elem_of_lookup_2 _ i).
  - intros b Hb. rewrite Hbl by done. by apply H7.
Qed.

(** The state while a file grows. *)
Record growing (s : image) (q : dinode) (bl : list Z) (d : list Z) : Prop := {
  gr_whole : whole s;
  gr_laid : laid (blk s) q bl d;
  gr_nodup : NoDup (owned q bl);
  gr_range : forall b, b ∈ owned q bl -> nmeta <= b < freeblock s;
  gr_free : nmeta <= freeblock s <= FSSIZE;
  gr_zero : forall b, freeblock s <= b < FSSIZE -> blk s b = zeroes
}.

Lemma nmeta_eq : nmeta = 59.
Proof. reflexivity. Qed.

Lemma next_block_eq s : nmeta <= freeblock s < FSSIZE -> next_block s = Ret (freeblock s) (set_freeblock (freeblock s + 1) s).
Proof.
  rewrite nmeta_eq. unfold FSSIZE. intros H. unfold next_block. rewrite bind_gets, bind_modify. unfold ret. do 2 f_equal. unfold u32. rewrite Z.mod_small; lia.
Qed.

Lemma growing_pos s q bl d : growing s q bl d -> 0 <= freeblock s.
Proof. intros [_ _ _ _ H _]. rewrite nmeta_eq in H. lia. Qed.

(** What is allocated for a file is not in another one. *)
Record step_of (s s' : image) (own own' : list Z) : Prop := {
  so_keeps : forall k, 0 <= k < freeblock s -> k ∉ own -> blk s' k = blk s k;
  so_own : forall b, b ∈ own' -> b ∈ own \/ freeblock s <= b < freeblock s';
  so_count : freeblock s' - Z.of_nat (length own') = freeblock s - Z.of_nat (length own);
  so_more : freeblock s <= freeblock s';
  so_inodes : freeinode s' = freeinode s
}.

Lemma step_of_trans s1 s2 s3 o1 o2 o3 : 0 <= freeblock s1 -> step_of s1 s2 o1 o2 -> step_of s2 s3 o2 o3 -> step_of s1 s3 o1 o3.
Proof.
  intros H0 [A1 A2 A3 A4 A5] [B1 B2 B3 B4 B5]. split; [| |lia|lia|congruence].
  - intros k Hk Ho. rewrite B1; [by apply A1|lia|]. intros [H|H]%A2; [done|lia].
  - intros b [H|H]%B2; [|lia]. destruct (A2 b H); [by left|right; lia].
Qed.

Lemma nth_app_end (l : list Z) x k : nth k (l ++ [x]) 0 = if decide (k = length l) then x else nth k l 0.
Proof.
  destruct (decide (k = length l)) as [->|Hne]; [by rewrite nth_middle|]. destruct (decide (k < length l)%nat) as [Hk|Hk]; [by rewrite app_nth1|].
  rewrite !nth_overflow; [done|lia|rewrite length_app; cbn; lia].
Qed.

(** A block of zeroes added to the data. *)
Lemma laid_more (c : Z -> list Z) bl (d : list Z) x : (length d <= BSIZE * length bl)%nat -> mjoin (c <$> bl) = d ++ replicate (BSIZE * length bl - length d) 0 -> c x = zeroes ->
  mjoin (c <$> bl ++ [x]) = d ++ replicate (BSIZE * length (bl ++ [x]) - length d) 0.
Proof.
  intros Hl Hd Hx. rewrite fmap_app, join_app, Hd, <- app_assoc. f_equal. cbn [fmap list_fmap mjoin list_join]. rewrite Hx, app_nil_r. unfold zeroes.
  rewrite <- replicate_add. f_equal. rewrite length_app. cbn [length]. lia.
Qed.

Lemma blk_above s q bl d k : growing s q bl d -> 0 <= k < FSSIZE -> length (blk s k) = BSIZE.
Proof. intros G Hk. by apply (wh_block _ (gr_whole _ _ _ _ G)). Qed.

Lemma fresh s q bl d : growing s q bl d -> freeblock s ∉ owned q bl.
Proof. intros G H%(gr_range _ _ _ _ G). lia. Qed.

(** One block more for the file. *)
Lemma growing_alloc s s' q q' bl bl' d :
  growing s q bl d -> freeblock s < FSSIZE -> whole s' -> freeblock s' = freeblock s + 1 -> freeinode s' = freeinode s ->
  owned q' bl' ≡ₚ freeblock s :: owned q bl -> (forall k, 0 <= k < FSSIZE -> k ∉ owned q bl -> blk s' k = blk s k) -> laid (blk s') q' bl' d ->
  growing s' q' bl' d /\ step_of s s' (owned q bl) (owned q' bl').
Proof.
  intros G Hf Hw' Ef Ei Ho Hk Hl. pose proof (fresh _ _ _ _ G) as Hfresh. destruct G as [Hw _ Hnd Hr Hfr Hz].
  assert (Hin : forall b, b ∈ owned q' bl' <-> b = freeblock s \/ b ∈ owned q bl) by (intros b; by rewrite Ho, elem_of_cons).
  rewrite nmeta_eq in *. unfold FSSIZE in *. split; split; rewrite ?Ef, ?nmeta_eq; try done; try lia.
  - rewrite Ho. by constructor.
  - intros b [->|Hb]%Hin; [lia|]. specialize (Hr b Hb). lia.
  - unfold FSSIZE. lia.
  - intros b Hb. unfold FSSIZE in Hb. rewrite Hk, Hz; [done|lia|lia|]. intros H%Hr. lia.
  - intros k Hk' Hno. apply Hk; [lia|done].
  - intros b [->|Hb]%Hin; [right; lia|by left].
  - rewrite Ho. cbn [length]. lia.
Qed.

Lemma take_free s : nmeta <= freeblock s < FSSIZE -> next_block s = Ret (freeblock s) (set_freeblock (freeblock s + 1) s) /\ xint (freeblock s) = freeblock s /\ freeblock s <> 0.
Proof. intros H. split; [by apply next_block_eq|]. rewrite nmeta_eq in H. unfold FSSIZE in H. rewrite xint_id; lia. Qed.

Ltac first_two := match goal with |- ?a /\ ?b /\ _ => enough (a /\ b) as [? ?] by done end.

(** Taking the block of addresses. *)
Lemma use_indirect s q bl d :
  growing s q bl d -> d_addr q NDIRECT = 0 -> freeblock s < FSSIZE ->
  exists q' s', use_addr q NDIRECT s = Ret q' s' /\ growing s' q' bl d /\ step_of s s' (owned q bl) (owned q' bl) /\
    q' = set_d_addr NDIRECT (freeblock s) q.
Proof.
  intros G H0 Hf. pose proof G as [Hw [L1 L2 L3 L4 L5 L6 L7] Hnd Hr Hfr Hz]. destruct L4 as [[_ L4]|[L4 _]]; [|done].
  destruct (take_free s) as (En & Ex & Hb0); [lia|]. set (b := freeblock s) in *. set (q' := set_d_addr NDIRECT b q). exists q', (set_freeblock (b + 1) s).
  assert (Ea : d_addr q' NDIRECT = b).
  { unfold d_addr, q', set_d_addr. cbn [d_addrs]. change (Z.to_nat NDIRECT) with 12%nat. rewrite nth_lookup, list_lookup_insert_eq by lia. done. }
  split; [unfold use_addr; rewrite H0; change (xint 0 =? 0) with true; cbv iota; step En; by rewrite Ex|]. first_two.
  apply growing_alloc; try done; [by split; apply Hw|unfold owned; rewrite Ea, H0, (proj2 (Z.eqb_neq b 0)) by lia; done|]. split; try done.
  - unfold q', set_d_addr. cbn [d_addrs]. by rewrite length_insert.
  - intros k Hk. unfold q', set_d_addr. cbn [d_addrs]. change (Z.to_nat NDIRECT) with 12%nat. rewrite <- (L3 k Hk), !nth_lookup, list_lookup_insert_ne by lia. done.
  - right. rewrite Ea. split; [done|]. intros k Hk. cbn [im_sectors set_freeblock]. rewrite (Hz b) by lia. rewrite nth_overflow by lia.
    unfold get32, get, zeroes, BSIZE. rewrite drop_replicate, take_replicate. replace (4 `min` (512 - 4 * k))%nat with 4%nat by lia. done.
Qed.

(** A new block with a direct address. *)
Lemma use_direct s q bl d :
  growing s q bl d -> (length bl < 12)%nat -> freeblock s < FSSIZE ->
  exists q' s', use_addr q (Z.of_nat (length bl)) s = Ret q' s' /\ growing s' q' (bl ++ [freeblock s]) d /\
    step_of s s' (owned q bl) (owned q' (bl ++ [freeblock s])) /\ q' = set_d_addr (Z.of_nat (length bl)) (freeblock s) q.
Proof.
  intros G Hlt Hf. pose proof G as [Hw [L1 L2 L3 L4 L5 L6 L7] Hnd Hr Hfr Hz].
  destruct (take_free s) as (En & Ex & Hb0); [lia|]. set (b := freeblock s) in *. set (q' := set_d_addr (Z.of_nat (length bl)) b q). exists q', (set_freeblock (b + 1) s).
  assert (Ea : d_addr q' NDIRECT = d_addr q NDIRECT).
  { unfold d_addr, q', set_d_addr. cbn [d_addrs]. change (Z.to_nat NDIRECT) with 12%nat. by rewrite !nth_lookup, list_lookup_insert_ne by lia. }
  split.
  { unfold use_addr. unfold d_addr at 1. rewrite Nat2Z.id, L3, nth_overflow by lia. change (xint 0 =? 0) with true. cbv iota. step En. by rewrite Ex. }
  first_two. apply growing_alloc; try done; [by split; apply Hw| |].
  { unfold owned. rewrite Ea, app_assoc. fold (owned q bl). fold b. solve_Permutation. }
  split; cbn [im_sectors set_freeblock].
  - unfold q', set_d_addr. cbn [d_addrs]. by rewrite length_insert.
  - rewrite length_app. cbn. lia.
  - intros k Hk. rewrite nth_app_end. unfold q', set_d_addr. cbn [d_addrs]. rewrite Nat2Z.id. rewrite nth_lookup. destruct (decide (k = length bl)) as [->|Hne].
    + by rewrite list_lookup_insert_eq by lia.
    + rewrite list_lookup_insert_ne by done. by rewrite <- nth_lookup, L3.
  - rewrite Ea. destruct L4 as [[L4 L4']|[L4 L4']]; [left|right]; (split; [done|]); [rewrite length_app; cbn; lia|]. intros k Hk.
    rewrite (L4' k Hk), !nth_overflow; [done|rewrite length_app; cbn; lia|lia].
  - rewrite length_app. lia.
  - apply (laid_more (blk s)); [done|done|]. apply Hz. unfold b. lia.
  - intros x [Hx|Hx%list_elem_of_singleton]%elem_of_app; [by apply L7|subst x]. apply (wh_block _ Hw). rewrite nmeta_eq in Hfr. lia.
Qed.

(** A new block with an address in the block of addresses. *)
Lemma use_indirect_entry s q bl d :
  growing s q bl d -> d_addr q NDIRECT <> 0 -> (12 <= length bl < 140)%nat -> freeblock s < FSSIZE ->
  let a := d_addr q NDIRECT in let o := (4 * (length bl - 12))%nat in
  let s' := put_block a (put32 (blk s a) o (freeblock s)) (set_freeblock (freeblock s + 1) s) in
  word (blk s a) (length bl - 12) = 0 /\ get32 (put32 (blk s a) o (freeblock s)) o = freeblock s /\
  growing s' q (bl ++ [freeblock s]) d /\ step_of s s' (owned q bl) (owned q (bl ++ [freeblock s])).
Proof.
  intros G Ha Hlen Hf a o s'. pose proof (fresh _ _ _ _ G) as Hfresh. pose proof G as [Hw [L1 L2 L3 L4 L5 L6 L7] Hnd Hr Hfr Hz].
  destruct L4 as [[? _]|[_ L4]]; [done|].
  destruct (take_free s) as (En & Ex & Hb0); [lia|]. set (b := freeblock s) in *. rewrite nmeta_eq in *. unfold FSSIZE in *.
  assert (Hown : owned q bl = a :: bl) by (unfold owned; by rewrite (proj2 (Z.eqb_neq _ 0) Ha)).
  assert (Har : 59 <= a < b) by (apply Hr; rewrite Hown; left). assert (Hla : length (blk s a) = BSIZE) by (apply (wh_block _ Hw); unfold FSSIZE; lia).
  rewrite Hown in Hnd. apply NoDup_cons in Hnd as [Hnbl Hnd].
  assert (Hb : forall k, 0 <= k -> blk s' k = if k =? a then put32 (blk s a) o b else blk s k).
  { intros k Hk. unfold s'. rewrite blk_put; [done|by split; apply Hw|unfold FSSIZE; lia|done]. }
  assert (Hbl : forall x, x ∈ bl -> blk s' x = blk s x).
  { intros x Hx. rewrite Hb by (specialize (Hr x); rewrite Hown in Hr; specialize (Hr ltac:(by right)); lia). destruct (Z.eqb_spec x a) as [->|]; [done|done]. }
  assert (Hget : get32 (put32 (blk s a) o b) o = b).
  { unfold get32, put32. rewrite get_put by (rewrite Hla; unfold o, BSIZE; lia). apply Z.mod_small. change (2 ^ (8 * Z.of_nat 4)) with (2 ^ 32). lia. }
  split; [rewrite L4, nth_overflow by lia; done|]. split; [done|]. apply growing_alloc; try done.
  - apply whole_put; [by split; apply Hw|unfold FSSIZE; lia|]. unfold put32. rewrite length_put; [done|]. rewrite Hla. unfold o, BSIZE. lia.
  - rewrite Hown. unfold owned. rewrite (proj2 (Z.eqb_neq _ 0) Ha). fold b. cbn [app]. rewrite Permutation_app_comm. cbn. apply perm_swap.
  - intros k Hk Hno. rewrite Hb by lia. rewrite Hown in Hno. destruct (Z.eqb_spec k a) as [->|]; [|done]. by destruct Hno; left.
  - split; try done.
    + rewrite length_app. cbn. lia.
    + intros k Hk. rewrite nth_app_end. destruct (decide _); [lia|]. by apply L3.
    + right. split; [done|]. intros k Hk. fold a. rewrite Hb, Z.eqb_refl, nth_app_end by lia. destruct (decide (12 + k = length bl)%nat) as [E|Hne].
      * replace (4 * k)%nat with o by (unfold o; lia). done.
      * unfold get32, put32. rewrite get_put_other by (rewrite ?Hla; unfold o, BSIZE; lia). by apply L4.
    + rewrite length_app. lia.
    + apply laid_more; [done| |].
      * rewrite <- L6. f_equal. apply list_fmap_ext. intros i x Hx. by apply Hbl, (list_elem_of_lookup_2 _ i).
      * rewrite Hb by lia. rewrite (proj2 (Z.eqb_neq b a)) by lia. apply Hz. unfold b, FSSIZE. lia.
    + intros x [Hx|Hx%list_elem_of_singleton]%elem_of_app; [by rewrite Hbl, L7|subst x]. rewrite Hb by lia. rewrite (proj2 (Z.eqb_neq b a)) by lia.
      apply (wh_block _ Hw). unfold FSSIZE. lia.
Qed.

(** The blocks a file with [k] blocks of data takes. *)
Definition blocks_of (k : nat) : nat := (k + if (12 <? k)%nat then 1 else 0)%nat.
Definition tight (q : dinode) (bl : list Z) : Prop := d_addr q NDIRECT = 0 <-> (length bl <= 12)%nat.
Definition header (q : dinode) : Z * Z * Z * Z * Z := (d_type q, d_major q, d_minor q, d_nlink q, d_size q).

Lemma owned_count q bl : tight q bl -> length (owned q bl) = blocks_of (length bl).
Proof.
  intros Ht. unfold owned, blocks_of. rewrite length_app. unfold tight in Ht. destruct (Z.eqb_spec (d_addr q NDIRECT) 0) as [E|E]; cbn [length].
  - rewrite (proj2 (Nat.ltb_ge _ _)); [lia|]. by apply Ht.
  - rewrite (proj2 (Nat.ltb_lt _ _)); [lia|]. apply Nat.nle_gt. by intros H%Ht.
Qed.

Lemma use_addr_used s q bl d n :
  growing s q bl d -> d_addr q n ∈ owned q bl -> use_addr q n s = Ret q s /\ xint (d_addr q n) = d_addr q n /\ 0 <= d_addr q n < FSSIZE /\ d_addr q n <> 0.
Proof.
  intros G Hin. pose proof (gr_range _ _ _ _ G _ Hin) as Hr. pose proof (gr_free _ _ _ _ G) as Hf. rewrite nmeta_eq in Hr. unfold FSSIZE in *.
  assert (Ex : xint (d_addr q n) = d_addr q n) by (apply xint_id; lia). unfold use_addr. rewrite Ex, (proj2 (Z.eqb_neq _ 0)) by lia. split_and!; done || lia.
Qed.

Lemma step_of_refl s o : step_of s s o o.
Proof. split; try done; try lia. by left. Qed.

Lemma addr_set q n v : (Z.to_nat n < length (d_addrs q))%nat -> d_addr (set_d_addr n v q) n = v.
Proof. intros H. unfold d_addr. cbn [d_addrs set_d_addr]. by rewrite nth_lookup, list_lookup_insert_eq. Qed.

(** What [use_block] does for the block number [f], the last one or one more. *)
Definition used_block (s : image) (q : dinode) (bl d : list Z) (f : nat) (m : M image (dinode * Z)) : Prop :=
  exists q' bl' x s', m s = Ret (q', x) s' /\ growing s' q' bl' d /\ step_of s s' (owned q bl) (owned q' bl') /\
    tight q' bl' /\ length bl' = S f /\ bl' !! f = Some x /\ header q' = header q.

Lemma use_block_direct s q bl d f :
  growing s q bl d -> tight q bl -> (length bl = f \/ length bl = S f) -> (f < 12)%nat -> (length bl = S f \/ freeblock s < FSSIZE) ->
  used_block s q bl d f (din <- use_addr q (Z.of_nat f) ;; ret (din, xint (d_addr din (Z.of_nat f)))).
Proof.
  intros G Ht Hl Hf Hroom. pose proof (gr_laid _ _ _ _ G) as [L1 _ L3 _ _ _ _]. destruct (decide (length bl = f)) as [Hlf|Hlf].
  - destruct (use_direct s q bl d) as (q' & s' & E & G' & S' & ->); try done; [lia|lia|]. pose proof (gr_free _ _ _ _ G) as Hfr. destruct (take_free s) as (_ & Ex & _); [lia|].
    exists (set_d_addr (Z.of_nat (length bl)) (freeblock s) q), (bl ++ [freeblock s]), (freeblock s), s'. subst f. split; [|split_and!; try done].
    + step E. by rewrite addr_set, Ex by lia.
    + unfold tight, d_addr in *. cbn [d_addrs set_d_addr]. change (Z.to_nat NDIRECT) with 12%nat in *. rewrite Nat2Z.id, nth_lookup, list_lookup_insert_ne, <- nth_lookup by lia.
      rewrite Ht, length_app. cbn. lia.
    + rewrite length_app. cbn. lia.
    + by rewrite lookup_app_r, Nat.sub_diag by lia.
  - destruct Hl as [|Hl]; [done|]. destruct (lookup_lt_is_Some_2 bl f) as [x Hx]; [lia|].
    assert (Ea : d_addr q (Z.of_nat f) = x) by (unfold d_addr; rewrite Nat2Z.id, L3, nth_lookup, Hx by lia; done).
    destruct (use_addr_used s q bl d (Z.of_nat f)) as (E & Ex & _); [done|rewrite Ea; apply elem_of_app; right; by eapply list_elem_of_lookup_2|].
    exists q, bl, x, s. split; [step E; by rewrite Ex, Ea|]. split_and!; try done. apply step_of_refl.
Qed.

(** The block of addresses is in use. *)
Lemma use_table s q bl d f :
  growing s q bl d -> tight q bl -> (length bl = f \/ length bl = S f) -> (12 <= f < 140)%nat ->
  freeblock s + Z.of_nat (blocks_of (S f)) - Z.of_nat (blocks_of (length bl)) <= FSSIZE ->
  exists q1 s1, use_addr q NDIRECT s = Ret q1 s1 /\ growing s1 q1 bl d /\ step_of s s1 (owned q bl) (owned q1 bl) /\ d_addr q1 NDIRECT <> 0 /\
    header q1 = header q /\ (length bl = S f \/ freeblock s1 < FSSIZE).
Proof.
  intros G Ht Hl Hf Hroom. pose proof (la_addrs _ _ _ _ (gr_laid _ _ _ _ G)) as L1. destruct (decide (d_addr q NDIRECT = 0)) as [H0|H0].
  - assert (length bl = 12 /\ f = 12)%nat as [El ->] by (apply Ht in H0; lia). rewrite El in Hroom. change (Z.of_nat (blocks_of 13)) with 14 in Hroom.
    change (Z.of_nat (blocks_of 12)) with 12 in Hroom. destruct (use_indirect s q bl d) as (q' & s' & E & G' & S' & ->); try done; [lia|].
    pose proof (gr_free _ _ _ _ G) as Hfr. destruct (take_free s) as (_ & _ & Hb0); [lia|].
    assert (Ea : d_addr (set_d_addr NDIRECT (freeblock s) q) NDIRECT = freeblock s) by (apply addr_set; change (Z.to_nat NDIRECT) with 12%nat; lia).
    exists (set_d_addr NDIRECT (freeblock s) q), s'. split_and!; try done; [by rewrite Ea|]. right.
    pose proof (so_count _ _ _ _ S') as Hc. unfold owned in Hc. rewrite Ea, H0, (proj2 (Z.eqb_neq _ 0) Hb0), !length_app in Hc. cbn [length Z.eqb] in Hc. lia.
  - destruct (use_addr_used s q bl d NDIRECT) as (E & Ex & _); [done|unfold owned; rewrite (proj2 (Z.eqb_neq _ 0) H0); left|].
    exists q, s. split_and!; try done; [apply step_of_refl|]. destruct Hl as [Hl|Hl]; [right|by left]. rewrite Hl in Hroom. unfold blocks_of in Hroom.
    rewrite (proj2 (Nat.ltb_lt 12 (S f))) in Hroom by lia. destruct (Nat.ltb_spec 12 f); [lia|]. exfalso. apply H0, Ht. lia.
Qed.

Lemma use_block_spec s q bl d f :
  growing s q bl d -> tight q bl -> (length bl = f \/ length bl = S f) -> (f < 140)%nat ->
  freeblock s + Z.of_nat (blocks_of (S f)) - Z.of_nat (blocks_of (length bl)) <= FSSIZE ->
  used_block s q bl d f (use_block q (Z.of_nat f)).
Proof.
  intros G Ht Hl Hf Hroom. unfold use_block. unfold NDIRECT at 1. destruct (Z.ltb_spec (Z.of_nat f) 12) as [Hd|Hd].
  { apply use_block_direct; try done; [lia|]. destruct Hl as [Hl|Hl]; [right|by left]. rewrite Hl in Hroom. unfold blocks_of in Hroom.
    rewrite (proj2 (Nat.ltb_ge 12 (S f))), (proj2 (Nat.ltb_ge 12 f)) in Hroom by lia. lia. }
  destruct (use_table s q bl d f) as (q1 & s1 & E1 & G1 & S1 & Hne & Hh & Hfree); try done; [lia|]. unfold used_block. rewrite (bind_ret _ _ _ _ _ E1).
  destruct (use_addr_used s1 q1 bl d NDIRECT) as (_ & Ex & Hr & _); [done|unfold owned; rewrite (proj2 (Z.eqb_neq _ 0) Hne); left|].
  rewrite Ex. step (rsect_eq _ s1 (gr_whole _ _ _ _ G1) Hr). cbv zeta. replace (Z.to_nat (4 * (Z.of_nat f - NDIRECT))) with (4 * (f - 12))%nat by (unfold NDIRECT; lia).
  assert (Htight : forall l : list Z, length l = S f -> tight q1 l) by (intros l El; unfold tight; rewrite El; split; [done|lia]).
  pose proof (gr_free _ _ _ _ G) as Hfr0. rewrite nmeta_eq in Hfr0. pose proof (gr_free _ _ _ _ G1) as Hfr. destruct (decide (length bl = f)) as [Hlf|Hlf].
  - destruct (use_indirect_entry s1 q1 bl d G1 Hne) as (H0 & Hget & G2 & S2); [lia|lia|]. rewrite Hlf in *. rewrite H0. change (0 =? 0) with true. cbv iota.
    destruct (take_free s1) as (En & Exb & _); [lia|]. step En. rewrite Exb. set (s2 := set_freeblock _ s1) in *. set (v := put32 _ _ _) in *.
    assert (Ew : wsect (d_addr q1 NDIRECT) v s2 = Ret tt (put_block (d_addr q1 NDIRECT) v s2)) by (apply wsect_eq; [split; apply (gr_whole _ _ _ _ G1)|done]).
    step Ew. rewrite Hget, Exb. eexists q1, (bl ++ [freeblock s1]), _, _. split; [done|]. split; [done|]. split; [eapply step_of_trans; [lia|done|done]|].
    split; [apply Htight; rewrite length_app; cbn; lia|]. split; [rewrite length_app; cbn; lia|]. split; [|done]. by rewrite lookup_app_r, Hlf, Nat.sub_diag by lia.
  - destruct Hl as [|Hl]; [done|]. destruct (lookup_lt_is_Some_2 bl f) as [x Hx]; [lia|].
    destruct (la_ind _ _ _ _ (gr_laid _ _ _ _ G1)) as [[? _]|[_ L4']]; [done|].
    assert (Ew : word (blk s1 (d_addr q1 NDIRECT)) (f - 12) = x) by (rewrite L4' by lia; replace (12 + (f - 12))%nat with f by lia; by rewrite nth_lookup, Hx).
    rewrite Ew. assert (Hxin : x ∈ owned q1 bl) by (apply elem_of_app; right; by eapply list_elem_of_lookup_2).
    pose proof (gr_range _ _ _ _ G1 x Hxin) as Hxr. rewrite nmeta_eq in Hxr. unfold FSSIZE in *.
    rewrite (proj2 (Z.eqb_neq x 0)), xint_id by lia. exists q1, bl, x, s1. split_and!; try done. by apply Htight.
Qed.

Lemma length_join_const (l : list (list Z)) n : (forall x, x ∈ l -> length x = n) -> length (mjoin l) = (n * length l)%nat.
Proof.
  induction l as [|x l IH]; intros H; [cbn; lia|]. change (mjoin (x :: l)) with (x ++ mjoin l). rewrite length_app, IH, (H x) by set_solver. cbn [length]. lia.
Qed.

Lemma append_last (A X d p : list Z) :
  length A = (BSIZE * (length d / BSIZE))%nat -> length X = BSIZE -> (length d mod BSIZE + length p <= BSIZE)%nat ->
  A ++ X = d ++ replicate (BSIZE * S (length d / BSIZE) - length d) 0 ->
  A ++ splice X (length d mod BSIZE) p = (d ++ p) ++ replicate (BSIZE * S (length d / BSIZE) - length (d ++ p)) 0.
Proof.
  intros HA HX Hp E. pose proof (Nat.div_mod_eq (length d) BSIZE) as Hdm. pose proof (Nat.mod_upper_bound (length d) BSIZE ltac:(done)) as Hm.
  set (o := (length d mod BSIZE)%nat) in *. set (f := (length d / BSIZE)%nat) in *.
  assert (Ed : d = A ++ take o X).
  { transitivity (take (length d) (A ++ X)); [by rewrite E, take_app_length|]. rewrite take_app_ge by lia. do 2 f_equal. lia. }
  assert (Ez : drop o X = replicate (BSIZE - o) 0).
  { transitivity (drop (length d) (A ++ X)); [rewrite drop_app_ge by lia; f_equal; lia|]. rewrite E, drop_app_length. f_equal. lia. }
  rewrite splice_in by lia. rewrite <- drop_drop, Ez, drop_replicate, length_app. replace (BSIZE * S f - (length d + length p))%nat with (BSIZE - o - length p)%nat by lia.
  rewrite Ed at 1. by rewrite <- !app_assoc.
Qed.

(** Bytes written behind the data, in the last block. *)
Lemma write_spec s q bl d x p :
  growing s q bl d -> bl !! (length d / BSIZE)%nat = Some x -> length bl = S (length d / BSIZE) -> (length d mod BSIZE + length p <= BSIZE)%nat ->
  let s' := put_block x (splice (blk s x) (length d mod BSIZE) p) s in
  0 <= x < FSSIZE /\ growing s' q bl (d ++ p) /\ step_of s s' (owned q bl) (owned q bl).
Proof.
  intros G Hx Hl Hp s'. pose proof G as [Hw [L1 L2 L3 L4 L5 L6 L7] Hnd Hr Hfr Hz].
  assert (Hxin : x ∈ bl) by (by eapply list_elem_of_lookup_2). assert (Hxo : x ∈ owned q bl) by (apply elem_of_app; by right).
  assert (Hpos : forall b, b ∈ owned q bl -> 0 <= b < FSSIZE) by (intros b Hb%Hr; rewrite nmeta_eq in *; lia).
  pose proof (Hpos x Hxo) as Hx0. split; [done|].
  set (o := (length d mod BSIZE)%nat) in *. assert (Ho : (o + length p <= length (blk s x))%nat) by (by rewrite L7).
  assert (Hb : forall k, 0 <= k -> blk s' k = if k =? x then splice (blk s x) o p else blk s k) by (intros k Hk; unfold s'; by apply blk_put).
  assert (Hlen : length (splice (blk s x) o p) = BSIZE) by (rewrite length_splice by lia; by apply L7).
  assert (Epre : bl = take (length d / BSIZE) bl ++ [x]) by (rewrite <- (take_ge bl (S (length d / BSIZE))) at 1 by lia; by apply take_S_r).
  set (pre := take (length d / BSIZE) bl) in *. assert (Hlp : length pre = (length d / BSIZE)%nat) by (unfold pre; rewrite length_take; lia).
  pose proof Hnd as (Hnd1 & Hnd2 & Hnd3)%NoDup_app. rewrite Epre in Hnd3. apply NoDup_app in Hnd3 as (_ & Hxp & _).
  assert (Efm : mjoin (blk s' <$> bl) = mjoin (blk s <$> pre) ++ splice (blk s x) o p).
  { rewrite Epre, fmap_app, join_app. f_equal; [f_equal; apply list_fmap_ext; intros i b Hib%list_elem_of_lookup_2|].
    - rewrite Hb by (apply Hpos, elem_of_app; right; rewrite Epre; apply elem_of_app; by left). rewrite (proj2 (Z.eqb_neq b x)); [done|]. intros ->. apply (Hxp x Hib). left.
    - cbn [fmap list_fmap mjoin list_join]. by rewrite app_nil_r, Hb, Z.eqb_refl by lia. }
  assert (Hd : (length (d ++ p) <= BSIZE * length bl)%nat) by (rewrite length_app, Hl; pose proof (Nat.div_mod_eq (length d) BSIZE); lia).
  split.
  - split; try done.
    + by apply whole_put.
    + split; try done.
      * destruct L4 as [|[L4 L4']]; [by left|right]. split; [done|]. unfold owned in Hnd2, Hpos. rewrite (proj2 (Z.eqb_neq _ 0) L4) in Hnd2, Hpos. intros k Hk.
        rewrite Hb by (apply Hpos; left). rewrite (proj2 (Z.eqb_neq _ x)); [by apply L4'|]. intros <-. by apply (Hnd2 (d_addr q NDIRECT)); [left|].
      * rewrite Efm, Hl. apply append_last; [|by apply L7|done|].
        -- rewrite (length_join_const _ BSIZE), length_fmap, Hlp; [done|]. intros y (b & -> & Hyb)%list_elem_of_fmap. apply L7. rewrite Epre. apply elem_of_app. by left.
        -- rewrite <- Hl, <- L6. rewrite Epre at 1. rewrite fmap_app, join_app. cbn [fmap list_fmap mjoin list_join]. by rewrite app_nil_r.
      * intros b Hb'. rewrite Hb by (apply Hpos, elem_of_app; by right). destruct (b =? x); [done|by apply L7].
    + intros b Hb'. cbn in Hb'. specialize (Hr x Hxo). rewrite Hb, (proj2 (Z.eqb_neq b x)) by lia. by apply Hz.
  - split; try done; [|by left]. intros k Hk Hno. rewrite Hb by lia. destruct (Z.eqb_spec k x) as [->|]; done.
Qed.

(** ** Appending *)

(** The blocks that [n] bytes fill. *)
Definition nblk (n : nat) : nat := ((n + 511) / 512)%nat.
Lemma nblk_spec n : (512 * nblk n < n + 512 /\ n <= 512 * nblk n)%nat.
Proof. unfold nblk. pose proof (Nat.div_mod_eq (n + 511) 512). pose proof (Nat.mod_upper_bound (n + 511) 512 ltac:(lia)). lia. Qed.
Lemma blocks_of_mono a b : (a <= b)%nat -> (blocks_of a <= blocks_of b)%nat.
Proof. intros H. unfold blocks_of. destruct (Nat.ltb_spec 12 a), (Nat.ltb_spec 12 b); lia. Qed.

(** A file between two calls of [iappend]. *)
Record filed (s : image) (q : dinode) (bl d : list Z) : Prop := {
  fd_growing : growing s q bl d;
  fd_tight : tight q bl;
  fd_blocks : length bl = nblk (length d)
}.

Lemma filed_free s s' q bl d q' bl' d' : filed s q bl d -> filed s' q' bl' d' -> step_of s s' (owned q bl) (owned q' bl') ->
  freeblock s' = freeblock s + Z.of_nat (blocks_of (nblk (length d'))) - Z.of_nat (blocks_of (nblk (length d))).
Proof.
  intros [_ T1 B1] [_ T2 B2] S'. pose proof (so_count _ _ _ _ S') as H. rewrite !owned_count, B1, B2 in H by done. lia.
Qed.

Lemma iappend_loop_spec fuel : forall p s q bl d,
  filed s q bl d -> (length p <= fuel)%nat -> (length d + length p <= 140 * 512)%nat ->
  freeblock s + Z.of_nat (blocks_of (nblk (length d + length p))) - Z.of_nat (blocks_of (nblk (length d))) <= FSSIZE ->
  exists q' bl' s', iappend_loop fuel q (Z.of_nat (length d)) p s = Ret (q', Z.of_nat (length (d ++ p))) s' /\ filed s' q' bl' (d ++ p) /\
    step_of s s' (owned q bl) (owned q' bl') /\ header q' = header q.
Proof.
  induction fuel as [|fuel IH]; intros p s q bl d F Hp Hmax Hroom; pose proof F as [G Ht Hbl];
    (destruct p as [|c p]; [exists q, bl, s; rewrite app_nil_r; split_and!; try done; apply step_of_refl|]); [cbn in Hp; lia|].
  cbn [iappend_loop]. rewrite bool_decide_false by done. set (pp := c :: p) in *. assert (Hpp : (0 < length pp)%nat) by (cbn; lia).
  set (n := length d) in *. pose proof (nblk_spec n) as Hn. pose proof (nblk_spec (n + length pp)) as Hn'.
  pose proof (Nat.div_mod_eq n 512) as Hdm. pose proof (Nat.mod_upper_bound n 512 ltac:(lia)) as Hm. set (f := (n / 512)%nat) in *.
  assert (Ef : Z.of_nat n / B = Z.of_nat f) by (unfold f, B, BSIZE; by rewrite Nat2Z.inj_div). rewrite Ef. unfold MAXFILE, NDIRECT, NINDIRECT.
  rewrite (proj2 (Z.leb_gt _ _)) by lia.
  destruct (use_block_spec s q bl d f G Ht) as (q1 & bl1 & x & s1 & E1 & G1 & S1 & T1 & Hl1 & Hx & Hh1); [lia|lia| |].
  { rewrite Hbl. fold n. pose proof (blocks_of_mono (S f) (nblk (n + length pp)) ltac:(lia)). lia. }
  step E1. set (n1 := Z.to_nat (Z.min (Z.of_nat (length pp)) ((Z.of_nat f + 1) * B - Z.of_nat n))).
  assert (Hn1 : (n1 = length pp `min` (512 - n mod 512))%nat) by (unfold n1, B, BSIZE; lia).
  assert (Elt : length (take n1 pp) = n1) by (rewrite length_take; lia).
  destruct (write_spec s1 q1 bl1 d x (take n1 pp) G1 Hx Hl1) as (Hx0 & G2 & S2); [rewrite Elt; unfold BSIZE; fold n; lia|].
  step (rsect_eq x s1 (gr_whole _ _ _ _ G1) Hx0). replace (Z.to_nat (Z.of_nat n - Z.of_nat f * B)) with (n mod BSIZE)%nat by (unfold B, BSIZE; lia).
  step (wsect_eq x (splice (blk s1 x) (n mod BSIZE) (take n1 pp)) s1 (gr_whole _ _ _ _ G1) Hx0).
  pose proof (step_of_trans _ _ _ _ _ _ (growing_pos _ _ _ _ G) S1 S2) as S12. set (s2 := put_block _ _ _) in *.
  assert (F2 : filed s2 q1 bl1 (d ++ take n1 pp)).
  { split; [done|done|]. rewrite Hl1, length_app, Elt. fold n. pose proof (nblk_spec (n + n1)). lia. }
  pose proof (filed_free _ _ _ _ _ _ _ _ F F2 S12) as Hf2. rewrite length_app, Elt in Hf2. fold n in Hf2.
  destruct (IH (drop n1 pp) s2 q1 bl1 (d ++ take n1 pp)) as (q3 & bl3 & s3 & E3 & F3 & S3 & Hh3); [done| | | |].
  - rewrite length_drop. cbn [length] in Hp. lia.
  - rewrite length_drop, length_app, Elt. fold n. lia.
  - rewrite length_drop, length_app, Elt. fold n. replace (n + n1 + (length pp - n1))%nat with (n + length pp)%nat by lia. lia.
  - rewrite <- app_assoc, take_drop in E3, F3. exists q3, bl3, s3. split_and!; try done.
    + rewrite <- E3. f_equal. rewrite length_app, Elt. fold n. rewrite u32_id by lia. lia.
    + eapply step_of_trans; [by eapply growing_pos|done|done].
    + congruence.
Qed.
