(* ===== verification/MkfsProps.v ===== *)
(** * The image that mkfs makes

    The image as a list of files, that the operations of mkfs.c keep that description
    true, and the image the whole program makes. *)

From S2P Require Import Prelude Mmu Mem Cstring Blk FsState Bio BioSpec Log LogSpec LogProps LogOps Fs FsSpec FsProps FsRead FsPath Mkfs MkfsFile.

(** ** The whole image *)

Record mfile := Mfile { f_type : Z; f_blocks : list Z; f_bytes : list Z }.

(** The inode of the file number [i], counted from 0. *)
Abbreviation ino s i := (on_image s (Z.of_nat i + 1)).
Abbreviation owns s i f := (owned (ino s i) (f_blocks f)).
Definition weight (f : mfile) : Z := Z.of_nat (blocks_of (nblk (length (f_bytes f)))).

(** The image while it holds the files [T], with the inodes from 1 on. *)
Record image_ok (s : image) (T : list mfile) : Prop := {
  im_whole : whole s;
  im_free : nmeta <= freeblock s <= FSSIZE;
  im_zero : forall b, freeblock s <= b < FSSIZE -> blk s b = zeroes;
  im_inodes : freeinode s = 1 + Z.of_nat (length T) /\ Z.of_nat (length T) < NINODES;
  im_types : forall f, f ∈ T -> 0 < f_type f < 2 ^ 15;
  im_filed : forall i f, T !! i = Some f -> filed s (ino s i) (f_blocks f) (f_bytes f);
  im_header : forall i f, T !! i = Some f -> header (ino s i) = (f_type f, 0, 0, 1, Z.of_nat (length (f_bytes f)));
  im_disjoint : forall i j f g, T !! i = Some f -> T !! j = Some g -> i <> j -> forall b, b ∈ owns s i f -> b ∉ owns s j g;
  im_count : freeblock s = nmeta + sum_by weight T;
  im_unused : forall n, freeinode s <= n < ninodeblocks * IPB -> d_type (on_image s n) = 0;
  im_super : blk s 1 = splice zeroes 0 super_bytes;
  im_log : forall b, 2 <= b < 2 + nlog -> blk s b = zeroes
}.

Lemma filed_frame s s' q q' bl d :
  filed s q bl d -> whole s' -> freeblock s <= freeblock s' <= FSSIZE -> (forall b, freeblock s' <= b < FSSIZE -> blk s' b = zeroes) ->
  (forall b, b ∈ owned q bl -> blk s' b = blk s b) -> d_addrs q' = d_addrs q -> filed s' q' bl d.
Proof.
  intros [[G1 G2 G3 G4 G5 G6] F2 F3] Hw Hf Hz Hb Ea. assert (Eo : owned q' bl = owned q bl) by (unfold owned, d_addr; by rewrite Ea).
  split; [|unfold tight, d_addr; by rewrite Ea|done]. split; rewrite ?Eo; try done; [|intros b Hin; specialize (G4 b Hin); lia|lia].
  destruct (laid_ext (blk s) (blk s') q bl d Hb G2) as [L1 L2 L3 L4 L5 L6 L7]. split; rewrite ?Ea; try done. unfold d_addr in *. by rewrite Ea.
Qed.

Lemma filed_dinode s q bl d ty size :
  filed s q bl d -> header q = (ty, 0, 0, 1, size) -> 0 < ty < 2 ^ 15 -> 0 <= size < 2 ^ 32 -> dinode_ok q.
Proof.
  intros [G _ _] Hh Ht Hs. injection Hh as E1 E2 E3 E4 E5. pose proof (gr_laid _ _ _ _ G) as [L1 _ L3 L4 _ _ _].
  split; [rewrite E1, E2, E3, E4; repeat constructor; lia|by rewrite E5|]. split; [done|]. apply Forall_lookup. intros k v Hk. apply lookup_lt_Some in Hk as Hlt.
  assert (Hv : v = 0 \/ v ∈ owned q bl); [|destruct Hv as [->|Hv%(gr_range _ _ _ _ G)]; [lia|pose proof (gr_free _ _ _ _ G); rewrite nmeta_eq in *; unfold FSSIZE in *; lia]].
  assert (Ev : nth k (d_addrs q) 0 = v) by (by rewrite nth_lookup, Hk). destruct (decide (k < 12)%nat) as [H12|H12].
  - rewrite L3 in Ev by done. rewrite nth_lookup in Ev. destruct (bl !! k) as [b|] eqn:Eb; [|by left]. cbn in Ev. subst b. right. apply elem_of_app. right.
    by eapply list_elem_of_lookup_2.
  - assert (k = 12)%nat as -> by lia. unfold owned. unfold d_addr at 1 2. change (Z.to_nat NDIRECT) with 12%nat. rewrite Ev. destruct (Z.eqb_spec v 0); [by left|right]. set_solver.
Qed.

Lemma image_bounds s T i f : image_ok s T -> T !! i = Some f ->
  0 <= Z.of_nat i + 1 < ninodeblocks * IPB /\ Z.of_nat i + 1 < freeinode s /\ (length (f_bytes f) <= 140 * 512)%nat.
Proof.
  intros I Hi. apply lookup_lt_Some in Hi as Hlt. destruct (im_inodes _ _ I) as [Hn Hm]. change (ninodeblocks * IPB) with 208. unfold NINODES in Hm. split; [lia|]. split; [lia|].
  destruct (im_filed _ _ I i f Hi) as [G _ Hb]. pose proof (la_max _ _ _ _ (gr_laid _ _ _ _ G)). pose proof (nblk_spec (length (f_bytes f))). lia.
Qed.

(** The image with the file [i] changed, the others as they were. *)
Lemma image_update s s' T i f f' :
  image_ok s T -> T !! i = Some f -> whole s' -> freeinode s' = freeinode s -> (forall b, freeblock s' <= b < FSSIZE -> blk s' b = zeroes) ->
  freeblock s <= freeblock s' <= FSSIZE -> filed s' (ino s' i) (f_blocks f') (f_bytes f') ->
  header (ino s' i) = (f_type f, 0, 0, 1, Z.of_nat (length (f_bytes f'))) -> f_type f' = f_type f ->
  freeblock s' = freeblock s + weight f' - weight f ->
  (forall b, b ∈ owns s' i f' -> b ∈ owns s i f \/ freeblock s <= b) ->
  (forall m, 0 <= m < ninodeblocks * IPB -> m <> Z.of_nat i + 1 -> on_image s' m = on_image s m) ->
  (forall b, nmeta <= b < freeblock s -> b ∉ owns s i f -> blk s' b = blk s b) ->
  (forall b, 0 <= b < 2 + nlog -> blk s' b = blk s b) ->
  image_ok s' (<[i := f']> T).
Proof.
  intros I Hi Hw Efi Hz Hfr Hfd Hhd Ety Hfree Hown Hino Hblk Hlow. pose proof (image_bounds _ _ _ _ I Hi) as (Hi1 & Hi2 & _).
  apply lookup_lt_Some in Hi as Hlt. pose proof (im_free _ _ I) as Hfr0.
  assert (Hother : forall j g, T !! j = Some g -> j <> i -> ino s' j = ino s j).
  { intros j g Hj Hne. apply Hino; [by apply (image_bounds s T j g)|lia]. }
  split; rewrite ?length_insert, ?Efi; try done; try (lia || apply I).
  - intros g (j & Hj)%list_elem_of_lookup. apply list_lookup_insert_Some in Hj as [(-> & -> & _)|[Hne Hj]].
    + rewrite Ety. eapply (im_types _ _ I), list_elem_of_lookup_2, Hi.
    + eapply (im_types _ _ I), list_elem_of_lookup_2, Hj.
  - intros j g [(-> & -> & _)|[Hne Hj]]%list_lookup_insert_Some; [done|]. rewrite (Hother j g) by done.
    eapply (filed_frame s); [by apply (im_filed _ _ I)|done|lia|done| |done]. intros b Hb.
    apply Hblk; [eapply (gr_range _ _ _ _ (fd_growing _ _ _ _ (im_filed _ _ I j g Hj))), Hb|]. by apply (im_disjoint _ _ I j i g f).
  - intros j g [(-> & -> & _)|[Hne Hj]]%list_lookup_insert_Some; [by rewrite Ety|]. rewrite (Hother j g) by done. by apply (im_header _ _ I).
  - assert (Hnew : forall j g, T !! j = Some g -> j <> i -> forall b, b ∈ owns s' i f' -> b ∉ owns s' j g).
    { intros j g Hj Hne b Hb. rewrite (Hother j g) by done. intros Hb'. destruct (Hown b Hb) as [H|H]; [by apply (im_disjoint _ _ I i j f g Hi Hj ltac:(done) b)|].
      pose proof (gr_range _ _ _ _ (fd_growing _ _ _ _ (im_filed _ _ I j g Hj)) b Hb'). lia. }
    intros j k g h [(-> & -> & _)|[Hj' Hj]]%list_lookup_insert_Some [(-> & -> & _)|[Hk' Hk]]%list_lookup_insert_Some Hne b Hb Hb'; [done| | |].
    + by apply (Hnew k h Hk ltac:(done) b Hb).
    + by apply (Hnew j g Hj ltac:(done) b Hb').
    + rewrite (Hother j g) in Hb by done. rewrite (Hother k h) in Hb' by done. by apply (im_disjoint _ _ I j k g h Hj Hk Hne b).
  - rewrite (sum_by_insert _ _ _ f) by done. rewrite Hfree, (im_count _ _ I). lia.
  - intros n Hn. rewrite Hino by lia. by apply (im_unused _ _ I).
  - rewrite Hlow by done. apply I.
  - intros b Hb. rewrite Hlow by lia. by apply (im_log _ _ I).
Qed.

Lemma iappend_spec s T i f p :
  image_ok s T -> T !! i = Some f -> (length (f_bytes f) + length p <= 140 * 512)%nat ->
  freeblock s + Z.of_nat (blocks_of (nblk (length (f_bytes f) + length p))) - weight f <= FSSIZE ->
  exists bl s', iappend (Z.of_nat i + 1) p s = Ret tt s' /\ image_ok s' (<[i := Mfile (f_type f) bl (f_bytes f ++ p)]> T).
Proof.
  intros I Hi Hmax Hroom. pose proof (image_bounds _ _ _ _ I Hi) as (Hib & Hi2 & Hlen). pose proof (im_filed _ _ I i f Hi) as F. pose proof (im_header _ _ I i f Hi) as Hh.
  pose proof (f_equal snd Hh : d_size (ino s i) = _) as E5. cbn [snd] in E5. pose proof (im_whole _ _ I) as Hw. unfold iappend. step (rinode_eq _ s Hw Hib). rewrite E5, xint_id by lia.
  destruct (iappend_loop_spec (length p) p s _ _ _ F) as (q & bl & s1 & Eq & F1 & S1 & Hq); [done|done|done|]. step Eq.
  set (d := f_bytes f ++ p) in *. assert (Hd : (length d <= 140 * 512)%nat) by (unfold d; rewrite length_app; lia). set (q' := set_d_size (xint (Z.of_nat (length d))) q).
  assert (Eh : header q' = (f_type f, 0, 0, 1, Z.of_nat (length d))).
  { rewrite Hh in Hq. injection Hq as Q1 Q2 Q3 Q4 _. unfold header, q'. cbn [set_d_size d_type d_major d_minor d_nlink d_size]. by rewrite Q1, Q2, Q3, Q4, xint_id by lia. }
  pose proof (growing_pos _ _ _ _ (fd_growing _ _ _ _ F)) as Hpos. pose proof (fd_growing _ _ _ _ F1) as [Hw1 _ _ Hr1 Hfr1 Hz1].
  pose proof (im_free _ _ I) as Hfr. rewrite nmeta_eq in *.
  assert (F1' : filed s1 q' bl d) by (eapply filed_frame; [exact F1|done|lia|done|done|done]).
  destruct (winode_spec (Z.of_nat i + 1) q' s1) as (E' & Hw2 & Hb2 & Hi2'); [done|done|..].
  { eapply filed_dinode; [exact F1'|exact Eh| |lia]. eapply (im_types _ _ I), list_elem_of_lookup_2, Hi. }
  change (2 + nlog) with 32 in *. change (sb_bmapstart sb) with 58 in *. exists bl. eexists. split; [exact E'|]. set (s2 := put_inode _ _ _) in *.
  assert (Eino : ino s2 i = q') by (by rewrite Hi2', Z.eqb_refl).
  assert (Hlow : forall b, 0 <= b < 59 -> blk s1 b = blk s b).
  { intros b Hb. apply (so_keeps _ _ _ _ S1); [lia|]. intros Hin%(gr_range _ _ _ _ (fd_growing _ _ _ _ F)). rewrite nmeta_eq in Hin. lia. }
  apply (image_update s s2 T i f); cbn [f_type f_blocks f_bytes]; rewrite ?Eino; try done.
  - exact (so_inodes _ _ _ _ S1).
  - intros b Hb. cbn in Hb. rewrite Hb2 by lia. by apply Hz1.
  - cbn. pose proof (so_more _ _ _ _ S1). lia.
  - eapply filed_frame; [exact F1'|done|cbn; lia| | |done]; intros b Hb.
    + cbn in Hb. rewrite Hb2 by lia. by apply Hz1.
    + apply (gr_range _ _ _ _ (fd_growing _ _ _ _ F1')) in Hb. rewrite nmeta_eq in Hb. apply Hb2; lia.
  - exact (filed_free _ _ _ _ _ _ _ _ F F1 S1).
  - intros b Hb. change (owned q' bl) with (owned q bl) in Hb. destruct (so_own _ _ _ _ S1 b Hb) as [|]; [by left|right; lia].
  - intros m Hm Hne. rewrite Hi2' by done. rewrite (proj2 (Z.eqb_neq m _) Hne). unfold on_image. destruct (inode_place m Hm) as [Hp _].
    change (2 + nlog) with 32 in Hp. change (sb_bmapstart sb) with 58 in Hp. by rewrite Hlow by lia.
  - intros b Hb Hno. rewrite nmeta_eq in Hb. rewrite Hb2 by lia. apply (so_keeps _ _ _ _ S1); [lia|done].
  - intros b Hb. change (2 + nlog) with 32 in Hb. rewrite Hb2 by lia. apply Hlow. lia.
Qed.

(** A new empty file. *)
Lemma filed_empty s ty : whole s -> nmeta <= freeblock s <= FSSIZE -> (forall b, freeblock s <= b < FSSIZE -> blk s b = zeroes) ->
  filed s (Dinode ty 0 0 1 0 (replicate 13 0)) [] [].
Proof.
  intros Hw Hf Hz. split; [|split; [cbn; lia|done]|done]. split; try done; [|constructor|by intros b []%elem_of_nil]. split; try done; cbn [length]; try lia.
  - intros k Hk. do 12 (destruct k; [done|]). lia.
  - left. split; [done|lia].
  - by intros b []%elem_of_nil.
Qed.

Lemma ialloc_spec s T ty :
  image_ok s T -> 0 < ty < 2 ^ 15 -> Z.of_nat (length T) + 1 < NINODES ->
  exists s', ialloc ty s = Ret (Z.of_nat (length T) + 1) s' /\ image_ok s' (T ++ [Mfile ty [] []]).
Proof.
  intros I Hty Hn. destruct (im_inodes _ _ I) as [Efi _]. pose proof (im_whole _ _ I) as Hw. pose proof (im_free _ _ I) as Hfr. unfold NINODES in Hn. rewrite nmeta_eq in Hfr.
  unfold ialloc. rewrite bind_gets, bind_modify, Efi. replace (1 + Z.of_nat (length T)) with (Z.of_nat (length T) + 1) by lia. rewrite xshort_id by lia.
  replace (s16 ty) with ty by (unfold s16, u16; rewrite Z.mod_small by lia; by rewrite (proj2 (Z.ltb_lt _ _)) by lia).
  change (s16 (xshort 1)) with 1. change (xint 0) with 0. set (q := Dinode ty 0 0 1 0 (replicate 13 0)). set (s1 := set_freeinode _ s).
  assert (Hw1 : whole s1) by (split; apply Hw).
  assert (Hib : 0 <= Z.of_nat (length T) + 1 < ninodeblocks * IPB) by (change (ninodeblocks * IPB) with 208; lia).
  destruct (winode_spec (Z.of_nat (length T) + 1) q s1 Hw1 Hib) as (E' & Hw2 & Hb2 & Hi2).
  { split; [repeat constructor; cbn; lia|done|]. split; [done|]. apply Forall_replicate. lia. }
  step E'. change (2 + nlog) with 32 in *. change (sb_bmapstart sb) with 58 in *. eexists. split; [done|]. set (s2 := put_inode _ _ _) in *.
  assert (Efi2 : freeinode s2 = Z.of_nat (length T) + 2) by (cbn; rewrite u32_id; lia). assert (Efb : freeblock s2 = freeblock s) by done.
  assert (Hblk : forall b, 59 <= b -> blk s2 b = blk s b) by (intros b Hb; rewrite Hb2 by lia; done).
  assert (Hold : forall j g, T !! j = Some g -> ino s2 j = ino s j).
  { intros j g Hj. apply lookup_lt_Some in Hj as Hjl. rewrite Hi2 by (change (ninodeblocks * IPB) with 208 in *; lia). rewrite (proj2 (Z.eqb_neq _ _)) by lia. done. }
  assert (Hnew : ino s2 (length T) = q) by (by rewrite Hi2, Z.eqb_refl).
  assert (Hz2 : forall b, freeblock s2 <= b < FSSIZE -> blk s2 b = zeroes) by (intros b Hb; rewrite Hblk by (rewrite Efb in Hb; lia); by apply (im_zero _ _ I)).
  assert (Hcase : forall j g, (T ++ [Mfile ty [] []]) !! j = Some g -> T !! j = Some g \/ j = length T /\ g = Mfile ty [] []).
  { intros j g [H|[Hl H]]%lookup_app_Some; [by left|right]. apply list_lookup_singleton_Some in H as [H <-]. split; [lia|done]. }
  split; rewrite ?Efb, ?Efi2, ?length_app; cbn [length]; try done; try (lia || apply I).
  - unfold NINODES. lia.
  - intros g (j & [Hj|[_ ->]]%Hcase)%list_elem_of_lookup; [eapply (im_types _ _ I), list_elem_of_lookup_2, Hj|done].
  - intros j g [Hj|[-> ->]]%Hcase; [rewrite (Hold j g Hj)|rewrite Hnew; by apply filed_empty].
    eapply filed_frame; [exact (im_filed _ _ I j g Hj)|done|by rewrite Efb; lia|done| |done]. intros b Hb.
    apply Hblk. apply (gr_range _ _ _ _ (fd_growing _ _ _ _ (im_filed _ _ I j g Hj))) in Hb. rewrite nmeta_eq in Hb. lia.
  - intros j g [Hj|[-> ->]]%Hcase; [rewrite (Hold j g Hj); by apply (im_header _ _ I)|by rewrite Hnew].
  - intros j k g h [Hj|[-> ->]]%Hcase [Hk|[-> ->]]%Hcase Hne b Hb Hb'; try done.
    + rewrite (Hold j g Hj) in Hb. rewrite (Hold k h Hk) in Hb'. by apply (im_disjoint _ _ I j k g h Hj Hk Hne b).
    + rewrite Hnew in Hb'. by apply elem_of_nil in Hb'.
    + rewrite Hnew in Hb. by apply elem_of_nil in Hb.
  - rewrite (im_count _ _ I). unfold sum_by. rewrite foldr_app. done.
  - intros n Hn'. rewrite Hi2 by (change (ninodeblocks * IPB) with 208 in *; lia). rewrite (proj2 (Z.eqb_neq n _)) by lia. apply (im_unused _ _ I). lia.
  - rewrite Hb2 by lia. apply I.
  - intros b Hb. change (2 + nlog) with 32 in Hb. rewrite Hb2 by lia. by apply (im_log _ _ I).
Qed.

(** ** The files of the command line *)

(** The bytes the reads of a file give. *)
Fixpoint read_bytes (chunks : list (list Z)) : list Z :=
  match chunks with
  | [] => []
  | [] :: _ => []
  | c :: chunks => c ++ read_bytes chunks
  end.
Definition file_bytes (f : input) : list Z := read_bytes (default [] (snd f)).

(** The entries of the root directory. *)
Definition entries (files : list input) : list (Z * list Z) :=
  (1, [46]) :: (1, [46; 46]) :: imap (fun k f => (Z.of_nat k + 2, skip_underscore (fst f))) files.
Definition root_bytes (files : list input) : list Z := mjoin ((fun e => dirent (fst e) (snd e)) <$> entries files).

(** Types and contents of the inodes, from 1 on. *)
Definition tree_of (files : list input) : list (Z * list Z) :=
  (T_DIR, root_bytes files) :: ((fun f => (T_FILE, file_bytes f)) <$> files).
Definition contents (T : list mfile) : list (Z * list Z) := (fun f => (f_type f, f_bytes f)) <$> T.

Definition size_of (x : Z * list Z) : Z := Z.of_nat (blocks_of (nblk (length (snd x)))).
Definition need (l : list (Z * list Z)) : Z := sum_by size_of l.

Lemma need_contents T : sum_by weight T = need (contents T).
Proof. unfold need, sum_by, contents. induction T as [|f T IH]; [done|]. cbn. by rewrite IH. Qed.
Lemma size_nonneg x : 0 <= size_of x.
Proof. unfold size_of. lia. Qed.
Lemma need_app a b : need (a ++ b) = need a + need b.
Proof. unfold need, sum_by. induction a as [|x a IH]; cbn; [done|]. rewrite IH. lia. Qed.
Lemma need_nonneg l : 0 <= need l.
Proof. apply sum_by_nonneg. intros x _. apply size_nonneg. Qed.
Lemma size_mono t u a b : (length a <= length b)%nat -> size_of (t, a) <= size_of (u, b).
Proof. intros H. unfold size_of. cbn [snd]. apply Nat2Z.inj_le, blocks_of_mono. unfold nblk. apply Nat.Div0.div_le_mono. lia. Qed.

Lemma strncpy_length t i n : length (strncpy_loop t i n) = n.
Proof. revert i. induction n as [|n IH]; intros i; [done|]. cbn [strncpy_loop]. destruct (_ =? 0); cbn; [by rewrite length_replicate|by rewrite IH]. Qed.
Lemma length_dirent n name : length (dirent n name) = 16%nat.
Proof. unfold dirent. rewrite length_app, length_le. unfold strncpy. by rewrite strncpy_length. Qed.
Lemma length_root files : length (root_bytes files) = (16 * (2 + length files))%nat.
Proof.
  unfold root_bytes. rewrite (length_join_const _ 16); [by rewrite length_fmap; unfold entries; cbn [length]; rewrite length_imap|].
  intros x (e & -> & _)%list_elem_of_fmap. apply length_dirent.
Qed.
Lemma root_snoc files f :
  root_bytes (files ++ [f]) = root_bytes files ++ dirent (Z.of_nat (length files) + 2) (skip_underscore (fst f)).
Proof.
  unfold root_bytes. replace (entries (files ++ [f])) with (entries files ++ [(Z.of_nat (length files) + 2, skip_underscore (fst f))]).
  - rewrite fmap_app, join_app. cbn [fmap list_fmap mjoin list_join fst snd]. by rewrite app_nil_r.
  - unfold entries. rewrite imap_app. cbn [imap app]. by rewrite Nat.add_0_r.
Qed.

(** Appending to the file number [i] of a tree. *)
Lemma iappend_tree s T i t d p :
  image_ok s T -> contents T !! i = Some (t, d) -> (length d + length p <= 140 * 512)%nat ->
  nmeta + need (<[i := (t, d ++ p)]> (contents T)) <= FSSIZE ->
  exists T' s', iappend (Z.of_nat i + 1) p s = Ret tt s' /\ image_ok s' T' /\ contents T' = <[i := (t, d ++ p)]> (contents T).
Proof.
  intros I Hi Hmax Hroom. pose proof Hi as Hc. unfold contents in Hi. rewrite list_lookup_fmap in Hi. destruct (T !! i) as [f|] eqn:Ef; [|done]. injection Hi as <- <-.
  unfold need in Hroom. rewrite (sum_by_insert _ _ _ _ _ Hc) in Hroom. fold (need (contents T)) in Hroom.
  destruct (iappend_spec s T i f p I Ef Hmax) as (bl & s' & E & I').
  - rewrite (im_count _ _ I), need_contents. unfold size_of in Hroom. cbn [snd] in Hroom. rewrite length_app in Hroom. unfold weight. lia.
  - exists (<[i := Mfile (f_type f) bl (f_bytes f ++ p)]> T), s'. split; [done|]. split; [done|]. unfold contents. by rewrite list_fmap_insert.
Qed.

Lemma copy_file_tree chunks : forall s T i t d,
  image_ok s T -> contents T !! i = Some (t, d) -> (length d + length (read_bytes chunks) <= 140 * 512)%nat ->
  nmeta + need (<[i := (t, d ++ read_bytes chunks)]> (contents T)) <= FSSIZE ->
  exists T' s', copy_file (Z.of_nat i + 1) chunks s = Ret tt s' /\ image_ok s' T' /\ contents T' = <[i := (t, d ++ read_bytes chunks)]> (contents T).
Proof.
  assert (Hend : forall s T i t d, image_ok s T -> contents T !! i = Some (t, d) ->
    exists T' s', Ret tt s = @Ret image unit tt s' /\ image_ok s' T' /\ contents T' = <[i := (t, d ++ [])]> (contents T)).
  { intros s T i t d I Hi. exists T, s. split; [done|]. split; [done|]. by rewrite app_nil_r, list_insert_id. }
  induction chunks as [|c chunks IH]; intros s T i t d I Hi Hmax Hroom; [by apply Hend|]. destruct c as [|x c]; [by apply Hend|].
  set (p := x :: c) in *. change (read_bytes (p :: chunks)) with (p ++ read_bytes chunks) in *. rewrite length_app in Hmax. apply lookup_lt_Some in Hi as Hlt.
  change (copy_file (Z.of_nat i + 1) (p :: chunks)) with (iappend (Z.of_nat i + 1) p ;;; copy_file (Z.of_nat i + 1) chunks).
  destruct (iappend_tree s T i t d p I Hi) as (T1 & s1 & E1 & I1 & C1); [lia| |].
  { etransitivity; [|exact Hroom]. unfold need. rewrite !(sum_by_insert _ _ _ _ _ Hi). pose proof (size_mono t t (d ++ p) (d ++ p ++ read_bytes chunks)) as H.
    rewrite !length_app in H. lia. }
  step E1. destruct (IH s1 T1 i t (d ++ p) I1) as (T2 & s2 & E2 & I2 & C2).
  - rewrite C1. by apply list_lookup_insert_eq.
  - rewrite length_app. lia.
  - by rewrite C1, list_insert_insert_eq, <- app_assoc.
  - exists T2, s2. split; [done|]. split; [done|]. by rewrite C2, C1, list_insert_insert_eq, <- app_assoc.
Qed.

(** A file that can be copied. *)
Definition acceptable (f : input) : Prop := slash ∉ fst f /\ snd f <> None /\ (length (file_bytes f) <= 140 * 512)%nat.

Lemma add_file_tree s T files f :
  image_ok s T -> contents T = tree_of files -> acceptable f -> Z.of_nat (length files) + 2 < NINODES ->
  nmeta + need (tree_of (files ++ [f])) <= FSSIZE ->
  exists T' s', add_file 1 f s = Ret tt s' /\ image_ok s' T' /\ contents T' = tree_of (files ++ [f]).
Proof.
  intros I HT (Hsl & Hop & Hmax) Hn Hroom. destruct f as [name [chunks|]]; [|done]. unfold add_file. cbn [fst snd]. rewrite bool_decide_false by done.
  assert (HlT : length T = S (length files)) by (rewrite <- (length_fmap (fun f => (f_type f, f_bytes f))); fold (contents T); rewrite HT; cbn; by rewrite length_fmap).
  destruct (ialloc_spec s T T_FILE I) as (s1 & E1 & I1); [done|lia|]. step E1. set (T1 := T ++ _) in *.
  assert (C1 : contents T1 = tree_of files ++ [(T_FILE, [])]) by (unfold contents, T1; rewrite fmap_app; fold (contents T); by rewrite HT).
  set (e := dirent (Z.of_nat (length T) + 1) (skip_underscore name)).
  assert (Er : root_bytes files ++ e = root_bytes (files ++ [(name, Some chunks)])).
  { rewrite root_snoc. unfold e. do 2 f_equal. lia. }
  assert (Et : tree_of (files ++ [(name, Some chunks)]) = (T_DIR, root_bytes files ++ e) :: ((fun f => (T_FILE, file_bytes f)) <$> files) ++ [(T_FILE, read_bytes chunks)]).
  { unfold tree_of. by rewrite Er, fmap_app. }
  assert (C1' : <[0%nat := (T_DIR, root_bytes files ++ e)]> (contents T1) = (T_DIR, root_bytes files ++ e) :: ((fun f => (T_FILE, file_bytes f)) <$> files) ++ [(T_FILE, [])]) by (by rewrite C1).
  destruct (iappend_tree s1 T1 0 T_DIR (root_bytes files) e I1) as (T2 & s2 & E2 & I2 & C2).
  - by rewrite C1.
  - unfold e. rewrite length_root, length_dirent. unfold NINODES in Hn. lia.
  - etransitivity; [|exact Hroom]. rewrite C1', Et. change (nmeta + (size_of (T_DIR, root_bytes files ++ e) + need (((fun f => (T_FILE, file_bytes f)) <$> files) ++ [(T_FILE, [])])) <=
      nmeta + (size_of (T_DIR, root_bytes files ++ e) + need (((fun f => (T_FILE, file_bytes f)) <$> files) ++ [(T_FILE, read_bytes chunks)]))).
    rewrite !need_app. pose proof (size_mono T_FILE T_FILE [] (read_bytes chunks) ltac:(cbn; lia)). unfold need at 2 4. cbn [sum_by foldr]. lia.
  - change 1 with (Z.of_nat 0 + 1). step E2. rewrite C1' in C2.
    assert (Hi2 : contents T2 !! S (length files) = Some (T_FILE, [])) by (rewrite C2, lookup_cons_ne_0, Nat.pred_succ by done; by rewrite lookup_app_r, length_fmap, Nat.sub_diag by (rewrite length_fmap; lia)).
    assert (C3 : <[S (length files) := (T_FILE, [] ++ read_bytes chunks)]> (contents T2) = tree_of (files ++ [(name, Some chunks)])).
    { rewrite C2, Et. change (<[S (length files) := (T_FILE, [] ++ read_bytes chunks)]> ?l) with (<[S (length files) := (T_FILE, read_bytes chunks)]> l).
      match goal with |- <[S ?k := ?v]> (?a :: ?l) = _ => change (<[S k := v]> (a :: l)) with (a :: <[k := v]> l) end.
      f_equal. rewrite insert_app_r_alt by (rewrite length_fmap; lia). by rewrite length_fmap, Nat.sub_diag. }
    destruct (copy_file_tree chunks s2 T2 (S (length files)) T_FILE [] I2 Hi2) as (T3 & s3 & E3 & I3 & C3'); [done|by rewrite C3|].
    exists T3, s3. rewrite HlT. split; [done|]. split; [done|]. by rewrite C3', C3.
Qed.

Lemma need_tree_mono a b : need (tree_of a) <= need (tree_of (a ++ b)).
Proof.
  unfold tree_of. rewrite fmap_app. change (size_of (T_DIR, root_bytes a) + need ((fun f => (T_FILE, file_bytes f)) <$> a) <=
    size_of (T_DIR, root_bytes (a ++ b)) + need (((fun f => (T_FILE, file_bytes f)) <$> a) ++ ((fun f => (T_FILE, file_bytes f)) <$> b))).
  rewrite need_app. pose proof (need_nonneg ((fun f => (T_FILE, file_bytes f)) <$> b)).
  pose proof (size_mono T_DIR T_DIR (root_bytes a) (root_bytes (a ++ b))) as H1. rewrite !length_root, length_app in H1. lia.
Qed.

Lemma add_files_tree fs : forall s T fs0,
  image_ok s T -> contents T = tree_of fs0 -> Forall acceptable fs -> Z.of_nat (length (fs0 ++ fs)) + 1 < NINODES ->
  nmeta + need (tree_of (fs0 ++ fs)) <= FSSIZE ->
  exists T' s', add_files 1 fs s = Ret tt s' /\ image_ok s' T' /\ contents T' = tree_of (fs0 ++ fs).
Proof.
  induction fs as [|f fs IH]; intros s T fs0 I HT Hf Hn Hroom; cbn [add_files].
  - exists T, s. by rewrite app_nil_r.
  - apply Forall_cons in Hf as [Hf Hfs]. replace (fs0 ++ f :: fs) with ((fs0 ++ [f]) ++ fs) in * by (by rewrite <- app_assoc).
    rewrite !length_app in Hn. cbn [length] in Hn. pose proof (need_tree_mono (fs0 ++ [f]) fs).
    destruct (add_file_tree s T fs0 f I HT Hf) as (T1 & s1 & E1 & I1 & C1); [lia|lia|]. step E1. apply (IH s1 T1); try done. rewrite !length_app. cbn [length]. lia.
Qed.

(** ** The program *)

Lemma zero_sectors_eq n : forall s,
  (length (im_sectors s) + n <= Z.to_nat FSSIZE)%nat ->
  zero_sectors n (Z.of_nat (length (im_sectors s))) s = Ret tt (set_sectors (im_sectors s ++ replicate n zeroes) s).
Proof.
  induction n as [|n IH]; intros s Hl; cbn [zero_sectors]; [rewrite app_nil_r; by destruct s|]. unfold FSSIZE in *.
  unfold wsect at 1. rewrite bind_modify, sector_small by (unfold FSSIZE; lia). rewrite Nat2Z.id.
  replace (S (length (im_sectors s)) - length (im_sectors s))%nat with 1%nat by lia. set (l := <[length (im_sectors s) := zeroes]> _).
  assert (El : l = im_sectors s ++ [zeroes]) by (unfold l; rewrite insert_app_r_alt, Nat.sub_diag by lia; done). rewrite El.
  set (s1 := set_sectors _ s). replace (Z.of_nat (length (im_sectors s)) + 1) with (Z.of_nat (length (im_sectors s1))) by (cbn; rewrite length_app; cbn; lia).
  rewrite IH by (cbn; rewrite length_app; cbn; lia). cbn. by rewrite <- app_assoc.
Qed.

(** The empty image file and the variables of the program. *)
Definition started : image := Image [] 1 0.

Lemma prepared n : Z.of_nat n = FSSIZE ->
  exists s1 s2, zero_sectors n 0 (set_freeblock nmeta started) = Ret tt s1 /\ wsect 1 (splice zeroes 0 super_bytes) s1 = Ret tt s2 /\ image_ok s2 [].
Proof.
  intros Hn. set (s0 := set_freeblock nmeta started). set (s1 := Image (replicate n zeroes) 1 nmeta).
  assert (E : zero_sectors n 0 s0 = Ret tt s1).
  { pose proof (zero_sectors_eq n s0) as H. cbn [s0 im_sectors started set_freeblock length Z.of_nat app] in H. apply H. lia. }
  exists s1.
  assert (Hz : forall b, 0 <= b < FSSIZE -> blk s1 b = zeroes) by (intros b Hb; unfold dblock; cbn [im_sectors s1]; rewrite nth_lookup, lookup_replicate_2 by lia; done).
  assert (Hw : whole s1) by (split; [cbn [im_sectors s1]; by rewrite length_replicate|intros b Hb; by rewrite Hz]).
  assert (H1 : 0 <= 1 < FSSIZE) by done. rewrite (wsect_eq 1 _ s1 Hw H1). eexists. split; [done|]. split; [reflexivity|]. set (d := splice zeroes 0 super_bytes). set (s2 := put_block 1 d s1).
  assert (Hd : length d = BSIZE) by (unfold d; rewrite length_splice by lia; unfold zeroes; by rewrite length_replicate).
  assert (Hb2 : forall b, 0 <= b -> blk s2 b = if b =? 1 then d else blk s1 b) by (intros b Hb; unfold s2; by apply blk_put).
  assert (Hb : forall b, 0 <= b < FSSIZE -> b <> 1 -> blk s2 b = zeroes).
  { intros b Hb Hne. rewrite Hb2 by lia. rewrite (proj2 (Z.eqb_neq b 1) Hne). by apply Hz. }
  assert (Efb : freeblock s2 = 59) by reflexivity. assert (Efi : freeinode s2 = 1) by reflexivity. assert (Ed : splice zeroes 0 super_bytes = d) by reflexivity. clearbody d.
  split; rewrite ?Efb, ?Efi, ?nmeta_eq; try done.
  - by apply whole_put.
  - intros b Hb'. apply Hb; lia.
  - by intros f []%elem_of_nil.
  - intros k Hk. destruct (inode_place k) as [Hp Ho]; [lia|]. change (2 + nlog) with 32 in Hp. change (sb_bmapstart sb) with 58 in Hp.
    unfold on_image. rewrite Hb by (unfold FSSIZE; lia). unfold dinode_at, d_type, get16, get, zeroes. rewrite drop_replicate, take_replicate.
    replace (2 `min` (BSIZE - di_off k))%nat with 2%nat by lia. done.
  - by rewrite Ed, Hb2.
  - intros b Hb'. change (2 + nlog) with 32 in Hb'. apply Hb; [unfold FSSIZE|]; lia.
Qed.

(** The rest of the image with another bitmap. *)
Lemma image_bitmap s T d : image_ok s T -> length d = BSIZE -> image_ok (put_block (sb_bmapstart sb) d s) T.
Proof.
  intros I Hd. change (sb_bmapstart sb) with 58. set (s' := put_block 58 d s). pose proof (im_whole _ _ I) as Hw. pose proof (im_free _ _ I) as Hfr. rewrite nmeta_eq in Hfr.
  assert (H58 : 0 <= 58 < FSSIZE) by done.
  assert (Hb : forall b, 0 <= b -> b <> 58 -> blk s' b = blk s b).
  { intros b Hb Hne. unfold s'. rewrite blk_put by done. by rewrite (proj2 (Z.eqb_neq b 58) Hne). }
  assert (Hi : forall n, 0 <= n < ninodeblocks * IPB -> on_image s' n = on_image s n).
  { intros n Hn. destruct (inode_place n Hn) as [Hp _]. change (2 + nlog) with 32 in Hp. change (sb_bmapstart sb) with 58 in Hp. unfold on_image. by rewrite Hb by lia. }
  assert (Hino : forall i f, T !! i = Some f -> ino s' i = ino s i) by (intros i f Hf; apply Hi, (image_bounds _ _ _ _ I Hf)).
  split; try apply I.
  - by apply whole_put.
  - intros b Hb'. cbn in Hb'. rewrite Hb by lia. by apply (im_zero _ _ I).
  - intros i f Hf. rewrite (Hino i f Hf). eapply filed_frame; [exact (im_filed _ _ I i f Hf)|by apply whole_put|cbn; lia| | |done].
    + intros b Hb'. cbn in Hb'. rewrite Hb by lia. by apply (im_zero _ _ I).
    + intros b Hb'%(gr_range _ _ _ _ (fd_growing _ _ _ _ (im_filed _ _ I i f Hf))). rewrite nmeta_eq in Hb'. apply Hb; lia.
  - intros i f Hf. rewrite (Hino i f Hf). by apply (im_header _ _ I).
  - intros i j f g Hf Hg Hne b. rewrite (Hino i f Hf), (Hino j g Hg). by apply (im_disjoint _ _ I).
  - intros n Hn. cbn in Hn. destruct (im_inodes _ _ I). rewrite Hi by lia. by apply (im_unused _ _ I).
  - rewrite Hb by done. apply I.
  - intros b Hb'. change (2 + nlog) with 32 in Hb'. rewrite Hb by lia. by apply (im_log _ _ I).
Qed.

(** The bits the program sets. *)
Lemma byte_or a k : 0 <= a < 256 -> 0 <= k < 8 -> u8 (Z.lor a (Z.shiftl 1 k)) = Z.lor a (Z.shiftl 1 k) /\ 0 <= Z.lor a (Z.shiftl 1 k) < 256.
Proof.
  intros Ha Hk. rewrite Z.shiftl_1_l. assert (Hp : 0 < 2 ^ k < 256) by (split; [lia|change 256 with (2 ^ 8); apply Z.pow_lt_mono_r; lia]).
  assert (H : 0 <= Z.lor a (2 ^ k) < 256).
  { assert (H0 : 0 <= Z.lor a (2 ^ k)) by (apply Z.lor_nonneg; lia). split; [done|]. destruct (Z.eq_dec (Z.lor a (2 ^ k)) 0) as [->|Hne]; [lia|].
    change 256 with (2 ^ 8). apply Z.log2_lt_pow2; [lia|]. rewrite Z.log2_lor by lia. apply Z.max_lub_lt; [|rewrite Z.log2_pow2; lia].
    destruct (Z.eq_dec a 0) as [->|]; [cbn; lia|]. apply Z.log2_lt_pow2; lia. }
  split; [|done]. unfold u8. by apply Z.mod_small.
Qed.

Lemma balloc_bits_spec n : forall i buf,
  0 <= i -> (i + Z.of_nat n) <= 4096 -> length buf = BSIZE -> is_bytes buf ->
  length (balloc_bits n i buf) = BSIZE /\
  forall j, 0 <= j -> bit_free (balloc_bits n i buf) j = if (i <=? j) && (j <? i + Z.of_nat n) then false else bit_free buf j.
Proof.
  induction n as [|n IH]; intros i buf Hi Hmax Hl Hb; cbn [balloc_bits].
  { split; [done|]. intros j Hj. destruct (Z.leb_spec i j), (Z.ltb_spec j (i + Z.of_nat 0)); cbn [andb]; done || lia. }
  pose proof (Z.mod_pos_bound i 8 ltac:(lia)) as Hm. assert (Hd : 0 <= i / 8 < 512) by (split; [apply Z.div_pos; lia|apply Z.div_lt_upper_bound; lia]).
  assert (Ha : 0 <= bit_byte buf i < 256).
  { unfold bit_byte. rewrite nth_lookup. destruct (lookup_lt_is_Some_2 buf (Z.to_nat (i / 8))) as [v Hv]; [rewrite Hl; unfold BSIZE; lia|]. rewrite Hv.
    by apply (Forall_lookup_1 _ _ _ _ Hb Hv). }
  destruct (byte_or (bit_byte buf i) (i mod 8) Ha Hm) as [Eu Hor]. fold (bit_byte buf i). rewrite Eu. change (<[Z.to_nat (i / 8) := Z.lor (bit_byte buf i) (Z.shiftl 1 (i mod 8))]> buf) with (bit_set buf i).
  destruct (IH (i + 1) (bit_set buf i)) as [Hl' Hf]; [lia|lia|unfold bit_set; by rewrite length_insert|by apply Forall_insert|]. split; [done|].
  intros j Hj. rewrite Hf, bit_free_set by (done || (rewrite Hl; unfold BSIZE; lia)).
  destruct (Z.leb_spec (i + 1) j), (Z.leb_spec i j), (Z.ltb_spec j (i + 1 + Z.of_nat n)), (Z.ltb_spec j (i + Z.of_nat (S n))), (Z.eqb_spec j i); cbn [andb]; done || lia.
Qed.

(** ** The finished image *)

(** The directory after its size has been rounded up. *)
Definition padded (files : list input) : list Z :=
  root_bytes files ++ replicate (512 * (length (root_bytes files) / 512 + 1) - length (root_bytes files)) 0.
Definition final_tree (files : list input) : list (Z * list Z) := (T_DIR, padded files) :: ((fun f => (T_FILE, file_bytes f)) <$> files).

Lemma resize_root s T files :
  image_ok s T -> contents T = tree_of files -> (length (root_bytes files) mod 512 <> 0)%nat ->
  exists T' s', rinode 1 s = Ret (on_image s 1) s /\
    winode 1 (set_d_size (xint (u32 ((xint (d_size (on_image s 1)) / B + 1) * B))) (on_image s 1)) s = Ret tt s' /\
    image_ok s' T' /\ contents T' = final_tree files /\ freeblock s' = freeblock s.
Proof.
  intros I HT Hmod. destruct T as [|f T]; [done|]. injection HT as Et Eb ET. assert (Hf : (f :: T) !! 0%nat = Some f) by done.
  pose proof (image_bounds _ _ _ _ I Hf) as (Hib & _ & Hmax). pose proof (im_filed _ _ I 0 f Hf) as F. pose proof (im_header _ _ I 0 f Hf) as Hh.
  pose proof (f_equal snd Hh : d_size (ino s 0) = _) as E5. cbn [snd] in E5. change (Z.of_nat 0 + 1) with 1 in *. pose proof (im_whole _ _ I) as Hw.
  pose proof (im_free _ _ I) as Hfr. rewrite nmeta_eq in Hfr. pose proof (rinode_eq 1 s Hw Hib) as Er. set (d := f_bytes f) in *. rewrite <- Eb in Hmod.
  pose proof (Nat.div_mod_eq (length d) 512) as Hdm. pose proof (Nat.mod_upper_bound (length d) 512 ltac:(lia)) as Hm. pose proof (nblk_spec (length d)) as Hnb.
  set (k := (length d / 512 + 1)%nat) in *. assert (Ek : nblk (length d) = k) by lia.
  assert (Esz : xint (u32 ((xint (d_size (on_image s 1)) / B + 1) * B)) = Z.of_nat (512 * k)).
  { rewrite E5, (xint_id (Z.of_nat (length d))) by lia. unfold B, BSIZE. rewrite <- (Nat2Z.inj_div (length d) 512).
    replace ((Z.of_nat (length d / 512) + 1) * Z.of_nat 512) with (Z.of_nat (512 * k)) by lia. rewrite u32_id, xint_id by lia. done. }
  rewrite Esz. set (q' := set_d_size (Z.of_nat (512 * k)) (on_image s 1)). set (d' := d ++ replicate (512 * k - length d) 0).
  assert (Hd' : length d' = (512 * k)%nat) by (unfold d'; rewrite length_app, length_replicate; lia).
  assert (Eh : header q' = (f_type f, 0, 0, 1, Z.of_nat (length d'))).
  { rewrite Hd'. pose proof (f_equal fst Hh) as H. unfold header, q'. cbn [set_d_size d_type d_major d_minor d_nlink d_size] in *. cbn [header fst] in H. by rewrite H. }
  assert (F' : filed s q' (f_blocks f) d').
  { destruct F as [[G1 [L1 L2 L3 L4 L5 L6 L7] G3 G4 G5 G6] F2 F3]. split; [|done|rewrite F3, Hd', Ek; pose proof (nblk_spec (512 * k)); lia]. split; try done.
    split; try done; rewrite ?Hd'; [unfold BSIZE; lia|]. rewrite L6, F3, Ek. unfold d'. rewrite <- app_assoc. unfold BSIZE. by rewrite Nat.sub_diag, app_nil_r. }
  destruct (winode_spec 1 q' s Hw Hib) as (E' & Hw2 & Hb2 & Hi2).
  { eapply filed_dinode; [exact F'|exact Eh| |lia]. apply (im_types _ _ I). left. }
  change (2 + nlog) with 32 in *. change (sb_bmapstart sb) with 58 in *. set (s2 := put_inode _ _ _) in *. exists (Mfile (f_type f) (f_blocks f) d' :: T), s2.
  split; [exact Er|]. split; [exact E'|]. split; [|split; [|done]].
  - assert (Eino : on_image s2 1 = q') by (by rewrite Hi2).
    apply (image_update s s2 (f :: T) 0 f (Mfile (f_type f) (f_blocks f) d')); change (Z.of_nat 0 + 1) with 1; cbn [f_type f_blocks f_bytes]; rewrite ?Eino; try done.
    + intros b Hb. cbn in Hb. rewrite Hb2 by lia. by apply (im_zero _ _ I).
    + cbn. lia.
    + eapply filed_frame; [exact F'|done|cbn; lia| | |done]; intros b Hb; [cbn in Hb; rewrite Hb2 by lia; by apply (im_zero _ _ I)|].
      apply (gr_range _ _ _ _ (fd_growing _ _ _ _ F')) in Hb. rewrite nmeta_eq in Hb. apply Hb2; lia.
    + unfold weight. cbn [f_bytes]. fold d. rewrite Hd', Ek. replace (nblk (512 * k)) with k by (pose proof (nblk_spec (512 * k)); lia). cbn. lia.
    + intros b Hb. by left.
    + intros m Hm' Hne. rewrite Hi2 by done. by rewrite (proj2 (Z.eqb_neq m 1) Hne).
    + intros b Hb _. rewrite nmeta_eq in Hb. apply Hb2; lia.
    + intros b Hb. change (2 + nlog) with 32 in Hb. apply Hb2; lia.
  - unfold contents, final_tree, padded. cbn [fmap list_fmap f_type f_bytes]. by rewrite <- Eb, Et, <- ET.
Qed.

(** What the command line must satisfy for the image to be made: every file can be copied,
    there are inodes and blocks for all of them, and the directory does not end where a
    block ends. *)
Record buildable (files : list input) : Prop := {
  bd_files : Forall acceptable files;
  bd_inodes : Z.of_nat (length files) + 1 < NINODES;
  bd_blocks : nmeta + need (tree_of files) <= FSSIZE;
  bd_root : (length (root_bytes files) mod 512 <> 0)%nat
}.

Lemma tree_nil_blocks : nmeta + need (tree_of []) <= FSSIZE.
Proof. apply Z.leb_le. vm_compute. reflexivity. Qed.

(** The empty root directory. *)
Lemma make_root s : image_ok s [] ->
  exists s1 s2 s3 T, ialloc T_DIR s = Ret 1 s1 /\ iappend 1 (dirent 1 [46]) s1 = Ret tt s2 /\ iappend 1 (dirent 1 [46; 46]) s2 = Ret tt s3 /\
    image_ok s3 T /\ contents T = tree_of [].
Proof.
  intros I. destruct (ialloc_spec s [] T_DIR I) as (s1 & E1 & I1); [done|done|]. cbn [app length] in I1. set (T1 := [Mfile T_DIR [] []]) in *.
  assert (Hneed : forall d, (length d <= 32)%nat -> nmeta + need [(T_DIR, d)] <= FSSIZE).
  { intros d Hd. etransitivity; [|exact tree_nil_blocks]. pose proof (size_mono T_DIR T_DIR d (root_bytes [])) as H. rewrite length_root in H. cbn [length] in H.
    change (need [(T_DIR, d)]) with (size_of (T_DIR, d) + 0). change (need (tree_of [])) with (size_of (T_DIR, root_bytes []) + 0). lia. }
  assert (Hstep : forall s T d p, image_ok s T -> contents T = [(T_DIR, d)] -> (length (d ++ p) <= 32)%nat ->
    exists T' s', iappend 1 p s = Ret tt s' /\ image_ok s' T' /\ contents T' = [(T_DIR, d ++ p)]).
  { intros s' T d p I' C Hl. destruct (iappend_tree s' T 0 T_DIR d p I') as (T' & s'' & E & I'' & C').
    - by rewrite C.
    - rewrite length_app in Hl. lia.
    - rewrite C. exact (Hneed (d ++ p) Hl).
    - exists T', s''. rewrite C in C'. done. }
  destruct (Hstep s1 T1 [] (dirent 1 [46]) I1) as (T2 & s2 & E2 & I2 & C2); [done|cbn [app]; rewrite length_dirent; lia|].
  destruct (Hstep s2 T2 (dirent 1 [46]) (dirent 1 [46; 46]) I2 C2) as (T3 & s3 & E3 & I3 & C3); [rewrite length_app, !length_dirent; lia|].
  exists s1, s2, s3, T3. split_and!; try done.
Qed.

Lemma build_spec files : buildable files ->
  exists T s, build files started = Ret tt s /\ image_ok s T /\ contents T = final_tree files /\
    forall b, 0 <= b -> bit_free (blk s (sb_bmapstart sb)) b = (freeblock s <=? b).
Proof.
  intros [Hacc Hn Hroom Hmod]. unfold build. rewrite bind_modify. destruct (prepared (Z.to_nat FSSIZE)) as (s1 & s2 & E1 & E2 & I2); [by rewrite Z2Nat.id|].
  step E1. step E2. destruct (make_root s2 I2) as (s3 & s4 & s5 & T5 & E3 & E4 & E5 & I5 & C5). step E3. change (negb (1 =? ROOTINO)) with false. cbv iota. step E4. step E5.
  destruct (add_files_tree files s5 T5 [] I5 C5 Hacc) as (T6 & s6 & E6 & I6 & C6); [done|done|]. step E6.
  destruct (resize_root s6 T6 files I6 C6 Hmod) as (T7 & s7 & Er & E7 & I7 & C7 & Ef). step Er. cbv zeta. step E7. rewrite bind_gets.
  pose proof (im_free _ _ I7) as Hfr. rewrite nmeta_eq in Hfr. unfold FSSIZE in Hfr.
  assert (Es : s32 (freeblock s7) = freeblock s7) by (unfold s32; cbv zeta; rewrite u32_id by lia; by rewrite (proj2 (Z.ltb_lt _ _)) by lia). rewrite Es.
  destruct (balloc_bits_spec (Z.to_nat (freeblock s7)) 0 zeroes) as [Hl Hf]; [done|lia|done|by apply Forall_replicate|]. set (d := balloc_bits _ _ _) in *.
  assert (H58 : 0 <= sb_bmapstart sb < FSSIZE) by done.
  exists T7, (put_block (sb_bmapstart sb) d s7). split; [|split; [by apply image_bitmap|split; [done|]]].
  - unfold balloc. rewrite (proj2 (Z.leb_gt _ _)) by (unfold B, BSIZE; lia). by apply wsect_eq; [apply I7|].
  - intros b Hb. rewrite blk_put by (done || apply I7). rewrite Z.eqb_refl, Hf by done. cbn [freeblock put_block set_sectors].
    assert (Ez : bit_free zeroes b = true).
    { unfold bit_free, bit_byte, zeroes. rewrite nth_lookup. destruct (replicate BSIZE 0 !! Z.to_nat (b / 8)) as [v|] eqn:Ev; [apply lookup_replicate in Ev as [-> _]|]; done. }
    rewrite Ez, Z2Nat.id, Z.add_0_l, (proj2 (Z.leb_le 0 b) Hb) by lia. cbn [andb]. rewrite Z.leb_antisym. by destruct (b <? freeblock s7).
Qed.

(** ** Reading the image *)

Lemma laid_addr c q bl d ip k : laid c q bl d -> i_addrs ip = d_addrs q -> (k < length bl)%nat -> file_addr c ip (Z.of_nat k) = nth k bl 0.
Proof.
  intros [L1 L2 L3 L4 _ _ _] Ea Hk. unfold file_addr, addr_at, NDIRECT. rewrite Ea. destruct (Z.ltb_spec (Z.of_nat k) 12).
  - rewrite Nat2Z.id. apply L3. lia.
  - destruct L4 as [[_ L4]|[_ L4]]; [lia|]. unfold d_addr in L4. replace (Z.to_nat (4 * (Z.of_nat k - 12))) with (4 * (k - 12))%nat by lia.
    unfold NDIRECT in L4. rewrite L4 by lia. f_equal. lia.
Qed.

Lemma laid_data c q bl d ip off n : laid c q bl d -> i_addrs ip = d_addrs q -> (off + n <= length d)%nat ->
  file_data c ip (Z.of_nat off) n = take n (drop off d).
Proof.
  intros L Ea Hn. pose proof L as [_ _ _ _ L5 L6 L7]. apply list_eq. intros i. destruct (decide (i < n)%nat) as [Hi|Hi].
  2: { rewrite lookup_take_ge by lia. apply lookup_ge_None. rewrite length_file_data. lia. }
  rewrite lookup_take_lt, lookup_drop by done. unfold file_data. rewrite list_lookup_fmap, lookup_seq_lt by done. cbn [fmap option_fmap option_map Nat.add].
  set (k := (off + i)%nat). replace (Z.of_nat off + Z.of_nat i) with (Z.of_nat k) by lia. unfold file_byte. rewrite <- Nat2Z.inj_mod, <- Nat2Z.inj_div, Nat2Z.id.
  pose proof (Nat.div_mod_eq k BSIZE) as Hdm. pose proof (Nat.mod_upper_bound k BSIZE ltac:(done)) as Hm.
  assert (Hk : (k / BSIZE < length bl)%nat) by (apply Nat.Div0.div_lt_upper_bound; lia). rewrite (laid_addr c q bl d) by done.
  destruct (lookup_lt_is_Some_2 bl (k / BSIZE)) as [b Hb]; [done|]. rewrite (nth_lookup bl), Hb. cbn [default from_option id].
  destruct (lookup_lt_is_Some_2 (c b) (k mod BSIZE)) as [v Hv]; [rewrite L7; [done|by eapply list_elem_of_lookup_2]|]. rewrite nth_lookup, Hv. cbn [default from_option id].
  assert (Hj : mjoin (c <$> bl) !! k = Some v).
  { apply (join_lookup_Some_same_length BSIZE); [apply Forall_forall; intros x (y & -> & Hy)%list_elem_of_fmap; by apply L7|].
    exists (k / BSIZE)%nat, (c b), (k mod BSIZE)%nat. rewrite list_lookup_fmap, Hb. split_and!; try done. lia. }
  rewrite L6, lookup_app_l in Hj by lia. by rewrite Hj.
Qed.

Lemma header_fields q t n : header q = (t, 0, 0, 1, n) -> d_type q = t /\ d_nlink q = 1 /\ d_size q = n.
Proof. by intros [= -> _ _ -> ->]. Qed.
Lemma contents_lookup T i t d : contents T !! i = Some (t, d) -> exists f, T !! i = Some f /\ f_type f = t /\ f_bytes f = d.
Proof. unfold contents. rewrite list_lookup_fmap. destruct (T !! i) as [f|]; [|done]. intros [= <- <-]. by exists f. Qed.

Lemma main_build img files s : main (img :: files) true s = build files s.
Proof. reflexivity. Qed.

(** C21. mkfs makes the file system it is asked for.  If the files can be copied and there
    are inodes and blocks for them, the program ends and leaves an image of [FSSIZE]
    blocks with the superblock of the layout and an empty log.  Inode 1 is the root
    directory, with the entries [.] and [..] and one for each file, rounded up with free
    entries to whole blocks; inode number [k + 2] is a file with the bytes of the [k]-th
    argument.  Every block of a file is in the data area, in front of [freeblock], and no
    two files, and no two places of one file, share a block; the bitmap has exactly the
    blocks in front of [freeblock] as used. *)
Theorem mkfs_correct img files :
  buildable files ->
  exists s, main (img :: files) true started = Ret tt s /\ Z.of_nat (length (im_sectors s)) = FSSIZE /\ sb_of (blk s 1) = sb /\
    (forall b, 2 <= b < 2 + nlog -> blk s b = zeroes) /\
    (forall i t d, final_tree files !! i = Some (t, d) ->
       let q := ino s i in d_type q = t /\ d_nlink q = 1 /\ d_size q = Z.of_nat (length d) /\ file_data (blk s) (as_inode q) 0 (length d) = d) /\
    (forall i t d k, final_tree files !! i = Some (t, d) -> (k < nblk (length d))%nat ->
       nmeta <= file_addr (blk s) (as_inode (ino s i)) (Z.of_nat k) < freeblock s /\
       forall j t' d' m, final_tree files !! j = Some (t', d') -> (m < nblk (length d'))%nat ->
         file_addr (blk s) (as_inode (ino s i)) (Z.of_nat k) = file_addr (blk s) (as_inode (ino s j)) (Z.of_nat m) -> i = j /\ k = m) /\
    (forall b, 0 <= b -> bit_free (blk s (sb_bmapstart sb)) b = (freeblock s <=? b)).
Proof.
  intros Hb. destruct (build_spec files Hb) as (T & s & E & I & C & Hbits). exists s. rewrite <- C.
  assert (Haddr : forall i t d k, contents T !! i = Some (t, d) -> (k < nblk (length d))%nat ->
    exists f, T !! i = Some f /\ f_bytes f = d /\ f_blocks f !! k = Some (file_addr (blk s) (as_inode (ino s i)) (Z.of_nat k))).
  { intros i t d k Hi Hk. destruct (contents_lookup T i t d Hi) as (f & Hf & _ & <-). exists f. split; [done|]. split; [done|].
    destruct (im_filed _ _ I i f Hf) as [G _ Hl]. rewrite (laid_addr _ _ _ _ (as_inode (ino s i)) k (gr_laid _ _ _ _ G) eq_refl) by lia.
    destruct (lookup_lt_is_Some_2 (f_blocks f) k) as [b Eb]; [lia|]. by rewrite nth_lookup, Eb. }
  split; [by rewrite main_build|]. split; [exact (wh_size _ (im_whole _ _ I))|]. split; [rewrite (im_super _ _ I); vm_compute; reflexivity|]. split; [exact (im_log _ _ I)|].
  split; [|split; [|exact Hbits]].
  - intros i t d Hi. destruct (contents_lookup T i t d Hi) as (f & Hf & <- & <-). cbv zeta. pose proof (im_header _ _ I i f Hf) as Hh.
    pose proof (fd_growing _ _ _ _ (im_filed _ _ I i f Hf)) as G. destruct (header_fields _ _ _ Hh) as (E1 & E2 & E3).
    split; [exact E1|]. split; [exact E2|]. split; [exact E3|]. set (q := ino s i) in *. clearbody q.
    pose proof (laid_data (blk s) q _ _ (as_inode q) 0 (length (f_bytes f)) (gr_laid _ _ _ _ G) eq_refl) as H. rewrite drop_0, take_ge in H by lia. apply H. lia.
  - intros i t d k Hi Hk. destruct (Haddr i t d k Hi Hk) as (f & Hf & Ef & Ek). pose proof (fd_growing _ _ _ _ (im_filed _ _ I i f Hf)) as G.
    assert (Hown : file_addr (blk s) (as_inode (ino s i)) (Z.of_nat k) ∈ owns s i f) by (apply elem_of_app; right; exact (list_elem_of_lookup_2 _ _ _ Ek)).
    split; [exact (gr_range _ _ _ _ G _ Hown)|]. intros j t' d' m Hj Hm Eq. destruct (Haddr j t' d' m Hj Hm) as (g & Hg & Eg & Em). destruct (decide (i = j)) as [<-|Hne].
    + split; [done|]. rewrite Hf in Hg. injection Hg as <-. rewrite <- Eq in Em. pose proof (gr_nodup _ _ _ _ G) as (_ & _ & Hnd)%NoDup_app.
      exact (NoDup_lookup _ _ _ _ Hnd Ek Em).
    + exfalso. apply (im_disjoint _ _ I i j f g Hf Hg Hne _ Hown). rewrite Eq. apply elem_of_app. right. exact (list_elem_of_lookup_2 _ _ _ Em).
Qed.

(** ** A small image *)

Module Example.
(** Two files, the first in two blocks and named with an underscore. *)
Definition files : list input := [([95; 97], Some [replicate 512 7; [8; 9]]); ([98], Some [[104; 105]])].

Lemma ok : buildable files.
Proof.
  split.
  - assert (H : forall f, acceptable f <-> bool_decide (slash ∉ fst f) && bool_decide (snd f <> None) && (length (file_bytes f) <=? Z.to_nat 71680)%nat = true).
    { intros f. unfold acceptable. rewrite !andb_true_iff, !bool_decide_eq_true, Nat.leb_le. tauto. }
    apply Forall_cons. split; [|apply Forall_cons; split; [|constructor]]; apply H; vm_compute; reflexivity.
  - done.
  - apply Z.leb_le. vm_compute. reflexivity.
  - vm_compute. discriminate.
Qed.

Lemma mkfs_correct_witness :
  exists s, main (([], None) :: files) true started = Ret tt s /\ d_size (on_image s 2) = 514 /\
    file_data (blk s) (as_inode (on_image s 3)) 0 2 = [104; 105] /\ bit_free (blk s 58) 59 = (freeblock s <=? 59).
Proof.
  destruct (mkfs_correct ([], None) files ok) as (s & E & _ & _ & _ & Hf & _ & Hb). exists s. split; [exact E|].
  destruct (Hf 1%nat T_FILE (replicate 512 7 ++ [8; 9])) as (_ & _ & H1 & _); [vm_compute; reflexivity|].
  destruct (Hf 2%nat T_FILE [104; 105]) as (_ & _ & _ & H2); [vm_compute; reflexivity|].
  split; [exact H1|]. split; [exact H2|]. apply Hb. lia.
Defined.
End Example.
