(* ===== verification/FsImage.v ===== *)
(** * The kernel on an image of mkfs

    The file system code of the kernel on a disk that holds an image made by mkfs.c: it
    finds the files by their names and reads the bytes they were made from. *)

From S2P Require Import Prelude Mmu Mem Cstring Blk FsState Bio BioSpec Log LogSpec LogProps LogOps Fs FsSpec FsProps FsRead FsPath Mkfs MkfsFile MkfsProps.

(** ** Directory entries *)

Lemma strncpy_name name : forall n i, 0 ∉ name -> (i <= length name)%nat ->
  cname (strncpy_loop (arr (name ++ [0])) (Z.of_nat i) n) = take n (drop i name).
Proof.
  induction n as [|n IH]; intros i H0 Hi; [done|]. cbn [strncpy_loop]. unfold arr at 1. rewrite Nat2Z.id. destruct (decide (i < length name)%nat) as [Hlt|Hge].
  - destruct (lookup_lt_is_Some_2 name i Hlt) as [c Hc]. rewrite lookup_app_l, Hc by done. cbn [default from_option id].
    assert (Hc0 : c <> 0) by (intros ->; by apply H0, (list_elem_of_lookup_2 _ i)). rewrite (proj2 (Z.eqb_neq c 0) Hc0).
    unfold arr. rewrite Nat2Z.id, lookup_app_l, Hc by done. cbn [default from_option id cname]. rewrite (proj2 (Z.eqb_neq c 0) Hc0).
    fold (arr (name ++ [0])). replace (Z.of_nat i + 1) with (Z.of_nat (S i)) by lia. rewrite IH by (done || lia). rewrite (drop_S _ c i Hc). done.
  - assert (i = length name) as -> by lia. rewrite lookup_app_r, Nat.sub_diag by lia. cbn. by rewrite drop_ge, take_nil by lia.
Qed.

Lemma dirent_inum n name : 0 <= n < 2 ^ 16 -> de_inum (dirent n name) = n.
Proof. intros Hn. unfold de_inum, dirent, get16. rewrite (get_le 2), xshort_id by done. by apply Z.mod_small. Qed.
Lemma dirent_name n name : 0 ∉ name -> cname (de_name (dirent n name)) = take 14 name.
Proof.
  intros H0. unfold de_name, dirent. rewrite drop_app_length' by (by rewrite length_le). unfold strncpy. rewrite take_ge by (rewrite strncpy_length; done).
  pose proof (strncpy_name name 14 0 H0 ltac:(lia)) as H. by rewrite drop_0 in H.
Qed.

(** The [k]-th 16 bytes of a directory. *)
Lemma dirent_at (l : list (list Z)) n k :
  (forall x, x ∈ l -> length x = 16%nat) -> (16 * (k + 1) <= 16 * length l + n)%nat ->
  take 16 (drop (16 * k) (mjoin l ++ replicate n 0)) = default (replicate 16 0) (l !! k).
Proof.
  intros Hl. revert k. induction l as [|x l IH]; intros k Hk.
  - cbn [mjoin list_join app]. rewrite drop_replicate, take_replicate. cbn [length] in Hk. rewrite lookup_nil. cbn [default from_option]. f_equal. lia.
  - assert (Hx : length x = 16%nat) by (apply Hl; left). change (mjoin (x :: l)) with (x ++ mjoin l). rewrite <- app_assoc. destruct k as [|k].
    + rewrite Nat.mul_0_r, drop_0, take_app_length' by done. done.
    + replace (16 * S k)%nat with (length x + 16 * k)%nat by lia. rewrite <- drop_drop, drop_app_length. cbn [lookup list_lookup]. apply IH; [set_solver|].
      cbn [length] in Hk. lia.
Qed.

(** The inode number the root directory has for a name: that of the first entry whose
    name agrees in the first 14 characters. *)
Definition lookup_name (files : list input) (e : list Z) : option Z :=
  fst ∘ snd <$> list_find (fun x => take 14 (snd x) = take 14 e) (entries files).

Lemma find_entries (l : list (Z * list Z)) m (e : list Z) :
  (forall x, x ∈ l -> 0 < fst x < 2 ^ 16 /\ 0 ∉ snd x) ->
  fst ∘ snd <$> list_find (fun x => fst x <> 0 /\ cname (snd x) = take 14 e)
    (((fun x => (de_inum (dirent (fst x) (snd x)), de_name (dirent (fst x) (snd x)))) <$> l) ++ replicate m (de_inum (replicate 16 0), de_name (replicate 16 0))) =
  fst ∘ snd <$> list_find (fun x => take 14 (snd x) = take 14 e) l.
Proof.
  induction l as [|x l IH]; intros Hl.
  - cbn [fmap list_fmap app list_find]. destruct (list_find _ (replicate m _)) as [[k y]|] eqn:E; [|done]. apply list_find_Some in E as (Hk & [H0 _] & _).
    apply lookup_replicate in Hk as [-> _]. done.
  - destruct (Hl x ltac:(left)) as [Hx H0]. cbn [fmap list_fmap app list_find]. specialize (IH ltac:(set_solver)).
    rewrite dirent_inum by lia. cbn [fst snd]. rewrite dirent_name by done. destruct (decide (take 14 (snd x) = take 14 e)) as [He|He].
    + destruct (decide (fst x <> 0 /\ take 14 (snd x) = take 14 e)) as [|Hn]; [cbn; done|]. exfalso. apply Hn. split; [lia|done].
    + destruct (decide (fst x <> 0 /\ take 14 (snd x) = take 14 e)) as [[_ ?]|]; [done|].
      destruct (list_find (fun x => fst x <> 0 /\ cname (snd x) = take 14 e) _) as [[]|], (list_find (fun x => take 14 (snd x) = take 14 e) l) as [[]|]; done.
Qed.

(** ** The image on the disk of the kernel *)

Section Mounted.
Context (files : list input) (Hb : buildable files) (Hnul : forall f, f ∈ files -> 0 ∉ fst f).
Context (im : image) (T : list mfile) (I : image_ok im T) (C : contents T = final_tree files).
Context (s : fs) (Ed : s_disk s = im_sectors im) (Esb : s_sb s = sb) (Ec : forall k, content s k = dblock (im_sectors im) k).

Lemma inode_disk n : of_inode (disk_inode s n) = on_image im n.
Proof using Esb Ec. unfold disk_inode, load. rewrite <- dinode_at_from. cbn [i_inum]. by rewrite Ec, Esb. Qed.

Lemma inode_fields i f : T !! i = Some f ->
  i_type (disk_inode s (Z.of_nat i + 1)) = f_type f /\ i_nlink (disk_inode s (Z.of_nat i + 1)) = 1 /\
  i_size (disk_inode s (Z.of_nat i + 1)) = Z.of_nat (length (f_bytes f)) /\ i_addrs (disk_inode s (Z.of_nat i + 1)) = d_addrs (ino im i).
Proof using I Esb Ec.
  intros Hf. pose proof (inode_disk (Z.of_nat i + 1)) as E. destruct (header_fields _ _ _ (im_header _ _ I i f Hf)) as (E1 & E2 & E3). rewrite <- E in E1, E2, E3.
  split_and!; [exact E1|exact E2|exact E3|]. by rewrite <- E.
Qed.

Lemma file_mapped i f ip bn : T !! i = Some f -> i_addrs ip = d_addrs (ino im i) ->
  0 <= bn < (Z.of_nat (length (f_bytes f)) + Z.of_nat BSIZE - 1) / Z.of_nat BSIZE -> mapped s ip bn.
Proof using I Ed Ec.
  intros Hf Ea Hbn. destruct (im_filed _ _ I i f Hf) as [G Ht Hl]. pose proof (gr_laid _ _ _ _ G) as L. pose proof L as [_ L2 _ L4 _ _ L7].
  pose proof (nblk_spec (length (f_bytes f))) as Hn. unfold BSIZE in Hbn. assert (Hk : (Z.to_nat bn < length (f_blocks f))%nat).
  { rewrite Hl. pose proof (Z.div_mod (Z.of_nat (length (f_bytes f)) + Z.of_nat 512 - 1) (Z.of_nat 512) ltac:(lia)).
    pose proof (Z.mod_pos_bound (Z.of_nat (length (f_bytes f)) + Z.of_nat 512 - 1) (Z.of_nat 512) ltac:(lia)). lia. }
  destruct (lookup_lt_is_Some_2 _ _ Hk) as [b Eb]. assert (Hin : b ∈ f_blocks f) by (exact (list_elem_of_lookup_2 _ _ _ Eb)).
  assert (Efa : file_addr (content s) ip bn = b).
  { rewrite (file_addr_ext (dblock (im_sectors im)) (content s) ip bn Ec). rewrite <- (Z2Nat.id bn) by lia.
    rewrite (laid_addr _ _ _ _ ip (Z.to_nat bn) L Ea Hk), nth_lookup, Eb. done. }
  assert (Hown : forall x, x ∈ owned (ino im i) (f_blocks f) -> x <> 0 /\ on_disk s x).
  { intros x Hx%(gr_range _ _ _ _ G). pose proof (gr_free _ _ _ _ G). rewrite nmeta_eq in *. unfold on_disk. rewrite Ed, (wh_size _ (im_whole _ _ I)). lia. }
  unfold mapped. rewrite Efa, Ec. destruct (Hown b ltac:(apply elem_of_app; by right)) as [Hb0 Hbd].
  split; [unfold MAXFILE, NDIRECT, NINDIRECT; lia|]. split; [done|]. split; [done|]. split; [by apply L7|]. unfold NDIRECT. intros H12.
  unfold addr_at. rewrite Ea. destruct L4 as [[_ L4]|[L4 _]]; [lia|]. apply Hown. unfold owned. rewrite (proj2 (Z.eqb_neq _ 0) L4). left.
Qed.

Lemma entry_range x : x ∈ entries files -> 0 < fst x < 2 ^ 16 /\ fst x <= Z.of_nat (length files) + 1 /\ 0 ∉ snd x.
Proof using Hb Hnul.
  pose proof (bd_inodes _ Hb) as Hn. unfold NINODES in Hn. intros [->|[->|Hx]%elem_of_cons]%elem_of_cons; [split; [done|]; split; [cbn; lia|]; by apply (bool_decide_unpack _)..|].
  apply elem_of_lookup_imap in Hx as (k & f & -> & Hk). cbn [fst snd]. apply lookup_lt_Some in Hk as Hlt. split; [lia|]. split; [lia|].
  pose proof (Hnul f (list_elem_of_lookup_2 _ _ _ Hk)) as H0. unfold skip_underscore. destruct (fst f) as [|c l]; [done|]. apply not_elem_of_cons in H0 as [Hc Hl].
  destruct (c =? underscore); [done|]. by apply not_elem_of_cons.
Qed.

Lemma root_file : exists f, T !! 0%nat = Some f /\ f_type f = T_DIR /\ f_bytes f = padded files.
Proof using C. apply contents_lookup. by rewrite C. Qed.

Lemma root_list : exists m,
  dir_list (content s) (disk_inode s 1) =
  ((fun x => (de_inum (dirent (fst x) (snd x)), de_name (dirent (fst x) (snd x)))) <$> entries files) ++ replicate m (de_inum (replicate 16 0), de_name (replicate 16 0)).
Proof using I C Esb Ec.
  destruct root_file as (f & Hf & _ & Ef). destruct (inode_fields 0 f Hf) as (_ & _ & Esz & Ea). change (Z.of_nat 0 + 1) with 1 in *.
  rewrite (dir_list_ext (dblock (im_sectors im)) (content s) _ Ec). unfold dir_list. rewrite Esz, Ef. pose proof (length_root files) as Hlr. rewrite <- Ef.
  set (R := root_bytes files) in *. set (k := (length R / 512 + 1)%nat). pose proof (Nat.div_mod_eq (length R) 512). pose proof (Nat.mod_upper_bound (length R) 512 ltac:(lia)).
  assert (Hlp : length (f_bytes f) = (512 * k)%nat) by (rewrite Ef; unfold padded; fold R; fold k; rewrite length_app, length_replicate; lia).
  assert (Hne : length (entries files) = (2 + length files)%nat) by (unfold entries; cbn [length]; by rewrite length_imap).
  exists (32 * k - length (entries files))%nat. rewrite Hlp. replace (Z.to_nat (Z.of_nat (512 * k) / DIRENT_SIZE)) with (32 * k)%nat.
  2: { unfold DIRENT_SIZE. replace (Z.of_nat (512 * k)) with (Z.of_nat (32 * k) * 16) by lia. rewrite Z.div_mul by lia. by rewrite Nat2Z.id. }
  apply list_eq. intros j. rewrite list_lookup_fmap. destruct (decide (j < 32 * k)%nat) as [Hj|Hj].
  2: { rewrite lookup_seq_ge by lia. symmetry. apply lookup_ge_None. rewrite length_app, length_fmap, length_replicate. lia. }
  rewrite lookup_seq_lt by done. cbn [fmap option_fmap option_map Nat.add]. unfold dir_entry. destruct (im_filed _ _ I 0 f Hf) as [G _ _].
  assert (Ed16 : file_data (dblock (im_sectors im)) (disk_inode s 1) (DIRENT_SIZE * Z.of_nat j) 16 = default (replicate 16 0) (((fun e => dirent (fst e) (snd e)) <$> entries files) !! j)).
  { replace (DIRENT_SIZE * Z.of_nat j) with (Z.of_nat (16 * j)) by (unfold DIRENT_SIZE; lia). rewrite (laid_data _ _ _ _ _ (16 * j) 16 (gr_laid _ _ _ _ G) Ea) by lia.
    rewrite Ef. unfold padded. fold R. fold k. unfold R at 1, root_bytes. apply dirent_at; [intros x (e & -> & _)%list_elem_of_fmap; apply length_dirent|].
    rewrite length_fmap. fold R. lia. }
  rewrite Ed16, list_lookup_fmap. destruct (decide (j < length (entries files))%nat) as [Hje|Hje].
  - destruct (lookup_lt_is_Some_2 _ _ Hje) as [e He]. rewrite He, lookup_app_l, list_lookup_fmap, He by (by rewrite length_fmap). done.
  - rewrite (lookup_ge_None_2 (entries files)) by lia. rewrite lookup_app_r by (rewrite length_fmap; lia). rewrite lookup_replicate_2 by (rewrite length_fmap; lia). done.
Qed.

Lemma root_child e : child s 1 e = lookup_name files e.
Proof using Hb Hnul I C Esb Ec.
  destruct root_file as (f & Hf & Ety & _). destruct (inode_fields 0 f Hf) as (Et & _). change (Z.of_nat 0 + 1) with 1 in Et.
  unfold child. cbv zeta. rewrite Et, Ety. change (T_DIR =? T_DIR) with true. cbv iota. destruct root_list as [m ->]. apply find_entries.
  intros x Hx. by destruct (entry_range x Hx) as (H1 & _ & H3).
Qed.

(** The inodes of the image. *)
Definition image_inode (n : Z) : Prop := 1 <= n <= Z.of_nat (length files) + 1.

Lemma image_inode_file n : image_inode n -> exists i f, n = Z.of_nat i + 1 /\ T !! i = Some f /\ (f_type f = T_DIR /\ i = 0%nat /\ f_bytes f = padded files \/ f_type f = T_FILE).
Proof using C.
  intros Hn. unfold image_inode in Hn. assert (Hl : length T = S (length files)).
  { rewrite <- (length_fmap (fun f => (f_type f, f_bytes f))). fold (contents T). rewrite C. cbn. by rewrite length_fmap. }
  destruct (lookup_lt_is_Some_2 T (Z.to_nat (n - 1))) as [f Hf]; [lia|]. exists (Z.to_nat (n - 1)), f. split; [lia|]. split; [done|].
  assert (Hc : contents T !! Z.to_nat (n - 1) = Some (f_type f, f_bytes f)) by (unfold contents; by rewrite list_lookup_fmap, Hf). rewrite C in Hc.
  destruct (Z.to_nat (n - 1)) as [|j]; [left; by injection Hc as <- <-|right]. change (((fun f => (T_FILE, file_bytes f)) <$> files) !! j = Some (f_type f, f_bytes f)) in Hc. rewrite list_lookup_fmap in Hc.
  destruct (files !! j); [|done]. by injection Hc as <- _.
Qed.

Lemma image_tree : tree s image_inode.
Proof using Hb Hnul I C Ed Esb Ec.
  assert (Hino : forall n, image_inode n -> 0 <= n < ninodeblocks * IPB).
  { intros n Hn. unfold image_inode in Hn. pose proof (bd_inodes _ Hb) as H. unfold NINODES in H. change (ninodeblocks * IPB) with 208. lia. }
  split; intros n Hn.
  - destruct (inode_place n (Hino n Hn)) as [Hp _]. change (2 + nlog) with 32 in Hp. change (sb_bmapstart sb) with 58 in Hp. unfold on_disk. rewrite Ed, Esb, (wh_size _ (im_whole _ _ I)). unfold FSSIZE. lia.
  - destruct (image_inode_file n Hn) as (i & f & -> & Hf & Hty). destruct (inode_fields i f Hf) as (-> & _). by destruct Hty as [[-> _]| ->].
  - destruct (image_inode_file n Hn) as (i & f & -> & Hf & Hty). destruct (inode_fields i f Hf) as (_ & -> & _). done.
  - intros Ht. destruct (image_inode_file n Hn) as (i & f & -> & Hf & Hty). destruct (inode_fields i f Hf) as (Et & _ & Es & Ea). rewrite Ht in Et.
    destruct Hty as [(_ & -> & Ef)|Hty]; [|by rewrite <- Et in Hty]. split; [done|done| |].
    + rewrite Es, Ef. unfold padded. set (R := root_bytes files). rewrite length_app, length_replicate.
      assert (Hl : length R = (16 * (2 + length files))%nat) by apply length_root. pose proof (bd_inodes _ Hb) as H. unfold NINODES in H.
      pose proof (Nat.div_mod_eq (length R) 512). pose proof (Nat.mod_upper_bound (length R) 512 ltac:(lia)).
      replace (length R + (512 * (length R / 512 + 1) - length R))%nat with (512 * (length R / 512 + 1))%nat by lia. split; [lia|]. unfold DIRENT_SIZE.
      replace (Z.of_nat (512 * (length R / 512 + 1))) with (Z.of_nat (32 * (length R / 512 + 1)) * 16) by lia. by apply Z.mod_mul.
    + intros bn Hbn. rewrite Es in Hbn. by apply (file_mapped 0 f).
  - intros Ht e He H0. destruct (image_inode_file n Hn) as (i & f & -> & Hf & Hty). destruct (inode_fields i f Hf) as (Et & _). rewrite Ht in Et.
    destruct Hty as [(_ & -> & _)|Hty]; [|by rewrite <- Et in Hty]. change (Z.of_nat 0 + 1) with 1 in He. destruct root_list as [m Em]. rewrite Em in He.
    apply elem_of_app in He as [(x & -> & Hx)%list_elem_of_fmap|He].
    + destruct (entry_range x Hx) as (H1 & H2 & _). cbn [fst]. rewrite dirent_inum by lia. unfold image_inode. lia.
    + apply elem_of_replicate in He as [-> _]. done.
Qed.
End Mounted.

Lemma elements_root name : name <> [] -> slash ∉ name -> elements (slash :: name) = [name].
Proof.
  intros Hne Hs. destruct name as [|c p]; [done|]. apply not_elem_of_cons in Hs as [Hc Hs]. pose proof (until_slash_spec c p ltac:(done)) as H.
  rewrite <- (elements_skip (slash :: c :: p)). cbn [skip_slashes]. rewrite Z.eqb_refl, (proj2 (Z.eqb_neq c slash)) by done.
  destruct (until_slash (c :: p)) as [e r]. destruct H as (E & Ep & _ & _ & Hr). rewrite E. destruct Hr as [-> | [r' ->]]; [by rewrite app_nil_r in Ep; rewrite Ep|].
  exfalso. assert (Hin : slash ∈ c :: p) by (rewrite Ep; set_solver). apply elem_of_cons in Hin as [|]; done.
Qed.

Lemma skip_underscore_sub l c : c ∈ skip_underscore l -> c ∈ l.
Proof. unfold skip_underscore. destruct l as [|x l]; [done|]. destruct (x =? underscore); [|done]. intros H. by right. Qed.

(** The kernel with the image on its disk: nothing is in use and nothing was written. *)
Record kernel_on (hs : list Z) (disk : list (list Z)) (s : fs) : Prop := {
  ko_readable : readable hs s;
  ko_disk : s_disk s = disk;
  ko_sb : s_sb s = sb_of (dblock disk 1);
  ko_content : forall k, content s k = dblock disk k;
  ko_icache : icache_ok None s;
  ko_cwd : cwd_ok s;
  ko_room : 2 <= free_entries (s_inodes s)
}.

(** The bytes of an inode. *)
Definition inode_data (s : fs) (t : Z) : list Z := file_data (content s) (disk_inode s t) 0 (Z.to_nat (i_size (disk_inode s t))).

(** An inode with data that can be read. *)
Record readable_file (s : fs) (t : Z) : Prop := {
  rf_type : i_type (disk_inode s t) <> T_DEV;
  rf_size : 0 <= i_size (disk_inode s t) < 2 ^ 30;
  rf_mapped : forall bn, 0 <= bn < (i_size (disk_inode s t) + Z.of_nat BSIZE - 1) / Z.of_nat BSIZE -> mapped s (disk_inode s t) bn
}.

(** What a path from the root names. *)
Definition named (s : fs) (path : list Z) : option Z := resolve s ROOTINO (elements path).

Lemma file_data_addrs (c : Z -> list Z) ip ip' off n : i_addrs ip' = i_addrs ip -> file_data c ip' off n = file_data c ip off n.
Proof. intros E. apply list_fmap_ext. intros k x _. unfold file_byte, file_addr, addr_at. by rewrite E. Qed.

(** A file of the image, as the kernel sees it. *)
Lemma image_file files k f im hs s :
  let name := skip_underscore (fst f) in let t := Z.of_nat k + 2 in
  buildable files -> (forall g, g ∈ files -> 0 ∉ fst g) -> build files started = Ret tt im ->
  files !! k = Some f -> name <> [] -> lookup_name files name = Some t -> kernel_on hs (im_sectors im) s ->
  0 ∉ slash :: name /\ tree s (image_inode files) /\ named s (slash :: name) = Some t /\ image_inode files t /\ readable_file s t /\ inode_data s t = file_bytes f.
Proof.
  intros name t Hb Hnul Hbuild Hk Hne Hname [Hr Ed Esb Ec Hic Hcwd Hroom]. destruct (build_spec files Hb) as (T & im' & E & I & C & _).
  rewrite E in Hbuild. injection Hbuild as ->.
  assert (Esb' : s_sb s = sb) by (rewrite Esb, (im_super _ _ I); vm_compute; reflexivity).
  assert (Hacc : acceptable f) by (apply (Forall_lookup_1 _ _ _ _ (bd_files _ Hb) Hk)). destruct Hacc as (Hsl & _ & Hlen).
  assert (Hsub : forall c, c ∈ name -> c ∈ fst f) by (intros c; apply skip_underscore_sub). apply lookup_lt_Some in Hk as Hlt.
  assert (Hf : exists g, T !! S k = Some g /\ f_type g = T_FILE /\ f_bytes g = file_bytes f).
  { apply contents_lookup. rewrite C. change (((fun f => (T_FILE, file_bytes f)) <$> files) !! k = Some (T_FILE, file_bytes f)). by rewrite list_lookup_fmap, Hk. }
  destruct Hf as (g & Hg & Hty & Hby). destruct (inode_fields im T I s Esb' Ec (S k) g Hg) as (F1 & _ & F3 & F4). assert (Et : Z.of_nat (S k) + 1 = t) by lia.
  assert (F4' : i_addrs (disk_inode s t) = d_addrs (ino im (S k))) by (rewrite <- Et; exact F4). rewrite Et in F1, F3. clear F4.
  split; [|split; [exact (image_tree files Hb Hnul im T I C s Ed Esb' Ec)|split; [|split; [unfold image_inode; lia|split]]]].
  - intros [H|H]%elem_of_cons; [done|]. apply (Hnul f (list_elem_of_lookup_2 _ _ _ Hk)). by apply Hsub.
  - unfold named. rewrite elements_root; [|done|intros H; by apply Hsl, Hsub]. cbn [resolve]. by rewrite (root_child files Hb Hnul im T I C s Esb' Ec), Hname.
  - split; [by rewrite F1, Hty|rewrite F3, Hby; lia|]. rewrite F3. intros bn Hbn. exact (file_mapped im T I s Ed Ec (S k) g (disk_inode s t) bn Hg F4' Hbn).
  - unfold inode_data. rewrite F3, Nat2Z.id, (file_data_ext (dblock (im_sectors im)) (content s) _ _ _ Ec). pose proof (fd_growing _ _ _ _ (im_filed _ _ I (S k) g Hg)) as G.
    pose proof (laid_data _ _ _ _ (disk_inode s t) 0 (length (f_bytes g)) (gr_laid _ _ _ _ G) F4') as H. rewrite drop_0, take_ge, Hby in H by lia. rewrite Hby. exact (H ltac:(lia)).
Qed.

(** C20. What mkfs puts into the image the kernel finds and reads.  Let mkfs make an image
    of the files and let the kernel run with it as its disk.  For a file whose name,
    without the leading underscore, no earlier entry of the directory shares in the first
    14 characters, [namei] of that name from the root returns an inode, [ilock] locks it,
    and [readi] of its size returns the bytes mkfs read. *)
Theorem image_files_readable devread img files k f im hs s :
  let name := skip_underscore (fst f) in
  buildable files -> (forall g, g ∈ files -> 0 ∉ fst g) -> main (img :: files) true started = Ret tt im ->
  files !! k = Some f -> name <> [] -> lookup_name files name = Some (Z.of_nat k + 2) -> kernel_on hs (im_sectors im) s ->
  exists i s1 s2 s3, namei devread (slash :: name) s = Ret (Some i) s1 /\ ilock i s1 = Ret tt s2 /\
    readi devread i 0 (Z.of_nat (length (file_bytes f))) s2 = Ret (Z.of_nat (length (file_bytes f)), file_bytes f) s3.
Proof.
  intros name Hb Hnul Hmain Hk Hne Hname Hon. rewrite main_build in Hmain.
  destruct (image_file files k f im hs s Hb Hnul Hmain Hk Hne Hname Hon) as (H0 & Htree & Hnamed & Hp & [F1 F2 F3] & Hdata). fold name in H0, Hnamed.
  destruct Hon as [Hr Ed Esb Ec Hic Hcwd Hroom]. set (t := Z.of_nat k + 2) in *.
  assert (Hlen : i_size (disk_inode s t) = Z.of_nat (length (file_bytes f))) by (rewrite <- Hdata; unfold inode_data; rewrite length_file_data; lia).
  destruct (namex_spec (image_inode files) hs devread false (slash :: name) (replicate 14 0) 1 s Hr Hic (fun _ => Hcwd) Htree Hroom H0 eq_refl eq_refl ltac:(unfold image_inode; lia))
    as ([r nm] & s1 & E1 & W1 & Hic1 & H1).
  change (target false s 1 (elements (slash :: name))) with (named s (slash :: name)) in H1. rewrite Hnamed in H1.
  destruct H1 as ((i & ip & Er & Hi & En & Href) & _ & _). cbn [fst] in Er. subst r. pose proof (readable_walks _ _ _ Hr W1) as Hr1.
  destruct (ilock_tree (image_inode files) hs i ip s1 Hr1 Hic1 (tree_walks _ _ _ W1 Htree) Hi Href ltac:(by rewrite En)) as (s2 & E2 & W2 & Hic2 & Ei2 & _).
  pose proof (walks_trans _ _ _ W1 W2) as W. apply lookup_lt_Some in Hi as Hil. set (hp := held_entry s1 ip) in *.
  assert (Hi2 : s_inodes s2 !! i = Some hp) by (rewrite Ei2; by apply list_lookup_insert_eq).
  destruct (held_disk s1 t ip En) as (X1 & X2 & X3). fold hp in X1, X2, X3. rewrite (disk_inode_walks _ _ _ W1) in X1, X2, X3.
  assert (Hdev : i_dev hp = 1) by (destruct (ic_entry _ _ Hic1 i ip Hi) as [|[Hd _ _]]; [lia|exact Hd]).
  destruct (readi_spec devread i hp hs 0 (Z.of_nat (length (file_bytes f))) s2) as (s3 & E3 & _).
  - by eapply readable_walks.
  - exact Hi2.
  - exact Hdev.
  - by rewrite X1.
  - lia.
  - lia.
  - lia.
  - rewrite X2. intros bn Hbn. exact (mapped_data s s2 _ _ bn (walks_data _ _ W) X3 (F3 bn Hbn)).
  - assert (Erc : read_count hp 0 (Z.of_nat (length (file_bytes f))) = Z.of_nat (length (file_bytes f))).
    { unfold read_count. rewrite X2, Hlen. destruct (Z.ltb_spec (Z.of_nat (length (file_bytes f))) (0 + Z.of_nat (length (file_bytes f)))); lia. }
    assert (Edata : file_data (content s2) hp 0 (length (file_bytes f)) = file_bytes f).
    { rewrite <- Hdata at 2. unfold inode_data. rewrite Hlen, Nat2Z.id, (file_data_ext (content s) (content s2) hp 0 _ (wk_content _ _ W)). by apply file_data_addrs. }
    rewrite Erc, Nat2Z.id, Edata in E3. exists i, s1, s2, s3. split; [|split; [exact E2|exact E3]]. unfold namei. rewrite (bind_ret _ _ _ _ _ E1). reflexivity.
Qed.

(** The file [b] of the small image, on a kernel with a table of two free inodes. *)
Lemma image_files_readable_witness :
  exists im s i s1 s2 s3, main (([], None) :: Example.files) true started = Ret tt im /\ s_disk s = im_sectors im /\
    namei (fun _ => None) [slash; 98] s = Ret (Some i) s1 /\ ilock i s1 = Ret tt s2 /\ readi (fun _ => None) i 0 2 s2 = Ret (2, [104; 105]) s3.
Proof.
  destruct (build_spec Example.files Example.ok) as (T & im & E & I & _). pose proof (eq_trans (main_build ([], None) Example.files started) E) as Em. clear E.
  assert (Hfit : 2 + LOGSIZE <= Z.of_nat (length (im_sectors im)) < 2 ^ 31) by (rewrite (wh_size _ (im_whole _ _ I)); unfold FSSIZE, LOGSIZE, MAXOPBLOCKS; lia).
  destruct (mounted_on (im_sectors im) sb [FsPath.Example.unused; FsPath.Example.unused] Hfit) as (s & Hop & Esb & Ei & Ed & _ & Hl & Hc & Ec).
  destruct (image_files_readable (fun _ => None) ([], None) Example.files 1 ([98], Some [[104; 105]]) im [] s) as (i & s1 & s2 & s3 & H1 & H2 & H3).
  - exact Example.ok.
  - apply Forall_forall. apply Forall_cons. split; [|apply Forall_cons; split; [|constructor]]; apply (bool_decide_unpack _); vm_compute; exact Logic.I.
  - exact Em.
  - reflexivity.
  - discriminate.
  - vm_compute. reflexivity.
  - split; [by apply in_op_readable|exact Ed| |exact Ec| | |rewrite Ei; apply Z.leb_le; vm_compute; reflexivity].
    + rewrite Esb, (im_super _ _ I). vm_compute. reflexivity.
    + apply FsPath.Example.unused_ok; [exact Ei|exact Hl].
    + intros d Hd. by rewrite Hc in Hd.
  - exists im, s, i, s1, s2, s3. split; [exact Em|]. split; [exact Ed|]. split; [exact H1|]. split; [exact H2|exact H3].
Defined.
