(* ===== verification/Ide.v ===== *)
(** * The IDE driver: ide.c and ioapic.c

    The driver reaches the disk through the ports of a controller, which works on one
    command at a time and raises an interrupt when it is done.  What the ports do is an
    interface; the laws that say the controller is an IDE disk are in IdeProps.  The
    buffers are those of the buffer cache; the queue of requests is linked through
    [qnext]. *)

From S2P Require Import Prelude Mmu Blk FsState.

(** The instructions that reach the controller, and how often its status may have to be
    read before it is ready. *)
Class IdePorts (C : Type) := {
  inb : Z -> C -> Z * C;
  outb : Z -> Z -> C -> C;
  insl : Z -> nat -> C -> list Z * C;
  outsl : Z -> list Z -> C -> C;
  patience : nat
}.

(** ** ioapic.c: the interrupt controller *)

Definition REG_ID : Z := 0.
Definition REG_VER : Z := 1.
Definition REG_TABLE : Z := 16.
Definition INT_DISABLED : Z := 65536.

(** The I/O APIC: the register that is selected, and the registers. *)
Record ioapic := Ioapic { io_reg : Z; io_data : gmap Z Z }.

Definition ioapicread (reg : Z) : M ioapic Z := fun s => Ret (default 0 (io_data s !! reg)) (Ioapic reg (io_data s)).
Definition ioapicwrite (reg data : Z) : M ioapic unit := fun s => Ret tt (Ioapic reg (<[reg := data]> (io_data s))).

Fixpoint ioapicinit_loop (n : nat) (i : Z) : M ioapic unit :=
  match n with
  | O => ret tt
  | S n =>
    ioapicwrite (REG_TABLE + 2 * i) (Z.lor INT_DISABLED (T_IRQ0 + i)) ;;;
    ioapicwrite (REG_TABLE + 2 * i + 1) 0 ;;;
    ioapicinit_loop n (i + 1)
  end.
(** The value tells if the message about [ioapicid] is printed. *)
Definition ioapicinit (ioapicid : Z) : M ioapic bool :=
  v <- ioapicread REG_VER ;;
  let maxintr := Z.land (Z.shiftr v 16) 255 in
  id <- ioapicread REG_ID ;;
  ioapicinit_loop (S (Z.to_nat maxintr)) 0 ;;;
  ret (negb (Z.shiftr id 24 =? ioapicid)).

Definition ioapicenable (irq cpunum : Z) : M ioapic unit :=
  ioapicwrite (REG_TABLE + 2 * irq) (T_IRQ0 + irq) ;;;
  ioapicwrite (REG_TABLE + 2 * irq + 1) (u32 (Z.shiftl cpunum 24)).

(** ** ide.c *)

Definition SECTOR_SIZE : Z := 512.
Definition IDE_BSY : Z := 128.
Definition IDE_DRDY : Z := 64.
Definition IDE_DF : Z := 32.
Definition IDE_ERR : Z := 1.
Definition IDE_CMD_READ : Z := 32.
Definition IDE_CMD_WRITE : Z := 48.
Definition IDE_CMD_RDMUL : Z := 196.
Definition IDE_CMD_WRMUL : Z := 197.

(** The state of the driver: the buffers and locks are those of the file system. *)
Record ide (C : Type) := Ide {
  e_fs : fs; idequeue : option nat; qnext : list (option nat); havedisk1 : bool; e_io : ioapic; ctl : C
}.
Arguments Ide {C}.
Arguments e_fs {C}.
Arguments idequeue {C}.
Arguments qnext {C}.
Arguments havedisk1 {C}.
Arguments e_io {C}.
Arguments ctl {C}.

Section Ide.
Context {C : Type} `{IdePorts C}.

Definition set_fs v (s : ide C) := Ide v (idequeue s) (qnext s) (havedisk1 s) (e_io s) (ctl s).
Definition set_idequeue v (s : ide C) := Ide (e_fs s) v (qnext s) (havedisk1 s) (e_io s) (ctl s).
Definition set_qnext v (s : ide C) := Ide (e_fs s) (idequeue s) v (havedisk1 s) (e_io s) (ctl s).
Definition set_havedisk1 v (s : ide C) := Ide (e_fs s) (idequeue s) (qnext s) v (e_io s) (ctl s).
Definition set_io v (s : ide C) := Ide (e_fs s) (idequeue s) (qnext s) (havedisk1 s) v (ctl s).
Definition set_ctl (v : C) (s : ide C) : ide C := Ide (e_fs s) (idequeue s) (qnext s) (havedisk1 s) (e_io s) v.

Definition on_fs {A} (m : M fs A) : M (ide C) A := zoom e_fs set_fs m.

Definition in_port (port : Z) : M (ide C) Z := fun s => let '(r, c) := inb port (ctl s) in Ret r (set_ctl c s).
Definition out_port (port v : Z) : M (ide C) unit := modify (fun s => set_ctl (outb port v (ctl s)) s).
Definition in_words (port : Z) (n : nat) : M (ide C) (list Z) := fun s => let '(d, c) := insl port n (ctl s) in Ret d (set_ctl c s).
Definition out_words (port : Z) (d : list Z) : M (ide C) unit := modify (fun s => set_ctl (outsl port d (ctl s)) s).

Fixpoint idewait_loop (fuel : nat) : M (ide C) Z :=
  match fuel with
  | O => ub "idewait"
  | S fuel =>
    r <- in_port 503 ;;      (* 0x1f7 *)
    if negb (Z.land r (Z.lor IDE_BSY IDE_DRDY) =? IDE_DRDY) then idewait_loop fuel else ret r
  end.
Definition idewait (checkerr : bool) : M (ide C) Z :=
  r <- idewait_loop (S patience) ;;
  if checkerr && negb (Z.land r (Z.lor IDE_DF IDE_ERR) =? 0) then ret (-1) else ret 0.

(** Looking for disk 1. *)
Fixpoint probe_loop (n : nat) : M (ide C) unit :=
  match n with
  | O => ret tt
  | S n =>
    r <- in_port 503 ;;
    if negb (r =? 0) then modify (set_havedisk1 true) else probe_loop n
  end.
Definition ideinit (ncpu : Z) : M (ide C) unit :=
  on_fs (initlock LkIde) ;;;
  zoom e_io set_io (ioapicenable IRQ_IDE (ncpu - 1)) ;;;
  idewait false ;;;
  out_port 502 (Z.lor 224 (Z.shiftl 1 4)) ;;;
  probe_loop 1000 ;;;
  out_port 502 (Z.lor 224 (Z.shiftl 0 4)).

Definition idestart (b : nat) : M (ide C) unit :=
  v <- on_fs (get_buf b) ;;
  if FSSIZE <=? b_blockno v then panic "incorrect blockno" else
  let sector_per_block := Z.of_nat BSIZE / SECTOR_SIZE in
  let sector := b_blockno v * sector_per_block in
  let read_cmd := if sector_per_block =? 1 then IDE_CMD_READ else IDE_CMD_RDMUL in
  let write_cmd := if sector_per_block =? 1 then IDE_CMD_WRITE else IDE_CMD_WRMUL in
  if 7 <? sector_per_block then panic "idestart" else
  idewait false ;;;
  out_port 1014 0 ;;;
  out_port 498 sector_per_block ;;;
  out_port 499 (Z.land sector 255) ;;;
  out_port 500 (Z.land (Z.shiftr sector 8) 255) ;;;
  out_port 501 (Z.land (Z.shiftr sector 16) 255) ;;;
  out_port 502 (Z.lor (Z.lor 224 (Z.shiftl (Z.land (b_dev v) 1) 4)) (Z.land (Z.shiftr sector 24) 15)) ;;;
  if negb (Z.land (b_flags v) B_DIRTY =? 0) then
    out_port 503 write_cmd ;;;
    out_words 496 (take (BSIZE / 4 * 4) (b_data v))
  else out_port 503 read_cmd.

Definition get_qnext (b : nat) : M (ide C) (option nat) := fun s =>
  match qnext s !! b with Some v => Ret v s | None => UB "buf.qnext" end.
Definition upd_qnext (b : nat) (v : option nat) : M (ide C) unit := fun s =>
  if decide (b < length (qnext s))%nat then Ret tt (set_qnext (<[b := v]> (qnext s)) s) else UB "buf.qnext".

Definition ideintr : M (ide C) unit :=
  on_fs (acquire LkIde) ;;;
  q <- gets idequeue ;;
  match q with
  | None => on_fs (release LkIde)
  | Some b =>
    n <- get_qnext b ;;
    modify (set_idequeue n) ;;;
    v <- on_fs (get_buf b) ;;
    (if Z.land (b_flags v) B_DIRTY =? 0 then
       r <- idewait true ;;
       when 0 <=? r do (d <- in_words 496 (BSIZE / 4) ;; on_fs (upd_buf b (set_b_data d)))
     else ret tt) ;;;
    on_fs (upd_buf b (fun v => set_b_flags (Z.lor (b_flags v) B_VALID) v)) ;;;
    on_fs (upd_buf b (fun v => set_b_flags (Z.land (b_flags v) (Z.lnot B_DIRTY)) v)) ;;;
    on_fs (wakeup (ChBuf b)) ;;;
    q <- gets idequeue ;;
    (match q with Some b' => idestart b' | None => ret tt end) ;;;
    on_fs (release LkIde)
  end.

(** The search for the end of the queue: the buffer whose link is the last. *)
Fixpoint queue_end (fuel : nat) (b : nat) : M (ide C) nat :=
  match fuel with
  | O => ub "iderw: queue"
  | S fuel =>
    n <- get_qnext b ;;
    match n with
    | Some b' => queue_end fuel b'
    | None => ret b
    end
  end.
(** The queue has at most as many entries as there are buffers. *)
Definition append_queue (b : nat) : M (ide C) unit :=
  upd_qnext b None ;;;
  q <- gets idequeue ;;
  fuel <- gets (fun s => length (qnext s)) ;;
  match q with
  | None => modify (set_idequeue (Some b))
  | Some h => e <- queue_end fuel h ;; upd_qnext e (Some b)
  end.

(** The loop at the end of [iderw], which goes on after the sleep. *)
Definition iderw_wait (b : nat) : M (ide C) unit :=
  v <- on_fs (get_buf b) ;;
  if negb (Z.land (b_flags v) (Z.lor B_VALID B_DIRTY) =? B_VALID) then on_fs (release LkIde) ;;; block (ChBuf b)
  else on_fs (release LkIde).
Definition iderw_resume (b : nat) : M (ide C) unit := on_fs (acquire LkIde) ;;; iderw_wait b.

Definition iderw (b : nat) : M (ide C) unit :=
  h <- on_fs (holdingsleep (SlBuf b)) ;;
  if negb h then panic "iderw: buf not locked" else
  v <- on_fs (get_buf b) ;;
  if Z.land (b_flags v) (Z.lor B_VALID B_DIRTY) =? B_VALID then panic "iderw: nothing to do" else
  hd <- gets havedisk1 ;;
  if negb (b_dev v =? 0) && negb hd then panic "iderw: ide disk 1 not present" else
  on_fs (acquire LkIde) ;;;
  append_queue b ;;;
  q <- gets idequeue ;;
  (when bool_decide (q = Some b) do idestart b) ;;;
  iderw_wait b.
End Ide.
