(* ===== verification/IdeProps.v ===== *)
(** * The IDE driver implements the disk

    The laws of the controller, the invariant of the queue, and that every interrupt does
    to the disk and the buffer at the head of the queue what [iderw] of memide.c does at
    once; a controller that satisfies the laws. *)

From S2P Require Import Prelude Mmu Blk FsState Bio BioSpec Ide.

(** ** ioapic.c *)

(** The entries of the redirection table for interrupt [i]. *)
Definition route (s : ioapic) (i : Z) : option Z * option Z := (io_data s !! (REG_TABLE + 2 * i), io_data s !! (REG_TABLE + 2 * i + 1)).

Lemma ioapicinit_loop_spec n : forall i s, exists s', ioapicinit_loop n i s = Ret tt s' /\
  (forall k, route s' k = if (i <=? k) && (k <? i + Z.of_nat n) then (Some (Z.lor INT_DISABLED (T_IRQ0 + k)), Some 0) else route s k) /\
  forall r, r < REG_TABLE + 2 * i -> io_data s' !! r = io_data s !! r.
Proof.
  induction n as [|n IH]; intros i s; cbn [ioapicinit_loop].
  - exists s. split; [done|]. split; [|done]. intros k. destruct (Z.leb_spec i k), (Z.ltb_spec k (i + Z.of_nat 0)); cbn [andb]; done || lia.
  - unfold bind, ioapicwrite at 1 2. cbn [io_data]. set (s1 := Ioapic _ _). destruct (IH (i + 1) s1) as (s' & E & Hk & Hr). exists s'. split; [done|]. split.
    + intros k. rewrite Hk. unfold route, s1. cbn [io_data]. destruct (Z.eqb_spec k i) as [->|Hne].
      * rewrite (proj2 (Z.leb_gt (i + 1) i)), (proj2 (Z.leb_le i i)), (proj2 (Z.ltb_lt i (i + Z.of_nat (S n)))) by lia. cbn [andb].
        rewrite lookup_insert_ne, lookup_insert_eq, lookup_insert_eq by lia. done.
      * rewrite !lookup_insert_ne by lia. destruct (Z.leb_spec (i + 1) k), (Z.leb_spec i k), (Z.ltb_spec k (i + 1 + Z.of_nat n)), (Z.ltb_spec k (i + Z.of_nat (S n))); cbn [andb]; done || lia.
    + intros r Hlt. rewrite Hr by lia. unfold s1. cbn [io_data]. by rewrite !lookup_insert_ne by lia.
Qed.

(** Interrupts are off after [ioapicinit], and [ioapicenable] turns on exactly one and
    sends it to the processor. *)
Theorem ioapic_correct ioapicid irq cpunum s :
  0 <= irq <= Z.land (Z.shiftr (default 0 (io_data s !! REG_VER)) 16) 255 -> 0 <= cpunum < 256 ->
  exists b s1 s2, ioapicinit ioapicid s = Ret b s1 /\ ioapicenable irq cpunum s1 = Ret tt s2 /\
    (forall k, 0 <= k <= Z.land (Z.shiftr (default 0 (io_data s !! REG_VER)) 16) 255 -> route s1 k = (Some (Z.lor INT_DISABLED (T_IRQ0 + k)), Some 0)) /\
    route s2 irq = (Some (T_IRQ0 + irq), Some (cpunum * 2 ^ 24)) /\ forall k, k <> irq -> route s2 k = route s1 k.
Proof.
  intros Hirq Hcpu. set (maxintr := Z.land _ 255) in *. unfold ioapicinit, ioapicread, bind at 1 2. cbn [io_data]. fold maxintr.
  set (s0 := Ioapic REG_ID (io_data s)). destruct (ioapicinit_loop_spec (S (Z.to_nat maxintr)) 0 s0) as (s1 & E & Hk & _). step E.
  eexists _, s1, _. split; [done|]. split; [reflexivity|]. split; [|split].
  - intros k Hk'. rewrite Hk, (proj2 (Z.leb_le 0 k)), (proj2 (Z.ltb_lt k _)) by lia. done.
  - unfold route. cbn [io_data]. rewrite lookup_insert_ne, !lookup_insert_eq by lia. rewrite Z.shiftl_mul_pow2 by lia. by rewrite u32_id by lia.
  - intros k Hne. unfold route. cbn [io_data]. by rewrite !lookup_insert_ne by lia.
Qed.

(** ** The controller *)

Section Laws.
Context {C : Type} `{IdePorts C}.

(** Reading the status until it says ready. *)
Fixpoint poll (fuel : nat) (c : C) : option (Z * C) :=
  match fuel with
  | O => None
  | S fuel =>
    let '(r, c') := inb 503 c in
    if negb (Z.land r (Z.lor IDE_BSY IDE_DRDY) =? IDE_DRDY) then poll fuel c' else Some (r, c')
  end.

(** A command for one sector [n] of disk 1. *)
Definition program (n cmd : Z) (c : C) : C :=
  outb 503 cmd (outb 502 (Z.lor (Z.lor 224 (Z.shiftl (Z.land 1 1) 4)) (Z.land (Z.shiftr n 24) 15))
    (outb 501 (Z.land (Z.shiftr n 16) 255) (outb 500 (Z.land (Z.shiftr n 8) 255) (outb 499 (Z.land n 255) (outb 498 1 (outb 1014 0 c)))))).
End Laws.

(** What an IDE controller with the contents [d] on disk 1 does.  It is idle, or works on a
    read or a write of one sector, or has the sector ready, or could not read it; it
    becomes ready when its status is read often enough.  [completes] is the end of a
    command, when it raises the interrupt. *)
Class IdeDisk (C : Type) `{IdePorts C} := {
  completes : C -> C -> Prop;
  idle : list (list Z) -> C -> Prop;
  reading : list (list Z) -> Z -> C -> Prop;
  writing : list (list Z) -> Z -> list Z -> C -> Prop;
  read_done : list (list Z) -> Z -> C -> Prop;
  read_failed : list (list Z) -> C -> Prop;
  idle_ready d c : idle d c -> exists r c', poll (S patience) c = Some (r, c') /\ idle d c';
  done_ready d n c : read_done d n c -> exists r c', poll (S patience) c = Some (r, c') /\ Z.land r (Z.lor IDE_DF IDE_ERR) = 0 /\ read_done d n c';
  failed_ready d c : read_failed d c -> exists r c', poll (S patience) c = Some (r, c') /\ Z.land r (Z.lor IDE_DF IDE_ERR) <> 0 /\ idle d c';
  cmd_read d n c : idle d c -> 0 <= n < Z.of_nat (length d) -> n < 2 ^ 28 -> reading d n (program n IDE_CMD_READ c);
  cmd_write d n b c : idle d c -> 0 <= n < Z.of_nat (length d) -> n < 2 ^ 28 -> length b = BSIZE ->
    writing d n b (outsl 496 b (program n IDE_CMD_WRITE c));
  data_in d n c : read_done d n c -> exists c', insl 496 (BSIZE / 4) c = (dblock d n, c') /\ idle d c';
  complete_read d n c c' : reading d n c -> completes c c' -> read_done d n c' \/ read_failed d c';
  complete_write d n b c c' : writing d n b c -> completes c c' -> idle (<[Z.to_nat n := b]> d) c'
}.

(** ** The driver *)

Section Driver.
Context {C : Type} `{IdeDisk C}.

Lemma set_ctl_ctl (s : ide C) : set_ctl (ctl s) s = s.
Proof. by destruct s. Qed.

Lemma idewait_loop_poll fuel : forall (s : ide C) r c, poll fuel (ctl s) = Some (r, c) -> idewait_loop fuel s = Ret r (set_ctl c s).
Proof.
  induction fuel as [|fuel IH]; intros s r c E; [done|]. cbn [poll] in E. cbn [idewait_loop]. unfold bind, in_port. destruct (inb 503 (ctl s)) as [v c1].
  destruct (negb _); [|injection E as <- <-; done]. rewrite (IH (set_ctl c1 s) r c E). by destruct s.
Qed.

Lemma idewait_eq checkerr (s : ide C) r c : poll (S patience) (ctl s) = Some (r, c) ->
  idewait checkerr s = Ret (if checkerr && negb (Z.land r (Z.lor IDE_DF IDE_ERR) =? 0) then -1 else 0) (set_ctl c s).
Proof. intros E. unfold idewait. step (idewait_loop_poll _ s r c E). by destruct (checkerr && _). Qed.

(** A buffer that can be handed to the driver. *)
Record request (d : list (list Z)) (v : buf) : Prop := {
  rq_dev : b_dev v = 1;
  rq_block : 0 <= b_blockno v < Z.of_nat (length d);
  rq_data : length (b_data v) = BSIZE;
  rq_flags : b_flags v = 0 \/ b_flags v = 6
}.

(** The links from [h] on are those of the list [l]. *)
Fixpoint chain (links : list (option nat)) (h : option nat) (l : list nat) : Prop :=
  match l with
  | [] => h = None
  | b :: l => h = Some b /\ exists v, links !! b = Some v /\ chain links v l
  end.

(** The controller is busy with the first request. *)
Definition working (d : list (list Z)) (v : buf) (c : C) : Prop :=
  if Z.land (b_flags v) B_DIRTY =? 0 then reading d (b_blockno v) c else writing d (b_blockno v) (b_data v) c.

Record ide_ok (l : list nat) (d : list (list Z)) (s : ide C) : Prop := {
  ik_chain : chain (qnext s) (idequeue s) l;
  ik_nodup : NoDup l;
  ik_links : length (qnext s) = length (s_bufs (e_fs s));
  ik_bufs : forall b, b ∈ l -> exists v, s_bufs (e_fs s) !! b = Some v /\ request d v;
  ik_size : Z.of_nat (length d) <= FSSIZE;
  ik_lock : LkIde ∉ s_locks (e_fs s);
  ik_disk1 : havedisk1 s = true;
  ik_ctl : match l with
           | [] => idle d (ctl s)
           | b :: _ => forall v, s_bufs (e_fs s) !! b = Some v -> working d v (ctl s)
           end
}.

Lemma idestart_spec b v d (s : ide C) :
  s_bufs (e_fs s) !! b = Some v -> request d v -> Z.of_nat (length d) <= FSSIZE -> idle d (ctl s) ->
  exists c, idestart b s = Ret tt (set_ctl c s) /\ working d v c.
Proof.
  intros Hb [Hdev Hblk Hlen Hfl] Hsz Hidle. destruct (idle_ready d (ctl s) Hidle) as (r & c1 & E1 & Hidle1). unfold idestart.
  assert (Eg : on_fs (get_buf b) s = Ret v s) by (unfold on_fs; rewrite (zoom_ret _ _ _ _ v (e_fs s)); [by destruct s|unfold get_buf; by rewrite Hb]).
  step Eg. rewrite (proj2 (Z.leb_gt _ _)) by lia. change (Z.of_nat BSIZE / SECTOR_SIZE) with 1. cbv zeta. change (7 <? 1) with false. change (1 =? 1) with true. cbv iota.
  rewrite Z.mul_1_r, Hdev. step (idewait_eq false s r c1 E1). unfold FSSIZE in Hsz.
  set (n := b_blockno v) in *. assert (Hn : n < 2 ^ 28) by lia.
  unfold working. fold n. destruct (Z.eqb_spec (Z.land (b_flags v) B_DIRTY) 0) as [E|E]; cbn [negb].
  - exists (program n IDE_CMD_READ c1). split; [by destruct s|]. by apply cmd_read.
  - exists (outsl 496 (b_data v) (program n IDE_CMD_WRITE c1)). change (BSIZE / 4 * 4)%nat with BSIZE. rewrite take_ge by lia. split; [by destruct s|]. by apply cmd_write.
Qed.

(** *** The queue *)

Lemma queue_ext links links' l : forall h, (forall b, b ∈ l -> links' !! b = links !! b) -> chain links h l -> chain links' h l.
Proof.
  induction l as [|b l IH]; intros h Hl Hc; [done|]. destruct Hc as [-> (v & Hv & Hc)]. split; [done|]. exists v. rewrite Hl by left. split; [done|].
  apply IH; [|done]. intros x Hx. apply Hl. by right.
Qed.

Lemma queue_end_spec l : forall b fuel (s : ide C), chain (qnext s) (Some b) (b :: l) -> (length l < fuel)%nat ->
  exists e, queue_end fuel b s = Ret e s /\ List.last (b :: l) 0%nat = e /\ qnext s !! e = Some None.
Proof.
  induction l as [|x l IH]; intros b fuel s [_ (v & Hv & Hc)] Hf; (destruct fuel as [|fuel]; [cbn in Hf; lia|]); cbn [queue_end]; unfold bind, get_qnext; rewrite Hv.
  - cbn in Hc. subst v. by exists b.
  - pose proof Hc as [-> _]. destruct (IH x fuel s Hc) as (e & E & Hl & He); [cbn in Hf; lia|]. by exists e.
Qed.

Lemma chain_snoc links l e b : NoDup (l ++ [e]) -> b ∉ l ++ [e] -> links !! b = Some None -> (e < length links)%nat ->
  forall h, chain links h (l ++ [e]) -> chain (<[e := Some b]> links) h ((l ++ [e]) ++ [b]).
Proof.
  intros Hnd Hb Hlb He. induction l as [|x l IH]; intros h Hc.
  - destruct Hc as [-> _]. split; [done|]. exists (Some b). split; [by apply list_lookup_insert_eq|]. split; [done|]. exists None.
    split; [|done]. rewrite list_lookup_insert_ne; [done|]. intros ->. apply Hb. left.
  - cbn [app] in *. apply NoDup_cons in Hnd as [Hx Hnd]. apply not_elem_of_cons in Hb as [Hbx Hb]. destruct Hc as [-> (v & Hv & Hc)]. split; [done|]. exists v.
    split; [|by apply IH]. rewrite list_lookup_insert_ne; [done|]. intros ->. apply Hx, elem_of_app. right. left.
Qed.

Lemma chain_bound links l : forall h, chain links h l -> forall b, b ∈ l -> (b < length links)%nat.
Proof.
  induction l as [|x l IH]; intros h Hc b Hb; [by apply elem_of_nil in Hb|]. destruct Hc as [_ (v & Hv & Hc)]. apply elem_of_cons in Hb as [->|Hb]; [by eapply lookup_lt_Some|by eapply IH].
Qed.

Lemma queue_short links l h : chain links h l -> NoDup l -> (length l <= length links)%nat.
Proof.
  intros Hc Hnd. replace (length links) with (length (seq 0 (length links))) by apply length_seq. apply submseteq_length, NoDup_submseteq; [done|]. intros b Hb.
  apply elem_of_seq. pose proof (chain_bound _ _ _ Hc b Hb). lia.
Qed.

Lemma append_queue_spec b l (s : ide C) :
  chain (qnext s) (idequeue s) l -> NoDup l -> b ∉ l -> (b < length (qnext s))%nat ->
  exists links h, append_queue b s = Ret tt (set_idequeue h (set_qnext links s)) /\ length links = length (qnext s) /\
    chain links h (l ++ [b]) /\ (h = Some b <-> l = []).
Proof.
  intros Hc Hnd Hb Hlt. unfold append_queue. unfold bind at 1. unfold upd_qnext at 1. rewrite decide_True by done.
  set (s1 := set_qnext _ s). assert (Hc1 : chain (qnext s1) (idequeue s1) l).
  { apply (queue_ext (qnext s)); [|done]. intros x Hx. unfold s1. cbn. rewrite list_lookup_insert_ne; [done|]. by intros ->. }
  assert (Hb1 : qnext s1 !! b = Some None) by (cbn; by apply list_lookup_insert_eq). assert (Hl1 : length (qnext s1) = length (qnext s)) by (cbn; by rewrite length_insert).
  rewrite !bind_gets. destruct l as [|x l].
  - pose proof Hc1 as Hn. cbn in Hn. change (idequeue s1) with (idequeue s). rewrite Hn. eexists (qnext s1), (Some b). split; [by destruct s|]. split; [done|].
    split; [|done]. split; [done|]. by exists None.
  - pose proof Hc1 as [Eh _]. rewrite Eh in Hc1 |- *. pose proof (queue_short _ _ _ Hc1 Hnd) as Hq. cbn [length] in Hq.
    destruct (queue_end_spec l x (length (qnext s1)) s1 Hc1 ltac:(lia)) as (e & E & Hlast & He). step E. unfold upd_qnext. apply lookup_lt_Some in He as Hel.
    rewrite decide_True by done. destruct (exists_last (l := x :: l) ltac:(done)) as (l0 & e' & El). rewrite El in Hlast. rewrite last_last in Hlast. subst e'.
    exists (<[e := Some b]> (qnext s1)), (Some x). split; [destruct s; cbn in *; by subst|]. split; [by rewrite length_insert|]. rewrite El in *. split; [by apply chain_snoc|].
    split; [|by destruct l0]. intros [= ->]. exfalso. apply Hb. rewrite <- El. left.
Qed.

(** *** The operations *)

Lemma on_fs_ret {A} (m : M fs A) (s : ide C) a t : m (e_fs s) = Ret a t -> on_fs m s = Ret a (set_fs t s).
Proof. apply zoom_ret. Qed.
Lemma set_fs_id (s : ide C) : set_fs (e_fs s) s = s.
Proof. by destruct s. Qed.

Lemma get_buf_ide b v (s : ide C) : s_bufs (e_fs s) !! b = Some v -> on_fs (get_buf b) s = Ret v s.
Proof. intros E. by rewrite (on_fs_ret _ s _ _ (get_buf_eq b v _ E)), set_fs_id. Qed.

Definition locked_ide (s : ide C) : ide C := set_fs (set_s_locks (LkIde :: s_locks (e_fs s)) (e_fs s)) s.

Lemma acquire_ide (s : ide C) : LkIde ∉ s_locks (e_fs s) -> on_fs (acquire LkIde) s = Ret tt (locked_ide s).
Proof. intros Hl. exact (on_fs_ret _ s _ _ (acq_eq LkIde (e_fs s) Hl)). Qed.
Lemma release_ide h (s : ide C) : s_locks (e_fs s) = LkIde :: h -> LkIde ∉ h -> on_fs (release LkIde) s = Ret tt (set_fs (set_s_locks h (e_fs s)) s).
Proof. intros E Hl. exact (on_fs_ret _ s _ _ (rel_eq LkIde h (e_fs s) E Hl)). Qed.

Lemma not_valid v d : request d v -> negb (Z.land (b_flags v) (Z.lor B_VALID B_DIRTY) =? B_VALID) = true.
Proof. intros [_ _ _ [-> | ->]]; done. Qed.

(** Handing a request to the driver: the process goes to sleep with the request at the
    end of the queue. *)
Lemma iderw_submit b v l d s :
  ide_ok l d s -> b ∉ l -> s_bufs (e_fs s) !! b = Some v -> request d v -> b_lock v = Sleeplock 1 (s_pid (e_fs s)) ->
  (forall k, LkSleep k ∉ s_locks (e_fs s)) ->
  exists s', iderw b s = Block (ChBuf b) s' /\ ide_ok (l ++ [b]) d s' /\ e_fs s' = e_fs s.
Proof.
  intros [Hc Hnd Hlk Hbufs Hsz Hl Hd1 Hctl] Hb Hv Hrq Hown Hsl. unfold iderw.
  assert (Eh : on_fs (holdingsleep (SlBuf b)) s = Ret true s).
  { rewrite (on_fs_ret _ s _ _ (holdingsleep_buf b v _ Hv (Hsl _))), Hown. cbn [locked lk_pid]. by rewrite Z.eqb_refl, set_fs_id. }
  step Eh. cbn [negb]. step (get_buf_ide b v s Hv). pose proof (not_valid v d Hrq) as Hnv. apply negb_true_iff in Hnv as Hnv'. rewrite Hnv', bind_gets, Hd1, andb_false_r.
  step (acquire_ide s Hl). set (s1 := locked_ide s).
  destruct (append_queue_spec b l s1 Hc Hnd Hb) as (links & h & Ea & Hll & Hc2 & Hh); [cbn; rewrite Hlk; by eapply lookup_lt_Some|]. step Ea. rewrite bind_gets.
  set (s2 := set_idequeue h _). change (idequeue s2) with h. assert (Hv2 : s_bufs (e_fs s2) !! b = Some v) by done.
  assert (Hstart : exists c, (if bool_decide (h = Some b) then idestart b else ret tt) s2 = Ret tt (set_ctl c s2) /\
    match l ++ [b] with [] => True | x :: _ => forall w, s_bufs (e_fs s) !! x = Some w -> working d w c end).
  { destruct l as [|x l].
    - rewrite bool_decide_true by (by apply Hh). destruct (idestart_spec b v d s2 Hv2 Hrq Hsz Hctl) as (c & E & Hw). exists c. split; [done|].
      intros w Hw'. rewrite Hv in Hw'. by injection Hw' as <-.
    - rewrite bool_decide_false by (intros E%Hh; done). exists (ctl s2). split; [by rewrite set_ctl_ctl|done]. }
  destruct Hstart as (c & Es & Hw). step Es. set (s3 := set_ctl c s2). unfold iderw_wait. step (get_buf_ide b v s3 Hv). rewrite Hnv.
  step (release_ide (s_locks (e_fs s)) s3 eq_refl Hl). set (s4 := set_fs _ s3). exists s4. split; [done|].
  assert (Ef : e_fs s4 = e_fs s) by (cbn; by destruct (e_fs s)). split; [|done]. split; rewrite ?Ef; [exact Hc2| |exact (eq_trans Hll Hlk)| |done|done|done|].
  - apply NoDup_app. split; [done|]. split; [|apply NoDup_singleton]. intros x Hx Hx'%list_elem_of_singleton. by subst x.
  - intros x [Hx|Hx%list_elem_of_singleton]%elem_of_app; [by apply Hbufs|]. subst x. by exists v.
  - cbn [ctl s4 set_fs s3 set_ctl]. destruct (l ++ [b]) eqn:E; [by destruct l|done].
Qed.

(** The loop at the end of [iderw]. *)
Lemma iderw_resume_spec b v l d s :
  ide_ok l d s -> s_bufs (e_fs s) !! b = Some v -> b ∈ l \/ b_flags v = B_VALID ->
  iderw_resume b s = if bool_decide (b ∈ l) then Block (ChBuf b) s else Ret tt s.
Proof.
  intros [Hc Hnd Hlk Hbufs Hsz Hl Hd1 Hctl] Hv Hor. unfold iderw_resume. step (acquire_ide s Hl). set (s1 := locked_ide s). unfold iderw_wait.
  step (get_buf_ide b v s1 Hv). assert (Er : on_fs (release LkIde) s1 = Ret tt s) by (rewrite (release_ide (s_locks (e_fs s)) s1 eq_refl Hl); destruct s as [[]]; done).
  case_bool_decide as Hb.
  - destruct (Hbufs b Hb) as (w & Hw & Hrq). rewrite Hv in Hw. injection Hw as <-. rewrite (not_valid v d Hrq). by step Er.
  - destruct Hor as [|Hf]; [done|]. rewrite Hf. change (negb (Z.land B_VALID (Z.lor B_VALID B_DIRTY) =? B_VALID)) with false. exact Er.
Qed.

(** The effect of a request on its buffer and on the disk. *)
Definition transfer (d : list (list Z)) (v v' : buf) (d' : list (list Z)) : Prop :=
  if Z.land (b_flags v) B_DIRTY =? 0 then v' = set_b_flags B_VALID (set_b_data (dblock d (b_blockno v)) v) /\ d' = d
  else v' = set_b_flags B_VALID v /\ d' = <[Z.to_nat (b_blockno v) := b_data v]> d.
(** A read that failed: the buffer is marked valid with what it held. *)
Definition failed (d : list (list Z)) (v v' : buf) (d' : list (list Z)) : Prop := b_flags v = 0 /\ v' = set_b_flags B_VALID v /\ d' = d.

(** How the controller, now [c], ended the request decides between them. *)
Definition served (d : list (list Z)) (v : buf) (c : C) (v' : buf) (d' : list (list Z)) : Prop :=
  (Z.land (b_flags v) B_DIRTY <> 0 \/ read_done d (b_blockno v) c) /\ transfer d v v' d' \/ read_failed d c /\ failed d v v' d'.

Lemma upd_buf_ide b f v (s : ide C) : s_bufs (e_fs s) !! b = Some v ->
  on_fs (upd_buf b f) s = Ret tt (set_fs (set_bufs (<[b := f v]> (s_bufs (e_fs s))) (e_fs s)) s).
Proof. intros E. exact (on_fs_ret _ s _ _ (upd_buf_eq b f v _ E)). Qed.

(** The data part of the interrupt handler. *)
Lemma intr_data b v d c (K : M (ide C) unit) (s : ide C) :
  s_bufs (e_fs s) !! b = Some v -> request d v -> (exists c0, working d v c0 /\ completes c0 c) -> ctl s = c ->
  exists c' v' d', (v <- on_fs (get_buf b) ;;
     (if Z.land (b_flags v) B_DIRTY =? 0 then
        r <- idewait true ;;
        when 0 <=? r do (d <- in_words 496 (BSIZE / 4) ;; on_fs (upd_buf b (set_b_data d)))
      else ret tt) ;;;
     on_fs (upd_buf b (fun v => set_b_flags (Z.lor (b_flags v) B_VALID) v)) ;;;
     on_fs (upd_buf b (fun v => set_b_flags (Z.land (b_flags v) (Z.lnot B_DIRTY)) v)) ;;; K) s =
    K (set_ctl c' (set_fs (set_bufs (<[b := v']> (s_bufs (e_fs s))) (e_fs s)) s)) /\
    idle d' c' /\ served d v c v' d'.
Proof.
  intros Hv Hrq (c0 & Hw & Hc) Ec. apply lookup_lt_Some in Hv as Hlt. step (get_buf_ide b v s Hv).
  assert (Hflags : forall w (t : ide C), s_bufs (e_fs t) !! b = Some w -> b_flags w = 0 \/ b_flags w = 6 ->
    (on_fs (upd_buf b (fun v => set_b_flags (Z.lor (b_flags v) B_VALID) v)) ;;; on_fs (upd_buf b (fun v => set_b_flags (Z.land (b_flags v) (Z.lnot B_DIRTY)) v)) ;;; K) t =
    K (set_fs (set_bufs (<[b := set_b_flags B_VALID w]> (s_bufs (e_fs t))) (e_fs t)) t)).
  { intros w t Hw' Hfl. apply lookup_lt_Some in Hw' as Hlt'. step (upd_buf_ide b (fun v => set_b_flags (Z.lor (b_flags v) B_VALID) v) w t Hw'). set (t1 := set_fs _ t).
    assert (Hw1 : s_bufs (e_fs t1) !! b = Some (set_b_flags (Z.lor (b_flags w) B_VALID) w)) by (cbn; by apply list_lookup_insert_eq).
    step (upd_buf_ide b (fun v => set_b_flags (Z.land (b_flags v) (Z.lnot B_DIRTY)) v) _ t1 Hw1). f_equal. cbn. rewrite list_insert_insert_eq. by destruct Hfl as [-> | ->]. }
  unfold working in Hw. unfold served, transfer, failed. destruct Hrq as [_ _ _ Hfl].
  destruct (Z.eqb_spec (Z.land (b_flags v) B_DIRTY) 0) as [E0|E0].
  - assert (Ef : b_flags v = 0) by (destruct Hfl as [|Hfl]; [done|by rewrite Hfl in E0]). destruct (complete_read _ _ _ _ Hw Hc) as [Hd|Hd].
    + destruct (done_ready _ _ _ Hd) as (r & c1 & Ep & Hr & Hd1). rewrite <- Ec in Ep. rewrite bind_assoc. step (idewait_eq true s r c1 Ep). rewrite Hr. cbn [Z.eqb negb andb Z.leb Z.compare].
      destruct (data_in _ _ _ Hd1) as (c2 & Ei & Hid). rewrite bind_assoc. unfold bind at 1, in_words. cbn [ctl set_ctl]. rewrite Ei. set (s1 := set_ctl c2 (set_ctl c1 s)).
      assert (Hv1 : s_bufs (e_fs s1) !! b = Some v) by done. step (upd_buf_ide b (set_b_data (dblock d (b_blockno v))) v s1 Hv1). set (s2 := set_fs _ s1).
      assert (Hv2 : s_bufs (e_fs s2) !! b = Some (set_b_data (dblock d (b_blockno v)) v)) by (cbn; by apply list_lookup_insert_eq).
      rewrite (Hflags _ s2 Hv2) by (by left). exists c2, (set_b_flags B_VALID (set_b_data (dblock d (b_blockno v)) v)), d. split; [cbn; by rewrite list_insert_insert_eq|].
      split; [done|left]. split; [by right|done].
    + destruct (failed_ready _ _ Hd) as (r & c1 & Ep & Hr & Hid). rewrite <- Ec in Ep. rewrite bind_assoc. step (idewait_eq true s r c1 Ep). rewrite (proj2 (Z.eqb_neq _ 0) Hr).
      cbn [negb andb]. change (0 <=? -1) with false. cbv iota. set (s1 := set_ctl c1 s). step (@eq_refl _ (Ret tt s1)).
      assert (Hv1 : s_bufs (e_fs s1) !! b = Some v) by done. rewrite (Hflags v s1 Hv1 Hfl). exists c1, (set_b_flags B_VALID v), d. split; [done|]. split; [done|by right].
  - step (@eq_refl _ (Ret tt s)). rewrite (Hflags v s Hv Hfl). exists (ctl s), (set_b_flags B_VALID v), (<[Z.to_nat (b_blockno v) := b_data v]> d). split; [by destruct s|].
    split; [rewrite Ec; by eapply complete_write|left]. split; [by left|done].
Qed.

Lemma length_transfer d v c v' d' : served d v c v' d' -> length d' = length d.
Proof. unfold served, transfer, failed. intros [[_ Ht]|(_ & _ & _ & ->)]; [|done]. destruct (_ =? 0); destruct Ht as [_ ->]; [done|by rewrite length_insert]. Qed.
Lemma request_length d d' v : length d' = length d -> request d v -> request d' v.
Proof. intros E [H1 H2 H3 H4]. split; try done. by rewrite E. Qed.

(** The interrupt at the end of a request. *)
Lemma ideintr_spec b l d s c v :
  ide_ok (b :: l) d s -> completes (ctl s) c -> s_bufs (e_fs s) !! b = Some v ->
  exists v' d' s', ideintr (set_ctl c s) = Ret tt s' /\ ide_ok l d' s' /\ served d v c v' d' /\
    e_fs s' = set_wake (s_wake (e_fs s) ++ [ChBuf b]) (set_bufs (<[b := v']> (s_bufs (e_fs s))) (e_fs s)).
Proof.
  intros [Hc Hnd Hlk Hbufs Hsz Hl Hd1 Hctl] Hcomp Hv. destruct Hc as [Eq (nx & Hnx & Hc)]. apply NoDup_cons in Hnd as [Hbl Hnd].
  destruct (Hbufs b ltac:(left)) as (w & Hw & Hrq). rewrite Hv in Hw. injection Hw as <-. unfold ideintr. set (s0 := set_ctl c s).
  assert (Hl0 : LkIde ∉ s_locks (e_fs s0)) by done. step (acquire_ide s0 Hl0). set (s1 := locked_ide s0). rewrite bind_gets. change (idequeue s1) with (idequeue s). rewrite Eq.
  assert (En : get_qnext b s1 = Ret nx s1) by (unfold get_qnext; change (qnext s1) with (qnext s); by rewrite Hnx). step En. rewrite bind_modify. set (s2 := set_idequeue nx s1).
  destruct (intr_data b v d c (on_fs (wakeup (ChBuf b)) ;;; q <- gets idequeue ;; (match q with Some b' => idestart b' | None => ret tt end) ;;; on_fs (release LkIde)) s2)
    as (c' & v' & d' & E & Hidle & Htr); [done|done|by exists (ctl s); split; [apply Hctl|]|done|]. rewrite E. clear E. set (s3 := set_ctl c' _).
  pose proof (length_transfer _ _ _ _ _ Htr) as Hlen. set (t := set_wake (s_wake (e_fs s) ++ [ChBuf b]) (set_bufs (<[b := v']> (s_bufs (e_fs s))) (e_fs s))).
  set (t1 := set_s_locks (LkIde :: s_locks (e_fs s)) t).
  assert (Ew : on_fs (wakeup (ChBuf b)) s3 = Ret tt (set_fs t1 s3)) by (apply on_fs_ret; done). step Ew. rewrite bind_gets. set (s4 := set_fs t1 s3). change (idequeue s4) with nx.
  assert (Hother : forall x, x ∈ l -> exists w, s_bufs t !! x = Some w /\ request d' w).
  { intros x Hx. destruct (Hbufs x ltac:(by right)) as (w & Hw & Hrw). exists w. split; [|by eapply request_length]. cbn. rewrite list_lookup_insert_ne; [done|]. by intros ->. }
  assert (Hstart : exists c2, (match nx with Some b' => idestart b' | None => ret tt end) s4 = Ret tt (set_ctl c2 s4) /\
    match l with [] => idle d' c2 | x :: _ => forall w, s_bufs t !! x = Some w -> working d' w c2 end).
  { destruct l as [|x l].
    - cbn in Hc. subst nx. exists c'. split; [by destruct s|done].
    - destruct Hc as [-> _]. destruct (Hother x ltac:(left)) as (w & Hw & Hrw). destruct (idestart_spec x w d' s4 Hw Hrw ltac:(lia) Hidle) as (c2 & E2 & Hw2).
      exists c2. split; [done|]. intros w' Hw'. rewrite Hw in Hw'. by injection Hw' as <-. }
  destruct Hstart as (c2 & Es & Hw2). step Es. set (s5 := set_ctl c2 s4). rewrite (release_ide (s_locks (e_fs s)) s5 eq_refl Hl).
  exists v', d', (set_fs t s5). assert (Et : set_s_locks (s_locks (e_fs s)) (e_fs s5) = t) by (cbn; by destruct (e_fs s)). rewrite Et. split; [done|].
  split; [|split; [exact Htr|done]]. split; try done.
  - cbn. rewrite length_insert. done.
  - rewrite Hlen. done.
Qed.

(** What memide.c does at once. *)
Lemma transfer_memide b v v' d' (t : fs) :
  s_bufs t !! b = Some v -> request (s_disk t) v -> b_lock v = Sleeplock 1 (s_pid t) -> (forall k, LkSleep k ∉ s_locks t) ->
  transfer (s_disk t) v v' d' -> exists w, Bio.iderw b t = Ret tt (set_disk d' w (set_bufs (<[b := v']> (s_bufs t)) t)).
Proof.
  intros Hv [Hdev Hblk _ Hfl] Hown Hl Ht. unfold transfer in Ht. destruct Hfl as [Hf|Hf]; rewrite Hf in Ht; cbn in Ht; destruct Ht as [-> ->].
  - exists (s_writes t). rewrite (iderw_read b v t) by (done || lia). by destruct t.
  - eexists. rewrite (iderw_write b v t) by (done || lia). done.
Qed.

(** C24. The interrupt-driven IDE driver is a disk that works on a queue of requests.  Take
    any controller that obeys the laws of an IDE disk, and a driver with the queue [l]
    over the disk contents [d].  A process that calls [iderw] with a buffer it has locked
    goes to sleep with its buffer at the end of the queue.  The interrupt at the end of a
    command serves the request at the head of the queue.  For a write, and for a read of
    which the controller has the sector ready, buffer and disk become what the atomic
    [iderw] of memide.c makes of them; when the controller could not read the sector the
    disk stays and the buffer is marked valid with what it held.  The handler wakes the
    process, starts the next request, and leaves the other buffers alone.  An interrupt without a
    request does nothing.  A process that goes on returns if its request has been served
    and sleeps again otherwise. *)
Theorem ide_driver_correct l d s :
  ide_ok l d s ->
  (forall b v, b ∉ l -> s_bufs (e_fs s) !! b = Some v -> request d v -> b_lock v = Sleeplock 1 (s_pid (e_fs s)) ->
     (forall k, LkSleep k ∉ s_locks (e_fs s)) ->
     exists s', iderw b s = Block (ChBuf b) s' /\ ide_ok (l ++ [b]) d s' /\ e_fs s' = e_fs s) /\
  (forall b l' c v, l = b :: l' -> completes (ctl s) c -> s_bufs (e_fs s) !! b = Some v ->
     exists v' d' s', ideintr (set_ctl c s) = Ret tt s' /\ ide_ok l' d' s' /\
       e_fs s' = set_wake (s_wake (e_fs s) ++ [ChBuf b]) (set_bufs (<[b := v']> (s_bufs (e_fs s))) (e_fs s)) /\
       (read_failed d c /\ failed d v v' d' \/
        (Z.land (b_flags v) B_DIRTY <> 0 \/ read_done d (b_blockno v) c) /\
        forall t, s_bufs t !! b = Some v -> s_disk t = d -> b_lock v = Sleeplock 1 (s_pid t) -> (forall k, LkSleep k ∉ s_locks t) ->
          exists w, Bio.iderw b t = Ret tt (set_disk d' w (set_bufs (<[b := v']> (s_bufs t)) t)))) /\
  (l = [] -> ideintr s = Ret tt s) /\
  (forall b v, s_bufs (e_fs s) !! b = Some v -> b ∈ l \/ b_flags v = B_VALID ->
     iderw_resume b s = if bool_decide (b ∈ l) then Block (ChBuf b) s else Ret tt s).
Proof.
  intros Hok. split; [|split; [|split]].
  - intros b v Hb Hv Hrq Hown Hsl. by eapply iderw_submit.
  - intros b l' c v -> Hc Hv. destruct (ideintr_spec b l' d s c v Hok Hc Hv) as (v' & d' & s' & E & Hok' & Htr & Ef). exists v', d', s'. split; [done|]. split; [done|].
    split; [done|]. destruct Htr as [[Hwhy Htr]|Hfail]; [right; split; [done|]|by left]. intros t Hvt <- Hown Hsl. apply (transfer_memide b v); try done.
    destruct (ik_bufs _ _ _ Hok b ltac:(left)) as (w & Hw & Hrq). rewrite Hv in Hw. by injection Hw as <-.
  - intros ->. destruct Hok as [Hc _ _ _ _ Hl _ _]. cbn in Hc. unfold ideintr. step (acquire_ide s Hl). rewrite bind_gets. change (idequeue (locked_ide s)) with (idequeue s). rewrite Hc.
    rewrite (release_ide (s_locks (e_fs s)) (locked_ide s) eq_refl Hl). destruct s as [[]]. done.
  - intros b v Hv Hor. by eapply iderw_resume_spec.
Qed.
End Driver.

(** ** A controller *)

Module Example.

Inductive phase := Idle | Reading (n : Z) | Writing (n : Z) (b : option (list Z)) | Ready (n : Z) | Broken.
(** The disk, the registers, what it works on, and for how many reads of the status it is busy. *)
Record sim := Sim { m_disk : list (list Z); m_regs : gmap Z Z; m_phase : phase; m_busy : nat }.

Definition reg (c : sim) (r : Z) : Z := default 0 (m_regs c !! r).
Definition lba (c : sim) : Z := reg c 499 + 256 * reg c 500 + 65536 * reg c 501 + 16777216 * Z.land (reg c 502) 15.

#[export] Instance sim_ports : IdePorts sim := {|
  inb port c :=
    match m_busy c with
    | O => match m_phase c with Broken => (IDE_DRDY + IDE_ERR, Sim (m_disk c) (m_regs c) Idle 0) | _ => (IDE_DRDY, c) end
    | S k => (IDE_BSY, Sim (m_disk c) (m_regs c) (m_phase c) k)
    end;
  outb port v c :=
    let p := if port =? 503 then (if v =? IDE_CMD_READ then Reading (lba c) else Writing (lba c) None) else m_phase c in
    Sim (m_disk c) (<[port := v]> (m_regs c)) p (m_busy c);
  insl port n c := match m_phase c with Ready k => (dblock (m_disk c) k, Sim (m_disk c) (m_regs c) Idle (m_busy c)) | _ => ([], c) end;
  outsl port b c := match m_phase c with Writing k _ => Sim (m_disk c) (m_regs c) (Writing k (Some b)) (m_busy c) | _ => c end;
  patience := 2
|}.

Inductive sim_completes : sim -> sim -> Prop :=
| read_ok d r n k : sim_completes (Sim d r (Reading n) k) (Sim d r (Ready n) 1)
| read_bad d r n k : sim_completes (Sim d r (Reading n) k) (Sim d r Broken 1)
| write_ok d r n b k : sim_completes (Sim d r (Writing n (Some b)) k) (Sim (<[Z.to_nat n := b]> d) r Idle 1).

Definition phase_is (p : phase) (d : list (list Z)) (c : sim) : Prop := m_disk c = d /\ m_phase c = p /\ (m_busy c <= 2)%nat.

Lemma poll_ready c p d : phase_is p d c -> p <> Broken -> exists c', poll (S patience) c = Some (IDE_DRDY, c') /\ phase_is p d c'.
Proof.
  destruct c as [d0 r p0 k]. intros (H1 & H2 & H3) Hp. cbn in H1, H2, H3. subst d0 p0. exists (Sim d r p 0).
  split; [by destruct k as [|[|[|k]]]; [destruct p..|lia]|]. split; [done|]. split; [done|cbn; lia].
Qed.
Lemma poll_broken c d : phase_is Broken d c -> exists c', poll (S patience) c = Some (IDE_DRDY + IDE_ERR, c') /\ phase_is Idle d c'.
Proof. destruct c as [d0 r p0 k]. intros (H1 & H2 & H3). cbn in H1, H2, H3. subst d0 p0. exists (Sim d r Idle 0). split; [by destruct k as [|[|[|k]]]; [| | |lia]|]. split; [done|]. split; [done|cbn; lia]. Qed.

(** The registers hold the number of the sector. *)
Lemma lba_sum n : 0 <= n < 2 ^ 28 ->
  Z.land n 255 + 256 * Z.land (Z.shiftr n 8) 255 + 65536 * Z.land (Z.shiftr n 16) 255 +
  16777216 * Z.land (Z.lor (Z.lor 224 (Z.shiftl (Z.land 1 1) 4)) (Z.land (Z.shiftr n 24) 15)) 15 = n.
Proof.
  intros Hn. assert (E15 : forall x, 0 <= x < 16 -> Z.land (Z.lor (Z.lor 224 (Z.shiftl (Z.land 1 1) 4)) x) 15 = x).
  { intros x Hx. change (Z.lor 224 (Z.shiftl (Z.land 1 1) 4)) with 240. rewrite Z.land_lor_distr_l. change (Z.land 240 15) with 0. rewrite Z.lor_0_l.
    change 15 with (Z.ones 4). rewrite Z.land_ones by lia. by apply Z.mod_small. }
  change 255 with (Z.ones 8). rewrite !Z.land_ones, !Z.shiftr_div_pow2 by lia. change (Z.land (n / 2 ^ 24) 15) with (Z.land (n / 2 ^ 24) (Z.ones 4)). rewrite Z.land_ones by lia.
  rewrite E15 by (apply Z.mod_pos_bound; lia). assert (H24 : 0 <= n / 2 ^ 24 < 2 ^ 4) by (split; [apply Z.div_pos; lia|apply Z.div_lt_upper_bound; lia]).
  rewrite (Z.mod_small (n / 2 ^ 24)) by lia. pose proof (Z.div_mod n (2 ^ 8) ltac:(lia)) as E1. pose proof (Z.div_mod (n / 2 ^ 8) (2 ^ 8) ltac:(lia)) as E2.
  pose proof (Z.div_mod (n / 2 ^ 16) (2 ^ 8) ltac:(lia)) as E3. rewrite Z.div_div in E2 by lia. rewrite Z.div_div in E3 by lia.
  change (2 ^ 8 * 2 ^ 8) with (2 ^ 16) in E2. change (2 ^ 16 * 2 ^ 8) with (2 ^ 24) in E3. lia.
Qed.

Lemma program_phase n cmd p d c : 0 <= n < 2 ^ 28 -> phase_is p d c ->
  phase_is (if cmd =? IDE_CMD_READ then Reading n else Writing n None) d (program n cmd c).
Proof.
  intros Hn (H1 & _ & H3). split; [done|]. split; [|done]. unfold program. cbn [outb sim_ports m_phase Z.eqb Pos.eqb].
  match goal with |- context [lba ?x] => assert (El : lba x = n) end.
  { unfold lba, reg. cbn [m_regs outb sim_ports]. rewrite lookup_insert_ne, lookup_insert_ne, lookup_insert_ne, lookup_insert_eq by done.
    rewrite lookup_insert_ne, lookup_insert_ne, lookup_insert_eq by done. rewrite lookup_insert_ne, lookup_insert_eq, lookup_insert_eq by done. cbn [default from_option id].
    by apply lba_sum. }
  by rewrite El.
Qed.

#[export] Instance sim_disk : IdeDisk sim.
Proof.
  refine {| completes := sim_completes; idle := phase_is Idle; reading d n := phase_is (Reading n) d; writing d n b := phase_is (Writing n (Some b)) d;
    read_done d n := phase_is (Ready n) d; read_failed := phase_is Broken |}.
  - intros d c Hc. destruct (poll_ready c Idle d Hc) as (c' & E & Hc'); [done|]. by exists IDE_DRDY, c'.
  - intros d n c Hc. destruct (poll_ready c (Ready n) d Hc) as (c' & E & Hc'); [done|]. by exists IDE_DRDY, c'.
  - intros d c Hc. destruct (poll_broken c d Hc) as (c' & E & Hc'). by exists (IDE_DRDY + IDE_ERR), c'.
  - intros d n c Hc Hn Hmax. exact (program_phase n IDE_CMD_READ Idle d c ltac:(lia) Hc).
  - intros d n b c Hc Hn Hmax Hl. pose proof (program_phase n IDE_CMD_WRITE Idle d c ltac:(lia) Hc) as (H1 & H2 & H3). cbn [Z.eqb] in H2.
    split; cbn [outsl sim_ports]; rewrite H2; done.
  - intros d n c (H1 & H2 & H3). cbn [insl sim_ports]. rewrite H2, H1. eexists. split; [done|]. split; done.
  - intros d n c c' (H1 & H2 & H3) Hc. destruct Hc; cbn in *; try done; injection H2 as ->; subst; [left|right]; (split; [done|]; split; [done|cbn; lia]).
  - intros d n b c c' (H1 & H2 & H3) Hc. destruct Hc; cbn in *; try done. injection H2 as -> ->. subst. split; [done|]. split; [done|cbn; lia].
Defined.

(** A request to write block 1 of a disk of four blocks. *)
Definition zero_block : list Z := replicate BSIZE 0.
Definition disk : list (list Z) := replicate 4 zero_block.
Definition sevens : list Z := replicate BSIZE 7.
Definition buffer : buf := Buf 6 1 1 (Sleeplock 1 1) 1 sevens.
Definition start_fs : fs := Fs [] 1 None [] [buffer] [] [] [] [] (Log 0 0 0 0 0 0 []) (Superblock 0 0 0 0 0 0 0) [].
Definition start : ide sim := Ide start_fs None [None] true (Ioapic 0 ∅) (Sim disk ∅ Idle 2).

Lemma start_ok : ide_ok [] disk start.
Proof.
  split; [done|by apply NoDup_nil|done|by intros b []%elem_of_nil|done|apply not_elem_of_nil|done|]. split; [done|]. split; [done|cbn; lia].
Qed.
Lemma buffer_request : request disk buffer.
Proof. split; [done|cbn; lia|done|by right]. Qed.

Lemma ide_driver_correct_witness :
  exists s1 c s2, iderw 0 start = Block (ChBuf 0) s1 /\ iderw_resume 0 s1 = Block (ChBuf 0) s1 /\ completes (ctl s1) c /\
    ideintr (set_ctl c s1) = Ret tt s2 /\ ide_ok [] (<[1%nat := sevens]> disk) s2 /\ iderw_resume 0 s2 = Ret tt s2.
Proof.
  destruct (ide_driver_correct [] disk start start_ok) as (Hsub & _).
  destruct (Hsub 0%nat buffer) as (s1 & E1 & Hok1 & Ef1); [apply not_elem_of_nil|reflexivity|exact buffer_request|reflexivity|intros k; apply not_elem_of_nil|].
  destruct (ide_driver_correct [0%nat] disk s1 Hok1) as (_ & Hint & _ & Hres1).
  assert (Hb1 : s_bufs (e_fs s1) !! 0%nat = Some buffer) by (by rewrite Ef1).
  assert (Hc : exists c, completes (ctl s1) c).
  { pose proof (ik_ctl _ _ _ Hok1 buffer Hb1) as Hw. change (phase_is (Writing 1 (Some sevens)) disk (ctl s1)) in Hw. destruct (ctl s1) as [d0 r p k]. destruct Hw as (H1 & H2 & _).
    cbn in H1, H2. subst. eexists. apply write_ok. }
  destruct Hc as [c Hc]. destruct (Hint 0%nat [] c buffer eq_refl Hc Hb1) as (v' & d' & s2 & E2 & Hok2 & Ef2 & Hmem).
  destruct (ide_driver_correct [] d' s2 Hok2) as (_ & _ & _ & Hres2).
  assert (Hv' : v' = set_b_flags B_VALID buffer /\ d' = <[1%nat := sevens]> disk).
  { destruct Hmem as [(_ & Hf & _)|[_ Hmem]]; [discriminate|]. destruct (Hmem (set_disk disk [] start_fs) eq_refl eq_refl eq_refl ltac:(intros k; apply not_elem_of_nil)) as (w & Ew).
    rewrite (iderw_write 0 buffer) in Ew; [|reflexivity|intros k; apply not_elem_of_nil|reflexivity..]. split.
    - apply (f_equal (fun o => match o with Ret _ s => s_bufs s !! 0%nat | _ => None end)) in Ew.
      change (Some (set_b_flags B_VALID buffer) = Some v') in Ew. by injection Ew as <-.
    - apply (f_equal (fun o => match o with Ret _ s => s_disk s | _ => [] end)) in Ew. symmetry. exact Ew. }
  destruct Hv' as [-> ->].
  exists s1, c, s2. split; [exact E1|]. split; [exact (Hres1 0%nat buffer Hb1 (or_introl (list_elem_of_here _ _)))|]. split; [exact Hc|]. split; [exact E2|]. split; [exact Hok2|].
  apply (Hres2 0%nat (set_b_flags B_VALID buffer)); [|by right]. rewrite Ef2, Ef1. reflexivity.
Defined.
End Example.
