(* ===== verification/Pipe.v ===== *)
(** * pipe.c: pipes, and the state of the file layer

    The state of file.c and pipe.c with what they use: the file system, the page
    allocator, and of the running process its open files and whether it was killed.
    A pipe lives in a page of the allocator; [fl_pipes] gives the structure in each
    page that is one. *)

From S2P Require Import Prelude Mmu Mem Kalloc FsState.

Definition PIPESIZE : Z := 512.

(** [struct pipe]; its lock is [LkPipe] of its address. *)
Record pipe := Pipe { pp_data : list Z; pp_nread : Z; pp_nwrite : Z; pp_readopen : Z; pp_writeopen : Z }.

Inductive fdtype := FD_NONE | FD_PIPE | FD_INODE.

(** [struct file]; null pointers are [0] and [None]. *)
Record file := File {
  f_type : fdtype; f_ref : Z; f_readable : Z; f_writable : Z; f_pipe : Z; f_ip : option nat; f_off : Z
}.

Record fl := Fl {
  fl_mach : machine;
  fl_fs : fs;
  fl_pipes : gmap Z pipe;
  fl_files : list file;          (* ftable.file *)
  fl_ofile : list (option nat);  (* myproc()->ofile *)
  fl_killed : Z                  (* myproc()->killed *)
}.

Definition set_fl_mach v s := Fl v (fl_fs s) (fl_pipes s) (fl_files s) (fl_ofile s) (fl_killed s).
Definition set_fl_fs v s := Fl (fl_mach s) v (fl_pipes s) (fl_files s) (fl_ofile s) (fl_killed s).
Definition set_pipes v s := Fl (fl_mach s) (fl_fs s) v (fl_files s) (fl_ofile s) (fl_killed s).
Definition set_files v s := Fl (fl_mach s) (fl_fs s) (fl_pipes s) v (fl_ofile s) (fl_killed s).
Definition set_fl_ofile v s := Fl (fl_mach s) (fl_fs s) (fl_pipes s) (fl_files s) v (fl_killed s).

(** One processor runs the code: the locks it holds are those of the file system. *)
Definition set_fl_locks h s := set_fl_fs (set_s_locks h (fl_fs s)) s.
#[export] Program Instance fl_locks : LockState fl := {|
  held s := s_locks (fl_fs s); set_held := set_fl_locks |}.
Next Obligation. done. Qed.
Next Obligation. done. Qed.
Next Obligation. by intros [? [] ? ? ? ?]. Qed.

Definition infs {A} (m : M fs A) : M fl A := zoom fl_fs set_fl_fs m.
Definition inmach {A} (m : M machine A) : M fl A :=
  zoom (fun s => set_m_held (s_locks (fl_fs s)) (fl_mach s)) (fun v s => set_fl_locks (m_held v) (set_fl_mach v s)) m.

Definition wake (ch : chan) : M fl unit := infs (FsState.wakeup ch).

(** A use of the pipe at address [p]; a page that is not a pipe is not read as one. *)
Definition get_pipe (p : Z) : M fl pipe := fun s =>
  match fl_pipes s !! p with Some v => Ret v s | None => UB "pipe" end.
Definition upd_pipe (p : Z) (f : pipe -> pipe) : M fl unit := fun s =>
  match fl_pipes s !! p with Some v => Ret tt (set_pipes (<[p := f v]> (fl_pipes s)) s) | None => UB "pipe" end.

Definition set_readopen v q := Pipe (pp_data q) (pp_nread q) (pp_nwrite q) v (pp_writeopen q).
Definition set_writeopen v q := Pipe (pp_data q) (pp_nread q) (pp_nwrite q) (pp_readopen q) v.

Section Pipe.
Context (kend : Z).

Definition free_pipe (p : Z) : M fl unit :=
  inmach (kfree kend p) ;;; modify (fun s => set_pipes (delete p (fl_pipes s)) s).

Definition pipeclose (p : Z) (writable : Z) : M fl unit :=
  acquire (LkPipe p) ;;;
  (if negb (writable =? 0) then upd_pipe p (set_writeopen 0) ;;; wake (ChPipeRead p)
   else upd_pipe p (set_readopen 0) ;;; wake (ChPipeWrite p)) ;;;
  q <- get_pipe p ;;
  if (pp_readopen q =? 0) && (pp_writeopen q =? 0) then
    release (LkPipe p) ;;;
    free_pipe p
  else release (LkPipe p).

(** [p->data[p->nwrite++ % PIPESIZE] = c]. *)
Definition push (c : Z) (q : pipe) : pipe :=
  Pipe (<[Z.to_nat (pp_nwrite q mod PIPESIZE) := c]> (pp_data q)) (pp_nread q) (u32 (pp_nwrite q + 1)) (pp_readopen q) (pp_writeopen q).

Definition pipe_full (q : pipe) : bool := pp_nwrite q =? u32 (pp_nread q + PIPESIZE).

(** The loop of [pipewrite] on the bytes that are left; [n] is the result of the call.
    [inr rest] means that the process went to sleep on [&p->nwrite], with [rest] still
    to write. *)
Fixpoint pipewrite_loop (p : Z) (n : Z) (rest : list Z) : M fl (Z + list Z) :=
  match rest with
  | [] =>
    wake (ChPipeRead p) ;;;
    release (LkPipe p) ;;;
    ret (inl n)
  | c :: rest' =>
    q <- get_pipe p ;;
    if pipe_full q then
      killed <- gets fl_killed ;;
      if (pp_readopen q =? 0) || negb (killed =? 0) then
        release (LkPipe p) ;;; ret (inl (-1))
      else
        wake (ChPipeRead p) ;;;
        release (LkPipe p) ;;; ret (inr rest)
    else
      upd_pipe p (push c) ;;;
      pipewrite_loop p n rest'
  end.
(** [pipewrite], and what it does when it goes on after a sleep with [rest] left. *)
Definition pipewrite_from (p n : Z) (rest : list Z) : M fl (Z + list Z) :=
  acquire (LkPipe p) ;;; pipewrite_loop p n rest.
Definition pipewrite (p : Z) (addr : list Z) (n : Z) : M fl (Z + list Z) := pipewrite_from p n (take (Z.to_nat n) addr).

Definition pipe_empty (q : pipe) : bool := pp_nread q =? pp_nwrite q.
(** [p->data[p->nread++ % PIPESIZE]]. *)
Definition pop (q : pipe) : Z * pipe :=
  (nth (Z.to_nat (pp_nread q mod PIPESIZE)) (pp_data q) 0,
   Pipe (pp_data q) (u32 (pp_nread q + 1)) (pp_nwrite q) (pp_readopen q) (pp_writeopen q)).

Fixpoint piperead_loop (p : Z) (n : nat) : M fl (list Z) :=
  match n with
  | O => ret []
  | S n =>
    q <- get_pipe p ;;
    if pipe_empty q then ret [] else
    upd_pipe p (fun q => snd (pop q)) ;;;
    bs <- piperead_loop p n ;;
    ret (fst (pop q) :: bs)
  end.
(** [piperead]; the result is the number of bytes and the bytes.  A process that sleeps
    on [&p->nread] goes on by testing the condition of the loop again, which is what
    another call does. *)
Definition piperead (p : Z) (n : Z) : M fl (Z * list Z) :=
  acquire (LkPipe p) ;;;
  q <- get_pipe p ;;
  if pipe_empty q && negb (pp_writeopen q =? 0) then
    killed <- gets fl_killed ;;
    if negb (killed =? 0) then release (LkPipe p) ;;; ret (-1, []) else
    release (LkPipe p) ;;; block (ChPipeRead p)
  else
    bs <- piperead_loop p (Z.to_nat n) ;;
    wake (ChPipeWrite p) ;;;
    release (LkPipe p) ;;;
    ret (Z.of_nat (length bs), bs).

End Pipe.
