(* ===== verification/PipeProps.v ===== *)
(** * A pipe is a bounded queue

    [queue] reads the bytes between [nread] and [nwrite] off the circular buffer.  The
    counters are 32-bit and wrap around; since [PIPESIZE] divides [2 ^ 32] the buffer
    positions stay in step. *)

From S2P Require Import Prelude Mmu Mem Kalloc FsState Pipe.

(** ** The buffer *)

Definition count (q : pipe) : Z := u32 (pp_nwrite q - pp_nread q).
Definition queue (q : pipe) : list Z := window PIPESIZE (pp_data q) (pp_nread q) (Z.to_nat (count q)).

Record pipe_ok (q : pipe) : Prop := {
  po_data : length (pp_data q) = Z.to_nat PIPESIZE;
  po_read : 0 <= pp_nread q < 2 ^ 32;
  po_write : 0 <= pp_nwrite q < 2 ^ 32;
  po_count : count q <= PIPESIZE
}.

Lemma count_nonneg q : 0 <= count q.
Proof. apply u32_bound. Qed.

Lemma length_queue q : Z.of_nat (length (queue q)) = count q.
Proof. unfold queue. rewrite length_ring. pose proof (count_nonneg q). lia. Qed.

Lemma pipesize_div : (PIPESIZE | 2 ^ 32).
Proof. by exists (2 ^ 23). Qed.

Lemma empty_spec q : pipe_ok q -> pipe_empty q = true <-> queue q = [].
Proof.
  intros [_ Hr Hw _]. unfold pipe_empty. rewrite Z.eqb_eq, <- (u32_dist_zero _ _ Hr Hw). fold (count q). rewrite <- length_queue. split.
  - intros E. by apply nil_length_inv, Nat2Z.inj.
  - by intros ->.
Qed.

Lemma full_spec q : pipe_ok q -> pipe_full q = true <-> count q = PIPESIZE.
Proof. intros [_ Hr Hw _]. unfold pipe_full, count. rewrite Z.eqb_eq. symmetry. apply u32_dist_is; [done|done]. Qed.

Lemma push_spec c q :
  pipe_ok q -> pipe_full q = false -> pipe_ok (push c q) /\ queue (push c q) = queue q ++ [c].
Proof.
  intros Hq Hf. assert (Hc : count q < PIPESIZE).
  { pose proof (po_count q Hq). destruct (decide (count q = PIPESIZE)) as [E|]; [|lia]. apply full_spec in E; [congruence|done]. }
  destruct Hq as [Hd Hr Hw _]. pose proof (count_nonneg q). assert (Ec : count (push c q) = count q + 1).
  { unfold count, push, PIPESIZE in *. by apply u32_dist_up; [|lia]. }
  split.
  - split; [cbn; by rewrite length_insert|done|apply u32_bound|lia].
  - unfold queue. rewrite Ec. replace (Z.to_nat (count q + 1)) with (S (Z.to_nat (count q))) by lia.
    apply ring_push; [done|done|lia|]. rewrite Z2Nat.id by done. unfold count.
    rewrite <- (u32_mod_ring _ pipesize_div (pp_nread q + _)), u32_dist_add; done.
Qed.

Lemma pop_spec q :
  pipe_ok q -> pipe_empty q = false -> pipe_ok (snd (pop q)) /\ queue q = fst (pop q) :: queue (snd (pop q)).
Proof.
  intros Hq He. assert (Hc : 0 < count q).
  { pose proof (count_nonneg q). destruct (decide (count q = 0)) as [E|]; [|lia]. exfalso. rewrite <- length_queue in E.
    destruct (queue q) eqn:Eq; [|cbn in E; lia]. apply empty_spec in Eq; [congruence|done]. }
  destruct Hq as [Hd Hr Hw Hcnt]. assert (Ec : count (snd (pop q)) = count q - 1) by (by apply u32_dist_down).
  split; [split; [done|apply u32_bound|done|lia]|].
  unfold queue. rewrite Ec. replace (Z.to_nat (count q)) with (S (Z.to_nat (count q - 1))) by lia.
  apply ring_pop, pipesize_div.
Qed.

(** ** The calls *)

Lemma fl_acq l s : l ∉ s_locks (fl_fs s) -> acquire l s = Ret tt (set_fl_locks (l :: s_locks (fl_fs s)) s).
Proof. exact (acquire_free (S := fl) l s). Qed.
Lemma fl_rel l h s : s_locks (fl_fs s) = l :: h -> l ∉ h -> release l s = Ret tt (set_fl_locks h s).
Proof. exact (release_top (S := fl) l h s). Qed.
Lemma get_pipe_eq p q s : fl_pipes s !! p = Some q -> get_pipe p s = Ret q s.
Proof. intros H. unfold get_pipe. by rewrite H. Qed.
Lemma upd_pipe_eq p f q s : fl_pipes s !! p = Some q -> upd_pipe p f s = Ret tt (set_pipes (<[p := f q]> (fl_pipes s)) s).
Proof. intros H. unfold upd_pipe. by rewrite H. Qed.

(** What a call leaves alone: everything but the pipe, the locks and the wakeups. *)
Record same_files (p : Z) (s s' : fl) : Prop := {
  sl_mach : fl_mach s' = fl_mach s;
  sl_files : fl_files s' = fl_files s;
  sl_ofile : fl_ofile s' = fl_ofile s;
  sl_killed : fl_killed s' = fl_killed s;
  sl_pipes : forall k, k <> p -> fl_pipes s' !! k = fl_pipes s !! k;
  sl_fs : exists w, fl_fs s' = set_wake w (set_s_locks (s_locks (fl_fs s')) (fl_fs s))
}.

Lemma same_files_refl p s : same_files p s s.
Proof. split; try done. exists (s_wake (fl_fs s)). by destruct (fl_fs s). Qed.

Lemma same_files_trans p s1 s2 s3 : same_files p s1 s2 -> same_files p s2 s3 -> same_files p s1 s3.
Proof.
  intros [? ? ? ? P1 [w1 F1]] [? ? ? ? P2 [w2 F2]]. split; try congruence; [intros k Hk; by rewrite P2, P1|].
  exists w2. rewrite F2, F1. by destruct (fl_fs s1).
Qed.

(** The pipe [q] at [p] becomes [q'], while the locks become [h]. *)
Record moved (p : Z) (h : list lockid) (q' : pipe) (s s' : fl) : Prop := {
  mv_pipe : fl_pipes s' !! p = Some q';
  mv_ok : pipe_ok q';
  mv_locks : s_locks (fl_fs s') = h;
  mv_same : same_files p s s'
}.

Lemma wake_release p ch h q s :
  fl_pipes s !! p = Some q -> pipe_ok q -> s_locks (fl_fs s) = LkPipe p :: h -> LkPipe p ∉ h ->
  exists s', (forall A (k : M fl A), (wake ch ;;; release (LkPipe p) ;;; k) s = k s') /\ moved p h q s s'.
Proof.
  intros Hq Hok Hl Hn. set (s1 := set_fl_fs (set_wake (s_wake (fl_fs s) ++ [ch]) (fl_fs s)) s).
  exists (set_fl_locks h s1). split.
  - intros A k. step (@eq_refl _ (wake ch s)). change (zoom _ _ _ s) with (Ret tt s1). cbv iota beta.
    step (fl_rel (LkPipe p) h s1 Hl Hn). done.
  - split; try done. split; try done. eexists. reflexivity.
Qed.

Lemma release_only p h q s :
  fl_pipes s !! p = Some q -> pipe_ok q -> s_locks (fl_fs s) = LkPipe p :: h -> LkPipe p ∉ h ->
  release (LkPipe p) s = Ret tt (set_fl_locks h s) /\ moved p h q s (set_fl_locks h s).
Proof.
  intros Hq Hok Hl Hn. split; [by apply fl_rel|]. split; try done. split; try done.
  exists (s_wake (fl_fs s)). by destruct s as [? []].
Qed.

(** How [pipewrite] ends, having written [w] and not [rest]. *)
Definition write_result (n : Z) (q' : pipe) (killed : Z) (rest : list Z) (r : Z + list Z) : Prop :=
  match r with
  | inr rest' => rest' = rest /\ rest <> [] /\ count q' = PIPESIZE /\ pp_readopen q' <> 0 /\ killed = 0
  | inl v => v = n /\ rest = [] \/
             v = -1 /\ rest <> [] /\ count q' = PIPESIZE /\ (pp_readopen q' = 0 \/ killed <> 0)
  end.

Lemma pipewrite_loop_spec p n bs : forall h q s,
  fl_pipes s !! p = Some q -> pipe_ok q -> s_locks (fl_fs s) = LkPipe p :: h -> LkPipe p ∉ h ->
  exists r w rest q' s', pipewrite_loop p n bs s = Ret r s' /\ bs = w ++ rest /\ moved p h q' s s' /\
    queue q' = queue q ++ w /\ pp_readopen q' = pp_readopen q /\ pp_writeopen q' = pp_writeopen q /\
    pp_nread q' = pp_nread q /\ pp_nwrite q' = u32 (pp_nwrite q + Z.of_nat (length w)) /\
    write_result n q' (fl_killed s) rest r.
Proof.
  induction bs as [|c bs IH]; intros h q s Hq Hok Hl Hn; cbn [pipewrite_loop].
  - destruct (wake_release p (ChPipeRead p) h q s Hq Hok Hl Hn) as (s' & E & Mv). exists (inl n), [], [], q, s'.
    rewrite E, !app_nil_r, Z.add_0_r, u32_id by apply Hok. split_and!; try done. by left.
  - step (get_pipe_eq p q s Hq). destruct (pipe_full q) eqn:Ef.
    + apply full_spec in Ef as Hc; [|done]. rewrite bind_gets. exists (if (pp_readopen q =? 0) || negb (fl_killed s =? 0) then inl (-1) else inr (c :: bs)), [], (c :: bs), q.
      rewrite !app_nil_r, Z.add_0_r, u32_id by apply Hok.
      destruct (Z.eqb_spec (pp_readopen q) 0) as [Hro|Hro], (Z.eqb_spec (fl_killed s) 0) as [Hk|Hk]; cbn [orb negb].
      4: { destruct (release_only p h q s Hq Hok Hl Hn) as [E Mv]. exists (set_fl_locks h s). step E. split_and!; try done. right. auto. }
      3: { destruct (wake_release p (ChPipeRead p) h q s Hq Hok Hl Hn) as (s' & E & Mv). exists s'. rewrite E. by split_and!. }
      all: destruct (release_only p h q s Hq Hok Hl Hn) as [E Mv]; exists (set_fl_locks h s); step E; split_and!; try done; right; auto.
    + destruct (push_spec c q Hok Ef) as [Hok' Hq']. step (upd_pipe_eq p (push c) q s Hq). set (s1 := set_pipes _ s).
      destruct (IH h (push c q) s1) as (r & w & rest & q' & s' & E & -> & [M1 M2 M3 M4] & Hw & Hro & Hwo & Hnr & Hnw & Hr); try done.
      { cbn. by rewrite lookup_insert_eq. }
      exists r, (c :: w), rest, q', s'. rewrite E. split_and!; try done.
      * split; try done. eapply same_files_trans; [|done]. split; try done; [intros k Hk; cbn; by rewrite lookup_insert_ne|].
        exists (s_wake (fl_fs s)). by destruct s as [? []].
      * by rewrite Hw, Hq', <- app_assoc.
      * rewrite Hnw. cbn [push pp_nwrite length]. unfold u32. rewrite Zplus_mod_idemp_l. f_equal. lia.
Qed.

Lemma piperead_loop_spec p n : forall h q s,
  fl_pipes s !! p = Some q -> pipe_ok q -> s_locks (fl_fs s) = h ->
  exists bs q' s', piperead_loop p n s = Ret bs s' /\ moved p h q' s s' /\ queue q = bs ++ queue q' /\
    length bs = Nat.min n (length (queue q)) /\ pp_readopen q' = pp_readopen q /\ pp_writeopen q' = pp_writeopen q /\
    pp_nwrite q' = pp_nwrite q.
Proof.
  induction n as [|n IH]; intros h q s Hq Hok Hl; cbn [piperead_loop].
  - exists [], q, s. split_and!; try done. split; try done. apply same_files_refl.
  - step (get_pipe_eq p q s Hq). destruct (pipe_empty q) eqn:Ee.
    + apply empty_spec in Ee; [|done]. exists [], q, s. rewrite Ee. split_and!; try done. split; try done. apply same_files_refl.
    + destruct (pop_spec q Hok Ee) as [Hok' Hq']. step (upd_pipe_eq p (fun q => snd (pop q)) q s Hq). set (s1 := set_pipes _ s).
      destruct (IH h (snd (pop q)) s1) as (bs & q' & s' & E & [M1 M2 M3 M4] & Hb & Hlen & Hro & Hwo & Hnw); try done.
      { cbn. by rewrite lookup_insert_eq. }
      step E. exists (fst (pop q) :: bs), q', s'. split_and!; try done.
      * split; try done. eapply same_files_trans; [|done]. split; try done; [intros k Hk; cbn; by rewrite lookup_insert_ne|].
        exists (s_wake (fl_fs s)). by destruct s as [? []].
      * by rewrite Hq', Hb.
      * rewrite Hq'. cbn [length]. rewrite Hlen. lia.
Qed.

Lemma pipewrite_spec p n bs q s :
  fl_pipes s !! p = Some q -> pipe_ok q -> LkPipe p ∉ s_locks (fl_fs s) ->
  exists r w rest q' s', pipewrite_from p n bs s = Ret r s' /\ bs = w ++ rest /\ moved p (s_locks (fl_fs s)) q' s s' /\
    queue q' = queue q ++ w /\ pp_readopen q' = pp_readopen q /\ pp_writeopen q' = pp_writeopen q /\
    pp_nread q' = pp_nread q /\ pp_nwrite q' = u32 (pp_nwrite q + Z.of_nat (length w)) /\
    write_result n q' (fl_killed s) rest r.
Proof.
  intros Hq Hok Hn. unfold pipewrite_from. step (fl_acq _ s Hn). set (s1 := set_fl_locks _ s).
  destruct (pipewrite_loop_spec p n bs (s_locks (fl_fs s)) q s1 Hq Hok eq_refl Hn)
    as (r & w & rest & q' & s' & E & Hb & [M1 M2 M3 M4] & Hrest).
  exists r, w, rest, q', s'. split; [done|]. split; [done|]. split; [|done]. split; try done.
  eapply same_files_trans; [|done]. split; try done. exists (s_wake (fl_fs s)). by destruct s as [? []].
Qed.

(** How [piperead] ends. *)
Definition read_result (p n : Z) (q q' : pipe) (killed : Z) (s' : fl) (o : outcome fl (Z * list Z)) : Prop :=
  if bool_decide (queue q = []) && negb (pp_writeopen q =? 0) then
    q' = q /\ o = if negb (killed =? 0) then Ret (-1, []) s' else Block (ChPipeRead p) s'
  else exists bs, o = Ret (Z.of_nat (length bs), bs) s' /\ queue q = bs ++ queue q' /\
    length bs = Nat.min (Z.to_nat n) (length (queue q)) /\ pp_nwrite q' = pp_nwrite q.

Lemma piperead_spec p n q s :
  fl_pipes s !! p = Some q -> pipe_ok q -> LkPipe p ∉ s_locks (fl_fs s) ->
  exists q' s', read_result p n q q' (fl_killed s) s' (piperead p n s) /\ moved p (s_locks (fl_fs s)) q' s s' /\
    pp_readopen q' = pp_readopen q /\ pp_writeopen q' = pp_writeopen q.
Proof.
  intros Hq Hok Hn. unfold piperead. step (fl_acq _ s Hn). set (s1 := set_fl_locks _ s).
  assert (F1 : same_files p s s1) by (split; try done; exists (s_wake (fl_fs s)); by destruct s as [? []]).
  step (get_pipe_eq p q s1 Hq). unfold read_result.
  replace (bool_decide (queue q = [])) with (pipe_empty q).
  2: { destruct (pipe_empty q) eqn:E; symmetry; [by apply bool_decide_eq_true_2, empty_spec|].
       apply bool_decide_eq_false_2. intros H%empty_spec; [congruence|done]. }
  destruct (pipe_empty q && negb (pp_writeopen q =? 0)).
  - rewrite bind_gets. change (fl_killed s1) with (fl_killed s).
    destruct (release_only p (s_locks (fl_fs s)) q s1 Hq Hok eq_refl Hn) as [E [M1 M2 M3 M4]].
    exists q, (set_fl_locks (s_locks (fl_fs s)) s1). split; [|split; [|done]].
    + split; [done|]. destruct (negb (fl_killed s =? 0)); by step E.
    + split; try done. by eapply same_files_trans.
  - destruct (piperead_loop_spec p (Z.to_nat n) _ q s1 Hq Hok eq_refl) as (bs & q' & s2 & E & [M1 M2 M3 M4] & Hb & Hlen & Hro & Hwo & Hnw).
    step E. destruct (wake_release p (ChPipeWrite p) (s_locks (fl_fs s)) q' s2 M1 M2 M3 Hn) as (s3 & E3 & [N1 N2 N3 N4]).
    rewrite E3. exists q', s3. split; [exists bs; by split_and!|]. split; [|done]. split; try done.
    eapply same_files_trans; [done|]. by eapply same_files_trans.
Qed.

(** The calls on a pipe, as operations of a bounded queue.  [pipewrite] appends a
    prefix of its bytes: all of them, and returns their number; or as many as fit, and
    then sleeps when the read end is open, or returns -1 when it is closed or the process
    was killed.  [piperead] takes the first bytes of the queue, as many as there are up
    to [n]; on an empty queue it returns 0 when the write end is closed, and otherwise
    sleeps, or returns -1 when the process was killed.  The order of the bytes survives
    the wrap-around of the counters. *)
Theorem pipe_calls_correct p n bs q s :
  fl_pipes s !! p = Some q -> pipe_ok q -> LkPipe p ∉ s_locks (fl_fs s) ->
  (exists r w rest q' s', pipewrite p bs n s = Ret r s' /\ take (Z.to_nat n) bs = w ++ rest /\
     moved p (s_locks (fl_fs s)) q' s s' /\ queue q' = queue q ++ w /\ write_result n q' (fl_killed s) rest r) /\
  (exists q' s', read_result p n q q' (fl_killed s) s' (piperead p n s) /\ moved p (s_locks (fl_fs s)) q' s s').
Proof.
  intros Hq Hok Hn. split.
  - destruct (pipewrite_spec p n (take (Z.to_nat n) bs) q s Hq Hok Hn) as (r & w & rest & q' & s' & E & Hb & Mv & Hw & _ & _ & _ & _ & Hr).
    by exists r, w, rest, q', s'.
  - destruct (piperead_spec p n q s Hq Hok Hn) as (q' & s' & Hr & Mv & _). by exists q', s'.
Qed.

(** ** Readers and writers in any order *)

(** A pipe's lock makes each stretch of a call between two sleeps one step, so any
    interleaving of processes on a pipe is a sequence of such stretches. *)
Inductive call := CWrite (n : Z) (rest : list Z) | CRead (n : Z).

(** Run one; the bytes that went in and those that came out. *)
Definition run_call (p : Z) (c : call) : M fl (list Z * list Z) :=
  match c with
  | CWrite n rest =>
    q <- get_pipe p ;;
    pipewrite_from p n rest ;;;
    q' <- get_pipe p ;;
    ret (take (Z.to_nat (u32 (pp_nwrite q' - pp_nwrite q))) rest, [])
  | CRead n =>
    r <- (fun s => match piperead p n s with Block _ s' => Ret (0, []) s' | o => o end) ;;
    ret ([], snd r)
  end.
Fixpoint run_calls (p : Z) (cs : list call) : M fl (list Z * list Z) :=
  match cs with
  | [] => ret ([], [])
  | c :: cs => x <- run_call p c ;; y <- run_calls p cs ;; ret (fst x ++ fst y, snd x ++ snd y)
  end.

Lemma run_call_spec p c q s :
  fl_pipes s !! p = Some q -> pipe_ok q -> LkPipe p ∉ s_locks (fl_fs s) ->
  exists ins outs q' s', run_call p c s = Ret (ins, outs) s' /\ moved p (s_locks (fl_fs s)) q' s s' /\
    queue q ++ ins = outs ++ queue q'.
Proof.
  intros Hq Hok Hn. destruct c as [n rest|n]; cbn [run_call].
  - step (get_pipe_eq p q s Hq).
    destruct (pipewrite_spec p n rest q s Hq Hok Hn) as (r & w & left & q' & s' & E & -> & Mv & Hw & _ & _ & Hnr & Hnw & Hr).
    step E. step (get_pipe_eq p q' s' (mv_pipe _ _ _ _ _ Mv)). exists w, [], q', s'.
    assert (Hlen : Z.of_nat (length w) <= PIPESIZE).
    { pose proof (po_count q' (mv_ok _ _ _ _ _ Mv)) as H. rewrite <- length_queue, Hw, length_app in H. lia. }
    replace (Z.to_nat (u32 (pp_nwrite q' - pp_nwrite q))) with (length w).
    + rewrite take_app_length. split; [done|]. by split.
    + rewrite Hnw. unfold u32, PIPESIZE in *. rewrite Zminus_mod_idemp_l.
      replace (pp_nwrite q + Z.of_nat (length w) - pp_nwrite q) with (Z.of_nat (length w)) by lia. rewrite Z.mod_small; lia.
  - destruct (piperead_spec p n q s Hq Hok Hn) as (q' & s' & Hr & Mv & _). unfold read_result in Hr. unfold bind.
    destruct (bool_decide (queue q = []) && negb (pp_writeopen q =? 0)).
    + destruct Hr as [-> Hr]. exists [], [], q, s'. rewrite Hr, app_nil_r.
      destruct (negb (fl_killed s =? 0)); done.
    + destruct Hr as (bs & Hr & Hb & _). exists [], bs, q', s'. rewrite Hr, app_nil_r. done.
Qed.

(** C26. First in, first out: whatever readers and writers do to a pipe and in whatever
    order, no call panics, the bytes that went in come out in that order without loss or
    repetition, the rest are in the pipe, and the pipe never holds more than
    [PIPESIZE]. *)
Theorem pipe_fifo p cs q s :
  fl_pipes s !! p = Some q -> pipe_ok q -> LkPipe p ∉ s_locks (fl_fs s) ->
  exists ins outs q' s', run_calls p cs s = Ret (ins, outs) s' /\ fl_pipes s' !! p = Some q' /\
    queue q ++ ins = outs ++ queue q' /\ Z.of_nat (length (queue q')) <= PIPESIZE.
Proof.
  revert q s. induction cs as [|c cs IH]; intros q s Hq Hok Hn; cbn [run_calls].
  - exists [], [], q, s. rewrite app_nil_r, length_queue. split_and!; try done. apply Hok.
  - destruct (run_call_spec p c q s Hq Hok Hn) as (ins & outs & q1 & s1 & E & [M1 M2 M3 M4] & H1). step E.
    destruct (IH q1 s1 M1 M2) as (ins' & outs' & q2 & s2 & E2 & Hq2 & H2 & Hl); [by rewrite M3|]. step E2.
    exists (ins ++ ins'), (outs ++ outs'), q2, s2. split_and!; try done. cbn [fst snd].
    by rewrite app_assoc, H1, <- app_assoc, H2, app_assoc.
Qed.

Module Example.

(** A pipe whose counters are about to wrap around. *)
Definition pipe0 : pipe := Pipe (replicate 512 0) (2 ^ 32 - 2) (2 ^ 32 - 2) 1 1.
Definition fs0 : fs := Fs [] 1 None [] [] [] [] [] [] (Log 2 30 0 0 1 0 []) (Superblock 0 0 0 0 0 0 0) [].
Definition fl0 : fl := Fl (Machine [] ∅ (Kmem 1 0 0 ∅) 0) fs0 {[4096 := pipe0]} [] [] 0.

Lemma pipe0_ok : pipe_ok pipe0.
Proof. split; [vm_compute; reflexivity|cbn; lia|cbn; lia|vm_compute; discriminate]. Qed.

Lemma pipe0_at : fl_pipes fl0 !! 4096 = Some pipe0.
Proof. reflexivity. Qed.

Lemma pipe0_free : LkPipe 4096 ∉ s_locks (fl_fs fl0).
Proof. apply not_elem_of_nil. Qed.

Lemma pipe_calls_correct_witness :
  exists r q' s', pipewrite 4096 [1; 2; 3; 4] 3 fl0 = Ret r s' /\ fl_pipes s' !! 4096 = Some q' /\ r = inl 3.
Proof.
  destruct (pipe_calls_correct 4096 3 [1; 2; 3; 4] pipe0 fl0 pipe0_at pipe0_ok pipe0_free)
    as [(r & w & rest & q' & s' & E & Hb & Mv & Hq & Hr) _].
  exists r, q', s'. split; [exact E|]. split; [apply Mv|]. vm_compute in E. injection E as <- _. reflexivity.
Defined.

(** Four bytes are written across the wrap-around, then three are read. *)
Lemma pipe_fifo_witness :
  exists outs q' s', run_calls 4096 [CWrite 4 [1; 2; 3; 4]; CRead 3] fl0 = Ret ([1; 2; 3; 4], outs) s' /\
    outs ++ queue q' = [1; 2; 3; 4] /\ outs = [1; 2; 3].
Proof.
  destruct (pipe_fifo 4096 [CWrite 4 [1; 2; 3; 4]; CRead 3] pipe0 fl0 pipe0_at pipe0_ok pipe0_free)
    as (ins & outs & q' & s' & E & _ & Hq & _).
  pose proof E as E'. vm_compute in E'. injection E' as <- <- _. exists [1; 2; 3], q', s'.
  split; [exact E|]. split; [symmetry; exact Hq|reflexivity].
Defined.

End Example.
