(* ===== verification/File.v ===== *)
(** * file.c: open files, and the allocation of pipes

    [pipealloc] of pipe.c is here because it allocates files. *)

From S2P Require Import Prelude Mmu Mem Kalloc FsState Bio Log Fs Pipe.

(** A use of [ftable.file[i]]. *)
Definition get_file (i : nat) : M fl file := fun s =>
  match fl_files s !! i with Some f => Ret f s | None => UB "ftable.file" end.
Definition upd_file (i : nat) (g : file -> file) : M fl unit := fun s =>
  match fl_files s !! i with
  | Some f => Ret tt (set_files (<[i := g f]> (fl_files s)) s)
  | None => UB "ftable.file"
  end.

Definition set_f_ref v f := File (f_type f) v (f_readable f) (f_writable f) (f_pipe f) (f_ip f) (f_off f).
Definition set_f_type v f := File v (f_ref f) (f_readable f) (f_writable f) (f_pipe f) (f_ip f) (f_off f).
Definition set_f_off v f := File (f_type f) (f_ref f) (f_readable f) (f_writable f) (f_pipe f) (f_ip f) v.

(** [f->ip], where the code uses it as an inode. *)
Definition the_inode (f : file) : M fl nat := match f_ip f with Some i => ret i | None => ub "null inode" end.

Section File.
Context (kend : Z).
Context (devread : Z -> option (nat -> Z -> M fs (Z * list Z))).
Context (devwrite : Z -> option (nat -> list Z -> Z -> M fs Z)).

Definition fileinit : M fl unit := initlock LkFtable.

Fixpoint filealloc_scan (n i : nat) : M fl (option nat) :=
  match n with
  | O => ret None
  | S n => f <- get_file i ;; if f_ref f =? 0 then ret (Some i) else filealloc_scan n (S i)
  end.
Definition filealloc : M fl (option nat) :=
  acquire LkFtable ;;;
  found <- filealloc_scan NFILE 0 ;;
  match found with
  | Some i =>
    upd_file i (set_f_ref 1) ;;;
    release LkFtable ;;;
    ret (Some i)
  | None => release LkFtable ;;; ret None
  end.

Definition filedup (i : nat) : M fl nat :=
  acquire LkFtable ;;;
  f <- get_file i ;;
  if f_ref f <? 1 then panic "filedup" else
  upd_file i (set_f_ref (s32 (f_ref f + 1))) ;;;
  release LkFtable ;;;
  ret i.

Definition fileclose (i : nat) : M fl unit :=
  acquire LkFtable ;;;
  f <- get_file i ;;
  if f_ref f <? 1 then panic "fileclose" else
  upd_file i (set_f_ref (f_ref f - 1)) ;;;
  if 0 <? f_ref f - 1 then release LkFtable else
  ff <- get_file i ;;
  upd_file i (fun f => set_f_type FD_NONE (set_f_ref 0 f)) ;;;
  release LkFtable ;;;
  match f_type ff with
  | FD_PIPE => pipeclose kend (f_pipe ff) (f_writable ff)
  | FD_INODE =>
    infs begin_op ;;;
    ip <- the_inode ff ;;
    infs (iput ip) ;;;
    infs end_op
  | FD_NONE => ret tt
  end.

Definition filestat (i : nat) : M fl (option stat) :=
  f <- get_file i ;;
  match f_type f with
  | FD_INODE =>
    ip <- the_inode f ;;
    infs (ilock ip) ;;;
    st <- infs (stati ip) ;;
    infs (iunlock ip) ;;;
    ret (Some st)
  | _ => ret None
  end.

(** The result is the value of the call and the bytes stored at [addr]. *)
Definition fileread (i : nat) (n : Z) : M fl (Z * list Z) :=
  f <- get_file i ;;
  if f_readable f =? 0 then ret (-1, []) else
  match f_type f with
  | FD_PIPE => piperead (f_pipe f) n
  | FD_INODE =>
    ip <- the_inode f ;;
    infs (ilock ip) ;;;
    r <- infs (readi devread ip (f_off f) (u32 n)) ;;
    (when 0 <? fst r do upd_file i (fun f => set_f_off (u32 (f_off f + fst r)) f)) ;;;
    infs (iunlock ip) ;;;
    ret r
  | FD_NONE => panic "fileread"
  end.

(** [((MAXOPBLOCKS-1-1-2) / 2) * 512]. *)
Definition max_chunk : Z := ((MAXOPBLOCKS - 1 - 1 - 2) / 2) * 512.

(** The loop of [filewrite] on the bytes that are left; the value is [i]. *)
Fixpoint filewrite_loop (fuel : nat) (fd ip : nat) (addr : list Z) (i n : Z) : M fl Z :=
  match fuel with
  | O => ret i
  | S fuel =>
    if i <? n then
      let n1 := Z.min (n - i) max_chunk in
      infs begin_op ;;;
      infs (ilock ip) ;;;
      f <- get_file fd ;;
      r <- infs (writei devwrite ip (drop (Z.to_nat i) addr) (f_off f) (u32 n1)) ;;
      (when 0 <? r do upd_file fd (fun f => set_f_off (u32 (f_off f + r)) f)) ;;;
      infs (iunlock ip) ;;;
      infs end_op ;;;
      if r <? 0 then ret i else
      if negb (r =? n1) then panic "short filewrite" else
      filewrite_loop fuel fd ip addr (i + r) n
    else ret i
  end.
(** Each iteration writes at least one byte.  A process that has to wait for room in a
    pipe sleeps on [&p->nwrite] ([pipewrite_from] is how it goes on). *)
Definition filewrite (i : nat) (addr : list Z) (n : Z) : M fl Z :=
  f <- get_file i ;;
  if f_writable f =? 0 then ret (-1) else
  match f_type f with
  | FD_PIPE =>
    r <- pipewrite (f_pipe f) addr n ;;
    match r with inl r => ret r | inr _ => block (ChPipeWrite (f_pipe f)) end
  | FD_INODE =>
    ip <- the_inode f ;;
    k <- filewrite_loop (Z.to_nat n) i ip addr 0 n ;;
    ret (if k =? n then n else -1)
  | FD_NONE => panic "filewrite"
  end.

(** The bytes a new pipe finds in its buffer, which starts after the lock. *)
Definition pipe_data (m : mem) (p : Z) : list Z := read_bytes m (p + 52) (Z.to_nat PIPESIZE).

(** [pipealloc]; the value is the two files, or nothing where the code returns -1. *)
Definition pipealloc : M fl (option (nat * nat)) :=
  f0 <- filealloc ;;
  match f0 with
  | None => ret None
  | Some f0 =>
    f1 <- filealloc ;;
    match f1 with
    | None => fileclose f0 ;;; ret None
    | Some f1 =>
      p <- inmach kalloc ;;
      if p =? 0 then fileclose f0 ;;; fileclose f1 ;;; ret None else
      m <- gets (fun s => m_mem (fl_mach s)) ;;
      modify (fun s => set_pipes (<[p := Pipe (pipe_data m p) 0 0 1 1]> (fl_pipes s)) s) ;;;
      initlock (LkPipe p) ;;;
      upd_file f0 (fun f => File FD_PIPE (f_ref f) 1 0 p (f_ip f) (f_off f)) ;;;
      upd_file f1 (fun f => File FD_PIPE (f_ref f) 0 1 p (f_ip f) (f_off f)) ;;;
      ret (Some (f0, f1))
    end
  end.

End File.
