(* ===== verification/Syscall.v ===== *)
(** * syscall.c: arguments of system calls

    What a system call sees of the process that makes it: the size of its address
    space, its stack pointer and its memory, which the kernel reads through the page
    table of the process. *)

From S2P Require Import Prelude Mmu Mem Blk.

Record uctx := Uctx { u_sz : Z; u_esp : Z; u_mem : Z -> Z }.

Definition user_bytes (u : uctx) (a : Z) (n : nat) : list Z := (fun i => u_mem u (a + Z.of_nat i)) <$> seq 0 n.

(** Each function gives [None] where the code returns -1. *)
Definition fetchint (u : uctx) (addr : Z) : option Z :=
  if (u_sz u <=? addr) || (u_sz u <? u32 (addr + 4)) then None
  else Some (s32 (unle (user_bytes u addr 4))).

(** The loop of [fetchstr]; [n] bytes are left below [sz]. *)
Fixpoint fetchstr_loop (u : uctx) (s : Z) (n : nat) : option (list Z) :=
  match n with
  | O => None
  | S n => if u_mem u s =? 0 then Some [] else option_map (cons (u_mem u s)) (fetchstr_loop u (s + 1) n)
  end.
(** The string at [addr]; the code returns its length and sets the pointer to it. *)
Definition fetchstr (u : uctx) (addr : Z) : option (list Z) :=
  if u_sz u <=? addr then None else fetchstr_loop u addr (Z.to_nat (u_sz u - addr)).

Definition argint (u : uctx) (n : Z) : option Z := fetchint u (u32 (u_esp u + 4 + 4 * n)).

Definition argptr (u : uctx) (n size : Z) : option Z :=
  match argint u n with
  | None => None
  | Some i => if (size <? 0) || (u_sz u <=? u32 i) || (u_sz u <? u32 (u32 i + size)) then None else Some (u32 i)
  end.

Definition argstr (u : uctx) (n : Z) : option (list Z) :=
  match argint u n with
  | None => None
  | Some addr => fetchstr u (u32 addr)
  end.

(** ** The table of system calls *)

Inductive sysname :=
| SYS_fork | SYS_exit | SYS_wait | SYS_pipe | SYS_read | SYS_kill | SYS_exec | SYS_fstat | SYS_chdir | SYS_dup
| SYS_getpid | SYS_sbrk | SYS_sleep | SYS_uptime | SYS_open | SYS_write | SYS_mknod | SYS_unlink | SYS_link | SYS_mkdir
| SYS_close | SYS_getNumFreePages | SYS_fork_original | SYS_nice | SYS_getpri | SYS_pdump | SYS_testwait | SYS_yield
| SYS_getpinfo.
#[export] Instance sysname_eq_dec : EqDecision sysname.
Proof. solve_decision. Defined.

(** The numbers of syscall.h. *)
Definition sysno (c : sysname) : Z :=
  match c with
  | SYS_fork => 1 | SYS_exit => 2 | SYS_wait => 3 | SYS_pipe => 4 | SYS_read => 5 | SYS_kill => 6 | SYS_exec => 7
  | SYS_fstat => 8 | SYS_chdir => 9 | SYS_dup => 10 | SYS_getpid => 11 | SYS_sbrk => 12 | SYS_sleep => 13
  | SYS_uptime => 14 | SYS_open => 15 | SYS_write => 16 | SYS_mknod => 17 | SYS_unlink => 18 | SYS_link => 19
  | SYS_mkdir => 20 | SYS_close => 21 | SYS_getNumFreePages => 22 | SYS_fork_original => 23 | SYS_nice => 24
  | SYS_getpri => 25 | SYS_pdump => 26 | SYS_testwait => 27 | SYS_yield => 28 | SYS_getpinfo => 29
  end.

(** The initialiser of [syscalls[]]: entries are stored by their number; 0 is empty. *)
Definition initialiser : list sysname :=
  [SYS_fork; SYS_fork_original; SYS_exit; SYS_wait; SYS_pipe; SYS_read; SYS_kill; SYS_exec; SYS_fstat; SYS_chdir; SYS_dup;
   SYS_getpid; SYS_sbrk; SYS_sleep; SYS_uptime; SYS_open; SYS_write; SYS_mknod; SYS_unlink; SYS_link; SYS_mkdir; SYS_close;
   SYS_getNumFreePages; SYS_nice; SYS_getpri; SYS_pdump; SYS_testwait; SYS_yield; SYS_getpinfo].
Definition syscalls : list (option sysname) :=
  foldl (fun t c => <[Z.to_nat (sysno c) := Some c]> t) (replicate 30 None) initialiser.

(** [syscall]: the value for [%eax].  [run] carries out a call. *)
Definition syscall {S} (run : sysname -> M S Z) (eax : Z) : M S Z :=
  let num := s32 eax in
  if (0 <? num) && (num <? Z.of_nat (length syscalls)) then
    match nth (Z.to_nat num) syscalls None with
    | Some c => r <- run c ;; ret (u32 r)
    | None => ret (u32 (-1))
    end
  else ret (u32 (-1)).

(** ** What the checks guarantee *)

(** The address space of a process ends below the kernel. *)
Definition uctx_ok (u : uctx) : Prop := 0 <= u_sz u <= KERNBASE.

Lemma fetchint_in u addr v :
  uctx_ok u -> 0 <= addr -> fetchint u addr = Some v -> addr + 4 <= u_sz u /\ v = s32 (unle (user_bytes u addr 4)).
Proof.
  unfold uctx_ok, fetchint, KERNBASE. intros Hu Ha H.
  destruct (Z.leb_spec (u_sz u) addr) as [|Hl]; [done|]. cbn [orb] in H. rewrite u32_id in H by lia.
  destruct (Z.ltb_spec (u_sz u) (addr + 4)); [done|]. injection H as <-. split; [lia|done].
Qed.

Lemma fetchstr_loop_in u n : forall s str,
  fetchstr_loop u s n = Some str ->
  (length str < n)%nat /\ (forall i c, str !! i = Some c -> c = u_mem u (s + Z.of_nat i) /\ c <> 0) /\
  u_mem u (s + Z.of_nat (length str)) = 0.
Proof.
  induction n as [|n IH]; intros s str H; [done|]. cbn in H. destruct (Z.eqb_spec (u_mem u s) 0) as [E|E].
  - injection H as <-. cbn. rewrite Z.add_0_r. split; [lia|]. split; [|done]. intros i c Hc. by rewrite lookup_nil in Hc.
  - destruct (fetchstr_loop u (s + 1) n) as [r|] eqn:Er; [|done]. injection H as <-. destruct (IH _ _ Er) as (H1 & H2 & H3).
    cbn [length]. split; [lia|]. split; [|rewrite <- H3; f_equal; lia].
    intros [|i] c Hc; cbn in Hc; [injection Hc as <-; by rewrite Z.add_0_r|]. destruct (H2 i c Hc) as [-> ?]. split; [|done]. f_equal. lia.
Qed.

(** C39. No system call can be made to reach outside the memory of its process: when
    [argptr] accepts a block, all its bytes are below the end of the address space
    although the sum of address and size is computed in 32 bits; when [argint] accepts an
    argument its four bytes are, and they are the value; when [argstr] accepts a string,
    the string and its terminating zero are, and the result is exactly the characters
    before the first zero. *)
Theorem args_in_user_space u n :
  uctx_ok u ->
  (forall size p, size < 2 ^ 31 -> argptr u n size = Some p -> 0 <= size /\ 0 <= p /\ p + size <= u_sz u) /\
  (forall v, argint u n = Some v -> let a := u32 (u_esp u + 4 + 4 * n) in
     a + 4 <= u_sz u /\ v = s32 (unle (user_bytes u a 4))) /\
  (forall str, argstr u n = Some str -> exists a, 0 <= a /\ a + Z.of_nat (length str) < u_sz u /\
     (forall i c, str !! i = Some c -> c = u_mem u (a + Z.of_nat i) /\ c <> 0) /\
     u_mem u (a + Z.of_nat (length str)) = 0).
Proof.
  intros Hu. split_and!.
  - intros size p Hs H. unfold argptr in H. destruct (argint u n) as [i|]; [|done].
    pose proof (u32_bound i). unfold uctx_ok, KERNBASE in Hu. destruct (Z.ltb_spec size 0); [done|].
    destruct (Z.leb_spec (u_sz u) (u32 i)); [done|]. cbn [orb] in H. rewrite u32_id in H by lia.
    destruct (Z.ltb_spec (u_sz u) (u32 i + size)); [done|]. injection H as <-. lia.
  - intros v H. unfold argint in H. apply fetchint_in in H; [done|done|apply u32_bound].
  - intros str H. unfold argstr in H. destruct (argint u n) as [a|]; [|done]. unfold fetchstr in H.
    destruct (Z.leb_spec (u_sz u) (u32 a)); [done|]. apply fetchstr_loop_in in H as (H1 & H2 & H3).
    exists (u32 a). pose proof (u32_bound a). split_and!; [lia|lia|exact H2|exact H3].
Qed.

(** A process of two pages whose stack holds a pointer to the string [hi] and a size. *)
Definition u0 : uctx :=
  Uctx 8192 8000 (fun a => if a =? 8005 then 16 else if a =? 4096 then 104 else if a =? 4097 then 105 else 0).

Lemma args_in_user_space_witness : argstr u0 0 = Some [104; 105] /\ argptr u0 0 4096 = Some 4096 /\ 4096 + 4096 <= u_sz u0.
Proof.
  assert (Hu : uctx_ok u0) by (unfold uctx_ok, KERNBASE; cbn; lia). split; [vm_compute; reflexivity|].
  assert (E : argptr u0 0 4096 = Some 4096) by (vm_compute; reflexivity). split; [exact E|].
  apply (proj1 (args_in_user_space u0 0 Hu) 4096 4096); [lia|exact E].
Defined.

Lemma syscalls_by_number n :
  (n < 30)%nat -> match nth n syscalls None with Some c => sysno c = Z.of_nat n | None => n = 0%nat end.
Proof. intros Hn. do 30 (destruct n as [|n]; [reflexivity|]). lia. Qed.

Lemma s32_small x : u32 x < 2 ^ 31 -> s32 x = u32 x.
Proof. intros H. unfold s32. by rewrite (proj2 (Z.ltb_lt _ _) H). Qed.

(** The table of system calls: a number is carried out by the call that syscall.h
    gives that number, every call of the kernel is in the table, and every other number
    gives -1 without running anything. *)
Theorem syscall_dispatch {S} (run : sysname -> M S Z) eax (s : S) :
  (forall c, c ∈ initialiser) /\
  syscall run eax s =
    match list_find (fun c => sysno c = u32 eax) initialiser with
    | Some (_, c) => (r <- run c ;; ret (u32 r)) s
    | None => Ret (2 ^ 32 - 1) s
    end.
Proof.
  assert (Hin : forall c, c ∈ initialiser) by (intros []; apply (bool_decide_unpack _); vm_compute; exact I). split; [exact Hin|].
  unfold syscall. cbv zeta. change (Z.of_nat (length syscalls)) with 30.
  destruct (list_find _ initialiser) as [[i c]|] eqn:E.
  - apply list_find_Some in E as (_ & E & _). assert (Hc : 0 < sysno c < 30) by (destruct c; cbn; lia).
    rewrite s32_small, <- E by lia. rewrite (proj2 (Z.ltb_lt 0 _)), (proj2 (Z.ltb_lt _ 30)) by lia. by destruct c.
  - apply list_find_None in E. rewrite Forall_forall in E.
    destruct (Z.ltb_spec 0 (s32 eax)) as [H1|]; [|done]. destruct (Z.ltb_spec (s32 eax) 30) as [H2|]; [|done]. cbn [andb].
    pose proof (syscalls_by_number (Z.to_nat (s32 eax)) ltac:(lia)) as Ht. destruct (nth _ syscalls None) as [c|]; [|done].
    exfalso. apply (E c (Hin c)). rewrite Ht. pose proof (u32_bound eax). unfold s32 in *.
    destruct (Z.ltb_spec (u32 eax) (2 ^ 31)); lia.
Qed.
