(* ===== verification/Sysfile.v ===== *)
(** * sysfile.c: system calls on files

    A handler takes what the calling process has in memory ([uctx]).  Its value is the
    value of the call and what it stores in the memory of the process: addresses and the
    bytes from there on, in the order of the stores. *)

From S2P Require Import Prelude Mmu Mem Blk Cstring Kalloc FsState Bio Log Fs Pipe File Syscall.

Definition O_RDONLY : Z := 0x000.
Definition O_WRONLY : Z := 0x001.
Definition O_RDWR : Z := 0x002.
Definition O_CREATE : Z := 0x200.

Definition reply : Type := Z * list (Z * list Z).
Definition fail : M fl reply := ret (-1, []).
Definition done_with (v : Z) : M fl reply := ret (v, []).

Definition set_fs_cwd v s := Fs (s_locks s) (s_pid s) v (s_wake s) (s_bufs s) (s_next s) (s_prev s) (s_disk s) (s_writes s)
  (s_log s) (s_sb s) (s_inodes s).

(** [myproc()->ofile[fd] = v]. *)
Definition set_fd (fd : Z) (v : option nat) : M fl unit :=
  modify (fun s => set_fl_ofile (<[Z.to_nat fd := v]> (fl_ofile s)) s).

(** The descriptor and its file. *)
Definition argfd (u : uctx) (n : Z) : M fl (option (Z * nat)) :=
  match argint u n with
  | None => ret None
  | Some fd =>
    if (fd <? 0) || (Z.of_nat NOFILE <=? fd) then ret None else
    ofile <- gets fl_ofile ;;
    match nth (Z.to_nat fd) ofile None with
    | None => ret None
    | Some f => ret (Some (fd, f))
    end
  end.

Fixpoint fdalloc_loop (f : nat) (n : nat) (fd : Z) : M fl Z :=
  match n with
  | O => ret (-1)
  | S n =>
    ofile <- gets fl_ofile ;;
    match nth (Z.to_nat fd) ofile None with
    | None => set_fd fd (Some f) ;;; ret fd
    | Some _ => fdalloc_loop f n (fd + 1)
    end
  end.
Definition fdalloc (f : nat) : M fl Z := fdalloc_loop f NOFILE 0.

Section Sysfile.
Context (kend : Z).
Context (devread : Z -> option (nat -> Z -> M fs (Z * list Z))).
Context (devwrite : Z -> option (nat -> list Z -> Z -> M fs Z)).
Context (u : uctx).

Definition sys_dup : M fl reply :=
  a <- argfd u 0 ;;
  match a with
  | None => fail
  | Some (_, f) =>
    fd <- fdalloc f ;;
    if fd <? 0 then fail else
    filedup f ;;;
    done_with fd
  end.

(** The three arguments of [read] and [write]: a file, an address and a size. *)
Definition arg_io : M fl (option (nat * Z * Z)) :=
  a <- argfd u 0 ;;
  match a with
  | None => ret None
  | Some (_, f) =>
    match argint u 2 with
    | None => ret None
    | Some n => match argptr u 1 n with None => ret None | Some p => ret (Some (f, p, n)) end
    end
  end.

Definition sys_read : M fl reply :=
  a <- arg_io ;;
  match a with
  | None => fail
  | Some (f, p, n) =>
    r <- fileread devread f n ;;
    ret (fst r, [(p, snd r)])
  end.

Definition sys_write : M fl reply :=
  a <- arg_io ;;
  match a with
  | None => fail
  | Some (f, p, n) =>
    r <- filewrite devwrite f (user_bytes u p (Z.to_nat n)) n ;;
    done_with r
  end.

Definition sys_close : M fl reply :=
  a <- argfd u 0 ;;
  match a with
  | None => fail
  | Some (fd, f) =>
    set_fd fd None ;;;
    fileclose kend f ;;;
    done_with 0
  end.

(** The fields of a [struct stat] at address [a]; there are two bytes of padding after
    each short. *)
Definition stat_writes (a : Z) (st : stat) : list (Z * list Z) :=
  [(a + 4, le 4 (st_dev st)); (a + 8, le 4 (st_ino st)); (a, le 2 (st_type st)); (a + 12, le 2 (st_nlink st));
   (a + 16, le 4 (st_size st))].

Definition sys_fstat : M fl reply :=
  a <- argfd u 0 ;;
  match a with
  | None => fail
  | Some (_, f) =>
    match argptr u 1 20 with
    | None => fail
    | Some p =>
      r <- filestat f ;;
      match r with
      | Some st => ret (0, stat_writes p st)
      | None => fail
      end
    end
  end.

(** [ip->nlink += d; iupdate(ip)]. *)
Definition change_nlink (i : nat) (d : Z) : M fs unit :=
  upd_inode i (fun ip => set_i_nlink (s16 (i_nlink ip + d)) ip) ;;;
  iupdate i.

(** The label [bad] of [sys_link]. *)
Definition link_bad (ip : nat) : M fl reply :=
  infs (ilock ip ;;; change_nlink ip (-1) ;;; iunlockput ip ;;; end_op) ;;;
  fail.

Definition sys_link : M fl reply :=
  match argstr u 0, argstr u 1 with
  | Some old, Some new =>
    infs begin_op ;;;
    ip <- infs (namei devread old) ;;
    match ip with
    | None => infs end_op ;;; fail
    | Some ip =>
      infs (ilock ip) ;;;
      v <- infs (get_inode ip) ;;
      if i_type v =? T_DIR then infs (iunlockput ip ;;; end_op) ;;; fail else
      infs (change_nlink ip 1 ;;; iunlock ip) ;;;
      r <- infs (nameiparent devread new (replicate 14 0)) ;;
      match fst r with
      | None => link_bad ip
      | Some dp =>
        infs (ilock dp) ;;;
        dv <- infs (get_inode dp) ;;
        v <- infs (get_inode ip) ;;
        ok <- (if negb (i_dev dv =? i_dev v) then ret false else
               r <- infs (dirlink devread devwrite dp (snd r) (i_inum v)) ;; ret (negb (r <? 0))) ;;
        if negb ok then infs (iunlockput dp) ;;; link_bad ip else
        infs (iunlockput dp ;;; iput ip ;;; end_op) ;;;
        done_with 0
      end
    end
  | _, _ => fail
  end.

(** The loop of [isdirempty]; [n] entries are left. *)
Fixpoint isdirempty_loop (dp : nat) (n : nat) (off : Z) : M fs bool :=
  match n with
  | O => ret true
  | S n =>
    r <- readi devread dp off DIRENT_SIZE ;;
    if negb (fst r =? DIRENT_SIZE) then panic "isdirempty: readi" else
    if negb (de_inum (snd r) =? 0) then ret false else isdirempty_loop dp n (off + DIRENT_SIZE)
  end.
Definition isdirempty (dp : nat) : M fs bool :=
  ip <- get_inode dp ;;
  isdirempty_loop dp (dir_entries ip - 2) (2 * DIRENT_SIZE).

Definition unlink_bad (dp : nat) : M fl reply := infs (iunlockput dp ;;; end_op) ;;; fail.

Definition dot : list Z := [46; 0].
Definition dotdot : list Z := [46; 46; 0].

Definition sys_unlink : M fl reply :=
  match argstr u 0 with
  | None => fail
  | Some path =>
    infs begin_op ;;;
    r <- infs (nameiparent devread path (replicate 14 0)) ;;
    match fst r with
    | None => infs end_op ;;; fail
    | Some dp =>
      let name := snd r in
      infs (ilock dp) ;;;
      if (namecmp name dot =? 0) || (namecmp name dotdot =? 0) then unlink_bad dp else
      found <- infs (dirlookup devread dp name) ;;
      match found with
      | None => unlink_bad dp
      | Some (ip, off) =>
        infs (ilock ip) ;;;
        v <- infs (get_inode ip) ;;
        if i_nlink v <? 1 then panic "unlink: nlink < 1" else
        busy <- (if i_type v =? T_DIR then e <- infs (isdirempty ip) ;; ret (negb e) else ret false) ;;
        if (busy : bool) then infs (iunlockput ip) ;;; unlink_bad dp else
        w <- infs (writei devwrite dp (replicate 16 0) off DIRENT_SIZE) ;;
        if negb (w =? DIRENT_SIZE) then panic "unlink: writei" else
        v <- infs (get_inode ip) ;;
        (when i_type v =? T_DIR do infs (change_nlink dp (-1))) ;;;
        infs (iunlockput dp ;;; change_nlink ip (-1) ;;; iunlockput ip ;;; end_op) ;;;
        done_with 0
      end
    end
  end.

Definition create (path : list Z) (type major minor : Z) : M fs (option nat) :=
  r <- nameiparent devread path (replicate 14 0) ;;
  match fst r with
  | None => ret None
  | Some dp =>
    let name := snd r in
    ilock dp ;;;
    found <- dirlookup devread dp name ;;
    match found with
    | Some (ip, _) =>
      iunlockput dp ;;;
      ilock ip ;;;
      v <- get_inode ip ;;
      if (type =? T_FILE) && (i_type v =? T_FILE) then ret (Some ip) else
      iunlockput ip ;;;
      ret None
    | None =>
      dv <- get_inode dp ;;
      ip <- ialloc (i_dev dv) type ;;
      ilock ip ;;;
      upd_inode ip (fun v => Inode (i_dev v) (i_inum v) (i_ref v) (i_lock v) (i_valid v) (i_type v) (s16 major) (s16 minor) 1
        (i_size v) (i_addrs v)) ;;;
      iupdate ip ;;;
      (when type =? T_DIR do
        (change_nlink dp 1 ;;;
         v <- get_inode ip ;;
         r1 <- dirlink devread devwrite ip dot (i_inum v) ;;
         if r1 <? 0 then panic "create dots" else
         dv <- get_inode dp ;;
         r2 <- dirlink devread devwrite ip dotdot (i_inum dv) ;;
         if r2 <? 0 then panic "create dots" else ret tt)) ;;;
      v <- get_inode ip ;;
      r3 <- dirlink devread devwrite dp name (i_inum v) ;;
      if r3 <? 0 then panic "create: dirlink" else
      iunlockput dp ;;;
      ret (Some ip)
    end
  end.

(** The inode that [sys_open] opens, locked. *)
Definition open_inode (path : list Z) (omode : Z) : M fs (option nat) :=
  if negb (Z.land omode O_CREATE =? 0) then create path T_FILE 0 0
  else
    ip <- namei devread path ;;
    match ip with
    | None => ret None
    | Some ip =>
      ilock ip ;;;
      v <- get_inode ip ;;
      if (i_type v =? T_DIR) && negb (omode =? O_RDONLY) then iunlockput ip ;;; ret None
      else ret (Some ip)
    end.

Definition bool_int (b : bool) : Z := if b then 1 else 0.
Definition sys_open : M fl reply :=
  match argstr u 0, argint u 1 with
  | Some path, Some omode =>
    infs begin_op ;;;
    ip <- infs (open_inode path omode) ;;
    match ip with
    | None => infs end_op ;;; fail
    | Some ip =>
      f <- filealloc ;;
      match f with
      | None => infs (iunlockput ip ;;; end_op) ;;; fail
      | Some f =>
        fd <- fdalloc f ;;
        if fd <? 0 then
          fileclose kend f ;;;
          infs (iunlockput ip ;;; end_op) ;;;
          fail
        else
          infs (iunlock ip ;;; end_op) ;;;
          upd_file f (fun v => File FD_INODE (f_ref v) (bool_int (Z.land omode O_WRONLY =? 0))
            (bool_int (negb (Z.land omode O_WRONLY =? 0) || negb (Z.land omode O_RDWR =? 0))) (f_pipe v) (Some ip) 0) ;;;
          done_with fd
      end
    end
  | _, _ => fail
  end.

(** The common part of [sys_mkdir] and [sys_mknod], inside the transaction. *)
Definition finish_create (ip : option nat) : M fl reply :=
  match ip with
  | None => infs end_op ;;; fail
  | Some ip => infs (iunlockput ip ;;; end_op) ;;; done_with 0
  end.
Definition sys_mkdir : M fl reply :=
  infs begin_op ;;;
  match argstr u 0 with
  | None => infs end_op ;;; fail
  | Some path => ip <- infs (create path T_DIR 0 0) ;; finish_create ip
  end.
Definition sys_mknod : M fl reply :=
  infs begin_op ;;;
  match argstr u 0, argint u 1, argint u 2 with
  | Some path, Some major, Some minor => ip <- infs (create path T_DEV major minor) ;; finish_create ip
  | _, _, _ => infs end_op ;;; fail
  end.

Definition sys_chdir : M fl reply :=
  infs begin_op ;;;
  match argstr u 0 with
  | None => infs end_op ;;; fail
  | Some path =>
    ip <- infs (namei devread path) ;;
    match ip with
    | None => infs end_op ;;; fail
    | Some ip =>
      infs (ilock ip) ;;;
      v <- infs (get_inode ip) ;;
      if negb (i_type v =? T_DIR) then infs (iunlockput ip ;;; end_op) ;;; fail else
      infs (iunlock ip) ;;;
      cwd <- infs (gets s_cwd) ;;
      (match cwd with Some d => infs (iput d) | None => ub "iput: null inode" end) ;;;
      infs end_op ;;;
      infs (modify (set_fs_cwd (Some ip))) ;;;
      done_with 0
    end
  end.

(** The arguments [sys_exec] collects for [exec]; [n] entries of [argv] are left. *)
Fixpoint exec_argv (n : nat) (uargv : Z) : option (list (list Z)) :=
  match n with
  | O => None
  | S n =>
    match fetchint u (u32 uargv) with
    | None => None
    | Some uarg =>
      if uarg =? 0 then Some [] else
      match fetchstr u (u32 uarg) with
      | None => None
      | Some a => option_map (cons a) (exec_argv n (uargv + 4))
      end
    end
  end.
Definition sys_exec_args : option (list Z * list (list Z)) :=
  match argstr u 0, argint u 1 with
  | Some path, Some uargv => option_map (pair path) (exec_argv (Z.to_nat MAXARG) uargv)
  | _, _ => None
  end.

Definition sys_pipe : M fl reply :=
  match argptr u 0 8 with
  | None => fail
  | Some fd =>
    r <- pipealloc kend ;;
    match r with
    | None => fail
    | Some (rf, wf) =>
      fd0 <- fdalloc rf ;;
      if fd0 <? 0 then fileclose kend rf ;;; fileclose kend wf ;;; fail else
      fd1 <- fdalloc wf ;;
      if fd1 <? 0 then
        set_fd fd0 None ;;;
        fileclose kend rf ;;;
        fileclose kend wf ;;;
        fail
      else ret (0, [(fd, le 4 fd0); (fd + 4, le 4 fd1)])
    end
  end.

End Sysfile.
