(* ===== verification/FileProps.v ===== *)
(** * Reference counts of open files

    The reference count of a file is the number of descriptors of the running process
    that name it, plus the references held elsewhere.  Each operation moves references
    between the two in a way that can be read off its name, and the system calls balance. *)

From S2P Require Import Prelude Mmu Mem Blk Kalloc FsState Bio Log Fs Pipe PipeProps File Syscall Sysfile.

(** ** Counting references *)

Definition refcounts (s : fl) : list Z := f_ref <$> fl_files s.
Definition cnt (i : nat) (l : list (option nat)) : Z := Z.of_nat (length (filter (fun o => o = Some i) l)).
(** [ext i] references to file [i] are held elsewhere. *)
Record refs (ext : nat -> Z) (s : fl) : Prop := {
  rf_len : length (fl_ofile s) = NOFILE;
  rf_count : forall i v, refcounts s !! i = Some v -> v = ext i + cnt i (fl_ofile s)
}.
Definition bump (i : nat) (d : Z) (ext : nat -> Z) : nat -> Z := fun k => if decide (k = i) then ext k + d else ext k.

Lemma cnt_cons i o l : cnt i (o :: l) = (if decide (o = Some i) then 1 else 0) + cnt i l.
Proof. unfold cnt. rewrite filter_cons. destruct (decide (o = Some i)); cbn [length]; lia. Qed.

Lemma cnt_insert i l : forall k x y, l !! k = Some x ->
  cnt i (<[k := y]> l) = cnt i l - (if decide (x = Some i) then 1 else 0) + (if decide (y = Some i) then 1 else 0).
Proof.
  induction l as [|o l IH]; intros k x y H; [done|]. destruct k as [|k]; cbn in H.
  - injection H as ->. change (<[0%nat := y]> (x :: l)) with (y :: l). rewrite !cnt_cons. lia.
  - change (<[S k := y]> (o :: l)) with (o :: <[k := y]> l). rewrite !cnt_cons, (IH k x y H). lia.
Qed.

Lemma cnt_bound i l : 0 <= cnt i l <= Z.of_nat (length l).
Proof. unfold cnt. pose proof (length_filter (fun o => o = Some i) l). lia. Qed.

Lemma refs_file ext s s' i d v :
  refs ext s -> refcounts s !! i = Some v -> refcounts s' = <[i := v + d]> (refcounts s) -> fl_ofile s' = fl_ofile s ->
  refs (bump i d ext) s'.
Proof.
  intros [Hl Hc] Hi E Eo. split; [by rewrite Eo|]. intros k w Hk. rewrite E in Hk. rewrite Eo. unfold bump.
  destruct (decide (k = i)) as [->|Hne].
  - rewrite list_lookup_insert_eq in Hk by (by eapply lookup_lt_Some). injection Hk as <-. rewrite (Hc i v Hi). lia.
  - rewrite list_lookup_insert_ne in Hk by done. by apply Hc.
Qed.

Lemma refs_fd ext s s' fd x y :
  refs ext s -> fl_ofile s !! fd = Some x -> fl_ofile s' = <[fd := y]> (fl_ofile s) -> refcounts s' = refcounts s ->
  refs (fun k => ext k + (if decide (x = Some k) then 1 else 0) - (if decide (y = Some k) then 1 else 0)) s'.
Proof.
  intros [Hl Hc] Hx E Er. split; [by rewrite E, length_insert|]. intros k w Hk. rewrite Er in Hk.
  rewrite E, (cnt_insert k _ fd x y Hx), (Hc k w Hk). lia.
Qed.

Lemma refs_eq ext ext' s : (forall k, ext k = ext' k) -> refs ext s -> refs ext' s.
Proof. intros E [Hl Hc]. split; [done|]. intros i v Hi. rewrite <- E. by apply Hc. Qed.

(** ** Code that moves no reference *)

Definition same_refs (s s' : fl) : Prop := refcounts s' = refcounts s /\ fl_ofile s' = fl_ofile s.
Definition neutral {A} (m : M fl A) : Prop := forall s r s', m s = Ret r s' -> same_refs s s'.

Lemma refs_same ext s s' : same_refs s s' -> refs ext s -> refs ext s'.
Proof. intros [Er Eo] [Hl Hc]. split; [by rewrite Eo|]. intros i v Hi. rewrite Eo. apply Hc. by rewrite <- Er. Qed.

Lemma same_refs_trans s1 s2 s3 : same_refs s1 s2 -> same_refs s2 s3 -> same_refs s1 s3.
Proof. intros [] []. split; congruence. Qed.

Lemma neutral_ret {A} (a : A) : neutral (ret a).
Proof. by intros s r s' [= _ <-]. Qed.
Lemma neutral_bind {A B} (m : M fl A) (k : A -> M fl B) : neutral m -> (forall a, neutral (k a)) -> neutral (bind m k).
Proof. intros Hm Hk s r s' H. inv_bind H. eapply same_refs_trans; [by eapply Hm|by eapply Hk]. Qed.
Lemma neutral_panic {A} e : neutral (A := A) (panic e).
Proof. by intros s r s'. Qed.
Lemma neutral_ub {A} e : neutral (A := A) (ub e).
Proof. by intros s r s'. Qed.
Lemma neutral_block {A} ch : neutral (A := A) (block ch).
Proof. by intros s r s'. Qed.
Lemma neutral_gets {A} (f : fl -> A) : neutral (gets f).
Proof. by intros s r s' [= _ <-]. Qed.
Lemma neutral_infs {A} (m : M fs A) : neutral (infs m).
Proof. intros s r s' H. unfold infs, zoom in H. destruct (m (fl_fs s)); try done. by injection H as _ <-. Qed.
Lemma neutral_inmach {A} (m : M machine A) : neutral (inmach m).
Proof. intros s r s' H. unfold inmach, zoom in H. destruct (m _); try done. by injection H as _ <-. Qed.
Lemma neutral_acquire l : neutral (acquire l).
Proof. intros s r s' H. unfold acquire in H. case_decide; [done|]. by injection H as _ <-. Qed.
Lemma neutral_release l : neutral (release l).
Proof. intros s r s' H. unfold release in H. case_decide; [|done]. by injection H as _ <-. Qed.
Lemma neutral_initlock l : neutral (initlock l).
Proof. by intros s r s' [= _ <-]. Qed.
Lemma neutral_get_pipe p : neutral (get_pipe p).
Proof. intros s r s' H. unfold get_pipe in H. case_match; [|done]. by injection H as _ <-. Qed.
Lemma neutral_upd_pipe p f : neutral (upd_pipe p f).
Proof. intros s r s' H. unfold upd_pipe in H. case_match; [|done]. by injection H as _ <-. Qed.
Lemma neutral_set_pipes g : neutral (modify (fun s => set_pipes (g s) s)).
Proof. by intros s r s' [= _ <-]. Qed.
Lemma neutral_get_file i : neutral (get_file i).
Proof. intros s r s' H. unfold get_file in H. case_match; [|done]. by injection H as _ <-. Qed.
Lemma neutral_upd_file i g : (forall f, f_ref (g f) = f_ref f) -> neutral (upd_file i g).
Proof.
  intros Hg s r s' H. unfold upd_file in H. destruct (fl_files s !! i) as [f|] eqn:E; [|done]. injection H as _ <-.
  split; [|done]. unfold refcounts. cbn. rewrite list_fmap_insert, Hg. apply list_insert_id. by rewrite list_lookup_fmap, E.
Qed.

Create HintDb neutral.
#[export] Hint Resolve neutral_ret neutral_panic neutral_ub neutral_block neutral_gets neutral_infs neutral_inmach
  neutral_acquire neutral_release neutral_initlock neutral_get_pipe neutral_upd_pipe neutral_set_pipes neutral_get_file
  neutral_upd_file : neutral.

(** Go through the code: every step is neutral by a hint or by case analysis. *)
Ltac neutral :=
  repeat first
    [ apply neutral_bind; [|intros ?] | progress (intros; cbn beta iota zeta)
    | solve [auto with neutral] | case_match ].

Lemma neutral_wake ch : neutral (wake ch).
Proof. apply neutral_infs. Qed.
#[export] Hint Resolve neutral_wake : neutral.
Lemma neutral_the_inode f : neutral (the_inode f).
Proof. unfold the_inode. neutral. Qed.
#[export] Hint Resolve neutral_the_inode : neutral.
Lemma neutral_pipeclose kend p w : neutral (pipeclose kend p w).
Proof. unfold pipeclose, free_pipe. neutral. Qed.
Lemma neutral_pipewrite_loop p n bs : neutral (pipewrite_loop p n bs).
Proof. induction bs as [|b bs IH]; cbn [pipewrite_loop]; neutral. Qed.
Lemma neutral_piperead_loop p n : neutral (piperead_loop p n).
Proof. induction n as [|n IH]; cbn [piperead_loop]; neutral. Qed.
#[export] Hint Resolve neutral_pipeclose neutral_pipewrite_loop neutral_piperead_loop : neutral.
Lemma neutral_pipewrite p bs n : neutral (pipewrite p bs n).
Proof. unfold pipewrite, pipewrite_from. neutral. Qed.
Lemma neutral_piperead p n : neutral (piperead p n).
Proof. unfold piperead. neutral. Qed.
#[export] Hint Resolve neutral_pipewrite neutral_piperead : neutral.

(** ** Operations that move references *)

Lemma upd_ref i v s r s' :
  upd_file i (set_f_ref v) s = Ret r s' ->
  exists f, fl_files s !! i = Some f /\ refcounts s' = <[i := v]> (refcounts s) /\ fl_ofile s' = fl_ofile s /\
    fl_files s' !! i = Some (set_f_ref v f).
Proof.
  intros H. unfold upd_file in H. destruct (fl_files s !! i) as [f|] eqn:E; [|done]. injection H as _ <-. exists f.
  split; [done|]. split; [unfold refcounts; cbn; by rewrite list_fmap_insert|]. split; [done|].
  cbn. apply list_lookup_insert_eq. by eapply lookup_lt_Some.
Qed.

Lemma get_file_inv i s f s' : get_file i s = Ret f s' -> s' = s /\ fl_files s !! i = Some f /\ refcounts s !! i = Some (f_ref f).
Proof.
  intros H. unfold get_file in H. destruct (fl_files s !! i) as [g|] eqn:E; [|done]. injection H as <- <-.
  split; [done|]. split; [done|]. unfold refcounts. by rewrite list_lookup_fmap, E.
Qed.

Lemma filealloc_scan_inv n : forall i s r s',
  filealloc_scan n i s = Ret r s' -> s' = s /\ match r with Some k => refcounts s !! k = Some 0 | None => True end.
Proof.
  induction n as [|n IH]; intros i s r s' H; cbn [filealloc_scan] in H; [by injection H as <- <-|].
  inv_bind H. apply get_file_inv in Hrun as (-> & _ & Hr). destruct (Z.eqb_spec (f_ref r0) 0) as [E|_]; [|by eapply IH].
  injection H as <- <-. split; [done|]. by rewrite <- E.
Qed.

Lemma filealloc_refs ext s r s' :
  refs ext s -> filealloc s = Ret r s' -> match r with Some i => refs (bump i 1 ext) s' | None => refs ext s' end.
Proof.
  intros Hr H. unfold filealloc in H. inv_bind H. apply neutral_acquire in Hrun. apply (refs_same ext) in Hrun; [|done].
  inv_bind H. apply filealloc_scan_inv in Hrun0 as [-> Hf]. destruct r1 as [i|].
  - inv_bind H. apply upd_ref in Hrun0 as (f & _ & E & Eo & _). inv_bind H. apply neutral_release in Hrun0.
    injection H as <- <-. eapply refs_same; [done|]. by eapply (refs_file ext _ _ i 1 0).
  - inv_bind H. apply neutral_release in Hrun0. injection H as <- <-. by eapply refs_same.
Qed.

Lemma filedup_refs ext i s r s' :
  refs ext s -> (forall v, refcounts s !! i = Some v -> v < 2 ^ 31 - 1) -> filedup i s = Ret r s' -> refs (bump i 1 ext) s'.
Proof.
  intros Hr Hb H. unfold filedup in H. inv_bind H. apply neutral_acquire in Hrun.
  assert (Hb0 : forall v, refcounts s0 !! i = Some v -> v < 2 ^ 31 - 1) by (intros v; rewrite (proj1 Hrun); apply Hb).
  apply (refs_same ext) in Hrun; [|done]. inv_bind H. apply get_file_inv in Hrun0 as (-> & _ & Hv). specialize (Hb0 _ Hv).
  destruct (Z.ltb_spec (f_ref r1) 1); [done|]. inv_bind H. rewrite s32_small, u32_id in Hrun0 by (rewrite ?u32_id; lia).
  apply upd_ref in Hrun0 as (f & _ & E & Eo & _). inv_bind H. apply neutral_release in Hrun0. injection H as <- <-.
  eapply refs_same; [done|]. by eapply (refs_file ext _ _ i 1 (f_ref r1)).
Qed.

Lemma fileclose_refs kend ext i s r s' : refs ext s -> fileclose kend i s = Ret r s' -> refs (bump i (-1) ext) s'.
Proof.
  intros Hr H. unfold fileclose in H. inv_bind H. apply neutral_acquire in Hrun. apply (refs_same ext) in Hrun; [|done].
  inv_bind H. apply get_file_inv in Hrun0 as (-> & _ & Hv). destruct (Z.ltb_spec (f_ref r1) 1); [done|]. inv_bind H.
  apply upd_ref in Hrun0 as (f & _ & E & Eo & Hf). assert (Hr1 : refs (bump i (-1) ext) s1) by (by eapply refs_file).
  destruct (Z.ltb_spec 0 (f_ref r1 - 1)) as [Hlt|Hge]; [apply neutral_release in H; by eapply refs_same|].
  inv_bind H. apply get_file_inv in Hrun0 as (-> & Hf' & _). inv_bind H.
  assert (Hn : same_refs s1 s2).
  { unfold upd_file in Hrun0. rewrite Hf in Hrun0. injection Hrun0 as _ <-. split; [|done]. unfold refcounts. cbn.
    rewrite list_fmap_insert. apply list_insert_id. rewrite list_lookup_fmap, Hf. cbn. f_equal. lia. }
  assert (Hn2 : neutral (release LkFtable ;;; match f_type r3 with
    | FD_PIPE => pipeclose kend (f_pipe r3) (f_writable r3)
    | FD_INODE => infs begin_op ;;; ip <- the_inode r3 ;; infs (iput ip) ;;; infs end_op
    | FD_NONE => ret tt end)) by neutral.
  apply Hn2 in H. eapply refs_same; [|exact Hr1]. by eapply same_refs_trans.
Qed.

Lemma fdalloc_loop_inv f n : forall fd s r s', 0 <= fd -> fd + Z.of_nat n <= Z.of_nat (length (fl_ofile s)) ->
  fdalloc_loop f n fd s = Ret r s' ->
  r < 0 /\ s' = s \/ 0 <= r /\ fl_ofile s !! Z.to_nat r = Some None /\ fl_ofile s' = <[Z.to_nat r := Some f]> (fl_ofile s) /\
    refcounts s' = refcounts s.
Proof.
  induction n as [|n IH]; intros fd s r s' Hfd Hlen H; cbn [fdalloc_loop] in H; [injection H as <- <-; left; split; [lia|done]|].
  rewrite bind_gets in H. destruct (nth (Z.to_nat fd) (fl_ofile s) None) as [x|] eqn:E; [eapply IH; [| |exact H]; lia|].
  injection H as <- <-. right. split; [done|]. split; [|done].
  destruct (lookup_lt_is_Some_2 (fl_ofile s) (Z.to_nat fd)) as [y Hy]; [lia|]. rewrite nth_lookup, Hy in E. cbn in E. by subst y.
Qed.

Lemma fdalloc_refs ext f s r s' :
  refs ext s -> fdalloc f s = Ret r s' -> r < 0 /\ refs ext s' \/
  0 <= r /\ refs (bump f (-1) ext) s' /\ refcounts s' = refcounts s /\ fl_ofile s' !! Z.to_nat r = Some (Some f).
Proof.
  intros Hr H. unfold fdalloc in H. apply fdalloc_loop_inv in H; [|done|by rewrite (rf_len _ _ Hr)].
  destruct H as [[Hn ->]|(Hn & Hx & E & Er)]; [by left|right]. split; [done|]. split.
  - eapply refs_eq; [|by eapply (refs_fd ext s s')]. intros k. cbv beta. unfold bump.
    rewrite (decide_False (P := None = Some k)) by done. destruct (decide (k = f)) as [->|Hne]; [rewrite decide_True by done; lia|].
    rewrite decide_False by congruence. lia.
  - split; [done|]. rewrite E. apply list_lookup_insert_eq. by eapply lookup_lt_Some.
Qed.

Lemma set_fd_refs ext fd f s r s' :
  refs ext s -> fl_ofile s !! Z.to_nat fd = Some (Some f) -> set_fd fd None s = Ret r s' ->
  refs (bump f 1 ext) s' /\ refcounts s' = refcounts s.
Proof.
  intros Hr Hf [= <- <-]. split; [|done].
  eapply refs_eq; [|eapply (refs_fd ext s _ (Z.to_nat fd) (Some f) None Hr Hf); done]. intros k. cbv beta. unfold bump.
  rewrite (decide_False (P := None = Some k)) by done. destruct (decide (k = f)) as [->|Hne]; [rewrite decide_True by done; lia|].
  rewrite decide_False by congruence. lia.
Qed.

Lemma argfd_inv u n s r s' :
  argfd u n s = Ret r s' -> s' = s /\ match r with Some (fd, f) => fl_ofile s !! Z.to_nat fd = Some (Some f) | None => True end.
Proof.
  intros H. unfold argfd in H. destruct (argint u n) as [fd|]; [|by injection H as <- <-].
  destruct (_ || _); [by injection H as <- <-|]. rewrite bind_gets in H. rewrite nth_lookup in H.
  destruct (fl_ofile s !! Z.to_nat fd) as [[f|]|] eqn:E; injection H as <- <-; by split.
Qed.

(** ** The system calls *)

Section Calls.
Context (kend : Z).
Context (devread : Z -> option (nat -> Z -> M fs (Z * list Z))).
Context (devwrite : Z -> option (nat -> list Z -> Z -> M fs Z)).
Context (u : uctx).

Lemma neutral_argfd n : neutral (argfd u n).
Proof. intros s r s' [-> _]%argfd_inv. done. Qed.
Hint Resolve neutral_argfd : neutral.
Lemma neutral_fileread i n : neutral (fileread devread i n).
Proof. unfold fileread. neutral. Qed.
Lemma neutral_filewrite_loop fuel : forall fd ip addr i n, neutral (filewrite_loop devwrite fuel fd ip addr i n).
Proof. induction fuel as [|fuel IH]; intros fd ip addr i n; cbn [filewrite_loop]; neutral. Qed.
Hint Resolve neutral_fileread neutral_filewrite_loop : neutral.
Lemma neutral_filewrite i addr n : neutral (filewrite devwrite i addr n).
Proof. unfold filewrite. neutral. Qed.
Lemma neutral_filestat i : neutral (filestat i).
Proof. unfold filestat. neutral. Qed.
Hint Resolve neutral_filewrite neutral_filestat : neutral.

Lemma neutral_fail : neutral fail.
Proof. apply neutral_ret. Qed.
Lemma neutral_done v : neutral (done_with v).
Proof. apply neutral_ret. Qed.
Hint Resolve neutral_fail neutral_done : neutral.

(** The calls that neither open nor close anything. *)
Definition plain_calls : list (M fl reply) :=
  [sys_read devread u; sys_write devwrite u; sys_fstat u; sys_link devread devwrite u; sys_unlink devread devwrite u;
   sys_mkdir devread devwrite u; sys_mknod devread devwrite u; sys_chdir devread u].

Lemma plain_neutral h : h ∈ plain_calls -> neutral h.
Proof.
  unfold plain_calls. rewrite !elem_of_cons, elem_of_nil. intros H. destruct_or! H; subst; try done.
  - unfold sys_read, arg_io. neutral.
  - unfold sys_write, arg_io. neutral.
  - unfold sys_fstat. neutral.
  - unfold sys_link, link_bad. neutral.
  - unfold sys_unlink, unlink_bad. neutral.
  - unfold sys_mkdir, finish_create. neutral.
  - unfold sys_mknod, finish_create. neutral.
  - unfold sys_chdir. neutral.
Qed.

Context (ext : nat -> Z).
Hypothesis Hext : forall i, ext i < 2 ^ 31 - 100.

Lemma bump_back i d ext' s : refs (bump i (- d) (bump i d ext')) s -> refs ext' s.
Proof using. apply refs_eq. intros k. unfold bump. destruct (decide (k = i)); lia. Qed.

Lemma dup_refs s r s' : refs ext s -> sys_dup u s = Ret r s' -> refs ext s'.
Proof using Hext.
  intros Hr H. unfold sys_dup in H. inv_bind H. apply argfd_inv in Hrun as [-> Hf]. destruct r0 as [[fd f]|]; [|by injection H as <- <-].
  inv_bind H. apply (fdalloc_refs ext) in Hrun; [|done]. destruct Hrun as [[Hn Hr']|(Hn & Hr' & Er & Ho)].
  - rewrite (proj2 (Z.ltb_lt _ _) Hn) in H. by injection H as <- <-.
  - rewrite (proj2 (Z.ltb_ge _ _) Hn) in H. inv_bind H. apply (filedup_refs (bump f (-1) ext)) in Hrun; [|done|].
    + injection H as <- <-. by apply (bump_back f (-1)).
    + intros v Hv. rewrite (rf_count _ _ Hr' f v Hv). pose proof (cnt_bound f (fl_ofile s0)). rewrite (rf_len _ _ Hr') in *.
      unfold bump, NOFILE in *. rewrite decide_True by done. specialize (Hext f). lia.
Qed.

Lemma close_refs s r s' : refs ext s -> sys_close kend u s = Ret r s' -> refs ext s'.
Proof using.
  intros Hr H. unfold sys_close in H. inv_bind H. apply argfd_inv in Hrun as [-> Hf]. destruct r0 as [[fd f]|]; [|by injection H as <- <-].
  inv_bind H. apply (set_fd_refs ext) with (f := f) in Hrun as [Hr' _]; [|done|done]. inv_bind H.
  apply (fileclose_refs kend) with (ext := bump f 1 ext) in Hrun; [|done]. injection H as <- <-. by apply (bump_back f 1).
Qed.

Lemma open_refs s r s' : refs ext s -> sys_open kend devread devwrite u s = Ret r s' -> refs ext s'.
Proof using.
  intros Hr H. unfold sys_open in H. destruct (argstr u 0) as [path|]; [|by injection H as <- <-].
  destruct (argint u 1) as [omode|]; [|by injection H as <- <-]. inv_bind H. apply neutral_infs in Hrun.
  apply (refs_same ext) in Hrun; [|done]. inv_bind H. apply neutral_infs in Hrun0. apply (refs_same ext) in Hrun0; [|done].
  destruct r1 as [ip|]; [|assert (N : neutral (infs end_op ;;; fail)) by neutral; apply N in H; by eapply refs_same].
  inv_bind H. apply (filealloc_refs ext) in Hrun1; [|done]. destruct r1 as [f|].
  2: { assert (N : neutral (infs (iunlockput ip ;;; end_op) ;;; fail)) by neutral. apply N in H. by eapply refs_same. }
  inv_bind H. apply (fdalloc_refs (bump f 1 ext)) in Hrun2; [|done]. destruct Hrun2 as [[Hn Hr']|(Hn & Hr' & _)].
  - rewrite (proj2 (Z.ltb_lt _ _) Hn) in H. inv_bind H. apply (fileclose_refs kend (bump f 1 ext)) in Hrun2; [|done].
    assert (N : neutral (infs (iunlockput ip ;;; end_op) ;;; fail)) by neutral. apply N in H.
    eapply refs_same; [done|]. by apply (bump_back f 1).
  - rewrite (proj2 (Z.ltb_ge _ _) Hn) in H. inv_bind H. apply neutral_infs in Hrun2. inv_bind H.
    apply neutral_upd_file in Hrun3; [|done]. injection H as <- <-. eapply refs_same; [done|]. eapply refs_same; [done|].
    by apply (bump_back f 1).
Qed.

Lemma pipealloc_refs s r s' :
  refs ext s -> pipealloc kend s = Ret r s' ->
  match r with Some (f0, f1) => refs (bump f1 1 (bump f0 1 ext)) s' | None => refs ext s' end.
Proof using.
  intros Hr H. unfold pipealloc in H. inv_bind H. apply (filealloc_refs ext) in Hrun; [|done].
  destruct r0 as [f0|]; [|by injection H as <- <-]. inv_bind H. apply (filealloc_refs (bump f0 1 ext)) in Hrun0; [|done].
  destruct r0 as [f1|].
  2: { inv_bind H. apply (fileclose_refs kend (bump f0 1 ext)) in Hrun1; [|done]. injection H as <- <-. by apply (bump_back f0 1). }
  inv_bind H. apply neutral_inmach in Hrun1. eapply refs_same in Hrun0; [|done]. destruct (r0 =? 0).
  - inv_bind H. apply (fileclose_refs kend (bump f1 1 (bump f0 1 ext))) in Hrun2; [|done]. inv_bind H.
    pose proof (fileclose_refs kend _ f1 _ _ _ Hrun2 Hrun3) as Hr'. injection H as <- <-. eapply refs_eq; [|exact Hr'].
    intros k. unfold bump. repeat case_decide; lia.
  - rewrite bind_gets in H. inv_bind H. apply neutral_set_pipes in Hrun2. inv_bind H. apply neutral_initlock in Hrun3. inv_bind H.
    apply neutral_upd_file in Hrun4; [|done]. inv_bind H. apply neutral_upd_file in Hrun5; [|done]. injection H as <- <-.
    do 4 (eapply refs_same; [done|]). done.
Qed.

Lemma pipe_refs s r s' : refs ext s -> sys_pipe kend u s = Ret r s' -> refs ext s'.
Proof using.
  intros Hr H. unfold sys_pipe in H. destruct (argptr u 0 8) as [a|]; [|by injection H as <- <-]. inv_bind H.
  apply pipealloc_refs in Hrun; [|done]. destruct r0 as [[rf wf]|]; [|by injection H as <- <-]. inv_bind H.
  apply (fdalloc_refs (bump wf 1 (bump rf 1 ext))) in Hrun0; [|done]. destruct Hrun0 as [[Hn Hr']|(Hn & Hr' & _ & Ho)].
  - rewrite (proj2 (Z.ltb_lt _ _) Hn) in H. inv_bind H. apply (fileclose_refs kend (bump wf 1 (bump rf 1 ext))) in Hrun0; [|done].
    inv_bind H. pose proof (fileclose_refs kend _ wf _ _ _ Hrun0 Hrun1) as Hr2. injection H as <- <-. eapply refs_eq; [|exact Hr2].
    intros k. unfold bump. repeat case_decide; lia.
  - rewrite (proj2 (Z.ltb_ge _ _) Hn) in H. inv_bind H. pose proof (fdalloc_refs _ _ _ _ _ Hr' Hrun0) as Hfd.
    destruct Hfd as [[Hn1 Hr2]|(Hn1 & Hr2 & _)].
    + rewrite (proj2 (Z.ltb_lt _ _) Hn1) in H. inv_bind H.
      assert (Ho' : fl_ofile s2 !! Z.to_nat r0 = Some (Some rf)).
      { unfold fdalloc in Hrun0. apply fdalloc_loop_inv in Hrun0; [|done|by rewrite (rf_len _ _ Hr')].
        destruct Hrun0 as [[_ ->]|[? _]]; [done|lia]. }
      destruct (set_fd_refs _ _ _ _ _ _ Hr2 Ho' Hrun1) as [Hr3 _].
      inv_bind H. pose proof (fileclose_refs kend _ rf _ _ _ Hr3 Hrun2) as Hr4. inv_bind H.
      pose proof (fileclose_refs kend _ wf _ _ _ Hr4 Hrun3) as Hr5. injection H as <- <-. eapply refs_eq; [|exact Hr5].
      intros k. unfold bump. repeat case_decide; lia.
    + rewrite (proj2 (Z.ltb_ge _ _) Hn1) in H. injection H as <- <-. eapply refs_eq; [|exact Hr2].
      intros k. unfold bump. repeat case_decide; lia.
Qed.

End Calls.

(** A process makes a system call on files that returns. *)
Definition file_calls kend devread devwrite (u : uctx) : list (M fl reply) :=
  sys_dup u :: sys_close kend u :: sys_open kend devread devwrite u :: sys_pipe kend u :: plain_calls devread devwrite u.
Definition call_step kend devread devwrite (s s' : fl) : Prop :=
  exists u h r, h ∈ file_calls kend devread devwrite u /\ h s = Ret r s'.

Lemma call_refs kend devread devwrite ext s s' :
  (forall i, ext i < 2 ^ 31 - 100) -> refs ext s -> call_step kend devread devwrite s s' -> refs ext s'.
Proof.
  intros He Hr (u & h & r & Hh & H). unfold file_calls in Hh. rewrite !elem_of_cons in Hh.
  destruct Hh as [->|[->|[->|[->|Hh]]]].
  - by eapply dup_refs.
  - by eapply close_refs.
  - by eapply open_refs.
  - by eapply pipe_refs.
  - eapply refs_same; [|done]. by eapply plain_neutral.
Qed.

(** C27. The reference count of every open file stays exact: after any sequence of [open],
    [close], [dup], [pipe], [read], [write], [fstat], [link], [unlink], [mkdir], [mknod]
    and [chdir], with any arguments and whatever the file system and the allocator do on
    the way, failing calls included, the count of a file is the number of descriptors of
    the process that name it plus the references held elsewhere.  So a file in use is
    never reused and a file nobody names is free: no call leaks a file. *)
Theorem file_refs_invariant kend devread devwrite ext s s' :
  (forall i, 0 <= ext i < 2 ^ 31 - 100) -> refs ext s -> rtc (call_step kend devread devwrite) s s' ->
  refs ext s' /\
  (forall i f fd, fl_files s' !! i = Some f -> fl_ofile s' !! fd = Some (Some i) -> 1 <= f_ref f) /\
  (forall i f, fl_files s' !! i = Some f -> ext i = 0 -> Some i ∉ fl_ofile s' -> f_ref f = 0).
Proof.
  intros He Hr Hrtc.
  assert (Hr' : refs ext s').
  { induction Hrtc as [s|s s1 s2 Hst _ IH]; [done|]. apply IH. eapply call_refs; [|done|done]. intros i. apply He. }
  split; [done|]. assert (Hv : forall i f, fl_files s' !! i = Some f -> f_ref f = ext i + cnt i (fl_ofile s')).
  { intros i f Hf. apply (rf_count _ _ Hr'). unfold refcounts. by rewrite list_lookup_fmap, Hf. }
  split.
  - intros i f fd Hf Ho. rewrite (Hv i f Hf). specialize (He i). unfold cnt.
    assert (Hin : Some i ∈ filter (fun o => o = Some i) (fl_ofile s')) by (apply list_elem_of_filter; split; [done|by eapply list_elem_of_lookup_2]).
    destruct (filter _ _); [by apply elem_of_nil in Hin|]. cbn [length]. lia.
  - intros i f Hf He0 Hn. rewrite (Hv i f Hf), He0. unfold cnt.
    destruct (filter (fun o => o = Some i) (fl_ofile s')) as [|o l] eqn:E; [done|]. exfalso. apply Hn.
    assert (Ho : o ∈ filter (fun o => o = Some i) (fl_ofile s')) by (rewrite E; left).
    apply list_elem_of_filter in Ho as [-> Ho]. done.
Qed.

Module Example.

(** A process with one file open, as descriptor 0, that calls [dup(0)]. *)
Definition u1 : uctx := Uctx 8192 8000 (fun _ => 0).
Definition file1 : file := File FD_PIPE 1 1 0 4096 None 0.
Definition fl1 : fl :=
  Fl (Machine [] ∅ (Kmem 1 0 0 ∅) 0) (FsState.Fs [] 1 None [] [] [] [] [] [] (FsState.Log 2 30 0 0 1 0 []) (Superblock 0 0 0 0 0 0 0) [])
    ∅ [file1; File FD_NONE 0 0 0 0 None 0] (Some 0%nat :: replicate 15 None) 0.
Definition fl2 : fl := match sys_dup u1 fl1 with Ret _ s => s | _ => fl1 end.

Lemma dup_ok : sys_dup u1 fl1 = Ret (1, []) fl2.
Proof. vm_compute. reflexivity. Qed.

Lemma file_refs_invariant_witness : (f_ref <$> fl_files fl2) = [2; 0] /\ refs (fun _ => 0) fl2.
Proof.
  split; [vm_compute; reflexivity|].
  apply (file_refs_invariant 0 (fun _ => None) (fun _ => None) (fun _ => 0) fl1 fl2).
  - intros i. lia.
  - split; [reflexivity|]. intros [|[|i]] v Hv; [injection Hv as <-; vm_compute; reflexivity|injection Hv as <-; vm_compute; reflexivity|].
    cbn in Hv. discriminate Hv.
  - apply rtc_once. exists u1, (sys_dup u1), (1, []). split; [left|exact dup_ok].
Defined.

End Example.
