(* ===== verification/Descriptors.v ===== *)
(** * Tables of descriptors

    A process names its open files by small numbers.  These are the tables as user programs
    know them: a new descriptor is the lowest that is free. *)

From S2P Require Import Prelude.

(** The lowest free descriptor, and the table with [d] there. *)
Fixpoint alloc {A} (T : list (option A)) (d : A) : option (nat * list (option A)) :=
  match T with
  | [] => None
  | None :: T => Some (0%nat, Some d :: T)
  | Some e :: T => match alloc T d with Some (i, T') => Some (S i, Some e :: T') | None => None end
  end.

Definition slot {A} (T : list (option A)) (fd : Z) : option A := if fd <? 0 then None else default None (T !! Z.to_nat fd).

(** The results of [close] and [dup] with the tables they leave. *)
Definition do_close {A} (T : list (option A)) (fd : Z) : Z * list (option A) :=
  match slot T fd with
  | Some _ => (0, <[Z.to_nat fd := None]> T)
  | None => (-1, T)
  end.
Definition do_alloc {A} (T : list (option A)) (d : A) : Z * list (option A) :=
  match alloc T d with Some (i, T') => (Z.of_nat i, T') | None => (-1, T) end.
Definition do_dup {A} (T : list (option A)) (fd : Z) : Z * list (option A) :=
  match slot T fd with Some d => do_alloc T d | None => (-1, T) end.

Lemma alloc_spec {A} (d : A) T i T' : alloc T d = Some (i, T') ->
  T' = <[i := Some d]> T /\ T !! i = Some None /\ forall k, (k < i)%nat -> exists e, T !! k = Some (Some e).
Proof.
  revert i T'. induction T as [|[e|] T IH]; intros i T' E; [done| |].
  - cbn in E. destruct (alloc T d) as [[j T1]|]; [|done]. injection E as <- <-. destruct (IH j T1 eq_refl) as (-> & H1 & H2).
    split; [done|]. split; [done|]. intros [|k] Hk; [by exists e|]. apply H2. lia.
  - injection E as <- <-. split; [done|]. split; [done|]. lia.
Qed.
Lemma alloc_first {A} (d : A) T i : T !! i = Some None -> (forall k, (k < i)%nat -> exists e, T !! k = Some (Some e)) -> alloc T d = Some (i, <[i := Some d]> T).
Proof.
  revert i. induction T as [|x T IH]; intros i Hi Hk; [done|]. destruct i as [|i].
  - injection Hi as ->. done.
  - destruct (Hk 0%nat ltac:(lia)) as [e [= ->]]. cbn. rewrite (IH i Hi); [done|]. intros k Hlt. apply (Hk (S k)). lia.
Qed.

Lemma slot_nat {A} (T : list (option A)) i : slot T (Z.of_nat i) = default None (T !! i).
Proof. unfold slot. rewrite (proj2 (Z.ltb_ge _ _)) by lia. by rewrite Nat2Z.id. Qed.
Lemma close_nat {A} (T : list (option A)) i d : T !! i = Some (Some d) -> snd (do_close T (Z.of_nat i)) = <[i := None]> T.
Proof. intros Hi. unfold do_close. rewrite slot_nat, Hi. by rewrite Nat2Z.id. Qed.
Lemma dup_nat {A} (T : list (option A)) i k d : T !! i = Some (Some d) -> T !! k = Some None -> (forall j, (j < k)%nat -> exists e, T !! j = Some (Some e)) ->
  snd (do_dup T (Z.of_nat i)) = <[k := Some d]> T.
Proof. intros Hi Hk Hj. unfold do_dup. rewrite slot_nat, Hi. cbn [default from_option id]. unfold do_alloc. by rewrite (alloc_first d T k). Qed.
Lemma alloc_full {A} (d : A) T : (forall k x, T !! k = Some x -> x <> None) -> alloc T d = None.
Proof.
  induction T as [|[e|] T IH]; intros H; [done| |by destruct (H 0%nat None eq_refl)]. cbn. rewrite IH; [done|]. intros k x Hk. by apply (H (S k)).
Qed.
