(* ===== verification/FdProps.v ===== *)
(** * The descriptors of the kernel

    [dup], [close], [open] and [pipe] of sysfile.c treat the descriptors of the process as
    [Descriptors] says. *)

From S2P Require Import Prelude Mmu Mem Blk Kalloc FsState Bio Log Fs Pipe PipeProps File Syscall Sysfile FileProps Descriptors.

(** ** Code that leaves the descriptors alone *)

Definition keeps {A} (m : M fl A) : Prop := forall s r s', m s = Ret r s' -> fl_ofile s' = fl_ofile s.

Lemma neutral_keeps {A} (m : M fl A) : neutral m -> keeps m.
Proof. intros H s r s' E. by apply H in E as [_ ?]. Qed.
Lemma keeps_bind {A B} (m : M fl A) (k : A -> M fl B) : keeps m -> (forall a, keeps (k a)) -> keeps (bind m k).
Proof. intros Hm Hk s r s' H. inv_bind H. apply Hm in Hrun. apply Hk in H. congruence. Qed.
Lemma keeps_upd_file i g : keeps (upd_file i g).
Proof. intros s r s' H. unfold upd_file in H. case_match; [|done]. by injection H as _ <-. Qed.

(** Go through the code: every step keeps the descriptors by its kind. *)
Ltac keeps_kind :=
  lazymatch goal with
  | |- keeps (upd_file _ _) => apply keeps_upd_file
  | |- keeps (ret _) => apply neutral_keeps, neutral_ret
  | |- keeps (panic _) => apply neutral_keeps, neutral_panic
  | |- keeps (gets _) => apply neutral_keeps, neutral_gets
  | |- keeps (infs _) => apply neutral_keeps, neutral_infs
  | |- keeps (inmach _) => apply neutral_keeps, neutral_inmach
  | |- keeps (acquire _) => apply neutral_keeps, neutral_acquire
  | |- keeps (release _) => apply neutral_keeps, neutral_release
  | |- keeps (initlock _) => apply neutral_keeps, neutral_initlock
  | |- keeps (get_file _) => apply neutral_keeps, neutral_get_file
  | |- keeps (the_inode _) => apply neutral_keeps, neutral_the_inode
  | |- keeps (pipeclose _ _ _) => apply neutral_keeps, neutral_pipeclose
  | |- keeps (modify (fun s => set_pipes _ s)) => apply neutral_keeps, neutral_set_pipes
  | H : forall i, keeps (?f i) |- keeps (?f _) => apply H
  | H : keeps ?m |- keeps ?m => exact H
  end.
Ltac keeps :=
  repeat first [ keeps_kind | apply keeps_bind; [|intros ?] | progress (cbn beta iota zeta) | case_match ].

Lemma keeps_filedup i : keeps (filedup i).
Proof. unfold filedup. keeps. Qed.
Lemma keeps_filealloc_scan n : forall i, keeps (filealloc_scan n i).
Proof. induction n as [|n IH]; intros i; cbn [filealloc_scan]; keeps. Qed.
Lemma keeps_filealloc : keeps filealloc.
Proof. unfold filealloc. pose proof (keeps_filealloc_scan NFILE). keeps. Qed.
Lemma keeps_fileclose kend i : keeps (fileclose kend i).
Proof. unfold fileclose. keeps. Qed.
Lemma keeps_pipealloc kend : keeps (pipealloc kend).
Proof. unfold pipealloc. pose proof keeps_filealloc. pose proof (keeps_fileclose kend). keeps. Qed.

(** ** Taking a descriptor *)

Lemma fdalloc_loop_spec f n : forall fd s r s',
  (fd + n = length (fl_ofile s))%nat -> (forall k, (k < fd)%nat -> exists e, fl_ofile s !! k = Some (Some e)) ->
  fdalloc_loop f n (Z.of_nat fd) s = Ret r s' -> (r, fl_ofile s') = do_alloc (fl_ofile s) f.
Proof.
  induction n as [|n IH]; intros fd s r s' Hlen Hlow H; cbn [fdalloc_loop] in H.
  - injection H as <- <-. unfold do_alloc. rewrite alloc_full; [done|]. intros k x Hk. destruct (Hlow k) as [e He]; [apply lookup_lt_Some in Hk; lia|]. congruence.
  - rewrite bind_gets, Nat2Z.id in H. destruct (lookup_lt_is_Some_2 (fl_ofile s) fd ltac:(lia)) as [x Hx]. rewrite nth_lookup, Hx in H. cbn [default from_option id] in H. destruct x as [e|].
    + replace (Z.of_nat fd + 1) with (Z.of_nat (S fd)) in H by lia. apply (IH (S fd) s r s'); [lia| |done].
      intros k Hk. destruct (decide (k = fd)) as [->|]; [by exists e|]. apply Hlow. lia.
    + injection H as <- <-. unfold do_alloc. rewrite (alloc_first f _ fd) by done. cbn. by rewrite Nat2Z.id.
Qed.
Lemma fdalloc_spec f s r s' : length (fl_ofile s) = NOFILE -> fdalloc f s = Ret r s' -> (r, fl_ofile s') = do_alloc (fl_ofile s) f.
Proof. intros Hl H. apply (fdalloc_loop_spec f NOFILE 0 s r s'); [by rewrite Hl|lia|done]. Qed.

Lemma do_alloc_sign {A} (T : list (option A)) f r T' : (r, T') = do_alloc T f ->
  r = -1 /\ T' = T \/ 0 <= r /\ alloc T f = Some (Z.to_nat r, T') /\ length T' = length T.
Proof.
  unfold do_alloc. destruct (alloc T f) as [[i T1]|] eqn:E; intros [= -> ->]; [right|by left]. split; [lia|]. rewrite Nat2Z.id. split; [done|].
  apply alloc_spec in E as (-> & _). apply length_insert.
Qed.

Section Calls.
Context (kend : Z).
Context (devread : Z -> option (nat -> Z -> M fs (Z * list Z))).
Context (devwrite : Z -> option (nat -> list Z -> Z -> M fs Z)).
Context (u : uctx).

Lemma argfd_slot n s r s' fd : length (fl_ofile s) = NOFILE -> argint u n = Some fd -> argfd u n s = Ret r s' ->
  s' = s /\ r = (fun f => (fd, f)) <$> slot (fl_ofile s) fd.
Proof.
  intros Hl Ha H. unfold argfd in H. rewrite Ha in H. unfold slot. destruct (Z.ltb_spec fd 0); [by injection H as <- <-|]. cbn [orb] in H.
  destruct (Z.leb_spec (Z.of_nat NOFILE) fd).
  - injection H as <- <-. rewrite lookup_ge_None_2 by (rewrite Hl; lia). done.
  - rewrite bind_gets, nth_lookup in H. by destruct (default None (fl_ofile s !! Z.to_nat fd)); injection H as <- <-.
Qed.

Lemma sys_dup_spec s r w s' fd : length (fl_ofile s) = NOFILE -> argint u 0 = Some fd -> sys_dup u s = Ret (r, w) s' -> (r, fl_ofile s') = do_dup (fl_ofile s) fd.
Proof.
  intros Hl Ha H. unfold sys_dup in H. inv_bind H. destruct (argfd_slot _ _ _ _ _ Hl Ha Hrun) as [-> ->]. unfold do_dup.
  destruct (slot (fl_ofile s) fd) as [f|]; cbn [fmap option_fmap option_map] in H; [|by injection H as <- _ <-].
  inv_bind H. apply fdalloc_spec in Hrun0; [|done]. destruct (do_alloc_sign _ _ _ _ Hrun0) as [[-> E]|(Hr & _)].
  - injection H as <- _ <-. by rewrite <- Hrun0, E.
  - rewrite (proj2 (Z.ltb_ge _ _) Hr) in H. inv_bind H. apply keeps_filedup in Hrun1. injection H as <- _ <-. by rewrite Hrun1.
Qed.

Lemma sys_close_spec s r w s' fd : length (fl_ofile s) = NOFILE -> argint u 0 = Some fd -> sys_close kend u s = Ret (r, w) s' -> (r, fl_ofile s') = do_close (fl_ofile s) fd.
Proof.
  intros Hl Ha H. unfold sys_close in H. inv_bind H. destruct (argfd_slot _ _ _ _ _ Hl Ha Hrun) as [-> ->]. unfold do_close.
  destruct (slot (fl_ofile s) fd) as [f|]; cbn [fmap option_fmap option_map] in H; [|by injection H as <- _ <-].
  inv_bind H. injection Hrun0 as _ <-. inv_bind H. apply keeps_fileclose in Hrun0. injection H as <- _ <-. by rewrite Hrun0.
Qed.

Lemma sys_open_spec s r w s' : length (fl_ofile s) = NOFILE -> sys_open kend devread devwrite u s = Ret (r, w) s' ->
  r = -1 /\ fl_ofile s' = fl_ofile s \/ 0 <= r /\ exists f, alloc (fl_ofile s) f = Some (Z.to_nat r, fl_ofile s').
Proof.
  intros Hl H. unfold sys_open in H. destruct (argstr u 0) as [path|]; [|injection H as <- _ <-; by left]. destruct (argint u 1) as [omode|]; [|injection H as <- _ <-; by left].
  inv_bind H. apply (neutral_keeps _ (neutral_infs _)) in Hrun. inv_bind H. apply (neutral_keeps _ (neutral_infs _)) in Hrun0.
  destruct r1 as [ip|].
  2: { left. inv_bind H. apply (neutral_keeps _ (neutral_infs _)) in Hrun1. injection H as <- _ <-. split; [done|congruence]. }
  inv_bind H. apply keeps_filealloc in Hrun1. destruct r1 as [f|].
  2: { left. inv_bind H. apply (neutral_keeps _ (neutral_infs _)) in Hrun2. injection H as <- _ <-. split; [done|congruence]. }
  inv_bind H. assert (E2 : fl_ofile s2 = fl_ofile s) by congruence. apply fdalloc_spec in Hrun2; [|by rewrite E2]. rewrite E2 in Hrun2. destruct (do_alloc_sign _ _ _ _ Hrun2) as [[-> E]|(Hr & Ea & _)].
  - left. change (-1 <? 0) with true in H. cbv iota in H. inv_bind H. apply keeps_fileclose in Hrun3. inv_bind H. apply (neutral_keeps _ (neutral_infs _)) in Hrun4.
    injection H as <- _ <-. split; [done|congruence].
  - right. rewrite (proj2 (Z.ltb_ge _ _) Hr) in H. inv_bind H. apply (neutral_keeps _ (neutral_infs _)) in Hrun3. inv_bind H. apply keeps_upd_file in Hrun4.
    injection H as <- _ <-. split; [done|]. exists f. by rewrite Hrun4, Hrun3.
Qed.

(** The two descriptors are stored at the address the call was given. *)
Lemma sys_pipe_spec s r w s' : length (fl_ofile s) = NOFILE -> sys_pipe kend u s = Ret (r, w) s' ->
  r = -1 /\ fl_ofile s' = fl_ofile s \/
  r = 0 /\ exists rf wf i j T1 a, alloc (fl_ofile s) rf = Some (i, T1) /\ alloc T1 wf = Some (j, fl_ofile s') /\
    w = [(a, le 4 (Z.of_nat i)); (a + 4, le 4 (Z.of_nat j))].
Proof.
  intros Hl H. unfold sys_pipe in H. destruct (argptr u 0 8) as [a|]; [|injection H as <- _ <-; by left]. inv_bind H. apply keeps_pipealloc in Hrun.
  destruct r0 as [[rf wf]|]; [|injection H as <- _ <-; by left]. inv_bind H. apply fdalloc_spec in Hrun0; [|by rewrite Hrun]. rewrite Hrun in Hrun0.
  destruct (do_alloc_sign _ _ _ _ Hrun0) as [[-> E]|(Hr & Ea & El)].
  { left. change (-1 <? 0) with true in H. cbv iota in H. inv_bind H. apply keeps_fileclose in Hrun1. inv_bind H. apply keeps_fileclose in Hrun2. injection H as <- _ <-. split; [done|congruence]. }
  rewrite (proj2 (Z.ltb_ge _ _) Hr) in H. inv_bind H. apply fdalloc_spec in Hrun1; [|congruence]. destruct (do_alloc_sign _ _ _ _ Hrun1) as [[-> E]|(Hr1 & Ea1 & _)].
  - left. change (-1 <? 0) with true in H. cbv iota in H. inv_bind H. injection Hrun2 as _ <-. inv_bind H. apply keeps_fileclose in Hrun2. inv_bind H. apply keeps_fileclose in Hrun3.
    injection H as <- _ <-. split; [done|]. rewrite Hrun3, Hrun2. cbn. rewrite E. apply alloc_spec in Ea as (-> & Hn & _). by rewrite list_insert_insert_eq, list_insert_id.
  - right. rewrite (proj2 (Z.ltb_ge _ _) Hr1) in H. injection H as <- <- <-. split; [done|]. exists rf, wf, (Z.to_nat r0), (Z.to_nat r1), (fl_ofile s1), a.
    rewrite !Z2Nat.id by done. done.
Qed.
End Calls.

(** C25. The kernel gives user programs the descriptors they rely on.  A call of [dup],
    [close], [open] or [pipe] that returns, whatever the file system and the allocator do
    on the way, has exactly the result, and leaves exactly the table of the process, that
    the tables of [Descriptors] say: [dup] and [open] take the lowest free descriptor,
    [pipe] the lowest two in order, which it stores for the program, [close] frees the one
    it is given, and a call that fails returns -1 and changes no descriptor. *)
Theorem descriptors_correct kend devread devwrite u s r w s' :
  length (fl_ofile s) = NOFILE ->
  (forall fd, argint u 0 = Some fd -> sys_dup u s = Ret (r, w) s' -> (r, fl_ofile s') = do_dup (fl_ofile s) fd) /\
  (forall fd, argint u 0 = Some fd -> sys_close kend u s = Ret (r, w) s' -> (r, fl_ofile s') = do_close (fl_ofile s) fd) /\
  (sys_open kend devread devwrite u s = Ret (r, w) s' ->
    r = -1 /\ fl_ofile s' = fl_ofile s \/ 0 <= r /\ exists f, alloc (fl_ofile s) f = Some (Z.to_nat r, fl_ofile s')) /\
  (sys_pipe kend u s = Ret (r, w) s' ->
    r = -1 /\ fl_ofile s' = fl_ofile s \/
    r = 0 /\ exists rf wf i j T1 a, alloc (fl_ofile s) rf = Some (i, T1) /\ alloc T1 wf = Some (j, fl_ofile s') /\
      w = [(a, le 4 (Z.of_nat i)); (a + 4, le 4 (Z.of_nat j))]).
Proof.
  intros Hl. split; [|split; [|split]].
  - intros fd Ha. by apply sys_dup_spec.
  - intros fd Ha. by apply sys_close_spec.
  - by apply sys_open_spec.
  - by apply sys_pipe_spec.
Qed.

(** [dup(0)] of a process with one descriptor. *)
Lemma descriptors_correct_witness :
  length (fl_ofile FileProps.Example.fl1) = NOFILE /\ (1, fl_ofile FileProps.Example.fl2) = do_dup (fl_ofile FileProps.Example.fl1) 0 /\
  fl_ofile FileProps.Example.fl2 = Some 0%nat :: Some 0%nat :: replicate 14 None.
Proof.
  assert (Hl : length (fl_ofile FileProps.Example.fl1) = NOFILE) by reflexivity. split; [exact Hl|]. split; [|vm_compute; reflexivity].
  destruct (descriptors_correct 0 (fun _ => None) (fun _ => None) FileProps.Example.u1 FileProps.Example.fl1 1 [] FileProps.Example.fl2 Hl) as (H & _).
  apply (H 0); [vm_compute; reflexivity|exact FileProps.Example.dup_ok].
Defined.
