(* ===== verification/Sysproc.v ===== *)
(** * sysproc.c and trap.c: system calls on processes, and interrupts

    A handler runs on the state of the kernel ([Proc]) for processor [c].  Its value is
    the value of the call with the stores into the memory of the process, or [None] when
    the process has given up the processor; how it goes on then is the definition with
    the suffix [_resume], or the [_after] definition of [Proc]. *)

From stdpp Require Import functions.
From S2P Require Import Prelude Mmu Mem Blk Kalloc Vm PageTable VmInv Rand Proc Syscall.
#[local] Open Scope Z_scope.

(** What a process has in memory, as the handlers of its system calls see it. *)
Definition uctx_of (m : mem) (p : proc) : uctx :=
  Uctx (p_sz p) (ld32 m (p_tf p + tf_esp)) (fun va => default 0 (uread m (p_pgdir p) va)).

Definition state_number (st : procstate) : Z :=
  match st with UNUSED => 0 | EMBRYO => 1 | SLEEPING => 2 | RUNNABLE => 3 | RUNNING => 4 | ZOMBIE => 5 end.

Definition words (vs : list Z) : list Z := mjoin (le 4 <$> vs).
(** The stores of [getpinfo] into the [struct pstat] at [a]; [ticks] is not written. *)
Definition pstat_writes (a : Z) (ps : pstat) : list (Z * list Z) :=
  [(a, words (ps_inuse ps)); (a + 256, words (ps_pid ps)); (a + 512, words (ps_priority ps));
   (a + 768, words (state_number <$> ps_state ps))].

(** Offsets in [struct trapframe]. *)
Definition tf_trapno : Z := 48.
Definition tf_err : Z := 52.

Section Sysproc.
Context {F : Type} `{FileLayer F}.
Context (kend kdata trapret forkret : Z) (ts_addr : nat -> Z) (c : nat).

Abbreviation K A := (M (kern F) A).
Definition answer : Type := option (Z * list (Z * list Z)).
Definition value (v : Z) : K answer := ret (Some (v, [])).

Definition cur_uctx : K uctx :=
  pi <- curproc c ;; p <- get_proc pi ;; gets (fun k => uctx_of (m_mem (k_mach k)) p).

Definition sys_fork : K answer := v <- fork kend kdata trapret forkret c ;; value v.
Definition sys_fork_original : K answer := v <- fork_original kend kdata trapret forkret c ;; value v.
(** [exit] ends in [sched]. *)
Definition sys_exit : K answer := exit c ;;; ret None.
Definition sys_wait : K answer := r <- wait kend c ;; ret (option_map (fun v => (v, [])) r).

Definition sys_kill : K answer :=
  u <- cur_uctx ;;
  match argint u 0 with
  | None => value (-1)
  | Some pid => v <- kill pid ;; value v
  end.

Definition sys_getpid : K answer := pi <- curproc c ;; p <- get_proc pi ;; value (p_pid p).

Definition sys_sbrk : K answer :=
  u <- cur_uctx ;;
  match argint u 0 with
  | None => value (-1)
  | Some n =>
    pi <- curproc c ;;
    p <- get_proc pi ;;
    r <- growproc kend ts_addr c n ;;
    if r <? 0 then value (-1) else value (s32 (p_sz p))
  end.

(** The loop of [sys_sleep] with [tickslock] held: [n] is converted to unsigned for the
    comparison. *)
Definition sleep_iter (ticks0 n : Z) : K answer :=
  ticks <- gets k_ticks ;;
  if u32 (ticks - ticks0) <? u32 n then
    pi <- curproc c ;;
    p <- get_proc pi ;;
    if negb (p_killed p =? 0) then release LkTicks ;;; value (-1) else
    sleep_before c ChTicks LkTicks ;;; ret None
  else release LkTicks ;;; value 0.
Definition sys_sleep : K answer :=
  u <- cur_uctx ;;
  match argint u 0 with
  | None => value (-1)
  | Some n =>
    acquire LkTicks ;;;
    ticks0 <- gets k_ticks ;;
    sleep_iter ticks0 n
  end.
Definition sys_sleep_resume (ticks0 n : Z) : K answer := sleep_after c LkTicks ;;; sleep_iter ticks0 n.

Definition sys_uptime : K answer :=
  acquire LkTicks ;;;
  xticks <- gets k_ticks ;;
  release LkTicks ;;;
  value (s32 xticks).

Definition sys_getNumFreePages : K answer := v <- mach getNumFreePages ;; value v.

Definition sys_nice : K answer :=
  pi <- curproc c ;;
  u <- cur_uctx ;;
  match argint u 0 with
  | None => value (-1)
  | Some n => upd_proc pi (set_priority n) ;;; value 0
  end.

(** [sys_getpri], without the line it prints; the line reads the parent. *)
Definition sys_getpri : K answer :=
  mp <- myproc c ;;
  match mp with
  | None => value (-1)
  | Some pi =>
    p <- get_proc pi ;;
    match p_parent p with
    | None => ub "null pointer"
    | Some q => get_proc q ;;; value 0
    end
  end.

(** The times are stored when a child was found, that is unless the value is -1. *)
Definition sys_testwait : K answer :=
  u <- cur_uctx ;;
  match argptr u 0 4, argptr u 1 4, argptr u 2 4 with
  | Some retime, Some rutime, Some stime =>
    r <- testwait kend c ;;
    ret (match r with
         | None => None
         | Some (v, (re, ru, st)) =>
           Some (v, if v =? -1 then [] else [(retime, le 4 re); (rutime, le 4 ru); (stime, le 4 st)])
         end)
  | _, _, _ => value (-1)
  end.

(** [yield] goes on with [yield_after], and the call returns 0. *)
Definition sys_yield : K answer := yield_before c ;;; ret None.

Definition sys_getpinfo : K answer :=
  u <- cur_uctx ;;
  match argptr u 0 2048 with
  | None => value (-1)
  | Some a => r <- getpinfo (Pstat [] [] [] [] []) ;; ret (Some (0, pstat_writes a r))
  end.

(** ** Interrupts *)

(** [tvinit]; [vectors] are the addresses of the 256 entry points. *)
Definition tvinit (vectors : list Z) : K (list gatedesc) :=
  let idt := (fun v => SETGATE false (Z.shiftl SEG_KCODE 3) v 0) <$> vectors in
  let idt := <[Z.to_nat T_SYSCALL := SETGATE true (Z.shiftl SEG_KCODE 3) (nth (Z.to_nat T_SYSCALL) vectors 0) DPL_USER]> idt in
  initlock LkTicks ;;;
  ret idt.

(** The clock interrupt. *)
Definition timer_interrupt : K unit :=
  when (c =? 0)%nat do
    (acquire LkTicks ;;;
     modify (fun k => set_ticks (u32 (k_ticks k + 1)) k) ;;;
     updateStats ;;;
     ticks <- gets k_ticks ;;
     (when ticks mod 20 =? 0 do resetPriority) ;;;
     Proc.wakeup ChTicks ;;;
     release LkTicks).

(** A page fault at [cr2]: the handler of vm.c kills the process where it says so. *)
Definition page_fault (cr2 : Z) : K unit :=
  mp <- myproc c ;;
  match mp with
  | None => panic "pagefault"
  | Some pi =>
    p <- get_proc pi ;;
    kill_it <- mach (pagefault kend (Some (p_pgdir p)) cr2) ;;
    when (kill_it : bool) do upd_proc pi (set_killed 1)
  end.

(** A trap the kernel does not expect. *)
Definition unexpected_trap (cs : Z) : K unit :=
  mp <- myproc c ;;
  match mp with
  | None => panic "trap"
  | Some pi => if Z.land cs 3 =? 0 then panic "trap" else upd_proc pi (set_killed 1)
  end.

(** [myproc() && myproc()->killed && (tf->cs&3) == DPL_USER]. *)
Definition must_exit (cs : Z) : K bool :=
  mp <- myproc c ;;
  match mp with
  | None => ret false
  | Some pi => p <- get_proc pi ;; ret (negb (p_killed p =? 0) && (Z.land cs 3 =? DPL_USER))
  end.

(** The end of [trap]: true when the process has given up the processor (it exits, or it
    yields and goes on with [trap_after_yield]). *)
Definition trap_end (trapno cs : Z) : K bool :=
  x <- must_exit cs ;;
  if (x : bool) then exit c ;;; ret true else
  mp <- myproc c ;;
  match mp with
  | None => ret false
  | Some pi =>
    p <- get_proc pi ;;
    if bool_decide (p_state p = RUNNING) && (trapno =? T_IRQ0 + IRQ_TIMER) then yield_before c ;;; ret true
    else ret false
  end.
Definition trap_after_yield (cs : Z) : K bool :=
  yield_after ;;;
  x <- must_exit cs ;;
  if (x : bool) then exit c ;;; ret true else ret false.

End Sysproc.
