(* ===== verification/Exec.v ===== *)
(** * exec.c: loading a program

    [exec] replaces the memory of the calling process by a program read from an ELF file.
    It works on the whole kernel: the machine, where it builds an address space, the
    process table, and the file layer, from which it reads the program.  What it needs of
    the file layer beyond [FileLayer] is the interface [ProgramFiles].  The function
    [loaduvm] of vm.c, which reads a file into an address space, is here too. *)

From S2P Require Import Prelude Mmu Mem Blk Cstring Kalloc Vm Proc Syscall Sysfile Sysproc.
#[local] Open Scope Z_scope.

(** ** elf.h *)

Definition ELF_MAGIC : Z := 0x464C457F.

Record elfhdr := Elfhdr {
  e_magic : Z; e_elf : list Z; e_type : Z; e_machine : Z; e_version : Z; e_entry : Z; e_phoff : Z; e_shoff : Z;
  e_flags : Z; e_ehsize : Z; e_phentsize : Z; e_phnum : Z; e_shentsize : Z; e_shnum : Z; e_shstrndx : Z
}.
Definition ELFHDR_SIZE : Z := 52.

Record proghdr := Proghdr {
  ph_type : Z; ph_off : Z; ph_vaddr : Z; ph_paddr : Z; ph_filesz : Z; ph_memsz : Z; ph_flags : Z; ph_align : Z
}.
Definition PROGHDR_SIZE : Z := 32.

Definition ELF_PROG_LOAD : Z := 1.

(** The structures, from the bytes read into them. *)
Definition elfhdr_of (d : list Z) : elfhdr :=
  Elfhdr (get32 d 0) (take 12 (drop 4 d)) (get16 d 16) (get16 d 18) (get32 d 20) (get32 d 24) (get32 d 28) (get32 d 32)
    (get32 d 36) (get16 d 40) (get16 d 42) (get16 d 44) (get16 d 46) (get16 d 48) (get16 d 50).
Definition proghdr_of (d : list Z) : proghdr :=
  Proghdr (get32 d 0) (get32 d 4) (get32 d 8) (get32 d 12) (get32 d 16) (get32 d 20) (get32 d 24) (get32 d 28).

(** ** What the file layer provides *)

(** The operations on inodes that [exec] calls.  The process that makes the call is an
    argument: [namei] starts a relative path at its directory, and sleep locks record its
    number.  [readi] gives the number of bytes and the bytes it stores. *)
Class ProgramFiles (F : Type) := {
  namei : proc -> list Z -> M F (option nat);
  ilock : proc -> nat -> M F unit;
  readi : nat -> Z -> Z -> M F (Z * list Z);
  iunlockput : proc -> nat -> M F unit
}.

Section Exec.
Context {F : Type} `{FileLayer F} `{ProgramFiles F}.
Context (kend kdata : Z) (ts_addr : nat -> Z) (c : nat).

Abbreviation K A := (M (kern F) A).

(** ** Reading a file into an address space *)

Fixpoint loaduvm_loop (fuel : nat) (pgdir addr : Z) (ip : nat) (offset sz i : Z) : K Z :=
  if negb (i <? sz) then ret 0 else
  match fuel with
  | O => ub "loaduvm: does not terminate"
  | S fuel =>
    pte <- mach (walkpgdir pgdir (u32 (addr + i)) false) ;;
    if pte =? 0 then panic "loaduvm: address should exist" else
    e <- mach (load pte) ;;
    let pa := PTE_ADDR e in
    let n := if u32 (sz - i) <? PGSIZE then u32 (sz - i) else PGSIZE in
    r <- files (readi ip (u32 (offset + i)) n) ;;
    mach (mod_mem (fun m => write_bytes m (P2V pa) (snd r))) ;;;
    if negb (fst r =? n) then ret (-1) else
    loaduvm_loop fuel pgdir addr ip offset sz (u32 (i + PGSIZE))
  end.
Definition loaduvm (pgdir addr : Z) (ip : nat) (offset sz : Z) : K Z :=
  if negb (u32 addr mod PGSIZE =? 0) then panic "loaduvm: addr must be page aligned" else
  loaduvm_loop (Z.to_nat (sz / PGSIZE) + 1) pgdir addr ip offset sz 0.

(** ** exec *)

(** The loop over the program headers: [n] of them are left, the next one at [off]; the
    address space has size [sz].  [None] stands for [goto bad]. *)
Fixpoint load_segments (ip : nat) (pgdir : Z) (n : nat) (off sz : Z) : K (option Z) :=
  match n with
  | O => ret (Some sz)
  | S n =>
    r <- files (readi ip (u32 off) PROGHDR_SIZE) ;;
    if negb (fst r =? PROGHDR_SIZE) then ret None else
    let ph := proghdr_of (snd r) in
    if negb (ph_type ph =? ELF_PROG_LOAD) then load_segments ip pgdir n (s32 (off + PROGHDR_SIZE)) sz else
    if ph_memsz ph <? ph_filesz ph then ret None else
    if u32 (ph_vaddr ph + ph_memsz ph) <? ph_vaddr ph then ret None else
    sz <- mach (allocuvm kend pgdir sz (u32 (ph_vaddr ph + ph_memsz ph))) ;;
    if sz =? 0 then ret None else
    if negb (ph_vaddr ph mod PGSIZE =? 0) then ret None else
    r <- loaduvm pgdir (ph_vaddr ph) ip (ph_off ph) (ph_filesz ph) ;;
    if r <? 0 then ret None else load_segments ip pgdir n (s32 (off + PROGHDR_SIZE)) sz
  end.

(** The loop that pushes the argument strings: [sp] moves down, and [ustack] collects the
    addresses. *)
Fixpoint push_args (pgdir : Z) (args : list (list Z)) (argc sp : Z) (ustack : list Z) : K (option (Z * list Z)) :=
  match args with
  | [] => ret (Some (sp, ustack))
  | a :: args =>
    if MAXARG <=? argc then ret None else
    let len := Z.of_nat (length a) + 1 in
    let sp := Z.land (u32 (sp - len)) (Z.lnot 3) in
    r <- mach (copyout pgdir sp (a ++ [0]) len) ;;
    if r <? 0 then ret None else push_args pgdir args (argc + 1) sp (ustack ++ [sp])
  end.

(** What follows the last [/] of the path. *)
Fixpoint last_name (s last : list Z) : list Z :=
  match s with
  | [] => last
  | ch :: s => last_name s (if ch =? 47 then s else last)
  end.

(** The label [bad]. *)
Definition bad (p : proc) (pgdir : Z) (ip : option nat) : K Z :=
  (when negb (pgdir =? 0) do mach (freevm kend pgdir)) ;;;
  (match ip with Some i => files (iunlockput p i) ;;; files end_op | None => ret tt end) ;;;
  ret (-1).

(** The part of [exec] that makes the new image the one of the process. *)
Definition commit_image (pi : nat) (path : list Z) (pgdir sz entry sp : Z) : K Z :=
  upd_proc pi (fun p => set_name (copy_name (p_name p) (last_name path path)) p) ;;;
  p <- get_proc pi ;;
  let oldpgdir := p_pgdir p in
  upd_proc pi (set_pgdir pgdir) ;;;
  upd_proc pi (set_sz sz) ;;;
  mach (mod_mem (fun m => st32 m (p_tf p + tf_eip) entry)) ;;;
  mach (mod_mem (fun m => st32 m (p_tf p + tf_esp) sp)) ;;;
  switchuvm ts_addr c pi ;;;
  mach (freevm kend oldpgdir) ;;;
  ret 0.

(** The stack page: the argument strings and the words below them. *)
Definition fill_stack (pi : nat) (p : proc) (path : list Z) (argv : list (list Z)) (pgdir sz entry : Z) : K Z :=
  r <- push_args pgdir argv 0 sz [] ;;
  match r with
  | None => bad p pgdir None
  | Some (sp, addrs) =>
    let argc := Z.of_nat (length argv) in
    let ustack := [0xffffffff; argc; u32 (sp - (argc + 1) * 4)] ++ addrs ++ [0] in
    let sp := u32 (sp - (3 + argc + 1) * 4) in
    r <- mach (copyout pgdir sp (words ustack) ((3 + argc + 1) * 4)) ;;
    if r <? 0 then bad p pgdir None else
    commit_image pi path pgdir sz entry sp
  end.

(** The two pages after the program; the first one is the guard page. *)
Definition build_stack (pi : nat) (p : proc) (path : list Z) (argv : list (list Z)) (pgdir sz entry : Z) : K Z :=
  let sz := PGROUNDUP sz in
  sz <- mach (allocuvm kend pgdir sz (u32 (sz + 2 * PGSIZE))) ;;
  if sz =? 0 then bad p pgdir None else
  mach (clearpteu pgdir (u32 (sz - 2 * PGSIZE))) ;;;
  fill_stack pi p path argv pgdir sz entry.

Definition exec (path : list Z) (argv : list (list Z)) : K Z :=
  pi <- curproc c ;;
  p <- get_proc pi ;;
  files begin_op ;;;
  ip <- files (namei p path) ;;
  match ip with
  | None => files end_op ;;; ret (-1)
  | Some ip =>
    files (ilock p ip) ;;;
    r <- files (readi ip 0 ELFHDR_SIZE) ;;
    if negb (fst r =? ELFHDR_SIZE) then bad p 0 (Some ip) else
    let elf := elfhdr_of (snd r) in
    if negb (e_magic elf =? ELF_MAGIC) then bad p 0 (Some ip) else
    pgdir <- mach (setupkvm kend kdata) ;;
    if pgdir =? 0 then bad p 0 (Some ip) else
    r <- load_segments ip pgdir (Z.to_nat (e_phnum elf)) (s32 (e_phoff elf)) 0 ;;
    match r with
    | None => bad p pgdir (Some ip)
    | Some sz =>
      files (iunlockput p ip) ;;;
      files end_op ;;;
      build_stack pi p path argv pgdir sz (e_entry elf)
    end
  end.

(** ** The system call *)

Definition sys_exec : K answer :=
  u <- cur_uctx c ;;
  match sys_exec_args u with
  | None => value (-1)
  | Some (path, argv) => v <- exec path argv ;; value v
  end.

End Exec.
