(* ===== verification/ExecProps.v ===== *)
(** * What exec does

    The memory a program finds when it starts is a function of its file and its arguments:
    [exec_image].  The proofs relate [exec] to that function, given a file layer that
    [serves] the path: what exec relies on, stated for each call in the order of the calls. *)

From S2P Require Import Prelude Mmu Mem Blk Cstring Spinlock Kalloc Vm PageTable Walk VmInv Uvm Kvm Cow Grow Load VmProps Rand FsState Fs Proc ProcSpec Syscall Sysfile Sysproc Exec.
#[local] Open Scope Z_scope.

(** ** The image of a program *)

(** Reading [n] bytes at [off] of a file with contents [data]. *)
Definition read_at (data : list Z) (off n : Z) : Z * list Z :=
  let size := Z.of_nat (length data) in
  if size <? off then (-1, []) else let m := Z.min n (size - off) in (m, slice data off m).

(** The size and the bytes after [n] more program headers, from the one at [off] on. *)
Fixpoint load_image (data : list Z) (n : nat) (off sz : Z) (img : Z -> Z) : option (Z * (Z -> Z)) :=
  match n with
  | O => Some (sz, img)
  | S n =>
    let size := Z.of_nat (length data) in
    if size <? off + PROGHDR_SIZE then None else
    let ph := proghdr_of (slice data off PROGHDR_SIZE) in
    if negb (ph_type ph =? ELF_PROG_LOAD) then load_image data n (off + PROGHDR_SIZE) sz img else
    let last := ph_vaddr ph + ph_memsz ph in
    if (ph_memsz ph <? ph_filesz ph) || (KERNBASE <=? last) || (Z.max sz last =? 0) || negb (ph_vaddr ph mod PGSIZE =? 0) ||
       ((0 <? ph_filesz ph) && (size <? ph_off ph + ph_filesz ph)) then None else
    load_image data n (off + PROGHDR_SIZE) (Z.max sz last) (overlay img (ph_vaddr ph) (slice data (ph_off ph) (ph_filesz ph)))
  end.

(** The argument strings, from [sp] downwards but not below [low]: the final [sp], the
    addresses of the strings, and the bytes. *)
Fixpoint stack_image (low : Z) (args : list (list Z)) (argc sp : Z) (addrs : list Z) (img : Z -> Z) : option (Z * list Z * (Z -> Z)) :=
  match args with
  | [] => Some (sp, addrs, img)
  | a :: args =>
    let sp := (sp - (Z.of_nat (length a) + 1)) / 4 * 4 in
    if (MAXARG <=? argc) || (sp <? low) then None else
    stack_image low args (argc + 1) sp (addrs ++ [sp]) (overlay img sp (a ++ [0]))
  end.

Record memimage := Image { im_size : Z; im_byte : Z -> Z; im_entry : Z; im_sp : Z }.

(** What is put on the stack page, the last one below [top]. *)
Definition fill_image (top : Z) (img : Z -> Z) (entry : Z) (argv : list (list Z)) : option memimage :=
  match stack_image (top - PGSIZE) argv 0 top [] img with
  | None => None
  | Some (sp, addrs, img) =>
    let argc := Z.of_nat (length argv) in
    let ustack := [0xffffffff; argc; sp - (argc + 1) * 4] ++ addrs ++ [0] in
    let sp := sp - (3 + argc + 1) * 4 in
    if sp <? top - PGSIZE then None else Some (Image top (overlay img sp (words ustack)) entry sp)
  end.

(** The segments of a file, and the image. *)
Definition segments (data : list Z) : option (Z * (Z -> Z)) :=
  let elf := elfhdr_of (slice data 0 ELFHDR_SIZE) in
  load_image data (Z.to_nat (e_phnum elf)) (e_phoff elf) 0 (fun _ => 0).
Definition exec_image (data : list Z) (argv : list (list Z)) : option memimage :=
  if Z.of_nat (length data) <? ELFHDR_SIZE then None else
  let elf := elfhdr_of (slice data 0 ELFHDR_SIZE) in
  if negb (e_magic elf =? ELF_MAGIC) then None else
  match segments data with
  | None => None
  | Some (sz, img) =>
    let top := npages sz * 4096 + 2 * PGSIZE in
    if KERNBASE <=? top then None else fill_image top img (e_entry elf) argv
  end.

(** ** What exec relies on *)

Section Files.
Context {F : Type} `{FileLayer F} `{ProgramFiles F}.

(** The file layer once the wakeups of an operation have been handed over. *)
Definition settle (f : F) : F := snd (take_wakeups f).

(** For a call by [p] with [path], which names a file with the given contents or nothing:
    [idle] holds outside operations, [ready] inside one, [found] when the inode has been
    looked up, and [opened] while it is locked. *)
Record serves (p : proc) (path : list Z) (contents : option (list Z)) (idle ready : F -> Prop) (found opened : nat -> F -> Prop) : Prop := {
  sv_begin : forall f, idle f -> exists f', begin_op f = Ret tt f' /\ ready (settle f');
  sv_namei : forall f, ready f -> exists r f', namei p path f = Ret r f' /\
    match contents, r with Some _, Some i => found i (settle f') | None, None => ready (settle f') | _, _ => False end;
  sv_ilock : forall i f, found i f -> exists f', ilock p i f = Ret tt f' /\ opened i (settle f');
  sv_readi : forall i f data off n, contents = Some data -> opened i f -> 0 <= off < 2 ^ 32 -> 0 < n <= 4096 ->
    exists f', readi i off n f = Ret (read_at data off n) f' /\ opened i (settle f');
  sv_iunlockput : forall i f, opened i f -> exists f', iunlockput p i f = Ret tt f' /\ ready (settle f');
  sv_end : forall f, ready f -> exists f', end_op f = Ret tt f' /\ idle (settle f')
}.

(** ** Steps of the kernel *)

(** The kernel [k0] with another process table, file layer and machine. *)
Definition kstate (k0 : kern F) (ps : list proc) (f : F) (s : machine) : kern F := set_mach s (set_procs ps (set_fs f k0)).

Lemma kstate_id k : k = kstate k (k_procs k) (k_fs k) (k_mach k).
Proof. by destruct k. Qed.

Lemma mach_eq {A} (m : M machine A) a s s' k0 ps f : m s = Ret a s' -> mach m (kstate k0 ps f s) = Ret a (kstate k0 ps f s').
Proof. intros E. unfold mach, zoom. change (k_mach (kstate k0 ps f s)) with s. by rewrite E. Qed.

Lemma wakeups_eq chs : forall k : kern F, length (k_procs k) = NPROC -> LkPtable ∉ held k ->
  exists ps, wakeups chs k = Ret tt (set_procs ps k) /\ Forall2 woken (k_procs k) ps.
Proof.
  induction chs as [|ch chs IH]; intros k Hl Hh; cbn [wakeups].
  - exists (k_procs k). split; [by destruct k|]. apply Forall2_same_length_lookup. split; [done|]. intros i x y E1 E2. left. congruence.
  - step (wakeup_eq ch k Hl Hh). destruct (IH (set_procs (wake ch <$> k_procs k) k)) as (ps & E & W); [cbn; by rewrite length_fmap|done|].
    exists ps. split; [by rewrite E; destruct k|]. change (k_procs (set_procs (wake ch <$> k_procs k) k)) with (wake ch <$> k_procs k) in W.
    rewrite Forall2_fmap_l in W. eapply Forall2_impl; [exact W|]. intros x y Hxy. eapply woken_trans; [apply woken_wake|exact Hxy].
Qed.

Lemma files_eq {A} (m : M F A) a f f' s k0 ps :
  length ps = NPROC -> LkPtable ∉ m_held s -> m f = Ret a f' ->
  exists ps', files m (kstate k0 ps f s) = Ret a (kstate k0 ps' (settle f') s) /\ Forall2 woken ps ps'.
Proof.
  intros Hl Hh E. unfold files.
  assert (E1 : zoom k_fs set_fs m (kstate k0 ps f s) = Ret a (kstate k0 ps f' s)).
  { unfold zoom. change (k_fs (kstate k0 ps f s)) with f. by rewrite E. }
  step E1. rewrite bind_gets. change (k_fs (kstate k0 ps f' s)) with f'. destruct (take_wakeups f') as [chs f''] eqn:Et.
  assert (E2 : modify (set_fs f'') (kstate k0 ps f' s) = Ret tt (kstate k0 ps f'' s)) by done. cbn [fst snd]. step E2.
  destruct (wakeups_eq chs (kstate k0 ps f'' s) Hl Hh) as (ps' & E3 & W). step E3. exists ps'. split; [|exact W]. unfold settle. by rewrite Et.
Qed.

Lemma woken_running p p' : woken p p' -> p_state p = RUNNING -> p' = p.
Proof. intros [->|[E _]] Hr; [done|congruence]. Qed.

Lemma woken_all_trans ps1 ps2 ps3 : Forall2 woken ps1 ps2 -> Forall2 woken ps2 ps3 -> Forall2 woken ps1 ps3.
Proof. intros W1. revert ps3. induction W1; intros ps3 W2; inversion W2; subst; constructor; eauto using woken_trans. Qed.
End Files.

(** ** Loading the segments *)

Lemma slice_app data o a b : 0 <= o -> 0 <= a -> 0 <= b -> slice data o (a + b) = slice data o a ++ slice data (o + a) b.
Proof.
  intros Ho Ha Hb. unfold slice. rewrite !Z2Nat.inj_add by lia. rewrite <- drop_drop. by rewrite take_take_drop.
Qed.

Lemma length_slice data o m : 0 <= o -> 0 <= m -> o + m <= Z.of_nat (length data) -> length (slice data o m) = Z.to_nat m.
Proof. intros Ho Hm Hl. unfold slice. rewrite length_take, length_drop. lia. Qed.

Lemma npages_mono a b : a <= b -> npages a <= npages b.
Proof. intros Hab. unfold npages. apply Z.div_le_mono; lia. Qed.

Section Loading.
Context {F : Type} `{FileLayer F} `{ProgramFiles F}.
Context (kend : Z) (managed : Z -> Prop) (Hkend : KERNLINK <= kend <= KERNBASE + PHYSTOP).
Abbreviation vm_inv := (vm_inv kend managed).
Abbreviation ustep := (ustep kend).
Abbreviation space_is := (space_is kend managed).

(** The kernel in which [exec] was called, the address space that is built, and the file. *)
Context (k0 : kern F) (ex : Z -> Z) (ds : list Z) (d c : Z) (Hse : settled ex (d :: ds)).
Context (ip : nat) (data : list Z) (opened : nat -> F -> Prop).
Context (Hdata : Z.of_nat (length data) < 2 ^ 31).
Context (Hread : forall f off n, opened ip f -> 0 <= off < 2 ^ 32 -> 0 < n <= 4096 ->
  exists f', readi ip off n f = Ret (read_at data off n) f' /\ opened ip (settle f')).

(** From one point of [exec] to another: the address space [d] and the file layer have
    changed, and processes may have been woken. *)
Record goes (ps : list proc) (s : machine) (ps' : list proc) (f' : F) (s' : machine) : Prop := {
  go_step : ustep ex (d :: ds) d s s';
  go_woken : Forall2 woken ps ps';
  go_file : opened ip f'
}.

Lemma goes_trans ps1 s1 ps2 f2 s2 ps3 f3 s3 : goes ps1 s1 ps2 f2 s2 -> goes ps2 s2 ps3 f3 s3 -> goes ps1 s1 ps3 f3 s3.
Proof. intros [A1 A2 A3] [B1 B2 B3]. split; [by eapply ustep_trans|by eapply woken_all_trans|done]. Qed.

Lemma goes_held ps s ps' f' s' : goes ps s ps' f' s' -> length ps = NPROC -> LkPtable ∉ m_held s -> LkKmem ∉ m_held s ->
  length ps' = NPROC /\ LkPtable ∉ m_held s' /\ LkKmem ∉ m_held s'.
Proof.
  intros [Hu W _] Hl H1 H2. rewrite (us_held _ _ _ _ _ _ Hu). split; [|done]. by rewrite <- (Forall2_length _ _ _ W).
Qed.

Lemma woken_all_refl ps : Forall2 woken ps ps.
Proof. apply Forall2_same_length_lookup. split; [done|]. intros i x y E1 E2. left. congruence. Qed.

Lemma loaduvm_loop_spec addr off fsz sz g fuel : forall i ps f s fl img,
  space_is ex ds d c s fl sz img g -> length ps = NPROC -> LkPtable ∉ m_held s -> LkKmem ∉ m_held s -> opened ip f ->
  addr mod 4096 = 0 -> 0 <= addr -> 0 <= fsz -> addr + fsz <= sz -> 0 <= off < 2 ^ 32 ->
  i mod 4096 = 0 -> 0 <= i -> (i = 0 \/ off + i <= Z.of_nat (length data) \/ fsz <= i) -> i < fsz + 4096 -> fsz - i <= 4096 * Z.of_nat fuel ->
  exists r ps' f' s' img', loaduvm_loop fuel d addr ip off fsz i (kstate k0 ps f s) = Ret r (kstate k0 ps' f' s') /\
    space_is ex ds d c s' fl sz img' g /\ goes ps s ps' f' s' /\
    if (fsz <=? i) || (off + fsz <=? Z.of_nat (length data))
    then r = 0 /\ forall va, img' va = overlay img (addr + i) (slice data (off + i) (fsz - i)) va else r = -1.
Proof.
  induction fuel as [|fuel IH]; intros i ps f s fl img Hs Hl Hp Hk Hf Ha Ha0 Hf0 Hsz Hoff Hi Hi0 Hor Hub Hfuel; cbn [loaduvm_loop];
    (destruct (Z.ltb_spec i fsz) as [Hlt|Hge]; cbn [negb]; [|exists 0, ps, f, s, img; split; [done|]; split; [done|];
       split; [split; [apply ustep_refl|apply woken_all_refl|done]|]; rewrite (proj2 (Z.leb_le fsz i)) by lia; cbn [orb];
       split; [done|]; intros va; replace (slice data (off + i) (fsz - i)) with (@nil Z) by (unfold slice; by rewrite (Z2Nat.nonpos (fsz - i)) by lia);
       by rewrite overlay_nil]); [lia|].
  pose proof (sp_size _ _ _ _ _ _ _ _ _ _ _ Hs) as Hsz'. unfold KERNBASE in Hsz'.
  rewrite !(u32_id (addr + i)), !(u32_id (fsz - i)) by lia.
  set (n := (addr + i) / 4096). assert (Hn : addr + i = n * 4096) by (unfold n; Z.to_euclidean_division_equations; lia).
  assert (Hn0 : 0 <= n) by lia. assert (Hns : n * 4096 < sz) by lia. assert (Hn' : 0 <= n < UPAGES) by (unfold UPAGES; lia).
  pose proof (sp_page _ _ _ _ _ _ _ _ _ _ _ Hs n Hn') as Hpg. rewrite (proj2 (Z.ltb_lt _ _) Hns) in Hpg. destruct Hpg as (Hw & _ & _).
  assert (Hm : mapped (m_mem s) d n = true) by (by apply andb_true_iff in Hw as [? _]). pose proof (pres_mapped _ _ _ Hm) as Hpr.
  rewrite Hn. step (mach_eq _ _ _ _ k0 ps f (walkpgdir_present d (n * 4096) false s Hpr)).
  rewrite (slot_nonzero kend Hkend) by (done || (eapply vi_ok; [apply Hs|left])). step (mach_eq _ _ _ _ k0 ps f (load_slot d (n * 4096) s Hpr)).
  cbv zeta. fold (upte (m_mem s) d n). fold (tgt (upte (m_mem s) d n)).
  set (len := if fsz - i <? PGSIZE then fsz - i else PGSIZE).
  assert (Hlen : len = Z.min (fsz - i) 4096) by (unfold len, PGSIZE; destruct (Z.ltb_spec (fsz - i) 4096); lia).
  rewrite (u32_id (off + i)) by lia.
  destruct (Hread f (off + i) len Hf ltac:(lia) ltac:(lia)) as (f1 & Er & Hf1).
  destruct (files_eq _ _ _ _ s k0 ps Hl Hp Er) as (ps1 & Ef & W1). step Ef.
  set (bytes := snd (read_at data (off + i) len)). assert (Hb : Z.of_nat (length bytes) <= 4096).
  { unfold bytes, read_at. cbv zeta. destruct (Z.ltb_spec (Z.of_nat (length data)) (off + i)); cbn [snd]; [cbn; lia|]. unfold slice. rewrite length_take. lia. }
  destruct (space_write kend managed ex ds d c s fl sz img g n 0 bytes Hs Hse Hn0 Hns ltac:(lia) ltac:(lia)) as [Hs1 Hu1].
  rewrite !Z.add_0_r in Hs1, Hu1. set (s1 := set_m_mem _ s) in Hs1, Hu1.
  assert (Em : mod_mem (fun m => write_bytes m (tgt (upte (m_mem s) d n)) bytes) s = Ret tt s1) by done.
  step (mach_eq _ _ _ _ k0 ps1 (settle f1) Em). assert (G1 : goes ps s ps1 (settle f1) s1) by (by split).
  rewrite (proj2 (Z.leb_gt fsz i) Hlt). cbn [orb].
  destruct (decide (off + i + len <= Z.of_nat (length data))) as [Hfit|Hno].
  2:{ assert (Hne : (fst (read_at data (off + i) len) =? len) = false).
      { apply Z.eqb_neq. unfold read_at. destruct (Z.ltb_spec (Z.of_nat (length data)) (off + i)); cbn [fst]; lia. }
      rewrite Hne. cbn [negb]. exists (-1), ps1, (settle f1), s1. eexists. split; [done|]. split; [exact Hs1|]. split; [done|].
      rewrite (proj2 (Z.leb_gt _ _)); [done|]. lia. }
  assert (Hrd : read_at data (off + i) len = (len, slice data (off + i) len)).
  { unfold read_at. rewrite (proj2 (Z.ltb_ge _ _)) by lia. cbv zeta. by rewrite Z.min_l by lia. }
  rewrite Hrd. cbn [fst]. rewrite Z.eqb_refl. cbn [negb]. unfold PGSIZE. rewrite (u32_id (i + 4096)) by lia.
  destruct (goes_held _ _ _ _ _ G1 Hl Hp Hk) as (Hl1 & Hp1 & Hk1).
  destruct (IH (i + 4096) ps1 (settle f1) s1 fl _ Hs1 Hl1 Hp1 Hk1 Hf1 Ha Ha0 Hf0 Hsz Hoff) as (r & ps2 & f2 & s2 & img2 & E2 & Hs2 & G2 & R2).
  { rewrite <- Z.add_mod_idemp_l, Hi by lia. done. }
  { lia. }
  { lia. }
  { lia. }
  { lia. }
  exists r, ps2, f2, s2, img2. split; [done|]. split; [done|]. split; [by eapply goes_trans|].
  assert (Hbs : bytes = slice data (off + i) len) by (unfold bytes; by rewrite Hrd).
  destruct (Z.leb_spec (off + fsz) (Z.of_nat (length data))) as [Hall|Hall].
  2:{ rewrite (proj2 (Z.leb_gt fsz (i + 4096))) in R2 by lia. exact R2. }
  rewrite orb_true_r in R2. destruct R2 as [-> R2]. split; [done|]. intros va. rewrite R2, Hbs, Z.add_0_r. destruct (decide (fsz - i <= 4096)) as [Hsm|Hbig].
  - replace (slice data (off + (i + 4096)) (fsz - (i + 4096))) with (@nil Z) by (unfold slice; by rewrite (Z2Nat.nonpos (fsz - (i + 4096))) by lia).
    rewrite overlay_nil. by replace len with (fsz - i) by lia.
  - replace len with 4096 by lia. replace (fsz - i) with (4096 + (fsz - (i + 4096))) by lia. rewrite slice_app by lia. rewrite overlay_app.
    rewrite length_slice by lia.
    replace (addr + (i + 4096)) with (n * 4096 + Z.of_nat (Z.to_nat 4096)) by lia. by replace (off + (i + 4096)) with (off + i + 4096) by lia.
Qed.
Context (Hbytes : is_bytes data).

Lemma proghdr_bounds off : let ph := proghdr_of (slice data off PROGHDR_SIZE) in
  0 <= ph_vaddr ph < 2 ^ 32 /\ 0 <= ph_memsz ph < 2 ^ 32 /\ 0 <= ph_filesz ph < 2 ^ 32 /\ 0 <= ph_off ph < 2 ^ 32.
Proof using Hbytes.
  assert (Hb : is_bytes (slice data off PROGHDR_SIZE)) by (unfold slice; by apply Forall_take, Forall_drop).
  cbn [ph_vaddr ph_memsz ph_filesz ph_off proghdr_of]. repeat split; apply (get_bound 4 _ _ Hb).
Qed.

Lemma read_at_full off n : 0 <= n -> (fst (read_at data off n) =? n) = (off + n <=? Z.of_nat (length data)) || (n =? 0) && (off <=? Z.of_nat (length data)).
Proof using.
  intros Hn. unfold read_at. cbv zeta. destruct (Z.ltb_spec (Z.of_nat (length data)) off); cbn [fst];
    destruct (Z.leb_spec (off + n) (Z.of_nat (length data))), (Z.eqb_spec n 0), (Z.leb_spec off (Z.of_nat (length data))); cbn [andb orb]; try lia.
Qed.

Lemma read_header off : off + PROGHDR_SIZE <= Z.of_nat (length data) -> read_at data off PROGHDR_SIZE = (PROGHDR_SIZE, slice data off PROGHDR_SIZE).
Proof using. intros Hf. unfold read_at, PROGHDR_SIZE in *. cbv zeta. rewrite (proj2 (Z.ltb_ge _ _)) by lia. by rewrite Z.min_l by lia. Qed.

Lemma load_image_size n : forall off sz img z i, load_image data n off sz img = Some (z, i) -> sz <= z.
Proof using.
  induction n as [|n IH]; intros off sz img z i E; cbn [load_image] in E; [injection E as <- _; lia|]. cbv zeta in E.
  destruct (_ <? _); [done|]. destruct (negb (_ =? ELF_PROG_LOAD)); [by eapply IH|]. destruct (_ || _); [done|]. apply IH in E. lia.
Qed.

(** What is done for one header of the right type, with the rest of the loop [K], and when
    it is refused. *)
Definition load_one (ph : proghdr) (sz : Z) (K : Z -> M (kern F) (option Z)) : M (kern F) (option Z) :=
  if ph_memsz ph <? ph_filesz ph then ret None else
  if u32 (ph_vaddr ph + ph_memsz ph) <? ph_vaddr ph then ret None else
  sz <- mach (allocuvm kend d sz (u32 (ph_vaddr ph + ph_memsz ph))) ;;
  if sz =? 0 then ret None else
  if negb (ph_vaddr ph mod PGSIZE =? 0) then ret None else
  r <- loaduvm d (ph_vaddr ph) ip (ph_off ph) (ph_filesz ph) ;;
  if r <? 0 then ret None else K sz.
Definition refused (ph : proghdr) (sz : Z) : bool :=
  (ph_memsz ph <? ph_filesz ph) || (KERNBASE <=? ph_vaddr ph + ph_memsz ph) || (Z.max sz (ph_vaddr ph + ph_memsz ph) =? 0) ||
  negb (ph_vaddr ph mod PGSIZE =? 0) || ((0 <? ph_filesz ph) && (Z.of_nat (length data) <? ph_off ph + ph_filesz ph)).

Lemma load_one_spec ph K ps f s fl sz img :
  0 <= ph_vaddr ph < 2 ^ 32 /\ 0 <= ph_memsz ph < 2 ^ 32 /\ 0 <= ph_filesz ph < 2 ^ 32 /\ 0 <= ph_off ph < 2 ^ 32 ->
  space_is ex ds d c s fl sz img (-1) -> length ps = NPROC -> LkPtable ∉ m_held s -> LkKmem ∉ m_held s -> opened ip f ->
  let z := Z.max sz (ph_vaddr ph + ph_memsz ph) in
  exists ps' f' s' fl', goes ps s ps' f' s' /\
    ((load_one ph sz K (kstate k0 ps f s) = K z (kstate k0 ps' f' s') /\ refused ph sz = false /\
      space_is ex ds d c s' fl' z (overlay img (ph_vaddr ph) (slice data (ph_off ph) (ph_filesz ph))) (-1)) \/
     (load_one ph sz K (kstate k0 ps f s) = Ret None (kstate k0 ps' f' s') /\ vm_inv ex s' fl' (d :: ds) /\ (refused ph sz = true \/ c < npages z))).
Proof.
  intros (Hv & Hm & Hfs & Ho) Hs Hl Hp Hk Hf z. pose proof (sp_size _ _ _ _ _ _ _ _ _ _ _ Hs) as Hsz.
  assert (G0 : goes ps s ps f s) by (split; [apply ustep_refl|apply woken_all_refl|done]). unfold load_one, refused.
  set (last := ph_vaddr ph + ph_memsz ph) in *. fold z.
  destruct (Z.ltb_spec (ph_memsz ph) (ph_filesz ph)) as [H1|H1]; cbn [orb].
  { exists ps, f, s, fl. split; [done|]. right. split; [done|]. split; [apply Hs|by left]. }
  destruct (decide (2 ^ 32 <= last)) as [H2|H2].
  { rewrite (proj2 (Z.leb_le KERNBASE last)) by (unfold KERNBASE; lia).
    rewrite (proj2 (Z.ltb_lt (u32 last) _)) by (unfold u32; replace last with (last - 2 ^ 32 + 1 * 2 ^ 32) by lia; rewrite Z.mod_add, Z.mod_small; lia).
    exists ps, f, s, fl. split; [done|]. right. split; [done|]. split; [apply Hs|by left]. }
  rewrite (u32_id last) by lia. rewrite (proj2 (Z.ltb_ge last _)) by lia. destruct (Z.leb_spec KERNBASE last) as [H3|H3]; cbn [orb].
  { assert (E : allocuvm kend d sz last s = Ret 0 s) by (unfold allocuvm; by rewrite (proj2 (Z.leb_le _ _) H3)).
    exists ps, f, s, fl. split; [done|]. right. split; [by step (mach_eq _ _ _ _ k0 ps f E)|]. split; [apply Hs|by left]. }
  assert (Halloc : (exists s1 fl1, allocuvm kend d sz last s = Ret z s1 /\ space_is ex ds d c s1 fl1 z img (-1) /\ ustep ex (d :: ds) d s s1) \/
    (exists s1 fl1, allocuvm kend d sz last s = Ret 0 s1 /\ vm_inv ex s1 fl1 (d :: ds) /\ ustep ex (d :: ds) d s s1 /\ c < npages z)).
  { destruct (decide (last < sz)) as [H4|H4].
    - left. exists s, fl. unfold z. rewrite Z.max_l by lia. split; [|split; [done|apply ustep_refl]].
      unfold allocuvm. by rewrite (proj2 (Z.leb_gt _ _) H3), (proj2 (Z.ltb_lt _ _) H4).
    - unfold z. rewrite Z.max_r by lia. apply (space_grow kend managed Hkend ex ds d c s fl sz img (-1)); try done; lia. }
  destruct Halloc as [(s1 & fl1 & E1 & Hs1 & Hu1)|(s1 & fl1 & E1 & Hi1 & Hu1 & Hc1)].
  2:{ exists ps, f, s1, fl1. split; [split; [done|apply woken_all_refl|done]|]. right. split; [by step (mach_eq _ _ _ _ k0 ps f E1)|]. split; [done|by right]. }
  assert (G1 : goes ps s ps f s1) by (split; [done|apply woken_all_refl|done]). destruct (goes_held _ _ _ _ _ G1 Hl Hp Hk) as (_ & Hp1 & Hk1).
  step (mach_eq _ _ _ _ k0 ps f E1). destruct (Z.eqb_spec z 0) as [H5|H5]; cbn [orb].
  { exists ps, f, s1, fl1. split; [done|]. right. split; [done|]. split; [apply Hs1|by left]. }
  destruct (Z.eqb_spec (ph_vaddr ph mod PGSIZE) 0) as [H6|H6]; cbn [negb orb].
  2:{ exists ps, f, s1, fl1. split; [done|]. right. split; [done|]. split; [apply Hs1|by left]. }
  unfold loaduvm. rewrite (u32_id (ph_vaddr ph)), (proj2 (Z.eqb_eq _ 0) H6) by lia. cbn [negb]. unfold PGSIZE in H6 |- *.
  destruct (loaduvm_loop_spec (ph_vaddr ph) (ph_off ph) (ph_filesz ph) z (-1) (Z.to_nat (ph_filesz ph / 4096) + 1) 0 ps f s1 fl1 img Hs1 Hl Hp1 Hk1 Hf)
    as (r & ps2 & f2 & s2 & img2 & E2 & Hs2 & G2 & R2); try done; try lia.
  { Z.to_euclidean_division_equations; lia. }
  step E2. exists ps2, f2, s2, fl1. split; [by eapply goes_trans|].
  assert (Hcond : (ph_filesz ph <=? 0) || (ph_off ph + ph_filesz ph <=? Z.of_nat (length data)) =
    negb ((0 <? ph_filesz ph) && (Z.of_nat (length data) <? ph_off ph + ph_filesz ph))) by (by rewrite !Z.ltb_antisym, negb_andb, !negb_involutive).
  rewrite Hcond in R2. destruct ((0 <? ph_filesz ph) && (Z.of_nat (length data) <? ph_off ph + ph_filesz ph)); cbn [negb] in R2.
  - subst r. right. split; [done|]. split; [apply Hs2|by left].
  - destruct R2 as [-> R2]. left. split; [done|]. split; [done|]. eapply space_image; [exact Hs2|]. intros va _. by rewrite R2, !Z.add_0_r, Z.sub_0_r.
Qed.

Lemma load_segments_spec n : forall off ps f s fl sz img,
  space_is ex ds d c s fl sz img (-1) -> length ps = NPROC -> LkPtable ∉ m_held s -> LkKmem ∉ m_held s -> opened ip f -> 0 <= off < 2 ^ 32 ->
  exists r ps' f' s', load_segments kend ip d n (s32 off) sz (kstate k0 ps f s) = Ret r (kstate k0 ps' f' s') /\ goes ps s ps' f' s' /\
    match r with
    | Some z => exists fl' img', load_image data n off sz img = Some (z, img') /\ space_is ex ds d c s' fl' z img' (-1)
    | None => (exists fl', vm_inv ex s' fl' (d :: ds)) /\ forall z i, load_image data n off sz img = Some (z, i) -> c < npages z
    end.
Proof.
  induction n as [|n IH]; intros off ps f s fl sz img Hs Hl Hp Hk Hf Hoff; cbn [load_segments load_image].
  { exists (Some sz), ps, f, s. split; [done|]. split; [split; [apply ustep_refl|apply woken_all_refl|done]|]. by exists fl, img. }
  rewrite u32_s32, (u32_id off) by lia. destruct (Hread f off PROGHDR_SIZE Hf Hoff ltac:(unfold PROGHDR_SIZE; lia)) as (f1 & Er & Hf1).
  destruct (files_eq _ _ _ _ s k0 ps Hl Hp Er) as (ps1 & Ef & W1). step Ef. assert (G1 : goes ps s ps1 (settle f1) s) by (split; [apply ustep_refl|done|done]).
  destruct (goes_held _ _ _ _ _ G1 Hl Hp Hk) as (Hl1 & _). cbv zeta. destruct (Z.ltb_spec (Z.of_nat (length data)) (off + PROGHDR_SIZE)) as [Hno|Hfit].
  { assert (Hne : (fst (read_at data off PROGHDR_SIZE) =? PROGHDR_SIZE) = false).
    { rewrite read_at_full by (unfold PROGHDR_SIZE; lia). rewrite (proj2 (Z.leb_gt _ _)) by lia. done. }
    rewrite Hne. exists None, ps1, (settle f1), s. split; [done|]. split; [done|]. split; [|done]. exists fl. apply Hs. }
  rewrite (read_header off Hfit). cbn [fst snd]. rewrite Z.eqb_refl. cbn [negb]. unfold PROGHDR_SIZE in Hfit. rewrite (s32_id off) by lia.
  pose proof (proghdr_bounds off) as Hph. cbv zeta in Hph. set (ph := proghdr_of (slice data off PROGHDR_SIZE)) in *.
  assert (Hoff1 : 0 <= off + PROGHDR_SIZE < 2 ^ 32) by (unfold PROGHDR_SIZE; lia).
  destruct (Z.eqb_spec (ph_type ph) ELF_PROG_LOAD) as [_|_]; cbn [negb].
  2:{ destruct (IH (off + PROGHDR_SIZE) ps1 (settle f1) s fl sz img Hs Hl1 Hp Hk Hf1 Hoff1) as (r & ps2 & f2 & s2 & E2 & G2 & R2).
      exists r, ps2, f2, s2. split; [done|]. split; [by eapply goes_trans|done]. }
  destruct (load_one_spec ph (fun sz => load_segments kend ip d n (s32 (off + PROGHDR_SIZE)) sz) ps1 (settle f1) s fl sz img Hph Hs Hl1 Hp Hk Hf1)
    as (ps2 & f2 & s2 & fl2 & G2 & [(E2 & R2 & Hs2)|(E2 & Hi2 & R2)]); unfold load_one in E2; rewrite E2; fold (refused ph sz).
  - rewrite R2. destruct (goes_held _ _ _ _ _ G2 Hl1 Hp Hk) as (Hl2 & Hp2 & Hk2).
    destruct (IH (off + PROGHDR_SIZE) ps2 f2 s2 fl2 _ _ Hs2 Hl2 Hp2 Hk2 (go_file _ _ _ _ _ G2) Hoff1) as (r & ps3 & f3 & s3 & E3 & G3 & R3).
    exists r, ps3, f3, s3. split; [done|]. split; [by eapply goes_trans, goes_trans|done].
  - exists None, ps2, f2, s2. split; [done|]. split; [by eapply goes_trans|]. split; [by exists fl2|]. intros z i E.
    destruct R2 as [R2|R2]; [by rewrite R2 in E|]. destruct (refused ph sz); [done|]. apply load_image_size in E. eapply Z.lt_le_trans; [exact R2|]. by apply npages_mono.
Qed.
End Loading.

(** ** The stack *)

Lemma align4 x : 0 <= x < 2 ^ 32 -> Z.land (u32 x) (Z.lnot 3) = x / 4 * 4.
Proof.
  intros Hx. rewrite u32_id by lia. change 3 with (2 ^ 2 - 1). rewrite land_lnot_low by lia. change (2 ^ 2) with 4.
  pose proof (Z.div_mod x 4). lia.
Qed.

Lemma stack_image_argc low args : forall argc sp addrs img r addrs' i,
  stack_image low args argc sp addrs img = Some (r, addrs', i) -> argc <= MAXARG ->
  argc + Z.of_nat (length args) <= MAXARG /\ length addrs' = (length addrs + length args)%nat.
Proof.
  induction args as [|a args IH]; intros argc sp addrs img r addrs' i E Hm; cbn [stack_image length] in *; [injection E as _ <- _; lia|].
  cbv zeta in E. destruct (Z.leb_spec MAXARG argc); [done|]. destruct (_ <? low); [done|]. cbn [orb] in E. apply IH in E as [E1 E2]; [|lia].
  rewrite length_app in E2. cbn in E2. lia.
Qed.

Section Stack.
Context {F : Type} `{FileLayer F} `{ProgramFiles F}.
Context (kend : Z) (managed : Z -> Prop) (Hkend : KERNLINK <= kend <= KERNBASE + PHYSTOP).
Abbreviation vm_inv := (vm_inv kend managed).
Abbreviation ustep := (ustep kend).
Abbreviation space_is := (space_is kend managed).
Context (k0 : kern F) (ex : Z -> Z) (ds : list Z) (d c : Z) (Hse : settled ex (d :: ds)).

(** The address space has a stack page at its end and a guard page below it. *)
Context (sz : Z) (Hsz : 8192 <= sz) (Hal : sz mod 4096 = 0).
Definition guard : Z := sz / 4096 - 2.

(** A copy of [l] to [va], which does not reach the end of the stack page, and which starts
    inside it or runs into the guard page. *)
Lemma stack_copy va l s fl img :
  space_is ex ds d c s fl sz img guard -> 0 <= va -> sz - 8192 < va + Z.of_nat (length l) <= sz -> (0 < length l)%nat ->
  exists s', ustep ex (d :: ds) d s s' /\
    if va <? sz - PGSIZE then copyout d va l (Z.of_nat (length l)) s = Ret (-1) s' /\ exists img', space_is ex ds d c s' fl sz img' guard
    else copyout d va l (Z.of_nat (length l)) s = Ret 0 s' /\ space_is ex ds d c s' fl sz (overlay img va l) guard.
Proof.
  intros Hs Hva Hend Hl. unfold PGSIZE, guard in *. destruct (Z.ltb_spec va (sz - 4096)) as [Hlt|Hge].
  - destruct (copyout_guard kend managed Hkend ex ds d c s fl sz img (sz / 4096 - 2) va l Hs Hse Hva) as (s' & img' & E & Hs' & Hu'); try done.
    1-4: Z.to_euclidean_division_equations; lia.
    exists s'. split; [done|]. split; [done|]. by exists img'.
  - destruct (copyout_page kend managed Hkend ex ds d c s fl sz img (sz / 4096 - 2) va l Hs Hse Hva) as (s' & E & Hs' & Hu'); try done.
    1-3: Z.to_euclidean_division_equations; lia.
    exists s'. by split.
Qed.

Lemma push_args_spec ps f args : forall argc sp ust s fl img,
  space_is ex ds d c s fl sz img guard -> sz - PGSIZE <= sp <= sz -> sp mod 4 = 0 ->
  Forall (fun a => Z.of_nat (length a) + 4 <= sz - PGSIZE) args ->
  exists r s', push_args d args argc sp ust (kstate k0 ps f s) = Ret r (kstate k0 ps f s') /\ ustep ex (d :: ds) d s s' /\
    match r with
    | Some (sp', ust') => exists img', stack_image (sz - PGSIZE) args argc sp ust img = Some (sp', ust', img') /\
      space_is ex ds d c s' fl sz img' guard /\ sz - PGSIZE <= sp' <= sz
    | None => stack_image (sz - PGSIZE) args argc sp ust img = None /\ exists img', space_is ex ds d c s' fl sz img' guard
    end.
Proof.
  induction args as [|a args IH]; intros argc sp ust s fl img Hs Hsp H4 Hargs; cbn [push_args stack_image].
  { exists (Some (sp, ust)), s. split; [done|]. split; [apply ustep_refl|]. by exists img. }
  apply Forall_cons_1 in Hargs as [Ha Hargs]. destruct (Z.leb_spec MAXARG argc) as [Hm|Hm]; cbn [orb].
  { exists None, s. split; [done|]. split; [apply ustep_refl|]. split; [done|by exists img]. }
  pose proof (sp_size _ _ _ _ _ _ _ _ _ _ _ Hs) as Hk. unfold KERNBASE in Hk. unfold PGSIZE in *.
  cbv zeta. rewrite align4 by lia. set (va := (sp - (Z.of_nat (length a) + 1)) / 4 * 4).
  assert (Hva : 0 <= va /\ va <= sp - (Z.of_nat (length a) + 1) < va + 4) by (unfold va; Z.to_euclidean_division_equations; lia).
  assert (Hlen : Z.of_nat (length (a ++ [0])) = Z.of_nat (length a) + 1) by (rewrite length_app; cbn; lia).
  destruct (stack_copy va (a ++ [0]) s fl img Hs ltac:(lia) ltac:(lia) ltac:(lia)) as (s1 & Hu1 & R1). unfold PGSIZE in R1. rewrite Hlen in R1.
  destruct (Z.ltb_spec va (sz - 4096)) as [Hlt|Hge].
  - destruct R1 as [E1 Hs1]. step (mach_eq _ _ _ _ k0 ps f E1). exists None, s1. split; [done|]. split; [done|]. by split.
  - destruct R1 as [E1 Hs1]. step (mach_eq _ _ _ _ k0 ps f E1). change (0 <? 0) with false. cbv iota.
    destruct (IH (argc + 1) va (ust ++ [va]) s1 fl _ Hs1) as (r & s2 & E2 & Hu2 & R2); [lia|unfold va; by apply Z.mod_mul|done|].
    exists r, s2. split; [done|]. split; [by eapply ustep_trans|done].
Qed.
End Stack.

(** ** The whole call *)

Section Exec.
Context {F : Type} `{FileLayer F} `{ProgramFiles F}.
Context (kend : Z) (managed : Z -> Prop) (Hkend : KERNLINK <= kend <= KERNBASE + PHYSTOP).
Context (kdata : Z) (Hkdata : KERNLINK < kdata < KERNBASE + PHYSTOP /\ kdata mod 4096 = 0).
Context (ts_addr : nat -> Z) (cpu : nat).
Abbreviation vm_inv := (vm_inv kend managed).
Abbreviation ustep := (ustep kend).
Abbreviation space_is := (space_is kend managed).

(** Process [p], number [pi], runs on this processor and may call [exec]: its kernel stack,
    with the trap frame in it, is a page of the kernel that no address space maps. *)
Record can_exec (ex : Z -> Z) (k : kern F) (pi : nat) (p : proc) (ds fl : list Z) : Prop := {
  ce_cur : cp_proc (k_cpus k cpu) = Some pi;
  ce_proc : k_procs k !! pi = Some p;
  ce_len : length (k_procs k) = NPROC;
  ce_run : p_state p = RUNNING;
  ce_kmem : LkKmem ∉ m_held (k_mach k);
  ce_ptable : LkPtable ∉ m_held (k_mach k);
  ce_inv : vm_inv ex (k_mach k) fl (p_pgdir p :: ds);
  ce_few : (length ds < 1023)%nat;
  ce_ex : forall q, 0 <= ex q <= 1024;
  ce_kstack : page_ok kend (p_kstack p) /\ 0 < ex (p_kstack p) /\ refs (m_mem (k_mach k)) (p_pgdir p :: ds) (p_kstack p) = 0%nat;
  ce_tf : p_kstack p <= p_tf p /\ p_tf p + TF_SIZE <= p_kstack p + KSTACKSIZE
}.

(** The pages the kernel itself uses are unchanged, but for the bytes [X]. *)
Definition kernel_same (ex : Z -> Z) (X : Z -> Prop) (m m' : mem) : Prop :=
  forall q i, page_ok kend q -> ex q <> 0 -> 0 <= i < 4096 -> ~ X (q + i) -> ldb m' (q + i) = ldb m (q + i).

Lemma ustep_kernel ex ds d s s' X : ustep ex ds d s s' -> kernel_same ex X (m_mem s) (m_mem s').
Proof.
  intros Hu q i Hq Hex Hi _. apply (agree_same_on kend _ _ _ _ (us_kernel _ _ _ _ _ _ Hu) Hq); [by intros ? [? _]|by intros [_ ?]|lia].
Qed.

Lemma kernel_same_trans ex X m1 m2 m3 : kernel_same ex X m1 m2 -> kernel_same ex X m2 m3 -> kernel_same ex X m1 m3.
Proof. intros K1 K2 q i Hq He Hi HX. rewrite K2 by done. by apply K1. Qed.

Context (ex : Z -> Z) (k0 : kern F) (pi : nat) (p : proc) (ds fl0 : list Z) (Hce : can_exec ex k0 pi p ds fl0).
Context (path : list Z) (contents : option (list Z)) (idle ready : F -> Prop) (found opened : nat -> F -> Prop).
Context (Hsv : serves p path contents idle ready found opened).

Lemma exec_settled d : settled ex (d :: p_pgdir p :: ds).
Proof using Hce. split; [pose proof (ce_few _ _ _ _ _ _ Hce); cbn [length]; lia|apply Hce]. Qed.

(** A state on the way: the address spaces are untouched except for [d], and the processes
    for wakeups. *)
Record midway (d : Z) (ps : list proc) (s : machine) : Prop := {
  mw_step : ustep ex (p_pgdir p :: ds) d (k_mach k0) s;
  mw_woken : Forall2 woken (k_procs k0) ps;
  mw_new : d ∉ p_pgdir p :: ds
}.

Lemma midway_facts d ps s : midway d ps s ->
  length ps = NPROC /\ LkPtable ∉ m_held s /\ LkKmem ∉ m_held s /\ ps !! pi = Some p.
Proof using Hce.
  intros [Hu W _]. rewrite (us_held _ _ _ _ _ _ Hu). destruct Hce as [_ Hp Hl Hr Hk Ht _ _ _ _ _].
  split; [by rewrite <- (Forall2_length _ _ _ W)|]. split; [done|]. split; [done|].
  destruct (Forall2_lookup_l _ _ _ _ _ W Hp) as (p' & Hp' & Hw). by rewrite Hp', (woken_running _ _ Hw Hr).
Qed.

Lemma midway_step d ps s ps' s' : midway d ps s -> ustep ex (d :: p_pgdir p :: ds) d s s' -> Forall2 woken ps ps' -> midway d ps' s'.
Proof.
  intros [Hu W Hn] Hu' W'. split; [|by eapply woken_all_trans|done]. eapply ustep_trans; [exact Hu|].
  eapply ustep_sub; [|exact Hu']. intros d' Hd'. by right.
Qed.

(** What is left of a call that fails. *)
Definition unchanged (k' : kern F) : Prop :=
  exists ps f s fl', k' = kstate k0 ps f s /\ Forall2 woken (k_procs k0) ps /\ idle f /\ vm_inv ex s fl' (p_pgdir p :: ds) /\
    same_users (p_pgdir p :: ds) (m_mem (k_mach k0)) (m_mem s) /\ kernel_same ex (fun _ => False) (m_mem (k_mach k0)) (m_mem s).

Lemma unchanged_intro d ps f s fl' :
  ustep ex (p_pgdir p :: ds) d (k_mach k0) s -> d ∉ p_pgdir p :: ds -> Forall2 woken (k_procs k0) ps -> idle f ->
  vm_inv ex s fl' (p_pgdir p :: ds) -> unchanged (kstate k0 ps f s).
Proof.
  intros Hu Hd W Hf Hi. exists ps, f, s, fl'. split; [done|]. split; [done|]. split; [done|]. split; [done|]. split; [|by eapply ustep_kernel].
  intros d' va Hd' Hva. apply (ustep_uread kend ex (p_pgdir p :: ds) d); [done|done|by intros ->|done].
Qed.
Lemma live_dir s fl d ds' : vm_inv ex s fl (d :: ds') -> (d =? 0) = false /\ d ∉ ds'.
Proof using Hkend.
  intros Hi. split; [|by apply NoDup_cons, (vi_nodup _ _ _ _ _ _ Hi)].
  pose proof (pt_dir _ _ _ (vi_ok _ _ _ _ _ _ Hi d ltac:(left))) as Hd%(page_ok_lo kend Hkend). apply Z.eqb_neq. unfold KERNBASE in Hd. lia.
Qed.

(** The label [bad], after the file has been closed. *)
Lemma bad_closed d ps f s fl :
  midway d ps s -> idle f -> vm_inv ex s fl (d :: p_pgdir p :: ds) ->
  exists k', bad kend p d None (kstate k0 ps f s) = Ret (-1) k' /\ unchanged k'.
Proof using Hce Hkend.
  intros Hm Hf Hi. destruct (live_dir _ _ _ _ Hi) as [Hd Hnd]. destruct (midway_facts _ _ _ Hm) as (_ & _ & Hk & _).
  destruct (freevm_spec kend managed Hkend ex s fl (p_pgdir p :: ds) d Hi (exec_settled d) Hk) as (s' & fl' & E & Hi' & Hu & _ & _).
  unfold bad. rewrite Hd. cbn [negb]. step (mach_eq _ _ _ _ k0 ps f E). eexists. split; [done|].
  apply (unchanged_intro d ps f s' fl'); [|done|apply Hm|done|done]. eapply ustep_trans; [apply Hm|exact Hu].
Qed.

(** Closing the file. *)
Lemma close_spec {A} i ps f s (K : M (kern F) A) :
  length ps = NPROC -> LkPtable ∉ m_held s -> opened i f ->
  exists ps' f', (files (iunlockput p i) ;;; files end_op ;;; K) (kstate k0 ps f s) = K (kstate k0 ps' f' s) /\ Forall2 woken ps ps' /\ idle f'.
Proof using Hsv.
  intros Hl Hp Hf. destruct (sv_iunlockput _ _ _ _ _ _ _ Hsv i f Hf) as (f1 & E1 & Hf1).
  destruct (files_eq _ _ _ _ s k0 ps Hl Hp E1) as (ps1 & Ef1 & W1). step Ef1. destruct (sv_end _ _ _ _ _ _ _ Hsv _ Hf1) as (f2 & E2 & Hf2).
  destruct (files_eq _ _ _ _ s k0 ps1 ltac:(by rewrite <- (Forall2_length _ _ _ W1)) Hp E2) as (ps2 & Ef2 & W2). step Ef2.
  exists ps2, (settle f2). split; [done|]. split; [by eapply woken_all_trans|done].
Qed.

Lemma bad_opened i ps f s fl d :
  ustep ex (p_pgdir p :: ds) d (k_mach k0) s -> d ∉ p_pgdir p :: ds -> Forall2 woken (k_procs k0) ps -> opened i f ->
  vm_inv ex s fl (p_pgdir p :: ds) ->
  exists k', bad kend p 0 (Some i) (kstate k0 ps f s) = Ret (-1) k' /\ unchanged k'.
Proof using Hce Hsv.
  intros Hu Hd W Hf Hi. assert (Hm : midway d ps s) by (by split). destruct (midway_facts _ _ _ Hm) as (Hl & Hp & _ & _).
  destruct (close_spec i ps f s (ret (-1)) Hl Hp Hf) as (ps' & f' & E & W' & Hf').
  exists (kstate k0 ps' f' s). split; [|apply (unchanged_intro d ps' f' s fl); [done|done|by eapply woken_all_trans|done|done]].
  etransitivity; [|exact E]. unfold bad. cbn [negb Z.eqb]. etransitivity; [|apply bind_assoc]. done.
Qed.

Lemma bad_built i d ps f s fl :
  midway d ps s -> opened i f -> vm_inv ex s fl (d :: p_pgdir p :: ds) ->
  exists k', bad kend p d (Some i) (kstate k0 ps f s) = Ret (-1) k' /\ unchanged k'.
Proof using Hce Hkend Hsv.
  intros Hm Hf Hi. destruct (live_dir _ _ _ _ Hi) as [Hd Hnd]. destruct (midway_facts _ _ _ Hm) as (_ & _ & Hk & _).
  destruct (freevm_spec kend managed Hkend ex s fl (p_pgdir p :: ds) d Hi (exec_settled d) Hk) as (s' & fl' & E & Hi' & Hu & _ & _).
  destruct (bad_opened i ps f s' fl' d) as (k' & Eb & Hk'); [|done|apply Hm|done|done|].
  { eapply ustep_trans; [apply Hm|exact Hu]. }
  exists k'. split; [|done]. unfold bad in Eb |- *. rewrite Hd. cbn [negb]. step (mach_eq _ _ _ _ k0 ps f E). exact Eb.
Qed.
(** The bytes of the trap frame that [exec] sets. *)
Definition trap_words (a : Z) : Prop :=
  p_tf p + tf_eip <= a < p_tf p + tf_eip + 4 \/ p_tf p + tf_esp <= a < p_tf p + tf_esp + 4.

(** The state in which the program [im] is about to start in the address space [d]. *)
Record started (im : memimage) (d : Z) (k' : kern F) : Prop := {
  st_file : idle (k_fs k');
  st_procs : exists ps, Forall2 woken (k_procs k0) ps /\ k_procs k' =
    <[pi := set_sz (im_size im) (set_pgdir d (set_name (copy_name (p_name p) (last_name path path)) p))]> ps;
  st_inv : exists fl', vm_inv ex (k_mach k') fl' (d :: ds);
  st_bytes : forall va, 0 <= va < KERNBASE ->
    uread (m_mem (k_mach k')) d va = if va <? im_size im then Some (im_byte im va) else None;
  st_pages : forall n, 0 <= n -> n * 4096 < im_size im -> writable (m_mem (k_mach k')) d n = true /\
    has (upte (m_mem (k_mach k')) d n) PTE_U = negb (n =? im_size im / 4096 - 2);
  st_users : same_users ds (m_mem (k_mach k0)) (m_mem (k_mach k'));
  st_eip : ld32 (m_mem (k_mach k')) (p_tf p + tf_eip) = im_entry im;
  st_esp : ld32 (m_mem (k_mach k')) (p_tf p + tf_esp) = im_sp im;
  st_cr3 : m_cr3 (k_mach k') = V2P d;
  st_kernel : kernel_same ex trap_words (m_mem (k_mach k0)) (m_mem (k_mach k'))
}.

Lemma switchuvm_eq (k : kern F) ps f s q :
  cp_proc (k_cpus k cpu) = Some pi -> ps !! pi = Some q -> p_kstack q <> 0 -> p_pgdir q <> 0 ->
  exists cpus, switchuvm ts_addr cpu pi (kstate k ps f s) = Ret tt (kstate (set_cpus cpus k) ps f (set_m_cr3 (V2P (p_pgdir q)) s)).
Proof using.
  intros Hc Hq Hks Hpg. unfold switchuvm. step (get_proc_eq pi (kstate k ps f s) q Hq).
  rewrite (proj2 (Z.eqb_neq _ _) Hks), (proj2 (Z.eqb_neq _ _) Hpg). cbv zeta. unfold upd_percpu. rewrite bind_modify. set (k1 := set_cpus _ _).
  assert (E : curproc cpu k1 = Ret pi k1) by (unfold curproc, myproc; rewrite bind_gets; cbn; rewrite functions.fn_lookup_insert; cbn; by rewrite Hc).
  step E. step (get_proc_eq pi k1 q Hq). rewrite bind_modify. eexists. reflexivity.
Qed.

(** The machine steps at the end of [exec]: the trap frame, the new address space, and the
    release of the old one. *)
Lemma commit_machine d s c fl sz img g entry sp :
  ustep ex (p_pgdir p :: ds) d (k_mach k0) s -> d ∉ p_pgdir p :: ds -> space_is ex (p_pgdir p :: ds) d c s fl sz img g ->
  0 <= entry < 2 ^ 32 -> 0 <= sp < 2 ^ 32 ->
  let s2 := set_m_cr3 (V2P d) (set_m_mem (st32 (st32 (m_mem s) (p_tf p + tf_eip) entry) (p_tf p + tf_esp) sp) s) in
  exists s' fl', freevm kend (p_pgdir p) s2 = Ret tt s' /\ vm_inv ex s' fl' (d :: ds) /\
    (forall n, 0 <= n < UPAGES -> upte (m_mem s') d n = upte (m_mem s) d n) /\
    (forall va, 0 <= va < KERNBASE -> uread (m_mem s') d va = uread (m_mem s) d va) /\
    same_users ds (m_mem (k_mach k0)) (m_mem s') /\ m_cr3 s' = V2P d /\
    ld32 (m_mem s') (p_tf p + tf_eip) = entry /\ ld32 (m_mem s') (p_tf p + tf_esp) = sp /\ kernel_same ex trap_words (m_mem (k_mach k0)) (m_mem s').
Proof using Hce Hkend.
  intros Hu Hnew Hs He Hsp s2. destruct (ce_kstack _ _ _ _ _ _ Hce) as (HK & Hex & Hr). destruct (ce_tf _ _ _ _ _ _ Hce) as [Ht1 Ht2].
  set (K := p_kstack p) in *. unfold TF_SIZE, KSTACKSIZE in Ht2. unfold tf_eip, tf_esp in s2 |- *.
  assert (Hag : agree (eq K) (m_mem s) (m_mem s2)).
  { intros a Hout. specialize (Hout _ eq_refl). unfold s2. cbn [m_mem set_m_cr3 set_m_mem]. rewrite !ldb_st32_ne by lia. done. }
  assert (Hr' : refs (m_mem s) (d :: p_pgdir p :: ds) K = 0%nat).
  { apply refs_none. intros d' n Hd' Hn Hm Ht. apply elem_of_cons in Hd' as [->|Hd'].
    - pose proof (sp_page _ _ _ _ _ _ _ _ _ _ _ Hs n Hn) as Hpg. destruct (n * 4096 <? sz); [|congruence]. destruct Hpg as (_ & _ & Hz).
      rewrite Ht in Hz. lia.
    - destruct (us_other _ _ _ _ _ _ Hu d' n Hd' ltac:(by intros ->) Hn) as [E _]. rewrite E in Ht. unfold mapped in Hm. rewrite E in Hm.
      pose proof (refs_pos _ _ _ _ Hd' Hn Hm) as Hpos. rewrite Ht in Hpos. lia. }
  destruct (kernel_write kend managed ex s fl _ K (m_mem s2) (sp_inv _ _ _ _ _ _ _ _ _ _ _ Hs) (exec_settled d) HK Hex Hr' Hag) as [Hi2 Hsame].
  assert (Hi2' : vm_inv ex s2 fl (p_pgdir p :: d :: ds)).
  { eapply (vm_inv_perm kend managed); [reflexivity..|apply perm_swap|]. by apply (vm_inv_cr3 kend managed ex _ fl _ (V2P d)) in Hi2. }
  assert (Hse : settled ex (p_pgdir p :: d :: ds)) by (split; [pose proof (ce_few _ _ _ _ _ _ Hce); cbn [length]; lia|apply Hce]).
  assert (Hh2 : LkKmem ∉ m_held s2) by (cbn; rewrite (us_held _ _ _ _ _ _ Hu); apply Hce).
  destruct (freevm_spec kend managed Hkend ex s2 fl (d :: ds) (p_pgdir p) Hi2' Hse Hh2) as (s' & fl' & E & Hi' & Hu' & Hcr & _).
  exists s', fl'. split; [done|]. split; [done|]. assert (Hdo : d <> p_pgdir p) by (intros ->; apply Hnew; left).
  assert (Hkeep : forall d' n, d' ∈ d :: ds -> d' <> p_pgdir p -> 0 <= n < UPAGES -> upte (m_mem s') d' n = upte (m_mem s) d' n /\
    (mapped (m_mem s) d' n = true -> same_on (m_mem s) (m_mem s') (tgt (upte (m_mem s) d' n)))).
  { intros d' n Hd' Hne Hn. assert (Hd2 : d' ∈ d :: p_pgdir p :: ds) by (apply elem_of_cons in Hd' as [->|Hd']; [left|right; by right]).
    destruct (Hsame d' n Hd2 Hn) as [E1 S1]. destruct (us_other _ _ _ _ _ _ Hu' d' n Hd' Hne Hn) as [E2 S2].
    split; [congruence|]. intros Hm. eapply same_on_trans; [by apply S1|]. rewrite <- E1. apply S2. unfold mapped in *. by rewrite E1. }
  assert (HsK : same_on (m_mem s2) (m_mem s') K).
  { apply (agree_same_on kend _ _ _ _ (us_kernel _ _ _ _ _ _ Hu') HK); [by intros ? [? _]|]. intros [_ Hz]. lia. }
  split; [intros n Hn; by apply Hkeep; [left| |]|]. split.
  { intros va Hva. destruct (Hkeep d _ ltac:(left) Hdo (upage_of_va va Hva)). by apply uread_eq. }
  split; [|split; [done|split; [|split]]].
  - intros d' va Hd' Hva. assert (Hne : d' <> p_pgdir p) by (intros ->; by apply (live_dir _ _ _ _ (ce_inv _ _ _ _ _ _ Hce))).
    destruct (Hkeep d' _ ltac:(by right) Hne (upage_of_va va Hva)) as [E1 S1]. rewrite (uread_eq _ _ _ _ E1 S1).
    apply (ustep_uread kend ex (p_pgdir p :: ds) d); [done|by right|intros ->; apply Hnew; by right|done].
  - rewrite (ld32_ext _ (m_mem s2)) by (intros i Hi; apply HsK; lia). cbn [m_mem s2 set_m_cr3 set_m_mem].
    rewrite ld32_st32_ne, ld32_st32_eq by lia. by apply u32_id.
  - rewrite (ld32_ext _ (m_mem s2)) by (intros i Hi; apply HsK; lia). cbn [m_mem s2 set_m_cr3 set_m_mem].
    rewrite ld32_st32_eq by lia. by apply u32_id.
  - eapply kernel_same_trans; [by eapply ustep_kernel|]. eapply kernel_same_trans; [|by eapply ustep_kernel].
    intros q i Hq Hexq Hi HX. destruct (decide (q = K)) as [->|Hne].
    + cbn [m_mem s2 set_m_cr3 set_m_mem]. unfold trap_words, tf_eip, tf_esp in HX. by rewrite !ldb_st32_ne by lia.
    + apply (agree_same_on kend _ _ _ _ Hag Hq); [by intros ? <-|done|lia].
Qed.

Lemma upd_at g ps f s q : (pi < length ps)%nat ->
  upd_proc pi g (kstate k0 (<[pi := q]> ps) f s) = Ret tt (kstate k0 (<[pi := g q]> ps) f s).
Proof using.
  intros Hlt. rewrite (upd_proc_eq pi g _ q) by (by apply list_lookup_insert_eq). unfold kstate. cbn. by rewrite list_insert_insert_eq.
Qed.

Lemma commit_image_spec d ps f s c fl sz img entry sp :
  midway d ps s -> idle f -> space_is ex (p_pgdir p :: ds) d c s fl sz img (sz / 4096 - 2) -> sz mod 4096 = 0 ->
  0 <= entry < 2 ^ 32 -> 0 <= sp < 2 ^ 32 ->
  exists k', commit_image kend ts_addr cpu pi path d sz entry sp (kstate k0 ps f s) = Ret 0 k' /\ started (Image sz img entry sp) d k'.
Proof using Hce Hkend kdata.
  intros Hm Hf Hs Hal He Hsp. pose proof Hm as [Hu W Hnew]. destruct (midway_facts _ _ _ Hm) as (Hl & _ & _ & Hp).
  destruct (commit_machine d s c fl sz img _ entry sp Hu Hnew Hs He Hsp) as (s' & fl' & E & Hi & Hup & Hrd & Hus & Hcr & Heip & Hesp & Hke).
  destruct (live_dir _ _ _ _ Hi) as [Hd _]. apply Z.eqb_neq in Hd. apply lookup_lt_Some in Hp as Hlt.
  assert (Hks : p_kstack p <> 0) by (destruct (ce_kstack _ _ _ _ _ _ Hce) as [HK%(page_ok_lo kend Hkend) _]; unfold KERNBASE in HK; lia).
  unfold commit_image. set (p1 := set_name (copy_name (p_name p) (last_name path path)) p).
  replace (kstate k0 ps f s) with (kstate k0 (<[pi := p]> ps) f s) by (by rewrite (list_insert_id ps pi p Hp)). step (upd_at (fun q => set_name (copy_name (p_name q) (last_name path path)) q) ps f s p Hlt). fold p1.
  step (get_proc_eq pi (kstate k0 (<[pi := p1]> ps) f s) p1 ltac:(by apply list_lookup_insert_eq)). cbv zeta.
  step (upd_at (set_pgdir d) ps f s p1 Hlt). step (upd_at (set_sz sz) ps f s (set_pgdir d p1) Hlt). set (p3 := set_sz sz (set_pgdir d p1)).
  change (p_tf p1) with (p_tf p). change (p_pgdir p1) with (p_pgdir p).
  set (s1 := set_m_mem (st32 (m_mem s) (p_tf p + tf_eip) entry) s).
  assert (E1 : mod_mem (fun m => st32 m (p_tf p + tf_eip) entry) s = Ret tt s1) by done. step (mach_eq _ _ _ _ k0 (<[pi := p3]> ps) f E1).
  set (s2 := set_m_mem (st32 (m_mem s1) (p_tf p + tf_esp) sp) s1).
  assert (E2 : mod_mem (fun m => st32 m (p_tf p + tf_esp) sp) s1 = Ret tt s2) by done. step (mach_eq _ _ _ _ k0 (<[pi := p3]> ps) f E2).
  destruct (switchuvm_eq k0 (<[pi := p3]> ps) f s2 p3) as (cpus & Esw); [apply Hce|by apply list_lookup_insert_eq|done|done|]. step Esw. clear Esw.
  step (mach_eq _ _ _ _ (set_cpus cpus k0) (<[pi := p3]> ps) f E). eexists. split; [done|].
  split; cbn [k_fs k_procs k_mach kstate set_cpus set_mach set_procs set_fs im_size im_byte im_entry im_sp]; try done.
  - by exists ps.
  - by exists fl'.
  - intros va Hva. rewrite Hrd, (sp_byte _ _ _ _ _ _ _ _ _ _ _ Hs) by done.
    destruct (Z.ltb_spec va sz), (Z.ltb_spec (va / 4096 * 4096) sz); try done; Z.to_euclidean_division_equations; lia.
  - intros n Hn Hlt'. pose proof (sp_size _ _ _ _ _ _ _ _ _ _ _ Hs) as Hsz. assert (Hn' : 0 <= n < UPAGES) by (unfold UPAGES, KERNBASE in *; lia).
    pose proof (sp_page _ _ _ _ _ _ _ _ _ _ _ Hs n Hn') as Hpg. rewrite (proj2 (Z.ltb_lt _ _) Hlt') in Hpg. destruct Hpg as (Hw & HU & _).
    unfold writable, mapped in *. by rewrite Hup.
Qed.
(** The argument strings are no longer than the image of the program. *)
Definition args_fit (sz : Z) (argv : list (list Z)) : Prop := Forall (fun a => Z.of_nat (length a) + 4 <= npages sz * 4096 + PGSIZE) argv.

Lemma length_word_bytes l : length (words l) = (4 * length l)%nat.
Proof. induction l as [|x l IH]; [done|]. change (words (x :: l)) with (le 4 x ++ words l). rewrite length_app, length_le, IH. cbn [length]. lia. Qed.

Lemma fill_stack_spec d ps f s c fl top img entry argv :
  midway d ps s -> idle f -> space_is ex (p_pgdir p :: ds) d c s fl top img (guard top) -> 8192 <= top -> top mod 4096 = 0 ->
  Forall (fun a => Z.of_nat (length a) + 4 <= top - PGSIZE) argv -> 0 <= entry < 2 ^ 32 ->
  exists r k', fill_stack kend ts_addr cpu pi p path argv d top entry (kstate k0 ps f s) = Ret r k' /\
    match fill_image top img entry argv with
    | None => r = -1 /\ unchanged k'
    | Some im => r = 0 /\ started im d k'
    end.
Proof using Hce Hkend kdata.
  intros Hm Hf Hs Htop Hal Hargs He. pose proof (exec_settled d) as Hse. unfold fill_stack, fill_image. pose proof (sp_size _ _ _ _ _ _ _ _ _ _ _ Hs) as Hsz.
  destruct (push_args_spec kend managed Hkend k0 ex _ d c Hse top Htop Hal ps f argv 0 top [] s fl img Hs) as (r & s1 & E1 & Hu1 & R1);
    [unfold PGSIZE; lia|Z.to_euclidean_division_equations; lia|done|].
  assert (Hm1 : midway d ps s1) by (eapply midway_step; [exact Hm|exact Hu1|apply woken_all_refl]). step E1. destruct r as [[sp addrs]|].
  2:{ destruct R1 as [-> [img1 Hs1]]. destruct (bad_closed d ps f s1 fl Hm1 Hf ltac:(apply Hs1)) as (k' & Eb & Hk'). by exists (-1), k'. }
  destruct R1 as (img1 & Ei & Hs1 & Hsp). rewrite Ei. destruct (stack_image_argc _ _ _ _ _ _ _ _ _ Ei ltac:(done)) as [Hargc Hlen].
  set (argc := Z.of_nat (length argv)) in *. assert (Hargc0 : 0 <= argc) by (unfold argc; lia). cbv zeta. unfold MAXARG, PGSIZE, KERNBASE in *.
  rewrite (u32_id (sp - (argc + 1) * 4)), (u32_id (sp - (3 + argc + 1) * 4)) by lia.
  set (ustack := [4294967295; argc; sp - (argc + 1) * 4] ++ addrs ++ [0]). set (sp' := sp - (3 + argc + 1) * 4).
  assert (Hw : Z.of_nat (length (words ustack)) = (3 + argc + 1) * 4).
  { rewrite length_word_bytes. unfold ustack. rewrite !length_app. cbn [length]. unfold argc in *. cbn [length] in Hlen. lia. }
  destruct (stack_copy kend managed Hkend ex _ d c Hse top Htop Hal sp' (words ustack) s1 fl img1 Hs1) as (s2 & Hu2 & R2); [lia|lia|lia|].
  unfold PGSIZE in R2. rewrite Hw in R2. assert (Hm2 : midway d ps s2) by (eapply midway_step; [exact Hm1|exact Hu2|apply woken_all_refl]).
  destruct (sp' <? top - 4096); destruct R2 as [E2 R2]; step (mach_eq _ _ _ _ k0 ps f E2).
  - destruct R2 as [img2 Hs2]. destruct (bad_closed d ps f s2 fl Hm2 Hf ltac:(apply Hs2)) as (k' & Eb & Hk'). by exists (-1), k'.
  - change (0 <? 0) with false. cbv iota. destruct (commit_image_spec d ps f s2 c fl top _ entry sp' Hm2 Hf R2 Hal He ltac:(lia)) as (k' & Ec & Hk'). by exists 0, k'.
Qed.

Lemma build_stack_spec d ps f s c fl sz img entry argv :
  midway d ps s -> idle f -> space_is ex (p_pgdir p :: ds) d c s fl sz img (-1) -> args_fit sz argv -> 0 <= entry < 2 ^ 32 ->
  let top := npages sz * 4096 + 2 * PGSIZE in
  exists r k', build_stack kend ts_addr cpu pi p path argv d sz entry (kstate k0 ps f s) = Ret r k' /\
    match (if KERNBASE <=? top then None else fill_image top img entry argv) with
    | None => r = -1 /\ unchanged k'
    | Some im => r = 0 /\ started im d k' \/ r = -1 /\ unchanged k' /\ c < top / 4096
    end.
Proof using Hce Hkend kdata.
  intros Hm Hf Hs Hargs He top. pose proof (sp_size _ _ _ _ _ _ _ _ _ _ _ Hs) as Hsz. pose proof (exec_settled d) as Hse.
  destruct (midway_facts _ _ _ Hm) as (_ & _ & Hk & _). unfold build_stack, args_fit in *. cbv zeta. unfold PGSIZE in *.
  rewrite (PGROUNDUP_npages sz) by lia. assert (Hb : sz <= npages sz * 4096 < sz + 4096) by (unfold npages; Z.to_euclidean_division_equations; lia).
  fold top. rewrite (u32_id top) by (unfold KERNBASE, top in *; lia). destruct (Z.leb_spec KERNBASE top) as [Hhi|Hlo].
  { assert (E : allocuvm kend d (npages sz * 4096) top s = Ret 0 s) by (unfold allocuvm; by rewrite (proj2 (Z.leb_le _ _) Hhi)).
    step (mach_eq _ _ _ _ k0 ps f E). destruct (bad_closed d ps f s fl Hm Hf ltac:(apply Hs)) as (k' & Eb & Hk'). by exists (-1), k'. }
  assert (Ht : npages top = top / 4096 /\ top mod 4096 = 0 /\ top / 4096 = npages sz + 2).
  { unfold npages, top. Z.to_euclidean_division_equations; lia. }
  destruct Ht as (Ht1 & Ht2 & Ht3). assert (Hs0 := space_round _ _ _ _ _ _ _ _ _ _ _ Hs ltac:(lia)).
  destruct (space_grow kend managed Hkend ex _ d c s fl _ img (-1) top Hs0 Hse Hk ltac:(lia) ltac:(lia)) as [(s1 & fl1 & E1 & Hs1 & Hu1)|(s1 & fl1 & E1 & Hi1 & Hu1 & Hc)].
  2:{ step (mach_eq _ _ _ _ k0 ps f E1). destruct (bad_closed d ps f s1 fl1) as (k' & Eb & Hk'); [eapply midway_step; [exact Hm|exact Hu1|apply woken_all_refl]|done|done|].
      exists (-1), k'. split; [done|]. destruct (fill_image top img entry argv); [right|done]. split; [done|]. split; [done|lia]. }
  step (mach_eq _ _ _ _ k0 ps f E1). rewrite (proj2 (Z.eqb_neq top 0)) by lia. rewrite (u32_id (top - 2 * 4096)) by (unfold KERNBASE in *; lia).
  destruct (space_hide kend managed Hkend ex _ d c s1 fl1 top img (guard top) Hs1 Hse) as (s2 & E2 & Hs2 & Hu2); [unfold guard; lia|unfold guard; lia|].
  replace (guard top * 4096) with (top - 2 * 4096) in E2 by (unfold guard; lia). step (mach_eq _ _ _ _ k0 ps f E2).
  destruct (fill_stack_spec d ps f s2 c fl1 top img entry argv) as (r & k' & Ef & R); try done; [|lia|eapply Forall_impl; [exact Hargs|intros a; cbv beta; unfold PGSIZE; lia]|].
  { eapply midway_step; [eapply midway_step; [exact Hm|exact Hu1|apply woken_all_refl]|exact Hu2|apply woken_all_refl]. }
  exists r, k'. split; [done|]. destruct (fill_image top img entry argv); [by left|done].
Qed.
(** The address space [setupkvm] makes. *)
Lemma new_space ps :
  Forall2 woken (k_procs k0) ps ->
  (exists d s' fl', setupkvm kend kdata (k_mach k0) = Ret d s' /\ midway d ps s' /\
    space_is ex (p_pgdir p :: ds) d (Z.of_nat (length fl0) - 1025) s' fl' 0 (fun _ => 0) (-1)) \/
  (exists s' fl', setupkvm kend kdata (k_mach k0) = Ret 0 s' /\ vm_inv ex s' fl' (p_pgdir p :: ds) /\
    ustep ex (p_pgdir p :: ds) 0 (k_mach k0) s' /\ Z.of_nat (length fl0) < 1025).
Proof using Hce Hkend Hkdata.
  intros W. assert (Hse : settled ex (p_pgdir p :: ds)) by (split; [pose proof (ce_few _ _ _ _ _ _ Hce); cbn [length]; lia|apply Hce]).
  destruct (setupkvm_spec kend managed Hkend kdata Hkdata ex (k_mach k0) fl0 (p_pgdir p :: ds) (ce_inv _ _ _ _ _ _ Hce) Hse)
    as [(d & s' & fl' & new & E & Hd0 & Hd & Hi & Hu & _ & Hf & Hl & Hpv)|(s' & fl' & E & Hi & Hu & _ & Hl)].
  { pose proof (ce_few _ _ _ _ _ _ Hce). cbn [length]. lia. }
  { apply Hce. }
  - left. exists d, s', fl'. split; [done|]. split; [by split|].
    assert (Hno : forall n, 0 <= n < UPAGES -> mapped (m_mem s') d n = false).
    { intros n Hn. unfold mapped, upte. rewrite Hpv by (by apply upage_range).
      rewrite (kpte_lo KERNBASE); [done|by apply kmap_kmap_ok|unfold UPAGES, KERNBASE in *; lia]. }
    split; [done|done| | |done|].
    + intros n Hn. rewrite (proj2 (Z.ltb_ge _ _)) by lia. by apply Hno.
    + intros va Hva. unfold uread. rewrite Hno by (by apply upage_of_va). rewrite (proj2 (Z.ltb_ge _ _)); [done|].
      assert (0 <= va / 4096) by (apply Z.div_pos; lia). lia.
    + rewrite Hf. autorewrite with len. change (npages 0) with 0. lia.
  - right. exists s', fl'. split; [done|]. split; [done|]. split; [|lia]. apply Hu.
    intros Hin. pose proof (pt_dir _ _ _ (vi_ok _ _ _ _ _ _ (ce_inv _ _ _ _ _ _ Hce) 0 Hin)) as Hz%(page_ok_lo kend Hkend). unfold KERNBASE in Hz. lia.
Qed.
Lemma zero_not_dir : 0 ∉ p_pgdir p :: ds.
Proof using Hce Hkend.
  intros Hin. pose proof (pt_dir _ _ _ (vi_ok _ _ _ _ _ _ (ce_inv _ _ _ _ _ _ Hce) 0 Hin)) as Hz%(page_ok_lo kend Hkend). unfold KERNBASE in Hz. lia.
Qed.

(** What a call comes to when its file has the contents [data]. *)
Definition outcome_of (data : list Z) (argv : list (list Z)) (r : Z) (k' : kern F) : Prop :=
  match exec_image data argv with
  | None => r = -1 /\ unchanged k'
  | Some im => (r = 0 /\ exists d, d ∉ p_pgdir p :: ds /\ started im d k') \/
    (r = -1 /\ unchanged k' /\ Z.of_nat (length fl0) < 1025 + im_size im / 4096)
  end.

Lemma outcome_short data argv k' : unchanged k' -> (forall im, exec_image data argv = Some im -> Z.of_nat (length fl0) < 1025 + im_size im / 4096) -> outcome_of data argv (-1) k'.
Proof. intros Hu Hs. unfold outcome_of. destruct (exec_image data argv) as [im|]; [right|done]. split; [done|]. split; [done|by apply Hs]. Qed.

Lemma image_size data argv im : exec_image data argv = Some im -> exists sz img, segments data = Some (sz, img) /\ im_size im / 4096 = npages sz + 2.
Proof.
  unfold exec_image. destruct (_ <? ELFHDR_SIZE); [done|]. cbv zeta. destruct (negb _); [done|]. destruct (segments data) as [[sz img]|] eqn:Es; [|done].
  destruct (KERNBASE <=? _); [done|]. unfold fill_image. destruct (stack_image _ _ _ _ _ _) as [[[sp ad] i]|]; [|done]. cbv zeta. destruct (_ <? _); [done|].
  intros [= <-]. exists sz, img. split; [done|]. cbn [im_size]. unfold PGSIZE. replace (npages sz * 4096 + 2 * 4096) with ((npages sz + 2) * 4096) by lia.
  by rewrite Z.div_mul by lia.
Qed.

(** From the locked inode on. *)
Lemma exec_opened i ps f data argv :
  contents = Some data -> is_bytes data -> Z.of_nat (length data) < 2 ^ 31 -> (forall sz img, segments data = Some (sz, img) -> args_fit sz argv) ->
  Forall2 woken (k_procs k0) ps -> opened i f ->
  exists r k',
   (r <- files (readi i 0 ELFHDR_SIZE) ;;
    if negb (fst r =? ELFHDR_SIZE) then bad kend p 0 (Some i) else
    let elf := elfhdr_of (snd r) in
    if negb (e_magic elf =? ELF_MAGIC) then bad kend p 0 (Some i) else
    pgdir <- mach (setupkvm kend kdata) ;;
    if pgdir =? 0 then bad kend p 0 (Some i) else
    r <- load_segments kend i pgdir (Z.to_nat (e_phnum elf)) (s32 (e_phoff elf)) 0 ;;
    match r with
    | None => bad kend p pgdir (Some i)
    | Some sz => files (iunlockput p i) ;;; files end_op ;;; build_stack kend ts_addr cpu pi p path argv pgdir sz (e_entry elf)
    end) (kstate k0 ps f (k_mach k0)) = Ret r k' /\ outcome_of data argv r k'.
Proof using Hce Hkend Hkdata Hsv.
  intros Hc Hby Hlen Hargs W Hf. assert (Hl : length ps = NPROC) by (rewrite <- (Forall2_length _ _ _ W); apply Hce).
  pose proof (ce_ptable _ _ _ _ _ _ Hce) as Hpt.
  destruct (sv_readi _ _ _ _ _ _ _ Hsv i f data 0 ELFHDR_SIZE Hc Hf ltac:(lia) ltac:(unfold ELFHDR_SIZE; lia)) as (f1 & E1 & Hf1).
  destruct (files_eq _ _ _ _ (k_mach k0) k0 ps Hl Hpt E1) as (ps1 & Ef1 & W1). step Ef1. assert (W01 : Forall2 woken (k_procs k0) ps1) by (by eapply woken_all_trans).
  assert (Hbad : exists k', bad kend p 0 (Some i) (kstate k0 ps1 (settle f1) (k_mach k0)) = Ret (-1) k' /\ unchanged k').
  { apply (bad_opened i ps1 (settle f1) (k_mach k0) fl0 0); [apply ustep_refl|apply zero_not_dir|done|done|apply Hce]. }
  assert (Hno : forall K, exec_image data argv = None -> (exists k', K = Ret (-1) k' /\ unchanged k') -> exists r k', K = Ret r k' /\ outcome_of data argv r k').
  { intros K E (k' & Eb & Hk'). exists (-1), k'. split; [done|]. unfold outcome_of. by rewrite E. }
  rewrite read_at_full by (unfold ELFHDR_SIZE; lia). rewrite Z.add_0_l. change (ELFHDR_SIZE =? 0) with false. cbn [andb]. rewrite orb_false_r.
  destruct (Z.leb_spec ELFHDR_SIZE (Z.of_nat (length data))) as [Hfit|Hnf]; cbn [negb].
  2:{ apply Hno; [|done]. unfold exec_image. by rewrite (proj2 (Z.ltb_lt _ _) Hnf). }
  assert (Hrd : snd (read_at data 0 ELFHDR_SIZE) = slice data 0 ELFHDR_SIZE).
  { unfold read_at. cbv zeta. rewrite (proj2 (Z.ltb_ge _ 0)) by lia. cbn [snd]. by rewrite Z.min_l by lia. }
  rewrite Hrd. cbv zeta. set (elf := elfhdr_of (slice data 0 ELFHDR_SIZE)). destruct (Z.eqb_spec (e_magic elf) ELF_MAGIC) as [Hmg|Hmg]; cbn [negb].
  2:{ apply Hno; [|done]. unfold exec_image. rewrite (proj2 (Z.ltb_ge _ _) Hfit). cbv zeta. fold elf. by rewrite (proj2 (Z.eqb_neq _ _) Hmg). }
  assert (Him : exec_image data argv = match segments data with None => None | Some (sz, img) =>
    if KERNBASE <=? npages sz * 4096 + 2 * PGSIZE then None else fill_image (npages sz * 4096 + 2 * PGSIZE) img (e_entry elf) argv end).
  { unfold exec_image. rewrite (proj2 (Z.ltb_ge _ _) Hfit). cbv zeta. fold elf. by rewrite (proj2 (Z.eqb_eq _ _) Hmg). }
  assert (Hb : is_bytes (slice data 0 ELFHDR_SIZE)) by (unfold slice; by apply Forall_take, Forall_drop).
  assert (Hoff : 0 <= e_phoff elf < 2 ^ 32) by apply (get_bound 4 _ _ Hb). assert (Hent : 0 <= e_entry elf < 2 ^ 32) by apply (get_bound 4 _ _ Hb).
  destruct (new_space ps1 W01) as [(d & s1 & fl1 & E2 & Hm1 & Hs1)|(s1 & fl1 & E2 & Hi1 & Hu1 & Hsh)]; step (mach_eq _ _ _ _ k0 ps1 (settle f1) E2).
  2:{ destruct (bad_opened i ps1 (settle f1) s1 fl1 0 Hu1 zero_not_dir W01 Hf1 Hi1) as (k' & Eb & Hk'). exists (-1), k'. split; [done|].
      apply outcome_short; [done|]. intros im (sz & img & Es & ->)%image_size. assert (Hz : npages 0 <= npages sz) by (by eapply npages_mono, load_image_size). change (npages 0) with 0 in Hz. lia. }
  destruct (live_dir _ _ _ _ (sp_inv _ _ _ _ _ _ _ _ _ _ _ Hs1)) as [-> _]. destruct (midway_facts _ _ _ Hm1) as (Hl1 & Hp1 & Hk1 & _).
  destruct (load_segments_spec kend managed Hkend k0 ex (p_pgdir p :: ds) d (Z.of_nat (length fl0) - 1025) (exec_settled d) i data opened Hlen
    (fun f off n => sv_readi _ _ _ _ _ _ _ Hsv i f data off n Hc) Hby (Z.to_nat (e_phnum elf)) (e_phoff elf) ps1 (settle f1) s1 fl1 0 (fun _ => 0) Hs1 Hl1 Hp1 Hk1 Hf1 Hoff)
    as (r & ps2 & f2 & s2 & E3 & [Gu Gw Gf] & R). step E3. change (load_image data (Z.to_nat (e_phnum elf)) (e_phoff elf) 0 (fun _ => 0)) with (segments data) in R. assert (Hm2 : midway d ps2 s2) by (by eapply midway_step).
  destruct (midway_facts _ _ _ Hm2) as (Hl2 & Hp2 & Hk2 & _). destruct r as [sz|].
  - destruct R as (fl2 & img & Es & Hs2). destruct (close_spec i ps2 f2 s2 (build_stack kend ts_addr cpu pi p path argv d sz (e_entry elf)) Hl2 Hp2 Gf) as (ps3 & f3 & -> & W3 & Hf3).
    destruct (build_stack_spec d ps3 f3 s2 (Z.of_nat (length fl0) - 1025) fl2 sz img (e_entry elf) argv) as (r & k' & Eb & R); [eapply midway_step; [exact Hm2|apply ustep_refl|exact W3]|done|exact Hs2|by eapply Hargs|done|].
    exists r, k'. split; [done|]. unfold outcome_of. pose proof (image_size data argv) as Hsz. rewrite Him in Hsz |- *. rewrite Es in Hsz |- *. cbv zeta in R.
    destruct (if KERNBASE <=? npages sz * 4096 + 2 * PGSIZE then None else fill_image (npages sz * 4096 + 2 * PGSIZE) img (e_entry elf) argv) as [im|]; [|done].
    destruct (Hsz im eq_refl) as (sz' & img' & [= <- <-] & Hq). destruct R as [[-> R]|(-> & R & Hsh)]; [left|right].
    + split; [done|]. exists d. split; [apply Hm2|done].
    + split; [done|]. split; [done|]. rewrite Hq. unfold PGSIZE in Hsh. replace (npages sz * 4096 + 2 * 4096) with ((npages sz + 2) * 4096) in Hsh by lia.
      rewrite Z.div_mul in Hsh by lia. lia.
  - destruct R as [[fl2 Hi2] R]. destruct (bad_built i d ps2 f2 s2 fl2 Hm2 Gf Hi2) as (k' & Eb & Hk'). exists (-1), k'. split; [done|].
    apply outcome_short; [done|]. intros im (sz & img & Es & ->)%image_size. specialize (R sz img Es). lia.
Qed.

Lemma exec_spec argv :
  idle (k_fs k0) ->
  (forall data, contents = Some data -> is_bytes data /\ Z.of_nat (length data) < 2 ^ 31 /\
    forall sz img, segments data = Some (sz, img) -> args_fit sz argv) ->
  exists r k', exec kend kdata ts_addr cpu path argv k0 = Ret r k' /\
    match contents ≫= fun data => exec_image data argv with
    | None => r = -1 /\ unchanged k'
    | Some im => (r = 0 /\ exists d, d ∉ p_pgdir p :: ds /\ started im d k') \/
      (r = -1 /\ unchanged k' /\ Z.of_nat (length fl0) < 1025 + im_size im / 4096)
    end.
Proof using Hce Hkend Hkdata Hsv.
  intros Hid Hdata. unfold exec. assert (Ec : curproc cpu k0 = Ret pi k0) by (unfold curproc, myproc; rewrite bind_gets; by rewrite (ce_cur _ _ _ _ _ _ Hce)).
  step Ec. step (get_proc_eq pi k0 p (ce_proc _ _ _ _ _ _ Hce)). pose proof (ce_len _ _ _ _ _ _ Hce) as Hl. pose proof (ce_ptable _ _ _ _ _ _ Hce) as Hpt.
  destruct (sv_begin _ _ _ _ _ _ _ Hsv _ Hid) as (f1 & E1 & Hf1).
  destruct (files_eq _ _ _ _ (k_mach k0) k0 _ Hl Hpt E1) as (ps1 & Ef1 & W1). rewrite <- kstate_id in Ef1. step Ef1. assert (Hl1 : length ps1 = NPROC) by (by rewrite <- (Forall2_length _ _ _ W1)).
  destruct (sv_namei _ _ _ _ _ _ _ Hsv _ Hf1) as (r & f2 & E2 & Hf2). destruct (files_eq _ _ _ _ (k_mach k0) k0 _ Hl1 Hpt E2) as (ps2 & Ef2 & W2). step Ef2.
  assert (Hl2 : length ps2 = NPROC) by (by rewrite <- (Forall2_length _ _ _ W2)). 
  assert (Hcase : (exists data, contents = Some data) \/ contents = None) by (destruct contents; eauto).
  destruct Hcase as [[data Ecn]|Ecn]; rewrite Ecn in Hf2 |- *; destruct r as [i|]; try done; cbn [mbind option_bind].
  - destruct (sv_ilock _ _ _ _ _ _ _ Hsv i _ Hf2) as (f3 & E3 & Hf3). destruct (files_eq _ _ _ _ (k_mach k0) k0 _ Hl2 Hpt E3) as (ps3 & Ef3 & W3). step Ef3.
    destruct (Hdata data Ecn) as (Hby & Hlen & Hargs). destruct (exec_opened i ps3 (settle f3) data argv Ecn Hby Hlen Hargs) as (r & k' & Er & Ho);
      [by eapply woken_all_trans, woken_all_trans|done|]. by exists r, k'.
  - destruct (sv_end _ _ _ _ _ _ _ Hsv _ Hf2) as (f3 & E3 & Hf3). destruct (files_eq _ _ _ _ (k_mach k0) k0 _ Hl2 Hpt E3) as (ps3 & Ef3 & W3). step Ef3.
    exists (-1). eexists. split; [done|]. split; [done|]. apply (unchanged_intro 0 ps3 (settle f3) (k_mach k0) fl0);
      [apply ustep_refl|apply zero_not_dir|by eapply woken_all_trans, woken_all_trans|done|apply Hce].
Qed.

End Exec.

(** ** A call that can be tried *)

Module Example.
#[local] Opaque space space_dir.

(** A file layer with one file, [/p]; its state is the contents. *)
#[export] Instance one_file : FileLayer (list Z) := {|
  filedup f := ret f; fileclose _ := ret tt; idup i := ret i; iput _ := ret tt;
  begin_op := ret tt; end_op := ret tt; namei_root := ret (Some 0%nat); take_wakeups f := ([], f)
|}.
Definition path : list Z := [47; 112].
#[export] Instance one_program : ProgramFiles (list Z) := {|
  namei _ q := ret (if decide (q = path) then Some 0%nat else None);
  ilock _ _ := ret tt;
  readi _ off n := gets (fun data => read_at data off n);
  iunlockput _ _ := ret tt
|}.

Lemma one_serves p data : serves p path (Some data) (eq data) (eq data) (fun _ => eq data) (fun _ => eq data).
Proof.
  split; intros; subst; eexists; try (split; [reflexivity|done]).
  - eexists. split; [reflexivity|]. by rewrite decide_True.
  - injection H as <-. split; [reflexivity|done].
Qed.

(** A program of four bytes at address 0, with the entry point 2. *)
Definition program : list Z :=
  [127; 69; 76; 70] ++ replicate 12 0 ++ [2; 0; 3; 0] ++ le 4 1 ++ le 4 2 ++ le 4 52 ++ replicate 10 0 ++ [32; 0; 1; 0] ++ replicate 6 0 ++
  le 4 1 ++ le 4 84 ++ le 4 0 ++ le 4 0 ++ le 4 4 ++ le 4 4 ++ le 4 5 ++ le 4 4096 ++ [10; 20; 30; 40].
Definition args : list (list Z) := [path; [97; 98]].

(** A process with three pages, and its kernel stack at [v]. *)
Definition caller (v : Z) : proc :=
  Proc 0x3000 space_dir v RUNNING 1 None (v + 4096 - TF_SIZE) (v + 4000) None 0 (replicate 16 None) (Some 0%nat) (replicate 16 0) 0 0 0 0 1 0.
Definition kernel {F} (f : F) (v : Z) : kern F :=
  Kern F (kalloc_upd v space) (caller v :: replicate 63 (set_state UNUSED (caller v))) (replicate 3 (replicate 64 None)) [-1; -1; -1] (Some 0%nat)
    (Pstat (replicate 64 0) (replicate 64 0) (replicate 64 0) (replicate 64 UNUSED) (replicate 64 [0; 0; 0; 0]))
    2 0 (fun _ => Percpu (Some 0%nat) ∅ 0 0 0 0) 0 (Rng [] 0) f.

Lemma kalloc_upd_same v s : m_held (kalloc_upd v s) = m_held s /\ m_mem (kalloc_upd v s) = m_mem s.
Proof. done. Qed.

Lemma kernel_can_exec {F} (f : F) : exists v fl, can_exec kend0 managed0 0 (upd no_kernel_refs v 1) (kernel f v) 0 (caller v) [] fl /\ (1100 < length fl)%nat.
Proof.
  destruct space_inv as (fl & Hi & Hh & _ & _ & Hl). destruct fl as [|v fl]; [cbn in Hl; lia|]. exists v, fl.
  pose proof (settled0 [space_dir] ltac:(cbn; lia)) as Hse. destruct (free_unref _ _ _ _ _ _ v Hi ltac:(left)) as (Hr & Hex & _); [apply Hse|].
  assert (Hv : page_ok kend0 v) by (destruct (vi_alloc _ _ _ _ _ _ Hi) as [_ _ Hp _ _]; by inversion Hp).
  split; [|cbn [length] in Hl; lia]. assert (Hno : forall l, l ∉ m_held (kalloc_upd v space)).
  { intros l. rewrite (proj1 (kalloc_upd_same v space)), Hh. apply not_elem_of_nil. }
  apply (Build_can_exec kend0 managed0 0 _ (kernel f v) 0 (caller v) [] fl).
  - reflexivity.
  - reflexivity.
  - reflexivity.
  - reflexivity.
  - apply Hno.
  - apply Hno.
  - exact (vm_kalloc kend0 managed0 kend0_ok _ _ _ _ _ Hi).
  - cbn [length]. lia.
  - intros q. unfold upd, no_kernel_refs. case_decide; lia.
  - split; [exact Hv|]. split; [cbn [p_kstack caller]; unfold upd; rewrite decide_True by reflexivity; unfold no_kernel_refs; lia|].
    cbn [k_mach kernel p_pgdir p_kstack caller]. rewrite (proj2 (kalloc_upd_same v space)). exact Hr.
  - unfold KSTACKSIZE. cbn [p_kstack p_tf caller]. unfold TF_SIZE. lia.
Qed.

(** What the image of the program holds. *)
Lemma program_image :
  option_map (fun im => (im_size im, im_entry im, im_sp im, im_byte im 2, im_byte im 0x2ffc)) (exec_image program args) = Some (0x3000, 2, 0x2fe0, 30, 47).
Proof. vm_compute. reflexivity. Qed.

Lemma program_args sz img : segments program = Some (sz, img) -> args_fit sz args.
Proof.
  intros Hs. assert (Hsz : option_map fst (segments program) = Some 4) by (vm_compute; reflexivity). rewrite Hs in Hsz. injection Hsz as ->.
  repeat constructor; vm_compute; congruence.
Qed.


End Example.
