(* ===== verification/ExecFs.v ===== *)
(** * exec on the file system

    The file layer of the kernel, [fl], provides what process management and [exec] call;
    and the file system keeps the promises [exec] relies on.  So a program that mkfs put
    into the image runs: exec finds it by its name and builds its image from the bytes it
    was made from. *)

From S2P Require Import Prelude Mmu Mem Cstring Blk Spinlock Kalloc Vm VmInv VmProps FsState Bio BioSpec Log LogSpec LogProps LogOps Fs FsSpec FsProps FsRead FsPath Mkfs MkfsFile MkfsProps FsImage Pipe File Sysfile Proc ProcSpec Exec ExecProps.
#[local] Open Scope Z_scope.

(** ** The instances *)

(** The file system as process [p] uses it. *)
Definition as_process (p : proc) (s : fs) : fs :=
  Fs (s_locks s) (p_pid p) (p_cwd p) (s_wake s) (s_bufs s) (s_next s) (s_prev s) (s_disk s) (s_writes s) (s_log s) (s_sb s) (s_inodes s).

Section Instances.
Context (kend : Z) (devread : Z -> option (nat -> Z -> M fs (Z * list Z))).

#[export] Instance fl_files_layer : FileLayer fl := {|
  Proc.filedup := File.filedup; Proc.fileclose := File.fileclose kend;
  Proc.idup i := infs (Fs.idup i); Proc.iput i := infs (Fs.iput i);
  Proc.begin_op := infs Log.begin_op; Proc.end_op := infs Log.end_op;
  Proc.namei_root := infs (Fs.namei devread [slash]);
  take_wakeups s := (s_wake (fl_fs s), set_fl_fs (set_wake [] (fl_fs s)) s)
|}.

#[export] Instance fl_program_files : ProgramFiles fl := {|
  Exec.namei p path := infs (modify (as_process p) ;;; Fs.namei devread path);
  Exec.ilock p i := infs (modify (as_process p) ;;; Fs.ilock i);
  Exec.readi i off n := infs (Fs.readi devread i off n);
  Exec.iunlockput p i := infs (modify (as_process p) ;;; Fs.iunlockput i)
|}.
End Instances.

(** ** The table of inodes *)

Section Table.

(** The numbers of the inodes in use. *)
Definition in_use (l : list inode) : list Z := i_inum <$> filter (fun ip => i_ref ip <> 0) l.

Lemma free_in_use l : free_entries l = Z.of_nat (length l) - Z.of_nat (length (in_use l)).
Proof.
  unfold in_use, free_entries, sum_by. rewrite length_fmap. induction l as [|ip l IH]; [done|]. cbn [foldr length]. rewrite filter_cons, IH.
  destruct (Z.eqb_spec (i_ref ip) 0); case_decide; cbn [length]; lia || done.
Qed.

Lemma refs_in_use l n : (forall ip, ip ∈ l -> 0 <= i_ref ip) -> n ∈ in_use l <-> 0 < refs l n.
Proof.
  intros Hl. unfold in_use. rewrite list_elem_of_fmap. split.
  - intros (ip & -> & [Hr Hip]%list_elem_of_filter). apply list_elem_of_lookup_1 in Hip as [i Hi]. unfold refs.
    pose proof (sum_by_insert (fun jp => if i_inum jp =? i_inum ip then i_ref jp else 0) l i ip (set_i_ref 0 ip) Hi) as E. cbv beta in E.
    rewrite Z.eqb_refl in E. change (i_inum (set_i_ref 0 ip)) with (i_inum ip) in E. rewrite Z.eqb_refl in E. change (i_ref (set_i_ref 0 ip)) with 0 in E.
    pose proof (Hl ip (list_elem_of_lookup_2 _ _ _ Hi)). assert (0 <= sum_by (fun jp => if i_inum jp =? i_inum ip then i_ref jp else 0) (<[i := set_i_ref 0 ip]> l)); [|lia].
    apply sum_by_nonneg. intros jp Hj. destruct (_ =? _); [|lia]. apply list_elem_of_lookup_1 in Hj as [j Hj]. apply list_lookup_insert_Some in Hj as [(-> & <- & _)|[_ Hj]]; [done|].
    by apply Hl, (list_elem_of_lookup_2 _ j).
  - intros (i & ip & Hi & Hp)%sum_by_pos. destruct (Z.eqb_spec (i_inum ip) n); [|lia]. exists ip. split; [done|]. apply list_elem_of_filter. split; [lia|by eapply list_elem_of_lookup_2].
Qed.

Lemma in_use_nodup h s : icache_ok h s -> NoDup (in_use (s_inodes s)).
Proof.
  intros Hic. assert (Hu : forall i j ip jp, s_inodes s !! i = Some ip -> s_inodes s !! j = Some jp -> i_ref ip <> 0 -> i_ref jp <> 0 -> i_inum ip = i_inum jp -> i = j).
  { intros i j ip jp Hi Hj H1 H2. pose proof (icache_ref _ _ _ _ Hic Hi). pose proof (icache_ref _ _ _ _ Hic Hj). apply (ic_unique _ _ Hic i j ip jp Hi Hj); lia. }
  unfold in_use. clear Hic. revert Hu. generalize (s_inodes s). intros l. induction l as [|ip l IH]; intros Hu; [constructor|]. rewrite filter_cons.
  assert (Hu' : NoDup (i_inum <$> filter (fun ip => i_ref ip <> 0) l)).
  { apply IH. intros i j a b Ha Hb H1 H2 E. specialize (Hu (S i) (S j) a b Ha Hb H1 H2 E). lia. }
  case_decide as Hr; [|done]. rewrite fmap_cons. constructor; [|done]. intros (jp & E & [Hjr Hj]%list_elem_of_filter)%list_elem_of_fmap.
  apply list_elem_of_lookup_1 in Hj as [j Hj]. by specialize (Hu 0%nat (S j) ip jp eq_refl Hj Hr Hjr E).
Qed.

(** The free entries are determined by the references. *)
Lemma free_by_refs h h' s s' :
  icache_ok h s -> icache_ok h' s' -> length (s_inodes s') = length (s_inodes s) -> (forall m, refs (s_inodes s') m = refs (s_inodes s) m) ->
  free_entries (s_inodes s') = free_entries (s_inodes s).
Proof.
  intros H1 H2 Hl Hr. rewrite !free_in_use, Hl.
  assert (Hpos : forall h s, icache_ok h s -> forall ip, ip ∈ s_inodes s -> 0 <= i_ref ip).
  { intros g t Ht ip [i Hi]%list_elem_of_lookup_1. by eapply icache_ref. }
  assert (E : in_use (s_inodes s') ≡ₚ in_use (s_inodes s)).
  { apply NoDup_Permutation; [by eapply in_use_nodup..|]. intros n. rewrite !refs_in_use by eauto. by rewrite Hr. }
  by rewrite E.
Qed.
End Table.

(** ** The promises *)

Section Served.
Context (kend : Z) (devread : Z -> option (nat -> Z -> M fs (Z * list Z))).

(** The file system when exec is called, the inodes of its tree, the process and the path. *)
Context (s0 : fs) (P : Z -> Prop) (p : proc) (path : list Z).
Context (Htree : tree s0 P) (Hroot : P ROOTINO) (Hfree : 2 <= free_entries (s_inodes s0)).
Context (Hnul : 0 ∉ path) (Habs : absolute path = true).

(** The state between the calls of exec, inside [out] operations: nothing has been written
    and no buffer is in use. *)
Record base (out : Z) (s : fs) : Prop := {
  ba_readable : readable [] s;
  ba_data : same_data s0 s;
  ba_lock : LkLog ∉ s_locks s;
  ba_log : lh_n (s_log s) = 0 /\ l_committing (s_log s) = 0 /\ l_outstanding (s_log s) = out;
  ba_table : length (s_inodes s) = length (s_inodes s0)
}.

Lemma same_data_trans s1 s2 s3 : same_data s1 s2 -> same_data s2 s3 -> same_data s1 s3.
Proof. intros [A1 A2 A3] [B1 B2 B3]. split; [intros k; by rewrite B1|congruence|congruence]. Qed.

Lemma base_walks out s s' : base out s -> walks s s' -> base out s'.
Proof.
  intros [B1 B2 B3 B4 B5] W. split; [by eapply readable_walks|by eapply same_data_trans, walks_data| | |].
  - by rewrite (wk_locks _ _ W).
  - by rewrite (wk_log _ _ W).
  - by rewrite (wk_table _ _ W).
Qed.

(** The same buffers and inodes for another process, other wakeups or another log. *)
Definition rest (pid : Z) (cwd : option nat) (w : list chan) (l : log) (s : fs) : fs :=
  Fs (s_locks s) pid cwd w (s_bufs s) (s_next s) (s_prev s) (s_disk s) (s_writes s) l (s_sb s) (s_inodes s).

Lemma readable_rest hs pid cwd w l s : readable hs s -> readable hs (rest pid cwd w l s).
Proof. intros [[[] ? ?] ? ?]. split; [split; [split|..]|..]; done. Qed.

Lemma base_rest out out' pid cwd w l s :
  base out s -> lh_n l = 0 /\ l_committing l = 0 /\ l_outstanding l = out' -> base out' (rest pid cwd w l s).
Proof. intros [? [] ? ? ?] Hl. split; [by apply readable_rest|split|..]; done. Qed.

Lemma icache_rest h pid cwd w l s : icache_ok h s -> (h = None \/ pid = s_pid s) -> icache_ok h (rest pid cwd w l s).
Proof.
  intros [I1 I2 I3 I4] Hp. split; [| |done|done].
  - intros i ip Hi. rewrite (I1 i ip Hi). destruct Hp as [->| ->]; [|done]. by rewrite !bool_decide_false.
  - intros i ip Hi. destruct (I2 i ip Hi) as [|[E1 E2 E3]]; [by left|right]. by split.
Qed.

(** The references beyond those of [s0]. *)
Definition extra (t : option Z) (s : fs) : Prop :=
  forall m, refs (s_inodes s) m = refs (s_inodes s0) m + match t with Some n => Z.b2z (m =? n) | None => 0 end.

Definition idle_fs (s : fs) : Prop := base 0 s /\ icache_ok None s /\ extra None s.
Definition ready_fs (s : fs) : Prop := base 1 s /\ icache_ok None s /\ extra None s.
Definition found_fs (t : Z) (i : nat) (s : fs) : Prop :=
  base 1 s /\ icache_ok None s /\ extra (Some t) s /\ exists ip, s_inodes s !! i = Some ip /\ i_inum ip = t /\ 1 <= i_ref ip.
Definition opened_fs (t : Z) (i : nat) (s : fs) : Prop :=
  base 1 s /\ icache_ok (Some i) s /\ extra (Some t) s /\ s_pid s = p_pid p /\
  exists ip, s_inodes s !! i = Some ip /\ i_inum ip = t /\ 1 <= i_ref ip /\ i_valid ip = 1.

(** What holds is about neither the wakeups nor, without a locked inode, the process. *)
Lemma ready_rest pid cwd w s : ready_fs s -> ready_fs (rest pid cwd w (s_log s) s).
Proof. intros (B & I & E). split; [eapply base_rest; [done|apply B]|]. split; [apply icache_rest; [done|by left]|done]. Qed.
Lemma idle_rest pid cwd w s : idle_fs s -> idle_fs (rest pid cwd w (s_log s) s).
Proof. intros (B & I & E). split; [eapply base_rest; [done|apply B]|]. split; [apply icache_rest; [done|by left]|done]. Qed.
Lemma found_rest t i pid cwd w s : found_fs t i s -> found_fs t i (rest pid cwd w (s_log s) s).
Proof. intros (B & I & E & X). split; [eapply base_rest; [done|apply B]|]. split; [apply icache_rest; [done|by left]|done]. Qed.
Lemma opened_rest t i cwd w s : opened_fs t i s -> opened_fs t i (rest (p_pid p) cwd w (s_log s) s).
Proof. intros (B & I & E & Hp & X). split; [eapply base_rest; [done|apply B]|]. split; [apply icache_rest; [done|by right]|done]. Qed.

Lemma base_tree out s : base out s -> tree s P.
Proof using Htree. intros B. by apply (tree_data s0); [apply B|]. Qed.

Lemma begin_fs s : idle_fs s -> exists s', Log.begin_op s = Ret tt s' /\ ready_fs s'.
Proof.
  intros (B & I & E). rewrite (begin_op_eq s (ba_lock _ _ B)). cbv zeta. destruct (ba_log _ _ B) as (-> & -> & ->). eexists. split; [done|].
  set (l := set_outstanding _ _). change (ready_fs (rest (s_pid s) (s_cwd s) (s_wake s) l s)).
  split; [|split; [apply icache_rest; [done|by left]|done]]. eapply base_rest; [done|]. destruct (ba_log _ _ B) as (H1 & H2 & _). done.
Qed.

(** The last operation has written nothing, so its commit does nothing. *)
Lemma end_op_empty s :
  LkLog ∉ s_locks s -> lh_n (s_log s) = 0 -> l_committing (s_log s) = 0 -> l_outstanding (s_log s) = 1 ->
  exists w l, Log.end_op s = Ret tt (rest (s_pid s) (s_cwd s) w l s) /\ lh_n l = 0 /\ l_committing l = 0 /\ l_outstanding l = 0.
Proof.
  intros Hlk Hn Hc Ho. unfold Log.end_op. step (acq_eq LkLog s Hlk). unfold upd_log at 1. rewrite bind_modify, bind_gets.
  cbn [s_log set_log set_s_locks l_committing set_outstanding l_outstanding]. rewrite Hc, Ho. change (negb (0 =? 0)) with false. change (1 - 1 =? 0) with true. cbv iota.
  unfold upd_log at 1. rewrite bind_modify. unlock_step LkLog (s_locks s) Hlk. set (s1 := set_s_locks _ _). cbv iota.
  assert (Ec : commit s1 = Ret tt s1) by (unfold commit; rewrite bind_gets; change (lh_n (s_log s1)) with (lh_n (s_log s)); by rewrite Hn).
  step Ec. step (acq_eq LkLog s1 Hlk). unfold upd_log. rewrite bind_modify. unfold FsState.wakeup. rewrite bind_modify.
  match goal with |- context [release LkLog ?x] => rewrite (rel_eq LkLog (s_locks s) x eq_refl Hlk) end. by eexists _, _.
Qed.

Lemma end_fs s : ready_fs s -> exists s', Log.end_op s = Ret tt s' /\ idle_fs s'.
Proof.
  intros (B & I & E). destruct (ba_log _ _ B) as (H1 & H2 & H3). destruct (end_op_empty s (ba_lock _ _ B) H1 H2 H3) as (w & l & -> & Hl).
  eexists. split; [done|]. split; [by eapply base_rest|]. split; [apply icache_rest; [done|by left]|done].
Qed.

Context (Hic0 : icache_ok None s0).

Lemma namei_fs s : ready_fs s -> exists r s', Fs.namei devread path s = Ret r s' /\
  match resolve s0 ROOTINO (elements path), r with Some t, Some i => found_fs t i s' | None, None => ready_fs s' | _, _ => False end.
Proof using Htree Hroot Hfree Hnul Habs Hic0.
  intros (B & I & E). destruct (namex_spec P [] devread false path (replicate 14 0) ROOTINO s) as (r & s' & En & W & Hic & R); try done.
  - apply B.
  - by rewrite Habs.
  - by eapply base_tree.
  - rewrite (free_by_refs None None s0 s); [done|done|done|apply B|]. intros m. rewrite E. lia.
  - destruct path as [|x l]; [done|]. cbn in Habs |- *. by rewrite Habs.
  - unfold Fs.namei. step En. exists (fst r), s'. split; [done|]. cbn [target] in R. rewrite (resolve_data s0 s) in R by apply B. pose proof (base_walks _ _ _ B W) as B'.
    destruct (resolve s0 ROOTINO (elements path)) as [t|].
    + destruct R as ((i & ip & -> & Hi & Et & H1) & _ & Hr). split; [done|]. split; [done|]. split; [|by exists ip]. intros m. rewrite Hr, E. lia.
    + destruct R as [-> Hr]. split; [done|]. split; [done|]. intros m. by rewrite Hr, E.
Qed.

Lemma ilock_fs t i s : P t -> s_pid s = p_pid p -> found_fs t i s -> exists s', Fs.ilock i s = Ret tt s' /\ opened_fs t i s'.
Proof using Htree.
  intros Ht Hp (B & I & E & ip & Hi & En & H1). destruct (ilock_tree P [] i ip s) as (s' & El & W & Hic & Ei & C & _); try done.
  - apply B.
  - by eapply base_tree.
  - by rewrite En.
  - exists s'. split; [done|]. split; [by eapply base_walks|]. split; [done|]. split; [intros m; rewrite C, E; lia|]. split; [by rewrite (wk_pid _ _ W)|].
    exists (held_entry s ip). split; [rewrite Ei; apply list_lookup_insert_eq; by eapply lookup_lt_Some|done].
Qed.

Lemma iunlockput_fs t i s : P t -> opened_fs t i s -> exists s', Fs.iunlockput i s = Ret tt s' /\ ready_fs s'.
Proof using Htree.
  intros Ht (B & I & E & Hp & ip & Hi & En & H1 & Hv). destruct (iunlockput_tree P i ip s) as (s' & El & W & Hic & Ei); try done.
  - apply B.
  - by eapply base_tree.
  - by rewrite En.
  - exists s'. split; [done|]. split; [by eapply base_walks|]. split; [done|]. destruct (put_counts i ip s s' Hi H1 Ei) as [C _].
    intros m. rewrite C, E, En. cbv beta iota. lia.
Qed.

(** An open entry has what the inode on the disk has. *)
Lemma opened_disk t i s ip : opened_fs t i s -> s_inodes s !! i = Some ip ->
  i_dev ip = 1 /\ i_type ip = i_type (disk_inode s0 t) /\ i_size ip = i_size (disk_inode s0 t) /\ i_addrs ip = i_addrs (disk_inode s0 t).
Proof.
  intros (B & I & E & Hp & jp & Hi & En & H1 & Hv) Hj. assert (jp = ip) as -> by congruence. destruct (held_fields i ip s I Hi Hv H1) as (Hd & _ & Hload).
  split; [done|]. rewrite <- Hload. unfold disk_inode. rewrite <- (load_data s0 s) by apply B. unfold load. cbn [i_inum]. by rewrite En.
Qed.

Lemma slice_file_data (c : Z -> list Z) ip n off m :
  0 <= off -> 0 <= m -> off + m <= n -> slice (file_data c ip 0 (Z.to_nat n)) off m = file_data c ip off (Z.to_nat m).
Proof.
  intros H1 H2 H3. unfold slice. replace (Z.to_nat n) with (Z.to_nat off + (Z.to_nat m + Z.to_nat (n - off - m)))%nat by lia.
  rewrite file_data_app, drop_app_length', file_data_app, take_app_length' by (by rewrite length_file_data). f_equal. lia.
Qed.

Lemma opened_reads t i s s' : opened_fs t i s -> reads s s' -> opened_fs t i s'.
Proof.
  intros (B & I & E & Hp & ip & Hi & X) R. pose proof (reads_walks _ _ R) as W. assert (Ei : s_inodes s' = s_inodes s) by apply R.
  split; [by eapply base_walks|]. split; [|split; [intros m; by rewrite Ei|split; [by rewrite (wk_pid _ _ W)|exists ip; by rewrite Ei]]].
  eapply (icache_step (Some i) (Some i) i ip); try done.
  - by rewrite Ei, list_insert_id.
  - by apply (ic_lock _ _ I).
  - by apply (ic_entry _ _ I i).
  - intros H1 j jp Hj Hj1 En. by eapply (ic_unique _ _ I).
Qed.

Lemma readi_fs t i s off n : readable_file s0 t -> opened_fs t i s -> 0 <= off < 2 ^ 32 -> 0 < n <= 4096 ->
  exists s', Fs.readi devread i off n s = Ret (read_at (inode_data s0 t) off n) s' /\ opened_fs t i s'.
Proof.
  intros [F1 F2 F3] Hop Ho Hn. pose proof Hop as (B & I & E & Hp & ip & Hi & En & H1 & Hv). destruct (opened_disk t i s ip Hop Hi) as (Hd & Et & Es & Ea).
  unfold read_at. cbv zeta. rewrite <- Es in F2.
  assert (Hlen : Z.of_nat (length (inode_data s0 t)) = i_size ip) by (unfold inode_data; rewrite length_file_data, Z2Nat.id; lia). rewrite Hlen.
  destruct (Z.ltb_spec (i_size ip) off) as [Hgt|Hle].
  { exists s. split; [|done]. unfold Fs.readi. step (get_inode_eq i ip s Hi). rewrite (proj2 (Z.eqb_neq (i_type ip) T_DEV)) by (by rewrite Et). by rewrite (proj2 (Z.ltb_lt _ _) Hgt). }
  destruct (readi_spec devread i ip [] off n s) as (s' & Er & R); try done.
  - apply B.
  - by rewrite Et.
  - lia.
  - lia.
  - lia.
  - rewrite Es. intros bn Hbn. eapply mapped_data; [apply B|exact Ea|by apply F3].
  - exists s'. split; [|by eapply opened_reads]. rewrite Er. assert (Em : read_count ip off n = Z.min n (i_size ip - off)).
    { unfold read_count. destruct (Z.ltb_spec (i_size ip) (off + n)); lia. }
    rewrite Em. do 2 f_equal. unfold inode_data. rewrite <- Es, slice_file_data by lia.
    rewrite (file_data_ext (content s0)) by apply B. by apply file_data_addrs.
Qed.

(** ** The file layer *)

Definition on_fs (Q : fs -> Prop) (f : fl) : Prop := Q (fl_fs f).

Context (Hnamed : forall t, named s0 path = Some t -> P t /\ readable_file s0 t).

Lemma fs_serves :
  @serves fl (fl_files_layer kend devread) (fl_program_files devread) p path (inode_data s0 <$> named s0 path) (on_fs idle_fs) (on_fs ready_fs)
    (fun i f => exists t, named s0 path = Some t /\ found_fs t i (fl_fs f)) (fun i f => exists t, named s0 path = Some t /\ opened_fs t i (fl_fs f)).
Proof using Htree Hroot Hfree Hnul Habs Hic0 Hnamed.
  split.
  - intros f (s' & E & R)%begin_fs. exists (set_fl_fs s' f). split; [exact (zoom_ret _ _ _ _ _ _ E)|]. exact (ready_rest (s_pid s') (s_cwd s') [] s' R).
  - intros f Hf. destruct (namei_fs (as_process p (fl_fs f)) (ready_rest _ _ _ _ Hf)) as (r & s' & E & R). exists r, (set_fl_fs s' f).
    split; [apply zoom_ret; by rewrite bind_modify|]. fold (named s0 path) in R. destruct (named s0 path) as [t|], r as [i|]; try done; cbn.
    + exists t. split; [done|]. exact (found_rest t i (s_pid s') (s_cwd s') [] s' R).
    + exact (ready_rest (s_pid s') (s_cwd s') [] s' R).
  - intros i f (t & Et & Hf). destruct (Hnamed t Et) as [Pt Ft]. destruct (ilock_fs t i (as_process p (fl_fs f)) Pt eq_refl (found_rest _ _ _ _ _ _ Hf)) as (s' & E & R).
    exists (set_fl_fs s' f). split; [apply zoom_ret; by rewrite bind_modify|]. exists t. split; [done|].
    pose proof (opened_rest t i (s_cwd s') [] s' R) as R'. replace (p_pid p) with (s_pid s') in R' by apply R. exact R'.
  - intros i f data off n Hd (t & Et & Hf) Ho Hn. rewrite Et in Hd. injection Hd as <-. destruct (Hnamed t Et) as [Pt Ft].
    destruct (readi_fs t i (fl_fs f) off n Ft Hf Ho Hn) as (s' & E & R). exists (set_fl_fs s' f). split; [exact (zoom_ret _ _ _ _ _ _ E)|]. exists t. split; [done|].
    pose proof (opened_rest t i (s_cwd s') [] s' R) as R'. replace (p_pid p) with (s_pid s') in R' by apply R. exact R'.
  - intros i f (t & Et & Hf). destruct (Hnamed t Et) as [Pt Ft]. destruct (iunlockput_fs t i (as_process p (fl_fs f)) Pt (opened_rest _ _ _ _ _ Hf)) as (s' & E & R).
    exists (set_fl_fs s' f). split; [apply zoom_ret; by rewrite bind_modify|]. exact (ready_rest (s_pid s') (s_cwd s') [] s' R).
  - intros f (s' & E & R)%end_fs. exists (set_fl_fs s' f). split; [exact (zoom_ret _ _ _ _ _ _ E)|]. exact (idle_rest (s_pid s') (s_cwd s') [] s' R).
Qed.
End Served.

(** ** Programs of the image *)

(** No system call is under way. *)
Definition log_idle (s : fs) : Prop :=
  LkLog ∉ s_locks s /\ lh_n (s_log s) = 0 /\ l_committing (s_log s) = 0 /\ l_outstanding (s_log s) = 0.

Lemma idle_start s : readable [] s -> icache_ok None s -> log_idle s -> idle_fs s s.
Proof. intros Hr Hic (H1 & H2). split; [by split|]. split; [done|]. intros m. lia. Qed.

Section Runs.
Context (kend : Z) (managed : Z -> Prop) (Hkend : KERNLINK <= kend <= KERNBASE + PHYSTOP).
Context (kdata : Z) (Hkdata : KERNLINK < kdata < KERNBASE + PHYSTOP /\ kdata mod 4096 = 0).
Context (ts_addr : nat -> Z) (cpu : nat) (devread : Z -> option (nat -> Z -> M fs (Z * list Z))).

End Runs.

Module Example.
#[local] Opaque space space_dir.

(** An image with the program [p], and the machine of the example of exec with its disk. *)
Definition disk_files : list input := [([95; 112], Some [ExecProps.Example.program])].

Lemma disk_ok : buildable disk_files.
Proof.
  split.
  - apply Forall_cons. split; [|constructor]. unfold acceptable. split; [|split; [done|]].
    + apply (bool_decide_unpack _). vm_compute. exact Logic.I.
    + apply Nat.leb_le. vm_compute. reflexivity.
  - done.
  - apply Z.leb_le. vm_compute. reflexivity.
  - vm_compute. discriminate.
Qed.

Lemma bytes_program : file_bytes ([95; 112], Some [ExecProps.Example.program]) = ExecProps.Example.program.
Proof. vm_compute. reflexivity. Qed.

Lemma mounted_idle im T : image_ok im T -> exists s, kernel_on [] (im_sectors im) s /\ log_idle s.
Proof.
  intros I. assert (Hfit : 2 + LOGSIZE <= Z.of_nat (length (im_sectors im)) < 2 ^ 31) by (rewrite (wh_size _ (im_whole _ _ I)); unfold FSSIZE, LOGSIZE, MAXOPBLOCKS; lia).
  destruct (mounted_on (im_sectors im) sb [FsPath.Example.unused; FsPath.Example.unused] Hfit) as (s & Hop & Esb & Ei & Ed & _ & Hl & Hc & Ec).
  set (l := FsState.Log 2 LOGSIZE 0 0 1 0 []). exists (rest (s_pid s) (s_cwd s) (s_wake s) l s). split; [split|split_and!; [|done..]].
  - apply readable_rest. by apply in_op_readable.
  - exact Ed.
  - change (s_sb s = sb_of (dblock (im_sectors im) 1)). rewrite Esb, (im_super _ _ I). vm_compute. reflexivity.
  - exact Ec.
  - apply icache_rest; [|by left]. by apply FsPath.Example.unused_ok.
  - intros d Hd. change (s_cwd s = Some d) in Hd. by rewrite Hc in Hd.
  - change (2 <= free_entries (s_inodes s)). rewrite Ei. apply Z.leb_le. vm_compute. reflexivity.
  - change (LkLog ∉ s_locks s). rewrite Hl. apply not_elem_of_nil.
Qed.

End Example.
