(* ===== verification/Ulib.v ===== *)
(** * ulib.c, printf.c and the formatting of console.c

    The library of the user programs, and the kernel's [cprintf], which has the same
    structure.  Strings are lists of characters without their terminating zero. *)

From S2P Require Import Prelude.

(** ** Strings *)

(** The bytes [strcpy] writes. *)
Definition strcpy (t : list Z) : list Z := t ++ [0].

Fixpoint strcmp (p q : list Z) : Z :=
  match p, q with
  | x :: p', y :: q' => if x =? y then strcmp p' q' else u8 x - u8 y
  | x :: _, [] => u8 x
  | [], y :: _ => - u8 y
  | [], [] => 0
  end.

(** The rest of the string from the character on. *)
Fixpoint strchr (s : list Z) (c : Z) : option (list Z) :=
  match s with
  | [] => None
  | x :: s' => if x =? c then Some s else strchr s' c
  end.

(** The loop of [gets]: [room] bytes are left beside the terminator, [input] is what the
    calls of [read] deliver.  The value is the string and the input that is left. *)
Fixpoint gets_loop (room : nat) (input : list Z) : list Z * list Z :=
  match room, input with
  | O, _ | _, [] => ([], input)
  | S room, c :: input =>
    if (c =? 10) || (c =? 13) then ([c], input)
    else let r := gets_loop room input in (c :: fst r, snd r)
  end.
Definition gets_line (max : Z) (input : list Z) : list Z * list Z := gets_loop (Z.to_nat (max - 1)) input.

(** [atoi]; [None] where the sum leaves the range of [int]. *)
Fixpoint atoi_loop (n : Z) (s : list Z) : option Z :=
  match s with
  | c :: s =>
    if (48 <=? c) && (c <=? 57) then
      let n := n * 10 + c - 48 in if n <? 2 ^ 31 then atoi_loop n s else None
    else Some n
  | [] => Some n
  end.
Definition atoi (s : list Z) : option Z := atoi_loop 0 s.

(** ** Numbers *)

(** The digit for [d], with capital letters in printf.c and small ones in console.c. *)
Definition digit (upper : bool) (d : Z) : Z := if d <? 10 then 48 + d else (if upper then 55 else 87) + d.

(** The loop that fills [buf], least significant digit first. *)
Fixpoint digits_loop (upper : bool) (base : Z) (fuel : nat) (x : Z) : list Z :=
  match fuel with
  | O => []
  | S fuel => digit upper (x mod base) :: (if x / base =? 0 then [] else digits_loop upper base fuel (x / base))
  end.
(** [buf] as [printint] fills it.  A 32-bit number has at most 32 digits. *)
Definition printint_buf (upper : bool) (xx base : Z) (sgn : bool) : list Z :=
  let neg := sgn && (xx <? 0) in
  let x := u32 (if neg then - xx else xx) in
  digits_loop upper base 32 x ++ (if neg then [45] else []).
(** What [printint] prints. *)
Definition printint (upper : bool) (xx base : Z) (sgn : bool) : list Z := rev (printint_buf upper xx base sgn).

(** ** Formats *)

(** An argument is a word, or a pointer to a string, which may be null. *)
Inductive parg := PWord (w : Z) | PStr (s : option (list Z)).
Definition null_text : list Z := [40; 110; 117; 108; 108; 41].

(** A directive with the arguments left: what is printed and the arguments that remain;
    [None] where the argument is missing or is not of the kind the directive expects. *)
Definition directive (upper with_c : bool) (c : Z) (ap : list parg) : option (list Z * list parg) :=
  if c =? 100 then match ap with PWord w :: ap => Some (printint upper (s32 w) 10 true, ap) | _ => None end
  else if (c =? 120) || (c =? 112) then
    match ap with PWord w :: ap => Some (printint upper (s32 w) 16 false, ap) | _ => None end
  else if c =? 115 then
    match ap with PStr s :: ap => Some (default null_text s, ap) | _ => None end
  else if with_c && (c =? 99) then
    match ap with PWord w :: ap => Some ([u8 w], ap) | _ => None end
  else if c =? 37 then Some ([37], ap)
  else Some ([37; c], ap).

(** [printf] of printf.c; [percent] is [state == '%']. *)
Fixpoint printf_loop (fmt : list Z) (percent : bool) (ap : list parg) : option (list Z) :=
  match fmt with
  | [] => Some []
  | c :: fmt =>
    if percent then
      match directive true true c ap with
      | None => None
      | Some (out, ap) => option_map (app out) (printf_loop fmt false ap)
      end
    else if c =? 37 then printf_loop fmt true ap
    else option_map (cons c) (printf_loop fmt false ap)
  end.
Definition printf (fmt : list Z) (ap : list parg) : option (list Z) := printf_loop fmt false ap.

(** The output of the loop of [cprintf] of console.c, between taking and releasing its lock. *)
Fixpoint cprintf_text (fmt : list Z) (argp : list parg) : option (list Z) :=
  match fmt with
  | [] => Some []
  | c :: fmt =>
    if negb (c =? 37) then option_map (cons c) (cprintf_text fmt argp) else
    match fmt with
    | [] => Some []
    | c :: fmt =>
      match directive false false c argp with
      | None => None
      | Some (out, argp) => option_map (app out) (cprintf_text fmt argp)
      end
    end
  end.

(** ** Printing and reading numbers *)

(** The value of digits, least significant first. *)
Fixpoint value_of (base : Z) (ds : list Z) : Z :=
  match ds with
  | [] => 0
  | d :: ds => (if d <? 58 then d - 48 else if d <? 97 then d - 55 else d - 87) + base * value_of base ds
  end.

Lemma digits_value upper base fuel : forall x, 2 <= base <= 16 -> 0 <= x < base ^ Z.of_nat fuel ->
  value_of base (digits_loop upper base fuel x) = x.
Proof.
  induction fuel as [|fuel IH]; intros x Hb Hx; [cbn in *; lia|]. cbn [digits_loop value_of].
  pose proof (Z.mod_pos_bound x base ltac:(lia)) as Hm. pose proof (Z.div_mod x base ltac:(lia)) as Hd.
  assert (Hq : 0 <= x / base) by (apply Z.div_pos; lia).
  assert (Hdig : (if digit upper (x mod base) <? 58 then digit upper (x mod base) - 48
    else if digit upper (x mod base) <? 97 then digit upper (x mod base) - 55 else digit upper (x mod base) - 87) = x mod base).
  { unfold digit. destruct (Z.ltb_spec (x mod base) 10); [rewrite (proj2 (Z.ltb_lt _ _)) by lia; lia|].
    destruct upper; repeat case_match; lia. }
  rewrite Hdig. destruct (Z.eqb_spec (x / base) 0) as [E|E]; [cbn; lia|]. rewrite IH; [lia|done|].
  split; [done|]. rewrite Nat2Z.inj_succ, Z.pow_succ_r in Hx by lia. apply Z.div_lt_upper_bound; lia.
Qed.

Lemma digits_decimal fuel : forall x, 0 <= x -> Forall (fun d => 48 <= d <= 57) (digits_loop true 10 fuel x).
Proof.
  induction fuel as [|fuel IH]; intros x Hx; cbn [digits_loop]; constructor.
  - unfold digit. pose proof (Z.mod_pos_bound x 10 ltac:(lia)). rewrite (proj2 (Z.ltb_lt _ _)); lia.
  - destruct (x / 10 =? 0); [constructor|]. apply IH, Z.div_pos; lia.
Qed.

Lemma length_digits upper base fuel : forall x n, 2 <= base -> 0 <= x < base ^ Z.of_nat n -> (1 <= n)%nat ->
  (1 <= length (digits_loop upper base fuel x) <= n)%nat \/ fuel = 0%nat.
Proof.
  induction fuel as [|fuel IH]; intros x n Hb Hx Hn; [by right|left]. cbn [digits_loop length].
  destruct (Z.eqb_spec (x / base) 0) as [E|E]; [cbn; lia|]. assert (Hq : 0 <= x / base) by (apply Z.div_pos; lia).
  destruct n as [|n]; [lia|]. rewrite Nat2Z.inj_succ, Z.pow_succ_r in Hx by lia.
  assert (Hlt : x / base < base ^ Z.of_nat n) by (apply Z.div_lt_upper_bound; lia).
  destruct n as [|n]; [cbn in Hlt; lia|]. destruct (IH (x / base) (S n) Hb) as [H| ->]; [lia|lia|lia|cbn; lia].
Qed.

(** Reading a string of digits from the left gives their value. *)
Lemma atoi_loop_digits ds : forall n,
  Forall (fun d => 48 <= d <= 57) ds -> 0 <= n -> n * 10 ^ Z.of_nat (length ds) + value_of 10 (rev ds) < 2 ^ 31 ->
  atoi_loop n ds = Some (n * 10 ^ Z.of_nat (length ds) + value_of 10 (rev ds)).
Proof.
  assert (Happ : forall l d, 48 <= d <= 57 -> value_of 10 (l ++ [d]) = value_of 10 l + 10 ^ Z.of_nat (length l) * (d - 48)).
  { induction l as [|x l IH]; intros d Hd; cbn [app value_of length].
    - rewrite (proj2 (Z.ltb_lt d 58)) by lia. cbn. lia.
    - rewrite IH by done. rewrite Nat2Z.inj_succ, Z.pow_succ_r by lia. lia. }
  assert (Hpos : forall l, Forall (fun d => 48 <= d <= 57) l -> 0 <= value_of 10 l).
  { induction 1 as [|d l Hd _ IH]; [done|]. cbn [value_of]. rewrite (proj2 (Z.ltb_lt d 58)) by lia. lia. }
  induction ds as [|d ds IH]; intros n Hds Hn Hlt; [cbn; f_equal; lia|].
  apply Forall_cons in Hds as [Hd Hds]. cbn [atoi_loop rev] in *. rewrite (proj2 (Z.leb_le 48 d)), (proj2 (Z.leb_le d 57)) by lia. cbn [andb].
  rewrite Happ in Hlt |- * by done. rewrite length_rev in Hlt |- *. cbn [length] in *. rewrite Nat2Z.inj_succ, Z.pow_succ_r in Hlt |- * by lia.
  assert (Hv : 0 <= value_of 10 (rev ds)) by (by apply Hpos, Forall_rev).
  assert (Hp : 1 <= 10 ^ Z.of_nat (length ds)) by (apply Z.pow_le_mono_r with (b := 0); lia).
  rewrite (proj2 (Z.ltb_lt _ _)) by nia. rewrite IH; [f_equal; lia|done|lia|nia].
Qed.

(** Printing and reading are inverse: [atoi] of what [printint] prints in decimal is
    the number, for every [int] that is not negative; a negative number is printed as a
    minus sign and the digits of its absolute value, also when that is [2 ^ 31]; and
    [buf], which has 16 characters, is never overrun in base 10 or 16. *)
Theorem printint_roundtrip xx upper :
  -2 ^ 31 <= xx < 2 ^ 31 ->
  (0 <= xx -> atoi (printint upper xx 10 true) = Some xx) /\
  (xx < 0 -> exists ds, printint upper xx 10 true = 45 :: ds /\ value_of 10 (rev ds) = - xx /\
     (xx <> -2 ^ 31 -> atoi ds = Some (- xx))) /\
  (forall base sgn, base = 10 \/ base = 16 -> (length (printint_buf upper xx base sgn) <= 16)%nat).
Proof.
  intros Hx. assert (Hup : forall fuel x, 0 <= x -> digits_loop upper 10 fuel x = digits_loop true 10 fuel x).
  { induction fuel as [|fuel IH]; intros x Hx0; [done|]. cbn [digits_loop]. f_equal.
    - unfold digit. pose proof (Z.mod_pos_bound x 10 ltac:(lia)). by rewrite (proj2 (Z.ltb_lt _ _)) by lia.
    - destruct (x / 10 =? 0); [done|]. apply IH, Z.div_pos; lia. }
  assert (Hat : forall x, 0 <= x < 2 ^ 31 -> atoi (rev (digits_loop true 10 32 x)) = Some x).
  { intros x Hx0. unfold atoi. assert (Hv : value_of 10 (digits_loop true 10 32 x) = x) by (apply digits_value; [lia|cbn; lia]).
    rewrite atoi_loop_digits; rewrite ?rev_involutive, ?Hv; [done| |lia|lia]. apply Forall_rev, digits_decimal. lia. }
  split_and!.
  - intros Hp. unfold printint, printint_buf. rewrite (proj2 (Z.ltb_ge xx 0)) by done. cbn [andb].
    rewrite app_nil_r, u32_id, Hup by lia. apply Hat. lia.
  - intros Hn. unfold printint, printint_buf. rewrite (proj2 (Z.ltb_lt xx 0)) by done. cbn [andb].
    rewrite rev_app_distr, u32_id, Hup by lia. cbn [rev app]. eexists. split; [reflexivity|].
    rewrite rev_involutive. split; [apply digits_value; [lia|cbn; lia]|]. intros Hm. apply Hat. lia.
  - intros base sgn Hb. unfold printint_buf. rewrite length_app. set (x := u32 _).
    assert (Hx0 : 0 <= x < 2 ^ 32) by apply u32_bound.
    destruct (length_digits upper base 32 x 15 ltac:(lia)) as [H|H]; [destruct Hb as [-> | ->]; cbn; lia|lia| |done].
    case_match; cbn [length]; lia.
Qed.

Lemma printint_roundtrip_witness : printint true 3400 10 true = [51; 52; 48; 48] /\ atoi (printint true 3400 10 true) = Some 3400.
Proof.
  split; [vm_compute; reflexivity|]. apply (proj1 (printint_roundtrip 3400 true ltac:(lia))). lia.
Defined.
