(* ===== verification/Console.v ===== *)
(** * console.c: the screen, the serial line and the input line

    The state of the console with what it uses: the file system, for the locks and the
    wakeups of the processor and for the inode of the device, and whether the running
    process was killed.  The screen is the memory of the display with the two cursor
    registers of its controller; the serial line is the list of bytes sent.  A [char] of
    the input buffer is a byte: the code only stores it and compares it with codes below
    128. *)

From S2P Require Import Prelude FsState Fs Ulib.

Definition BACKSPACE : Z := 0x100.
Definition INPUT_BUF : Z := 128.
(** The macro [C]: the code of a key with the control key, [@] being 64. *)
Definition Ctrl (x : Z) : Z := x - 64.

Record input := Input { in_buf : list Z; in_r : Z; in_w : Z; in_e : Z }.

Record con := Con {
  c_fs : fs;
  c_killed : Z;      (* myproc()->killed *)
  c_locking : Z;     (* cons.locking *)
  c_panicked : Z;
  c_input : input;
  c_crt : list Z;    (* display memory, in 16-bit cells *)
  c_hi : Z;          (* cursor registers 14 and 15 *)
  c_lo : Z;
  c_uart : Z;        (* is there a serial line? *)
  c_sent : list Z    (* bytes sent on it, oldest first *)
}.
Definition set_c_fs v s := Con v (c_killed s) (c_locking s) (c_panicked s) (c_input s) (c_crt s) (c_hi s) (c_lo s) (c_uart s) (c_sent s).
Definition set_input v s := Con (c_fs s) (c_killed s) (c_locking s) (c_panicked s) v (c_crt s) (c_hi s) (c_lo s) (c_uart s) (c_sent s).
Definition set_crt v s := Con (c_fs s) (c_killed s) (c_locking s) (c_panicked s) (c_input s) v (c_hi s) (c_lo s) (c_uart s) (c_sent s).
Definition set_cursor hi lo s := Con (c_fs s) (c_killed s) (c_locking s) (c_panicked s) (c_input s) (c_crt s) hi lo (c_uart s) (c_sent s).
Definition set_sent v s := Con (c_fs s) (c_killed s) (c_locking s) (c_panicked s) (c_input s) (c_crt s) (c_hi s) (c_lo s) (c_uart s) v.

Definition set_c_locks h s := set_c_fs (set_s_locks h (c_fs s)) s.
#[export] Program Instance con_locks : LockState con := {| held s := s_locks (c_fs s); set_held := set_c_locks |}.
Next Obligation. done. Qed.
Next Obligation. done. Qed.
Next Obligation. by intros [[] ? ? ? ? ? ? ? ? ?]. Qed.

Definition incon {A} (m : M fs A) : M con A := zoom c_fs set_c_fs m.

(** ** Output *)

(** The loop of [uartputc] waits, for a bounded time, and sends in any case. *)
Definition uartputc (c : Z) : M con unit :=
  modify (fun s => if c_uart s =? 0 then s else set_sent (c_sent s ++ [u8 c]) s).

(** [crt[pos] = v]. *)
Definition put_cell (pos v : Z) : M con unit := fun s =>
  if (0 <=? pos) && (pos <? Z.of_nat (length (c_crt s))) then Ret tt (set_crt (<[Z.to_nat pos := v]> (c_crt s)) s) else UB "crt".

(** The [memmove] and the [memset] that scroll; [pos] is the cursor after it moved up. *)
Definition scroll_cells (pos : Z) (crt : list Z) : list Z :=
  let moved := splice crt 0 (take (23 * 80) (drop 80 crt)) in
  splice moved (Z.to_nat pos) (replicate (Z.to_nat (24 * 80 - pos)) 0).
Definition scroll (pos : Z) : M con unit := fun s =>
  if Z.of_nat (length (c_crt s)) <? 24 * 80 then UB "crt" else Ret tt (set_crt (scroll_cells pos (c_crt s)) s).

Definition cgaputc (c : Z) : M con unit :=
  hi <- gets c_hi ;;
  lo <- gets c_lo ;;
  let pos := Z.lor (Z.shiftl hi 8) lo in
  pos <- (if c =? 10 then ret (pos + (80 - pos mod 80))
          else if c =? BACKSPACE then ret (if 0 <? pos then pos - 1 else pos)
          else put_cell pos (Z.lor (Z.land c 0xff) 0x700) ;;; ret (pos + 1)) ;;
  if (pos <? 0) || (25 * 80 <? pos) then panic "pos under/overflow" else
  pos <- (if 24 <=? pos / 80 then scroll (pos - 80) ;;; ret (pos - 80) else ret pos) ;;
  modify (set_cursor (u8 (Z.shiftr pos 8)) (u8 pos)) ;;;
  put_cell pos (Z.lor 32 0x700).

(** After a panic on another processor the call never returns. *)
Definition consputc (c : Z) : M con unit :=
  panicked <- gets c_panicked ;;
  if negb (panicked =? 0) then panic "panicked" else
  (if c =? BACKSPACE then uartputc 8 ;;; uartputc 32 ;;; uartputc 8 else uartputc c) ;;;
  cgaputc c.

Fixpoint consputs (cs : list Z) : M con unit :=
  match cs with [] => ret tt | c :: cs => consputc c ;;; consputs cs end.

Definition cprintf (fmt : option (list Z)) (argp : list parg) : M con unit :=
  locking <- gets c_locking ;;
  (when negb (locking =? 0) do acquire LkCons) ;;;
  match fmt with
  | None => panic "null fmt"
  | Some fmt =>
    match cprintf_text fmt argp with
    | None => ub "cprintf"
    | Some out =>
      consputs out ;;;
      when negb (locking =? 0) do release LkCons
    end
  end.

Definition consolewrite (ip : nat) (buf : list Z) (n : Z) : M con Z :=
  incon (iunlock ip) ;;;
  acquire LkCons ;;;
  consputs ((fun b => Z.land b 0xff) <$> take (Z.to_nat n) buf) ;;;
  release LkCons ;;;
  incon (ilock ip) ;;;
  ret n.

(** ** Input *)

Definition upd_input (f : input -> input) : M con unit := modify (fun s => set_input (f (c_input s)) s).
Definition set_e v i := Input (in_buf i) (in_r i) (in_w i) v.
Definition set_w v i := Input (in_buf i) (in_r i) v (in_e i).
Definition set_r v i := Input (in_buf i) v (in_w i) (in_e i).
(** [input.buf[i % INPUT_BUF]]. *)
Definition in_at (i : input) (k : Z) : Z := nth (Z.to_nat (k mod INPUT_BUF)) (in_buf i) 0.
(** [input.buf[input.e++ % INPUT_BUF] = c]. *)
Definition in_put (c : Z) (i : input) : input :=
  Input (<[Z.to_nat (in_e i mod INPUT_BUF) := u8 c]> (in_buf i)) (in_r i) (in_w i) (u32 (in_e i + 1)).

(** [input.e--; consputc(BACKSPACE)]. *)
Definition erase : M con unit :=
  upd_input (fun i => set_e (u32 (in_e i - 1)) i) ;;;
  consputc BACKSPACE.

(** The loop on control-U; it can go round once for each character of the line. *)
Fixpoint kill_line (n : nat) : M con unit :=
  match n with
  | O => ret tt
  | S n =>
    i <- gets c_input ;;
    if negb (in_e i =? in_w i) && negb (in_at i (u32 (in_e i - 1)) =? 10) then
      erase ;;;
      kill_line n
    else ret tt
  end.

(** The body of the loop of [consoleintr], for a key [c]: whether processes are to be
    listed. *)
Definition key (c : Z) : M con bool :=
  i <- gets c_input ;;
  if c =? Ctrl 80 then ret true
  else if c =? Ctrl 85 then kill_line (Z.to_nat (u32 (in_e i - in_w i))) ;;; ret false
  else if (c =? Ctrl 72) || (c =? 0x7f) then
    (when negb (in_e i =? in_w i) do erase) ;;; ret false
  else if negb (c =? 0) && (u32 (in_e i - in_r i) <? INPUT_BUF) then
    let c := if c =? 13 then 10 else c in
    upd_input (in_put c) ;;;
    consputc c ;;;
    i <- gets c_input ;;
    (when (c =? 10) || (c =? Ctrl 68) || (in_e i =? u32 (in_r i + INPUT_BUF)) do
      (upd_input (set_w (in_e i)) ;;;
       incon (wakeup ChInput))) ;;;
    ret false
  else ret false.

(** [keys] are the results of [getc]; at the end of the list it returns -1. *)
Fixpoint consoleintr_loop (keys : list Z) (doprocdump : bool) : M con bool :=
  match keys with
  | [] => ret doprocdump
  | c :: keys =>
    if c <? 0 then ret doprocdump else
    d <- key c ;;
    consoleintr_loop keys (doprocdump || d)
  end.
Definition consoleintr (keys : list Z) : M con bool :=
  acquire LkCons ;;;
  d <- consoleintr_loop keys false ;;
  release LkCons ;;;
  ret d.

(** A read: [inl] the result with the bytes, or [inr] the bytes so far and the number
    still wanted, when the process went to sleep on [&input.r]. *)
Definition read_end (ip : nat) (r : Z) (got : list Z) : M con (Z * list Z + list Z * nat) :=
  release LkCons ;;;
  incon (ilock ip) ;;;
  ret (inl (r, got)).

(** The loop of [consoleread] when [n] bytes are still wanted. *)
Fixpoint consoleread_loop (ip : nat) (n : nat) (got : list Z) : M con (Z * list Z + list Z * nat) :=
  match n with
  | O => read_end ip (Z.of_nat (length got)) got
  | S n' =>
    i <- gets c_input ;;
    if in_r i =? in_w i then
      killed <- gets c_killed ;;
      if negb (killed =? 0) then read_end ip (-1) got
      else release LkCons ;;; ret (inr (got, n))
    else
      let c := in_at i (in_r i) in
      upd_input (set_r (u32 (in_r i + 1))) ;;;
      if c =? Ctrl 68 then
        (when bool_decide (got <> []) do upd_input (fun i => set_r (u32 (in_r i - 1)) i)) ;;;
        read_end ip (Z.of_nat (length got)) got
      else
        let got := got ++ [c] in
        if c =? 10 then read_end ip (Z.of_nat (length got)) got
        else consoleread_loop ip n' got
  end.
(** [consoleread], and what it does when it goes on after a sleep. *)
Definition consoleread_from (ip : nat) (n : nat) (got : list Z) : M con (Z * list Z + list Z * nat) :=
  acquire LkCons ;;; consoleread_loop ip n got.
Definition consoleread (ip : nat) (n : Z) : M con (Z * list Z + list Z * nat) :=
  incon (iunlock ip) ;;;
  consoleread_from ip (Z.to_nat n) [].
