(* ===== verification/ConsoleProps.v ===== *)
(** * The console: a terminal of 24 lines and an input line that can be edited

    What [consputc] shows is compared with a terminal as a list of cells; the input
    buffer with two lists, the bytes that can be read and the line being typed. *)

From S2P Require Import Prelude FsState BioSpec Fs FsProps Ulib Console.

(** ** The screen *)

(** The cells of the terminal, the first 24 lines of the display memory. *)
Definition cells : Z := 24 * 80.
Definition cursor (s : con) : Z := Z.lor (Z.shiftl (c_hi s) 8) (c_lo s).
Definition shown (s : con) : list Z := take (Z.to_nat cells) (c_crt s).

Record screen_ok (s : con) : Prop := {
  sc_cells : cells <= Z.of_nat (length (c_crt s));
  sc_cursor : 0 <= cursor s < cells
}.

Definition glyph (c : Z) : Z := Z.lor (Z.land c 0xff) 0x700.
Definition blank : Z := Z.lor 32 0x700.

(** A character on a terminal, with the cursor on a cell of its own. *)
Definition terminal (c : Z) (t : list Z * Z) : list Z * Z :=
  let '(l, pos) := t in
  let '(l, pos) := if c =? 10 then (l, (pos / 80 + 1) * 80)
                   else if c =? BACKSPACE then (l, Z.max 0 (pos - 1))
                   else (<[Z.to_nat pos := glyph c]> l, pos + 1) in
  let '(l, pos) := if pos =? cells then (drop 80 l ++ replicate 80 0, pos - 80) else (l, pos) in
  (<[Z.to_nat pos := blank]> l, pos).

(** What output leaves alone. *)
Definition drawn (s s' : con) : Prop :=
  exists crt hi lo sent, s' = set_sent sent (set_cursor hi lo (set_crt crt s)).

Lemma drawn_refl s : drawn s s.
Proof. exists (c_crt s), (c_hi s), (c_lo s), (c_sent s). by destruct s. Qed.
Lemma drawn_trans s1 s2 s3 : drawn s1 s2 -> drawn s2 s3 -> drawn s1 s3.
Proof. intros (? & ? & ? & ? & ->) (crt & hi & lo & sent & ->). by exists crt, hi, lo, sent. Qed.

Lemma cursor_regs pos : 0 <= pos < cells -> Z.lor (Z.shiftl (u8 (Z.shiftr pos 8)) 8) (u8 pos) = pos.
Proof.
  intros H. assert (F : Forall (fun n => Z.lor (Z.shiftl (u8 (Z.shiftr (Z.of_nat n) 8)) 8) (u8 (Z.of_nat n)) = Z.of_nat n) (seq 0 1920)).
  { apply (bool_decide_unpack _). vm_compute. exact I. }
  rewrite <- (Z2Nat.id pos) by lia. apply (proj1 (Forall_forall _ _) F). apply elem_of_seq. unfold cells in H. lia.
Qed.

Lemma put_cell_in pos v s :
  screen_ok s -> 0 <= pos < cells ->
  put_cell pos v s = Ret tt (set_crt (<[Z.to_nat pos := v]> (c_crt s)) s) /\
  take (Z.to_nat cells) (<[Z.to_nat pos := v]> (c_crt s)) = <[Z.to_nat pos := v]> (shown s) /\
  drop (Z.to_nat cells) (<[Z.to_nat pos := v]> (c_crt s)) = drop (Z.to_nat cells) (c_crt s).
Proof.
  intros [Hc _] H. unfold put_cell. rewrite (proj2 (Z.leb_le 0 pos)), (proj2 (Z.ltb_lt pos _)) by lia. split_and!; [done| |].
  - unfold shown. by rewrite take_insert_lt by lia.
  - by rewrite drop_insert_lt by lia.
Qed.

Lemma scroll_cells_spec crt :
  cells <= Z.of_nat (length crt) ->
  scroll_cells (23 * 80) crt = drop 80 (take (Z.to_nat cells) crt) ++ replicate 80 0 ++ drop (Z.to_nat cells) crt.
Proof.
  unfold cells, scroll_cells. intros H. change (Z.to_nat (24 * 80)) with (80 + 1840)%nat in *. change (Z.to_nat (23 * 80)) with 1840%nat.
  change (23 * 80)%nat with 1840%nat. change (Z.to_nat (24 * 80 - 23 * 80)) with 80%nat.
  assert (L1 : length (take 1840 (drop 80 crt)) = 1840%nat) by (rewrite length_take, length_drop; lia).
  assert (E1 : splice crt 0 (take 1840 (drop 80 crt)) = take 1840 (drop 80 crt) ++ drop 1840 crt).
  { rewrite splice_in by (rewrite L1; lia). rewrite L1. done. }
  rewrite E1, splice_in by (rewrite length_app, L1, length_drop, length_replicate; lia). rewrite length_replicate.
  rewrite take_app_length' by done. rewrite <- drop_drop, drop_app_length' by done. rewrite drop_drop, take_drop_commute. done.
Qed.

(** The end of [cgaputc], from the position the cursor moves to. *)
Definition cga_end (pos : Z) : M con unit :=
  if (pos <? 0) || (25 * 80 <? pos) then panic "pos under/overflow" else
  pos <- (if 24 <=? pos / 80 then scroll (pos - 80) ;;; ret (pos - 80) else ret pos) ;;
  modify (set_cursor (u8 (Z.shiftr pos 8)) (u8 pos)) ;;;
  put_cell pos (Z.lor 32 0x700).

(** [s'] shows [l] with the cursor at [pos], and is otherwise [s]. *)
Definition shows (l : list Z) (pos : Z) (s s' : con) : Prop :=
  screen_ok s' /\ shown s' = l /\ cursor s' = pos /\
  drop (Z.to_nat cells) (c_crt s') = drop (Z.to_nat cells) (c_crt s) /\
  exists crt hi lo, s' = set_cursor hi lo (set_crt crt s).

Lemma cga_place pos s :
  cells <= Z.of_nat (length (c_crt s)) -> 0 <= pos < cells ->
  exists s', (modify (set_cursor (u8 (Z.shiftr pos 8)) (u8 pos)) ;;; put_cell pos (Z.lor 32 0x700)) s = Ret tt s' /\
    shows (<[Z.to_nat pos := blank]> (shown s)) pos s s'.
Proof.
  intros Hc Hp. rewrite bind_modify. set (s1 := set_cursor _ _ s).
  assert (H1 : screen_ok s1) by (split; [done|]; unfold cursor; cbn [c_hi c_lo s1 set_cursor]; by rewrite cursor_regs).
  destruct (put_cell_in pos blank s1 H1 Hp) as (E & Et & Ed). exists (set_crt (<[Z.to_nat pos := blank]> (c_crt s1)) s1).
  split; [exact E|]. unfold shows. split_and!.
  - split; [cbn; by rewrite length_insert|apply H1].
  - exact Et.
  - by apply cursor_regs.
  - exact Ed.
  - by eexists _, _, _.
Qed.

Lemma cga_end_spec pos s :
  cells <= Z.of_nat (length (c_crt s)) -> 0 <= pos <= cells ->
  let '(l, p) := if pos =? cells then (drop 80 (shown s) ++ replicate 80 0, pos - 80) else (shown s, pos) in
  exists s', cga_end pos s = Ret tt s' /\ shows (<[Z.to_nat p := blank]> l) p s s'.
Proof.
  intros Hc Hp. unfold cga_end. rewrite (proj2 (Z.ltb_ge pos 0)), (proj2 (Z.ltb_ge (25 * 80) pos)) by (unfold cells in Hp; lia). cbn [orb].
  destruct (Z.eqb_spec pos cells) as [->|Hne].
  - change (24 <=? cells / 80) with true. cbv iota. set (crt' := scroll_cells (cells - 80) (c_crt s)). set (s1 := set_crt crt' s).
    assert (Es : (scroll (cells - 80) ;;; ret (cells - 80)) s = Ret (cells - 80) s1).
    { unfold bind, scroll. by rewrite (proj2 (Z.ltb_ge _ (24 * 80))) by done. }
    step Es. assert (Ec : crt' = (drop 80 (shown s) ++ replicate 80 0) ++ drop (Z.to_nat cells) (c_crt s)).
    { unfold crt'. rewrite <- app_assoc. by apply (scroll_cells_spec (c_crt s)). }
    assert (Hl : length (drop 80 (shown s) ++ replicate 80 0) = Z.to_nat cells).
    { unfold shown. rewrite length_app, length_drop, length_take, length_replicate. unfold cells in *. lia. }
    destruct (cga_place (cells - 80) s1) as (s' & E & H1 & H2 & H3 & H4 & crt & hi & lo & ->).
    + cbn [s1 set_crt c_crt]. rewrite Ec, length_app, Hl. lia.
    + done.
    + eexists. split; [exact E|]. unfold shows. rewrite H2, H4. unfold shown at 1. cbn [s1 set_crt c_crt].
      split_and!; [done| |done| |by exists crt, hi, lo].
      * by rewrite Ec, take_app_length' by done.
      * by rewrite Ec, drop_app_length' by done.
  - rewrite (proj2 (Z.leb_gt 24 (pos / 80))) by (apply Z.div_lt_upper_bound; unfold cells in *; lia).
    step (@eq_refl _ (Ret pos s)). apply cga_place; [done|lia].
Qed.

(** [cgaputc] is [terminal]. *)
Lemma cgaputc_spec c s :
  screen_ok s ->
  exists s', cgaputc c s = Ret tt s' /\ shows (fst (terminal c (shown s, cursor s))) (snd (terminal c (shown s, cursor s))) s s'.
Proof.
  intros Hok. pose proof Hok as [Hc Hp]. unfold cgaputc. rewrite !bind_gets. fold (cursor s). cbv zeta. set (pos := cursor s) in *.
  change (fun pos0 : Z => _) with cga_end. unfold terminal. destruct (c =? 10); [|destruct (c =? BACKSPACE)].
  - rewrite bind_ret with (a := (pos / 80 + 1) * 80) (s' := s) by (unfold ret; f_equal; pose proof (Z.div_mod pos 80); lia).
    assert (Hb : 0 <= (pos / 80 + 1) * 80 <= cells).
    { pose proof (Z.div_pos pos 80). pose proof (Z.div_lt_upper_bound pos 80 24). unfold cells in *. lia. }
    pose proof (cga_end_spec _ s Hc Hb) as H. destruct (_ =? cells); exact H.
  - rewrite bind_ret with (a := Z.max 0 (pos - 1)) (s' := s) by (unfold ret; f_equal; destruct (Z.ltb_spec 0 pos); lia).
    assert (Hb : 0 <= Z.max 0 (pos - 1) <= cells) by lia.
    pose proof (cga_end_spec _ s Hc Hb) as H. destruct (_ =? cells); exact H.
  - destruct (put_cell_in pos (glyph c) s Hok Hp) as (E & Et & Ed). set (s1 := set_crt _ s) in E.
    rewrite bind_assoc. step E. step (@eq_refl _ (Ret (pos + 1) s1)).
    assert (Hc1 : cells <= Z.of_nat (length (c_crt s1))) by (cbn; by rewrite length_insert).
    pose proof (cga_end_spec (pos + 1) s1 Hc1 ltac:(lia)) as H. change (shown s1) with (take (Z.to_nat cells) (<[Z.to_nat pos := glyph c]> (c_crt s))) in H.
    rewrite Et in H. destruct (pos + 1 =? cells); destruct H as (s' & E' & H1 & H2 & H3 & H4 & crt & hi & lo & ->);
      (eexists; split; [exact E'|]; split_and!; [done|done|done|by rewrite H4|by exists crt, hi, lo]).
Qed.

(** ** Characters and strings *)

Definition serial (c : Z) : list Z := if c =? BACKSPACE then [8; 32; 8] else [u8 c].

(** [s'] is [s] after the output of [cs]: the terminal and the serial line have got
    them, and nothing else changed. *)
Record output (cs : list Z) (s s' : con) : Prop := {
  op_ok : screen_ok s';
  op_shown : (shown s', cursor s') = foldl (fun t c => terminal c t) (shown s, cursor s) cs;
  op_rest : drop (Z.to_nat cells) (c_crt s') = drop (Z.to_nat cells) (c_crt s);
  op_sent : c_sent s' = if c_uart s =? 0 then c_sent s else c_sent s ++ mjoin (serial <$> cs);
  op_drawn : drawn s s'
}.

Lemma drawn_fields s s' :
  drawn s s' -> c_fs s' = c_fs s /\ c_killed s' = c_killed s /\ c_panicked s' = c_panicked s /\ c_input s' = c_input s /\ c_uart s' = c_uart s.
Proof. by intros (? & ? & ? & ? & ->). Qed.

Lemma uartputc_eq c s : uartputc c s = Ret tt (set_sent (if c_uart s =? 0 then c_sent s else c_sent s ++ [u8 c]) s).
Proof. unfold uartputc, modify. f_equal. destruct (c_uart s =? 0); by destruct s. Qed.

Lemma consputc_spec c s : screen_ok s -> c_panicked s = 0 -> exists s', consputc c s = Ret tt s' /\ output [c] s s'.
Proof.
  intros Hok Hp. unfold consputc. rewrite bind_gets, Hp. cbn [Z.eqb negb].
  set (s1 := set_sent (if c_uart s =? 0 then c_sent s else c_sent s ++ serial c) s).
  assert (E : (if c =? BACKSPACE then uartputc 8 ;;; uartputc 32 ;;; uartputc 8 else uartputc c) s = Ret tt s1).
  { unfold s1, serial. destruct (c =? BACKSPACE).
    - step (uartputc_eq 8 s). step (uartputc_eq 32 (set_sent (if c_uart s =? 0 then c_sent s else c_sent s ++ [u8 8]) s)).
      rewrite uartputc_eq. cbn [set_sent c_uart c_sent]. destruct (c_uart s =? 0); [by destruct s|by rewrite <- !app_assoc].
    - by rewrite uartputc_eq. }
  step E. destruct (cgaputc_spec c s1) as (s' & E' & H1 & H2 & H3 & H4 & crt & hi & lo & ->); [by destruct Hok|].
  eexists. split; [exact E'|]. split; [done|rewrite H2, H3; symmetry; apply surjective_pairing|done| |].
  - cbn. by rewrite app_nil_r.
  - by exists crt, hi, lo, (c_sent s1).
Qed.

Lemma output_trans cs1 cs2 s1 s2 s3 : output cs1 s1 s2 -> output cs2 s2 s3 -> output (cs1 ++ cs2) s1 s3.
Proof.
  intros [A1 A2 A3 A4 A5] [B1 B2 B3 B4 B5]. destruct (drawn_fields _ _ A5) as (_ & _ & _ & _ & Eu). split; [done| | | |].
  - by rewrite B2, A2, foldl_app.
  - by rewrite B3, A3.
  - rewrite B4, Eu, A4, fmap_app, join_app. destruct (c_uart s1 =? 0); [done|by rewrite app_assoc].
  - by eapply drawn_trans.
Qed.

Lemma output_nil s : screen_ok s -> output [] s s.
Proof. intros H. split; [done|done|done| |apply drawn_refl]. cbn. rewrite app_nil_r. by destruct (_ =? _). Qed.

Lemma consputs_spec cs s : screen_ok s -> c_panicked s = 0 -> exists s', consputs cs s = Ret tt s' /\ output cs s s'.
Proof.
  revert s. induction cs as [|c cs IH]; intros s Hok Hp; cbn [consputs].
  - exists s. split; [done|by apply output_nil].
  - destruct (consputc_spec c s Hok Hp) as (s1 & E1 & H1). step E1. pose proof (drawn_fields _ _ (op_drawn _ _ _ H1)) as (_ & _ & Ep & _).
    destruct (IH s1) as (s2 & E2 & H2); [apply H1|by rewrite Ep|]. exists s2. split; [done|]. by apply (output_trans [c] cs s s1 s2).
Qed.

Lemma serial_bytes bs :
  mjoin (serial <$> ((fun b => Z.land b 0xff) <$> bs)) = (fun b => Z.land b 0xff) <$> bs.
Proof.
  induction bs as [|b bs IH]; [done|]. cbn [fmap list_fmap]. change (mjoin (?x :: ?l)) with (x ++ mjoin l). rewrite IH.
  assert (Hb : 0 <= Z.land b 255 < 256) by (change 255 with (Z.ones 8); rewrite Z.land_ones by lia; apply Z.mod_pos_bound; lia).
  unfold serial, BACKSPACE. rewrite (proj2 (Z.eqb_neq _ 256)) by lia. cbn [app]. f_equal. unfold u8. apply Z.mod_small. lia.
Qed.

(** ** The inode of the device *)

(** The inode [i] is in use and loaded; its lock is [v]. *)
Definition device (i : nat) (v : sleeplock) (s : fs) : Prop :=
  exists ip, s_inodes s !! i = Some ip /\ 1 <= i_ref ip /\ i_valid ip <> 0 /\ i_lock ip = v.

Lemma ilock_device i s :
  device i (Sleeplock 0 0) s -> LkSleep (SlInode i) ∉ s_locks s ->
  exists s', ilock i s = Ret tt s' /\ device i (Sleeplock 1 (s_pid s)) s' /\ s_locks s' = s_locks s /\ s_wake s' = s_wake s /\ s_pid s' = s_pid s.
Proof.
  intros (ip & Hi & Hr & Hv & Hl) Hn. unfold ilock. step (get_inode_eq i ip s Hi). rewrite (proj2 (Z.ltb_ge _ 1)) by lia.
  assert (Hl0 : locked (i_lock ip) = 0) by (by rewrite Hl). step (acquiresleep_inode i ip s Hi Hn Hl0).
  set (ip1 := set_i_lock _ ip). set (s1 := set_inodes _ s).
  assert (H1 : s_inodes s1 !! i = Some ip1) by (cbn; rewrite list_lookup_insert_eq; [done|by eapply lookup_lt_Some]).
  step (get_inode_eq i ip1 s1 H1). rewrite (proj2 (Z.eqb_neq _ 0)) by done. exists s1. split_and!; try done. by exists ip1.
Qed.

Lemma iunlock_device i s :
  device i (Sleeplock 1 (s_pid s)) s -> LkSleep (SlInode i) ∉ s_locks s ->
  exists s', iunlock i s = Ret tt s' /\ device i (Sleeplock 0 0) s' /\ s_locks s' = s_locks s /\ s_pid s' = s_pid s.
Proof.
  intros (ip & Hi & Hr & Hv & Hl) Hn. eexists. split; [exact (iunlock_eq i ip s Hi Hr Hl Hn)|]. split_and!; try done.
  eexists. split; [cbn; apply list_lookup_insert_eq; by eapply lookup_lt_Some|done].
Qed.

Lemma incon_eq {A} (m : M fs A) s a t : m (c_fs s) = Ret a t -> incon m s = Ret a (set_c_fs t s).
Proof. apply zoom_ret. Qed.
Lemma con_acq l s : l ∉ s_locks (c_fs s) -> acquire l s = Ret tt (set_c_locks (l :: s_locks (c_fs s)) s).
Proof. exact (acquire_free (S := con) l s). Qed.
Lemma con_rel l h s : s_locks (c_fs s) = l :: h -> l ∉ h -> release l s = Ret tt (set_c_locks h s).
Proof. exact (release_top (S := con) l h s). Qed.

(** A call on the console by a process that has locked the inode of the device. *)
Record calling (i : nat) (s : con) : Prop := {
  cl_device : device i (Sleeplock 1 (s_pid (c_fs s))) (c_fs s);
  cl_latch : LkSleep (SlInode i) ∉ s_locks (c_fs s);
  cl_cons : LkCons ∉ s_locks (c_fs s);
  cl_running : c_panicked s = 0
}.

(** Writing to the console.  Whatever bytes are written, [consolewrite] returns their
    number without a panic; the display shows what a terminal of 24 lines of 80 cells
    shows, scrolling included, with the cursor always on one of its cells; no other
    display memory changes; the serial line gets the same bytes; and the caller has its
    inode locked again. *)
Theorem consolewrite_correct i buf n s :
  screen_ok s -> calling i s ->
  exists s', consolewrite i buf n s = Ret n s' /\ calling i s' /\ screen_ok s' /\ c_input s' = c_input s /\
    (shown s', cursor s') = foldl (fun t b => terminal (Z.land b 0xff) t) (shown s, cursor s) (take (Z.to_nat n) buf) /\
    drop (Z.to_nat cells) (c_crt s') = drop (Z.to_nat cells) (c_crt s) /\
    c_sent s' = if c_uart s =? 0 then c_sent s else c_sent s ++ ((fun b => Z.land b 0xff) <$> take (Z.to_nat n) buf).
Proof.
  intros Hok [Hd Hl Hc Hp]. unfold consolewrite. destruct (iunlock_device i (c_fs s) Hd Hl) as (f1 & E1 & Hd1 & Hl1 & Hp1).
  step (incon_eq _ s _ _ E1). set (s1 := set_c_fs f1 s). assert (Hn1 : LkCons ∉ s_locks (c_fs s1)) by (cbn; by rewrite Hl1).
  step (con_acq LkCons s1 Hn1). set (s2 := set_c_locks _ s1). set (cs := (fun b => Z.land b 255) <$> _).
  assert (Hok2 : screen_ok s2) by (by destruct Hok). destruct (consputs_spec cs s2 Hok2 Hp) as (s3 & E3 & H3). step E3. destruct H3 as [A1 A2 A3 A4 A5].
  destruct (drawn_fields _ _ A5) as (B1 & B2 & B3 & B4 & B5).
  assert (Hl3 : s_locks (c_fs s3) = LkCons :: s_locks (c_fs s1)) by (by rewrite B1). step (con_rel LkCons _ s3 Hl3 Hn1). set (s4 := set_c_locks _ s3).
  assert (Hd4 : device i (Sleeplock 0 0) (c_fs s4)) by (cbn; rewrite B1; done).
  assert (Hl4 : LkSleep (SlInode i) ∉ s_locks (c_fs s4)) by (cbn; by rewrite Hl1).
  destruct (ilock_device i (c_fs s4) Hd4 Hl4) as (f5 & E5 & Hd5 & Hl5 & _ & Hp5). step (incon_eq _ s4 _ _ E5).
  exists (set_c_fs f5 s4). split; [done|]. assert (El : s_locks f5 = s_locks (c_fs s)) by (rewrite Hl5; exact Hl1).
  split_and!; try done.
  - split; cbn; [by rewrite Hp5|by rewrite El|by rewrite El|by rewrite B3].
  - by destruct A1.
  - change (shown (set_c_fs f5 s4)) with (shown s3). change (cursor (set_c_fs f5 s4)) with (cursor s3). rewrite A2. unfold cs.
    by rewrite foldl_fmap.
  - change (c_sent (set_c_fs f5 s4)) with (c_sent s3). rewrite A4. change (c_uart s2) with (c_uart s). change (c_sent s2) with (c_sent s).
    unfold cs. by rewrite serial_bytes.
Qed.

(** ** The input line *)

(** The bytes that can be read, and those of the line being typed. *)
Definition ready_count (i : input) : Z := u32 (in_w i - in_r i).
Definition edit_count (i : input) : Z := u32 (in_e i - in_w i).
Definition ready (i : input) : list Z := window INPUT_BUF (in_buf i) (in_r i) (Z.to_nat (ready_count i)).
Definition edit (i : input) : list Z := window INPUT_BUF (in_buf i) (in_w i) (Z.to_nat (edit_count i)).

Record buffer_ok (i : input) : Prop := {
  io_buf : length (in_buf i) = Z.to_nat INPUT_BUF;
  io_r : 0 <= in_r i < 2 ^ 32;
  io_w : 0 <= in_w i < 2 ^ 32;
  io_e : 0 <= in_e i < 2 ^ 32;
  io_fits : ready_count i + edit_count i <= INPUT_BUF
}.
(** A newline ends the line that is typed. *)
Record input_ok (i : input) : Prop := { io_buffer : buffer_ok i; io_line : 10 ∉ edit i }.

Lemma inputbuf_div : (INPUT_BUF | 2 ^ 32).
Proof. by exists (2 ^ 25). Qed.

Lemma length_ready i : Z.of_nat (length (ready i)) = ready_count i.
Proof. unfold ready. rewrite length_ring. pose proof (u32_bound (in_w i - in_r i)). unfold ready_count. lia. Qed.
Lemma length_edit i : Z.of_nat (length (edit i)) = edit_count i.
Proof. unfold edit. rewrite length_ring. pose proof (u32_bound (in_e i - in_w i)). unfold edit_count. lia. Qed.

(** Everything in the buffer. *)
Lemma held_count i : buffer_ok i -> u32 (in_e i - in_r i) = ready_count i + edit_count i.
Proof.
  intros [_ Hr Hw He Hf]. unfold ready_count, edit_count, INPUT_BUF in *. pose proof (u32_bound (in_w i - in_r i)).
  pose proof (u32_bound (in_e i - in_w i)). apply u32_dist_is; [lia|done|].
  rewrite Z.add_assoc. rewrite <- (u32_dist_add (in_w i) (in_e i)) at 1 by done. rewrite <- (u32_dist_add (in_r i) (in_w i)) at 1 by done.
  unfold u32 at 1 2 5. by rewrite Zplus_mod_idemp_l.
Qed.

Lemma whole_line i : buffer_ok i ->
  window INPUT_BUF (in_buf i) (in_r i) (Z.to_nat (ready_count i) + Z.to_nat (edit_count i)) = ready i ++ edit i.
Proof.
  intros [_ Hr Hw He Hf]. rewrite (ring_app _ inputbuf_div). unfold ready, edit. do 2 f_equal. unfold ready_count.
  rewrite Z2Nat.id by apply u32_bound. by apply u32_dist_add.
Qed.

Lemma put_spec c i :
  buffer_ok i -> ready_count i + edit_count i < INPUT_BUF -> 0 <= c < 256 ->
  ready (in_put c i) = ready i /\ edit (in_put c i) = edit i ++ [c] /\ ready_count (in_put c i) = ready_count i /\
  edit_count (in_put c i) = edit_count i + 1 /\ buffer_ok (in_put c i).
Proof.
  intros Hok Hf Hc. pose proof (whole_line i Hok) as Hw. pose proof (held_count i Hok) as Hh. destruct Hok as [Hb Hr Hwr He _].
  pose proof (u32_bound (in_w i - in_r i)) as B1. pose proof (u32_bound (in_e i - in_w i)) as B2. fold (ready_count i) in B1. fold (edit_count i) in B2.
  assert (Ee : edit_count (in_put c i) = edit_count i + 1) by (apply (u32_dist_up (in_w i) (in_e i)); [done|]; unfold INPUT_BUF in *; unfold edit_count in *; lia).
  assert (Hpush : window INPUT_BUF (in_buf (in_put c i)) (in_r i) (S (Z.to_nat (ready_count i) + Z.to_nat (edit_count i))) = (ready i ++ edit i) ++ [c]).
  { rewrite <- Hw. cbn [in_put in_buf]. replace (u8 c) with c by (unfold u8; rewrite Z.mod_small; lia).
    apply ring_push; [done|done|lia|]. replace (Z.of_nat _) with (u32 (in_e i - in_r i)) by lia.
    rewrite <- (u32_mod_ring _ inputbuf_div (in_r i + _)), u32_dist_add; done. }
  rewrite <- Nat.add_succ_r, (ring_app _ inputbuf_div), <- app_assoc in Hpush. apply app_inj_1 in Hpush as [H1 H2].
  - split_and!; [exact H1| |done|done|].
    2: { split; [cbn; by rewrite length_insert|done|done|apply u32_bound|]. rewrite Ee. change (ready_count (in_put c i)) with (ready_count i). lia. }
    unfold edit. rewrite Ee. replace (Z.to_nat (edit_count i + 1)) with (S (Z.to_nat (edit_count i))) by lia.
    rewrite Z2Nat.id in H2 by lia. unfold ready_count in H2. rewrite u32_dist_add in H2 by done. exact H2.
  - unfold ready. by rewrite !length_ring.
Qed.

Lemma line_commit i : buffer_ok i -> ready (set_w (in_e i) i) = ready i ++ edit i /\ edit (set_w (in_e i) i) = [] /\ input_ok (set_w (in_e i) i).
Proof.
  intros Hok. pose proof (whole_line i Hok) as Hw. pose proof (held_count i Hok) as Hh. destruct Hok as [Hb Hr Hwr He Hf].
  assert (E0 : edit_count (set_w (in_e i) i) = 0) by (unfold edit_count; cbn; by rewrite Z.sub_diag).
  assert (E1 : edit (set_w (in_e i) i) = []) by (unfold edit; by rewrite E0).
  assert (E2 : ready_count (set_w (in_e i) i) = ready_count i + edit_count i) by exact Hh.
  split_and!; [|done|split; [split; try done|]].
  - unfold ready at 1. rewrite E2, <- Hw, Z2Nat.inj_add by apply u32_bound. done.
  - rewrite E0, E2. lia.
  - rewrite E1. apply not_elem_of_nil.
Qed.

Lemma back_spec i :
  input_ok i -> in_e i <> in_w i ->
  let i' := set_e (u32 (in_e i - 1)) i in
  input_ok i' /\ ready i' = ready i /\ edit i = edit i' ++ [in_at i (u32 (in_e i - 1))] /\ edit_count i' = edit_count i - 1.
Proof.
  intros Hok Hne. pose proof Hok as [[Hb Hr Hw He Hf] Hl]. intros i'.
  assert (Hp : 0 < edit_count i).
  { unfold edit_count. pose proof (u32_bound (in_e i - in_w i)). destruct (decide (u32 (in_e i - in_w i) = 0)) as [E|]; [|lia].
    apply (proj1 (u32_dist_zero _ _ Hw He)) in E. congruence. }
  assert (Ee : edit_count i' = edit_count i - 1) by (by apply u32_dist_back).
  assert (El : edit i = edit i' ++ [in_at i (u32 (in_e i - 1))]).
  { unfold edit. rewrite Ee. replace (Z.to_nat (edit_count i)) with (S (Z.to_nat (edit_count i - 1))) by lia. rewrite ring_last.
    do 3 f_equal. unfold in_at. f_equal. f_equal. rewrite Z2Nat.id by lia. rewrite <- Ee.
    rewrite <- (u32_mod_ring _ inputbuf_div (in_w i + _)). f_equal. apply (u32_dist_add (in_w i) (u32 (in_e i - 1))). apply u32_bound. }
  split_and!; [|done|done|done]. split; [split; try done; [apply u32_bound|rewrite Ee; change (ready_count i') with (ready_count i); lia]|].
  intros H. apply Hl. rewrite El. apply elem_of_app. by left.
Qed.

Lemma take_spec i :
  input_ok i -> in_r i <> in_w i ->
  let i' := set_r (u32 (in_r i + 1)) i in
  input_ok i' /\ edit i' = edit i /\ ready i = in_at i (in_r i) :: ready i'.
Proof.
  intros [[Hb Hr Hw He Hf] Hl] Hne. intros i'. assert (Hp : 0 < ready_count i).
  { unfold ready_count. pose proof (u32_bound (in_w i - in_r i)). destruct (decide (u32 (in_w i - in_r i) = 0)) as [E|]; [|lia].
    apply (proj1 (u32_dist_zero _ _ Hr Hw)) in E. congruence. }
  assert (Er : ready_count i' = ready_count i - 1) by (by apply u32_dist_down).
  split_and!; [|done|].
  - split; [|done]. split; try done; [apply u32_bound|]. rewrite Er. change (edit_count i') with (edit_count i). lia.
  - unfold ready. rewrite Er. replace (Z.to_nat (ready_count i)) with (S (Z.to_nat (ready_count i - 1))) by lia. apply ring_pop, inputbuf_div.
Qed.

(** ** Typing *)

(** A key pressed on a line: control-U erases the line, backspace its last character;
    another key is added when there is room.  A newline, an end of file or the last free
    place of the buffer makes the line ready. *)
Definition type_key (c : Z) (l : list Z * list Z) : list Z * list Z :=
  let '(rd, ed) := l in
  if c =? Ctrl 80 then l
  else if c =? Ctrl 85 then (rd, [])
  else if (c =? Ctrl 72) || (c =? 0x7f) then (rd, removelast ed)
  else if (c =? 0) || (INPUT_BUF <=? Z.of_nat (length (rd ++ ed))) then l
  else
    let c := if c =? 13 then 10 else c in
    if (c =? 10) || (c =? Ctrl 68) || (Z.of_nat (length (rd ++ ed ++ [c])) =? INPUT_BUF) then (rd ++ ed ++ [c], [])
    else (rd, ed ++ [c]).

Definition lines (s : con) : list Z * list Z := (ready (c_input s), edit (c_input s)).

Record con_ok (s : con) : Prop := {
  ok_screen : screen_ok s;
  ok_input : input_ok (c_input s);
  ok_running : c_panicked s = 0
}.

(** What typing leaves alone: all but the screen, the input and the wakeups. *)
Record framed (s s' : con) : Prop := {
  fr_fs : exists w, c_fs s' = set_wake w (c_fs s);
  fr_killed : c_killed s' = c_killed s;
  fr_uart : c_uart s' = c_uart s
}.

Lemma framed_refl s : framed s s.
Proof. split; try done. exists (s_wake (c_fs s)). by destruct s as [[]]. Qed.
Lemma framed_trans s1 s2 s3 : framed s1 s2 -> framed s2 s3 -> framed s1 s3.
Proof. intros [[w1 E1] ? ?] [[w2 E2] ? ?]. split; try congruence. exists w2. by rewrite E2, E1. Qed.

(** Output with a new input line. *)
Lemma redraw c i s :
  con_ok s ->
  exists s', (upd_input (fun _ => i) ;;; consputc c) s = Ret tt s' /\ screen_ok s' /\ c_panicked s' = 0 /\ c_input s' = i /\ framed s s'.
Proof.
  intros [Hs _ Hp]. unfold upd_input. rewrite bind_modify. set (s1 := set_input i s).
  assert (Hs1 : screen_ok s1) by (by destruct Hs). destruct (consputc_spec c s1 Hs1 Hp) as (s2 & E & [A1 _ _ _ A5]).
  destruct (drawn_fields _ _ A5) as (B1 & B2 & B3 & B4 & B5). exists s2. split_and!; [done|done|by rewrite B3|done|].
  split; [|done|done]. exists (s_wake (c_fs s)). rewrite B1. by destruct s as [[]].
Qed.

Lemma erase_spec s :
  con_ok s -> in_e (c_input s) <> in_w (c_input s) ->
  exists s', erase s = Ret tt s' /\ con_ok s' /\ framed s s' /\ ready (c_input s') = ready (c_input s) /\
    edit (c_input s) = edit (c_input s') ++ [in_at (c_input s) (u32 (in_e (c_input s) - 1))] /\
    edit_count (c_input s') = edit_count (c_input s) - 1.
Proof.
  intros Hok Hne. destruct (back_spec _ (ok_input s Hok) Hne) as (H1 & H2 & H3 & H4).
  destruct (redraw BACKSPACE (set_e (u32 (in_e (c_input s) - 1)) (c_input s)) s Hok) as (s' & E & Hs & Hp & Ei & Hf).
  exists s'. rewrite Ei. split_and!; try done. split; [done|by rewrite Ei|done].
Qed.

Lemma kill_line_spec n : forall s,
  con_ok s -> edit_count (c_input s) = Z.of_nat n ->
  exists s', kill_line n s = Ret tt s' /\ con_ok s' /\ framed s s' /\ lines s' = (ready (c_input s), []).
Proof.
  induction n as [|n IH]; intros s Hok Hn; cbn [kill_line].
  - exists s. split_and!; try done; [apply framed_refl|]. unfold lines, edit. by rewrite Hn.
  - rewrite bind_gets. pose proof (ok_input s Hok) as [[_ _ Hw He _] Hl].
    assert (Hne : in_e (c_input s) <> in_w (c_input s)).
    { intros E. unfold edit_count in Hn. rewrite E, Z.sub_diag in Hn. change (u32 0) with 0 in Hn. lia. }
    destruct (erase_spec s Hok Hne) as (s1 & E1 & Hok1 & Hf1 & Er & Ee & Ec).
    rewrite (proj2 (Z.eqb_neq _ _) Hne). cbn [negb andb]. rewrite (proj2 (Z.eqb_neq _ 10)).
    2: { intros E. apply Hl. rewrite Ee, E. apply elem_of_app. right. left. }
    cbn [negb]. step E1. destruct (IH s1 Hok1) as (s2 & E2 & Hok2 & Hf2 & El); [lia|]. exists s2. rewrite <- Er.
    split_and!; try done. by eapply framed_trans.
Qed.

Lemma empty_line i : input_ok i -> in_e i = in_w i <-> edit i = [].
Proof.
  intros [[_ _ Hw He _] _]. pose proof (u32_dist_zero _ _ Hw He) as H. pose proof (length_edit i) as L. unfold edit_count in L. split.
  - intros E. apply nil_length_inv, Nat2Z.inj. rewrite L. apply H. done.
  - intros E. rewrite E in L. symmetry. apply H. by rewrite <- L.
Qed.

(** A character is added to the line. *)
Lemma add_spec k s :
  con_ok s -> ready_count (c_input s) + edit_count (c_input s) < INPUT_BUF -> 0 <= k < 256 ->
  let done_ := (k =? 10) || (k =? Ctrl 68) || (Z.of_nat (length (ready (c_input s) ++ edit (c_input s) ++ [k])) =? INPUT_BUF) in
  exists s', (upd_input (in_put k) ;;; consputc k ;;; i <- gets c_input ;;
      (when (k =? 10) || (k =? Ctrl 68) || (in_e i =? u32 (in_r i + INPUT_BUF)) do
        (upd_input (set_w (in_e i)) ;;; incon (wakeup ChInput))) ;;; ret false) s = Ret false s' /\
    con_ok s' /\ framed s s' /\
    lines s' = if done_ then (ready (c_input s) ++ edit (c_input s) ++ [k], []) else (ready (c_input s), edit (c_input s) ++ [k]).
Proof.
  intros Hok Hroom Hk. pose proof (ok_input s Hok) as [Hi Hline]. set (i := c_input s) in *. cbv zeta.
  destruct (put_spec k i Hi Hroom Hk) as (P1 & P2 & P3 & P4 & P5). set (i1 := in_put k i) in *.
  destruct (redraw k i1 s Hok) as (s1 & E1 & Hs1 & Hp1 & Ei1 & Hf1). rewrite <- bind_assoc. change (upd_input (in_put k) s) with (upd_input (fun _ => i1) s).
  assert (Ex : (upd_input (in_put k) ;;; consputc k) s = Ret tt s1) by exact E1. step Ex. rewrite bind_gets, Ei1.
  pose proof Hi as [Hb Hr Hw He Hf]. assert (Hfits : ready_count i1 + edit_count i1 <= INPUT_BUF) by (rewrite P3, P4; lia).
  assert (Hfull : (in_e i1 =? u32 (in_r i1 + INPUT_BUF)) = (Z.of_nat (length (ready i ++ edit i ++ [k])) =? INPUT_BUF)).
  { assert (Ht : u32 (in_e i1 - in_r i1) = ready_count i + edit_count i + 1).
    { change (in_e i1) with (u32 (in_e i + 1)). change (in_r i1) with (in_r i). rewrite <- (held_count i Hi). apply u32_dist_up; [done|].
      rewrite (held_count i Hi). unfold INPUT_BUF in Hroom. lia. }
    rewrite !length_app. cbn [length]. rewrite !Nat2Z.inj_add, length_ready, length_edit.
    replace (ready_count i + (edit_count i + Z.of_nat 1)) with (u32 (in_e i1 - in_r i1)) by lia.
    apply eq_true_iff_eq. rewrite !Z.eqb_eq. symmetry. apply u32_dist_is; [done|apply u32_bound]. }
  rewrite Hfull. destruct (_ || _ || _) eqn:Efin.
  - destruct (line_commit i1 P5) as (C1 & C2 & C3). unfold upd_input. rewrite bind_assoc, bind_modify, Ei1. set (s2 := set_input _ s1).
    assert (Ew : incon (wakeup ChInput) s2 = Ret tt (set_c_fs (set_wake (s_wake (c_fs s2) ++ [ChInput]) (c_fs s2)) s2)) by done.
    step Ew. eexists. split; [reflexivity|]. split_and!.
    + split; [by destruct Hs1|done|done].
    + eapply framed_trans; [done|]. split; [|done|done]. by eexists.
    + unfold lines. cbn [c_input set_c_fs s2 set_input]. by rewrite C1, C2, P1, P2.
  - step (@eq_refl _ (Ret tt s1)). exists s1. split_and!; [done| |done|unfold lines; by rewrite Ei1, P1, P2].
    split; [done|rewrite Ei1; split; [done|]|done]. rewrite P2, elem_of_app, list_elem_of_singleton. intros [H|H]; [done|].
    subst k. cbn in Efin. done.
Qed.

Lemma key_spec c s :
  con_ok s -> 0 <= c < 256 ->
  exists s', key c s = Ret (c =? Ctrl 80) s' /\ con_ok s' /\ framed s s' /\ lines s' = type_key c (lines s).
Proof.
  intros Hok Hc. pose proof (ok_input s Hok) as Hi. pose proof (io_buffer _ Hi) as Hib. unfold key, lines at 2, type_key. rewrite bind_gets. set (i := c_input s) in *.
  destruct (Z.eqb_spec c (Ctrl 80)) as [|Hn80]; [exists s; split_and!; [done|done|apply framed_refl|done]|].
  destruct (c =? Ctrl 85).
  { destruct (kill_line_spec (Z.to_nat (u32 (in_e i - in_w i))) s Hok) as (s' & E & H1 & H2 & H3).
    { fold i. unfold edit_count. pose proof (u32_bound (in_e i - in_w i)). lia. }
    step E. by exists s'. }
  destruct ((c =? Ctrl 72) || (c =? 127)).
  { destruct (Z.eqb_spec (in_e i) (in_w i)) as [E|Hne]; cbn [negb].
    - step (@eq_refl _ (Ret tt s)). exists s. apply empty_line in E; [|done]. unfold lines. fold i. rewrite E.
      split_and!; [done|done|apply framed_refl|done].
    - destruct (erase_spec s Hok Hne) as (s1 & E1 & Hok1 & Hf1 & Er & Ee & _). step E1. exists s1. split_and!; try done.
      unfold lines. fold i in Er, Ee. rewrite Er, Ee, removelast_last. done. }
  rewrite (held_count i Hib), length_app, Nat2Z.inj_add, length_ready, length_edit, Z.leb_antisym.
  destruct (Z.eqb_spec c 0) as [|Hc0]; cbn [negb andb orb]; [exists s; split_and!; [done|done|apply framed_refl|done]|].
  destruct (Z.ltb_spec (ready_count i + edit_count i) INPUT_BUF) as [Hroom|]; cbn [negb]; [|exists s; split_and!; [done|done|apply framed_refl|done]].
  cbv zeta. set (k := if c =? 13 then 10 else c). assert (Hk : 0 <= k < 256) by (unfold k; destruct (c =? 13); lia).
  destruct (add_spec k s Hok Hroom Hk) as (s' & E & H1 & H2 & H3). exists s'. split_and!; [exact E|done|done|exact H3].
Qed.

Definition is_key (c : Z) : Prop := 0 <= c < 256.

Lemma consoleintr_loop_spec keys : forall d s,
  con_ok s -> Forall is_key keys ->
  exists s', consoleintr_loop keys d s = Ret (d || existsb (Z.eqb (Ctrl 80)) keys) s' /\ con_ok s' /\ framed s s' /\
    lines s' = foldl (fun l c => type_key c l) (lines s) keys.
Proof.
  induction keys as [|c keys IH]; intros d s Hok Hk; cbn [consoleintr_loop foldl existsb].
  - exists s. rewrite orb_false_r. split_and!; [done|done|apply framed_refl|done].
  - apply Forall_cons in Hk as [Hc Hk]. rewrite (proj2 (Z.ltb_ge c 0)) by (apply Hc).
    destruct (key_spec c s Hok Hc) as (s1 & E1 & Hok1 & Hf1 & El1). step E1.
    destruct (IH (d || (c =? Ctrl 80)) s1 Hok1 Hk) as (s2 & E2 & Hok2 & Hf2 & El2). exists s2. rewrite E2, El2, El1, orb_assoc, (Z.eqb_sym c).
    split_and!; try done. by eapply framed_trans.
Qed.

(** ** Reading *)

(** The answer to a read that still wants [n] bytes and has [got] some: it ends after a
    newline, or at an end of file, which it only takes when it has nothing else to
    deliver; with nothing to read it has to wait. *)
Fixpoint take_line (n : nat) (got rd : list Z) : list Z * list Z * option nat :=
  match n, rd with
  | O, _ => (got, rd, None)
  | S _, [] => (got, [], Some n)
  | S n, c :: rd' =>
    if c =? Ctrl 68 then (got, if decide (got = []) then rd' else rd, None)
    else if c =? 10 then (got ++ [c], rd', None)
    else take_line n (got ++ [c]) rd'
  end.
Definition answer (killed : Z) (got : list Z) (wait : option nat) : Z * list Z + list Z * nat :=
  match wait with
  | None => inl (Z.of_nat (length got), got)
  | Some n => if negb (killed =? 0) then inl (-1, got) else inr (got, n)
  end.

(** Between calls: the inode of the device is not locked. *)
Record idle (i : nat) (s : con) : Prop := {
  id_device : device i (Sleeplock 0 0) (c_fs s);
  id_latch : LkSleep (SlInode i) ∉ s_locks (c_fs s);
  id_cons : LkCons ∉ s_locks (c_fs s);
  id_ok : con_ok s
}.

(** A read stops with the inode locked when it is complete. *)
Definition stopped (i : nat) (r : Z * list Z + list Z * nat) (s : con) : Prop :=
  con_ok s /\ LkSleep (SlInode i) ∉ s_locks (c_fs s) /\ LkCons ∉ s_locks (c_fs s) /\
  device i (if r is inl _ then Sleeplock 1 (s_pid (c_fs s)) else Sleeplock 0 0) (c_fs s).

(** A read in progress: [idle] but for the console lock. *)
Definition reading (i : nat) (h : list lockid) (s : con) : Prop :=
  con_ok s /\ s_locks (c_fs s) = LkCons :: h /\ LkCons ∉ h /\ LkSleep (SlInode i) ∉ h /\ device i (Sleeplock 0 0) (c_fs s).

Lemma con_ok_fs f s : con_ok s -> con_ok (set_c_fs f s).
Proof. intros [[? ?] ? ?]. by split. Qed.

Lemma reading_input i h v s : reading i h s -> input_ok v -> reading i h (set_input v s).
Proof. intros ([[? ?] ? ?] & ?) Hv. split; [by split|done]. Qed.

Lemma read_end_spec i h r got s :
  reading i h s ->
  exists s', read_end i r got s = Ret (inl (r, got)) s' /\ stopped i (inl (r, got)) s' /\ lines s' = lines s /\ c_killed s' = c_killed s.
Proof.
  intros (Hok & Hl & Hn & Hs & Hd). unfold read_end. step (con_rel LkCons h s Hl Hn). set (s1 := set_c_locks h s).
  destruct (ilock_device i (c_fs s1) Hd Hs) as (f & E & Hd' & Hl' & _ & Hp'). step (incon_eq _ s1 _ _ E). eexists. split; [reflexivity|].
  split_and!; [|done|done]. unfold stopped. cbn [c_fs set_c_fs]. rewrite Hl', Hp'. split_and!; [by do 2 apply con_ok_fs|done|done|exact Hd'].
Qed.

Lemma consoleread_loop_spec i h n : forall got s,
  reading i h s ->
  exists s', consoleread_loop i n got s = Ret (answer (c_killed s) (fst (fst (take_line n got (ready (c_input s))))) (snd (take_line n got (ready (c_input s))))) s' /\
    stopped i (answer (c_killed s) (fst (fst (take_line n got (ready (c_input s))))) (snd (take_line n got (ready (c_input s))))) s' /\
    lines s' = (snd (fst (take_line n got (ready (c_input s)))), edit (c_input s)) /\ c_killed s' = c_killed s.
Proof.
  induction n as [|n IH]; intros got s Hr; cbn [consoleread_loop take_line].
  - apply (read_end_spec i h _ got s Hr).
  - rewrite bind_gets. pose proof Hr as (Hok & Hl & Hnc & Hns & Hd). pose proof (ok_input s Hok) as Hi. set (v := c_input s) in *.
    destruct (Z.eqb_spec (in_r v) (in_w v)) as [E|Hne].
    + assert (Ee : ready v = []) by (unfold ready, ready_count; by rewrite E, Z.sub_diag). rewrite Ee. cbn [fst snd answer].
      rewrite bind_gets. destruct (negb (c_killed s =? 0)).
      * destruct (read_end_spec i h (-1) got s Hr) as (s' & E' & H1 & H2 & H3). exists s'. split_and!; try done. rewrite H2. unfold lines. fold v. by rewrite Ee.
      * step (con_rel LkCons h s Hl Hnc). eexists. split; [reflexivity|]. split_and!; [|unfold lines; cbn; fold v; by rewrite Ee|done].
        split; [by apply con_ok_fs|done].
    + destruct (take_spec v Hi Hne) as (T1 & T2 & T3). rewrite T3. set (c := in_at v (in_r v)) in *. set (v1 := set_r _ v) in *.
      unfold upd_input at 1. rewrite bind_modify. fold v. set (s1 := set_input (set_r (u32 (in_r v + 1)) v) s).
      assert (Hr1 : reading i h s1) by (by apply reading_input).
      destruct (c =? Ctrl 68).
      * assert (Hback : exists s2, (when bool_decide (got <> []) do upd_input (fun i => set_r (u32 (in_r i - 1)) i)) s1 = Ret tt s2 /\
          reading i h s2 /\ lines s2 = (if decide (got = []) then ready v1 else c :: ready v1, edit v) /\ c_killed s2 = c_killed s).
        { destruct (decide (got = [])) as [->|Hg].
          - rewrite bool_decide_eq_false_2 by naive_solver. by exists s1.
          - rewrite bool_decide_eq_true_2 by done. exists s. split_and!; [|done|unfold lines; fold v; by rewrite T3|done].
            unfold upd_input, modify. f_equal. cbn. replace (u32 (u32 (in_r v + 1) - 1)) with (in_r v).
            + unfold v. by destruct s as [? ? ? ? []].
            + destruct Hi as [[_ Hir _ _ _] _]. unfold u32. rewrite Zminus_mod_idemp_l. replace (in_r v + 1 - 1) with (in_r v) by lia. by rewrite Z.mod_small. }
        destruct Hback as (s2 & E2 & Hr2 & El2 & Ek2). step E2. destruct (read_end_spec i h (Z.of_nat (length got)) got s2 Hr2) as (s' & E' & H1 & H2 & H3).
        exists s'. cbn [fst snd answer]. rewrite H2, El2. split_and!; try done. congruence.
      * destruct (c =? 10).
        -- destruct (read_end_spec i h (Z.of_nat (length (got ++ [c]))) (got ++ [c]) s1 Hr1) as (s' & E' & H1 & H2 & H3). exists s'.
           cbn [fst snd answer]. split_and!; try done; by rewrite H2.
        -- destruct (IH (got ++ [c]) s1 Hr1) as (s' & E' & H1 & H2 & H3). exists s'. change (ready (c_input s1)) with (ready v1) in *.
           change (c_killed s1) with (c_killed s) in *. split_and!; done.
Qed.

(** ** Interrupts and readers in any order *)

(** The console lock makes an interrupt, and a read between two sleeps, one step.  A
    read that is complete gives the inode back, as its caller in file.c does. *)
Inductive event := EKeys (keys : list Z) | ERead (n : nat) (got : list Z).

Definition run_event (i : nat) (e : event) : M con (option (Z * list Z + list Z * nat)) :=
  match e with
  | EKeys keys => consoleintr keys ;;; ret None
  | ERead n got =>
    r <- consoleread_from i n got ;;
    match r with inl _ => incon (iunlock i) | inr _ => ret tt end ;;;
    ret (Some r)
  end.
Fixpoint run_events (i : nat) (es : list event) : M con (list (option (Z * list Z + list Z * nat))) :=
  match es with
  | [] => ret []
  | e :: es => r <- run_event i e ;; rs <- run_events i es ;; ret (r :: rs)
  end.

(** The same on lists. *)
Definition line_event (killed : Z) (e : event) (l : list Z * list Z) : option (Z * list Z + list Z * nat) * (list Z * list Z) :=
  match e with
  | EKeys keys => (None, foldl (fun l c => type_key c l) l keys)
  | ERead n got => let '(got, rd, wait) := take_line n got (fst l) in (Some (answer killed got wait), (rd, snd l))
  end.
Fixpoint line_events (killed : Z) (es : list event) (l : list Z * list Z) : list (option (Z * list Z + list Z * nat)) * (list Z * list Z) :=
  match es with
  | [] => ([], l)
  | e :: es => let '(r, l) := line_event killed e l in let '(rs, l) := line_events killed es l in (r :: rs, l)
  end.

Definition event_ok (e : event) : Prop := if e is EKeys keys then Forall is_key keys else True.

Lemma consoleintr_spec i keys s :
  idle i s -> Forall is_key keys ->
  exists s', consoleintr keys s = Ret (existsb (Z.eqb (Ctrl 80)) keys) s' /\ idle i s' /\
    lines s' = foldl (fun l c => type_key c l) (lines s) keys /\ c_killed s' = c_killed s.
Proof.
  intros [Hd Hl Hc Hok] He. unfold consoleintr. step (con_acq LkCons s Hc). set (s1 := set_c_locks _ s).
  destruct (consoleintr_loop_spec keys false s1 (con_ok_fs _ s Hok) He) as (s2 & E2 & Hok2 & [[w Ef] Ek Eu] & El). step E2.
  assert (Hl2 : s_locks (c_fs s2) = LkCons :: s_locks (c_fs s)) by (by rewrite Ef). step (con_rel LkCons _ s2 Hl2 Hc).
  eexists. split; [reflexivity|]. split_and!; [|done|done]. split; [|done|done|by apply con_ok_fs]. cbn. by rewrite Ef.
Qed.

Lemma run_event_spec i e s :
  idle i s -> event_ok e ->
  exists s', run_event i e s = Ret (fst (line_event (c_killed s) e (lines s))) s' /\ idle i s' /\
    lines s' = snd (line_event (c_killed s) e (lines s)) /\ c_killed s' = c_killed s.
Proof.
  intros [Hd Hl Hc Hok] He. destruct e as [keys|n got]; cbn [run_event line_event].
  - destruct (consoleintr_spec i keys s (Build_idle _ _ Hd Hl Hc Hok) He) as (s' & E & H1 & H2 & H3). step E. by exists s'.
  - unfold consoleread_from. rewrite bind_assoc. step (con_acq LkCons s Hc). set (s1 := set_c_locks _ s).
    assert (Hr1 : reading i (s_locks (c_fs s)) s1) by (split; [by apply con_ok_fs|done]).
    destruct (consoleread_loop_spec i _ n got s1 Hr1) as (s2 & E2 & (Hok2 & Hl2 & Hc2 & Hd2) & El & Ek). step E2.
    change (ready (c_input s1)) with (fst (lines s)) in *. change (c_killed s1) with (c_killed s) in *. change (edit (c_input s1)) with (snd (lines s)) in *.
    destruct (take_line n got (fst (lines s))) as [[g rd] wait]. cbn [fst snd] in *. set (r := answer _ g wait) in *. destruct r as [a|a].
    + destruct (iunlock_device i (c_fs s2) Hd2 Hl2) as (f & E3 & Hd3 & Hl3 & Hp3). step (incon_eq _ s2 _ _ E3).
      eexists. split; [reflexivity|]. split_and!; [|done|done]. split; cbn; [done|by rewrite Hl3|by rewrite Hl3|by apply con_ok_fs].
    + step (@eq_refl _ (Ret tt s2)). exists s2. by split_and!.
Qed.

(** C33. The console input is a line that can be edited.  For any sequence of keyboard
    and serial interrupts and of reads, complete or interrupted by sleeps, no step panics
    and every read gives what a pair of lists gives: keys go to the line being typed,
    backspace and control-U edit it, it becomes readable as a whole on a newline, on an
    end of file or when the buffer is full, and reads take bytes in order up to a newline
    or an end of file.  The 32-bit positions may wrap around at any time. *)
Theorem console_input_correct i es s :
  idle i s -> Forall event_ok es ->
  exists s', run_events i es s = Ret (fst (line_events (c_killed s) es (lines s))) s' /\ idle i s' /\
    lines s' = snd (line_events (c_killed s) es (lines s)).
Proof.
  revert s. induction es as [|e es IH]; intros s Hs Hes; cbn [run_events line_events].
  - by exists s.
  - apply Forall_cons in Hes as [He Hes]. destruct (run_event_spec i e s Hs He) as (s1 & E1 & H1 & El1 & Ek1). step E1.
    destruct (IH s1 H1 Hes) as (s2 & E2 & H2 & El2). step E2. exists s2. rewrite Ek1, El1 in *.
    destruct (line_event (c_killed s) e (lines s)) as [r l]. cbn [fst snd] in *. destruct (line_events (c_killed s) es l) as [rs l2]. by split_and!.
Qed.

Module Example.

(** A console whose counters are about to wrap around. *)
Definition input0 : input := Input (replicate 128 0) (2 ^ 32 - 2) (2 ^ 32 - 2) (2 ^ 32 - 2).
Definition dev0 (v : sleeplock) : inode := Inode 1 2 1 v 1 3 1 1 1 0 [].
Definition fs0 (v : sleeplock) : fs := Fs [] 7 None [] [] [] [] [] [] (FsState.Log 2 30 0 0 1 0 []) (Superblock 0 0 0 0 0 0 0) [dev0 v].
(** The cursor is on the last cell of the screen. *)
Definition con0 (v : sleeplock) : con := Con (fs0 v) 0 1 0 input0 (replicate 2000 0) 7 127 1 [].

Lemma con0_screen v : screen_ok (con0 v).
Proof. split; [cbn [c_crt con0]; rewrite length_replicate; done|done]. Qed.

Lemma con0_ok v : con_ok (con0 v).
Proof.
  split; [apply con0_screen| |done]. split.
  - split; [done|done|done|done|by vm_compute].
  - change (edit (c_input (con0 v))) with (@nil Z). apply not_elem_of_nil.
Qed.

Lemma con0_device v : device 0 v (fs0 v).
Proof. exists (dev0 v). by split_and!. Qed.

(** A character in the last cell scrolls the screen. *)
Lemma consolewrite_correct_witness :
  exists s', consolewrite 0 [65] 1 (con0 (Sleeplock 1 7)) = Ret 1 s' /\ screen_ok s' /\ cursor s' = 23 * 80 /\ c_sent s' = [65].
Proof.
  destruct (consolewrite_correct 0 [65] 1 (con0 (Sleeplock 1 7))) as (s' & E & _ & H1 & _ & H2 & _ & H3).
  - apply con0_screen.
  - split; [apply con0_device|apply not_elem_of_nil|apply not_elem_of_nil|reflexivity].
  - exists s'. split; [exact E|]. split; [exact H1|]. split; [|exact H3]. apply (f_equal snd) in H2. exact H2.
Defined.

(** [lx], backspace, [s], newline; a read in between has to wait, and gets [ls]. *)
Lemma console_input_correct_witness :
  exists s', run_events 0 [EKeys [108; 120; 8]; ERead 10 []; EKeys [115; 13]; ERead 10 []] (con0 (Sleeplock 0 0)) =
    Ret [None; Some (inr ([], 10%nat)); None; Some (inl (3, [108; 115; 10]))] s'.
Proof.
  destruct (console_input_correct 0 [EKeys [108; 120; 8]; ERead 10 []; EKeys [115; 13]; ERead 10 []] (con0 (Sleeplock 0 0))) as (s' & E & _).
  - split; [apply con0_device|apply not_elem_of_nil|apply not_elem_of_nil|apply con0_ok].
  - repeat constructor; done.
  - exists s'. exact E.
Defined.

End Example.
