(* ===== verification/Kbd.v ===== *)
(** * kbd.c and uart.c: where the characters of the console come from

    The tables of kbd.h, the translation of scan codes with the state of the modifier
    keys, and the interrupts of the keyboard and the serial line. *)

From S2P Require Import Prelude FsState Fs Console ConsoleProps.

Definition NO : Z := 0.
Definition SHIFT : Z := Z.shiftl 1 0.
Definition CTL : Z := Z.shiftl 1 1.
Definition ALT : Z := Z.shiftl 1 2.
Definition CAPSLOCK : Z := Z.shiftl 1 3.
Definition NUMLOCK : Z := Z.shiftl 1 4.
Definition SCROLLLOCK : Z := Z.shiftl 1 5.
Definition E0ESC : Z := Z.shiftl 1 6.
Definition KEY_HOME : Z := 0xE0.
Definition KEY_END : Z := 0xE1.
Definition KEY_UP : Z := 0xE2.
Definition KEY_DN : Z := 0xE3.
Definition KEY_LF : Z := 0xE4.
Definition KEY_RT : Z := 0xE5.
Definition KEY_PGUP : Z := 0xE6.
Definition KEY_PGDN : Z := 0xE7.
Definition KEY_INS : Z := 0xE8.
Definition KEY_DEL : Z := 0xE9.

(** An array of 256 [uchar] initialised with the elements of [first], in order from 0
    on, and with designated elements; the others are 0. *)
Definition table (first : list Z) (designated : list (nat * Z)) : list Z :=
  foldl (fun t e => <[fst e := u8 (snd e)]> t) (take 256 ((u8 <$> first) ++ replicate 256 NO)) designated.
Definition entry (t : list Z) (data : Z) : Z := nth (Z.to_nat data) t 0.

Definition shiftcode : list Z :=
  table [] [(0x1D, CTL); (0x2A, SHIFT); (0x36, SHIFT); (0x38, ALT); (0x9D, CTL); (0xB8, ALT)]%nat.
Definition togglecode : list Z := table [] [(0x3A, CAPSLOCK); (0x45, NUMLOCK); (0x46, SCROLLLOCK)]%nat.

(** The designated elements of all three maps but for the first two. *)
Definition special_keys : list (nat * Z) :=
  [(0xC8, KEY_UP); (0xD0, KEY_DN); (0xC9, KEY_PGUP); (0xD1, KEY_PGDN); (0xCB, KEY_LF); (0xCD, KEY_RT);
   (0x97, KEY_HOME); (0xCF, KEY_END); (0xD2, KEY_INS); (0xD3, KEY_DEL)]%nat.

Definition normalmap : list Z := table
  ([NO; 0x1B] ++ codes "1234567890-=" ++ [8; 9] ++
   codes "qwertyuiop[]" ++ [10; NO] ++ codes "asdfghjkl;'`" ++ [NO] ++ codes "\zxcvbnm,./" ++ [NO; 42] ++
   [NO; 32] ++ replicate 6 NO ++ replicate 7 NO ++ codes "789-456+1230." ++ replicate 4 NO)
  ([(0x9C, 10%Z); (0xB5, 47%Z)]%nat ++ special_keys).
Definition shiftmap : list Z := table
  ([NO; 27] ++ codes "!@#$%^&*()_+" ++ [8; 9] ++
   codes "QWERTYUIOP{}" ++ [10; NO] ++ codes "ASDFGHJKL:" ++ [34] ++ codes "~" ++ [NO] ++ codes "|ZXCVBNM<>?" ++ [NO; 42] ++
   [NO; 32] ++ replicate 6 NO ++ replicate 7 NO ++ codes "789-456+1230." ++ replicate 4 NO)
  ([(0x9C, 10%Z); (0xB5, 47%Z)]%nat ++ special_keys).
Definition ctlmap : list Z := table
  (replicate 16 NO ++ (Ctrl <$> codes "QWERTYUIOP") ++ [NO; NO; 13; NO] ++ (Ctrl <$> codes "ASDFGHJKL") ++
   replicate 4 NO ++ (Ctrl <$> codes "\ZXCVBNM") ++ [NO; NO] ++ (Ctrl <$> codes "/") ++ [NO; NO])
  ([(0x9C, 13%Z); (0xB5, Ctrl 47)]%nat ++ special_keys).

Definition charcode (m : Z) : list Z :=
  if m =? 0 then normalmap else if m =? 1 then shiftmap else ctlmap.

(** [kbdgetc] with the static variable [shift]; [port] is the byte the controller has,
    if there is one. *)
Definition kbdgetc (shift : Z) (port : option Z) : Z * Z :=
  match port with
  | None => (-1, shift)
  | Some data =>
    if data =? 0xE0 then (0, Z.lor shift E0ESC)
    else if negb (Z.land data 0x80 =? 0) then
      let data := if negb (Z.land shift E0ESC =? 0) then data else Z.land data 0x7F in
      (0, Z.land shift (Z.lnot (Z.lor (entry shiftcode data) E0ESC)))
    else
      let '(data, shift) :=
        if negb (Z.land shift E0ESC =? 0) then (Z.lor data 0x80, Z.land shift (Z.lnot E0ESC)) else (data, shift) in
      let shift := Z.lor shift (entry shiftcode data) in
      let shift := Z.lxor shift (entry togglecode data) in
      let c := entry (charcode (Z.land shift (Z.lor CTL SHIFT))) data in
      let c :=
        if negb (Z.land shift CAPSLOCK =? 0) then
          if (97 <=? c) && (c <=? 122) then c + (65 - 97)
          else if (65 <=? c) && (c <=? 90) then c + (97 - 65)
          else c
        else c in
      (c, shift)
  end.

(** The results of [kbdgetc] for the bytes that wait in the controller. *)
Fixpoint kbd_keys (shift : Z) (data : list Z) : list Z * Z :=
  match data with
  | [] => ([], shift)
  | d :: data =>
    let '(c, shift) := kbdgetc shift (Some d) in
    let '(cs, shift) := kbd_keys shift data in
    (c :: cs, shift)
  end.
(** [kbdintr]: whether processes are to be listed, and the new [shift]. *)
Definition kbdintr (shift : Z) (data : list Z) : M con (bool * Z) :=
  let '(cs, shift) := kbd_keys shift data in
  d <- consoleintr cs ;;
  ret (d, shift).

(** [data] are the bytes received; [uartgetc] gives one at a time while there are any. *)
Definition uartgetc (uart : Z) (data : list Z) : Z :=
  if uart =? 0 then -1 else match data with [] => -1 | b :: _ => b end.
Definition uartintr (data : list Z) : M con bool :=
  uart <- gets c_uart ;;
  consoleintr (if uart =? 0 then [] else data).

(** ** Typing text *)

(** The keys for a character: where it is in one of the maps, in the second with the
    shift key held down. *)
Definition position (c : Z) (t : list Z) : option Z :=
  Z.of_nat <$> (fst <$> list_find (fun x => x = c) (take 128 t)).
Definition strokes (c : Z) : list Z :=
  match position c normalmap with
  | Some k => [k; Z.lor k 0x80]
  | None => match position c shiftmap with
            | Some k => [0x2A; k; Z.lor k 0x80; 0xAA]
            | None => []
            end
  end.
Definition printable (c : Z) : Prop := 32 <= c < 127.

(** The keys pressed for the other characters of [kbdgetc] give 0. *)
Definition pressed (cs : list Z) : list Z := filter (fun c => c <> 0) cs.

Lemma kbd_keys_app shift d1 d2 :
  kbd_keys shift (d1 ++ d2) =
  (fst (kbd_keys shift d1) ++ fst (kbd_keys (snd (kbd_keys shift d1)) d2), snd (kbd_keys (snd (kbd_keys shift d1)) d2)).
Proof.
  revert shift. induction d1 as [|d d1 IH]; intros shift; cbn [app kbd_keys]; [apply surjective_pairing|].
  destruct (kbdgetc shift (Some d)) as [c s1]. rewrite IH. destruct (kbd_keys s1 d1) as [c1 s2]. cbn [fst snd]. by destruct (kbd_keys s2 d2).
Qed.

Lemma stroke_spec c :
  printable c \/ c = 10 ->
  Forall is_key (fst (kbd_keys 0 (strokes c))) /\ pressed (fst (kbd_keys 0 (strokes c))) = [c] /\ snd (kbd_keys 0 (strokes c)) = 0.
Proof.
  intros H. assert (F : Forall (fun n => Forall (fun c => 0 <= c < 256) (fst (kbd_keys 0 (strokes (Z.of_nat n)))) /\
    pressed (fst (kbd_keys 0 (strokes (Z.of_nat n)))) = [Z.of_nat n] /\ snd (kbd_keys 0 (strokes (Z.of_nat n))) = 0) (10%nat :: seq 32 95)).
  { apply (bool_decide_unpack _). vm_compute. exact I. }
  rewrite <- (Z2Nat.id c) by (unfold printable in H; lia). apply (proj1 (Forall_forall _ _) F). apply elem_of_cons.
  destruct H as [H| ->]; [right; apply elem_of_seq; unfold printable in H; lia|by left].
Qed.

Lemma text_keys text :
  Forall (fun c => printable c \/ c = 10) text ->
  Forall is_key (fst (kbd_keys 0 (mjoin (strokes <$> text)))) /\ pressed (fst (kbd_keys 0 (mjoin (strokes <$> text)))) = text /\
  snd (kbd_keys 0 (mjoin (strokes <$> text))) = 0.
Proof.
  induction 1 as [|c text Hc _ IH]; [done|]. destruct (stroke_spec c Hc) as (S1 & S2 & S3). destruct IH as (I1 & I2 & I3).
  change (mjoin (strokes <$> c :: text)) with (strokes c ++ mjoin (strokes <$> text)). rewrite kbd_keys_app, S3. cbn [fst snd].
  split_and!; [by apply Forall_app|unfold pressed in *; by rewrite filter_app, S2, I2|done].
Qed.

Lemma type_pressed keys : forall l,
  foldl (fun l c => type_key c l) l keys = foldl (fun l c => type_key c l) l (pressed keys).
Proof.
  induction keys as [|c keys IH]; intros l; [done|]. cbn [foldl]. unfold pressed. rewrite filter_cons. destruct (decide (c <> 0)) as [|H].
  - cbn [foldl]. apply IH.
  - destruct (decide (c = 0)) as [->|]; [|by destruct H]. fold (pressed keys). rewrite <- IH. by destruct l.
Qed.

Lemma type_printable c rd ed :
  printable c -> Z.of_nat (length (rd ++ ed)) + 1 < INPUT_BUF -> type_key c (rd, ed) = (rd, ed ++ [c]).
Proof.
  unfold printable. intros Hc Hl. unfold type_key, Ctrl. repeat rewrite (proj2 (Z.eqb_neq c _)) by lia. cbn [orb].
  rewrite (proj2 (Z.leb_gt _ _)) by lia. repeat rewrite (proj2 (Z.eqb_neq c _)) by lia. cbn [orb].
  rewrite (proj2 (Z.eqb_neq _ _)); [done|]. rewrite app_assoc, length_app. cbn [length]. lia.
Qed.

Lemma type_text text : forall rd ed,
  Forall printable text -> Z.of_nat (length (rd ++ ed ++ text)) < INPUT_BUF ->
  foldl (fun l c => type_key c l) (rd, ed) text = (rd, ed ++ text).
Proof.
  induction text as [|c text IH]; intros rd ed Ht Hl; cbn [foldl]; [by rewrite app_nil_r|]. apply Forall_cons in Ht as [Hc Ht].
  assert (Hlen : length (rd ++ ed ++ c :: text) = S (length (rd ++ ed) + length text)) by (rewrite app_assoc, length_app; cbn; lia).
  rewrite type_printable, IH; [by rewrite <- app_assoc|done| |done|lia].
  rewrite <- app_assoc. cbn [app]. done.
Qed.

Lemma pressed_existsb k keys : k <> 0 -> existsb (Z.eqb k) keys = existsb (Z.eqb k) (pressed keys).
Proof.
  intros Hk. induction keys as [|c keys IH]; [done|]. unfold pressed. rewrite filter_cons. fold (pressed keys). cbn [existsb].
  rewrite IH. destruct (decide (c <> 0)) as [|H]; [done|]. rewrite (proj2 (Z.eqb_neq k c)); [done|]. intros ->. by destruct H.
Qed.

(** From the keyboard to the reader: for a line of printable characters, pressing and
    releasing its keys, with the shift key for those that need it, and then enter, makes
    exactly that line readable on an empty console; all keys are up again at the end. *)
Theorem keyboard_line i text s :
  idle i s -> lines s = ([], []) -> Forall printable text -> Z.of_nat (length text) < INPUT_BUF ->
  exists s', kbdintr 0 (mjoin (strokes <$> text ++ [10])) s = Ret (false, 0) s' /\ idle i s' /\ lines s' = (text ++ [10], []).
Proof.
  intros Hi Hl Ht Hlen. destruct (text_keys (text ++ [10])) as (K1 & K2 & K3).
  { apply Forall_app. split; [|by repeat constructor; right]. eapply Forall_impl; [exact Ht|]. by left. }
  unfold kbdintr. destruct (kbd_keys 0 _) as [cs sh]. cbn [fst snd] in *. subst sh.
  destruct (consoleintr_spec i cs s Hi K1) as (s' & E & Hi' & El & _). step E. exists s'. split_and!; [|done|].
  - unfold ret. do 2 f_equal. rewrite pressed_existsb, K2 by done. apply not_true_is_false. rewrite existsb_exists. intros (x & Hx & E16).
    apply Z.eqb_eq in E16 as <-. apply list_elem_of_In, elem_of_app in Hx as [Hx|Hx]; [|by apply list_elem_of_singleton in Hx].
    apply (proj1 (Forall_forall _ _) Ht) in Hx. unfold printable, Ctrl in Hx. lia.
  - rewrite El, type_pressed, K2, Hl, foldl_app, type_text by done. cbn [foldl app type_key]. unfold type_key. cbn [Z.eqb Ctrl orb].
    rewrite (proj2 (Z.leb_gt _ _)) by done. done.
Qed.

(** [Hi!] and enter. *)
Lemma keyboard_line_witness :
  exists s', kbdintr 0 [0x2A; 0x23; 0xA3; 0xAA; 0x17; 0x97; 0x2A; 0x02; 0x82; 0xAA; 0x1C; 0x9C] (ConsoleProps.Example.con0 (Sleeplock 0 0)) = Ret (false, 0) s' /\
    lines s' = ([72; 105; 33; 10], []).
Proof.
  destruct (keyboard_line 0 [72; 105; 33] (ConsoleProps.Example.con0 (Sleeplock 0 0))) as (s' & E & _ & H).
  - split; [apply ConsoleProps.Example.con0_device|apply not_elem_of_nil|apply not_elem_of_nil|apply ConsoleProps.Example.con0_ok].
  - reflexivity.
  - repeat constructor; done.
  - reflexivity.
  - exists s'. split; [exact E|exact H].
Defined.

(** The home key, 0xE0 0x47, is looked up at 0xC7; its code is at 0x97. *)
Lemma home_key_ignored : fst (kbd_keys 0 [0xE0; 0x47]) = [0; 0] /\ entry normalmap 0x97 = KEY_HOME.
Proof. by vm_compute. Qed.
