(* ===== verification/Umalloc.v ===== *)
(** * umalloc.c: the allocator of the user library

    The free blocks form a circular list, in the order of their addresses, through the
    headers at their starts; [base] is a block of size 0 that is always in it.  The state
    is the headers in memory, by address, with [freep] and the end of the memory of the
    process.  A size counts units of the size of a header.  [sbrk] is the system call: it
    maps the request and the end of memory to its result and the new end. *)

From S2P Require Import Prelude Mmu.

Definition SIZE : Z := 8.    (* sizeof(Header) *)

Record header := Header { h_ptr : Z; h_size : Z }.
Record heap := Heap { h_mem : gmap Z header; h_freep : Z; h_brk : Z }.
Definition set_mem v s := Heap v (h_freep s) (h_brk s).
Definition set_freep v s := Heap (h_mem s) v (h_brk s).
Definition set_brk v s := Heap (h_mem s) (h_freep s) v.

(** [p + n] for a [Header *p]. *)
Definition padd (p n : Z) : Z := u32 (p + SIZE * n).

Definition get (p : Z) : M heap header := fun s =>
  match h_mem s !! p with Some h => Ret h s | None => UB "header" end.
(** A store to memory that has not been used as a header before makes a header of it;
    its other field has whatever the memory held, for which [0] stands. *)
Definition upd (p : Z) (f : header -> header) : M heap unit :=
  modify (fun s => set_mem (<[p := f (default (Header 0 0) (h_mem s !! p))]> (h_mem s)) s).
Definition set_ptr v h := Header v (h_size h).
Definition set_size v h := Header (h_ptr h) v.

Section Umalloc.
Context (base : Z) (sbrk : Z -> Z -> Z * Z).

(** The search of [free] for the place of [bp]. *)
Fixpoint find_place (fuel : nat) (bp p : Z) : M heap Z :=
  match fuel with
  | O => ub "free"
  | S fuel =>
    h <- get p ;;
    if (p <? bp) && (bp <? h_ptr h) then ret p
    else if (h_ptr h <=? p) && ((p <? bp) || (bp <? h_ptr h)) then ret p
    else find_place fuel bp (h_ptr h)
  end.

(** The list has no more nodes than there are headers. *)
Definition list_fuel (s : heap) : nat := S (size (h_mem s)).

Definition free (ap : Z) : M heap unit :=
  let bp := ap - SIZE in
  fuel <- gets list_fuel ;;
  freep <- gets h_freep ;;
  p <- find_place fuel bp freep ;;
  hb <- get bp ;;
  hp <- get p ;;
  (if padd bp (h_size hb) =? h_ptr hp then
     hn <- get (h_ptr hp) ;;
     upd bp (set_size (u32 (h_size hb + h_size hn))) ;;;
     hn <- get (h_ptr hp) ;;
     upd bp (set_ptr (h_ptr hn))
   else upd bp (set_ptr (h_ptr hp))) ;;;
  hp <- get p ;;
  (if padd p (h_size hp) =? bp then
     hb <- get bp ;;
     upd p (set_size (u32 (h_size hp + h_size hb))) ;;;
     hb <- get bp ;;
     upd p (set_ptr (h_ptr hb))
   else upd p (set_ptr bp)) ;;;
  modify (set_freep p).

Definition morecore (nu : Z) : M heap Z :=
  let nu := if nu <? 4096 then 4096 else nu in
  brk <- gets h_brk ;;
  let '(p, brk') := sbrk (s32 (u32 (nu * SIZE))) brk in
  modify (set_brk brk') ;;;
  if p =? -1 then ret 0 else
  upd p (set_size nu) ;;;
  free (p + SIZE) ;;;
  gets h_freep.

Definition nunits (nbytes : Z) : Z := u32 (nbytes + SIZE - 1) / SIZE + 1.

(** What is done with a block that is large enough. *)
Definition take_block (prevp p nu : Z) : M heap Z :=
  h <- get p ;;
  r <- (if h_size h =? nu then
          upd prevp (set_ptr (h_ptr h)) ;;;
          ret p
        else
          upd p (set_size (u32 (h_size h - nu))) ;;;
          let q := padd p (u32 (h_size h - nu)) in
          upd q (set_size nu) ;;;
          ret q) ;;
  modify (set_freep prevp) ;;;
  ret (r + SIZE).

Fixpoint malloc_loop (fuel : nat) (nu prevp p : Z) : M heap Z :=
  match fuel with
  | O => ub "malloc"
  | S fuel =>
    h <- get p ;;
    if nu <=? h_size h then take_block prevp p nu else
    freep <- gets h_freep ;;
    if p =? freep then
      p <- morecore nu ;;
      if p =? 0 then ret 0 else
      h <- get p ;;
      malloc_loop fuel nu p (h_ptr h)
    else malloc_loop fuel nu p (h_ptr h)
  end.

(** The list is walked at most twice, the second time with one more block. *)
Definition malloc (nbytes : Z) : M heap Z :=
  let nu := nunits nbytes in
  freep <- gets h_freep ;;
  prevp <- (if freep =? 0 then
              upd base (set_ptr base) ;;;
              modify (set_freep base) ;;;
              upd base (set_size 0) ;;;
              ret base
            else ret freep) ;;
  h <- get prevp ;;
  fuel <- gets list_fuel ;;
  malloc_loop (2 * fuel + 2) nu prevp (h_ptr h).
End Umalloc.
