(* ===== verification/UmallocProps.v ===== *)
(** * The allocator: blocks that do not overlap

    The free list against the list of its blocks in the order of their addresses.  The
    blocks the program holds are given by a map from the address of a block to its size;
    they and the free blocks are disjoint and make up all the memory the allocator has
    obtained. *)

From stdpp Require Import sorting.
From S2P Require Import Prelude Mmu Umalloc.

Abbreviation block := (Z * Z)%type.

(** ** Linked headers *)

Definition first (l : list block) (q : Z) : Z := match l with [] => q | b :: _ => fst b end.
(** The headers of the blocks [l] point to one another in turn, the last one to [q]. *)
Fixpoint links (m : gmap Z header) (l : list block) (q : Z) : Prop :=
  match l with
  | [] => True
  | b :: r => m !! fst b = Some (Header (first r q) (snd b)) /\ links m r q
  end.

Lemma links_app m l1 l2 q : links m (l1 ++ l2) q <-> links m l1 (first l2 q) /\ links m l2 q.
Proof.
  induction l1 as [|b l1 IH]; cbn [app links]; [tauto|]. rewrite IH. destruct l1; cbn [app first]; tauto.
Qed.

Lemma links_frame m m' l q : links m l q -> (forall a, a ∈ l.*1 -> m' !! a = m !! a) -> links m' l q.
Proof.
  induction l as [|b l IH]; cbn [links]; [done|]. intros [H1 H2] Hm. split.
  - rewrite Hm; [done|left].
  - apply IH; [done|]. intros a Ha. apply Hm. by right.
Qed.

Lemma links_lookup m l q a n : links m l q -> (a, n) ∈ l -> exists p, m !! a = Some (Header p n).
Proof.
  intros Hl (l1 & l2 & ->)%list_elem_of_split. apply links_app in Hl as [_ [H _]]. eauto.
Qed.

(** Blocks in the order of their addresses, with a gap between any two. *)
Definition below (b c : block) : Prop := fst b + SIZE * snd b < fst c.
Definition sizes_ok (l : list block) : Prop := Forall (fun b => 0 <= snd b) l.
(** The addresses in the blocks. *)
Definition within (l : list block) (x : Z) : Prop := exists b, b ∈ l /\ fst b <= x < fst b + SIZE * snd b.

Lemma within_app l1 l2 x : within (l1 ++ l2) x <-> within l1 x \/ within l2 x.
Proof. unfold within. setoid_rewrite elem_of_app. naive_solver. Qed.
Lemma within_cons b l x : within (b :: l) x <-> fst b <= x < fst b + SIZE * snd b \/ within l x.
Proof. unfold within. setoid_rewrite elem_of_cons. naive_solver. Qed.
Lemma within_nil x : ~ within [] x.
Proof. intros (b & Hb & _). by apply elem_of_nil in Hb. Qed.

Lemma sorted_split l1 b l2 :
  StronglySorted below (l1 ++ b :: l2) <->
  StronglySorted below l1 /\ StronglySorted below l2 /\ (forall x, x ∈ l1 -> below x b) /\ (forall x, x ∈ l2 -> below b x) /\
  (forall x y, x ∈ l1 -> y ∈ l2 -> below x y).
Proof.
  rewrite StronglySorted_app. setoid_rewrite elem_of_cons. split.
  - intros (H1 & H2 & H3). apply StronglySorted_inv in H3 as [H3 H4]. rewrite Forall_forall in H4. naive_solver.
  - intros (H1 & H2 & H3 & H4 & H5). split_and!; [naive_solver|done|]. constructor; [done|]. by apply Forall_forall.
Qed.

Lemma sorted_nodup l : sizes_ok l -> StronglySorted below l -> NoDup l.*1.
Proof.
  intros Hs H. induction H as [|b l H IH Hb]; cbn; [constructor|]. apply Forall_cons in Hs as [Hb0 Hs]. constructor; [|by apply IH].
  rewrite list_elem_of_fmap. intros (c & E & Hc). apply (proj1 (Forall_forall _ _) Hb) in Hc. unfold below, SIZE in Hc. lia.
Qed.

Lemma links_size m l q : links m l q -> NoDup l.*1 -> (length l <= size m)%nat.
Proof.
  intros Hl Hn. assert (E : length l = size (list_to_set l.*1 : gset Z)) by (rewrite size_list_to_set by done; by rewrite length_fmap).
  rewrite E, <- (size_dom (D := gset Z)). apply subseteq_size. intros a Ha. apply elem_of_list_to_set, list_elem_of_fmap in Ha as ([a' n] & -> & Ha).
  destruct (links_lookup _ _ _ _ _ Hl Ha) as [p Ep]. by apply elem_of_dom_2 in Ep.
Qed.

Section Umalloc.
Context (base : Z).

(** ** The invariant *)

Definition in_use (used : gmap Z Z) (x : Z) : Prop := exists a n, used !! a = Some n /\ a <= x < a + SIZE * n.

(** The free list is [nodes], the program holds [used], and the allocator has obtained
    the addresses in [owned]. *)
Record heap_ok (nodes : list block) (used : gmap Z Z) (owned : Z -> Prop) (s : heap) : Prop := {
  ho_nodes : exists l, nodes = (base, 0) :: l /\ Forall (fun b => 1 <= snd b) l;
  ho_links : links (h_mem s) nodes base;
  ho_sorted : StronglySorted below nodes;
  ho_freep : h_freep s ∈ nodes.*1;
  ho_used : forall a n, used !! a = Some n -> 1 <= n /\ exists p, h_mem s !! a = Some (Header p n);
  ho_disjoint : forall a n a' n', used !! a = Some n -> used !! a' = Some n' -> a = a' \/ a + SIZE * n <= a' \/ a' + SIZE * n' <= a;
  ho_split : forall a n b, used !! a = Some n -> b ∈ nodes -> a + SIZE * n <= fst b \/ fst b + SIZE * snd b <= a;
  ho_owned : forall x, owned x <-> within nodes x \/ in_use used x;
  ho_bounds : forall x, owned x -> base + SIZE <= x < h_brk s;
  ho_brk : 0 < base /\ base + SIZE <= h_brk s <= KERNBASE
}.

Lemma nodes_sizes nodes used owned s : heap_ok nodes used owned s -> sizes_ok nodes.
Proof.
  intros [(l & -> & Hl) _ _ _ _ _ _ _ _ _]. constructor; [done|]. eapply Forall_impl; [exact Hl|]. cbn. lia.
Qed.

Lemma nodes_nodup nodes used owned s : heap_ok nodes used owned s -> NoDup nodes.*1.
Proof. intros H. apply sorted_nodup; [by eapply nodes_sizes|apply H]. Qed.

Lemma used_bounds nodes used owned s a n :
  heap_ok nodes used owned s -> used !! a = Some n -> 1 <= n /\ base + SIZE <= a /\ a + SIZE * n <= h_brk s.
Proof.
  intros [_ _ _ _ Hu _ _ Ho Hb _] H. destruct (Hu a n H) as [Hn _]. unfold SIZE in *.
  assert (H1 : owned a) by (apply Ho; right; exists a, n; unfold SIZE; split; [done|lia]).
  assert (H2 : owned (a + 8 * n - 1)) by (apply Ho; right; exists a, n; unfold SIZE; split; [done|lia]).
  apply Hb in H1, H2. lia.
Qed.

Lemma node_bounds nodes used owned s b :
  heap_ok nodes used owned s -> b ∈ nodes -> 0 <= snd b /\ base <= fst b /\ fst b + SIZE * snd b <= h_brk s /\ (b = (base, 0) \/ 1 <= snd b /\ base + SIZE <= fst b).
Proof.
  intros [(l & -> & Hl) _ _ _ _ _ _ Ho Hb Hk] [->|Hin]%elem_of_cons; unfold SIZE in *; cbn; [split_and!; try lia; by left|].
  pose proof (proj1 (Forall_forall _ _) Hl b Hin) as Hn. cbn in Hn.
  assert (H1 : owned (fst b)) by (apply Ho; left; exists b; unfold SIZE; split; [by right|lia]).
  assert (H2 : owned (fst b + 8 * snd b - 1)) by (apply Ho; left; exists b; unfold SIZE; split; [by right|lia]).
  apply Hb in H1, H2. lia.
Qed.

(** ** [free] *)

Lemma get_eq a h s : h_mem s !! a = Some h -> get a s = Ret h s.
Proof. intros H. unfold get. by rewrite H. Qed.
Lemma update_eq a f h s : h_mem s !! a = Some h -> upd a f s = Ret tt (set_mem (<[a := f h]> (h_mem s)) s).
Proof. intros H. unfold upd, modify. by rewrite H. Qed.

(** The node after which [bp] belongs. *)
Definition place (bp : Z) (b : block) (post : list block) : Prop := fst b < bp /\ Forall (fun c => bp < fst c) post.

Lemma place_exists bp l : sizes_ok l -> StronglySorted below l -> bp ∉ l.*1 -> forall b, fst b < bp -> StronglySorted below (b :: l) ->
  exists pre c post, b :: l = pre ++ c :: post /\ place bp c post.
Proof.
  induction l as [|c l IH]; intros Hs Hl Hn b Hb Hbl; [exists [], b, []; split; [done|]; split; [done|constructor]|].
  apply Forall_cons in Hs as [Hc Hs]. apply StronglySorted_inv in Hl as [Hl Hcl]. cbn in Hn. apply not_elem_of_cons in Hn as [Hne Hn].
  destruct (Z.lt_ge_cases (fst c) bp) as [Hlt|Hge].
  - destruct (IH Hs Hl Hn c Hlt) as (pre & d & post & E & Hp); [by constructor|]. exists (b :: pre), d, post. split; [exact (f_equal (cons b) E)|done].
  - exists [], b, (c :: l). split; [done|]. split; [done|]. constructor; [lia|]. eapply Forall_impl; [exact Hcl|]. unfold below, SIZE. cbn. intros d Hd. lia.
Qed.

Section Find.
Context (bp : Z) (pre : list block) (c : block) (post : list block) (s : heap).
Context (Hlinks : links (h_mem s) (pre ++ c :: post) base) (Hsorted : StronglySorted below (pre ++ c :: post)).
Context (Hsizes : sizes_ok (pre ++ c :: post)) (Hplace : place bp c post) (Hfirst : first (pre ++ [c]) 0 = base).

Lemma base_le b : b ∈ pre ++ c :: post -> base <= fst b.
Proof using Hlinks Hsizes Hsorted Hfirst.
  intros Hb. destruct pre as [|d pre']; cbn in Hfirst, Hb |- *; rewrite <- Hfirst.
  - apply elem_of_cons in Hb as [->|Hb]; [lia|]. apply StronglySorted_inv in Hsorted as [_ H]. apply (proj1 (Forall_forall _ _) H) in Hb.
    apply Forall_cons in Hsizes as [H0 _]. unfold below, SIZE in Hb. lia.
  - apply elem_of_cons in Hb as [->|Hb]; [lia|]. apply StronglySorted_inv in Hsorted as [_ H]. apply (proj1 (Forall_forall _ _) H) in Hb.
    apply Forall_cons in Hsizes as [H0 _]. unfold below, SIZE in Hb. lia.
Qed.

Lemma find_here fuel : find_place (S fuel) bp (fst c) s = Ret (fst c) s.
Proof using Hlinks Hsizes Hsorted Hfirst Hplace.
  assert (Hc0 : base <= fst c) by (apply base_le, elem_of_app; right; left). pose proof Hlinks as L.
  apply links_app in L as [_ [Hc _]]. destruct Hplace as [Hlt Hpost]. cbn [find_place]. step (get_eq _ _ _ Hc). cbn [h_ptr].
  rewrite (proj2 (Z.ltb_lt _ _) Hlt). cbn [andb orb]. destruct post as [|d post']; cbn [first].
  - rewrite (proj2 (Z.leb_le base (fst c))) by done. by destruct (_ <? _).
  - apply Forall_cons in Hpost as [Hd _]. by rewrite (proj2 (Z.ltb_lt _ _) Hd).
Qed.

Lemma find_before mid : forall pre1 b fuel,
  pre = pre1 ++ b :: mid -> (length mid + 2 <= fuel)%nat -> find_place fuel bp (fst b) s = Ret (fst c) s.
Proof using Hlinks Hsizes Hsorted Hfirst Hplace.
  induction mid as [|d mid IH]; intros pre1 b fuel Hpre Hf; (destruct fuel as [|fuel]; [cbn in Hf; lia|]).
  - pose proof Hlinks as L. rewrite Hpre, <- app_assoc in L. apply links_app in L as [_ [Hb _]]. cbn [app first] in Hb.
    cbn [find_place]. step (get_eq _ _ _ Hb). cbn [h_ptr]. destruct Hplace as [Hlt _].
    assert (Hbc : below b c).
    { apply sorted_split in Hsorted as (_ & _ & H & _). apply H. rewrite Hpre. apply elem_of_app. right. left. }
    assert (Hs0 : 0 <= snd b).
    { apply (proj1 (Forall_forall _ _) Hsizes b). rewrite Hpre, !elem_of_app. left. right. left. }
    unfold below, SIZE in Hbc. rewrite (proj2 (Z.ltb_ge bp (fst c))) by lia. rewrite andb_false_r.
    rewrite (proj2 (Z.leb_gt (fst c) (fst b))) by lia. cbn [andb]. destruct fuel as [|fuel]; [cbn in Hf; lia|]. apply find_here.
  - pose proof Hlinks as L. rewrite Hpre, <- app_assoc in L. apply links_app in L as [_ [Hb _]]. cbn [app first] in Hb.
    cbn [find_place]. step (get_eq _ _ _ Hb). cbn [h_ptr].
    assert (Hdc : below d c) by (apply sorted_split in Hsorted as (_ & _ & H & _); apply H; rewrite Hpre; apply elem_of_app; right; right; left).
    assert (Hbd : below b d).
    { apply sorted_split in Hsorted as (H & _). rewrite Hpre in H. apply sorted_split in H as (_ & _ & _ & H & _). apply H. left. }
    assert (Hs0 : 0 <= snd b /\ 0 <= snd d).
    { split; apply (proj1 (Forall_forall _ _) Hsizes); rewrite Hpre, !elem_of_app; left; right; [left|right; left]. }
    destruct Hplace as [Hlt _]. unfold below, SIZE in Hdc, Hbd. rewrite (proj2 (Z.ltb_ge bp (fst d))) by lia. rewrite andb_false_r.
    rewrite (proj2 (Z.leb_gt (fst d) (fst b))) by lia. cbn [andb]. apply (IH (pre1 ++ [b]) d); [by rewrite <- app_assoc|cbn in Hf; lia].
Qed.

Lemma find_from_base fuel : (length pre + 2 <= fuel)%nat -> find_place fuel bp base s = Ret (fst c) s.
Proof using Hlinks Hsizes Hsorted Hfirst Hplace.
  intros Hf. assert (Hcase : pre = [] \/ exists b pre', pre = [] ++ b :: pre') by (destruct pre as [|b pre']; [by left|right; by exists b, pre']).
  destruct Hcase as [E|(b & pre' & E)]; pose proof Hfirst as F; rewrite E in F, Hf; cbn in F, Hf; rewrite <- F.
  - destruct fuel as [|fuel]; [lia|]. apply find_here.
  - eapply find_before; [exact E|lia].
Qed.

Lemma find_after mid : forall post1 b fuel,
  post = post1 ++ b :: mid -> (length mid + length pre + 3 <= fuel)%nat -> find_place fuel bp (fst b) s = Ret (fst c) s.
Proof using Hlinks Hsizes Hsorted Hfirst Hplace.
  induction mid as [|d mid IH]; intros post1 b fuel Hpost Hf; (destruct fuel as [|fuel]; [lia|]).
  - pose proof Hlinks as L. apply links_app in L as [_ [_ L]]. rewrite Hpost in L. apply links_app in L as [_ [Hb _]]. cbn [first] in Hb.
    destruct Hplace as [Hlt Hgt]. assert (Hbb : bp < fst b) by (apply (proj1 (Forall_forall _ _) Hgt); rewrite Hpost; apply elem_of_app; right; left).
    assert (Hc : base <= fst c) by (apply base_le, elem_of_app; right; left).
    cbn [find_place]. step (get_eq _ _ _ Hb). cbn [h_ptr]. rewrite (proj2 (Z.ltb_ge (fst b) bp)), (proj2 (Z.ltb_ge bp base)) by lia.
    cbn [andb orb]. rewrite andb_false_r. apply find_from_base. cbn in Hf. lia.
  - pose proof Hlinks as L. apply links_app in L as [_ [_ L]]. rewrite Hpost in L. apply links_app in L as [_ [Hb _]]. cbn [first] in Hb.
    destruct Hplace as [Hlt Hgt]. assert (Hbb : bp < fst b) by (apply (proj1 (Forall_forall _ _) Hgt); rewrite Hpost; apply elem_of_app; right; left).
    assert (Hbd : below b d).
    { apply sorted_split in Hsorted as (_ & H & _). rewrite Hpost in H. apply sorted_split in H as (_ & _ & _ & H & _). apply H. left. }
    assert (Hs0 : 0 <= snd b).
    { apply (proj1 (Forall_forall _ _) Hsizes). apply elem_of_app. right. right. rewrite Hpost. apply elem_of_app. right. left. }
    unfold below, SIZE in Hbd. cbn [find_place]. step (get_eq _ _ _ Hb). cbn [h_ptr]. rewrite (proj2 (Z.ltb_ge (fst b) bp)) by lia.
    rewrite (proj2 (Z.leb_gt (fst d) (fst b))) by lia. cbn [andb]. apply (IH (post1 ++ [b]) d); [by rewrite <- app_assoc|cbn in Hf; lia].
Qed.

Lemma find_place_spec p fuel :
  p ∈ (pre ++ c :: post).*1 -> (length (pre ++ c :: post) + 2 <= fuel)%nat -> find_place fuel bp p s = Ret (fst c) s.
Proof using Hlinks Hsizes Hsorted Hfirst Hplace.
  intros (b & -> & Hb)%list_elem_of_fmap Hf. rewrite length_app in Hf. cbn [length] in Hf. rewrite elem_of_app, elem_of_cons in Hb. destruct Hb as [Hb|[->|Hb]].
  - apply list_elem_of_split in Hb as (l1 & l2 & E). eapply find_before; [exact E|]. rewrite E, length_app in Hf. cbn in Hf. lia.
  - destruct fuel as [|fuel]; [lia|]. apply find_here.
  - apply list_elem_of_split in Hb as (l1 & l2 & E). eapply find_after; [exact E|]. rewrite E, length_app in Hf. cbn in Hf. lia.
Qed.
End Find.

(** The block [bp] of [nb] units with the free blocks after it: joined with the next one
    when they touch.  The result is the block [bp] of [nm] units before [rest]. *)
Record joins (bp nb : Z) (post : list block) (nm : Z) (rest : list block) : Prop := {
  jn_size : nb <= nm;
  jn_rest : forall d, d ∈ rest -> d ∈ post /\ bp + SIZE * nm < fst d;
  jn_tail : exists l, post = l ++ rest;
  jn_within : forall x, within rest x \/ bp <= x < bp + SIZE * nm <-> within post x \/ bp <= x < bp + SIZE * nb;
  jn_end : bp + SIZE * nm = bp + SIZE * nb \/ exists d, d ∈ post /\ fst d = bp + SIZE * nb /\ bp + SIZE * nm = fst d + SIZE * snd d
}.

Lemma join_next bp nb p h post s :
  1 <= nb -> 0 <= bp -> bp + SIZE * nb < 2 ^ 32 -> (0 < base < bp) -> h_mem s !! bp = Some (Header p nb) ->
  h_ptr h = first post base -> links (h_mem s) post base -> StronglySorted below post -> bp ∉ post.*1 ->
  (forall d, d ∈ post -> bp + SIZE * nb <= fst d /\ 1 <= snd d /\ fst d + SIZE * snd d < 2 ^ 32) ->
  exists nm rest s1,
    (if padd bp nb =? h_ptr h then
       hn <- get (h_ptr h) ;; upd bp (set_size (u32 (nb + h_size hn))) ;;; hn <- get (h_ptr h) ;; upd bp (set_ptr (h_ptr hn))
     else upd bp (set_ptr (h_ptr h))) s = Ret tt s1 /\
    s1 = set_mem (<[bp := Header (first rest base) nm]> (h_mem s)) s /\ joins bp nb post nm rest.
Proof.
  intros Hnb Hbp0 Hmax Hbase Hb Hh Hl Hs Hn Hpost. unfold padd. rewrite u32_id by (unfold SIZE in *; lia). rewrite Hh.
  destruct (Z.eqb_spec (bp + SIZE * nb) (first post base)) as [E|Hne].
  - destruct post as [|[c nc] rest]; [cbn in E; unfold SIZE in *; lia|]. cbn [first fst] in *. destruct Hl as [Hc Hl]. cbn [fst snd] in Hc.
    apply StronglySorted_inv in Hs as [Hs Hcs]. destruct (Hpost (c, nc)) as (P1 & P2 & P3); [left|]. cbn [fst snd] in *.
    step (get_eq _ _ _ Hc). cbn [h_size]. rewrite u32_id by (unfold SIZE in *; lia). step (update_eq _ (set_size (nb + nc)) _ _ Hb).
    assert (Hcb : c <> bp) by (unfold SIZE in *; lia). set (s1 := set_mem _ s).
    assert (Hc1 : h_mem s1 !! c = Some (Header (first rest base) nc)) by (cbn; by rewrite lookup_insert_ne).
    assert (Hb1 : h_mem s1 !! bp = Some (Header p (nb + nc))) by (cbn; by rewrite lookup_insert_eq).
    step (get_eq _ _ _ Hc1). rewrite (update_eq _ _ _ _ Hb1). cbn [h_ptr].
    exists (nb + nc), rest. eexists. split; [reflexivity|]. split; [unfold s1; cbn; by rewrite insert_insert_eq|]. split.
    + lia.
    + intros d Hd. split; [by right|]. apply (proj1 (Forall_forall _ _) Hcs) in Hd. unfold below in Hd. cbn in Hd. unfold SIZE in *. lia.
    + by exists [(c, nc)].
    + intros x. rewrite within_cons. cbn [fst snd].
      assert (Hx : bp <= x < bp + SIZE * (nb + nc) <-> c <= x < c + SIZE * nc \/ bp <= x < bp + SIZE * nb) by (unfold SIZE in *; lia). tauto.
    + right. exists (c, nc). split; [left|]. cbn. unfold SIZE in *. lia.
  - rewrite (update_eq _ _ _ _ Hb). exists nb, post. eexists. split; [reflexivity|]. split; [done|]. split; try done; try (by left); try lia.
    + intros d Hd. split; [done|]. destruct post as [|e post]; [by apply elem_of_nil in Hd|]. cbn [first] in Hne.
      destruct (Hpost e) as (P1 & P2 & _); [left|]. apply elem_of_cons in Hd as [->|Hd]; [lia|].
      apply StronglySorted_inv in Hs as [_ Hs]. apply (proj1 (Forall_forall _ _) Hs) in Hd. unfold below, SIZE in *. lia.
    + by exists [].
Qed.

(** The same with the free block [c] before it: the blocks [mid]. *)
Definition joined (c nc bp nm : Z) (mid : list block) : Prop :=
  mid = [(c, nc + nm)] /\ c + SIZE * nc = bp \/ mid = [(c, nc); (bp, nm)] /\ c + SIZE * nc < bp.

Lemma join_prev c nc q bp nm rest s :
  0 <= nc -> 1 <= nm -> 0 <= c -> c < bp -> c + SIZE * nc <= bp -> bp + SIZE * nm < 2 ^ 32 ->
  h_mem s !! c = Some (Header q nc) -> h_mem s !! bp = Some (Header (first rest base) nm) ->
  links (h_mem s) rest base -> c ∉ rest.*1 ->
  exists mid h s2,
    (hp <- get c ;;
     (if padd c (h_size hp) =? bp then
        hb <- get bp ;; upd c (set_size (u32 (h_size hp + h_size hb))) ;;; hb <- get bp ;; upd c (set_ptr (h_ptr hb))
      else upd c (set_ptr bp)) ;;; modify (set_freep c)) s = Ret tt s2 /\
    s2 = set_freep c (set_mem (<[c := h]> (h_mem s)) s) /\ links (h_mem s2) (mid ++ rest) base /\ joined c nc bp nm mid.
Proof.
  intros Hnc Hnm Hc0 Hcb Hle Hmax Hc Hb Hl Hn. unfold SIZE in *. step (get_eq _ _ _ Hc). cbn [h_size]. unfold padd. rewrite u32_id by (unfold SIZE; lia).
  assert (Hfr : forall h, links (<[c := h]> (h_mem s)) rest base).
  { intros h. eapply links_frame; [exact Hl|]. intros a Ha. apply lookup_insert_ne. by intros ->. }
  assert (Hbc : forall h, <[c := h]> (h_mem s) !! bp = Some (Header (first rest base) nm)) by (intros h; rewrite lookup_insert_ne by lia; done).
  destruct (Z.eqb_spec (c + SIZE * nc) bp) as [E|Hne]; unfold SIZE in *.
  - exists [(c, nc + nm)], (Header (first rest base) (nc + nm)). rewrite bind_assoc. step (get_eq _ _ _ Hb). cbn [h_size]. rewrite bind_assoc.
    rewrite u32_id by lia. step (update_eq _ (set_size (nc + nm)) _ _ Hc). set (s1 := set_mem _ s).
    rewrite bind_assoc. step (get_eq _ (Header (first rest base) nm) s1 (Hbc _)).
    assert (Hc1 : h_mem s1 !! c = Some (Header q (nc + nm))) by (cbn; by rewrite lookup_insert_eq). step (update_eq _ (set_ptr (first rest base)) _ _ Hc1).
    eexists. split; [reflexivity|]. split; [unfold s1; cbn; by rewrite insert_insert_eq|]. split; [|by left].
    cbn [app links fst snd h_mem set_mem set_freep s1]. rewrite insert_insert_eq. split; [by rewrite lookup_insert_eq|apply Hfr].
  - exists [(c, nc); (bp, nm)], (Header bp nc). step (update_eq _ (set_ptr bp) _ _ Hc). eexists. split; [reflexivity|]. split; [done|].
    split; [|right; split; [done|unfold SIZE; lia]]. cbn [app links fst snd first h_mem set_mem set_freep]. split_and!; [by rewrite lookup_insert_eq|apply Hbc|apply Hfr].
Qed.

Lemma joined_within c nc bp nm mid x :
  joined c nc bp nm mid -> 0 <= nc -> 0 <= nm -> within mid x <-> c <= x < c + SIZE * nc \/ bp <= x < bp + SIZE * nm.
Proof.
  intros [[-> E]|[-> E]] H1 H2; rewrite !within_cons; cbn [fst snd]; pose proof (within_nil x); [|tauto].
  assert (Hx : c <= x < c + SIZE * (nc + nm) <-> c <= x < c + SIZE * nc \/ bp <= x < bp + SIZE * nm) by (unfold SIZE in *; lia). tauto.
Qed.

Lemma joined_sorted pre c nc bp nm mid rest :
  joined c nc bp nm mid -> 0 <= nc -> 1 <= nm -> StronglySorted below pre -> StronglySorted below rest ->
  (forall x, x ∈ pre -> below x (c, nc)) -> (forall d, d ∈ rest -> bp + SIZE * nm < fst d) -> c < bp -> c + SIZE * nc <= bp ->
  StronglySorted below (pre ++ mid ++ rest).
Proof.
  intros Hj Hnc Hnm Hp Hr Hpc Hrb Hcb Hle. unfold below, SIZE in *. cbn [fst snd] in *.
  assert (Hpr : forall x y, x ∈ pre -> y ∈ rest -> fst x + 8 * snd x < fst y) by (intros x y Hx Hy; specialize (Hpc x Hx); specialize (Hrb y Hy); lia).
  destruct Hj as [[-> E]|[-> E]]; cbn [app]; apply sorted_split; unfold below, SIZE in *; cbn [fst snd] in *.
  - split_and!; try done. intros d Hd. specialize (Hrb d Hd). lia.
  - split_and!; try done.
    + constructor; [done|]. apply Forall_forall. intros d Hd. unfold below, SIZE. cbn. by apply Hrb.
    + intros x [->|Hx]%elem_of_cons; [cbn; lia|]. specialize (Hrb x Hx). lia.
    + intros x y Hx [->|Hy]%elem_of_cons; [specialize (Hpc x Hx); cbn; lia|by apply Hpr].
Qed.

(** Facts about a block in use and its place in the free list. *)
Lemma used_place nodes used owned s bp nb :
  heap_ok nodes used owned s -> used !! bp = Some nb ->
  bp ∉ nodes.*1 /\
  exists pre c nc post, nodes = pre ++ (c, nc) :: post /\ place bp (c, nc) post /\ first (pre ++ [(c, nc)]) 0 = base /\
    c + SIZE * nc <= bp /\ forall d, d ∈ post -> bp + SIZE * nb <= fst d /\ 1 <= snd d.
Proof.
  intros Hok Hu. destruct (used_bounds _ _ _ _ _ _ Hok Hu) as (Hn1 & Hlo & Hhi).
  assert (Hn : bp ∉ nodes.*1).
  { intros (b & -> & Hb)%list_elem_of_fmap. destruct (node_bounds _ _ _ _ _ Hok Hb) as (B1 & B2 & B3 & B4).
    destruct (ho_split _ _ _ _ Hok _ _ _ Hu Hb) as [H|H]; destruct B4 as [->|B4]; cbn in *; unfold SIZE in *; lia. }
  split; [done|]. pose proof (nodes_sizes _ _ _ _ Hok) as Hsz. destruct (ho_nodes _ _ _ _ Hok) as (l & E & Hl).
  pose proof (ho_sorted _ _ _ _ Hok) as Hs. rewrite E in Hs, Hsz, Hn. apply Forall_cons in Hsz as [_ Hsz]. cbn in Hn. apply not_elem_of_cons in Hn as [_ Hn].
  assert (Hsl : StronglySorted below l) by (by apply StronglySorted_inv in Hs as [? _]).
  destruct (place_exists bp l Hsz Hsl Hn (base, 0)) as (pre & [c nc] & post & E2 & Hp); [cbn; unfold SIZE in *; lia|done|].
  exists pre, c, nc, post. rewrite <- E2. destruct Hp as [Hlt Hgt]. cbn [fst] in Hlt. split_and!; [done|done| | |].
  - destruct pre as [|b0 pre]; cbn in E2 |- *; [congruence|by injection E2 as <- _].
  - assert (Hc : (c, nc) ∈ nodes) by (rewrite E, E2; apply elem_of_app; right; left).
    destruct (ho_split _ _ _ _ Hok _ _ _ Hu Hc) as [H|H]; cbn in H; [|done]. unfold SIZE in *. lia.
  - intros d Hd. assert (Hdn : d ∈ nodes) by (rewrite E, E2; apply elem_of_app; right; by right).
    pose proof (proj1 (Forall_forall _ _) Hgt d Hd) as Hbd. cbn in Hbd. destruct (node_bounds _ _ _ _ _ Hok Hdn) as (B1 & B2 & B3 & B4).
    destruct (ho_split _ _ _ _ Hok _ _ _ Hu Hdn) as [H|H]; destruct B4 as [->|B4]; cbn in *; unfold SIZE in *; lia.
Qed.

(** What is left after [free]: the block [bp] of [nb] units was in use, [c] is the free
    block before it, [mid] what the two became, [rest] the free blocks after them. *)
Section Freed.
Context (nodes : list block) (used : gmap Z Z) (owned : Z -> Prop) (s s' : heap) (bp nb c nc nm : Z) (pre post mid rest : list block) (h hb : header).
Context (Hok : heap_ok nodes used owned s) (Hu : used !! bp = Some nb) (Enodes : nodes = pre ++ (c, nc) :: post).
Context (Hcb : c < bp) (Hle : c + SIZE * nc <= bp) (Hpost : forall d, d ∈ post -> bp + SIZE * nb <= fst d /\ 1 <= snd d).
Context (Hjoins : joins bp nb post nm rest) (Hj : joined c nc bp nm mid).
Context (Es' : s' = set_freep c (set_mem (<[c := h]> (<[bp := hb]> (h_mem s))) s)) (Hlk : links (h_mem s') (mid ++ rest) base).

Lemma freed_c : (c, nc) ∈ nodes.
Proof using Enodes. rewrite Enodes. apply elem_of_app. right. left. Qed.
Lemma freed_pre d : d ∈ pre -> d ∈ nodes /\ fst d + SIZE * snd d < c.
Proof using Hok Enodes.
  intros Hd. split; [rewrite Enodes; apply elem_of_app; by left|]. pose proof (ho_sorted _ _ _ _ Hok) as Hs. rewrite Enodes in Hs.
  apply sorted_split in Hs as (_ & _ & H & _). apply (H d Hd).
Qed.
Lemma freed_rest d : d ∈ rest -> d ∈ nodes /\ bp + SIZE * nm < fst d /\ 1 <= snd d.
Proof using Enodes Hjoins Hpost.
  intros Hd. destruct (jn_rest _ _ _ _ _ Hjoins d Hd) as [H1 H2]. split_and!; [|done|by apply Hpost]. rewrite Enodes. apply elem_of_app. right. by right.
Qed.
Lemma freed_sizes : 0 <= nc /\ 1 <= nb <= nm.
Proof using Hok Hu Enodes Hjoins.
  destruct (node_bounds _ _ _ _ _ Hok freed_c) as (H & _). destruct (used_bounds _ _ _ _ _ _ Hok Hu) as (H1 & _).
  pose proof (jn_size _ _ _ _ _ Hjoins). cbn in H. lia.
Qed.
Lemma freed_used a n : delete bp used !! a = Some n -> used !! a = Some n /\ a <> bp.
Proof. intros H. apply lookup_delete_Some in H. naive_solver. Qed.

Lemma freed_nodes : exists l, pre ++ mid ++ rest = (base, 0) :: l /\ Forall (fun b => 1 <= snd b) l.
Proof using All.
  destruct freed_sizes as [Hnc Hnm]. assert (Hrest : Forall (fun b => 1 <= snd b) rest) by (apply Forall_forall; intros d Hd; by apply freed_rest).
  destruct (ho_nodes _ _ _ _ Hok) as (l0 & E0 & Hl0). rewrite Enodes in E0. destruct pre as [|b0 pre'].
  - cbn in E0. injection E0 as -> -> <-. destruct Hj as [[-> Ec]|[-> Ec]]; [unfold SIZE in Ec; lia|]. exists ((bp, nm) :: rest). split; [done|].
    constructor; [cbn; lia|done].
  - injection E0 as -> <-. exists (pre' ++ mid ++ rest). split; [done|]. apply Forall_app in Hl0 as [Hl1 Hl2]. apply Forall_cons in Hl2 as [Hl2 _]. cbn in Hl2.
    apply Forall_app. split; [done|]. apply Forall_app. split; [|done]. destruct Hj as [[-> _]|[-> _]]; repeat constructor; cbn; lia.
Qed.

Lemma freed_links : links (h_mem s') (pre ++ mid ++ rest) base.
Proof using All.
  apply links_app. split; [|done]. assert (Ef : first (mid ++ rest) base = c) by (by destruct Hj as [[-> _]|[-> _]]). rewrite Ef.
  pose proof (ho_links _ _ _ _ Hok) as Hl. rewrite Enodes in Hl. apply links_app in Hl as [Hl _]. cbn [first fst] in Hl.
  eapply links_frame; [exact Hl|]. intros a (d & -> & Hd)%list_elem_of_fmap. rewrite Es'. cbn. destruct (freed_pre d Hd) as [Hdn Hdc].
  destruct (node_bounds _ _ _ _ _ Hok Hdn) as (H0 & _). unfold SIZE in Hdc. by rewrite !lookup_insert_ne by lia.
Qed.

Lemma freed_sorted : StronglySorted below (pre ++ mid ++ rest).
Proof using All.
  destruct freed_sizes as [Hnc Hnm]. pose proof (ho_sorted _ _ _ _ Hok) as Hs. rewrite Enodes in Hs. apply sorted_split in Hs as (Spre & Spost & Sc & _).
  assert (Srest : StronglySorted below rest).
  { destruct (jn_tail _ _ _ _ _ Hjoins) as [l ->]. by apply StronglySorted_app in Spost as (_ & _ & ?). }
  eapply joined_sorted; [exact Hj|..]; try done; [lia|]. intros d Hd. by apply freed_rest.
Qed.

Lemma freed_split a n b : delete bp used !! a = Some n -> b ∈ pre ++ mid ++ rest -> a + SIZE * n <= fst b \/ fst b + SIZE * snd b <= a.
Proof using All.
  intros [Ha Hab]%freed_used Hb. destruct (used_bounds _ _ _ _ _ _ Hok Ha) as (U1 & _).
  pose proof (ho_split _ _ _ _ Hok _ _ (c, nc) Ha freed_c) as X1. cbn in X1. pose proof (ho_disjoint _ _ _ _ Hok _ _ _ _ Ha Hu) as X2.
  assert (X3 : a + SIZE * n <= bp \/ bp + SIZE * nm <= a).
  { destruct (jn_end _ _ _ _ _ Hjoins) as [J|(d & Hd & Ed1 & Ed2)]; [unfold SIZE in *; lia|].
    assert (Hdn : d ∈ nodes) by (rewrite Enodes; apply elem_of_app; right; by right). pose proof (ho_split _ _ _ _ Hok _ _ d Ha Hdn). unfold SIZE in *. lia. }
  rewrite !elem_of_app in Hb. destruct Hb as [Hb|[Hb|Hb]].
  - apply (ho_split _ _ _ _ Hok _ _ _ Ha). by apply freed_pre.
  - destruct Hj as [[-> Ec]|[-> Ec]]; rewrite ?elem_of_cons, elem_of_nil in Hb; destruct_or! Hb; try done; subst b; cbn; unfold SIZE in *; lia.
  - apply (ho_split _ _ _ _ Hok _ _ _ Ha). by apply freed_rest.
Qed.

Lemma freed_owned x : owned x <-> within (pre ++ mid ++ rest) x \/ in_use (delete bp used) x.
Proof using All.
  destruct freed_sizes as [Hnc Hnm]. rewrite (ho_owned _ _ _ _ Hok x), Enodes, !within_app, (joined_within _ _ _ _ _ x Hj), within_cons by lia. cbn [fst snd].
  pose proof (jn_within _ _ _ _ _ Hjoins x). assert (Hux : in_use used x <-> in_use (delete bp used) x \/ bp <= x < bp + SIZE * nb).
  { unfold in_use. split.
    - intros (a & n & Ha & Hx). destruct (decide (a = bp)) as [->|Hab]; [right; rewrite Hu in Ha; injection Ha as <-; done|].
      left. exists a, n. by rewrite lookup_delete_ne.
    - intros [(a & n & Ha & Hx)|Hx]; [exists a, n; split; [by apply freed_used in Ha as [? _]|done]|by exists bp, nb]. }
  tauto.
Qed.

Lemma freed_ok : heap_ok (pre ++ mid ++ rest) (delete bp used) owned s'.
Proof using All.
  split; [exact freed_nodes|exact freed_links|exact freed_sorted| | | |exact freed_split|exact freed_owned| |].
  - rewrite Es'. cbn. rewrite !fmap_app, !elem_of_app. right. left. destruct Hj as [[-> _]|[-> _]]; left.
  - intros a n [Ha Hab]%freed_used. destruct (ho_used _ _ _ _ Hok _ _ Ha) as [Hn2 Hp2]. split; [done|]. rewrite Es'. cbn.
    rewrite !lookup_insert_ne; [done|done|]. intros Eca. apply (used_place _ _ _ _ _ _ Hok Ha). apply list_elem_of_fmap. exists (c, nc). split; [done|apply freed_c].
  - intros a n a' n' [Ha _]%freed_used [Ha' _]%freed_used. by apply (ho_disjoint _ _ _ _ Hok).
  - rewrite Es'. apply (ho_bounds _ _ _ _ Hok).
  - rewrite Es'. apply (ho_brk _ _ _ _ Hok).
Qed.
End Freed.

(** [free] finds the place of a block within its fuel. *)
Lemma free_find nodes used owned s bp nb pre c nc post :
  heap_ok nodes used owned s -> used !! bp = Some nb -> nodes = pre ++ (c, nc) :: post -> place bp (c, nc) post ->
  first (pre ++ [(c, nc)]) 0 = base -> find_place (list_fuel s) bp (h_freep s) s = Ret c s.
Proof.
  intros Hok Hu E Hplace Hfirst. pose proof (ho_links _ _ _ _ Hok) as Hl. pose proof (nodes_nodup _ _ _ _ Hok) as Hnd.
  destruct (used_place _ _ _ _ _ _ Hok Hu) as (Hn & _). destruct (ho_used _ _ _ _ Hok _ _ Hu) as [_ [q Hq]].
  assert (Hfuel : (length nodes + 2 <= list_fuel s)%nat).
  { unfold list_fuel. assert (Hl' : links (delete bp (h_mem s)) nodes base) by (eapply links_frame; [exact Hl|]; intros a Ha; apply lookup_delete_ne; by intros ->).
    pose proof (links_size _ _ _ Hl' Hnd) as H2. rewrite map_size_delete_Some in H2 by (by eexists).
    pose proof (map_size_ne_0_lookup_2 (h_mem s) bp ltac:(by eexists)). lia. }
  pose proof (ho_sorted _ _ _ _ Hok) as Hs. pose proof (nodes_sizes _ _ _ _ Hok) as Hsz. pose proof (ho_freep _ _ _ _ Hok) as Hfp. rewrite E in *.
  by apply (find_place_spec bp pre (c, nc) post s Hl Hs Hsz Hplace Hfirst).
Qed.

Lemma free_spec nodes used owned s bp nb :
  heap_ok nodes used owned s -> used !! bp = Some nb ->
  exists nodes' s', free (bp + SIZE) s = Ret tt s' /\ heap_ok nodes' (delete bp used) owned s' /\ h_brk s' = h_brk s /\
    (length nodes' <= length nodes + 1)%nat /\ exists b, b ∈ nodes' /\ nb <= snd b.
Proof.
  intros Hok Hu. destruct (used_place _ _ _ _ _ _ Hok Hu) as (Hn & pre & c & nc & post & E & Hplace & Hfirst & Hle & Hpost).
  destruct (used_bounds _ _ _ _ _ _ Hok Hu) as (Hn1 & Hlo & Hhi). pose proof (ho_brk _ _ _ _ Hok) as [Hbase Hbrk].
  destruct (ho_used _ _ _ _ Hok _ _ Hu) as [_ [q Hq]]. pose proof (ho_sorted _ _ _ _ Hok) as Hs. pose proof (ho_links _ _ _ _ Hok) as Hl.
  unfold free. cbv zeta. rewrite !bind_gets. replace (bp + SIZE - SIZE) with bp by lia. step (free_find _ _ _ _ _ _ _ _ _ _ Hok Hu E Hplace Hfirst).
  step (get_eq _ _ _ Hq). rewrite E in Hl, Hs. apply links_app in Hl as [_ [Hc Hlpost]]. cbn [fst snd first] in *. step (get_eq _ _ _ Hc). cbn [h_size].
  apply sorted_split in Hs as (_ & Spost & _). destruct Hplace as [Hcb _]. cbn [fst] in Hcb.
  assert (Hpin : forall d, d ∈ post -> d ∈ nodes /\ 0 <= snd d /\ fst d + SIZE * snd d <= h_brk s).
  { intros d Hd. assert (Hdn : d ∈ nodes) by (rewrite E; apply elem_of_app; right; by right). split; [done|].
    destruct (node_bounds _ _ _ _ _ Hok Hdn) as (? & _ & ? & _). done. }
  assert (Hcin : (c, nc) ∈ nodes) by (rewrite E; apply elem_of_app; right; left). destruct (node_bounds _ _ _ _ _ Hok Hcin) as (C1 & C2 & C3 & _). cbn [fst snd] in *.
  unfold KERNBASE in Hbrk. destruct (join_next bp nb q (Header (first post base) nc) post s) as (nm & rest & s1 & E1 & -> & J); try done; try (unfold SIZE in *; lia).
  { intros H. apply Hn. rewrite E, fmap_app. apply elem_of_app. right. by right. }
  { intros d Hd. destruct (Hpost d Hd). destruct (Hpin d Hd) as (? & ? & ?). unfold SIZE in *. lia. }
  step E1. set (s1 := set_mem _ s) in *. assert (Hend : bp + SIZE * nm <= h_brk s).
  { destruct (jn_end _ _ _ _ _ J) as [J5|(d & Hd & E2 & E3)]; [lia|]. rewrite E3. by apply Hpin. }
  pose proof (jn_size _ _ _ _ _ J) as Jn.
  destruct (join_prev c nc (first post base) bp nm rest s1) as (mid & h & s2 & E2 & Es2 & Hlk & Hj); try (unfold SIZE in *; lia).
  { cbn. rewrite lookup_insert_ne by lia. done. }
  { cbn. by rewrite lookup_insert_eq. }
  { destruct (jn_tail _ _ _ _ _ J) as [l ->]. apply links_app in Hlpost as [_ Hlr]. eapply links_frame; [exact Hlr|]. intros a (d & -> & Hd)%list_elem_of_fmap.
    cbn. apply lookup_insert_ne. destruct (jn_rest _ _ _ _ _ J d Hd) as [_ ?]. unfold SIZE in *. lia. }
  { intros (d & Hd1 & Hd)%list_elem_of_fmap. destruct (jn_rest _ _ _ _ _ J d Hd) as [_ ?]. unfold SIZE in *. lia. }
  rewrite E2. exists (pre ++ mid ++ rest), s2. split_and!; [done| |by rewrite Es2| |].
  - by apply (freed_ok nodes used owned s s2 bp nb c nc nm pre post mid rest h (Header (first rest base) nm)).
  - destruct (jn_tail _ _ _ _ _ J) as [l El]. rewrite E, El, !length_app. cbn. rewrite length_app. destruct Hj as [[-> _]|[-> _]]; cbn; lia.
  - destruct Hj as [[-> Ec]|[-> Ec]]; [exists (c, nc + nm)|exists (bp, nm)]; (split; [rewrite !elem_of_app; right; left; set_solver|cbn; lia]).
Qed.

(** ** [malloc] *)

(** The last [nu] units of the free block [p] are taken; [keep] is what is left of it. *)
Section Taken.
Context (nodes : list block) (used : gmap Z Z) (owned : Z -> Prop) (s s' : heap) (p rem nu : Z) (pre post keep : list block).
Context (Hok : heap_ok nodes used owned s) (Enodes : nodes = pre ++ (p, rem + nu) :: post) (Hpre : pre <> []) (Hnu : 1 <= nu).
Context (Hkeep : rem = 0 /\ keep = [] \/ 1 <= rem /\ keep = [(p, rem)]).
Context (Hlk : links (h_mem s') (pre ++ keep ++ post) base) (Hhdr : exists q, h_mem s' !! (p + SIZE * rem) = Some (Header q nu)).
Context (Hframe : forall x, x ∉ nodes.*1 -> x <> p + SIZE * rem -> h_mem s' !! x = h_mem s !! x).
Context (Hfreep : h_freep s' ∈ pre.*1) (Hbrk : h_brk s' = h_brk s).

Lemma taken_p : (p, rem + nu) ∈ nodes.
Proof using Enodes. rewrite Enodes. apply elem_of_app. right. left. Qed.
Lemma taken_rem : 0 <= rem.
Proof using Hkeep. lia. Qed.

Lemma taken_other a n : used !! a = Some n -> a + SIZE * n <= p \/ p + SIZE * (rem + nu) <= a.
Proof using Hok Enodes. intros Ha. exact (ho_split _ _ _ _ Hok _ _ _ Ha taken_p). Qed.

Lemma taken_fresh : used !! (p + SIZE * rem) = None.
Proof using Hok Enodes Hnu Hkeep.
  destruct (used !! (p + SIZE * rem)) as [n|] eqn:Ea; [|done]. pose proof (taken_other _ _ Ea). destruct (used_bounds _ _ _ _ _ _ Hok Ea) as (? & _).
  pose proof taken_rem. unfold SIZE in *. lia.
Qed.

Lemma taken_keep b : b ∈ keep -> 1 <= rem /\ b = (p, rem).
Proof using Hkeep.
  intros Hb. destruct Hkeep as [[_ E]|[H E]]; rewrite E in Hb; [by apply elem_of_nil in Hb|]. by apply list_elem_of_singleton in Hb.
Qed.

(** The free blocks are below or above the block, or what is left of it. *)
Lemma taken_free b : b ∈ pre ++ keep ++ post -> fst b + SIZE * snd b <= p + SIZE * rem \/ p + SIZE * (rem + nu) < fst b.
Proof using Hok Enodes Hkeep.
  pose proof (ho_sorted _ _ _ _ Hok) as Hs. rewrite Enodes in Hs. apply sorted_split in Hs as (_ & _ & Sp & Sq & _). pose proof taken_rem.
  rewrite !elem_of_app. intros [Hb|[Hb|Hb]].
  - specialize (Sp b Hb). unfold below, SIZE in *. cbn in Sp. lia.
  - destruct (taken_keep b Hb) as [_ ->]. cbn. lia.
  - specialize (Sq b Hb). unfold below, SIZE in *. cbn in Sq. lia.
Qed.

Lemma taken_sorted : StronglySorted below (pre ++ keep ++ post).
Proof using All.
  pose proof (ho_sorted _ _ _ _ Hok) as Hs. rewrite Enodes in Hs. apply sorted_split in Hs as (S1 & S2 & S3 & S4 & S5).
  destruct Hkeep as [[_ E]|[H E]]; rewrite E; [apply StronglySorted_app; naive_solver|]. cbn [app]. apply sorted_split. split_and!; try done.
  intros x Hx. specialize (S4 x Hx). unfold below, SIZE in *. cbn in *. lia.
Qed.

Lemma taken_nodes : exists l, pre ++ keep ++ post = (base, 0) :: l /\ Forall (fun b => 1 <= snd b) l.
Proof using All.
  destruct (ho_nodes _ _ _ _ Hok) as (l & E & Hl). rewrite Enodes in E.
  assert (Hb : exists pre', pre = (base, 0) :: pre') by (revert E Hpre; clear; destruct pre as [|b pre']; [done|]; intros [= -> _] _; eauto).
  destruct Hb as [pre' Epre]. rewrite Epre in *. injection E as E. exists (pre' ++ keep ++ post). split; [done|]. rewrite <- E in Hl. apply Forall_app in Hl as [H1 H2]. apply Forall_cons in H2 as [_ H2].
  apply Forall_app. split; [done|]. apply Forall_app. split; [|done]. apply Forall_forall. intros b Hb. by destruct (taken_keep b Hb) as [? ->].
Qed.

Lemma taken_owned x : owned x <-> within (pre ++ keep ++ post) x \/ in_use (<[p + SIZE * rem := nu]> used) x.
Proof using All.
  assert (Hu : in_use (<[p + SIZE * rem := nu]> used) x <-> in_use used x \/ p + SIZE * rem <= x < p + SIZE * rem + SIZE * nu).
  { unfold in_use. split.
    - intros (a & n & Ha & Hx). apply lookup_insert_Some in Ha as [[<- <-]|[_ Ha]]; [by right|]. left. by exists a, n.
    - intros [(a & n & Ha & Hx)|Hx]; [exists a, n|exists (p + SIZE * rem), nu; by rewrite lookup_insert_eq].
      rewrite lookup_insert_ne; [done|]. intros <-. by rewrite taken_fresh in Ha. }
  assert (Hk : within keep x <-> p <= x < p + SIZE * rem).
  { destruct Hkeep as [[E1 E]|[H E]]; rewrite E; [|rewrite within_cons; cbn; pose proof (within_nil x); tauto].
    pose proof (within_nil x). unfold SIZE. split; [done|lia]. }
  rewrite (ho_owned _ _ _ _ Hok x), Enodes, !within_app, within_cons, Hu, Hk. cbn [fst snd]. pose proof taken_rem.
  assert (Hx : p <= x < p + SIZE * (rem + nu) <-> p <= x < p + SIZE * rem \/ p + SIZE * rem <= x < p + SIZE * rem + SIZE * nu) by (unfold SIZE; lia). tauto.
Qed.

Lemma taken_ok : heap_ok (pre ++ keep ++ post) (<[p + SIZE * rem := nu]> used) owned s'.
Proof using All.
  pose proof taken_rem as Hrem. split; [exact taken_nodes|done|exact taken_sorted| | | | |exact taken_owned| |].
  - rewrite !fmap_app, !elem_of_app. by left.
  - intros a n [[<- <-]|[Hne Ha]]%lookup_insert_Some; [done|]. destruct (ho_used _ _ _ _ Hok _ _ Ha) as [Hn Hp]. split; [done|].
    rewrite Hframe; [done| |done]. by apply (used_place _ _ _ _ _ _ Hok Ha).
  - intros a n a' n' [[<- <-]|[Hne Ha]]%lookup_insert_Some [[<- <-]|[Hne' Ha']]%lookup_insert_Some; [by left| | |by apply (ho_disjoint _ _ _ _ Hok)].
    + pose proof (taken_other _ _ Ha'). unfold SIZE in *. lia.
    + pose proof (taken_other _ _ Ha). unfold SIZE in *. lia.
  - intros a n b [[<- <-]|[Hne Ha]]%lookup_insert_Some Hb; [pose proof (taken_free b Hb); unfold SIZE in *; lia|].
    pose proof (taken_other _ _ Ha) as Ho. rewrite !elem_of_app in Hb. destruct Hb as [Hb|[Hb|Hb]].
    + apply (ho_split _ _ _ _ Hok _ _ _ Ha). rewrite Enodes. apply elem_of_app. by left.
    + destruct (taken_keep b Hb) as [_ ->]. cbn. unfold SIZE in *. lia.
    + apply (ho_split _ _ _ _ Hok _ _ _ Ha). rewrite Enodes. apply elem_of_app. right. by right.
  - intros x Hx. rewrite Hbrk. by apply (ho_bounds _ _ _ _ Hok).
  - rewrite Hbrk. apply (ho_brk _ _ _ _ Hok).
Qed.
End Taken.

Section Take.
Context (nodes : list block) (used : gmap Z Z) (owned : Z -> Prop) (s : heap) (pre post : list block) (prev np p n nu : Z).
Context (Hok : heap_ok nodes used owned s) (E : nodes = pre ++ (prev, np) :: (p, n) :: post) (Hnu : 1 <= nu <= n).

Lemma take_links : links (h_mem s) pre prev /\ h_mem s !! prev = Some (Header p np) /\ h_mem s !! p = Some (Header (first post base) n) /\ links (h_mem s) post base.
Proof using Hok E. pose proof (ho_links _ _ _ _ Hok) as Hl. rewrite E in Hl. apply links_app in Hl as [Hl1 (Hprev & Hp & Hl2)]. done. Qed.

Lemma take_nodup : prev ∉ pre.*1 /\ p ∉ pre.*1 /\ prev <> p /\ prev ∉ post.*1 /\ p ∉ post.*1.
Proof using Hok E.
  pose proof (nodes_nodup _ _ _ _ Hok) as Hnd. rewrite E, fmap_app in Hnd. cbn in Hnd. apply NoDup_app in Hnd as (_ & Hnd1 & Hnd2).
  apply NoDup_cons in Hnd2 as [Hn1 Hnd2]. apply NoDup_cons in Hnd2 as [Hn2 _]. apply not_elem_of_cons in Hn1 as [Hne Hn1].
  split_and!; try done; intros H; apply (Hnd1 _ H); [left|right; left].
Qed.

Lemma take_nodes : nodes = (pre ++ [(prev, np)]) ++ (p, (n - nu) + nu) :: post.
Proof using E. rewrite E, <- app_assoc. cbn. by replace (n - nu + nu) with n by lia. Qed.

Lemma take_bounds : 0 <= p /\ p + SIZE * n < 2 ^ 32.
Proof using Hok E.
  assert (Hpin : (p, n) ∈ nodes) by (rewrite E; apply elem_of_app; right; right; left). pose proof (ho_brk _ _ _ _ Hok) as [Hb0 Hb1]. unfold KERNBASE in Hb1.
  destruct (node_bounds _ _ _ _ _ Hok Hpin) as (B1 & B2 & B3 & B4). cbn [fst snd] in *. lia.
Qed.

Definition taken_result : Prop := exists nodes' a s',
  take_block prev p nu s = Ret (a + SIZE) s' /\ heap_ok nodes' (<[a := nu]> used) owned s' /\ used !! a = None /\ h_brk s' = h_brk s.

(** The block has the right size and leaves the list. *)
Lemma take_exact : n = nu -> taken_result.
Proof using Hok E Hnu.
  intros En. destruct take_links as (Hl1 & Hprev & Hp & Hl2). destruct take_nodup as (N1 & N2 & N3 & N4 & N5). pose proof take_nodes as E'.
  rewrite En, Z.sub_diag in E'. unfold taken_result, take_block. step (get_eq _ _ _ Hp). cbn [h_size h_ptr]. rewrite (proj2 (Z.eqb_eq n nu) En), bind_assoc.
  step (update_eq _ (set_ptr (first post base)) _ _ Hprev). set (s1 := set_mem _ s). step (@eq_refl _ (Ret p s1)). rewrite bind_modify.
  exists ((pre ++ [(prev, np)]) ++ [] ++ post), p, (set_freep prev s1). split_and!; [reflexivity| | |reflexivity].
  - replace p with (p + SIZE * 0) by lia. eapply (taken_ok nodes used owned s _ p 0 nu); try done; [by destruct pre|lia|by left| | | |].
    + rewrite <- app_assoc. cbn [app]. apply links_app. cbn [first fst]. split; [|split].
      * eapply links_frame; [exact Hl1|]. intros a Ha. cbn. apply lookup_insert_ne. by intros <-.
      * cbn. by rewrite lookup_insert_eq.
      * eapply links_frame; [exact Hl2|]. intros a Ha. cbn. apply lookup_insert_ne. by intros <-.
    + exists (first post base). replace (p + SIZE * 0) with p by lia. cbn. rewrite lookup_insert_ne by done. by rewrite <- En.
    + intros x Hx _. cbn. apply lookup_insert_ne. intros <-. apply Hx. rewrite E, fmap_app. apply elem_of_app. right. left.
    + cbn. rewrite fmap_app. apply elem_of_app. right. left.
  - pose proof (taken_fresh nodes used owned s p 0 nu (pre ++ [(prev, np)]) post [] Hok E' ltac:(lia) (or_introl (conj eq_refl eq_refl))) as H.
    by replace (p + SIZE * 0) with p in H by lia.
Qed.

(** The new header is not that of a free block. *)
Lemma take_tail b : nu < n -> b ∈ nodes -> fst b <> p + SIZE * (n - nu).
Proof using Hok E Hnu.
  intros Hlt Hb Eq. destruct (node_bounds _ _ _ _ b Hok Hb) as (Z1 & _). rewrite take_nodes in Hb. pose proof (ho_sorted _ _ _ _ Hok) as Hs. rewrite take_nodes in Hs.
  apply sorted_split in Hs as (_ & _ & S1 & S2 & _). rewrite elem_of_app, elem_of_cons in Hb. unfold below, SIZE in S1, S2, Eq. cbn [fst snd] in S1, S2.
  destruct Hb as [Hb|[->|Hb]]; [specialize (S1 b Hb)|cbn in Eq|specialize (S2 b Hb)]; lia.
Qed.

(** The block is larger, and its end is taken. *)
Lemma take_split : nu < n -> taken_result.
Proof using Hok E Hnu.
  intros Hlt. destruct take_links as (Hl1 & Hprev & Hp & Hl2). destruct take_nodup as (N1 & N2 & N3 & N4 & N5). pose proof take_nodes as E'. pose proof take_bounds as [B1 B2].
  unfold taken_result, take_block. step (get_eq _ _ _ Hp). cbn [h_size h_ptr]. rewrite (proj2 (Z.eqb_neq n nu)), bind_assoc by lia. unfold padd.
  rewrite (u32_id (n - nu)), (u32_id (p + _)) by (unfold SIZE in *; lia). step (update_eq _ (set_size (n - nu)) _ _ Hp). set (s1 := set_mem _ s).
  cbv zeta. pose proof take_tail as Ht. set (q := p + SIZE * (n - nu)) in *. rewrite bind_assoc. set (hq := set_size nu (default (Header 0 0) (h_mem s1 !! q))).
  assert (Eu : upd q (set_size nu) s1 = Ret tt (set_mem (<[q := hq]> (h_mem s1)) s1)) by done. step Eu. set (s2 := set_mem _ s1). step (@eq_refl _ (Ret q s2)). rewrite bind_modify.
  exists ((pre ++ [(prev, np)]) ++ [(p, n - nu)] ++ post), q, (set_freep prev s2).
  assert (Hm : forall x, x <> p -> x <> q -> h_mem s2 !! x = h_mem s !! x) by (intros x H1 H2; cbn; by rewrite !lookup_insert_ne).
  assert (Hmn : forall b, b ∈ nodes -> fst b <> p -> h_mem s2 !! fst b = h_mem s !! fst b) by (intros b Hb Hbp; apply Hm; [done|by apply Ht]).
  split_and!; [done| | |done].
  - eapply (taken_ok nodes used owned s _ p (n - nu) nu); try done; [by destruct pre|lia|right; split; [lia|done]| | | |].
    + rewrite <- app_assoc. cbn [app]. apply links_app. cbn [first fst links]. change (h_mem (set_freep prev s2)) with (h_mem s2). split_and!.
      * eapply links_frame; [exact Hl1|]. intros a (b & -> & Hb)%list_elem_of_fmap. apply Hmn; [rewrite E; apply elem_of_app; by left|].
        intros Hx. apply N2, list_elem_of_fmap. by exists b.
      * cbn [snd]. rewrite <- Hprev. apply (Hmn (prev, np)); [rewrite E; apply elem_of_app; right; left|done].
      * cbn. rewrite lookup_insert_ne, lookup_insert_eq; [done|]. unfold q, SIZE. lia.
      * eapply links_frame; [exact Hl2|]. intros a (b & -> & Hb)%list_elem_of_fmap. apply Hmn; [rewrite E; apply elem_of_app; right; by do 2 right|].
        intros Hx. apply N5, list_elem_of_fmap. by exists b.
    + exists (h_ptr hq). cbn. by rewrite lookup_insert_eq.
    + intros x Hx Hxq. apply Hm; [|done]. intros ->. apply Hx. rewrite E, fmap_app. apply elem_of_app. right. right. left.
    + cbn. rewrite fmap_app. apply elem_of_app. right. left.
  - apply (taken_fresh nodes used owned s p (n - nu) nu (pre ++ [(prev, np)]) post [(p, n - nu)] Hok E'); [lia|right; split; [lia|done]].
Qed.

Lemma take_block_spec : taken_result.
Proof using Hok E Hnu. destruct (decide (n = nu)); [by apply take_exact|apply take_split; lia]. Qed.
End Take.

(** The node before a free block, by its pointer. *)
Lemma node_before nodes used owned s prev k p n :
  heap_ok nodes used owned s -> prev ∈ nodes.*1 -> h_mem s !! prev = Some (Header p k) -> (p, n) ∈ nodes -> 1 <= n ->
  exists pre np post, nodes = pre ++ (prev, np) :: (p, n) :: post.
Proof.
  intros Hok ([a np] & -> & Ha)%list_elem_of_fmap Hp Hpn Hn. cbn [fst] in *. apply list_elem_of_split in Ha as (pre & post & E).
  pose proof (ho_links _ _ _ _ Hok) as Hl. destruct (links_lookup _ _ _ _ _ Hl Hpn) as [q Hq]. rewrite E in Hl.
  apply links_app in Hl as [_ [Ha Hl]]. cbn [fst snd] in Ha. rewrite Ha in Hp. injection Hp as Hp _. destruct post as [|[b m] post].
  - cbn in Hp. subst p. exfalso. destruct (ho_nodes _ _ _ _ Hok) as (l & El & _). pose proof (ho_links _ _ _ _ Hok) as Hl2. rewrite El in Hl2.
    destruct Hl2 as [H0 _]. cbn in H0. rewrite Hq in H0. injection H0 as _ ->. lia.
  - cbn in Hp. subst b. destruct Hl as [Hb _]. cbn in Hb. rewrite Hq in Hb. injection Hb as _ ->. by exists pre, np, post.
Qed.

Section Malloc.
Context (sbrk : Z -> Z -> Z * Z).

(** The loop of [malloc] from the node after [prev], when [vs] are the nodes before it is
    back at [f], which is [freep]. *)
Lemma malloc_walk nu f q nf s vs : forall prev k fuel,
  h_freep s = f -> h_mem s !! prev = Some (Header (first vs f) k) -> links (h_mem s) vs f -> h_mem s !! f = Some (Header q nf) -> f ∉ vs.*1 ->
  (exists prev' k' p n, (prev' = prev \/ prev' ∈ vs.*1) /\ (p, n) ∈ vs ++ [(f, nf)] /\ h_mem s !! prev' = Some (Header p k') /\ nu <= n /\
     malloc_loop sbrk (length vs + 1 + fuel) nu prev (first vs f) s = take_block prev' p nu s) \/
  (Forall (fun b => snd b < nu) (vs ++ [(f, nf)]) /\
     malloc_loop sbrk (length vs + 1 + fuel) nu prev (first vs f) s =
     (p <- morecore sbrk nu ;; if p =? 0 then ret 0 else h <- get p ;; malloc_loop sbrk fuel nu p (h_ptr h)) s).
Proof.
  induction vs as [|[a n] vs IH]; intros prev k fuel Hf Hprev Hl Hff Hn; cbn [first length Nat.add malloc_loop fst] in *.
  - step (get_eq _ _ _ Hff). cbn [h_size]. destruct (Z.leb_spec nu nf) as [H|H].
    + left. exists prev, k, f, nf. split_and!; try done; [by left|left].
    + right. rewrite bind_gets, Hf, Z.eqb_refl. split; [by repeat constructor|done].
  - destruct Hl as [Ha Hl]. cbn [fst snd] in Ha. step (get_eq _ _ _ Ha). cbn [h_size h_ptr]. apply not_elem_of_cons in Hn as [Hne Hn].
    destruct (Z.leb_spec nu n) as [H|H].
    + left. exists prev, k, a, n. split_and!; try done; [by left|left].
    + rewrite bind_gets, Hf, (proj2 (Z.eqb_neq a f)) by done. destruct (IH a n fuel Hf Ha Hl Hff Hn) as [(prev' & k' & p & n' & H1 & H2 & H3 & H4 & H5)|[H1 H2]].
      * left. exists prev', k', p, n'. split_and!; try done; [|by right]. right. cbn. destruct H1 as [->|H1]; [left|by right].
      * right. split; [by constructor|done].
Qed.

(** From [freep] on, a block that is large enough is found, or memory is asked for. *)
Lemma malloc_scan nodes used owned s nu h fuel :
  heap_ok nodes used owned s -> 1 <= nu -> h_mem s !! h_freep s = Some h -> (length nodes <= fuel)%nat ->
  (exists nodes' a s', malloc_loop sbrk fuel nu (h_freep s) (h_ptr h) s = Ret (a + SIZE) s' /\ heap_ok nodes' (<[a := nu]> used) owned s' /\
     used !! a = None /\ h_brk s' = h_brk s) \/
  (Forall (fun b => snd b < nu) nodes /\
     malloc_loop sbrk fuel nu (h_freep s) (h_ptr h) s =
     (p <- morecore sbrk nu ;; if p =? 0 then ret 0 else h <- get p ;; malloc_loop sbrk (fuel - length nodes) nu p (h_ptr h)) s).
Proof.
  intros Hok Hnu Hh Hfuel. pose proof (ho_freep _ _ _ _ Hok) as ([f nf] & Ef & Hf)%list_elem_of_fmap. cbn [fst] in Ef.
  apply list_elem_of_split in Hf as (A & B & E). pose proof (ho_links _ _ _ _ Hok) as Hl. pose proof (nodes_nodup _ _ _ _ Hok) as Hnd. rewrite E in Hl, Hnd.
  apply links_app in Hl as [HlA [Hff HlB]]. cbn [fst snd first] in *. rewrite Ef, Hff in Hh. injection Hh as <-. cbn [h_ptr].
  assert (EA : first A f = base).
  { destruct (ho_nodes _ _ _ _ Hok) as (l & El & _). rewrite E in El. destruct A as [|x A]; cbn in El |- *; [congruence|by injection El as -> _]. }
  assert (Hvs : links (h_mem s) (B ++ A) f) by (apply links_app; by rewrite EA).
  assert (Efirst : first (B ++ A) f = first B base) by (destruct B; [cbn; exact EA|done]).
  assert (Hn : f ∉ (B ++ A).*1).
  { rewrite fmap_app in Hnd. cbn in Hnd. apply NoDup_app in Hnd as (_ & H1 & H2). apply NoDup_cons in H2 as [H2 _]. rewrite fmap_app, elem_of_app.
    intros [H|H]; [done|]. apply (H1 f H). left. }
  assert (Elen : length nodes = (length (B ++ A) + 1)%nat) by (rewrite E, !length_app; cbn; lia).
  assert (Hall : forall b, b ∈ (B ++ A) ++ [(f, nf)] <-> b ∈ nodes) by (intros b; rewrite E, !elem_of_app, !elem_of_cons, elem_of_nil; tauto).
  destruct (malloc_walk nu f (first B base) nf s (B ++ A) f nf (fuel - length nodes) Ef) as [(prev & k & p & n & H1 & H2 & H3 & H4 & H5)|[H1 H2]]; try done.
  - by rewrite Efirst.
  - left. assert (Hprev : prev ∈ nodes.*1).
    { destruct H1 as [->|H1]; rewrite E, fmap_app, elem_of_app; [right; left|]. rewrite fmap_app, elem_of_app in H1. destruct H1; [right; by right|by left]. }
    destruct (node_before _ _ _ _ prev k p n Hok Hprev H3) as (pre & np & post & En); [by apply Hall|lia|].
    destruct (take_block_spec _ _ _ _ _ _ _ _ _ _ nu Hok En) as (nodes' & a & s' & Et & Hok' & Hfresh & Hbrk); [lia|].
    exists nodes', a, s'. split; [|done]. rewrite <- Et, <- H5, Efirst, Ef. f_equal. lia.
  - right. split; [apply Forall_forall; intros b Hb; apply (proj1 (Forall_forall _ _) H1); by apply Hall|]. rewrite <- H2, Efirst, Ef. f_equal. lia.
Qed.

(** The system call: it refuses, or adds the memory at the end of the process, which
    stays below the kernel. *)
Context (sbrk_adds : forall n b, 0 < n < 2 ^ 31 -> 0 <= b <= KERNBASE ->
  sbrk n b = (-1, b) \/ sbrk n b = (b, b + n) /\ b + n <= KERNBASE).

(** New memory is a block in use. *)
Lemma grow_ok nodes used owned s nu q :
  heap_ok nodes used owned s -> 1 <= nu -> h_brk s + SIZE * nu <= KERNBASE ->
  heap_ok nodes (<[h_brk s := nu]> used) (fun x => owned x \/ h_brk s <= x < h_brk s + SIZE * nu)
    (set_mem (<[h_brk s := Header q nu]> (h_mem s)) (set_brk (h_brk s + SIZE * nu) s)) /\ used !! h_brk s = None.
Proof using Type.
  intros Hok Hnu Hk. pose proof (ho_brk _ _ _ _ Hok) as [Hb0 Hb1].
  assert (Hfresh : used !! h_brk s = None).
  { destruct (used !! h_brk s) as [n|] eqn:E; [|done]. destruct (used_bounds _ _ _ _ _ _ Hok E) as (H1 & _ & H2). unfold SIZE in H2. lia. }
  assert (Hin : forall b, b ∈ nodes -> fst b <> h_brk s /\ fst b + SIZE * snd b <= h_brk s).
  { intros b Hb. destruct (node_bounds _ _ _ _ _ Hok Hb) as (H1 & _ & H2 & [->|H3]); cbn in *; unfold SIZE in *; lia. }
  split; [|done]. split; [apply Hok| |apply Hok|apply Hok| | | | | |cbn; unfold SIZE in *; lia].
  - eapply links_frame; [apply Hok|]. intros a (b & -> & Hb)%list_elem_of_fmap. cbn. apply lookup_insert_ne. intros E. destruct (Hin b Hb). congruence.
  - intros a n [[<- <-]|[Hne Ha]]%lookup_insert_Some; cbn; [split; [done|]; exists q; by rewrite lookup_insert_eq|]. rewrite lookup_insert_ne by done. by apply (ho_used _ _ _ _ Hok).
  - intros a n a' n' [[<- <-]|[Hne Ha]]%lookup_insert_Some [[<- <-]|[Hne' Ha']]%lookup_insert_Some; [by left| | |by apply (ho_disjoint _ _ _ _ Hok)].
    + destruct (used_bounds _ _ _ _ _ _ Hok Ha') as (_ & _ & H2). auto.
    + destruct (used_bounds _ _ _ _ _ _ Hok Ha) as (_ & _ & H2). auto.
  - intros a n b [[<- <-]|[Hne Ha]]%lookup_insert_Some Hb; [right; by apply Hin|by apply (ho_split _ _ _ _ Hok)].
  - intros x. rewrite (ho_owned _ _ _ _ Hok x). unfold in_use. split.
    + intros [[H|(a & n & Ha & H)]|H]; [by left|right; exists a, n|right; exists (h_brk s), nu; by rewrite lookup_insert_eq].
      rewrite lookup_insert_ne; [done|]. intros <-. congruence.
    + intros [H|(a & n & [[<- <-]|[Hne Ha]]%lookup_insert_Some & H)]; [by left; left|by right|]. left. right. by exists a, n.
  - cbn. intros x [Hx|Hx]; [apply (ho_bounds _ _ _ _ Hok) in Hx|]; unfold SIZE in *; lia.
Qed.

Lemma morecore_spec nodes used owned s nu :
  heap_ok nodes used owned s -> 1 <= nu -> SIZE * nu < 2 ^ 31 ->
  morecore sbrk nu s = Ret 0 s \/
  exists nodes' s', morecore sbrk nu s = Ret (h_freep s') s' /\ h_freep s' <> 0 /\ h_brk s <= h_brk s' /\
    heap_ok nodes' used (fun x => owned x \/ h_brk s <= x < h_brk s') s' /\ (length nodes' <= length nodes + 1)%nat /\ exists b, b ∈ nodes' /\ nu <= snd b.
Proof using sbrk_adds.
  intros Hok Hnu Hmax. unfold morecore. cbv zeta. set (m := if nu <? 4096 then 4096 else nu). assert (Hm : 1 <= m /\ nu <= m /\ SIZE * m < 2 ^ 31).
  { unfold m, SIZE in *. destruct (Z.ltb_spec nu 4096); lia. }
  destruct Hm as (Hm1 & Hm2 & Hm3). rewrite bind_gets, (Z.mul_comm m). replace (s32 (u32 (SIZE * m))) with (SIZE * m).
  2: { unfold SIZE in *. rewrite u32_id by lia. unfold s32. cbv zeta. rewrite u32_id by lia. by rewrite (proj2 (Z.ltb_lt _ _)) by lia. }
  pose proof (ho_brk _ _ _ _ Hok) as [Hb0 Hb1]. destruct (sbrk_adds (SIZE * m) (h_brk s)) as [->|[-> Hk]]; [unfold SIZE in *; lia|unfold SIZE in *; lia| |].
  - left. by destruct s.
  - right. rewrite bind_modify, (proj2 (Z.eqb_neq _ (-1))) by (unfold SIZE in *; lia). set (s1 := set_brk _ s).
    set (hd := default (Header 0 0) (h_mem s !! h_brk s)). assert (Eu : upd (h_brk s) (set_size m) s1 = Ret tt (set_mem (<[h_brk s := Header (h_ptr hd) m]> (h_mem s)) s1)) by done.
    step Eu. destruct (grow_ok _ _ _ s m (h_ptr hd) Hok Hm1 Hk) as [Hok1 Hfresh]. set (s2 := set_mem _ s1).
    destruct (free_spec _ _ _ s2 (h_brk s) m Hok1) as (nodes' & s' & Ef & Hok' & Hbrk & Hlen & b & Hb & Hbm); [by rewrite lookup_insert_eq|].
    step Ef. exists nodes', s'. rewrite delete_insert_id in Hok' by done. rewrite Hbrk. cbn [s2 s1 h_brk set_mem set_brk].
    split_and!; [done| |unfold SIZE; lia|done|done|exists b; split; [done|lia]].
    pose proof (ho_freep _ _ _ _ Hok') as (d & -> & Hd)%list_elem_of_fmap. destruct (node_bounds _ _ _ _ _ Hok' Hd) as (_ & ? & _). lia.
Qed.

(** What [malloc] answers: a null pointer, or a new block of [nu] units. *)
Definition malloc_answer (used : gmap Z Z) (owned : Z -> Prop) (nu brk : Z) (r : Z) (s' : heap) : Prop :=
  let owned' := fun x => owned x \/ brk <= x < h_brk s' in
  brk <= h_brk s' /\
  (r = 0 /\ (exists nodes, heap_ok nodes used owned' s') \/
   exists a nodes, r = a + SIZE /\ used !! a = None /\ heap_ok nodes (<[a := nu]> used) owned' s').

Lemma heap_ok_same nodes used owned s brk : heap_ok nodes used owned s -> heap_ok nodes used (fun x => owned x \/ brk <= x < brk) s.
Proof using Type.
  assert (H : forall x, owned x \/ brk <= x < brk <-> owned x) by (intros x; split; [intros [|]; [done|lia]|by left]).
  intros []. split; try done; intros x; rewrite H; auto.
Qed.

Lemma malloc_list_spec nodes used owned s nu h fuel :
  heap_ok nodes used owned s -> 1 <= nu -> SIZE * nu < 2 ^ 31 -> h_mem s !! h_freep s = Some h -> (2 * length nodes + 1 <= fuel)%nat ->
  exists r s', malloc_loop sbrk fuel nu (h_freep s) (h_ptr h) s = Ret r s' /\ malloc_answer used owned nu (h_brk s) r s'.
Proof using sbrk_adds.
  intros Hok Hnu Hmax Hh Hfuel. destruct (malloc_scan _ _ _ _ nu h fuel Hok Hnu Hh) as [(nodes' & a & s' & E & Hok' & Hf & Hb)|[Hsmall ->]]; [lia| |].
  { exists (a + SIZE), s'. split; [done|]. split; [lia|]. right. exists a, nodes'. split_and!; try done. rewrite Hb. by apply heap_ok_same. }
  destruct (morecore_spec _ _ _ _ nu Hok Hnu Hmax) as [E|(nodes' & s' & E & Hf0 & Hbrk & Hok' & Hlen & b & Hb & Hbn)]; step E.
  { exists 0, s. split; [done|]. split; [lia|]. left. split; [done|]. exists nodes. by apply heap_ok_same. }
  rewrite (proj2 (Z.eqb_neq _ 0)) by done. pose proof (ho_freep _ _ _ _ Hok') as ([f nf] & Ef & Hfn)%list_elem_of_fmap. cbn in Ef.
  destruct (links_lookup _ _ _ _ _ (ho_links _ _ _ _ Hok') Hfn) as [q Hq]. rewrite <- Ef in Hq. step (get_eq _ _ _ Hq).
  destruct (malloc_scan _ _ _ _ nu _ (fuel - length nodes) Hok' Hnu Hq) as [(nodes2 & a & s2 & E2 & Hok2 & Hf2 & Hb2)|[Hsmall2 _]]; [lia| |].
  - exists (a + SIZE), s2. split; [done|]. split; [lia|]. right. exists a, nodes2. split_and!; try done. by rewrite Hb2.
  - apply (proj1 (Forall_forall _ _) Hsmall2) in Hb. lia.
Qed.

(** The allocator before its first call, or with its list. *)
Definition wf (used : gmap Z Z) (owned : Z -> Prop) (s : heap) : Prop :=
  h_freep s = 0 /\ used = ∅ /\ (forall x, ~ owned x) /\ 0 < base /\ base + SIZE <= h_brk s <= KERNBASE \/
  exists nodes, heap_ok nodes used owned s.

Lemma init_ok owned s : (forall x, ~ owned x) -> 0 < base -> base + SIZE <= h_brk s <= KERNBASE ->
  heap_ok [(base, 0)] ∅ owned (set_freep base (set_mem (<[base := Header base 0]> (h_mem s)) s)).
Proof using Type.
  intros Ho H0 Hb. split; try done.
  - by exists [].
  - cbn. split; [by rewrite lookup_insert_eq|done].
  - repeat constructor.
  - cbn. left.
  - intros x. split; [intros H; by apply Ho in H|]. intros [H|(a & n & Ha & _)]; [|by rewrite lookup_empty in Ha].
    apply within_cons in H as [H|H]; [unfold SIZE in H; cbn in H; lia|by apply within_nil in H].
  - intros x Hx. by apply Ho in Hx.
Qed.

Lemma malloc_spec used owned s nbytes :
  wf used owned s -> 0 <= nbytes < 2 ^ 31 - 32 ->
  exists r s', malloc base sbrk nbytes s = Ret r s' /\ malloc_answer used owned (nunits nbytes) (h_brk s) r s' /\
    nbytes <= SIZE * (nunits nbytes - 1).
Proof using sbrk_adds.
  intros Hwf Hn. assert (Hnu : 1 <= nunits nbytes /\ SIZE * nunits nbytes < 2 ^ 31 /\ nbytes <= SIZE * (nunits nbytes - 1)).
  { unfold nunits, SIZE. rewrite u32_id by lia. pose proof (Z.div_mod (nbytes + 8 - 1) 8 ltac:(lia)). pose proof (Z.mod_pos_bound (nbytes + 8 - 1) 8 ltac:(lia)). lia. }
  destruct Hnu as (Hnu & Hmax & Hfit). unfold malloc. cbv zeta. rewrite bind_gets.
  assert (Hinit : exists nodes s1, (if h_freep s =? 0 then upd base (set_ptr base) ;;; modify (set_freep base) ;;; upd base (set_size 0) ;;; ret base else ret (h_freep s)) s = Ret (h_freep s1) s1 /\
    heap_ok nodes used owned s1 /\ h_brk s1 = h_brk s).
  { destruct Hwf as [(H0 & -> & Ho & Hb)|[nodes Hok]].
    - rewrite H0. cbn [Z.eqb]. exists [(base, 0)]. eexists. split; [|split; [apply init_ok; [exact Ho|apply Hb|apply Hb]|done]].
      unfold upd, modify, bind, ret. cbn. rewrite lookup_insert_eq, insert_insert_eq. done.
    - exists nodes, s. split; [|done]. pose proof (ho_freep _ _ _ _ Hok) as (d & Ed & Hd)%list_elem_of_fmap.
      destruct (node_bounds _ _ _ _ _ Hok Hd) as (_ & ? & _). pose proof (ho_brk _ _ _ _ Hok). rewrite (proj2 (Z.eqb_neq _ 0)) by lia. done. }
  destruct Hinit as (nodes & s1 & E1 & Hok & Hbrk). step E1. pose proof (ho_freep _ _ _ _ Hok) as ([f nf] & Ef & Hf)%list_elem_of_fmap. cbn in Ef.
  destruct (links_lookup _ _ _ _ _ (ho_links _ _ _ _ Hok) Hf) as [q Hq]. rewrite <- Ef in Hq. step (get_eq _ _ _ Hq). rewrite bind_gets.
  pose proof (links_size _ _ _ (ho_links _ _ _ _ Hok) (nodes_nodup _ _ _ _ Hok)) as Hsize.
  destruct (malloc_list_spec _ _ _ _ (nunits nbytes) _ (2 * list_fuel s1 + 2) Hok Hnu Hmax Hq) as (r & s2 & E2 & Ha); [unfold list_fuel; lia|].
  exists r, s2. rewrite <- Hbrk. split_and!; done.
Qed.

(** Stores of the program to the blocks it holds. *)
Definition client_writes (used : gmap Z Z) (m m' : gmap Z header) : Prop :=
  forall x, (forall a n, used !! a = Some n -> ~ (a < x < a + SIZE * n)) -> m' !! x = m !! x.

Lemma writes_ok used owned s m' : wf used owned s -> client_writes used (h_mem s) m' -> wf used owned (set_mem m' s).
Proof using Type.
  intros [H|[nodes Hok]] Hw; [by left|]. right. exists nodes.
  assert (Hn : forall b, b ∈ nodes -> m' !! fst b = h_mem s !! fst b).
  { intros b Hb. apply Hw. intros a n Ha Hx. destruct (node_bounds _ _ _ _ _ Hok Hb) as (H1 & H2 & _). destruct (used_bounds _ _ _ _ _ _ Hok Ha) as (H3 & H4 & _).
    destruct (node_bounds _ _ _ _ _ Hok Hb) as (_ & _ & _ & H5). pose proof (ho_split _ _ _ _ Hok _ _ _ Ha Hb) as H6. destruct H5 as [->|H5]; cbn in *; unfold SIZE in *; lia. }
  destruct Hok as [K1 K2 K3 K4 K5 K6 K7 K8 K9 K10]. split; try done.
  - eapply links_frame; [exact K2|]. intros a (b & -> & Hb)%list_elem_of_fmap. by apply Hn.
  - intros a n Ha. destruct (K5 a n Ha) as [H1 H2]. split; [done|]. cbn. rewrite Hw; [done|]. intros a' n' Ha' Hx. destruct (K5 a' n' Ha') as [H3 _].
    destruct (K6 a n a' n' Ha Ha') as [->|H]; unfold SIZE in *; lia.
Qed.

(** C28. The allocator of the user library.  The blocks the program holds lie in memory
    obtained from the system and do not overlap one another.  [malloc] always returns: a
    null pointer, when the system refuses, or a new block with room for the bytes asked
    for; [free] always returns, and takes back exactly the block given to it; every
    address obtained stays either free or in one block, so nothing is lost; and whatever
    the program stores in its blocks does not disturb the allocator. *)
Theorem allocator_correct used owned s :
  wf used owned s ->
  (forall a n a' n', used !! a = Some n -> used !! a' = Some n' -> a <> a' -> a + SIZE * n <= a' \/ a' + SIZE * n' <= a) /\
  (forall a n x, used !! a = Some n -> a <= x < a + SIZE * n -> owned x) /\
  (forall nbytes, 0 <= nbytes < 2 ^ 31 - 32 -> exists r s', malloc base sbrk nbytes s = Ret r s' /\
     let owned' := fun x => owned x \/ h_brk s <= x < h_brk s' in
     (r = 0 /\ wf used owned' s' \/
      exists a n, r = a + SIZE /\ nbytes <= SIZE * (n - 1) /\ used !! a = None /\ wf (<[a := n]> used) owned' s')) /\
  (forall a n, used !! a = Some n -> exists s', free (a + SIZE) s = Ret tt s' /\ wf (delete a used) owned s') /\
  (forall m', client_writes used (h_mem s) m' -> wf used owned (set_mem m' s)).
Proof using sbrk_adds.
  intros Hwf. split_and!.
  - destruct Hwf as [(_ & -> & _)|[nodes Hok]]; intros a n a' n' Ha Ha' Hne; [done|]. destruct (ho_disjoint _ _ _ _ Hok _ _ _ _ Ha Ha'); [done|done].
  - destruct Hwf as [(_ & -> & _)|[nodes Hok]]; intros a n x Ha Hx; [done|]. apply (ho_owned _ _ _ _ Hok). right. by exists a, n.
  - intros nbytes Hn. destruct (malloc_spec _ _ _ nbytes Hwf Hn) as (r & s' & E & [_ Ha] & Hfit). exists r, s'. split; [done|]. cbv zeta in *.
    destruct Ha as [[-> Hok]|(a & nodes & -> & Hf & Hok)]; [left; split; [done|by right]|]. right. exists a, (nunits nbytes). split_and!; try done.
    right. by exists nodes.
  - destruct Hwf as [(_ & -> & _)|[nodes Hok]]; intros a n Ha; [done|]. destruct (free_spec _ _ _ _ _ _ Hok Ha) as (nodes' & s' & E & Hok' & _). exists s'.
    split; [done|]. right. by exists nodes'.
  - intros m' Hm. by apply writes_ok.
Qed.
End Malloc.
End Umalloc.

Module Example.

(** A system that gives memory while there is room below the kernel. *)
Definition sbrk0 (n b : Z) : Z * Z := if b + n <=? KERNBASE then (b, b + n) else (-1, b).
Lemma sbrk0_adds n b : 0 < n < 2 ^ 31 -> 0 <= b <= KERNBASE -> sbrk0 n b = (-1, b) \/ sbrk0 n b = (b, b + n) /\ b + n <= KERNBASE.
Proof. intros Hn Hb. unfold sbrk0. destruct (Z.leb_spec (b + n) KERNBASE); [by right|by left]. Qed.

(** A process whose data, with [base] in it, ends at 8192. *)
Definition heap0 : heap := Heap ∅ 0 8192.
Lemma heap0_wf : wf 4096 ∅ (fun _ => False) heap0.
Proof. left. split_and!; try done; auto. Qed.

(** The first block of 100 bytes is at the end of the first piece of memory. *)
Lemma allocator_correct_witness :
  exists s' a n, malloc 4096 sbrk0 100 heap0 = Ret (a + SIZE) s' /\ a = 8192 + SIZE * (4096 - 14) /\
    wf 4096 {[a := n]} (fun x => False \/ 8192 <= x < h_brk s') s'.
Proof.
  destruct (allocator_correct 4096 sbrk0 sbrk0_adds ∅ (fun _ => False) heap0 heap0_wf) as (_ & _ & Hm & _).
  destruct (Hm 100 ltac:(lia)) as (r & s' & E & H). pose proof E as E'. vm_compute in E'. injection E' as Er _.
  destruct H as [[Hr _]|(a & n & Hr & _ & _ & Hwf)]; [exfalso; lia|]. exists s', a, n. rewrite <- Hr. split; [exact E|]. split; [unfold SIZE in *; lia|exact Hwf].
Defined.

End Example.

(** The size asked for is rounded up in 32 bits: the largest requests give the smallest
    block. *)
Lemma malloc_wraps : nunits (2 ^ 32 - 1) = 1.
Proof. by vm_compute. Qed.
