(* ===== verification/Grep.v ===== *)
(** * grep.c: the pattern matcher and the loop over lines

    Strings are lists of characters without their terminating zero. *)

From S2P Require Import Prelude.

Definition caret : Z := 94.
Definition dollar : Z := 36.
Definition period : Z := 46.
Definition asterisk : Z := 42.
Definition newline : Z := 10.

(** ** The matcher *)

(** [matchstar], with the search for the rest of the pattern as an argument. *)
Fixpoint matchstar (c : Z) (here : list Z -> bool) (text : list Z) : bool :=
  here text ||
  match text with
  | [] => false
  | t :: text => ((t =? c) || (c =? period)) && matchstar c here text
  end.

Fixpoint matchhere (re text : list Z) {struct re} : bool :=
  match re with
  | [] => true
  | c :: re' =>
    let literal :=
      if (c =? dollar) && bool_decide (re' = []) then bool_decide (text = []) else
      match text with
      | [] => false
      | t :: text => ((c =? period) || (c =? t)) && matchhere re' text
      end in
    match re' with
    | s :: re'' => if s =? asterisk then matchstar c (matchhere re'') text else literal
    | [] => literal
    end
  end.

(** The loop of [match_]. *)
Fixpoint match_from (re text : list Z) : bool :=
  matchhere re text || match text with [] => false | _ :: text => match_from re text end.
Definition match_ (re text : list Z) : bool :=
  match re with
  | c :: re' => if c =? caret then matchhere re' text else match_from re text
  | [] => match_from re text
  end.

(** ** The loop over lines *)

(** [strchr(p, '\n')] on the bytes in the buffer, which end in a zero: the line and what
    follows it. *)
Fixpoint next_line (p : list Z) : option (list Z * list Z) :=
  match p with
  | [] => None
  | c :: p =>
    if c =? newline then Some ([], p) else
    if c =? 0 then None else
    match next_line p with Some (l, rest) => Some (c :: l, rest) | None => None end
  end.

(** The inner loop: what is written, and the bytes after the last line found. *)
Fixpoint grep_lines (n : nat) (pattern p : list Z) : list Z * list Z :=
  match n with
  | O => ([], p)
  | S n =>
    match next_line p with
    | None => ([], p)
    | Some (l, rest) =>
      let r := grep_lines n pattern rest in
      ((if match_ pattern l then l ++ [newline] else []) ++ fst r, snd r)
    end
  end.

(** [sizeof(buf)]. *)
Definition BUF : Z := 1024.

(** [grep]: [held] are the first [m] bytes of the buffer, [reads] what the calls of [read]
    return, [None] a read that does not fit the buffer.  The value is the output. *)
Fixpoint grep_loop (pattern held : list Z) (reads : list (list Z)) : option (list Z) :=
  match reads with
  | [] => Some []
  | [] :: _ => Some []
  | bs :: reads =>
    if BUF - Z.of_nat (length held) - 1 <? Z.of_nat (length bs) then None else
    let buf := held ++ bs in
    let r := grep_lines (length buf) pattern buf in
    let held := if bool_decide (next_line buf = None) then [] else snd r in
    option_map (app (fst r)) (grep_loop pattern held reads)
  end.
Definition grep (pattern : list Z) (reads : list (list Z)) : option (list Z) := grep_loop pattern [] reads.

(** ** What a pattern means *)

(** The strings a pattern matches at their beginning. *)
Inductive denotes : list Z -> list Z -> Prop :=
| d_end text : denotes [] text
| d_dollar : denotes [dollar] []
| d_star c re s text :
    (forall t, t ∈ s -> t = c \/ c = period) -> denotes re text -> denotes (c :: asterisk :: re) (s ++ text)
| d_char c re t text :
    head re <> Some asterisk -> (c, re) <> (dollar, []) -> c = period \/ c = t -> denotes re text ->
    denotes (c :: re) (t :: text).

Lemma matchstar_spec c here text :
  matchstar c here text = true <->
  exists s rest, text = s ++ rest /\ (forall t, t ∈ s -> t = c \/ c = period) /\ here rest = true.
Proof.
  induction text as [|t text IH]; cbn [matchstar]; rewrite orb_true_iff.
  - split.
    + intros [H|]; [|done]. exists [], []. split; [done|]. split; [|done]. intros t H'. by apply elem_of_nil in H'.
    + intros (s & rest & E & _ & H). symmetry in E. apply app_nil in E as [-> ->]. by left.
  - rewrite andb_true_iff, orb_true_iff, !Z.eqb_eq, IH. split.
    + intros [H|[Hc (s & rest & -> & Hs & H)]].
      * exists [], (t :: text). split; [done|]. split; [|done]. intros t' H'. by apply elem_of_nil in H'.
      * exists (t :: s), rest. split; [done|]. split; [|done]. intros t' [->|H']%elem_of_cons; [done|by apply Hs].
    + intros (s & rest & E & Hs & H). destruct s as [|x s]; [left; by rewrite E|right]. injection E as -> ->.
      split; [apply Hs; left|]. exists s, rest. split; [done|]. split; [|done]. intros t' H'. apply Hs. by right.
Qed.

Lemma matchhere_eq c re' text :
  head re' <> Some asterisk ->
  matchhere (c :: re') text =
    if (c =? dollar) && bool_decide (re' = []) then bool_decide (text = []) else
    match text with [] => false | t :: text => ((c =? period) || (c =? t)) && matchhere re' text end.
Proof.
  intros Hh. destruct re' as [|s re'']; [done|]. cbn [matchhere]. destruct (Z.eqb_spec s asterisk) as [->|]; [by destruct Hh|done].
Qed.

Lemma matchhere_spec re text : matchhere re text = true <-> denotes re text.
Proof.
  remember (length re) as n eqn:En. assert (Hn : (length re <= n)%nat) by lia. clear En. revert re text Hn.
  induction n as [|n IH]; intros re text Hn; (destruct re as [|c re']; [split; [constructor|done]|]); cbn [length] in Hn; [lia|].
  destruct (decide (head re' = Some asterisk)) as [Hst|Hst].
  - destruct re' as [|x re]; [done|]. injection Hst as ->. cbn [matchhere length] in *. rewrite Z.eqb_refl, matchstar_spec. split.
    + intros (s & rest & -> & Hs & H). constructor; [done|]. apply IH; [lia|done].
    + intros H. inversion H; subst; [|done]. exists s, text0. split; [done|]. split; [done|]. apply IH; [lia|done].
  - rewrite matchhere_eq by done. destruct ((c =? dollar) && bool_decide (re' = [])) eqn:Ed.
    + apply andb_prop in Ed as [->%Z.eqb_eq ->%bool_decide_eq_true]. rewrite bool_decide_eq_true. split; [by intros ->; constructor|].
      intros H. inversion H; subst; done.
    + assert (Hne : (c, re') <> (dollar, [])) by (intros [= -> ->]; done). destruct text as [|t text].
      * split; [done|]. intros H. inversion H; subst; done.
      * rewrite andb_true_iff, orb_true_iff, !Z.eqb_eq, IH by lia. split.
        -- intros [Hc H]. by constructor.
        -- intros H. inversion H as [| |? ? ? ? _ _ E1 E2|]; subst; [done|]. by split.
Qed.

Lemma match_from_spec re text : match_from re text = true <-> exists pre suf, text = pre ++ suf /\ denotes re suf.
Proof.
  induction text as [|t text IH]; cbn [match_from]; rewrite orb_true_iff, matchhere_spec.
  - split.
    + intros [H|]; [|done]. by exists [], [].
    + intros (pre & suf & E & H). symmetry in E. apply app_nil in E as [-> ->]. by left.
  - rewrite IH. split.
    + intros [H|(pre & suf & -> & H)]; [by exists [], (t :: text)|by exists (t :: pre), suf].
    + intros (pre & suf & E & H). destruct pre as [|x pre]; [left; by rewrite E|right]. injection E as -> ->. by exists pre, suf.
Qed.

(** ** Properties *)

(** C38. The matcher decides the language of the pattern: a pattern that starts with [^]
    matches the texts whose beginning it denotes, any other pattern those with a suffix
    whose beginning it denotes; here [c*] stands for any number of [c], a period for any
    character, and [$] at the end for the end of the text. *)
Theorem match_correct re text :
  match_ re text = true <->
  match re with
  | c :: re' => if c =? caret then denotes re' text else exists pre suf, text = pre ++ suf /\ denotes re suf
  | [] => True
  end.
Proof.
  destruct re as [|c re]; cbn [match_].
  - split; [done|]. intros _. destruct text; done.
  - destruct (c =? caret); [apply matchhere_spec|apply match_from_spec].
Qed.

(** The complete lines of a text, and what follows the last newline. *)
Fixpoint split_lines (s : list Z) : list (list Z) * list Z :=
  match s with
  | [] => ([], [])
  | c :: s =>
    let r := split_lines s in
    if c =? newline then ([] :: fst r, snd r) else
    match fst r with
    | [] => ([], c :: snd r)
    | l :: ls => ((c :: l) :: ls, snd r)
    end
  end.
(** What grep is to print of them. *)
Definition matching (pattern : list Z) (ls : list (list Z)) : list Z :=
  mjoin ((fun l => if match_ pattern l then l ++ [newline] else []) <$> ls).

Lemma split_lines_app a b :
  split_lines (a ++ b) =
    (fst (split_lines a) ++ fst (split_lines (snd (split_lines a) ++ b)), snd (split_lines (snd (split_lines a) ++ b))).
Proof.
  induction a as [|c a IH]; [cbn; by destruct (split_lines b)|]. cbn [split_lines app]. rewrite IH.
  destruct (split_lines a) as [[|l ls] t] eqn:Ea; cbn [fst snd app] in *; destruct (c =? newline) eqn:Ec; try done.
  cbn [fst snd app split_lines]. rewrite Ec. by destruct (fst (split_lines (t ++ b))).
Qed.

Lemma next_line_split s :
  0 ∉ s -> next_line s =
    match fst (split_lines s) with
    | [] => None
    | l :: _ => Some (l, drop (S (length l)) s)
    end.
Proof.
  induction s as [|c s IH]; intros H0; [done|]. apply not_elem_of_cons in H0 as [Hc H0]. cbn [next_line split_lines].
  destruct (c =? newline) eqn:E; [done|]. rewrite (proj2 (Z.eqb_neq c 0)) by congruence. rewrite (IH H0).
  by destruct (fst (split_lines s)).
Qed.

Lemma split_lines_drop s l ls :
  fst (split_lines s) = l :: ls -> split_lines (drop (S (length l)) s) = (ls, snd (split_lines s)).
Proof.
  revert l ls. induction s as [|c s IH]; intros l ls; [done|]. cbn [split_lines]. destruct (c =? newline).
  - intros [= <- <-]. cbn. rewrite drop_0. by destruct (split_lines s).
  - destruct (split_lines s) as [[|l' ls'] t] eqn:E; cbn [fst snd]; [done|]. intros [= <- <-]. cbn [length drop].
    by rewrite (IH l' ls').
Qed.

Lemma split_has_line s : newline ∈ s -> exists l ls, fst (split_lines s) = l :: ls.
Proof.
  induction s as [|c s IH]; intros Hn; [by apply elem_of_nil in Hn|]. cbn [split_lines].
  destruct (Z.eqb_spec c newline) as [|Hne]; [by eexists _, _|]. apply elem_of_cons in Hn as [E|Hin]; [by destruct Hne|].
  destruct (IH Hin) as (l & ls & ->). by eexists _, _.
Qed.

Lemma split_tail_in s x : x ∈ snd (split_lines s) -> x ∈ s.
Proof.
  induction s as [|c s IH]; cbn [split_lines]; [done|]. destruct (c =? newline); [right; auto|].
  destruct (fst (split_lines s)); [|right; auto]. cbn. intros [<-|H]%elem_of_cons; [left|right; auto].
Qed.

Lemma split_tail s : fst (split_lines (snd (split_lines s))) = [].
Proof.
  induction s as [|c s IH]; cbn [split_lines]; [done|]. destruct (c =? newline) eqn:E; [done|].
  destruct (split_lines s) as [[|l ls] t]; cbn [fst snd] in *; [|done]. cbn [split_lines]. by rewrite E, IH.
Qed.

Lemma grep_lines_split pattern n : forall s, 0 ∉ s -> (length s <= n)%nat ->
  grep_lines n pattern s = (matching pattern (fst (split_lines s)), snd (split_lines s)).
Proof.
  induction n as [|n IH]; intros s H0 Hn; [destruct s; [done|cbn in Hn; lia]|]. cbn [grep_lines]. rewrite next_line_split by done.
  destruct (fst (split_lines s)) as [|l ls] eqn:E.
  - assert (Es : forall s, fst (split_lines s) = [] -> snd (split_lines s) = s).
    { clear. induction s as [|c s IH]; [done|]. cbn. destruct (c =? newline); [done|]. destruct (fst (split_lines s)); [|done].
      intros _. cbn. by rewrite IH. }
    by rewrite (Es s E).
  - rewrite IH.
    + rewrite (split_lines_drop s l ls E). done.
    + intros H. apply H0. by eapply elem_of_subseteq in H; [|apply subseteq_drop].
    + rewrite length_drop. destruct s; [done|]. cbn in *. lia.
Qed.

(** [grep] prints exactly the complete lines that match, each with its newline and in
    their order, however the calls of [read] cut the text, provided each read brings at
    least one newline.  (Without the proviso it does not hold: [grep_drops_text].) *)
Theorem grep_correct pattern reads out :
  (forall bs, bs ∈ reads -> 0 ∉ bs /\ newline ∈ bs) -> grep pattern reads = Some out ->
  out = matching pattern (fst (split_lines (mjoin reads))).
Proof.
  intros Hr. unfold grep. assert (H : forall held, 0 ∉ held -> fst (split_lines held) = [] ->
    grep_loop pattern held reads = Some out -> out = matching pattern (fst (split_lines (held ++ mjoin reads)))).
  2: { apply (H []); [apply not_elem_of_nil|done]. }
  revert out. induction reads as [|bs reads IH]; intros out held H0 Hh E; cbn [grep_loop] in E.
  - injection E as <-. rewrite app_nil_r, Hh. done.
  - destruct (Hr bs) as [Hb0 Hbn]; [left|]. destruct bs as [|b bs]; [by apply elem_of_nil in Hbn|].
    set (chunk := b :: bs) in *. destruct (_ <? _); [done|]. assert (Hbuf : 0 ∉ held ++ chunk) by (rewrite elem_of_app; intros []; auto).
    rewrite grep_lines_split in E by done. cbn [fst snd] in E.
    assert (Hnl : newline ∈ held ++ chunk) by (apply elem_of_app; by right).
    destruct (split_has_line _ Hnl) as (l & ls & Els). rewrite next_line_split, Els in E by done. rewrite bool_decide_eq_false_2 in E by done.
    destruct (grep_loop pattern (snd (split_lines (held ++ chunk))) reads) as [out'|] eqn:E'; [|done]. injection E as <-.
    apply IH in E' as ->.
    + cbn [mjoin list_join]. rewrite app_assoc, (split_lines_app (held ++ chunk)). cbn [fst]. rewrite Els.
      unfold matching. by rewrite fmap_app, join_app.
    + intros bs' Hin. apply Hr. by right.
    + intros H. by apply Hbuf, split_tail_in.
    + apply split_tail.
Qed.

(** The line [abc] arrives in two pieces, as from a pipe, and is not printed. *)
Lemma grep_drops_text : grep [97; 98] [[97; 98]; [99; newline]] = Some [] /\ match_ [97; 98] [97; 98; 99] = true.
Proof. split; vm_compute; reflexivity. Qed.

Lemma grep_correct_witness :
  matching [97] (fst (split_lines (mjoin [[97; newline; 98]; [newline; 97]]))) = [97; newline] /\
  grep [97] [[97; newline; 98]; [newline; 97]] = Some [97; newline].
Proof.
  assert (E : grep [97] [[97; newline; 98]; [newline; 97]] = Some [97; newline]) by (vm_compute; reflexivity). split; [|exact E].
  symmetry. apply (grep_correct [97] [[97; newline; 98]; [newline; 97]] [97; newline]); [|exact E].
  intros bs [->|[->|H]%elem_of_cons]%elem_of_cons; [| |by apply elem_of_nil in H];
    (split; apply (bool_decide_unpack _); vm_compute; exact I).
Defined.
