(* ===== verification/Sh.v ===== *)
(** * sh.c: the parser of the shell

    The line is a list of characters without zeros.  A pointer into it is given by what
    follows it, and stored in a command by the number of characters that follow
    ([es - q]). *)

From S2P Require Import Prelude.

(** ** Commands *)

(** [struct cmd] and its kinds; [W] is how a word of the line is given. *)
Inductive cmd {W : Type} :=
| EXEC (argv : list W)
| REDIR (c : cmd) (file : W) (mode fd : Z)
| PIPE (left right : cmd)
| LIST (left right : cmd)
| BACK (c : cmd).
Arguments cmd : clear implicits.

Definition MAXARGS : nat := 10.
(** The flags of fcntl.h. *)
Definition RD : Z := 0.
Definition WR_CREATE : Z := Z.lor 1 0x200.

(** A word: the pointers [q] and [eq]. *)
Definition word : Type := nat * nat.

(** What a parsing function gives: a value and the rest of the line, the message of a
    [panic], or nothing when the recursion was cut off. *)
Inductive parsed (A : Type) := Ok (a : A) (s : list Z) | Error (msg : string) | Cut.
Arguments Ok {A} a s.
Arguments Error {A} msg.
Arguments Cut {A}.

Definition andthen {A B} (r : parsed A) (f : A -> list Z -> parsed B) : parsed B :=
  match r with Ok a s => f a s | Error e => Error e | Cut => Cut end.

(** ** Tokens *)

Definition whitespace (c : Z) : bool := bool_decide (c ∈ [32; 9; 13; 10; 11]).
(** [<|>&;()] *)
Definition symbols (c : Z) : bool := bool_decide (c ∈ [60; 124; 62; 38; 59; 40; 41]).
Definition wordchar (c : Z) : bool := negb (whitespace c) && negb (symbols c).

Fixpoint skip_space (s : list Z) : list Z :=
  match s with
  | c :: s' => if whitespace c then skip_space s' else s
  | [] => []
  end.
Fixpoint skip_word (s : list Z) : list Z :=
  match s with
  | c :: s' => if wordchar c then skip_word s' else s
  | [] => []
  end.

(** The token, its two ends and the rest. *)
Definition gettoken (s : list Z) : Z * word * list Z :=
  let q := skip_space s in
  let (ret, eq) :=
    match q with
    | [] => (0, q)
    | c :: s =>
      if (c =? 124) || (c =? 40) || (c =? 41) || (c =? 59) || (c =? 38) || (c =? 60) then (c, s)
      else if c =? 62 then
        match s with
        | c' :: s' => if c' =? 62 then (43, s') else (62, s)
        | [] => (62, s)
        end
      else (97, skip_word q)
    end in
  (ret, (length q, length eq), skip_space eq).

(** [peek]: the rest without leading blanks, and whether it starts with one of [toks]. *)
Definition peek (s : list Z) (toks : list Z) : bool * list Z :=
  let s := skip_space s in
  (match s with c :: _ => bool_decide (c ∈ toks) | [] => false end, s).

(** ** The grammar *)

Definition redirection : Type := word * Z * Z.
(** [cmd = redircmd(cmd, q, eq, ...)], repeated. *)
Definition add_redirs (c : cmd word) (rs : list redirection) : cmd word :=
  foldl (fun c r => REDIR c (fst (fst r)) (snd (fst r)) (snd r)) c rs.

(** The redirections of [parseredirs], in order. *)
Fixpoint redirs (fuel : nat) (s : list Z) : parsed (list redirection) :=
  match fuel with
  | O => Cut
  | S fuel =>
    let (p, s) := peek s [60; 62] in
    if p then
      let '(tok, _, s) := gettoken s in
      let '(t, file, s) := gettoken s in
      if negb (t =? 97) then Error "missing file for redirection" else
      andthen (redirs fuel s) (fun rs s =>
        Ok ((if tok =? 60 then (file, RD, 0) else (file, WR_CREATE, 1)) :: rs) s)
    else Ok [] s
  end.
Definition parseredirs (fuel : nat) (c : cmd word) (s : list Z) : parsed (cmd word) :=
  andthen (redirs fuel s) (fun rs s => Ok (add_redirs c rs) s).

(** The loop of [parseexec] once [argc] words have been read: the further words, and the
    redirections between them.  The words are stored in the [execcmd] whatever has been
    wrapped around it. *)
Fixpoint parseargs (fuel : nat) (argc : nat) (s : list Z) : parsed (list word * list redirection) :=
  match fuel with
  | O => Cut
  | S fuel =>
    let (p, s) := peek s [124; 41; 38; 59] in
    if p then Ok ([], []) s else
    let '(tok, w, s) := gettoken s in
    if tok =? 0 then Ok ([], []) s else
    if negb (tok =? 97) then Error "syntax" else
    if (MAXARGS <=? S argc)%nat then Error "too many args" else
    andthen (redirs (S (length s)) s) (fun rs s =>
    andthen (parseargs fuel (S argc) s) (fun r s => Ok (w :: fst r, rs ++ snd r) s))
  end.

(** The loop of [parseline] that collects [&]. *)
Fixpoint parseback (fuel : nat) (c : cmd word) (s : list Z) : parsed (cmd word) :=
  match fuel with
  | O => Cut
  | S fuel =>
    let (p, s) := peek s [38] in
    if p then let '(_, _, s) := gettoken s in parseback fuel (BACK c) s else Ok c s
  end.

Fixpoint parseline (fuel : nat) (s : list Z) : parsed (cmd word) :=
  match fuel with
  | O => Cut
  | S fuel =>
    andthen (parsepipe fuel s) (fun c s =>
    andthen (parseback (S (length s)) c s) (fun c s =>
    let (p, s) := peek s [59] in
    if p then
      let '(_, _, s) := gettoken s in
      andthen (parseline fuel s) (fun c' s => Ok (LIST c c') s)
    else Ok c s))
  end
with parsepipe (fuel : nat) (s : list Z) : parsed (cmd word) :=
  match fuel with
  | O => Cut
  | S fuel =>
    andthen (parseexec fuel s) (fun c s =>
    let (p, s) := peek s [124] in
    if p then
      let '(_, _, s) := gettoken s in
      andthen (parsepipe fuel s) (fun c' s => Ok (PIPE c c') s)
    else Ok c s)
  end
with parseexec (fuel : nat) (s : list Z) : parsed (cmd word) :=
  match fuel with
  | O => Cut
  | S fuel =>
    let (p, s) := peek s [40] in
    if p then parseblock fuel s else
    andthen (redirs (S (length s)) s) (fun rs s =>
    andthen (parseargs (S (length s)) 0 s) (fun r s => Ok (add_redirs (EXEC (fst r)) (rs ++ snd r)) s))
  end
with parseblock (fuel : nat) (s : list Z) : parsed (cmd word) :=
  match fuel with
  | O => Cut
  | S fuel =>
    let (p, s) := peek s [40] in
    if negb p then Error "parseblock" else
    let '(_, _, s) := gettoken s in
    andthen (parseline fuel s) (fun c s =>
    let (p, s) := peek s [41] in
    if negb p then Error "syntax - missing )" else
    let '(_, _, s) := gettoken s in
    parseredirs (S (length s)) c s)
  end.

(** [parsecmd] without [nulterminate]; the recursion is at most four levels deep for each
    character. *)
Definition parsecmd (s : list Z) : parsed (cmd word) :=
  andthen (parseline (4 * length s + 4) s) (fun c s =>
  let s := skip_space s in
  if bool_decide (s = []) then Ok c s else Error "syntax").

(** ** The words as strings *)

Fixpoint words {W} (c : cmd W) : list W :=
  match c with
  | EXEC argv => argv
  | REDIR c f _ _ => words c ++ [f]
  | PIPE a b | LIST a b => words a ++ words b
  | BACK c => words c
  end.
Fixpoint map_words {V W} (f : V -> W) (c : cmd V) : cmd W :=
  match c with
  | EXEC argv => EXEC (f <$> argv)
  | REDIR c w m fd => REDIR (map_words f c) (f w) m fd
  | PIPE a b => PIPE (map_words f a) (map_words f b)
  | LIST a b => LIST (map_words f a) (map_words f b)
  | BACK c => BACK (map_words f c)
  end.

(** [nulterminate]: a zero is stored at the end of each word; the buffer has room for one
    behind the line. *)
Definition nulterminate (c : cmd word) (line : list Z) : list Z :=
  foldl (fun b w => <[(length line - snd w)%nat := 0]> b) (line ++ [0]) (words c).

Fixpoint cstring (s : list Z) : list Z :=
  match s with
  | [] => []
  | c :: s => if c =? 0 then [] else c :: cstring s
  end.
(** The string a pointer gives in the buffer of a line of length [n]. *)
Definition string_at (n : nat) (buf : list Z) (w : word) : list Z := cstring (drop (n - fst w) buf).

(** The command as [runcmd] sees it. *)
Definition parse_line (line : list Z) : option (cmd (list Z)) :=
  match parsecmd line with
  | Ok c _ => Some (map_words (string_at (length line) (nulterminate c line)) c)
  | _ => None
  end.
