(* ===== verification/ShProps.v ===== *)
(** * The parser of the shell ends, cuts words out exactly, and inverts printing *)

From S2P Require Import Prelude Sh.

(** ** Tokens *)

Lemma skip_space_le s : (length (skip_space s) <= length s)%nat.
Proof. induction s as [|c s IH]; [done|]. cbn. destruct (whitespace c); cbn; lia. Qed.
Lemma skip_word_le s : (length (skip_word s) <= length s)%nat.
Proof. induction s as [|c s IH]; [done|]. cbn. destruct (wordchar c); cbn; lia. Qed.

Lemma skip_space_head s c r : skip_space s = c :: r -> whitespace c = false.
Proof. induction s as [|x s IH]; [done|]. cbn. destruct (whitespace x) eqn:E; [done|]. by intros [= <- <-]. Qed.

Definition suffix (line s : list Z) : Prop := exists pre, line = pre ++ s.
Lemma suffix_trans line s s' : suffix line s -> suffix s s' -> suffix line s'.
Proof. intros [p ->] [p' ->]. exists (p ++ p'). by rewrite app_assoc. Qed.
Lemma suffix_refl s : suffix s s.
Proof. by exists []. Qed.
Lemma suffix_cons c s : suffix (c :: s) s.
Proof. by exists [c]. Qed.
Lemma suffix_space s : suffix s (skip_space s).
Proof.
  induction s as [|c s IH]; [apply suffix_refl|]. cbn. destruct (whitespace c); [|apply suffix_refl].
  eapply suffix_trans; [apply suffix_cons|done].
Qed.

Lemma skip_word_split s : exists w, s = w ++ skip_word s /\ Forall (fun c => wordchar c = true) w.
Proof.
  induction s as [|c s (w & E & Hw)]; [by exists []|]. cbn. destruct (wordchar c) eqn:Ec; [|by exists []].
  exists (c :: w). split; [cbn; by rewrite <- E|by constructor].
Qed.
Lemma skip_word_head s c r : skip_word s = c :: r -> wordchar c = false.
Proof. induction s as [|x s IH]; [done|]. cbn. destruct (wordchar x) eqn:E; [done|]. by intros [= <- <-]. Qed.

(** The word between two pointers, when it is one: its characters are word characters and
    the one after it is not. *)
Definition word_ok (line : list Z) (w : word) : Prop :=
  exists pre t e, line = pre ++ t ++ e /\ w = (length (t ++ e), length e) /\ Forall (fun c => wordchar c = true) t /\
    (forall c r, e = c :: r -> wordchar c = false).

Lemma not_symbol c :
  (c =? 124) || (c =? 40) || (c =? 41) || (c =? 59) || (c =? 38) || (c =? 60) = false -> c =? 62 = false -> symbols c = false.
Proof.
  rewrite !orb_false_iff, !Z.eqb_neq. intros [[[[[? ?] ?] ?] ?] ?] ?. unfold symbols. apply bool_decide_eq_false_2.
  rewrite !elem_of_cons, elem_of_nil. lia.
Qed.

Lemma gettoken_spec line s tok w r :
  suffix line s -> gettoken s = (tok, w, r) ->
  suffix line r /\ (length r <= length s)%nat /\ (skip_space s <> [] -> (length r < length s)%nat) /\
  (tok = 97 -> word_ok line w) /\ (tok = 0 -> skip_space s = []).
Proof.
  intros Hs H. unfold gettoken in H. pose proof (skip_space_le s) as Hl. pose proof (suffix_trans _ _ _ Hs (suffix_space s)) as Hq.
  destruct (skip_space s) as [|c q] eqn:Eq; [injection H as <- <- <-; split_and!; try done; cbn; lia|].
  apply skip_space_head in Eq as Hc. cbn [length] in Hl. pose proof (suffix_trans _ _ _ Hq (suffix_cons c q)) as Hq1.
  destruct (_ || _) eqn:E1.
  { injection H as <- <- <-. pose proof (skip_space_le q).
    split_and!; [by eapply suffix_trans, suffix_space|lia|intros _; lia| |].
    - intros ->. done.
    - intros ->. done. }
  destruct (c =? 62) eqn:E2.
  { destruct q as [|c' q'].
    - injection H as <- <- <-. split_and!; try done; cbn in *; lia.
    - pose proof (suffix_trans _ _ _ Hq1 (suffix_cons c' q')) as Hq2. destruct (c' =? 62); injection H as <- <- <-.
      + pose proof (skip_space_le q'). cbn [length] in Hl. split_and!; try done; [by eapply suffix_trans, suffix_space|lia|intros _; lia].
      + pose proof (skip_space_le (c' :: q')) as Hle. pose proof (suffix_trans _ _ _ Hq1 (suffix_space (c' :: q'))) as Hsf.
        cbn [skip_space] in Hle. split_and!; try done; [lia|intros _; lia]. }
  assert (Hwc : wordchar c = true) by (unfold wordchar; by rewrite Hc, (not_symbol c E1 E2)).
  injection H as <- <- <-. cbn [skip_word]. rewrite Hwc. pose proof (skip_word_le q). pose proof (skip_space_le (skip_word q)).
  destruct (skip_word_split q) as (t & Et & Ht). assert (Hr : suffix line (skip_word q)).
  { eapply suffix_trans; [exact Hq1|]. exists t. exact Et. }
  split_and!; [by eapply suffix_trans, suffix_space|lia|intros _; lia| |done].
  intros _. destruct Hq as [pre ->]. exists pre, (c :: t), (skip_word q). split; [cbn; by rewrite <- Et|].
  split; [cbn; by rewrite <- Et|]. split; [by constructor|]. intros x r. apply skip_word_head.
Qed.

Lemma peek_spec s toks p r :
  peek s toks = (p, r) -> r = skip_space s /\ (p = true -> exists c q, r = c :: q /\ c ∈ toks).
Proof.
  unfold peek. intros [= <- <-]. split; [done|]. destruct (skip_space s) as [|c q]; [done|]. intros H%bool_decide_eq_true. by exists c, q.
Qed.

Lemma skip_space_idem s : skip_space (skip_space s) = skip_space s.
Proof. induction s as [|c s IH]; [done|]. cbn. destruct (whitespace c) eqn:E; [done|]. cbn. by rewrite E. Qed.

(** A token behind a successful [peek] is there. *)
Lemma peek_token line s toks r tok w r' :
  suffix line s -> peek s toks = (true, r) -> gettoken r = (tok, w, r') ->
  suffix line r' /\ (length r' < length s)%nat.
Proof.
  intros Hs Hp Ht. apply peek_spec in Hp as [-> Hp]. destruct (Hp eq_refl) as (c & q & E & _).
  pose proof (suffix_trans _ _ _ Hs (suffix_space s)) as Hs'. destruct (gettoken_spec line _ _ _ _ Hs' Ht) as (H1 & _ & H2 & _).
  split; [done|]. rewrite skip_space_idem, E in H2. specialize (H2 ltac:(done)). pose proof (skip_space_le s). rewrite E in *. lia.
Qed.

(** ** Every call ends, and every word is one *)

(** The recursion was not cut off, the rest is a rest of the line of at most [n]
    characters, and all words are words. *)
Definition good {A} (ws : A -> list word) (line : list Z) (n : nat) (r : parsed A) : Prop :=
  match r with
  | Ok a s => suffix line s /\ (length s <= n)%nat /\ Forall (word_ok line) (ws a)
  | Error _ => True
  | Cut => False
  end.

Lemma good_andthen {A B} (wa : A -> list word) (wb : B -> list word) line n m (r : parsed A) f :
  good wa line n r ->
  (forall a s, suffix line s -> (length s <= n)%nat -> Forall (word_ok line) (wa a) -> good wb line m (f a s)) ->
  good wb line m (andthen r f).
Proof. destruct r; [|done|done]. intros (H1 & H2 & H3) Hf. by apply Hf. Qed.

Definition redir_words (rs : list redirection) : list word := (fun r => fst (fst r)) <$> rs.

Lemma words_redirs rs : forall c, words (add_redirs c rs) = words c ++ redir_words rs.
Proof. induction rs as [|r rs IH]; intros c; cbn; [by rewrite app_nil_r|]. fold (add_redirs (REDIR c (fst (fst r)) (snd (fst r)) (snd r)) rs). rewrite IH. cbn. by rewrite <- app_assoc. Qed.

Lemma redirs_good line fuel : forall s, suffix line s -> (length s < fuel)%nat -> good redir_words line (length s) (redirs fuel s).
Proof.
  induction fuel as [|fuel IH]; intros s Hs Hf; [lia|]. cbn [redirs]. destruct (peek s [60; 62]) as [p r] eqn:Ep.
  pose proof Ep as Ep'. apply peek_spec in Ep' as [-> _]. pose proof (suffix_trans _ _ _ Hs (suffix_space s)) as Hs'. pose proof (skip_space_le s).
  destruct p; [|by split_and!]. destruct (gettoken (skip_space s)) as [[tok w] r] eqn:Et.
  destruct (peek_token line s _ _ _ _ _ Hs Ep Et) as [Hr Hl]. destruct (gettoken r) as [[t file] r'] eqn:Et'.
  destruct (gettoken_spec line _ _ _ _ Hr Et') as (Hr' & Hl' & _ & Hw & _). destruct (Z.eqb_spec t 97) as [->|]; [|done]. cbn [negb].
  eapply good_andthen; [apply IH; [done|lia]|]. intros rs s' H1 H2 H3. split; [done|]. split; [lia|].
  destruct (tok =? 60); constructor; auto.
Qed.

Definition arg_words (r : list word * list redirection) : list word := fst r ++ redir_words (snd r).

Lemma parseargs_good line fuel : forall argc s, suffix line s -> (length s < fuel)%nat ->
  good arg_words line (length s) (parseargs fuel argc s).
Proof.
  induction fuel as [|fuel IH]; intros argc s Hs Hf; [lia|]. cbn [parseargs]. destruct (peek s _) as [p r] eqn:Ep.
  pose proof Ep as Ep'. apply peek_spec in Ep' as [-> _]. pose proof (suffix_trans _ _ _ Hs (suffix_space s)) as Hs'. pose proof (skip_space_le s).
  destruct p; [by split_and!|]. destruct (gettoken (skip_space s)) as [[tok w] r] eqn:Et.
  destruct (gettoken_spec line _ _ _ _ Hs' Et) as (Hr & Hl & Hlt & Hw & H0). destruct (Z.eqb_spec tok 0) as [->|Hne0]; [split_and!; [done|lia|done]|].
  destruct (Z.eqb_spec tok 97) as [->|]; [|done]. cbn [negb]. destruct (_ <=? _)%nat; [done|].
  assert (Hlt' : (length r < length s)%nat).
  { rewrite skip_space_idem in Hlt. destruct (skip_space s) eqn:E; [|specialize (Hlt ltac:(done)); lia].
    unfold gettoken in Et. by injection Et. }
  eapply good_andthen; [apply redirs_good; [done|lia]|]. intros rs s1 H1 H2 H3. eapply good_andthen; [apply IH; [done|lia]|].
  intros [ws rs'] s2 H4 H5 H6. split; [done|]. split; [lia|]. unfold arg_words, redir_words in *. cbn [fst snd app] in *.
  rewrite fmap_app. constructor; [auto|]. apply Forall_app in H6 as [H6 H7]. by rewrite !Forall_app.
Qed.

Lemma parseback_good line fuel : forall c s, suffix line s -> (length s < fuel)%nat -> Forall (word_ok line) (words c) ->
  good words line (length s) (parseback fuel c s).
Proof.
  induction fuel as [|fuel IH]; intros c s Hs Hf Hw; [lia|]. cbn [parseback]. destruct (peek s _) as [p r] eqn:Ep.
  pose proof Ep as Ep'. apply peek_spec in Ep' as [-> _]. pose proof (suffix_trans _ _ _ Hs (suffix_space s)) as Hs'. pose proof (skip_space_le s).
  destruct p; [|by split_and!]. destruct (gettoken (skip_space s)) as [[tok w] r] eqn:Et.
  destruct (peek_token line s _ _ _ _ _ Hs Ep Et) as [Hr Hl].
  assert (G : good words line (length r) (parseback fuel (BACK c) r)) by (apply IH; [done|lia|done]).
  destruct (parseback fuel (BACK c) r); [|done|done]. destruct G as (? & ? & ?). split_and!; [done|lia|done].
Qed.

Lemma parse_good line fuel : forall s, suffix line s ->
  ((4 * length s + 4 <= fuel)%nat -> good words line (length s) (parseline fuel s)) /\
  ((4 * length s + 3 <= fuel)%nat -> good words line (length s) (parsepipe fuel s)) /\
  ((4 * length s + 2 <= fuel)%nat -> good words line (length s) (parseexec fuel s)) /\
  ((4 * length s + 1 <= fuel)%nat -> good words line (length s) (parseblock fuel s)).
Proof.
  induction fuel as [|fuel IH]; intros s Hs; [split_and!; intros Hf; lia|]. split_and!; intros Hf.
  - cbn [parseline]. eapply good_andthen; [apply IH; [done|lia]|]. intros c s1 H1 H2 H3.
    eapply good_andthen; [apply parseback_good; [done|lia|done]|]. intros c' s2 H4 H5 H6. destruct (peek s2 [59]) as [p r] eqn:Ep. destruct p.
    + destruct (gettoken r) as [[tok w] r'] eqn:Et. destruct (peek_token line s2 _ _ _ _ _ H4 Ep Et) as [Hr Hl].
      eapply good_andthen; [apply IH; [done|lia]|]. intros c2 s3 H7 H8 H9. split; [done|]. split; [lia|]. by apply Forall_app.
    + apply peek_spec in Ep as [-> _]. pose proof (skip_space_le s2). split_and!; [by eapply suffix_trans, suffix_space|lia|done].
  - cbn [parsepipe]. eapply good_andthen; [apply IH; [done|lia]|]. intros c s1 H1 H2 H3.
    destruct (peek s1 [124]) as [p r] eqn:Ep. destruct p.
    + destruct (gettoken r) as [[tok w] r'] eqn:Et. destruct (peek_token line s1 _ _ _ _ _ H1 Ep Et) as [Hr Hl].
      eapply good_andthen; [apply IH; [done|lia]|]. intros c2 s3 H7 H8 H9. split; [done|]. split; [lia|]. by apply Forall_app.
    + apply peek_spec in Ep as [-> _]. pose proof (skip_space_le s1). split_and!; [by eapply suffix_trans, suffix_space|lia|done].
  - cbn [parseexec]. destruct (peek s [40]) as [p r] eqn:Ep. pose proof Ep as Ep'. apply peek_spec in Ep' as [-> _].
    pose proof (suffix_trans _ _ _ Hs (suffix_space s)) as Hs'. pose proof (skip_space_le s). destruct p.
    + assert (G : good words line (length (skip_space s)) (parseblock fuel (skip_space s))) by (apply IH; [done|lia]).
      destruct (parseblock fuel (skip_space s)); [|done|done]. destruct G as (? & ? & ?). split_and!; [done|lia|done].
    + eapply good_andthen; [apply redirs_good; [done|lia]|]. intros rs s1 H1 H2 H3.
      eapply good_andthen; [apply parseargs_good; [done|lia]|]. intros [ws rs'] s2 H4 H5 H6. split; [done|]. split; [lia|].
      rewrite words_redirs. unfold arg_words, redir_words in *. cbn [words fst snd] in *. rewrite fmap_app.
      apply Forall_app in H6 as [H6 H7]. by rewrite !Forall_app.
  - cbn [parseblock]. destruct (peek s [40]) as [p r] eqn:Ep. destruct p; [|done]. cbn [negb].
    destruct (gettoken r) as [[tok w] r'] eqn:Et. destruct (peek_token line s _ _ _ _ _ Hs Ep Et) as [Hr Hl].
    eapply good_andthen; [apply IH; [done|lia]|]. intros c s1 H1 H2 H3. destruct (peek s1 [41]) as [p r2] eqn:Ep2. destruct p; [|done]. cbn [negb].
    destruct (gettoken r2) as [[tok2 w2] r3] eqn:Et2. destruct (peek_token line s1 _ _ _ _ _ H1 Ep2 Et2) as [Hr3 Hl3].
    unfold parseredirs. eapply good_andthen; [apply redirs_good; [done|lia]|]. intros rs s2 H4 H5 H6. split; [done|]. split; [lia|].
    rewrite words_redirs. by apply Forall_app.
Qed.

Lemma parsecmd_good line : good words line (length line) (parsecmd line).
Proof.
  unfold parsecmd. eapply good_andthen; [apply (parse_good line); [apply suffix_refl|lia]|]. intros c s H1 H2 H3.
  destruct (bool_decide _); [|done]. pose proof (skip_space_le s). split_and!; [by eapply suffix_trans, suffix_space|lia|done].
Qed.

(** ** [nulterminate] *)

(** The text between two pointers. *)
Definition text (line : list Z) (w : word) : list Z := take (fst w - snd w) (drop (length line - fst w) line).

Lemma text_of line pre t e : line = pre ++ t ++ e -> text line (length (t ++ e), length e) = t.
Proof.
  intros ->. unfold text. cbn [fst snd]. rewrite !length_app. replace (length pre + _ - _)%nat with (length pre) by lia.
  rewrite drop_app_length. replace (_ - _)%nat with (length t) by lia. by rewrite take_app_length.
Qed.

Lemma cstring_app t r : Forall (fun c => c <> 0) t -> cstring (t ++ 0 :: r) = t.
Proof. induction 1 as [|c t Hc _ IH]; [done|]. cbn. rewrite (proj2 (Z.eqb_neq c 0) Hc). by rewrite IH. Qed.

(** A store of zero at the end of any word leaves the characters of a word. *)
Lemma store_keeps line w w' i :
  word_ok line w -> word_ok line w' -> (length line - fst w <= i < length line - snd w)%nat -> i <> (length line - snd w')%nat.
Proof.
  intros (p & t & e & E & -> & Ht & He) (p' & t' & e' & E' & -> & Ht' & He') Hi ->. cbn [fst snd] in *.
  assert (Hl : length line = (length p + (length t + length e))%nat) by (by rewrite E, !length_app).
  assert (Hl' : length line = (length p' + (length t' + length e'))%nat) by (by rewrite E', !length_app).
  rewrite length_app in Hi. set (k := (length line - length e')%nat) in *.
  assert (Hk : line !! k = t !! (k - length p)%nat).
  { rewrite E at 1. rewrite lookup_app_r by lia. rewrite lookup_app_l by lia. done. }
  destruct e' as [|c r]; [cbn [length] in *; lia|].
  assert (Hk' : line !! k = Some c).
  { rewrite E' at 1. rewrite app_assoc, lookup_app_r by (rewrite length_app; cbn [length] in *; lia).
    rewrite length_app. replace (k - _)%nat with 0%nat by (cbn [length] in *; lia). done. }
  rewrite Hk' in Hk. symmetry in Hk. pose proof (Forall_lookup_1 _ _ _ _ Ht Hk) as H1. cbn in H1. specialize (He' c r eq_refl). congruence.
Qed.

(** Where [nulterminate] stores zeros. *)
Definition ends (line : list Z) (ws : list word) : list nat := (fun w => (length line - snd w)%nat) <$> ws.

Lemma nulterminate_lookup line ws : forall b i,
  length b = S (length line) ->
  foldl (fun b w => <[(length line - snd w)%nat := 0]> b) b ws !! i = if decide (i ∈ ends line ws) then Some 0 else b !! i.
Proof.
  induction ws as [|w ws IH]; intros b i Hl; cbn [foldl].
  - rewrite decide_False; [done|]. apply not_elem_of_nil.
  - rewrite IH by (by rewrite length_insert). change (ends line (w :: ws)) with ((length line - snd w)%nat :: ends line ws).
    destruct (decide (i ∈ ends line ws)) as [Hi|Hn]; [rewrite decide_True; [done|by right]|].
    destruct (decide (i = (length line - snd w)%nat)) as [->|Hne].
    + rewrite list_lookup_insert_eq by lia. rewrite decide_True; [done|left].
    + rewrite list_lookup_insert_ne by done. rewrite decide_False; [done|]. by intros [?|?]%elem_of_cons.
Qed.

Lemma string_at_text line c w :
  0 ∉ line -> Forall (word_ok line) (words c) -> w ∈ words c -> string_at (length line) (nulterminate c line) w = text line w.
Proof.
  intros H0 Hws Hw. pose proof (proj1 (Forall_forall _ _) Hws w Hw) as Hok. destruct Hok as (p & t & e & E & -> & Ht & He).
  rewrite (text_of line p t e E). unfold string_at, nulterminate. cbn [fst].
  assert (Hlen : length line = (length p + (length t + length e))%nat) by (by rewrite E, !length_app).
  set (b := foldl _ _ _). assert (Hb : forall i, b !! i = if decide (i ∈ ends line (words c)) then Some 0 else (line ++ [0]) !! i).
  { intros i. apply nulterminate_lookup. rewrite length_app. cbn. lia. }
  rewrite length_app. replace (length line - _)%nat with (length p) by lia.
  assert (Hd : exists r, drop (length p) b = t ++ 0 :: r).
  { exists (drop (S (length t)) (drop (length p) b)). apply list_eq. intros i. rewrite lookup_drop, Hb.
    destruct (decide (i < length t)%nat) as [Hi|Hi]; [|destruct (decide (i = length t)) as [->|Hi2]].
    - rewrite (lookup_app_l t) by lia. rewrite decide_False.
      + rewrite lookup_app_l by lia. rewrite E at 1. rewrite lookup_app_r by lia. rewrite lookup_app_l by lia. f_equal. lia.
      + intros (w' & Ei & Hw')%list_elem_of_fmap. refine (store_keeps line (length (t ++ e), length e) w' _ _ _ _ Ei); [by apply (proj1 (Forall_forall _ _) Hws)|by apply (proj1 (Forall_forall _ _) Hws)|].
        cbn [fst snd]. rewrite length_app. lia.
    - rewrite (lookup_app_r t) by lia. rewrite Nat.sub_diag. cbn. rewrite decide_True; [done|]. apply list_elem_of_fmap. exists (length (t ++ e), length e).
      split; [cbn; lia|done].
    - rewrite (lookup_app_r t) by lia. destruct (i - length t)%nat as [|j] eqn:Ej; [lia|]. change ((0 :: ?l) !! S j) with (l !! j). rewrite !lookup_drop, Hb.
      replace (length p + (S (length t) + j))%nat with (length p + i)%nat by lia. done. }
  destruct Hd as [r ->]. apply cstring_app. apply Forall_forall. intros x Hx ->. apply H0. rewrite E, !elem_of_app. auto.
Qed.

(** C32. The parser of the shell ends on every line, with a command or with the message of
    an error; when it gives a command the whole line has been read, and after
    [nulterminate] every word of the command is a string of word characters, exactly the
    text between the pointers the parser stored, whatever other words the zeros were
    stored for. *)
Theorem parsecmd_correct line :
  0 ∉ line ->
  match parsecmd line with
  | Cut => False
  | Error _ => True
  | Ok c s => s = [] /\ forall w, w ∈ words c ->
      string_at (length line) (nulterminate c line) w = text line w /\ Forall (fun c => wordchar c = true) (text line w)
  end.
Proof.
  intros H0. pose proof (parsecmd_good line) as G. destruct (parsecmd line) as [c s| |] eqn:E; [|done|done]. cbn in G.
  destruct G as (_ & _ & Hw). split.
  - unfold parsecmd, andthen in E. destruct (parseline _ line) as [c' s'| |]; [|done|done]. cbn zeta in E.
    destruct (decide (skip_space s' = [])) as [Hs|Hs]; [rewrite bool_decide_eq_true_2 in E by done|by rewrite bool_decide_eq_false_2 in E].
    injection E as _ <-. done.
  - intros w Hin. split; [by apply string_at_text|]. pose proof (proj1 (Forall_forall _ _) Hw w Hin) as (p & t & e & El & -> & Ht & _).
    by rewrite (text_of line p t e El).
Qed.

(** [ls < f | wc]. *)
Lemma parsecmd_correct_witness :
  let line := [108; 115; 32; 60; 32; 102; 32; 124; 32; 119; 99; 10] in
  exists c, parsecmd line = Ok c [] /\
    Forall (fun w => string_at (length line) (nulterminate c line) w = text line w) (words c) /\
    (text line <$> words c) = [[108; 115]; [102]; [119; 99]].
Proof.
  intros line. assert (H0 : 0 ∉ line) by (by apply (bool_decide_unpack _)). pose proof (parsecmd_correct line H0) as H.
  destruct (parsecmd line) as [c s| |] eqn:E; [|by vm_compute in E|by vm_compute in E]. destruct H as [-> H]. exists c. split_and!.
  - done.
  - apply Forall_forall. intros w Hw. by apply H.
  - vm_compute in E. injection E as <-. by vm_compute.
Defined.

(** ** Printing *)

(** A command as a line, with every part in parentheses. *)
Fixpoint print (c : cmd (list Z)) : list Z :=
  match c with
  | EXEC argv => mjoin ((fun w => w ++ [32]) <$> argv)
  | REDIR c f _ fd => 40 :: print c ++ 41 :: (if fd =? 0 then 60 else 62) :: 32 :: f ++ [32]
  | PIPE a b => 40 :: print a ++ 41 :: 124 :: 40 :: print b ++ [41]
  | LIST a b => 40 :: print a ++ 41 :: 59 :: 40 :: print b ++ [41]
  | BACK c => 40 :: print c ++ [41; 38]
  end.
Definition is_word (w : list Z) : Prop := w <> [] /\ Forall (fun c => wordchar c = true /\ c <> 0) w.
(** The commands that can be typed. *)
Fixpoint typable (c : cmd (list Z)) : Prop :=
  match c with
  | EXEC argv => (length argv < MAXARGS)%nat /\ Forall is_word argv
  | REDIR c f m fd => typable c /\ is_word f /\ ((m, fd) = (RD, 0) \/ (m, fd) = (WR_CREATE, 1))
  | PIPE a b | LIST a b => typable a /\ typable b
  | BACK c => typable c
  end.

(** What may follow a printed command. *)
Definition stops (r : list Z) : Prop := skip_space r = [] \/ exists q, skip_space r = 41 :: q.

Lemma peek_skip s toks : peek (skip_space s) toks = peek s toks.
Proof. unfold peek. by rewrite skip_space_idem. Qed.

Lemma stops_peek r toks : stops r -> 41 ∉ toks -> peek r toks = (false, skip_space r).
Proof. intros [E|[q E]] Hn; unfold peek; rewrite E; [done|]. by rewrite bool_decide_eq_false_2. Qed.

Lemma word_head w r : is_word w -> exists c t, w = c :: t /\ whitespace c = false /\ symbols c = false /\ wordchar c = true /\ skip_space (w ++ r) = w ++ r.
Proof.
  intros [Hne Hw]. destruct w as [|c t]; [done|]. apply Forall_cons in Hw as [[Hc _] _]. exists c, t.
  pose proof Hc as Hc'. unfold wordchar in Hc'. apply andb_prop in Hc' as [H1%negb_true_iff H2%negb_true_iff]. split_and!; try done.
  cbn. by rewrite H1.
Qed.

Lemma word_peek w r toks : is_word w -> (forall x, x ∈ toks -> symbols x = true) -> peek (w ++ r) toks = (false, w ++ r).
Proof.
  intros Hw Ht. destruct (word_head w r Hw) as (c & t & -> & _ & Hs & _ & E). unfold peek. rewrite E. cbn [app].
  rewrite bool_decide_eq_false_2; [done|]. intros H. specialize (Ht c H). congruence.
Qed.

Lemma skip_word_app w r : Forall (fun c => wordchar c = true) w -> (forall c q, r = c :: q -> wordchar c = false) -> skip_word (w ++ r) = r.
Proof.
  intros Hw Hr. induction Hw as [|c w Hc _ IH]; cbn; [|by rewrite Hc]. destruct r as [|c q]; [done|]. cbn. by rewrite (Hr c q).
Qed.

Lemma gettoken_word w r :
  is_word w -> gettoken (w ++ 32 :: r) = (97, (length (w ++ 32 :: r), length (32 :: r)), skip_space r).
Proof.
  intros Hw. pose proof Hw as [_ Hall]. destruct (word_head w (32 :: r) Hw) as (c & t & -> & Hws & Hs & Hwc & E). unfold gettoken. rewrite E.
  assert (Hn : forall x, x ∈ [60; 124; 62; 38; 59; 40; 41] -> (c =? x) = false).
  { intros x Hx. apply Z.eqb_neq. intros ->. unfold symbols in Hs. apply bool_decide_eq_false in Hs. done. }
  cbn [app]. rewrite !Hn by set_solver. cbn [orb]. change (c :: t ++ 32 :: r) with ((c :: t) ++ 32 :: r).
  rewrite skip_word_app; [done| |by intros ? ? [= <- _]]. eapply Forall_impl; [exact Hall|]. by intros ? [].
Qed.

Lemma gettoken_symbol x r :
  x ∈ [124; 40; 41; 59; 38; 60] -> gettoken (x :: r) = (x, (S (length r), length r), skip_space r).
Proof.
  intros Hx. assert (Hw : whitespace x = false).
  { unfold whitespace. apply bool_decide_eq_false_2. rewrite !elem_of_cons, elem_of_nil in *. lia. }
  unfold gettoken. cbn [skip_space]. rewrite Hw.
  replace ((x =? 124) || (x =? 40) || (x =? 41) || (x =? 59) || (x =? 38) || (x =? 60)) with true; [done|].
  symmetry. rewrite !orb_true_iff, !Z.eqb_eq. rewrite !elem_of_cons, elem_of_nil in Hx. lia.
Qed.

Lemma symbol_peek x r toks : x ∈ [124; 40; 41; 59; 38; 60; 62] -> peek (x :: r) toks = (bool_decide (x ∈ toks), x :: r).
Proof.
  intros Hx. unfold peek. cbn [skip_space].
  assert (Hw : whitespace x = false); [|by rewrite Hw].
  unfold whitespace. apply bool_decide_eq_false_2. rewrite !elem_of_cons, elem_of_nil in *. lia.
Qed.

Lemma no_redirs fuel r : (0 < fuel)%nat -> peek r [60; 62] = (false, skip_space r) -> redirs fuel r = Ok [] (skip_space r).
Proof. intros Hf H. destruct fuel as [|fuel]; [lia|]. cbn [redirs]. by rewrite H. Qed.

(** All of a list of characters are symbols. *)
Ltac syms := apply Forall_forall; repeat constructor.

Lemma parseargs_skip fuel argc s : parseargs fuel argc (skip_space s) = parseargs fuel argc s.
Proof. destruct fuel as [|fuel]; [done|]. cbn [parseargs]. by rewrite peek_skip. Qed.

Definition print_args (argv : list (list Z)) : list Z := mjoin ((fun w => w ++ [32]) <$> argv).

Lemma args_peek argv r toks :
  Forall is_word argv -> stops r -> (forall x, x ∈ toks -> symbols x = true) -> 41 ∉ toks ->
  peek (print_args argv ++ r) toks = (false, skip_space (print_args argv ++ r)).
Proof.
  intros Ha Hr Ht H41. destruct argv as [|w argv]; [by apply stops_peek|]. apply Forall_cons in Ha as [Hw _].
  change (print_args (w :: argv)) with ((w ++ [32]) ++ print_args argv). rewrite <- !app_assoc, word_peek by done.
  f_equal. symmetry. by destruct (word_head w ([32] ++ print_args argv ++ r) Hw) as (_ & _ & _ & _ & _ & _ & E).
Qed.

Lemma parseargs_print line r argv : forall pre argc fuel,
  line = pre ++ print_args argv ++ r -> Forall is_word argv -> stops r -> (argc + length argv < MAXARGS)%nat ->
  (length argv < fuel)%nat ->
  exists ws, parseargs fuel argc (print_args argv ++ r) = Ok (ws, []) (skip_space r) /\ (text line <$> ws) = argv.
Proof.
  induction argv as [|w argv IH]; intros pre argc fuel El Ha Hr Hc Hf; (destruct fuel as [|fuel]; [cbn in Hf; lia|]); cbn [parseargs].
  - exists []. split; [|done]. change (print_args [] ++ r) with r. unfold peek. destruct Hr as [Er|[q Er]]; rewrite Er; done.
  - apply Forall_cons in Ha as [Hw Ha]. change (print_args (w :: argv)) with ((w ++ [32]) ++ print_args argv) in *.
    rewrite <- !app_assoc in *. rewrite word_peek; [|done|syms].
    cbn [app] in El |- *. rewrite gettoken_word by done. cbn [Z.eqb negb]. rewrite (proj2 (Nat.leb_gt _ _)) by (cbn [length] in Hc; lia).
    set (s := print_args argv ++ r) in *.
    assert (Hp : peek (skip_space s) [60; 62] = (false, skip_space (skip_space s))).
    { rewrite peek_skip, skip_space_idem. apply args_peek; [done|done| |by apply (bool_decide_unpack _)].
      syms. }
    rewrite no_redirs by (done || lia). cbn [andthen]. rewrite skip_space_idem, parseargs_skip.
    destruct (IH (pre ++ w ++ [32]) (S argc) fuel) as (ws & E & Et); [by rewrite El, <- !app_assoc|done|done|cbn [length] in *; lia|cbn [length] in *; lia|].
    rewrite E. cbn [andthen fst snd app]. eexists. split; [reflexivity|]. cbn [fmap list_fmap]. rewrite Et. f_equal.
    by apply (text_of line pre w (32 :: s)).
Qed.

(** A printed command parses back, when it is followed by nothing or by a closing
    parenthesis. *)
Definition parses_back (c : cmd (list Z)) : Prop := forall line pre r fuel,
  line = pre ++ print c ++ r -> stops r -> (4 * length (print c ++ r) + 4 <= fuel)%nat ->
  exists p, parseline fuel (print c ++ r) = Ok p (skip_space r) /\ map_words (text line) p = c.

(** A command in parentheses. *)
Lemma block_parses c line pre r fuel :
  parses_back c -> line = pre ++ 40 :: print c ++ 41 :: r -> (4 * length (40%Z :: print c ++ 41%Z :: r) + 2 <= fuel)%nat ->
  exists p, map_words (text line) p = c /\
    parseexec fuel (40 :: print c ++ 41 :: r) = parseredirs (S (length (skip_space r))) p (skip_space r).
Proof.
  intros Hc El Hf. cbn [length] in Hf. destruct fuel as [|[|fuel]]; [lia|lia|].
  destruct (Hc line (pre ++ [40]) (41 :: r) fuel) as (p & Ep & Et).
  - by rewrite El, <- app_assoc.
  - right. by exists r.
  - lia.
  - exists p. split; [done|]. cbn [parseexec]. rewrite symbol_peek by (by apply (bool_decide_unpack _)). cbn [parseblock].
    rewrite (bool_decide_eq_true_2 (40 ∈ [40])) by left. rewrite symbol_peek by (by apply (bool_decide_unpack _)).
    rewrite (bool_decide_eq_true_2 (40 ∈ [40])) by left. cbn [negb]. rewrite gettoken_symbol by (by apply (bool_decide_unpack _)).
    assert (Esk : parseline fuel (skip_space (print c ++ 41 :: r)) = parseline fuel (print c ++ 41 :: r)).
    { destruct fuel as [|[|[|fuel]]]; [done|done|done|]. cbn [parseline parsepipe parseexec]. by rewrite peek_skip. }
    rewrite Esk, Ep. cbn [andthen]. change (skip_space (41 :: r)) with (41 :: r). rewrite symbol_peek by (by apply (bool_decide_unpack _)).
    rewrite (bool_decide_eq_true_2 (41 ∈ [41])) by left. cbn [negb]. by rewrite gettoken_symbol by (by apply (bool_decide_unpack _)).
Qed.

Lemma block_plain c line pre x r fuel :
  parses_back c -> line = pre ++ 40 :: print c ++ 41 :: x ++ r -> (4 * length (40%Z :: print c ++ 41%Z :: x ++ r) + 2 <= fuel)%nat ->
  peek (x ++ r) [60; 62] = (false, skip_space (x ++ r)) ->
  exists p, parseexec fuel (40 :: print c ++ 41 :: x ++ r) = Ok p (skip_space (x ++ r)) /\ map_words (text line) p = c.
Proof.
  intros Hc El Hf Hp. destruct (block_parses c line pre (x ++ r) fuel Hc El Hf) as (p & Et & E). exists p. split; [|done].
  rewrite E. unfold parseredirs. rewrite no_redirs; [cbn; by rewrite skip_space_idem|lia|]. by rewrite peek_skip, skip_space_idem.
Qed.

(** The ends of [parsepipe] and [parseline] when nothing of theirs follows. *)
Lemma pipe_ends fuel s c r :
  parseexec fuel s = Ok c (skip_space r) -> peek r [124] = (false, skip_space r) -> parsepipe (S fuel) s = Ok c (skip_space r).
Proof. intros E Hp. cbn [parsepipe]. rewrite E. cbn [andthen]. by rewrite peek_skip, Hp. Qed.

Lemma line_ends fuel s c r :
  parsepipe fuel s = Ok c (skip_space r) -> stops r -> parseline (S fuel) s = Ok c (skip_space r).
Proof.
  intros E Hr. cbn [parseline]. rewrite E. cbn [andthen parseback].
  rewrite peek_skip, stops_peek by (done || by apply (bool_decide_unpack _)). cbn [andthen].
  by rewrite peek_skip, stops_peek by (done || by apply (bool_decide_unpack _)).
Qed.

Lemma exec_parses argv : (length argv < MAXARGS)%nat -> Forall is_word argv -> parses_back (EXEC argv).
Proof.
  intros Hl Ha line pre r fuel El Hr Hf. change (print (EXEC argv)) with (print_args argv) in *.
  destruct fuel as [|[|[|fuel]]]; [lia|lia|lia|]. set (s := print_args argv ++ r) in *.
  destruct (parseargs_print line r argv pre 0 (S (length (skip_space s))) El Ha Hr) as (ws & E & Et); [done| |].
  { assert (H : (length argv <= length (skip_space s))%nat); [|lia]. destruct argv as [|w argv]; [cbn; lia|].
    pose proof (proj1 (Forall_cons _ _ _) Ha) as [Hw _]. subst s.
    change (print_args (w :: argv)) with ((w ++ [32]) ++ print_args argv). rewrite <- !app_assoc.
    destruct (word_head w ([32] ++ print_args argv ++ r) Hw) as (c & t & _ & _ & _ & _ & ->). rewrite !length_app. cbn [length].
    assert (Hp : forall l, (length l <= length (print_args l))%nat).
    { induction l as [|x l IH]; [done|]. change (print_args (x :: l)) with ((x ++ [32]) ++ print_args l). rewrite !length_app. cbn [length]. lia. }
    specialize (Hp argv). lia. }
  exists (EXEC ws). split; [|cbn; by rewrite Et]. apply line_ends; [|done]. apply pipe_ends.
  - assert (Hpk : forall toks, (forall x, x ∈ toks -> symbols x = true) -> 41 ∉ toks -> peek s toks = (false, skip_space s)).
    { intros toks Ht Hn. by apply args_peek. }
    cbn [parseexec]. rewrite Hpk; [|syms|by apply (bool_decide_unpack _)].
    rewrite no_redirs; [|lia|].
    + cbn [andthen]. rewrite skip_space_idem, parseargs_skip. fold s in E. rewrite E. done.
    + rewrite peek_skip, skip_space_idem. apply Hpk; [|by apply (bool_decide_unpack _)].
      syms.
  - apply stops_peek; [done|by apply (bool_decide_unpack _)].
Qed.

(** A command in parentheses with one redirection behind it. *)
Lemma redir_parses c f (m fd : Z) :
  parses_back c -> is_word f -> (m, fd) = (RD, 0) \/ (m, fd) = (WR_CREATE, 1) -> parses_back (REDIR c f m fd).
Proof.
  intros Hc Hw Hm line pre r fuel El Hr Hf. cbn [print app] in *. rewrite <- !app_assoc in *. cbn [app] in *.
  set (x := if fd =? 0 then 60 else 62) in *. rewrite <- !app_assoc in *. cbn [app] in *. set (tail := f ++ 32 :: r) in *.
  destruct fuel as [|[|fuel]]; [lia|lia|].
  destruct (block_parses c line pre (x :: 32 :: tail) fuel Hc El) as (p & Et & E); [lia|].
  assert (Hx : x ∈ [60; 62]) by (unfold x; destruct (fd =? 0); [left|right; left]).
  assert (Esk : skip_space (x :: 32 :: tail) = x :: 32 :: tail) by (unfold x; by destruct (fd =? 0)). rewrite Esk in E.
  assert (Etok : gettoken (x :: 32 :: tail) = (x, (S (S (length tail)), S (length tail)), tail)).
  { destruct (word_head f (32 :: r) Hw) as (h & t & _ & _ & _ & _ & Ef). unfold x, gettoken.
    destruct (fd =? 0); cbn [skip_space]; change (whitespace 60) with false; change (whitespace 62) with false; cbn;
      change (whitespace 32) with true; cbv iota; unfold tail; by rewrite Ef. }
  exists (REDIR p (length tail, length (32 :: r)) m fd). split.
  - apply line_ends; [|done]. apply pipe_ends; [|apply stops_peek; [done|by apply (bool_decide_unpack _)]]. rewrite E. unfold parseredirs.
    cbn [redirs]. unfold peek at 1. rewrite Esk, bool_decide_eq_true_2 by done. rewrite Etok.
    assert (Etok2 : gettoken tail = (97, (length tail, length (32 :: r)), skip_space r)) by exact (gettoken_word f r Hw).
    rewrite Etok2. cbn [Z.eqb negb]. rewrite no_redirs; [|cbn; lia|].
    + cbn [andthen add_redirs foldl]. rewrite skip_space_idem. unfold x. destruct Hm as [[= -> ->]|[= -> ->]]; done.
    + rewrite peek_skip, skip_space_idem. apply stops_peek; [done|by apply (bool_decide_unpack _)].
  - cbn [map_words]. rewrite Et. f_equal. apply (text_of line (pre ++ 40 :: print c ++ 41 :: [x; 32]) f (32 :: r)).
    rewrite El. unfold tail. by rewrite <- !app_assoc; cbn; rewrite <- !app_assoc.
Qed.

(** A command in parentheses as a whole line. *)
Lemma paren_line b line pre r fuel :
  parses_back b -> line = pre ++ 40 :: print b ++ 41 :: r -> stops r -> (4 * length (40%Z :: print b ++ 41%Z :: r) + 3 <= fuel)%nat ->
  exists p, parsepipe fuel (40 :: print b ++ 41 :: r) = Ok p (skip_space r) /\ map_words (text line) p = b.
Proof.
  intros Hb El Hr Hf. destruct fuel as [|fuel]; [lia|]. destruct (block_plain b line pre [] r fuel Hb El) as (p & E & Et).
  - cbn [app]. lia.
  - apply stops_peek; [done|by apply (bool_decide_unpack _)].
  - exists p. split; [|done]. apply pipe_ends; [done|]. apply stops_peek; [done|by apply (bool_decide_unpack _)].
Qed.

(** A command in parentheses followed by a symbol that is not a redirection. *)
Lemma paren_symbol a line pre x r fuel :
  parses_back a -> line = pre ++ 40 :: print a ++ 41 :: x :: r -> x ∈ [124; 59; 38] ->
  (4 * length (40%Z :: print a ++ 41%Z :: x :: r) + 2 <= fuel)%nat ->
  exists p, parseexec fuel (40 :: print a ++ 41 :: x :: r) = Ok p (x :: r) /\ map_words (text line) p = a.
Proof.
  intros Ha El Hx Hf. assert (Hsk : skip_space (x :: r) = x :: r).
  { rewrite !elem_of_cons, elem_of_nil in Hx. destruct_or! Hx; by subst x. }
  destruct (block_plain a line pre [x] r fuel Ha El Hf) as (p & E & Et).
  - cbn [app]. rewrite symbol_peek by (rewrite !elem_of_cons, elem_of_nil in *; lia). rewrite Hsk, bool_decide_eq_false_2; [done|].
    rewrite !elem_of_cons, elem_of_nil in *. lia.
  - exists p. cbn [app] in E. by rewrite Hsk in E.
Qed.

Lemma pipe_parses a b : parses_back a -> parses_back b -> parses_back (PIPE a b).
Proof.
  intros Ha Hb line pre r fuel El Hr Hf. cbn [print app] in *. rewrite <- !app_assoc in *. cbn [app] in *. rewrite <- !app_assoc in *. cbn [app] in *.
  cbn [length] in Hf. rewrite !length_app in Hf. cbn [length] in Hf. rewrite !length_app in Hf. cbn [length] in Hf. destruct fuel as [|[|fuel]]; [lia|lia|].
  destruct (paren_symbol a line pre 124 (40 :: print b ++ 41 :: r) fuel Ha El) as (pa & Ea & Eta);
    [left|cbn [length]; rewrite !length_app; cbn [length]; rewrite !length_app; cbn [length]; lia|].
  destruct (paren_line b line (pre ++ 40 :: print a ++ [41; 124]) r fuel Hb) as (pb & Eb & Etb);
    [by rewrite El, <- !app_assoc; cbn; rewrite <- !app_assoc|done|cbn [length]; rewrite !length_app; cbn [length]; lia|].
  exists (PIPE pa pb). split; [|cbn; by rewrite Eta, Etb]. apply line_ends; [|done]. cbn [parsepipe]. rewrite Ea. cbn [andthen].
  rewrite symbol_peek by left. rewrite bool_decide_eq_true_2 by left. rewrite gettoken_symbol by left.
  change (skip_space (40 :: ?l)) with (40 :: l). by rewrite Eb.
Qed.

Lemma list_parses a b : parses_back a -> parses_back b -> parses_back (LIST a b).
Proof.
  intros Ha Hb line pre r fuel El Hr Hf. cbn [print app] in *. rewrite <- !app_assoc in *. cbn [app] in *. rewrite <- !app_assoc in *. cbn [app] in *.
  cbn [length] in Hf. rewrite !length_app in Hf. cbn [length] in Hf. rewrite !length_app in Hf. cbn [length] in Hf. destruct fuel as [|[|fuel]]; [lia|lia|].
  set (tail := 40 :: print b ++ 41 :: r) in *. assert (Hx : 59 ∈ [124; 59; 38]) by (right; left).
  destruct (paren_symbol a line pre 59 tail fuel Ha El Hx) as (pa & Ea & Eta);
    [unfold tail; cbn [length]; rewrite !length_app; cbn [length]; rewrite !length_app; cbn [length]; lia|].
  destruct (paren_line b line (pre ++ 40 :: print a ++ [41; 59]) r fuel Hb) as (pb & Eb & Etb);
    [by rewrite El, <- !app_assoc; cbn; rewrite <- !app_assoc|done|cbn [length]; rewrite !length_app; cbn [length]; lia|].
  exists (LIST pa pb). split; [|cbn; by rewrite Eta, Etb].
  assert (Esk : skip_space (59 :: tail) = 59 :: tail) by done.
  assert (Ep : parsepipe (S fuel) (40 :: print a ++ 41 :: 59 :: tail) = Ok pa (59 :: tail)).
  { rewrite <- Esk at 2. apply pipe_ends; [by rewrite Esk|]. rewrite symbol_peek by (by apply (bool_decide_unpack _)). done. }
  assert (Hpk : forall toks, peek (59 :: tail) toks = (bool_decide (59 ∈ toks), 59 :: tail)).
  { intros toks. apply symbol_peek. by apply (bool_decide_unpack _). }
  pose proof (line_ends fuel tail pb r Eb Hr) as Eq. revert Ep Eq. generalize (S fuel) as f. intros f Ep Eq.
  cbn [parseline]. rewrite Ep. cbn [andthen parseback]. rewrite Hpk, bool_decide_eq_false_2 by (by apply (bool_decide_unpack _)).
  cbn [andthen]. rewrite Hpk, bool_decide_eq_true_2 by left. rewrite gettoken_symbol by (by apply (bool_decide_unpack _)).
  change (skip_space tail) with tail. by rewrite Eq.
Qed.

Lemma back_parses c : parses_back c -> parses_back (BACK c).
Proof.
  intros Hc line pre r fuel El Hr Hf. cbn [print app] in *. rewrite <- !app_assoc in *. cbn [app] in *.
  cbn [length] in Hf. rewrite !length_app in Hf. cbn [length] in Hf. destruct fuel as [|[|fuel]]; [lia|lia|].
  assert (Hx : 38 ∈ [124; 59; 38]) by (right; right; left).
  destruct (paren_symbol c line pre 38 r fuel Hc El Hx) as (p & E & Et); [cbn [length]; rewrite !length_app; cbn [length]; lia|].
  exists (BACK p). split; [|cbn; by rewrite Et].
  assert (Esk : skip_space (38 :: r) = 38 :: r) by done.
  assert (Ep : parsepipe (S fuel) (40 :: print c ++ 41 :: 38 :: r) = Ok p (38 :: r)).
  { rewrite <- Esk at 2. apply pipe_ends; [by rewrite Esk|]. rewrite symbol_peek by (by apply (bool_decide_unpack _)). done. }
  cbn [parseline]. rewrite Ep. cbn [andthen parseback length]. rewrite symbol_peek by (by apply (bool_decide_unpack _)).
  rewrite bool_decide_eq_true_2 by left. rewrite gettoken_symbol by (by apply (bool_decide_unpack _)).
  cbn [parseback]. rewrite peek_skip, stops_peek by (done || by apply (bool_decide_unpack _)). cbn [andthen].
  by rewrite peek_skip, stops_peek by (done || by apply (bool_decide_unpack _)).
Qed.

Lemma all_parse c : typable c -> parses_back c.
Proof.
  induction c as [argv|c IH f m fd|a IHa b IHb|a IHa b IHb|c IH]; cbn [typable].
  - intros [Hl Ha]. by apply exec_parses.
  - intros (Hc & Hf & Hm). apply redir_parses; auto.
  - intros [Ha Hb]. apply pipe_parses; auto.
  - intros [Ha Hb]. apply list_parses; auto.
  - intros Hc. apply back_parses; auto.
Qed.

Lemma print_no_zero c : typable c -> 0 ∉ print c.
Proof.
  assert (Hw : forall w, is_word w -> 0 ∉ w).
  { intros w [_ H] H0. by apply (proj1 (Forall_forall _ _) H) in H0 as []. }
  induction c as [argv|c IH f m fd|a IHa b IHb|a IHa b IHb|c IH]; cbn [typable print].
  - intros [_ Ha]. induction Ha as [|w argv H _ IH]; [apply not_elem_of_nil|].
    change (mjoin _) with ((w ++ [32]) ++ mjoin ((fun w => w ++ [32]) <$> argv)). rewrite !elem_of_app, list_elem_of_singleton.
    intros [[H0|]|H0]; [by apply (Hw w H)|done|done].
  - intros (Hc & Hf & Hm) H. rewrite !elem_of_cons, elem_of_app, !elem_of_cons, elem_of_app, list_elem_of_singleton in H.
    destruct_or! H; try done; [by apply IH|by destruct (fd =? 0)|by apply (Hw f)].
  - intros [Ha Hb] H. rewrite !elem_of_cons, elem_of_app, !elem_of_cons, elem_of_app, list_elem_of_singleton in H.
    destruct_or! H; try done; [by apply IHa|by apply IHb].
  - intros [Ha Hb] H. rewrite !elem_of_cons, elem_of_app, !elem_of_cons, elem_of_app, list_elem_of_singleton in H.
    destruct_or! H; try done; [by apply IHa|by apply IHb].
  - intros Hc H. rewrite !elem_of_cons, elem_of_app, !elem_of_cons, elem_of_nil in H. destruct_or! H; try done. by apply IH.
Qed.

Lemma map_words_ext {V W} (f g : V -> W) (c : cmd V) : (forall w, w ∈ words c -> f w = g w) -> map_words f c = map_words g c.
Proof.
  induction c as [argv|c IH w m fd|a IHa b IHb|a IHa b IHb|c IH]; cbn [words map_words]; intros H.
  - f_equal. apply list_fmap_ext. intros i w Hw. apply H. by eapply list_elem_of_lookup_2.
  - rewrite IH, H; [done| |]; [apply elem_of_app; right; left|intros x Hx; apply H, elem_of_app; by left].
  - rewrite IHa, IHb; [done| |]; intros x Hx; apply H, elem_of_app; auto.
  - rewrite IHa, IHb; [done| |]; intros x Hx; apply H, elem_of_app; auto.
  - by rewrite IH.
Qed.

(** A printed command with blanks after it. *)
Lemma line_parses c r : let line := print c ++ r in
  typable c -> skip_space r = [] -> 0 ∉ r ->
  exists p, parseline (4 * length line + 4) line = Ok p [] /\ map_words (string_at (length line) (nulterminate p line)) p = c.
Proof.
  intros line Hc Hr H0. destruct (all_parse c Hc line [] r (4 * length line + 4)%nat eq_refl (or_introl Hr) (le_n _)) as (p & E & Et). rewrite Hr in E.
  exists p. split; [exact E|]. transitivity (map_words (text line) p); [|exact Et]. apply map_words_ext. intros w Hw.
  assert (Ep : parsecmd line = Ok p []) by (unfold parsecmd; change (print c ++ r) with line in E; by rewrite E).
  pose proof (parsecmd_good line) as G. rewrite Ep in G. destruct G as (_ & _ & G). apply string_at_text; [|done|done].
  intros [H|H]%elem_of_app; [by apply (print_no_zero c)|done].
Qed.

(** C31. Every command the shell can run can be typed, and is read as what was typed: the
    line that prints a command, with its parts in parentheses, is parsed without error to
    the same command, with the same arguments, files, modes and structure, down to the
    strings in the buffer after [nulterminate]. *)
Theorem shell_roundtrip c : typable c -> parse_line (print c) = Some c.
Proof.
  intros Hc. destruct (line_parses c [] Hc eq_refl (not_elem_of_nil _)) as (p & E & Ep). rewrite app_nil_r in E, Ep.
  unfold parse_line, parsecmd. rewrite E. cbn [andthen skip_space]. rewrite bool_decide_eq_true_2 by done. by rewrite Ep.
Qed.

(** [((ls < f) | (wc)) &]. *)
Lemma shell_roundtrip_witness :
  let c := BACK (PIPE (REDIR (EXEC [[108; 115]]) [102] RD 0) (EXEC [[119; 99]])) in
  typable c /\ parse_line (print c) = Some c.
Proof.
  intros c. assert (H : typable c).
  { cbn. unfold is_word. split_and!; try (repeat constructor; fail); try (cbn; lia); auto; repeat constructor; done. }
  split; [exact H|exact (shell_roundtrip c H)].
Defined.
