(* ===== verification/Usys.v ===== *)
(** * User programs: usys.S and the parts of the user library that make system calls

    A user program is an interaction tree whose events are the system calls, in the order
    it makes them, with every answer the kernel may give.  A result below 0 is an error.
    Strings are lists of characters without their terminating zero. *)

From ITree Require Import ITree.
From S2P Require Import Prelude Mmu Sysfile Ulib Fs Proc.

(** ** System calls *)

(** The calls of usys.S, with what they give back through their pointers.  [Read] answers
    the bytes stored, as many as the result says, or [None] for -1; [Pipe] the two
    descriptors; [Testwait] also the three times.  [Crash] stands for undefined behaviour of the program. *)
Variant callE : Type -> Type :=
| Fork : callE Z
| Exit : callE Empty_set
| Wait : callE Z
| Pipe : callE (option (Z * Z))
| Write (fd : Z) (data : list Z) : callE Z
| Read (fd n : Z) : callE (option (list Z))
| Close (fd : Z) : callE Z
| Kill (pid : Z) : callE Z
| Exec (path : list Z) (argv : list (list Z)) : callE Z
| Open (path : list Z) (mode : Z) : callE Z
| Mknod (path : list Z) (major minor : Z) : callE Z
| Unlink (path : list Z) : callE Z
| Fstat (fd : Z) : callE (option stat)
| Link (old new : list Z) : callE Z
| Mkdir (path : list Z) : callE Z
| Chdir (path : list Z) : callE Z
| Dup (fd : Z) : callE Z
| Getpid : callE Z
| Sbrk (n : Z) : callE Z
| Sleep (n : Z) : callE Z
| Uptime : callE Z
| GetNumFreePages : callE Z
| ForkOriginal : callE Z
| Testwait : callE (Z * (Z * Z * Z))
| Yield : callE Z
| Getpinfo : callE pstat
| Nice (n : Z) : callE Z
| Getpri : callE Z
| Pdump : callE Z
| Crash : callE Empty_set.

Abbreviation prog := (itree callE).
Definition call {A} (e : callE A) : prog A := ITree.trigger e.
Definition pure {A} (a : A) : prog A := ITreeDefinition.Ret a.

Declare Scope user_scope.
Delimit Scope user_scope with user.
Notation "x <- m ;; k" := (ITree.bind m (fun x => k)) (at level 100, m at next level, right associativity) : user_scope.
Notation "m ;;; k" := (ITree.bind m (fun _ => k)) (at level 100, right associativity) : user_scope.
Open Scope user_scope.

(** A call that does not come back. *)
Definition never {A} (e : callE Empty_set) : prog A := ITreeDefinition.Vis e (fun v : Empty_set => match v with end).
Definition exit {A} : prog A := never Exit.

(** [while (test body) ;]: [body] says whether to go on, or gives the result. *)
Definition loop {I A} (body : I -> prog (I + A)) (i : I) : prog A := ITree.iter body i.

(** ** printf.c *)

Definition putc (fd c : Z) : prog Z := call (Write fd [c]).
Fixpoint putcs (fd : Z) (s : list Z) : prog unit :=
  match s with
  | [] => pure tt
  | c :: s => putc fd c ;;; putcs fd s
  end.
Definition fprintf (fd : Z) (fmt : list Z) (args : list parg) : prog unit :=
  match Ulib.printf fmt args with
  | Some out => putcs fd out
  | None => never Crash
  end.
Definition printf (fd : Z) (fmt : string) (args : list parg) : prog unit := fprintf fd (codes fmt) args.
(** A format that ends in a newline, and a string argument. *)
Definition line (fmt : string) : string := String.append fmt (String.String (Ascii.ascii_of_nat 10) "").
Definition str (s : list Z) : parg := PStr (Some s).

(** ** ulib.c *)

(** The loop of [gets] with [room] bytes left. *)
Fixpoint gets_from (room : nat) : prog (list Z) :=
  match room with
  | O => pure []
  | S room =>
    cc <- call (Read 0 1) ;;
    match cc with
    | Some (c :: _) =>
      if (c =? 10) || (c =? 13) then pure [c]
      else rest <- gets_from room ;; pure (c :: rest)
    | _ => pure []
    end
  end.
Definition gets (max : Z) : prog (list Z) := gets_from (Z.to_nat (max - 1)).

Definition stat_path (n : list Z) : prog (option stat) :=
  fd <- call (Open n O_RDONLY) ;;
  if fd <? 0 then pure None else
  r <- call (Fstat fd) ;;
  call (Close fd) ;;;
  pure r.

Definition state_str (s : procstate) : string :=
  match s with
  | UNUSED => "unused" | EMBRYO => "embryo" | SLEEPING => "sleeping"
  | RUNNABLE => "runnable" | RUNNING => "running" | ZOMBIE => "zombie"
  end.

(** One slot of [print_proc_info]; the value is the new count. *)
Definition print_slot (ps : pstat) (verbose : bool) (i : nat) (count : Z) : prog Z :=
  if nth i (ps_inuse ps) 0 =? 0 then pure count else
  (if verbose then
     let t := nth i (ps_ticks ps) [] in
     printf 1 (line "pid=%d, state=%s, priority=%d, ticks=[%d, %d, %d, %d]")
       [PWord (nth i (ps_pid ps) 0); str (codes (state_str (nth i (ps_state ps) UNUSED))); PWord (nth i (ps_priority ps) 0);
        PWord (nth 0 t 0); PWord (nth 1 t 0); PWord (nth 2 t 0); PWord (nth 3 t 0)]
   else pure tt) ;;;
  pure (count + 1).
Fixpoint print_slots (ps : pstat) (verbose : bool) (n i : nat) (count : Z) : prog Z :=
  match n with
  | O => pure count
  | S n => count <- print_slot ps verbose i count ;; print_slots ps verbose n (S i) count
  end.
Definition print_proc_info (ps : pstat) (verbose : bool) : prog unit :=
  t <- call Uptime ;;
  printf 1 (line "current ticks=%d") [PWord t] ;;;
  count <- print_slots ps verbose 64 0 0 ;;
  printf 1 (line "Total number of processes: %d") [PWord count].
