(* ===== verification/Uprogs.v ===== *)
(** * User programs: cat.c, echo.c, wc.c, grep.c, ls.c, kill.c, ln.c, mkdir.c, rm.c,
      init.c, zombie.c and delta_sched.c

    Each program as an interaction tree; [argv] are its arguments with the name first. *)

From ITree Require Import ITree.
From S2P Require Import Prelude Mmu Sysfile Ulib Fs Usys Grep Sh.

(** The arguments from [argv[1]] on; [argc <= 1] when there are none. *)
Definition args (argv : list (list Z)) : list (list Z) := tail argv.

(** ** cat.c *)

(** One turn of the loop of [cat]. *)
Definition cat_step (fd : Z) (_ : unit) : prog (unit + unit) :=
  n <- call (Read fd 512) ;;
  match n with
  | Some [] => pure (inr tt)
  | Some buf =>
    w <- call (Write 1 buf) ;;
    if negb (w =? Z.of_nat (length buf)) then printf 1 (line "cat: write error") [] ;;; exit
    else pure (inl tt)
  | None => printf 1 (line "cat: read error") [] ;;; exit
  end.
Definition cat (fd : Z) : prog unit := loop (cat_step fd) tt.

Fixpoint cat_files (files : list (list Z)) : prog unit :=
  match files with
  | [] => pure tt
  | f :: files =>
    fd <- call (Open f 0) ;;
    if fd <? 0 then printf 1 (line "cat: cannot open %s") [str f] ;;; exit else
    cat fd ;;;
    call (Close fd) ;;;
    cat_files files
  end.
Definition cat_main (argv : list (list Z)) : prog Empty_set :=
  match args argv with
  | [] => cat 0 ;;; exit
  | files => cat_files files ;;; exit
  end.

(** ** echo.c *)

Fixpoint echo_args (l : list (list Z)) : prog unit :=
  match l with
  | [] => pure tt
  | a :: l => printf 1 "%s%s" [str a; str (if bool_decide (l = []) then [10] else [32])] ;;; echo_args l
  end.
Definition echo_main (argv : list (list Z)) : prog Empty_set := echo_args (args argv) ;;; exit.

(** ** wc.c *)

Record counts := Counts { n_lines : Z; n_words : Z; n_chars : Z; in_word : bool }.

(** The body of the inner loop, for one character.  The terminating zero of the string of
    separators is not among them. *)
Definition wc_char (k : counts) (c : Z) : counts :=
  let l := if c =? 10 then n_lines k + 1 else n_lines k in
  if bool_decide (strchr [32; 13; 9; 10; 11] c <> None) then Counts l (n_words k) (n_chars k + 1) false
  else if in_word k then Counts l (n_words k) (n_chars k + 1) true
  else Counts l (n_words k + 1) (n_chars k + 1) true.

Definition wc_step (fd : Z) (k : counts) : prog (counts + counts) :=
  n <- call (Read fd 512) ;;
  match n with
  | Some [] => pure (inr k)
  | Some buf => pure (inl (foldl wc_char k buf))
  | None => printf 1 (line "wc: read error") [] ;;; exit
  end.
Definition wc (fd : Z) (name : list Z) : prog unit :=
  k <- loop (wc_step fd) (Counts 0 0 0 false) ;;
  printf 1 (line "%d %d %d %s") [PWord (n_lines k); PWord (n_words k); PWord (n_chars k); str name].

Fixpoint wc_files (files : list (list Z)) : prog unit :=
  match files with
  | [] => pure tt
  | f :: files =>
    fd <- call (Open f 0) ;;
    if fd <? 0 then printf 1 (line "wc: cannot open %s") [str f] ;;; exit else
    wc fd f ;;;
    call (Close fd) ;;;
    wc_files files
  end.
Definition wc_main (argv : list (list Z)) : prog Empty_set :=
  match args argv with
  | [] => wc 0 [] ;;; exit
  | files => wc_files files ;;; exit
  end.

(** ** grep.c *)

(** The inner loop on the bytes from [p] on: what is left behind the last newline. *)
Fixpoint print_matches (n : nat) (pattern p : list Z) : prog (list Z) :=
  match n with
  | O => pure p
  | S n =>
    match next_line p with
    | None => pure p
    | Some (l, rest) =>
      (if match_ pattern l then _ <- call (Write 1 (l ++ [newline])) ;; pure tt else pure tt) ;;;
      print_matches n pattern rest
    end
  end.

Definition grep_step (pattern : list Z) (fd : Z) (held : list Z) : prog (list Z + unit) :=
  n <- call (Read fd (BUF - Z.of_nat (length held) - 1)) ;;
  match n with
  | None | Some [] => pure (inr tt)
  | Some bs =>
    let buf := held ++ bs in
    rest <- print_matches (length buf) pattern buf ;;
    pure (inl (if bool_decide (next_line buf = None) then [] else rest))
  end.
Definition grep_fd (pattern : list Z) (fd : Z) : prog unit := loop (grep_step pattern fd) [].

Fixpoint grep_files (pattern : list Z) (files : list (list Z)) : prog unit :=
  match files with
  | [] => pure tt
  | f :: files =>
    fd <- call (Open f 0) ;;
    if fd <? 0 then printf 1 (line "grep: cannot open %s") [str f] ;;; exit else
    grep_fd pattern fd ;;;
    call (Close fd) ;;;
    grep_files pattern files
  end.
Definition grep_main (argv : list (list Z)) : prog Empty_set :=
  match args argv with
  | [] => printf 2 (line "usage: grep pattern [file ...]") [] ;;; exit
  | [pattern] => grep_fd pattern 0 ;;; exit
  | pattern :: files => grep_files pattern files ;;; exit
  end.

(** ** ls.c *)

(** The characters after the last slash. *)
Fixpoint last_part (p : list Z) : list Z :=
  match p with
  | [] => []
  | c :: q => if bool_decide (slash ∈ q) then last_part q else if c =? slash then q else p
  end.
Definition fmtname (path : list Z) : list Z :=
  let p := last_part path in
  if DIRSIZ <=? Z.of_nat (length p) then p else p ++ replicate (Z.to_nat DIRSIZ - length p) 32.

Definition print_stat (name : list Z) (st : stat) : prog unit :=
  printf 1 (line "%s %d %d %d") [str (fmtname name); PWord (st_type st); PWord (st_ino st); PWord (st_size st)].

(** One turn of the loop over the entries of a directory. *)
Definition ls_step (fd : Z) (path : list Z) (_ : unit) : prog (unit + unit) :=
  r <- call (Read fd DIRENT_SIZE) ;;
  match r with
  | Some de =>
    if negb (Z.of_nat (length de) =? DIRENT_SIZE) then pure (inr tt) else
    if de_inum de =? 0 then pure (inl tt) else
    let buf := path ++ [slash] ++ cstring (de_name de) in
    st <- stat_path buf ;;
    (match st with
     | None => printf 1 (line "ls: cannot stat %s") [str buf]
     | Some st => print_stat buf st
     end) ;;;
    pure (inl tt)
  | None => pure (inr tt)
  end.

Definition ls (path : list Z) : prog unit :=
  fd <- call (Open path 0) ;;
  if fd <? 0 then printf 2 (line "ls: cannot open %s") [str path] else
  st <- call (Fstat fd) ;;
  match st with
  | None =>
    printf 2 (line "ls: cannot stat %s") [str path] ;;;
    call (Close fd) ;;;
    pure tt
  | Some st =>
    (if st_type st =? T_FILE then print_stat path st
     else if st_type st =? T_DIR then
       if 512 <? Z.of_nat (length path) + 1 + DIRSIZ + 1 then printf 1 (line "ls: path too long") []
       else loop (ls_step fd path) tt
     else pure tt) ;;;
    call (Close fd) ;;;
    pure tt
  end.

Fixpoint ls_all (paths : list (list Z)) : prog unit :=
  match paths with
  | [] => pure tt
  | p :: paths => ls p ;;; ls_all paths
  end.
Definition ls_main (argv : list (list Z)) : prog Empty_set :=
  match args argv with
  | [] => ls (codes ".") ;;; exit
  | paths => ls_all paths ;;; exit
  end.

(** ** kill.c, ln.c, mkdir.c, rm.c *)

Fixpoint kill_all (l : list (list Z)) : prog unit :=
  match l with
  | [] => pure tt
  | a :: l =>
    match atoi a with
    | Some pid => call (Kill pid) ;;; kill_all l
    | None => never Crash
    end
  end.
Definition kill_main (argv : list (list Z)) : prog Empty_set :=
  match args argv with
  | [] => printf 2 (line "usage: kill pid...") [] ;;; exit
  | pids => kill_all pids ;;; exit
  end.

Definition ln_main (argv : list (list Z)) : prog Empty_set :=
  match argv with
  | [_; old; new] =>
    r <- call (Link old new) ;;
    (if r <? 0 then printf 2 (line "link %s %s: failed") [str old; str new] else pure tt) ;;;
    exit
  | _ => printf 2 (line "Usage: ln old new") [] ;;; exit
  end.

Fixpoint mkdir_all (l : list (list Z)) : prog unit :=
  match l with
  | [] => pure tt
  | a :: l =>
    r <- call (Mkdir a) ;;
    if r <? 0 then printf 2 (line "mkdir: %s failed to create") [str a] else mkdir_all l
  end.
Definition mkdir_main (argv : list (list Z)) : prog Empty_set :=
  match args argv with
  | [] => printf 2 (line "Usage: mkdir files...") [] ;;; exit
  | files => mkdir_all files ;;; exit
  end.

Fixpoint rm_all (l : list (list Z)) : prog unit :=
  match l with
  | [] => pure tt
  | a :: l =>
    r <- call (Unlink a) ;;
    if r <? 0 then printf 2 (line "rm: %s failed to delete") [str a] else rm_all l
  end.
Definition rm_main (argv : list (list Z)) : prog Empty_set :=
  match args argv with
  | [] => printf 2 (line "Usage: rm files...") [] ;;; exit
  | files => rm_all files ;;; exit
  end.

(** ** init.c and zombie.c *)

(** Waiting until the shell [pid] has exited. *)
Definition reap_step (pid : Z) (_ : unit) : prog (unit + unit) :=
  wpid <- call Wait ;;
  if (0 <=? wpid) && negb (wpid =? pid) then printf 1 (line "zombie!") [] ;;; pure (inl tt)
  else pure (inr tt).

Definition init_step (_ : unit) : prog (unit + Empty_set) :=
  printf 1 (line "init: starting sh") [] ;;;
  pid <- call Fork ;;
  if pid <? 0 then printf 1 (line "init: fork failed") [] ;;; exit else
  if pid =? 0 then
    call (Exec (codes "sh") [codes "sh"]) ;;;
    printf 1 (line "init: exec sh failed") [] ;;;
    exit
  else loop (reap_step pid) tt ;;; pure (inl tt).

(** [policy] is the scheduler the kernel was built with. *)
Definition init_main (policy : string) : prog Empty_set :=
  fd <- call (Open (codes "console") O_RDWR) ;;
  (if fd <? 0 then
     call (Mknod (codes "console") 1 1) ;;;
     call (Open (codes "console") O_RDWR) ;;;
     pure tt
   else pure tt) ;;;
  call (Dup 0) ;;;
  call (Dup 0) ;;;
  printf 1 (line (String.append "Scheduler policy: " policy)) [] ;;;
  loop init_step tt.

Definition zombie_main : prog Empty_set :=
  pid <- call Fork ;;
  (if 0 <? pid then call (Sleep 5) ;;; pure tt else pure tt) ;;;
  exit.

(** ** delta_sched.c *)

(** The argument is used as a format. *)
Definition delta_sched_main (argv : list (list Z)) : prog Empty_set :=
  match args argv with
  | [] => printf 2 (line "usage: DEFAULT LOTTERY") [] ;;; exit
  | policy :: _ => fprintf 2 policy [] ;;; exit
  end.
