(* ===== verification/Uwp.v ===== *)
(** * Total correctness of user programs on files

    A world of files with fixed contents that programs open, read and write to the
    console.  A [read] may return fewer bytes than asked for, and [open] any free
    descriptor; a program is correct if every execution ends as it should. *)

From ITree Require Import ITree.
From S2P Require Import Prelude Ulib Usys.

(** ** The world *)

Record world := World {
  w_files : list Z -> option (list Z);  (* the contents of the files, by path *)
  w_open : gmap Z (list Z);             (* the bytes left to read, by descriptor *)
  w_out : list Z;                       (* what was written to descriptor 1 *)
  w_err : list Z                        (* and to descriptor 2 *)
}.
Definition set_open o w := World (w_files w) o (w_out w) (w_err w).
Definition add_out b w := World (w_files w) (w_open w) (w_out w ++ b) (w_err w).
Definition add_err b w := World (w_files w) (w_open w) (w_out w) (w_err w ++ b).

(** How a call may be answered; calls that are not listed do not occur here. *)
Definition answer {A} (e : callE A) : world -> A -> world -> Prop :=
  match e with
  | Open path _ => fun w a w' =>
      match w_files w path with
      | None => a = -1 /\ w' = w
      | Some data => 0 <= a /\ a <> 1 /\ a <> 2 /\ w_open w !! a = None /\ w' = set_open (<[a := data]> (w_open w)) w
      end
  | Read fd n => fun w a w' =>
      match w_open w !! fd with
      | None => a = None /\ w' = w
      | Some [] => a = Some [] /\ w' = w
      | Some data => exists k, (0 < k)%nat /\ (k <= length data)%nat /\ Z.of_nat k <= n /\ a = Some (take k data) /\
          w' = set_open (<[fd := drop k data]> (w_open w)) w
      end
  | Write fd data => fun w a w' =>
      a = Z.of_nat (length data) /\ (fd = 1 /\ w' = add_out data w \/ fd = 2 /\ w' = add_err data w)
  | Close fd => fun w a w' => a = 0 /\ w' = set_open (delete fd (w_open w)) w
  | _ => fun _ _ _ => False
  end.

(** ** Weakest preconditions *)

(** Every execution of [t] from [w] ends, with [Q (Some a)] if it returns [a] and with
    [Q None] if it exits; no call is left without an answer. *)
Inductive wp {A} (Q : option A -> world -> Prop) : prog A -> world -> Prop :=
| wp_ret t w a : observe t = RetF a -> Q (Some a) w -> wp Q t w
| wp_tau t w t' : observe t = TauF t' -> wp Q t' w -> wp Q t w
| wp_exit t w k : observe t = VisF Exit k -> Q None w -> wp Q t w
| wp_call t w B (e : callE B) k : observe t = VisF e k -> (exists a w', answer e w a w') ->
    (forall a w', answer e w a w' -> wp Q (k a) w') -> wp Q t w.

Lemma wp_observe {A} (Q : option A -> world -> Prop) t u w : observe t = observe u -> wp Q t w -> wp Q u w.
Proof. intros E H. destruct H as [t w a E1|t w t' E1|t w k E1|t w B e k E1]; rewrite E in E1; [by eapply wp_ret|by eapply wp_tau|by eapply wp_exit|by eapply wp_call]. Qed.

Lemma wp_mono {A} (Q R : option A -> world -> Prop) t w : (forall r w, Q r w -> R r w) -> wp Q t w -> wp R t w.
Proof. intros HQ. induction 1; [eapply wp_ret; eauto|by eapply wp_tau|eapply wp_exit; eauto|by eapply wp_call]. Qed.

(** The condition before the rest of a program. *)
Definition after {A B} (k : A -> prog B) (Q : option B -> world -> Prop) (r : option A) (w : world) : Prop :=
  match r with Some a => wp Q (k a) w | None => Q None w end.

Lemma wp_bind {A B} (t : prog A) (k : A -> prog B) Q w : wp (after k Q) t w -> wp Q (ITree.bind t k) w.
Proof.
  assert (Eb : forall u : prog A, observe (ITree.bind u k) = match observe u with
    | RetF r => observe (k r) | TauF u' => TauF (ITree.bind u' k) | VisF e ke => VisF e (fun x => ITree.bind (ke x) k) end) by (intros u; unfold observe; cbn; unfold observe; by destruct (_observe u)).
  induction 1 as [t w a E H|t w t' E _ IH|t w ke E H|t w C e ke E Ha _ IH].
  - eapply wp_observe; [|exact H]. by rewrite Eb, E.
  - eapply wp_tau; [by rewrite Eb, E|exact IH].
  - eapply wp_exit; [by rewrite Eb, E|exact H].
  - eapply wp_call; [by rewrite Eb, E|exact Ha|exact IH].
Qed.

Lemma wp_pure {A} (a : A) (Q : option A -> world -> Prop) w : Q (Some a) w -> wp Q (pure a) w.
Proof. by apply wp_ret. Qed.
Lemma wp_exits {A} (Q : option A -> world -> Prop) w : Q None w -> wp Q exit w.
Proof. by eapply wp_exit. Qed.

Lemma wp_sys {A B} (e : callE A) (k : A -> prog B) Q w :
  (exists a w', answer e w a w') -> (forall a w', answer e w a w' -> wp Q (k a) w') -> wp Q (ITree.bind (call e) k) w.
Proof.
  intros H1 H2. apply wp_bind. eapply wp_call; [reflexivity|done|]. intros a w' Ha. apply wp_ret with a; [done|]. by apply H2.
Qed.

Lemma wp_loop {I A} (body : I -> prog (I + A)) i Q w :
  wp (fun r w' => match r with Some (inl j) => wp Q (loop body j) w' | Some (inr a) => Q (Some a) w' | None => Q None w' end) (body i) w ->
  wp Q (loop body i) w.
Proof.
  intros H. eapply wp_observe with (t := ITree.bind (body i) (fun lr => match lr with inl l => ITreeDefinition.Tau (ITree.iter body l) | inr r => ITreeDefinition.Ret r end)); [reflexivity|].
  apply wp_bind. eapply wp_mono; [|exact H]. intros [[j|a]|] w'; cbn; [|by apply wp_ret|done]. intros Hj. by eapply wp_tau.
Qed.

(** ** Printing *)

Lemma add_out_app a b w : add_out b (add_out a w) = add_out (a ++ b) w.
Proof. unfold add_out. cbn. by rewrite app_assoc. Qed.
Lemma add_out_nil w : add_out [] w = w.
Proof. destruct w. unfold add_out. cbn. by rewrite app_nil_r. Qed.

Lemma wp_putcs s Q : forall w, Q (Some tt) (add_out s w) -> wp Q (putcs 1 s) w.
Proof.
  induction s as [|c s IH]; intros w H; cbn [putcs].
  - apply wp_pure. by rewrite add_out_nil in H.
  - apply wp_sys; [by eexists _, _; split; [|left]|]. intros a w' (-> & [[_ ->]|[? _]]); [|done]. apply IH. by rewrite add_out_app.
Qed.
Lemma wp_printf fmt args out Q w : Ulib.printf (codes fmt) args = Some out -> Q (Some tt) (add_out out w) -> wp Q (Usys.printf 1 fmt args) w.
Proof. intros E H. unfold Usys.printf, fprintf. rewrite E. by apply wp_putcs. Qed.

(** ** Reading *)

Lemma wp_read {A} fd n (k : option (list Z) -> prog A) data Q w :
  w_open w !! fd = Some data -> 0 < n ->
  (data = [] -> wp Q (k (Some [])) w) ->
  (forall j, (0 < j)%nat -> (j <= length data)%nat -> Z.of_nat j <= n -> wp Q (k (Some (take j data))) (set_open (<[fd := drop j data]> (w_open w)) w)) ->
  wp Q (ITree.bind (call (Read fd n)) k) w.
Proof.
  intros Hd Hn H0 H1. destruct data as [|c data].
  - apply wp_sys; cbn; rewrite Hd; [by eexists _, _|]. intros a w' [-> ->]. by apply H0.
  - apply wp_sys; cbn; rewrite Hd.
    + eexists _, _. exists 1%nat. split_and!; [lia|cbn; lia|lia|reflexivity|reflexivity].
    + intros a w' (j & Hj0 & Hj & Hjn & -> & ->). by apply H1.
Qed.
