(* ===== verification/UprogProps.v ===== *)
(** * cat and wc

    Both read their input to the end and print what they should, however the reads cut
    it. *)

From ITree Require Import ITree.
From S2P Require Import Prelude Ulib Usys Uprogs Uwp.

(** ** cat *)

Lemma wp_cat fd Q : forall data w, w_open w !! fd = Some data ->
  Q (Some tt) (set_open (<[fd := []]> (w_open w)) (add_out data w)) -> wp Q (cat fd) w.
Proof.
  intros data. induction data as [data IH] using (induction_ltof1 _ length). unfold ltof in IH. intros w Hd HQ.
  apply wp_loop. unfold cat_step. eapply wp_read; [exact Hd|lia| |].
  - intros ->. apply wp_pure. rewrite add_out_nil in HQ. rewrite insert_id in HQ by done. by destruct w.
  - intros j Hj0 Hj Hjn. assert (Hlen : length (take j data) = j) by (rewrite length_take; lia).
    destruct (take j data) as [|c buf] eqn:Et; [cbn in Hlen; lia|]. rewrite <- Et in *.
    apply wp_sys; [by eexists _, _; split; [|left]|]. intros a w' (-> & [[_ ->]|[? _]]); [|done]. rewrite Z.eqb_refl. cbn [negb].
    apply wp_pure. apply (IH (drop j data)); [rewrite length_drop; lia|by apply lookup_insert_eq|].
    cbn [w_open set_open add_out]. rewrite insert_insert_eq. unfold set_open, add_out in *. cbn in *. by rewrite <- app_assoc, take_drop.
Qed.

(** Some descriptor is always free. *)
Lemma open_answer path mode w : exists a w', answer (Open path mode) w a w'.
Proof.
  cbn. destruct (w_files w path) as [data|]; [|by eexists _, _].
  set (X := set_map (D := gset N) Z.to_N (dom (w_open w)) ∪ {[1%N; 2%N]}). pose proof (is_fresh X) as Hf. set (n := fresh X) in *.
  exists (Z.of_N n). eexists. split_and!; [lia| | | |reflexivity].
  - intros E. assert (n = 1%N) as En by lia. apply Hf. set_solver.
  - intros E. assert (n = 2%N) as En by lia. apply Hf. set_solver.
  - apply not_elem_of_dom. intros H. apply Hf. apply elem_of_union_l, elem_of_map. exists (Z.of_N n). by rewrite N2Z.id.
Qed.

Lemma wp_open {A} path (k : Z -> prog A) Q w :
  (w_files w path = None -> wp Q (k (-1)) w) ->
  (forall fd data, w_files w path = Some data -> 0 <= fd -> w_open w !! fd = None -> wp Q (k fd) (set_open (<[fd := data]> (w_open w)) w)) ->
  wp Q (ITree.bind (call (Open path 0)) k) w.
Proof.
  intros H0 H1. apply wp_sys; [apply open_answer|]. intros a w'. cbn. destruct (w_files w path) as [data|].
  - intros (Ha & _ & _ & Ho & ->). by apply H1.
  - intros [-> ->]. by apply H0.
Qed.
Lemma wp_close {A} fd (k : Z -> prog A) Q w : wp Q (k 0) (set_open (delete fd (w_open w)) w) -> wp Q (ITree.bind (call (Close fd)) k) w.
Proof. intros H. apply wp_sys; [by eexists _, _|]. by intros a w' [-> ->]. Qed.

(** A file that was opened, read and closed leaves no trace but the output. *)
Lemma closed_again fd (data out : list Z) w : w_open w !! fd = None ->
  set_open (delete fd (<[fd := []]> (<[fd := data]> (w_open w)))) (add_out out w) = add_out out w.
Proof. intros H. rewrite insert_insert_eq, delete_insert_id by done. done. Qed.

(** Programs that treat each file of a list: what [one] does with an open file is
    [text data], and [msg] is printed for one that cannot be opened. *)
Fixpoint texts (text : list Z -> list Z -> list Z) (msg : list Z -> list Z) (files : list Z -> option (list Z)) (l : list (list Z)) : list Z :=
  match l with
  | [] => []
  | f :: l => match files f with Some data => text f data ++ texts text msg files l | None => msg f end
  end.

Lemma wp_each (one : Z -> list Z -> prog unit) (fmt : string) text msg (all : list (list Z) -> prog unit) :
  all [] = pure tt ->
  (forall f l, all (f :: l) = (fd <- call (Open f 0) ;; if fd <? 0 then Usys.printf 1 (line fmt) [str f] ;;; exit else one fd f ;;; call (Close fd) ;;; all l)) ->
  (forall f, Ulib.printf (codes (line fmt)) [str f] = Some (msg f)) ->
  (forall fd f data w Q, w_open w !! fd = Some data -> Q (Some tt) (set_open (<[fd := []]> (w_open w)) (add_out (text f data) w)) -> wp Q (one fd f) w) ->
  forall l w, wp (fun r w' => w' = add_out (texts text msg (w_files w) l) w) (all l) w.
Proof.
  intros E0 E1 Emsg Hone. induction l as [|f l IH]; intros w; cbn [texts].
  - rewrite E0. apply wp_pure. by rewrite add_out_nil.
  - rewrite E1. apply wp_open.
    + intros ->. change (-1 <? 0) with true. cbv iota. apply wp_bind. eapply wp_printf; [apply Emsg|]. cbn [after]. by apply wp_exits.
    + intros fd data E H0 Ho. rewrite E, (proj2 (Z.ltb_ge fd 0)) by done. apply wp_bind. eapply (Hone fd f data); [by apply lookup_insert_eq|].
      cbn [after]. apply wp_close. match goal with |- wp _ _ ?w' => replace w' with (add_out (text f data) w) end.
      * eapply wp_mono; [|apply IH]. intros r w' ->. apply add_out_app.
      * symmetry. exact (closed_again fd data (text f data) w Ho).
Qed.

(** ** wc *)

Definition blank (c : Z) : bool := bool_decide (c ∈ [32; 13; 9; 10; 11]).
(** The pieces of a text between blanks, some of them empty. *)
Fixpoint fields (s : list Z) : list (list Z) :=
  match s with
  | [] => [[]]
  | c :: s =>
    if blank c then [] :: fields s
    else match fields s with f :: fs => (c :: f) :: fs | [] => [[c]] end
  end.
Definition nonempty (f : list Z) : bool := negb (bool_decide (f = [])).
Definition word_count (s : list Z) : Z := Z.of_nat (length (List.filter nonempty (fields s))).
Definition line_count (s : list Z) : Z := Z.of_nat (length (List.filter (Z.eqb 10) s)).

Lemma strchr_blank c : bool_decide (strchr [32; 13; 9; 10; 11] c <> None) = blank c.
Proof.
  apply bool_decide_ext. assert (H : forall l, strchr l c <> None <-> c ∈ l); [|apply H].
  induction l as [|x l IH]; cbn [strchr]; [rewrite elem_of_nil; done|]. rewrite elem_of_cons. destruct (Z.eqb_spec x c) as [->|Hne]; [by split; [left|]|].
  rewrite IH. split; [by right|]. by intros [->|].
Qed.

Lemma fields_cons s : exists f fs, fields s = f :: fs.
Proof. induction s as [|c s (f & fs & E)]; [by exists [], []|]. cbn. destruct (blank c); [by eexists _, _|]. rewrite E. by eexists _, _. Qed.

Lemma filter_count {A} (p : A -> bool) x l : Z.of_nat (length (List.filter p (x :: l))) = Z.b2z (p x) + Z.of_nat (length (List.filter p l)).
Proof. cbn. destruct (p x); cbn [length Z.b2z]; lia. Qed.

(** The counts after a text; a word that has begun before is not counted again. *)
Lemma wc_counts s : forall k,
  n_lines (foldl wc_char k s) = n_lines k + line_count s /\ n_chars (foldl wc_char k s) = n_chars k + Z.of_nat (length s) /\
  n_words (foldl wc_char k s) = n_words k + word_count s - Z.b2z (in_word k && nonempty (hd [] (fields s))).
Proof.
  induction s as [|c s IH]; intros k.
  - cbn. unfold word_count, line_count. cbn. rewrite andb_false_r. cbn. lia.
  - cbn [foldl]. destruct (IH (wc_char k c)) as (-> & -> & ->). unfold line_count, word_count, wc_char. rewrite strchr_blank, filter_count, (Z.eqb_sym 10 c). cbn [fields length].
    destruct (fields_cons s) as (f & fs & Ef). rewrite Ef. assert (E0 : nonempty [] = false) by reflexivity. assert (E1 : nonempty (c :: f) = true) by reflexivity.
    destruct (blank c); [|destruct (in_word k)]; cbn [n_lines n_words n_chars in_word hd andb]; rewrite !filter_count, ?E0, ?E1, ?andb_false_r;
      destruct (c =? 10), (nonempty f); cbn [Z.b2z]; lia.
Qed.

Definition wc_line (name data : list Z) : list Z :=
  default [] (Ulib.printf (codes (line "%d %d %d %s")) [PWord (line_count data); PWord (word_count data); PWord (Z.of_nat (length data)); str name]).

Lemma wp_wc_loop fd Q : forall data w k, w_open w !! fd = Some data ->
  Q (Some (foldl wc_char k data)) (set_open (<[fd := []]> (w_open w)) w) -> wp Q (loop (wc_step fd) k) w.
Proof.
  intros data. induction data as [data IH] using (induction_ltof1 _ length). unfold ltof in IH. intros w k Hd HQ.
  apply wp_loop. unfold wc_step. eapply wp_read; [exact Hd|lia| |].
  - intros ->. apply wp_pure. rewrite insert_id in HQ by done. by destruct w.
  - intros j Hj0 Hj Hjn. assert (Hlen : length (take j data) = j) by (rewrite length_take; lia).
    destruct (take j data) as [|c buf] eqn:Et; [cbn in Hlen; lia|]. rewrite <- Et in *.
    apply wp_pure. apply (IH (drop j data)); [rewrite length_drop; lia|by apply lookup_insert_eq|].
    cbn [w_open set_open]. rewrite insert_insert_eq, <- foldl_app, take_drop. exact HQ.
Qed.

Lemma wp_wc fd name data w Q : w_open w !! fd = Some data ->
  Q (Some tt) (set_open (<[fd := []]> (w_open w)) (add_out (wc_line name data) w)) -> wp Q (wc fd name) w.
Proof.
  intros Hd HQ. apply wp_bind. apply (wp_wc_loop fd _ data); [done|]. cbn [after]. destruct (wc_counts data (Counts 0 0 0 false)) as (-> & -> & ->).
  cbn [n_lines n_words n_chars in_word andb Z.b2z]. rewrite !Z.add_0_l, Z.sub_0_r. eapply wp_printf; [|exact HQ].
  unfold wc_line. by destruct (Ulib.printf _ _) eqn:E.
Qed.

(** ** echo *)

Fixpoint echo_text (l : list (list Z)) : list Z :=
  match l with
  | [] => []
  | [a] => a ++ [10]
  | a :: l => a ++ [32] ++ echo_text l
  end.
Lemma wp_echo l : forall w, wp (fun r w' => w' = add_out (echo_text l) w) (echo_args l) w.
Proof.
  induction l as [|a l IH]; intros w; cbn [echo_args].
  - apply wp_pure. by rewrite add_out_nil.
  - apply wp_bind. eapply wp_printf; [reflexivity|]. cbn [after]. eapply wp_mono; [|apply IH]. intros r w' ->. rewrite add_out_app. f_equal.
    destruct l as [|b l]; cbn [echo_text]; [rewrite bool_decide_eq_true_2 by done|rewrite bool_decide_eq_false_2 by done]; cbn [default from_option id]; by rewrite <- !app_assoc.
Qed.

(** ** The programs *)

Definition cat_msg (f : list Z) : list Z := codes "cat: cannot open " ++ f ++ [10].
Definition wc_msg (f : list Z) : list Z := codes "wc: cannot open " ++ f ++ [10].

Lemma wp_cat_files l w : wp (fun r w' => w' = add_out (texts (fun _ data => data) cat_msg (w_files w) l) w) (cat_files l) w.
Proof.
  apply (wp_each (fun fd _ => cat fd) "cat: cannot open %s"); [done|done| |].
  - intros f. vm_compute. reflexivity.
  - intros fd f data w' Q Hd HQ. by apply (wp_cat fd Q data).
Qed.
Lemma wp_wc_files l w : wp (fun r w' => w' = add_out (texts wc_line wc_msg (w_files w) l) w) (wc_files l) w.
Proof.
  apply (wp_each wc "wc: cannot open %s"); [done|done| |].
  - intros f. vm_compute. reflexivity.
  - intros fd f data w' Q Hd HQ. by apply (wp_wc fd f data).
Qed.

Lemma wp_then_exit (t : prog unit) Q w : wp (fun _ w' => Q None w') t w -> wp Q (t ;;; exit (A := Empty_set)) w.
Proof. intros H. apply wp_bind. eapply wp_mono; [|exact H]. intros [u|] w' HQ; [by apply wp_exits|done]. Qed.

(** C30. cat, wc and echo print what they should and exit.  For any files, and however the
    kernel cuts what it returns to [read]: cat prints the files in order, byte for byte,
    and wc for each the numbers of its newlines, of its maximal runs of characters that
    are not blanks, and of its bytes, both up to the first file that cannot be opened, for
    which they print a message; without arguments they do so with the standard input; no
    descriptor is left open.  echo prints its arguments separated by blanks on a line.
    Every execution ends. *)
Theorem filters_correct name f l data w :
  let w0 := set_open (<[0 := []]> (w_open w)) w in
  wp (fun r w' => w' = add_out (texts (fun _ data => data) cat_msg (w_files w) (f :: l)) w) (cat_main (name :: f :: l)) w /\
  wp (fun r w' => w' = add_out (texts wc_line wc_msg (w_files w) (f :: l)) w) (wc_main (name :: f :: l)) w /\
  (w_open w !! 0 = Some data ->
    wp (fun r w' => w' = add_out data w0) (cat_main [name]) w /\ wp (fun r w' => w' = add_out (wc_line [] data) w0) (wc_main [name]) w) /\
  wp (fun r w' => w' = add_out (echo_text l) w) (echo_main (name :: l)) w.
Proof.
  intros w0. split_and!.
  - apply wp_then_exit. apply wp_cat_files.
  - apply wp_then_exit. apply wp_wc_files.
  - intros Hd. split; apply wp_then_exit.
    + by apply (wp_cat 0 _ data).
    + by apply (wp_wc 0 [] data).
  - apply wp_then_exit. apply wp_echo.
Qed.

(** Two words and a line on the standard input. *)
Lemma filters_correct_witness :
  let w := World (fun _ => None) {[0 := codes "a bc" ++ [10]]} [] [] in
  wp (fun r w' => w_out w' = codes "1 2 5 " ++ [10]) (wc_main [codes "wc"]) w.
Proof.
  intros w. destruct (filters_correct (codes "wc") [] [] (codes "a bc" ++ [10]) w) as (_ & _ & H & _).
  destruct (H eq_refl) as [_ Hwc]. eapply wp_mono; [|exact Hwc]. intros r w' ->. vm_compute. reflexivity.
Defined.
