(* ===== verification/Shell.v ===== *)
(** * sh.c: running commands

    The code of the shell that makes system calls: [runcmd] on a parsed command, and the
    loop of [main].  The functions that do not come back ([exit], [panic], [runcmd]) are
    trees without results. *)

From ITree Require Import ITree.
From S2P Require Import Prelude Sysfile Ulib Usys Sh.

Definition panic {A} (s : string) : prog A := printf 2 (line "%s") [str (codes s)] ;;; exit.

Definition fork1 : prog Z :=
  pid <- call Fork ;;
  if pid =? -1 then panic "fork" else pure pid.

(** The command is never null: the parser gives one or panics. *)
Fixpoint runcmd (c : cmd (list Z)) : prog Empty_set :=
  match c with
  | EXEC [] => exit
  | EXEC (a :: argv) =>
    call (Exec a (a :: argv)) ;;;
    printf 2 (line "exec %s failed") [str a] ;;;
    exit
  | REDIR c file mode fd =>
    call (Close fd) ;;;
    r <- call (Open file mode) ;;
    if r <? 0 then printf 2 (line "open %s failed") [str file] ;;; exit
    else runcmd c
  | LIST l r =>
    pid <- fork1 ;;
    if pid =? 0 then runcmd l else
    call Wait ;;;
    runcmd r
  | PIPE l r =>
    p <- call Pipe ;;
    match p with
    | None => panic "pipe"
    | Some (p0, p1) =>
      pid <- fork1 ;;
      if pid =? 0 then
        call (Close 1) ;;;
        call (Dup p1) ;;;
        call (Close p0) ;;;
        call (Close p1) ;;;
        runcmd l
      else
      pid <- fork1 ;;
      if pid =? 0 then
        call (Close 0) ;;;
        call (Dup p0) ;;;
        call (Close p0) ;;;
        call (Close p1) ;;;
        runcmd r
      else
      call (Close p0) ;;;
      call (Close p1) ;;;
      call Wait ;;;
      call Wait ;;;
      exit
    end
  | BACK c =>
    pid <- fork1 ;;
    if pid =? 0 then runcmd c else exit
  end.

(** [getcmd]: the line in [buf], or [None] at the end of the input. *)
Definition getcmd : prog (option (list Z)) :=
  printf 2 "$ " [] ;;;
  buf <- gets 100 ;;
  let s := cstring buf in
  pure (if bool_decide (s = []) then None else Some s).

(** [runcmd(parsecmd(buf))]. *)
Definition run_line (s : list Z) : prog Empty_set :=
  match parseline (4 * length s + 4) s with
  | Ok c rest =>
    let rest := skip_space rest in
    if bool_decide (rest = []) then runcmd (map_words (string_at (length s) (nulterminate c s)) c)
    else printf 2 (line "leftovers: %s") [str rest] ;;; panic "syntax"
  | Error msg => panic msg
  | Cut => never Crash
  end.

Definition is_cd (s : list Z) : bool := bool_decide (take 3 s = codes "cd ").

(** One turn of the loop of [main]. *)
Definition main_step (_ : unit) : prog (unit + Empty_set) :=
  l <- getcmd ;;
  match l with
  | None => exit
  | Some s =>
    if is_cd s then
      let dir := drop 3 (removelast s) in
      r <- call (Chdir dir) ;;
      (if r <? 0 then printf 2 (line "cannot cd %s") [str dir] else pure tt) ;;;
      pure (inl tt)
    else
    pid <- fork1 ;;
    if pid =? 0 then v <- run_line s ;; pure (inr v) else
    call Wait ;;;
    pure (inl tt)
  end.

(** The loop that makes sure that three descriptors are open. *)
Definition open_step (_ : unit) : prog (unit + unit) :=
  fd <- call (Open (codes "console") O_RDWR) ;;
  if fd <? 0 then pure (inr tt) else
  if 3 <=? fd then call (Close fd) ;;; pure (inr tt) else pure (inl tt).

Definition main : prog Empty_set :=
  loop open_step tt ;;;
  loop main_step tt.
