(* ===== verification/Procs.v ===== *)
(** * Processes that make system calls

    Processes in the middle of their programs, with their descriptors and children, and
    the steps the kernel lets them take in any order.  This is what sh.c sees of the
    kernel: fork copies the descriptors, [open], [dup] and [pipe] take the lowest free
    ones, wait takes a child that has exited, the children of a process that exits go to
    init, and calls that need resources may fail. *)

From ITree Require Import ITree.
From S2P Require Import Prelude Descriptors Usys.

(** ** Descriptors *)

(** What a descriptor stands for: something the shell was given, an opened file, or an end
    of a pipe. *)
Inductive desc := Given (k : Z) | Opened (path : list Z) (mode : Z) | PipeR (n : nat) | PipeW (n : nat).
#[export] Instance desc_eq_dec : EqDecision desc.
Proof. solve_decision. Defined.

Abbreviation table := (list (option desc)).

Definition do_pipe (n : nat) (T : table) : option (Z * Z * table) :=
  match alloc T (PipeR n) with
  | Some (i, T1) => match alloc T1 (PipeW n) with Some (j, T2) => Some (Z.of_nat i, Z.of_nat j, T2) | None => None end
  | None => None
  end.

(** ** Steps *)

(** A process: in its program, after [exec] of another one, or after [exit]. *)
#[warnings="-register-all"]
Inductive tree :=
| Live (code : prog Empty_set) (T : table) (kids : list tree)
| Prog (argv : list (list Z)) (T : table) (kids : list tree)
| Zombie.

(** What can be seen of a step: a program that is started or has finished, a call that
    failed. *)
Inductive label := Start (path : list Z) (argv : list (list Z)) (T : table) | Finish (argv : list (list Z)) (T : table) | Fail.

#[export] Instance label_eq_dec : EqDecision label.
Proof. solve_decision. Defined.

(** [step n t l n' t' os]: with [n] pipes made so far, [t] or a descendant makes a step to
    [t'] with [n'] pipes; the processes [os] have lost their parent. *)
Inductive step : nat -> tree -> option label -> nat -> tree -> list tree -> Prop :=
| step_tau n code code' T kids :
    observe code = TauF code' ->
    step n (Live code T kids) None n (Live code' T kids) []
| step_fork n code k T kids pid :
    observe code = VisF Fork k -> 0 < pid ->
    step n (Live code T kids) None n (Live (k pid) T (kids ++ [Live (k 0) T []])) []
| step_fork_fail n code k T kids :
    observe code = VisF Fork k ->
    step n (Live code T kids) (Some Fail) n (Live (k (-1)) T kids) []
| step_wait n code k T before after pid :
    observe code = VisF Wait k -> 0 < pid ->
    step n (Live code T (before ++ Zombie :: after)) None n (Live (k pid) T (before ++ after)) []
| step_wait_none n code k T :
    observe code = VisF Wait k ->
    step n (Live code T []) None n (Live (k (-1)) T []) []
| step_close n code fd k T kids :
    observe code = VisF (Close fd) k ->
    step n (Live code T kids) None n (Live (k (fst (do_close T fd))) (snd (do_close T fd)) kids) []
| step_dup n code fd k T kids :
    observe code = VisF (Dup fd) k ->
    step n (Live code T kids) None n (Live (k (fst (do_dup T fd))) (snd (do_dup T fd)) kids) []
| step_pipe n code k T kids i j T' :
    observe code = VisF Pipe k -> do_pipe n T = Some (i, j, T') ->
    step n (Live code T kids) None (S n) (Live (k (Some (i, j))) T' kids) []
| step_pipe_fail n code k T kids :
    observe code = VisF Pipe k ->
    step n (Live code T kids) (Some Fail) n (Live (k None) T kids) []
| step_open n code path mode k T kids i T' :
    observe code = VisF (Open path mode) k -> alloc T (Opened path mode) = Some (i, T') ->
    step n (Live code T kids) None n (Live (k (Z.of_nat i)) T' kids) []
| step_open_fail n code path mode k T kids :
    observe code = VisF (Open path mode) k ->
    step n (Live code T kids) (Some Fail) n (Live (k (-1)) T kids) []
| step_exec n code path argv k T kids :
    observe code = VisF (Exec path argv) k ->
    step n (Live code T kids) (Some (Start path argv T)) n (Prog argv T kids) []
| step_exec_fail n code path argv k T kids :
    observe code = VisF (Exec path argv) k ->
    step n (Live code T kids) (Some Fail) n (Live (k (-1)) T kids) []
| step_write n code fd data k T kids r :
    observe code = VisF (Write fd data) k ->
    step n (Live code T kids) None n (Live (k r) T kids) []
| step_exit n code k T kids :
    observe code = VisF Exit k ->
    step n (Live code T kids) None n Zombie kids
| step_finish n argv T kids :
    step n (Prog argv T kids) (Some (Finish argv T)) n Zombie kids
| step_kid n code T before t after l n' t' os :
    step n t l n' t' os ->
    step n (Live code T (before ++ t :: after)) l n' (Live code T (before ++ t' :: after)) os
| step_prog_kid n argv T before t after l n' t' os :
    step n t l n' t' os ->
    step n (Prog argv T (before ++ t :: after)) l n' (Prog argv T (before ++ t' :: after)) os.

(** All processes, those adopted by init included, and their executions. *)
Inductive procs : nat -> list tree -> list (option label) -> nat -> list tree -> Prop :=
| procs_done n ts : procs n ts [] n ts
| procs_step n before t after l n1 t' os tr n2 ts :
    step n t l n1 t' os ->
    procs n1 (before ++ t' :: after ++ os) tr n2 ts ->
    procs n (before ++ t :: after) (l :: tr) n2 ts.

(** What is seen of an execution. *)
Definition seen (tr : list (option label)) : list label := tr ≫= option_list.
