(* ===== verification/ShellSpec.v ===== *)
(** * What a command of the shell means

    The jobs of the shell without processes and descriptors numbers: [a ; b] runs [b] when
    [a] is done, [a | b] runs both with a new pipe between them, [a &] runs [a] on its
    own, a redirection replaces one descriptor.  When the kernel is short of something
    a part that has not been started is given up. *)

From S2P Require Import Prelude Sh Procs.

Inductive job :=
| Todo (c : cmd (list Z)) (T : table)
| Running (argv : list (list Z)) (T : table)
| Seq (j : job) (c : cmd (list Z)) (T : table)
| Par (j1 j2 : job)
| Done.

(** [jstep n j l n' j' d]: a step of the job; the jobs [d] go on on their own. *)
Inductive jstep : nat -> job -> option label -> nat -> job -> list job -> Prop :=
| j_start n a argv T : jstep n (Todo (EXEC (a :: argv)) T) (Some (Start a (a :: argv) T)) n (Running (a :: argv) T) []
| j_nothing n T : jstep n (Todo (EXEC []) T) None n Done []
| j_finish n argv T : jstep n (Running argv T) (Some (Finish argv T)) n Done []
| j_redir n c file mode fd T :
    jstep n (Todo (REDIR c file mode fd) T) None n (Todo c (<[Z.to_nat fd := Some (Opened file mode)]> T)) []
| j_list n l r T : jstep n (Todo (LIST l r) T) None n (Seq (Todo l T) r T) []
| j_then n r T : jstep n (Seq Done r T) None n (Todo r T) []
| j_pipe n l r T :
    jstep n (Todo (PIPE l r) T) None (S n)
      (Par (Todo l (<[1%nat := Some (PipeW n)]> T)) (Todo r (<[0%nat := Some (PipeR n)]> T))) []
| j_join n : jstep n (Par Done Done) None n Done []
| j_back n c T : jstep n (Todo (BACK c) T) None n Done [Todo c T]
| j_fail n c T : jstep n (Todo c T) (Some Fail) n Done []
| j_fail_both n l r T1 T2 : jstep n (Par (Todo l T1) (Todo r T2)) (Some Fail) n Done []
| j_fail_right n j r T : jstep n (Par j (Todo r T)) (Some Fail) n Done [j]
| j_seq n j l n' j' d c T : jstep n j l n' j' d -> jstep n (Seq j c T) l n' (Seq j' c T) d
| j_left n j1 j2 l n' j1' d : jstep n j1 l n' j1' d -> jstep n (Par j1 j2) l n' (Par j1' j2) d
| j_right n j1 j2 l n' j2' d : jstep n j2 l n' j2' d -> jstep n (Par j1 j2) l n' (Par j1 j2') d.

(** A step of one of a collection of jobs, and executions. *)
Inductive pool : nat -> list job -> option label -> nat -> list job -> Prop :=
| pool_step n J j b l n' j' d J' :
    J ≡ₚ j :: b -> jstep n j l n' j' d -> J' ≡ₚ j' :: b ++ d -> pool n J l n' J'.
Inductive jobs : nat -> list job -> list label -> nat -> list job -> Prop :=
| jobs_done n J J' : J ≡ₚ J' -> jobs n J [] n J'
| jobs_step n J l n1 J1 tr n2 J2 :
    pool n J l n1 J1 -> jobs n1 J1 tr n2 J2 -> jobs n J (option_list l ++ tr) n2 J2.

(** ** What is started *)

(** The programs of a command. *)
Fixpoint programs (c : cmd (list Z)) : list (list (list Z)) :=
  match c with
  | EXEC [] => []
  | EXEC argv => [argv]
  | REDIR c _ _ _ | BACK c => programs c
  | PIPE l r | LIST l r => programs l ++ programs r
  end.
(** Those a job has yet to start, and those it runs. *)
Fixpoint pending (j : job) : list (list (list Z)) :=
  match j with
  | Todo c _ => programs c
  | Running _ _ | Done => []
  | Seq j c _ => pending j ++ programs c
  | Par j1 j2 => pending j1 ++ pending j2
  end.
Fixpoint running (j : job) : list (list (list Z)) :=
  match j with
  | Running argv _ => [argv]
  | Todo _ _ | Done => []
  | Seq j _ _ => running j
  | Par j1 j2 => running j1 ++ running j2
  end.
Definition started (tr : list label) : list (list (list Z)) := tr ≫= fun l => match l with Start _ argv _ => [argv] | _ => [] end.
Definition finished (tr : list label) : list (list (list Z)) := tr ≫= fun l => match l with Finish argv _ => [argv] | _ => [] end.

Lemma jstep_counts n j l n' j' d : jstep n j l n' j' d -> l <> Some Fail ->
  pending j ≡ₚ started (option_list l) ++ pending j' ++ (d ≫= pending) /\
  started (option_list l) ++ running j ≡ₚ finished (option_list l) ++ running j' ++ (d ≫= running).
Proof.
  induction 1; intros Hf; cbn [pending running programs started finished option_list mbind list_bind app]; rewrite ?app_nil_r; try (split; reflexivity); try done.
  - destruct (IHjstep Hf) as [E1 E2]. split; [rewrite E1; solve_Permutation|exact E2].
  - destruct (IHjstep Hf) as [E1 E2]. split; [rewrite E1; solve_Permutation|]. rewrite app_assoc, E2. solve_Permutation.
  - destruct (IHjstep Hf) as [E1 E2]. split; [rewrite E1; solve_Permutation|].
    transitivity (running j1 ++ (started (option_list l) ++ running j2)); [solve_Permutation|]. rewrite E2. solve_Permutation.
Qed.

Lemma jobs_perm n J K tr n' J' : J ≡ₚ K -> jobs n K tr n' J' -> jobs n J tr n' J'.
Proof.
  intros E H. inversion H as [? ? ? E1|? ? l n1 J1 tr1 ? ? Hp Hj]; subst.
  - constructor. by rewrite E.
  - inversion Hp as [? ? j b ? ? j' d ? E1 Hs E2]; subst. eapply jobs_step; [|exact Hj]. eapply pool_step; [|exact Hs|exact E2]. by rewrite E.
Qed.

Lemma started_app a b : started (a ++ b) = started a ++ started b.
Proof. apply bind_app. Qed.
Lemma finished_app a b : finished (a ++ b) = finished a ++ finished b.
Proof. apply bind_app. Qed.

(** Without failures every program is started once, and finishes if it is not running. *)
Lemma jobs_counts n J tr n' J' : jobs n J tr n' J' -> Fail ∉ tr ->
  J ≫= pending ≡ₚ started tr ++ (J' ≫= pending) /\ started tr ++ (J ≫= running) ≡ₚ finished tr ++ (J' ≫= running).
Proof.
  induction 1 as [n J J' E|n J l n1 J1 tr n2 J2 Hp Hj IH]; intros Hf.
  - cbn. by rewrite E.
  - destruct IH as [I1 I2]; [set_solver|]. inversion Hp as [? ? j b ? ? j' d ? E1 Hs E2]; subst.
    destruct (jstep_counts _ _ _ _ _ _ Hs) as [C1 C2]; [intros ->; apply Hf; left|].
    rewrite started_app, finished_app, E1. rewrite E2 in I1, I2. rewrite !bind_cons, !bind_app in I1, I2. rewrite !bind_cons. split.
    + transitivity (started (option_list l) ++ (pending j' ++ (b ≫= pending) ++ (d ≫= pending))); [rewrite C1; solve_Permutation|]. rewrite I1. solve_Permutation.
    + transitivity (started tr ++ (started (option_list l) ++ running j) ++ (b ≫= running)); [solve_Permutation|]. rewrite C2.
      transitivity (finished (option_list l) ++ (started tr ++ (running j' ++ (b ≫= running) ++ (d ≫= running)))); [solve_Permutation|]. rewrite I2. solve_Permutation.
Qed.
