(* ===== verification/ShellProps.v ===== *)
(** * The shell runs commands as they are meant

    Every interleaving of the processes of [runcmd] is an execution of the jobs of
    [ShellSpec], it ends, and it gets stuck only when everything is done. *)

From ITree Require Import ITree ITreeFacts.
From S2P Require Import Prelude Ulib Usys Sh ShProps Shell Descriptors Procs ShellSpec.

Abbreviation same := (eq_itree (E := callE) (R1 := Empty_set) eq).

(** ** Programs up to bisimulation *)

Lemma call_vis {A} (e : callE A) (k : A -> prog Empty_set) code :
  same code (x <- call e ;; k x) -> exists k', observe code = VisF e k' /\ forall a, same (k' a) (k a).
Proof. unfold call. rewrite bind_trigger. apply eqitree_inv_Vis_r. Qed.

Lemma exit_vis code : same code exit -> exists k, observe code = VisF Exit k.
Proof. intros (k & E & _)%eqitree_inv_Vis_r. by exists k. Qed.

(** What [printf] prints. *)
Definition says (fmt : string) (args : list parg) : list Z := default [] (Ulib.printf (codes fmt) args).
Lemma printf_says fd fmt args : is_Some (Ulib.printf (codes fmt) args) -> Usys.printf fd fmt args = putcs fd (says fmt args).
Proof. unfold Usys.printf, fprintf, says. by intros [out ->]. Qed.

(** A message and then [exit]. *)
Definition quit (fd : Z) (s : list Z) : prog Empty_set := putcs fd s ;;; exit.

Lemma quit_nil fd : same (quit fd []) exit.
Proof. exact (bind_ret_l tt (fun _ => exit)). Qed.
Lemma quit_cons fd c s : same (quit fd (c :: s)) (_ <- call (Write fd [c]) ;; quit fd s).
Proof. unfold quit. cbn [putcs]. apply bind_bind. Qed.

Lemma fork1_call (k : Z -> prog Empty_set) :
  same (pid <- fork1 ;; k pid) (pid <- call Fork ;; if pid =? -1 then quit 2 (codes (line "fork")) else k pid).
Proof.
  unfold fork1. rewrite bind_bind. apply eqit_bind; [reflexivity|]. intros pid. destruct (pid =? -1).
  - unfold panic. rewrite printf_says by (by eexists). rewrite bind_bind. apply eqit_bind; [reflexivity|]. intros _. unfold exit, never. rewrite bind_vis. apply eqit_Vis. intros [].
  - apply bind_ret_l.
Qed.

(** ** Plumbing *)

Inductive fdop := OClose (fd : Z) | ODup (fd : Z).
Definition op_call (o : fdop) : callE Z := match o with OClose fd => Close fd | ODup fd => Dup fd end.
Definition op_effect (o : fdop) (T : table) : Z * table := match o with OClose fd => do_close T fd | ODup fd => do_dup T fd end.
Fixpoint do_ops (ops : list fdop) (k : prog Empty_set) : prog Empty_set :=
  match ops with
  | [] => k
  | o :: ops => call (op_call o) ;;; do_ops ops k
  end.
Fixpoint plumb (ops : list fdop) (T : table) : table :=
  match ops with
  | [] => T
  | o :: ops => plumb ops (snd (op_effect o T))
  end.

(** The first two descriptors are open. *)
Definition std (T : table) : Prop := exists a b, T !! 0%nat = Some (Some a) /\ T !! 1%nat = Some (Some b).

Lemma std_insert T i d : std T -> std (<[i := Some d]> T).
Proof.
  intros (a & b & H0 & H1). unfold std. destruct (decide (i = 0%nat)) as [->|]; [|destruct (decide (i = 1%nat)) as [->|]].
  - exists d, b. split; [apply list_lookup_insert_eq; by eapply lookup_lt_Some|by rewrite list_lookup_insert_ne].
  - exists a, d. split; [by rewrite list_lookup_insert_ne|apply list_lookup_insert_eq; by eapply lookup_lt_Some].
  - exists a, b. by rewrite !list_lookup_insert_ne.
Qed.

(** Close [k], the lowest free descriptor then; duplicate [c] there; close both ends. *)
Lemma plumb_end (T : table) (a b k c : nat) x y z :
  let T' := <[b := Some y]> (<[a := Some x]> T) in
  a <> b -> a <> k -> b <> k -> T !! a = Some None -> T !! b = Some None -> T' !! c = Some (Some z) -> c <> k ->
  (exists e, T !! k = Some (Some e)) -> (forall q, (q < k)%nat -> exists e, T' !! q = Some (Some e)) ->
  plumb [OClose (Z.of_nat k); ODup (Z.of_nat c); OClose (Z.of_nat a); OClose (Z.of_nat b)] T' = <[k := Some z]> T.
Proof.
  intros T' Hab Hak Hbk Ha Hb Hc Hck [e He] Hlow. cbn [plumb op_effect].
  pose proof (lookup_lt_Some _ _ _ Ha). pose proof (lookup_lt_Some _ _ _ Hb). pose proof (lookup_lt_Some _ _ _ He).
  assert (Hl : length T' = length T) by (unfold T'; by rewrite !length_insert).
  assert (Hk : T' !! k = Some (Some e)) by (unfold T'; by rewrite !list_lookup_insert_ne).
  rewrite (close_nat _ _ _ Hk), (dup_nat _ _ k z).
  2: by rewrite list_lookup_insert_ne by done.
  2: apply list_lookup_insert_eq; lia.
  2: { intros q Hq. destruct (Hlow q Hq) as [w Hw]. exists w. by rewrite list_lookup_insert_ne by lia. }
  rewrite list_insert_insert_eq. assert (Ha' : T' !! a = Some (Some x)).
  { unfold T'. rewrite list_lookup_insert_ne by done. apply list_lookup_insert_eq. lia. }
  rewrite (close_nat _ a x) by (by rewrite list_lookup_insert_ne). rewrite (close_nat _ b y).
  2: { rewrite !list_lookup_insert_ne by done. unfold T'. apply list_lookup_insert_eq. rewrite length_insert. lia. }
  apply list_eq. intros q. destruct (decide (q = k)) as [->|Hqk].
  { rewrite !list_lookup_insert_ne by done. rewrite !list_lookup_insert_eq by lia. done. }
  rewrite (list_lookup_insert_ne T) by done. destruct (decide (q = b)) as [->|Hqb].
  { rewrite list_lookup_insert_eq by (rewrite !length_insert; lia). done. }
  rewrite list_lookup_insert_ne by done. destruct (decide (q = a)) as [->|Hqa].
  { rewrite list_lookup_insert_eq by (rewrite !length_insert; lia). done. }
  rewrite !list_lookup_insert_ne by done. unfold T'. by rewrite !list_lookup_insert_ne by done.
Qed.

Lemma pipe_plumbing n T i j T' :
  std T -> do_pipe n T = Some (i, j, T') ->
  plumb [OClose 1; ODup j; OClose i; OClose j] T' = <[1%nat := Some (PipeW n)]> T /\
  plumb [OClose 0; ODup i; OClose i; OClose j] T' = <[0%nat := Some (PipeR n)]> T.
Proof.
  intros (e0 & e1 & H0 & H1) E. unfold do_pipe in E. destruct (alloc T (PipeR n)) as [[a T1]|] eqn:E1; [|done].
  destruct (alloc T1 (PipeW n)) as [[b T2]|] eqn:E2; [|done]. injection E as <- <- <-.
  apply alloc_spec in E1 as (-> & Ha & _). apply alloc_spec in E2 as (-> & Hb & _).
  pose proof (lookup_lt_Some _ _ _ Ha) as Hal.
  assert (Hab : a <> b) by (intros ->; rewrite list_lookup_insert_eq in Hb by done; congruence).
  rewrite list_lookup_insert_ne in Hb by done. pose proof (lookup_lt_Some _ _ _ Hb) as Hbl.
  assert (Hne : a <> 0%nat /\ a <> 1%nat /\ b <> 0%nat /\ b <> 1%nat) by (split_and!; intros ->; congruence). destruct Hne as (? & ? & ? & ?).
  split.
  - apply (plumb_end T a b 1 b); try done; [apply list_lookup_insert_eq; by rewrite length_insert|by exists e1|].
    intros q Hq. assert (q = 0%nat) as -> by lia. exists e0. by rewrite !list_lookup_insert_ne.
  - apply (plumb_end T a b 0 a); try done; [|by exists e0|intros; lia].
    rewrite list_lookup_insert_ne by done. by apply list_lookup_insert_eq.
Qed.

(** A redirection opens the file where the descriptor was. *)
Definition std_fd (fd : Z) : Prop := fd = 0 \/ fd = 1.
Lemma redir_open T fd d : std T -> std_fd fd ->
  snd (do_close T fd) = <[Z.to_nat fd := None]> T /\
  alloc (<[Z.to_nat fd := None]> T) d = Some (Z.to_nat fd, <[Z.to_nat fd := Some d]> T).
Proof.
  intros (a & b & H0 & H1) Hfd. pose proof (lookup_lt_Some _ _ _ H1) as Hl.
  assert (Hs : exists e, T !! Z.to_nat fd = Some (Some e)) by (destruct Hfd as [->| ->]; [by exists a|by exists b]). destruct Hs as [e He].
  split; [rewrite <- (Z2Nat.id fd) at 1 by (destruct Hfd; lia); by apply (close_nat _ _ e)|].
  replace (<[Z.to_nat fd := Some d]> T) with (<[Z.to_nat fd := Some d]> (<[Z.to_nat fd := None]> T)) by apply list_insert_insert_eq. apply alloc_first.
  - apply list_lookup_insert_eq. destruct Hfd; lia.
  - intros k Hk. destruct Hfd as [->| ->]; [lia|]. assert (k = 0%nat) as -> by lia. exists a. by rewrite list_lookup_insert_ne.
Qed.

(** ** The steps of a process by its next call *)

Definition effect {A} (e : callE A) : (A -> prog Empty_set) -> nat -> table -> list tree -> option label -> nat -> tree -> list tree -> Prop :=
  match e with
  | Fork => fun k n T kids l n' t' os => n' = n /\ os = [] /\
      ((exists pid, 0 < pid /\ l = None /\ t' = Live (k pid) T (kids ++ [Live (k 0) T []])) \/ (l = Some Fail /\ t' = Live (k (-1)) T kids))
  | Exit => fun k n T kids l n' t' os => n' = n /\ l = None /\ t' = Zombie /\ os = kids
  | Wait => fun k n T kids l n' t' os => n' = n /\ l = None /\ os = [] /\
      ((exists b a pid, 0 < pid /\ kids = b ++ Zombie :: a /\ t' = Live (k pid) T (b ++ a)) \/ (kids = [] /\ t' = Live (k (-1)) T []))
  | Pipe => fun k n T kids l n' t' os => os = [] /\
      ((exists i j T', do_pipe n T = Some (i, j, T') /\ n' = S n /\ l = None /\ t' = Live (k (Some (i, j))) T' kids) \/
       (n' = n /\ l = Some Fail /\ t' = Live (k None) T kids))
  | Write fd data => fun k n T kids l n' t' os => n' = n /\ l = None /\ os = [] /\ exists r, t' = Live (k r) T kids
  | Close fd => fun k n T kids l n' t' os => n' = n /\ l = None /\ os = [] /\ t' = Live (k (fst (do_close T fd))) (snd (do_close T fd)) kids
  | Dup fd => fun k n T kids l n' t' os => n' = n /\ l = None /\ os = [] /\ t' = Live (k (fst (do_dup T fd))) (snd (do_dup T fd)) kids
  | Open path mode => fun k n T kids l n' t' os => n' = n /\ os = [] /\
      ((exists i T', alloc T (Opened path mode) = Some (i, T') /\ l = None /\ t' = Live (k (Z.of_nat i)) T' kids) \/ (l = Some Fail /\ t' = Live (k (-1)) T kids))
  | Exec path argv => fun k n T kids l n' t' os => n' = n /\ os = [] /\
      ((l = Some (Start path argv T) /\ t' = Prog argv T kids) \/ (l = Some Fail /\ t' = Live (k (-1)) T kids))
  | _ => fun _ _ _ _ _ _ _ _ => False
  end.

(** A step of a descendant. *)
Definition kid_step n code T kids l n' t' os : Prop :=
  exists before t after t1, kids = before ++ t :: after /\ step n t l n' t1 os /\ t' = Live code T (before ++ t1 :: after).

Lemma step_view n code T kids l n' t' os :
  step n (Live code T kids) l n' t' os ->
  match observe code with
  | RetF _ => False
  | TauF code' => n' = n /\ l = None /\ os = [] /\ t' = Live code' T kids
  | VisF e k => effect e k n T kids l n' t' os
  end \/ kid_step n code T kids l n' t' os.
Proof.
  inversion 1; subst; try (left; match goal with E : observe code = _ |- _ => rewrite E end; cbn; by eauto 10).
  right. by exists before, t, after, t'0.
Qed.

Lemma call_step {A} (e : callE A) (kk : A -> prog Empty_set) n code T kids l n' t' os :
  same code (x <- call e ;; kk x) -> step n (Live code T kids) l n' t' os ->
  (exists k, (forall a, same (k a) (kk a)) /\ effect e k n T kids l n' t' os) \/ kid_step n code T kids l n' t' os.
Proof.
  intros (k & E & Hk)%call_vis [H|H]%step_view; [left|by right]. rewrite E in H. by exists k.
Qed.
Lemma exit_step n code T kids l n' t' os :
  same code exit -> step n (Live code T kids) l n' t' os ->
  (n' = n /\ l = None /\ t' = Zombie /\ os = kids) \/ kid_step n code T kids l n' t' os.
Proof. intros (k & E)%exit_vis [H|H]%step_view; [left|by right]. by rewrite E in H. Qed.

Lemma kid_none n code T l n' t' os : ~ kid_step n code T [] l n' t' os.
Proof. intros (b & t & a & t1 & E & _). by destruct b. Qed.
Lemma kid_one n code T t l n' t' os : kid_step n code T [t] l n' t' os -> exists t1, step n t l n' t1 os /\ t' = Live code T [t1].
Proof. intros (b & u & a & t1 & E & Hs & ->). destruct b as [|? []]; [|done..]. injection E as -> <-. by exists t1. Qed.
Lemma kid_two n code T t u l n' t' os : kid_step n code T [t; u] l n' t' os ->
  (exists t1, step n t l n' t1 os /\ t' = Live code T [t1; u]) \/ (exists u1, step n u l n' u1 os /\ t' = Live code T [t; u1]).
Proof.
  intros (b & v & a & t1 & E & Hs & ->). destruct b as [|? [|? []]]; [left|right|done..].
  - injection E as -> <-. by exists t1.
  - injection E as -> -> <-. by exists t1.
Qed.

Definition fork_msg : list Z := codes (line "fork").
Definition pipe_msg : list Z := codes (line "pipe").

Lemma fork_step (A B : prog Empty_set) n code T kids l n' t' os :
  same code (pid <- fork1 ;; if pid =? 0 then A else B) -> step n (Live code T kids) l n' t' os ->
  (n' = n /\ os = [] /\
    ((exists c0 cp, same c0 A /\ same cp B /\ l = None /\ t' = Live cp T (kids ++ [Live c0 T []])) \/
     (exists c', same c' (quit 2 fork_msg) /\ l = Some Fail /\ t' = Live c' T kids))) \/
  kid_step n code T kids l n' t' os.
Proof.
  intros Hc Hs. rewrite fork1_call in Hc. destruct (call_step _ _ _ _ _ _ _ _ _ _ Hc Hs) as [(k & Hk & H)|H]; [left|by right].
  destruct H as (-> & -> & [(pid & Hp & -> & ->)|[-> ->]]); (split; [done|]; split; [done|]).
  - left. exists (k 0), (k pid). split; [exact (Hk 0)|]. split; [|done]. rewrite (Hk pid), (proj2 (Z.eqb_neq pid (-1))), (proj2 (Z.eqb_neq pid 0)) by lia. reflexivity.
  - right. exists (k (-1)). split; [exact (Hk (-1))|done].
Qed.

(** ** Processes and jobs *)

Fixpoint sane (c : cmd (list Z)) : Prop :=
  match c with
  | EXEC _ => True
  | REDIR c _ _ fd => std_fd fd /\ sane c
  | PIPE l r | LIST l r => sane l /\ sane r
  | BACK c => sane c
  end.

Definition exec_msg (a : list Z) : list Z := says (line "exec %s failed") [str a].
Definition open_msg (file : list Z) : list Z := says (line "open %s failed") [str file].

(** How many steps the processes of a command can take at most. *)
Fixpoint cost (c : cmd (list Z)) : nat :=
  match c with
  | EXEC [] => 1
  | EXEC (a :: _) => 2 + length (exec_msg a)
  | REDIR c file _ _ => 3 + length (open_msg file) + cost c
  | LIST l r => 10 + cost l + cost r
  | PIPE l r => 30 + cost l + cost r
  | BACK c => 10 + cost c
  end.

Definition opening (c : cmd (list Z)) (file : list Z) (mode : Z) : prog Empty_set :=
  r <- call (Open file mode) ;; if r <? 0 then Usys.printf 2 (line "open %s failed") [str file] ;;; exit else runcmd c.
Definition waits : prog Empty_set := call Wait ;;; call Wait ;;; exit.
Definition right_ops (p0 p1 : Z) : list fdop := [OClose 0; ODup p0; OClose p0; OClose p1].
Definition left_ops (p0 p1 : Z) : list fdop := [OClose 1; ODup p1; OClose p0; OClose p1].
Definition right_part (r : cmd (list Z)) (p0 p1 : Z) : prog Empty_set :=
  pid <- fork1 ;; if pid =? 0 then do_ops (right_ops p0 p1) (runcmd r) else do_ops [OClose p0; OClose p1] waits.
Definition left_part (l r : cmd (list Z)) (p0 p1 : Z) : prog Empty_set :=
  pid <- fork1 ;; if pid =? 0 then do_ops (left_ops p0 p1) (runcmd l) else right_part r p0 p1.

(** [rel m t j ds]: the process [t] and its descendants do the job [j], those that it will
    not wait for do the jobs [ds], and they take at most [m] steps. *)
Inductive rel : nat -> tree -> job -> list job -> Prop :=
| rel_todo code ops c T : same code (do_ops ops (runcmd c)) -> std (plumb ops T) -> sane c ->
    rel (length ops + cost c) (Live code T []) (Todo c (plumb ops T)) []
| rel_redir code c file mode fd T : same code (opening c file mode) -> std T -> std_fd fd -> sane c ->
    rel (2 + length (open_msg file) + cost c) (Live code (<[Z.to_nat fd := None]> T) []) (Todo (REDIR c file mode fd) T) []
| rel_running argv T : rel 1 (Prog argv T []) (Running argv T) []
| rel_zombie : rel 0 Zombie Done []
| rel_quit code fd s T m kids js : same code (quit fd s) -> rels m kids js -> rel (m + length s + 1) (Live code T kids) Done js
| rel_seq code r T m t j ds : same code (_ <- call Wait ;; runcmd r) -> std T -> sane r -> rel m t j ds ->
    rel (m + 1 + cost r) (Live code T [t]) (Seq j r T) ds
| rel_left code l r p0 p1 T : same code (left_part l r p0 p1) -> std (plumb (left_ops p0 p1) T) -> std (plumb (right_ops p0 p1) T) -> sane l -> sane r ->
    rel (28 + cost l + cost r) (Live code T []) (Par (Todo l (plumb (left_ops p0 p1) T)) (Todo r (plumb (right_ops p0 p1) T))) []
| rel_right code r p0 p1 T m t j ds : same code (right_part r p0 p1) -> std (plumb (right_ops p0 p1) T) -> sane r -> rel m t j ds ->
    rel (m + 20 + cost r) (Live code T [t]) (Par j (Todo r (plumb (right_ops p0 p1) T))) ds
| rel_both code ops T m1 t1 j1 ds1 m2 t2 j2 ds2 : same code (do_ops ops waits) -> rel m1 t1 j1 ds1 -> rel m2 t2 j2 ds2 ->
    rel (m1 + m2 + length ops + 3) (Live code T [t1; t2]) (Par j1 j2) (ds1 ++ ds2)
| rel_first code T m t j ds : same code (_ <- call Wait ;; exit) -> rel m t j ds -> rel (m + 2) (Live code T [t]) (Par j Done) ds
| rel_second code T m t j ds : same code (_ <- call Wait ;; exit) -> rel m t j ds -> rel (m + 2) (Live code T [t]) (Par Done j) ds
with rels : nat -> list tree -> list job -> Prop :=
| rels_nil : rels 0 [] []
| rels_cons m1 t j ds m2 ts js : rel m1 t j ds -> rels m2 ts js -> rels (m1 + m2) (t :: ts) (j :: ds ++ js).

Lemma rels_app m1 ts1 js1 m2 ts2 js2 : rels m1 ts1 js1 -> rels m2 ts2 js2 -> rels (m1 + m2) (ts1 ++ ts2) (js1 ++ js2).
Proof.
  intros H1 H2. induction H1 as [|m t j ds m' ts js Hr Hrs IH]; [done|]. cbn. rewrite <- app_assoc, <- Nat.add_assoc. by constructor.
Qed.
Lemma rels_split before : forall m t after js, rels m (before ++ t :: after) js ->
  exists m0 m1 m2 j0 j ds j2, rels m0 before j0 /\ rel m1 t j ds /\ rels m2 after j2 /\ m = (m0 + m1 + m2)%nat /\ js = j0 ++ j :: ds ++ j2.
Proof.
  induction before as [|u before IH]; intros m t after js H; cbn in H; inversion H as [|m1 ? j ds m2 ? js' Hr Hrs]; subst.
  - exists 0%nat, m1, m2, [], j, ds, js'. split; [constructor|]. done.
  - destruct (IH _ _ _ _ Hrs) as (a & b & c & j0 & j' & ds' & j2 & R0 & R1 & R2 & -> & ->).
    exists (m1 + a)%nat, b, c, (j :: ds ++ j0), j', ds', j2. split; [by constructor|]. split; [done|]. split; [done|]. split; [lia|]. cbn. by rewrite <- app_assoc.
Qed.

(** ** Steps of jobs *)

Definition evolves n j ds l n' j' ds' : Prop :=
  (l = None /\ n' = n /\ j' = j /\ ds' ≡ₚ ds) \/ (exists d, jstep n j l n' j' d /\ ds' ≡ₚ ds ++ d) \/ (j' = j /\ pool n ds l n' ds').

Lemma pool_frame n J l n' J' K : pool n J l n' J' -> pool n (J ++ K) l n' (J' ++ K).
Proof.
  intros [? ? j b ? ? j' d ? E1 Hs E2]. eapply (pool_step _ _ j (b ++ K)); [rewrite E1; reflexivity|done|]. rewrite E2. cbn. solve_Permutation.
Qed.
Lemma pool_perm n J K l n' J' K' : J ≡ₚ K -> J' ≡ₚ K' -> pool n J l n' J' -> pool n K l n' K'.
Proof. intros HJ HK H. inversion H as [? ? j b ? ? j' d ? E1 Hs E2]; subst. eapply (pool_step _ _ j b); [by rewrite <- HJ|done|]. by rewrite <- HK. Qed.

(** The job in a larger one. *)
Lemma evolves_in (C : job -> job) n j ds l n' j' ds' K :
  (forall l n' j' d, jstep n j l n' j' d -> jstep n (C j) l n' (C j') d) ->
  evolves n j ds l n' j' ds' -> evolves n (C j) (ds ++ K) l n' (C j') (ds' ++ K).
Proof.
  intros HC [(-> & -> & -> & E)|[(d & Hs & E)|[-> Hp]]].
  - left. split_and!; try done. by rewrite E.
  - right; left. exists d. split; [by apply HC|]. rewrite E. solve_Permutation.
  - right; right. split; [done|]. by apply pool_frame.
Qed.
(** The job among those nothing waits for. *)
Lemma evolves_pool n j ds l n' j' ds' K :
  evolves n j ds l n' j' ds' -> (l = None /\ n' = n /\ j' :: ds' ++ K ≡ₚ j :: ds ++ K) \/ pool n (j :: ds ++ K) l n' (j' :: ds' ++ K).
Proof.
  intros [(-> & -> & -> & E)|[(d & Hs & E)|[-> Hp]]].
  - left. split_and!; try done. by rewrite E.
  - right. eapply (pool_step _ _ j (ds ++ K)); [done|done|]. rewrite E. solve_Permutation.
  - right. eapply (pool_perm _ (ds ++ (j :: K))); [| |by apply pool_frame]; cbn; solve_Permutation.
Qed.

(** ** Every step of the processes is a step of the jobs *)

Definition simulated (m : nat) (t : tree) (j : job) (ds : list job) : Prop :=
  forall n l n' t' os, step n t l n' t' os ->
    exists m' j' ds' mo jo, rel m' t' j' ds' /\ rels mo os jo /\ (m' + mo < m)%nat /\ evolves n j ds l n' j' (ds' ++ jo).

(** A step that leaves no process without its parent. *)
Lemma simulated_alone m n j ds l n' t' m' j' ds' :
  rel m' t' j' ds' -> (m' < m)%nat -> evolves n j ds l n' j' ds' ->
  exists m' j' ds' mo jo, rel m' t' j' ds' /\ rels mo [] jo /\ (m' + mo < m)%nat /\ evolves n j ds l n' j' (ds' ++ jo).
Proof. intros Hr Hm He. exists m', j', ds', 0%nat, []. split; [done|]. split; [constructor|]. split; [lia|]. by rewrite app_nil_r. Qed.

Lemma evolves_none n j ds : evolves n j ds None n j ds.
Proof. by left. Qed.
Lemma evolves_step n j ds l n' j' d : jstep n j l n' j' d -> evolves n j ds l n' j' (ds ++ d).
Proof. intros H. right; left. by exists d. Qed.
#[local] Hint Resolve evolves_none : core.

Lemma rel_quit_done code fd s T m kids js : same code (quit fd s) -> rels m kids js ->
  (forall m1 t j ds, (m1 <= m)%nat -> rel m1 t j ds -> simulated m1 t j ds) -> simulated (m + length s + 1) (Live code T kids) Done js.
Proof.
  intros Hc Hk IH n0 l n' t' os Hs. assert (Hkid : kid_step n0 code T kids l n' t' os ->
    exists m' j' ds' mo jo, rel m' t' j' ds' /\ rels mo os jo /\ (m' + mo < m + length s + 1)%nat /\ evolves n0 Done js l n' j' (ds' ++ jo)).
  { intros (b & t & a & t1 & -> & Ht & ->). destruct (rels_split _ _ _ _ _ Hk) as (m0 & m1 & m2 & j0 & j & ds & j2 & R0 & R1 & R2 & -> & ->).
    destruct (IH m1 t j ds ltac:(lia) R1 _ _ _ _ _ Ht) as (m' & j' & ds' & mo & jo & R' & Ro & Hm & He).
    exists (m0 + (m' + m2) + length s + 1)%nat, Done, (j0 ++ j' :: ds' ++ j2), mo, jo. split; [|split; [done|split; [lia|]]].
    - eapply rel_quit; [done|]. apply rels_app; [done|]. by constructor.
    - destruct (evolves_pool _ _ _ _ _ _ _ (j0 ++ j2) He) as [(-> & -> & E)|Hp].
      + left. split_and!; try done. transitivity (j' :: (ds' ++ jo) ++ j0 ++ j2); [solve_Permutation|]. rewrite E. solve_Permutation.
      + right; right. split; [done|]. eapply pool_perm; [| |exact Hp]; cbn; solve_Permutation. }
  destruct s as [|c s].
  - rewrite quit_nil in Hc. destruct (exit_step _ _ _ _ _ _ _ _ Hc Hs) as [(-> & -> & -> & ->)|H]; [|by apply Hkid].
    exists 0%nat, Done, [], m, js. split; [constructor|]. split; [done|]. split; [lia|]. by left.
  - rewrite quit_cons in Hc. destruct (call_step _ _ _ _ _ _ _ _ _ _ Hc Hs) as [(k & Hk' & -> & -> & -> & r & ->)|H]; [|by apply Hkid].
    eapply simulated_alone; [eapply rel_quit; [apply (Hk' r)|done]|cbn [length]; lia|done].
Qed.

Lemma rel_quits code fd s T : same code (quit fd s) -> rel (length s + 1) (Live code T []) Done [].
Proof. intros Hc. exact (rel_quit code fd s T 0 [] [] Hc rels_nil). Qed.
Lemma rel_todo_now code c T : same code (runcmd c) -> std T -> sane c -> rel (cost c) (Live code T []) (Todo c T) [].
Proof. intros Hc Hs Hn. exact (rel_todo code [] c T Hc Hs Hn). Qed.
Lemma rels_one m t j ds : rel m t j ds -> rels m [t] (j :: ds).
Proof. intros H. pose proof (rels_cons m t j ds 0 [] [] H rels_nil) as E. by rewrite app_nil_r, Nat.add_0_r in E. Qed.

Lemma printed fmt args code (k : prog Empty_set) : is_Some (Ulib.printf (codes fmt) args) ->
  same code (Usys.printf 2 fmt args ;;; exit) -> same code (quit 2 (says fmt args)).
Proof. intros H. by rewrite printf_says by done. Qed.

Lemma exec_done code a argv T : same code (runcmd (EXEC (a :: argv))) -> simulated (cost (EXEC (a :: argv))) (Live code T []) (Todo (EXEC (a :: argv)) T) [].
Proof.
  intros Hc n l n' t' os Hs. destruct (call_step _ _ _ _ _ _ _ _ _ _ Hc Hs) as [(k & Hk & -> & -> & H)|H]; [|by apply kid_none in H].
  destruct H as [[-> ->]|[-> ->]]; cbn [cost].
  - eapply simulated_alone; [apply rel_running|lia|]. apply (evolves_step _ _ []). constructor.
  - eapply simulated_alone; [apply (rel_quits _ 2 (exec_msg a)); apply printed; [exact exit|by eexists|apply Hk]|lia|]. apply (evolves_step _ _ []). constructor.
Qed.

Lemma list_done code l r T : same code (runcmd (LIST l r)) -> std T -> sane (LIST l r) -> simulated (cost (LIST l r)) (Live code T []) (Todo (LIST l r) T) [].
Proof.
  intros Hc HT [Hl Hr] n lb n' t' os Hs. destruct (fork_step _ _ _ _ _ _ _ _ _ _ Hc Hs) as [(-> & -> & H)|H]; [|by apply kid_none in H].
  destruct H as [(c0 & cp & H0 & Hp & -> & ->)|(c' & Hq & -> & ->)]; cbn [cost app].
  - eapply simulated_alone; [eapply rel_seq; [exact Hp|done|done|by apply rel_todo_now]|lia|]. apply (evolves_step _ _ []). constructor.
  - eapply simulated_alone; [by eapply rel_quits|change (length fork_msg) with 5%nat; lia|]. apply (evolves_step _ _ []). constructor.
Qed.

Lemma back_done code c T : same code (runcmd (BACK c)) -> std T -> sane c -> simulated (cost (BACK c)) (Live code T []) (Todo (BACK c) T) [].
Proof.
  intros Hc HT Hn n lb n' t' os Hs. destruct (fork_step _ _ _ _ _ _ _ _ _ _ Hc Hs) as [(-> & -> & H)|H]; [|by apply kid_none in H].
  destruct H as [(c0 & cp & H0 & Hp & -> & ->)|(c' & Hq & -> & ->)]; cbn [cost app].
  - eapply simulated_alone; [eapply (rel_quit _ 2 []); [by rewrite quit_nil|by apply rels_one, rel_todo_now]|cbn [length]; lia|].
    apply (evolves_step _ _ []). constructor.
  - eapply simulated_alone; [by eapply rel_quits|change (length fork_msg) with 5%nat; lia|]. apply (evolves_step _ _ []). constructor.
Qed.

Lemma pipe_done code l r T : same code (runcmd (PIPE l r)) -> std T -> sane (PIPE l r) -> simulated (cost (PIPE l r)) (Live code T []) (Todo (PIPE l r) T) [].
Proof.
  intros Hc HT [Hl Hr] n lb n' t' os Hs. destruct (call_step _ _ _ _ _ _ _ _ _ _ Hc Hs) as [(k & Hk & -> & H)|H]; [|by apply kid_none in H].
  destruct H as [(i & j & T' & Ep & -> & -> & ->)|(-> & -> & ->)]; cbn [cost].
  - destruct (pipe_plumbing _ _ _ _ _ HT Ep) as [E1 E2]. eapply simulated_alone; [apply (rel_left _ l r i j); [apply (Hk (Some (i, j)))| | |done|done]|lia|].
    + unfold left_ops. rewrite E1. by apply std_insert.
    + unfold right_ops. rewrite E2. by apply std_insert.
    + unfold left_ops, right_ops. rewrite E1, E2. apply (evolves_step _ _ []). constructor.
  - eapply simulated_alone; [apply (rel_quits _ 2 pipe_msg)|change (length pipe_msg) with 5%nat; lia|apply (evolves_step _ _ []); constructor].
    pose proof (Hk None) as E. unfold panic in E. rewrite printf_says in E by (by eexists). exact E.
Qed.

Lemma redir_done code c file mode fd T : same code (opening c file mode) -> std T -> std_fd fd -> sane c ->
  simulated (2 + length (open_msg file) + cost c) (Live code (<[Z.to_nat fd := None]> T) []) (Todo (REDIR c file mode fd) T) [].
Proof.
  intros Hc HT Hfd Hn n lb n' t' os Hs. destruct (call_step _ _ _ _ _ _ _ _ _ _ Hc Hs) as [(k & Hk & -> & -> & H)|H]; [|by apply kid_none in H].
  destruct (redir_open T fd (Opened file mode) HT Hfd) as [_ Ea]. destruct H as [(i & T' & E & -> & ->)|[-> ->]].
  - rewrite Ea in E. injection E as <- <-. eapply simulated_alone; [apply rel_todo_now; [|by apply std_insert|done]|lia|apply (evolves_step _ _ []); constructor].
    rewrite (Hk _), (proj2 (Z.ltb_ge _ 0)) by lia. reflexivity.
  - eapply simulated_alone; [apply (rel_quits _ 2 (open_msg file)); apply printed; [exact exit|by eexists|apply Hk]|lia|apply (evolves_step _ _ []); constructor].
Qed.

Lemma todo_done code ops c T : same code (do_ops ops (runcmd c)) -> std (plumb ops T) -> sane c ->
  simulated (length ops + cost c) (Live code T []) (Todo c (plumb ops T)) [].
Proof.
  intros Hc HT Hn. destruct ops as [|o ops].
  - cbn [plumb do_ops length Nat.add] in *. destruct c as [[|a argv]|c file mode fd|l r|l r|c];
      [|by apply exec_done| |by apply pipe_done|by apply list_done|by apply back_done].
    + intros n l n' t' os Hs. destruct (exit_step _ _ _ _ _ _ _ _ Hc Hs) as [(-> & -> & -> & ->)|H]; [|by apply kid_none in H].
      eapply simulated_alone; [apply rel_zombie|cbn; lia|]. apply (evolves_step _ _ []). constructor.
    + intros n l n' t' os Hs. destruct Hn as [Hfd Hn]. destruct (call_step _ _ _ _ _ _ _ _ _ _ Hc Hs) as [(k & Hk & -> & -> & -> & ->)|H]; [|by apply kid_none in H].
      destruct (redir_open T fd (Opened file mode) HT Hfd) as [-> _]. eapply simulated_alone; [apply (rel_redir _ c file mode fd); [apply Hk|done..]|cbn [cost]; lia|done].
  - intros n l n' t' os Hs. cbn [do_ops plumb length] in *. destruct (call_step _ _ _ _ _ _ _ _ _ _ Hc Hs) as [(k & Hk & H)|H]; [|by apply kid_none in H].
    assert (Ht : n' = n /\ l = None /\ os = [] /\ t' = Live (k (fst (op_effect o T))) (snd (op_effect o T)) []) by (by destruct o).
    destruct Ht as (-> & -> & -> & ->). eapply simulated_alone; [apply (rel_todo _ ops c); [apply Hk|done|done]|lia|done].
Qed.

(** The processes that have children. *)
Lemma evolves_perm n j ds ds1 l n' j' ds' ds1' : ds ≡ₚ ds1 -> ds' ≡ₚ ds1' -> evolves n j ds l n' j' ds' -> evolves n j ds1 l n' j' ds1'.
Proof.
  intros E E' [(-> & -> & -> & H)|[(d & H1 & H2)|[-> H]]].
  - left. split_and!; try done. by rewrite <- E', H.
  - right; left. exists d. split; [done|]. by rewrite <- E', H2, E.
  - right; right. split; [done|]. by eapply pool_perm.
Qed.

Lemma kid_in m (C : job -> job) (D : tree -> tree) K0 K extra m1 t j ds n l n' t1 os :
  (forall n l n' j j' d, jstep n j l n' j' d -> jstep n (C j) l n' (C j') d) ->
  (forall m' t' j' ds', rel m' t' j' ds' -> rel (m' + extra) (D t') (C j') (K0 ++ ds' ++ K)) -> m = (m1 + extra)%nat ->
  simulated m1 t j ds -> step n t l n' t1 os ->
  exists m' j' ds' mo jo, rel m' (D t1) j' ds' /\ rels mo os jo /\ (m' + mo < m)%nat /\ evolves n (C j) (K0 ++ ds ++ K) l n' j' (ds' ++ jo).
Proof.
  intros HC HD -> Hsim Hs. destruct (Hsim _ _ _ _ _ Hs) as (m' & j' & ds' & mo & jo & R & Ro & Hm & He).
  exists (m' + extra)%nat, (C j'), (K0 ++ ds' ++ K), mo, jo. split; [by apply HD|]. split; [done|]. split; [lia|].
  eapply evolves_perm; [| |exact (evolves_in C _ _ _ _ _ _ _ (K0 ++ K) (fun l n' j' d => HC n l n' j j' d) He)]; solve_Permutation.
Qed.

Lemma seq_done code r T m t j ds : same code (_ <- call Wait ;; runcmd r) -> std T -> sane r -> rel m t j ds -> simulated m t j ds ->
  simulated (m + 1 + cost r) (Live code T [t]) (Seq j r T) ds.
Proof.
  intros Hc HT Hn Hr Hsim n l n' t' os Hs. destruct (call_step _ _ _ _ _ _ _ _ _ _ Hc Hs) as [(k & Hk & -> & -> & -> & H)|H].
  - destruct H as [(b & a & pid & Hp & E & ->)|[? _]]; [|done]. destruct b as [|? []]; [|done..]. injection E as -> <-. inversion Hr; subst.
    eapply simulated_alone; [apply rel_todo_now; [apply Hk|done|done]|lia|]. apply (evolves_step _ _ []). constructor.
  - apply kid_one in H as (t1 & Ht & ->). rewrite <- (app_nil_r ds).
    apply (kid_in _ (fun j => Seq j r T) (fun t => Live code T [t]) [] [] (1 + cost r) m t j ds _ _ _ t1); [by constructor| |lia|done|done].
    intros m' t' j' ds' R. cbn [app]. rewrite app_nil_r, Nat.add_assoc. by apply rel_seq.
Qed.

Lemma left_done code l r p0 p1 T : same code (left_part l r p0 p1) -> std (plumb (left_ops p0 p1) T) -> std (plumb (right_ops p0 p1) T) -> sane l -> sane r ->
  simulated (28 + cost l + cost r) (Live code T []) (Par (Todo l (plumb (left_ops p0 p1) T)) (Todo r (plumb (right_ops p0 p1) T))) [].
Proof.
  intros Hc H1 H2 Hl Hr n lb n' t' os Hs. destruct (fork_step _ _ _ _ _ _ _ _ _ _ Hc Hs) as [(-> & -> & H)|H]; [|by apply kid_none in H].
  destruct H as [(c0 & cp & H0 & Hp & -> & ->)|(c' & Hq & -> & ->)].
  - eapply simulated_alone; [eapply rel_right; [exact Hp|done|done|by apply (rel_todo c0 (left_ops p0 p1) l)]|cbn [length left_ops]; lia|done].
  - eapply simulated_alone; [by eapply rel_quits|change (length fork_msg) with 5%nat; lia|]. apply (evolves_step _ _ []). constructor.
Qed.

Lemma right_done code r p0 p1 T m t j ds : same code (right_part r p0 p1) -> std (plumb (right_ops p0 p1) T) -> sane r -> rel m t j ds -> simulated m t j ds ->
  simulated (m + 20 + cost r) (Live code T [t]) (Par j (Todo r (plumb (right_ops p0 p1) T))) ds.
Proof.
  intros Hc HT Hn Hr Hsim n lb n' t' os Hs. destruct (fork_step _ _ _ _ _ _ _ _ _ _ Hc Hs) as [(-> & -> & H)|H].
  - destruct H as [(c0 & cp & H0 & Hp & -> & ->)|(c' & Hq & -> & ->)].
    + eapply simulated_alone; [eapply (rel_both _ [OClose p0; OClose p1]); [exact Hp|exact Hr|by apply (rel_todo c0 (right_ops p0 p1) r)]|cbn [length right_ops]; lia|].
      rewrite !app_nil_r. done.
    + eapply simulated_alone; [eapply (rel_quit _ 2 fork_msg); [done|by apply rels_one]|change (length fork_msg) with 5%nat; lia|].
      right; left. exists [j]. split; [constructor|]. solve_Permutation.
  - apply kid_one in H as (t1 & Ht & ->). rewrite <- (app_nil_r ds).
    apply (kid_in _ (fun j => Par j (Todo r (plumb (right_ops p0 p1) T))) (fun t => Live code T [t]) [] [] (20 + cost r) m t j ds _ _ _ t1); [by constructor| |lia|done|done].
    intros m' t' j' ds' R. cbn [app]. rewrite app_nil_r, Nat.add_assoc. by apply rel_right.
Qed.

Lemma both_done code ops T m1 t1 j1 ds1 m2 t2 j2 ds2 : same code (do_ops ops waits) -> rel m1 t1 j1 ds1 -> rel m2 t2 j2 ds2 ->
  simulated m1 t1 j1 ds1 -> simulated m2 t2 j2 ds2 -> simulated (m1 + m2 + length ops + 3) (Live code T [t1; t2]) (Par j1 j2) (ds1 ++ ds2).
Proof.
  intros Hc R1 R2 S1 S2 n l n' t' os Hs.
  assert (Hkid : kid_step n code T [t1; t2] l n' t' os -> exists m' j' ds' mo jo, rel m' t' j' ds' /\ rels mo os jo /\ (m' + mo < m1 + m2 + length ops + 3)%nat /\
    evolves n (Par j1 j2) (ds1 ++ ds2) l n' j' (ds' ++ jo)).
  { intros [(u & Hu & ->)|(u & Hu & ->)]%kid_two.
    - apply (kid_in _ (fun j => Par j j2) (fun t => Live code T [t; t2]) [] ds2 (m2 + length ops + 3) m1 t1 j1 ds1 _ _ _ u); [by constructor| |lia|done|done].
      intros m' t' j' ds' R. cbn [app]. replace (m' + (m2 + length ops + 3))%nat with (m' + m2 + length ops + 3)%nat by lia. by apply rel_both.
    - rewrite <- (app_nil_r ds2).
      apply (kid_in _ (fun j => Par j1 j) (fun t => Live code T [t1; t]) ds1 [] (m1 + length ops + 3) m2 t2 j2 ds2 _ _ _ u); [by constructor| |lia|done|done].
      intros m' t' j' ds' R. rewrite app_nil_r. replace (m' + (m1 + length ops + 3))%nat with (m1 + m' + length ops + 3)%nat by lia. by apply rel_both. }
  destruct ops as [|o ops].
  - destruct (call_step _ _ _ _ _ _ _ _ _ _ Hc Hs) as [(k & Hk & -> & -> & -> & H)|H]; [|by apply Hkid].
    destruct H as [(b & a & pid & Hp & E & ->)|[? _]]; [|done]. destruct b as [|? [|? []]]; [| |done..].
    + injection E as -> <-. inversion R1; subst. eapply simulated_alone; [eapply rel_second; [apply Hk|exact R2]|lia|done].
    + injection E as -> -> <-. inversion R2; subst. eapply simulated_alone; [eapply rel_first; [apply Hk|exact R1]|lia|by rewrite app_nil_r].
  - cbn [do_ops length] in *. destruct (call_step _ _ _ _ _ _ _ _ _ _ Hc Hs) as [(k & Hk & H)|H]; [|by apply Hkid].
    assert (Ht : n' = n /\ l = None /\ os = [] /\ t' = Live (k (fst (op_effect o T))) (snd (op_effect o T)) [t1; t2]) by (by destruct o).
    destruct Ht as (-> & -> & -> & ->). eapply simulated_alone; [eapply (rel_both _ ops); [apply Hk|exact R1|exact R2]|lia|done].
Qed.

(** The second [wait]: [C] is what is left of the job. *)
Lemma last_done code T m t j ds (C : job -> job) :
  (forall n l n' j j' d, jstep n j l n' j' d -> jstep n (C j) l n' (C j') d) -> (forall n, jstep n (C Done) None n Done []) ->
  (forall m t j ds, rel m t j ds -> rel (m + 2) (Live code T [t]) (C j) ds) ->
  same code (_ <- call Wait ;; exit) -> rel m t j ds -> simulated m t j ds -> simulated (m + 2) (Live code T [t]) (C j) ds.
Proof.
  intros HC HD HR Hc R S n l n' t' os Hs. destruct (call_step _ _ _ _ _ _ _ _ _ _ Hc Hs) as [(k & Hk & -> & -> & -> & H)|H].
  - destruct H as [(b & a & pid & Hp & E & ->)|[? _]]; [|done]. destruct b as [|? []]; [|done..]. injection E as -> <-. inversion R; subst.
    eapply simulated_alone; [apply (rel_quits _ 2 []); rewrite quit_nil; apply Hk|cbn; lia|]. apply (evolves_step _ _ []). apply HD.
  - apply kid_one in H as (t1 & Ht & ->). rewrite <- (app_nil_r ds).
    apply (kid_in _ C (fun t => Live code T [t]) [] [] 2 m t j ds _ _ _ t1); [done| |lia|done|done].
    intros m' t' j' ds' R'. cbn [app]. rewrite app_nil_r. by apply HR.
Qed.

Lemma rel_simulated m : forall t j ds, rel m t j ds -> simulated m t j ds.
Proof.
  induction m as [m IH] using lt_wf_ind. intros t j ds R. destruct R.
  - by apply todo_done.
  - by apply redir_done.
  - intros n l n' t' os Hs. inversion Hs; subst; [|by destruct before]. eapply simulated_alone; [apply rel_zombie|lia|]. apply (evolves_step _ _ []). constructor.
  - intros n l n' t' os Hs. inversion Hs.
  - apply rel_quit_done with fd; [done|done|]. intros m1 t j ds Hm Hr. apply IH; [lia|done].
  - apply seq_done; [done..|]. apply IH; [lia|done].
  - by apply left_done.
  - apply right_done; [done..|]. apply IH; [lia|done].
  - apply both_done; [done..| |]; (apply IH; [lia|done]).
  - apply (last_done code T m t j ds (fun j => Par j Done)); [by constructor|constructor|by intros; apply rel_first|done|done|]. apply IH; [lia|done].
  - apply (last_done code T m t j ds (fun j => Par Done j)); [by constructor|constructor|by intros; apply rel_second|done|done|]. apply IH; [lia|done].
Qed.

(** ** Executions *)

Lemma procs_jobs n ts tr n' ts' : procs n ts tr n' ts' -> forall m js, rels m ts js ->
  exists m' js', rels m' ts' js' /\ (m' + length tr <= m)%nat /\ jobs n js (seen tr) n' js'.
Proof.
  induction 1 as [n ts|n before t after l n1 t' os tr n2 ts Hs Hp IH]; intros m js R.
  - exists m, js. split; [done|]. split; [cbn; lia|]. by constructor.
  - destruct (rels_split _ _ _ _ _ R) as (m0 & m1 & m2 & j0 & j & ds & j2 & R0 & R1 & R2 & -> & ->).
    destruct (rel_simulated _ _ _ _ R1 _ _ _ _ _ Hs) as (m' & j' & ds' & mo & jo & R' & Ro & Hm & He).
    destruct (IH (m0 + (m' + (m2 + mo)))%nat (j0 ++ j' :: ds' ++ j2 ++ jo)) as (m3 & js3 & R3 & Hm3 & Hj).
    { apply rels_app; [done|]. constructor; [done|]. by apply rels_app. }
    exists m3, js3. split; [done|]. split; [cbn [length]; lia|].
    change (seen (l :: tr)) with (option_list l ++ seen tr).
    assert (E1 : j0 ++ j :: ds ++ j2 ≡ₚ j :: ds ++ (j0 ++ j2)) by solve_Permutation.
    assert (E2 : j0 ++ j' :: ds' ++ j2 ++ jo ≡ₚ j' :: (ds' ++ jo) ++ (j0 ++ j2)) by solve_Permutation.
    destruct (evolves_pool _ _ _ _ _ _ _ (j0 ++ j2) He) as [(-> & -> & E)|Hpool].
    + eapply jobs_perm; [|exact Hj]. by rewrite E1, E2, E.
    + eapply jobs_step; [|exact Hj]. eapply pool_perm; [| |exact Hpool]; done.
Qed.

Lemma rels_zombies m ts js : rels m ts js -> Forall (eq Zombie) ts -> Forall (eq Done) js.
Proof.
  induction 1 as [|m1 t j ds m2 ts js R Rs IH]; intros H; [done|]. apply Forall_cons in H as [<- H]. inversion R; subst. constructor; [done|]. by apply IH.
Qed.

(** ** Progress *)

Definition can_step (t : tree) : Prop := forall n, exists l n' t' os, step n t l n' t' os.

Lemma exit_can code T kids : same code exit -> can_step (Live code T kids).
Proof. intros (k & E)%exit_vis n. repeat eexists. by eapply step_exit. Qed.

(** Every call but [wait] can be answered. *)
Lemma call_can {A} (e : callE A) (kk : A -> prog Empty_set) code T kids :
  same code (x <- call e ;; kk x) ->
  match e with Fork | Pipe | Write _ _ | Close _ | Dup _ | Open _ _ | Exec _ _ => True | _ => False end -> can_step (Live code T kids).
Proof.
  intros (k & E & _)%call_vis He n. destruct e; try done; repeat eexists;
    [by eapply step_fork_fail|by eapply step_pipe_fail|by eapply (step_write _ _ _ _ _ _ _ 0)|by eapply step_close|by eapply step_exec|by eapply step_open_fail|by eapply step_dup].
Qed.
Lemma wait_can (kk : Z -> prog Empty_set) code T b t a :
  same code (x <- call Wait ;; kk x) -> t = Zombie \/ can_step t -> can_step (Live code T (b ++ t :: a)).
Proof.
  intros (k & E & _)%call_vis [->|Ht] n.
  - repeat eexists. by eapply (step_wait _ _ _ _ _ _ 1).
  - destruct (Ht n) as (l & n' & t' & os & Hs). repeat eexists. by apply step_kid.
Qed.

Lemma rel_progress m : forall t j ds, rel m t j ds -> t = Zombie \/ can_step t.
Proof.
  induction m as [m IH] using lt_wf_ind. intros t j ds R. destruct R as
    [code ops c T Hc HT Hn|code c file mode fd T Hc HT Hfd Hn|argv T| |code fd s T m kids js Hc Hk|code r T m t j ds Hc HT Hn R
    |code l r p0 p1 T Hc H1 H2 Hl Hr|code r p0 p1 T m t j ds Hc HT Hn R|code ops T m1 t1 j1 ds1 m2 t2 j2 ds2 Hc R1 R2|code T m t j ds Hc R|code T m t j ds Hc R]; [right|right|right|by left|right..].
  - destruct ops as [|o ops]; [|eapply call_can; [exact Hc|by destruct o]].
    destruct c as [[|a argv]|c file mode fd|l r|l r|c]; [by eapply exit_can| | | | |]; cbn [do_ops runcmd] in Hc; rewrite ?fork1_call in Hc; (eapply call_can; [exact Hc|done]).
  - unfold opening in Hc. eapply call_can; [exact Hc|done].
  - intros n. repeat eexists. apply step_finish.
  - destruct s as [|c s]; [rewrite quit_nil in Hc; by eapply exit_can|rewrite quit_cons in Hc; eapply call_can; [exact Hc|done]].
  - eapply (wait_can _ _ _ []); [exact Hc|]. eapply IH; [|exact R]. lia.
  - unfold left_part in Hc. rewrite fork1_call in Hc. eapply call_can; [exact Hc|done].
  - unfold right_part in Hc. rewrite fork1_call in Hc. eapply call_can; [exact Hc|done].
  - destruct ops as [|o ops]; [|eapply call_can; [exact Hc|by destruct o]]. eapply (wait_can _ _ _ []); [exact Hc|]. eapply IH; [|exact R1]. lia.
  - eapply (wait_can _ _ _ []); [exact Hc|]. eapply IH; [|exact R]. lia.
  - eapply (wait_can _ _ _ []); [exact Hc|]. eapply IH; [|exact R]. lia.
Qed.

Lemma rels_progress m ts js : rels m ts js -> Forall (eq Zombie) ts \/ exists before t after, ts = before ++ t :: after /\ can_step t.
Proof.
  induction 1 as [|m1 t j ds m2 ts js R Rs [IH|(b & u & a & -> & Hu)]]; [by left| |right; by exists (t :: b), u, a].
  destruct (rel_progress _ _ _ _ R) as [->|Ht]; [left; by constructor|right; by exists [], t, ts].
Qed.

(** ** Typed commands *)

Lemma typable_sane c : typable c -> sane c.
Proof.
  induction c as [argv|c IH f m fd|a IHa b IHb|a IHa b IHb|c IH]; cbn; [done| |naive_solver|naive_solver|done].
  intros (Hc & _ & Hm). split; [|by apply IH]. destruct Hm as [[= _ ->]|[= _ ->]]; [by left|by right].
Qed.

Lemma run_line_typed c r : typable c -> skip_space r = [] -> 0 ∉ r -> run_line (print c ++ r) = runcmd c.
Proof.
  intros Hc Hr H0. destruct (line_parses c r Hc Hr H0) as (p & E & Ep). unfold run_line. rewrite E. cbn [skip_space].
  rewrite bool_decide_eq_true_2 by done. by rewrite Ep.
Qed.

(** C29. The shell does what is typed.  Let a process of the shell, with its first two
    descriptors open, run the line that prints a command, as in [main].  In every
    interleaving of the processes it leads to, with calls that need resources failing or
    not: the number of steps is bounded, so the line is run to an end; some process can go
    on until all have exited; and what is seen is what the command means ([ShellSpec]): the
    programs are started with exactly the descriptors they should have, pipes between the
    right pairs and no other ends of them open, redirections in place, the second command
    of a list only after the first is done.  When no call has failed and all
    processes have exited, each program of the command was started and finished, once. *)
Theorem shell_correct c r T n tr n' ts :
  typable c -> skip_space r = [] -> 0 ∉ r -> std T ->
  procs n [Live (run_line (print c ++ r)) T []] tr n' ts ->
  (length tr <= cost c)%nat /\
  (Forall (eq Zombie) ts \/ exists l n2 ts2, procs n' ts [l] n2 ts2) /\
  (exists js, jobs n [Todo c T] (seen tr) n' js /\ (Forall (eq Zombie) ts -> Forall (eq Done) js)) /\
  (Forall (eq Zombie) ts -> Fail ∉ seen tr -> started (seen tr) ≡ₚ programs c /\ finished (seen tr) ≡ₚ programs c).
Proof.
  intros Hc Hr H0 HT Hp. rewrite run_line_typed in Hp by done. pose proof (typable_sane c Hc) as Hs.
  pose proof (rels_one _ _ _ _ (rel_todo_now (runcmd c) c T ltac:(reflexivity) HT Hs)) as R.
  destruct (procs_jobs _ _ _ _ _ Hp _ _ R) as (m & js & R' & Hm & Hj). split; [lia|]. split; [|split].
  - destruct (rels_progress _ _ _ R') as [H|(b & t & a & -> & Ht)]; [by left|right]. destruct (Ht n') as (l & n2 & t' & os & Hstep).
    exists l, n2, (b ++ t' :: a ++ os). eapply procs_step; [exact Hstep|constructor].
  - exists js. split; [done|]. by apply (rels_zombies m).
  - intros Hz Hf. pose proof (rels_zombies _ _ _ R' Hz) as Hd. destruct (jobs_counts _ _ _ _ _ Hj Hf) as [E1 E2].
    assert (Ed : forall f : job -> list (list (list Z)), f Done = [] -> js ≫= f = []).
    { intros f Ef. clear -Hd Ef. induction Hd as [|j js <- _ IH]; [done|]. rewrite bind_cons, Ef, IH. done. }
    rewrite (Ed pending eq_refl) in E1. rewrite (Ed running eq_refl) in E2. cbn in E1, E2. rewrite !app_nil_r in E1, E2. split; [by rewrite E1|]. by rewrite <- E2, E1.
Qed.

Module Example.
(** [ls | wc], typed with a newline, from a shell with three descriptors. *)
Definition pipeline : cmd (list Z) := PIPE (EXEC [codes "ls"]) (EXEC [codes "wc"]).
Definition console : table := [Some (Given 0); Some (Given 0); Some (Given 0)] ++ replicate 13 None.

Lemma pipeline_typable : typable pipeline.
Proof. cbn. unfold is_word. split_and!; try (cbn; lia); auto; repeat constructor; done. Qed.

Ltac at_root tac := eapply (procs_step _ [] _ []); [tac; cbn; reflexivity|cbn [app snd fst]].
Ltac at_first tac := eapply (procs_step _ [] _ []); [eapply (step_kid _ _ _ [] _ [_]); tac; cbn; reflexivity|cbn [app snd fst]].
Ltac at_second tac := eapply (procs_step _ [] _ []); [eapply (step_kid _ _ _ [_] _ []); tac; cbn; reflexivity|cbn [app snd fst]].

Lemma pipeline_runs : exists tr, procs 0 [Live (runcmd pipeline) console []] tr 1 [Zombie] /\ Fail ∉ seen tr /\
  seen tr = [Start (codes "ls") [codes "ls"] (<[1%nat := Some (PipeW 0)]> console); Start (codes "wc") [codes "wc"] (<[0%nat := Some (PipeR 0)]> console);
             Finish [codes "ls"] (<[1%nat := Some (PipeW 0)]> console); Finish [codes "wc"] (<[0%nat := Some (PipeR 0)]> console)].
Proof.
  eexists. split.
  { at_root ltac:(eapply step_pipe). at_root ltac:(eapply (step_fork _ _ _ _ _ 1)). at_root ltac:(eapply (step_fork _ _ _ _ _ 2)).
    at_first ltac:(eapply step_close). at_first ltac:(eapply step_dup). at_first ltac:(eapply step_close). at_first ltac:(eapply step_close). at_first ltac:(eapply step_exec).
    at_second ltac:(eapply step_close). at_second ltac:(eapply step_dup). at_second ltac:(eapply step_close). at_second ltac:(eapply step_close). at_second ltac:(eapply step_exec).
    at_root ltac:(eapply step_close). at_root ltac:(eapply step_close).
    eapply (procs_step _ [] _ []); [eapply (step_kid _ _ _ [] _ [_]); apply step_finish|cbn [app]].
    at_root ltac:(eapply (step_wait _ _ _ _ [] [_] 1)).
    eapply (procs_step _ [] _ []); [eapply (step_kid _ _ _ [] _ []); apply step_finish|cbn [app]].
    at_root ltac:(eapply (step_wait _ _ _ _ [] [] 2)). at_root ltac:(eapply step_exit). apply procs_done. }
  split; [|reflexivity]. apply (bool_decide_unpack _). vm_compute. exact Logic.I.
Qed.

Lemma shell_correct_witness : exists tr js, procs 0 [Live (run_line (print pipeline ++ [10])) console []] tr 1 [Zombie] /\
  jobs 0 [Todo pipeline console] (seen tr) 1 js /\ Forall (eq Done) js /\ started (seen tr) ≡ₚ [[codes "ls"]; [codes "wc"]] /\
  finished (seen tr) ≡ₚ [[codes "ls"]; [codes "wc"]].
Proof.
  destruct pipeline_runs as (tr & Hp & Hf & _). assert (Hn : 0 ∉ [10]) by (apply (bool_decide_unpack _); vm_compute; exact Logic.I).
  rewrite <- (run_line_typed pipeline [10] pipeline_typable eq_refl Hn) in Hp.
  destruct (shell_correct pipeline [10] console 0 tr 1 [Zombie] pipeline_typable eq_refl Hn) as (_ & _ & (js & Hj & Hd) & Hall).
  - by exists (Given 0), (Given 0).
  - exact Hp.
  - assert (Hz : Forall (eq Zombie) [Zombie]) by (by repeat constructor). destruct (Hall Hz Hf) as [H1 H2].
    exists tr, js. split; [exact Hp|]. split; [exact Hj|]. split; [exact (Hd Hz)|]. split; [exact H1|exact H2].
Defined.
End Example.
