(* ===== verification/Mp.v ===== *)
(** * mp.c: finding the processors

    The firmware describes the machine in tables in memory: a floating pointer structure,
    which [mpsearch] looks for in three places, and the configuration table it points to,
    from which [mpinit] takes the processors, the I/O APIC and the address of the local
    APICs.  Memory is read at kernel virtual addresses. *)

From S2P Require Import Prelude Mmu Mem Cstring Kalloc.

(** The ports of a device other than the disk: the instructions inb and outb. *)
Class Ports (C : Type) := {
  port_in : Z -> C -> Z * C;
  port_out : Z -> Z -> C -> C
}.

(** ** mp.h *)

Definition MP_SIZE : Z := 16.
Definition MPCONF_SIZE : Z := 44.
Definition MPPROC_SIZE : Z := 20.
Definition MPIOAPIC_SIZE : Z := 8.

Definition MPPROC : Z := 0.
Definition MPBUS : Z := 1.
Definition MPIOAPIC : Z := 2.
Definition MPIOINTR : Z := 3.
Definition MPLINTR : Z := 4.

Definition ld16 (m : mem) (a : Z) : Z := ldb m a + ldb m (a + 1) * 2 ^ 8.

(** The fields of struct mp and struct mpconf that the code reads. *)
Definition mp_physaddr (m : mem) (mp : Z) : Z := ld32 m (mp + 4).
Definition mp_imcrp (m : mem) (mp : Z) : Z := ldb m (mp + 12).
Definition conf_length (m : mem) (conf : Z) : Z := ld16 m (conf + 4).
Definition conf_version (m : mem) (conf : Z) : Z := ldb m (conf + 6).
Definition conf_lapicaddr (m : mem) (conf : Z) : Z := ld32 m (conf + 36).

(** ** Searching *)

Fixpoint sum_loop (m : mem) (addr : Z) (n : nat) (acc : Z) : Z :=
  match n with
  | O => acc
  | S n => sum_loop m (addr + 1) n (acc + ldb m addr)
  end.
Definition sum (m : mem) (addr len : Z) : Z := u8 (sum_loop m addr (Z.to_nat len) 0).

Definition is_mp (m : mem) (p : Z) : bool :=
  (memcmp (ptr m p) (arr (codes "_MP_")) 4 =? 0) && (sum m p MP_SIZE =? 0).

(** [n] is the number of structures that start before the end. *)
Fixpoint mpsearch1_loop (m : mem) (p : Z) (n : nat) : option Z :=
  match n with
  | O => None
  | S n => if is_mp m p then Some p else mpsearch1_loop m (p + MP_SIZE) n
  end.
Definition mpsearch1 (m : mem) (a len : Z) : option Z :=
  mpsearch1_loop m (P2V a) (Z.to_nat ((len + MP_SIZE - 1) / MP_SIZE)).

Definition mpsearch (m : mem) : option Z :=
  let bda := P2V 1024 in     (* 0x400 *)
  let p := Z.shiftl (Z.lor (Z.shiftl (ldb m (bda + 15)) 8) (ldb m (bda + 14))) 4 in
  let mp :=
    if negb (p =? 0) then mpsearch1 m p 1024
    else mpsearch1 m (u32 (Z.lor (Z.shiftl (ldb m (bda + 20)) 8) (ldb m (bda + 19)) * 1024 - 1024)) 1024 in
  match mp with
  | Some mp => Some mp
  | None => mpsearch1 m 983040 65536    (* 0xF0000, 0x10000 *)
  end.

(** The structure and the table. *)
Definition mpconfig (m : mem) : option (Z * Z) :=
  match mpsearch m with
  | None => None
  | Some mp =>
    if mp_physaddr m mp =? 0 then None else
    let conf := P2V (mp_physaddr m mp) in
    if negb (memcmp (ptr m conf) (arr (codes "PCMP")) 4 =? 0) then None else
    if negb (conf_version m conf =? 1) && negb (conf_version m conf =? 4) then None else
    if negb (sum m conf (conf_length m conf) =? 0) then None else
    Some (mp, conf)
  end.

(** ** mpinit *)

(** The machine, the identifiers of the processors found ([cpus[i].apicid] for [i < ncpu]), the
    variables [ioapicid] and [lapic], and the ports. *)
Record mpstate (C : Type) := Mpstate {
  mp_machine : machine; cpu_ids : list Z; ioapicid : Z; lapic : Z; mp_ports : C
}.
Arguments Mpstate {C}.
Arguments mp_machine {C}.
Arguments cpu_ids {C}.
Arguments ioapicid {C}.
Arguments lapic {C}.
Arguments mp_ports {C}.

Section Mp.
Context {C : Type} `{Ports C}.

Definition mp_mem (s : mpstate C) : mem := m_mem (mp_machine s).
Definition set_mp_machine v (s : mpstate C) := Mpstate v (cpu_ids s) (ioapicid s) (lapic s) (mp_ports s).
Definition set_mp_mem v (s : mpstate C) := set_mp_machine (set_m_mem v (mp_machine s)) s.
Definition set_cpu_ids v (s : mpstate C) := Mpstate (mp_machine s) v (ioapicid s) (lapic s) (mp_ports s).
Definition set_ioapicid v (s : mpstate C) := Mpstate (mp_machine s) (cpu_ids s) v (lapic s) (mp_ports s).
Definition set_lapic v (s : mpstate C) := Mpstate (mp_machine s) (cpu_ids s) (ioapicid s) v (mp_ports s).
Definition set_mp_ports (v : C) (s : mpstate C) : mpstate C := Mpstate (mp_machine s) (cpu_ids s) (ioapicid s) (lapic s) v.

Definition out_port (port v : Z) : M (mpstate C) unit := modify (fun s => set_mp_ports (port_out port v (mp_ports s)) s).
Definition in_port (port : Z) : M (mpstate C) Z := fun s => let '(v, c) := port_in port (mp_ports s) in Ret v (set_mp_ports c s).

(** The loop over the entries, with the value of [ismp] at its end.  The break of the last
    case leaves the switch, not the loop, and the pointer stays where it is. *)
Fixpoint mpinit_loop (fuel : nat) (p e : Z) (ismp : bool) : M (mpstate C) bool :=
  if negb (p <? e) then ret ismp else
  match fuel with
  | O => ub "mpinit: does not terminate"
  | S fuel =>
    m <- gets mp_mem ;;
    let ty := ldb m p in
    if ty =? MPPROC then
      ids <- gets cpu_ids ;;
      (when bool_decide (length ids < NCPU)%nat do modify (set_cpu_ids (ids ++ [ldb m (p + 1)]))) ;;;
      mpinit_loop fuel (p + MPPROC_SIZE) e ismp
    else if ty =? MPIOAPIC then
      modify (set_ioapicid (ldb m (p + 1))) ;;;
      mpinit_loop fuel (p + MPIOAPIC_SIZE) e ismp
    else if (ty =? MPBUS) || (ty =? MPIOINTR) || (ty =? MPLINTR) then
      mpinit_loop fuel (p + 8) e ismp
    else mpinit_loop fuel p e false
  end.

Definition mpinit_with (fuel : nat) : M (mpstate C) unit :=
  m <- gets mp_mem ;;
  match mpconfig m with
  | None => panic "Expect to run on an SMP"
  | Some (mp, conf) =>
    modify (set_lapic (conf_lapicaddr m conf)) ;;;
    ismp <- mpinit_loop fuel (conf + MPCONF_SIZE) (conf + conf_length m conf) true ;;
    if negb ismp then panic "Didn't find a suitable machine" else
    when negb (mp_imcrp m mp =? 0) do
      (out_port 34 112 ;;;               (* 0x22, 0x70 *)
       v <- in_port 35 ;;                (* 0x23 *)
       out_port 35 (Z.lor v 1))
  end.

(** An entry the loop steps over has at least eight bytes, and the length of the table has
    sixteen bits. *)
Definition mpinit : M (mpstate C) unit := mpinit_with (Z.to_nat 8192).
End Mp.
