(* ===== verification/MpProps.v ===== *)
(** * The processors found are those of the table

    The search of mp.c against the list of places it may look at, and the loop over the
    configuration table against the entries the table encodes. *)

From S2P Require Import Prelude Mmu Mem Cstring Kalloc Mp.

(** ** What the firmware provides *)

(** Memory holds the bytes [l] at [a]. *)
Definition holds (m : mem) (a : Z) (l : list Z) : Prop := read_bytes m a (length l) = l.

Definition total (l : list Z) : Z := foldr Z.add 0 l.

(** A floating pointer structure: the signature, and bytes that add up to 0. *)
Definition valid_mp (m : mem) (p : Z) : Prop := holds m p (codes "_MP_") /\ total (read_bytes m p 16) mod 256 = 0.

Definition paragraphs (a : Z) (n : nat) : list Z := (fun i => a + 16 * Z.of_nat i) <$> seq 0 n.

(** The first KB of the extended BIOS data area, or the last KB of base memory when the
    BIOS says there is none. *)
Definition low_area (m : mem) : Z :=
  let ebda := (ldb m (P2V 1039) * 256 + ldb m (P2V 1038)) * 16 in
  if ebda =? 0 then u32 ((ldb m (P2V 1044) * 256 + ldb m (P2V 1043)) * 1024 - 1024) else ebda.
Definition candidates (m : mem) : list Z := paragraphs (P2V (low_area m)) 64 ++ paragraphs (P2V 983040) 4096.

(** [p] is the first element of [l] with the property. *)
Definition first_of (P : Z -> Prop) (l : list Z) (p : Z) : Prop :=
  exists i, l !! i = Some p /\ P p /\ forall j q, (j < i)%nat -> l !! j = Some q -> ~ P q.

Inductive entry :=
| Processor (apicid : Z) (rest : list Z)
| IoApic (apicno : Z) (rest : list Z)
| Other (ty : Z) (rest : list Z).

Definition encode (e : entry) : list Z :=
  match e with
  | Processor id r => 0 :: id :: r
  | IoApic id r => 2 :: id :: r
  | Other ty r => ty :: r
  end.
Definition entry_ok (e : entry) : Prop :=
  match e with
  | Processor _ r => length r = 18%nat
  | IoApic _ r => length r = 6%nat
  | Other ty r => (ty = 1 \/ ty = 3 \/ ty = 4) /\ length r = 7%nat
  end.
Definition body (es : list entry) : list Z := concat (encode <$> es).

Definition processors (es : list entry) : list Z := omap (fun e => match e with Processor id _ => Some id | _ => None end) es.
Definition ioapics (es : list entry) : list Z := omap (fun e => match e with IoApic id _ => Some id | _ => None end) es.

(** The configuration table at [conf]: its header, and the bytes [b] of its entries. *)
Record conf_table (m : mem) (conf : Z) (b : list Z) : Prop := {
  ct_signature : holds m conf (codes "PCMP");
  ct_version : conf_version m conf = 1 \/ conf_version m conf = 4;
  ct_length : conf_length m conf = 44 + Z.of_nat (length b);
  ct_checksum : total (read_bytes m conf (Z.to_nat (conf_length m conf))) mod 256 = 0;
  ct_body : holds m (conf + 44) b
}.

(** ** Bytes *)

Lemma holds_app m a l1 l2 : holds m a (l1 ++ l2) <-> holds m a l1 /\ holds m (a + Z.of_nat (length l1)) l2.
Proof.
  unfold holds. rewrite length_app, read_bytes_app. split; [|by intros [-> ->]].
  intros E. apply app_inj_1 in E; [done|apply length_read_bytes].
Qed.

Lemma holds_cons m a x l : holds m a (x :: l) <-> ldb m a = x /\ holds m (a + 1) l.
Proof. unfold holds. cbn [length]. rewrite read_bytes_S. split; [by intros [= -> ?]|by intros [-> ->]]. Qed.

Lemma memcmp_holds m p l : memcmp (ptr m p) (arr l) (Z.of_nat (length l)) = 0 <-> holds m p l.
Proof.
  unfold memcmp. rewrite Nat2Z.id, memcmp_loop_zero. unfold holds, ptr, arr. split.
  - intros E. apply list_eq_same_length with (n := length l); [done|apply length_read_bytes|]. intros i x y Hi Hx Hy.
    rewrite lookup_read_bytes in Hx by done. injection Hx as <-. rewrite (E (Z.of_nat i)) by lia. by rewrite Nat2Z.id, Hy.
  - intros E j Hj. pose proof (lookup_read_bytes m p (length l) (Z.to_nat j) ltac:(lia)) as Hl. rewrite E, Z2Nat.id in Hl by lia. by rewrite Hl.
Qed.

Lemma sum_loop_eq m n : forall a acc, sum_loop m a n acc = acc + total (read_bytes m a n).
Proof. induction n as [|n IH]; intros a acc; cbn [sum_loop]; [cbn; lia|]. rewrite IH, read_bytes_S. unfold total. cbn [foldr]. lia. Qed.

Lemma sum_eq m a n : sum m a n = total (read_bytes m a (Z.to_nat n)) mod 256.
Proof. unfold sum. by rewrite sum_loop_eq. Qed.

(** ** The search *)

Lemma is_mp_spec m p : is_mp m p = true <-> valid_mp m p.
Proof.
  unfold is_mp, valid_mp. rewrite andb_true_iff, !Z.eqb_eq, sum_eq. change 4 with (Z.of_nat (length (codes "_MP_"))). by rewrite memcmp_holds.
Qed.

Lemma paragraphs_S a n : paragraphs a (S n) = a :: paragraphs (a + 16) n.
Proof.
  unfold paragraphs. cbn [seq fmap list_fmap]. f_equal; [lia|]. rewrite <- (fmap_S_seq 0 n), <- list_fmap_compose.
  apply list_fmap_ext. intros i x _. unfold compose. lia.
Qed.

Lemma mpsearch1_loop_find m n : forall p, mpsearch1_loop m p n = List.find (is_mp m) (paragraphs p n).
Proof. induction n as [|n IH]; intros p; [done|]. rewrite paragraphs_S. cbn [mpsearch1_loop List.find]. by rewrite IH. Qed.

Lemma find_app {A} (f : A -> bool) l1 l2 : List.find f (l1 ++ l2) = match List.find f l1 with Some x => Some x | None => List.find f l2 end.
Proof. induction l1 as [|x l1 IH]; [done|]. cbn. by destruct (f x). Qed.

Lemma bda_word h l : 0 <= l < 256 -> Z.lor (Z.shiftl h 8) l = h * 256 + l.
Proof. intros Hl. rewrite Z.shiftl_mul_pow2 by lia. apply lor_add with (k := 8); [lia|lia|]. apply Z.mod_mul. lia. Qed.

Lemma mpsearch_find m : mpsearch m = List.find (is_mp m) (candidates m).
Proof.
  unfold mpsearch, candidates, low_area. cbv zeta. rewrite !bda_word by apply ldb_bound. rewrite Z.shiftl_mul_pow2 by lia. change (2 ^ 4) with 16.
  change (P2V 1024 + 15) with (P2V 1039). change (P2V 1024 + 14) with (P2V 1038). change (P2V 1024 + 20) with (P2V 1044). change (P2V 1024 + 19) with (P2V 1043).
  rewrite find_app. unfold mpsearch1. rewrite !mpsearch1_loop_find. change (Z.to_nat ((1024 + MP_SIZE - 1) / MP_SIZE)) with 64%nat.
  change (Z.to_nat ((65536 + MP_SIZE - 1) / MP_SIZE)) with 4096%nat. by destruct (_ =? 0).
Qed.

Lemma find_first_mp m l p : first_of (valid_mp m) l p <-> List.find (is_mp m) l = Some p.
Proof.
  induction l as [|x l IH]; cbn [List.find].
  - split; [by intros (i & Hi & _); rewrite lookup_nil in Hi|done].
  - destruct (is_mp m x) eqn:Hx.
    + apply is_mp_spec in Hx. split.
      * intros ([|i] & Hi & Hp & Hj); [done|]. by destruct (Hj 0%nat x ltac:(lia) eq_refl).
      * intros [= <-]. exists 0%nat. split; [done|]. split; [done|]. lia.
    + assert (Hn : ~ valid_mp m x) by (rewrite <- is_mp_spec, Hx; done). rewrite <- IH. split.
      * intros ([|i] & Hi & Hp & Hj); [injection Hi as ->; done|]. exists i. split; [done|]. split; [done|].
        intros j q Hji Hq. apply (Hj (S j)); [lia|done].
      * intros (i & Hi & Hp & Hj). exists (S i). split; [done|]. split; [done|].
        intros [|j] q Hji Hq; [by injection Hq as <-|]. apply (Hj j); [lia|done].
Qed.

Lemma find_none m l : (forall p, p ∈ l -> ~ valid_mp m p) -> List.find (is_mp m) l = None.
Proof.
  induction l as [|x l IH]; intros Hl; [done|]. cbn [List.find]. destruct (is_mp m x) eqn:Hx.
  - apply is_mp_spec in Hx. by destruct (Hl x (list_elem_of_here _ _)).
  - apply IH. intros p Hp. apply Hl. by apply list_elem_of_further.
Qed.

Lemma mpconfig_some m mp b : first_of (valid_mp m) (candidates m) mp -> mp_physaddr m mp <> 0 ->
  conf_table m (P2V (mp_physaddr m mp)) b -> mpconfig m = Some (mp, P2V (mp_physaddr m mp)).
Proof.
  intros Hmp Hpa [Hsig Hver _ Hsum _]. unfold mpconfig. rewrite mpsearch_find, (proj1 (find_first_mp _ _ _) Hmp), (proj2 (Z.eqb_neq _ _) Hpa).
  cbv zeta. apply memcmp_holds in Hsig. change (Z.of_nat (length (codes "PCMP"))) with 4 in Hsig. rewrite Hsig, sum_eq, Hsum.
  by destruct Hver as [-> | ->].
Qed.

(** ** The entries *)

Section Entries.
Context {C : Type} `{Ports C}.
Implicit Types s : mpstate C.

(** What an entry does to the state. *)
Definition take_entry (e : entry) s : mpstate C :=
  match e with
  | Processor id _ => if bool_decide (length (cpu_ids s) < NCPU)%nat then set_cpu_ids (cpu_ids s ++ [id]) s else s
  | IoApic id _ => set_ioapicid id s
  | Other _ _ => s
  end.

Lemma take_entry_mem e s : mp_mem (take_entry e s) = mp_mem s.
Proof. destruct e; cbn [take_entry]; [by case_bool_decide|done..]. Qed.

Lemma encode_pos e : (0 < length (encode e))%nat.
Proof. destruct e; cbn; lia. Qed.

Lemma mpinit_loop_step fuel e p stop b s :
  entry_ok e -> holds (mp_mem s) p (encode e) -> p < stop ->
  mpinit_loop (S fuel) p stop b s = mpinit_loop fuel (p + Z.of_nat (length (encode e))) stop b (take_entry e s).
Proof.
  intros He Hm Hp. cbn [mpinit_loop]. rewrite (proj2 (Z.ltb_lt _ _) Hp). cbn [negb]. rewrite bind_gets. cbv zeta.
  destruct e as [id r|id r|ty r]; cbn [encode entry_ok length] in *.
  - apply holds_cons in Hm as [-> Hm]. apply holds_cons in Hm as [-> _]. rewrite He. change (0 =? MPPROC) with true. cbv iota. rewrite bind_gets.
    cbn [take_entry]. by case_bool_decide.
  - apply holds_cons in Hm as [-> Hm]. apply holds_cons in Hm as [-> _]. rewrite He. change (2 =? MPPROC) with false. change (2 =? MPIOAPIC) with true. cbv iota.
    by rewrite bind_modify.
  - apply holds_cons in Hm as [-> _]. destruct He as [Hty ->]. by destruct Hty as [-> |[-> | ->]].
Qed.

Lemma mpinit_loop_entries es : forall fuel p stop b s,
  Forall entry_ok es -> holds (mp_mem s) p (body es) -> p + Z.of_nat (length (body es)) <= stop ->
  mpinit_loop (length es + fuel) p stop b s = mpinit_loop fuel (p + Z.of_nat (length (body es))) stop b (foldl (flip take_entry) s es).
Proof.
  induction es as [|e es IH]; intros fuel p stop b s Hok Hm Hp; [by rewrite Z.add_0_r|].
  apply Forall_cons in Hok as [He Hok]. change (body (e :: es)) with (encode e ++ body es) in *. rewrite length_app, Nat2Z.inj_add in *.
  apply holds_app in Hm as [Hm1 Hm2]. pose proof (encode_pos e). cbn [length Nat.add foldl flip].
  rewrite (mpinit_loop_step _ e) by (done || lia). rewrite IH; [f_equal; lia|done|by rewrite take_entry_mem|lia].
Qed.

(** An entry of another type is looked at again and again. *)
Lemma mpinit_loop_stuck fuel : forall p stop b s, p < stop -> 4 < ldb (mp_mem s) p -> exists msg, mpinit_loop fuel p stop b s = UB msg.
Proof.
  induction fuel as [|fuel IH]; intros p stop b s Hp Hty; cbn [mpinit_loop]; rewrite (proj2 (Z.ltb_lt _ _) Hp); cbn [negb]; [by eexists|].
  rewrite bind_gets. cbv zeta. unfold MPPROC, MPIOAPIC, MPBUS, MPIOINTR, MPLINTR. rewrite !(proj2 (Z.eqb_neq _ _)) by lia. cbn [orb]. by apply IH.
Qed.

Lemma mpinit_loop_short es : forall fuel p stop b s,
  Forall entry_ok es -> holds (mp_mem s) p (body es) -> p + Z.of_nat (length (body es)) <= stop -> (fuel < length es)%nat ->
  exists msg, mpinit_loop fuel p stop b s = UB msg.
Proof.
  induction es as [|e es IH]; intros fuel p stop b s Hok Hm Hp Hf; [cbn in Hf; lia|].
  apply Forall_cons in Hok as [He Hok]. change (body (e :: es)) with (encode e ++ body es) in *. rewrite length_app, Nat2Z.inj_add in *.
  apply holds_app in Hm as [Hm1 Hm2]. pose proof (encode_pos e). destruct fuel as [|fuel].
  - cbn [mpinit_loop]. rewrite (proj2 (Z.ltb_lt _ _)) by lia. by eexists.
  - rewrite (mpinit_loop_step _ e) by (done || lia). apply IH; [done|by rewrite take_entry_mem|lia|cbn in Hf; lia].
Qed.

Lemma foldl_cpu_ids es : forall s, (length (cpu_ids s) <= NCPU)%nat ->
  cpu_ids (foldl (flip take_entry) s es) = take NCPU (cpu_ids s ++ processors es).
Proof.
  induction es as [|e es IH]; intros s Hs; cbn [foldl flip].
  - cbn. by rewrite app_nil_r, take_ge.
  - destruct e as [id r|id r|ty r]; cbn [take_entry]; [|by rewrite IH..].
    change (processors (Processor id r :: es)) with ([id] ++ processors es). rewrite app_assoc. case_bool_decide as Hlt.
    + rewrite IH; [done|]. cbn [cpu_ids set_cpu_ids]. rewrite length_app. cbn. lia.
    + rewrite IH by done. by rewrite !(take_app_le (cpu_ids s ++ _)), !take_app_le by (try rewrite length_app; lia).
Qed.

Lemma foldl_ioapicid es : forall s, ioapicid (foldl (flip take_entry) s es) = default (ioapicid s) (last (ioapics es)).
Proof.
  induction es as [|e es IH]; intros s; cbn [foldl flip]; [done|]. rewrite IH. destruct e as [id r|id r|ty r]; cbn [take_entry].
  - by case_bool_decide.
  - change (ioapics (IoApic id r :: es)) with (id :: ioapics es). rewrite last_cons. by destruct (last (ioapics es)).
  - done.
Qed.

Lemma foldl_frame es : forall s, let s' := foldl (flip take_entry) s es in mp_machine s' = mp_machine s /\ lapic s' = lapic s /\ mp_ports s' = mp_ports s.
Proof.
  induction es as [|e es IH]; intros s; cbn [foldl flip]; [done|]. destruct (IH (take_entry e s)) as (-> & -> & ->).
  destruct e; cbn [take_entry]; [by case_bool_decide|done..].
Qed.

Lemma body_length es : Forall entry_ok es -> (8 * length es <= length (body es))%nat.
Proof.
  induction 1 as [|e es He _ IH]; [done|]. change (body (e :: es)) with (encode e ++ body es). rewrite length_app. cbn [length].
  destruct e; cbn [encode entry_ok length] in *; lia.
Qed.

(** The write to the interrupt mode register. *)
Definition imcr (c : C) : C := let '(v, c') := port_in 35 (port_out 34 112 c) in port_out 35 (Z.lor v 1) c'.

(** C35.  [mpinit] finds the machine the firmware describes.  It panics when none of the
    places the code searches holds a valid floating pointer structure: the first kilobyte of
    the extended BIOS data area, or without one the last kilobyte of base memory, and the
    ROM from 0xF0000 to 0xFFFFF (the comment in mp.c begins the ROM at 0xE0000; the code
    does not search below 0xF0000).  Otherwise it follows the first
    one, and from a well-formed table takes the identifiers of the first eight processors,
    that of the last I/O APIC and the address of the local APICs, and masks external
    interrupts when the structure asks for it.  A table with an entry of a type it does
    not know is never left, however long the loop runs: the panic meant for it is not
    reached. *)
Theorem mpinit_correct s :
  let m := mp_mem s in
  ((forall p, p ∈ candidates m -> ~ valid_mp m p) -> mpinit s = Panic "Expect to run on an SMP") /\
  forall mp es, first_of (valid_mp m) (candidates m) mp -> mp_physaddr m mp <> 0 -> Forall entry_ok es -> cpu_ids s = [] ->
    (conf_table m (P2V (mp_physaddr m mp)) (body es) ->
     mpinit s = Ret tt (Mpstate (mp_machine s) (take NCPU (processors es)) (default (ioapicid s) (last (ioapics es)))
       (conf_lapicaddr m (P2V (mp_physaddr m mp))) (if mp_imcrp m mp =? 0 then mp_ports s else imcr (mp_ports s)))) /\
    (forall ty rest fuel, 4 < ty -> conf_table m (P2V (mp_physaddr m mp)) (body es ++ ty :: rest) -> exists msg, mpinit_with fuel s = UB msg).
Proof.
  intros m. split.
  { intros Hno. unfold mpinit, mpinit_with. rewrite bind_gets. fold m. unfold mpconfig. by rewrite mpsearch_find, find_none. }
  intros mp es Hmp Hpa Hok Hids. set (conf := P2V (mp_physaddr m mp)). set (s1 := set_lapic (conf_lapicaddr m conf) s). split.
  - intros Ht. unfold mpinit, mpinit_with. rewrite bind_gets. fold m. rewrite (mpconfig_some m mp _ Hmp Hpa Ht). fold conf. rewrite bind_modify. fold s1.
    destruct Ht as [_ _ Hlen _ Hbody]. pose proof (body_length es Hok) as Hbl.
    assert (Hmax : conf_length m conf < 65536) by (unfold conf_length, ld16; pose proof (ldb_bound m (conf + 4)); pose proof (ldb_bound m (conf + 4 + 1)); lia).
    set (sf := foldl (flip take_entry) s1 es).
    assert (El : mpinit_loop (Z.to_nat 8192) (conf + MPCONF_SIZE) (conf + conf_length m conf) true s1 = Ret true sf).
    { replace (Z.to_nat 8192) with (length es + (Z.to_nat 8192 - length es))%nat by lia.
      rewrite mpinit_loop_entries by (done || rewrite Hlen; unfold MPCONF_SIZE; lia). fold sf. unfold MPCONF_SIZE. rewrite Hlen.
      destruct (Z.to_nat 8192 - length es)%nat; cbn [mpinit_loop]; by rewrite (proj2 (Z.ltb_ge _ _)) by lia. }
    step El. cbn [negb]. destruct (foldl_frame es s1) as (Em & Ela & Ep). fold sf in Em, Ela, Ep.
    pose proof (foldl_cpu_ids es s1) as Ec. pose proof (foldl_ioapicid es s1) as Ei. fold sf in Ec, Ei. cbn [cpu_ids set_lapic ioapicid s1] in Ec, Ei.
    rewrite Hids in Ec. specialize (Ec ltac:(cbn; lia)). cbn [app] in Ec. destruct sf as [mm ci ii li pi]. cbn in Em, Ela, Ep, Ec, Ei. subst.
    destruct (mp_imcrp m mp =? 0); [done|]. cbn [negb]. unfold bind, imcr, in_port, out_port, modify. cbn [mp_ports set_mp_ports].
    by destruct (port_in 35 _) as [v c].
  - intros ty rest fuel Hty Ht. unfold mpinit_with. rewrite bind_gets. fold m. rewrite (mpconfig_some m mp _ Hmp Hpa Ht). fold conf. rewrite bind_modify. fold s1.
    destruct Ht as [_ _ Hlen _ Hbody]. rewrite length_app in Hlen. cbn [length] in Hlen. apply holds_app in Hbody as [Hb1 Hb2]. apply holds_cons in Hb2 as [Hb2 _].
    enough (exists msg, mpinit_loop fuel (conf + MPCONF_SIZE) (conf + conf_length m conf) true s1 = UB msg) as [msg E] by (exists msg; by rewrite (bind_ub _ _ _ _ E)).
    unfold MPCONF_SIZE. destruct (decide (fuel < length es)%nat) as [Hf|Hf]; [apply (mpinit_loop_short es); done || lia|].
    replace fuel with (length es + (fuel - length es))%nat by lia. rewrite mpinit_loop_entries by (done || lia). apply mpinit_loop_stuck; [lia|].
    destruct (foldl_frame es s1) as (Em & _). unfold mp_mem. rewrite Em. change (4 < ldb m (conf + 44 + Z.of_nat (length (body es)))). by rewrite Hb2.
Qed.
End Entries.

(** ** A machine with two processors *)

Module Example.

(** A device that answers 0 and remembers what was written. *)
#[export] Instance log_ports : Ports (list (Z * Z)) := {| port_in _ c := (0, c); port_out port v c := c ++ [(port, v)] |}.

Definition entries : list entry :=
  [Processor 0 (replicate 18 0); Processor 4 (replicate 18 0); Other 1 (replicate 7 0); IoApic 2 (replicate 6 0); Other 3 (replicate 7 0)].

(** The bytes of a structure with the one at [k] set so that they add up to 0. *)
Definition with_checksum (k : nat) (l : list Z) : list Z := <[k := (- total l) mod 256]> l.

Definition pointer : list Z := with_checksum 10 (codes "_MP_" ++ [0; 253; 9; 0; 1; 4; 0; 0; 128; 0; 0; 0]).
Definition table (b : list Z) : list Z :=
  with_checksum 7 (codes "PCMP" ++ [44 + Z.of_nat (length b); 0; 4; 0] ++ replicate 28 0 ++ [0; 0; 224; 254] ++ replicate 4 0 ++ b).

(** The extended BIOS data area is at 0x9FC00, the structure 32 bytes into it, the table at
    0x9FD00. *)
Definition firmware (b : list Z) : mem := write_bytes (write_bytes (write_bytes ∅ (P2V 1038) [192; 159]) (P2V 654368) pointer) (P2V 654592) (table b).
Definition boot_machine (m : mem) : machine := Machine [] m (Kmem 0 0 0 ∅) 0.
Definition start (b : list Z) : mpstate (list (Z * Z)) := Mpstate (boot_machine (firmware b)) [] 0 0 [].

Lemma firmware_first b : List.find (is_mp (firmware b)) (candidates (firmware b)) = Some (P2V 654368) ->
  first_of (valid_mp (firmware b)) (candidates (firmware b)) (P2V 654368).
Proof. apply find_first_mp. Qed.

Lemma entries_ok : Forall entry_ok entries.
Proof. repeat apply Forall_cons_2; try apply Forall_nil_2; cbn; auto. Qed.

Lemma mpinit_correct_witness :
  mpinit (start (body entries)) = Ret tt (Mpstate (boot_machine (firmware (body entries))) [0; 4] 2 4276092928 [(34, 112); (35, 1)]) /\
  (forall fuel, exists msg, mpinit_with fuel (start (body entries ++ [9; 0])) = UB msg) /\
  mpinit (Mpstate (boot_machine ∅) [] 0 0 [] : mpstate (list (Z * Z))) = Panic "Expect to run on an SMP".
Proof.
  split; [|split].
  - destruct (mpinit_correct (start (body entries))) as [_ Hok].
    destruct (Hok (P2V 654368) entries) as [E _]; [apply firmware_first; vm_compute; reflexivity|vm_compute; discriminate|exact entries_ok|reflexivity|].
    rewrite E; [vm_compute; reflexivity|]. split; [vm_compute; reflexivity|right; vm_compute; reflexivity|vm_compute; reflexivity..].
  - intros fuel. destruct (mpinit_correct (start (body entries ++ [9; 0]))) as [_ Hok].
    destruct (Hok (P2V 654368) entries) as [_ E]; [apply firmware_first; vm_compute; reflexivity|vm_compute; discriminate|exact entries_ok|reflexivity|].
    apply (E 9 [0] fuel); [lia|]. split; [vm_compute; reflexivity|right; vm_compute; reflexivity|vm_compute; reflexivity..].
  - destruct (mpinit_correct (Mpstate (boot_machine ∅) [] 0 0 [] : mpstate (list (Z * Z)))) as [E _]. apply E. intros p _ [Hp _]. vm_compute in Hp. discriminate.
Defined.
End Example.
