(* ===== verification/Lapic.v ===== *)
(** * lapic.c and picirq.c: the local interrupt controller and the clock

    The local APIC is a device in memory, reached through the pointer [lapic] that [mpinit]
    sets; the real-time clock and the old interrupt controllers are reached through ports.
    What the devices do is an interface. *)

From S2P Require Import Prelude Mmu Mem Cstring Kalloc Mp.

(** Reading and writing a register of the local APIC, given by its index, and how often
    the delivery status may have to be read. *)
Class Apic (C : Type) := {
  apic_read : Z -> C -> Z * C;
  apic_write : Z -> Z -> C -> C;
  ipi_patience : nat
}.

(** Registers, as indices of words. *)
Definition ID : Z := 8.
Definition VER : Z := 12.
Definition TPR : Z := 32.
Definition EOI : Z := 44.
Definition SVR : Z := 60.
Definition ENABLE : Z := 0x100.
Definition ESR : Z := 160.
Definition ICRLO : Z := 192.
Definition INIT : Z := 0x500.
Definition STARTUP : Z := 0x600.
Definition DELIVS : Z := 0x1000.
Definition ASSERT : Z := 0x4000.
Definition LEVEL : Z := 0x8000.
Definition BCAST : Z := 0x80000.
Definition ICRHI : Z := 196.
Definition TIMER : Z := 200.
Definition X1 : Z := 0xB.
Definition PERIODIC : Z := 0x20000.
Definition PCINT : Z := 208.
Definition LINT0 : Z := 212.
Definition LINT1 : Z := 216.
Definition ERROR : Z := 220.
Definition MASKED : Z := 0x10000.
Definition TICR : Z := 224.
Definition TDCR : Z := 248.

Definition CMOS_PORT : Z := 0x70.
Definition CMOS_RETURN : Z := 0x71.
Definition CMOS_STATA : Z := 0x0a.
Definition CMOS_STATB : Z := 0x0b.
Definition CMOS_UIP : Z := 128.
Definition SECS : Z := 0.
Definition MINS : Z := 2.
Definition HOURS : Z := 4.
Definition DAY : Z := 7.
Definition MONTH : Z := 8.
Definition YEAR : Z := 9.

(** date.h *)
Record rtcdate := Rtcdate { second : Z; minute : Z; hour : Z; day : Z; month : Z; year : Z }.
#[export] Instance rtcdate_eq_dec : EqDecision rtcdate.
Proof. solve_decision. Defined.

(** ** The local APIC *)

Section Apic.
Context {C : Type} `{Ports C} `{Apic C}.

Definition lapicr (index : Z) : M (mpstate C) Z := fun s => let '(v, c) := apic_read index (mp_ports s) in Ret v (set_mp_ports c s).
Definition lapicw (index value : Z) : M (mpstate C) unit :=
  modify (fun s => set_mp_ports (apic_write index (u32 value) (mp_ports s)) s) ;;;
  lapicr ID ;;; ret tt.

Fixpoint delivery_loop (fuel : nat) : M (mpstate C) unit :=
  match fuel with
  | O => ub "lapicinit"
  | S fuel => v <- lapicr ICRLO ;; if negb (Z.land v DELIVS =? 0) then delivery_loop fuel else ret tt
  end.

Definition lapicinit : M (mpstate C) unit :=
  l <- gets lapic ;;
  if l =? 0 then ret tt else
  lapicw SVR (Z.lor ENABLE (T_IRQ0 + IRQ_SPURIOUS)) ;;;
  lapicw TDCR X1 ;;;
  lapicw TIMER (Z.lor PERIODIC (T_IRQ0 + IRQ_TIMER)) ;;;
  lapicw TICR 10000000 ;;;
  lapicw LINT0 MASKED ;;;
  lapicw LINT1 MASKED ;;;
  v <- lapicr VER ;;
  (when 4 <=? Z.land (Z.shiftr v 16) 255 do lapicw PCINT MASKED) ;;;
  lapicw ERROR (T_IRQ0 + IRQ_ERROR) ;;;
  lapicw ESR 0 ;;;
  lapicw ESR 0 ;;;
  lapicw EOI 0 ;;;
  lapicw ICRHI 0 ;;;
  lapicw ICRLO (Z.lor (Z.lor BCAST INIT) LEVEL) ;;;
  delivery_loop (S ipi_patience) ;;;
  lapicw TPR 0.

Definition lapicid : M (mpstate C) Z :=
  l <- gets lapic ;;
  if l =? 0 then ret 0 else v <- lapicr ID ;; ret (Z.shiftr v 24).

Definition lapiceoi : M (mpstate C) unit :=
  l <- gets lapic ;;
  when negb (l =? 0) do lapicw EOI 0.

Definition microdelay (us : Z) : M (mpstate C) unit := ret tt.

(** Storing a 16-bit word. *)
Definition st16 (m : mem) (a v : Z) : mem := stb (stb m a v) (a + 1) (Z.shiftr v 8).

Fixpoint startup_loop (n : nat) (apicid addr : Z) : M (mpstate C) unit :=
  match n with
  | O => ret tt
  | S n =>
    lapicw ICRHI (Z.shiftl apicid 24) ;;;
    lapicw ICRLO (Z.lor STARTUP (Z.shiftr addr 12)) ;;;
    microdelay 200 ;;;
    startup_loop n apicid addr
  end.
Definition lapicstartap (apicid addr : Z) : M (mpstate C) unit :=
  out_port CMOS_PORT 15 ;;;
  out_port (CMOS_PORT + 1) 10 ;;;
  let wrv := P2V (Z.lor (Z.shiftl 64 4) 103) in      (* 0x40<<4 | 0x67 *)
  modify (fun s => set_mp_mem (st16 (mp_mem s) wrv 0) s) ;;;
  modify (fun s => set_mp_mem (st16 (mp_mem s) (wrv + 2) (Z.shiftr addr 4)) s) ;;;
  lapicw ICRHI (Z.shiftl apicid 24) ;;;
  lapicw ICRLO (Z.lor (Z.lor INIT LEVEL) ASSERT) ;;;
  microdelay 200 ;;;
  lapicw ICRLO (Z.lor INIT LEVEL) ;;;
  microdelay 100 ;;;
  startup_loop 2 apicid addr.
End Apic.

(** ** Ports *)

Section Clock.
Context {C : Type} `{Ports C}.

(** The old interrupt controllers are not used. *)
Definition picinit : M (mpstate C) unit :=
  out_port 33 255 ;;;        (* IO_PIC1+1 *)
  out_port 161 255.          (* IO_PIC2+1 *)

Definition cmos_read (reg : Z) : M (mpstate C) Z :=
  out_port CMOS_PORT reg ;;;
  microdelay 200 ;;;
  in_port CMOS_RETURN.

Definition fill_rtcdate : M (mpstate C) rtcdate :=
  s <- cmos_read SECS ;;
  mi <- cmos_read MINS ;;
  h <- cmos_read HOURS ;;
  d <- cmos_read DAY ;;
  mo <- cmos_read MONTH ;;
  y <- cmos_read YEAR ;;
  ret (Rtcdate s mi h d mo y).

(** The loop that reads the date twice. *)
Fixpoint cmostime_loop (fuel : nat) : M (mpstate C) rtcdate :=
  match fuel with
  | O => ub "cmostime: does not terminate"
  | S fuel =>
    t1 <- fill_rtcdate ;;
    a <- cmos_read CMOS_STATA ;;
    if negb (Z.land a CMOS_UIP =? 0) then cmostime_loop fuel else
    t2 <- fill_rtcdate ;;
    if bool_decide (t1 = t2) then ret t1 else cmostime_loop fuel
  end.

Definition CONV (x : Z) : Z := u32 (u32 (Z.shiftr x 4 * 10) + Z.land x 15).

Definition cmostime (fuel : nat) : M (mpstate C) rtcdate :=
  sb <- cmos_read CMOS_STATB ;;
  let bcd := Z.land sb (Z.shiftl 1 2) =? 0 in
  t1 <- cmostime_loop fuel ;;
  let t1 := if bcd then Rtcdate (CONV (second t1)) (CONV (minute t1)) (CONV (hour t1)) (CONV (day t1)) (CONV (month t1)) (CONV (year t1)) else t1 in
  ret (Rtcdate (second t1) (minute t1) (hour t1) (day t1) (month t1) (u32 (year t1 + 2000))).
End Clock.
