(* ===== verification/Clock.v ===== *)
(** * The date read from the clock

    The real-time clock updates its registers while they are read one by one.  [cmostime]
    reads them twice and looks at the update flag in between; that is enough for a date
    that the clock showed at one moment. *)

From S2P Require Import Prelude Mmu Mem Cstring Kalloc Mp Lapic.

Section Reads.
Context {C : Type} `{Ports C}.

(** Reading a register of the clock, the state after it, and after a list of reads. *)
Definition rd (reg : Z) (c : C) : Z * C := port_in CMOS_RETURN (port_out CMOS_PORT reg c).
Definition next (reg : Z) (c : C) : C := snd (rd reg c).
Definition path (c : C) (regs : list Z) : C := foldl (fun c r => next r c) c regs.
End Reads.

Definition bcd (x : Z) : Z := x / 10 * 16 + x mod 10.
Definition map_date (f : Z -> Z) (d : rtcdate) : rtcdate := Rtcdate (f (second d)) (f (minute d)) (f (hour d)) (f (day d)) (f (month d)) (f (year d)).
Definition field (reg : Z) (d : rtcdate) : Z :=
  if reg =? SECS then second d else if reg =? MINS then minute d else if reg =? HOURS then hour d
  else if reg =? DAY then day d else if reg =? MONTH then month d else year d.
Definition date_regs : list Z := [SECS; MINS; HOURS; DAY; MONTH; YEAR].
Definition two_digits (d : rtcdate) : Prop := forall r, r ∈ date_regs -> 0 <= field r d < 100.

(** What a real-time clock does.  It shows a date, or is updating it, and then the date
    registers hold anything; register A tells which, and a bit of register B how numbers
    are written.  An update is rare compared to reads: there is at most one in thirteen of
    them, and after at most [rtc_patience] reads there are twenty-six without one. *)
Class Rtc (C : Type) `{Ports C} := {
  phase : C -> option rtcdate;
  binary : bool;
  rtc_patience : nat;
  shown_digits c d : phase c = Some d -> two_digits d;
  read_date c d r : phase c = Some d -> r ∈ date_regs -> fst (rd r c) = (if binary then id else bcd) (field r d);
  read_stata c : Z.land (fst (rd CMOS_STATA c)) CMOS_UIP = 0 <-> phase c <> None;
  read_statb c : Z.land (fst (rd CMOS_STATB c)) 4 = if binary then 4 else 0;
  one_update c regs : length regs = 13%nat -> exists d0 d1 a b, forall i, (i < 13)%nat ->
    phase (path c (take i regs)) = if decide (i < a)%nat then Some d0 else if decide (i < b)%nat then None else Some d1;
  quiet_soon c : exists n d, (n <= rtc_patience)%nat /\ forall regs, (n <= length regs < n + 26)%nat -> phase (path c regs) = Some d
}.

Section Clock.
Context {C : Type} `{Rtc C}.
Implicit Types (s : mpstate C) (c : C) (d : rtcdate).

Definition shown_as (d : rtcdate) : rtcdate := map_date (if binary then id else bcd) d.

(** The clock showed [d] at some moment from [c] on. *)
Definition shows c d : Prop := exists regs, phase (path c regs) = Some d.

(** For [n] reads, and then another [w], whatever is read, [d] is shown in the latter. *)
Definition quiet (n w : nat) c d : Prop := forall regs, (n <= length regs < n + w)%nat -> phase (path c regs) = Some d.

Lemma path_app c l1 l2 : path c (l1 ++ l2) = path (path c l1) l2.
Proof. apply foldl_app. Qed.

Lemma shows_path c regs d : shows (path c regs) d -> shows c d.
Proof. intros [l E]. exists (regs ++ l). by rewrite path_app. Qed.

Lemma quiet_path n w c d regs : (length regs <= n)%nat -> quiet n w c d -> quiet (n - length regs) w (path c regs) d.
Proof. intros Hl Hq l Hr. rewrite <- path_app. apply Hq. rewrite length_app. lia. Qed.

Lemma quiet_inside n w k c d regs : (n <= length regs)%nat -> (length regs + k <= n + w)%nat -> quiet n w c d -> quiet 0 k (path c regs) d.
Proof. intros Hl Hk Hq l Hr. rewrite <- path_app. apply Hq. rewrite length_app. lia. Qed.

(** ** One attempt *)

Lemma set_mp_ports_twice c1 c2 s : set_mp_ports c2 (set_mp_ports c1 s) = set_mp_ports c2 s.
Proof. done. Qed.

Lemma cmos_read_eq r c s : cmos_read r (set_mp_ports c s) = Ret (fst (rd r c)) (set_mp_ports (next r c) s).
Proof.
  unfold cmos_read, out_port, microdelay, in_port, bind, modify, ret, next, rd. cbn [mp_ports set_mp_ports].
  by destruct (port_in CMOS_RETURN (port_out CMOS_PORT r c)).
Qed.

Definition filled c : rtcdate :=
  let v n r := fst (rd r (path c (take n date_regs))) in
  Rtcdate (v 0%nat SECS) (v 1%nat MINS) (v 2%nat HOURS) (v 3%nat DAY) (v 4%nat MONTH) (v 5%nat YEAR).

Lemma fill_rtcdate_eq c s : fill_rtcdate (set_mp_ports c s) = Ret (filled c) (set_mp_ports (path c date_regs) s).
Proof. unfold fill_rtcdate. do 6 (erewrite bind_ret; [|apply cmos_read_eq]). done. Qed.

Lemma filled_shown c d : (forall i, (i < 6)%nat -> phase (path c (take i date_regs)) = Some d) -> filled c = shown_as d.
Proof.
  intros Hp. unfold filled, shown_as, map_date. cbv zeta.
  rewrite (read_date _ d SECS), (read_date _ d MINS), (read_date _ d HOURS), (read_date _ d DAY), (read_date _ d MONTH), (read_date _ d YEAR)
    by (first [apply Hp; lia | unfold date_regs; set_solver]).
  done.
Qed.

Definition stata_regs : list Z := date_regs ++ [CMOS_STATA].

(** When the flag is clear and both readings agree, the date was shown. *)
Lemma attempt_sound c : phase (path c date_regs) <> None -> filled c = filled (path c stata_regs) -> exists d, shows c d /\ filled c = shown_as d.
Proof.
  intros Hu Heq. destruct (one_update c (stata_regs ++ date_regs) eq_refl) as (d0 & d1 & a & b & Hp).
  pose proof (Hp 6%nat ltac:(lia)) as H6. change (take 6 (stata_regs ++ date_regs)) with date_regs in H6. rewrite H6 in Hu.
  destruct (decide (6 < a)%nat) as [Ha|Ha].
  - exists d0. split; [exists []; pose proof (Hp 0%nat ltac:(lia)) as Hz; by rewrite decide_True in Hz by lia|].
    apply filled_shown. intros i Hi. specialize (Hp i ltac:(lia)). rewrite decide_True in Hp by lia.
    unfold stata_regs in Hp. by rewrite take_app_le, (take_app_le date_regs) in Hp by (cbn; lia).
  - destruct (decide (6 < b)%nat) as [Hb|Hb]; [done|].
    assert (Hq : forall i, (i < 6)%nat -> phase (path (path c stata_regs) (take i date_regs)) = Some d1).
    { intros i Hi. specialize (Hp (7 + i)%nat ltac:(lia)). rewrite !decide_False in Hp by lia. rewrite <- path_app.
      change (take (7 + i) (stata_regs ++ date_regs)) with (stata_regs ++ take i date_regs) in Hp. done. }
    exists d1. split; [exists stata_regs; exact (Hq 0%nat ltac:(lia))|]. rewrite Heq. by apply filled_shown.
Qed.

(** The loop, one attempt at a time. *)
Lemma cmostime_loop_step fuel c s : cmostime_loop (S fuel) (set_mp_ports c s) =
  if decide (phase (path c date_regs) = None) then cmostime_loop fuel (set_mp_ports (path c stata_regs) s)
  else if decide (filled c = filled (path c stata_regs)) then Ret (filled c) (set_mp_ports (path c (stata_regs ++ date_regs)) s)
  else cmostime_loop fuel (set_mp_ports (path c (stata_regs ++ date_regs)) s).
Proof.
  cbn [cmostime_loop]. step (fill_rtcdate_eq c s). step (cmos_read_eq CMOS_STATA (path c date_regs) s). pose proof (read_stata (path c date_regs)) as Hu.
  destruct (decide _) as [E|E].
  - rewrite (proj2 (Z.eqb_neq _ _)); [done|]. rewrite Hu, E. by intros ?.
  - rewrite (proj2 (Z.eqb_eq _ _)) by (by apply Hu). cbn [negb]. change (next CMOS_STATA (path c date_regs)) with (path c stata_regs).
    step (fill_rtcdate_eq (path c stata_regs) s). rewrite <- path_app. case_bool_decide as Heq; [by rewrite decide_True|by rewrite decide_False].
Qed.

Lemma quiet_attempt fuel c d s : quiet 0 13 c d -> exists c', cmostime_loop (S fuel) (set_mp_ports c s) = Ret (shown_as d) (set_mp_ports c' s).
Proof.
  intros Hq. rewrite cmostime_loop_step, decide_False by (rewrite (Hq date_regs) by (cbn; lia); done).
  rewrite (filled_shown c d) by (intros i Hi; apply Hq; rewrite length_take; lia).
  rewrite (filled_shown (path c stata_regs) d) by (intros i Hi; rewrite <- path_app; apply Hq; rewrite length_app, length_take; cbn; lia).
  rewrite decide_True by done. by eexists.
Qed.

Lemma cmostime_loop_spec fuel : forall n c dq s, quiet n 26 c dq -> (n + 2 <= fuel)%nat ->
  exists d c', shows c d /\ cmostime_loop fuel (set_mp_ports c s) = Ret (shown_as d) (set_mp_ports c' s).
Proof.
  induction fuel as [|fuel IH]; intros n c dq s Hq Hf; [lia|]. rewrite cmostime_loop_step.
  assert (Hagain : forall regs, (7 <= length regs <= 13)%nat -> exists d c', shows c d /\ cmostime_loop fuel (set_mp_ports (path c regs) s) = Ret (shown_as d) (set_mp_ports c' s)).
  { intros regs Hr. destruct (decide (length regs <= n)%nat) as [Hn|Hn].
    - destruct (IH (n - length regs)%nat (path c regs) dq s) as (d & c' & Hs & E); [by apply quiet_path|lia|].
      exists d, c'. split; [by apply (shows_path c regs)|done].
    - destruct fuel as [|fuel]; [lia|]. assert (Hq' : quiet 0 13 (path c regs) dq) by (apply (quiet_inside n 26); [lia|lia|done]).
      destruct (quiet_attempt fuel (path c regs) dq s Hq') as [c' E]. exists dq, c'. split; [|done].
      exists regs. exact (Hq' [] ltac:(cbn; lia)). }
  destruct (decide (phase _ = None)) as [Hu|Hu]; [apply Hagain; cbn; lia|].
  destruct (decide (filled c = _)) as [He|He]; [|apply Hagain; cbn; lia].
  destruct (attempt_sound c Hu He) as (d & Hs & E). exists d. eexists. by rewrite E.
Qed.

(** ** The numbers *)

Lemma CONV_bcd x : 0 <= x < 100 -> CONV (bcd x) = x.
Proof.
  intros Hx. unfold CONV, bcd. change 15 with (Z.ones 4). rewrite Z.land_ones, Z.shiftr_div_pow2 by lia. change (2 ^ 4) with 16.
  assert (E1 : (x / 10 * 16 + x mod 10) / 16 = x / 10) by (Z.to_euclidean_division_equations; lia).
  assert (E2 : (x / 10 * 16 + x mod 10) mod 16 = x mod 10) by (Z.to_euclidean_division_equations; lia).
  rewrite E1, E2, (u32_id (x / 10 * 10)), u32_id by (Z.to_euclidean_division_equations; lia). Z.to_euclidean_division_equations; lia.
Qed.

Lemma map_date_CONV d : two_digits d -> map_date CONV (map_date bcd d) = d.
Proof.
  intros Hd. unfold map_date; cbn.
  pose proof (Hd SECS ltac:(unfold date_regs; set_solver)). pose proof (Hd MINS ltac:(unfold date_regs; set_solver)).
  pose proof (Hd HOURS ltac:(unfold date_regs; set_solver)). pose proof (Hd DAY ltac:(unfold date_regs; set_solver)).
  pose proof (Hd MONTH ltac:(unfold date_regs; set_solver)). pose proof (Hd YEAR ltac:(unfold date_regs; set_solver)).
  destruct d. unfold field in *. cbn in *. by rewrite !CONV_bcd.
Qed.

End Clock.

(** ** A clock that ticks every 64 reads and is updating for the last four of them *)

Module Example.

(** The register selected, and the number of reads so far. *)
Record sim := Sim { selected : Z; reads : Z }.

Definition date (j : Z) : rtcdate := Rtcdate (j mod 60) 59 23 31 12 99.
Definition sim_phase (c : sim) : option rtcdate := if reads c mod 64 <? 60 then Some (date (reads c / 64)) else None.
Definition sim_value (c : sim) : Z :=
  if selected c =? CMOS_STATA then match sim_phase c with Some _ => 38 | None => 166 end
  else if selected c =? CMOS_STATB then 2
  else match sim_phase c with Some d => bcd (field (selected c) d) | None => 255 end.

#[export] Instance sim_ports : Ports sim := {|
  port_in port c := (sim_value c, Sim (selected c) (reads c + 1));
  port_out port v c := Sim v (reads c)
|}.

Lemma reads_path regs : forall c, reads (path c regs) = reads c + Z.of_nat (length regs).
Proof. induction regs as [|r regs IH]; intros c; [cbn; lia|]. change (path c (r :: regs)) with (path (next r c) regs). rewrite IH. cbn [length next rd snd port_in port_out sim_ports reads]. lia. Qed.

Lemma date_digits j : two_digits (date j).
Proof.
  intros r Hr. pose proof (Z.mod_pos_bound j 60 ltac:(lia)).
  repeat (apply elem_of_cons in Hr as [-> | Hr]; [cbn; lia|]). by apply elem_of_nil in Hr.
Qed.

Lemma sim_one_update c regs : length regs = 13%nat -> exists d0 d1 a b, forall i, (i < 13)%nat ->
  sim_phase (path c (take i regs)) = if decide (i < a)%nat then Some d0 else if decide (i < b)%nat then None else Some d1.
Proof.
  intros Hl. set (k := reads c mod 64). set (q := reads c / 64). pose proof (Z.mod_pos_bound (reads c) 64 ltac:(lia)) as Hk. fold k in Hk.
  pose proof (Z.div_mod (reads c) 64 ltac:(lia)) as Hdm. fold k q in Hdm.
  exists (date q), (date (q + 1)), (Z.to_nat (60 - k)), (Z.to_nat (64 - k)). intros i Hi.
  unfold sim_phase. rewrite reads_path, length_take, Nat.min_l by lia. destruct (decide (k + Z.of_nat i < 64)) as [Hin|Hin].
  - assert (E : (reads c + Z.of_nat i) mod 64 = k + Z.of_nat i) by (symmetry; apply (Z.mod_unique _ _ q); lia).
    assert (E' : (reads c + Z.of_nat i) / 64 = q) by (symmetry; apply (Z.div_unique _ _ _ (k + Z.of_nat i)); lia). rewrite E, E'.
    destruct (Z.ltb_spec (k + Z.of_nat i) 60); [by rewrite decide_True by lia|by rewrite decide_False, decide_True by lia].
  - assert (E : (reads c + Z.of_nat i) mod 64 = k + Z.of_nat i - 64) by (symmetry; apply (Z.mod_unique _ _ (q + 1)); lia).
    assert (E' : (reads c + Z.of_nat i) / 64 = q + 1) by (symmetry; apply (Z.div_unique _ _ _ (k + Z.of_nat i - 64)); lia). rewrite E, E'.
    rewrite (proj2 (Z.ltb_lt _ _)) by lia. by rewrite !decide_False by lia.
Qed.

Lemma sim_quiet c : exists n d, (n <= 64)%nat /\ forall regs, (n <= length regs < n + 26)%nat -> sim_phase (path c regs) = Some d.
Proof.
  set (k := reads c mod 64). set (q := reads c / 64). pose proof (Z.mod_pos_bound (reads c) 64 ltac:(lia)) as Hk. fold k in Hk.
  pose proof (Z.div_mod (reads c) 64 ltac:(lia)) as Hdm. fold k q in Hdm.
  exists (Z.to_nat (64 - k)), (date (q + 1)). split; [lia|]. intros regs Hr. unfold sim_phase. rewrite reads_path.
  set (r := k + Z.of_nat (length regs) - 64). assert (E : (reads c + Z.of_nat (length regs)) mod 64 = r) by (symmetry; apply (Z.mod_unique _ _ (q + 1)); lia).
  assert (E' : (reads c + Z.of_nat (length regs)) / 64 = q + 1) by (symmetry; apply (Z.div_unique _ _ _ r); lia).
  rewrite E, E', (proj2 (Z.ltb_lt _ _)) by lia. done.
Qed.

#[export] Instance sim_rtc : Rtc sim.
Proof.
  refine {| phase := sim_phase; binary := false; rtc_patience := 64 |}.
  - intros c d E. unfold sim_phase in E. destruct (_ <? _); [|done]. injection E as <-. apply date_digits.
  - intros c d r E Hr. change (sim_value (Sim r (reads c)) = bcd (field r d)). unfold sim_value. change (sim_phase (Sim r (reads c))) with (sim_phase c). rewrite E. cbn [selected].
    repeat (apply elem_of_cons in Hr as [-> | Hr]; [done|]). by apply elem_of_nil in Hr.
  - intros c. change (Z.land (sim_value (Sim CMOS_STATA (reads c))) CMOS_UIP = 0 <-> sim_phase c <> None). unfold sim_value. cbn [selected].
    change (sim_phase (Sim CMOS_STATA (reads c))) with (sim_phase c). by destruct (sim_phase c).
  - intros c. done.
  - exact sim_one_update.
  - exact sim_quiet.
Defined.

Definition start : mpstate sim := Mpstate (Machine [] ∅ (Kmem 0 0 0 ∅) 0) [] 0 0 (Sim 0 52).

End Example.
