(* ===== verification/Boot.v ===== *)
(** * bootmain.c: loading the kernel

    The boot loader reads the kernel, an ELF file, from the disk, where it starts at
    sector 1, into physical memory.  The disk is reached through its ports, as in Ide, and
    is polled. *)

From S2P Require Import Prelude Mmu Mem Cstring Blk Kalloc Vm Proc Syscall Sysfile Sysproc Exec Ide.

Definition SECTSIZE : Z := 512.

(** Physical memory, and the controller. *)
Record boot (C : Type) := BootState { bt_mem : mem; bt_ctl : C }.
Arguments BootState {C}.
Arguments bt_mem {C}.
Arguments bt_ctl {C}.

Section Boot.
Context {C : Type} `{IdePorts C}.

Definition bt_in (port : Z) : M (boot C) Z := fun s => let '(r, c) := inb port (bt_ctl s) in Ret r (BootState (bt_mem s) c).
Definition bt_out (port v : Z) : M (boot C) unit := modify (fun s => BootState (bt_mem s) (outb port (u8 v) (bt_ctl s))).
Definition set_bt_mem (m : mem) (s : boot C) : boot C := BootState m (bt_ctl s).

Fixpoint waitdisk_loop (fuel : nat) : M (boot C) unit :=
  match fuel with
  | O => ub "waitdisk"
  | S fuel => r <- bt_in 503 ;; if negb (Z.land r 192 =? 64) then waitdisk_loop fuel else ret tt
  end.
Definition waitdisk : M (boot C) unit := waitdisk_loop (S patience).

Definition readsect (dst offset : Z) : M (boot C) unit :=
  waitdisk ;;;
  bt_out 498 1 ;;;
  bt_out 499 offset ;;;
  bt_out 500 (Z.shiftr offset 8) ;;;
  bt_out 501 (Z.shiftr offset 16) ;;;
  bt_out 502 (Z.lor (Z.shiftr offset 24) 224) ;;;
  bt_out 503 32 ;;;
  waitdisk ;;;
  (fun s => let '(d, c) := insl 496 (Z.to_nat (SECTSIZE / 4)) (bt_ctl s) in Ret tt (BootState (write_bytes (bt_mem s) dst d) c)).

Fixpoint readseg_loop (fuel : nat) (pa epa offset : Z) : M (boot C) unit :=
  if negb (pa <? epa) then ret tt else
  match fuel with
  | O => ub "readseg: does not terminate"
  | S fuel =>
    readsect pa offset ;;;
    readseg_loop fuel (u32 (pa + SECTSIZE)) epa (u32 (offset + 1))
  end.
Definition readseg (pa count offset : Z) : M (boot C) unit :=
  let epa := u32 (pa + count) in
  let pa := u32 (pa - offset mod SECTSIZE) in
  let offset := u32 (offset / SECTSIZE + 1) in
  readseg_loop (Z.to_nat ((epa - pa + SECTSIZE - 1) / SECTSIZE)) pa epa offset.

(** The program headers are read from memory as the loop gets to them. *)
Fixpoint load_loop (n : nat) (ph : Z) : M (boot C) unit :=
  match n with
  | O => ret tt
  | S n =>
    m <- gets bt_mem ;;
    let p := proghdr_of (read_bytes m ph (Z.to_nat PROGHDR_SIZE)) in
    let pa := ph_paddr p in
    readseg pa (ph_filesz p) (ph_off p) ;;;
    (when ph_filesz p <? ph_memsz p do
       modify (fun s => set_bt_mem (stosb (bt_mem s) (u32 (pa + ph_filesz p)) 0 (Z.to_nat (ph_memsz p - ph_filesz p))) s)) ;;;
    load_loop n (ph + PROGHDR_SIZE)
  end.

(** The address the boot loader jumps to, or None when it returns. *)
Definition bootmain : M (boot C) (option Z) :=
  let elf := 65536 in       (* 0x10000 *)
  let header m := elfhdr_of (read_bytes m elf (Z.to_nat ELFHDR_SIZE)) in
  readseg elf 4096 0 ;;;
  h <- gets (fun s => header (bt_mem s)) ;;
  if negb (e_magic h =? ELF_MAGIC) then ret None else
  load_loop (Z.to_nat (e_phnum h)) (elf + e_phoff h) ;;;
  h <- gets (fun s => header (bt_mem s)) ;;
  ret (Some (e_entry h)).
End Boot.
