(* ===== verification/BootProps.v ===== *)
(** * The boot loader loads the kernel

    Every segment of the kernel is in memory at its physical address, its uninitialised
    part is zero, and control goes to the entry point; although the loader reads whole
    sectors and so writes more than a segment. *)

From S2P Require Import Prelude Mmu Mem Cstring Blk FsState Bio BioSpec Kalloc Vm PageTable Walk VmInv Uvm Kvm Cow Grow Load Proc Syscall Sysfile Sysproc Exec Ide Boot.
#[local] Open Scope Z_scope.

(** ** The controller *)

Section Laws.
Context {C : Type} `{IdePorts C}.

(** Reading the status until the disk is ready. *)
Fixpoint wait_ready (fuel : nat) (c : C) : option C :=
  match fuel with
  | O => None
  | S fuel => let '(r, c') := inb 503 c in if negb (Z.land r 192 =? 64) then wait_ready fuel c' else Some c'
  end.

(** The command to read sector [n] of disk 0. *)
Definition read_command (n : Z) (c : C) : C :=
  outb 503 32 (outb 502 (u8 (Z.lor (Z.shiftr n 24) 224)) (outb 501 (u8 (Z.shiftr n 16)) (outb 500 (u8 (Z.shiftr n 8)) (outb 499 (u8 n) (outb 498 1 c))))).
End Laws.

(** A polled disk with the sectors [d]: it becomes ready, takes a command, becomes ready
    again, and hands over the sector. *)
Class BootDisk (C : Type) `{IdePorts C} := {
  bd_idle : list (list Z) -> C -> Prop;
  bd_reading : list (list Z) -> Z -> C -> Prop;
  bd_ready : list (list Z) -> Z -> C -> Prop;
  bd_poll_idle d c : bd_idle d c -> exists c', wait_ready (S patience) c = Some c' /\ bd_idle d c';
  bd_command d n c : bd_idle d c -> 0 <= n < Z.of_nat (length d) -> n < 2 ^ 28 -> bd_reading d n (read_command n c);
  bd_poll_reading d n c : bd_reading d n c -> exists c', wait_ready (S patience) c = Some c' /\ bd_ready d n c';
  bd_data d n c : bd_ready d n c -> exists c', insl 496 128 c = (dblock d n, c') /\ bd_idle d c'
}.

(** ** The image *)

(** Where the sectors of a segment start in memory. *)
Definition seg_start (p : proghdr) : Z := ph_paddr p - ph_off p mod 512.

Record seg_ok (img : list Z) (p : proghdr) : Prop := {
  so_off : 0 <= ph_off p;
  so_size : 0 <= ph_filesz p <= ph_memsz p;
  so_file : ph_off p + ph_filesz p <= Z.of_nat (length img);
  so_low : 69632 <= seg_start p;
  so_high : ph_paddr p + ph_memsz p + 512 < 2 ^ 32
}.

(** The kernel: an ELF file of whole sectors, with its program headers in the first page,
    and segments in increasing order that leave the scratch page at 0x10000 alone.  The
    first sector of a segment does not reach into the one before. *)
Record kernel_image (img : list Z) (phs : list proghdr) : Prop := {
  ki_bytes : is_bytes img;
  ki_sectors : Z.of_nat (length img) mod 512 = 0;
  ki_size : 4096 <= Z.of_nat (length img) < 2 ^ 32;
  ki_magic : e_magic (elfhdr_of img) = ELF_MAGIC;
  ki_phnum : e_phnum (elfhdr_of img) = Z.of_nat (length phs);
  ki_phoff : 0 <= e_phoff (elfhdr_of img);
  ki_fit : e_phoff (elfhdr_of img) + 32 * Z.of_nat (length phs) <= 4096;
  ki_phs : forall i p, phs !! i = Some p -> p = proghdr_of (drop (Z.to_nat (e_phoff (elfhdr_of img)) + 32 * i) img);
  ki_segs : Forall (seg_ok img) phs;
  ki_order : forall i j p q, (i < j)%nat -> phs !! i = Some p -> phs !! j = Some q -> ph_paddr p + ph_memsz p <= seg_start q
}.

(** The image is on the disk from sector 1 on. *)
Definition on_disk (d : list (list Z)) (img : list Z) : Prop :=
  forall k, 0 <= k -> 512 * (k + 1) <= Z.of_nat (length img) ->
    k + 1 < Z.of_nat (length d) /\ dblock d (k + 1) = take 512 (drop (Z.to_nat (512 * k)) img).

(** A segment is in memory. *)
Definition loaded (img : list Z) (m : mem) (p : proghdr) : Prop :=
  forall i, 0 <= i < ph_memsz p -> ldb m (ph_paddr p + i) = if i <? ph_filesz p then nth (Z.to_nat (ph_off p + i)) img 0 else 0.

(** ** Reading *)

Section Reading.
Context {C : Type} `{BootDisk C} (d : list (list Z)) (img : list Z).
Context (Himg : on_disk d img) (Hsize : 4096 <= Z.of_nat (length img) < 2 ^ 32) (Hsect : Z.of_nat (length img) mod 512 = 0).
Implicit Types (m : mem) (c : C).

Lemma waitdisk_eq m c c' : wait_ready (S patience) c = Some c' -> waitdisk (BootState m c) = Ret tt (BootState m c').
Proof using.
  unfold waitdisk. generalize (S patience) as fuel. intros fuel. revert c. induction fuel as [|fuel IH]; intros c E; [done|].
  cbn [waitdisk_loop wait_ready] in *. unfold bind, bt_in. cbn [bt_ctl bt_mem]. destruct (inb 503 c) as [r c1]. destruct (negb _); [by apply IH|]. by injection E as ->.
Qed.

Lemma readsect_eq m c k dst : bd_idle d c -> 0 <= k -> 512 * (k + 1) <= Z.of_nat (length img) ->
  exists c', readsect dst (k + 1) (BootState m c) = Ret tt (BootState (write_bytes m dst (take 512 (drop (Z.to_nat (512 * k)) img))) c') /\ bd_idle d c'.
Proof using Himg Hsize.
  intros Hc Hk Hl. destruct (Himg k Hk Hl) as [Hn Hb]. destruct (bd_poll_idle d c Hc) as (c1 & E1 & Hc1).
  pose proof (bd_command d (k + 1) c1 Hc1 ltac:(lia) ltac:(lia)) as Hr. destruct (bd_poll_reading d (k + 1) _ Hr) as (c2 & E2 & Hc2).
  destruct (bd_data d (k + 1) c2 Hc2) as (c3 & E3 & Hc3). exists c3. split; [|done].
  unfold readsect. step (waitdisk_eq m c c1 E1). unfold bt_out. rewrite !bind_modify. cbn [bt_mem bt_ctl].
  change (u8 1) with 1. change (u8 32) with 32. fold (read_command (k + 1) c1). step (waitdisk_eq m _ c2 E2). cbn [bt_mem bt_ctl].
  change (Z.to_nat (SECTSIZE / 4)) with 128%nat. by rewrite E3, Hb.
Qed.

Lemma readseg_loop_eq n : forall m c pa epa k,
  bd_idle d c -> 0 <= k -> 512 * (k + Z.of_nat n) <= Z.of_nat (length img) -> 0 <= pa -> epa <= pa + 512 * Z.of_nat n < 2 ^ 32 -> pa + 512 * Z.of_nat n < epa + 512 ->
  exists c', readseg_loop n pa epa (k + 1) (BootState m c) =
    Ret tt (BootState (write_bytes m pa (take (512 * n) (drop (Z.to_nat (512 * k)) img))) c') /\ bd_idle d c'.
Proof using Himg Hsize.
  induction n as [|n IH]; intros m c pa epa k Hc Hk Hl Hpa Hepa Hlt; cbn [readseg_loop].
  - rewrite (proj2 (Z.ltb_ge _ _)) by lia. by exists c.
  - rewrite (proj2 (Z.ltb_lt _ _)) by lia. cbn [negb]. destruct (readsect_eq m c k pa Hc Hk ltac:(lia)) as (c1 & E1 & Hc1). step E1.
    rewrite !u32_id by (unfold SECTSIZE; lia). unfold SECTSIZE.
    destruct (IH (write_bytes m pa (take 512 (drop (Z.to_nat (512 * k)) img))) c1 (pa + 512) epa (k + 1)) as (c' & E & Hc'); [done|lia..|].
    exists c'. split; [|done]. rewrite E. do 2 f_equal. replace (512 * S n)%nat with (512 + 512 * n)%nat by lia.
    rewrite <- take_take_drop, write_bytes_app, drop_drop, length_take, length_drop, Nat.min_l by lia. do 3 f_equal. lia.
Qed.

(** [n] sectors are read. *)
Definition nsectors (p_off count : Z) : Z := (count + p_off mod 512 + 511) / 512.

Lemma readseg_eq m c pa count off :
  bd_idle d c -> 0 <= off -> 0 <= count -> off + count <= Z.of_nat (length img) -> 0 <= pa - off mod 512 -> pa + count + 512 < 2 ^ 32 ->
  exists c', readseg pa count off (BootState m c) =
    Ret tt (BootState (write_bytes m (pa - off mod 512) (take (512 * Z.to_nat (nsectors off count)) (drop (Z.to_nat (off - off mod 512)) img))) c') /\ bd_idle d c'.
Proof using Himg Hsize Hsect.
  intros Hc Ho Hn Hl Hpa Hmax. unfold readseg, SECTSIZE. cbv zeta. pose proof (Z.mod_pos_bound off 512 ltac:(lia)) as Hmod.
  pose proof (Z.div_mod off 512 ltac:(lia)) as Hdm. pose proof (Z.div_pos off 512 Ho ltac:(lia)) as Hq.
  rewrite !(u32_id (pa + _)), !(u32_id (pa - _)), !(u32_id (off / 512 + 1)) by lia.
  replace (pa + count - (pa - off mod 512) + 512 - 1) with (count + off mod 512 + 511) by lia. fold (nsectors off count).
  set (n := nsectors off count). assert (Hns : 512 * n - 512 < count + off mod 512 <= 512 * n) by (unfold n, nsectors; Z.to_euclidean_division_equations; lia).
  assert (Hend : 512 * (off / 512 + n) <= Z.of_nat (length img)) by (Z.to_euclidean_division_equations; lia).
  replace (off - off mod 512) with (512 * (off / 512)) by lia. apply readseg_loop_eq; [done|lia..].
Qed.
End Reading.

(** ** Segments *)

(** Where what is written for a segment ends: after its last byte in memory, or after the
    last sector read, whichever is later. *)
Definition seg_end (p : proghdr) : Z := Z.max (ph_paddr p + ph_memsz p) (seg_start p + 512 * nsectors (ph_off p) (ph_filesz p)).

Lemma nth_take_drop (l : list Z) o n i : (i < n)%nat -> nth i (take n (drop o l)) 0 = nth (o + i) l 0.
Proof. intros Hi. rewrite !nth_lookup, lookup_take_lt, lookup_drop by lia. done. Qed.

Lemma nth_byte l i : is_bytes l -> 0 <= nth i l 0 < 256.
Proof. intros Hl. destruct (nth_in_or_default i l 0) as [Hin| ->]; [|lia]. apply list_elem_of_In in Hin. by apply (proj1 (Forall_forall _ _) Hl). Qed.

Lemma get_take n k l o : (o + n <= k)%nat -> get n (take k l) o = get n l o.
Proof. intros Hk. unfold get. by rewrite skipn_firstn_comm, take_take, Nat.min_l by lia. Qed.

Lemma elfhdr_of_take l : elfhdr_of (take 52 l) = elfhdr_of l.
Proof. unfold elfhdr_of, get16, get32. rewrite !get_take by lia. by rewrite skipn_firstn_comm, take_take. Qed.

Lemma proghdr_of_take l : proghdr_of (take 32 l) = proghdr_of l.
Proof. unfold proghdr_of, get32. by rewrite !get_take by lia. Qed.

Section Loading.
Context {C : Type} `{BootDisk C} (d : list (list Z)) (img : list Z) (phs : list proghdr).
Context (Himg : on_disk d img) (Hki : kernel_image img phs).
Implicit Types (m : mem) (c : C) (p : proghdr).

Abbreviation phoff := (e_phoff (elfhdr_of img)).

(** The first page of the image is at 0x10000. *)
Definition scratch m : Prop := read_bytes m 65536 4096 = take 4096 img.

(** Reading a segment and clearing the rest of it. *)
Definition place m p : mem :=
  let m1 := write_bytes m (seg_start p) (take (512 * Z.to_nat (nsectors (ph_off p) (ph_filesz p))) (drop (Z.to_nat (ph_off p - ph_off p mod 512)) img)) in
  if ph_filesz p <? ph_memsz p then stosb m1 (ph_paddr p + ph_filesz p) 0 (Z.to_nat (ph_memsz p - ph_filesz p)) else m1.

Lemma place_out m p a : seg_ok img p -> a < seg_start p \/ seg_end p <= a -> ldb (place m p) a = ldb m a.
Proof using.
  intros [Ho Hs _ _ _] Ha. pose proof (Z.mod_pos_bound (ph_off p) 512 ltac:(lia)). unfold place, seg_end, seg_start in *. cbv zeta.
  set (n := nsectors _ _) in *. set (l := take _ _). assert (Hl : (length l <= 512 * Z.to_nat n)%nat) by (unfold l; rewrite length_take; lia).
  assert (Hn : 0 <= n) by (unfold n, nsectors; apply Z.div_pos; lia).
  assert (Hw : forall m, ldb (write_bytes m (ph_paddr p - ph_off p mod 512) l) a = ldb m a) by (intros m'; apply ldb_write_bytes_out; lia).
  destruct (_ <? _); [|apply Hw]. rewrite ldb_stosb. destruct (Z.leb_spec (ph_paddr p + ph_filesz p) a); cbn [andb]; [|apply Hw].
  rewrite (proj2 (Z.ltb_ge _ _)) by lia. apply Hw.
Qed.

Lemma place_below m p a : seg_ok img p -> a < seg_start p -> ldb (place m p) a = ldb m a.
Proof using. intros Hs Ha. apply place_out; [done|by left]. Qed.

Lemma place_loaded m p : seg_ok img p -> loaded img (place m p) p.
Proof using Hki.
  intros [Ho Hs Hf _ _] i Hi. pose proof (Z.mod_pos_bound (ph_off p) 512 ltac:(lia)) as Hmod. pose proof (Z.mod_le (ph_off p) 512 Ho ltac:(lia)) as Hle.
  unfold place, seg_start. cbv zeta. set (n := nsectors (ph_off p) (ph_filesz p)). set (l := take _ _).
  assert (Hn : ph_filesz p + ph_off p mod 512 <= 512 * n) by (unfold n, nsectors; Z.to_euclidean_division_equations; lia).
  assert (Hin : i < ph_filesz p -> ldb (write_bytes m (ph_paddr p - ph_off p mod 512) l) (ph_paddr p + i) = nth (Z.to_nat (ph_off p + i)) img 0).
  { intros Hlt. assert (El : nth (Z.to_nat (ph_off p mod 512 + i)) l 0 = nth (Z.to_nat (ph_off p + i)) img 0)
      by (unfold l; rewrite nth_take_drop by lia; f_equal; lia).
    assert (Hlen : ph_off p mod 512 + i < Z.of_nat (length l)) by (unfold l; rewrite length_take, length_drop; lia).
    rewrite ldb_write_bytes. unfold overlay. rewrite in_range_true by lia.
    replace (ph_paddr p + i - (ph_paddr p - ph_off p mod 512)) with (ph_off p mod 512 + i) by lia. rewrite El. apply u8_id, nth_byte, Hki. }
  destruct (Z.ltb_spec i (ph_filesz p)) as [Hlt|Hge].
  - destruct (_ <? _); [rewrite ldb_stosb, (proj2 (Z.leb_gt _ _)) by lia; cbn [andb]|]; by apply Hin.
  - rewrite (proj2 (Z.ltb_lt _ _)), ldb_stosb, (proj2 (Z.leb_le _ _)), (proj2 (Z.ltb_lt _ _)) by lia. done.
Qed.

Lemma scratch_header m : scratch m -> elfhdr_of (read_bytes m 65536 (Z.to_nat ELFHDR_SIZE)) = elfhdr_of img.
Proof using.
  intros Hs. pose proof (read_bytes_sub m 65536 4096 52 0 ltac:(lia)) as E. rewrite Z.add_0_r, drop_0, Hs, take_take in E.
  change (Z.to_nat ELFHDR_SIZE) with 52%nat. rewrite E. apply elfhdr_of_take.
Qed.

Lemma scratch_proghdr m i p : scratch m -> phs !! i = Some p ->
  proghdr_of (read_bytes m (65536 + phoff + 32 * Z.of_nat i) (Z.to_nat PROGHDR_SIZE)) = p.
Proof using Hki.
  intros Hs Hp. pose proof (lookup_lt_Some _ _ _ Hp) as Hi. pose proof (ki_fit _ _ Hki). pose proof (ki_phoff _ _ Hki).
  set (o := (Z.to_nat phoff + 32 * i)%nat). replace (65536 + phoff + 32 * Z.of_nat i) with (65536 + Z.of_nat o) by lia.
  change (Z.to_nat PROGHDR_SIZE) with 32%nat. rewrite (read_bytes_sub m 65536 4096 32 o), Hs, skipn_firstn_comm, take_take, Nat.min_l by lia.
  rewrite proghdr_of_take. symmetry. by apply (ki_phs _ _ Hki).
Qed.

Lemma scratch_below m m' : (forall a, a < 69632 -> ldb m' a = ldb m a) -> scratch m -> scratch m'.
Proof using.
  intros E Hs. unfold scratch. rewrite <- Hs. unfold read_bytes. apply list_fmap_ext. intros i x Hx. apply lookup_seq in Hx. apply E. lia.
Qed.

(** ** All segments *)

Lemma load_loop_eq n : forall i m c, (i + n = length phs)%nat -> scratch m -> bd_idle d c ->
  exists m' c', load_loop n (65536 + phoff + 32 * Z.of_nat i) (BootState m c) = Ret tt (BootState m' c') /\ bd_idle d c' /\
    (forall j p, (i <= j)%nat -> phs !! j = Some p -> loaded img m' p) /\
    (forall a, (forall j p, (i <= j)%nat -> phs !! j = Some p -> a < seg_start p \/ seg_end p <= a) -> ldb m' a = ldb m a).
Proof using Himg Hki.
  induction n as [|n IH]; intros i m c Hi Hs Hc; cbn [load_loop].
  { exists m, c. split; [done|]. split; [done|]. split; [|done]. intros j p Hj Hp. apply lookup_lt_Some in Hp. lia. }
  destruct (lookup_lt_is_Some_2 phs i ltac:(lia)) as [p Hp]. pose proof (proj1 (Forall_lookup _ _) (ki_segs _ _ Hki) i p Hp) as Hok.
  rewrite bind_gets. cbn [bt_mem]. rewrite (scratch_proghdr m i p Hs Hp). cbv zeta. pose proof Hok as [Ho Hsz Hf Hlow Hhigh].
  destruct (readseg_eq d img Himg (ki_size _ _ Hki) (ki_sectors _ _ Hki) m c (ph_paddr p) (ph_filesz p) (ph_off p) Hc Ho ltac:(lia) Hf) as (c1 & E1 & Hc1);
    [unfold seg_start in Hlow; lia|lia|]. step E1. fold (seg_start p).
  assert (E2 : forall m1, (when ph_filesz p <? ph_memsz p do modify (fun s : boot C => set_bt_mem (stosb (bt_mem s) (u32 (ph_paddr p + ph_filesz p)) 0 (Z.to_nat (ph_memsz p - ph_filesz p))) s))
    (BootState m1 c1) = Ret tt (BootState (if ph_filesz p <? ph_memsz p then stosb m1 (ph_paddr p + ph_filesz p) 0 (Z.to_nat (ph_memsz p - ph_filesz p)) else m1) c1)).
  { intros m1. pose proof (Z.mod_pos_bound (ph_off p) 512 ltac:(lia)). unfold seg_start in Hlow. rewrite u32_id by lia. by destruct (_ <? _). }
  rewrite (bind_ret _ _ _ tt (BootState (place m p) c1) (E2 _)).
  destruct (IH (S i) (place m p) c1) as (m' & c' & E & Hc' & Hld & Hfr); [lia| |done|].
  { apply (scratch_below m); [|done]. intros a Ha. apply place_below; [done|lia]. }
  exists m', c'. split; [|split; [done|split]].
  - rewrite <- E. f_equal. unfold PROGHDR_SIZE. lia.
  - intros j q Hj Hq. destruct (decide (j = i)) as [->|Hne]; [|apply (Hld j); [lia|done]]. rewrite Hp in Hq. injection Hq as <-.
    intros k Hk. rewrite Hfr; [by apply place_loaded|]. intros j q Hj' Hq. left. pose proof (ki_order _ _ Hki i j p q ltac:(lia) Hp Hq). lia.
  - intros a Ha. rewrite Hfr by (intros j q Hj; apply Ha; lia). apply place_out; [done|]. by apply (Ha i).
Qed.
End Loading.

Lemma first_page {C : Type} `{BootDisk C} (d : list (list Z)) (img : list Z) (m : mem) (c : C) :
  on_disk d img -> bd_idle d c -> is_bytes img -> Z.of_nat (length img) mod 512 = 0 -> 4096 <= Z.of_nat (length img) < 2 ^ 32 ->
  exists m1 c1, readseg 65536 4096 0 (BootState m c) = Ret tt (BootState m1 c1) /\ bd_idle d c1 /\ scratch img m1 /\
    forall a, a < 65536 \/ 69632 <= a -> ldb m1 a = ldb m a.
Proof.
  intros Hd Hc Hb Hm Hl. destruct (readseg_eq d img Hd Hl Hm m c 65536 4096 0 Hc) as (c1 & E & Hc1); [done || (cbn; lia)..|].
  change (512 * Z.to_nat (nsectors 0 4096))%nat with 4096%nat in E. change (65536 - 0 mod 512) with 65536 in E. change (Z.to_nat (0 - 0 mod 512)) with 0%nat in E.
  rewrite drop_0 in E. eexists _, c1. split; [exact E|]. split; [done|]. assert (Hlen : length (take 4096 img) = 4096%nat) by (rewrite length_take; lia). split.
  - unfold scratch. apply list_eq_same_length with (n := 4096%nat); [done|apply length_read_bytes|]. intros i x y Hi Hx Hy.
    rewrite lookup_read_bytes in Hx by done. injection Hx as <-. rewrite (ldb_write_bytes_in _ _ _ _ _ Hy). apply u8_id.
    rewrite lookup_take_lt in Hy by done. by apply (proj1 (Forall_lookup _ _) Hb i).
  - intros a Ha. apply ldb_write_bytes_out. rewrite Hlen. lia.
Qed.

(** C34.  The boot loader starts the kernel.  With the kernel on the disk it returns the
    entry point of the ELF header, with every segment in memory at its physical address:
    the bytes of the file, then zeros up to its size in memory.  Outside the scratch page
    only the ranges from [seg_start] to [seg_end] of the segments are written: since whole
    sectors are read, such a range can begin before the segment and end after it, each
    time by less than a sector.  Without the magic number it gives up after the first
    page. *)
Theorem bootmain_correct {C : Type} `{BootDisk C} (d : list (list Z)) (img : list Z) (s : boot C) :
  on_disk d img -> bd_idle d (bt_ctl s) ->
  (forall phs, kernel_image img phs ->
     exists s', bootmain s = Ret (Some (e_entry (elfhdr_of img))) s' /\ Forall (loaded img (bt_mem s')) phs /\
       forall a, a < 65536 \/ 69632 <= a -> (forall p, p ∈ phs -> a < seg_start p \/ seg_end p <= a) -> ldb (bt_mem s') a = ldb (bt_mem s) a) /\
  (is_bytes img -> Z.of_nat (length img) mod 512 = 0 -> 4096 <= Z.of_nat (length img) < 2 ^ 32 -> e_magic (elfhdr_of img) <> ELF_MAGIC ->
     exists s', bootmain s = Ret None s').
Proof.
  intros Hd Hc. destruct s as [m c]. cbn [bt_ctl bt_mem] in *.
  split.
  - intros phs Hki. destruct (first_page d img m c Hd Hc (ki_bytes _ _ Hki) (ki_sectors _ _ Hki) (ki_size _ _ Hki)) as (m1 & c1 & E1 & Hc1 & Hs1 & Hf1).
    unfold bootmain. cbv zeta. step E1. rewrite bind_gets. cbn [bt_mem]. rewrite (scratch_header img m1 Hs1), (ki_magic _ _ Hki). change (ELF_MAGIC =? ELF_MAGIC) with true. cbn [negb].
    destruct (load_loop_eq d img phs Hd Hki (length phs) 0 m1 c1 eq_refl Hs1 Hc1) as (m2 & c2 & E2 & _ & Hld & Hfr). rewrite Z.mul_0_r, Z.add_0_r in E2.
    rewrite (ki_phnum _ _ Hki), Nat2Z.id. step E2. rewrite bind_gets. cbn [bt_mem].
    assert (Hlow : forall a, a < 69632 -> ldb m2 a = ldb m1 a).
    { intros a Ha. apply Hfr. intros j p _ Hp. left. pose proof (so_low _ _ (proj1 (Forall_lookup _ _) (ki_segs _ _ Hki) j p Hp)). lia. }
    rewrite (scratch_header img m2) by (by apply (scratch_below img m1)). eexists. split; [done|]. cbn [bt_mem]. split.
    + apply Forall_lookup. intros j p Hp. apply (Hld j); [lia|done].
    + intros a Ha Hp. rewrite Hfr; [by apply Hf1|]. intros j p _ Hj. apply Hp. by apply list_elem_of_lookup_2 with j.
  - intros Hb Hm Hl Hmagic. destruct (first_page d img m c Hd Hc Hb Hm Hl) as (m1 & c1 & E1 & _ & Hs1 & _).
    unfold bootmain. cbv zeta. step E1. rewrite bind_gets. cbn [bt_mem]. rewrite (scratch_header img m1 Hs1), (proj2 (Z.eqb_neq _ _)) by done. by eexists.
Qed.

(** ** A kernel of nine sectors *)

Module Example.

(** The disk, the registers, the sector asked for, and how often it is busy. *)
Record sim := Sim { m_disk : list (list Z); m_regs : gmap Z Z; m_sector : Z; m_busy : nat }.

Definition reg (c : sim) (r : Z) : Z := default 0 (m_regs c !! r).
Definition lba (c : sim) : Z := reg c 499 + 256 * reg c 500 + 65536 * reg c 501 + 16777216 * (reg c 502 mod 16).

#[export] Instance sim_ports : IdePorts sim := {|
  inb port c := match m_busy c with O => (64, c) | S k => (128, Sim (m_disk c) (m_regs c) (m_sector c) k) end;
  outb port v c := if port =? 503 then Sim (m_disk c) (m_regs c) (lba c) 2 else Sim (m_disk c) (<[port := v]> (m_regs c)) (m_sector c) (m_busy c);
  insl port n c := (dblock (m_disk c) (m_sector c), c);
  outsl port b c := c;
  patience := 2
|}.

Definition sim_idle (d : list (list Z)) (c : sim) : Prop := m_disk c = d /\ (m_busy c <= 2)%nat.

Lemma wait_sim c : (m_busy c <= 2)%nat -> wait_ready (S patience) c = Some (Sim (m_disk c) (m_regs c) (m_sector c) 0).
Proof. destruct c as [d r n [|[|[|k]]]]; cbn; [done..|lia]. Qed.

Lemma lba_command n : 0 <= n < 2 ^ 28 -> u8 n + 256 * u8 (Z.shiftr n 8) + 65536 * u8 (Z.shiftr n 16) + 16777216 * (u8 (Z.lor (Z.shiftr n 24) 224) mod 16) = n.
Proof.
  intros Hn. rewrite !Z.shiftr_div_pow2 by lia. assert (Hh : 0 <= n / 2 ^ 24 < 2 ^ 4) by (split; [apply Z.div_pos; lia|apply Z.div_lt_upper_bound; lia]).
  rewrite Z.lor_comm, (lor_add 224 (n / 2 ^ 24) 4) by (lia || done). rewrite (u8_id (224 + _)) by lia.
  change (2 ^ 8) with 256 in *. change (2 ^ 16) with 65536 in *. change (2 ^ 24) with 16777216 in *. unfold u8. change (2 ^ 8) with 256.
  Z.to_euclidean_division_equations; lia.
Qed.

#[export] Instance sim_disk : BootDisk sim.
Proof.
  refine {| bd_idle := sim_idle; bd_reading d n c := sim_idle d c /\ m_sector c = n; bd_ready d n c := sim_idle d c /\ m_sector c = n |}.
  - intros d c [<- Hb]. eexists. split; [by apply wait_sim|]. split; [done|cbn; lia].
  - intros d n c [<- Hb] Hn Hmax. split; [split; cbn; lia || done|]. transitivity (lba (outb 502 (u8 (Z.lor (Z.shiftr n 24) 224)) (outb 501 (u8 (Z.shiftr n 16)) (outb 500 (u8 (Z.shiftr n 8)) (outb 499 (u8 n) (outb 498 1 c)))))); [done|].
    rewrite <- (lba_command n) at 5 by lia. unfold lba, reg. cbn [outb sim_ports m_regs Z.eqb Pos.eqb].
    repeat first [rewrite lookup_insert_eq | rewrite lookup_insert_ne by lia]. reflexivity.
  - intros d n c [[<- Hb] <-]. eexists. split; [by apply wait_sim|]. split; [split; [done|cbn; lia]|done].
  - intros d n c [[<- Hb] <-]. eexists. split; [done|]. split; [done|lia].
Defined.

(** One segment: 300 bytes of the last sector, to be placed at 0x100000, with 700 zeros. *)
Definition segment : proghdr := Proghdr 1 4096 2148532224 1048576 300 1000 7 4096.
Definition words (l : list Z) : list Z := concat (le 4 <$> l).
Definition header : list Z :=
  words [ELF_MAGIC] ++ replicate 12 0 ++ le 2 2 ++ le 2 3 ++ words [1; 1048588; 52; 0; 0] ++ le 2 52 ++ le 2 32 ++ le 2 1 ++ replicate 6 0 ++
  words [1; 4096; 2148532224; 1048576; 300; 1000; 7; 4096].
Definition img : list Z := header ++ replicate (4096 - length header) 0 ++ replicate 512 7.
Definition sectors : list (list Z) := replicate 512 0 :: ((fun k => take 512 (drop (512 * k) img)) <$> seq 0 9).
Definition start : boot sim := BootState ∅ (Sim sectors ∅ 0 1).

Lemma img_kernel : kernel_image img [segment].
Proof.
  split.
  - apply (bool_decide_unpack (Forall (fun b => 0 <= b < 256) img)). vm_compute. exact I.
  - vm_compute. reflexivity.
  - split; [vm_compute; discriminate|vm_compute; reflexivity].
  - vm_compute. reflexivity.
  - vm_compute. reflexivity.
  - vm_compute. discriminate.
  - vm_compute. discriminate.
  - intros [|i] p Hp; [injection Hp as <-; vm_compute; reflexivity|apply lookup_lt_Some in Hp; cbn in Hp; lia].
  - apply Forall_cons_2; [|by apply Forall_nil_2]. split; vm_compute; first [discriminate|reflexivity|split; discriminate].
  - intros i [|j] p q Hij Hp Hq; [lia|apply lookup_lt_Some in Hq; cbn in Hq; lia].
Qed.

Lemma img_on_disk : on_disk sectors img.
Proof.
  intros k Hk Hl. change (Z.of_nat (length img)) with 4608 in Hl. assert (Hk9 : k < 9) by lia. split; [change (Z.of_nat (length sectors)) with 10; lia|].
  unfold dblock. replace (Z.to_nat (k + 1)) with (S (Z.to_nat k)) by lia. unfold sectors. cbn [nth].
  rewrite nth_lookup, list_lookup_fmap, lookup_seq_lt by lia. cbn [fmap option_fmap option_map default from_option id Nat.add].
  do 2 f_equal. lia.
Qed.

Lemma bootmain_correct_witness :
  (exists s', bootmain start = Ret (Some 1048588) s' /\ Forall (loaded img (bt_mem s')) [segment]) /\
  match bootmain start with Ret (Some entry) s' => (entry, read_bytes (bt_mem s') 1048874 4) | _ => (0, []) end = (1048588, [7; 7; 0; 0]).
Proof.
  split.
  - assert (Hidle : bd_idle sectors (bt_ctl start)) by (split; [reflexivity|cbn; lia]).
    destruct (bootmain_correct sectors img start img_on_disk Hidle) as [Hok _].
    destruct (Hok [segment] img_kernel) as (s' & E & Hl & _). exists s'. split; [|exact Hl]. rewrite E. vm_compute. reflexivity.
  - vm_compute. reflexivity.
Defined.
End Example.
