(* ===== verification/Startup.v ===== *)
(** * main.c: starting the other processors

    The first processor puts the code of entryother.S at 0x7000 and starts the others one
    after the other, with a stack for each in the words before the code, and waits for the
    flag [started] of each.  A started processor runs entryother.S, [mpenter] and [mpmain];
    when it does so, while the first one waits, is the interface [Others]. *)

From S2P Require Import Prelude Mmu Mem Cstring Kalloc Vm Proc Mp Lapic.

(** What happens between two reads of the flag: nothing, or a processor that was started has
    executed its way into the kernel.  It is given by its local APIC identifier, the
    physical address at which it began, and its own local APIC.  The flag may have to be
    read [start_patience] times before a processor that was started has come so far. *)
Class Others (C : Type) := {
  others_turn : C -> option (Z * Z * C) * C;
  start_patience : nat
}.

(** The boot page table: pages of 4 MB. *)
Definition entrypgdir (i : Z) : Z :=
  if i =? 0 then Z.lor (Z.lor (Z.lor 0 PTE_P) PTE_W) PTE_PS
  else if i =? Z.shiftr KERNBASE PDXSHIFT then Z.lor (Z.lor (Z.lor 0 PTE_P) PTE_W) PTE_PS
  else 0.

(** The segments of a processor, vm.c.  [cpu_addr] is the address of the field [cpu] of its
    struct cpu, where its local storage starts.  That field, which points to the structure
    itself, is not part of [percpu]. *)
Definition seg_percpu (cpu_addr : Z) (v : percpu) : percpu :=
  let gdt := <[SEG_KCPU := SEG STA_W cpu_addr 8 0]> (<[SEG_UDATA := SEG STA_W 0 0xffffffff DPL_USER]>
    (<[SEG_UCODE := SEG (Z.lor STA_X STA_R) 0 0xffffffff DPL_USER]> (<[SEG_KDATA := SEG STA_W 0 0xffffffff 0]>
    (<[SEG_KCODE := SEG (Z.lor STA_X STA_R) 0 0xffffffff 0]> (cp_gdt v))))) in
  Percpu None gdt (cp_ss0 v) (cp_esp0 v) (cp_iomb v) (cp_tr v).

(** ** The state *)

(** A processor in the kernel: its identifier, stack pointer and page table, the entry of
    [cpus] whose descriptor table it has loaded, and its interrupt table. *)
Record core := Core { co_id : Z; co_esp : Z; co_cr3 : Z; co_gdt : option nat; co_idt : option Z }.

Definition set_co_cr3 v c := Core (co_id c) (co_esp c) v (co_gdt c) (co_idt c).
Definition set_co_gdt v c := Core (co_id c) (co_esp c) (co_cr3 c) v (co_idt c).
Definition set_co_idt v c := Core (co_id c) (co_esp c) (co_cr3 c) (co_gdt c) v.

(** The array [cpus]: the identifiers are in [sm_mp]; the descriptor tables and the flags
    [started] are here, with the processors that entered the kernel, in order. *)
Record smpboot (C : Type) := Smpboot { sm_mp : mpstate C; sm_cpus : nat -> percpu; sm_started : nat -> Z; sm_up : list core }.
Arguments Smpboot {C}.
Arguments sm_mp {C}.
Arguments sm_cpus {C}.
Arguments sm_started {C}.
Arguments sm_up {C}.

(** A processor that runs: the shared state, its registers and its local APIC. *)
Record ap (C : Type) := Ap { ap_sm : smpboot C; ap_core : core; ap_apic : C }.
Arguments Ap {C}.
Arguments ap_sm {C}.
Arguments ap_core {C}.
Arguments ap_apic {C}.

Section Startup.
Context {C : Type} `{Ports C} `{Apic C} `{Others C}.

(** The addresses of the image of entryother.S and its size, of [mpenter], of [entrypgdir],
    of the kernel page table, of [idt] and of the fields [cpu] of [cpus], and the index of
    this processor. *)
Context (entryother_start entryother_size mpenter_addr entrypgdir_addr kpgdir idt : Z) (cpu_addr : nat -> Z) (me : nat).

Definition set_sm_mp (v : mpstate C) (s : smpboot C) := Smpboot v (sm_cpus s) (sm_started s) (sm_up s).
Definition set_sm_cpus v (s : smpboot C) := Smpboot (sm_mp s) v (sm_started s) (sm_up s).
Definition set_sm_started v (s : smpboot C) := Smpboot (sm_mp s) (sm_cpus s) v (sm_up s).
Definition set_sm_up v (s : smpboot C) := Smpboot (sm_mp s) (sm_cpus s) (sm_started s) v.
Definition sm_mem (s : smpboot C) : mem := mp_mem (sm_mp s).

(** ** The code of a started processor *)

(** Its registers, and the registers of the local APIC, which each processor finds at the
    same address. *)
Definition upd_core (f : core -> core) : M (ap C) unit := modify (fun a => Ap (ap_sm a) (f (ap_core a)) (ap_apic a)).
Definition upd_sm (f : smpboot C -> smpboot C) : M (ap C) unit := modify (fun a => Ap (f (ap_sm a)) (ap_core a) (ap_apic a)).
Definition on_own {A} (m : M (mpstate C) A) : M (ap C) A :=
  zoom (fun a => set_mp_ports (ap_apic a) (sm_mp (ap_sm a)))
    (fun v a => Ap (set_sm_mp (set_mp_ports (mp_ports (sm_mp (ap_sm a))) v) (ap_sm a)) (ap_core a) (mp_ports v)) m.

(** [mycpu], with interrupts disabled as they are during start-up, and [cpuid]. *)
Definition ap_mycpu : M (ap C) nat :=
  apicid <- on_own lapicid ;;
  ids <- gets (fun a => cpu_ids (sm_mp (ap_sm a))) ;;
  match list_find (fun id => id = apicid) ids with Some (i, _) => ret i | None => panic "unknown apicid
" end.

Definition ap_switchkvm : M (ap C) unit := upd_core (set_co_cr3 (V2P kpgdir)).

(** [seginit], with the instructions [lgdt] and [loadgs]. *)
Definition ap_seginit : M (ap C) unit :=
  c <- ap_mycpu ;;
  upd_sm (fun s => set_sm_cpus (<[c := seg_percpu (cpu_addr c) (sm_cpus s c)]> (sm_cpus s)) s) ;;;
  upd_core (set_co_gdt (Some c)).

Definition idtinit : M (ap C) unit := upd_core (set_co_idt (Some idt)).

(** The message of [mpmain] is not part of the state; [scheduler], with which it ends, is
    modelled in [Proc] and [System]. *)
Definition mpmain : M (ap C) unit :=
  ap_mycpu ;;;
  idtinit ;;;
  c <- ap_mycpu ;;
  upd_sm (fun s => set_sm_started (<[c := 1]> (sm_started s)) s).

Definition mpenter : M (ap C) unit :=
  ap_switchkvm ;;;
  ap_seginit ;;;
  on_own lapicinit ;;;
  mpmain.

(** entryother.S, linked for [start] = 0x7000: the page table, the stack and the function to
    call are in the words before it.  Once paging is on these words are where they were
    only if the page table is the boot page table. *)
Definition entryother (id : Z) (apic : C) : M (smpboot C) unit := fun s =>
  let start := P2V 28672 in
  let cr3 := ld32 (sm_mem s) (start - 12) in
  if negb (cr3 =? V2P entrypgdir_addr) then UB "entryother: page table" else
  let esp := ld32 (sm_mem s) (start - 4) in
  if negb (ld32 (sm_mem s) (start - 8) =? mpenter_addr) then UB "entryother: call" else
  match mpenter (Ap s (Core id esp cr3 None None) apic) with
  | Ret _ a => Ret tt (set_sm_up (sm_up (ap_sm a) ++ [ap_core a]) (ap_sm a))
  | Panic e => Panic e
  | Block c a => Block c (ap_sm a)
  | UB e => UB e
  end.

(** A processor executes what is in memory at the address where it starts. *)
Definition run_other (id addr : Z) (apic : C) : M (smpboot C) unit := fun s =>
  let n := Z.to_nat entryother_size in
  if (addr =? 28672) && bool_decide (read_bytes (sm_mem s) (P2V addr) n = read_bytes (sm_mem s) entryother_start n)
  then entryother id apic s else UB "startothers: not the code of entryother.S".

Definition others_step : M (smpboot C) unit := fun s =>
  let '(o, c) := others_turn (mp_ports (sm_mp s)) in
  let s := set_sm_mp (set_mp_ports c (sm_mp s)) s in
  match o with Some (id, addr, apic) => run_other id addr apic s | None => Ret tt s end.

(** ** The first processor *)

Definition on_mp {A} (m : M (mpstate C) A) : M (smpboot C) A := zoom sm_mp set_sm_mp m.
Definition on_machine {A} (m : M machine A) : M (smpboot C) A := on_mp (zoom mp_machine set_mp_machine m).
Definition store (a v : Z) : M (smpboot C) unit := on_mp (modify (fun s => set_mp_mem (st32 (mp_mem s) a v) s)).

Fixpoint started_loop (fuel : nat) (i : nat) : M (smpboot C) unit :=
  match fuel with
  | O => ub "startothers"
  | S fuel =>
    v <- gets (fun s => sm_started s i) ;;
    if v =? 0 then others_step ;;; started_loop fuel i else ret tt
  end.

Fixpoint startothers_loop (i : nat) (ids : list Z) : M (smpboot C) unit :=
  match ids with
  | [] => ret tt
  | apicid :: ids =>
    (if decide (i = me) then ret tt else
     let code := P2V 28672 in          (* 0x7000 *)
     stack <- on_machine kalloc ;;
     store (code - 4) (u32 (stack + KSTACKSIZE)) ;;;
     store (code - 8) mpenter_addr ;;;
     store (code - 12) (V2P entrypgdir_addr) ;;;
     on_mp (lapicstartap apicid (V2P code)) ;;;
     started_loop (S start_patience) i) ;;;
    startothers_loop (S i) ids
  end.
Definition startothers : M (smpboot C) unit :=
  on_mp (modify (fun s => set_mp_mem (memmove (mp_mem s) (P2V 28672) entryother_start entryother_size) s)) ;;;
  ids <- gets (fun s => cpu_ids (sm_mp s)) ;;
  startothers_loop 0 ids.
End Startup.

(** ** vm.c: the segments of a processor *)

Section Segments.
Context {F : Type} (c : nat).

(** The registers that [lgdt] and [loadgs] load are not part of the state here. *)
Definition seginit (cpu_addr : Z) : M (kern F) unit := upd_percpu c (seg_percpu cpu_addr).
End Segments.
