(* ===== verification/StartupProps.v ===== *)
(** * The other processors are started

    Each processor but the first is started once, in the order of the table, at the code
    of entryother.S, with a stack of its own. *)

From S2P Require Import Prelude Mmu Mem Cstring Kalloc Vm Proc Mp Lapic Startup.

(** ** What the processors do *)

Section Laws.
Context {C : Type} `{Ports C} `{Apic C} `{Others C}.

(** A write to a register of the local APIC and the read that follows it. *)
Definition lw (index value : Z) (c : C) : C := snd (apic_read ID (apic_write index (u32 value) c)).
Definition ipi (apicid command : Z) (c : C) : C := lw ICRLO command (lw ICRHI (Z.shiftl apicid 24) c).

(** The universal startup algorithm of the multiprocessor specification, for code on the
    page [page]: the shutdown code, INIT, its end, and two STARTUP interrupts. *)
Definition universal_startup (apicid page : Z) (c : C) : C :=
  let start := Z.lor STARTUP page in
  ipi apicid start (ipi apicid start (lw ICRLO (Z.lor INIT LEVEL) (ipi apicid (Z.lor (Z.lor INIT LEVEL) ASSERT) (port_out 113 10 (port_out 112 15 c))))).

(** Until a processor that was started has come into the kernel. *)
Fixpoint wait_turn (fuel : nat) (c : C) : option (Z * Z * C * C) :=
  match fuel with
  | O => None
  | S fuel => let '(o, c') := others_turn c in match o with Some x => Some (x, c') | None => wait_turn fuel c' end
  end.

(** Reading the delivery status until it is clear. *)
Fixpoint delivered (fuel : nat) (c : C) : option C :=
  match fuel with
  | O => None
  | S fuel => let '(v, c') := apic_read ICRLO c in if negb (Z.land v DELIVS =? 0) then delivered fuel c' else Some c'
  end.
End Laws.

(** What the hardware does.  The startup algorithm makes the processor with that identifier
    begin at that page, and after a while it has executed the code there.  Each processor
    has a local APIC of its own, which holds its identifier and delivers interrupts. *)
Class OtherProcessors (C : Type) `{Ports C} `{Apic C} `{Others C} := {
  starting : C -> option (Z * Z);
  own : Z -> C -> Prop;
  starts apicid page c : 0 <= apicid < 256 -> 0 <= page < 256 -> starting c = None ->
    starting (universal_startup apicid page c) = Some (apicid, page * 4096);
  comes_up c apicid addr : starting c = Some (apicid, addr) ->
    exists apic c', wait_turn start_patience c = Some (apicid, addr, apic, c') /\ starting c' = None /\ own apicid apic;
  own_id id c : own id c -> Z.shiftr (fst (apic_read ID c)) 24 = id;
  own_read id i c : own id c -> own id (snd (apic_read i c));
  own_write id i v c : own id c -> i <> ID -> own id (apic_write i v c);
  own_delivers id c : own id c -> exists c', delivered (S ipi_patience) c = Some c' /\ own id c'
}.

(** ** The code of a started processor *)

Section Other.
Context {C : Type} `{OtherProcessors C}.
Context (kpgdir idt : Z) (cpu_addr : nat -> Z).
Implicit Types s : mpstate C.

Lemma lapicw_eq index value s : lapicw index value s = Ret tt (set_mp_ports (lw index value (mp_ports s)) s).
Proof using. unfold lapicw, lapicr, lw, bind, modify, ret. cbn [mp_ports set_mp_ports]. by destruct (apic_read ID _). Qed.

Lemma own_lw id index value c : own id c -> index <> ID -> own id (lw index value c).
Proof using. intros Ho Hi. unfold lw. by apply own_read, own_write. Qed.

(** [lapicinit] on the local APIC [c] of a processor. *)
Lemma lapicinit_own id s : lapic s <> 0 -> own id (mp_ports s) -> exists c, lapicinit s = Ret tt (set_mp_ports c s) /\ own id c.
Proof using.
  intros Hl Ho. unfold lapicinit. rewrite bind_gets, (proj2 (Z.eqb_neq _ _) Hl).
  do 6 (erewrite bind_ret; [|apply lapicw_eq]). cbn [mp_ports set_mp_ports].
  set (c1 := lw LINT1 _ _). assert (Ho1 : own id c1) by (unfold c1; repeat (apply own_lw; [|done]); done).
  unfold lapicr at 1, bind at 1. cbn [mp_ports set_mp_ports]. pose proof (own_read id VER c1 Ho1) as Ho2. destruct (apic_read VER c1) as [v c2]. cbn [snd] in Ho2.
  assert (E : exists c3, (when 4 <=? Z.land (Z.shiftr v 16) 255 do lapicw PCINT MASKED) (set_mp_ports c2 s) = Ret tt (set_mp_ports c3 s) /\ own id c3).
  { destruct (_ <=? _); [rewrite lapicw_eq; eexists; split; [done|]; by apply own_lw|by exists c2]. }
  destruct E as (c3 & E & Ho3). change (set_mp_ports c2 (set_mp_ports _ s)) with (set_mp_ports c2 s). step E.
  do 6 (erewrite bind_ret; [|apply lapicw_eq]). cbn [mp_ports set_mp_ports]. set (c4 := lw ICRLO _ _).
  assert (Ho4 : own id c4) by (unfold c4; repeat (apply own_lw; [|done]); done). destruct (own_delivers id c4 Ho4) as (c5 & Ed & Ho5).
  assert (El : forall fuel t, delivered fuel (mp_ports t) = Some c5 -> delivery_loop fuel t = Ret tt (set_mp_ports c5 t)).
  { induction fuel as [|fuel IH]; intros t Et; [done|]. cbn [delivered delivery_loop] in *. unfold lapicr, bind.
    destruct (apic_read ICRLO (mp_ports t)) as [w c6]. destruct (negb _); [by rewrite (IH (set_mp_ports c6 t))|by injection Et as ->]. }
  erewrite bind_ret; [|by apply El]. rewrite lapicw_eq. eexists. split; [done|]. by apply own_lw.
Qed.

Lemma on_own_eq {A} (m : M (mpstate C) A) (s : smpboot C) r c c' x :
  m (set_mp_ports c (sm_mp s)) = Ret x (set_mp_ports c' (sm_mp s)) -> on_own m (Ap s r c) = Ret x (Ap s r c').
Proof using. intros E. unfold on_own. rewrite (zoom_ret _ _ _ _ x (set_mp_ports c' (sm_mp s))); [by destruct s as [[]]|done]. Qed.

(** [mycpu] finds the entry with the identifier of the processor. *)
Lemma ap_mycpu_eq id i (s : smpboot C) r c :
  lapic (sm_mp s) <> 0 -> NoDup (cpu_ids (sm_mp s)) -> cpu_ids (sm_mp s) !! i = Some id -> own id c ->
  exists c', ap_mycpu (Ap s r c) = Ret i (Ap s r c') /\ own id c'.
Proof using.
  intros Hl Hnd Hi Ho. pose proof (own_id id c Ho) as Eid. pose proof (own_read id ID c Ho) as Ho'. unfold ap_mycpu.
  destruct (apic_read ID c) as [v c1] eqn:Er. cbn [fst snd] in *. exists c1. split; [|done].
  assert (E : on_own lapicid (Ap s r c) = Ret id (Ap s r c1)).
  { apply on_own_eq. unfold lapicid. rewrite bind_gets. cbn [lapic set_mp_ports]. rewrite (proj2 (Z.eqb_neq _ _) Hl).
    unfold lapicr, bind. cbn [mp_ports set_mp_ports]. rewrite Er. unfold ret. by rewrite Eid. }
  step E. rewrite bind_gets. cbn [ap_sm]. destruct (list_find (fun x => x = id) (cpu_ids (sm_mp s))) as [[j x]|] eqn:Ef.
  - apply list_find_Some in Ef as (Hj & -> & _). by rewrite (NoDup_lookup _ _ _ _ Hnd Hi Hj).
  - apply list_find_None in Ef. pose proof (proj1 (Forall_lookup _ _) Ef i id Hi). done.
Qed.

(** A processor that enters at [mpenter] loads its registers, its segments and the interrupt
    table, and sets the flag of its own entry of [cpus]. *)
Definition came_up (i : nat) (r : core) (s : smpboot C) : smpboot C :=
  Smpboot (sm_mp s) (<[i := seg_percpu (cpu_addr i) (sm_cpus s i)]> (sm_cpus s)) (<[i := 1]> (sm_started s)) (sm_up s ++ [r]).

Lemma mpenter_eq id i (s : smpboot C) esp cr3 c :
  lapic (sm_mp s) <> 0 -> NoDup (cpu_ids (sm_mp s)) -> cpu_ids (sm_mp s) !! i = Some id -> own id c ->
  exists a, mpenter kpgdir idt cpu_addr (Ap s (Core id esp cr3 None None) c) = Ret tt a /\
    ap_core a = Core id esp (V2P kpgdir) (Some i) (Some idt) /\
    set_sm_up (sm_up (ap_sm a) ++ [ap_core a]) (ap_sm a) = came_up i (ap_core a) s.
Proof using.
  intros Hl Hnd Hi Ho. unfold mpenter, ap_switchkvm, upd_core. rewrite bind_modify. cbn [ap_sm ap_core ap_apic].
  set (r1 := set_co_cr3 _ _). destruct (ap_mycpu_eq id i s r1 c Hl Hnd Hi Ho) as (c1 & E1 & Ho1).
  unfold ap_seginit. rewrite bind_assoc. step E1. unfold upd_sm at 1, upd_core. rewrite bind_assoc, !bind_modify. cbn [ap_sm ap_core ap_apic].
  set (s1 := set_sm_cpus _ s). set (r2 := set_co_gdt _ r1).
  destruct (lapicinit_own id (set_mp_ports c1 (sm_mp s1)) Hl Ho1) as (c2 & E2 & Ho2).
  assert (E3 : on_own lapicinit (Ap s1 r2 c1) = Ret tt (Ap s1 r2 c2)) by (by apply on_own_eq).
  step E3. unfold mpmain. destruct (ap_mycpu_eq id i s1 r2 c2 Hl Hnd Hi Ho2) as (c3 & E4 & Ho3). step E4.
  unfold idtinit, upd_core. rewrite bind_modify. cbn [ap_sm ap_core ap_apic]. set (r3 := set_co_idt _ r2).
  destruct (ap_mycpu_eq id i s1 r3 c3 Hl Hnd Hi Ho3) as (c4 & E5 & _). step E5. eexists. split; [reflexivity|]. by split.
Qed.
End Other.

Section Startup.
Context {C : Type} `{OtherProcessors C}.
Context (entryother_start entryother_size mpenter_addr entrypgdir_addr kpgdir idt : Z) (cpu_addr : nat -> Z) (me : nat).
Context (kend : Z) (Hkend : KERNLINK <= kend <= KERNBASE + PHYSTOP).
Implicit Types s : smpboot C.

Definition warm_reset (m : mem) (addr : Z) : mem := st16 (st16 m (P2V 1127) 0) (P2V 1127 + 2) (Z.shiftr addr 4).

Lemma lapicstartap_eq apicid addr (s : mpstate C) : lapicstartap apicid addr s =
  Ret tt (set_mp_ports (universal_startup apicid (Z.shiftr addr 12) (mp_ports s)) (set_mp_mem (warm_reset (mp_mem s) addr) s)).
Proof using.
  unfold lapicstartap, out_port. cbv zeta. rewrite !bind_modify. cbv beta.
  repeat (erewrite bind_ret; [|first [apply lapicw_eq|reflexivity]]). cbn [startup_loop].
  repeat (erewrite bind_ret; [|first [apply lapicw_eq|reflexivity]]). done.
Qed.

(** ** Memory below the kernel *)

(** Stores below [kend] do not touch free pages. *)
Lemma alloc_inv_low fl (k : machine) m : (forall a, kend <= a -> ldb m a = ldb (m_mem k) a) -> alloc_inv kend k fl -> alloc_inv kend (set_m_mem m k) fl.
Proof using.
  intros Hm [Hc Hn Hp Hl Hz]. split; try done. cbn. apply (chain_ext (m_mem k)); [|done]. intros x Hx.
  pose proof (proj1 (Forall_forall _ _) Hp x Hx) as [_ Hx']. symmetry. apply ld32_ext. intros j Hj. apply Hm. lia.
Qed.

Definition CODE : Z := P2V 28672.

Definition prepared (m : mem) (stack : Z) : mem :=
  warm_reset (st32 (st32 (st32 m (CODE - 4) (u32 (stack + KSTACKSIZE))) (CODE - 8) mpenter_addr) (CODE - 12) (V2P entrypgdir_addr)) 28672.

Lemma warm_reset_ldb m addr a : a < P2V 1127 \/ P2V 1131 <= a -> ldb (warm_reset m addr) a = ldb m a.
Proof using. intros Ha. unfold warm_reset, st16. change (P2V 1131) with (P2V 1127 + 4) in Ha. rewrite !ldb_stb_ne by lia. done. Qed.

Lemma prepared_ldb m stack a : CODE <= a -> ldb (prepared m stack) a = ldb m a.
Proof using. intros Ha. unfold prepared. rewrite warm_reset_ldb by (change CODE with (P2V 1131 + 27541) in Ha; lia). by rewrite !ldb_st32_ne by lia. Qed.

Lemma ld32_warm m addr a : P2V 1131 <= a -> ld32 (warm_reset m addr) a = ld32 m a.
Proof using. intros Ha. apply ld32_ext. intros j Hj. apply warm_reset_ldb. lia. Qed.

Lemma prepared_words m stack :
  ld32 (prepared m stack) (CODE - 4) = u32 (stack + KSTACKSIZE) /\ ld32 (prepared m stack) (CODE - 8) = u32 mpenter_addr /\
  ld32 (prepared m stack) (CODE - 12) = V2P entrypgdir_addr.
Proof using.
  unfold prepared. rewrite !ld32_warm by (change CODE with (P2V 1131 + 27541); lia). rewrite ld32_st32_eq.
  rewrite (ld32_st32_ne _ _ (CODE - 4)), (ld32_st32_ne _ _ (CODE - 4)), (ld32_st32_ne _ _ (CODE - 8)), !ld32_st32_eq by lia.
  unfold V2P. by rewrite !u32_u32.
Qed.

Lemma read_above (m m' : mem) a n : CODE <= a -> (forall x, CODE <= x -> ldb m' x = ldb m x) -> read_bytes m' a n = read_bytes m a n.
Proof using. intros Ha Hm. unfold read_bytes. apply list_fmap_ext. intros k x _. apply Hm. lia. Qed.

(** ** The loop *)

(** The processors to start, from index [i] on, with their indices. *)
Fixpoint others (i : nat) (ids : list Z) : list (nat * Z) :=
  match ids with [] => [] | id :: ids => if decide (i = me) then others (S i) ids else (i, id) :: others (S i) ids end.

(** A processor in the kernel: the top of a page as its stack, the kernel page table, the
    segments of its own entry of [cpus] and the interrupt table. *)
Definition started_with (p : nat * Z) (stack : Z) : core :=
  Core (snd p) (stack + KSTACKSIZE) (V2P kpgdir) (Some (fst p)) (Some idt).

Record ready (fl : list Z) s : Prop := {
  rd_alloc : alloc_inv kend (mp_machine (sm_mp s)) fl;
  rd_lock : LkKmem ∉ m_held (mp_machine (sm_mp s));
  rd_none : starting (mp_ports (sm_mp s)) = None;
  rd_lapic : lapic (sm_mp s) <> 0;
  rd_nodup : NoDup (cpu_ids (sm_mp s));
  rd_ids : Forall (fun id => 0 <= id < 256) (cpu_ids (sm_mp s))
}.

(** The code of entryother.S is at 0x7000. *)
Definition copied s : Prop :=
  read_bytes (sm_mem s) CODE (Z.to_nat entryother_size) = read_bytes (sm_mem s) entryother_start (Z.to_nat entryother_size).

Abbreviation run_other := (run_other entryother_start entryother_size mpenter_addr entrypgdir_addr kpgdir idt cpu_addr).
Abbreviation started_loop := (started_loop entryother_start entryother_size mpenter_addr entrypgdir_addr kpgdir idt cpu_addr).
Abbreviation startothers_loop := (startothers_loop entryother_start entryother_size mpenter_addr entrypgdir_addr kpgdir idt cpu_addr me).

Lemma started_loop_eq fuel i id addr apic c' : forall s s2,
  sm_started s i = 0 -> wait_turn fuel (mp_ports (sm_mp s)) = Some (id, addr, apic, c') ->
  run_other id addr apic (set_sm_mp (set_mp_ports c' (sm_mp s)) s) = Ret tt s2 -> sm_started s2 i = 1 ->
  started_loop (S fuel) i s = Ret tt s2.
Proof using.
  induction fuel as [|fuel IH]; intros s s2 Hz Hw Hr H1z; [done|]. cbn [wait_turn] in Hw. cbn [Startup.started_loop].
  rewrite bind_gets, Hz. cbn [Z.eqb]. unfold bind at 1, others_step. destruct (others_turn (mp_ports (sm_mp s))) as [[[[id' addr'] apic']|] c1].
  - injection Hw as -> -> -> ->. rewrite Hr. rewrite bind_gets, H1z. done.
  - set (s1 := set_sm_mp _ s). exact (IH s1 s2 Hz Hw Hr H1z).
Qed.

(** What the start of processor [i] changes. *)
Record one_up (i : nat) (id stack : Z) s s' : Prop := {
  ou_up : sm_up s' = sm_up s ++ [started_with (i, id) stack];
  ou_started : sm_started s' = <[i := 1]> (sm_started s);
  ou_cpus : sm_cpus s' = <[i := seg_percpu (cpu_addr i) (sm_cpus s i)]> (sm_cpus s);
  ou_ids : cpu_ids (sm_mp s') = cpu_ids (sm_mp s);
  ou_mem : forall a, CODE <= a -> ldb (sm_mem s') a = ldb (sm_mem s) a
}.

Hypothesis Henter : 0 <= mpenter_addr < 2 ^ 32.
Hypothesis Himage : CODE <= entryother_start.

Lemma start_one i id stack fl s :
  ready (stack :: fl) s -> copied s -> cpu_ids (sm_mp s) !! i = Some id -> sm_started s i = 0 -> i <> me ->
  exists s', startothers_loop i [id] s = Ret tt s' /\ ready fl s' /\ copied s' /\ one_up i id stack s s'.
Proof using Hkend Henter Himage.
  intros [Hal Hlk Hno Hla Hnd Hids] Hco Hi Hz Hme. cbn [Startup.startothers_loop]. rewrite decide_False by done. cbv zeta. fold CODE.
  assert (Hid : 0 <= id < 256) by exact (proj1 (Forall_lookup _ _) Hids i id Hi).
  set (k1 := kalloc_upd stack (mp_machine (sm_mp s))).
  assert (Ek : on_machine kalloc s = Ret stack (set_sm_mp (set_mp_machine k1 (sm_mp s)) s)).
  { unfold on_machine, on_mp. erewrite zoom_ret; [reflexivity|]. by rewrite (zoom_ret _ _ _ _ _ _ (kalloc_some kend Hkend _ _ _ Hal Hlk)). }
  set (m' := prepared (sm_mem s) stack). set (c1 := universal_startup id 7 (mp_ports (sm_mp s))).
  pose proof (starts id 7 (mp_ports (sm_mp s)) Hid ltac:(lia) Hno) as Hst. fold c1 in Hst.
  destruct (comes_up c1 id 28672 Hst) as (apic & c2 & Ew & Hno2 & Hown).
  set (p2 := set_mp_ports c1 (set_mp_mem m' (set_mp_machine k1 (sm_mp s)))). set (s2 := set_sm_mp p2 s).
  set (s3 := set_sm_mp (set_mp_ports c2 p2) s).
  assert (Hm3 : forall a, CODE <= a -> ldb (sm_mem s3) a = ldb (sm_mem s) a) by (intros a Ha; by apply prepared_ldb).
  assert (Hco3 : copied s3).
  { unfold copied. rewrite !(read_above (sm_mem s) (sm_mem s3)) by (done || lia). exact Hco. }
  assert (Er : exists r, run_other id 28672 apic s3 = Ret tt (came_up cpu_addr i r s3) /\ r = started_with (i, id) stack).
  { unfold Startup.run_other, entryother. rewrite bool_decide_true by exact Hco3. cbn [andb Z.eqb Pos.eqb]. fold CODE.
    destruct (prepared_words (sm_mem s) stack) as (W4 & W8 & W12). change (sm_mem s3) with m'. fold m' in W4, W8, W12.
    rewrite W12, W8, W4, (u32_id mpenter_addr), !Z.eqb_refl by lia. cbn [negb].
    destruct (mpenter_eq kpgdir idt cpu_addr id i s3 (u32 (stack + KSTACKSIZE)) (V2P entrypgdir_addr) apic Hla Hnd Hi Hown) as (a & E & Ea & Es).
    rewrite E, Es. eexists. split; [done|]. rewrite Ea. unfold started_with. cbn [fst snd]. f_equal. apply u32_id.
    pose proof (proj1 (Forall_cons _ _ _) (inv_pages _ _ _ Hal)) as [Hpk _]. apply (page_ok_lo kend Hkend) in Hpk. unfold KERNBASE, PHYSTOP, KSTACKSIZE in *. lia. }
  destruct Er as (r & Er & Hr). set (s4 := came_up cpu_addr i r s3) in *.
  assert (El : started_loop (S start_patience) i s2 = Ret tt s4).
  { apply (started_loop_eq _ i id 28672 apic c2); [done|done|done|]. cbn. by rewrite functions.fn_lookup_insert. }
  exists s4. split; [|split; [|split; [done|split; try done]]].
  - erewrite bind_ret; [reflexivity|]. step Ek. unfold store, on_mp. do 3 (erewrite bind_ret; [|erewrite zoom_ret; [reflexivity|reflexivity]]).
    erewrite bind_ret; [|erewrite zoom_ret; [reflexivity|apply lapicstartap_eq]]. exact El.
  - split; try done. cbn. apply (alloc_inv_low fl k1); [|by apply kalloc_upd_inv].
    intros a Ha. apply prepared_ldb. pose proof (kend_lo kend Hkend). unfold CODE, P2V, KERNBASE in *. rewrite u32_id by lia. lia.
  - cbn. by rewrite Hr.
Qed.

Lemma startothers_loop_cons i id ids s : startothers_loop i (id :: ids) s = bind (startothers_loop i [id]) (fun _ => startothers_loop (S i) ids) s.
Proof using. cbn [Startup.startothers_loop]. rewrite bind_assoc. set (first := if decide (i = me) then _ else _). unfold bind. by destruct (first s). Qed.

(** The entries from [i] on that are not this processor's. *)
Definition is_other (i : nat) (ids : list Z) (j : nat) : bool := bool_decide (i <= j < i + length ids)%nat && negb (bool_decide (j = me)).

Record all_up (i : nat) (ids fl : list Z) s s' : Prop := {
  au_up : sm_up s' = sm_up s ++ zip_with started_with (others i ids) fl;
  au_started : forall j, sm_started s' j = if is_other i ids j then 1 else sm_started s j;
  au_cpus : forall j, sm_cpus s' j = if is_other i ids j then seg_percpu (cpu_addr j) (sm_cpus s j) else sm_cpus s j;
  au_mem : forall a, CODE <= a -> ldb (sm_mem s') a = ldb (sm_mem s) a
}.

Lemma is_other_cons i id ids j : is_other i (id :: ids) j = (bool_decide (j = i) && negb (bool_decide (i = me))) || is_other (S i) ids j.
Proof using. unfold is_other. cbn [length]. repeat case_bool_decide; cbn; try done; lia. Qed.

Lemma startothers_loop_eq ids : forall i fl s,
  ready fl s -> copied s -> (forall k id, ids !! k = Some id -> cpu_ids (sm_mp s) !! (i + k)%nat = Some id) ->
  (forall j, is_other i ids j = true -> sm_started s j = 0) -> (length (others i ids) <= length fl)%nat ->
  exists s', startothers_loop i ids s = Ret tt s' /\ ready (drop (length (others i ids)) fl) s' /\ all_up i ids fl s s'.
Proof using Hkend Henter Himage.
  induction ids as [|id ids IH]; intros i fl s Hr Hco Hids Hz Hlen.
  { exists s. cbn. rewrite drop_0. split; [done|]. split; [done|]. assert (Hn : forall j, is_other i [] j = false).
    { intros j. unfold is_other. cbn [length]. by rewrite bool_decide_false by lia. }
    split; [symmetry; apply app_nil_r|intros j; by rewrite Hn|intros j; by rewrite Hn|done]. }
  rewrite startothers_loop_cons. cbn [others] in *.
  assert (Hids' : forall k x, ids !! k = Some x -> cpu_ids (sm_mp s) !! (S i + k)%nat = Some x).
  { intros k x Hx. replace (S i + k)%nat with (i + S k)%nat by lia. by apply Hids. }
  destruct (decide (i = me)) as [Hme|Hme].
  - assert (Hn : forall j, is_other i (id :: ids) j = is_other (S i) ids j) by (intros j; rewrite is_other_cons, (bool_decide_true (i = me)), andb_false_r by done; done).
    destruct (IH (S i) fl s Hr Hco Hids') as (s' & E & Hr' & [A1 A2 A3 A4]); [intros j Hj; apply Hz; by rewrite Hn|done|]. exists s'.
    split; [|split; [done|split; [cbn [others]; by rewrite decide_True by done|intros j; rewrite Hn; apply A2|intros j; rewrite Hn; apply A3|done]]].
    cbn [Startup.startothers_loop]. rewrite decide_True by done. exact E.
  - destruct fl as [|stack fl]; [cbn in Hlen; lia|].
    assert (Hn : forall j, is_other i (id :: ids) j = bool_decide (j = i) || is_other (S i) ids j) by (intros j; rewrite is_other_cons, (bool_decide_false (i = me)), andb_true_r by done; done).
    assert (Hni : is_other (S i) ids i = false) by (unfold is_other; by rewrite bool_decide_false by lia).
    assert (H0i : sm_started s i = 0) by (apply Hz; by rewrite Hn, bool_decide_true).
    destruct (start_one i id stack fl s Hr Hco ltac:(rewrite <- (Nat.add_0_r i); by apply Hids) H0i Hme) as (s1 & E1 & Hr1 & Hco1 & [O1 O2 O3 O4 O5]).
    destruct (IH (S i) fl s1 Hr1 Hco1) as (s' & E & Hr' & [A1 A2 A3 A4]); [by rewrite O4| |cbn in Hlen; lia|].
    { intros j Hj. rewrite O2, functions.fn_lookup_insert_ne; [apply Hz; by rewrite Hn, Hj, orb_true_r|]. intros <-. congruence. }
    exists s'. split; [by step E1|]. split; [done|]. split.
    + cbn [others]. by rewrite decide_False, A1, O1, <- app_assoc by done.
    + intros j. rewrite A2, O2, Hn. case_bool_decide as Hj; [subst j; by rewrite Hni, functions.fn_lookup_insert|]. cbn [orb]. by rewrite functions.fn_lookup_insert_ne.
    + intros j. rewrite A3, O3, Hn. case_bool_decide as Hj; [subst j; by rewrite Hni, functions.fn_lookup_insert|]. cbn [orb]. by rewrite functions.fn_lookup_insert_ne.
    + intros a Ha. by rewrite A4, O5.
Qed.

(** C37.  [startothers] brings up every processor of the table but the one that runs it,
    once and in order, and waits for each.  Each of them executes entryother.S, which is
    then at 0x7000, and enters the kernel through [mpenter], with the top of a different
    free page as its stack, the kernel page table, the segments of its own entry of [cpus]
    and the interrupt table; [mpmain] sets the flag of that entry, so that in the end the
    flags of all entries are set but that of this processor, which is as it was.  The pages
    that are left are still the allocator's. *)
Theorem startothers_correct fl s :
  ready fl s -> (length (others 0 (cpu_ids (sm_mp s))) <= length fl)%nat ->
  (forall j, is_other 0 (cpu_ids (sm_mp s)) j = true -> sm_started s j = 0) ->
  0 <= entryother_size <= 4096 -> CODE + 4096 <= entryother_start ->
  exists s', startothers entryother_start entryother_size mpenter_addr entrypgdir_addr kpgdir idt cpu_addr me s = Ret tt s' /\
    sm_up s' = sm_up s ++ zip_with started_with (others 0 (cpu_ids (sm_mp s))) fl /\ NoDup fl /\
    (forall j, sm_started s' j = if is_other 0 (cpu_ids (sm_mp s)) j then 1 else sm_started s j) /\
    (forall j, sm_cpus s' j = if is_other 0 (cpu_ids (sm_mp s)) j then seg_percpu (cpu_addr j) (sm_cpus s j) else sm_cpus s j) /\
    alloc_inv kend (mp_machine (sm_mp s')) (drop (length (others 0 (cpu_ids (sm_mp s)))) fl) /\
    forall i, 0 <= i < entryother_size -> ldb (sm_mem s') (P2V 28672 + i) = ldb (sm_mem s) (entryother_start + i).
Proof using Hkend Henter Himage.
  intros Hr Hlen Hz Hsz Hst. pose proof Hr as [Hal Hlk Hno Hla Hnd Hids]. unfold startothers.
  set (m1 := memmove (sm_mem s) (P2V 28672) entryother_start entryother_size). set (s1 := set_sm_mp (set_mp_mem m1 (sm_mp s)) s).
  rewrite (bind_ret _ _ _ tt s1) by (unfold on_mp; by erewrite zoom_ret). rewrite bind_gets.
  assert (Hm1 : forall i, 0 <= i < entryother_size -> ldb m1 (CODE + i) = ldb (sm_mem s) (entryother_start + i)).
  { intros i Hi. unfold m1. fold CODE. rewrite ldb_memmove, in_range_true by lia. f_equal. lia. }
  assert (Hm2 : forall a, CODE + 4096 <= a -> ldb m1 a = ldb (sm_mem s) a).
  { intros a Ha. unfold m1. fold CODE. rewrite ldb_memmove, in_range_false by lia. done. }
  assert (Hr1 : ready fl s1).
  { split; try done. apply alloc_inv_low; [|done]. intros a Ha. apply Hm2. pose proof (kend_lo kend Hkend). unfold CODE, P2V, KERNBASE in *. rewrite u32_id by lia. lia. }
  assert (Hc1 : copied s1).
  { unfold copied, read_bytes. apply list_fmap_ext. intros k x Hx%lookup_seq. change (sm_mem s1) with m1. rewrite Hm1, Hm2 by lia. done. }
  destruct (startothers_loop_eq (cpu_ids (sm_mp s)) 0 fl s1 Hr1 Hc1 ltac:(done) Hz Hlen) as (s' & E & [Hal' _ _ _ _ _] & [A1 A2 A3 A4]). exists s'. split; [exact E|].
  split; [done|]. split; [by apply inv_nodup in Hal|]. split; [done|]. split; [done|]. split; [done|]. intros i Hi. fold CODE. rewrite A4 by lia. by apply Hm1.
Qed.
End Startup.

(** ** The segments *)

(** Kernel and user segments span the whole address space, with the privilege of the kernel
    and of user code, and the segment of the processor starts at its local storage. *)
Lemma seginit_segments {F} (c : nat) (cpu_addr : Z) (k : kern F) : 0 <= cpu_addr < 2 ^ 32 ->
  exists v k', seginit c cpu_addr k = Ret tt k' /\ k_cpus k' c = v /\ cp_proc v = None /\
    (forall i, i ∈ [SEG_KCODE; SEG_KDATA; SEG_UCODE; SEG_UDATA] ->
       exists d, cp_gdt v !! i = Some d /\ seg_base d = 0 /\ seg_limit d = 2 ^ 32 - 1 /\
         sd_dpl d = if (i =? SEG_UCODE) || (i =? SEG_UDATA) then DPL_USER else 0) /\
    exists d, cp_gdt v !! SEG_KCPU = Some d /\ seg_base d = cpu_addr /\ sd_dpl d = 0.
Proof.
  intros Ha. eexists _, _. split; [reflexivity|]. split; [reflexivity|]. cbn [k_cpus set_cpus]. rewrite functions.fn_lookup_insert. unfold seg_percpu. cbn [cp_gdt cp_proc].
  split; [done|]. split.
  - intros i Hi. repeat (apply elem_of_cons in Hi as [-> | Hi]); [..|by apply elem_of_nil in Hi];
      (eexists; split; [repeat first [rewrite lookup_insert_eq; reflexivity | rewrite lookup_insert_ne by done]|]; by vm_compute).
  - exists (SEG STA_W cpu_addr 8 0). split; [by rewrite lookup_insert_eq|]. split; [|done]. by apply (SEG_base_roundtrip STA_W cpu_addr 8 0).
Qed.

(** ** A machine with three processors *)

Module Example.

(** The identifier, the destination register, the processor that starts and after how many
    turns of the others it has come up. *)
Record sim := Sim { m_id : Z; m_hi : Z; m_starting : option (Z * Z); m_delay : nat }.

#[export] Instance sim_ports : Ports sim := {| port_in _ c := (0, c); port_out _ _ c := c |}.
#[export] Instance sim_apic : Apic sim := {|
  apic_read i c := (if i =? ID then m_id c * 2 ^ 24 else 0, c);
  apic_write i v c :=
    if i =? ICRHI then Sim (m_id c) v (m_starting c) (m_delay c)
    else if (i =? ICRLO) && (v / 256 =? 6) then Sim (m_id c) (m_hi c) (Some (m_hi c / 2 ^ 24, v mod 256 * 4096)) 1
    else c;
  ipi_patience := 0
|}.
#[export] Instance sim_others : Others sim := {|
  others_turn c :=
    match m_starting c, m_delay c with
    | Some (id, a), O => (Some (id, a, Sim id 0 None 0), Sim (m_id c) (m_hi c) None 0)
    | _, S k => (None, Sim (m_id c) (m_hi c) (m_starting c) k)
    | None, O => (None, c)
    end;
  start_patience := 2
|}.

#[export] Instance sim_processors : OtherProcessors sim.
Proof.
  refine {| starting c := match m_starting c, m_delay c with Some x, (0 | 1)%nat => Some x | _, _ => None end; own id c := m_id c = id |}.
  - intros id page [me hi st dl] Hid Hpage _. assert (Ev : u32 (Z.lor STARTUP page) = 1536 + page).
    { unfold STARTUP. rewrite (lor_add 1536 page 8) by (lia || done). apply u32_id. lia. }
    assert (Eh : u32 (Z.shiftl id 24) = id * 2 ^ 24) by (rewrite Z.shiftl_mul_pow2 by lia; apply u32_id; lia).
    assert (E6 : (1536 + page) / 256 =? 6 = true) by (apply Z.eqb_eq; symmetry; apply (Z.div_unique _ _ _ page); lia).
    assert (Ep : (1536 + page) mod 256 = page) by (symmetry; apply (Z.mod_unique _ _ 6); lia).
    unfold universal_startup, ipi, lw. cbv zeta. rewrite Ev, Eh. cbn -[Z.div Z.modulo Z.mul Z.pow Z.add]. rewrite E6, Ep. cbn -[Z.div Z.modulo Z.mul Z.pow Z.add].
    by rewrite Z.div_mul by lia.
  - intros [me hi st dl] id a Hst. cbn in Hst. destruct st as [[id' a']|]; [|done].
    destruct dl as [|[|dl]]; [| |done]; injection Hst as -> ->; (eexists _, _; split; [reflexivity|done]).
  - intros id c <-. cbn [apic_read sim_apic fst]. change (ID =? ID) with true. cbv iota. rewrite Z.shiftr_div_pow2 by lia. apply Z.div_mul. lia.
  - by intros id i c <-.
  - intros id i v c <- _. cbn. destruct (i =? ICRHI); [done|]. by destruct (_ && _).
  - intros id c <-. by exists c.
Defined.

(** Two pages are free; processor 0 starts processors 4 and 6. *)
Definition start : smpboot sim :=
  Smpboot (Mpstate boot2 [0; 4; 6] 0 4276092928 (Sim 0 0 None 0)) (fun _ => Percpu None ∅ 0 0 0 0) (fun _ => 0) [].

Lemma startothers_correct_witness :
  exists s', startothers 2148532224 64 2148536320 2148540416 2148999168 2149003264 (fun i => 2149007360 + 176 * Z.of_nat i) 0 start = Ret tt s' /\
    sm_up s' = [Core 4 2149588992 1515520 (Some 1%nat) (Some 2149003264); Core 6 2149584896 1515520 (Some 2%nat) (Some 2149003264)] /\
    (sm_started s' <$> seq 0 4) = [0; 1; 1; 0] /\ alloc_inv kend0 (mp_machine (sm_mp s')) [].
Proof.
  destruct (startothers_correct 2148532224 64 2148536320 2148540416 2148999168 2149003264 (fun i => 2149007360 + 176 * Z.of_nat i) 0 kend0 kend0_ok
    ltac:(lia) ltac:(vm_compute; discriminate) [0x80201000; 0x80200000] start) as (s' & E & Hup & _ & Hst & _ & Hal & _).
  - split; [exact boot2_inv|vm_compute; inversion 1|reflexivity|discriminate|apply (bool_decide_unpack _); vm_compute; exact I|].
    repeat constructor; cbn; lia.
  - vm_compute. lia.
  - reflexivity.
  - lia.
  - vm_compute. discriminate.
  - exists s'. split; [exact E|]. split; [rewrite Hup; vm_compute; reflexivity|]. split; [|exact Hal].
    cbn [fmap list_fmap seq]. rewrite !Hst. vm_compute. reflexivity.
Defined.
End Example.
